(* ===== verification/_CoqProject ===== *)
-Q . S2P
Prelude.v
Array.v
Queue.v
Bitmap.v
Alloc.v
Cpu.v
Vm.v
Kheap.v
HeapProofs.v
HeapFree.v
HeapChecks.v
HeapSpec.v
Errm.v
Malloc.v
MallocProofs.v
MallocSpec.v
Libc.v
LibcProofs.v
Menu.v
Printf.v
PrintfProofs.v
Uio.v
UioProofs.v
Console.v
ConsoleProofs.v
ConsoleTheorems.v
Lhd.v
LhdProofs.v
SfsDisk.v
Sfs.v
SfsBlock.v
SfsInv.v
SfsBmap.v
SfsIo.v
SfsSpec.v
SfsTrunc.v
SfsAbs.v
SfsVnode.v
SfsDir.v
SfsNames.v
SfsNaming.v
SfsVolume.v
SfsDemo.v
SfsFiles.v
SfsMount.v
SfsTheorems.v
Mksfs.v
SfsFlaws.v
Vfs.v
VfsOps.v
VfsSpec.v
VfsProofs.v
VfsCalls.v
VfsPaths.v
VfsTable.v
VfsMount.v
SfsVfs.v
VfsTheorems.v
Kernel.v
Thread.v
Machine.v
ThreadOps.v
ThreadInv.v
Logic.v
SynchProofs.v
SynchRules.v
Lifecycle.v
ForkExit.v
Interrupts.v
Safety.v
Paging.v
Process.v
Loadelf.v
ProcessProofs.v
SyscallProofs.v
UserProofs.v
LoadelfProofs.v
Programs.v
System.v
Processes.v
