(* ===== verification/Prelude.v ===== *)
(** OS/161: a verification of the kernel, its file systems, its C library and
    the tools around them.

    * The program

    OS/161 is a small operating system in C for a simulated MIPS machine.
    The kernel (kern/) has a thread system with semaphores, locks and
    condition variables, process ids, a simple virtual memory system, a heap,
    device drivers on the LAMEbus (disk, serial console), a virtual file
    system (VFS) with the disk file system SFS under it, and a console with
    formatted output.  The C library (lib/libc) is shared by the kernel and
    the user programs; sbin/mksfs makes empty volumes.

    C functions are Rocq functions of the same name.  A C value that may go
    wrong is a [res]: a return, a failed [assert] or a call of [panic], an
    access the language leaves undefined, or a bounded loop without fuel.
    Functions that return an error number are in the error-and-state monad
    [EM] of Errm.v; code that can switch threads is the tree [kcode] of
    Thread.v.  Integers are [Z] with the wrap-around of their type written
    out.  Whether [kmalloc] succeeds is decided by a list of outcomes.

    * The files

    - Prelude.v: outcomes, machine integers, blocks of storage, loops, error
      numbers, C strings, tactics and the hints for widths.
    - Array.v, Queue.v, Bitmap.v: kern/lib/array.c, queue.c, bitmap.c, each
      shown to refine a list, a FIFO and a set of indices.
    - Cpu.v, Vm.v: interrupt levels (spl.c), physical memory (ram.c) and
      dumbvm.c: page faults install exactly the page of the address space, and
      [as_copy] gives an isolated copy.
    - Kheap.v, HeapProofs.v, HeapFree.v, HeapChecks.v, HeapSpec.v:
      kern/lib/kheap.c.  Every client of [kmalloc] and [kfree] sees a table of
      independent blocks, and the heap passes its own checks.
    - Errm.v: the monad [EM] and its weakest preconditions.
    - Libc.v, LibcProofs.v, Menu.v: memory and string functions, [atoi],
      [strtok_r], and the splitting of command lines in menu.c.
    - Printf.v, PrintfProofs.v: __printf.c and snprintf.c.  A format is a list
      of pieces; what is printed is the text of the pieces.  A send function
      is anything in the class [Sender].
    - Uio.v, UioProofs.v: copyinout.c and uio.c.
    - Console.v, ConsoleProofs.v, ConsoleTheorems.v: the serial driver lser.c,
      console.c, kprintf.c, kgets.c and beep.c; output under any interleaving
      of threads, handlers and the port, and the line editor against one on
      lists.
    - Lhd.v, LhdProofs.v: the disk driver lhd.c.
    - SfsDisk.v, Sfs.v, SfsBlock.v, SfsInv.v, SfsBmap.v, SfsIo.v, SfsSpec.v,
      SfsTrunc.v, SfsAbs.v, SfsVnode.v, SfsDir.v, SfsNames.v, SfsNaming.v,
      SfsVolume.v, SfsFiles.v, SfsMount.v, SfsTheorems.v: the file system
      (kern/fs/sfs) from its on-disk layout to a refinement of an abstract
      volume.  Reads of the disk may fail, writes may not ([writes_fine]):
      the code takes a failed write for a success.  The operations keep the
      invariant [fs_inv] and lose no block ([no_loss]: what the free map has
      in use is the system's or a file's); [fsat t] is the volume seen from
      outside, with no block lost if [t].  SfsDemo.v has an instance,
      SfsFlaws.v what the file system does not do.
    - Mksfs.v: sbin/mksfs, whose image mounts as an empty volume.
    - Vfs.v, VfsOps.v, VfsSpec.v, VfsProofs.v, VfsCalls.v, VfsPaths.v,
      VfsTable.v, VfsMount.v, SfsVfs.v, VfsTheorems.v: kern/fs/vfs against the
      classes [FsOps], [DevOps] and their laws [FsSpec], [DevSpec]; SFS and
      the disk are instances.  All references are accounted for, while memory
      does not run out, the disks do not fail and no directory is linked.
    - Kernel.v, Thread.v, Machine.v, ThreadOps.v, ThreadInv.v, Logic.v,
      SynchProofs.v, SynchRules.v, Lifecycle.v, ForkExit.v, Interrupts.v,
      Safety.v, Programs.v, System.v: pids, scheduler, threads, semaphores,
      locks, condition variables, the clock, context switches and interrupts.
      A program logic with an invariant proves that every program that keeps
      the rules of [disciplined] (in which [cv_signal] and [cv_broadcast] give
      up the lock, as the code does and synch.h does not say), and every user
      process of a [runnable] file within [follows], never fails an assertion,
      whatever the interrupts do, while no [kmalloc] fails.
    - Paging.v, Process.v, ProcessProofs.v, SyscallProofs.v, UserProofs.v: user
      processes.  Process.v has the accesses to memory through the TLB and the
      page-fault handler, [copyin] and [copyout], the console as the system
      calls use it, the system calls (system_calls_PI.c), their dispatcher
      (syscall.c), traps from user mode (trap.c) and reboot (main.c).  A user
      program is a tree [user]; [follows] in UserProofs.v says which answers
      of the kernel it has to reckon with.
    - Loadelf.v, LoadelfProofs.v: loadelf.c, runprogram.c and the thread of the
      menu that runs a program.
    - Processes.v: address spaces of different processes are apart in physical
      memory; a program that prints, forks and waits, run from boot to the end
      of its last thread.
    - Alloc.v: what an allocator promises, as the classes [Allocator] and
      [AllocSpec], and the theorem on their clients; the kernel's heap and the
      C library's are instances.
    - Malloc.v, MallocProofs.v, MallocSpec.v: lib/libc/malloc.c, on an [sbrk]
      from the class [BreakSpec].

    * Bounds and fuel

    A loop that is not structural has a fuel, and the theorems that a function
    returns include that the fuel is enough.  Doubling loops (array and queue
    sizes) have 32 steps, for 32-bit sizes; [q_addtail] and [q_grow] call each
    other at most twice; the wake-up loop has the number of sleepers; the heap
    walks lists of at most 256 page references; [uiomove] needs three turns
    with one buffer, [uiomovezeros] one for every 16 bytes; string loops have
    the number of mapped bytes; a number has at most 32 digits; [sfs_rwblock]
    tries ten times, as the source does; [kgets] reads one key in a turn and
    [con_io] moves one byte. The loops of
    [malloc] have a turn for every 8 bytes of heap, the size of a header;
    zero-filling a segment has one for every 16 bytes and two more.
    Sizes in theorems are bounded where the source's own arithmetic would
    wrap; what happens beyond is in the theorems on wrapping.

    * Not modelled

    Assembly (start, exception entry, switch, TLB instructions) is not C; what
    the C code needs of it is in the definitions that call it.  Registers of
    the simulated devices and their probing (kern/dev/lamebus other than the
    disk and the serial port) are I/O; the clock, the keys and the status
    words of the disk are streams.  The machine of threads and processes has
    no VFS in it: a program's file is known by what reading it answers, and
    [shutdown] leaves out the calls of vfslist.c, which VfsOps.v has.  Names
    of threads and locks, and the freeing of buffers, are left out of that
    machine.  The menu's table of commands, kern/test, kern/asst2, testbin and
    the user programs of bin and sbin (other than mksfs) are clients of the
    modelled code; kern/vm is a stub. *)

From Stdlib Require Import ZArith Lia.
From stdpp Require Import base numbers list option gmap.

Open Scope Z_scope.

(** * Outcomes of kernel code

    [Ret] is a normal return; [Panic] is a failed [assert] or a call of
    [panic]; [Undef] is behaviour the C source leaves undefined (an access
    out of a block's bounds, a NULL dereference, a read of storage nobody
    has written); [NoFuel] is the answer of a bounded interpreter of a loop
    whose bound was too small. *)
Inductive res (A : Type) : Type :=
  | Ret (a : A)
  | Panic
  | Undef
  | NoFuel.
Arguments Ret {A} a.
Arguments Panic {A}.
Arguments Undef {A}.
Arguments NoFuel {A}.

#[global] Instance res_mret : MRet res := @Ret.
#[global] Instance res_mbind : MBind res := λ A B f m,
  match m with
  | Ret a => f a
  | Panic => Panic
  | Undef => Undef
  | NoFuel => NoFuel
  end.

(** [assert(b)]. *)
Definition kassert (b : bool) : res unit := if b then Ret tt else Panic.

(** Dereferencing a pointer that may be NULL. *)
Definition deref {A} (p : option A) : res A :=
  match p with Some a => Ret a | None => Undef end.

Lemma mbind_Ret {A B} (a : A) (f : A → res B) : (Ret a ≫= f) = f a.
Proof. reflexivity. Qed.

Lemma mbind_Ret_inv {A B} (m : res A) (f : A → res B) b :
  (m ≫= f) = Ret b → ∃ a, m = Ret a ∧ f a = Ret b.
Proof. destruct m; simpl; naive_solver. Qed.

Lemma mbind_assoc {A B C} (m : res A) (f : A → res B) (g : B → res C) :
  ((m ≫= f) ≫= g) = (m ≫= λ a, f a ≫= g).
Proof. by destruct m. Qed.

Lemma kassert_Ret b u : kassert b = Ret u → b = true.
Proof. by destruct b. Qed.

Lemma kassert_true b : b = true → kassert b = Ret tt.
Proof. by intros ->. Qed.

(** * Machine integers

    [int] is a 32-bit two's complement integer, [u_int32_t], [size_t] and
    addresses are 32-bit unsigned ones, [u_int16_t] and [unsigned char] the
    narrower ones (kern/arch/mips/include/types.h). *)
Definition u32 (z : Z) : Z := z mod 4294967296.
Definition u16 (z : Z) : Z := z mod 65536.
Definition u8 (z : Z) : Z := z mod 256.
Definition s32 (z : Z) : Z := (z + 2147483648) mod 4294967296 - 2147483648.

Definition is_u32 (z : Z) : Prop := 0 ≤ z < 4294967296.
Definition is_s32 (z : Z) : Prop := -2147483648 ≤ z < 2147483648.
Definition is_u16 (z : Z) : Prop := 0 ≤ z < 65536.
Definition is_u8 (z : Z) : Prop := 0 ≤ z < 256.

Lemma u32_id z : is_u32 z → u32 z = z.
Proof. intros. by apply Z.mod_small. Qed.
Lemma s32_id z : is_s32 z → s32 z = z.
Proof. unfold is_s32, s32. intros. rewrite Z.mod_small; lia. Qed.
Lemma u16_id z : is_u16 z → u16 z = z.
Proof. intros. by apply Z.mod_small. Qed.
Lemma u8_id z : is_u8 z → u8 z = z.
Proof. intros. by apply Z.mod_small. Qed.
Lemma u32_range z : is_u32 (u32 z).
Proof. apply Z.mod_pos_bound. lia. Qed.
Lemma u8_range z : is_u8 (u8 z).
Proof. apply Z.mod_pos_bound. lia. Qed.
Lemma s32_range z : is_s32 (s32 z).
Proof. unfold is_s32, s32. pose proof (Z.mod_pos_bound (z + 2147483648) 4294967296). lia. Qed.

Lemma u32_plus a b : u32 (u32 a + b) = u32 (a + b).
Proof. apply Zplus_mod_idemp_l. Qed.
Lemma s32_plus a b : s32 (s32 a + b) = s32 (a + b).
Proof.
  unfold s32. f_equal. replace ((a + 2147483648) mod 4294967296 - 2147483648 + b + 2147483648) with ((a + 2147483648) mod 4294967296 + b) by lia.
  rewrite Zplus_mod_idemp_l. f_equal. lia.
Qed.

(** Width facts: [eauto with width] proves that a value is in the range of its
    type, [autorewrite with width] removes conversions that change nothing. *)
Create HintDb width.
#[export] Hint Resolve u32_range s32_range u8_range : width.
#[export] Hint Extern 2 (is_u32 _) => (unfold is_u32; lia) : width.
#[export] Hint Extern 2 (is_s32 _) => (unfold is_s32; lia) : width.
#[export] Hint Extern 2 (is_u16 _) => (unfold is_u16; lia) : width.
#[export] Hint Extern 2 (is_u8 _) => (unfold is_u8; lia) : width.
#[export] Hint Rewrite u32_id s32_id u16_id u8_id using (solve [eauto 2 with width]) : width.

(** A single bit of a word. *)
Lemma land_mask w o : 0 ≤ o → (Z.land w (2 ^ o) =? 0) = negb (Z.testbit w o).
Proof.
  intros Ho. destruct (Z.testbit w o) eqn:E; simpl.
  - apply Z.eqb_neq. intros H. apply (f_equal (λ x, Z.testbit x o)) in H.
    rewrite Z.land_spec, E, Z.pow2_bits_true, Z.bits_0 in H by lia. done.
  - apply Z.eqb_eq. apply Z.bits_inj'. intros n Hn.
    rewrite Z.land_spec, Z.bits_0, Z.pow2_bits_eqb by lia.
    destruct (Z.eqb_spec o n) as [->|]; [by rewrite E|]. apply andb_false_r.
Qed.

(** * Blocks of storage indexed by a C integer *)

Definition zget {A} (l : list A) (i : Z) : option A :=
  if 0 <=? i then l !! Z.to_nat i else None.

(** Reading and writing one cell; an index out of the block is undefined. *)
Definition load {A} (l : list A) (i : Z) : res A :=
  match zget l i with Some x => Ret x | None => Undef end.
Definition store {A} (l : list A) (i : Z) (x : A) : res (list A) :=
  if (0 <=? i) && (i <? Z.of_nat (length l))
  then Ret (<[Z.to_nat i := x]> l) else Undef.

Lemma zget_nat {A} (l : list A) (i : nat) : zget l (Z.of_nat i) = l !! i.
Proof. unfold zget. rewrite (proj2 (Z.leb_le _ _)) by lia. by rewrite Nat2Z.id. Qed.

Lemma zget_lookup {A} (l : list A) i :
  0 ≤ i → zget l i = l !! Z.to_nat i.
Proof. intros. unfold zget. by rewrite (proj2 (Z.leb_le _ _)). Qed.

Lemma zget_Some_range {A} (l : list A) i x :
  zget l i = Some x → 0 ≤ i < Z.of_nat (length l).
Proof.
  unfold zget. destruct (Z.leb_spec 0 i); [|done].
  intros ?%lookup_lt_Some. lia.
Qed.

Lemma load_in_range {A} (l : list A) i :
  0 ≤ i < Z.of_nat (length l) → ∃ x, load l i = Ret x ∧ l !! Z.to_nat i = Some x.
Proof.
  intros. unfold load. rewrite zget_lookup by lia.
  destruct (lookup_lt_is_Some_2 l (Z.to_nat i)) as [x Hx]; [lia|].
  rewrite Hx. eauto.
Qed.

Lemma load_lookup {A} (l : list A) i x :
  0 ≤ i → l !! Z.to_nat i = Some x → load l i = Ret x.
Proof. intros ? H. unfold load. rewrite zget_lookup by done. by rewrite H. Qed.

Lemma load_Ret_inv {A} (l : list A) i x :
  load l i = Ret x → 0 ≤ i ∧ l !! Z.to_nat i = Some x.
Proof.
  unfold load, zget. destruct (Z.leb_spec 0 i); [|done].
  destruct (l !! Z.to_nat i); [|done]. naive_solver.
Qed.

Lemma store_in_range {A} (l : list A) i x :
  0 ≤ i < Z.of_nat (length l) → store l i x = Ret (<[Z.to_nat i := x]> l).
Proof.
  intros. unfold store.
  by rewrite (proj2 (Z.leb_le _ _)), (proj2 (Z.ltb_lt _ _)) by lia.
Qed.

Lemma store_Ret_inv {A} (l l' : list A) i x :
  store l i x = Ret l' →
  0 ≤ i < Z.of_nat (length l) ∧ l' = <[Z.to_nat i := x]> l.
Proof.
  unfold store. destruct (Z.leb_spec 0 i); [|done].
  destruct (Z.ltb_spec i (Z.of_nat (length l))); [|done]. naive_solver lia.
Qed.

(** * Allocation

    Whether [kmalloc] succeeds is decided by an oracle: the outcomes of the
    calls to come, in order; past its end every call succeeds. *)
Abbreviation oracle := (list bool).

Definition kmalloc_ok (o : oracle) : bool * oracle :=
  match o with [] => (true, []) | b :: o' => (b, o') end.

(** * Loops

    [for (i=lo; i<lo+n; i++) body]. *)
Fixpoint zfor {S} (n : nat) (i : Z) (body : Z → S → res S) (s : S) : res S :=
  match n with
  | O => Ret s
  | Datatypes.S n' => s' ← body i s; zfor n' (i + 1) body s'
  end.

Lemma zfor_inv {S} (P : Z → S → Prop) n i (body : Z → S → res S) s :
  P i s →
  (∀ j s, i ≤ j < i + Z.of_nat n → P j s → ∃ s', body j s = Ret s' ∧ P (j + 1) s') →
  ∃ s', zfor n i body s = Ret s' ∧ P (i + Z.of_nat n) s'.
Proof.
  revert i s. induction n as [|n IH]; intros i s Hs Hb; cbn [zfor].
  - exists s. by rewrite Z.add_0_r.
  - destruct (Hb i s) as (s1 & E & H1); [lia|done|]. rewrite E, mbind_Ret.
    destruct (IH (i + 1) s1 H1) as (s' & E' & H').
    + intros j s2 Hj. apply Hb. lia.
    + exists s'. split; [done|].
      by replace (i + Z.of_nat (Datatypes.S n)) with (i + 1 + Z.of_nat n) by lia.
Qed.

(** * Error numbers (kern/include/kern/errno.h) *)
Definition EINVAL : Z := 1.
Definition EFAULT : Z := 2.
Definition ENAMETOOLONG : Z := 3.
Definition ENOMEM : Z := 4.
Definition EIO : Z := 5.
Definition ENOENT : Z := 6.
Definition ENOTDIR : Z := 7.
Definition EISDIR : Z := 8.
Definition EEXIST : Z := 9.
Definition EXDEV : Z := 10.
Definition EAGAIN : Z := 11.
Definition ESPIPE : Z := 12.
Definition EUNIMP : Z := 13.
Definition ENXIO : Z := 14.
Definition ENODEV : Z := 15.
Definition EBUSY : Z := 16.
Definition EIOCTL : Z := 17.
Definition ENOSPC : Z := 20.
Definition ENOSYS : Z := 23.
Definition ENOEXEC : Z := 24.
Definition E2BIG : Z := 25.
Definition EBADF : Z := 26.

(** * Flags of open, file types, limits (kern/unistd.h, stat.h, limits.h) *)
Definition O_RDONLY : Z := 0.
Definition O_WRONLY : Z := 1.
Definition O_RDWR : Z := 2.
Definition O_ACCMODE : Z := 3.
Definition O_CREAT : Z := 4.
Definition O_EXCL : Z := 8.
Definition O_TRUNC : Z := 16.
Definition O_APPEND : Z := 32.
Definition S_IFMT : Z := 28672.
Definition S_IFREG : Z := 4096.
Definition S_IFDIR : Z := 8192.
Definition S_IFCHR : Z := 16384.
Definition S_IFBLK : Z := 20480.
Definition NAME_MAX : Z := 255.
Definition PATH_MAX : Z := 1024.

(** * Booleans of comparisons *)
Ltac bcases :=
  repeat match goal with
  | |- context [?a =? ?b] => destruct (Z.eqb_spec a b)
  | |- context [?a <=? ?b] => destruct (Z.leb_spec a b)
  | |- context [?a <? ?b] => destruct (Z.ltb_spec a b)
  end; simpl; first [done | lia].

(** * Moving cells inside one block

    What [memmove] does to a block when source and destination are in it:
    [n] cells at index [s] end up at index [d], the two ranges may overlap.
    A range that leaves the block is undefined. *)
Definition memmove_cells {A} (b : list A) (d s n : nat) : res (list A) :=
  if decide (d + n ≤ length b ∧ s + n ≤ length b)%nat
  then Ret (take d b ++ take n (drop s b) ++ drop (d + n) b) else Undef.

(** * C strings

    The lists of their bytes before the NUL. *)
Fixpoint cstr (l : list Z) : list Z :=
  match l with
  | [] => []
  | c :: l' => if c =? 0 then [] else c :: cstr l'
  end.

Lemma cstr_app l r : Forall (λ c, 0 < c < 256) l → cstr (l ++ 0 :: r) = l.
Proof.
  induction 1 as [|c l Hc Hl IH]; [done|]. cbn [app cstr]. rewrite (proj2 (Z.eqb_neq c 0)) by lia. by rewrite IH.
Qed.

(** * Tactics *)

(** Invert every [_ ≫= _ = Ret _] and [kassert _ = Ret _] in sight. *)
Ltac rinv :=
  repeat match goal with
  | H : (?m ≫= ?f) = Ret ?b |- _ =>
      apply mbind_Ret_inv in H as (? & ? & ?)
  | H : kassert _ = Ret _ |- _ => apply kassert_Ret in H
  | H : Ret _ = Ret _ |- _ => injection H as H
  | H : Panic = Ret _ |- _ => discriminate H
  | H : Undef = Ret _ |- _ => discriminate H
  | H : NoFuel = Ret _ |- _ => discriminate H
  | x : (_ * _)%type |- _ => destruct x
  end; simplify_eq/=.

(** Step over an [assert] whose condition arithmetic decides. *)
Ltac kstep :=
  match goal with
  | |- context [kassert ?b ≫= ?f] =>
      rewrite (kassert_true b); [rewrite mbind_Ret|lia]
  end.

(** Turn boolean comparisons in the context into propositions. *)
Ltac zb :=
  repeat match goal with
  | H : (_ && _) = true |- _ => apply andb_true_iff in H as [? ?]
  | H : (_ && _) = false |- _ => apply andb_false_iff in H
  | H : (_ || _) = true |- _ => apply orb_true_iff in H
  | H : (_ || _) = false |- _ => apply orb_false_iff in H as [? ?]
  | H : negb _ = true |- _ => apply negb_true_iff in H
  | H : negb _ = false |- _ => apply negb_false_iff in H
  | H : (_ =? _) = true |- _ => apply Z.eqb_eq in H
  | H : (_ =? _) = false |- _ => apply Z.eqb_neq in H
  | H : (_ <? _) = true |- _ => apply Z.ltb_lt in H
  | H : (_ <? _) = false |- _ => apply Z.ltb_ge in H
  | H : (_ <=? _) = true |- _ => apply Z.leb_le in H
  | H : (_ <=? _) = false |- _ => apply Z.leb_gt in H
  end.

(** Decide one integer comparison of the goal, by arithmetic if it can be. *)
Ltac zcase :=
  match goal with
  | |- context [?a <=? ?b] => destruct (Z.leb_spec a b)
  | |- context [?a <? ?b] => destruct (Z.ltb_spec a b)
  | |- context [?a =? ?b] => destruct (Z.eqb_spec a b)
  end; try lia; cbn [andb orb negb].
