(* ===== verification/Array.v ===== *)
(** The resizable array of pointers (kern/lib/array.c).

    [array] is [struct array]; [a_v] is [None] when the C pointer is NULL and
    otherwise the block of [a_max] cells it points to, a cell nobody has
    written being [None].  [array_rep a l] says that [a] represents the list
    [l]; every operation is shown to act on the represented list, to fail
    only the way the source says, and never to leave its block. *)

From Stdlib Require Import ZArith Lia.
From stdpp Require Import base numbers list option gmap.
From S2P Require Import Prelude.

Open Scope Z_scope.

Section Array.
Context {A : Type}.

Record array := mkArray { a_num : Z; a_max : Z; a_v : option (list (option A)) }.

Definition array_create (o : oracle) : option array * oracle :=
  let '(ok, o') := kmalloc_ok o in
  if ok then (Some (mkArray 0 0 None), o') else (None, o').

Definition array_getnum (a : array) : Z := a_num a.

Definition array_getguy (a : array) (index : Z) : res A :=
  _ ← kassert (a_num a <=? a_max a);
  _ ← kassert ((0 <=? index) && (index <? a_num a));
  blk ← deref (a_v a);
  cell ← load blk index;
  deref cell.

(** [while (nguys > newmax) newmax = (newmax+1)*2]. *)
Fixpoint array_newmax (fuel : nat) (nguys newmax : Z) : res Z :=
  if newmax <? nguys then
    match fuel with
    | O => NoFuel
    | S fuel' => array_newmax fuel' nguys (s32 (s32 (newmax + 1) * 2))
    end
  else Ret newmax.

Definition array_preallocate (o : oracle) (a : array) (nguys : Z)
  : res (Z * array * oracle) :=
  _ ← kassert ((0 <=? a_num a) && (a_num a <=? a_max a));
  newmax ← array_newmax 32 nguys (a_max a);
  let '(ok, o') := kmalloc_ok o in
  if ok then
    let newv := replicate (Z.to_nat (u32 (newmax * 4) / 4)) None in
    newv' ← zfor (Z.to_nat (a_num a)) 0 (λ i nv,
      blk ← deref (a_v a);
      cell ← load blk i;
      store nv i cell) newv;
    Ret (0, mkArray (a_num a) newmax (Some newv'), o')
  else Ret (ENOMEM, a, o').

Definition array_setsize (o : oracle) (a : array) (nguys : Z)
  : res (Z * array * oracle) :=
  _ ← kassert ((0 <=? a_num a) && (a_num a <=? a_max a));
  if a_max a <? nguys then
    '(result, a', o') ← array_preallocate o a nguys;
    if result =? 0
    then Ret (0, mkArray nguys (a_max a') (a_v a'), o')
    else Ret (result, a', o')
  else if (nguys =? 0) && (16 <? a_max a) then
    _ ← kassert (match a_v a with Some _ => true | None => false end);
    Ret (0, mkArray nguys 0 None, o)
  else Ret (0, mkArray nguys (a_max a) (a_v a), o).

Definition array_setguy (a : array) (index : Z) (ptr : A) : res array :=
  _ ← kassert (a_num a <=? a_max a);
  _ ← kassert ((0 <=? index) && (index <? a_num a));
  blk ← deref (a_v a);
  blk' ← store blk index (Some ptr);
  Ret (mkArray (a_num a) (a_max a) (Some blk')).

Definition array_add (o : oracle) (a : array) (guy : A)
  : res (Z * array * oracle) :=
  let ix := a_num a in
  '(result, a', o') ← array_setsize o a (ix + 1);
  if result =? 0 then
    blk ← deref (a_v a');
    blk' ← store blk ix (Some guy);
    Ret (0, mkArray (a_num a') (a_max a') (Some blk'), o')
  else Ret (result, a', o').

Definition array_remove (a : array) (index : Z) : res array :=
  _ ← kassert (a_num a <=? a_max a);
  _ ← kassert ((0 <=? index) && (index <? a_num a));
  let nmove := a_num a - (index + 1) in
  blk ← deref (a_v a);
  blk' ← memmove_cells blk (Z.to_nat index) (Z.to_nat (index + 1)) (Z.to_nat nmove);
  Ret (mkArray (a_num a - 1) (a_max a) (Some blk')).

(** ** What an array represents *)

(** The largest element count the lemmas allow: sizes stay far enough below
    2^31 for [(newmax+1)*2] and the byte count [4*newmax] not to wrap. *)
Definition array_lim : Z := 268435456.

Definition array_rep (a : array) (l : list A) : Prop :=
  a_num a = Z.of_nat (length l) ∧
  a_num a ≤ a_max a ≤ 2 * array_lim ∧
  match a_v a with
  | None => a_max a = 0
  | Some blk => Z.of_nat (length blk) = a_max a ∧ take (length l) blk = Some <$> l
  end.

Lemma array_rep_nil : array_rep (mkArray 0 0 None) [].
Proof. unfold array_rep, array_lim. simpl. lia. Qed.

Lemma array_newmax_ok fuel nguys newmax :
  0 ≤ newmax ≤ 2 * array_lim → nguys ≤ array_lim →
  nguys ≤ (newmax + 2) * 2 ^ Z.of_nat fuel - 2 →
  ∃ m, array_newmax fuel nguys newmax = Ret m ∧
    newmax ≤ m ≤ 2 * array_lim ∧ nguys ≤ m.
Proof.
  unfold array_lim. revert newmax.
  induction fuel as [|fuel IH]; intros newmax Hn Hg Hf; simpl;
    destruct (Z.ltb_spec newmax nguys); [simpl in Hf; lia|eauto with lia| |eauto with lia].
  rewrite (s32_id (newmax + 1)) by (unfold is_s32; lia).
  rewrite s32_id by (unfold is_s32; lia).
  rewrite Nat2Z.inj_succ, Z.pow_succ_r in Hf by lia.
  destruct (IH ((newmax + 1) * 2)) as (m & E & ? & ?); [lia|lia|nia|].
  exists m. split; [done|]. lia.
Qed.

(** The copy loop of [array_preallocate]. *)
Lemma array_copy_ok (blk new : list (option A)) (n : nat) :
  (n ≤ length blk)%nat → (n ≤ length new)%nat →
  ∃ new', zfor n 0 (λ i nv,
      b ← deref (Some blk); cell ← load b i; store nv i cell) new = Ret new' ∧
    length new' = length new ∧ take n new' = take n blk.
Proof.
  intros Hb Hn.
  destruct (zfor_inv (λ i nv, length nv = length new ∧
      take (Z.to_nat i) nv = take (Z.to_nat i) blk) n 0
      (λ i nv, b ← deref (Some blk); cell ← load b i; store nv i cell) new)
    as (new' & E & H1 & H2); [by rewrite !take_0| |].
  - intros j nv Hj [Hl Ht]. cbn [deref]. rewrite mbind_Ret.
    destruct (load_in_range blk j) as (x & Hx & Hlk); [lia|].
    rewrite Hx, mbind_Ret, store_in_range by lia.
    eexists; split; [done|]. rewrite length_insert. split; [done|].
    rewrite !(Z2Nat.inj_add j 1), !Nat.add_1_r by lia.
    rewrite (take_S_r blk _ x), (take_S_r _ _ x); [|by apply list_lookup_insert_eq; lia|done].
    by rewrite take_insert_ge, Ht by lia.
  - rewrite Z.add_0_l, Nat2Z.id in H2. eauto.
Qed.

(** Growing the block keeps the contents, and running out of memory changes
    nothing. *)
Lemma array_preallocate_ok o a l nguys :
  array_rep a l → nguys ≤ array_lim →
  ∃ a', array_preallocate o a nguys =
      Ret (if (kmalloc_ok o).1 then 0 else ENOMEM, a', (kmalloc_ok o).2) ∧
    array_rep a' l ∧ a_num a' = a_num a ∧
    ((kmalloc_ok o).1 = true → a_max a ≤ a_max a' ∧ nguys ≤ a_max a' ∧ a_v a' ≠ None) ∧
    ((kmalloc_ok o).1 = false → a' = a).
Proof.
  intros (Hn & Hm & Hv) Hg. unfold array_preallocate.
  kstep.
  destruct (array_newmax_ok 32 nguys (a_max a)) as (m & -> & Hm1 & Hm2);
    [lia|lia|unfold array_lim in *; lia|].
  rewrite mbind_Ret. destruct (kmalloc_ok o) as [[] o']; simpl.
  2:{ exists a. repeat split; auto; lia. }
  unfold array_lim in *.
  rewrite u32_id, Z.div_mul by (unfold is_u32; lia).
  rewrite Hn, Nat2Z.id.
  destruct (a_v a) as [blk|] eqn:Ev.
  - destruct Hv as [Hv1 Hv2].
    destruct (array_copy_ok blk (replicate (Z.to_nat m) None) (length l))
      as (new' & -> & H1 & H2); [lia|rewrite length_replicate; lia|].
    rewrite length_replicate in H1.
    simpl. eexists; split; [done|]. unfold array_rep, array_lim; simpl.
    rewrite H2. repeat split; try done; lia.
  - assert (l = []) as -> by (apply length_zero_iff_nil; lia). simpl.
    eexists; split; [done|]. unfold array_rep, array_lim; simpl.
    rewrite length_replicate. repeat split; try done; lia.
Qed.

(** Within the preallocated capacity [array_add] allocates nothing and
    cannot fail. *)
Lemma array_add_prealloc o a l x :
  array_rep a l → Z.of_nat (length l) < a_max a →
  ∃ a', array_add o a x = Ret (0, a', o) ∧ array_rep a' (l ++ [x]) ∧ a_max a' = a_max a.
Proof.
  intros (Hn & Hm & Hv) Hc. unfold array_add, array_setsize.
  kstep.
  rewrite (proj2 (Z.ltb_ge _ _)) by lia.
  rewrite (proj2 (Z.eqb_neq _ _)) by lia. simpl.
  destruct (a_v a) as [blk|]; [|lia]. destruct Hv as [Hv1 Hv2]. cbn [deref].
  rewrite mbind_Ret, store_in_range, mbind_Ret by lia.
  eexists; split; [done|]. unfold array_rep; simpl.
  rewrite length_app, length_insert, fmap_app, Hn, Nat2Z.id. simpl.
  rewrite Nat.add_1_r, (take_S_r _ _ (Some x)) by (apply list_lookup_insert_eq; lia).
  rewrite take_insert_ge, Hv2 by lia. repeat split; try done; lia.
Qed.

(** [array_add] in general: it appends, or reports ENOMEM and changes
    nothing. *)
Lemma array_add_ok o a l x :
  array_rep a l → Z.of_nat (length l) < array_lim →
  (∃ a' o', array_add o a x = Ret (0, a', o') ∧ array_rep a' (l ++ [x]) ∧
     (o' = o ∨ o' = (kmalloc_ok o).2)) ∨
  (∃ o', array_add o a x = Ret (ENOMEM, a, o') ∧ (kmalloc_ok o).1 = false).
Proof.
  intros Hr Hl. destruct (decide (Z.of_nat (length l) < a_max a)) as [Hc|Hc].
  { destruct (array_add_prealloc o a l x Hr Hc) as (a' & ? & ? & ?). left; eauto 10. }
  pose proof Hr as (Hn & Hm & Hv).
  destruct (array_preallocate_ok o a l (a_num a + 1)) as (a1 & E & Hr1 & Hn1 & Hs & Hf);
    [done|unfold array_lim in *; lia|].
  unfold array_add, array_setsize.
  kstep.
  rewrite (proj2 (Z.ltb_lt _ _)) by lia. rewrite E, mbind_Ret.
  destruct (kmalloc_ok o) as [[] o'] eqn:Eo; simpl in *.
  - left. destruct (Hs eq_refl) as (? & ? & Hnn).
    destruct Hr1 as (Hn' & Hm' & Hv').
    destruct (a_v a1) as [blk|] eqn:Eb; [|done]. destruct Hv' as [Hv1 Hv2]. simpl.
    rewrite store_in_range, mbind_Ret by lia. do 2 eexists; split; [done|].
    unfold array_rep; simpl.
    rewrite length_app, length_insert, fmap_app, Hn, Nat2Z.id. simpl.
    rewrite Nat.add_1_r, (take_S_r _ _ (Some x)) by (apply list_lookup_insert_eq; lia).
    rewrite take_insert_ge, Hv2 by lia. repeat split; try done; try lia. by right.
  - right. rewrite (Hf eq_refl). eauto.
Qed.

Lemma array_getguy_ok a l i x :
  array_rep a l → l !! i = Some x → array_getguy a (Z.of_nat i) = Ret x.
Proof.
  intros (Hn & Hm & Hv) Hx. pose proof (lookup_lt_Some _ _ _ Hx).
  unfold array_getguy.
  kstep.
  kstep.
  destruct (a_v a) as [blk|]; [|lia]. destruct Hv as [Hv1 Hv2]. cbn [deref].
  rewrite mbind_Ret, (load_lookup _ _ (Some x)); [done|lia|].
  rewrite Nat2Z.id, <- (lookup_take_lt blk (length l)), Hv2 by lia.
  by rewrite list_lookup_fmap, Hx.
Qed.

Lemma array_rep_inj a l l' : array_rep a l → array_rep a l' → l = l'.
Proof.
  intros (E1 & B & E2) (E1' & _ & E2'). assert (length l' = length l) as El by lia. destruct (a_v a) as [blk|].
  - destruct E2 as [_ E2], E2' as [_ E2']. rewrite El, E2 in E2'. by apply (inj (fmap Some)) in E2'.
  - destruct l as [|x l], l' as [|x' l']; try done; simpl in *; lia.
Qed.

Lemma array_getguy_out a l i :
  array_rep a l → ¬ (0 ≤ i < Z.of_nat (length l)) → array_getguy a i = Panic.
Proof.
  intros (Hn & Hm & Hv) Hi. unfold array_getguy.
  kstep.
  destruct (Z.leb_spec 0 i), (Z.ltb_spec i (a_num a)); simpl; try done. lia.
Qed.

Lemma array_setguy_ok a l i x :
  array_rep a l → (i < length l)%nat →
  ∃ a', array_setguy a (Z.of_nat i) x = Ret a' ∧ array_rep a' (<[i:=x]> l).
Proof.
  intros (Hn & Hm & Hv) Hi. unfold array_setguy.
  kstep.
  kstep.
  destruct (a_v a) as [blk|]; [|lia]. destruct Hv as [Hv1 Hv2]. cbn [deref].
  rewrite mbind_Ret, store_in_range, mbind_Ret by lia.
  eexists; split; [done|]. unfold array_rep; simpl.
  rewrite !length_insert, Nat2Z.id, take_insert_lt, Hv2 by lia.
  rewrite list_fmap_insert. repeat split; try done; lia.
Qed.

Lemma array_remove_ok a l i :
  array_rep a l → (i < length l)%nat →
  ∃ a', array_remove a (Z.of_nat i) = Ret a' ∧ array_rep a' (delete i l) ∧ a_max a' = a_max a.
Proof.
  intros (Hn & Hm & Hv) Hi. unfold array_remove.
  kstep.
  kstep.
  destruct (a_v a) as [blk|]; [|lia]. destruct Hv as [Hv1 Hv2]. cbn [deref].
  rewrite mbind_Ret. unfold memmove_cells. rewrite decide_True by lia. rewrite mbind_Ret.
  eexists; split; [done|]. unfold array_rep; simpl.
  rewrite !length_app, !length_take, !length_drop, length_delete
    by (apply lookup_lt_is_Some_2; lia).
  split; [|done]. split; [lia|]. split; [lia|]. split; [lia|].
  replace (Z.to_nat (Z.of_nat i + 1)) with (S i) by lia. rewrite Nat2Z.id.
  replace (Z.to_nat (a_num a - (Z.of_nat i + 1))) with (length l - S i)%nat by lia.
  rewrite app_assoc, take_app_le
    by (rewrite length_app, !length_take, length_drop; lia).
  rewrite take_ge by (rewrite length_app, !length_take, length_drop; lia).
  rewrite (delete_take_drop l i), fmap_app, !fmap_take, !fmap_drop, <- Hv2.
  rewrite take_take, Nat.min_l by lia.
  rewrite take_drop_commute. by replace (S i + (length l - S i))%nat with (length l) by lia.
Qed.

Lemma array_setsize_0 o a l :
  array_rep a l → ∃ a', array_setsize o a 0 = Ret (0, a', o) ∧ array_rep a' [] ∧
    (a_max a' = a_max a ∨ a_max a' = 0 ∧ 16 < a_max a).
Proof.
  intros (Hn & Hm & Hv). unfold array_setsize.
  kstep.
  rewrite (proj2 (Z.ltb_ge _ _)) by lia. simpl.
  destruct (Z.ltb_spec 16 (a_max a)).
  - destruct (a_v a); [|lia]. simpl. eexists; split; [done|].
    unfold array_rep, array_lim; simpl. repeat split; auto; lia.
  - eexists; split; [done|]. unfold array_rep; simpl.
    destruct (a_v a); repeat split; try done; try lia; destruct Hv; auto.
Qed.

(** ** The contract of an array: a list

    The operations a client may call, their answers, and the list machine
    they are allowed to behave like.  Allocation may fail at any growing
    operation, which must then leave the list alone; an index out of range
    stops the machine. *)

Inductive array_op :=
  | AAdd (x : A)
  | AGet (i : Z)
  | ASet (i : Z) (x : A)
  | ARemove (i : Z)
  | APreallocate (n : Z)
  | AClear
  | ANum.

Inductive answer :=
  | ACode (result : Z)
  | AVal (x : A).

Definition array_do (o : oracle) (a : array) (op : array_op)
    : res (answer * array * oracle) :=
  match op with
  | AAdd x => '(r, a', o') ← array_add o a x; Ret (ACode r, a', o')
  | AGet i => x ← array_getguy a i; Ret (AVal x, a, o)
  | ASet i x => a' ← array_setguy a i x; Ret (ACode 0, a', o)
  | ARemove i => a' ← array_remove a i; Ret (ACode 0, a', o)
  | APreallocate n => '(r, a', o') ← array_preallocate o a n; Ret (ACode r, a', o')
  | AClear => '(r, a', o') ← array_setsize o a 0; Ret (ACode r, a', o')
  | ANum => Ret (ACode (array_getnum a), a, o)
  end.

Fixpoint array_run (o : oracle) (a : array) (ops : list array_op) : res (list answer) :=
  match ops with
  | [] => Ret []
  | op :: ops' =>
      '(ans, a', o') ← array_do o a op;
      rest ← array_run o' a' ops';
      Ret (ans :: rest)
  end.

Definition op_index (op : array_op) : option Z :=
  match op with
  | AGet i | ASet i _ | ARemove i => Some i
  | _ => None
  end.

Inductive list_step : list A → array_op → answer → list A → Prop :=
  | ls_add l x : list_step l (AAdd x) (ACode 0) (l ++ [x])
  | ls_add_nomem l x : list_step l (AAdd x) (ACode ENOMEM) l
  | ls_get l i x : l !! i = Some x → list_step l (AGet (Z.of_nat i)) (AVal x) l
  | ls_set l i x : (i < length l)%nat →
      list_step l (ASet (Z.of_nat i) x) (ACode 0) (<[i:=x]> l)
  | ls_remove l i : (i < length l)%nat →
      list_step l (ARemove (Z.of_nat i)) (ACode 0) (delete i l)
  | ls_prealloc l n : list_step l (APreallocate n) (ACode 0) l
  | ls_prealloc_nomem l n : list_step l (APreallocate n) (ACode ENOMEM) l
  | ls_clear l : list_step l AClear (ACode 0) []
  | ls_num l : list_step l ANum (ACode (Z.of_nat (length l))) l.

Inductive list_run : list A → list array_op → res (list answer) → Prop :=
  | lr_nil l : list_run l [] (Ret [])
  | lr_cons l op ops ans l' r :
      list_step l op ans l' → list_run l' ops r →
      list_run l (op :: ops) (rest ← r; Ret (ans :: rest))
  | lr_range l op ops i :
      op_index op = Some i → ¬ (0 ≤ i < Z.of_nat (length l)) →
      list_run l (op :: ops) Panic.

(** Requests stay within the sizes whose arithmetic does not wrap. *)
Definition op_ok (op : array_op) : Prop :=
  match op with APreallocate n => n ≤ array_lim | _ => True end.

Lemma array_index_panic o a l op i :
  array_rep a l → op_index op = Some i → ¬ (0 ≤ i < Z.of_nat (length l)) →
  array_do o a op = Panic.
Proof.
  intros Hr Hop Hi. pose proof Hr as (Hn & Hm & _).
  destruct op; simplify_eq/=; [by rewrite (array_getguy_out _ _ _ Hr)| |].
  - unfold array_setguy. kstep.
    destruct (Z.leb_spec 0 i), (Z.ltb_spec i (a_num a)); simpl; try done; lia.
  - unfold array_remove. kstep.
    destruct (Z.leb_spec 0 i), (Z.ltb_spec i (a_num a)); simpl; try done; lia.
Qed.

(** One operation on the array is one step of the list machine. *)
Lemma array_do_step o a l op :
  array_rep a l → op_ok op → Z.of_nat (length l) < array_lim →
  (∀ i, op_index op = Some i → 0 ≤ i < Z.of_nat (length l)) →
  ∃ ans a' o' l', array_do o a op = Ret (ans, a', o') ∧ array_rep a' l' ∧
    list_step l op ans l' ∧ (length l' ≤ S (length l))%nat.
Proof.
  intros Hr Hok Hlim Hix. destruct op as [x|i|i x|i|n| |]; simpl in *.
  - destruct (array_add_ok o a l x Hr Hlim) as [(a' & o' & -> & H & _)|(o' & -> & _)].
    + do 4 eexists; split; [done|]. split; [done|]. split; [constructor|].
      rewrite length_app; simpl; lia.
    + do 4 eexists; split; [done|]. split; [done|]. split; [constructor|lia].
  - specialize (Hix i eq_refl). destruct (Z_of_nat_complete i) as [k ->]; [lia|].
    destruct (lookup_lt_is_Some_2 l k) as [x Hx]; [lia|]. rewrite (array_getguy_ok _ _ _ _ Hr Hx).
    do 4 eexists; split; [done|]. split; [done|]. split; [by constructor|lia].
  - specialize (Hix i eq_refl). destruct (Z_of_nat_complete i) as [k ->]; [lia|].
    destruct (array_setguy_ok a l k x Hr) as (a' & -> & H); [lia|].
    do 4 eexists; split; [done|]. split; [done|]. split; [constructor; lia|].
    rewrite length_insert; lia.
  - specialize (Hix i eq_refl). destruct (Z_of_nat_complete i) as [k ->]; [lia|].
    destruct (array_remove_ok a l k Hr) as (a' & -> & H & _); [lia|].
    do 4 eexists; split; [done|]. split; [done|]. split; [constructor; lia|].
    rewrite length_delete; [lia|apply lookup_lt_is_Some_2; lia].
  - destruct (array_preallocate_ok o a l n Hr Hok) as (a' & -> & H & _).
    do 4 eexists; split; [done|]. split; [done|].
    split; [destruct (kmalloc_ok o).1; constructor|lia].
  - destruct (array_setsize_0 o a l Hr) as (a' & -> & H & _).
    do 4 eexists; split; [done|]. split; [done|]. split; [constructor|simpl; lia].
  - do 4 eexists; split; [done|]. split; [done|].
    unfold array_getnum. destruct Hr as (-> & _). split; [constructor|lia].
Qed.

Lemma array_run_list o a l ops :
  array_rep a l → Forall op_ok ops →
  Z.of_nat (length l + length ops) < array_lim →
  list_run l ops (array_run o a ops).
Proof.
  revert o a l. induction ops as [|op ops IH]; intros o a l Hr Hok Hlim.
  { constructor. }
  apply Forall_cons in Hok as [Hok1 Hok]. simpl in *.
  assert ((∀ i, op_index op = Some i → 0 ≤ i < Z.of_nat (length l)) ∨
    ∃ i, op_index op = Some i ∧ ¬ (0 ≤ i < Z.of_nat (length l))) as [Hi|(i & Hi & Ho)].
  { destruct (op_index op) as [i|]; [|by left].
    destruct (decide (0 ≤ i < Z.of_nat (length l))); [left; naive_solver|right; eauto]. }
  - destruct (array_do_step o a l op) as (ans & a' & o' & l' & -> & Hr' & Hs & Hl);
      [done..|lia|done|].
    rewrite mbind_Ret. eapply lr_cons; [done|]. apply IH; [done..|lia].
  - rewrite (array_index_panic o a l op i) by done. by eapply lr_range.
Qed.

(** Adding a whole list, and whether every call succeeded. *)
Fixpoint array_adds (o : oracle) (a : array) (xs : list A) : res (Z * array * oracle) :=
  match xs with
  | [] => Ret (0, a, o)
  | x :: xs' =>
      '(r, a', o') ← array_add o a x;
      if r =? 0 then array_adds o' a' xs' else Ret (r, a', o')
  end.

Lemma array_adds_room o a l xs :
  array_rep a l → Z.of_nat (length l + length xs) ≤ a_max a →
  ∃ a', array_adds o a xs = Ret (0, a', o) ∧ array_rep a' (l ++ xs) ∧ a_max a' = a_max a.
Proof.
  revert a l. induction xs as [|x xs IH]; intros a l Hr Hc; simpl in *.
  { exists a. by rewrite app_nil_r. }
  destruct (array_add_prealloc o a l x Hr) as (a1 & -> & Hr1 & Hm1); [lia|]. simpl.
  destruct (IH a1 (l ++ [x]) Hr1) as (a' & -> & Hr' & Hm');
    [rewrite Hm1, length_app; simpl; lia|].
  exists a'. rewrite <- app_assoc in Hr'. split_and!; [done..|by rewrite Hm'].
Qed.

End Array.
Arguments array : clear implicits.
Arguments array_op : clear implicits.
Arguments answer : clear implicits.

(** C8: every sequence of array operations, whatever allocations fail in
    it, gives the answers the list machine allows: contents are those of a
    list, a failed allocation reports ENOMEM and loses nothing, an index out
    of range stops the kernel, and no access leaves the block. *)
Theorem array_refines_list {A} (o o' : oracle) (a : array A) (ops : list (array_op A)) :
  array_create o = (Some a, o') → Forall op_ok ops →
  Z.of_nat (length ops) < array_lim →
  list_run [] ops (array_run o' a ops).
Proof.
  unfold array_create. destruct (kmalloc_ok o) as [[] o1]; intros H Hok Hl; simplify_eq.
  apply array_run_list; [apply array_rep_nil|done|done].
Qed.

Lemma array_refines_list_witness :
  let ops := [APreallocate 4; AAdd 7%nat; AAdd 8%nat; AAdd 9%nat; ARemove 1; AGet 1; AGet 2] in
  list_run [] ops (array_run [true; true] (mkArray 0 0 None) ops).
Proof.
  intros ops. apply (array_refines_list [true; true; true] [true; true] (mkArray 0 0 None) ops).
  - reflexivity.
  - repeat (apply Forall_cons; split; [unfold op_ok, array_lim; simpl; done|]). apply Forall_nil_2.
  - unfold array_lim; simpl; lia.
Defined.

(** C11: once [array_preallocate] has returned 0 for [nguys], adding elements
    up to [nguys] in all needs no memory: it succeeds under any allocator and
    leaves the allocator alone. *)
Theorem array_preallocate_reserves {A} (o o1 o2 : oracle) (a a1 : array A) l xs nguys :
  array_rep a l → nguys ≤ array_lim →
  array_preallocate o a nguys = Ret (0, a1, o1) →
  Z.of_nat (length l + length xs) ≤ nguys →
  ∃ a2, array_adds o2 a1 xs = Ret (0, a2, o2) ∧ array_rep a2 (l ++ xs).
Proof.
  intros Hr Hg E Hl.
  destruct (array_preallocate_ok o a l nguys Hr Hg) as (a' & E' & Hr' & _ & Hs & _).
  rewrite E in E'. destruct (kmalloc_ok o) as [[] o']; simpl in *; simplify_eq.
  destruct (Hs eq_refl) as (? & ? & _).
  destruct (array_adds_room o2 a' l xs Hr') as (a2 & ? & ? & _); [lia|]. eauto.
Qed.

Lemma array_preallocate_reserves_witness :
  ∃ a2, array_adds [false; false] (mkArray 0 6 (Some (replicate 6 None))) [1; 2; 3]%nat
    = Ret (0, a2, [false; false]) ∧ array_rep a2 ([] ++ [1; 2; 3]%nat).
Proof.
  apply (array_preallocate_reserves [] [] [false; false] (mkArray 0 0 None) _ [] [1;2;3]%nat 3);
    [apply array_rep_nil|unfold array_lim; lia|reflexivity|simpl; lia].
Defined.
