(* ===== verification/Queue.v ===== *)
(** The ring-buffer queue of pointers (kern/lib/queue.c).

    [queue] is [struct queue]; a ring of [q_size] cells holds at most
    [q_size - 1] elements.  [q_grow] and [q_addtail] call each other: [q_grow]
    refills the new ring with [q_addtail].  The recursion is bounded by a
    fuel; [q_addtail_ok] shows that a fuel of 2 always suffices, because the
    inner calls never grow again.  [queue_rep q l] says that [q] holds the
    elements [l], oldest first. *)

From Stdlib Require Import ZArith Lia.
From stdpp Require Import base numbers list option gmap.
From S2P Require Import Prelude.

Open Scope Z_scope.

Section Queue.
Context {A : Type}.

Record queue := mkQueue {
  q_size : Z;
  q_nextwrite : Z;
  q_nextread : Z;
  q_data : list (option A)
}.

(** [while (nsize < targetsize) { nsize *= 2; assert(nsize > 0); }]. *)
Fixpoint q_nsize (fuel : nat) (targetsize nsize : Z) : res Z :=
  if nsize <? targetsize then
    match fuel with
    | O => NoFuel
    | S fuel' =>
        let nsize' := s32 (nsize * 2) in
        _ ← kassert (0 <? nsize');
        q_nsize fuel' targetsize nsize'
    end
  else Ret nsize.

(** [for (i=onr; i!=onw; i = (i+1)%osize) { result = q_addtail(q, olddata[i]);
    assert(result==0); }], with [q_addtail] passed in. *)
Fixpoint q_refill (addtail : oracle → queue → A → res (Z * queue * oracle))
    (fuel : nat) (olddata : list (option A)) (osize onw i : Z)
    (o : oracle) (q : queue) : res (queue * oracle) :=
  if i =? onw then Ret (q, o) else
  match fuel with
  | O => NoFuel
  | S fuel' =>
      cell ← load olddata i;
      x ← deref cell;
      '(result, q', o') ← addtail o q x;
      _ ← kassert (result =? 0);
      q_refill addtail fuel' olddata osize onw (Z.rem (s32 (i + 1)) osize) o' q'
  end.

Definition q_grow (addtail : oracle → queue → A → res (Z * queue * oracle))
    (o : oracle) (q : queue) (targetsize : Z) : res (Z * queue * oracle) :=
  let olddata := q_data q in
  let onr := q_nextread q in
  let onw := q_nextwrite q in
  let osize := q_size q in
  nsize ← q_nsize 32 targetsize (q_size q);
  let '(ok, o') := kmalloc_ok o in
  if ok then
    let ndata := replicate (Z.to_nat (u32 (nsize * 4) / 4)) None in
    '(q', o'') ← q_refill addtail (Z.to_nat osize) olddata osize onw onr o'
                   (mkQueue nsize 0 0 ndata);
    Ret (0, q', o'')
  else Ret (ENOMEM, q, o').

Fixpoint q_addtail_fuel (fuel : nat) (o : oracle) (q : queue) (ptr : A)
    : res (Z * queue * oracle) :=
  match fuel with
  | O => NoFuel
  | S fuel' =>
      _ ← kassert (0 <? q_size q);
      let nextnext := Z.rem (s32 (q_nextwrite q + 1)) (q_size q) in
      if nextnext =? q_nextread q then
        '(result, q', o') ← q_grow (q_addtail_fuel fuel') o q (s32 (q_size q + 1));
        if result =? 0 then
          let nextnext' := Z.rem (s32 (q_nextwrite q' + 1)) (q_size q') in
          d ← store (q_data q') (q_nextwrite q') (Some ptr);
          Ret (0, mkQueue (q_size q') nextnext' (q_nextread q') d, o')
        else Ret (result, q', o')
      else
        d ← store (q_data q) (q_nextwrite q) (Some ptr);
        Ret (0, mkQueue (q_size q) nextnext (q_nextread q) d, o)
  end.

Definition q_addtail : oracle → queue → A → res (Z * queue * oracle) :=
  q_addtail_fuel 2.

Definition q_create (o : oracle) (sz : Z) : option queue * oracle :=
  let '(ok, o1) := kmalloc_ok o in
  if ok then
    let '(ok2, o2) := kmalloc_ok o1 in
    if ok2 then
      (Some (mkQueue sz 0 0 (replicate (Z.to_nat (u32 (sz * 4) / 4)) None)), o2)
    else (None, o2)
  else (None, o1).

Definition q_preallocate (o : oracle) (q : queue) (sz : Z) : res (Z * queue * oracle) :=
  _ ← kassert (0 <? q_size q);
  if q_size q <? sz then q_grow q_addtail o q sz
  else Ret (0, q, o).

Definition q_empty (q : queue) : bool := q_nextwrite q =? q_nextread q.

Definition q_remhead (q : queue) : res (A * queue) :=
  _ ← kassert (0 <? q_size q);
  _ ← kassert (negb (q_empty q));
  cell ← load (q_data q) (q_nextread q);
  ret ← deref cell;
  Ret (ret, mkQueue (q_size q) (q_nextwrite q) (Z.rem (s32 (q_nextread q + 1)) (q_size q)) (q_data q)).

Definition q_destroy (q : queue) : res unit := kassert (q_empty q).

Definition q_getstart (q : queue) : Z := q_nextread q.
Definition q_getend (q : queue) : Z := q_nextwrite q.
Definition q_getsize (q : queue) : Z := q_size q.

Definition q_getguy (q : queue) (index : Z) : res A :=
  _ ← kassert ((0 <=? index) && (index <? q_size q));
  cell ← load (q_data q) index;
  deref cell.

(** ** What a queue represents *)

(** Rings up to this size can double without wrapping. *)
Definition queue_lim : Z := 268435456.

Definition queue_rep (q : queue) (l : list A) : Prop :=
  0 < q_size q ≤ 2 * queue_lim ∧
  0 ≤ q_nextread q < q_size q ∧
  Z.of_nat (length l) < q_size q ∧
  q_nextwrite q = (q_nextread q + Z.of_nat (length l)) mod q_size q ∧
  Z.of_nat (length (q_data q)) = q_size q ∧
  ∀ k x, l !! k = Some x →
    q_data q !! Z.to_nat ((q_nextread q + Z.of_nat k) mod q_size q) = Some (Some x).

(** Successor on the ring. *)
Lemma ring_succ sz i :
  0 < sz ≤ 2 * queue_lim → 0 ≤ i < sz →
  Z.rem (s32 (i + 1)) sz = (i + 1) mod sz.
Proof.
  unfold queue_lim. intros. rewrite s32_id by (unfold is_s32; lia).
  by rewrite Z.rem_mod_nonneg by lia.
Qed.

Lemma ring_neq sz a k1 k2 :
  0 < sz → 0 ≤ k1 < sz → 0 ≤ k2 < sz →
  (a + k1) mod sz = (a + k2) mod sz → k1 = k2.
Proof.
  intros Hs H1 H2 E.
  assert (((a + k1) - (a + k2)) mod sz = 0) as E0
    by (rewrite Zminus_mod, E, Z.sub_diag; apply Z.mod_0_l; lia).
  replace (a + k1 - (a + k2)) with (k1 - k2) in E0 by lia.
  apply Z.mod_divide in E0; [|lia]. destruct E0 as [c Hc].
  destruct (Z.lt_trichotomy c 0) as [?|[->|?]]; nia.
Qed.

Lemma queue_rep_nw q l : queue_rep q l → 0 ≤ q_nextwrite q < q_size q.
Proof. intros (? & ? & ? & -> & _). apply Z.mod_pos_bound. lia. Qed.

(** A full ring: one more step of the writer meets the reader. *)
Lemma queue_rep_full q l :
  queue_rep q l → q_size q = Z.of_nat (length l) + 1 →
  (q_nextwrite q + 1) mod q_size q = q_nextread q.
Proof.
  intros (Hs & Hr & Hl & Hw & _) Hf. rewrite Hw, Zplus_mod_idemp_l.
  replace (q_nextread q + Z.of_nat (length l) + 1) with (q_nextread q + 1 * q_size q) by lia.
  rewrite Z.mod_add by lia. apply Z.mod_small; lia.
Qed.

Lemma q_empty_ok q l : queue_rep q l → q_empty q = bool_decide (l = []).
Proof.
  intros (Hs & Hr & Hl & Hw & Hd & Hk). unfold q_empty.
  apply Bool.eq_iff_eq_true. rewrite Z.eqb_eq, bool_decide_eq_true.
  rewrite Hw. split.
  - intros E. assert (0 = Z.of_nat (length l)) as E'.
    { apply (ring_neq (q_size q) (q_nextread q)); try lia.
      rewrite E, Z.add_0_r, Z.mod_small; lia. }
    apply length_zero_iff_nil. lia.
  - intros ->. simpl. rewrite Z.add_0_r, Z.mod_small; lia.
Qed.

(** Adding while there is a spare cell: no allocation, no failure. *)
Lemma q_addtail_room fuel o q l x :
  queue_rep q l → Z.of_nat (length l) + 1 < q_size q →
  ∃ q', q_addtail_fuel (S fuel) o q x = Ret (0, q', o) ∧
    queue_rep q' (l ++ [x]) ∧ q_size q' = q_size q.
Proof.
  intros Hrep Hroom. pose proof (queue_rep_nw _ _ Hrep) as Hnw.
  destruct Hrep as (Hs & Hr & Hl & Hw & Hd & Hk). simpl. kstep.
  rewrite ring_succ by done.
  assert ((q_nextwrite q + 1) mod q_size q
          = (q_nextread q + (Z.of_nat (length l) + 1)) mod q_size q) as E1.
  { rewrite Hw, Zplus_mod_idemp_l. f_equal. lia. }
  rewrite E1. rewrite (proj2 (Z.eqb_neq _ _)).
  2:{ intros E. enough (Z.of_nat (length l) + 1 = 0) by lia.
      apply (ring_neq (q_size q) (q_nextread q)); try lia.
      rewrite E, Z.add_0_r, Z.mod_small; lia. }
  rewrite store_in_range, mbind_Ret by lia.
  eexists; split; [done|]. unfold queue_rep; simpl.
  rewrite length_app, length_insert. simpl. repeat split; try lia.
  intros k y Hy. apply lookup_app_Some in Hy as [Hy|[Hk1 Hy]].
  - pose proof (lookup_lt_Some _ _ _ Hy).
    rewrite list_lookup_insert_ne; [by apply Hk|].
    intros E. apply Z2Nat.inj in E; [|lia|apply Z.mod_pos_bound; lia].
    rewrite Hw in E. enough (Z.of_nat (length l) = Z.of_nat k) by lia.
    apply (ring_neq (q_size q) (q_nextread q)); lia.
  - apply list_lookup_singleton_Some in Hy as [Hk2 <-].
    replace k with (length l) by lia. rewrite <- Hw.
    apply list_lookup_insert_eq. lia.
Qed.

Lemma q_nsize_ok fuel target n :
  0 < n ≤ 2 * queue_lim → target ≤ queue_lim → target ≤ n * 2 ^ Z.of_nat fuel →
  ∃ m, q_nsize fuel target n = Ret m ∧ n ≤ m ≤ 2 * queue_lim ∧ target ≤ m ∧
    (m = n ∨ m < 2 * target).
Proof.
  unfold queue_lim. revert n.
  induction fuel as [|fuel IH]; intros n Hn Ht Hf; cbn [q_nsize];
    destruct (Z.ltb_spec n target); [simpl in Hf; lia|eauto with lia| |eauto with lia].
  rewrite s32_id by (unfold is_s32; lia). kstep.
  rewrite Nat2Z.inj_succ, Z.pow_succ_r in Hf by lia.
  destruct (IH (n * 2)) as (m & -> & ? & ? & ?); [lia|lia|nia|].
  exists m. split; [done|]. lia.
Qed.

Lemma queue_rep_fresh n :
  0 < n ≤ 2 * queue_lim →
  queue_rep (mkQueue n 0 0 (replicate (Z.to_nat (u32 (n * 4) / 4)) None)) [].
Proof.
  intros Hn. unfold queue_rep, queue_lim in *; simpl.
  rewrite u32_id, Z.div_mul, length_replicate by (unfold is_u32; lia).
  rewrite Z.mod_0_l by lia. repeat split; try lia. done.
Qed.

(** The refill loop of [q_grow] moves the elements over in order; its inner
    calls of [q_addtail] find room and do not allocate. *)
Lemma q_refill_ok f fuel q l k o qn ln :
  queue_rep q l → (k ≤ length l)%nat → (length l - k ≤ fuel)%nat →
  queue_rep qn ln → Z.of_nat (length ln + (length l - k)) < q_size qn →
  ∃ q', q_refill (q_addtail_fuel (S f)) fuel (q_data q) (q_size q) (q_nextwrite q)
          ((q_nextread q + Z.of_nat k) mod q_size q) o qn = Ret (q', o) ∧
    queue_rep q' (ln ++ drop k l) ∧ q_size q' = q_size qn.
Proof.
  intros Hq. pose proof Hq as (Hs & Hr & Hl & Hw & Hd & Hk).
  revert k qn ln. induction fuel as [|fuel IH]; intros k qn ln Hkl Hf Hn Hroom;
    cbn [q_refill].
  - assert (k = length l) as -> by lia.
    rewrite <- Hw, Z.eqb_refl, drop_all, app_nil_r. eauto.
  - destruct (decide (k = length l)) as [->|Hne].
    { rewrite <- Hw, Z.eqb_refl, drop_all, app_nil_r. eauto. }
    destruct (lookup_lt_is_Some_2 l k) as [x Hx]; [lia|].
    rewrite (proj2 (Z.eqb_neq _ _)).
    2:{ rewrite Hw. intros E. apply ring_neq in E; lia. }
    rewrite (load_lookup _ _ (Some x)), mbind_Ret;
      [|apply Z.mod_pos_bound; lia|by apply Hk].
    cbn [deref]. rewrite mbind_Ret.
    destruct (q_addtail_room f o qn ln x Hn) as (q1 & -> & Hr1 & Hs1); [lia|].
    rewrite mbind_Ret. kstep.
    rewrite ring_succ by (try done; apply Z.mod_pos_bound; lia).
    rewrite Zplus_mod_idemp_l.
    replace (q_nextread q + Z.of_nat k + 1) with (q_nextread q + Z.of_nat (S k)) by lia.
    destruct (IH (S k) q1 (ln ++ [x])) as (q' & -> & Hr' & Hs');
      [lia|lia|done|rewrite length_app; simpl; lia|].
    exists q'. split; [done|]. split; [|by rewrite Hs'].
    by rewrite (drop_S l x k), cons_middle, app_assoc by done.
Qed.

(** Growing: the contents survive; out of memory changes nothing. *)
Lemma q_grow_ok f o q l target :
  queue_rep q l → target ≤ queue_lim →
  ∃ q', q_grow (q_addtail_fuel (S f)) o q target =
      Ret (if (kmalloc_ok o).1 then 0 else ENOMEM, q', (kmalloc_ok o).2) ∧
    queue_rep q' l ∧
    ((kmalloc_ok o).1 = true → q_size q ≤ q_size q' ∧ target ≤ q_size q' ∧
      (q_size q' = q_size q ∨ q_size q' < 2 * target)) ∧
    ((kmalloc_ok o).1 = false → q' = q).
Proof.
  intros Hq Ht. pose proof Hq as (Hs & Hr & Hl & Hw & Hd & Hk). unfold q_grow.
  destruct (q_nsize_ok 32 target (q_size q)) as (m & -> & Hm1 & Hm2 & Hm3);
    [lia|lia|unfold queue_lim in *; lia|].
  rewrite mbind_Ret. destruct (kmalloc_ok o) as [[] o'] eqn:Eo; cbn [fst snd].
  2:{ exists q. split_and!; try done. }
  destruct (q_refill_ok f (Z.to_nat (q_size q)) q l 0 o'
    (mkQueue m 0 0 (replicate (Z.to_nat (u32 (m * 4) / 4)) None)) [])
    as (q' & E & Hr' & Hs'); [done|lia|lia|apply queue_rep_fresh; lia|simpl; lia|].
  rewrite Z.add_0_r, Z.mod_small in E by lia. rewrite E, mbind_Ret.
  exists q'. split; [done|]. split; [done|]. simpl in Hs'. rewrite Hs'. split; [lia|done].
Qed.

(** [q_addtail]: appends at the tail, growing the ring when it is full; a
    fuel of two is enough. *)
Lemma q_addtail_ok o q l x :
  queue_rep q l → q_size q < queue_lim →
  (∃ q' o', q_addtail o q x = Ret (0, q', o') ∧ queue_rep q' (l ++ [x]) ∧
     q_size q ≤ q_size q' ∧
     (q_size q' = q_size q ∨ q_size q' < 2 * (Z.of_nat (length l) + 2)) ∧
     (Z.of_nat (length l) + 1 < q_size q → o' = o ∧ q_size q' = q_size q) ∧
     (o' = o ∨ o' = (kmalloc_ok o).2)) ∨
  (∃ o', q_addtail o q x = Ret (ENOMEM, q, o') ∧
     (kmalloc_ok o).1 = false ∧ q_size q = Z.of_nat (length l) + 1).
Proof.
  intros Hq Hlim. unfold q_addtail.
  destruct (decide (Z.of_nat (length l) + 1 < q_size q)) as [Hroom|Hfull].
  { destruct (q_addtail_room 1 o q l x Hq Hroom) as (q' & ? & ? & Hsz).
    left. exists q', o. split_and!; try done; try lia. by left. }
  pose proof Hq as (Hs & Hr & Hl & Hw & Hd & Hk).
  pose proof (queue_rep_nw _ _ Hq) as Hnw.
  change (q_addtail_fuel 2 o q x) with
    (_ ← kassert (0 <? q_size q);
     if Z.rem (s32 (q_nextwrite q + 1)) (q_size q) =? q_nextread q then
       '(result, q', o') ← q_grow (q_addtail_fuel 1) o q (s32 (q_size q + 1));
       if result =? 0 then
         d ← store (q_data q') (q_nextwrite q') (Some x);
         Ret (0, mkQueue (q_size q') (Z.rem (s32 (q_nextwrite q' + 1)) (q_size q'))
                (q_nextread q') d, o')
       else Ret (result, q', o')
     else
       d ← store (q_data q) (q_nextwrite q) (Some x);
       Ret (0, mkQueue (q_size q) (Z.rem (s32 (q_nextwrite q + 1)) (q_size q))
              (q_nextread q) d, o)).
  kstep. rewrite ring_succ by done.
  rewrite (queue_rep_full q l Hq), Z.eqb_refl by lia. rewrite s32_id by (unfold is_s32, queue_lim in *; lia).
  destruct (q_grow_ok 0 o q l (q_size q + 1)) as (q1 & -> & Hr1 & Hok & Hko); [done|lia|].
  rewrite mbind_Ret. destruct (kmalloc_ok o) as [[] o'] eqn:Eo; simpl.
  - left. destruct (Hok eq_refl) as (H1 & H2 & H3).
    destruct (q_addtail_room 0 o' q1 l x Hr1) as (q2 & E2 & Hr2 & Hs2); [lia|].
    cbn [q_addtail_fuel] in E2. pose proof Hr1 as (Hs1 & Hr1' & Hl1 & Hw1 & Hd1 & _).
    pose proof (queue_rep_nw _ _ Hr1) as Hnw1.
    rewrite (kassert_true (0 <? q_size q1)), mbind_Ret in E2 by lia.
    rewrite ring_succ in E2 by done.
    rewrite (proj2 (Z.eqb_neq _ _)) in E2.
    2:{ rewrite Hw1, Zplus_mod_idemp_l. intros E.
        enough (Z.of_nat (length l) + 1 = 0) by lia.
        apply (ring_neq (q_size q1) (q_nextread q1)); try lia.
        rewrite Z.add_assoc, E, Z.add_0_r, Z.mod_small; lia. }
    rewrite ring_succ by done.
    rewrite store_in_range, mbind_Ret in E2 |- * by lia. simplify_eq.
    do 2 eexists; split; [done|]. simpl. split; [done|]. split_and!; try lia. by right.
  - right. rewrite (Hko eq_refl). exists o'. split_and!; [done|done|lia].
Qed.

Lemma q_preallocate_ok o q l sz :
  queue_rep q l → sz ≤ queue_lim →
  ∃ r q' o', q_preallocate o q sz = Ret (r, q', o') ∧ queue_rep q' l ∧
    q_size q ≤ q_size q' ∧
    (q_size q' = q_size q ∨ q_size q' < 2 * sz) ∧ (o' = o ∨ o' = (kmalloc_ok o).2) ∧
    ((r = 0 ∧ sz ≤ q_size q') ∨ (r = ENOMEM ∧ q' = q ∧ (kmalloc_ok o).1 = false)).
Proof.
  intros Hq Hsz. pose proof Hq as (Hs & _). unfold q_preallocate. kstep.
  destruct (Z.ltb_spec (q_size q) sz).
  - destruct (q_grow_ok 1 o q l sz Hq Hsz) as (q' & E & Hr & Hok & Hko).
    do 3 eexists; split; [exact E|]. split; [done|].
    destruct (kmalloc_ok o) as [[] o'] eqn:Eo; simpl.
    + destruct (Hok eq_refl) as (? & ? & ?). split_and!; [lia|lia|by right|]. left. lia.
    + rewrite (Hko eq_refl). split_and!; [lia|by left|by right|]. right. done.
  - do 3 eexists; split; [done|]. split; [done|]. split_and!; [lia|by left|by left|]. left. lia.
Qed.

Lemma q_remhead_ok q x l :
  queue_rep q (x :: l) →
  ∃ q', q_remhead q = Ret (x, q') ∧ queue_rep q' l ∧ q_size q' = q_size q.
Proof.
  intros Hq. pose proof Hq as (Hs & Hr & Hl & Hw & Hd & Hk). simpl in *.
  unfold q_remhead. kstep. rewrite (q_empty_ok _ _ Hq). simpl.
  rewrite (load_lookup _ _ (Some x)), mbind_Ret; [|lia|].
  2:{ specialize (Hk 0%nat x eq_refl). rewrite Z.add_0_r, Z.mod_small in Hk by lia. done. }
  cbn [deref]. rewrite mbind_Ret, ring_succ by done.
  eexists; split; [done|]. split; [|done]. unfold queue_rep; simpl.
  pose proof (Z.mod_pos_bound (q_nextread q + 1) (q_size q)).
  repeat split; try lia.
  - rewrite Hw, Zplus_mod_idemp_l. f_equal. lia.
  - intros k y Hy. rewrite Zplus_mod_idemp_l.
    replace (q_nextread q + 1 + Z.of_nat k) with (q_nextread q + Z.of_nat (S k)) by lia.
    by apply Hk.
Qed.

Lemma q_remhead_empty q : queue_rep q [] → q_remhead q = Panic.
Proof.
  intros Hq. pose proof Hq as (Hs & _). unfold q_remhead. kstep.
  by rewrite (q_empty_ok _ _ Hq).
Qed.

(** ** The contract of a queue: first in, first out *)

Inductive queue_op :=
  | QAdd (x : A)
  | QRem
  | QEmpty
  | QPreallocate (n : Z).

Inductive qanswer :=
  | QCode (result : Z)
  | QVal (x : A)
  | QBool (b : bool).

Definition queue_do (o : oracle) (q : queue) (op : queue_op)
    : res (qanswer * queue * oracle) :=
  match op with
  | QAdd x => '(r, q', o') ← q_addtail o q x; Ret (QCode r, q', o')
  | QRem => '(x, q') ← q_remhead q; Ret (QVal x, q', o)
  | QEmpty => Ret (QBool (q_empty q), q, o)
  | QPreallocate n => '(r, q', o') ← q_preallocate o q n; Ret (QCode r, q', o')
  end.

Fixpoint queue_run (o : oracle) (q : queue) (ops : list queue_op) : res (list qanswer) :=
  match ops with
  | [] => Ret []
  | op :: ops' =>
      '(ans, q', o') ← queue_do o q op;
      rest ← queue_run o' q' ops';
      Ret (ans :: rest)
  end.

Inductive fifo_step : list A → queue_op → qanswer → list A → Prop :=
  | fs_add l x : fifo_step l (QAdd x) (QCode 0) (l ++ [x])
  | fs_add_nomem l x : fifo_step l (QAdd x) (QCode ENOMEM) l
  | fs_rem x l : fifo_step (x :: l) QRem (QVal x) l
  | fs_empty l : fifo_step l QEmpty (QBool (bool_decide (l = []))) l
  | fs_prealloc l n : fifo_step l (QPreallocate n) (QCode 0) l
  | fs_prealloc_nomem l n : fifo_step l (QPreallocate n) (QCode ENOMEM) l.

Inductive fifo_run : list A → list queue_op → res (list qanswer) → Prop :=
  | fr_nil l : fifo_run l [] (Ret [])
  | fr_cons l op ops ans l' r :
      fifo_step l op ans l' → fifo_run l' ops r →
      fifo_run l (op :: ops) (rest ← r; Ret (ans :: rest))
  | fr_underflow ops : fifo_run [] (QRem :: ops) Panic.

(** Requests stay within the sizes whose arithmetic does not wrap. *)
Definition queue_op_ok (op : queue_op) : Prop :=
  match op with QPreallocate n => 2 * n ≤ queue_lim | _ => True end.


Lemma queue_do_step o q l op :
  queue_rep q l → queue_op_ok op → q_size q < queue_lim →
  2 * (Z.of_nat (length l) + 4) < queue_lim → (op = QRem → l ≠ []) →
  ∃ ans q' o' l', queue_do o q op = Ret (ans, q', o') ∧ queue_rep q' l' ∧
    fifo_step l op ans l' ∧ (length l' ≤ S (length l))%nat ∧ q_size q' < queue_lim.
Proof.
  intros Hr Hok Hsz Hl Hne. destruct op as [x| | |n]; simpl in *.
  - destruct (q_addtail_ok o q l x Hr) as [(q' & o' & -> & H & _ & Hb & _ & _)|(o' & -> & _)];
      [done| |].
    + do 4 eexists; split; [done|]. split; [done|]. split; [constructor|].
      rewrite length_app; unfold queue_lim in *; simpl; lia.
    + do 4 eexists; split; [done|]. split; [done|]. split; [constructor|]. done || lia.
  - destruct l as [|x l]; [by destruct (Hne eq_refl)|].
    destruct (q_remhead_ok q x l Hr) as (q' & -> & H & Hs). simpl.
    do 4 eexists; split; [done|]. split; [done|]. split; [constructor|].
    rewrite Hs. unfold queue_lim in *; simpl; lia.
  - rewrite (q_empty_ok _ _ Hr). do 4 eexists; split; [done|]. split; [done|].
    split; [constructor|]. unfold queue_lim in *; lia.
  - destruct (q_preallocate_ok o q l n Hr) as (r & q' & o' & -> & H & _ & Hb & _ & Hres);
      [unfold queue_lim in *; lia|]. simpl.
    do 4 eexists; split; [done|]. split; [done|].
    split; [destruct Hres as [[-> _]|[-> _]]; constructor|]. unfold queue_lim in *; lia.
Qed.

Lemma queue_run_fifo o q l ops :
  queue_rep q l → Forall queue_op_ok ops → q_size q < queue_lim →
  2 * (Z.of_nat (length l + length ops) + 4) < queue_lim →
  fifo_run l ops (queue_run o q ops).
Proof.
  revert o q l. induction ops as [|op ops IH]; intros o q l Hr Hok Hs Hl; [constructor|].
  apply Forall_cons in Hok as [Hok1 Hok]. cbn [length] in Hl. cbn [queue_run].
  assert (op = QRem ∧ l = [] ∨ (op = QRem → l ≠ [])) as [[-> ->]|Hne].
  { clear. destruct op, l; (by left) || (right; congruence). }
  { cbn [queue_do]. rewrite (q_remhead_empty q Hr). constructor. }
  destruct (queue_do_step o q l op) as (ans & q' & o' & l' & -> & Hr' & Hst & Hl' & Hs');
    [done|done|done|lia|done|].
  rewrite mbind_Ret. eapply fr_cons; [done|]. apply IH; [done..|lia].
Qed.

Fixpoint q_addtails (o : oracle) (q : queue) (xs : list A) : res (Z * queue * oracle) :=
  match xs with
  | [] => Ret (0, q, o)
  | x :: xs' =>
      '(r, q', o') ← q_addtail o q x;
      if r =? 0 then q_addtails o' q' xs' else Ret (r, q', o')
  end.

Lemma q_addtails_room o q l xs :
  queue_rep q l → Z.of_nat (length l + length xs) < q_size q →
  ∃ q', q_addtails o q xs = Ret (0, q', o) ∧ queue_rep q' (l ++ xs) ∧ q_size q' = q_size q.
Proof.
  revert q l. induction xs as [|x xs IH]; intros q l Hr Hc; cbn [q_addtails length] in *.
  { exists q. by rewrite app_nil_r. }
  destruct (q_addtail_room 1 o q l x Hr) as (q1 & E & Hr1 & Hm1); [lia|].
  unfold q_addtail. rewrite E, mbind_Ret. simpl.
  destruct (IH q1 (l ++ [x]) Hr1) as (q' & -> & Hr' & Hm');
    [rewrite Hm1, length_app; simpl; lia|].
  exists q'. rewrite <- app_assoc in Hr'. split_and!; [done..|by rewrite Hm'].
Qed.

Lemma q_create_rep o o' q sz :
  0 < sz ≤ 2 * queue_lim → q_create o sz = (Some q, o') → queue_rep q [] ∧ q_size q = sz.
Proof.
  intros Hs. unfold q_create. destruct (kmalloc_ok o) as [[] o1]; [|done].
  destruct (kmalloc_ok o1) as [[] o2]; [|done]. intros [= <- <-].
  split; [by apply queue_rep_fresh|done].
Qed.

End Queue.
Arguments queue : clear implicits.
Arguments queue_op : clear implicits.
Arguments qanswer : clear implicits.

(** C9: a queue made by [q_create] behaves like a first-in first-out list
    under every sequence of operations and every pattern of allocation
    failures: what [q_remhead] returns is the oldest element, a failed growth
    reports ENOMEM and loses nothing, removing from an empty queue stops the
    kernel, and the mutual recursion of [q_addtail] and [q_grow] ends. *)
Theorem queue_refines_fifo {A} (o o' : oracle) (q : queue A) sz (ops : list (queue_op A)) :
  0 < sz < queue_lim → q_create o sz = (Some q, o') → Forall queue_op_ok ops →
  2 * (Z.of_nat (length ops) + 4) < queue_lim →
  fifo_run [] ops (queue_run o' q ops).
Proof.
  intros Hs E Hok Hl.
  destruct (q_create_rep o o' q sz) as [Hr Hsz]; [unfold queue_lim in *; lia|done|].
  apply queue_run_fifo; [done|done|lia|done].
Qed.

Lemma queue_refines_fifo_witness :
  let ops := [QAdd 7%nat; QAdd 8%nat; QAdd 9%nat; QAdd 10%nat; QRem; QEmpty; QRem; QRem; QRem; QRem] in
  let q := mkQueue 2 0 0 [None; None] in
  fifo_run [] ops (queue_run [true; false] q ops).
Proof.
  intros ops q. apply (queue_refines_fifo [true; true; true; false] _ q 2 ops).
  - unfold queue_lim; lia.
  - reflexivity.
  - repeat (apply Forall_cons; split; [done|]). apply Forall_nil_2.
  - vm_compute. reflexivity.
Defined.

(** What [q_preallocate] reserves.  After it has returned 0 for [n] on
    an empty queue, [n - 1] additions need no memory, whatever the allocator
    does; but when the ring has exactly [n] cells the [n]-th addition
    allocates, and fails with ENOMEM when it cannot: a caller that wants
    [n] elements must ask for [n + 1]. *)
Theorem q_preallocate_one_short {A} (o o1 o2 : oracle) (q q1 : queue A) n xs x :
  queue_rep q [] → 0 < n < queue_lim → q_preallocate o q n = Ret (0, q1, o1) →
  Z.of_nat (length xs) = n - 1 →
  ∃ q2, q_addtails o2 q1 xs = Ret (0, q2, o2) ∧ queue_rep q2 xs ∧
    (q_size q1 = n → ∃ o3, q_addtail (false :: o2) q2 x = Ret (ENOMEM, q2, o3)).
Proof.
  intros Hr Hn E Hl.
  destruct (q_preallocate_ok o q [] n Hr) as (r & q' & o' & E' & Hr' & _ & _ & _ & Hres); [lia|].
  rewrite E in E'. simplify_eq. destruct Hres as [[_ Hsz]|[? _]]; [|done].
  destruct (q_addtails_room o2 q' [] xs Hr') as (q2 & E2 & Hr2 & Hs2); [simpl; lia|].
  exists q2. split; [done|]. split; [done|]. intros Hq.
  destruct (q_addtail_ok (false :: o2) q2 xs x Hr2) as [(q3 & o3 & E3 & _)|(o3 & E3 & _)];
    [lia| |eauto].
  exfalso. pose proof Hr2 as (_ & _ & Hlen & Hw & _).
  revert E3. unfold q_addtail. cbn [q_addtail_fuel].
  rewrite kassert_true, mbind_Ret by lia.
  rewrite ring_succ by (try apply (queue_rep_nw _ _ Hr2); apply Hr2).
  rewrite (queue_rep_full q2 xs Hr2), Z.eqb_refl by lia.
  unfold q_grow. rewrite s32_id by (unfold is_s32, queue_lim in *; lia).
  destruct (q_nsize_ok 32 (q_size q2 + 1) (q_size q2)) as (m & -> & _);
    [unfold queue_lim in *; lia..|]. discriminate.
Qed.

Lemma q_preallocate_one_short_witness :
  let q := mkQueue (A:=nat) 2 0 0 [None; None] in
  ∃ q2, q_addtails [] (mkQueue 4 0 0 (replicate 4 None)) [1; 2; 3]%nat = Ret (0, q2, []) ∧
    queue_rep q2 [1; 2; 3]%nat ∧
    (q_size (A:=nat) (mkQueue 4 0 0 (replicate 4 None)) = 4 →
     ∃ o3, q_addtail [false] q2 4%nat = Ret (ENOMEM, q2, o3)).
Proof.
  intros q. apply (q_preallocate_one_short [] [] [] q _ 4 [1; 2; 3]%nat 4%nat).
  - apply (queue_rep_fresh (A:=nat) 2). unfold queue_lim; lia.
  - unfold queue_lim; lia.
  - reflexivity.
  - reflexivity.
Defined.
