(* ===== verification/Bitmap.v ===== *)
(** The bit vector of kern/lib/bitmap.c, used by the disk block map.

    A bitmap is [nbits] bits in bytes, the leftover bits of the last byte
    marked in use.  [bit b i] is the abstract view, a boolean per index;
    [bitmap_wf] is the invariant every operation keeps. *)

From Stdlib Require Import ZArith Lia.
From stdpp Require Import base numbers list option gmap.
From S2P Require Import Prelude.

Open Scope Z_scope.

Definition BITS_PER_WORD : Z := 8.
Definition WORD_ALLBITS : Z := 255.

Record bitmap := mkBitmap { nbits : Z; bm_v : list Z }.

(** [DIVROUNDUP(a,b)], on [u_int32_t]. *)
Definition DIVROUNDUP (a b : Z) : Z := u32 (u32 (a + b) - 1) / b.

Definition bitmap_create (o : oracle) (nb : Z) : res (option bitmap * oracle) :=
  let words := DIVROUNDUP nb BITS_PER_WORD in
  let '(ok, o1) := kmalloc_ok o in
  if ok then
    let '(ok2, o2) := kmalloc_ok o1 in
    if ok2 then
      let v := replicate (Z.to_nat words) 0 in
      if nb / BITS_PER_WORD <? words then
        let ix := words - 1 in
        let overbits := u32 (nb - u32 (ix * BITS_PER_WORD)) in
        _ ← kassert (nb / BITS_PER_WORD =? words - 1);
        _ ← kassert ((0 <? overbits) && (overbits <? BITS_PER_WORD));
        v' ← zfor (Z.to_nat (BITS_PER_WORD - overbits)) overbits (λ j v,
          w ← load v ix;
          store v ix (u8 (Z.lor w (Z.shiftl 1 j)))) v;
        Ret (Some (mkBitmap nb v'), o2)
      else Ret (Some (mkBitmap nb v), o2)
    else Ret (None, o2)
  else Ret (None, o1).

Definition bitmap_getdata (b : bitmap) : list Z := bm_v b.

(** The inner loop of [bitmap_alloc]: the first clear bit of a byte; falling
    out of the loop is [assert(0)]. *)
Fixpoint bitmap_alloc_offset (n : nat) (offset w : Z) : res Z :=
  match n with
  | O => Panic
  | S n' =>
      let mask := u8 (Z.shiftl 1 offset) in
      if Z.land w mask =? 0 then Ret offset
      else bitmap_alloc_offset n' (offset + 1) w
  end.

(** The outer loop, over [n] bytes starting at [ix]. *)
Fixpoint bitmap_alloc_loop (n : nat) (ix : Z) (b : bitmap) : res (Z * Z * bitmap) :=
  match n with
  | O => Ret (ENOSPC, 0, b)
  | S n' =>
      w ← load (bm_v b) ix;
      if w =? WORD_ALLBITS then bitmap_alloc_loop n' (ix + 1) b
      else
        offset ← bitmap_alloc_offset 8 0 w;
        v' ← store (bm_v b) ix (u8 (Z.lor w (u8 (Z.shiftl 1 offset))));
        let index := u32 (u32 (ix * BITS_PER_WORD) + offset) in
        _ ← kassert (index <? nbits b);
        Ret (0, index, mkBitmap (nbits b) v')
  end.

(** The result code, the index stored through the pointer (0 when it is not
    written) and the bitmap after the call. *)
Definition bitmap_alloc (b : bitmap) : res (Z * Z * bitmap) :=
  bitmap_alloc_loop (Z.to_nat (DIVROUNDUP (nbits b) BITS_PER_WORD)) 0 b.

Definition bitmap_translate (bitno : Z) : Z * Z :=
  (bitno / BITS_PER_WORD, u8 (Z.shiftl 1 (bitno mod BITS_PER_WORD))).

Definition bitmap_mark (b : bitmap) (index : Z) : res bitmap :=
  _ ← kassert (index <? nbits b);
  let '(ix, mask) := bitmap_translate index in
  w ← load (bm_v b) ix;
  _ ← kassert (Z.land w mask =? 0);
  v' ← store (bm_v b) ix (u8 (Z.lor w mask));
  Ret (mkBitmap (nbits b) v').

Definition bitmap_unmark (b : bitmap) (index : Z) : res bitmap :=
  _ ← kassert (index <? nbits b);
  let '(ix, mask) := bitmap_translate index in
  w ← load (bm_v b) ix;
  _ ← kassert (negb (Z.land w mask =? 0));
  v' ← store (bm_v b) ix (u8 (Z.land w (Z.lnot mask)));
  Ret (mkBitmap (nbits b) v').

Definition bitmap_isset (b : bitmap) (index : Z) : res Z :=
  let '(ix, mask) := bitmap_translate index in
  w ← load (bm_v b) ix;
  Ret (Z.land w mask).

(** ** The abstract view *)

Definition bit (b : bitmap) (i : Z) : bool :=
  match zget (bm_v b) (i / BITS_PER_WORD) with
  | Some w => Z.testbit w (i mod BITS_PER_WORD)
  | None => false
  end.

(** Below this bound [DIVROUNDUP] does not wrap. *)
Definition bitmap_lim : Z := 4294967288.

Definition bitmap_wf (b : bitmap) : Prop :=
  0 ≤ nbits b < bitmap_lim ∧
  Z.of_nat (length (bm_v b)) = (nbits b + 7) / 8 ∧
  Forall is_u8 (bm_v b) ∧
  ∀ i, nbits b ≤ i < 8 * Z.of_nat (length (bm_v b)) → bit b i = true.

Lemma DIVROUNDUP_ok n : 0 ≤ n < bitmap_lim → DIVROUNDUP n BITS_PER_WORD = (n + 7) / 8.
Proof.
  unfold DIVROUNDUP, bitmap_lim, BITS_PER_WORD. intros.
  rewrite (u32_id (n + 8)), u32_id by (unfold is_u32; lia). f_equal. lia.
Qed.

Lemma mask_u8 o : 0 ≤ o < 8 → u8 (Z.shiftl 1 o) = 2 ^ o.
Proof.
  intros. rewrite Z.shiftl_1_l. apply u8_id. unfold is_u8.
  pose proof (Z.pow_lt_mono_r 2 o 8). lia.
Qed.

Lemma is_u8_bits w : 0 ≤ w → (∀ n, 8 ≤ n → Z.testbit w n = false) → is_u8 w.
Proof.
  intros H0 Hw. unfold is_u8. split; [done|].
  destruct (Z.eq_dec w 0) as [->|]; [lia|].
  apply Z.log2_lt_cancel. change (Z.log2 256) with 8.
  destruct (Z.lt_ge_cases (Z.log2 w) 8) as [|Hge]; [done|].
  specialize (Hw (Z.log2 w) Hge). rewrite Z.bit_log2 in Hw by lia. done.
Qed.

Lemma u8_bits w n : is_u8 w → 8 ≤ n → Z.testbit w n = false.
Proof.
  intros [H0 H1] Hn. destruct (Z.eq_dec w 0) as [->|]; [apply Z.bits_0|].
  apply Z.bits_above_log2; [done|]. apply Z.log2_lt_pow2; [lia|].
  pose proof (Z.pow_le_mono_r 2 8 n). lia.
Qed.

(** Setting and clearing one bit of a byte. *)
Lemma set_bit w o :
  is_u8 w → 0 ≤ o < 8 →
  let w' := u8 (Z.lor w (2 ^ o)) in
  is_u8 w' ∧ ∀ n, 0 ≤ n → Z.testbit w' n = bool_decide (n = o) || Z.testbit w n.
Proof.
  intros Hw Ho. assert (is_u8 (Z.lor w (2 ^ o))) as Hu.
  { apply is_u8_bits.
    - apply Z.lor_nonneg. split; [apply Hw|]. apply Z.pow_nonneg. lia.
    - intros n Hn. rewrite Z.lor_spec, Z.pow2_bits_false, u8_bits by (done || lia). done. }
  simpl. rewrite u8_id by done. split; [done|]. intros n Hn.
  rewrite Z.lor_spec, Z.pow2_bits_eqb by lia. rewrite orb_comm. f_equal.
  destruct (Z.eqb_spec o n), (bool_decide_reflect (n = o)); congruence.
Qed.

Lemma clear_bit w o :
  is_u8 w → 0 ≤ o < 8 →
  let w' := u8 (Z.land w (Z.lnot (2 ^ o))) in
  is_u8 w' ∧ ∀ n, 0 ≤ n → Z.testbit w' n = negb (bool_decide (n = o)) && Z.testbit w n.
Proof.
  intros Hw Ho. assert (is_u8 (Z.land w (Z.lnot (2 ^ o)))) as Hu.
  { apply is_u8_bits.
    - apply Z.land_nonneg. left. apply Hw.
    - intros n Hn. rewrite Z.land_spec, (u8_bits w) by (done || lia). done. }
  simpl. rewrite u8_id by done. split; [done|]. intros n Hn.
  rewrite Z.land_spec, Z.lnot_spec, Z.pow2_bits_eqb, andb_comm by lia. do 2 f_equal.
  destruct (Z.eqb_spec o n), (bool_decide_reflect (n = o)); congruence.
Qed.

Lemma byte_not_full w : is_u8 w → w ≠ 255 → ∃ o, 0 ≤ o < 8 ∧ Z.testbit w o = false.
Proof.
  intros Hw Hne.
  destruct (forallb (Z.testbit w) [0; 1; 2; 3; 4; 5; 6; 7]) eqn:E.
  - exfalso. apply Hne. change 255 with (Z.ones 8). apply Z.bits_inj'. intros n Hn.
    destruct (Z.lt_ge_cases n 8).
    + rewrite Z.ones_spec_low by lia. rewrite forallb_forall in E. apply E. simpl. lia.
    + rewrite Z.ones_spec_high, u8_bits by (done || lia). done.
  - apply not_true_iff_false in E. rewrite forallb_forall in E.
    destruct (decide (Forall (λ o, Z.testbit w o = true) [0; 1; 2; 3; 4; 5; 6; 7])) as [H|H].
    { rewrite Forall_forall in H. exfalso. apply E. intros x Hx. apply H. by apply list_elem_of_In. }
    apply not_Forall_Exists in H; [|apply _]. apply Exists_exists in H as (o & Ho & Hb).
    exists o. split; [|by apply not_true_iff_false]. set_unfold in Ho. lia.
Qed.

Lemma bit_eqb_split i k : (i =? k) = (i / 8 =? k / 8) && (i mod 8 =? k mod 8).
Proof.
  pose proof (Z.div_mod i 8). pose proof (Z.div_mod k 8).
  destruct (Z.eqb_spec i k), (Z.eqb_spec (i / 8) (k / 8)), (Z.eqb_spec (i mod 8) (k mod 8));
    simpl; subst; done || lia.
Qed.

(** Replacing the byte that holds bit [k] by one in which only bit [k mod 8]
    is new changes bit [k] and no other. *)
Lemma bit_update b k w w' x :
  0 ≤ k → bm_v b !! Z.to_nat (k / 8) = Some w →
  (∀ n, 0 ≤ n → Z.testbit w' n = if n =? k mod 8 then x else Z.testbit w n) →
  ∀ i, 0 ≤ i →
  bit (mkBitmap (nbits b) (<[Z.to_nat (k / 8) := w']> (bm_v b))) i =
    if i =? k then x else bit b i.
Proof.
  intros Hk Hw Hw' i Hi. unfold bit, BITS_PER_WORD; simpl.
  assert (0 ≤ i / 8 ∧ 0 ≤ k / 8) as [??] by (split; apply Z.div_pos; lia).
  rewrite !zget_lookup by done. rewrite bit_eqb_split.
  destruct (Z.eqb_spec (i / 8) (k / 8)) as [E|E]; simpl.
  - rewrite E, list_lookup_insert_eq, Hw by (by eapply lookup_lt_Some).
    rewrite Hw' by (apply Z.mod_pos_bound; lia). done.
  - rewrite list_lookup_insert_ne by lia. done.
Qed.

(** Bits in range live in a byte of the vector. *)
Lemma bitmap_byte b k :
  bitmap_wf b → 0 ≤ k < nbits b →
  ∃ w, load (bm_v b) (k / 8) = Ret w ∧ bm_v b !! Z.to_nat (k / 8) = Some w ∧ is_u8 w ∧
    0 ≤ k / 8 < Z.of_nat (length (bm_v b)) ∧ bit b k = Z.testbit w (k mod 8).
Proof.
  intros (Hn & Hl & Hu & _) Hk.
  assert (0 ≤ k / 8 < Z.of_nat (length (bm_v b))) as Hr.
  { rewrite Hl. split; [apply Z.div_pos; lia|]. apply Z.div_lt_upper_bound; [lia|].
    pose proof (Z.div_mod (nbits b + 7) 8 ltac:(lia)).
    pose proof (Z.mod_pos_bound (nbits b + 7) 8 ltac:(lia)). lia. }
  destruct (load_in_range (bm_v b) (k / 8) Hr) as (w & E & Hw).
  exists w. split_and!; try done; try lia.
  - by eapply Forall_lookup_1 in Hw.
  - unfold bit, BITS_PER_WORD. rewrite zget_lookup, Hw by lia. done.
Qed.

(** Writing bit [k] below [nbits] keeps the invariant. *)
Lemma bitmap_wf_update b k w w' x :
  bitmap_wf b → 0 ≤ k < nbits b → bm_v b !! Z.to_nat (k / 8) = Some w → is_u8 w' →
  (∀ n, 0 ≤ n → Z.testbit w' n = if n =? k mod 8 then x else Z.testbit w n) →
  bitmap_wf (mkBitmap (nbits b) (<[Z.to_nat (k / 8) := w']> (bm_v b))).
Proof.
  intros (Hn & Hl & Hu & Ho) Hk Hw Hu' Hw'. unfold bitmap_wf; simpl.
  rewrite length_insert. split_and!; [lia|lia|done|by apply Forall_insert|].
  intros i Hi. rewrite (bit_update b k w w' x) by (done || lia).
  rewrite (proj2 (Z.eqb_neq _ _)) by lia. apply Ho. lia.
Qed.

Lemma set_bit_eqb w o n :
  is_u8 w → 0 ≤ o < 8 → 0 ≤ n →
  Z.testbit (u8 (Z.lor w (u8 (Z.shiftl 1 o)))) n = if n =? o then true else Z.testbit w n.
Proof.
  intros. rewrite mask_u8 by done. rewrite (proj2 (set_bit w o ltac:(done) ltac:(done))) by done.
  destruct (Z.eqb_spec n o), (bool_decide_reflect (n = o)); done.
Qed.

Lemma clear_bit_eqb w o n :
  is_u8 w → 0 ≤ o < 8 → 0 ≤ n →
  Z.testbit (u8 (Z.land w (Z.lnot (u8 (Z.shiftl 1 o))))) n =
    if n =? o then false else Z.testbit w n.
Proof.
  intros. rewrite mask_u8 by done. rewrite (proj2 (clear_bit w o ltac:(done) ltac:(done))) by done.
  destruct (Z.eqb_spec n o), (bool_decide_reflect (n = o)); done.
Qed.

(** [bitmap_mark] and [bitmap_unmark] write exactly one bit, and assert that
    it changes. *)
Lemma bitmap_mark_ok b k :
  bitmap_wf b → 0 ≤ k < nbits b → bit b k = false →
  ∃ b', bitmap_mark b k = Ret b' ∧ bitmap_wf b' ∧ nbits b' = nbits b ∧
    ∀ i, 0 ≤ i → bit b' i = if i =? k then true else bit b i.
Proof.
  intros Hwf Hk Hb. destruct (bitmap_byte b k Hwf Hk) as (w & El & Hw & Hu & Hr & Hbit).
  pose proof (Z.mod_pos_bound k 8 ltac:(lia)).
  unfold bitmap_mark, bitmap_translate, BITS_PER_WORD. kstep. rewrite El, mbind_Ret.
  rewrite mask_u8, land_mask, <- Hbit, Hb by lia. simpl.
  rewrite <- mask_u8, store_in_range by lia. simpl. eexists; split; [done|].
  split_and!; [|done|].
  - eapply (bitmap_wf_update _ _ w _ true); try done; [|by intros; apply set_bit_eqb].
    rewrite mask_u8 by lia. by apply set_bit.
  - apply (bit_update _ _ w _ true); [lia|done|by intros; apply set_bit_eqb].
Qed.

Lemma bitmap_unmark_ok b k :
  bitmap_wf b → 0 ≤ k < nbits b → bit b k = true →
  ∃ b', bitmap_unmark b k = Ret b' ∧ bitmap_wf b' ∧ nbits b' = nbits b ∧
    ∀ i, 0 ≤ i → bit b' i = if i =? k then false else bit b i.
Proof.
  intros Hwf Hk Hb. destruct (bitmap_byte b k Hwf Hk) as (w & El & Hw & Hu & Hr & Hbit).
  pose proof (Z.mod_pos_bound k 8 ltac:(lia)).
  unfold bitmap_unmark, bitmap_translate, BITS_PER_WORD. kstep. rewrite El, mbind_Ret.
  rewrite mask_u8, land_mask, <- Hbit, Hb by lia. simpl.
  rewrite <- mask_u8, store_in_range by lia. simpl. eexists; split; [done|].
  split_and!; [|done|].
  - eapply (bitmap_wf_update _ _ w _ false); try done; [|by intros; apply clear_bit_eqb].
    rewrite mask_u8 by lia. by apply clear_bit.
  - apply (bit_update _ _ w _ false); [lia|done|by intros; apply clear_bit_eqb].
Qed.

(** The asserts fire on a double mark, a double unmark, an index out of range. *)
Lemma bitmap_mark_panic b k :
  bitmap_wf b → 0 ≤ k → (nbits b ≤ k ∨ bit b k = true) → bitmap_mark b k = Panic.
Proof.
  intros Hwf Hk H. unfold bitmap_mark.
  destruct (Z.ltb_spec k (nbits b)); simpl; [|done]. destruct H as [?|Hb]; [lia|].
  destruct (bitmap_byte b k Hwf) as (w & El & Hw & Hu & Hr & Hbit); [lia|].
  unfold BITS_PER_WORD. rewrite El. simpl.
  pose proof (Z.mod_pos_bound k 8 ltac:(lia)).
  by rewrite mask_u8, land_mask, <- Hbit, Hb by lia.
Qed.

Lemma bitmap_unmark_panic b k :
  bitmap_wf b → 0 ≤ k → (nbits b ≤ k ∨ bit b k = false) → bitmap_unmark b k = Panic.
Proof.
  intros Hwf Hk H. unfold bitmap_unmark.
  destruct (Z.ltb_spec k (nbits b)); simpl; [|done]. destruct H as [?|Hb]; [lia|].
  destruct (bitmap_byte b k Hwf) as (w & El & Hw & Hu & Hr & Hbit); [lia|].
  unfold BITS_PER_WORD. rewrite El. simpl.
  pose proof (Z.mod_pos_bound k 8 ltac:(lia)).
  by rewrite mask_u8, land_mask, <- Hbit, Hb by lia.
Qed.

Lemma bitmap_isset_ok b k :
  bitmap_wf b → 0 ≤ k < nbits b →
  ∃ r, bitmap_isset b k = Ret r ∧ (r =? 0) = negb (bit b k).
Proof.
  intros Hwf Hk. destruct (bitmap_byte b k Hwf Hk) as (w & El & Hw & Hu & Hr & Hbit).
  pose proof (Z.mod_pos_bound k 8 ltac:(lia)).
  unfold bitmap_isset, bitmap_translate, BITS_PER_WORD. rewrite El. simpl.
  eexists; split; [done|]. by rewrite mask_u8, land_mask, Hbit by lia.
Qed.

(** The inner loop finds the lowest clear bit. *)
Lemma bitmap_alloc_offset_ok n offset w :
  0 ≤ offset → offset + Z.of_nat n = 8 →
  (∃ k, offset ≤ k < 8 ∧ Z.testbit w k = false) →
  ∃ k, bitmap_alloc_offset n offset w = Ret k ∧ offset ≤ k < 8 ∧ Z.testbit w k = false ∧
    ∀ j, offset ≤ j < k → Z.testbit w j = true.
Proof.
  revert offset. induction n as [|n IH]; intros offset Ho Hn (k & Hk & Hb); [lia|].
  cbn [bitmap_alloc_offset]. rewrite mask_u8, land_mask by lia.
  destruct (Z.testbit w offset) eqn:E; simpl.
  - destruct (IH (offset + 1)) as (k' & -> & Hk' & Hb' & Hlow);
      [lia|lia|exists k; split; [|done]|].
    { assert (k ≠ offset) by congruence. lia. }
    exists k'. split_and!; try done; try lia. intros j Hj.
    destruct (Z.eq_dec j offset) as [->|]; [done|]. apply Hlow. lia.
  - exists offset. split_and!; try done; lia.
Qed.

Lemma bit_byte b ix w o :
  0 ≤ ix → bm_v b !! Z.to_nat ix = Some w → 0 ≤ o < 8 → bit b (8 * ix + o) = Z.testbit w o.
Proof.
  intros Hix Hw Ho. unfold bit, BITS_PER_WORD.
  replace ((8 * ix + o) / 8) with ix by (apply (Z.div_unique _ _ _ o); lia).
  replace ((8 * ix + o) mod 8) with o by (apply (Z.mod_unique _ _ ix); lia).
  by rewrite zget_lookup, Hw by done.
Qed.

Definition alloc_spec (b : bitmap) (r : res (Z * Z * bitmap)) : Prop :=
  (∃ k b', r = Ret (0, k, b') ∧ 0 ≤ k < nbits b ∧ bit b k = false ∧
     (∀ j, 0 ≤ j < k → bit b j = true) ∧
     bitmap_wf b' ∧ nbits b' = nbits b ∧
     ∀ i, 0 ≤ i → bit b' i = if i =? k then true else bit b i) ∨
  (r = Ret (ENOSPC, 0, b) ∧ ∀ j, 0 ≤ j < nbits b → bit b j = true).

(** The outer loop, once all bits of the bytes before [ix] are known set. *)
Lemma bitmap_alloc_loop_ok n ix b :
  bitmap_wf b → 0 ≤ ix → ix + Z.of_nat n = Z.of_nat (length (bm_v b)) →
  (∀ j, 0 ≤ j < 8 * ix → bit b j = true) →
  alloc_spec b (bitmap_alloc_loop n ix b).
Proof.
  intros Hwf. pose proof Hwf as (Hn & Hl & Hu & Hover). revert ix.
  induction n as [|n IH]; intros ix Hix Hlen Hlow; cbn [bitmap_alloc_loop].
  { right. split; [done|]. intros j Hj. apply Hlow.
    pose proof (Z.div_mod (nbits b + 7) 8 ltac:(lia)).
    pose proof (Z.mod_pos_bound (nbits b + 7) 8 ltac:(lia)). lia. }
  destruct (load_in_range (bm_v b) ix) as (w & -> & Hw); [lia|]. rewrite mbind_Ret.
  assert (is_u8 w) as Hw8 by (by eapply Forall_lookup_1 in Hw).
  unfold WORD_ALLBITS, BITS_PER_WORD.
  destruct (Z.eqb_spec w 255) as [->|Hne].
  - apply IH; [lia|lia|]. intros j Hj. destruct (Z.lt_ge_cases j (8 * ix)); [apply Hlow; lia|].
    replace j with (8 * ix + (j - 8 * ix)) by lia. rewrite (bit_byte b ix 255) by (done || lia).
    change 255 with (Z.ones 8). apply Z.ones_spec_low. lia.
  - destruct (bitmap_alloc_offset_ok 8 0 w) as (k & -> & Hk & Hb & Hbelow);
      [lia|lia|by apply byte_not_full|].
    rewrite mbind_Ret, store_in_range, mbind_Ret by lia.
    assert (bit b (8 * ix + k) = false) as Hbk by (by rewrite (bit_byte b ix w)).
    assert (8 * ix + k < nbits b) as Hin.
    { destruct (Z.lt_ge_cases (8 * ix + k) (nbits b)); [done|].
      rewrite Hover in Hbk by lia. done. }
    unfold bitmap_lim in Hn.
    rewrite (u32_id (ix * 8)), u32_id by (unfold is_u32; lia).
    replace (ix * 8 + k) with (8 * ix + k) by lia. kstep.
    assert ((8 * ix + k) / 8 = ix) as Ed by (symmetry; apply (Z.div_unique _ _ _ k); lia).
    assert ((8 * ix + k) mod 8 = k) as Em by (symmetry; apply (Z.mod_unique _ _ ix); lia).
    left. exists (8 * ix + k),
      (mkBitmap (nbits b) (<[Z.to_nat ((8 * ix + k) / 8) :=
         u8 (Z.lor w (u8 (Z.shiftl 1 k)))]> (bm_v b))).
    split; [by rewrite Ed|]. split_and!; try done; try lia.
    + intros j Hj. destruct (Z.lt_ge_cases j (8 * ix)); [apply Hlow; lia|].
      replace j with (8 * ix + (j - 8 * ix)) by lia.
      rewrite (bit_byte b ix w) by (done || lia). apply Hbelow. lia.
    + eapply (bitmap_wf_update _ _ w _ true); rewrite ?Ed, ?Em; try done; try lia.
      * rewrite mask_u8 by lia. by apply set_bit.
      * by intros; apply set_bit_eqb.
    + eapply (bit_update _ _ w _ true); rewrite ?Ed, ?Em; try done; try lia.
      by intros; apply set_bit_eqb.
Qed.

Lemma bitmap_alloc_ok b : bitmap_wf b → alloc_spec b (bitmap_alloc b).
Proof.
  intros Hwf. pose proof Hwf as (Hn & Hl & _). unfold bitmap_alloc.
  rewrite DIVROUNDUP_ok by done. apply bitmap_alloc_loop_ok; [done|lia|lia|].
  intros j Hj. lia.
Qed.

(** The loop of [bitmap_create] that marks the leftover bits of the last
    byte. *)
Lemma bitmap_over_ok v ix over :
  0 ≤ ix < Z.of_nat (length v) → v !! Z.to_nat ix = Some 0 → 0 ≤ over ≤ 8 →
  ∃ w, zfor (Z.to_nat (8 - over)) over (λ j v,
      w ← load v ix; store v ix (u8 (Z.lor w (Z.shiftl 1 j)))) v
      = Ret (<[Z.to_nat ix := w]> v) ∧ is_u8 w ∧
    ∀ n, 0 ≤ n → Z.testbit w n = (over <=? n) && (n <? 8).
Proof.
  intros Hix Hv Hover.
  destruct (zfor_inv (λ i v', ∃ w, v' = <[Z.to_nat ix := w]> v ∧ is_u8 w ∧
      ∀ n, 0 ≤ n → Z.testbit w n = (over <=? n) && (n <? i)) (Z.to_nat (8 - over)) over
    (λ j v, w ← load v ix; store v ix (u8 (Z.lor w (Z.shiftl 1 j)))) v)
    as (v' & E & w & -> & Hw8 & Hw).
  - exists 0. split; [by rewrite list_insert_id|]. split; [unfold is_u8; lia|].
    intros n Hn. rewrite Z.bits_0. lia.
  - intros j v' Hj (w & -> & Hw8 & Hw).
    rewrite (load_lookup _ _ w), mbind_Ret; [|lia|apply list_lookup_insert_eq; lia].
    rewrite store_in_range by (rewrite length_insert; lia). eexists; split; [done|].
    destruct (set_bit w j Hw8) as [Hs1 Hs2]; [lia|]. rewrite <- Z.shiftl_1_l in Hs1, Hs2.
    eexists; split; [apply list_insert_insert_eq|]. split; [done|].
    intros n Hn. rewrite Hs2, Hw by done.
    destruct (bool_decide_reflect (n = j)); lia.
  - replace (over + Z.of_nat (Z.to_nat (8 - over))) with 8 in Hw by lia. eauto.
Qed.

Lemma bit_replicate nb n i : bit (mkBitmap nb (replicate n 0)) i = false.
Proof.
  unfold bit, zget; simpl. destruct (0 <=? i / BITS_PER_WORD); [|done].
  destruct (replicate n 0 !! _) as [w|] eqn:E; [|done].
  apply lookup_replicate in E as [-> _]. apply Z.bits_0.
Qed.

(** [bitmap_create] makes an empty well-formed bitmap, unless out of memory. *)
Lemma bitmap_create_plenty nb b o : bitmap_create [] nb = Ret (b, o) → o = [].
Proof.
  unfold bitmap_create. simpl. destruct (_ <? _); [|by intros [= <- <-]]. intros E.
  repeat (apply mbind_Ret_inv in E as (? & _ & E)). by injection E as <- <-.
Qed.

Lemma bitmap_create_ok o nb :
  0 ≤ nb < bitmap_lim →
  (∃ b o', bitmap_create o nb = Ret (Some b, o') ∧ bitmap_wf b ∧ nbits b = nb ∧
     ∀ i, 0 ≤ i < nb → bit b i = false) ∨
  (o ≠ [] ∧ ∃ o', bitmap_create o nb = Ret (None, o')).
Proof.
  intros Hn. unfold bitmap_create. destruct (kmalloc_ok o) as [[] o1] eqn:E1; [|right; split; [by intros ->|eauto]].
  destruct (kmalloc_ok o1) as [[] o2] eqn:E2; [|right; split; [intros ->; injection E1 as <-; done|eauto]]. left.
  rewrite DIVROUNDUP_ok by done. unfold BITS_PER_WORD, bitmap_lim in *.
  pose proof (Z.div_mod nb 8 ltac:(lia)). pose proof (Z.mod_pos_bound nb 8 ltac:(lia)).
  pose proof (Z.div_mod (nb + 7) 8 ltac:(lia)).
  pose proof (Z.mod_pos_bound (nb + 7) 8 ltac:(lia)).
  set (words := (nb + 7) / 8) in *. destruct (Z.ltb_spec (nb / 8) words).
  - rewrite (u32_id ((words - 1) * 8)), u32_id by (unfold is_u32; lia). kstep. kstep.
    destruct (bitmap_over_ok (replicate (Z.to_nat words) 0) (words - 1) (nb - (words - 1) * 8))
      as (w & -> & Hw8 & Hw); [rewrite length_replicate; lia|apply lookup_replicate; lia|lia|].
    rewrite mbind_Ret. do 2 eexists; split; [done|].
    assert (∀ i, 0 ≤ i < 8 * words → bit (mkBitmap nb (<[Z.to_nat (words - 1) := w]>
      (replicate (Z.to_nat words) 0))) i = (nb <=? i)) as Hbit.
    { intros i Hi. pose proof (Z.div_mod i 8 ltac:(lia)).
      pose proof (Z.mod_pos_bound i 8 ltac:(lia)).
      destruct (Z.eq_dec (i / 8) (words - 1)) as [E|E].
      - rewrite (Z.div_mod i 8) at 1 by lia.
        rewrite E, (bit_byte _ _ w), Hw; [lia|lia|lia| |lia]. simpl.
        apply list_lookup_insert_eq. rewrite length_replicate. lia.
      - transitivity (bit (mkBitmap nb (replicate (Z.to_nat words) 0)) i).
        + unfold bit, BITS_PER_WORD; simpl. rewrite !zget_lookup by (apply Z.div_pos; lia).
          rewrite list_lookup_insert_ne; [done|]. pose proof (Z.div_pos i 8). lia.
        + rewrite bit_replicate. lia. }
    split_and!; [|done|intros i Hi; rewrite Hbit; lia].
    unfold bitmap_wf, bitmap_lim; simpl. rewrite length_insert, length_replicate.
    split_and!; [lia|lia|fold words; lia| |intros i Hi; rewrite Hbit; lia].
    apply Forall_insert; [|done]. apply Forall_replicate. unfold is_u8. lia.
  - do 2 eexists; split; [done|]. split_and!; [|done|intros; apply bit_replicate].
    unfold bitmap_wf, bitmap_lim; simpl. rewrite length_replicate.
    split_and!; [lia|lia|fold words; lia|apply Forall_replicate; unfold is_u8; lia|].
    intros i Hi. lia.
Qed.

(** ** The contract of a bitmap: a set of used indices *)

Inductive bitmap_op :=
  | BAlloc
  | BMark (k : Z)
  | BUnmark (k : Z)
  | BIsset (k : Z).

Inductive bitmap_answer :=
  | BIndex (k : Z)
  | BFull
  | BDone
  | BBool (b : bool).

Definition bitmap_do (b : bitmap) (op : bitmap_op) : res (bitmap_answer * bitmap) :=
  match op with
  | BAlloc =>
      '(r, k, b') ← bitmap_alloc b;
      Ret (if r =? 0 then BIndex k else BFull, b')
  | BMark k => b' ← bitmap_mark b k; Ret (BDone, b')
  | BUnmark k => b' ← bitmap_unmark b k; Ret (BDone, b')
  | BIsset k => r ← bitmap_isset b k; Ret (BBool (negb (r =? 0)), b)
  end.

Fixpoint bitmap_run (b : bitmap) (ops : list bitmap_op) : res (list bitmap_answer) :=
  match ops with
  | [] => Ret []
  | op :: ops' =>
      '(ans, b') ← bitmap_do b op;
      rest ← bitmap_run b' ops';
      Ret (ans :: rest)
  end.

(** One operation on the set [U] of used indices below [nb]; [None] is a
    failed assertion. *)
Inductive set_step (nb : Z) (U : gset Z) : bitmap_op → option (bitmap_answer * gset Z) → Prop :=
  | ss_alloc k : 0 ≤ k < nb → k ∉ U → (∀ j, 0 ≤ j < k → j ∈ U) →
      set_step nb U BAlloc (Some (BIndex k, {[k]} ∪ U))
  | ss_full : (∀ j, 0 ≤ j < nb → j ∈ U) → set_step nb U BAlloc (Some (BFull, U))
  | ss_mark k : 0 ≤ k < nb → k ∉ U → set_step nb U (BMark k) (Some (BDone, {[k]} ∪ U))
  | ss_mark_twice k : nb ≤ k ∨ k ∈ U → set_step nb U (BMark k) None
  | ss_unmark k : 0 ≤ k < nb → k ∈ U → set_step nb U (BUnmark k) (Some (BDone, U ∖ {[k]}))
  | ss_unmark_clear k : nb ≤ k ∨ k ∉ U → set_step nb U (BUnmark k) None
  | ss_isset k : 0 ≤ k < nb →
      set_step nb U (BIsset k) (Some (BBool (bool_decide (k ∈ U)), U)).

Inductive set_run (nb : Z) : gset Z → list bitmap_op → res (list bitmap_answer) → Prop :=
  | sr_nil U : set_run nb U [] (Ret [])
  | sr_cons U op ops ans U' r :
      set_step nb U op (Some (ans, U')) → set_run nb U' ops r →
      set_run nb U (op :: ops) (rest ← r; Ret (ans :: rest))
  | sr_panic U op ops : set_step nb U op None → set_run nb U (op :: ops) Panic.

(** Indices are unsigned; [bitmap_isset] has no assertion, so its callers
    stay in range. *)
Definition bitmap_op_ok (nb : Z) (op : bitmap_op) : Prop :=
  match op with
  | BAlloc => True
  | BMark k | BUnmark k => 0 ≤ k
  | BIsset k => 0 ≤ k < nb
  end.

Definition bitmap_rep (b : bitmap) (U : gset Z) : Prop :=
  bitmap_wf b ∧ ∀ i, 0 ≤ i < nbits b → bit b i = bool_decide (i ∈ U).

Lemma bitmap_rep_set b b' U k :
  bitmap_rep b U → bitmap_wf b' → nbits b' = nbits b →
  (∀ i, 0 ≤ i → bit b' i = if i =? k then true else bit b i) → bitmap_rep b' ({[k]} ∪ U).
Proof.
  intros [_ H] Hwf Hn Hb. split; [done|]. intros i Hi. rewrite Hb, Hn in * by lia.
  destruct (Z.eqb_spec i k) as [->|]; [by rewrite bool_decide_true by set_solver|].
  rewrite H by done. apply bool_decide_ext. set_solver.
Qed.

Lemma bitmap_rep_clear b b' U k :
  bitmap_rep b U → bitmap_wf b' → nbits b' = nbits b →
  (∀ i, 0 ≤ i → bit b' i = if i =? k then false else bit b i) → bitmap_rep b' (U ∖ {[k]}).
Proof.
  intros [_ H] Hwf Hn Hb. split; [done|]. intros i Hi. rewrite Hb, Hn in * by lia.
  destruct (Z.eqb_spec i k) as [->|]; [by rewrite bool_decide_false by set_solver|].
  rewrite H by done. apply bool_decide_ext. set_solver.
Qed.

Lemma bitmap_rep_bit b U i x :
  bitmap_rep b U → 0 ≤ i < nbits b → bit b i = x → if x then i ∈ U else i ∉ U.
Proof.
  intros [_ H] Hi Hx. rewrite H in Hx by done.
  destruct (bool_decide_reflect (i ∈ U)); by subst.
Qed.

(** One call is one step on the set. *)
Lemma bitmap_do_step b U op :
  bitmap_rep b U → bitmap_op_ok (nbits b) op →
  (∃ ans b' U', bitmap_do b op = Ret (ans, b') ∧ bitmap_rep b' U' ∧ nbits b' = nbits b ∧
     set_step (nbits b) U op (Some (ans, U'))) ∨
  (bitmap_do b op = Panic ∧ set_step (nbits b) U op None).
Proof.
  intros Hr Hok. pose proof (proj1 Hr) as Hwf. destruct op as [|k|k|k]; simpl in *.
  - left. destruct (bitmap_alloc_ok b Hwf) as [(k & b' & -> & Hk & Hb & Hl & Hw & Hn & Hu)|[-> Hf]].
    + do 3 eexists; split; [done|]. split; [by eapply bitmap_rep_set|]. split; [done|].
      constructor; [done|exact (bitmap_rep_bit b U k false Hr Hk Hb)|].
      intros j Hj. apply (bitmap_rep_bit b U j true Hr); [lia|auto].
    + do 3 eexists; split; [done|]. split; [done|]. split; [done|]. constructor.
      intros j Hj. apply (bitmap_rep_bit b U j true Hr); auto.
  - destruct (Z.lt_ge_cases k (nbits b)) as [Hk|Hk]; [destruct (bit b k) eqn:Eb|].
    + right. rewrite bitmap_mark_panic by auto. split; [done|]. constructor. right.
      by apply (bitmap_rep_bit b U k true Hr).
    + left. destruct (bitmap_mark_ok b k Hwf) as (b' & -> & Hw & Hn & Hu); [lia|done|].
      do 3 eexists; split; [done|]. split; [by eapply bitmap_rep_set|]. split; [done|].
      constructor; [lia|]. by apply (bitmap_rep_bit b U k false Hr).
    + right. rewrite bitmap_mark_panic by auto. split; [done|]. constructor. by left.
  - destruct (Z.lt_ge_cases k (nbits b)) as [Hk|Hk]; [destruct (bit b k) eqn:Eb|].
    + left. destruct (bitmap_unmark_ok b k Hwf) as (b' & -> & Hw & Hn & Hu); [lia|done|].
      do 3 eexists; split; [done|]. split; [by eapply bitmap_rep_clear|]. split; [done|].
      constructor; [lia|]. by apply (bitmap_rep_bit b U k true Hr).
    + right. rewrite bitmap_unmark_panic by auto. split; [done|]. constructor. right.
      by apply (bitmap_rep_bit b U k false Hr).
    + right. rewrite bitmap_unmark_panic by auto. split; [done|]. constructor. by left.
  - left. destruct (bitmap_isset_ok b k Hwf Hok) as (r & -> & Hrb). simpl.
    rewrite Hrb, negb_involutive, (proj2 Hr k Hok).
    do 3 eexists; split; [done|]. split; [done|]. split; [done|]. by constructor.
Qed.

Lemma bitmap_run_set b U ops :
  bitmap_rep b U → Forall (bitmap_op_ok (nbits b)) ops →
  set_run (nbits b) U ops (bitmap_run b ops).
Proof.
  revert b U. induction ops as [|op ops IH]; intros b U Hr Hok; [constructor|].
  apply Forall_cons in Hok as [Hok1 Hok]. cbn [bitmap_run].
  destruct (bitmap_do_step b U op Hr Hok1) as [(ans & b' & U' & -> & Hr' & Hn & Hs)|[-> Hs]].
  - rewrite mbind_Ret. eapply sr_cons; [done|]. rewrite <- Hn in *. by apply IH.
  - by apply sr_panic.
Qed.

(** C10: a bitmap fresh from [bitmap_create] is a set of used indices, empty
    at first: [bitmap_alloc] returns the lowest unused index and reports
    ENOSPC exactly when every index below [nbits] is used (the leftover bits
    of the last byte are never handed out), [bitmap_mark] and
    [bitmap_unmark] add and remove one index and stop the kernel when it is
    already in, respectively out, and [bitmap_isset] tests membership. *)
Theorem bitmap_refines_set (o o' : oracle) (nb : Z) (b : bitmap) (ops : list bitmap_op) :
  0 ≤ nb < bitmap_lim → bitmap_create o nb = Ret (Some b, o') →
  Forall (bitmap_op_ok nb) ops → set_run nb ∅ ops (bitmap_run b ops).
Proof.
  intros Hn E Hok.
  destruct (bitmap_create_ok o nb Hn) as [(b1 & o1 & E1 & Hwf & Hnb & Hb)|(_ & o1 & E1)];
    rewrite E in E1; simplify_eq.
  apply bitmap_run_set; [|done]. split; [done|]. intros i Hi.
  rewrite Hb by done. by rewrite bool_decide_false by set_solver.
Qed.

Lemma bitmap_refines_set_witness :
  let ops := [BAlloc; BMark 2; BAlloc; BAlloc; BUnmark 1; BIsset 1; BAlloc; BMark 1] in
  set_run 11 ∅ ops (bitmap_run (mkBitmap 11 [0; 248]) ops).
Proof.
  intros ops. apply (bitmap_refines_set [] [] 11 (mkBitmap 11 [0; 248]) ops).
  - unfold bitmap_lim; lia.
  - reflexivity.
  - repeat (apply Forall_cons; split; [simpl; done || lia|]). apply Forall_nil_2.
Defined.
