(* ===== verification/Alloc.v ===== *)
(** The contract of an allocator: code that allocates, frees and uses the
    blocks it was given cannot tell the heap from a table of independent
    blocks.

    [Allocator] has the operations, [AllocSpec] what they promise; the kernel's
    heap (HeapSpec.v) and the C library's (MallocSpec.v) are instances. *)

From Stdlib Require Import ZArith Lia.
From stdpp Require Import base numbers list option gmap.
From S2P Require Import Prelude.

Open Scope Z_scope.

(** ** Operations *)

(** Words are read and written by their address; [a_check] is whether the heap
    passes its own checks; the promises are for blocks of [a_min] to [a_max]
    bytes. *)
Class Allocator (H : Type) := {
  a_malloc : Z → H → res (Z * H);
  a_free : Z → H → res H;
  a_load : Z → H → res Z;
  a_store : Z → Z → H → res H;
  a_check : H → bool;
  a_min : Z;
  a_max : Z
}.

(** A client names its allocations by their number in order; [off] is a byte
    offset of a word. *)
Inductive hop :=
  | HMalloc (sz : Z)
  | HFree (i : nat)
  | HStore (i : nat) (off v : Z)
  | HLoad (i : nat) (off : Z).

Inductive hout := OBlock (ok : bool) | OVoid | OWord (v : Z).

(** The abstract table: the size of each allocation in use and the words
    written to it. *)
Abbreviation table := (list (option (Z * gmap Z Z))).

(** Whether [off] is the offset of a word of a block of [sz] bytes. *)
Definition word_in (sz off : Z) : bool := (0 <=? off) && (off + 4 <=? sz) && (off mod 4 =? 0).

Definition handle (env : list (option Z)) (i : nat) : res Z :=
  match env !! i with Some (Some p) => Ret p | _ => Undef end.

Section client.
Context {H : Type} `{Allocator H}.

(** One step of a client. *)
Definition hstep (o : hop) (env : list (option Z)) (h : H) : res (hout * list (option Z) * H) :=
  match o with
  | HMalloc sz =>
      '(p, h) ← a_malloc sz h;
      if p =? 0 then Ret (OBlock false, env ++ [None], h) else Ret (OBlock true, env ++ [Some p], h)
  | HFree i => p ← handle env i; h ← a_free p h; Ret (OVoid, env, h)
  | HStore i off v => p ← handle env i; h ← a_store (p + off) v h; Ret (OVoid, env, h)
  | HLoad i off => p ← handle env i; v ← a_load (p + off) h; Ret (OWord v, env, h)
  end.

(** What the table allows: [None] when the client itself is wrong, otherwise
    the answer (a block may always be refused) and the next table. *)
Definition allowed (o : hop) (x : hout) (t : table) : option (bool * table) :=
  match o with
  | HMalloc sz =>
      if (a_min <=? sz) && (sz <=? a_max) then
        Some (match x with OBlock _ => true | _ => false end,
              t ++ [match x with OBlock true => Some (sz, ∅) | _ => None end])
      else None
  | HFree i =>
      match t !! i with
      | Some (Some _) => Some (match x with OVoid => true | _ => false end, <[i := None]> t)
      | _ => None
      end
  | HStore i off v =>
      match t !! i with
      | Some (Some (sz, m)) =>
          if word_in sz off then
            Some (match x with OVoid => true | _ => false end, <[i := Some (sz, <[off := v]> m)]> t)
          else None
      | _ => None
      end
  | HLoad i off =>
      match t !! i with
      | Some (Some (sz, m)) =>
          match m !! off with
          | Some v => Some (match x with OWord w => w =? v | _ => false end, t)
          | None => None
          end
      | _ => None
      end
  end.

(** Running a client beside the table: [false] as soon as the heap fails,
    answers what the table does not allow or does not pass its checks, while
    the client is not wrong. *)
Fixpoint conforms (ops : list hop) (env : list (option Z)) (h : H) (t : table) : bool :=
  match ops with
  | [] => true
  | o :: ops' =>
      match hstep o env h with
      | Ret (x, env', h') =>
          match allowed o x t with
          | None => true
          | Some (ok, t') => ok && a_check h' && conforms ops' env' h' t'
          end
      | _ => match allowed o OVoid t with None => true | Some _ => false end
      end
  end.
End client.

(** ** Promises *)

(** [a_rep B h]: [h] is a heap in which the blocks of [B], by address, are in
    use; [a_word] is the memory. *)
Class AllocSpec (H : Type) `{Allocator H} := {
  a_rep : gmap Z Z → H → Prop;
  a_word : H → Z → option Z;
  law_disjoint B h p n q k x : a_rep B h → B !! p = Some n → B !! q = Some k → p ≤ x < p + n → q ≤ x < q + k → p = q;
  law_malloc sz B h : a_rep B h → a_min ≤ sz ≤ a_max →
    ∃ p h', a_malloc sz h = Ret (p, h') ∧
      (∀ q n x, B !! q = Some n → q ≤ x < q + n → a_word h' x = a_word h x) ∧
      (p = 0 ∧ a_rep B h' ∨ p ≠ 0 ∧ B !! p = None ∧ ∃ n, sz ≤ n ∧ a_rep (<[p := n]> B) h');
  law_free p n B h : a_rep B h → B !! p = Some n →
    ∃ h', a_free p h = Ret h' ∧ a_rep (delete p B) h' ∧
      ∀ q k x, delete p B !! q = Some k → q ≤ x < q + k → a_word h' x = a_word h x;
  law_store p n off v B h : a_rep B h → B !! p = Some n → word_in n off = true →
    ∃ h', a_store (p + off) v h = Ret h' ∧ a_rep B h' ∧ a_word h' (p + off) = Some v ∧
      ∀ x, x ≠ p + off → a_word h' x = a_word h x;
  law_load a v h : a_word h a = Some v → a_load a h = Ret v;
  law_check B h : a_rep B h → a_check h = true
}.

Lemma word_in_spec sz off : word_in sz off = true ↔ 0 ≤ off ∧ off + 4 ≤ sz ∧ off mod 4 = 0.
Proof. unfold word_in. rewrite !andb_true_iff, !Z.leb_le, Z.eqb_eq. tauto. Qed.

Lemma word_in_le sz n off : word_in sz off = true → sz ≤ n → word_in n off = true.
Proof. rewrite !word_in_spec. lia. Qed.

(** ** The simulation *)

Section sim.
Context {H : Type} `{AllocSpec H}.
Implicit Types (t : table) (env : list (option Z)) (h : H) (B : gmap Z Z).

Record hsim t env h B : Prop := {
  hs_rep : a_rep B h;
  hs_len : length env = length t;
  hs_block : ∀ i sz m, t !! i = Some (Some (sz, m)) →
    ∃ p n, env !! i = Some (Some p) ∧ B !! p = Some n ∧ sz ≤ n ∧
      ∀ off v, m !! off = Some v → word_in sz off = true ∧ a_word h (p + off) = Some v;
  hs_inj : ∀ i j x y p, t !! i = Some (Some x) → t !! j = Some (Some y) →
    env !! i = Some (Some p) → env !! j = Some (Some p) → i = j
}.

(** A heap whose blocks in use have the same words. *)
Lemma block_same h h' B B' sz (m : gmap Z Z) p n :
  (∀ q k x, B' !! q = Some k → q ≤ x < q + k → a_word h' x = a_word h x) → B' !! p = Some n → sz ≤ n →
  (∀ off v, m !! off = Some v → word_in sz off = true ∧ a_word h (p + off) = Some v) →
  ∀ off v, m !! off = Some v → word_in sz off = true ∧ a_word h' (p + off) = Some v.
Proof.
  intros Hs Hp Hn Hc off v Hv. destruct (Hc off v Hv) as [Hw E]. split; [done|]. apply word_in_spec in Hw. by rewrite (Hs p n) by (done || lia).
Qed.

Lemma hsim_free t env h B i h' x p :
  hsim t env h B → t !! i = Some (Some x) → env !! i = Some (Some p) → a_rep (delete p B) h' →
  (∀ q k z, delete p B !! q = Some k → q ≤ z < q + k → a_word h' z = a_word h z) → hsim (<[i := None]> t) env h' (delete p B).
Proof.
  intros HS Hi Ep HR Hm. split; [done|rewrite length_insert; apply HS| |].
  - intros j sz m. rewrite list_lookup_insert_Some. intros [(_ & ? & _)|[Hne Hj]]; [done|].
    destruct (hs_block _ _ _ _ HS j sz m Hj) as (q & n & Eq & Hq & Hsz & Hc).
    assert (q ≠ p) as Hqp by (intros ->; apply Hne; by eapply (hs_inj _ _ _ _ HS)).
    assert (delete p B !! q = Some n) as Hq' by (by rewrite lookup_delete_ne).
    exists q, n. split; [done|]. split; [done|]. split; [done|]. by eapply block_same.
  - intros j1 j2 y z q. rewrite !list_lookup_insert_Some. intros [(_ & ? & _)|[_ ?]] [(_ & ? & _)|[_ ?]]; try done. by eapply (hs_inj _ _ _ _ HS).
Qed.

Lemma hsim_store t env h B i sz m off v p h' :
  hsim t env h B → t !! i = Some (Some (sz, m)) → env !! i = Some (Some p) → word_in sz off = true →
  a_rep B h' → a_word h' (p + off) = Some v → (∀ x, x ≠ p + off → a_word h' x = a_word h x) →
  hsim (<[i := Some (sz, <[off := v]> m)]> t) env h' B.
Proof.
  intros HS Hi Ep Hw HR Hv Hne. destruct (hs_block _ _ _ _ HS i sz m Hi) as (p' & n & Ep' & Hp & Hsz & Hc). simplify_eq.
  pose proof Hw as Hw'. apply word_in_spec in Hw'. split; [done|rewrite length_insert; apply HS| |].
  - intros j sz' m'. rewrite list_lookup_insert_Some. intros [(<- & [= <- <-] & _)|[Hij Hj]].
    + exists p, n. split; [done|]. split; [done|]. split; [done|]. intros o w. rewrite lookup_insert_Some. intros [[<- <-]|[Hno Ho]]; [done|].
      rewrite Hne by lia. auto.
    + destruct (hs_block _ _ _ _ HS j sz' m' Hj) as (q & k & Eq & Hq & Hsz' & Hc'). exists q, k. split; [done|]. split; [done|]. split; [done|].
      intros o w Ho. destruct (Hc' o w Ho) as [Hwo ?]. split; [done|]. apply word_in_spec in Hwo. rewrite Hne; [done|]. intros E.
      assert (p = q) as <- by (eapply (law_disjoint B h p n q k (p + off)); [apply HS|done|done|lia|lia]). apply Hij. by eapply (hs_inj _ _ _ _ HS).
  - assert (∀ j y, <[i := Some (sz, <[off := v]> m)]> t !! j = Some (Some y) → ∃ z, t !! j = Some (Some z)) as Hsub.
    { intros j y. rewrite list_lookup_insert_Some. intros [(<- & _ & _)|[_ ?]]; eauto. }
    intros j1 j2 y z q [y' Hy]%Hsub [z' Hz]%Hsub. by eapply (hs_inj _ _ _ _ HS).
Qed.

Lemma hsim_refused t env h B h' :
  hsim t env h B → a_rep B h' → (∀ q n x, B !! q = Some n → q ≤ x < q + n → a_word h' x = a_word h x) → hsim (t ++ [None]) (env ++ [None]) h' B.
Proof.
  intros HS HR Hm. split; [done|rewrite !length_app, (hs_len _ _ _ _ HS); done| |].
  - intros i sz m [Hi|[_ Hi]]%lookup_app_Some; [|by apply list_lookup_singleton_Some in Hi as [_ ?]].
    destruct (hs_block _ _ _ _ HS i sz m Hi) as (q & n & Eq & Hq & Hsz & Hc). exists q, n. split; [by apply lookup_app_l_Some|]. split; [done|]. split; [done|]. by eapply block_same.
  - intros i j x y p [Hi|[_ Hi]]%lookup_app_Some [Hj|[_ Hj]]%lookup_app_Some; try by apply list_lookup_singleton_Some in Hi as [_ ?] || apply list_lookup_singleton_Some in Hj as [_ ?].
    pose proof (lookup_lt_Some _ _ _ Hi). pose proof (lookup_lt_Some _ _ _ Hj). rewrite !lookup_app_l by (rewrite (hs_len _ _ _ _ HS); done).
    by eapply (hs_inj _ _ _ _ HS).
Qed.

Lemma hsim_malloc t env h B sz p n h' :
  hsim t env h B → B !! p = None → sz ≤ n → a_rep (<[p := n]> B) h' →
  (∀ q k x, B !! q = Some k → q ≤ x < q + k → a_word h' x = a_word h x) → hsim (t ++ [Some (sz, ∅)]) (env ++ [Some p]) h' (<[p := n]> B).
Proof.
  intros HS Hp Hn HR Hm. pose proof (hs_len _ _ _ _ HS) as Hlen.
  assert (∀ i x q, t !! i = Some (Some x) → env !! i = Some (Some q) → q ≠ p) as Hfresh.
  { intros i [sz' m] q Hi Ei ->. destruct (hs_block _ _ _ _ HS i sz' m Hi) as (q' & k & Eq & Hq & _). simplify_eq. }
  assert (∀ i x q, (t ++ [Some (sz, ∅)]) !! i = Some (Some x) → (env ++ [Some p]) !! i = Some (Some q) →
    (t !! i = Some (Some x) ∧ env !! i = Some (Some q)) ∨ (i = length t ∧ q = p)) as Hcase.
  { intros i x q [Hi|[Hl Hi]]%lookup_app_Some.
    - pose proof (lookup_lt_Some _ _ _ Hi). rewrite lookup_app_l by lia. auto.
    - apply list_lookup_singleton_Some in Hi as [Hi0 _]. assert (i = length t) as -> by lia. rewrite <- Hlen, lookup_app_r, Nat.sub_diag by lia. intros [= <-]. by right. }
  split; [done|rewrite !length_app; simpl; lia| |].
  - intros i sz' m Hi. pose proof Hi as [Hi'|[Hl Hi']]%lookup_app_Some.
    + destruct (hs_block _ _ _ _ HS i sz' m Hi') as (q & k & Eq & Hq & Hsz & Hc). exists q, k. split; [by apply lookup_app_l_Some|].
      split; [rewrite lookup_insert_ne; [done|by intros ->; congruence]|]. split; [done|]. intros off v Hv. by eapply (block_same h h' B B).
    + apply list_lookup_singleton_Some in Hi' as [Hi0 [= <- <-]]. assert (i = length t) as -> by lia. exists p, n.
      rewrite <- Hlen, lookup_app_r, Nat.sub_diag by lia. split; [done|]. split; [by rewrite lookup_insert_eq|]. split; [done|]. intros off v Hv. by rewrite lookup_empty in Hv.
  - intros i j x y q Hi Hj Ei Ej. destruct (Hcase i x q Hi Ei) as [[Hi' Ei']|[-> ->]], (Hcase j y _ Hj Ej) as [[Hj' Ej']|[-> E]]; try done.
    + by eapply (hs_inj _ _ _ _ HS).
    + subst. by destruct (Hfresh i x p).
    + by destruct (Hfresh j y p).
Qed.

Lemma conforms_ok ops : ∀ t env h B, hsim t env h B → conforms ops env h t = true.
Proof.
  induction ops as [|o ops IH]; intros t env h B HS; [done|]. cbn [conforms].
  destruct o as [sz|i|i off v|i off]; cbn [hstep allowed].
  - destruct ((a_min <=? sz) && (sz <=? a_max)) eqn:Hsz.
    2:{ destruct (a_malloc sz h) as [[p h']| | |]; simpl; [by destruct (p =? 0)|done..]. }
    zb. destruct (law_malloc sz B h) as (p & h' & E & Hm & Hres); [apply HS|lia|]. rewrite E, mbind_Ret.
    destruct Hres as [[-> HR]|(Hp & Hnew & n & Hn & HR)]; [simpl|rewrite (proj2 (Z.eqb_neq _ _) Hp); cbn [andb]]; rewrite (law_check _ _ HR).
    + eapply IH. by eapply hsim_refused.
    + eapply IH. by eapply hsim_malloc.
  - unfold handle. destruct (t !! i) as [[x|]|] eqn:Hi; [|by repeat case_match..].
    destruct x as [sz m]. destruct (hs_block _ _ _ _ HS i sz m Hi) as (p & n & Ep & Hp & _).
    rewrite Ep, mbind_Ret. destruct (law_free p n B h) as (h' & E & HR & Hm); [apply HS|done|].
    rewrite E, mbind_Ret. cbn [andb]. rewrite (law_check _ _ HR). eapply IH. by eapply hsim_free.
  - unfold handle. destruct (t !! i) as [[[sz m]|]|] eqn:Hi; [|by repeat case_match..].
    destruct (hs_block _ _ _ _ HS i sz m Hi) as (p & n & Ep & Hp & Hn & _). rewrite Ep, mbind_Ret.
    destruct (word_in sz off) eqn:Hw; [|by destruct (a_store (p + off) v h)].
    destruct (law_store p n off v B h) as (h' & E & HR & Hv & Hm); [apply HS|done|by eapply word_in_le|]. rewrite E, mbind_Ret. cbn [andb].
    rewrite (law_check _ _ HR). eapply IH. by eapply hsim_store.
  - unfold handle. destruct (t !! i) as [[[sz m]|]|] eqn:Hi; [|by repeat case_match..].
    destruct (hs_block _ _ _ _ HS i sz m Hi) as (p & n & Ep & Hp & _ & Hc). rewrite Ep, mbind_Ret.
    destruct (m !! off) as [v|] eqn:Hv; [|by destruct (a_load (p + off) h)].
    destruct (Hc off v Hv) as [_ Ew]. rewrite (law_load _ _ _ Ew), mbind_Ret, Z.eqb_refl. cbn [andb]. rewrite (law_check _ _ (hs_rep _ _ _ _ HS)). by eapply IH.
Qed.

(** A heap with nothing in use, seen by any client. *)
Lemma conforms_start ops h : a_rep ∅ h → conforms ops [] h [] = true.
Proof. intros HR. eapply (conforms_ok ops [] [] h ∅). split; [done|done|by intros ??? ?|by intros ????? ?]. Qed.
End sim.
