(* ===== verification/Cpu.v ===== *)
(** The processor's interrupt state (kern/arch/mips/mips/spl.c).

    [c0_status] is coprocessor 0's status register, whose bit 0 is the
    interrupt enable flag; [curspl] is the software priority level.  The two
    are kept together by [splx] and its callers. *)

From Stdlib Require Import ZArith Lia.
From stdpp Require Import base numbers list option gmap.
From S2P Require Import Prelude.

Open Scope Z_scope.

Definition CST_IEc : Z := 1.
Definition SPL_HIGH : Z := 15.

Record cpu := mkCpu { c0_status : Z; curspl : Z }.

Definition interrupts_on (c : cpu) : cpu :=
  mkCpu (Z.lor (c0_status c) CST_IEc) (curspl c).

Definition interrupts_off (c : cpu) : cpu :=
  mkCpu (Z.land (c0_status c) (u32 (Z.lnot CST_IEc))) (curspl c).

(** [splx]: the old level and the processor after the call. *)
Definition splx (newspl : Z) (c : cpu) : Z * cpu :=
  let c' := if 0 <? newspl then interrupts_off c
            else if newspl =? 0 then interrupts_on c else c in
  (curspl c, mkCpu (c0_status c') newspl).

Definition splhigh (c : cpu) : Z * cpu := splx SPL_HIGH c.
Definition spl0 (c : cpu) : Z * cpu := splx 0 c.

(** Whether the processor takes interrupts. *)
Definition ints_enabled (c : cpu) : bool := Z.testbit (c0_status c) 0.

(** The levels agree with the hardware: interrupts are on exactly at level
    zero. *)
Definition cpu_wf (c : cpu) : Prop :=
  is_u32 (c0_status c) ∧ (curspl c = 0 ∨ curspl c = SPL_HIGH) ∧
  ints_enabled c = (curspl c =? 0).

Lemma u32_land_range a b : is_u32 a → is_u32 (Z.land a b).
Proof.
  unfold is_u32. intros Ha. destruct (Z.eq_dec (Z.land a b) 0) as [->|]; [lia|].
  assert (0 ≤ Z.land a b) by (apply Z.land_nonneg; lia). split; [done|].
  destruct (Z.eq_dec a 0) as [->|]; [rewrite Z.land_0_l in *; lia|].
  change 4294967296 with (2 ^ 32). apply Z.log2_lt_pow2; [lia|].
  destruct (Z.lt_ge_cases (Z.log2 (Z.land a b)) 32) as [|Hge]; [done|].
  assert (Z.testbit (Z.land a b) (Z.log2 (Z.land a b)) = true) as E by (apply Z.bit_log2; lia).
  rewrite Z.land_spec, (Z.bits_above_log2 a) in E; [done|lia|].
  apply Z.lt_le_trans with 32; [|done]. apply Z.log2_lt_pow2; lia.
Qed.

Lemma u32_lor_range a b : is_u32 a → is_u32 b → is_u32 (Z.lor a b).
Proof.
  unfold is_u32. intros Ha Hb.
  assert (0 ≤ Z.lor a b) by (apply Z.lor_nonneg; lia). split; [done|].
  destruct (Z.eq_dec (Z.lor a b) 0) as [->|]; [lia|].
  change 4294967296 with (2 ^ 32). apply Z.log2_lt_pow2; [lia|].
  rewrite Z.log2_lor by lia.
  assert (∀ x, 0 ≤ x < 4294967296 → Z.log2 x < 32) as Hx.
  { intros x Hx. destruct (Z.eq_dec x 0) as [->|]; [done|].
    apply Z.log2_lt_pow2; [lia|]. simpl. lia. }
  pose proof (Hx a Ha). pose proof (Hx b Hb). lia.
Qed.

Lemma splx_spec n c :
  (n = 0 ∨ n = SPL_HIGH) → is_u32 (c0_status c) →
  (splx n c).1 = curspl c ∧ cpu_wf (splx n c).2 ∧ curspl (splx n c).2 = n.
Proof.
  intros Hn Hs. split; [done|]. split; [|done]. unfold cpu_wf, splx, SPL_HIGH in *.
  destruct Hn as [->| ->]; cbn [Z.ltb Z.eqb Z.compare interrupts_on interrupts_off c0_status curspl snd].
  - split; [|split; [by left|]].
    + apply u32_lor_range; [done|]. unfold is_u32, CST_IEc. lia.
    + unfold ints_enabled; cbn [c0_status curspl]. rewrite Z.lor_spec. apply orb_true_r.
  - split; [|split; [by right|]].
    + by apply u32_land_range.
    + unfold ints_enabled; cbn [c0_status curspl]. rewrite Z.land_spec. apply andb_false_r.
Qed.

Lemma u32_bits x n : is_u32 x → 32 ≤ n → Z.testbit x n = false.
Proof.
  intros Hx Hn. destruct (Z.eq_dec x 0) as [->|]; [apply Z.bits_0|].
  apply Z.bits_above_log2; [apply Hx|]. unfold is_u32 in Hx.
  apply Z.log2_lt_pow2; [lia|]. pose proof (Z.pow_le_mono_r 2 32 n). lia.
Qed.

Lemma off_bits x n :
  is_u32 x → 0 ≤ n →
  Z.testbit (Z.land x (u32 (Z.lnot CST_IEc))) n = if n =? 0 then false else Z.testbit x n.
Proof.
  intros Hx Hn. change (u32 (Z.lnot CST_IEc)) with (Z.shiftl (Z.ones 31) 1).
  rewrite Z.land_spec. destruct (Z.eqb_spec n 0) as [->|].
  { rewrite (Z.shiftl_spec_low _ 1 0), andb_false_r by lia. done. }
  rewrite Z.shiftl_spec by lia. destruct (Z.lt_ge_cases n 32).
  - rewrite Z.ones_spec_low by lia. apply andb_true_r.
  - by rewrite u32_bits by done.
Qed.

(** [s = splhigh(); ... splx(s)] leaves the processor as it was. *)
Lemma spl_bracket c : cpu_wf c → (splx (curspl c) (splhigh c).2).2 = c.
Proof.
  intros (Hu & Hl & He). destruct c as [st l]. unfold ints_enabled in He.
  cbn [c0_status curspl] in *.
  unfold splhigh, splx, SPL_HIGH in *; simpl. f_equal.
  apply Z.bits_inj'. intros n Hn. unfold interrupts_on, interrupts_off.
  destruct Hl as [->| ->]; cbn [Z.ltb Z.eqb Z.compare c0_status].
  - rewrite Z.lor_spec, off_bits by done. unfold CST_IEc. destruct (Z.eqb_spec n 0) as [->|].
    + by rewrite He.
    + change 1 with (2 ^ 0). rewrite Z.pow2_bits_false by lia. apply orb_false_r.
  - rewrite !off_bits by (done || by apply u32_land_range).
    destruct (Z.eqb_spec n 0) as [->|]; [by rewrite He|done].
Qed.

Lemma splhigh_wf c : cpu_wf c → cpu_wf (splhigh c).2.
Proof. intros (Hu & _). apply splx_spec; [by right|done]. Qed.

(** Raising a raised level changes nothing. *)
Lemma splhigh_id c : cpu_wf c → curspl c = SPL_HIGH → (splhigh c).2 = c.
Proof.
  intros Hc Hs. pose proof (spl_bracket c Hc) as Hb. rewrite Hs in Hb.
  rewrite <- Hb at 2. unfold splhigh, splx, SPL_HIGH, interrupts_off; simpl. f_equal.
  by rewrite <- Z.land_assoc, Z.land_diag.
Qed.
