(* ===== verification/Vm.v ===== *)
(** Physical memory and the "dumb" virtual memory system
    (kern/arch/mips/mips/ram.c, kern/arch/mips/mips/dumbvm.c).

    [vm] is the machine the code works on: the bounds of free physical
    memory, the 64 TLB entries as (high word, low word) pairs, the bytes of
    physical memory and the processor's interrupt state.  [translate] is the
    abstract meaning of an address space, a partial map from user addresses
    to physical ones, and [tlb_lookup] what the hardware does with the TLB. *)

From Stdlib Require Import ZArith Lia.
From stdpp Require Import base numbers list option gmap.
From S2P Require Import Prelude Cpu.

Open Scope Z_scope.

Definition PAGE_SIZE : Z := 4096.
Definition PAGE_FRAME : Z := 4294963200.
Definition MIPS_KSEG0 : Z := 2147483648.
Definition USERTOP : Z := MIPS_KSEG0.
Definition USERSTACK : Z := USERTOP.
Definition PADDR_TO_KVADDR (paddr : Z) : Z := u32 (paddr + MIPS_KSEG0).

Definition NUM_TLB : nat := 64.
Definition TLBLO_DIRTY : Z := 1024.
Definition TLBLO_VALID : Z := 512.
Definition TLBHI_INVALID (entryno : Z) : Z := u32 (Z.shiftl (524288 + entryno) 12).
Definition TLBLO_INVALID : Z := 0.

Definition VM_FAULT_READ : Z := 0.
Definition VM_FAULT_WRITE : Z := 1.
Definition VM_FAULT_READONLY : Z := 2.

Definition DUMBVM_STACKPAGES : Z := 12.

Record vm := mkVm {
  firstpaddr : Z;
  lastpaddr : Z;
  ramsize : Z;
  tlb : list (Z * Z);
  pmem : Z → Z;
  vcpu : cpu
}.

Record addrspace := mkAs {
  as_vbase1 : Z; as_pbase1 : Z; as_npages1 : Z;
  as_vbase2 : Z; as_pbase2 : Z; as_npages2 : Z;
  as_stackpbase : Z
}.

(** ** ram.c *)

Definition set_ram (s : vm) (first last : Z) : vm :=
  mkVm first last (ramsize s) (tlb s) (pmem s) (vcpu s).
Definition set_tlb (s : vm) (t : list (Z * Z)) : vm :=
  mkVm (firstpaddr s) (lastpaddr s) (ramsize s) t (pmem s) (vcpu s).
Definition set_pmem (s : vm) (m : Z → Z) : vm :=
  mkVm (firstpaddr s) (lastpaddr s) (ramsize s) (tlb s) m (vcpu s).
Definition set_vcpu (s : vm) (c : cpu) : vm :=
  mkVm (firstpaddr s) (lastpaddr s) (ramsize s) (tlb s) (pmem s) c.

(** [firstfree] is the kernel's end as start.S left it, [mips_ramsize] the
    value the bus reports. *)
Definition ram_bootstrap (mips_ramsize firstfree : Z) (s : vm) : vm :=
  let ramsize := if 508 * 1024 * 1024 <? mips_ramsize then 508 * 1024 * 1024 else mips_ramsize in
  set_ram s (u32 (firstfree - MIPS_KSEG0)) ramsize.

Definition ram_stealmem (npages : Z) (s : vm) : Z * vm :=
  let size := u32 (npages * PAGE_SIZE) in
  if lastpaddr s <? u32 (firstpaddr s + size) then (0, s)
  else (firstpaddr s, set_ram s (u32 (firstpaddr s + size)) (lastpaddr s)).

Definition ram_getsize (s : vm) : Z * Z * vm :=
  (firstpaddr s, lastpaddr s, set_ram s 0 0).

(** ** dumbvm.c *)

Definition getppages (npages : Z) (s : vm) : Z * vm :=
  let '(spl, c1) := splhigh (vcpu s) in
  let '(addr, s1) := ram_stealmem npages (set_vcpu s c1) in
  let '(_, c2) := splx spl (vcpu s1) in
  (addr, set_vcpu s1 c2).

Definition alloc_kpages (npages : Z) (s : vm) : Z * vm :=
  let '(pa, s') := getppages npages s in
  if pa =? 0 then (0, s') else (PADDR_TO_KVADDR pa, s').

Definition TLB_Write (ehi elo : Z) (i : nat) (t : list (Z * Z)) : list (Z * Z) :=
  <[i := (ehi, elo)]> t.

(** The slot search of [vm_fault], over [n] slots from [i]. *)
Fixpoint vm_fault_slot (n i : nat) (t : list (Z * Z)) : res (option nat) :=
  match n with
  | O => Ret None
  | S n' =>
      match t !! i with
      | None => Undef
      | Some (_, elo) =>
          if negb (Z.land elo TLBLO_VALID =? 0) then vm_fault_slot n' (S i) t
          else Ret (Some i)
      end
  end.

(** [(x & PAGE_FRAME) == x]. *)
Definition page_aligned (x : Z) : bool := Z.land x PAGE_FRAME =? x.

(** [vmspace] is [curthread->t_vmspace]. *)
Definition vm_fault (faulttype faultaddress0 : Z) (vmspace : option addrspace) (s : vm)
    : res (Z * vm) :=
  let '(spl, c1) := splhigh (vcpu s) in
  let s1 := set_vcpu s c1 in
  let return_ (r : Z) (s' : vm) : res (Z * vm) :=
    Ret (r, set_vcpu s' (splx spl (vcpu s')).2) in
  let faultaddress := Z.land faultaddress0 PAGE_FRAME in
  if faulttype =? VM_FAULT_READONLY then Panic
  else if negb ((faulttype =? VM_FAULT_READ) || (faulttype =? VM_FAULT_WRITE))
  then return_ EINVAL s1
  else
    match vmspace with
    | None => Ret (EFAULT, s1)
    | Some a =>
        _ ← kassert (negb (as_vbase1 a =? 0));
        _ ← kassert (negb (as_pbase1 a =? 0));
        _ ← kassert (negb (as_npages1 a =? 0));
        _ ← kassert (negb (as_vbase2 a =? 0));
        _ ← kassert (negb (as_pbase2 a =? 0));
        _ ← kassert (negb (as_npages2 a =? 0));
        _ ← kassert (negb (as_stackpbase a =? 0));
        _ ← kassert (page_aligned (as_vbase1 a));
        _ ← kassert (page_aligned (as_pbase1 a));
        _ ← kassert (page_aligned (as_vbase2 a));
        _ ← kassert (page_aligned (as_pbase2 a));
        _ ← kassert (page_aligned (as_stackpbase a));
        let vbase1 := as_vbase1 a in
        let vtop1 := u32 (vbase1 + as_npages1 a * PAGE_SIZE) in
        let vbase2 := as_vbase2 a in
        let vtop2 := u32 (vbase2 + as_npages2 a * PAGE_SIZE) in
        let stackbase := u32 (USERSTACK - DUMBVM_STACKPAGES * PAGE_SIZE) in
        let stacktop := USERSTACK in
        let go paddr :=
          _ ← kassert (page_aligned paddr);
          slot ← vm_fault_slot NUM_TLB 0 (tlb s1);
          match slot with
          | Some i =>
              let elo := Z.lor (Z.lor paddr TLBLO_DIRTY) TLBLO_VALID in
              return_ 0 (set_tlb s1 (TLB_Write faultaddress elo i (tlb s1)))
          | None => return_ EFAULT s1
          end in
        if (vbase1 <=? faultaddress) && (faultaddress <? vtop1)
        then go (u32 (u32 (faultaddress - vbase1) + as_pbase1 a))
        else if (vbase2 <=? faultaddress) && (faultaddress <? vtop2)
        then go (u32 (u32 (faultaddress - vbase2) + as_pbase2 a))
        else if (stackbase <=? faultaddress) && (faultaddress <? stacktop)
        then go (u32 (u32 (faultaddress - stackbase) + as_stackpbase a))
        else return_ EFAULT s1
    end.

Definition as_create (o : oracle) : option addrspace * oracle :=
  let '(ok, o') := kmalloc_ok o in
  if ok then (Some (mkAs 0 0 0 0 0 0 0), o') else (None, o').

(** The loop of [as_activate] over the TLB slots [i .. i+n-1]. *)
Fixpoint tlb_flush (n i : nat) (t : list (Z * Z)) : list (Z * Z) :=
  match n with
  | O => t
  | S n' => tlb_flush n' (S i) (TLB_Write (TLBHI_INVALID (Z.of_nat i)) TLBLO_INVALID i t)
  end.

Definition as_activate (s : vm) : vm :=
  let '(spl, c1) := splhigh (vcpu s) in
  let s1 := set_tlb (set_vcpu s c1) (tlb_flush NUM_TLB 0 (tlb s)) in
  let '(_, c2) := splx spl (vcpu s1) in
  set_vcpu s1 c2.

Definition as_define_region (a : addrspace) (vaddr sz : Z) : Z * addrspace :=
  let sz1 := u32 (sz + Z.land vaddr (u32 (Z.lnot PAGE_FRAME))) in
  let vaddr' := Z.land vaddr PAGE_FRAME in
  let sz2 := Z.land (u32 (sz1 + PAGE_SIZE - 1)) PAGE_FRAME in
  let npages := sz2 / PAGE_SIZE in
  if as_vbase1 a =? 0 then
    (0, mkAs vaddr' (as_pbase1 a) npages (as_vbase2 a) (as_pbase2 a) (as_npages2 a)
          (as_stackpbase a))
  else if as_vbase2 a =? 0 then
    (0, mkAs (as_vbase1 a) (as_pbase1 a) (as_npages1 a) vaddr' (as_pbase2 a) npages
          (as_stackpbase a))
  else (EUNIMP, a).

Definition as_prepare_load (a : addrspace) (s : vm) : res (Z * addrspace * vm) :=
  _ ← kassert (as_pbase1 a =? 0);
  _ ← kassert (as_pbase2 a =? 0);
  _ ← kassert (as_stackpbase a =? 0);
  let '(p1, s1) := getppages (as_npages1 a) s in
  let a1 := mkAs (as_vbase1 a) p1 (as_npages1 a) (as_vbase2 a) (as_pbase2 a) (as_npages2 a)
              (as_stackpbase a) in
  if p1 =? 0 then Ret (ENOMEM, a1, s1) else
  let '(p2, s2) := getppages (as_npages2 a) s1 in
  let a2 := mkAs (as_vbase1 a) p1 (as_npages1 a) (as_vbase2 a) p2 (as_npages2 a)
              (as_stackpbase a) in
  if p2 =? 0 then Ret (ENOMEM, a2, s2) else
  let '(p3, s3) := getppages DUMBVM_STACKPAGES s2 in
  let a3 := mkAs (as_vbase1 a) p1 (as_npages1 a) (as_vbase2 a) p2 (as_npages2 a) p3 in
  if p3 =? 0 then Ret (ENOMEM, a3, s3) else Ret (0, a3, s3).

Definition as_complete_load (a : addrspace) : Z := 0.

Definition as_define_stack (a : addrspace) : res (Z * Z) :=
  _ ← kassert (negb (as_stackpbase a =? 0));
  Ret (0, USERSTACK).

(** [memmove] between kernel (direct-mapped) addresses; leaving physical
    memory is undefined. *)
Definition memmove_k (dst src n : Z) (s : vm) : res vm :=
  let d := u32 (dst - MIPS_KSEG0) in
  let f := u32 (src - MIPS_KSEG0) in
  if (d + n <=? ramsize s) && (f + n <=? ramsize s)
  then Ret (set_pmem s (λ x, if (d <=? x) && (x <? d + n) then pmem s (f + (x - d)) else pmem s x))
  else Undef.

Definition as_copy (old : addrspace) (o : oracle) (s : vm)
    : res (Z * option addrspace * oracle * vm) :=
  let '(new, o') := as_create o in
  match new with
  | None => Ret (ENOMEM, None, o', s)
  | Some a0 =>
      let a1 := mkAs (as_vbase1 old) (as_pbase1 a0) (as_npages1 old)
                  (as_vbase2 old) (as_pbase2 a0) (as_npages2 old) (as_stackpbase a0) in
      '(r, a, s1) ← as_prepare_load a1 s;
      if negb (r =? 0) then Ret (ENOMEM, None, o', s1) else
      _ ← kassert (negb (as_pbase1 a =? 0));
      _ ← kassert (negb (as_pbase2 a =? 0));
      _ ← kassert (negb (as_stackpbase a =? 0));
      s2 ← memmove_k (PADDR_TO_KVADDR (as_pbase1 a)) (PADDR_TO_KVADDR (as_pbase1 old))
             (u32 (as_npages1 old * PAGE_SIZE)) s1;
      s3 ← memmove_k (PADDR_TO_KVADDR (as_pbase2 a)) (PADDR_TO_KVADDR (as_pbase2 old))
             (u32 (as_npages2 old * PAGE_SIZE)) s2;
      s4 ← memmove_k (PADDR_TO_KVADDR (as_stackpbase a)) (PADDR_TO_KVADDR (as_stackpbase old))
             (u32 (DUMBVM_STACKPAGES * PAGE_SIZE)) s3;
      Ret (0, Some a, o', s4)
  end.

(** ** Pages *)

Lemma page_frame v : is_u32 v → Z.land v PAGE_FRAME = 4096 * (v / 4096).
Proof.
  intros Hv. change PAGE_FRAME with (Z.shiftl (Z.ones 20) 12).
  transitivity (Z.shiftl (Z.shiftr v 12) 12).
  2:{ rewrite Z.shiftl_mul_pow2, Z.shiftr_div_pow2 by lia. change (2 ^ 12) with 4096. lia. }
  apply Z.bits_inj'. intros n Hn. rewrite Z.land_spec.
  destruct (Z.lt_ge_cases n 12).
  - rewrite !Z.shiftl_spec_low by lia. apply andb_false_r.
  - rewrite !Z.shiftl_spec, Z.shiftr_spec by lia. replace (n - 12 + 12) with n by lia.
    destruct (Z.lt_ge_cases n 32).
    + rewrite Z.ones_spec_low by lia. apply andb_true_r.
    + rewrite Z.ones_spec_high, andb_false_r by lia. symmetry.
      destruct (Z.eq_dec v 0) as [->|]; [apply Z.bits_0|].
      apply Z.bits_above_log2; [apply Hv|]. apply Z.log2_lt_pow2; [unfold is_u32 in Hv; lia|].
      pose proof (Z.pow_le_mono_r 2 32 n). unfold is_u32 in Hv. lia.
Qed.

Lemma page_frame_aligned v : is_u32 v → v mod 4096 = 0 → Z.land v PAGE_FRAME = v.
Proof. intros Hv Hm. rewrite page_frame by done. pose proof (Z.div_mod v 4096). lia. Qed.

(** ** The abstract address space *)

Lemma page_aligned_ok v : is_u32 v → v mod 4096 = 0 → page_aligned v = true.
Proof. intros. apply Z.eqb_eq. by apply page_frame_aligned. Qed.

Definition seg (base n v : Z) : bool := (base <=? v) && (v <? base + n * PAGE_SIZE).

Definition stackbase : Z := USERSTACK - DUMBVM_STACKPAGES * PAGE_SIZE.

Definition translate (a : addrspace) (v : Z) : option Z :=
  if seg (as_vbase1 a) (as_npages1 a) v then Some (v - as_vbase1 a + as_pbase1 a)
  else if seg (as_vbase2 a) (as_npages2 a) v then Some (v - as_vbase2 a + as_pbase2 a)
  else if seg stackbase DUMBVM_STACKPAGES v then Some (v - stackbase + as_stackpbase a)
  else None.

(** A segment of [n] pages at [vb], backed by [n] pages at [pb] below [lim]. *)
Definition seg_wf (lim vb pb n : Z) : Prop :=
  0 < vb ∧ 0 < pb ∧ 0 < n ∧ vb mod 4096 = 0 ∧ pb mod 4096 = 0 ∧
  vb + n * PAGE_SIZE ≤ USERTOP ∧ pb + n * PAGE_SIZE ≤ lim.

(** A loaded address space whose pages lie below [lim]. *)
Definition as_wf (lim : Z) (a : addrspace) : Prop :=
  lim ≤ MIPS_KSEG0 ∧
  seg_wf lim (as_vbase1 a) (as_pbase1 a) (as_npages1 a) ∧
  seg_wf lim (as_vbase2 a) (as_pbase2 a) (as_npages2 a) ∧
  seg_wf lim stackbase (as_stackpbase a) DUMBVM_STACKPAGES.

(** What the hardware does with an address: the first valid entry for its
    page. *)
Fixpoint tlb_lookup (t : list (Z * Z)) (v : Z) : option Z :=
  match t with
  | [] => None
  | (hi, lo) :: t' =>
      if (hi =? Z.land v PAGE_FRAME) && negb (Z.land lo TLBLO_VALID =? 0)
      then Some (Z.land lo PAGE_FRAME + v mod 4096) else tlb_lookup t' v
  end.

Lemma tlb_entry p :
  Z.land p PAGE_FRAME = p →
  Z.land (Z.lor (Z.lor p TLBLO_DIRTY) TLBLO_VALID) PAGE_FRAME = p ∧
  (Z.land (Z.lor (Z.lor p TLBLO_DIRTY) TLBLO_VALID) TLBLO_VALID =? 0) = false.
Proof.
  intros Hp. rewrite !Z.land_lor_distr_l, Hp.
  change (Z.land TLBLO_DIRTY PAGE_FRAME) with 0.
  change (Z.land TLBLO_VALID PAGE_FRAME) with 0.
  change (Z.land TLBLO_VALID TLBLO_VALID) with 512. rewrite !Z.lor_0_r.
  split; [done|]. apply Z.eqb_neq. intros [_ H]%Z.lor_eq_0_iff. done.
Qed.

(** Writing an unused slot adds one page to the hardware's view. *)
Lemma tlb_lookup_insert t i hi0 lo0 hi lo v :
  t !! i = Some (hi0, lo0) → Z.land lo0 TLBLO_VALID = 0 →
  (Z.land lo TLBLO_VALID =? 0) = false → (∀ w, Z.land w PAGE_FRAME = hi → tlb_lookup t w = None) →
  tlb_lookup (<[i := (hi, lo)]> t) v =
    if hi =? Z.land v PAGE_FRAME then Some (Z.land lo PAGE_FRAME + v mod 4096)
    else tlb_lookup t v.
Proof.
  revert i. induction t as [|[h l] t IH]; intros [|i] Ht Hv Hl Hno; simplify_eq/=.
  - rewrite Hl, Hv. simpl. rewrite andb_true_r, andb_false_r. done.
  - destruct ((h =? Z.land v PAGE_FRAME) && negb (Z.land l TLBLO_VALID =? 0)) eqn:E.
    + destruct (Z.eqb_spec hi (Z.land v PAGE_FRAME)) as [->|]; [|done].
      specialize (Hno v eq_refl). by rewrite E in Hno.
    + apply IH; [done..|]. intros w Hw. specialize (Hno w Hw).
      by destruct ((h =? Z.land w PAGE_FRAME) && negb (Z.land l TLBLO_VALID =? 0)).
Qed.

Lemma vm_fault_slot_ok n i t :
  (i + n = length t)%nat →
  (∃ j hi lo, vm_fault_slot n i t = Ret (Some j) ∧ t !! j = Some (hi, lo) ∧
     Z.land lo TLBLO_VALID = 0) ∨
  (vm_fault_slot n i t = Ret None ∧
   ∀ j hi lo, (i ≤ j)%nat → t !! j = Some (hi, lo) → Z.land lo TLBLO_VALID ≠ 0).
Proof.
  revert i. induction n as [|n IH]; intros i Hl; cbn [vm_fault_slot].
  { right. split; [done|]. intros j hi lo Hj Hlk. apply lookup_lt_Some in Hlk. lia. }
  destruct (lookup_lt_is_Some_2 t i) as [[hi lo] Hi]; [lia|]. rewrite Hi.
  destruct (Z.eqb_spec (Z.land lo TLBLO_VALID) 0) as [E|E]; simpl.
  - left. eauto 10.
  - destruct (IH (S i)) as [?|[-> H]]; [lia|by left|]. right. split; [done|].
    intros j h l Hj Hlk. destruct (decide (j = i)) as [->|]; [naive_solver|].
    eapply H; [|done]. lia.
Qed.

(** [vm_fault] on a loaded address space: every assertion holds, and what
    happens is decided by the abstract translation of the faulting page. *)
Lemma vm_fault_translate ft fa a lim s :
  as_wf lim a → ft = VM_FAULT_READ ∨ ft = VM_FAULT_WRITE → is_u32 fa → cpu_wf (vcpu s) →
  vm_fault ft fa (Some a) s =
    match translate a (Z.land fa PAGE_FRAME) with
    | None => Ret (EFAULT, s)
    | Some p =>
        slot ← vm_fault_slot NUM_TLB 0 (tlb s);
        match slot with
        | Some i => Ret (0, set_tlb s (TLB_Write (Z.land fa PAGE_FRAME)
                             (Z.lor (Z.lor p TLBLO_DIRTY) TLBLO_VALID) i (tlb s)))
        | None => Ret (EFAULT, s)
        end
    end.
Proof.
  intros (Hlim & H1 & H2 & H3) Hft Hfa Hcpu.
  assert (∀ s', vcpu s' = (splhigh (vcpu s)).2 →
    set_vcpu s' (splx (curspl (vcpu s)) (vcpu s')).2 = set_vcpu s' (vcpu s)) as Hspl.
  { intros s' ->. by rewrite spl_bracket. }
  unfold seg_wf, USERTOP, MIPS_KSEG0, PAGE_SIZE in H1, H2, H3, Hlim.
  unfold vm_fault. change (splhigh (vcpu s)) with (curspl (vcpu s), (splhigh (vcpu s)).2).
  cbv zeta. destruct (Z.eqb_spec ft VM_FAULT_READONLY) as [->|]; [by destruct Hft|].
  replace (negb _) with false by (destruct Hft as [->| ->]; done).
  pose proof (page_frame fa Hfa) as Efa. set (f := Z.land fa PAGE_FRAME) in *.
  assert (f mod 4096 = 0) as Hf0 by (rewrite Efa, Z.mul_comm; apply Z.mod_mul; lia).
  assert (0 ≤ f < 4294967296) as Hfr.
  { pose proof (Z.div_mod fa 4096). pose proof (Z.mod_pos_bound fa 4096). unfold is_u32 in Hfa. lia. }
  do 7 kstep.
  rewrite (page_aligned_ok (as_vbase1 a)), (page_aligned_ok (as_pbase1 a)),
    (page_aligned_ok (as_vbase2 a)), (page_aligned_ok (as_pbase2 a)),
    (page_aligned_ok (as_stackpbase a)) by (unfold is_u32; lia).
  cbn [kassert]. rewrite !mbind_Ret.
  assert (∀ vb pb n, seg_wf lim vb pb n → seg vb n f = true →
    u32 (u32 (f - vb) + pb) = f - vb + pb ∧ page_aligned (f - vb + pb) = true) as Hgo.
  { unfold seg_wf, seg, USERTOP, MIPS_KSEG0, PAGE_SIZE. intros vb pb np Hs Hin. zb.
    rewrite (u32_id (f - vb)), u32_id by (unfold is_u32; lia). split; [done|].
    apply page_aligned_ok; [unfold is_u32; lia|].
    destruct Hs as (_ & _ & _ & Hv & Hp & _). apply Z.mod_divide in Hf0, Hv, Hp; try lia.
    apply Z.mod_divide; [lia|]. apply Z.divide_add_r; [|done]. by apply Z.divide_sub_r. }
  unfold translate.
  rewrite (u32_id (as_vbase1 a + _)), (u32_id (as_vbase2 a + _)),
    (u32_id (USERSTACK - _)) by
    (unfold is_u32, USERSTACK, USERTOP, MIPS_KSEG0, DUMBVM_STACKPAGES, PAGE_SIZE; lia).
  fold (seg (as_vbase1 a) (as_npages1 a) f) (seg (as_vbase2 a) (as_npages2 a) f).
  change ((USERSTACK - DUMBVM_STACKPAGES * PAGE_SIZE <=? f) && (f <? USERSTACK))
    with (seg stackbase DUMBVM_STACKPAGES f).
  fold stackbase.
  destruct (seg (as_vbase1 a) (as_npages1 a) f) eqn:E1.
  2: destruct (seg (as_vbase2 a) (as_npages2 a) f) eqn:E2.
  3: destruct (seg stackbase DUMBVM_STACKPAGES f) eqn:E3.
  all: try (match goal with E : seg ?vb ?n ?x = true |- context [u32 (u32 (?x - ?vb) + ?pb)] =>
    destruct (Hgo vb pb n ltac:(done) E) as [-> ->] end;
    cbn [kassert]; rewrite mbind_Ret; cbn [set_vcpu tlb];
    destruct (vm_fault_slot NUM_TLB 0 (tlb s)) as [[i|]| | |]; rewrite ?mbind_Ret; try done).
  all: rewrite Hspl by done; by destruct s.
Qed.

(** ** The TLB as a cache of the address space *)

Definition tlb_ok (a : addrspace) (t : list (Z * Z)) : Prop :=
  length t = NUM_TLB ∧
  ∀ v p, is_u32 v → tlb_lookup t v = Some p → translate a v = Some p.

Lemma seg_page base n v :
  base mod 4096 = 0 → 0 ≤ base → is_u32 v → seg base n (Z.land v PAGE_FRAME) = seg base n v.
Proof.
  intros Hb Hb0 Hv. rewrite page_frame by done. unfold seg, PAGE_SIZE.
  pose proof (Z.div_mod v 4096 ltac:(lia)). pose proof (Z.mod_pos_bound v 4096 ltac:(lia)).
  pose proof (Z.div_mod base 4096 ltac:(lia)).
  apply Bool.eq_iff_eq_true. rewrite !andb_true_iff, !Z.leb_le, !Z.ltb_lt. lia.
Qed.

Lemma translate_page lim a v :
  as_wf lim a → is_u32 v →
  translate a v = (λ p, p + v mod 4096) <$> translate a (Z.land v PAGE_FRAME).
Proof.
  intros (_ & H1 & H2 & H3) Hv. unfold translate, seg_wf in *.
  rewrite !seg_page by (done || lia). rewrite page_frame by done.
  pose proof (Z.div_mod v 4096 ltac:(lia)).
  destruct (seg _ _ v); [simpl; f_equal; lia|].
  destruct (seg _ _ v); [simpl; f_equal; lia|].
  destruct (seg _ _ v); [simpl; f_equal; lia|done].
Qed.

Lemma translate_aligned lim a v p :
  as_wf lim a → translate a v = Some p → v mod 4096 = 0 → Z.land p PAGE_FRAME = p.
Proof.
  intros (Hl & H1 & H2 & H3) Ht Hv. unfold translate, seg_wf, USERTOP, MIPS_KSEG0 in *.
  assert (∀ vb pb n, seg vb n v = true → vb mod 4096 = 0 → pb mod 4096 = 0 → 0 < pb →
    pb + n * PAGE_SIZE ≤ lim → Z.land (v - vb + pb) PAGE_FRAME = v - vb + pb) as Hgo.
  { unfold seg, PAGE_SIZE. intros vb pb n Hin Hvb Hpb H0 Htop. zb.
    apply page_frame_aligned; [unfold is_u32; lia|].
    apply Z.mod_divide in Hv, Hvb, Hpb; try lia.
    apply Z.mod_divide; [lia|]. apply Z.divide_add_r; [|done]. by apply Z.divide_sub_r. }
  destruct (seg (as_vbase1 a) _ v) eqn:E1; [simplify_eq; apply (Hgo _ _ _ E1); lia|].
  destruct (seg (as_vbase2 a) _ v) eqn:E2; [simplify_eq; apply (Hgo _ _ _ E2); lia|].
  destruct (seg stackbase _ v) eqn:E3; [simplify_eq; apply (Hgo _ _ _ E3); lia|done].
Qed.

Lemma tlb_lookup_page t v w :
  Z.land w PAGE_FRAME = Z.land v PAGE_FRAME → tlb_lookup t v = None → tlb_lookup t w = None.
Proof.
  intros E. induction t as [|[hi lo] t IH]; simpl; [done|]. rewrite E.
  destruct (_ && _); [done|auto].
Qed.

Lemma tlb_flush_length n i t : length (tlb_flush n i t) = length t.
Proof.
  revert i t. induction n as [|n IH]; intros i t; simpl; [done|].
  rewrite IH. apply length_insert.
Qed.

Lemma tlb_flush_lookup n i t j hi lo :
  tlb_flush n i t !! j = Some (hi, lo) → (i ≤ j < i + n)%nat ∨ t !! j = Some (hi, lo).
Proof.
  revert i t. induction n as [|n IH]; intros i t; cbn [tlb_flush]; [by right|].
  intros [?|H]%IH; [left; lia|]. unfold TLB_Write in H.
  destruct (decide (i = j)) as [->|]; [left; lia|].
  rewrite list_lookup_insert_ne in H by done. by right.
Qed.

Lemma tlb_flush_invalid n i t j hi lo :
  (i ≤ j < i + n)%nat → tlb_flush n i t !! j = Some (hi, lo) → lo = TLBLO_INVALID.
Proof.
  revert i t. induction n as [|n IH]; intros i t Hj; cbn [tlb_flush]; [lia|].
  destruct (decide (i = j)) as [->|]; [|apply IH; lia].
  intros [?|H]%tlb_flush_lookup; [lia|]. unfold TLB_Write in H.
  apply list_lookup_insert_Some in H as [(_ & H & _)|[? _]]; [|done]. by simplify_eq.
Qed.

Lemma tlb_invalid_lookup t v :
  (∀ j hi lo, t !! j = Some (hi, lo) → lo = TLBLO_INVALID) → tlb_lookup t v = None.
Proof.
  induction t as [|[hi lo] t IH]; intros H; simpl; [done|].
  rewrite (H 0%nat hi lo eq_refl). simpl. rewrite andb_false_r.
  apply IH. intros j. apply (H (S j)).
Qed.

Lemma as_activate_tlb s v :
  length (tlb s) = NUM_TLB → tlb_lookup (tlb (as_activate s)) v = None.
Proof.
  intros Hl. apply tlb_invalid_lookup. intros j hi lo H. cbn [as_activate tlb] in H.
  change (tlb (as_activate s)) with (tlb_flush NUM_TLB 0 (tlb s)) in H.
  eapply tlb_flush_invalid; [|done]. apply lookup_lt_Some in H.
  rewrite tlb_flush_length, Hl in H. lia.
Qed.

(** A new entry in an unused slot, for a page the TLB misses. *)
Lemma tlb_fill_ok lim a fa p t i hi lo :
  as_wf lim a → is_u32 fa → tlb_ok a t → tlb_lookup t fa = None →
  translate a (Z.land fa PAGE_FRAME) = Some p → t !! i = Some (hi, lo) → Z.land lo TLBLO_VALID = 0 →
  let t' := TLB_Write (Z.land fa PAGE_FRAME) (Z.lor (Z.lor p TLBLO_DIRTY) TLBLO_VALID) i t in
  tlb_ok a t' ∧
  ∀ v, tlb_lookup t' v = if Z.land fa PAGE_FRAME =? Z.land v PAGE_FRAME then Some (p + v mod 4096)
                         else tlb_lookup t v.
Proof.
  intros Hwf Hfa [Hlen Hok] Hmiss Ep Hi Hinv t'.
  assert (Z.land p PAGE_FRAME = p) as Hp.
  { apply (translate_aligned lim a (Z.land fa PAGE_FRAME)); [done|done|].
    rewrite page_frame, Z.mul_comm by done. apply Z.mod_mul. lia. }
  destruct (tlb_entry p Hp) as [He1 He2].
  assert (∀ v, tlb_lookup t' v = if Z.land fa PAGE_FRAME =? Z.land v PAGE_FRAME then Some (p + v mod 4096)
      else tlb_lookup t v) as Hins.
  { intros v. unfold t', TLB_Write. rewrite (tlb_lookup_insert _ _ hi lo), He1; try done.
    intros w Hw. eapply tlb_lookup_page; [|exact Hmiss]. done. }
  split; [|done]. split; [unfold t', TLB_Write; by rewrite length_insert|].
  intros v q Hv. rewrite Hins. destruct (Z.eqb_spec (Z.land fa PAGE_FRAME) (Z.land v PAGE_FRAME)) as [E|];
    [|by apply Hok].
  intros [= <-]. rewrite (translate_page lim a v Hwf Hv), <- E, Ep. done.
Qed.

(** C6: a page fault is handled as the address space says.  On a TLB that
    agrees with the loaded address space, a read or write fault at an address
    the TLB misses either installs exactly the address's page, after which
    the hardware resolves the address to its translation and no other page is
    affected, or returns EFAULT with the machine unchanged, and that only
    when the address is in no region or all 64 slots are taken.  The TLB
    still agrees with the address space and the interrupt level is
    restored. *)
Theorem vm_fault_sound ft fa a lim s :
  as_wf lim a → ft = VM_FAULT_READ ∨ ft = VM_FAULT_WRITE → is_u32 fa →
  cpu_wf (vcpu s) → tlb_ok a (tlb s) → tlb_lookup (tlb s) fa = None →
  ∃ r s', vm_fault ft fa (Some a) s = Ret (r, s') ∧ tlb_ok a (tlb s') ∧
    vcpu s' = vcpu s ∧ pmem s' = pmem s ∧
    ((r = 0 ∧ translate a fa ≠ None ∧ tlb_lookup (tlb s') fa = translate a fa ∧
      ∀ v, is_u32 v → Z.land v PAGE_FRAME ≠ Z.land fa PAGE_FRAME →
        tlb_lookup (tlb s') v = tlb_lookup (tlb s) v) ∨
     (r = EFAULT ∧ s' = s ∧
      (translate a fa = None ∨
       ∀ j hi lo, tlb s !! j = Some (hi, lo) → Z.land lo TLBLO_VALID ≠ 0))).
Proof.
  intros Hwf Hft Hfa Hcpu [Hlen Hok] Hmiss.
  rewrite (vm_fault_translate _ _ _ lim) by done.
  pose proof (translate_page lim a fa Hwf Hfa) as Htr.
  destruct (translate a (Z.land fa PAGE_FRAME)) as [p|] eqn:Ep; simpl in Htr.
  2:{ do 2 eexists; split; [done|]. split; [done|]. do 2 (split; [done|]). right. auto. }
  destruct (vm_fault_slot_ok NUM_TLB 0 (tlb s)) as [(i & hi & lo & -> & Hi & Hinv)|[-> Hfull]];
    [by rewrite Hlen| |].
  2:{ rewrite mbind_Ret. do 2 eexists; split; [done|]. split; [done|]. do 2 (split; [done|]).
      right. split_and!; [done..|]. right. intros j ??. apply Hfull. lia. }
  rewrite mbind_Ret. do 2 eexists; split; [done|]. cbn [set_tlb tlb vcpu pmem].
  destruct (tlb_fill_ok lim a fa p (tlb s) i hi lo) as [Hok' Hins]; [done..|].
  split; [done|]. do 2 (split; [done|]). left. split; [done|]. split; [by rewrite Htr|]. split.
  - by rewrite Hins, Z.eqb_refl, Htr.
  - intros v Hv Hne. rewrite Hins. by rewrite (proj2 (Z.eqb_neq _ _)).
Qed.

Lemma vm_fault_sound_witness :
  let a := mkAs 4194304 1048576 2 268435456 1056768 1 1060864 in
  let s := mkVm 1110016 4194304 4194304 (replicate 64 (2147483648, 0)) (λ _, 0) (mkCpu 1 0) in
  ∃ r s', vm_fault VM_FAULT_READ 4198500 (Some a) s = Ret (r, s') ∧ tlb_ok a (tlb s') ∧
    vcpu s' = vcpu s ∧ pmem s' = pmem s ∧
    ((r = 0 ∧ translate a 4198500 ≠ None ∧ tlb_lookup (tlb s') 4198500 = translate a 4198500 ∧
      ∀ v, is_u32 v → Z.land v PAGE_FRAME ≠ Z.land 4198500 PAGE_FRAME →
        tlb_lookup (tlb s') v = tlb_lookup (tlb s) v) ∨
     (r = EFAULT ∧ s' = s ∧
      (translate a 4198500 = None ∨
       ∀ j hi lo, tlb s !! j = Some (hi, lo) → Z.land lo TLBLO_VALID ≠ 0))).
Proof.
  intros a s. assert (∀ v, tlb_lookup (tlb s) v = None) as Hno.
  { intros v. apply tlb_invalid_lookup. intros j hi lo H.
    apply lookup_replicate in H as [H _]. by simplify_eq. }
  apply (vm_fault_sound VM_FAULT_READ 4198500 a 1110016 s).
  - unfold as_wf, seg_wf, MIPS_KSEG0, USERTOP, PAGE_SIZE, stackbase. simpl.
    repeat split; try (vm_compute; congruence); reflexivity.
  - by left.
  - unfold is_u32. lia.
  - unfold cpu_wf, is_u32. simpl. repeat split; try lia; auto.
  - split; [reflexivity|]. intros v p _. by rewrite Hno.
  - apply Hno.
Defined.

(** ** Physical memory is handed out once *)

Definition ram_wf (s : vm) : Prop :=
  0 < firstpaddr s ≤ lastpaddr s ∧ firstpaddr s mod 4096 = 0 ∧
  lastpaddr s ≤ ramsize s ≤ 532676608 ∧ cpu_wf (vcpu s).

Lemma set_vcpu_same s : set_vcpu s (vcpu s) = s.
Proof. by destruct s. Qed.

Lemma getppages_ok n s :
  ram_wf s → 0 ≤ n ≤ 524288 →
  getppages n s =
    if firstpaddr s + n * 4096 <=? lastpaddr s
    then (firstpaddr s, set_ram s (firstpaddr s + n * 4096) (lastpaddr s)) else (0, s).
Proof.
  intros (Hf & Ha & Hl & Hc) Hn. destruct s as [f l r t m c].
  cbn [firstpaddr lastpaddr ramsize vcpu] in *. unfold getppages.
  change (splhigh c) with (curspl c, (splhigh c).2).
  unfold ram_stealmem, PAGE_SIZE. cbn [set_vcpu firstpaddr lastpaddr vcpu ramsize tlb pmem].
  change (splhigh c) with (curspl c, (splhigh c).2).
  cbn [firstpaddr lastpaddr vcpu ramsize tlb pmem].
  rewrite (u32_id (n * 4096)), u32_id by (unfold is_u32; lia).
  pose proof (spl_bracket _ Hc) as Hb.
  rewrite Z.ltb_antisym. destruct (_ <=? _); cbn [negb set_ram vcpu];
    destruct (splx (curspl c) (splhigh c).2) as [x c'] eqn:E; simpl in Hb; subst c';
    cbn [set_vcpu vcpu]; by rewrite E.
Qed.

Lemma ram_wf_steal s n :
  ram_wf s → 0 ≤ n → firstpaddr s + n * 4096 ≤ lastpaddr s →
  ram_wf (set_ram s (firstpaddr s + n * 4096) (lastpaddr s)).
Proof.
  intros (Hf & Ha & Hl & Hc) Hn Hle. unfold ram_wf; simpl. rewrite Z.mod_add by lia.
  split_and!; try done; lia.
Qed.

Lemma memmove_k_ok dst src n s :
  0 ≤ n → 0 ≤ dst → 0 ≤ src → dst + n ≤ ramsize s → src + n ≤ ramsize s →
  ramsize s ≤ 532676608 →
  memmove_k (PADDR_TO_KVADDR dst) (PADDR_TO_KVADDR src) n s =
    Ret (set_pmem s (λ x, if (dst <=? x) && (x <? dst + n) then pmem s (src + (x - dst))
                          else pmem s x)).
Proof.
  intros. unfold memmove_k, PADDR_TO_KVADDR, MIPS_KSEG0.
  rewrite !(u32_id (_ + 2147483648)) by (unfold is_u32; lia).
  rewrite !Z.add_simpl_r, !u32_id by (unfold is_u32; lia).
  by rewrite !(proj2 (Z.leb_le _ _)) by lia.
Qed.

(** The address space [as_prepare_load] lays out from physical address [f]. *)
Definition as_at (f : Z) (a : addrspace) : addrspace :=
  mkAs (as_vbase1 a) f (as_npages1 a) (as_vbase2 a) (f + as_npages1 a * 4096) (as_npages2 a)
    (f + as_npages1 a * 4096 + as_npages2 a * 4096).

Definition as_size (a : addrspace) : Z :=
  as_npages1 a * 4096 + as_npages2 a * 4096 + DUMBVM_STACKPAGES * 4096.

(** Sizes an address space below the stack can have. *)
Definition sizes_ok (a : addrspace) : Prop :=
  0 < as_npages1 a ≤ 524288 ∧ 0 < as_npages2 a ≤ 524288.

Lemma as_prepare_load_ok a s :
  ram_wf s → sizes_ok a → as_pbase1 a = 0 → as_pbase2 a = 0 → as_stackpbase a = 0 →
  (firstpaddr s + as_size a ≤ lastpaddr s ∧
   as_prepare_load a s =
     Ret (0, as_at (firstpaddr s) a, set_ram s (firstpaddr s + as_size a) (lastpaddr s))) ∨
  (∃ a' f, as_prepare_load a s = Ret (ENOMEM, a', set_ram s f (lastpaddr s)) ∧
     firstpaddr s ≤ f ≤ lastpaddr s ∧ f mod 4096 = 0 ∧ as_stackpbase a' = 0).
Proof.
  intros Hr (H1 & H2) E1 E2 E3. pose proof Hr as (Hf & Ha & Hl & Hc).
  unfold as_prepare_load. rewrite E1, E2, E3. cbn [Z.eqb kassert]. rewrite !mbind_Ret.
  rewrite getppages_ok by (done || lia).
  destruct (Z.leb_spec (firstpaddr s + as_npages1 a * 4096) (lastpaddr s)) as [L1|L1].
  2:{ right. exists (mkAs (as_vbase1 a) 0 (as_npages1 a) (as_vbase2 a) 0 (as_npages2 a) 0), (firstpaddr s).
      split; [by destruct s|]. split; [lia|by split]. }
  rewrite (proj2 (Z.eqb_neq (firstpaddr s) 0)) by lia.
  rewrite getppages_ok by (try apply ram_wf_steal; done || lia). cbn [set_ram firstpaddr lastpaddr].
  destruct (Z.leb_spec (firstpaddr s + as_npages1 a * 4096 + as_npages2 a * 4096) (lastpaddr s)) as [L2|L2].
  2:{ right. do 2 eexists. split; [done|]. rewrite Z.mod_add by lia. split; [lia|by split]. }
  rewrite (proj2 (Z.eqb_neq (firstpaddr s + _) 0)) by lia.
  rewrite getppages_ok.
  2:{ apply (ram_wf_steal (set_ram s _ _)); [apply ram_wf_steal; done || lia|lia|simpl; lia]. }
  2:{ unfold DUMBVM_STACKPAGES; lia. }
  cbn [set_ram firstpaddr lastpaddr]. unfold as_size, as_at.
  destruct (Z.leb_spec (firstpaddr s + as_npages1 a * 4096 + as_npages2 a * 4096 + DUMBVM_STACKPAGES * 4096)
    (lastpaddr s)) as [L3|L3].
  - left. split; [lia|]. rewrite (proj2 (Z.eqb_neq (firstpaddr s + _ + _) 0)) by lia.
    do 2 f_equal. unfold set_ram; simpl. f_equal. lia.
  - right. do 2 eexists. split; [done|]. rewrite !Z.mod_add by lia. split; [lia|by split].
Qed.

Lemma as_wf_at f lim old :
  as_wf f old → 0 < f → f mod 4096 = 0 → f + as_size old ≤ lim → lim ≤ MIPS_KSEG0 →
  as_wf lim (as_at f old).
Proof.
  intros (_ & H1 & H2 & H3) Hf Ha Hl Hk.
  unfold as_wf, seg_wf, as_size, as_at, PAGE_SIZE in *. simpl.
  rewrite !Z.mod_add by lia. unfold DUMBVM_STACKPAGES in *. split_and!; lia.
Qed.

(** The bytes the three copies of [as_copy] leave behind: every byte of a
    page of the new address space is the corresponding byte of the old one,
    and memory below the new pages is untouched. *)
Definition copied (m m' : Z → Z) (old : addrspace) (f lim : Z) (a : addrspace) : Prop :=
  (∀ x, x < f → m' x = m x) ∧
  ∀ v, match translate old v, translate a v with
       | Some p, Some q => f ≤ q < lim ∧ m' q = m p
       | None, None => True
       | _, _ => False
       end.

Lemma copies_ok m old f :
  as_wf f old →
  let mv (dst src n : Z) (m : Z → Z) x :=
    if (dst <=? x) && (x <? dst + n) then m (src + (x - dst)) else m x in
  let a := as_at f old in
  let m1 := mv (as_pbase1 a) (as_pbase1 old) (as_npages1 old * 4096) m in
  let m2 := mv (as_pbase2 a) (as_pbase2 old) (as_npages2 old * 4096) m1 in
  let m3 := mv (as_stackpbase a) (as_stackpbase old) (DUMBVM_STACKPAGES * 4096) m2 in
  copied m m3 old f (f + as_size old) a.
Proof.
  intros (_ & H1 & H2 & H3) mv a m1 m2 m3.
  unfold seg_wf, PAGE_SIZE in *.
  assert (∀ x, x < f → m3 x = m x) as Hlow.
  { intros x Hx. unfold m3, m2, m1, mv, a, as_at; simpl.
    by rewrite !(proj2 (Z.leb_gt _ x)) by lia. }
  split; [done|]. intros v.
  assert (∀ x, x < f → m2 x = m x) as Hlow2.
  { intros x Hx. unfold m2, m1, mv, a, as_at; simpl.
    by rewrite !(proj2 (Z.leb_gt _ x)) by lia. }
  assert (∀ x, x < f → m1 x = m x) as Hlow1.
  { intros x Hx. unfold m1, mv, a, as_at; simpl. by rewrite (proj2 (Z.leb_gt _ x)) by lia. }
  unfold translate, as_size. cbn [a as_at as_vbase1 as_pbase1 as_npages1 as_vbase2 as_pbase2
    as_npages2 as_stackpbase].
  destruct (seg (as_vbase1 old) (as_npages1 old) v) eqn:E1; unfold seg, PAGE_SIZE in E1; zb.
  { split; [lia|]. unfold m3, m2, m1, mv, a, as_at; simpl.
    repeat zcase. f_equal. lia. }
  destruct (seg (as_vbase2 old) (as_npages2 old) v) eqn:E2; unfold seg, PAGE_SIZE in E2; zb.
  { split; [lia|]. unfold m3, m2, mv, a, as_at; simpl.
    repeat zcase. rewrite Hlow1 by lia. f_equal. lia. }
  destruct (seg stackbase DUMBVM_STACKPAGES v) eqn:E3; unfold seg, PAGE_SIZE in E3; zb; [|done].
  split; [lia|]. unfold m3, mv, a, as_at; simpl.
  repeat zcase. rewrite Hlow2 by lia. f_equal. lia.
Qed.

(** What [as_copy] leaves of free memory. *)
Definition ram_after (s s' : vm) : Prop :=
  lastpaddr s' = lastpaddr s ∧ ramsize s' = ramsize s ∧ firstpaddr s ≤ firstpaddr s' ≤ lastpaddr s ∧
  firstpaddr s' mod 4096 = 0.

Lemma as_copy_ok (old : addrspace) (o : oracle) (s : vm) :
  ram_wf s → as_wf (firstpaddr s) old →
  ∃ r new o' s', as_copy old o s = Ret (r, new, o', s') ∧
    vcpu s' = vcpu s ∧ tlb s' = tlb s ∧ ram_after s s' ∧ (o = [] → o' = []) ∧
    ((r = ENOMEM ∧ new = None ∧ pmem s' = pmem s) ∨
     (r = 0 ∧ new = Some (as_at (firstpaddr s) old) ∧ as_wf (firstpaddr s') (as_at (firstpaddr s) old) ∧
        copied (pmem s) (pmem s') old (firstpaddr s) (firstpaddr s') (as_at (firstpaddr s) old))).
Proof.
  intros Hr Hold. pose proof Hr as (Hf & Ha & Hl & Hc). unfold as_copy, as_create.
  destruct (kmalloc_ok o) as [b o'] eqn:Eo. assert (o = [] → o' = []) as Ho by (intros ->; by injection Eo).
  destruct b; [|do 4 eexists; split; [done|]; unfold ram_after; split_and!; try done; try lia; by left].
  pose proof Hold as (Hk & H1 & H2 & H3). unfold seg_wf, USERTOP, MIPS_KSEG0, PAGE_SIZE in H1, H2, H3.
  cbn [as_pbase1 as_pbase2 as_stackpbase].
  destruct (as_prepare_load_ok (mkAs (as_vbase1 old) 0 (as_npages1 old) (as_vbase2 old) 0
    (as_npages2 old) 0) s Hr) as [[Hfit ->]|(a' & f & -> & Hff & Hf0)]; [split; simpl; lia|done..| |].
  2:{ rewrite mbind_Ret. do 4 eexists; split; [done|]. unfold ram_after. split_and!; try done; simpl; try lia.
      by left. }
  rewrite mbind_Ret. cbn [Z.eqb negb as_at as_pbase1 as_pbase2 as_stackpbase as_npages1 as_npages2
    as_vbase1 as_vbase2]. unfold as_size in *; cbn [as_npages1 as_npages2] in *.
  unfold PAGE_SIZE, DUMBVM_STACKPAGES in *.
  do 3 kstep. rewrite !(u32_id (_ * 4096)) by (unfold is_u32; lia).
  do 3 (rewrite memmove_k_ok; [|simpl; lia..]; rewrite mbind_Ret).
  do 4 eexists; split; [done|]. unfold ram_after. cbn [set_pmem set_ram firstpaddr lastpaddr vcpu tlb pmem ramsize].
  assert ((firstpaddr s + (as_npages1 old * 4096 + as_npages2 old * 4096 + 12 * 4096)) mod 4096 = 0) as Hmod.
  { replace (firstpaddr s + _) with (firstpaddr s + (as_npages1 old + as_npages2 old + 12) * 4096) by lia. by rewrite Z.mod_add by lia. }
  split_and!; try done; try lia. right. split; [done|]. split; [done|]. split.
  - apply (as_wf_at _ _ _ Hold); try lia; unfold as_size, DUMBVM_STACKPAGES, MIPS_KSEG0; lia.
  - apply (copies_ok (pmem s) old (firstpaddr s) Hold).
Qed.

(** C7: [as_copy] gives the child its own copy of the parent's memory.  Both
    address spaces translate the same user addresses; the child's pages are
    fresh physical memory, hold what the parent's pages held, and the
    parent's memory is unchanged.  Running out of memory returns ENOMEM
    without touching memory (the pages already taken are not given back). *)
Theorem as_copy_isolates (old : addrspace) (o : oracle) (s : vm) :
  ram_wf s → as_wf (firstpaddr s) old →
  ∃ r new o' s', as_copy old o s = Ret (r, new, o', s') ∧
    vcpu s' = vcpu s ∧ tlb s' = tlb s ∧ firstpaddr s ≤ firstpaddr s' ≤ lastpaddr s ∧
    ((r = ENOMEM ∧ new = None ∧ pmem s' = pmem s) ∨
     (∃ a, r = 0 ∧ new = Some a ∧ as_wf (firstpaddr s') a ∧
        copied (pmem s) (pmem s') old (firstpaddr s) (firstpaddr s') a)).
Proof.
  intros Hr Hold. destruct (as_copy_ok old o s Hr Hold) as (r & new & o' & s' & E & H1 & H2 & (_ & _ & H3 & _) & _ & H4).
  exists r, new, o', s'. split_and!; try done; try lia. destruct H4 as [?|(-> & -> & ? & ?)]; [by left|right; eauto].
Qed.

Lemma as_copy_isolates_witness :
  let old := mkAs 4194304 1048576 2 268435456 1056768 1 1060864 in
  let s := mkVm 1110016 4194304 4194304 (replicate 64 (2147483648, 0)) (λ x, x mod 251) (mkCpu 1 0) in
  ∃ r new o' s', as_copy old [] s = Ret (r, new, o', s') ∧
    vcpu s' = vcpu s ∧ tlb s' = tlb s ∧ firstpaddr s ≤ firstpaddr s' ≤ lastpaddr s ∧
    ((r = ENOMEM ∧ new = None ∧ pmem s' = pmem s) ∨
     (∃ a, r = 0 ∧ new = Some a ∧ as_wf (firstpaddr s') a ∧
        copied (pmem s) (pmem s') old (firstpaddr s) (firstpaddr s') a)).
Proof.
  intros old s. apply (as_copy_isolates old [] s).
  - unfold ram_wf, cpu_wf, is_u32. simpl. repeat split; try lia; auto.
  - unfold as_wf, seg_wf, MIPS_KSEG0, USERTOP, PAGE_SIZE, stackbase. simpl.
    repeat split; try (vm_compute; congruence); reflexivity.
Defined.

(** The size check of [ram_stealmem] is done modulo 2^32.  A region of
    [2^32 - firstpaddr] bytes passes it, whatever memory there is: the call
    returns the first free page as if it had allocated the region, and then
    starts handing out memory again from physical address 0.
    [as_define_region] accepts such a region from a program header. *)
Theorem ram_stealmem_wraps (s : vm) (vaddr : Z) :
  ram_wf s → 0 < vaddr < USERTOP → vaddr mod 4096 = 0 →
  let '(r, a) := as_define_region (mkAs 0 0 0 0 0 0 0) vaddr (4294967296 - firstpaddr s) in
  r = 0 ∧ as_vbase1 a = vaddr ∧
  ram_stealmem (as_npages1 a) s = (firstpaddr s, set_ram s 0 (lastpaddr s)).
Proof.
  intros (Hf & Ha & Hl & _) Hv Hva. unfold as_define_region, USERTOP, MIPS_KSEG0, PAGE_SIZE in *.
  assert (Z.land vaddr (u32 (Z.lnot PAGE_FRAME)) = 0) as ->.
  { change (u32 (Z.lnot PAGE_FRAME)) with (Z.ones 12). rewrite Z.land_ones by lia. done. }
  rewrite Z.add_0_r, (u32_id (4294967296 - _)) by (unfold is_u32; lia).
  rewrite (u32_id (_ + 4096 - 1)) by (unfold is_u32; pose proof (Z.div_mod (firstpaddr s) 4096); lia).
  cbn [as_vbase1 Z.eqb]. split; [done|]. cbn [as_npages1]. unfold ram_stealmem, PAGE_SIZE.
  rewrite !page_frame by (unfold is_u32; pose proof (Z.div_mod (firstpaddr s) 4096); lia).
  pose proof (Z.div_mod vaddr 4096). split; [lia|].
  assert ((4294967296 - firstpaddr s + 4096 - 1) / 4096 = 1048576 - firstpaddr s / 4096) as ->.
  { symmetry. apply (Z.div_unique _ _ _ 4095); [lia|]. pose proof (Z.div_mod (firstpaddr s) 4096). lia. }
  rewrite (Z.mul_comm 4096), Z.div_mul by lia.
  replace ((1048576 - firstpaddr s / 4096) * 4096) with (4294967296 - firstpaddr s)
    by (pose proof (Z.div_mod (firstpaddr s) 4096); lia).
  rewrite (u32_id (4294967296 - _)) by (unfold is_u32; lia).
  replace (firstpaddr s + (4294967296 - firstpaddr s)) with 4294967296 by lia.
  change (u32 4294967296) with 0. by rewrite (proj2 (Z.ltb_ge _ _)) by lia.
Qed.

Lemma ram_stealmem_wraps_witness :
  let s := mkVm 1048576 4194304 4194304 [] (λ _, 0) (mkCpu 1 0) in
  let '(r, a) := as_define_region (mkAs 0 0 0 0 0 0 0) 4194304 (4294967296 - firstpaddr s) in
  r = 0 ∧ as_vbase1 a = 4194304 ∧
  ram_stealmem (as_npages1 a) s = (firstpaddr s, set_ram s 0 (lastpaddr s)).
Proof.
  intros s. apply (ram_stealmem_wraps s 4194304).
  - unfold ram_wf, cpu_wf, is_u32. simpl. repeat split; try lia; auto.
  - unfold USERTOP, MIPS_KSEG0. lia.
  - reflexivity.
Defined.
