(* ===== verification/Kheap.v ===== *)
(** The kernel's heap (kern/lib/kheap.c): [kmalloc] and [kfree] over pages
    of equal blocks.

    The free blocks of a page are linked through their first words, so the
    model has the words of memory; reading a word that was never written is
    undefined.  [struct pageref] pointers are indices into [pagerefs].
    Compiled as in the kernel, without the consistency checks of SLOW. *)

From Stdlib Require Import ZArith Lia.
From stdpp Require Import base numbers list option gmap.
From S2P Require Import Prelude Cpu Vm.

Open Scope Z_scope.

Definition NSIZES : nat := 8.
Definition sizes : list Z := [16; 32; 64; 128; 256; 512; 1024; 2048].
Definition LARGEST_SUBPAGE_SIZE : Z := 2048.
Definition INVALID_OFFSET : Z := 65535.
Definition NPAGEREFS : nat := 256.
Definition INUSE_WORDS : nat := 8.

Record pageref := mkPR {
  next_samesize : option nat;
  next_all : option nat;
  pageaddr_and_blocktype : Z;
  freelist_offset : Z;
  nfree : Z
}.

Record kheap := mkKH {
  pagerefs : list pageref;
  pagerefs_inuse : list Z;
  sizebases : list (option nat);
  allbase : option nat;
  hmem : gmap Z Z;
  hvm : vm
}.

Definition set_pagerefs (l : list pageref) (h : kheap) : kheap :=
  mkKH l (pagerefs_inuse h) (sizebases h) (allbase h) (hmem h) (hvm h).
Definition set_inuse (l : list Z) (h : kheap) : kheap :=
  mkKH (pagerefs h) l (sizebases h) (allbase h) (hmem h) (hvm h).
Definition set_sizebases (l : list (option nat)) (h : kheap) : kheap :=
  mkKH (pagerefs h) (pagerefs_inuse h) l (allbase h) (hmem h) (hvm h).
Definition set_allbase (p : option nat) (h : kheap) : kheap :=
  mkKH (pagerefs h) (pagerefs_inuse h) (sizebases h) p (hmem h) (hvm h).
Definition set_hmem (m : gmap Z Z) (h : kheap) : kheap :=
  mkKH (pagerefs h) (pagerefs_inuse h) (sizebases h) (allbase h) m (hvm h).
Definition set_hvm (v : vm) (h : kheap) : kheap :=
  mkKH (pagerefs h) (pagerefs_inuse h) (sizebases h) (allbase h) (hmem h) v.

Definition h_splhigh (h : kheap) : Z * kheap :=
  let '(o, c) := splhigh (vcpu (hvm h)) in (o, set_hvm (set_vcpu (hvm h) c) h).
Definition h_splx (n : Z) (h : kheap) : kheap :=
  set_hvm (set_vcpu (hvm h) (splx n (vcpu (hvm h))).2) h.

Definition NOT_PAGE_FRAME : Z := u32 (Z.lnot PAGE_FRAME).
Definition PR_PAGEADDR (pr : pageref) : Z := Z.land (pageaddr_and_blocktype pr) PAGE_FRAME.
Definition PR_BLOCKTYPE (pr : pageref) : Z := Z.land (pageaddr_and_blocktype pr) NOT_PAGE_FRAME.
Definition MKPAB (pa blk : Z) : Z := Z.lor (Z.land pa PAGE_FRAME) (Z.land blk NOT_PAGE_FRAME).

(** ** Page references *)

(** [for (k=1,j=0; k!=0; k<<=1,j++)]: the word with its first clear bit set,
    and that bit's number. *)
Fixpoint alloc_bit (fuel : nat) (w k j : Z) : res (Z * Z) :=
  match fuel with
  | O => NoFuel
  | S n =>
      if k =? 0 then Panic
      else if Z.land w k =? 0 then Ret (Z.lor w k, j)
      else alloc_bit n w (u32 (Z.shiftl k 1)) (j + 1)
  end.

Fixpoint allocpageref_loop (n i : nat) (inuse : list Z) : res (option nat * list Z) :=
  match n with
  | O => Ret (None, inuse)
  | S n' =>
      w ← deref (inuse !! i);
      if w =? 4294967295 then allocpageref_loop n' (S i) inuse
      else
        '(w', j) ← alloc_bit 33 w 1 0;
        Ret (Some (i * 32 + Z.to_nat j)%nat, <[i := w']> inuse)
  end.

Definition allocpageref (h : kheap) : res (option nat * kheap) :=
  '(r, l) ← allocpageref_loop INUSE_WORDS 0 (pagerefs_inuse h);
  Ret (r, set_inuse l h).

Definition freepageref (p : nat) (h : kheap) : res kheap :=
  _ ← kassert (bool_decide (p < NPAGEREFS)%nat);
  let i := (p / 32)%nat in
  let k := u32 (Z.shiftl 1 (Z.of_nat (p mod 32))) in
  w ← deref (pagerefs_inuse h !! i);
  _ ← kassert (negb (Z.land w k =? 0));
  Ret (set_inuse (<[i := Z.land w (u32 (Z.lnot k))]> (pagerefs_inuse h)) h).

(** ** The lists of pages *)

Definition set_next_samesize (n : option nat) (p : pageref) : pageref :=
  mkPR n (next_all p) (pageaddr_and_blocktype p) (freelist_offset p) (nfree p).
Definition set_next_all (n : option nat) (p : pageref) : pageref :=
  mkPR (next_samesize p) n (pageaddr_and_blocktype p) (freelist_offset p) (nfree p).
Definition set_free (o n : Z) (p : pageref) : pageref :=
  mkPR (next_samesize p) (next_all p) (pageaddr_and_blocktype p) o n.

(** The loop over [guy], a pointer to the pointer to the next page: the base
    and the page references after [pr] has been unlinked.  [prev] is the reference whose
    [next] member [guy] points to. *)
Fixpoint unlink (fuel : nat) (next : pageref → option nat)
    (setnext : option nat → pageref → pageref) (pr : nat)
    (base : option nat) (prev : option nat) (l : list pageref) : res (option nat * list pageref) :=
  match fuel with
  | O => NoFuel
  | S n =>
      guy ← (match prev with
             | None => Ret base
             | Some q => x ← deref (l !! q); Ret (next x)
             end : res (option nat));
      match guy with
      | None => Ret (base, l)
      | Some g =>
          x ← deref (l !! g);
          if bool_decide (g = pr) then
            match prev with
            | None => Ret (next x, l)
            | Some q => y ← deref (l !! q); Ret (base, <[q := setnext (next x) y]> l)
            end
          else unlink n next setnext pr base (Some g) l
      end
  end.

Definition remove_lists (pr : nat) (blktype : Z) (h : kheap) : res kheap :=
  _ ← kassert ((0 <=? blktype) && (blktype <? 8));
  base ← deref (sizebases h !! Z.to_nat blktype);
  '(base', l1) ← unlink 257 next_samesize set_next_samesize pr base None (pagerefs h);
  '(all', l2) ← unlink 257 next_all set_next_all pr (allbase h) None l1;
  Ret (set_allbase all' (set_sizebases (<[Z.to_nat blktype := base']> (sizebases h))
        (set_pagerefs l2 h))).

Fixpoint blocktype_loop (n i : nat) (sz : Z) : res nat :=
  match n with
  | O => Panic
  | S n' => s ← deref (sizes !! i); if sz <=? s then Ret i else blocktype_loop n' (S i) sz
  end.

Definition blocktype (sz : Z) : res nat := blocktype_loop NSIZES 0 sz.

(** ** Allocation *)

Definition hload (h : kheap) (a : Z) : res Z := deref (hmem h !! a).

(** The code at the label [doalloc]. *)
Definition doalloc (p : nat) (h : kheap) : res (Z * kheap) :=
  pr ← deref (pagerefs h !! p);
  _ ← kassert (freelist_offset pr <? PAGE_SIZE);
  let prpage := PR_PAGEADDR pr in
  let fl := u32 (prpage + freelist_offset pr) in
  next ← hload h fl;
  let nf := u16 (nfree pr - 1) in
  if negb (next =? 0) then
    _ ← kassert (0 <? nf);
    _ ← kassert (u32 (next - prpage) <? PAGE_SIZE);
    Ret (fl, set_pagerefs (<[p := set_free (u16 (next - prpage)) nf pr]> (pagerefs h)) h)
  else
    _ ← kassert (nf =? 0);
    Ret (fl, set_pagerefs (<[p := set_free INVALID_OFFSET nf pr]> (pagerefs h)) h).

(** The first page of the list with a free block. *)
Fixpoint findpage (fuel : nat) (blktype : nat) (p : option nat) (l : list pageref) : res (option nat) :=
  match fuel with
  | O => NoFuel
  | S n =>
      match p with
      | None => Ret None
      | Some q =>
          pr ← deref (l !! q);
          _ ← kassert (PR_BLOCKTYPE pr =? Z.of_nat blktype);
          if 0 <? nfree pr then Ret (Some q) else findpage n blktype (next_samesize pr) l
      end
  end.

(** Linking the blocks of a fresh page. *)
Definition link_blocks (page size n : Z) (m : gmap Z Z) : res (gmap Z Z) :=
  zfor (Z.to_nat (n - 1)) 1 (λ i m,
    let fl := u32 (page + i * size) in
    let nx := u32 (page + (i - 1) * size) in
    _ ← kassert (negb (fl =? nx));
    Ret (<[fl := nx]> m)) (<[page := 0]> m).

(** Making a new page of blocks: its reference, or [None] when there is no
    reference or no page left. *)
Definition newpage (blktype : nat) (size : Z) (h : kheap) : res (option nat * kheap) :=
  '(newpr, h) ← allocpageref h;
  match newpr with
  | None => Ret (None, h)
  | Some p =>
      let '(prpage, v) := alloc_kpages 1 (hvm h) in
      let h := set_hvm v h in
      if prpage =? 0 then
        h ← freepageref p h; Ret (None, h)
      else
        let n := u16 (PAGE_SIZE / size) in
        m ← link_blocks prpage size n (hmem h);
        let fla := u32 (prpage + (n - 1) * size) in
        let off := u16 (fla - prpage) in
        _ ← kassert (off =? u32 ((n - 1) * size));
        base ← deref (sizebases h !! blktype);
        let pr := mkPR base (allbase h) (MKPAB prpage (Z.of_nat blktype)) off n in
        Ret (Some p, set_allbase (Some p) (set_sizebases (<[blktype := Some p]> (sizebases h))
                       (set_pagerefs (<[p := pr]> (pagerefs h)) (set_hmem m h))))
  end.

Definition subpage_kmalloc (sz : Z) (h : kheap) : res (Z * kheap) :=
  blktype ← blocktype sz;
  size ← deref (sizes !! blktype);
  let '(spl, h) := h_splhigh h in
  base ← deref (sizebases h !! blktype);
  found ← findpage 257 blktype base (pagerefs h);
  '(found, h) ← match found with
                | Some p => Ret (Some p, h)
                | None => newpage blktype size h
                end;
  match found with
  | Some p => '(r, h) ← doalloc p h; Ret (r, h_splx spl h)
  | None => Ret (0, h_splx spl h)
  end.

(** ** Freeing *)

Definition fill_deadbeef (ptr len : Z) (m : gmap Z Z) : gmap Z Z :=
  fold_left (λ m i, <[ptr + 4 * Z.of_nat i := 3735928559]> m) (seq 0 (Z.to_nat (len / 4))) m.

(** The page [ptr] is on: the reference, its page and block type. *)
Fixpoint findptr (fuel : nat) (ptr : Z) (p : option nat) (l : list pageref)
    : res (option (nat * Z * Z)) :=
  match fuel with
  | O => NoFuel
  | S n =>
      match p with
      | None => Ret None
      | Some q =>
          pr ← deref (l !! q);
          let prpage := PR_PAGEADDR pr in
          let blktype := PR_BLOCKTYPE pr in
          _ ← kassert ((0 <=? blktype) && (blktype <? 8));
          if (prpage <=? ptr) && (ptr <? u32 (prpage + PAGE_SIZE)) then Ret (Some (q, prpage, blktype))
          else findptr n ptr (next_all pr) l
      end
  end.

(** [free_kpages] does nothing (dumbvm.c). *)
Definition free_kpages (addr : Z) (h : kheap) : kheap := h.

Definition subpage_kfree (ptr : Z) (h : kheap) : res (Z * kheap) :=
  let '(spl, h) := h_splhigh h in
  found ← findptr 257 ptr (allbase h) (pagerefs h);
  match found with
  | None => Ret (-1, h_splx spl h)
  | Some (p, prpage, blktype) =>
      size ← deref (sizes !! Z.to_nat blktype);
      let offset := u32 (ptr - prpage) in
      if (PAGE_SIZE <=? offset) || negb (offset mod size =? 0) then Panic else
      let h := set_hmem (fill_deadbeef ptr size (hmem h)) h in
      pr ← deref (pagerefs h !! p);
      let fl := u32 (prpage + offset) in
      let next := if freelist_offset pr =? INVALID_OFFSET then 0
                  else u32 (prpage + freelist_offset pr) in
      let h := set_hmem (<[fl := next]> (hmem h)) h in
      let nf := u16 (nfree pr + 1) in
      let h := set_pagerefs (<[p := set_free (u16 offset) nf pr]> (pagerefs h)) h in
      _ ← kassert (nf <=? PAGE_SIZE / size);
      h ← (if nf =? PAGE_SIZE / size then
             h ← remove_lists p blktype h;
             freepageref p (free_kpages prpage h)
           else Ret h);
      Ret (0, h_splx spl h)
  end.

Definition kmalloc (sz : Z) (h : kheap) : res (Z * kheap) :=
  if LARGEST_SUBPAGE_SIZE <=? sz then
    let npages := u32 (sz + PAGE_SIZE - 1) / PAGE_SIZE in
    let '(address, v) := alloc_kpages npages (hvm h) in
    Ret (address, set_hvm v h)
  else subpage_kmalloc sz h.

Definition kfree (ptr : Z) (h : kheap) : res kheap :=
  if ptr =? 0 then Ret h else
  '(r, h) ← subpage_kfree ptr h;
  if negb (r =? 0) then
    _ ← kassert (ptr mod PAGE_SIZE =? 0);
    Ret (free_kpages ptr h)
  else Ret h.

(** ** Consistency checks

    The checks compiled with SLOW and SLOWER, and the listing of the heap. *)

Definition MIPS_KSEG1 : Z := 2684354560.

(** The walk over the free list of a page: the number of its entries. *)
Fixpoint checkfree (fuel : nat) (prpage size fl nf : Z) (h : kheap) : res Z :=
  match fuel with
  | O => NoFuel
  | S n =>
      if fl =? 0 then Ret nf else
      _ ← kassert ((prpage <=? fl) && (fl <? u32 (prpage + PAGE_SIZE)));
      _ ← kassert (u32 (fl - prpage) mod size =? 0);
      _ ← kassert (MIPS_KSEG0 <=? fl);
      _ ← kassert (fl <? MIPS_KSEG1);
      nx ← hload h fl;
      checkfree n prpage size nx (nf + 1) h
  end.

Definition checksubpage (pr : pageref) (h : kheap) : res unit :=
  _ ← kassert (0 <? curspl (vcpu (hvm h)));
  if freelist_offset pr =? INVALID_OFFSET then kassert (nfree pr =? 0) else
  let prpage := PR_PAGEADDR pr in
  _ ← kassert (freelist_offset pr <? PAGE_SIZE);
  size ← deref (sizes !! Z.to_nat (PR_BLOCKTYPE pr));
  _ ← kassert (freelist_offset pr mod size =? 0);
  nf ← checkfree 257 prpage size (u32 (prpage + freelist_offset pr)) 0 h;
  kassert (nf =? nfree pr).

(** One of the loops of [checksubpages], over the list with links [next]. *)
Fixpoint checklist (fuel : nat) (next : pageref → option nat) (p : option nat) (c : Z) (h : kheap) : res Z :=
  match fuel with
  | O => NoFuel
  | S n =>
      match p with
      | None => Ret c
      | Some q =>
          pr ← deref (pagerefs h !! q);
          _ ← checksubpage pr h;
          _ ← kassert (c <? Z.of_nat NPAGEREFS);
          checklist n next (next pr) (c + 1) h
      end
  end.

Fixpoint checksizes (bases : list (option nat)) (sc : Z) (h : kheap) : res Z :=
  match bases with
  | [] => Ret sc
  | b :: bases' => sc ← checklist 257 next_samesize b sc h; checksizes bases' sc h
  end.

Definition checksubpages (h : kheap) : res unit :=
  _ ← kassert (0 <? curspl (vcpu (hvm h)));
  sc ← checksizes (sizebases h) 0 h;
  ac ← checklist 257 next_all (allbase h) 0 h;
  kassert (sc =? ac).

(** The bits of [dumpsubpage] for the blocks on the free list. *)
Fixpoint freemap_walk (fuel : nat) (prpage size n fl : Z) (freemap : list Z) (h : kheap) : res (list Z) :=
  match fuel with
  | O => NoFuel
  | S f =>
      if fl =? 0 then Ret freemap else
      let index := u32 (fl - prpage) / size in
      _ ← kassert (index <? n);
      w ← load freemap (index / 32);
      freemap ← store freemap (index / 32) (Z.lor w (u32 (Z.shiftl 1 (index mod 32))));
      nx ← hload h fl;
      freemap_walk f prpage size n nx freemap h
  end.

(** What is printed: one mark per block, [true] for a free one. *)
Definition dumpsubpage (pr : pageref) (h : kheap) : res (list bool) :=
  _ ← kassert (0 <? curspl (vcpu (hvm h)));
  let prpage := PR_PAGEADDR pr in
  size ← deref (sizes !! Z.to_nat (PR_BLOCKTYPE pr));
  let n := PAGE_SIZE / size in
  _ ← kassert (n <=? 256);
  freemap ← (if negb (freelist_offset pr =? INVALID_OFFSET)
             then freemap_walk 257 prpage size n (u32 (prpage + freelist_offset pr)) (replicate 8 0) h
             else Ret (replicate 8 0));
  Ret ((λ i : nat, negb (Z.land (default 0 (freemap !! (i / 32)%nat)) (2 ^ Z.of_nat (i mod 32)) =? 0))
         <$> seq 0 (Z.to_nat n)).

Fixpoint dump_loop (fuel : nat) (p : option nat) (h : kheap) : res (list (list bool)) :=
  match fuel with
  | O => NoFuel
  | S n =>
      match p with
      | None => Ret []
      | Some q =>
          pr ← deref (pagerefs h !! q);
          d ← dumpsubpage pr h;
          ds ← dump_loop n (next_all pr) h;
          Ret (d :: ds)
      end
  end.

Definition kheap_printstats (h : kheap) : res (list (list bool) * kheap) :=
  let '(spl, h) := h_splhigh h in
  ds ← dump_loop 257 (allbase h) h;
  Ret (ds, h_splx spl h).
