(* ===== verification/HeapProofs.v ===== *)
(** Correctness of the kernel's heap: blocks handed out by [kmalloc] are
    disjoint, keep their contents until they are freed, and can be freed and
    handed out again. *)

From Stdlib Require Import ZArith Lia.
From stdpp Require Import base numbers list option gmap.
From S2P Require Import Prelude Cpu Vm Kheap.

Open Scope Z_scope.

(** ** Bits of the words of [pagerefs_inuse] *)

Lemma word_not_full w :
  is_u32 w → w ≠ 4294967295 → ∃ i, 0 ≤ i < 32 ∧ Z.testbit w i = false.
Proof.
  intros Hw Hne. destruct (decide (Exists (λ i, Z.testbit w (Z.of_nat i) = false) (seq 0 32))) as [H|H].
  - apply Exists_exists in H as (i & Hi & Hb). apply elem_of_seq in Hi. exists (Z.of_nat i). split; [lia|done].
  - exfalso. apply Hne. apply Z.bits_inj'. intros i Hi. change 4294967295 with (Z.ones 32).
    destruct (Z.lt_ge_cases i 32).
    + rewrite Z.ones_spec_low by lia.  destruct (Z.testbit w i) eqn:E; [done|]. exfalso. apply H, Exists_exists.
      exists (Z.to_nat i). rewrite elem_of_seq, Z2Nat.id by lia. split; [lia|done].
    + rewrite Z.ones_spec_high by lia. by apply u32_bits.
Qed.

Lemma alloc_bit_ok n j w :
  0 ≤ j → 33 ≤ j + Z.of_nat n → (∃ i, j ≤ i < 32 ∧ Z.testbit w i = false) →
  ∃ r, j ≤ r < 32 ∧ Z.testbit w r = false ∧ alloc_bit n w (2 ^ j) j = Ret (Z.lor w (2 ^ r), r).
Proof.
  revert j. induction n as [|n IH]; intros j Hj Hn (i & Hi & Hb); [lia|]. cbn [alloc_bit].
  rewrite (proj2 (Z.eqb_neq _ _)) by (apply Z.pow_nonzero; lia). rewrite land_mask by done.
  destruct (Z.testbit w j) eqn:E; cbn [negb].
  - assert (i ≠ j) by congruence. rewrite Z.shiftl_mul_pow2 by lia.
    rewrite <- Z.pow_add_r by lia. rewrite u32_id.
    2:{ split; [apply Z.pow_nonneg; lia|]. change 4294967296 with (2 ^ 32). apply Z.pow_lt_mono_r; lia. }
    destruct (IH (j + 1)) as (r & Hr & Hrb & Er); [lia|lia|exists i; split; [lia|done]|].
    exists r. split; [lia|]. done.
  - exists j. split; [lia|]. done.
Qed.

(** Whether page reference [i] is marked in use. *)
Definition ref_bit (inuse : list Z) (i : nat) : bool :=
  match inuse !! (i / 32)%nat with
  | Some w => Z.testbit w (Z.of_nat (i mod 32))
  | None => false
  end.

Lemma split32 i b q : (b < 32 → q / 32 = i → q mod 32 = b → q = i * 32 + b)%nat.
Proof. intros Hb H1 H2. pose proof (Nat.div_mod_eq q 32). lia. Qed.

Lemma ref_bit_insert inuse i w w' b v q :
  inuse !! i = Some w → (b < 32)%nat →
  (∀ n, 0 ≤ n → Z.testbit w' n = if n =? Z.of_nat b then v else Z.testbit w n) →
  ref_bit (<[i := w']> inuse) q = if decide (q = i * 32 + b)%nat then v else ref_bit inuse q.
Proof.
  intros Hi Hb Hw. unfold ref_bit. pose proof (lookup_lt_Some _ _ _ Hi) as Hlt.
  destruct (decide (q / 32 = i)%nat) as [Hd|Hd].
  - rewrite Hd, list_lookup_insert_eq, Hi, Hw by lia. destruct (decide (q = i * 32 + b)%nat) as [->|Hne].
    + replace ((i * 32 + b) mod 32)%nat with b; [by rewrite Z.eqb_refl|].
      rewrite Nat.add_comm, Nat.Div0.mod_add, Nat.mod_small; lia.
    + rewrite (proj2 (Z.eqb_neq _ _)); [done|]. intros E. apply Hne, split32; [done|done|lia].
  - rewrite list_lookup_insert_ne by congruence. rewrite decide_False; [done|].
    intros ->. apply Hd. rewrite Nat.add_comm, Nat.div_add, Nat.div_small; lia.
Qed.

Lemma lor_bit_u32 w r : is_u32 w → 0 ≤ r < 32 →
  is_u32 (Z.lor w (2 ^ r)) ∧
  ∀ n, 0 ≤ n → Z.testbit (Z.lor w (2 ^ r)) n = if n =? r then true else Z.testbit w n.
Proof.
  intros Hw Hr. split.
  - apply u32_lor_range; [done|]. split; [apply Z.pow_nonneg; lia|].
    change 4294967296 with (2 ^ 32). apply Z.pow_lt_mono_r; lia.
  - intros n Hn. rewrite Z.lor_spec, Z.pow2_bits_eqb by lia. rewrite Z.eqb_sym.
    destruct (n =? r); [apply orb_true_r|apply orb_false_r].
Qed.

Lemma land_lnot_bit w r : is_u32 w → 0 ≤ r < 32 →
  is_u32 (Z.land w (u32 (Z.lnot (2 ^ r)))) ∧
  ∀ n, 0 ≤ n → Z.testbit (Z.land w (u32 (Z.lnot (2 ^ r)))) n = if n =? r then false else Z.testbit w n.
Proof.
  intros Hw Hr. split; [by apply u32_land_range|]. intros n Hn. rewrite Z.land_spec.
  destruct (Z.lt_ge_cases n 32) as [Hlt|Hge].
  - unfold u32. change 4294967296 with (2 ^ 32). rewrite Z.mod_pow2_bits_low, Z.lnot_spec, Z.pow2_bits_eqb by lia.
    rewrite Z.eqb_sym. destruct (n =? r); [apply andb_false_r|apply andb_true_r].
  - rewrite u32_bits by done. by destruct (n =? r).
Qed.

Lemma allocpageref_loop_ok n i inuse :
  length inuse = 8%nat → Forall is_u32 inuse → (i + n = 8)%nat →
  ∃ r l, allocpageref_loop n i inuse = Ret (r, l) ∧
    ((r = None ∧ l = inuse ∧ ∀ j, (i ≤ j < 8)%nat → inuse !! j = Some 4294967295) ∨
     (∃ p, r = Some p ∧ (p < 256)%nat ∧ ref_bit inuse p = false ∧ length l = 8%nat ∧ Forall is_u32 l ∧
        ∀ q, ref_bit l q = if decide (q = p) then true else ref_bit inuse q)).
Proof.
  revert i. induction n as [|n IH]; intros i Hlen Hu Hi; cbn [allocpageref_loop].
  { do 2 eexists. split; [done|]. left. split; [done|]. split; [done|]. lia. }
  destruct (lookup_lt_is_Some_2 inuse i) as [w Hw]; [lia|]. rewrite Hw. cbn [deref]. rewrite mbind_Ret.
  pose proof (Forall_lookup_1 _ _ _ _ Hu Hw) as Hwu.
  destruct (Z.eqb_spec w 4294967295) as [->|Hne].
  { destruct (IH (S i) Hlen Hu ltac:(lia)) as (r & l & E & Hr). exists r, l. split; [done|].
    destruct Hr as [(-> & -> & Hall)|Hr]; [left|by right]. split; [done|]. split; [done|].
    intros j Hj. destruct (decide (j = i)) as [->|]; [done|]. apply Hall. lia. }
  destruct (alloc_bit_ok 33 0 w) as (r & Hr & Hb & E); [lia|lia|by apply word_not_full|].
  change (2 ^ 0) with 1 in E. rewrite E, mbind_Ret. do 2 eexists. split; [done|]. right. eexists. split; [done|].
  destruct (lor_bit_u32 w r Hwu Hr) as [Hwu' Hbits].
  pose proof (λ q, ref_bit_insert inuse i w _ (Z.to_nat r) true q Hw ltac:(lia) ltac:(by rewrite Z2Nat.id by lia)) as Hins.
  split_and!; [lia| |by rewrite length_insert|by apply Forall_insert|done].
  unfold ref_bit. rewrite Nat.add_comm, Nat.div_add, Nat.div_small, Nat.Div0.mod_add, Nat.mod_small by lia.
  simpl. rewrite Hw, Z2Nat.id by lia. done.
Qed.

Lemma freepageref_ok p h :
  (p < 256)%nat → length (pagerefs_inuse h) = 8%nat → Forall is_u32 (pagerefs_inuse h) →
  ref_bit (pagerefs_inuse h) p = true →
  ∃ l, freepageref p h = Ret (set_inuse l h) ∧ length l = 8%nat ∧ Forall is_u32 l ∧
    ∀ q, ref_bit l q = if decide (q = p) then false else ref_bit (pagerefs_inuse h) q.
Proof.
  intros Hp Hlen Hu Hb. unfold freepageref. cbv zeta.
  rewrite kassert_true, mbind_Ret by (apply bool_decide_eq_true_2; unfold NPAGEREFS; lia).
  unfold ref_bit in Hb.
  destruct (pagerefs_inuse h !! (p / 32)%nat) as [w|] eqn:Hw; [|done]. cbn [deref]. rewrite mbind_Ret.
  pose proof (Nat.mod_upper_bound p 32 ltac:(lia)) as Hm.
  rewrite Z.shiftl_1_l, (u32_id (2 ^ _)).
  2:{ split; [apply Z.pow_nonneg; lia|]. change 4294967296 with (2 ^ 32). apply Z.pow_lt_mono_r; lia. }
  rewrite land_mask, Hb by lia. cbn [negb kassert]. rewrite mbind_Ret. eexists; split; [done|].
  pose proof (Forall_lookup_1 _ _ _ _ Hu Hw) as Hwu.
  destruct (land_lnot_bit w (Z.of_nat (p mod 32)) Hwu ltac:(lia)) as [Hwu' Hbits].
  split_and!; [by rewrite length_insert|by apply Forall_insert|]. intros q.
  rewrite (ref_bit_insert _ _ w _ (p mod 32) false) by done.
  replace (p / 32 * 32 + p mod 32)%nat with p; [done|]. pose proof (Nat.div_mod_eq p 32). lia.
Qed.

(** ** Linked lists of page references *)

Section Chains.
Context (next : pageref → option nat) (setnext : option nat → pageref → pageref).
Context (next_setnext : ∀ n x, next (setnext n x) = n).

(** The references [js], in order, are those reached from [p]. *)
Fixpoint chain (l : list pageref) (p : option nat) (js : list nat) : Prop :=
  match js with
  | [] => p = None
  | i :: js' => p = Some i ∧ ∃ x, l !! i = Some x ∧ chain l (next x) js'
  end.

Lemma chain_in_range l p js i : chain l p js → i ∈ js → is_Some (l !! i).
Proof.
  revert p. induction js as [|j js IH]; intros p Hc Hi; [by apply elem_of_nil in Hi|].
  destruct Hc as (_ & x & Hx & Hc). apply elem_of_cons in Hi as [->|Hi]; eauto.
Qed.

Lemma chain_insert l p js i x : i ∉ js → chain l p js → chain (<[i := x]> l) p js.
Proof.
  revert p. induction js as [|j js IH]; intros p Hi Hc; [done|].
  destruct Hc as (-> & y & Hy & Hc). apply not_elem_of_cons in Hi as [Hne Hi].
  split; [done|]. exists y. rewrite list_lookup_insert_ne by done. auto.
Qed.

Lemma chain_update l p js i x x' :
  l !! i = Some x → next x' = next x → chain l p js → chain (<[i := x']> l) p js.
Proof.
  intros Hx Hn. revert p. induction js as [|j js IH]; intros p Hc; [done|].
  destruct Hc as (-> & y & Hy & Hc). split; [done|]. destruct (decide (i = j)) as [->|Hne].
  - exists x'. rewrite list_lookup_insert_eq by (by eapply lookup_lt_Some). simplify_eq.
    rewrite Hn. auto.
  - exists y. rewrite list_lookup_insert_ne by done. auto.
Qed.

Lemma filter_notin pr (js : list nat) : pr ∉ js → filter (λ i, i ≠ pr) js = js.
Proof.
  induction js as [|i js IH]; intros Hni; [done|]. apply not_elem_of_cons in Hni as [Hne Hni].
  rewrite filter_cons_True by congruence. by rewrite IH.
Qed.

(** Unlinking [pr] from a list that starts at reference [q] changes the
    [next] member of one reference of the list. *)
Lemma unlink_from fuel pr base q y l rest :
  l !! q = Some y → chain l (next y) rest → NoDup (q :: rest) → pr ∈ rest →
  (length rest < fuel)%nat →
  ∃ q' y' n, unlink fuel next setnext pr base (Some q) l = Ret (base, <[q' := setnext n y']> l) ∧
    l !! q' = Some y' ∧ q' ∈ q :: rest ∧
    chain (<[q' := setnext n y']> l) (Some q) (q :: filter (λ i, i ≠ pr) rest).
Proof.
  revert q y rest. induction fuel as [|fuel IH]; intros q y rest Hq Hc Hnd Hpr Hf; [lia|].
  destruct rest as [|g rest]; [by apply elem_of_nil in Hpr|]. destruct Hc as (Hn & x & Hx & Hc).
  cbn [unlink]. rewrite Hq. cbn [deref]. rewrite !mbind_Ret, Hn, Hx. cbn [deref]. rewrite mbind_Ret.
  apply NoDup_cons in Hnd as [Hqg Hnd]. pose proof Hqg as [Hne Hqr]%not_elem_of_cons.
  pose proof Hnd as [Hgr Hndr]%NoDup_cons. case_bool_decide as Hg.
  - subst g. rewrite mbind_Ret. exists q, y, (next x). split; [done|]. split; [done|]. split; [set_solver|].
    rewrite filter_cons_False by congruence. rewrite filter_notin by done.
    split; [done|]. exists (setnext (next x) y). rewrite list_lookup_insert_eq by (by eapply lookup_lt_Some).
    split; [done|]. rewrite next_setnext. by apply chain_insert.
  - apply elem_of_cons in Hpr as [?|Hpr]; [congruence|].
    destruct (IH g x rest) as (q' & y' & n & E & Hq' & Hin & Hc'); [done|done|done|done|simpl in Hf; lia|].
    exists q', y', n. split; [done|]. split; [done|]. split; [set_solver|].
    rewrite filter_cons_True by done. split; [done|]. exists y.
    rewrite list_lookup_insert_ne by congruence. split; [done|]. by rewrite Hn.
Qed.

Lemma unlink_ok fuel pr base l js :
  chain l base js → NoDup js → pr ∈ js → (length js < fuel)%nat →
  ∃ base' l', unlink fuel next setnext pr base None l = Ret (base', l') ∧
    (l' = l ∨ ∃ q y n, l !! q = Some y ∧ q ∈ js ∧ l' = <[q := setnext n y]> l) ∧
    chain l' base' (filter (λ i, i ≠ pr) js).
Proof.
  intros Hc Hnd Hpr Hf. destruct js as [|g js]; [by apply elem_of_nil in Hpr|].
  destruct Hc as (-> & x & Hx & Hc). destruct fuel as [|fuel]; [simpl in Hf; lia|].
  cbn [unlink]. rewrite mbind_Ret, Hx. cbn [deref]. rewrite mbind_Ret.
  pose proof Hnd as [Hg Hndr]%NoDup_cons. case_bool_decide as Hgp.
  - subst g. do 2 eexists. split; [done|]. split; [by left|].
    rewrite filter_cons_False by congruence. by rewrite filter_notin.
  - apply elem_of_cons in Hpr as [?|Hpr]; [congruence|]. rewrite filter_cons_True by done.
    destruct (unlink_from fuel pr (Some g) g x l js) as (q & y & n & E & Hq & Hin & Hc');
      [done..|simpl in Hf; lia|].
    do 2 eexists. split; [done|]. split; [right; eauto 10|done].
Qed.

End Chains.

(** ** Free lists in memory *)

(** The free blocks [l], linked through their first words. *)
Fixpoint flist (m : gmap Z Z) (a : Z) (l : list Z) : Prop :=
  match l with
  | [] => a = 0
  | x :: l' => a = x ∧ x ≠ 0 ∧ ∃ n, m !! x = Some n ∧ flist m n l'
  end.

Lemma flist_agree m m' a l : (∀ x, x ∈ l → m' !! x = m !! x) → flist m a l → flist m' a l.
Proof.
  revert a. induction l as [|x l IH]; intros a Hm Hl; [done|]. destruct Hl as (-> & Hx & n & Hn & Hl).
  split; [done|]. split; [done|]. exists n. rewrite Hm by set_solver. split; [done|].
  apply IH; [set_solver|done].
Qed.

(** ** Block sizes *)

Definition bsize (bt : nat) : Z := default 0 (sizes !! bt).
Definition nblocks (bt : nat) : Z := PAGE_SIZE / bsize bt.

Lemma sizes_ok8 bt : (bt < 8)%nat →
  sizes !! bt = Some (bsize bt) ∧ 16 ≤ bsize bt ≤ 2048 ∧ bsize bt mod 16 = 0 ∧
  nblocks bt * bsize bt = 4096 ∧ 2 ≤ nblocks bt ≤ 256.
Proof. intros H. do 8 (destruct bt as [|bt]; [by vm_compute|]). lia. Qed.

Lemma blocktype_loop_ok n i sz :
  (i + n = 8)%nat → (∀ j, (j < i)%nat → bsize j < sz) → sz ≤ 2048 →
  ∃ bt, blocktype_loop n i sz = Ret bt ∧ (bt < 8)%nat ∧ sz ≤ bsize bt.
Proof.
  revert i. induction n as [|n IH]; intros i Hi Hj Hs.
  - specialize (Hj 7%nat ltac:(lia)). change (bsize 7) with 2048 in Hj. lia.
  - cbn [blocktype_loop]. destruct (sizes_ok8 i) as (-> & _); [lia|]. cbn [deref]. rewrite mbind_Ret.
    destruct (Z.leb_spec sz (bsize i)).
    + exists i. split; [done|]. split; [lia|done].
    + apply IH; [lia| |done]. intros j Hlt. destruct (decide (j = i)) as [->|]; [done|]. apply Hj. lia.
Qed.

Lemma blocktype_ok sz : sz ≤ 2048 → ∃ bt, blocktype sz = Ret bt ∧ (bt < 8)%nat ∧ sz ≤ bsize bt.
Proof. intros. by apply blocktype_loop_ok; [|lia|]. Qed.

(** ** The representation *)

(** A page of blocks: its reference, address, block type and free blocks. *)
Record pg := mkPg { g_ref : nat; g_page : Z; g_bt : nat; g_free : list Z }.

Definition is_block (g : pg) (a : Z) : Prop :=
  ∃ k, 0 ≤ k < nblocks (g_bt g) ∧ a = g_page g + k * bsize (g_bt g).

(** The end of the memory handed out so far. *)
Definition frontier (h : kheap) : Z := MIPS_KSEG0 + firstpaddr (hvm h).

(** What the C structures say about page [g]. *)
Record pg_ok (l : list pageref) (m : gmap Z Z) (g : pg) : Prop := {
  go_bt : (g_bt g < 8)%nat;
  go_align : g_page g mod 4096 = 0;
  go_ref : ∃ x, l !! g_ref g = Some x ∧
    pageaddr_and_blocktype x = MKPAB (g_page g) (Z.of_nat (g_bt g)) ∧
    nfree x = Z.of_nat (length (g_free g)) ∧
    freelist_offset x = match g_free g with [] => INVALID_OFFSET | a :: _ => a - g_page g end;
  go_list : flist m (default 0 (head (g_free g))) (g_free g);
  go_nodup : NoDup (g_free g);
  go_blocks : Forall (is_block g) (g_free g);
  go_len : Z.of_nat (length (g_free g)) ≤ nblocks (g_bt g)
}.

(** [gs] are the pages of blocks, in the order of the list of all pages;
    [big] the allocations of whole pages, with their sizes. *)
Record heap_rep (gs : list pg) (big : gmap Z Z) (h : kheap) : Prop := {
  hr_len : length (pagerefs h) = 256%nat;
  hr_inuse_len : length (pagerefs_inuse h) = 8%nat;
  hr_inuse_u32 : Forall is_u32 (pagerefs_inuse h);
  hr_inuse : ∀ i, (i < 256)%nat → ref_bit (pagerefs_inuse h) i = bool_decide (i ∈ g_ref <$> gs);
  hr_refs : NoDup (g_ref <$> gs);
  hr_all : chain next_all (pagerefs h) (allbase h) (g_ref <$> gs);
  hr_same : length (sizebases h) = 8%nat ∧ ∀ bt b, sizebases h !! bt = Some b →
    chain next_samesize (pagerefs h) b (g_ref <$> filter (λ g, g_bt g = bt) gs);
  hr_pg : ∀ g, g ∈ gs → pg_ok (pagerefs h) (hmem h) g ∧
    MIPS_KSEG0 < g_page g ∧ g_page g + 4096 ≤ frontier h ∧
    Z.of_nat (length (g_free g)) < nblocks (g_bt g);
  hr_pages : NoDup (g_page <$> gs);
  hr_big : ∀ a n, big !! a = Some n →
    a mod 4096 = 0 ∧ MIPS_KSEG0 < a ∧ 0 < n ∧ a + n ≤ frontier h ∧
    (∀ g, g ∈ gs → g_page g + 4096 ≤ a ∨ a + n ≤ g_page g);
  hr_big_disj : ∀ a n b k, big !! a = Some n → big !! b = Some k → a ≠ b → a + n ≤ b ∨ b + k ≤ a;
  hr_ram : ram_wf (hvm h)
}.

(** The blocks in use. *)
Definition live (gs : list pg) (big : gmap Z Z) (a n : Z) : Prop :=
  big !! a = Some n ∨
  ∃ g, g ∈ gs ∧ is_block g a ∧ a ∉ g_free g ∧ n = bsize (g_bt g).

(** Addresses inside blocks in use. *)
Definition inside (gs : list pg) (big : gmap Z Z) (x : Z) : Prop :=
  ∃ a n, live gs big a n ∧ a ≤ x < a + n.

Lemma is_block_range g a :
  (g_bt g < 8)%nat → is_block g a → g_page g ≤ a ∧ a + bsize (g_bt g) ≤ g_page g + 4096.
Proof.
  intros Hbt (k & Hk & ->). destruct (sizes_ok8 _ Hbt) as (_ & Hs & _ & Hn & _). nia.
Qed.

(** Different blocks of a page do not overlap. *)
Lemma is_block_disjoint g a b x :
  (g_bt g < 8)%nat → is_block g a → is_block g b →
  a ≤ x < a + bsize (g_bt g) → b ≤ x < b + bsize (g_bt g) → a = b.
Proof.
  intros Hbt (k & Hk & ->) (j & Hj & ->) H1 H2. destruct (sizes_ok8 _ Hbt) as (_ & Hs & _ & Hn & _).
  assert (k = j) as -> by nia. done.
Qed.

Lemma aligned_pages_disjoint p q x :
  p mod 4096 = 0 → q mod 4096 = 0 → p ≤ x < p + 4096 → q ≤ x < q + 4096 → p = q.
Proof.
  intros Hp Hq H1 H2. pose proof (Z.div_mod p 4096 ltac:(lia)). pose proof (Z.div_mod q 4096 ltac:(lia)). lia.
Qed.

Lemma page_of_inj gs big h g g' :
  heap_rep gs big h → g ∈ gs → g' ∈ gs → g_page g = g_page g' → g = g'.
Proof.
  intros HR Hg Hg' E. pose proof (hr_pages _ _ _ HR) as Hnd.
  apply list_elem_of_lookup in Hg as [i Hi]. apply list_elem_of_lookup in Hg' as [j Hj].
  assert (i = j) as ->; [|congruence].
  eapply (NoDup_lookup (g_page <$> gs) i j (g_page g)); [done| |]; rewrite list_lookup_fmap, ?Hi, ?Hj; simpl; congruence.
Qed.

(** Blocks in use do not overlap. *)
Lemma live_disjoint gs big h a n b k x :
  heap_rep gs big h → live gs big a n → live gs big b k →
  a ≤ x < a + n → b ≤ x < b + k → a = b.
Proof.
  intros HR Ha Hb H1 H2.
  assert (∀ g c, g ∈ gs → is_block g c → c ≤ x < c + bsize (g_bt g) →
    pg_ok (pagerefs h) (hmem h) g ∧ g_page g ≤ x < g_page g + 4096) as Hin.
  { intros g c Hg Hc Hx. destruct (hr_pg _ _ _ HR g Hg) as (Hok & _).
    pose proof (is_block_range g c (go_bt _ _ _ Hok) Hc). split; [done|lia]. }
  destruct Ha as [Ha|(g & Hg & Hga & _ & ->)], Hb as [Hb|(g' & Hg' & Hgb & _ & ->)].
  - destruct (Z.eq_dec a b) as [|Hne]; [done|]. destruct (hr_big_disj _ _ _ HR a n b k Ha Hb Hne); lia.
  - destruct (Hin g' b Hg' Hgb H2) as [_ ?].
    destruct (hr_big _ _ _ HR a n Ha) as (_ & _ & _ & _ & Hd). destruct (Hd g' Hg'); lia.
  - destruct (Hin g a Hg Hga H1) as [_ ?].
    destruct (hr_big _ _ _ HR b k Hb) as (_ & _ & _ & _ & Hd). destruct (Hd g Hg); lia.
  - destruct (Hin g a Hg Hga H1) as [Hok ?], (Hin g' b Hg' Hgb H2) as [Hok' ?].
    assert (g_page g = g_page g') as Hp by (eapply (aligned_pages_disjoint _ _ x); eauto using go_align).
    assert (g = g') as <- by (by eapply page_of_inj).
    by eapply (is_block_disjoint g a b x); [apply Hok|..].
Qed.

(** ** Reading the page references *)

(** Where pages of the heap are. *)
Definition page_range (p : Z) : Prop := MIPS_KSEG0 < p ∧ p + 4096 ≤ MIPS_KSEG0 + 532676608 ∧ p mod 4096 = 0.

Lemma page_range_u32 p : page_range p → is_u32 p ∧ is_u32 (p + 4096).
Proof. unfold page_range, is_u32, MIPS_KSEG0. lia. Qed.

Lemma MKPAB_ok p bt :
  page_range p → (bt < 8)%nat →
  Z.land (MKPAB p (Z.of_nat bt)) PAGE_FRAME = p ∧
  Z.land (MKPAB p (Z.of_nat bt)) NOT_PAGE_FRAME = Z.of_nat bt.
Proof.
  intros Hp Hbt. pose proof (page_range_u32 p Hp) as [Hu _]. destruct Hp as (_ & _ & Hm).
  unfold MKPAB. rewrite (page_frame_aligned p) by done. change NOT_PAGE_FRAME with (Z.ones 12).
  rewrite Z.land_ones by lia. change (2 ^ 12) with 4096. rewrite (Z.mod_small (Z.of_nat bt)) by lia.
  rewrite !Z.land_lor_distr_l. split.
  - rewrite page_frame_aligned by done. rewrite page_frame by (unfold is_u32; lia).
    rewrite Z.div_small by lia. by rewrite Z.lor_0_r.
  - rewrite !Z.land_ones by lia. change (2 ^ 12) with 4096. rewrite Hm, Z.mod_small by lia. done.
Qed.

Lemma pg_ref_fields l m g x :
  pg_ok l m g → page_range (g_page g) → l !! g_ref g = Some x →
  PR_PAGEADDR x = g_page g ∧ PR_BLOCKTYPE x = Z.of_nat (g_bt g).
Proof.
  intros Hok Hp Hx. destruct (go_ref _ _ _ Hok) as (x' & Hx' & Hpab & _). simplify_eq.
  unfold PR_PAGEADDR, PR_BLOCKTYPE. rewrite Hpab. apply MKPAB_ok; [done|]. apply Hok.
Qed.

Lemma findpage_ok fuel bt p l m gs :
  chain next_samesize l p (g_ref <$> gs) → (length gs < fuel)%nat →
  (∀ g, g ∈ gs → pg_ok l m g ∧ page_range (g_page g) ∧ g_bt g = bt) →
  (findpage fuel bt p l = Ret None) ∨
  ∃ g, g ∈ gs ∧ findpage fuel bt p l = Ret (Some (g_ref g)) ∧ g_free g ≠ [].
Proof.
  revert p gs. induction fuel as [|fuel IH]; intros p gs Hc Hf Hok; [lia|]. cbn [findpage].
  destruct gs as [|g gs]; [simpl in Hc; subst; by left|]. destruct Hc as (-> & x & Hx & Hc).
  destruct (Hok g ltac:(set_solver)) as (Hg & Hr & Hbt). rewrite Hx. cbn [deref]. rewrite mbind_Ret.
  destruct (pg_ref_fields _ _ _ _ Hg Hr Hx) as [_ ->]. rewrite Hbt, Z.eqb_refl. cbn [kassert]. rewrite mbind_Ret.
  destruct (go_ref _ _ _ Hg) as (x' & Hx' & _ & Hn & _). simplify_eq. rewrite Hn.
  destruct (g_free g) as [|a f] eqn:Hfree; cbn [length].
  - rewrite (proj2 (Z.ltb_ge _ _)) by (simpl; lia).
    destruct (IH (next_samesize x) gs) as [E|(g' & Hg' & E & Hne)]; [done|simpl in Hf; lia|intros; apply Hok; set_solver| |].
    + by left.
    + right. exists g'. split; [set_solver|done].
  - rewrite (proj2 (Z.ltb_lt _ _)) by lia. right. exists g. rewrite Hfree. split; [set_solver|done].
Qed.

Lemma findptr_ok fuel ptr p l m gs :
  chain next_all l p (g_ref <$> gs) → (length gs < fuel)%nat →
  (∀ g, g ∈ gs → pg_ok l m g ∧ page_range (g_page g)) →
  (findptr fuel ptr p l = Ret None ∧ ∀ g, g ∈ gs → ¬ (g_page g ≤ ptr < g_page g + 4096)) ∨
  ∃ g, g ∈ gs ∧ findptr fuel ptr p l = Ret (Some (g_ref g, g_page g, Z.of_nat (g_bt g))) ∧
    g_page g ≤ ptr < g_page g + 4096.
Proof.
  revert p gs. induction fuel as [|fuel IH]; intros p gs Hc Hf Hok; [lia|]. cbn [findptr].
  destruct gs as [|g gs]; [simpl in Hc; subst; left; split; [done|set_solver]|]. destruct Hc as (-> & x & Hx & Hc).
  destruct (Hok g ltac:(set_solver)) as (Hg & Hr). rewrite Hx. cbn [deref]. rewrite mbind_Ret.
  destruct (pg_ref_fields _ _ _ _ Hg Hr Hx) as [-> ->]. pose proof (go_bt _ _ _ Hg) as Hbt.
  rewrite kassert_true, mbind_Ret by (apply andb_true_iff; lia).
  unfold PAGE_SIZE. rewrite u32_id by (by apply page_range_u32).
  destruct ((g_page g <=? ptr) && (ptr <? g_page g + 4096)) eqn:E; zb.
  - right. exists g. split; [set_solver|]. split; [done|lia].
  - destruct (IH (next_all x) gs) as [[E' Hno]|(g' & Hg' & E' & Hin)]; [done|simpl in Hf; lia|intros; apply Hok; set_solver| |].
    + left. split; [done|]. intros g' [->|Hg']%elem_of_cons; [|by apply Hno].
      intros [H1 H2]. destruct E as [E|E]; zb; lia.
    + right. exists g'. split; [set_solver|done].
Qed.

Definition with_gfree (g : pg) (f : list Z) : pg := mkPg (g_ref g) (g_page g) (g_bt g) f.

(** Taking the first block of a page's free list. *)
Lemma doalloc_ok g a f h :
  pg_ok (pagerefs h) (hmem h) g → page_range (g_page g) → g_free g = a :: f →
  ∃ x x', pagerefs h !! g_ref g = Some x ∧
    next_samesize x' = next_samesize x ∧ next_all x' = next_all x ∧
    doalloc (g_ref g) h = Ret (a, set_pagerefs (<[g_ref g := x']> (pagerefs h)) h) ∧
    pg_ok (<[g_ref g := x']> (pagerefs h)) (hmem h) (with_gfree g f).
Proof.
  intros [Hbt Hal (x & Hx & Hpab & Hn & Hoff) Hl Hnd Hbl Hlen] Hr Hf. rewrite Hf in *.
  pose proof (page_range_u32 _ Hr) as [Hu Hu']. destruct (sizes_ok8 _ Hbt) as (_ & Hs & _ & Hnn & Hb256).
  assert (∀ b, is_block g b → g_page g ≤ b < g_page g + 4096) as Hin.
  { intros b Hb. pose proof (is_block_range g b Hbt Hb). lia. }
  apply Forall_cons in Hbl as [Hba Hbf]. pose proof (Hin a Hba) as Ha.
  destruct Hl as (_ & Ha0 & nx & Hnx & Hl). apply NoDup_cons in Hnd as [Haf Hnd].
  assert (PR_PAGEADDR x = g_page g) as Hpa.
  { unfold PR_PAGEADDR. rewrite Hpab. by apply MKPAB_ok. }
  simpl in Hoff. cbn [length] in *. unfold doalloc. rewrite Hx. cbn [deref]. rewrite mbind_Ret, Hpa, Hoff, Hn.
  unfold PAGE_SIZE, is_u32 in *. rewrite (kassert_true (a - g_page g <? 4096)), mbind_Ret by lia. cbv zeta.
  replace (g_page g + (a - g_page g)) with a by lia. rewrite u32_id by (unfold is_u32; lia).
  unfold hload. rewrite Hnx. cbn [deref]. rewrite mbind_Ret.
  rewrite (u16_id (Z.of_nat (S (length f)) - 1)) by (unfold is_u16; lia).
  assert (∀ x', pageaddr_and_blocktype x' = pageaddr_and_blocktype x →
    nfree x' = Z.of_nat (length f) →
    freelist_offset x' = match f with [] => INVALID_OFFSET | b :: _ => b - g_page g end →
    pg_ok (<[g_ref g := x']> (pagerefs h)) (hmem h) (with_gfree g f)) as Hpg.
  { intros x' E1 E2 E3. split; simpl; try done; [|by destruct f as [|b f]; [|destruct Hl as (-> & ?)]|lia].
    exists x'. rewrite list_lookup_insert_eq by (by eapply lookup_lt_Some). by rewrite E1. }
  destruct f as [|b f]; simpl in Hl.
  - subst nx. cbn [negb Z.eqb length]. rewrite kassert_true, mbind_Ret by done.
    exists x. eexists. split; [done|]. split; [|split; [|split; [reflexivity|]]]; try done.
    apply Hpg; done.
  - destruct Hl as (-> & Hb0 & Hl). rewrite (proj2 (Z.eqb_neq _ _)) by done. cbn [negb].
    apply Forall_cons in Hbf as [Hbb _]. pose proof (Hin b Hbb) as Hb.
    rewrite (kassert_true (0 <? _)), mbind_Ret by (apply Z.ltb_lt; cbn [length]; lia).
    rewrite u32_id by (unfold is_u32; lia). rewrite kassert_true, mbind_Ret by lia.
    rewrite u16_id by (unfold is_u16; lia).
    exists x. eexists. split; [done|]. split; [|split; [|split; [reflexivity|]]]; try done.
    apply Hpg; simpl; [done|lia|done].
Qed.

(** ** A fresh page *)

(** The first [k] blocks, last one first. *)
Fixpoint blocks_desc (page size : Z) (k : nat) : list Z :=
  match k with
  | O => []
  | S k' => page + Z.of_nat k' * size :: blocks_desc page size k'
  end.

Lemma elem_of_blocks_desc page size k a :
  a ∈ blocks_desc page size k ↔ ∃ j, 0 ≤ j < Z.of_nat k ∧ a = page + j * size.
Proof.
  induction k as [|k IH]; cbn [blocks_desc].
  - rewrite elem_of_nil. split; [done|]. intros (j & Hj & _). lia.
  - rewrite elem_of_cons, IH. split.
    + intros [->|(j & Hj & ->)]; [exists (Z.of_nat k)|exists j]; (split; [lia|done]).
    + intros (j & Hj & ->). destruct (Z.eq_dec j (Z.of_nat k)) as [->|]; [by left|].
      right. exists j. split; [lia|done].
Qed.

Lemma blocks_desc_NoDup page size k : 0 < size → NoDup (blocks_desc page size k).
Proof.
  intros Hs. induction k as [|k IH]; cbn [blocks_desc]; [by apply NoDup_nil|].
  apply NoDup_cons. split; [|done]. rewrite elem_of_blocks_desc. intros (j & Hj & E). nia.
Qed.

Lemma blocks_desc_length page size k : length (blocks_desc page size k) = k.
Proof. induction k; simpl; congruence. Qed.

Lemma link_blocks_ok page bt m :
  page_range page → (bt < 8)%nat →
  ∃ m', link_blocks page (bsize bt) (nblocks bt) m = Ret m' ∧
    flist m' (page + (nblocks bt - 1) * bsize bt) (blocks_desc page (bsize bt) (Z.to_nat (nblocks bt))) ∧
    ∀ x, ¬ (page ≤ x < page + 4096) → m' !! x = m !! x.
Proof.
  intros Hp Hbt. destruct (sizes_ok8 bt Hbt) as (_ & Hs & _ & Hn & Hnb).
  set (size := bsize bt) in *. set (n := nblocks bt) in *. unfold link_blocks.
  pose proof (page_range_u32 _ Hp) as [Hu1 Hu2]. unfold is_u32 in *.
  assert (0 < page) as Hp0 by (destruct Hp; unfold MIPS_KSEG0 in *; lia).
  destruct (zfor_inv (λ i m', flist m' (page + (i - 1) * size) (blocks_desc page size (Z.to_nat i)) ∧
      ∀ x, ¬ (page ≤ x < page + 4096) → m' !! x = m !! x) (Z.to_nat (n - 1)) 1
      (λ i m, let fl := u32 (page + i * size) in let nx := u32 (page + (i - 1) * size) in
              _ ← kassert (negb (fl =? nx)); Ret (<[fl := nx]> m)) (<[page := 0]> m))
    as (m' & E & Hl & Hm).
  - split.
    + change (Z.to_nat 1) with 1%nat. cbn [blocks_desc]. split; [lia|]. split; [lia|].
      exists 0. rewrite Z.mul_0_l, Z.add_0_r, lookup_insert_eq. done.
    + intros x Hx. rewrite lookup_insert_ne by lia. done.
  - intros j m1 Hj [Hl Hm]. cbv zeta. assert (0 ≤ j * size ∧ j * size + size ≤ 4096) as Hjs by nia.
    rewrite !u32_id by (unfold is_u32; nia).
    rewrite kassert_true, mbind_Ret by (apply negb_true_iff, Z.eqb_neq; lia).
    eexists; split; [done|]. split.
    + replace (Z.to_nat (j + 1)) with (S (Z.to_nat j)) by lia. cbn [blocks_desc].
      rewrite Z2Nat.id by lia. replace (j + 1 - 1) with j by lia.
      split; [done|]. split; [lia|]. exists (page + (j - 1) * size). rewrite lookup_insert_eq.
      split; [done|]. eapply flist_agree; [|exact Hl]. intros x Hx. rewrite lookup_insert_ne; [done|].
      apply elem_of_blocks_desc in Hx as (k & Hk & ->). nia.
    + intros x Hx. rewrite lookup_insert_ne by lia. by apply Hm.
  - replace (1 + Z.of_nat (Z.to_nat (n - 1))) with n in Hl by lia.
    exists m'. split; [exact E|]. split; [exact Hl|exact Hm].
Qed.

(** A freshly linked page. *)
Lemma fresh_pg_ok l m p page bt x :
  l !! p = Some x → page_range page → (bt < 8)%nat →
  pageaddr_and_blocktype x = MKPAB page (Z.of_nat bt) → nfree x = nblocks bt →
  freelist_offset x = (nblocks bt - 1) * bsize bt →
  flist m (page + (nblocks bt - 1) * bsize bt) (blocks_desc page (bsize bt) (Z.to_nat (nblocks bt))) →
  pg_ok l m (mkPg p page bt (blocks_desc page (bsize bt) (Z.to_nat (nblocks bt)))).
Proof.
  intros Hx Hp Hbt E1 E2 E3 Hl. destruct (sizes_ok8 bt Hbt) as (_ & Hs & _ & Hn & Hnb).
  destruct (Z.to_nat (nblocks bt)) as [|k] eqn:Hk; [lia|].
  assert (nblocks bt - 1 = Z.of_nat k) as Hk' by lia. rewrite Hk' in *.
  split; cbn [g_bt g_page g_ref g_free].
  - done.
  - apply Hp.
  - exists x. rewrite blocks_desc_length. cbn [blocks_desc]. split_and!; [done|done|lia|lia].
  - exact Hl.
  - apply blocks_desc_NoDup. lia.
  - apply Forall_forall. intros a Ha. apply elem_of_blocks_desc in Ha as (j & Hj & ->).
    exists j. split; [simpl; lia|done].
  - rewrite blocks_desc_length. lia.
Qed.

(** ** Changing the representation *)

Lemma heap_rep_hvm gs big h v :
  heap_rep gs big h → ram_wf v → firstpaddr (hvm h) ≤ firstpaddr v → heap_rep gs big (set_hvm v h).
Proof.
  intros [] Hv Hf. split; simpl; try done; unfold frontier in *; simpl.
  - intros g Hg. destruct (hr_pg0 g Hg) as (? & ? & ? & ?). split_and!; [done|done|lia|done].
  - intros a n Ha. destruct (hr_big0 a n Ha) as (? & ? & ? & ? & ?). split_and!; [done|done|done|lia|done].
Qed.

Lemma ram_wf_vcpu v c : ram_wf v → cpu_wf c → ram_wf (set_vcpu v c).
Proof. intros (H1 & H2 & H3 & _) Hc. split; [exact H1|]. split; [exact H2|]. by split. Qed.

Lemma heap_page_range gs big h g : heap_rep gs big h → g ∈ gs → page_range (g_page g).
Proof.
  intros HR Hg. destruct (hr_pg _ _ _ HR g Hg) as (Hok & H1 & H2 & _).
  destruct (hr_ram _ _ _ HR) as (? & _ & ? & _). unfold frontier in *. split_and!; [done|lia|apply Hok].
Qed.

(** The other pages do not notice a change to page [g]. *)
Lemma pg_ok_other l m l' m' g g' :
  pg_ok l m g' → g_ref g' ≠ g_ref g → g_page g' ≠ g_page g → g_page g mod 4096 = 0 →
  (∀ i, i ≠ g_ref g → l' !! i = l !! i) →
  (∀ y, ¬ (g_page g ≤ y < g_page g + 4096) → m' !! y = m !! y) →
  pg_ok l' m' g'.
Proof.
  intros [H1 H2 H3 H4 H5 H6 H7] Hr Hp Ha Hl Hm. split; try done.
  - by rewrite Hl.
  - eapply flist_agree; [|exact H4]. intros x Hx. apply Hm. intros Hin. apply Hp.
    rewrite Forall_forall in H6. apply H6, (is_block_range g' _ H1) in Hx.
    destruct (sizes_ok8 _ H1) as (_ & ? & _). eapply (aligned_pages_disjoint _ _ x); [done|done|lia|done].
Qed.

Lemma app_cons_neq {B} (f : pg → B) pre g post g' :
  NoDup (f <$> pre ++ g :: post) → g' ∈ pre ++ post → f g' ≠ f g.
Proof.
  intros Hnd Hg E. rewrite fmap_app, fmap_cons in Hnd.
  apply NoDup_app in Hnd as (_ & H1 & [H2 _]%NoDup_cons). apply elem_of_app in Hg as [Hg|Hg].
  - apply (H1 (f g')); [by apply list_elem_of_fmap_2|]. rewrite E. set_solver.
  - apply H2. rewrite <- E. by apply list_elem_of_fmap_2.
Qed.

Lemma filter_with_gfree bt pre g f post :
  g_ref <$> filter (λ g, g_bt g = bt) (pre ++ with_gfree g f :: post) =
  g_ref <$> filter (λ g, g_bt g = bt) (pre ++ g :: post).
Proof.
  rewrite !filter_app, !fmap_app. f_equal. destruct (decide (g_bt g = bt)).
  - by rewrite !filter_cons_True.
  - by rewrite !filter_cons_False.
Qed.

(** The free list of one page changes. *)
Lemma heap_rep_update pre g f post big h x x' m' :
  heap_rep (pre ++ g :: post) big h → pagerefs h !! g_ref g = Some x →
  next_samesize x' = next_samesize x → next_all x' = next_all x →
  pg_ok (<[g_ref g := x']> (pagerefs h)) m' (with_gfree g f) →
  Z.of_nat (length f) < nblocks (g_bt g) →
  (∀ y, ¬ (g_page g ≤ y < g_page g + 4096) → m' !! y = hmem h !! y) →
  heap_rep (pre ++ with_gfree g f :: post) big
    (set_pagerefs (<[g_ref g := x']> (pagerefs h)) (set_hmem m' h)).
Proof.
  intros HR Hx E1 E2 Hok Hlen Hm. pose proof HR as [R1 R2 R3 R4 R5 R6 [R7 R7'] R8 R9 R10 R11 R12].
  assert (g_ref <$> (pre ++ with_gfree g f :: post) = g_ref <$> (pre ++ g :: post)) as Eref.
  { by rewrite !fmap_app, !fmap_cons. }
  assert (g_page <$> (pre ++ with_gfree g f :: post) = g_page <$> (pre ++ g :: post)) as Epg.
  { by rewrite !fmap_app, !fmap_cons. }
  destruct (R8 g ltac:(set_solver)) as (Hg & Hg1 & Hg2 & _).
  assert (∀ g', g' ∈ pre ++ with_gfree g f :: post →
    g' = with_gfree g f ∨ g' ∈ pre ++ post ∧ g' ∈ pre ++ g :: post) as Hcase.
  { intros g'. rewrite !elem_of_app, !elem_of_cons. tauto. }
  split; simpl; try done.
  - by rewrite length_insert.
  - by rewrite Eref.
  - by rewrite Eref.
  - rewrite Eref. by eapply chain_update.
  - split; [done|]. intros bt b Hb. rewrite filter_with_gfree. eapply chain_update; eauto.
  - intros g' Hg'. destruct (Hcase g' Hg') as [->|[Hin Hin']]; [done|].
    destruct (R8 g' Hin') as (Hok' & ? & ? & ?). split; [|done].
    eapply (pg_ok_other _ _ _ _ g); [exact Hok'|by eapply (app_cons_neq g_ref)|by eapply (app_cons_neq g_page)|apply Hg| |done].
    intros i Hi. by rewrite list_lookup_insert_ne.
  - by rewrite Epg.
  - intros a n Ha. destruct (R10 a n Ha) as (? & ? & ? & ? & Hd). split_and!; try done.
    intros g' Hg'. destruct (Hcase g' Hg') as [->|[_ Hin']]; [apply (Hd g)|apply Hd]; set_solver.
Qed.

Lemma live_update pre g f post big a n :
  live (pre ++ with_gfree g f :: post) big a n ↔
  big !! a = Some n ∨
  (∃ g', g' ∈ pre ++ post ∧ is_block g' a ∧ a ∉ g_free g' ∧ n = bsize (g_bt g')) ∨
  (is_block g a ∧ a ∉ f ∧ n = bsize (g_bt g)).
Proof.
  unfold live. split.
  - intros [?|(g' & Hg' & Hb & Hf & ->)]; [by left|right]. apply elem_of_app in Hg' as [Hg'|Hg'].
    + left. exists g'. set_solver.
    + apply elem_of_cons in Hg' as [->|Hg']; [by right|left; exists g'; set_solver].
  - intros [?|[(g' & Hg' & ?)|?]]; [by left| |]; right.
    + exists g'. set_solver.
    + exists (with_gfree g f). set_solver.
Qed.

Lemma with_gfree_id g : with_gfree g (g_free g) = g.
Proof. by destruct g. Qed.

Lemma live_split pre g post big a n :
  live (pre ++ g :: post) big a n ↔
  big !! a = Some n ∨
  (∃ g', g' ∈ pre ++ post ∧ is_block g' a ∧ a ∉ g_free g' ∧ n = bsize (g_bt g')) ∨
  (is_block g a ∧ a ∉ g_free g ∧ n = bsize (g_bt g)).
Proof. rewrite <- (with_gfree_id g) at 1. apply live_update. Qed.

(** A page joins the lists. *)
Lemma heap_rep_push g gs big h inuse l m v :
  heap_rep gs big h → ref_bit (pagerefs_inuse h) (g_ref g) = false → (g_ref g < 256)%nat →
  length inuse = 8%nat → Forall is_u32 inuse →
  (∀ q, ref_bit inuse q = if decide (q = g_ref g) then true else ref_bit (pagerefs_inuse h) q) →
  length l = 256%nat → (∀ i, i ≠ g_ref g → l !! i = pagerefs h !! i) →
  (∃ x, l !! g_ref g = Some x ∧ next_all x = allbase h ∧
     sizebases h !! g_bt g = Some (next_samesize x)) →
  pg_ok l m g → Z.of_nat (length (g_free g)) < nblocks (g_bt g) →
  g_page g = frontier h → ram_wf v → firstpaddr v = firstpaddr (hvm h) + 4096 →
  (∀ y, ¬ (g_page g ≤ y < g_page g + 4096) → m !! y = hmem h !! y) →
  heap_rep (g :: gs) big
    (mkKH l inuse (<[g_bt g := Some (g_ref g)]> (sizebases h)) (Some (g_ref g)) m v).
Proof.
  intros HR Hbit Hp U1 U2 U3 L1 L2 (x & Hx & Hna & Hns) Hok Hlen Hpage Hv Hfp Hm.
  pose proof HR as [R1 R2 R3 R4 R5 R6 [R7 R7'] R8 R9 R10 R11 R12].
  assert (g_ref g ∉ g_ref <$> gs) as Hnew.
  { rewrite R4 in Hbit by done. by apply bool_decide_eq_false in Hbit. }
  assert (∀ nx p js, chain nx (pagerefs h) p js → g_ref g ∉ js → chain nx l p js) as Hch.
  { intros nx p js. revert p. induction js as [|j js IH]; intros p Hc Hn; [done|].
    apply not_elem_of_cons in Hn as [Hne Hn]. destruct Hc as (-> & y & Hy & Hc).
    split; [done|]. exists y. rewrite L2 by congruence. auto. }
  assert (g_page g mod 4096 = 0) as Hal by apply Hok.
  assert (MIPS_KSEG0 < g_page g) as Hks.
  { rewrite Hpage. unfold frontier. destruct (hr_ram _ _ _ HR) as ((? & _) & _). lia. }
  split; simpl; try done; unfold frontier in *; simpl in *.
  - intros i Hi. rewrite U3. destruct (decide (i = g_ref g)) as [->|Hne].
    + symmetry. apply bool_decide_eq_true. set_solver.
    + rewrite R4 by done. apply bool_decide_ext. set_solver.
  - apply NoDup_cons. done.
  - split; [done|]. exists x. split; [done|]. rewrite Hna. by apply Hch.
  - split; [by rewrite length_insert|]. intros bt b. rewrite list_lookup_insert_Some.
    assert (g_ref g ∉ g_ref <$> filter (λ g, g_bt g = bt) gs) as Hnf.
    { intros (g' & E & Hg')%list_elem_of_fmap. apply list_elem_of_filter in Hg' as [_ Hg'].
      apply Hnew. rewrite E. by apply list_elem_of_fmap_2. }
    intros [(<- & <- & _)|[Hne Hb]].
    + rewrite filter_cons_True by done. split; [done|]. exists x. split; [done|].
      apply Hch; [|done]. by apply R7'.
    + rewrite filter_cons_False by congruence. apply Hch; [|done]. by apply R7'.
  - intros g' [->|Hg']%elem_of_cons; [split_and!; [done|done|lia|done]|].
    destruct (R8 g' Hg') as (Hok' & ? & ? & ?). split_and!; [|done|lia|done].
    eapply (pg_ok_other _ _ _ _ g); [exact Hok'| | |done|done|done].
    + intros E. apply Hnew. rewrite <- E. by apply list_elem_of_fmap_2.
    + intros E. lia.
  - apply NoDup_cons. split; [|done]. intros (g' & E & Hg')%list_elem_of_fmap.
    destruct (R8 g' Hg') as (_ & _ & ? & _). lia.
  - intros a n Ha. destruct (R10 a n Ha) as (? & ? & ? & ? & Hd). split_and!; try done; [lia|].
    intros g' [->|Hg']%elem_of_cons; [right; lia|by apply Hd].
Qed.

(** [alloc_kpages], as the heap uses it. *)
Lemma alloc_kpages_ok n v :
  ram_wf v → 0 ≤ n ≤ 524288 →
  alloc_kpages n v =
    if firstpaddr v + n * 4096 <=? lastpaddr v
    then (MIPS_KSEG0 + firstpaddr v, set_ram v (firstpaddr v + n * 4096) (lastpaddr v)) else (0, v).
Proof.
  intros Hv Hn. unfold alloc_kpages. rewrite getppages_ok by done. destruct Hv as (Hf & _ & Hl & _).
  destruct (Z.leb_spec (firstpaddr v + n * 4096) (lastpaddr v)); [|done].
  rewrite (proj2 (Z.eqb_neq _ _)) by lia. unfold PADDR_TO_KVADDR. rewrite u32_id; [f_equal; lia|].
  unfold is_u32, MIPS_KSEG0. lia.
Qed.

(** A live block that meets block [a] of page [g] is [a], and not free. *)
Lemma block_owner gs big h g a b k x :
  heap_rep gs big h → g ∈ gs → is_block g a → a ≤ x < a + bsize (g_bt g) →
  live gs big b k → b ≤ x < b + k → b = a ∧ a ∉ g_free g.
Proof.
  intros HR Hg Ha H1 Hb H2. destruct (hr_pg _ _ _ HR g Hg) as (Hok & _).
  pose proof (is_block_range g a (go_bt _ _ _ Hok) Ha) as Hr.
  destruct Hb as [Hb|(g' & Hg' & Hgb & Hnf & ->)].
  - destruct (hr_big _ _ _ HR b k Hb) as (_ & _ & _ & _ & Hd). destruct (Hd g Hg); lia.
  - destruct (hr_pg _ _ _ HR g' Hg') as (Hok' & _).
    pose proof (is_block_range g' b (go_bt _ _ _ Hok') Hgb) as Hr'.
    assert (g_page g = g_page g') as Hp.
    { eapply (aligned_pages_disjoint _ _ x); [apply Hok|apply Hok'|lia|lia]. }
    assert (g = g') as <- by (by eapply page_of_inj).
    assert (b = a) as -> by (by eapply (is_block_disjoint g b a x); [apply Hok|..]). done.
Qed.

Lemma free_not_inside gs big h g a x :
  heap_rep gs big h → g ∈ gs → is_block g a → a ∈ g_free g → a ≤ x < a + bsize (g_bt g) →
  ¬ inside gs big x.
Proof.
  intros HR Hg Ha Hf Hx (b & k & Hb & Hx'). destruct (block_owner gs big h g a b k x) as [_ ?]; done.
Qed.

Lemma live_pos gs big h a n : heap_rep gs big h → live gs big a n → 0 < n ∧ a < frontier h.
Proof.
  intros HR [Ha|(g & Hg & Hb & _ & ->)].
  - destruct (hr_big _ _ _ HR a n Ha) as (? & ? & ? & ? & ?). lia.
  - destruct (hr_pg _ _ _ HR g Hg) as (Hok & _ & ? & _).
    pose proof (is_block_range g a (go_bt _ _ _ Hok) Hb).
    destruct (sizes_ok8 _ (go_bt _ _ _ Hok)) as (_ & ? & _). lia.
Qed.

Lemma inside_below gs big h x : heap_rep gs big h → inside gs big x → x < frontier h.
Proof.
  intros HR (a & n & [Ha|(g & Hg & Hb & _ & ->)] & Hx).
  - destruct (hr_big _ _ _ HR a n Ha) as (? & ? & ? & ? & ?). lia.
  - destruct (hr_pg _ _ _ HR g Hg) as (Hok & _ & ? & _).
    pose proof (is_block_range g a (go_bt _ _ _ Hok) Hb). lia.
Qed.

Lemma is_block_align l m g a : pg_ok l m g → is_block g a → a mod 16 = 0.
Proof.
  intros Hok (k & _ & ->). destruct (sizes_ok8 _ (go_bt _ _ _ Hok)) as (_ & _ & Hs & _).
  pose proof (go_align _ _ _ Hok) as Hp. apply Z.mod_divide in Hs as [s ->]; [|lia].
  apply Z.mod_divide in Hp as [q ->]; [|lia]. apply Z.mod_divide; [lia|]. exists (q * 256 + k * s). lia.
Qed.

(** Why [kmalloc] may return NULL: all page references are in use, or too
    little memory was never handed out. *)
Definition exhausted (sz : Z) (gs : list pg) (h : kheap) : Prop :=
  length gs = 256%nat ∨
  lastpaddr (hvm h) < firstpaddr (hvm h) + Z.max 4096 ((sz + 4095) / 4096 * 4096).

(** What [kmalloc] promises: NULL and nothing changes, or a block nobody
    has, large enough and aligned; blocks in use keep their contents. *)
Definition malloced (sz : Z) (gs : list pg) (big : gmap Z Z) (h : kheap) (p : Z) (h' : kheap) : Prop :=
  ∃ gs' big', heap_rep gs' big' h' ∧ vcpu (hvm h') = vcpu (hvm h) ∧
    (∀ x, inside gs big x → hmem h' !! x = hmem h !! x) ∧
    ((p = 0 ∧ exhausted sz gs h ∧ ∀ a k, live gs' big' a k ↔ live gs big a k) ∨
     (p ≠ 0 ∧ ∃ n, sz ≤ n ∧ p mod 16 = 0 ∧ (∀ k, ¬ live gs big p k) ∧
        ∀ a k, live gs' big' a k ↔ live gs big a k ∨ a = p ∧ k = n)).

(** Taking a block from a page that has one. *)
Lemma take_block_ok sz gs big h g a f :
  heap_rep gs big h → g ∈ gs → g_free g = a :: f → sz ≤ bsize (g_bt g) →
  ∃ h', doalloc (g_ref g) h = Ret (a, h') ∧ malloced sz gs big h a h' ∧ hvm h' = hvm h.
Proof.
  intros HR Hg Hf Hsz. pose proof (heap_page_range _ _ _ _ HR Hg) as Hr.
  destruct (hr_pg _ _ _ HR g Hg) as (Hok & Hk0 & _ & Hlen).
  destruct (doalloc_ok g a f h Hok Hr Hf) as (x & x' & Hx & E1 & E2 & E & Hok').
  eexists; split; [exact E|]. split; [|done].
  pose proof (go_nodup _ _ _ Hok) as Hnd. rewrite Hf in Hnd. apply NoDup_cons in Hnd as [Haf _].
  pose proof (go_blocks _ _ _ Hok) as Hbl. rewrite Hf in Hbl, Hlen. apply Forall_cons in Hbl as [Hba _].
  pose proof (is_block_range g a (go_bt _ _ _ Hok) Hba) as Har.
  destruct (sizes_ok8 _ (go_bt _ _ _ Hok)) as (_ & Hs & _).
  apply list_elem_of_split in Hg as (pre & post & ->).
  exists (pre ++ with_gfree g f :: post), big. split.
  { replace (set_pagerefs (<[g_ref g := x']> (pagerefs h)) h) with
      (set_pagerefs (<[g_ref g := x']> (pagerefs h)) (set_hmem (hmem h) h)) by (by destruct h).
    eapply heap_rep_update; try done. simpl in Hlen. lia. }
  split; [done|]. split; [done|]. right. unfold MIPS_KSEG0 in *. split; [lia|].
  exists (bsize (g_bt g)). split; [done|]. split; [by eapply is_block_align|]. split.
  - intros k Hl. destruct (live_pos _ _ _ _ _ HR Hl).
    eapply (free_not_inside _ big h g a a); [exact HR|set_solver|done|rewrite Hf; set_solver|lia|].
    exists a, k. split; [done|lia].
  - intros b k. rewrite live_update, live_split, Hf. split.
    + intros [?|[?|(Hb & Hnf & ->)]]; [by left; left|by left; right; left|].
      destruct (Z.eq_dec b a) as [->|]; [by right|left; right; right]. set_solver.
    + intros [[?|[?|(Hb & Hnf & ->)]]|[-> ->]]; [by left|by right; left|right; right; set_solver|].
      right; right. done.
Qed.

Lemma heap_rep_length gs big h : heap_rep gs big h → (length gs ≤ 256)%nat.
Proof.
  intros HR. rewrite <- (length_fmap g_ref). change 256%nat with (length (seq 0 256)).
  apply submseteq_length, NoDup_submseteq; [apply HR|]. intros i (g & -> & Hg)%list_elem_of_fmap.
  apply elem_of_seq. destruct (hr_pg _ _ _ HR g Hg) as (Hok & _).
  destruct (go_ref _ _ _ Hok) as (x & Hx & _). apply lookup_lt_Some in Hx. rewrite (hr_len _ _ _ HR) in Hx. lia.
Qed.

Lemma all_refs_used gs big h :
  heap_rep gs big h → (∀ j, (0 ≤ j < 8)%nat → pagerefs_inuse h !! j = Some 4294967295) → length gs = 256%nat.
Proof.
  intros HR Hall. pose proof (heap_rep_length _ _ _ HR).
  assert (256 ≤ length gs)%nat; [|lia]. rewrite <- (length_fmap g_ref gs).
  change 256%nat with (length (seq 0 256)). apply submseteq_length, NoDup_submseteq; [apply NoDup_seq|].
  intros i [_ Hi]%elem_of_seq. assert (ref_bit (pagerefs_inuse h) i = true) as Hb.
  { unfold ref_bit. pose proof (Nat.Div0.div_lt_upper_bound i 32 8 ltac:(lia)).
    rewrite Hall by lia. change 4294967295 with (Z.ones 32). apply Z.ones_spec_low.
    pose proof (Nat.mod_upper_bound i 32 ltac:(lia)). lia. }
  rewrite (hr_inuse _ _ _ HR) in Hb by lia. by apply bool_decide_eq_true in Hb.
Qed.

(** Taking the first block of a new page; or there is no new page and nothing
    has changed. *)
Lemma newpage_ok sz gs big h bt :
  heap_rep gs big h → (bt < 8)%nat → sz ≤ bsize bt →
  ∃ r h1, newpage bt (bsize bt) h = Ret (r, h1) ∧ vcpu (hvm h1) = vcpu (hvm h) ∧
    match r with
    | None => malloced sz gs big h 0 h1
    | Some p => ∃ a h2, doalloc p h1 = Ret (a, h2) ∧ hvm h2 = hvm h1 ∧ malloced sz gs big h a h2
    end.
Proof.
  intros HR Hbt Hsz. pose proof HR as [R1 R2 R3 R4 R5 R6 [R7 R7'] R8 R9 R10 R11 R12].
  destruct (sizes_ok8 bt Hbt) as (_ & Hs & _ & Hn & Hnb).
  unfold newpage, allocpageref.
  destruct (allocpageref_loop_ok INUSE_WORDS 0 (pagerefs_inuse h)) as (r & l & E & Hr); [done..|].
  rewrite E, !mbind_Ret. destruct Hr as [(-> & -> & Hall)|(p & -> & Hp & Hbit & L1 & L2 & L3)].
  { do 2 eexists. split; [done|]. split; [done|]. exists gs, big. split; [by destruct h|]. split; [done|].
    split; [done|]. left. split; [done|]. split; [|done]. left. by eapply all_refs_used. }
  cbn [hvm set_inuse]. rewrite alloc_kpages_ok by (done || lia). rewrite Z.mul_1_l.
  destruct (Z.leb_spec (firstpaddr (hvm h) + 4096) (lastpaddr (hvm h))) as [Hroom|Hfull].
  2:{ cbn [Z.eqb].
      destruct (freepageref_ok p (set_hvm (hvm h) (set_inuse l h))) as (l' & E' & L1' & L2' & L3');
        [done|done|done|simpl; by rewrite L3, decide_True|].
      rewrite E', mbind_Ret. do 2 eexists. split; [done|]. split; [done|]. exists gs, big.
      split; [|split; [done|split; [done|]]].
      2:{ left. split; [done|]. split; [right; lia|done]. }
      split; simpl; try done.
      intros i Hi. rewrite L3'. simpl. rewrite L3, <- R4 by done. by destruct (decide (i = p)) as [->|]. }
  cbv beta iota zeta. set (v := set_ram (hvm h) (firstpaddr (hvm h) + 4096) (lastpaddr (hvm h))).
  assert (ram_wf v) as Hv.
  { pose proof (ram_wf_steal (hvm h) 1 R12) as Hw. rewrite Z.mul_1_l in Hw. apply Hw; lia. }
  set (page := MIPS_KSEG0 + firstpaddr (hvm h)).
  assert (page_range page) as Hpr.
  { destruct R12 as (? & Ha & ? & _). unfold page, page_range. split_and!; [lia|lia|].
    unfold MIPS_KSEG0. rewrite Z.add_comm. change 2147483648 with (524288 * 4096). by rewrite Z.mod_add. }
  pose proof (page_range_u32 _ Hpr) as [Hu1 Hu2]. unfold is_u32 in *.
  rewrite (proj2 (Z.eqb_neq _ _)) by (destruct Hpr; unfold MIPS_KSEG0 in *; lia).
  change (PAGE_SIZE / bsize bt) with (nblocks bt). rewrite (u16_id (nblocks bt)) by (unfold is_u16; lia).
  destruct (link_blocks_ok page bt (hmem h) Hpr Hbt) as (m & Em & Hfl & Hm).
  cbn [hmem set_hvm set_inuse]. rewrite Em, mbind_Ret.
  assert (0 ≤ (nblocks bt - 1) * bsize bt < 4096) as Hlast by nia.
  rewrite (u32_id (page + _)) by (unfold is_u32; lia).
  replace (page + (nblocks bt - 1) * bsize bt - page) with ((nblocks bt - 1) * bsize bt) by lia.
  rewrite u16_id, u32_id by (unfold is_u16, is_u32; lia). rewrite Z.eqb_refl. cbn [kassert]. rewrite mbind_Ret.
  cbn [sizebases set_hvm set_inuse allbase pagerefs].
  destruct (lookup_lt_is_Some_2 (sizebases h) bt) as [base Hbase]; [lia|]. rewrite Hbase. cbn [deref]. rewrite mbind_Ret.
  set (pr := mkPR _ _ _ _ _). do 2 eexists. split; [done|]. split; [done|].
  set (h1 := set_allbase _ _).
  set (g := mkPg p page bt (blocks_desc page (bsize bt) (Z.to_nat (nblocks bt)))).
  assert (pagerefs h1 !! p = Some pr) as Hpp by (simpl; rewrite list_lookup_insert_eq by lia; done).
  assert (pg_ok (pagerefs h1) (hmem h1) g) as Hok by (by eapply fresh_pg_ok).
  destruct (Z.to_nat (nblocks bt)) as [|k] eqn:Hk; [lia|].
  destruct (doalloc_ok g (page + Z.of_nat k * bsize bt) (blocks_desc page (bsize bt) k) h1)
    as (x & x' & Hx & E1 & E2 & Ed & Hok'); [done|done|done|].
  exists (page + Z.of_nat k * bsize bt). eexists. split; [exact Ed|]. split; [done|].
  assert (is_block g (page + Z.of_nat k * bsize bt)) as Hblk by (exists (Z.of_nat k); simpl; split; [lia|done]).
  exists (with_gfree g (blocks_desc page (bsize bt) k) :: gs), big. split.
  { apply (heap_rep_push (with_gfree g (blocks_desc page (bsize bt) k)) gs big h l
      (<[p := x']> (<[p := pr]> (pagerefs h))) m v); simpl; try done.
    - by rewrite !length_insert.
    - intros i Hi. by rewrite !list_lookup_insert_ne.
    - exists x'. rewrite list_lookup_insert_eq by (rewrite length_insert; lia). simpl in Hx, Hpp.
      simplify_eq. by rewrite E1, E2.
    - rewrite blocks_desc_length. lia. }
  split; [done|]. split.
  { intros x0 Hin. apply (inside_below _ _ _ _ HR) in Hin. apply Hm. unfold page, frontier in *. lia. }
  right. unfold page in *. split; [unfold MIPS_KSEG0; destruct R12; lia|].
  exists (bsize bt). split; [done|]. split; [by eapply is_block_align|]. split.
  - intros k0 Hl. apply (live_pos _ _ _ _ _ HR) in Hl. unfold frontier in Hl. lia.
  - intros a k0. etransitivity; [apply (live_update [] g)|]. unfold live. simpl. split.
    + intros [?|[?|(Hb & Hnf & ->)]]; [by left; left|by left; right|right]. split; [|done].
      destruct Hb as (j & Hj & ->). simpl in Hj. assert (j = Z.of_nat k) as ->; [|done].
      destruct (Z.eq_dec j (Z.of_nat k)) as [|Hne]; [done|]. exfalso. apply Hnf, elem_of_blocks_desc.
      exists j. simpl. split; [lia|done].
    + intros [[?|?]|[-> ->]]; [by left|by right; left|right; right]. split; [done|]. split; [|done].
      rewrite elem_of_blocks_desc. intros (j & Hj & Ej). nia.
Qed.

(** ** kmalloc *)

(** The heap with interrupts off. *)
Definition hhigh (h : kheap) : kheap := set_hvm (set_vcpu (hvm h) (splhigh (vcpu (hvm h))).2) h.

Lemma h_splhigh_eq h : h_splhigh h = (curspl (vcpu (hvm h)), hhigh h).
Proof. done. Qed.

Lemma heap_rep_high gs big h : heap_rep gs big h → heap_rep gs big (hhigh h).
Proof.
  intros HR. apply heap_rep_hvm; [done| |done]. apply ram_wf_vcpu; [apply HR|].
  apply splhigh_wf. apply (hr_ram _ _ _ HR).
Qed.

(** [splx] restores the level [splhigh] found. *)
Lemma heap_rep_leave gs big gs' big' h h' :
  heap_rep gs big h → heap_rep gs' big' h' → vcpu (hvm h') = vcpu (hvm (hhigh h)) →
  heap_rep gs' big' (h_splx (curspl (vcpu (hvm h))) h') ∧
  vcpu (hvm (h_splx (curspl (vcpu (hvm h))) h')) = vcpu (hvm h).
Proof.
  intros HR HR' Hc. assert (cpu_wf (vcpu (hvm h))) as Hwf by apply (hr_ram _ _ _ HR).
  change (vcpu (hvm (hhigh h))) with (splhigh (vcpu (hvm h))).2 in Hc.
  unfold h_splx. rewrite Hc, spl_bracket by done. split; [|done].
  apply heap_rep_hvm; [done| |done]. apply ram_wf_vcpu; [apply HR'|done].
Qed.

Lemma malloced_leave sz gs big h p h' :
  heap_rep gs big h → malloced sz gs big (hhigh h) p h' →
  malloced sz gs big h p (h_splx (curspl (vcpu (hvm h))) h').
Proof.
  intros HR (gs' & big' & HR' & Hc & Hm & Hres). exists gs', big'.
  destruct (heap_rep_leave _ _ _ _ _ _ HR HR' Hc) as [? ?]. done.
Qed.

Lemma subpage_kmalloc_ok sz gs big h :
  heap_rep gs big h → sz ≤ 2048 →
  ∃ p h', subpage_kmalloc sz h = Ret (p, h') ∧ malloced sz gs big h p h'.
Proof.
  intros HR Hsz. pose proof (heap_rep_high _ _ _ HR) as HRh.
  destruct (blocktype_ok sz Hsz) as (bt & E & Hbt & Hs). unfold subpage_kmalloc. rewrite E, mbind_Ret.
  destruct (sizes_ok8 bt Hbt) as (-> & _). cbn [deref]. rewrite mbind_Ret, h_splhigh_eq. cbv beta iota zeta.
  destruct (hr_same _ _ _ HRh) as [Hlen Hch].
  destruct (lookup_lt_is_Some_2 (sizebases (hhigh h)) bt) as [base Hb]; [lia|]. rewrite Hb. cbn [deref]. rewrite mbind_Ret.
  destruct (findpage_ok 257 bt base (pagerefs (hhigh h)) (hmem (hhigh h)) (filter (λ g, g_bt g = bt) gs))
    as [Ef|(g & Hg & Ef & Hne)]; [by apply Hch| | | |].
  - pose proof (heap_rep_length _ _ _ HR). pose proof (length_filter (λ g, g_bt g = bt) gs). lia.
  - intros g [Hgb Hg]%list_elem_of_filter. destruct (hr_pg _ _ _ HRh g Hg) as (Hok & _).
    split; [done|]. split; [by eapply heap_page_range|done].
  - rewrite Ef, mbind_Ret. destruct (newpage_ok sz gs big (hhigh h) bt HRh Hbt Hs) as (r & h1 & En & _ & Hr).
    rewrite En, mbind_Ret. destruct r as [p|].
    + destruct Hr as (a & h2 & Ed & _ & Hmal). rewrite Ed, mbind_Ret. do 2 eexists. split; [done|].
      by apply malloced_leave.
    + do 2 eexists. split; [done|]. by apply malloced_leave.
  - rewrite Ef, !mbind_Ret. apply list_elem_of_filter in Hg as [Hgb Hg].
    destruct (g_free g) as [|a f] eqn:Hf; [done|].
    destruct (take_block_ok sz gs big (hhigh h) g a f HRh Hg Hf) as (h2 & Ed & Hmal & _); [by rewrite Hgb|].
    rewrite Ed, mbind_Ret. do 2 eexists. split; [done|]. by apply malloced_leave.
Qed.

(** Sizes above [kmalloc_max] wrap around when rounded up to pages. *)
Definition kmalloc_max : Z := 2147483648.

Lemma kmalloc_correct sz gs big h :
  heap_rep gs big h → 0 ≤ sz ≤ kmalloc_max →
  ∃ p h', kmalloc sz h = Ret (p, h') ∧ malloced sz gs big h p h'.
Proof.
  intros HR Hsz. unfold kmalloc, LARGEST_SUBPAGE_SIZE, kmalloc_max in *.
  destruct (Z.leb_spec 2048 sz) as [Hbig|Hsmall]; [|apply subpage_kmalloc_ok; [done|lia]].
  unfold PAGE_SIZE. rewrite u32_id by (unfold is_u32; lia). set (n := (sz + 4096 - 1) / 4096).
  pose proof (Z.div_mod (sz + 4096 - 1) 4096 ltac:(lia)) as Hdm.
  pose proof (Z.mod_pos_bound (sz + 4096 - 1) 4096 ltac:(lia)) as Hmb. fold n in Hdm.
  pose proof HR as [R1 R2 R3 R4 R5 R6 R7 R8 R9 R10 R11 R12].
  rewrite alloc_kpages_ok by (done || lia).
  destruct (Z.leb_spec (firstpaddr (hvm h) + n * 4096) (lastpaddr (hvm h))) as [Hroom|Hfull].
  2:{ do 2 eexists. split; [done|]. exists gs, big. split; [by destruct h|]. split; [done|]. split; [done|].
      left. split; [done|]. split; [right|done]. replace (sz + 4095) with (sz + 4096 - 1) by lia. fold n. lia. }
  set (p := MIPS_KSEG0 + firstpaddr (hvm h)).
  assert (∀ a k, big !! a = Some k → a + k ≤ p) as Hbelow.
  { intros a k Ha. by destruct (R10 a k Ha) as (_ & _ & _ & ? & _). }
  assert (big !! p = None) as Hnone.
  { destruct (big !! p) as [k|] eqn:Hp; [|done]. destruct (R10 p k Hp) as (_ & _ & ? & _ & _).
    specialize (Hbelow p k Hp). lia. }
  assert (p mod 4096 = 0) as Hal.
  { destruct R12 as (_ & Ha & _). unfold p, MIPS_KSEG0. rewrite Z.add_comm.
    change 2147483648 with (524288 * 4096). by rewrite Z.mod_add. }
  do 2 eexists. split; [done|]. exists gs, (<[p := n * 4096]> big). split.
  { split; simpl; try done; unfold frontier in *; simpl in *.
    - intros g Hg. destruct (R8 g Hg) as (? & ? & ? & ?). split_and!; [done|done|lia|done].
    - intros a k. rewrite lookup_insert_Some. intros [[<- <-]|[_ Ha]].
      + split_and!; [done| |lia|unfold p; lia|].
        * unfold p. destruct R12 as ((? & _) & _). lia.
        * intros g Hg. left. destruct (R8 g Hg) as (_ & _ & ? & _). done.
      + destruct (R10 a k Ha) as (? & ? & ? & ? & ?). split_and!; try done. lia.
    - intros a k b j. rewrite !lookup_insert_Some. intros [[<- <-]|[_ Ha]] [[<- <-]|[_ Hb]] Hne; [done| | |eauto].
      + right. by apply Hbelow.
      + left. by apply Hbelow.
    - apply ram_wf_steal; [done|lia|done]. }
  split; [done|]. split; [done|]. right. split; [unfold p, MIPS_KSEG0; destruct R12; lia|].
  exists (n * 4096). split; [lia|]. split.
  { apply Z.mod_divide in Hal as [q ->]; [|lia]. apply Z.mod_divide; [lia|]. exists (q * 256). lia. }
  split.
  - intros k Hl. apply (live_pos _ _ _ _ _ HR) in Hl. unfold frontier, p in *. lia.
  - intros a k. unfold live. rewrite lookup_insert_Some. split.
    + intros [[[<- <-]|[_ ?]]|?]; [by right|by left; left|by left; right].
    + intros [[Ha|?]|[-> ->]]; [left; right|by right|by left; left]. split; [|done]. congruence.
Qed.
