(* ===== verification/HeapFree.v ===== *)
(** Freeing blocks of the kernel's heap: [kfree] gives back exactly the block
    it is called on, and takes a page off the lists when its last block is
    freed. *)

From Stdlib Require Import ZArith Lia.
From stdpp Require Import base numbers list option gmap.
From S2P Require Import Prelude Cpu Vm Kheap HeapProofs.

Open Scope Z_scope.

(** ** Removing a page *)

(** The members of a page reference other than its links. *)
Definition same_page (x y : pageref) : Prop :=
  pageaddr_and_blocktype x = pageaddr_and_blocktype y ∧ nfree x = nfree y ∧
  freelist_offset x = freelist_offset y.

(** [l'] is [l] but for links. *)
Definition relinked (l l' : list pageref) : Prop :=
  length l' = length l ∧ ∀ i x, l !! i = Some x → ∃ y, l' !! i = Some y ∧ same_page y x.

Lemma relinked_refl l : relinked l l.
Proof. split; [done|]. intros i x Hx. by exists x. Qed.

Lemma relinked_trans l1 l2 l3 : relinked l1 l2 → relinked l2 l3 → relinked l1 l3.
Proof.
  intros [E1 H1] [E2 H2]. split; [congruence|]. intros i x Hx.
  destruct (H1 i x Hx) as (y & Hy & ? & ? & ?). destruct (H2 i y Hy) as (z & Hz & ? & ? & ?).
  exists z. split; [done|]. split_and!; congruence.
Qed.

Lemma relinked_insert l q y y' : l !! q = Some y → same_page y' y → relinked l (<[q := y']> l).
Proof.
  intros Hq Hs. split; [apply length_insert|]. intros i x Hx. destruct (decide (i = q)) as [->|Hne].
  - exists y'. rewrite list_lookup_insert_eq by (by eapply lookup_lt_Some). split; [done|congruence].
  - exists x. by rewrite list_lookup_insert_ne.
Qed.

Lemma relinked_pg_ok l l' m g : relinked l l' → pg_ok l m g → pg_ok l' m g.
Proof.
  intros [_ Hl] [H1 H2 (x & Hx & ? & ? & ?) H4 H5 H6 H7]. split; try done.
  destruct (Hl _ _ Hx) as (y & Hy & ? & ? & ?). exists y. split; [done|]. split_and!; congruence.
Qed.

Lemma refs_without pre g post :
  NoDup (g_ref <$> pre ++ g :: post) →
  filter (λ i, i ≠ g_ref g) (g_ref <$> pre ++ g :: post) = g_ref <$> pre ++ post.
Proof.
  rewrite !fmap_app, fmap_cons. intros (_ & H1 & [H2 _]%NoDup_cons)%NoDup_app.
  rewrite filter_app, filter_cons_False by congruence. f_equal; apply filter_notin; [|done].
  intros Hin. apply (H1 _ Hin). set_solver.
Qed.

Lemma refs_filter_NoDup bt gs : NoDup (g_ref <$> gs) → NoDup (g_ref <$> filter (λ g, g_bt g = bt) gs).
Proof.
  induction gs as [|g gs IH]; intros Hnd; [done|]. apply NoDup_cons in Hnd as [Hg Hnd].
  destruct (decide (g_bt g = bt)).
  - rewrite filter_cons_True by done. apply NoDup_cons. split; [|auto].
    intros (g' & E & Hg')%list_elem_of_fmap. apply list_elem_of_filter in Hg' as [_ Hg'].
    apply Hg. rewrite E. by apply list_elem_of_fmap_2.
  - rewrite filter_cons_False by done. auto.
Qed.

(** A page is on the list of its own block type only. *)
Lemma refs_by_type gs q bt bt' :
  NoDup (g_ref <$> gs) → q ∈ g_ref <$> filter (λ g, g_bt g = bt) gs → bt' ≠ bt →
  q ∉ g_ref <$> filter (λ g, g_bt g = bt') gs.
Proof.
  intros Hnd (g & -> & [Hb Hg]%list_elem_of_filter)%list_elem_of_fmap Hne
    (g' & E & [Hb' Hg']%list_elem_of_filter)%list_elem_of_fmap.
  apply list_elem_of_lookup in Hg as [i Hi]. apply list_elem_of_lookup in Hg' as [j Hj].
  assert (i = j) as ->; [|congruence].
  eapply (NoDup_lookup (g_ref <$> gs) i j (g_ref g)); [done| |]; rewrite list_lookup_fmap, ?Hi, ?Hj; simpl; congruence.
Qed.

Lemma filter_type_without bt pre g post :
  g_bt g ≠ bt → filter (λ g, g_bt g = bt) (pre ++ g :: post) = filter (λ g, g_bt g = bt) (pre ++ post).
Proof. intros. by rewrite !filter_app, filter_cons_False. Qed.

(** [remove_lists] takes page [g] off both its lists. *)
Lemma remove_lists_ok pre g post h :
  let gs := pre ++ g :: post in
  length (pagerefs h) = 256%nat → length (sizebases h) = 8%nat → (length gs ≤ 256)%nat →
  (g_bt g < 8)%nat → NoDup (g_ref <$> gs) →
  chain next_all (pagerefs h) (allbase h) (g_ref <$> gs) →
  (∀ bt b, sizebases h !! bt = Some b →
    chain next_samesize (pagerefs h) b (g_ref <$> filter (λ g, g_bt g = bt) gs)) →
  ∃ l sb ab, remove_lists (g_ref g) (Z.of_nat (g_bt g)) h =
      Ret (set_allbase ab (set_sizebases sb (set_pagerefs l h))) ∧
    relinked (pagerefs h) l ∧ length sb = 8%nat ∧
    chain next_all l ab (g_ref <$> pre ++ post) ∧
    ∀ bt b, sb !! bt = Some b →
      chain next_samesize l b (g_ref <$> filter (λ g, g_bt g = bt) (pre ++ post)).
Proof.
  intros gs Hlen Hsb Hgs Hbt Hnd Hall Hsame. assert (g ∈ gs) as Hg by (apply elem_of_app; right; by left).
  unfold remove_lists.
  rewrite kassert_true, mbind_Ret by (apply andb_true_iff; lia). rewrite Nat2Z.id.
  destruct (lookup_lt_is_Some_2 (sizebases h) (g_bt g)) as [base Hbase]; [lia|]. rewrite Hbase.
  cbn [deref]. rewrite mbind_Ret.
  destruct (unlink_ok next_samesize set_next_samesize (λ _ _, eq_refl) 257 (g_ref g) base (pagerefs h)
    (g_ref <$> filter (λ g', g_bt g' = g_bt g) gs)) as (base' & l1 & E1 & Hl1 & Hc1).
  { by apply Hsame. } { by apply refs_filter_NoDup. }
  { apply list_elem_of_fmap_2, list_elem_of_filter. by split. }
  { rewrite length_fmap. pose proof (length_filter (λ g', g_bt g' = g_bt g) gs). lia. }
  rewrite E1, mbind_Ret.
  assert (relinked (pagerefs h) l1) as Hr1.
  { destruct Hl1 as [->|(q & y & n & Hq & _ & ->)]; [apply relinked_refl|by eapply relinked_insert]. }
  assert (chain next_all l1 (allbase h) (g_ref <$> gs)) as Hall1.
  { destruct Hl1 as [->|(q & y & n & Hq & _ & ->)]; [done|by eapply chain_update]. }
  destruct (unlink_ok next_all set_next_all (λ _ _, eq_refl) 257 (g_ref g) (allbase h) l1 (g_ref <$> gs))
    as (ab & l2 & E2 & Hl2 & Hc2); [done|done|by apply list_elem_of_fmap_2|rewrite length_fmap; lia|].
  rewrite E2, mbind_Ret. do 3 eexists. split; [done|].
  assert (∀ p js, chain next_samesize l1 p js → chain next_samesize l2 p js) as Hup.
  { intros p js Hc. destruct Hl2 as [->|(q & y & n & Hq & _ & ->)]; [done|by eapply chain_update]. }
  split.
  { eapply relinked_trans; [exact Hr1|].
    destruct Hl2 as [->|(q & y & n & Hq & _ & ->)]; [apply relinked_refl|by eapply relinked_insert]. }
  split; [by rewrite length_insert|]. split; [by unfold gs in Hc2; rewrite refs_without in Hc2|].
  intros bt b. rewrite list_lookup_insert_Some. intros [(<- & <- & _)|[Hne Hb]]; apply Hup.
  - pose proof (refs_filter_NoDup (g_bt g) gs Hnd) as Hndf. unfold gs in Hc1, Hndf.
    rewrite filter_app, filter_cons_True in Hc1, Hndf by done. rewrite filter_app.
    rewrite refs_without in Hc1; done.
  - rewrite <- (filter_type_without bt pre g post) by congruence. specialize (Hsame bt b Hb).
    destruct Hl1 as [->|(q & y & n & Hq & Hin & ->)]; [done|]. apply chain_insert; [|done].
    by apply (refs_by_type gs q (g_bt g)).
Qed.

(** Page [g] leaves the lists; the links and the contents of its own page
    may have changed. *)
Lemma heap_rep_pop pre g post big h x x' m' :
  heap_rep (pre ++ g :: post) big h → pagerefs h !! g_ref g = Some x →
  next_samesize x' = next_samesize x → next_all x' = next_all x →
  (∀ y, ¬ (g_page g ≤ y < g_page g + 4096) → m' !! y = hmem h !! y) →
  ∃ h', (h1 ← remove_lists (g_ref g) (Z.of_nat (g_bt g))
                (set_pagerefs (<[g_ref g := x']> (pagerefs h)) (set_hmem m' h));
         freepageref (g_ref g) (free_kpages (g_page g) h1)) = Ret h' ∧
    heap_rep (pre ++ post) big h' ∧ hmem h' = m' ∧ hvm h' = hvm h.
Proof.
  intros HR Hx E1 E2 Hm. pose proof HR as [R1 R2 R3 R4 R5 R6 [R7 R7'] R8 R9 R10 R11 R12].
  assert (g ∈ pre ++ g :: post) as Hg by (apply elem_of_app; right; by left).
  destruct (R8 g Hg) as (Hok & _).
  assert (∀ g', g' ∈ pre ++ post → g' ∈ pre ++ g :: post) as Hsub.
  { intros g'. rewrite !elem_of_app, elem_of_cons. tauto. }
  destruct (remove_lists_ok pre g post (set_pagerefs (<[g_ref g := x']> (pagerefs h)) (set_hmem m' h)))
    as (l & sb & ab & E & Hl & Hsb & Hall & Hsame); simpl; try done.
  { by rewrite length_insert. } { by eapply heap_rep_length. } { apply Hok. }
  { by eapply chain_update. } { intros bt b Hb. eapply chain_update; eauto. }
  rewrite E, mbind_Ret. unfold free_kpages.
  assert (g_ref g < 256)%nat as Hlt by (rewrite <- R1; by eapply lookup_lt_Some).
  destruct (freepageref_ok (g_ref g) (set_allbase ab (set_sizebases sb (set_pagerefs l
    (set_pagerefs (<[g_ref g := x']> (pagerefs h)) (set_hmem m' h)))))) as (inuse & Ef & U1 & U2 & U3);
    simpl; try done.
  { rewrite R4 by done. apply bool_decide_eq_true_2. by apply list_elem_of_fmap_2. }
  rewrite Ef. eexists; split; [done|]. split; [|done].
  destruct Hl as [Hl0 Hl]. simpl in *. rewrite length_insert in Hl0.
  assert (NoDup (g_ref <$> pre ++ post)) as Hnd.
  { rewrite <- (refs_without pre g post) by done. by apply NoDup_filter. }
  split; simpl; try done.
  - congruence.
  - intros i Hi. rewrite U3, R4 by done. rewrite <- (refs_without pre g post) by done.
    destruct (decide (i = g_ref g)) as [->|Hne].
    + symmetry. apply bool_decide_eq_false_2. rewrite list_elem_of_filter. tauto.
    + apply bool_decide_ext. rewrite list_elem_of_filter. tauto.
  - intros g' Hg'. destruct (R8 g' (Hsub g' Hg')) as (Hok' & ? & ? & ?). split; [|done].
    eapply relinked_pg_ok; [split; [|exact Hl]; by rewrite length_insert|].
    eapply (pg_ok_other _ _ _ _ g); [exact Hok'|by eapply (app_cons_neq g_ref)|by eapply (app_cons_neq g_page)|apply Hok| |done].
    intros i Hi. by rewrite list_lookup_insert_ne.
  - rewrite fmap_app in *. rewrite fmap_cons in R9. apply NoDup_app in R9 as (N1 & N2 & [_ N3]%NoDup_cons).
    apply NoDup_app. split; [done|]. split; [|done]. intros y Hy Hy'. apply (N2 y Hy). by right.
  - intros a n Ha. destruct (R10 a n Ha) as (? & ? & ? & ? & Hd). split_and!; try done.
    intros g' Hg'. by apply Hd, Hsub.
Qed.

(** ** kfree *)

Lemma fill_deadbeef_frame ptr len m y :
  0 ≤ len → ¬ (ptr ≤ y < ptr + len) → fill_deadbeef ptr len m !! y = m !! y.
Proof.
  intros Hlen Hy. unfold fill_deadbeef. pose proof (Z.div_mod len 4 ltac:(lia)) as Hd.
  pose proof (Z.mod_pos_bound len 4 ltac:(lia)) as Hb.
  assert (Forall (λ i, Z.of_nat i < len / 4) (seq 0 (Z.to_nat (len / 4)))) as Hall.
  { apply Forall_forall. intros i Hi. apply elem_of_seq in Hi. lia. }
  revert m Hall. generalize (seq 0 (Z.to_nat (len / 4))). intros s. induction s as [|i s IH]; intros m Hall; [done|].
  apply Forall_cons in Hall as [Hi Hall]. simpl. rewrite IH by done. apply lookup_insert_ne. lia.
Qed.

(** The block joins its page's free list. *)
Lemma free_block_pg_ok l m g a x x' :
  pg_ok l m g → page_range (g_page g) → is_block g a → a ∉ g_free g → l !! g_ref g = Some x →
  Z.of_nat (length (g_free g)) < nblocks (g_bt g) →
  pageaddr_and_blocktype x' = pageaddr_and_blocktype x → nfree x' = nfree x + 1 →
  freelist_offset x' = a - g_page g →
  pg_ok (<[g_ref g := x']> l)
    (<[a := default 0 (head (g_free g))]> (fill_deadbeef a (bsize (g_bt g)) m)) (with_gfree g (a :: g_free g)).
Proof.
  intros [H1 H2 (y & Hy & Hpab & Hn & Hoff) H4 H5 H6 H7] Hr Hb Hnf Hx Hlen E1 E2 E3. simplify_eq.
  destruct (sizes_ok8 _ H1) as (_ & Hs & _). destruct Hr as (Hr & _). unfold MIPS_KSEG0 in Hr.
  pose proof (is_block_range _ _ H1 Hb) as Har.
  split; cbn [g_bt g_page g_ref g_free with_gfree length]; try done.
  - exists x'. rewrite list_lookup_insert_eq by (by eapply lookup_lt_Some). split_and!; [done|congruence|lia|done].
  - split; [done|]. split; [lia|]. eexists. rewrite lookup_insert_eq. split; [done|].
    eapply flist_agree; [|exact H4]. intros z Hz. rewrite lookup_insert_ne by (intros ->; done).
    rewrite Forall_forall in H6. specialize (H6 z Hz). apply fill_deadbeef_frame; [lia|]. intros Hin.
    assert (z = a) as ->; [|done]. eapply (is_block_disjoint g z a z); [done|done|done|lia|lia].
  - by apply NoDup_cons.
  - by apply Forall_cons.
  - lia.
Qed.

(** When all but one of a page's blocks are free, the other blocks are. *)
Lemma all_blocks_free l m g a b :
  pg_ok l m g → is_block g a → a ∉ g_free g →
  Z.of_nat (length (g_free g)) + 1 = nblocks (g_bt g) → is_block g b → b = a ∨ b ∈ g_free g.
Proof.
  intros Hok Ha Hnf Hlen Hb. destruct (sizes_ok8 _ (go_bt _ _ _ Hok)) as (_ & Hs & _).
  set (all := blocks_desc (g_page g) (bsize (g_bt g)) (Z.to_nat (nblocks (g_bt g)))).
  assert (∀ c, is_block g c → c ∈ all) as Hall.
  { intros c (k & Hk & ->). apply elem_of_blocks_desc. exists k. split; [lia|done]. }
  assert (a :: g_free g ≡ₚ all) as Hp.
  { apply submseteq_length_Permutation.
    - apply NoDup_submseteq; [apply NoDup_cons; split; [done|apply Hok]|].
      intros c [->|Hc]%elem_of_cons; [auto|]. pose proof (go_blocks _ _ _ Hok) as Hbl.
      rewrite Forall_forall in Hbl. auto.
    - unfold all. rewrite blocks_desc_length. cbn [length]. lia. }
  apply Hall in Hb. rewrite <- Hp in Hb. by apply elem_of_cons in Hb.
Qed.

(** What [kfree] promises: the block is gone, the others are there and keep
    their contents. *)
Definition freed (a : Z) (gs : list pg) (big : gmap Z Z) (h h' : kheap) : Prop :=
  ∃ gs' big', heap_rep gs' big' h' ∧ vcpu (hvm h') = vcpu (hvm h) ∧
    (∀ x, inside gs' big' x → hmem h' !! x = hmem h !! x) ∧
    ∀ b k, live gs' big' b k ↔ live gs big b k ∧ b ≠ a.

Lemma freed_leave a gs big h h' :
  heap_rep gs big h → freed a gs big (hhigh h) h' →
  freed a gs big h (h_splx (curspl (vcpu (hvm h))) h').
Proof.
  intros HR (gs' & big' & HR' & Hc & Hm & Hres). exists gs', big'.
  destruct (heap_rep_leave _ _ _ _ _ _ HR HR' Hc) as [? ?]. done.
Qed.

Lemma live_not_big gs big h g a n :
  heap_rep gs big h → g ∈ gs → is_block g a → big !! a = Some n → False.
Proof.
  intros HR Hg Hb Ha. destruct (hr_pg _ _ _ HR g Hg) as (Hok & _).
  pose proof (is_block_range g a (go_bt _ _ _ Hok) Hb). destruct (sizes_ok8 _ (go_bt _ _ _ Hok)) as (_ & ? & _).
  destruct (hr_big _ _ _ HR a n Ha) as (_ & _ & ? & _ & Hd). destruct (Hd g Hg); lia.
Qed.

Lemma live_elsewhere pre g post big h a b k :
  heap_rep (pre ++ g :: post) big h → is_block g a →
  big !! b = Some k ∨ (∃ g', g' ∈ pre ++ post ∧ is_block g' b ∧ b ∉ g_free g' ∧ k = bsize (g_bt g')) →
  b ≠ a.
Proof.
  intros HR Ha Hb ->. assert (g ∈ pre ++ g :: post) as Hg by (apply elem_of_app; right; by left).
  destruct Hb as [Hb|(g' & Hg' & Hb & _)]; [by eapply live_not_big|].
  assert (g' ∈ pre ++ g :: post) as Hin by (revert Hg'; rewrite !elem_of_app, elem_of_cons; tauto).
  destruct (hr_pg _ _ _ HR g Hg) as (Hok & _), (hr_pg _ _ _ HR g' Hin) as (Hok' & _).
  pose proof (is_block_range g a (go_bt _ _ _ Hok) Ha). pose proof (is_block_range g' a (go_bt _ _ _ Hok') Hb).
  destruct (sizes_ok8 _ (go_bt _ _ _ Hok)) as (_ & ? & _), (sizes_ok8 _ (go_bt _ _ _ Hok')) as (_ & ? & _).
  apply (app_cons_neq g_page pre g post g' (hr_pages _ _ _ HR) Hg').
  eapply (aligned_pages_disjoint _ _ a); [apply Hok'|apply Hok|lia|lia].
Qed.

(** The memory of the blocks that remain is untouched by freeing [a]. *)
Lemma free_frame gs big gs' big' h (m' : gmap Z Z) g a :
  heap_rep gs big h → g ∈ gs → is_block g a →
  (∀ b k, live gs' big' b k ↔ live gs big b k ∧ b ≠ a) →
  (∀ y, ¬ (a ≤ y < a + bsize (g_bt g)) → m' !! y = hmem h !! y) →
  ∀ x, inside gs' big' x → m' !! x = hmem h !! x.
Proof.
  intros HR Hg Ha Hl Hm x (b & k & [Hb Hne]%Hl & Hx). apply Hm. intros Hax.
  destruct (block_owner gs big h g a b k x) as [? _]; done.
Qed.

Lemma freed_update pre g post big h a x x' (m' : gmap Z Z) :
  heap_rep (pre ++ g :: post) big h → is_block g a → a ∉ g_free g →
  pagerefs h !! g_ref g = Some x → next_samesize x' = next_samesize x → next_all x' = next_all x →
  pg_ok (<[g_ref g := x']> (pagerefs h)) m' (with_gfree g (a :: g_free g)) →
  (∀ y, ¬ (a ≤ y < a + bsize (g_bt g)) → m' !! y = hmem h !! y) →
  ∃ h', (if Z.of_nat (length (g_free g)) + 1 =? nblocks (g_bt g) then
           h1 ← remove_lists (g_ref g) (Z.of_nat (g_bt g))
                  (set_pagerefs (<[g_ref g := x']> (pagerefs h)) (set_hmem m' h));
           freepageref (g_ref g) (free_kpages (g_page g) h1)
         else Ret (set_pagerefs (<[g_ref g := x']> (pagerefs h)) (set_hmem m' h))) = Ret h' ∧
    freed a (pre ++ g :: post) big h h'.
Proof.
  intros HR Ha Hnf Hx E1 E2 Hok' Hm. assert (g ∈ pre ++ g :: post) as Hg by (apply elem_of_app; right; by left).
  destruct (hr_pg _ _ _ HR g Hg) as (Hok & _ & _ & Hlen).
  pose proof (is_block_range g a (go_bt _ _ _ Hok) Ha) as Har.
  assert (∀ y, ¬ (g_page g ≤ y < g_page g + 4096) → m' !! y = hmem h !! y) as Hm'.
  { intros y Hy. apply Hm. lia. }
  pose proof (λ b k, live_elsewhere pre g post big h a b k HR Ha) as Helse.
  destruct (Z.eqb_spec (Z.of_nat (length (g_free g)) + 1) (nblocks (g_bt g))) as [Hfull|Hnot].
  - destruct (heap_rep_pop pre g post big h x x' m') as (h' & E & HR' & Em & Ev); [done..|].
    assert (∀ b k, live (pre ++ post) big b k ↔ live (pre ++ g :: post) big b k ∧ b ≠ a) as Hl.
    { intros b k. rewrite live_split. unfold live. split.
      - intros Hb. split; [tauto|]. by apply (Helse b k).
      - intros [[?|[?|(Hb & Hbf & _)]] Hne]; [by left|by right|].
        destruct (all_blocks_free _ _ g a b Hok Ha Hnf Hfull Hb); tauto. }
    exists h'. split; [done|]. exists (pre ++ post), big. split; [done|]. split; [by rewrite Ev|].
    split; [|done]. rewrite Em. by eapply free_frame.
  - eexists. split; [done|].
    assert (∀ b k, live (pre ++ with_gfree g (a :: g_free g) :: post) big b k ↔
      live (pre ++ g :: post) big b k ∧ b ≠ a) as Hl.
    { intros b k. rewrite live_update, live_split, not_elem_of_cons. specialize (Helse b k). tauto. }
    exists (pre ++ with_gfree g (a :: g_free g) :: post), big. split.
    { eapply heap_rep_update; try done. cbn [length]. lia. }
    split; [done|]. split; [|done]. by eapply free_frame.
Qed.

(** Freeing a block of a page. *)
Lemma subpage_kfree_ok gs big h g a :
  heap_rep gs big h → g ∈ gs → is_block g a → a ∉ g_free g →
  ∃ h', subpage_kfree a h = Ret (0, h') ∧ freed a gs big h h'.
Proof.
  intros HR Hg Ha Hnf. pose proof (heap_rep_high _ _ _ HR) as HRh. unfold subpage_kfree.
  rewrite h_splhigh_eq. cbv beta iota zeta. pose proof (heap_rep_length _ _ _ HR) as Hlen.
  destruct (hr_pg _ _ _ HRh g Hg) as (Hok & _ & _ & Hnb). pose proof (heap_page_range _ _ _ _ HRh Hg) as Hpr.
  pose proof (is_block_range g a (go_bt _ _ _ Hok) Ha) as Har.
  destruct (sizes_ok8 _ (go_bt _ _ _ Hok)) as (Hsz & Hs & _ & Hns & Hn256).
  destruct (findptr_ok 257 a (allbase (hhigh h)) (pagerefs (hhigh h)) (hmem (hhigh h)) gs)
    as [[_ Hno]|(g' & Hg' & Ef & Hin)].
  { apply HRh. } { lia. }
  { intros g' Hg'. destruct (hr_pg _ _ _ HRh g' Hg') as (? & _). split; [done|by eapply heap_page_range]. }
  { exfalso. apply (Hno g Hg). lia. }
  assert (g' = g) as ->.
  { eapply page_of_inj; [exact HRh|done|done|]. destruct (hr_pg _ _ _ HRh g' Hg') as (Hok2 & _).
    eapply (aligned_pages_disjoint _ _ a); [apply Hok2|apply Hok|lia|lia]. }
  rewrite Ef, mbind_Ret, Nat2Z.id, Hsz. cbn [deref]. rewrite mbind_Ret.
  pose proof (page_range_u32 _ Hpr) as [Hu1 Hu2]. unfold is_u32 in *.
  rewrite (u32_id (a - g_page g)) by (unfold is_u32; lia).
  assert ((a - g_page g) mod bsize (g_bt g) = 0) as Hmod.
  { destruct Ha as (k & _ & ->). replace (g_page g + k * bsize (g_bt g) - g_page g) with (k * bsize (g_bt g)) by lia.
    apply Z.mod_mul. lia. }
  rewrite Hmod. unfold PAGE_SIZE. rewrite (proj2 (Z.leb_gt _ _)) by lia. cbn [orb negb Z.eqb].
  destruct (go_ref _ _ _ Hok) as (x & Hx & Hpab & Hnx & Hoff). cbn [pagerefs set_hmem hmem]. rewrite Hx. cbn [deref].
  rewrite mbind_Ret. replace (g_page g + (a - g_page g)) with a by lia.
  rewrite (u32_id a) by (unfold is_u32; lia).
  set (next := if freelist_offset x =? INVALID_OFFSET then 0 else u32 (g_page g + freelist_offset x)).
  assert (next = default 0 (head (g_free g))) as Hnext.
  { unfold next. rewrite Hoff. pose proof (go_blocks _ _ _ Hok) as Hbl. destruct (g_free g) as [|b f]; [done|].
    apply Forall_cons in Hbl as [Hb _]. pose proof (is_block_range g b (go_bt _ _ _ Hok) Hb).
    rewrite (proj2 (Z.eqb_neq _ _)) by (unfold INVALID_OFFSET; lia). simpl. rewrite u32_id; unfold is_u32; lia. }
  rewrite Hnx, (u16_id (_ + 1)), (u16_id (a - _)) by (unfold is_u16; lia).
  change (4096 / bsize (g_bt g)) with (nblocks (g_bt g)).
  rewrite (kassert_true (_ <=? _)), mbind_Ret by lia.
  set (x' := set_free _ _ x). set (m' := <[a := next]> _).
  apply list_elem_of_split in Hg as (pre & post & ->).
  destruct (freed_update pre g post big (hhigh h) a x x' m') as (h' & E & Hfr); try done.
  { unfold m'. rewrite Hnext. eapply free_block_pg_ok; try done. simpl. lia. }
  { intros y Hy. unfold m'. rewrite lookup_insert_ne by lia. apply fill_deadbeef_frame; [lia|done]. }
  exists (h_splx (curspl (vcpu (hvm h))) h'). split; [|by apply freed_leave].
  transitivity (h1 ← (Ret h' : res kheap); Ret (0, h_splx (curspl (vcpu (hvm h))) h1)); [|done].
  rewrite <- E. reflexivity.
Qed.

(** Whole pages are not on the lists; freeing them does nothing. *)
Lemma kfree_big_ok gs big h a n :
  heap_rep gs big h → big !! a = Some n →
  ∃ h', kfree a h = Ret h' ∧ freed a gs big h h'.
Proof.
  intros HR Ha. pose proof (heap_rep_high _ _ _ HR) as HRh. pose proof (heap_rep_length _ _ _ HR) as Hlen.
  destruct (hr_big _ _ _ HR a n Ha) as (Hal & Hk & Hn & _ & Hd). unfold MIPS_KSEG0 in Hk.
  unfold kfree. rewrite (proj2 (Z.eqb_neq _ _)) by lia. unfold subpage_kfree. rewrite h_splhigh_eq. cbv beta iota zeta.
  destruct (findptr_ok 257 a (allbase (hhigh h)) (pagerefs (hhigh h)) (hmem (hhigh h)) gs)
    as [[Ef _]|(g & Hg & _ & Hin)].
  { apply HRh. } { lia. }
  { intros g' Hg'. destruct (hr_pg _ _ _ HRh g' Hg') as (? & _). split; [done|by eapply heap_page_range]. }
  2:{ destruct (Hd g Hg); lia. }
  rewrite Ef, !mbind_Ret. cbn [negb Z.eqb]. unfold PAGE_SIZE. rewrite kassert_true, mbind_Ret by lia.
  eexists; split; [done|]. unfold free_kpages.
  destruct (heap_rep_leave gs big gs big h (hhigh h) HR HRh eq_refl) as [HR' Hc].
  pose proof HR' as [R1 R2 R3 R4 R5 R6 R7 R8 R9 R10 R11 R12].
  exists gs, (delete a big). split; [|split; [done|split; [done|]]].
  - split; try done.
    + intros b k [_ Hb]%lookup_delete_Some. by apply R10.
    + intros b k c j [_ Hb]%lookup_delete_Some [_ Hc']%lookup_delete_Some. by apply R11.
  - intros b k. unfold live. rewrite lookup_delete_Some. split.
    + intros [[? ?]|(g & Hg & Hb & ?)]; [split; [by left|congruence]|]. split; [right; eauto|].
      intros ->. by eapply live_not_big.
    + intros [[?|?] ?]; [left; split; [congruence|done]|by right].
Qed.

Lemma kfree_ok gs big h a n :
  heap_rep gs big h → live gs big a n → ∃ h', kfree a h = Ret h' ∧ freed a gs big h h'.
Proof.
  intros HR [Ha|(g & Hg & Hb & Hnf & ->)]; [by eapply kfree_big_ok|].
  destruct (subpage_kfree_ok gs big h g a) as (h' & E & Hfr); [done..|]. exists h'. split; [|done].
  unfold kfree. destruct (hr_pg _ _ _ HR g Hg) as (Hok & Hk & _). unfold MIPS_KSEG0 in Hk.
  pose proof (is_block_range g a (go_bt _ _ _ Hok) Hb). rewrite (proj2 (Z.eqb_neq _ _)) by lia.
  by rewrite E.
Qed.
