(* ===== verification/HeapChecks.v ===== *)
(** The consistency checks of kheap.c succeed on every heap the allocator
    builds, and the listing shows exactly the free blocks. *)

From Stdlib Require Import ZArith Lia.
From stdpp Require Import base numbers list option gmap.
From S2P Require Import Prelude Cpu Vm Kheap HeapProofs HeapFree.

Open Scope Z_scope.

(** The facts about a block the walks over a free list need. *)
Lemma block_facts l m g a :
  pg_ok l m g → page_range (g_page g) → is_block g a →
  ∃ k, 0 ≤ k < nblocks (g_bt g) ∧ a = g_page g + k * bsize (g_bt g) ∧
    g_page g ≤ a < g_page g + 4096 ∧ u32 (g_page g + 4096) = g_page g + 4096 ∧
    u32 (a - g_page g) = k * bsize (g_bt g) ∧ MIPS_KSEG0 ≤ a < MIPS_KSEG1.
Proof.
  intros Hok Hr Hb. pose proof (is_block_range g a (go_bt _ _ _ Hok) Hb) as Ha.
  destruct (sizes_ok8 _ (go_bt _ _ _ Hok)) as (_ & Hs & _ & Hn & _).
  pose proof (page_range_u32 _ Hr) as [H1 H2]. destruct Hr as (Hr1 & Hr2 & _).
  destruct Hb as (k & Hk & ->). exists k. unfold MIPS_KSEG0, MIPS_KSEG1, is_u32 in *.
  split; [done|]. split; [done|]. split; [lia|]. split; [by rewrite u32_id|].
  split; [|lia]. rewrite u32_id; [lia|]. unfold is_u32. nia.
Qed.

Lemma checkfree_ok fuel lr g h fl l nf :
  pg_ok lr (hmem h) g → page_range (g_page g) → flist (hmem h) fl l → Forall (is_block g) l →
  (length l < fuel)%nat →
  checkfree fuel (g_page g) (bsize (g_bt g)) fl nf h = Ret (nf + Z.of_nat (length l)).
Proof.
  intros Hok Hr. destruct (sizes_ok8 _ (go_bt _ _ _ Hok)) as (_ & Hs & _).
  revert fl l nf. induction fuel as [|fuel IH]; intros fl l nf Hl Hb Hf; [lia|]. cbn [checkfree].
  destruct l as [|a l].
  - simpl in Hl. subst fl. cbn [Z.eqb length]. f_equal. lia.
  - destruct Hl as (-> & Ha0 & nx & Hnx & Hl). apply Forall_cons in Hb as [Hba Hb].
    destruct (block_facts _ _ _ _ Hok Hr Hba) as (k & Hk & Ea & Hin & Eu & Eo & Hk01).
    rewrite (proj2 (Z.eqb_neq _ _)) by done. unfold PAGE_SIZE. rewrite Eu, Eo, Z.mod_mul by lia.
    rewrite (kassert_true (_ && _)), mbind_Ret by lia.
    rewrite (kassert_true (0 =? 0)), mbind_Ret by done.
    rewrite (kassert_true (MIPS_KSEG0 <=? a)), mbind_Ret by lia.
    rewrite (kassert_true (a <? MIPS_KSEG1)), mbind_Ret by lia.
    unfold hload. rewrite Hnx. cbn [deref]. rewrite mbind_Ret, (IH nx l); [|done|done|simpl in Hf; lia].
    f_equal. cbn [length]. lia.
Qed.

(** Where the free list of a page starts. *)
Lemma free_start l m g x a f :
  pg_ok l m g → page_range (g_page g) → l !! g_ref g = Some x → g_free g = a :: f →
  freelist_offset x ≠ INVALID_OFFSET ∧ 0 ≤ freelist_offset x < 4096 ∧
  freelist_offset x mod bsize (g_bt g) = 0 ∧ u32 (g_page g + freelist_offset x) = a.
Proof.
  intros Hok Hr Hx Hf. destruct (go_ref _ _ _ Hok) as (x' & Hx' & _ & _ & Hoff). simplify_eq. rewrite Hf in Hoff.
  pose proof (go_blocks _ _ _ Hok) as Hb. rewrite Hf in Hb. apply Forall_cons in Hb as [Hb _].
  destruct (block_facts _ _ _ _ Hok Hr Hb) as (k & Hk & Ea & Hin & _ & Eo & Hk01).
  destruct (sizes_ok8 _ (go_bt _ _ _ Hok)) as (_ & Hs & _).
  rewrite Hoff. unfold INVALID_OFFSET. split; [lia|]. split; [lia|].
  replace (a - g_page g) with (k * bsize (g_bt g)) by lia. rewrite Z.mod_mul by lia. split; [done|].
  rewrite u32_id; [lia|]. unfold is_u32, MIPS_KSEG0, MIPS_KSEG1 in *. lia.
Qed.

Lemma free_length l m g : pg_ok l m g → (length (g_free g) < 257)%nat.
Proof.
  intros Hok. pose proof (go_len _ _ _ Hok). destruct (sizes_ok8 _ (go_bt _ _ _ Hok)) as (_ & _ & _ & _ & ?). lia.
Qed.

Lemma checksubpage_ok g x h :
  pg_ok (pagerefs h) (hmem h) g → page_range (g_page g) → pagerefs h !! g_ref g = Some x →
  0 < curspl (vcpu (hvm h)) → checksubpage x h = Ret tt.
Proof.
  intros Hok Hr Hx Hspl. unfold checksubpage. rewrite (kassert_true (0 <? _)), mbind_Ret by lia.
  destruct (pg_ref_fields _ _ _ _ Hok Hr Hx) as [-> ->]. rewrite Nat2Z.id.
  destruct (sizes_ok8 _ (go_bt _ _ _ Hok)) as (Hsz & _).
  destruct (go_ref _ _ _ Hok) as (x' & Hx' & _ & Hn & Hoff). simplify_eq. pose proof (go_list _ _ _ Hok) as Hl.
  destruct (g_free g) as [|a f] eqn:Hf.
  - rewrite Hoff, Hn, Z.eqb_refl. done.
  - destruct (free_start _ _ _ _ _ _ Hok Hr Hx Hf) as (Hinv & Hran & Hmod & Hst).
    rewrite (proj2 (Z.eqb_neq _ _)) by done. cbv zeta. unfold PAGE_SIZE.
    rewrite (kassert_true (_ <? 4096)), mbind_Ret by lia. rewrite Hsz. cbn [deref]. rewrite mbind_Ret, Hmod, Hst.
    rewrite (kassert_true (0 =? 0)), mbind_Ret by done. simpl default in Hl.
    rewrite (checkfree_ok 257 (pagerefs h) g h a (a :: f) 0) by
      (try done; rewrite <- Hf; first [apply Hok|by eapply free_length]).
    rewrite mbind_Ret, Hn. apply kassert_true. lia.
Qed.

Lemma checklist_ok fuel next p gs c h :
  chain next (pagerefs h) p (g_ref <$> gs) → (length gs < fuel)%nat →
  (∀ g, g ∈ gs → pg_ok (pagerefs h) (hmem h) g ∧ page_range (g_page g)) →
  0 < curspl (vcpu (hvm h)) → c + Z.of_nat (length gs) ≤ 256 →
  checklist fuel next p c h = Ret (c + Z.of_nat (length gs)).
Proof.
  revert p gs c. induction fuel as [|fuel IH]; intros p gs c Hc Hf Hok Hspl Hle; [lia|]. cbn [checklist].
  destruct gs as [|g gs]; [simpl in Hc; subst; simpl; f_equal; lia|]. destruct Hc as (-> & x & Hx & Hc).
  destruct (Hok g ltac:(by left)) as (Hg & Hr). rewrite Hx. cbn [deref]. rewrite mbind_Ret.
  rewrite (checksubpage_ok g) by done. rewrite mbind_Ret. cbn [length] in *.
  change (Z.of_nat NPAGEREFS) with 256. rewrite kassert_true, mbind_Ret by lia.
  rewrite (IH _ gs); [f_equal; lia|done|lia| |done|lia]. intros g' Hg'. apply Hok. by right.
Qed.

(** The pages of types [from..from+n-1]. *)
Lemma checksizes_ok gs h bases from sc :
  (∀ g, g ∈ gs → pg_ok (pagerefs h) (hmem h) g ∧ page_range (g_page g)) →
  (∀ i b, bases !! i = Some b →
    chain next_samesize (pagerefs h) b (g_ref <$> filter (λ g, g_bt g = from + i)%nat gs)) →
  0 < curspl (vcpu (hvm h)) →
  let cnt := Z.of_nat (length (filter (λ g, from ≤ g_bt g < from + length bases)%nat gs)) in
  sc + cnt ≤ 256 → 0 ≤ sc → checksizes bases sc h = Ret (sc + cnt).
Proof.
  intros Hok. revert from sc. induction bases as [|b bases IH]; intros from sc Hch Hspl cnt Hle Hsc.
  - assert (filter (λ g, from ≤ g_bt g < from + length (@nil (option nat)))%nat gs = []) as E.
    { clear. induction gs as [|g gs IH]; [done|]. rewrite filter_cons_False by (simpl; lia). done. }
    unfold cnt. rewrite E. cbn [checksizes length]. f_equal. lia.
  - assert (cnt = Z.of_nat (length (filter (λ g, g_bt g = from + 0)%nat gs)) +
      Z.of_nat (length (filter (λ g, S from ≤ g_bt g < S from + length bases)%nat gs))) as Hcnt.
    { unfold cnt. clear. cbn [length]. induction gs as [|g gs IH]; [done|]. rewrite !filter_cons.
      repeat case_decide; cbn [length]; lia. }
    cbn [checksizes]. rewrite (checklist_ok 257 next_samesize b (filter (λ g, g_bt g = from + 0)%nat gs)).
    + rewrite mbind_Ret, (IH (S from)); [f_equal; lia| |done|lia|lia].
      intros i b' Hb'. rewrite Nat.add_succ_comm. by apply (Hch (S i)).
    + by apply Hch.
    + lia.
    + intros g [_ Hg]%list_elem_of_filter. by apply Hok.
    + done.
    + lia.
Qed.

Lemma checksubpages_ok gs big h :
  heap_rep gs big h → 0 < curspl (vcpu (hvm h)) → checksubpages h = Ret tt.
Proof.
  intros HR Hspl. unfold checksubpages. rewrite (kassert_true (0 <? _)), mbind_Ret by lia.
  pose proof (heap_rep_length _ _ _ HR) as Hlen. destruct (hr_same _ _ _ HR) as [H8 Hch].
  assert (∀ g, g ∈ gs → pg_ok (pagerefs h) (hmem h) g ∧ page_range (g_page g)) as Hok.
  { intros g Hg. destruct (hr_pg _ _ _ HR g Hg) as (? & _). split; [done|by eapply heap_page_range]. }
  assert (filter (λ g, 0 ≤ g_bt g < 0 + length (sizebases h))%nat gs = gs) as Eall.
  { clear -Hok H8. rewrite H8. clear H8. induction gs as [|g gs IH]; [done|].
    destruct (Hok g ltac:(by left)) as (Hg & _). pose proof (go_bt _ _ _ Hg).
    rewrite filter_cons_True by lia. f_equal. apply IH. intros g' Hg'. apply Hok. by right. }
  rewrite (checksizes_ok gs h (sizebases h) 0 0 Hok) by (rewrite ?Eall; done || lia).
  rewrite Eall, mbind_Ret, (checklist_ok 257 next_all (allbase h) gs) by (apply HR || done || lia).
  rewrite mbind_Ret. apply kassert_true. lia.
Qed.

(** ** The listing *)

(** The free blocks of a page, in order. *)
Definition marks (g : pg) : list bool :=
  (λ i : nat, bool_decide (g_page g + Z.of_nat i * bsize (g_bt g) ∈ g_free g)) <$> seq 0 (Z.to_nat (nblocks (g_bt g))).

Lemma freemap_walk_ok fuel lr g h fl l freemap :
  pg_ok lr (hmem h) g → page_range (g_page g) → flist (hmem h) fl l → Forall (is_block g) l →
  (length l < fuel)%nat → length freemap = 8%nat → Forall is_u32 freemap →
  ∃ fm, freemap_walk fuel (g_page g) (bsize (g_bt g)) (nblocks (g_bt g)) fl freemap h = Ret fm ∧
    length fm = 8%nat ∧ Forall is_u32 fm ∧
    ∀ i, Z.of_nat i < nblocks (g_bt g) →
      ref_bit fm i = ref_bit freemap i || bool_decide (g_page g + Z.of_nat i * bsize (g_bt g) ∈ l).
Proof.
  intros Hok Hr. destruct (sizes_ok8 _ (go_bt _ _ _ Hok)) as (_ & Hs & _ & _ & Hn).
  revert fl l freemap. induction fuel as [|fuel IH]; intros fl l fm Hl Hb Hf Hlen Hu; [lia|]. cbn [freemap_walk].
  destruct l as [|a l].
  { simpl in Hl. subst fl. cbn [Z.eqb]. exists fm. split_and!; [done..|]. intros i _.
    rewrite bool_decide_eq_false_2 by apply not_elem_of_nil. by rewrite orb_false_r. }
  destruct Hl as (-> & Ha0 & nx & Hnx & Hl). apply Forall_cons in Hb as [Hba Hb].
  destruct (block_facts _ _ _ _ Hok Hr Hba) as (k & Hk & Ea & Hin & _ & Eo & _).
  rewrite (proj2 (Z.eqb_neq _ _)) by done. rewrite Eo, Z.div_mul by lia.
  rewrite (kassert_true (k <? _)), mbind_Ret by lia.
  assert (0 ≤ k / 32 < 8) as Hkd by (split; [apply Z.div_pos; lia|apply Z.div_lt_upper_bound; lia]).
  destruct (load_in_range fm (k / 32)) as (w & Ew & Hw); [lia|]. rewrite Ew, mbind_Ret, store_in_range, mbind_Ret by lia.
  unfold hload. rewrite Hnx. cbn [deref]. rewrite mbind_Ret.
  pose proof (Z.mod_pos_bound k 32 ltac:(lia)) as Hm. pose proof (Forall_lookup_1 _ _ _ _ Hu Hw) as Hwu.
  rewrite Z.shiftl_1_l, u32_id.
  2:{ split; [apply Z.pow_nonneg; lia|]. change 4294967296 with (2 ^ 32). apply Z.pow_lt_mono_r; lia. }
  destruct (lor_bit_u32 w (k mod 32) Hwu Hm) as [Hwu' Hbits].
  pose proof (λ q, ref_bit_insert fm (Z.to_nat (k / 32)) w _ (Z.to_nat (k mod 32)) true q Hw ltac:(lia)
    ltac:(by rewrite Z2Nat.id by lia)) as Hins.
  destruct (IH nx l (<[Z.to_nat (k / 32) := Z.lor w (2 ^ (k mod 32))]> fm)) as (fm' & E & L1 & L2 & L3);
    [done|done|simpl in Hf; lia|by rewrite length_insert|by apply Forall_insert|].
  exists fm'. split_and!; [done..|]. intros i Hi. rewrite L3, Hins by done.
  pose proof (Z.div_mod k 32 ltac:(lia)) as Hdm.
  destruct (decide (i = Z.to_nat (k / 32) * 32 + Z.to_nat (k mod 32))%nat) as [Ei|Hne].
  - rewrite (bool_decide_eq_true_2 (_ ∈ a :: l)); [by rewrite orb_true_r|].
    apply elem_of_cons. left. rewrite Ea. replace (Z.of_nat i) with k by lia. done.
  - f_equal. apply bool_decide_ext. rewrite elem_of_cons, Ea. split; [tauto|]. intros [E'|?]; [|done].
    exfalso. apply Hne. assert (Z.of_nat i = k) by nia. lia.
Qed.

Lemma dumpsubpage_ok g x h :
  pg_ok (pagerefs h) (hmem h) g → page_range (g_page g) → pagerefs h !! g_ref g = Some x →
  0 < curspl (vcpu (hvm h)) → dumpsubpage x h = Ret (marks g).
Proof.
  intros Hok Hr Hx Hspl. unfold dumpsubpage. rewrite (kassert_true (0 <? _)), mbind_Ret by lia.
  destruct (pg_ref_fields _ _ _ _ Hok Hr Hx) as [-> ->]. rewrite Nat2Z.id.
  destruct (sizes_ok8 _ (go_bt _ _ _ Hok)) as (Hsz & _ & _ & _ & Hn). rewrite Hsz. cbn [deref]. rewrite mbind_Ret.
  change (PAGE_SIZE / bsize (g_bt g)) with (nblocks (g_bt g)).
  rewrite (kassert_true (_ <=? 256)), mbind_Ret by lia.
  assert (∃ fm, (if negb (freelist_offset x =? INVALID_OFFSET)
      then freemap_walk 257 (g_page g) (bsize (g_bt g)) (nblocks (g_bt g)) (u32 (g_page g + freelist_offset x)) (replicate 8 0) h
      else Ret (replicate 8 0)) = Ret fm ∧ length fm = 8%nat ∧
      ∀ i, Z.of_nat i < nblocks (g_bt g) → ref_bit fm i = bool_decide (g_page g + Z.of_nat i * bsize (g_bt g) ∈ g_free g))
    as (fm & E & Hlen & Hfm).
  { assert (∀ i, Z.of_nat i < nblocks (g_bt g) → ref_bit (replicate 8 0) i = false) as H0.
    { intros i Hi. unfold ref_bit. rewrite lookup_replicate_2; [apply Z.bits_0|]. apply Nat.Div0.div_lt_upper_bound. lia. }
    destruct (go_ref _ _ _ Hok) as (x' & Hx' & _ & _ & Hoff). simplify_eq.
    destruct (g_free g) as [|a f] eqn:Hf.
    - rewrite Hoff. cbn [Z.eqb negb]. exists (replicate 8 0). split; [done|]. split; [done|]. intros i Hi.
      rewrite H0 by done. by rewrite bool_decide_eq_false_2 by apply not_elem_of_nil.
    - destruct (free_start _ _ _ _ _ _ Hok Hr Hx Hf) as (Hinv & _ & _ & ->).
      rewrite (proj2 (Z.eqb_neq _ _)) by done. cbn [negb].
      pose proof (go_list _ _ _ Hok) as Hl. pose proof (go_blocks _ _ _ Hok) as Hb.
      pose proof (free_length _ _ _ Hok) as Hfl. rewrite Hf in Hl, Hb, Hfl.
      destruct (freemap_walk_ok 257 (pagerefs h) g h a (a :: f) (replicate 8 0)) as (fm & E & L1 & _ & L3); try done.
      { apply Forall_replicate. unfold is_u32. lia. }
      exists fm. split; [done|]. split; [done|]. intros i Hi. by rewrite L3, H0. }
  rewrite E, mbind_Ret. f_equal. unfold marks. apply list_fmap_ext. intros i j [-> Hj]%lookup_seq.
  cbn [Nat.add]. rewrite <- Hfm by lia. unfold ref_bit.
  destruct (lookup_lt_is_Some_2 fm (i / 32)) as [w Hw]; [rewrite Hlen; apply Nat.Div0.div_lt_upper_bound; lia|].
  rewrite Hw. simpl default. rewrite land_mask by lia. apply negb_involutive.
Qed.

Lemma dump_loop_ok fuel p gs h :
  chain next_all (pagerefs h) p (g_ref <$> gs) → (length gs < fuel)%nat →
  (∀ g, g ∈ gs → pg_ok (pagerefs h) (hmem h) g ∧ page_range (g_page g)) →
  0 < curspl (vcpu (hvm h)) → dump_loop fuel p h = Ret (marks <$> gs).
Proof.
  revert p gs. induction fuel as [|fuel IH]; intros p gs Hc Hf Hok Hspl; [lia|]. cbn [dump_loop].
  destruct gs as [|g gs]; [simpl in Hc; by subst|]. destruct Hc as (-> & x & Hx & Hc).
  destruct (Hok g ltac:(by left)) as (Hg & Hr). rewrite Hx. cbn [deref]. rewrite mbind_Ret.
  rewrite (dumpsubpage_ok g) by done. rewrite mbind_Ret. cbn [length] in Hf.
  rewrite (IH _ gs); [done|done|lia| |done]. intros g' Hg'. apply Hok. by right.
Qed.
