(* ===== verification/HeapSpec.v ===== *)
(** The kernel's heap keeps the contract of an allocator: code that uses
    [kmalloc], [kfree] and the blocks it was given cannot tell the heap from a
    table of independent blocks. *)

From Stdlib Require Import ZArith Lia.
From stdpp Require Import base numbers list option gmap.
From S2P Require Import Prelude Alloc Cpu Vm Kheap HeapProofs HeapFree HeapChecks.

Open Scope Z_scope.

(** ** The heap as an allocator *)

(** The static storage of kheap.c before the first call. *)
Definition kheap0 (v : vm) : kheap :=
  mkKH (replicate NPAGEREFS (mkPR None None 0 0 0)) (replicate INUSE_WORDS 0) (replicate NSIZES None) None ∅ v.

(** Whether the heap passes its own checks. *)
Definition checked (h : kheap) : bool :=
  match checksubpages (h_splhigh h).2 with Ret _ => true | _ => false end.

#[global] Instance kheap_allocator : Allocator kheap := {|
  a_malloc := kmalloc;
  a_free := kfree;
  a_load a h := hload h a;
  a_store a v h := Ret (set_hmem (<[a := v]> (hmem h)) h);
  a_check := checked;
  a_min := 0;
  a_max := kmalloc_max
|}.

Lemma kheap0_rep v : ram_wf v → heap_rep [] ∅ (kheap0 v).
Proof.
  intros Hv. split; simpl; try done.
  - repeat constructor; unfold is_u32; lia.
  - intros i Hi. unfold ref_bit. assert (i / 32 < 8)%nat by (apply Nat.Div0.div_lt_upper_bound; lia).
    change [0; 0; 0; 0; 0; 0; 0; 0] with (replicate 8 0). rewrite lookup_replicate_2 by done. apply Z.bits_0.
  - constructor.
  - split; [done|]. intros bt b Hb.
    change (replicate 8 (@None nat) !! bt = Some b) in Hb. by apply lookup_replicate in Hb as [-> _].
  - intros g Hg. by apply elem_of_nil in Hg.
  - constructor.
Qed.

Lemma heap_rep_store gs big h a n x v :
  heap_rep gs big h → live gs big a n → a ≤ x < a + n →
  heap_rep gs big (set_hmem (<[x := v]> (hmem h)) h).
Proof.
  intros HR Ha Hx. pose proof HR as [R1 R2 R3 R4 R5 R6 R7 R8 R9 R10 R11 R12]. split; simpl; try done.
  intros g Hg. destruct (R8 g Hg) as ([H1 H2 H3 H4 H5 H6 H7] & ?). split; [|done]. split; try done.
  eapply flist_agree; [|exact H4]. intros y Hy. apply lookup_insert_ne. intros ->.
  pose proof H6 as H6'. rewrite Forall_forall in H6'. pose proof (H6' y Hy) as Hb.
  destruct (sizes_ok8 _ H1) as (_ & ? & _).
  eapply (free_not_inside gs big h g y y); [done|done|done|done|lia|]. exists a, n. done.
Qed.

Definition kheap_rep (B : gmap Z Z) (h : kheap) : Prop :=
  ∃ gs big, heap_rep gs big h ∧ ∀ p n, B !! p = Some n → live gs big p n.

Lemma kheap_malloc_law sz B h :
  kheap_rep B h → 0 ≤ sz ≤ kmalloc_max →
  ∃ p h', kmalloc sz h = Ret (p, h') ∧
    (∀ q n x, B !! q = Some n → q ≤ x < q + n → hmem h' !! x = hmem h !! x) ∧
    (p = 0 ∧ kheap_rep B h' ∨ p ≠ 0 ∧ B !! p = None ∧ ∃ n, sz ≤ n ∧ kheap_rep (<[p := n]> B) h').
Proof.
  intros (gs & big & HR & HB) Hsz. destruct (kmalloc_correct sz gs big h HR Hsz) as (p & h' & E & gs' & big' & HR' & _ & Hm & Hres).
  exists p, h'. split; [done|]. split; [intros q n x Hq Hx; apply Hm; exists q, n; auto|].
  destruct Hres as [(-> & _ & Hl)|(Hp & n & Hn & _ & Hno & Hl)].
  - left. split; [done|]. exists gs', big'. split; [done|]. intros q k Hq. by apply Hl, HB.
  - right. split; [done|]. split; [apply eq_None_not_Some; intros [k Hk]; by eapply (Hno k), HB|]. exists n. split; [done|]. exists gs', big'. split; [done|].
    intros q k. rewrite lookup_insert_Some. intros [[<- <-]|[_ Hq]]; apply Hl; [by right|left; by apply HB].
Qed.

Lemma kheap_free_law p n B h :
  kheap_rep B h → B !! p = Some n →
  ∃ h', kfree p h = Ret h' ∧ kheap_rep (delete p B) h' ∧
    ∀ q k x, delete p B !! q = Some k → q ≤ x < q + k → hmem h' !! x = hmem h !! x.
Proof.
  intros (gs & big & HR & HB) Hp. destruct (kfree_ok gs big h p n HR (HB _ _ Hp)) as (h' & E & gs' & big' & HR' & _ & Hm & Hl).
  assert (∀ q k, delete p B !! q = Some k → live gs' big' q k) as HB'.
  { intros q k. rewrite lookup_delete_Some. intros [Hne Hq]. apply Hl. split; [by apply HB|done]. }
  exists h'. split; [done|]. split; [by exists gs', big'|]. intros q k x Hq Hx. apply Hm. exists q, k. auto.
Qed.

Lemma kheap_store_law p n off v B h :
  kheap_rep B h → B !! p = Some n → word_in n off = true → kheap_rep B (set_hmem (<[p + off := v]> (hmem h)) h).
Proof.
  intros (gs & big & HR & HB) Hp Hw. apply word_in_spec in Hw. exists gs, big. split; [|done]. eapply heap_rep_store; [done|by apply HB|lia].
Qed.

Lemma kheap_checked B h : kheap_rep B h → checked h = true.
Proof.
  intros (gs & big & HR & _). unfold checked. rewrite h_splhigh_eq. simpl.
  rewrite (checksubpages_ok gs big); [done|by apply heap_rep_high|]. done.
Qed.

Lemma kheap_disjoint B h p n q k x :
  kheap_rep B h → B !! p = Some n → B !! q = Some k → p ≤ x < p + n → q ≤ x < q + k → p = q.
Proof. intros (gs & big & HR & HB) Hp Hq. eapply live_disjoint; eauto. Qed.

#[global, refine] Instance kheap_spec : AllocSpec kheap := {|
  a_rep := kheap_rep;
  a_word h a := hmem h !! a;
  law_disjoint := kheap_disjoint;
  law_malloc := kheap_malloc_law;
  law_free := kheap_free_law;
  law_store := _;
  law_load := _;
  law_check := kheap_checked
|}.
Proof.
  - intros p n off v B h HR Hp Hw. eexists. split; [done|]. split; [by eapply kheap_store_law|]. simpl. split; [by rewrite lookup_insert_eq|].
    intros x Hx. by rewrite lookup_insert_ne.
  - intros a v h Hv. simpl. unfold hload. by rewrite Hv.
Defined.

(** C12: whatever sequence of allocations (of up to 2 GB), frees, word stores
    and word loads a client performs from boot, the heap never panics or
    reads unset memory and every answer is the one of a table of independent
    blocks: a loaded word is the last one stored there through the same
    handle, whatever happened to the other blocks.  After every step the
    consistency checks of kheap.c ([checksubpages]) succeed. *)
Theorem kheap_refines_table ops v :
  ram_wf v → conforms ops [] (kheap0 v) [] = true.
Proof. intros Hv. apply conforms_start. exists [], ∅. split; [by apply kheap0_rep|]. intros p n Hp. by rewrite lookup_empty in Hp. Qed.

Definition vm4m : vm := mkVm 1048576 4194304 4194304 [] (λ _, 0) (mkCpu 1 0).

Lemma vm4m_wf : ram_wf vm4m.
Proof. unfold ram_wf, cpu_wf, is_u32. simpl. repeat split; try lia; auto. Defined.

(** A client that fills and empties a page of blocks. *)
Definition demo_ops : list hop :=
  [HMalloc 2000; HMalloc 1500; HMalloc 1000; HStore 0 4 7; HStore 1 4 8; HFree 0; HMalloc 1025;
   HStore 3 4 9; HLoad 1 4; HFree 1; HFree 3; HMalloc 5000; HLoad 2 0].

Lemma kheap_refines_table_witness :
  conforms demo_ops [] (kheap0 vm4m) [] = true ∧
  (match hstep (HMalloc 2000) [] (kheap0 vm4m) with
   | Ret (OBlock true, _, h) => match hstep (HMalloc 3) [] h with Ret (OBlock true, _, _) => true | _ => false end
   | _ => false end) = true.
Proof. split; [apply (kheap_refines_table demo_ops vm4m), vm4m_wf|vm_compute; reflexivity]. Defined.

(** C13: unless all 256 page references are in use or too little memory was
    never handed out, [kmalloc] returns a block: 16-byte aligned, of the size
    asked for, and overlapping no block in use. *)
Theorem kmalloc_succeeds sz gs big h :
  heap_rep gs big h → 0 ≤ sz ≤ kmalloc_max → ¬ exhausted sz gs h →
  ∃ p h' gs' big', kmalloc sz h = Ret (p, h') ∧ p ≠ 0 ∧ p mod 16 = 0 ∧ heap_rep gs' big' h' ∧
    (∃ n, sz ≤ n ∧ live gs' big' p n) ∧
    ∀ a k x, live gs big a k → a ≤ x < a + k → p ≤ x < p + sz → False.
Proof.
  intros HR Hsz Hex. destruct (kmalloc_correct sz gs big h HR Hsz) as (p & h' & E & gs' & big' & HR' & _ & _ & Hres).
  destruct Hres as [(_ & ? & _)|(Hp & n & Hn & Hal & Hno & Hl)]; [done|].
  exists p, h', gs', big'. split_and!; [done..| |].
  - exists n. split; [done|]. apply Hl. by right.
  - intros a k x Ha Hx Hx'. assert (a = p) as ->.
    { eapply (live_disjoint gs' big' h' a k p n x); [done|apply Hl; by left|apply Hl; by right|done|lia]. }
    by eapply Hno.
Qed.

Lemma kmalloc_succeeds_witness :
  ∃ p h' gs' big', kmalloc 100 (kheap0 vm4m) = Ret (p, h') ∧ p ≠ 0 ∧ p mod 16 = 0 ∧ heap_rep gs' big' h' ∧
    (∃ n, 100 ≤ n ∧ live gs' big' p n) ∧
    ∀ a k x, live [] ∅ a k → a ≤ x < a + k → p ≤ x < p + 100 → False.
Proof.
  apply (kmalloc_succeeds 100 [] ∅ (kheap0 vm4m)).
  - apply kheap0_rep, vm4m_wf.
  - unfold kmalloc_max. lia.
  - intros [H|H]; [discriminate|]. vm_compute in H. discriminate.
Defined.

(** A request within a page of 4 GB wraps to zero pages when it is
    rounded up: [kmalloc] answers with a non-NULL pointer but sets nothing
    aside, and the next request for a page gets the same address. *)
Theorem kmalloc_huge_wraps sz h :
  ram_wf (hvm h) → 4294967296 - 4096 < sz < 4294967296 →
  firstpaddr (hvm h) + 4096 ≤ lastpaddr (hvm h) →
  ∃ p h', p ≠ 0 ∧ kmalloc sz h = Ret (p, h) ∧ kmalloc 4096 h = Ret (p, h').
Proof.
  intros Hv Hsz Hroom. unfold kmalloc, LARGEST_SUBPAGE_SIZE, PAGE_SIZE. rewrite (proj2 (Z.leb_le _ _)) by lia.
  replace (u32 (sz + 4096 - 1) / 4096) with 0.
  2:{ unfold u32. replace (sz + 4096 - 1) with (sz + 4096 - 1 - 4294967296 + 1 * 4294967296) by lia.
      rewrite Z.mod_add, Z.mod_small, Z.div_small; lia. }
  change (2048 <=? 4096) with true. change (u32 (4096 + 4096 - 1) / 4096) with 1.
  rewrite !alloc_kpages_ok by (done || lia). rewrite Z.mul_1_l.
  do 2 rewrite (proj2 (Z.leb_le _ _)) by lia. do 2 eexists. split; [|split; [|done]].
  - unfold MIPS_KSEG0. destruct Hv. lia.
  - f_equal. f_equal. destruct h as [? ? ? ? ? []]. unfold set_hvm, set_ram. simpl. by rewrite Z.add_0_r.
Qed.

Lemma kmalloc_huge_wraps_witness :
  ∃ p h', p ≠ 0 ∧ kmalloc 4294967295 (kheap0 vm4m) = Ret (p, kheap0 vm4m) ∧ kmalloc 4096 (kheap0 vm4m) = Ret (p, h').
Proof. apply (kmalloc_huge_wraps 4294967295 (kheap0 vm4m)); [apply vm4m_wf|lia|simpl; lia]. Defined.

(** C14: [kheap_printstats] lists the pages in order, with a mark for exactly
    the free blocks of each, and leaves the heap as it was. *)
Theorem kheap_printstats_exact gs big h :
  heap_rep gs big h → kheap_printstats h = Ret (marks <$> gs, h).
Proof.
  intros HR. unfold kheap_printstats. rewrite h_splhigh_eq. pose proof (heap_rep_high _ _ _ HR) as HRh.
  rewrite (dump_loop_ok 257 _ gs).
  - rewrite mbind_Ret. f_equal. f_equal. assert (cpu_wf (vcpu (hvm h))) as Hwf by apply (hr_ram _ _ _ HR).
    destruct h as [? ? ? ? ? [? ? ? ? ? c]]. unfold h_splx, hhigh. cbn [hvm vcpu set_hvm set_vcpu] in *.
    by rewrite (spl_bracket c Hwf).
  - apply HRh.
  - pose proof (heap_rep_length _ _ _ HR). lia.
  - intros g Hg. destruct (hr_pg _ _ _ HRh g Hg) as (? & _). split; [done|by eapply heap_page_range].
  - done.
Qed.

Lemma kheap_printstats_exact_witness :
  ∃ p h gs, kmalloc 100 (kheap0 vm4m) = Ret (p, h) ∧ kheap_printstats h = Ret (marks <$> gs, h) ∧
    marks <$> gs = [replicate 31 true ++ [false]].
Proof.
  destruct (kmalloc_correct 100 [] ∅ (kheap0 vm4m)) as (p & h & E & gs & big & HR & _).
  { apply kheap0_rep, vm4m_wf. } { unfold kmalloc_max. lia. }
  pose proof (kheap_printstats_exact gs big h HR) as P. exists p, h, gs. split; [exact E|]. split; [exact P|].
  assert (match kmalloc 100 (kheap0 vm4m) with
          | Ret (_, h) => match kheap_printstats h with Ret (d, _) => d = [replicate 31 true ++ [false]] | _ => False end
          | _ => False end) as C by (vm_compute; reflexivity).
  rewrite E, P in C. exact C.
Defined.
