(* ===== verification/Errm.v ===== *)
(** Kernel functions that return an error number: a monad over a state in
    which [inl e] is the early return of error [e], and a weakest
    precondition for it.

    [x ← m; k] is the idiom [result = m; if (result) return result; k];
    [attempt] is for the callers that look at the result themselves. *)

From Stdlib Require Import ZArith Lia.
From stdpp Require Import base numbers list option gmap.
From S2P Require Import Prelude.

Open Scope Z_scope.

Definition EM (S A : Type) : Type := S → res ((Z + A) * S).

#[global] Instance EM_mret S : MRet (EM S) := λ A a s, Ret (inr a, s).
#[global] Instance EM_mbind S : MBind (EM S) := λ A B f m s,
  match m s with
  | Ret (inr a, s') => f a s'
  | Ret (inl e, s') => Ret (inl e, s')
  | Panic => Panic
  | Undef => Undef
  | NoFuel => NoFuel
  end.

Section Ops.
Context {S : Type}.

Definition raise {A} (e : Z) : EM S A := λ s, Ret (inl e, s).
Definition eget : EM S S := λ s, Ret (inr s, s).
Definition emod (f : S → S) : EM S unit := λ s, Ret (inr tt, f s).
Definition lift {A} (r : res A) : EM S A := λ s,
  match r with Ret a => Ret (inr a, s) | Panic => Panic | Undef => Undef | NoFuel => NoFuel end.
Definition eassert (b : bool) : EM S unit := lift (kassert b).
Definition epanic {A} : EM S A := λ _, Panic.

(** The result of [m] as a value, an error included. *)
Definition attempt {A} (m : EM S A) : EM S (Z + A) := λ s,
  match m s with
  | Ret (r, s') => Ret (inr r, s')
  | Panic => Panic
  | Undef => Undef
  | NoFuel => NoFuel
  end.

(** Return what a caught result says. *)
Definition reraise {A} (r : Z + A) : EM S A := λ s, Ret (r, s).

Fixpoint erepeat (n : nat) (m : EM S unit) : EM S unit :=
  match n with
  | O => mret tt
  | Datatypes.S n' => _ ← m; erepeat n' m
  end.

(** [m] returns and its result satisfies [Q]. *)
Definition wpe {A} (m : EM S A) (Q : Z + A → S → Prop) (s : S) : Prop :=
  match m s with Ret (r, s') => Q r s' | _ => False end.
End Ops.

(** Running code on one half of the state. *)
Definition onfst {S T A} (m : EM S A) : EM (S * T) A := λ '(s, t),
  match m s with
  | Ret (r, s') => Ret (r, (s', t))
  | Panic => Panic
  | Undef => Undef
  | NoFuel => NoFuel
  end.
Definition onsnd {S T A} (m : EM T A) : EM (S * T) A := λ '(s, t),
  match m t with
  | Ret (r, t') => Ret (r, (s, t'))
  | Panic => Panic
  | Undef => Undef
  | NoFuel => NoFuel
  end.

Section Rules.
Context {S : Type}.
Implicit Types s : S.

Lemma wpe_ret {A} (a : A) Q s : Q (inr a) s → wpe (mret a) Q s.
Proof. done. Qed.
Lemma wpe_raise {A} e (Q : Z + A → S → Prop) s : Q (inl e) s → wpe (raise e) Q s.
Proof. done. Qed.
Lemma wpe_reraise {A} (r : Z + A) Q s : Q r s → wpe (reraise r) Q s.
Proof. done. Qed.
Lemma wpe_get Q s : Q (inr s) s → wpe eget Q s.
Proof. done. Qed.
Lemma wpe_mod f Q s : Q (inr tt) (f s) → wpe (emod f) Q s.
Proof. done. Qed.
Lemma wpe_lift {A} (r : res A) a Q s : r = Ret a → Q (inr a) s → wpe (lift r) Q s.
Proof. by intros ->. Qed.
Lemma wpe_assert b Q s : b = true → Q (inr tt) s → wpe (eassert b) Q s.
Proof. by intros ->. Qed.

Lemma wpe_bind {A B} (m : EM S A) (f : A → EM S B) Q s :
  wpe m (λ r s', match r with inr a => wpe (f a) Q s' | inl e => Q (inl e) s' end) s →
  wpe (m ≫= f) Q s.
Proof.
  unfold wpe, mbind, EM_mbind. destruct (m s) as [[[e|a] s']| | |]; done.
Qed.

Lemma wpe_attempt {A} (m : EM S A) Q s : wpe m (λ r s', Q (inr r) s') s → wpe (attempt m) Q s.
Proof. unfold wpe, attempt. destruct (m s) as [[r s']| | |]; done. Qed.

Lemma wpe_mono {A} (m : EM S A) (Q Q' : Z + A → S → Prop) s :
  wpe m Q s → (∀ r s', Q r s' → Q' r s') → wpe m Q' s.
Proof. unfold wpe. destruct (m s) as [[r s']| | |]; auto. Qed.

Lemma wpe_if {A} (b : bool) (m1 m2 : EM S A) Q s :
  (b = true → wpe m1 Q s) → (b = false → wpe m2 Q s) → wpe (if b then m1 else m2) Q s.
Proof. destruct b; auto. Qed.

Lemma wpe_run {A} (m : EM S A) Q s : wpe m Q s → ∃ r s', m s = Ret (r, s') ∧ Q r s'.
Proof. unfold wpe. destruct (m s) as [[r s']| | |]; naive_solver. Qed.

Lemma wpe_intro {A} (m : EM S A) Q s r s' : m s = Ret (r, s') → Q r s' → wpe m Q s.
Proof. unfold wpe. by intros ->. Qed.
End Rules.

Lemma wpe_onfst {S T A} (m : EM S A) (Q : Z + A → S * T → Prop) s t :
  wpe m (λ r s', Q r (s', t)) s → wpe (onfst m) Q (s, t).
Proof. unfold wpe, onfst. destruct (m s) as [[r s']| | |]; done. Qed.
Lemma wpe_onsnd {S T A} (m : EM T A) (Q : Z + A → S * T → Prop) s t :
  wpe m (λ r t', Q r (s, t')) t → wpe (onsnd m) Q (s, t).
Proof. unfold wpe, onsnd. destruct (m t) as [[r t']| | |]; done. Qed.

(** One step of a program in a [wpe] goal. *)
Ltac estep :=
  lazymatch goal with
  | |- wpe (_ ≫= _) _ _ => apply wpe_bind; estep
  | |- wpe (mret _) _ _ => apply wpe_ret
  | |- wpe (raise _) _ _ => apply wpe_raise
  | |- wpe (reraise _) _ _ => apply wpe_reraise
  | |- wpe eget _ _ => apply wpe_get
  | |- wpe (emod _) _ _ => apply wpe_mod
  | |- wpe (attempt _) _ _ => apply wpe_attempt; estep
  | |- wpe (onfst _) _ _ => apply wpe_onfst; estep
  | |- wpe (onsnd _) _ _ => apply wpe_onsnd; estep
  | |- _ => idtac
  end.
