(* ===== verification/Malloc.v ===== *)
(** The C library's allocator (lib/libc/malloc.c): a first-fit list of blocks,
    each with a header of two words, on memory from [sbrk].

    Memory is words by their address; touching one that is not mapped is
    undefined.  The fields of a header are bit fields: word 0 has
    [mh_prevblock] (29 bits), [mh_pad] and [mh_magic1] (2 bits), word 1 has
    [mh_nextblock], [mh_inuse] and [mh_magic2].  [errx] is [Panic].

    The system call comes in through the class [Break]. *)

From Stdlib Require Import ZArith Lia.
From stdpp Require Import base numbers list option gmap.
From S2P Require Import Prelude Errm.

Open Scope Z_scope.

(** [sbrk]: the old break, or [None] for an error; [brk_fill] is what the new
    memory holds. *)
Class Break (K : Type) := {
  sbrk : Z → K → option Z * K;
  brk_fill : K → Z → Z
}.

(** ** State *)

Record uheap (K : Type) := mkUheap {
  heapbase : Z;
  heaptop : Z;
  umem : gmap Z Z;
  ubrk : K
}.
Arguments mkUheap {K}.
Arguments heapbase {K}.
Arguments heaptop {K}.
Arguments umem {K}.
Arguments ubrk {K}.

Definition MBLOCKSIZE : Z := 8.
Definition MMAGIC : Z := 2.
Definition M_MKFIELD (off : Z) : Z := off / 8.

(** [n] words from [a]. *)
Fixpoint map_words (n : nat) (a : Z) (f : Z → Z) (m : gmap Z Z) : gmap Z Z :=
  match n with
  | O => m
  | S n' => <[a := f a]> (map_words n' (a + 4) f m)
  end.

(** A line of [__malloc_dump]: the data, its size, the next header and whether
    the block is in use. *)
Abbreviation dumped := (Z * Z * Z * bool)%type.

Section malloc.
Context {K : Type} `{Break K}.
Abbreviation M := (EM (uheap K)).

Definition set_top (t : Z) (m : gmap Z Z) (k : K) (h : uheap K) : uheap K := mkUheap (heapbase h) t m k.
Definition set_umem (m : gmap Z Z) (h : uheap K) : uheap K := mkUheap (heapbase h) (heaptop h) m (ubrk h).

Definition ldw (a : Z) : M Z := λ h, match umem h !! a with Some v => Ret (inr v, h) | None => Undef end.
Definition stw (a v : Z) : M unit := λ h,
  match umem h !! a with Some _ => Ret (inr tt, set_umem (<[a := v]> (umem h)) h) | None => Undef end.

(** ** The header *)

Definition mh_prevblock (mh : Z) : M Z := w ← ldw mh; mret (w / 8).
Definition mh_magic1 (mh : Z) : M Z := w ← ldw mh; mret (w mod 4).
Definition mh_nextblock (mh : Z) : M Z := w ← ldw (mh + 4); mret (w / 8).
Definition mh_inuse (mh : Z) : M bool := w ← ldw (mh + 4); mret ((w / 4) mod 2 =? 1).
Definition mh_magic2 (mh : Z) : M Z := w ← ldw (mh + 4); mret (w mod 4).

Definition field29 (v w : Z) : Z := v mod 536870912 * 8 + w mod 8.
Definition field1 (b w : Z) : Z := w / 8 * 8 + b * 4 + w mod 4.
Definition field2 (v w : Z) : Z := w / 4 * 4 + v.

Definition set_prevblock (mh v : Z) : M unit := w ← ldw mh; stw mh (field29 v w).
Definition set_pad (mh b : Z) : M unit := w ← ldw mh; stw mh (field1 b w).
Definition set_magic1 (mh v : Z) : M unit := w ← ldw mh; stw mh (field2 v w).
Definition set_nextblock (mh v : Z) : M unit := w ← ldw (mh + 4); stw (mh + 4) (field29 v w).
Definition set_inuse (mh b : Z) : M unit := w ← ldw (mh + 4); stw (mh + 4) (field1 b w).
Definition set_magic2 (mh v : Z) : M unit := w ← ldw (mh + 4); stw (mh + 4) (field2 v w).

Definition M_NEXTOFF (mh : Z) : M Z := n ← mh_nextblock mh; mret (u32 (n * 8)).
Definition M_PREVOFF (mh : Z) : M Z := n ← mh_prevblock mh; mret (u32 (n * 8)).
Definition M_NEXT (mh : Z) : M Z := o ← M_NEXTOFF mh; mret (u32 (mh + o)).
Definition M_PREV (mh : Z) : M Z := o ← M_PREVOFF mh; mret (u32 (mh - o)).
Definition M_DATA (mh : Z) : Z := u32 (mh + MBLOCKSIZE).
Definition M_SIZE (mh : Z) : M Z := o ← M_NEXTOFF mh; mret (u32 (o - MBLOCKSIZE)).
Definition M_OK (mh : Z) : M bool :=
  a ← mh_magic1 mh;
  if a =? MMAGIC then b ← mh_magic2 mh; mret (b =? MMAGIC) else mret false.

(** ** Getting memory *)

Definition do_sbrk (n : Z) : M (option Z) := λ h,
  let '(r, k) := sbrk (s32 n) (ubrk h) in
  Ret (inr r, set_top (heaptop h)
    (match r with Some a => map_words (Z.to_nat (n / 4)) a (brk_fill (ubrk h)) (umem h) | None => umem h end) k h).

(** The checks of the sizes are of constants and hold. *)
Definition __malloc_init : M unit :=
  h ← eget;
  if negb (heapbase h =? 0) || negb (heaptop h =? 0) then epanic else
  r ← do_sbrk 0;
  match r with
  | None => epanic
  | Some x =>
      if x =? 0 then epanic else
      _ ← emod (λ h, mkUheap x x (umem h) (ubrk h));
      if negb (x mod MBLOCKSIZE =? 0) then
        let adjust := MBLOCKSIZE - x mod MBLOCKSIZE in
        r ← do_sbrk adjust;
        match r with
        | None => epanic
        | Some y =>
            if negb (y =? x) then epanic else
            emod (λ h, mkUheap (u32 (x + adjust)) (u32 (x + adjust)) (umem h) (ubrk h))
        end
      else mret tt
  end.

(** ** The dump of a debugging build *)

Fixpoint dump_blocks (fuel : nat) (i rightprevblock : Z) (out : list dumped) : M (list dumped) :=
  match fuel with
  | O => λ _, NoFuel
  | S f =>
      h ← eget;
      if i <? heaptop h then
        ok ← M_OK i;
        if negb ok then epanic else
        p ← mh_prevblock i;
        if negb (p =? rightprevblock) then epanic else
        rightprevblock ← mh_nextblock i;
        sz ← M_SIZE i;
        off ← M_NEXTOFF i;
        inuse ← mh_inuse i;
        dump_blocks f (u32 (i + off)) rightprevblock (out ++ [(u32 (i + MBLOCKSIZE), sz, u32 (i + off), inuse)])
      else if negb (i =? heaptop h) then epanic
      else mret out
  end.

(** Every header takes 8 bytes. *)
Definition search_fuel (h : uheap K) : nat := S (Z.to_nat ((heaptop h - heapbase h) / 8)).

Definition __malloc_dump : M (list dumped) := h ← eget; dump_blocks (search_fuel h) (heapbase h) 0 [].

Definition __malloc_sbrk (size : Z) : M Z :=
  r ← do_sbrk size;
  match r with
  | None => mret 0
  | Some x =>
      h ← eget;
      if negb (x =? heaptop h) then epanic else
      _ ← emod (λ h, set_top (u32 (heaptop h + size)) (umem h) (ubrk h) h);
      mret x
  end.

Definition __malloc_split (mh size : Z) : M unit :=
  if negb (size mod MBLOCKSIZE =? 0) then epanic else
  sz ← M_SIZE mh;
  if u32 (sz - size) <? 2 * MBLOCKSIZE then mret tt else
  mhnext ← M_NEXT mh;
  oldsize ← M_SIZE mh;
  _ ← set_nextblock mh (M_MKFIELD (u32 (size + MBLOCKSIZE)));
  mhnew ← M_NEXT mh;
  if mhnew =? mhnext then epanic else
  _ ← set_prevblock mhnew (M_MKFIELD (u32 (size + MBLOCKSIZE)));
  _ ← set_pad mhnew 0;
  _ ← set_magic1 mhnew MMAGIC;
  _ ← set_nextblock mhnew (M_MKFIELD (u32 (oldsize - size)));
  _ ← set_inuse mhnew 0;
  _ ← set_magic2 mhnew MMAGIC;
  h ← eget;
  if negb (mhnext =? heaptop h) then
    n ← mh_nextblock mhnew;
    set_prevblock mhnext n
  else mret tt.

(** The loop of [malloc] from header [i]: the block it found, or the
    [rightprevblock] it ended with. *)
Fixpoint malloc_search (fuel : nat) (size i rightprevblock : Z) : M (Z + Z) :=
  match fuel with
  | O => λ _, NoFuel
  | S f =>
      h ← eget;
      if i <? heaptop h then
        ok ← M_OK i;
        if negb ok then epanic else
        p ← mh_prevblock i;
        if negb (p =? rightprevblock) then epanic else
        rightprevblock ← mh_nextblock i;
        inuse ← mh_inuse i;
        if inuse : bool then off ← M_NEXTOFF i; malloc_search f size (u32 (i + off)) rightprevblock else
        sz ← M_SIZE i;
        if sz <? size then off ← M_NEXTOFF i; malloc_search f size (u32 (i + off)) rightprevblock else
        _ ← __malloc_split i size;
        _ ← set_inuse i 1;
        mret (inl (M_DATA i))
      else if negb (i =? heaptop h) then epanic
      else mret (inr rightprevblock)
  end.

Definition corrupt (h : uheap K) : bool := (heapbase h =? 0) || (heaptop h =? 0) || (heaptop h <? heapbase h).

Definition malloc (size : Z) : M Z :=
  h ← eget;
  _ ← (if heapbase h =? 0 then __malloc_init else mret tt);
  h ← eget;
  if corrupt h then epanic else
  let size := Z.land (u32 (size + MBLOCKSIZE - 1)) 4294967288 in
  r ← malloc_search (search_fuel h) size (heapbase h) 0;
  match r with
  | inl p => mret p
  | inr rightprevblock =>
      mh ← __malloc_sbrk (u32 (size + MBLOCKSIZE));
      if mh =? 0 then mret 0 else
      _ ← set_prevblock mh rightprevblock;
      _ ← set_magic1 mh MMAGIC;
      _ ← set_magic2 mh MMAGIC;
      _ ← set_pad mh 0;
      _ ← set_inuse mh 1;
      _ ← set_nextblock mh (M_MKFIELD (u32 (size + MBLOCKSIZE)));
      mret (M_DATA mh)
  end.

(** ** Giving it back *)

Definition DEADBEEF : Z := 3735928559.

Fixpoint deadbeef_words (n : nat) (x : Z) : M unit :=
  match n with
  | O => mret tt
  | S n' => _ ← stw x DEADBEEF; deadbeef_words n' (x + 4)
  end.
Definition __malloc_deadbeef (ptr size : Z) : M unit := deadbeef_words (Z.to_nat (size / 4)) ptr.

Definition __malloc_trymerge (mh mhnext : Z) : M unit :=
  n ← mh_nextblock mh;
  p ← mh_prevblock mhnext;
  if negb (n =? p) then epanic else
  u1 ← mh_inuse mh;
  u2 ← mh_inuse mhnext;
  if u1 || u2 then mret tt else
  mhnextnext ← M_NEXT mhnext;
  s1 ← M_SIZE mh;
  s2 ← M_SIZE mhnext;
  _ ← set_nextblock mh (M_MKFIELD (u32 (MBLOCKSIZE + s1 + MBLOCKSIZE + s2)));
  h ← eget;
  _ ← (if negb (mhnextnext =? heaptop h) then n ← mh_nextblock mh; set_prevblock mhnextnext n else mret tt);
  __malloc_deadbeef mhnext 8.

Definition free (x : Z) : M unit :=
  if x =? 0 then mret tt else
  h ← eget;
  if corrupt h then epanic else
  if (x <? heapbase h) || (heaptop h <=? x) then epanic else
  let mh := u32 (x - MBLOCKSIZE) in
  ok ← M_OK mh;
  if negb ok then epanic else
  u ← mh_inuse mh;
  if negb u then epanic else
  _ ← set_inuse mh 0;
  sz ← M_SIZE mh;
  _ ← __malloc_deadbeef (M_DATA mh) sz;
  mhnext ← M_NEXT mh;
  _ ← (if negb (mhnext =? heaptop h) then __malloc_trymerge mh mhnext else mret tt);
  if negb (mh =? heapbase h) then
    mhprev ← M_PREV mh;
    __malloc_trymerge mhprev mh
  else mret tt.
End malloc.
