(* ===== verification/MallocProofs.v ===== *)
(** The C library's allocator keeps a well-formed list of blocks. *)

From Stdlib Require Import ZArith Lia.
From stdpp Require Import base numbers list option gmap.
From S2P Require Import Prelude Alloc Errm Malloc.

Open Scope Z_scope.

Ltac dlia := zify; Z.to_euclidean_division_equations; lia.

(** ** Layout *)

(** A block: the 8-byte units of its data, and whether it is in use. *)
Abbreviation blk := (Z * bool)%type.

Definition ub (u : bool) : Z := if u then 4 else 0.

Definition hdr (m : gmap Z Z) (a p k : Z) (u : bool) : Prop :=
  m !! a = Some (p * 8 + 2) ∧ m !! (a + 4) = Some ((k + 1) * 8 + ub u + 2).

Definition mapped (m : gmap Z Z) (a n : Z) : Prop := ∀ x, a ≤ x < a + n → (x - a) mod 4 = 0 → is_Some (m !! x).

(** The blocks [bs] from address [a] to [b]; [p] and [q] are what the next
    header has to say of the block before it. *)
Fixpoint lay (m : gmap Z Z) (a p : Z) (bs : list blk) (b q : Z) : Prop :=
  match bs with
  | [] => a = b ∧ p = q
  | (k, u) :: bs' => 1 ≤ k ∧ hdr m a p k u ∧ mapped m (a + 8) (8 * k) ∧ lay m (a + 8 * (k + 1)) (k + 1) bs' b q
  end.

Fixpoint endof (a : Z) (bs : list blk) : Z :=
  match bs with
  | [] => a
  | (k, _) :: bs' => endof (a + 8 * (k + 1)) bs'
  end.

(** The blocks in use, as data address and size. *)
Fixpoint used (a : Z) (bs : list blk) : list (Z * Z) :=
  match bs with
  | [] => []
  | (k, u) :: bs' => (if u : bool then [(a + 8, 8 * k)] else []) ++ used (a + 8 * (k + 1)) bs'
  end.

Definition sized (bs : list blk) : Prop := Forall (λ b, 1 ≤ b.1) bs.

Lemma endof_app a b1 b2 : endof a (b1 ++ b2) = endof (endof a b1) b2.
Proof. revert a. induction b1 as [|[k u] b1 IH]; intros a; [done|]. apply IH. Qed.

Lemma used_app a b1 b2 : used a (b1 ++ b2) = used a b1 ++ used (endof a b1) b2.
Proof. revert a. induction b1 as [|[k u] b1 IH]; intros a; [done|]. cbn. by rewrite IH, app_assoc. Qed.

Lemma lay_app m a p b1 b2 b q : lay m a p (b1 ++ b2) b q ↔ ∃ q', lay m a p b1 (endof a b1) q' ∧ lay m (endof a b1) q' b2 b q.
Proof.
  revert a p. induction b1 as [|[k u] b1 IH]; intros a p; cbn.
  - split; [intros H; exists p; done|]. by intros (q' & [_ <-] & H).
  - rewrite IH. split; [intros (H1 & H2 & H3 & q' & H4 & H5); exists q'; done|]. intros (q' & (H1 & H2 & H3 & H4) & H5). eauto 10.
Qed.

Lemma lay_end m a p bs b q : lay m a p bs b q → b = endof a bs ∧ sized bs.
Proof.
  revert a p. induction bs as [|[k u] bs IH]; intros a p; cbn; [intros [-> _]; split; [done|constructor]|].
  intros (H1 & _ & _ & H). apply IH in H as [-> H]. split; [done|]. by constructor.
Qed.

Lemma endof_ge a bs : sized bs → a ≤ endof a bs ∧ a + 16 * Z.of_nat (length bs) ≤ endof a bs.
Proof.
  intros H. revert a. induction H as [|[k u] bs Hk Hbs IH]; intros a; cbn [endof length]; [lia|]. cbn in Hk. specialize (IH (a + 8 * (k + 1))). lia.
Qed.

Lemma lay_frame m m' a p bs b q : lay m a p bs b q → (∀ x, a ≤ x < b → m' !! x = m !! x) → lay m' a p bs b q.
Proof.
  revert a p. induction bs as [|[k u] bs IH]; intros a p; cbn; [done|]. intros (H1 & [H2 H3] & H4 & H5) Hx.
  pose proof (lay_end _ _ _ _ _ _ H5) as [-> Hs]. pose proof (endof_ge (a + 8 * (k + 1)) bs Hs). split; [done|].
  split; [split; rewrite Hx by lia; done|]. split; [intros x Hr Hm; rewrite Hx by lia; by apply H4|]. apply IH; [done|]. intros x Hr. apply Hx. lia.
Qed.

(** The back pointer of the first block is all that the blocks know of what is
    before them. *)
Lemma lay_prev m m' a p p' bs b q :
  lay m a p bs b q → (bs ≠ [] → m' !! a = Some (p' * 8 + 2)) → (∀ x, a + 4 ≤ x < b → m' !! x = m !! x) →
  ∃ q', lay m' a p' bs b q'.
Proof.
  destruct bs as [|[k u] bs]; cbn; [intros [-> _] _ _; by exists p'|]. intros (H1 & [H2 H3] & H4 & H5) Hp Hx.
  pose proof (lay_end _ _ _ _ _ _ H5) as [-> Hs]. pose proof (endof_ge (a + 8 * (k + 1)) bs Hs). exists q. split; [done|].
  split; [split; [by apply Hp|rewrite Hx by lia; done]|]. split; [intros x Hr Hm; rewrite Hx by lia; by apply H4|].
  eapply lay_frame; [exact H5|]. intros x Hr. apply Hx. lia.
Qed.

Lemma used_range a bs p n : sized bs → (p, n) ∈ used a bs → a + 8 ≤ p ∧ 8 ≤ n ∧ p + n ≤ endof a bs.
Proof.
  intros Hs. revert a. induction Hs as [|[k u] bs Hk Hbs IH]; intros a; cbn; [intros H; by apply elem_of_nil in H|]. cbn in Hk. pose proof (endof_ge (a + 8 * (k + 1)) bs Hbs).
  rewrite elem_of_app. intros [H1|H1]; [destruct u; [|by apply elem_of_nil in H1]; apply list_elem_of_singleton in H1; simplify_eq; lia|].
  apply IH in H1. lia.
Qed.

Lemma used_split a bs p n : (p, n) ∈ used a bs → ∃ b1 k b2, bs = b1 ++ (k, true) :: b2 ∧ p = endof a b1 + 8 ∧ n = 8 * k.
Proof.
  revert a. induction bs as [|[k u] bs IH]; intros a; cbn; [intros H; by apply elem_of_nil in H|]. rewrite elem_of_app. intros [H1|H1].
  - destruct u; [|by apply elem_of_nil in H1]. apply list_elem_of_singleton in H1. simplify_eq. exists [], k, bs. done.
  - apply IH in H1 as (b1 & k' & b2 & -> & -> & ->). exists ((k, u) :: b1), k', b2. done.
Qed.

(** Blocks in use do not meet. *)
Lemma used_disjoint a bs p n q k x : sized bs → (p, n) ∈ used a bs → (q, k) ∈ used a bs → p ≤ x < p + n → q ≤ x < q + k → p = q.
Proof.
  intros Hs. revert a. induction Hs as [|[j u] bs Hj Hbs IH]; intros a; cbn; [intros H; by apply elem_of_nil in H|]. cbn in Hj. rewrite !elem_of_app.
  intros [H1|H1] [H2|H2] Hx Hy; try (destruct u; [|by apply elem_of_nil in H1 || apply elem_of_nil in H2]);
    repeat match goal with H : _ ∈ [_] |- _ => apply list_elem_of_singleton in H; simplify_eq end; try done;
    repeat match goal with H : _ ∈ used _ _ |- _ => pose proof (used_range _ _ _ _ Hbs H); revert H end; intros; try lia. by eapply IH.
Qed.

(** ** Fields *)

Lemma div8 p c : 0 ≤ c < 8 → (p * 8 + c) / 8 = p.
Proof. intros. dlia. Qed.
Lemma w1_inuse k u : ((k * 8 + ub u + 2) / 4) mod 2 = if u then 1 else 0.
Proof. destruct u; unfold ub; dlia. Qed.
Lemma w1_div k u : (k * 8 + ub u + 2) / 8 = k.
Proof. destruct u; unfold ub; dlia. Qed.
Lemma w1_mod k u : (k * 8 + ub u + 2) mod 4 = 2.
Proof. destruct u; unfold ub; dlia. Qed.
Lemma set_prev_word v p : 0 ≤ v < 536870912 → field29 v (p * 8 + 2) = v * 8 + 2.
Proof. intros. unfold field29. rewrite (Z.mod_small v) by lia. dlia. Qed.
Lemma set_next_word v k u : 0 ≤ v < 536870912 → field29 v (k * 8 + ub u + 2) = v * 8 + ub u + 2.
Proof. intros. unfold field29. rewrite (Z.mod_small v) by lia. destruct u; unfold ub; dlia. Qed.
Lemma set_inuse_word b k u : field1 (if b : bool then 1 else 0) (k * 8 + ub u + 2) = k * 8 + ub b + 2.
Proof. unfold field1. destruct u, b; unfold ub; dlia. Qed.
Lemma new_w0 v w : 0 ≤ v < 536870912 → field2 2 (field1 0 (field29 v w)) = v * 8 + 2.
Proof. intros. unfold field2, field1, field29. rewrite (Z.mod_small v) by lia. dlia. Qed.
Lemma new_w0' v w : 0 ≤ v < 536870912 → field1 0 (field2 2 (field29 v w)) = v * 8 + 2.
Proof. intros. unfold field2, field1, field29. rewrite (Z.mod_small v) by lia. dlia. Qed.
Lemma new_w1 v w : 0 ≤ v < 536870912 → field2 2 (field1 0 (field29 v w)) = v * 8 + ub false + 2.
Proof. intros. rewrite new_w0 by done. unfold ub. lia. Qed.
Lemma new_w1' v w : 0 ≤ v < 536870912 → field29 v (field1 1 (field2 2 w)) = v * 8 + ub true + 2.
Proof. intros. unfold field2, field1, field29, ub. rewrite (Z.mod_small v) by lia. dlia. Qed.

(** What the allocator relies on: the break moves by what was asked, or not. *)
Class BreakSpec (K : Type) `{Break K} := {
  brk : K → Z;
  law_brk k : 0 < brk k ≤ 2147483648;
  law_sbrk n k a k' : 0 ≤ n → sbrk n k = (Some a, k') → a = brk k ∧ brk k' = brk k + n;
  law_sbrk_err n k k' : sbrk n k = (None, k') → brk k' = brk k;
  law_sbrk_0 k : ∃ k', sbrk 0 k = (Some (brk k), k')
}.

Section rules.
Context {K : Type} `{BreakSpec K}.
Implicit Types (h : uheap K) (m : gmap Z Z).

Lemma wpe_ldw a v h Q : umem h !! a = Some v → Q (inr v) h → wpe (ldw a) Q h.
Proof. intros E HQ. unfold wpe, ldw. by rewrite E. Qed.
Lemma wpe_stw a v h Q : is_Some (umem h !! a) → Q (inr tt) (set_umem (<[a := v]> (umem h)) h) → wpe (stw a v) Q h.
Proof. intros [w E] HQ. unfold wpe, stw. by rewrite E. Qed.

(** Changing a word: the value there decides the new one. *)
Lemma wpe_upd a w f h Q : umem h !! a = Some w → Q (inr tt) (set_umem (<[a := f w]> (umem h)) h) → wpe (w ← ldw a; stw a (f w)) Q h.
Proof. intros E HQ. apply wpe_bind. eapply wpe_ldw; [exact E|]. apply wpe_stw; [by rewrite E|done]. Qed.

Lemma wpe_assoc {A B C} (c : EM (uheap K) A) (f : A → EM (uheap K) B) (g : B → EM (uheap K) C) Q h :
  wpe (x ← (y ← c; f y); g x) Q h → wpe (y ← c; x ← f y; g x) Q h.
Proof. unfold wpe, mbind, EM_mbind. by destruct (c h) as [[[e|x] h']| | |]. Qed.

Section header.
Context (h : uheap K) (a p k : Z) (u : bool) (Hh : hdr (umem h) a p k u).

Lemma wpe_prevblock Q : Q (inr p) h → wpe (mh_prevblock a) Q h.
Proof. intros HQ. apply wpe_bind. eapply wpe_ldw; [apply Hh|]. apply wpe_ret. by rewrite div8 by lia. Qed.
Lemma wpe_nextblock Q : Q (inr (k + 1)) h → wpe (mh_nextblock a) Q h.
Proof. intros HQ. apply wpe_bind. eapply wpe_ldw; [apply Hh|]. apply wpe_ret. by rewrite w1_div. Qed.
Lemma wpe_inuse Q : Q (inr u) h → wpe (mh_inuse a) Q h.
Proof. intros HQ. apply wpe_bind. eapply wpe_ldw; [apply Hh|]. apply wpe_ret. rewrite w1_inuse. by destruct u. Qed.
Lemma wpe_OK Q : Q (inr true) h → wpe (M_OK a) Q h.
Proof.
  intros HQ. apply wpe_bind, wpe_bind. eapply wpe_ldw; [apply Hh|]. apply wpe_ret. replace ((p * 8 + 2) mod 4) with 2 by dlia. cbn [Z.eqb MMAGIC Pos.eqb].
  apply wpe_bind, wpe_bind. eapply wpe_ldw; [apply Hh|]. do 2 apply wpe_ret. by rewrite w1_mod.
Qed.

Context (Ha : 0 ≤ a) (Hk : 0 ≤ k) (Hend : a + 8 * (k + 1) ≤ 2147483648).

Lemma wpe_NEXTOFF Q : Q (inr (8 * (k + 1))) h → wpe (M_NEXTOFF a) Q h.
Proof. intros HQ. apply wpe_bind, wpe_nextblock, wpe_ret. rewrite u32_id by (unfold is_u32; lia). by replace ((k + 1) * 8) with (8 * (k + 1)) by lia. Qed.
Lemma wpe_NEXT Q : Q (inr (a + 8 * (k + 1))) h → wpe (M_NEXT a) Q h.
Proof. intros HQ. apply wpe_bind, wpe_NEXTOFF, wpe_ret. by rewrite u32_id by (unfold is_u32; lia). Qed.
Lemma wpe_SIZE Q : Q (inr (8 * k)) h → wpe (M_SIZE a) Q h.
Proof. intros HQ. apply wpe_bind, wpe_NEXTOFF, wpe_ret. unfold MBLOCKSIZE. replace (8 * (k + 1) - 8) with (8 * k) by lia. by rewrite u32_id by (unfold is_u32; lia). Qed.
Lemma wpe_PREV Q : 0 ≤ p → 0 ≤ a - 8 * p → Q (inr (a - 8 * p)) h → wpe (M_PREV a) Q h.
Proof.
  intros Hp Hap HQ. apply wpe_bind, wpe_bind, wpe_prevblock, wpe_ret, wpe_ret. replace (p * 8) with (8 * p) by lia. by rewrite !(u32_id (_ * _)), u32_id by (unfold is_u32; lia).
Qed.

Lemma wpe_set_prev v Q : 0 ≤ v < 536870912 → Q (inr tt) (set_umem (<[a := v * 8 + 2]> (umem h)) h) → wpe (set_prevblock a v) Q h.
Proof. intros Hv HQ. eapply wpe_upd; [apply Hh|]. by rewrite set_prev_word. Qed.
Lemma wpe_set_next v Q : 0 ≤ v < 536870912 → Q (inr tt) (set_umem (<[a + 4 := v * 8 + ub u + 2]> (umem h)) h) → wpe (set_nextblock a v) Q h.
Proof. intros Hv HQ. eapply wpe_upd; [apply Hh|]. by rewrite set_next_word. Qed.
Lemma wpe_set_inuse b Q : Q (inr tt) (set_umem (<[a + 4 := (k + 1) * 8 + ub b + 2]> (umem h)) h) → wpe (set_inuse a (if b : bool then 1 else 0)) Q h.
Proof. intros HQ. eapply wpe_upd; [apply Hh|]. by rewrite set_inuse_word. Qed.
End header.

Lemma set_umem_twice m m' h : set_umem m (set_umem m' h) = set_umem m h.
Proof. done. Qed.

(** A header where there was none. *)
Lemma wpe_new_w0 {A} a v h (c : EM (uheap K) A) Q :
  is_Some (umem h !! a) → 0 ≤ v < 536870912 → wpe c Q (set_umem (<[a := v * 8 + 2]> (umem h)) h) →
  wpe (_ ← set_prevblock a v; _ ← set_pad a 0; _ ← set_magic1 a MMAGIC; c) Q h.
Proof.
  intros [w E] Hv HQ. do 3 (apply wpe_bind; eapply wpe_upd; [first [exact E|apply lookup_insert_eq]|]).
  cbn [umem set_umem]. rewrite !insert_insert_eq. unfold MMAGIC. rewrite new_w0 by done. exact HQ.
Qed.

Lemma wpe_new_w1 {A} a v h (c : EM (uheap K) A) Q :
  is_Some (umem h !! (a + 4)) → 0 ≤ v < 536870912 → wpe c Q (set_umem (<[a + 4 := v * 8 + ub false + 2]> (umem h)) h) →
  wpe (_ ← set_nextblock a v; _ ← set_inuse a 0; _ ← set_magic2 a MMAGIC; c) Q h.
Proof.
  intros [w E] Hv HQ. do 3 (apply wpe_bind; eapply wpe_upd; [first [exact E|apply lookup_insert_eq]|]).
  cbn [umem set_umem]. rewrite !insert_insert_eq. unfold MMAGIC. rewrite new_w1 by done. exact HQ.
Qed.
End rules.

(** Changing the blocks in the middle. *)
Lemma lay_replace m m' base b1 mid mid' b2 top q p p' a e :
  lay m base 0 (b1 ++ mid ++ b2) top q → a = endof base b1 → e = endof a mid → lay m base 0 b1 a p →
  (∀ x, x < a ∨ e + 4 ≤ x → m' !! x = m !! x) → lay m' a p mid' e p' → (b2 ≠ [] → m' !! e = Some (p' * 8 + 2)) →
  ∃ q', lay m' base 0 (b1 ++ mid' ++ b2) top q'.
Proof.
  intros Hl -> -> Hb1 Hx Hmid He. apply lay_app in Hl as (p1 & _ & Hl). apply lay_app in Hl as (p2 & _ & Hl).
  destruct (lay_prev m m' _ p2 p' b2 top q Hl He) as [q' Hq']; [intros x Hr; apply Hx; lia|]. exists q'. apply lay_app. exists p. split.
  - eapply lay_frame; [exact Hb1|]. intros x Hr. apply Hx. lia.
  - apply lay_app. exists p'. pose proof (lay_end _ _ _ _ _ _ Hmid) as [E _]. rewrite <- E. done.
Qed.

(** A back pointer is how far the header before is. *)
Lemma lay_back m base b1 a p : lay m base 0 b1 a p → 0 ≤ p ∧ (b1 = [] ∧ p = 0 ∨ ∃ b0 k u, b1 = b0 ++ [(k, u)] ∧ p = k + 1 ∧ a = endof base b0 + 8 * p).
Proof.
  destruct b1 as [|[k u] b0 _] using rev_ind; [intros [_ <-]; split; [done|by left]|]. intros Hl. pose proof (lay_end _ _ _ _ _ _ Hl) as [E Hs].
  apply lay_app in Hl as (q' & _ & Hk & _ & _ & Ha & Hp). split; [lia|]. right. exists b0, k, u. split; [done|]. split; [lia|]. lia.
Qed.

Lemma lay_same m base b1 a p p' : lay m base 0 b1 a p → lay m base 0 b1 a p' → p = p'.
Proof.
  intros H1 H2. destruct (lay_back _ _ _ _ _ H1) as [_ [[-> ->]|(b0 & j & v & -> & -> & _)]]; [by destruct H2|].
  destruct (lay_back _ _ _ _ _ H2) as [_ [[? _]|(b0' & j' & v' & E & -> & _)]]; [by destruct b0|]. apply app_inj_tail in E as [_ E]. congruence.
Qed.

Lemma map_words_out n a f m x : x < a ∨ a + 4 * Z.of_nat n ≤ x → map_words n a f m !! x = m !! x.
Proof. revert a. induction n as [|n IH]; intros a Hx; cbn [map_words]; [done|]. rewrite lookup_insert_ne by lia. apply IH. lia. Qed.

Lemma map_words_in n a f m : mapped (map_words n a f m) a (4 * Z.of_nat n).
Proof.
  revert a. induction n as [|n IH]; intros a x Hx Hmod; [lia|]. cbn [map_words]. destruct (decide (a = x)) as [->|Hne]; [rewrite lookup_insert_eq; by eexists|].
  rewrite lookup_insert_ne by done. apply IH; [|dlia]. destruct (decide (x < a + 4)); [|lia]. exfalso. dlia.
Qed.

Lemma round8 x : is_u32 x → Z.land x 4294967288 = 8 * (x / 8).
Proof.
  intros Hx. replace (8 * (x / 8)) with (Z.shiftl (Z.shiftr x 3) 3) by (rewrite Z.shiftl_mul_pow2, Z.shiftr_div_pow2 by lia; change (2 ^ 3) with 8; lia).
  apply Z.bits_inj'. intros n Hn. rewrite Z.land_spec. change 4294967288 with (Z.shiftl (Z.ones 29) 3). rewrite !Z.shiftl_spec by lia.
  destruct (Z.ltb_spec n 3); [rewrite !(Z.testbit_neg_r _ (n - 3)) by lia; apply andb_false_r|]. rewrite Z.shiftr_spec by lia. replace (n - 3 + 3) with n by lia.
  destruct (Z.ltb_spec n 32); [rewrite Z.ones_spec_low by lia; apply andb_true_r|]. rewrite Z.ones_spec_high by lia. rewrite andb_false_r. symmetry.
  destruct (Z.eq_dec x 0) as [->|]; [apply Z.bits_0|]. apply Z.bits_above_log2; [unfold is_u32 in Hx; lia|]. apply Z.lt_le_trans with 32; [|lia].
  apply Z.log2_lt_pow2; unfold is_u32 in Hx; lia.
Qed.

Section heap.
Context {K : Type} `{BreakSpec K}.
Implicit Types (h : uheap K) (m : gmap Z Z) (bs : list blk).

Record heap_ok bs h : Prop := {
  ho_base : 0 < heapbase h;
  ho_align : heapbase h mod 8 = 0;
  ho_brk : brk (ubrk h) = heaptop h;
  ho_lay : ∃ q, lay (umem h) (heapbase h) 0 bs (heaptop h) q
}.

Lemma heap_end bs h : heap_ok bs h → heaptop h = endof (heapbase h) bs ∧ sized bs ∧ heaptop h ≤ 2147483648.
Proof. intros [_ _ Hb [q Hl]]. destruct (lay_end _ _ _ _ _ _ Hl) as [? ?]. pose proof (law_brk (ubrk h)). split; [done|]. split; [done|]. lia. Qed.

Lemma heap_ok_mem bs bs' h m' : heap_ok bs h → (∃ q, lay m' (heapbase h) 0 bs' (heaptop h) q) → heap_ok bs' (set_umem m' h).
Proof. intros [? ? ? _] ?. by split. Qed.

(** One block of a heap. *)
Record at_block b1 k (u : bool) b2 h (a p : Z) : Prop := {
  ab_addr : a = endof (heapbase h) b1;
  ab_before : lay (umem h) (heapbase h) 0 b1 a p;
  ab_hdr : hdr (umem h) a p k u;
  ab_map : mapped (umem h) (a + 8) (8 * k);
  ab_k : 1 ≤ k;
  ab_p : 0 ≤ p;
  ab_a : 0 < a;
  ab_end : a + 8 * (k + 1) ≤ heaptop h;
  ab_top : heaptop h ≤ 2147483648;
  ab_last : a + 8 * (k + 1) = heaptop h ↔ b2 = [];
  ab_after : ∃ q, lay (umem h) (a + 8 * (k + 1)) (k + 1) b2 (heaptop h) q
}.

Lemma heap_at b1 k u b2 h : heap_ok (b1 ++ (k, u) :: b2) h → ∃ p, at_block b1 k u b2 h (endof (heapbase h) b1) p.
Proof.
  intros HO. destruct (heap_end _ _ HO) as (Ht & Hs & Htop). destruct HO as [Hb _ _ [q Hl]]. pose proof Hl as Hl'. apply lay_app in Hl as (p & H1 & Hk & Hh & Hm & H2).
  exists p. rewrite endof_app in Ht. cbn [endof] in Ht. pose proof (lay_end _ _ _ _ _ _ H1) as [_ Hs1]. pose proof (lay_end _ _ _ _ _ _ H2) as [_ Hs2].
  pose proof (endof_ge (heapbase h) b1 Hs1). pose proof (endof_ge (endof (heapbase h) b1 + 8 * (k + 1)) b2 Hs2) as [? Hl2]. pose proof (lay_back _ _ _ _ _ H1) as [Hp _].
  split; try done; try lia; [|by exists q]. split; [intros E; rewrite Ht in E; destruct b2; [done|]; simpl length in Hl2; lia|]. intros ->. by rewrite Ht.
Qed.

(** The next header says where this block begins. *)
Lemma at_next b1 k u b2 h a p : at_block b1 k u b2 h a p → b2 ≠ [] → umem h !! (a + 8 * (k + 1)) = Some ((k + 1) * 8 + 2).
Proof. intros HA Hne. destruct (ab_after _ _ _ _ _ _ _ HA) as [q Hl]. destruct b2 as [|[j v] b2]; [done|]. by destruct Hl as (_ & [? _] & _). Qed.

Lemma mapped_sub m m' a n b k : mapped m a n → a ≤ b → b + k ≤ a + n → (b - a) mod 4 = 0 → (∀ x, b ≤ x < b + k → is_Some (m !! x) → is_Some (m' !! x)) → mapped m' b k.
Proof. intros Hm H1 H2 H3 Hx x Hr Hmod. apply Hx; [done|]. apply Hm; [lia|]. dlia. Qed.

Lemma mapped_insert m a n x v : mapped m a n → mapped (<[x := v]> m) a n.
Proof. intros Hm y Hy Hmod. destruct (decide (x = y)) as [->|]; [rewrite lookup_insert_eq; by eexists|]. rewrite lookup_insert_ne by done. by apply Hm. Qed.

Ltac lk := repeat first [rewrite lookup_insert_eq|rewrite lookup_insert_ne by lia].

Lemma split_spec b1 k b2 h ks a :
  heap_ok (b1 ++ (k, false) :: b2) h → a = endof (heapbase h) b1 → 1 ≤ ks ≤ k →
  wpe (__malloc_split a (8 * ks)) (λ r h', r = inr tt ∧ ∃ m' k1 bf, h' = set_umem m' h ∧ ks ≤ k1 ∧ heap_ok (b1 ++ ((k1, false) :: bf) ++ b2) h' ∧
    endof a ((k1, false) :: bf) = a + 8 * (k + 1) ∧ used (a + 8 * (k1 + 1)) bf = [] ∧ ∀ x, x < a ∨ a + 8 * (k + 1) + 4 ≤ x → m' !! x = umem h !! x) h.
Proof.
  intros HO -> Hks. destruct (heap_at _ _ _ _ _ HO) as [p HA]. set (a := endof (heapbase h) b1) in *. set (e := a + 8 * (k + 1)).
  destruct HA as [_ A1 A2 A3 A4 A5 A6 A7 A8 A9 [q A10]]. unfold __malloc_split, MBLOCKSIZE, M_MKFIELD.
  replace (8 * ks mod 8 =? 0) with true by (symmetry; apply Z.eqb_eq; dlia). cbn [negb]. apply wpe_bind. eapply wpe_SIZE; [exact A2|lia..|].
  rewrite u32_id by (unfold is_u32; lia). destruct (Z.ltb_spec (8 * k - 8 * ks) (2 * 8)) as [Hs|Hs].
  { apply wpe_ret. split; [done|]. exists (umem h), k, []. split; [by destruct h|]. split; [lia|]. split; [by destruct h|]. done. }
  apply wpe_bind. eapply wpe_NEXT; [exact A2|lia..|]. apply wpe_bind. eapply wpe_SIZE; [exact A2|lia..|].
  rewrite !(u32_id (8 * ks + 8)), (u32_id (8 * k - 8 * ks)) by (unfold is_u32; lia).
  replace ((8 * ks + 8) / 8) with (ks + 1) by dlia. replace ((8 * k - 8 * ks) / 8) with (k - ks) by dlia.
  apply wpe_bind. eapply wpe_set_next; [exact A2|lia|]. set (m1 := <[a + 4 := (ks + 1) * 8 + ub false + 2]> (umem h)).
  assert (hdr m1 a p ks false) as Hh1 by (split; unfold m1; lk; [apply A2|done]).
  apply wpe_bind. eapply (wpe_NEXT (set_umem m1 h)); [exact Hh1|lia..|]. set (n := a + 8 * (ks + 1)).
  rewrite (proj2 (Z.eqb_neq n _)) by (unfold n; lia).
  assert (∀ x, a + 8 ≤ x < e → (x - (a + 8)) mod 4 = 0 → is_Some (m1 !! x)) as Hm1.
  { intros x Hx Hmod. unfold m1. lk. apply A3; [unfold e in *; lia|done]. }
  apply wpe_new_w0; [apply Hm1; unfold n, e in *; [lia|dlia]|lia|]. rewrite set_umem_twice. cbn [umem set_umem]. set (m2 := <[n := (ks + 1) * 8 + 2]> m1).
  apply wpe_new_w1; [cbn [umem set_umem]; unfold m2; lk; apply Hm1; unfold n, e in *; [lia|dlia]|lia|]. rewrite set_umem_twice. cbn [umem set_umem].
  set (m3 := <[n + 4 := (k - ks) * 8 + ub false + 2]> m2).
  assert (hdr m3 n (ks + 1) (k - ks - 1) false) as Hh2 by (split; unfold m3, m2; lk; [done|f_equal; lia]).
  assert (hdr m3 a p ks false) as Hh3 by (split; unfold m3, m2; unfold n; lk; apply Hh1).
  assert (∀ x, x < a ∨ e ≤ x → m3 !! x = umem h !! x) as Hout by (intros x Hx; unfold m3, m2, m1, n, e in *; lk; done).
  assert (mapped m3 (a + 8) (8 * k)) as Hm3 by (by repeat apply mapped_insert).
  assert (lay m3 a p [(ks, false); (k - ks - 1, false)] e (k - ks)) as Hmid.
  { cbn [lay]. split; [lia|]. split; [done|]. split; [eapply mapped_sub; [exact Hm3|lia|lia|dlia|done]|]. fold n. split; [lia|]. split; [done|].
    split; [eapply mapped_sub; [exact Hm3|unfold n; lia|unfold n; lia|unfold n; dlia|done]|]. unfold n, e. lia. }
  apply wpe_bind, wpe_get. change (heaptop (set_umem m3 h)) with (heaptop h). fold e. destruct HO as [O1 O2 O3 [q0 O4]].
  assert (∀ m', (∀ x, x < a ∨ e + 4 ≤ x → m' !! x = umem h !! x) → lay m' a p [(ks, false); (k - ks - 1, false)] e (k - ks) → (b2 ≠ [] → m' !! e = Some ((k - ks) * 8 + 2)) →
    ∃ m'' k1 bf, set_umem m' (set_umem m3 h) = set_umem m'' h ∧ ks ≤ k1 ∧ heap_ok (b1 ++ ((k1, false) :: bf) ++ b2) (set_umem m' (set_umem m3 h)) ∧
    endof a ((k1, false) :: bf) = e ∧ used (a + 8 * (k1 + 1)) bf = [] ∧ ∀ x, x < a ∨ e + 4 ≤ x → m'' !! x = umem h !! x) as Hfin.
  { intros m' Hx Hl He. exists m', ks, [(k - ks - 1, false)]. split; [done|]. split; [lia|]. split; [|split; [cbn; unfold e; lia|done]].
    split; [done..|]. eapply (lay_replace (umem h) m' _ b1 [(k, false)] [(ks, false); (k - ks - 1, false)] b2 _ q0 p (k - ks) a e); try done. }
  destruct (Z.eqb_spec e (heaptop h)) as [Et|Et]; cbn [negb].
  - apply wpe_ret. split; [done|]. apply (Hfin m3); [intros x Hx; apply Hout; lia|done|]. intros Hb. by apply A9 in Et.
  - apply wpe_bind. eapply (wpe_nextblock (set_umem m3 h)); [exact Hh2|]. assert (b2 ≠ []) as Hb2 by (intros E; by apply A9 in E).
    assert (m3 !! e = Some ((k + 1) * 8 + 2)) as He by (rewrite Hout by lia; destruct b2 as [|[j v] b2]; [done|]; destruct A10 as (_ & [? _] & _); done).
    eapply wpe_upd; [exact He|]. rewrite set_prev_word by lia. cbn [umem set_umem]. split; [done|]. apply Hfin.
    + intros x Hx. unfold e in *. lk. apply Hout. lia.
    + eapply lay_frame; [exact Hmid|]. intros x Hx. lk. done.
    + intros _. lk. do 2 f_equal. lia.
Qed.

(** The block [ptr] of at least [ks] units is new among those in use, whose
    words are as before. *)
Definition got bs h (ptr ks : Z) (h' : uheap K) : Prop :=
  ∃ bs' k1, heap_ok bs' h' ∧ heapbase h' = heapbase h ∧ ks ≤ k1 ∧ ptr ≠ 0 ∧
    (∀ n, (ptr, n) ∉ used (heapbase h) bs) ∧
    (∀ y, y ∈ used (heapbase h) bs' ↔ y ∈ used (heapbase h) bs ∨ y = (ptr, 8 * k1)) ∧
    ∀ q n x, (q, n) ∈ used (heapbase h) bs → q ≤ x < q + n → umem h' !! x = umem h !! x.

(** Nothing in use begins in a free block. *)
Lemma used_free base b1 k b2 : sized (b1 ++ (k, false) :: b2) →
  1 ≤ k ∧ ∀ q n, (q, n) ∈ used base (b1 ++ (k, false) :: b2) → 8 ≤ n ∧ (q + n ≤ endof base b1 ∨ endof base b1 + 8 * (k + 1) + 8 ≤ q).
Proof.
  intros Hs. apply Forall_app in Hs as [Hs1 Hs2]. apply Forall_cons in Hs2 as [Hk Hs2]. split; [done|]. intros q n. rewrite used_app. cbn [used app]. rewrite elem_of_app. intros [Hq|Hq].
  - apply used_range in Hq; [lia|done].
  - apply used_range in Hq; [lia|done].
Qed.

Lemma take_spec b1 k b2 h ks a :
  heap_ok (b1 ++ (k, false) :: b2) h → a = endof (heapbase h) b1 → 1 ≤ ks ≤ k →
  wpe (_ ← __malloc_split a (8 * ks); _ ← set_inuse a 1; mret (inl (M_DATA a)))
    (λ r h', r = inr (inl (a + 8) : Z + Z) ∧ heaptop h' = heaptop h ∧ got (b1 ++ (k, false) :: b2) h (a + 8) ks h') h.
Proof.
  intros HO Ha Hks. apply wpe_bind. eapply wpe_mono; [by eapply split_spec|]. intros r h1 (-> & m1 & k1 & bf & -> & Hk1 & HO1 & He & Hfree & Hx).
  pose proof (heap_end _ _ HO) as (_ & Hs & _). pose proof (used_free (heapbase h) b1 k b2 Hs) as [Hk Hu]. rewrite <- Ha in Hu.
  destruct (heap_at _ _ _ _ _ HO1) as [p HA]. cbn [heapbase set_umem] in HA. rewrite <- Ha in HA. pose proof HA as [_ A1 A2 A3 A4 A5 A6 A7 A8 A9 A10].
  cbn [umem set_umem heaptop heapbase] in *. apply wpe_bind. eapply (wpe_set_inuse (set_umem m1 h) a p k1 false A2 true). rewrite set_umem_twice. cbn [umem set_umem].
  set (m2 := <[a + 4 := (k1 + 1) * 8 + ub true + 2]> m1). apply wpe_ret. unfold M_DATA, MBLOCKSIZE. rewrite u32_id by (unfold is_u32; lia). split; [done|]. split; [done|].
  exists (b1 ++ (k1, true) :: bf ++ b2), k1. split; [|split; [done|split; [done|split; [lia|split; [|split]]]]].
  - eapply (heap_ok_mem (b1 ++ (k, false) :: b2)); [done|]. destruct HO1 as [_ _ _ [q0 O4]]. cbn [umem set_umem heapbase heaptop] in O4.
    destruct (lay_replace m1 m2 (heapbase h) b1 [(k1, false)] [(k1, true)] (bf ++ b2) (heaptop h) q0 p (k1 + 1) a (a + 8 * (k1 + 1))) as [q' Hq']; [done|done|done|done| | | |by exists q'].
    + intros x Hr. unfold m2. lk. done.
    + cbn [lay]. split; [done|]. split; [split; unfold m2; lk; [apply A2|done]|]. split; [by apply mapped_insert|]. done.
    + intros Hne. unfold m2. lk. by apply (at_next _ _ _ _ _ _ _ HA).
  - intros n Hn. apply Hu in Hn. lia.
  - intros y. rewrite !used_app. cbn [used app]. rewrite <- Ha, used_app, Hfree. cbn [endof] in He. rewrite He. cbn [app].
    rewrite !elem_of_app, elem_of_cons. tauto.
  - intros q n x Hq Hr. apply Hu in Hq. unfold m2. cbn [umem set_umem]. lk. apply Hx. lia.
Qed.

Lemma search_spec f b1 b2 h a p ks :
  heap_ok (b1 ++ b2) h → a = endof (heapbase h) b1 → lay (umem h) (heapbase h) 0 b1 a p → (length b2 < f)%nat → 1 ≤ ks →
  wpe (malloc_search f (8 * ks) a p) (λ r h',
    (∃ ptr, r = inr (inl ptr) ∧ heaptop h' = heaptop h ∧ got (b1 ++ b2) h ptr ks h') ∨
    (∃ q, r = inr (inr q) ∧ h' = h ∧ lay (umem h) (heapbase h) 0 (b1 ++ b2) (heaptop h) q)) h.
Proof.
  revert b1 b2 a p. induction f as [|f IH]; intros b1 b2 a p HO Ha Hl Hf Hks; [lia|]. cbn [malloc_search]. apply wpe_bind, wpe_get.
  destruct (heap_end _ _ HO) as (Ht & Hs & Htop). destruct b2 as [|[k u] b2].
  { rewrite app_nil_r in *. rewrite <- Ha in Ht. rewrite Ht, Z.ltb_irrefl, Z.eqb_refl. cbn [negb]. apply wpe_ret. right. exists p. done. }
  destruct (heap_at _ _ _ _ _ HO) as [p' HA]. rewrite <- Ha in HA. pose proof HA as [_ A1 A2 A3 A4 A5 A6 A7 A8 A9 A10].
  assert (p' = p) as -> by (eapply lay_same; [exact A1|exact Hl]).
  rewrite (proj2 (Z.ltb_lt a _)) by lia. apply wpe_bind. eapply wpe_OK; [exact A2|]. cbn [negb]. apply wpe_bind. eapply wpe_prevblock; [exact A2|]. rewrite Z.eqb_refl. cbn [negb].
  apply wpe_bind. eapply wpe_nextblock; [exact A2|]. apply wpe_bind. eapply wpe_inuse; [exact A2|].
  assert (wpe (off ← M_NEXTOFF a; malloc_search f (8 * ks) (u32 (a + off)) (k + 1)) (λ r h',
    (∃ ptr, r = inr (inl ptr) ∧ heaptop h' = heaptop h ∧ got (b1 ++ (k, u) :: b2) h ptr ks h') ∨
    (∃ q, r = inr (inr q) ∧ h' = h ∧ lay (umem h) (heapbase h) 0 (b1 ++ (k, u) :: b2) (heaptop h) q)) h) as Hnext.
  { apply wpe_bind. eapply wpe_NEXTOFF; [exact A2|lia..|]. rewrite u32_id by (unfold is_u32; lia). change ((k, u) :: b2) with ([(k, u)] ++ b2) in *. rewrite app_assoc in *.
    apply IH; [done|rewrite endof_app; cbn; lia| |simpl in Hf; lia|done]. apply lay_app. exists p. rewrite <- Ha. split; [done|]. cbn [lay]. done. }
  destruct u; [exact Hnext|]. apply wpe_bind. eapply wpe_SIZE; [exact A2|lia..|]. destruct (Z.ltb_spec (8 * k) (8 * ks)); [exact Hnext|].
  eapply wpe_mono; [eapply take_spec; [done|done|lia]|]. intros r h' (-> & Ht' & Hg). left. eauto.
Qed.

(** The heap before the first call. *)
Record uninit h : Prop := { ui_base : heapbase h = 0; ui_top : heaptop h = 0; ui_brk : brk (ubrk h) mod 8 = 0 }.

Lemma init_spec h : uninit h → wpe __malloc_init (λ r h', r = inr tt ∧ heap_ok [] h') h.
Proof.
  intros [Hb Ht Hk]. unfold __malloc_init. apply wpe_bind, wpe_get. rewrite Hb, Ht. cbn [negb Z.eqb orb]. apply wpe_bind. destruct (law_sbrk_0 (ubrk h)) as [k' E].
  destruct (law_sbrk _ _ _ _ (Z.le_refl 0) E) as [_ Hk']. rewrite Z.add_0_r in Hk'. eapply wpe_intro; [unfold do_sbrk; change (s32 0) with 0; by rewrite E|]. cbv beta iota.
  pose proof (law_brk (ubrk h)). rewrite (proj2 (Z.eqb_neq _ 0)) by lia. apply wpe_bind, wpe_mod. unfold MBLOCKSIZE. rewrite Hk. cbn [negb Z.eqb].
  apply wpe_ret. split; [done|]. split; cbn; [lia|done|done|]. by exists 0.
Qed.

(** More memory at the top. *)
Lemma extend_spec bs h q ks :
  heap_ok bs h → lay (umem h) (heapbase h) 0 bs (heaptop h) q → 1 ≤ ks < 268435455 →
  wpe (mh ← __malloc_sbrk (u32 (8 * ks + MBLOCKSIZE));
       if mh =? 0 then mret 0 else
       _ ← set_prevblock mh q; _ ← set_magic1 mh MMAGIC; _ ← set_magic2 mh MMAGIC; _ ← set_pad mh 0; _ ← set_inuse mh 1;
       _ ← set_nextblock mh (M_MKFIELD (u32 (8 * ks + MBLOCKSIZE)));
       mret (M_DATA mh)) (λ r h', ∃ p, r = inr p ∧
    (p = 0 ∧ heap_ok bs h' ∧ heapbase h' = heapbase h ∧ umem h' = umem h ∨ got bs h p ks h')) h.
Proof.
  intros HO Hl Hks. pose proof HO as [O1 O2 O3 _]. destruct (heap_end _ _ HO) as (Ht & Hs & Htop). destruct (lay_back _ _ _ _ _ Hl) as [Hq Hback].
  assert (q < 536870912) as Hq'.
  { destruct Hback as [[_ ->]|(b0 & j & v & -> & -> & E)]; [lia|]. apply Forall_app in Hs as [Hs0 _]. pose proof (endof_ge (heapbase h) b0 Hs0). lia. }
  unfold MBLOCKSIZE, M_MKFIELD. rewrite u32_id by (unfold is_u32; lia). apply wpe_bind. unfold __malloc_sbrk. apply wpe_bind. unfold do_sbrk.
  destruct (sbrk (s32 (8 * ks + 8)) (ubrk h)) as [[x|] k'] eqn:E; (eapply wpe_intro; [by rewrite E|]); cbv beta iota.
  2: { apply wpe_ret. cbn [Z.eqb]. apply wpe_ret. exists 0. split; [done|]. left. split; [done|]. apply law_sbrk_err in E. split; [|done]. split; cbn; try done; [congruence|by exists q]. }
  rewrite s32_id in E by (unfold is_s32; lia). apply law_sbrk in E as [-> Hk']; [|lia]. rewrite O3 in *. pose proof (law_brk k') as Hlim.
  set (t := heaptop h) in *. set (m1 := map_words _ _ _ _). apply wpe_bind, wpe_get. cbn [heaptop set_top]. rewrite Z.eqb_refl. cbn [negb]. apply wpe_bind, wpe_mod, wpe_ret.
  assert (0 < t) as Htp by (pose proof (endof_ge (heapbase h) bs Hs); lia). rewrite (proj2 (Z.eqb_neq t 0)) by lia. cbn [set_top heaptop umem ubrk heapbase]. rewrite u32_id by (unfold is_u32; lia).
  assert (mapped m1 t (8 * ks + 8)) as Hm1.
  { unfold m1. replace (8 * ks + 8) with (4 * Z.of_nat (Z.to_nat ((8 * ks + 8) / 4))) at 2 by dlia. apply map_words_in. }
  assert (∀ x, x < t → m1 !! x = umem h !! x) as Hout by (intros x Hx; unfold m1; apply map_words_out; lia).
  destruct (Hm1 t ltac:(lia) ltac:(rewrite Z.sub_diag; done)) as [w0 E0]. destruct (Hm1 (t + 4) ltac:(lia) ltac:(replace (t + 4 - t) with 4 by lia; done)) as [w1 E1].
  match goal with |- wpe _ _ ?x => set (h1 := x) end. assert (umem h1 = m1) as Eh1 by done. rewrite <- Eh1 in E0, E1.
  do 6 (apply wpe_bind; eapply wpe_upd; [cbn [umem set_umem]; lk; first [exact E0|exact E1|done]|]). rewrite !set_umem_twice. cbn [umem set_umem]. rewrite Eh1.
  apply wpe_ret. unfold M_DATA, MBLOCKSIZE. rewrite u32_id by (unfold is_u32; lia). exists (t + 8). split; [done|]. right.
  replace ((8 * ks + 8) / 8) with (ks + 1) by dlia. set (m2 := <[t + 4 := _]> _).
  assert (hdr m2 t q ks true) as Hh.
  { split; unfold m2, MMAGIC; lk; f_equal; [apply new_w0'; lia|apply new_w1'; lia]. }
  assert (∀ x, x ≠ t → x ≠ t + 4 → m2 !! x = m1 !! x) as Hm2 by (intros x H1 H2; unfold m2; lk; done).
  exists (bs ++ [(ks, true)]), ks. split; [|split; [done|split; [lia|split; [lia|split; [|split]]]]].
  - split; cbn; [done|done|lia|]. exists (ks + 1). apply lay_app. exists q. rewrite <- Ht. split; [|cbn [lay]; split; [lia|split; [done|split; [|lia]]]].
    + eapply lay_frame; [exact Hl|]. intros x Hx. rewrite Hm2 by lia. apply Hout. lia.
    + eapply mapped_sub; [exact Hm1|lia|lia|replace (t + 8 - t) with 8 by lia; done|]. intros x Hx. by rewrite Hm2 by lia.
  - intros n Hn. apply used_range in Hn; [lia|done].
  - intros y. rewrite used_app, <- Ht. cbn [used app]. rewrite elem_of_app, list_elem_of_singleton. done.
  - intros q0 n x Hq0 Hx. apply used_range in Hq0; [|done]. cbn [umem set_umem h1]. rewrite Hm2 by lia. apply Hout. lia.
Qed.

Lemma search_enough bs h : heap_ok bs h → (length bs < search_fuel h)%nat.
Proof.
  intros HO. destruct (heap_end _ _ HO) as (Ht & Hs & _). pose proof (endof_ge (heapbase h) bs Hs). unfold search_fuel.
  assert (length bs ≤ Z.to_nat ((heaptop h - heapbase h) / 8))%nat; [dlia|lia].
Qed.

Lemma malloc_ok sz bs h :
  heap_ok bs h → 1 ≤ sz ≤ 2147483632 →
  wpe (malloc sz) (λ r h', ∃ p, r = inr p ∧
    (p = 0 ∧ heap_ok bs h' ∧ heapbase h' = heapbase h ∧ umem h' = umem h ∨ got bs h p ((sz + 7) / 8) h')) h.
Proof.
  intros HO Hsz. pose proof (ho_base _ _ HO) as Hb. destruct (heap_end _ _ HO) as (Ht & Hs & Htop). pose proof (endof_ge (heapbase h) bs Hs) as [Hge Hlen].
  unfold malloc. apply wpe_bind, wpe_get. rewrite (proj2 (Z.eqb_neq (heapbase h) 0)) by lia. apply wpe_bind, wpe_ret. apply wpe_bind, wpe_get.
  unfold corrupt. rewrite !(proj2 (Z.eqb_neq _ 0)), (proj2 (Z.ltb_ge _ _)) by lia. cbn [orb].
  assert (u32 (sz + MBLOCKSIZE - 1) = sz + 7) as -> by (rewrite u32_id; unfold is_u32, MBLOCKSIZE; lia). rewrite round8 by (unfold is_u32; lia). set (ks := (sz + 7) / 8). assert (1 ≤ ks < 268435455) as Hks by (unfold ks; dlia).
  apply wpe_bind. eapply wpe_mono; [apply (search_spec _ [] bs); [done|done|done| |lia]|].
  { by apply search_enough. }
  intros r h' [(p & -> & _ & Hg)|(q & -> & -> & Hl)]; cbn beta iota; [apply wpe_ret; eauto|]. by apply extend_spec.
Qed.

(** ** free *)

Lemma deadbeef_spec n a h :
  mapped (umem h) a (4 * Z.of_nat n) →
  wpe (deadbeef_words n a) (λ r h', r = inr tt ∧ ∃ m', h' = set_umem m' h ∧ (∀ x, x < a ∨ a + 4 * Z.of_nat n ≤ x → m' !! x = umem h !! x) ∧
    ∀ x, is_Some (umem h !! x) → is_Some (m' !! x)) h.
Proof.
  revert a h. induction n as [|n IH]; intros a h Hm; cbn [deadbeef_words].
  - apply wpe_ret. split; [done|]. exists (umem h). split; [by destruct h|done].
  - apply wpe_bind, wpe_stw; [apply Hm; [lia|by rewrite Z.sub_diag]|]. eapply wpe_mono; [apply IH|].
    + cbn [umem set_umem]. apply mapped_insert. eapply mapped_sub; [exact Hm|lia|lia|replace (a + 4 - a) with 4 by lia; done|done].
    + intros r h' (-> & m' & -> & Hx & Hs). split; [done|]. exists m'. split; [done|]. cbn [umem set_umem] in *. split.
      * intros x Hr. rewrite Hx by lia. lk. done.
      * intros x Hr. apply Hs. destruct (decide (a = x)) as [->|]; [lk; by eexists|]. by rewrite lookup_insert_ne.
Qed.

Lemma merge_spec b1 k u k2 u2 b2 h a :
  heap_ok (b1 ++ (k, u) :: (k2, u2) :: b2) h → a = endof (heapbase h) b1 →
  wpe (__malloc_trymerge a (a + 8 * (k + 1))) (λ r h', r = inr tt ∧
    (u || u2 = true ∧ h' = h ∨
     u = false ∧ u2 = false ∧ ∃ m', h' = set_umem m' h ∧ heap_ok (b1 ++ (k + k2 + 1, false) :: b2) h' ∧
       ∀ x, x < a ∨ a + 8 * (k + 1) + 8 * (k2 + 1) + 4 ≤ x → m' !! x = umem h !! x)) h.
Proof.
  intros HO Ha. destruct (heap_at _ _ _ _ _ HO) as [p HA]. rewrite <- Ha in HA. destruct HA as [_ A1 A2 A3 A4 A5 A6 A7 A8 _ _].
  pose proof HO as HO2. change ((k, u) :: (k2, u2) :: b2) with ([(k, u)] ++ (k2, u2) :: b2) in HO2. rewrite app_assoc in HO2.
  destruct (heap_at _ _ _ _ _ HO2) as [p2 HA2]. rewrite endof_app, <- Ha in HA2. cbn [endof] in HA2. pose proof HA2 as [_ B1 B2 B3 B4 B5 B6 B7 _ B9 [q0 B10]]. set (n := a + 8 * (k + 1)) in *.
  assert (p2 = k + 1) as -> by (apply lay_app in B1 as (q' & _ & _ & _ & _ & _ & ?); done).
  unfold __malloc_trymerge. apply wpe_bind. eapply wpe_nextblock; [exact A2|]. apply wpe_bind. eapply wpe_prevblock; [exact B2|]. rewrite Z.eqb_refl. cbn [negb].
  apply wpe_bind. eapply wpe_inuse; [exact A2|]. apply wpe_bind. eapply wpe_inuse; [exact B2|]. destruct (u || u2) eqn:Eu; [apply wpe_ret; auto|].
  apply orb_false_iff in Eu as [-> ->]. apply wpe_bind. eapply wpe_NEXT; [exact B2|lia..|]. apply wpe_bind. eapply wpe_SIZE; [exact A2|lia..|].
  apply wpe_bind. eapply wpe_SIZE; [exact B2|lia..|]. unfold MBLOCKSIZE, M_MKFIELD. set (e := n + 8 * (k2 + 1)) in *.
  rewrite u32_id by (unfold is_u32; lia). replace ((8 + 8 * k + 8 + 8 * k2) / 8) with (k + k2 + 1 + 1) by dlia.
  apply wpe_bind. eapply wpe_set_next; [exact A2|lia|]. set (m1 := <[a + 4 := _]> (umem h)).
  assert (hdr m1 a p (k + k2 + 1) false) as Hh by (split; unfold m1; lk; [apply A2|done]).
  apply wpe_bind, wpe_get. change (heaptop (set_umem m1 h)) with (heaptop h). apply wpe_bind.
  assert (∀ m2, (∀ x, x < e → m2 !! x = m1 !! x) → (∀ x, e + 4 ≤ x → m2 !! x = m1 !! x) → (b2 ≠ [] → m2 !! e = Some ((k + k2 + 1 + 1) * 8 + 2)) →
    wpe (__malloc_deadbeef n 8) (λ r h', r = inr tt ∧ (false || false = true ∧ h' = h ∨ false = false ∧ false = false ∧ ∃ m', h' = set_umem m' h ∧
      heap_ok (b1 ++ (k + k2 + 1, false) :: b2) h' ∧ ∀ x, x < a ∨ e + 4 ≤ x → m' !! x = umem h !! x)) (set_umem m2 h)) as Hdead.
  { intros m2 H1 H2 H3. assert (mapped m2 (a + 8) (8 * (k + k2 + 1))) as Hmap.
    { intros x Hx Hmod. rewrite H1 by (unfold e, n; lia). unfold m1. lk. destruct (decide (x < n)); [apply A3; [unfold n in *; lia|done]|].
      destruct (decide (x = n)) as [->|]; [destruct B2 as [-> _]; by eexists|]. destruct (decide (x = n + 4)) as [->|]; [destruct B2 as [_ ->]; by eexists|].
      apply B3; [split; [unfold n in *; dlia|unfold n in *; lia]|unfold n in *; dlia]. }
    eapply wpe_mono; [apply (deadbeef_spec (Z.to_nat (8 / 4)) n (set_umem m2 h))|].
    { change (4 * Z.of_nat (Z.to_nat (8 / 4))) with 8. cbn [umem set_umem]. eapply mapped_sub; [exact Hmap|unfold n; lia|unfold n; lia|unfold n; dlia|done]. }
    change (4 * Z.of_nat (Z.to_nat (8 / 4))) with 8. cbn [umem set_umem]. intros r h' (-> & m3 & -> & Hx & Hs). split; [done|]. right. split; [done|]. split; [done|]. exists m3. split; [done|].
    assert (∀ x, x < a ∨ e + 4 ≤ x → m3 !! x = umem h !! x) as Hout.
    { intros x Hr. rewrite Hx by (unfold n, e in *; lia). destruct Hr as [Hr|Hr]; [rewrite H1 by (unfold n, e; lia)|rewrite H2 by lia]; unfold m1; unfold n, e in *; lk; done. }
    split; [|exact Hout]. apply (heap_ok_mem (b1 ++ (k, false) :: (k2, false) :: b2) _ h); [done|]. destruct HO as [_ _ _ [q O4]].
    apply (lay_replace (umem h) m3 (heapbase h) b1 [(k, false); (k2, false)] [(k + k2 + 1, false)] b2 (heaptop h) q p (k + k2 + 2) a e); try done.
    - cbn [lay]. split; [lia|]. split; [|split; [|unfold e, n; lia]].
      + split; (rewrite Hx by (unfold n; lia)); (rewrite H1 by (unfold e, n; lia)); [apply Hh|apply Hh].
      + eapply mapped_sub; [exact Hmap|lia|lia|rewrite Z.sub_diag; done|]. intros x _. apply Hs.
    - intros Hne. rewrite Hx by (unfold e, n; lia). rewrite H3 by done. do 2 f_equal. lia. }
  destruct (Z.eqb_spec e (heaptop h)) as [Et|Et]; cbn [negb].
  - apply wpe_ret. apply Hdead; [done|done|]. intros Hne. by apply B9 in Et.
  - apply wpe_bind. eapply (wpe_nextblock (set_umem m1 h)); [exact Hh|].
    assert (m1 !! e = Some ((k2 + 1) * 8 + 2)) as He by (unfold m1, e, n; lk; apply (at_next _ _ _ _ _ _ _ HA2); intros E; by apply B9 in E).
    eapply wpe_upd; [exact He|]. rewrite set_prev_word by (unfold e, n in *; lia). cbn [umem set_umem]. rewrite set_umem_twice.
    apply Hdead; [intros x Hr; lk; done|intros x Hr; lk; done|]. intros _. by lk.
Qed.

(** From [h] to [h'] the blocks in use are those of [us], their words as
    before. *)
Definition kept (us : list (Z * Z)) h h' : Prop :=
  heapbase h' = heapbase h ∧ heaptop h' = heaptop h ∧ ∀ q n x, (q, n) ∈ us → q ≤ x < q + n → umem h' !! x = umem h !! x.

Lemma kept_trans us h1 h2 h3 : kept us h1 h2 → kept us h2 h3 → kept us h1 h3.
Proof. intros (B1 & T1 & K1) (B2 & T2 & K2). split; [congruence|]. split; [congruence|]. intros q n x Hq Hx. rewrite (K2 q n x), (K1 q n x); done. Qed.

(** Merging is a heap with the same blocks in use. *)
Lemma merge_keeps b1 k u k2 u2 b2 h a :
  heap_ok (b1 ++ (k, u) :: (k2, u2) :: b2) h → a = endof (heapbase h) b1 →
  wpe (__malloc_trymerge a (a + 8 * (k + 1))) (λ r h', r = inr tt ∧ ∃ K b2', heap_ok (b1 ++ (K, u) :: b2') h' ∧
    used (heapbase h) (b1 ++ (K, u) :: b2') = used (heapbase h) (b1 ++ (k, u) :: (k2, u2) :: b2) ∧
    kept (used (heapbase h) (b1 ++ (k, u) :: (k2, u2) :: b2)) h h') h.
Proof.
  intros HO Ha. eapply wpe_mono; [by apply (merge_spec b1 k u k2 u2 b2)|]. intros r h' [-> [[Eu ->]|(-> & -> & m' & -> & HO' & Hx)]]; split; try done.
  - exists k, ((k2, u2) :: b2). split; [done|]. split; [done|]. by split.
  - assert (used (heapbase h) (b1 ++ (k + k2 + 1, false) :: b2) = used (heapbase h) (b1 ++ (k, false) :: (k2, false) :: b2)) as Eu.
    { rewrite !used_app. cbn [used app]. do 2 f_equal. lia. }
    exists (k + k2 + 1), b2. split; [done|]. split; [exact Eu|]. split; [done|]. split; [done|]. rewrite <- Eu. intros q n x Hq Hr.
    destruct (heap_end _ _ HO') as (_ & Hs & _). apply (used_free (heapbase h) b1 (k + k2 + 1) b2 Hs) in Hq. apply Hx. rewrite <- Ha in Hq. lia.
Qed.

(** [free] up to the merging: the block is no longer in use. *)
Lemma release_spec {A} b1 k b2 h a (c : EM (uheap K) A) Q :
  heap_ok (b1 ++ (k, true) :: b2) h → a = endof (heapbase h) b1 →
  (∀ h', heap_ok (b1 ++ (k, false) :: b2) h' → kept (used (heapbase h) (b1 ++ (k, false) :: b2)) h h' → wpe c Q h') →
  wpe (_ ← set_inuse a 0; sz ← M_SIZE a; _ ← __malloc_deadbeef (M_DATA a) sz; c) Q h.
Proof.
  intros HO Ha HQ. destruct (heap_at _ _ _ _ _ HO) as [p HA]. rewrite <- Ha in HA. pose proof HA as [_ A1 A2 A3 A4 A5 A6 A7 A8 _ _]. set (e := a + 8 * (k + 1)) in *.
  apply wpe_bind. eapply (wpe_set_inuse h a p k true A2 false). set (m1 := <[a + 4 := _]> (umem h)).
  assert (hdr m1 a p k false) as Hh by (split; unfold m1; lk; [apply A2|done]). apply wpe_bind. eapply (wpe_SIZE (set_umem m1 h)); [exact Hh|lia..|].
  unfold __malloc_deadbeef, M_DATA, MBLOCKSIZE. rewrite u32_id by (unfold is_u32; lia). set (n := Z.to_nat (8 * k / 4)).
  assert (4 * Z.of_nat n = 8 * k) as En by (unfold n; rewrite Z2Nat.id by dlia; dlia).
  apply wpe_bind. eapply wpe_mono; [apply (deadbeef_spec n (a + 8) (set_umem m1 h)); rewrite En; by apply mapped_insert|].
  rewrite En. cbn [umem set_umem]. intros r h' (-> & m2 & -> & Hx & Hs).
  assert (∀ x, x < a ∨ e ≤ x → m2 !! x = umem h !! x) as Hout by (intros x Hr; rewrite Hx by (unfold e in *; lia); unfold m1, e in *; lk; done).
  assert (heap_ok (b1 ++ (k, false) :: b2) (set_umem m2 (set_umem m1 h))) as HO'.
  { apply (heap_ok_mem (b1 ++ (k, true) :: b2) _ h); [done|]. destruct HO as [_ _ _ [q O4]].
    apply (lay_replace (umem h) m2 (heapbase h) b1 [(k, true)] [(k, false)] b2 (heaptop h) q p (k + 1) a e); try done.
    - intros x Hr. apply Hout. lia.
    - cbn [lay]. split; [done|]. split; [split; rewrite Hx by lia; apply Hh|]. split; [|done]. intros x Hr Hm. apply Hs. unfold m1. lk. by apply A3.
    - intros Hne. rewrite Hout by lia. by apply (at_next _ _ _ _ _ _ _ HA). }
  apply HQ; [done|]. split; [done|]. split; [done|]. intros q j x Hq Hr. cbn [umem set_umem]. apply Hout. destruct (heap_end _ _ HO') as (_ & Hs' & _).
  apply (used_free (heapbase h) b1 k b2 Hs') in Hq. rewrite <- Ha in Hq. unfold e. lia.
Qed.

Lemma merge_next b1 k b2 h a :
  heap_ok (b1 ++ (k, false) :: b2) h → a = endof (heapbase h) b1 →
  wpe (mhnext ← M_NEXT a; if negb (mhnext =? heaptop h) then __malloc_trymerge a mhnext else mret tt) (λ r h', r = inr tt ∧ ∃ K b2',
    heap_ok (b1 ++ (K, false) :: b2') h' ∧ used (heapbase h) (b1 ++ (K, false) :: b2') = used (heapbase h) (b1 ++ (k, false) :: b2) ∧
    kept (used (heapbase h) (b1 ++ (k, false) :: b2)) h h') h.
Proof.
  intros HO Ha. destruct (heap_at _ _ _ _ _ HO) as [p HA]. rewrite <- Ha in HA. destruct HA as [_ A1 A2 A3 A4 A5 A6 A7 A8 A9 _].
  apply wpe_bind. eapply wpe_NEXT; [exact A2|lia..|]. destruct (Z.eqb_spec (a + 8 * (k + 1)) (heaptop h)) as [Et|Et]; cbn [negb].
  - apply wpe_ret. split; [done|]. exists k, b2. split; [done|]. split; [done|]. by split.
  - destruct b2 as [|[k2 u2] b2]; [by destruct Et; apply A9|]. by apply (merge_keeps b1 k false k2 u2 b2).
Qed.

Lemma merge_prev b1 k b2 h a :
  heap_ok (b1 ++ (k, false) :: b2) h → a = endof (heapbase h) b1 →
  wpe (if negb (a =? heapbase h) then mhprev ← M_PREV a; __malloc_trymerge mhprev a else mret tt) (λ r h', r = inr tt ∧ ∃ bs',
    heap_ok bs' h' ∧ used (heapbase h) bs' = used (heapbase h) (b1 ++ (k, false) :: b2) ∧
    kept (used (heapbase h) (b1 ++ (k, false) :: b2)) h h') h.
Proof.
  intros HO Ha. destruct (heap_at _ _ _ _ _ HO) as [p HA]. rewrite <- Ha in HA. destruct HA as [_ A1 A2 A3 A4 A5 A6 A7 A8 _ _].
  destruct (Z.eqb_spec a (heapbase h)) as [Eb|Eb]; cbn [negb].
  - apply wpe_ret. split; [done|]. exists (b1 ++ (k, false) :: b2). split; [done|]. split; [done|]. by split.
  - destruct (lay_back _ _ _ _ _ A1) as [_ [[-> ->]|(b0 & k0 & u0 & -> & -> & Ea)]]; [by destruct Eb|]. rewrite <- app_assoc in *. cbn [app] in *.
    destruct (heap_at _ _ _ _ _ HO) as [p0 HA0]. pose proof (ab_a _ _ _ _ _ _ _ HA0). apply wpe_bind. eapply wpe_PREV; [exact A2|lia..|].
    rewrite Ea at 2. replace (a - 8 * (k0 + 1)) with (endof (heapbase h) b0) by lia.
    eapply wpe_mono; [by apply (merge_keeps b0 k0 u0 k false b2)|]. intros r h' (-> & K' & b2' & HO' & Eu & Hk). split; [done|]. by exists (b0 ++ (K', u0) :: b2').
Qed.

Lemma used_release base b1 k b2 y : sized (b1 ++ (k, false) :: b2) →
  y ∈ used base (b1 ++ (k, false) :: b2) ↔ y ∈ used base (b1 ++ (k, true) :: b2) ∧ y.1 ≠ endof base b1 + 8.
Proof.
  intros Hs. split.
  - destruct y as [q n]. intros Hy. pose proof (used_free base b1 k b2 Hs) as [? Hu]. pose proof (Hu _ _ Hy). split; [|cbn; lia]. revert Hy. rewrite !used_app. cbn [used app].
    rewrite !elem_of_app, elem_of_cons. tauto.
  - rewrite !used_app. cbn [used app]. rewrite !elem_of_app, elem_of_cons. intros [[|[->|]] Hne]; auto. by destruct Hne.
Qed.

(** [free] of a block in use takes it, and nothing else, out of use. *)
Lemma free_ok x n bs h :
  heap_ok bs h → (x, n) ∈ used (heapbase h) bs →
  wpe (free x) (λ r h', r = inr tt ∧ ∃ bs', heap_ok bs' h' ∧
    (∀ y, y ∈ used (heapbase h) bs' ↔ y ∈ used (heapbase h) bs ∧ y.1 ≠ x) ∧ kept (used (heapbase h) bs') h h') h.
Proof.
  intros HO Hx. destruct (heap_end _ _ HO) as (_ & Hs & _). pose proof (used_range _ _ _ _ Hs Hx) as (R1 & R2 & R3).
  apply used_split in Hx as (b1 & k & b2 & -> & -> & ->). set (a := endof (heapbase h) b1) in *.
  destruct (heap_at _ _ _ _ _ HO) as [p HA]. destruct HA as [_ A1 A2 A3 A4 A5 A6 A7 A8 _ _]. fold a in A1, A2, A3, A6, A7.
  unfold free. rewrite (proj2 (Z.eqb_neq (a + 8) 0)) by lia. apply wpe_bind, wpe_get. unfold corrupt. pose proof (ho_base _ _ HO).
  rewrite (proj2 (Z.eqb_neq (heapbase h) 0)) by lia. rewrite (proj2 (Z.eqb_neq (heaptop h) 0)) by lia. rewrite (proj2 (Z.ltb_ge (heaptop h) _)) by lia. cbn [orb].
  rewrite (proj2 (Z.ltb_ge (a + 8) _)) by lia. rewrite (proj2 (Z.leb_gt (heaptop h) _)) by lia. cbn [orb]. unfold MBLOCKSIZE. replace (a + 8 - 8) with a by lia.
  rewrite u32_id by (unfold is_u32; lia). apply wpe_bind. eapply wpe_OK; [exact A2|]. cbn [negb]. apply wpe_bind. eapply wpe_inuse; [exact A2|]. cbn [negb].
  eapply release_spec; [exact HO|done|]. intros h1 HO1 K1. pose proof K1 as (B1 & T1 & _). destruct (heap_end _ _ HO1) as (_ & Hs1 & _).
  eapply (wpe_assoc (M_NEXT a)). rewrite <- T1. apply wpe_bind. eapply wpe_mono; [apply (merge_next b1 k b2 h1); [done|by rewrite B1]|].
  rewrite B1. intros r h2 (-> & K' & b2' & HO2 & E2 & K2). pose proof K2 as (B2 & T2 & _). rewrite <- B1, <- B2.
  eapply wpe_mono; [apply (merge_prev b1 K' b2' h2); [done|by rewrite B2, B1]|]. rewrite B2, B1. intros r h3 (-> & bs' & HO3 & E3 & K3). split; [done|].
  exists bs'. split; [done|]. rewrite E3, E2. rewrite E2 in K3. split; [intros y; by apply used_release|]. eauto using kept_trans.
Qed.

(** What the dump shows of the blocks. *)
Fixpoint listing (a : Z) (bs : list blk) : list dumped :=
  match bs with
  | [] => []
  | (k, u) :: bs' => (a + 8, 8 * k, a + 8 * (k + 1), u) :: listing (a + 8 * (k + 1)) bs'
  end.

Lemma dump_blocks_ok f b1 b2 h a p out :
  heap_ok (b1 ++ b2) h → a = endof (heapbase h) b1 → lay (umem h) (heapbase h) 0 b1 a p → (length b2 < f)%nat →
  wpe (dump_blocks f a p out) (λ r h', r = inr (out ++ listing a b2) ∧ h' = h) h.
Proof.
  revert b1 b2 a p out. induction f as [|f IH]; intros b1 b2 a p out HO Ha Hl Hf; [lia|]. cbn [dump_blocks]. apply wpe_bind, wpe_get.
  destruct (heap_end _ _ HO) as (Ht & Hs & Htop). destruct b2 as [|[k u] b2].
  { rewrite app_nil_r in *. rewrite <- Ha in Ht. rewrite Ht, Z.ltb_irrefl, Z.eqb_refl. cbn [negb]. apply wpe_ret. split; [cbn [listing]; by rewrite ?app_nil_r|done]. }
  destruct (heap_at _ _ _ _ _ HO) as [p' HA]. rewrite <- Ha in HA. pose proof HA as [_ A1 A2 A3 A4 A5 A6 A7 A8 A9 A10].
  assert (p' = p) as -> by (eapply lay_same; [exact A1|exact Hl]).
  rewrite (proj2 (Z.ltb_lt a _)) by lia. apply wpe_bind. eapply wpe_OK; [exact A2|]. cbn [negb]. apply wpe_bind. eapply wpe_prevblock; [exact A2|]. rewrite Z.eqb_refl. cbn [negb].
  apply wpe_bind. eapply wpe_nextblock; [exact A2|]. apply wpe_bind. eapply wpe_SIZE; [exact A2|lia..|]. apply wpe_bind. eapply wpe_NEXTOFF; [exact A2|lia..|].
  apply wpe_bind. eapply wpe_inuse; [exact A2|]. unfold MBLOCKSIZE. rewrite !u32_id by (unfold is_u32; lia).
  eapply wpe_mono; [apply (IH (b1 ++ [(k, u)]) b2); [by rewrite <- app_assoc|rewrite endof_app, <- Ha; done| |simpl in Hf; lia]|].
  - apply lay_app. exists p. rewrite <- Ha. split; [done|]. cbn [lay]. done.
  - intros r h' [-> ->]. split; [|done]. cbn [listing]. by rewrite <- app_assoc.
Qed.

Lemma dump_ok bs h : heap_ok bs h → wpe __malloc_dump (λ r h', r = inr (listing (heapbase h) bs) ∧ h' = h) h.
Proof.
  intros HO. apply wpe_bind, wpe_get. apply (dump_blocks_ok _ [] bs); [done|done|done|by apply search_enough].
Qed.
End heap.
