(* ===== verification/MallocSpec.v ===== *)
(** The C library's heap keeps the contract of an allocator: a program that
    uses [malloc], [free] and the blocks it was given cannot tell the heap from
    a table of independent blocks. *)

From Stdlib Require Import ZArith Lia.
From stdpp Require Import base numbers list option gmap.
From S2P Require Import Prelude Alloc Errm Malloc MallocProofs.

Open Scope Z_scope.

(** ** The heap as an allocator *)

Definition run {S A} (c : EM S A) (s : S) : res (A * S) :=
  match c s with
  | Ret (inr a, s') => Ret (a, s')
  | Ret (inl _, _) => Undef
  | Panic => Panic
  | Undef => Undef
  | NoFuel => NoFuel
  end.

(** The heap passes its checks when a debugging build could dump it. *)
#[global] Instance malloc_allocator {K : Type} `{Break K} : Allocator (uheap K) := {|
  a_malloc sz h := run (malloc sz) h;
  a_free p h := '(_, h) ← run (free p) h; Ret h;
  a_load a h := '(v, _) ← run (ldw a) h; Ret v;
  a_store a v h := '(_, h) ← run (stw a v) h; Ret h;
  a_check h := match run __malloc_dump h with Ret _ => true | _ => false end;
  a_min := 1;
  a_max := 2147483632
|}.

(** The static variables before the first call. *)
Definition uheap0 {K : Type} (k : K) : uheap K := mkUheap 0 0 ∅ k.

Lemma wpe_result {S A} (c : EM S A) Q (s : S) : wpe c Q s → (∀ e s', ¬ Q (inl e) s') → ∃ a s', run c s = Ret (a, s') ∧ Q (inr a) s'.
Proof. unfold wpe, run. destruct (c s) as [[[e|a] s']| | |]; try done; [by intros HQ []%(λ f, f e s')|]. eauto. Qed.

Section spec.
Context {K : Type} `{BreakSpec K}.
Implicit Types (h : uheap K) (B : gmap Z Z).

Definition malloc_rep B h : Prop :=
  (uninit h ∧ B = ∅) ∨ ∃ bs, heap_ok bs h ∧ ∀ p n, B !! p = Some n → (p, n) ∈ used (heapbase h) bs.

Lemma rep_disjoint B h p n q k x :
  malloc_rep B h → B !! p = Some n → B !! q = Some k → p ≤ x < p + n → q ≤ x < q + k → p = q.
Proof.
  intros [[_ ->]|(bs & HO & HB)] Hp Hq; [by rewrite lookup_empty in Hp|]. destruct (heap_end _ _ HO) as (_ & Hs & _). eapply used_disjoint; eauto.
Qed.

(** The first call sets up an empty heap and goes on as on any other. *)
Lemma malloc_first sz h : uninit h → 1 ≤ sz ≤ 2147483632 →
  ∃ h1, heap_ok [] h1 ∧ run (malloc sz) h = run (malloc sz) h1.
Proof.
  intros HU Hsz. pose proof (init_spec h HU) as Hi. unfold wpe in Hi. destruct (__malloc_init h) as [[r h1]| | |] eqn:E; try done. destruct Hi as [-> HO].
  exists h1. split; [done|]. unfold run. f_equal. unfold malloc at 1, mbind, EM_mbind, eget. rewrite (ui_base _ HU), Z.eqb_refl, E.
  unfold malloc, mbind, EM_mbind, eget. rewrite (proj2 (Z.eqb_neq (heapbase h1) 0)) by (pose proof (ho_base _ _ HO); lia). done.
Qed.

Lemma malloc_grows sz bs B h :
  heap_ok bs h → (∀ p n, B !! p = Some n → (p, n) ∈ used (heapbase h) bs) → 1 ≤ sz ≤ 2147483632 →
  ∃ p h', run (malloc sz) h = Ret (p, h') ∧
    (∀ q n x, B !! q = Some n → q ≤ x < q + n → umem h' !! x = umem h !! x) ∧
    (p = 0 ∧ malloc_rep B h' ∨ p ≠ 0 ∧ B !! p = None ∧ ∃ n, sz ≤ n ∧ malloc_rep (<[p := n]> B) h').
Proof.
  intros HO HB Hsz. destruct (wpe_result _ _ _ (malloc_ok sz bs h HO Hsz)) as (p & h' & E & p' & [= <-] & Hres); [by intros e s' (? & ? & _)|].
  exists p, h'. split; [done|]. destruct Hres as [(-> & HO' & Eb & Em)|(bs' & k1 & HO' & Eb & Hk & Hp & Hnew & Hu & Hm)].
  - split; [by rewrite Em|]. left. split; [done|]. right. exists bs. rewrite Eb. done.
  - split; [intros q n x Hq; eapply Hm; by apply HB|]. right. split; [done|]. split; [apply eq_None_not_Some; intros [n Hn]; by eapply Hnew, HB|].
    exists (8 * k1). split; [dlia|]. right. exists bs'. split; [done|]. rewrite Eb. intros q n. rewrite lookup_insert_Some, Hu. intros [[<- <-]|[_ Hq]]; auto.
Qed.

Lemma malloc_law sz B h :
  malloc_rep B h → 1 ≤ sz ≤ 2147483632 →
  ∃ p h', run (malloc sz) h = Ret (p, h') ∧
    (∀ q n x, B !! q = Some n → q ≤ x < q + n → umem h' !! x = umem h !! x) ∧
    (p = 0 ∧ malloc_rep B h' ∨ p ≠ 0 ∧ B !! p = None ∧ ∃ n, sz ≤ n ∧ malloc_rep (<[p := n]> B) h').
Proof.
  intros [[HU ->]|(bs & HO & HB)] Hsz; [|by apply (malloc_grows sz bs)]. destruct (malloc_first sz h HU Hsz) as (h1 & HO & ->).
  destruct (malloc_grows sz [] ∅ h1) as (p & h' & E & _ & Hres); [done|by intros p n|done|]. exists p, h'. split; [done|]. split; [by intros q n x|done].
Qed.

Lemma free_law p n B h :
  malloc_rep B h → B !! p = Some n →
  ∃ h', ('(_, h) ← run (free p) h; Ret h) = Ret h' ∧ malloc_rep (delete p B) h' ∧
    ∀ q k x, delete p B !! q = Some k → q ≤ x < q + k → umem h' !! x = umem h !! x.
Proof.
  intros [[_ ->]|(bs & HO & HB)] Hp; [by rewrite lookup_empty in Hp|].
  destruct (wpe_result _ _ _ (free_ok p n bs h HO (HB _ _ Hp))) as (r & h' & E & _ & bs' & HO' & Hu & Eb & _ & Hm); [by intros e s' [? _]|].
  assert (∀ q k, delete p B !! q = Some k → (q, k) ∈ used (heapbase h) bs') as HB'.
  { intros q k. rewrite lookup_delete_Some. intros [Hne Hq]. apply Hu. split; [by apply HB|done]. }
  exists h'. rewrite E. split; [done|]. split; [right; exists bs'; by rewrite Eb|]. intros q k x Hq. by apply Hm, HB'.
Qed.

(** Writing to the data of a block in use leaves the headers alone. *)
Lemma heap_ok_store bs h p n off v :
  heap_ok bs h → (p, n) ∈ used (heapbase h) bs → word_in n off = true →
  is_Some (umem h !! (p + off)) ∧ heap_ok bs (set_umem (<[p + off := v]> (umem h)) h).
Proof.
  intros HO Hp Hw. apply word_in_spec in Hw. apply used_split in Hp as (b1 & k & b2 & -> & -> & ->). destruct (heap_at _ _ _ _ _ HO) as [p HA].
  pose proof HA as [_ A1 A2 A3 A4 A5 A6 A7 A8 A9 A10]. set (a := endof (heapbase h) b1) in *. split; [apply A3; [lia|dlia]|].
  eapply heap_ok_mem; [done|]. destruct HO as [_ _ _ [q O4]].
  eapply (lay_replace (umem h) _ (heapbase h) b1 [(k, true)] [(k, true)] b2 (heaptop h) q p (k + 1) a (a + 8 * (k + 1))); try done.
  - intros x Hx. rewrite lookup_insert_ne by lia. done.
  - cbn [lay]. split; [done|]. split; [split; rewrite lookup_insert_ne by lia; apply A2|]. split; [by apply mapped_insert|done].
  - intros Hne. rewrite lookup_insert_ne by lia. by apply (at_next _ _ _ _ _ _ _ HA).
Qed.

Lemma dump_law B h : malloc_rep B h → (match run __malloc_dump h with Ret _ => true | _ => false end) = true.
Proof.
  intros [[[Eb Et _] _]|(bs & HO & _)].
  - unfold run, __malloc_dump, mbind, EM_mbind, eget. rewrite Eb. destruct (search_fuel h) eqn:Ef; [done|]. cbn [dump_blocks].
    unfold mbind, EM_mbind, eget. by rewrite Et.
  - destruct (wpe_result _ _ _ (dump_ok bs h HO)) as (r & h' & -> & _); [by intros e s' [? _]|done].
Qed.
End spec.

#[global, refine] Instance malloc_spec {K : Type} `{BreakSpec K} : AllocSpec (uheap K) := {|
  a_rep := malloc_rep;
  a_word h a := umem h !! a;
  law_disjoint := rep_disjoint;
  law_malloc := malloc_law;
  law_free := free_law;
  law_store := _;
  law_load := _;
  law_check := dump_law
|}.
Proof.
  - intros p n off v B h [[_ ->]|(bs & HO & HB)] Hp Hw; [by rewrite lookup_empty in Hp|].
    destruct (heap_ok_store bs h p n off v HO (HB _ _ Hp) Hw) as [[w Ew] HO']. eexists. cbn [a_store malloc_allocator]. unfold run, stw. rewrite Ew, mbind_Ret.
    split; [done|]. split; [right; by exists bs|]. cbn. split; [by rewrite lookup_insert_eq|]. intros x Hx. by rewrite lookup_insert_ne.
  - intros a v h Hv. cbn. unfold run, ldw. by rewrite Hv, mbind_Ret.
Defined.

(** C40: whatever sequence of allocations (of 1 byte to 2 GB), frees, word
    stores and word loads a program performs from its start, [malloc] and
    [free] never give up or touch memory that is not theirs, and every answer
    is the one of a table of independent blocks: a loaded word is the last one
    stored there through the same handle, whatever was split, merged or filled
    with 0xdeadbeef meanwhile.  After every step the headers pass the checks of
    [__malloc_dump].  All that is asked of [sbrk] is that the break moves by
    what it was asked to. *)
Theorem malloc_refines_table {K : Type} `{BreakSpec K} ops (k : K) :
  brk k mod 8 = 0 → conforms ops [] (uheap0 k) [] = true.
Proof. intros Hk. apply conforms_start. left. by split. Qed.

(** A break between 4 MB and 2 GB: the bytes above 4 MB. *)
#[local] Instance user_break : Break Z := {|
  sbrk n k :=
    let b := 4194304 + Z.max 0 (Z.min k 2143289344) in
    if b + n <=? 2147483648 then (Some b, b + n - 4194304) else (None, k);
  brk_fill _ _ := 0
|}.

#[local, refine] Instance user_break_spec : BreakSpec Z := {| brk k := 4194304 + Z.max 0 (Z.min k 2143289344) |}.
Proof.
  - intros k. lia.
  - intros n k a k' Hn. cbn. destruct (Z.leb_spec (4194304 + Z.max 0 (Z.min k 2143289344) + n) 2147483648); [|done]. intros [= <- <-]. lia.
  - intros n k k'. cbn. destruct (Z.leb_spec (4194304 + Z.max 0 (Z.min k 2143289344) + n) 2147483648); [done|]. by intros [= <-].
  - intros k. cbn. rewrite (proj2 (Z.leb_le _ _)) by lia. by eexists.
Defined.

(** A program whose blocks are split and merged on both sides. *)
Definition user_ops : list hop :=
  [HMalloc 100; HMalloc 5; HMalloc 64; HStore 0 96 7; HStore 2 0 8; HFree 0; HMalloc 20; HStore 3 16 9; HStore 1 0 5;
   HFree 1; HLoad 2 0; HLoad 3 16; HFree 3; HMalloc 120; HStore 4 116 1; HLoad 2 0].

Lemma malloc_refines_table_witness :
  conforms user_ops [] (uheap0 0) [] = true ∧
  (match run (p ← malloc 100; q ← malloc 5; _ ← malloc 64; _ ← free p; _ ← free q; p' ← malloc 120; mret (bool_decide (p = p'))) (uheap0 0) with
   | Ret (b, _) => b | _ => false end) = true.
Proof. split; [apply (malloc_refines_table user_ops 0); reflexivity|vm_compute; reflexivity]. Defined.

(** A block of no bytes at the top of the heap has its data at [__heaptop],
    which [free] takes for a pointer out of range. *)
Example free_of_empty_block : run (p ← malloc 0; free p) (uheap0 0) = Panic.
Proof. vm_compute. reflexivity. Qed.

(** A request close to 4 GB is rounded up to nothing and answered with a
    block of no bytes. *)
Example malloc_huge_wraps :
  match run (malloc 4294967295) (uheap0 0) with Ret (p, h) => p = 4194312 ∧ heaptop h = 4194312 | _ => False end.
Proof. vm_compute. done. Qed.
