(* ===== verification/Libc.v ===== *)
(** The C library's memory and string functions, shared by the kernel and the
    user programs (lib/libc), on a memory of bytes. *)

From Stdlib Require Import ZArith Lia.
From stdpp Require Import base numbers list option gmap.
From S2P Require Import Prelude Errm.

Open Scope Z_scope.

(** ** Memory *)

(** The bytes of the mapped addresses. *)
Abbreviation mem := (gmap Z Z).

Definition ld (a : Z) : EM mem Z := λ m,
  match m !! a with Some b => Ret (inr b, m) | None => Undef end.
Definition st (a b : Z) : EM mem unit := λ m,
  match m !! a with Some _ => Ret (inr tt, <[a := b]> m) | None => Undef end.

(** A word, as its bytes. *)
Fixpoint ldn (n : nat) (a : Z) : EM mem (list Z) :=
  match n with
  | O => mret []
  | S n' => b ← ld a; l ← ldn n' (a + 1); mret (b :: l)
  end.
Fixpoint stn (a : Z) (l : list Z) : EM mem unit :=
  match l with
  | [] => mret tt
  | b :: l' => _ ← st a b; stn (a + 1) l'
  end.

(** [for (i = from; i < from + n; i++)] and its mirror image. *)
Fixpoint for_up {S} (n : nat) (i : Z) (body : Z → EM S unit) : EM S unit :=
  match n with
  | O => mret tt
  | Datatypes.S n' => _ ← body i; for_up n' (i + 1) body
  end.
Fixpoint for_down {S} (n : nat) (body : Z → EM S unit) : EM S unit :=
  match n with
  | O => mret tt
  | Datatypes.S n' => _ ← body (Z.of_nat n'); for_down n' body
  end.

(** [sizeof(long)]. *)
Definition LONG : Z := 4.

(** ** memcpy.c, memmove.c, memset.c, bzero.c, memcmp.c *)

(** [d[i] = s[i]] for elements of [sz] bytes. *)
Definition copy_elem (sz : nat) (dst src i : Z) : EM mem unit :=
  w ← ldn sz (src + Z.of_nat sz * i); stn (dst + Z.of_nat sz * i) w.

Definition memcpy (dst src len : Z) : EM mem Z :=
  _ ← (if (dst mod LONG =? 0) && (src mod LONG =? 0) && (len mod LONG =? 0)
       then for_up (Z.to_nat (len / LONG)) 0 (copy_elem 4 dst src)
       else for_up (Z.to_nat len) 0 (copy_elem 1 dst src));
  mret dst.

Definition memmove (dst src len : Z) : EM mem Z :=
  if dst <? src then memcpy dst src len else
  _ ← (if (dst mod LONG =? 0) && (src mod LONG =? 0) && (len mod LONG =? 0)
       then for_down (Z.to_nat (len / LONG)) (copy_elem 4 dst src)
       else for_down (Z.to_nat len) (copy_elem 1 dst src));
  mret dst.

Definition memset (ptr ch len : Z) : EM mem Z :=
  _ ← for_up (Z.to_nat len) 0 (λ i, st (ptr + i) (u8 ch));
  mret ptr.

Definition bzero (block len : Z) : EM mem unit :=
  if (block mod LONG =? 0) && (len mod LONG =? 0)
  then for_up (Z.to_nat (len / LONG)) 0 (λ i, stn (block + LONG * i) [0; 0; 0; 0])
  else for_up (Z.to_nat len) 0 (λ i, st (block + i) 0).

Fixpoint memcmp_loop (n : nat) (a b : Z) : EM mem Z :=
  match n with
  | O => mret 0
  | S n' =>
      x ← ld a;
      y ← ld b;
      if negb (x =? y) then mret (x - y) else memcmp_loop n' (a + 1) (b + 1)
  end.
Definition memcmp (a b len : Z) : EM mem Z := memcmp_loop (Z.to_nat len) a b.

(** ** String functions *)

(** A loop over a string visits mapped addresses only, each once, so the
    number of mapped addresses bounds it. *)
Definition strfuel {A} (f : nat → EM mem A) : EM mem A := λ m, f (S (size m)) m.

Definition nofuel {S A} : EM S A := λ _, NoFuel.

Fixpoint strlen_loop (fuel : nat) (s ret : Z) : EM mem Z :=
  match fuel with
  | O => nofuel
  | S f => c ← ld (s + ret); if c =? 0 then mret ret else strlen_loop f s (ret + 1)
  end.
Definition strlen (s : Z) : EM mem Z := strfuel (λ f, strlen_loop f s 0).

(** [ch] as the character it is compared with. *)
Fixpoint strchr_loop (fuel : nat) (s ch : Z) : EM mem Z :=
  match fuel with
  | O => nofuel
  | S f =>
      c ← ld s;
      if c =? 0 then mret (if c =? ch then s else 0)
      else if c =? ch then mret s
      else strchr_loop f (s + 1) ch
  end.
Definition strchr (s ch : Z) : EM mem Z := strfuel (λ f, strchr_loop f s ch).

Fixpoint strrchr_loop (i : nat) (s ch : Z) : EM mem Z :=
  match i with
  | O => mret 0
  | S i' => c ← ld (s + Z.of_nat i'); if c =? ch then mret (s + Z.of_nat i') else strrchr_loop i' s ch
  end.
Definition strrchr (s ch : Z) : EM mem Z :=
  n ← strlen s;
  strrchr_loop (Z.to_nat (n + 1)) s ch.

(** A [char] is signed. *)
Definition s8 (c : Z) : Z := if c <? 128 then c else c - 256.

Fixpoint strcmp_loop (fuel : nat) (a b : Z) : EM mem Z :=
  match fuel with
  | O => nofuel
  | S f =>
      x ← ld a;
      y ← ld b;
      if negb (x =? 0) && (x =? y) then strcmp_loop f (a + 1) (b + 1)
      else if s8 y <? s8 x then mret 1
      else if x =? y then mret 0
      else mret (-1)
  end.
Definition strcmp (a b : Z) : EM mem Z := strfuel (λ f, strcmp_loop f a b).

Fixpoint strcpy_loop (fuel : nat) (dest src : Z) : EM mem unit :=
  match fuel with
  | O => nofuel
  | S f =>
      c ← ld src;
      if c =? 0 then st dest 0
      else _ ← st dest c; strcpy_loop f (dest + 1) (src + 1)
  end.
Definition strcpy (dest src : Z) : EM mem Z :=
  _ ← strfuel (λ f, strcpy_loop f dest src);
  mret dest.

Definition strcat (dest src : Z) : EM mem Z :=
  offset ← strlen dest;
  _ ← strcpy (dest + offset) src;
  mret dest.

(** [while ( *p && strchr(seps, *p) == want) p++]. *)
Fixpoint strtok_skip (fuel : nat) (p seps : Z) (want : bool) : EM mem Z :=
  match fuel with
  | O => nofuel
  | S f =>
      c ← ld p;
      if c =? 0 then mret p else
      w ← strchr seps c;
      if Bool.eqb (negb (w =? 0)) want then strtok_skip f (p + 1) seps want else mret p
  end.

(** The word, and the new value of [*context]. *)
Definition strtok_r (string seps context : Z) : EM mem (Z * Z) :=
  let head := if string =? 0 then context else string in
  if head =? 0 then mret (0, head) else
  head ← strfuel (λ f, strtok_skip f head seps true);
  c ← ld head;
  if c =? 0 then mret (0, 0) else
  tail ← strfuel (λ f, strtok_skip f head seps false);
  c ← ld tail;
  if c =? 0 then mret (head, 0)
  else
    _ ← st tail 0;
    mret (head, tail + 1).

(** ** atoi.c *)

Fixpoint atoi_space (fuel : nat) (s : Z) : EM mem Z :=
  match fuel with
  | O => nofuel
  | S f => c ← ld s; if (c =? 32) || (c =? 9) then atoi_space f (s + 1) else mret s
  end.

Fixpoint atoi_digits (fuel : nat) (s val : Z) : EM mem Z :=
  match fuel with
  | O => nofuel
  | S f =>
      c ← ld s;
      if c =? 0 then mret val
      else if (48 <=? c) && (c <=? 57) then atoi_digits f (s + 1) (u32 (val * 10 + (c - 48)))
      else mret val
  end.

(** The [strchr] in the constant string of digits finds exactly the codes of
    the digits, and the difference is the digit. *)
Definition atoi (s : Z) : EM mem Z :=
  s ← strfuel (λ f, atoi_space f s);
  c ← ld s;
  let neg := c =? 45 in
  let s := if (c =? 45) || (c =? 43) then s + 1 else s in
  val ← strfuel (λ f, atoi_digits f s 0);
  mret (s32 (if neg then - val else val)).
