(* ===== verification/LibcProofs.v ===== *)
(** The C library's memory and string functions do what the C standard asks
    of them. *)

From Stdlib Require Import ZArith Lia.
From stdpp Require Import base numbers list option gmap.
From S2P Require Import Prelude Errm Libc.

Open Scope Z_scope.

(** ** Bytes *)

Definition mapped_at (m : mem) (a n : Z) : Prop := ∀ i, 0 ≤ i < n → is_Some (m !! (a + i)).

Lemma wpe_ld (m : mem) a b Q : m !! a = Some b → Q (inr b) m → wpe (ld a) Q m.
Proof. intros H HQ. unfold wpe, ld. by rewrite H. Qed.
Lemma wpe_st (m : mem) a b Q : is_Some (m !! a) → Q (inr tt) (<[a := b]> m) → wpe (st a b) Q m.
Proof. intros [c H] HQ. unfold wpe, st. by rewrite H. Qed.

(** [m'] is [m] with the bytes [lo] to [hi - 1] of the block at [src] at
    [dst]. *)
Definition copied (m : mem) (dst src lo hi : Z) (m' : mem) : Prop :=
  ∀ x, m' !! x = if decide (dst + lo ≤ x < dst + hi) then m !! (src + (x - dst)) else m !! x.

Lemma ldn_spec n a (m : mem) :
  mapped_at m a (Z.of_nat n) →
  wpe (ldn n a) (λ r m', m' = m ∧ ∃ l, r = inr l ∧ length l = n ∧ ∀ i : nat, (i < n)%nat → l !! i = m !! (a + Z.of_nat i)) m.
Proof.
  revert a. induction n as [|n IH]; intros a Hm; cbn [ldn].
  { apply wpe_ret. split; [done|]. exists []. split; [done|]. split; [done|]. lia. }
  destruct (Hm 0 ltac:(lia)) as [b Hb]. rewrite Z.add_0_r in Hb. apply wpe_bind. eapply wpe_ld; [exact Hb|].
  apply wpe_bind. eapply wpe_mono; [apply (IH (a + 1))|].
  { intros i Hi. replace (a + 1 + i) with (a + (i + 1)) by lia. apply Hm. lia. }
  intros r m' (-> & l & -> & Hl & Hi). apply wpe_ret. split; [done|]. exists (b :: l). split; [done|]. split; [simpl; lia|].
  intros [|i] Hlt; simpl; [by rewrite Z.add_0_r|]. rewrite Hi by lia. f_equal. lia.
Qed.

Lemma stn_spec a l (m : mem) :
  mapped_at m a (Z.of_nat (length l)) →
  wpe (stn a l) (λ r m', r = inr tt ∧ ∀ x, m' !! x = if decide (a ≤ x < a + Z.of_nat (length l)) then l !! Z.to_nat (x - a) else m !! x) m.
Proof.
  revert a m. induction l as [|b l IH]; intros a m Hm; cbn [stn].
  { apply wpe_ret. split; [done|]. intros x. simpl. by rewrite decide_False by lia. }
  apply wpe_bind. eapply wpe_st. { specialize (Hm 0 ltac:(simpl; lia)). by rewrite Z.add_0_r in Hm. }
  eapply wpe_mono; [apply (IH (a + 1))|].
  { intros i Hi. rewrite lookup_insert_is_Some'. right. replace (a + 1 + i) with (a + (i + 1)) by lia. apply Hm. simpl; lia. }
  intros r m' [-> Hx]. split; [done|]. intros x. rewrite Hx. simpl length.
  destruct (decide (a + 1 ≤ x < a + 1 + Z.of_nat (length l))).
  - rewrite decide_True by lia. replace (Z.to_nat (x - a)) with (S (Z.to_nat (x - (a + 1)))) by lia. done.
  - destruct (decide (x = a)) as [->|Hne].
    + rewrite lookup_insert_eq, decide_True by lia. by rewrite Z.sub_diag.
    + rewrite lookup_insert_ne by done. rewrite decide_False by lia. done.
Qed.

Section copy.
Context (m : mem) (dst src len : Z) (Hsrc : mapped_at m src len) (Hdst : mapped_at m dst len).

(** One unit, read before it is written. *)
Lemma copy_chunk lo hi k (m1 : mem) lo' hi' j :
  copied m dst src lo hi m1 → 0 ≤ j → j + Z.of_nat k ≤ len → 0 ≤ lo → hi ≤ len →
  (∀ t, j ≤ t < j + Z.of_nat k → ¬ (dst + lo ≤ src + t < dst + hi)) →
  (∀ t, lo' ≤ t < hi' ↔ lo ≤ t < hi ∨ j ≤ t < j + Z.of_nat k) →
  wpe (w ← ldn k (src + j); stn (dst + j) w) (λ r m2, r = inr tt ∧ copied m dst src lo' hi' m2) m1.
Proof.
  intros Hc Hj Hk Hlo Hhi Hno Hext. apply wpe_bind. eapply wpe_mono; [apply ldn_spec|].
  { intros i Hi. rewrite (Hc (src + j + i)). replace (src + j + i) with (src + (j + i)) by lia. rewrite decide_False by (apply Hno; lia).
    apply Hsrc. lia. }
  intros r m' (-> & l & -> & Hl & Hi). eapply wpe_mono; [apply stn_spec; rewrite Hl|].
  { intros i Hi'. rewrite (Hc (dst + j + i)). case_decide.
    - replace (src + _) with (src + (j + i)) by lia. apply Hsrc. lia.
    - replace (dst + j + i) with (dst + (j + i)) by lia. apply Hdst. lia. }
  intros r m2 [-> Hm2]. split; [done|]. intros x. rewrite (Hm2 x), Hl.
  destruct (decide (dst + j ≤ x < dst + j + Z.of_nat k)) as [Hin|Hout].
  - rewrite decide_True by (rewrite <- (Z.sub_simpl_r x dst); pose proof (proj2 (Hext (x - dst)) ltac:(lia)); lia).
    rewrite Hi by lia. rewrite (Hc (src + j + _)), decide_False.
    + f_equal. lia.
    + intros Hbad. apply (Hno (x - dst)); lia.
  - rewrite (Hc x). pose proof (Hext (x - dst)). repeat case_decide; try done; lia.
Qed.

Lemma copy_up n k i m1 :
  copied m dst src 0 (Z.of_nat k * i) m1 → 0 ≤ i → Z.of_nat k * (i + Z.of_nat n) = len → (0 < k)%nat →
  dst ≤ src ∨ src + len ≤ dst →
  wpe (for_up n i (copy_elem k dst src))
    (λ r m2, r = inr tt ∧ copied m dst src 0 len m2) m1.
Proof.
  intros Hc Hi Hlen Hk Hov. revert i m1 Hc Hi Hlen. induction n as [|n IH]; intros i m1 Hc Hi Hlen; cbn [for_up].
  { apply wpe_ret. split; [done|]. by rewrite <- Hlen, Z.add_0_r. }
  apply wpe_bind. eapply wpe_mono; [apply (copy_chunk 0 (Z.of_nat k * i) k m1 0 (Z.of_nat k * (i + 1)) (Z.of_nat k * i) Hc); nia|].
  intros r m2 [-> Hc2]. apply (IH (i + 1) m2 Hc2); lia.
Qed.

Lemma copy_down n k m1 :
  copied m dst src (Z.of_nat k * Z.of_nat n) len m1 → Z.of_nat k * Z.of_nat n ≤ len → (0 < k)%nat → src ≤ dst →
  wpe (for_down n (copy_elem k dst src))
    (λ r m2, r = inr tt ∧ copied m dst src 0 len m2) m1.
Proof.
  intros Hc Hlen Hk Hov. revert m1 Hc Hlen. induction n as [|n IH]; intros m1 Hc Hlen; cbn [for_down].
  { apply wpe_ret. split; [done|]. by rewrite Z.mul_0_r in Hc. }
  apply wpe_bind.
  eapply wpe_mono; [apply (copy_chunk (Z.of_nat k * Z.of_nat (S n)) len k m1 (Z.of_nat k * Z.of_nat n) len (Z.of_nat k * Z.of_nat n) Hc); nia|].
  intros r m2 [-> Hc2]. apply (IH m2 Hc2); lia.
Qed.
End copy.

Lemma memcpy_spec (m : mem) dst src len :
  mapped_at m src len → mapped_at m dst len → 0 ≤ len → dst ≤ src ∨ src + len ≤ dst →
  wpe (memcpy dst src len) (λ r m', r = inr dst ∧ copied m dst src 0 len m') m.
Proof.
  intros Hs Hd Hl Hov. unfold memcpy, LONG. apply wpe_bind.
  assert (copied m dst src 0 0 m) as H0 by (intros x; by rewrite decide_False by lia).
  apply wpe_if; intros E; (apply (wpe_mono _ (λ r m', r = inr tt ∧ copied m dst src 0 len m')); [|intros r m' [-> Hc]; by apply wpe_ret]).
  - apply (copy_up m dst src len Hs Hd _ 4 0 m H0); try lia. pose proof (Z.div_mod len 4 ltac:(lia)). lia.
  - apply (copy_up m dst src len Hs Hd _ 1 0 m H0); lia.
Qed.

Lemma memmove_spec (m : mem) dst src len :
  mapped_at m src len → mapped_at m dst len → 0 ≤ len →
  wpe (memmove dst src len) (λ r m', r = inr dst ∧ copied m dst src 0 len m') m.
Proof.
  intros Hs Hd Hl. unfold memmove, LONG. destruct (Z.ltb_spec dst src); [apply memcpy_spec; done || lia|].
  assert (copied m dst src len len m) as H0 by (intros x; by rewrite decide_False by lia). apply wpe_bind.
  apply wpe_if; intros E; (apply (wpe_mono _ (λ r m', r = inr tt ∧ copied m dst src 0 len m')); [|intros r m' [-> Hc]; by apply wpe_ret]).
  - assert (Z.of_nat 4 * Z.of_nat (Z.to_nat (len / 4)) = len) as El by (pose proof (Z.div_mod len 4 ltac:(lia)); lia).
    apply (copy_down m dst src len Hs Hd _ 4 m); rewrite ?El; done || lia.
  - assert (Z.of_nat 1 * Z.of_nat (Z.to_nat len) = len) as El by lia.
    apply (copy_down m dst src len Hs Hd _ 1 m); rewrite ?El; done || lia.
Qed.

(** ** Strings *)

(** The string [l] is at [s], with its terminator. *)
Record str_at (m : mem) (s : Z) (l : list Z) : Prop := {
  sa_chars : Forall (λ c, 0 < c < 256) l;
  sa_mem : ∀ i x, (l ++ [0]) !! i = Some x → m !! (s + Z.of_nat i) = Some x
}.

Lemma str_at_char m s l i c : str_at m s l → l !! i = Some c → m !! (s + Z.of_nat i) = Some c ∧ 0 < c < 256.
Proof.
  intros [H1 H2] Hi. split; [apply H2, lookup_app_l_Some, Hi|]. by eapply Forall_lookup_1 in H1.
Qed.

Lemma str_at_end m s l : str_at m s l → m !! (s + Z.of_nat (length l)) = Some 0.
Proof. intros [_ H]. apply H. by rewrite lookup_app_r, Nat.sub_diag. Qed.

Lemma str_at_cons m s c l : str_at m s (c :: l) → m !! s = Some c ∧ 0 < c < 256 ∧ str_at m (s + 1) l.
Proof.
  intros H. destruct (str_at_char m s (c :: l) 0 c H eq_refl) as [H1 H2]. rewrite Z.add_0_r in H1. split; [done|]. split; [done|].
  destruct H as [Hc Hm]. split; [by inversion Hc|]. intros i x Hi. replace (s + 1 + Z.of_nat i) with (s + Z.of_nat (S i)) by lia. by apply Hm.
Qed.

Lemma str_at_nil m s : str_at m s [] → m !! s = Some 0.
Proof. intros H. pose proof (str_at_end m s [] H) as E. by rewrite Z.add_0_r in E. Qed.

Lemma str_at_drop m s l n : str_at m s l → (n ≤ length l)%nat → str_at m (s + Z.of_nat n) (drop n l).
Proof.
  intros [H1 H2] Hn. split; [by apply Forall_drop|]. intros i x Hi. replace (s + Z.of_nat n + Z.of_nat i) with (s + Z.of_nat (n + i)) by lia.
  apply H2. rewrite <- (take_drop n l), <- app_assoc, lookup_app_r by (rewrite length_take; lia). rewrite length_take. by replace (n + i - _)%nat with i by lia.
Qed.

(** The mapped addresses are enough fuel. *)
Lemma mapped_size (m : mem) s n : mapped_at m s (Z.of_nat n) → (n ≤ size m)%nat.
Proof.
  intros H. rewrite <- size_dom. 
  assert (list_to_set ((λ i, s + Z.of_nat i) <$> seq 0 n) ⊆ dom m) as Hsub.
  { intros x Hx. rewrite elem_of_list_to_set, list_elem_of_fmap in Hx. destruct Hx as (i & -> & Hi). apply elem_of_seq in Hi.
    apply elem_of_dom, H. lia. }
  apply subseteq_size in Hsub. rewrite size_list_to_set in Hsub.
  - by rewrite length_fmap, length_seq in Hsub.
  - apply NoDup_fmap_2; [intros i j; lia|apply NoDup_seq].
Qed.

Lemma str_at_size m s l : str_at m s l → (length l < size m)%nat.
Proof.
  intros H. apply (mapped_size m s (S (length l))). intros i Hi. destruct (decide (i = Z.of_nat (length l))) as [->|Hne].
  - rewrite (str_at_end m s l H). by eexists.
  - destruct (lookup_lt_is_Some_2 l (Z.to_nat i) ltac:(lia)) as [c Hc]. destruct (str_at_char m s l _ c H Hc) as [E _].
    rewrite Z2Nat.id in E by lia. rewrite E. by eexists.
Qed.

Lemma wpe_strfuel {A} (f : nat → EM mem A) Q m : wpe (f (S (size m))) Q m → wpe (strfuel f) Q m.
Proof. done. Qed.

Lemma strlen_spec m s l : str_at m s l → wpe (strlen s) (λ r m', r = inr (Z.of_nat (length l)) ∧ m' = m) m.
Proof.
  intros Hs. apply wpe_strfuel. pose proof (str_at_size m s l Hs) as Hf.
  assert (∀ f i, (i ≤ length l)%nat → (length l - i < f)%nat →
    wpe (strlen_loop f s (Z.of_nat i)) (λ r m', r = inr (Z.of_nat (length l)) ∧ m' = m) m) as Hloop.
  { induction f as [|f IH]; intros i Hi Hfu; [lia|]. cbn [strlen_loop]. apply wpe_bind.
    destruct (decide (i = length l)) as [->|Hne].
    - eapply wpe_ld; [by apply str_at_end|]. by apply wpe_ret.
    - destruct (lookup_lt_is_Some_2 l i ltac:(lia)) as [c Hc]. destruct (str_at_char m s l i c Hs Hc) as [E Hr].
      eapply wpe_ld; [exact E|]. rewrite (proj2 (Z.eqb_neq c 0)) by lia. replace (Z.of_nat i + 1) with (Z.of_nat (S i)) by lia.
      apply IH; lia. }
  apply (Hloop _ 0%nat); lia.
Qed.

(** The first place of [c] in [l]. *)
Fixpoint index_of (c : Z) (l : list Z) : option nat :=
  match l with
  | [] => None
  | x :: l' => if x =? c then Some 0%nat else S <$> index_of c l'
  end.

Lemma index_of_Some c l i : index_of c l = Some i ↔ l !! i = Some c ∧ ∀ j, (j < i)%nat → l !! j ≠ Some c.
Proof.
  revert i. induction l as [|x l IH]; intros i; simpl.
  { split; [done|]. by intros [? _]. }
  destruct (Z.eqb_spec x c) as [->|Hne].
  - split; [intros [= <-]; split; [done|lia]|]. intros [Hi Hj]. destruct i as [|i]; [done|]. destruct (Hj 0%nat); [lia|done].
  - destruct i as [|i].
    + split; [by destruct (index_of c l)|]. intros [[= ->] _]. done.
    + rewrite fmap_Some. split.
      * intros (k & Hk & [= ->]). apply IH in Hk as [H1 H2]. split; [done|]. intros [|j] Hj; simpl; [congruence|apply H2; lia].
      * intros [H1 H2]. exists i. split; [|done]. apply IH. split; [done|]. intros j Hj. apply (H2 (S j)). lia.
Qed.

Lemma index_of_None c l : index_of c l = None ↔ c ∉ l.
Proof.
  induction l as [|x l IH]; simpl; [split; [intros _ H; by apply not_elem_of_nil in H|done]|].
  destruct (Z.eqb_spec x c) as [->|Hne].
  - split; [done|]. intros H. destruct H. left.
  - rewrite fmap_None, IH, not_elem_of_cons. naive_solver.
Qed.

Lemma strchr_loop_spec m f s l ch :
  str_at m s l → (length l < f)%nat →
  wpe (strchr_loop f s ch) (λ r m', m' = m ∧ r = inr (match index_of ch (l ++ [0]) with Some i => s + Z.of_nat i | None => 0 end)) m.
Proof.
  revert s l. induction f as [|f IH]; intros s l Hs Hf; [lia|]. cbn [strchr_loop]. destruct l as [|c l].
  - apply wpe_bind. eapply wpe_ld; [by apply str_at_nil|]. apply wpe_ret. split; [done|]. cbn [app index_of].
    destruct (0 =? ch); [by rewrite Z.add_0_r|done].
  - destruct (str_at_cons m s c l Hs) as (Hc & Hr & Hs'). apply wpe_bind. eapply wpe_ld; [exact Hc|].
    rewrite (proj2 (Z.eqb_neq c 0)) by lia. simpl. destruct (Z.eqb_spec c ch).
    + apply wpe_ret. split; [done|]. by rewrite Z.add_0_r.
    + eapply wpe_mono; [apply (IH (s + 1) l Hs'); simpl in Hf; lia|]. intros r m' [-> ->]. split; [done|].
      destruct (index_of ch (l ++ [0])); simpl; [|done]. f_equal. lia.
Qed.

Lemma strchr_spec m s l ch :
  str_at m s l →
  wpe (strchr s ch) (λ r m', m' = m ∧ r = inr (match index_of ch (l ++ [0]) with Some i => s + Z.of_nat i | None => 0 end)) m.
Proof. intros Hs. apply wpe_strfuel. apply strchr_loop_spec; [done|]. pose proof (str_at_size m s l Hs). lia. Qed.

(** The last place of [c] in [l]. *)
Lemma strrchr_loop_spec m s l ch n :
  str_at m s l → (n ≤ S (length l))%nat →
  wpe (strrchr_loop n s ch) (λ r m', m' = m ∧
    ((r = inr 0 ∧ ∀ j, (j < n)%nat → (l ++ [0]) !! j ≠ Some ch) ∨
     ∃ i, r = inr (s + Z.of_nat i) ∧ (i < n)%nat ∧ (l ++ [0]) !! i = Some ch ∧ ∀ j, (i < j < n)%nat → (l ++ [0]) !! j ≠ Some ch)) m.
Proof.
  intros Hs. induction n as [|n IH]; intros Hn; cbn [strrchr_loop].
  { apply wpe_ret. split; [done|]. left. split; [done|]. lia. }
  destruct (lookup_lt_is_Some_2 (l ++ [0]) n) as [c Hc]; [rewrite length_app; simpl; lia|].
  apply wpe_bind. eapply wpe_ld; [by apply (sa_mem _ _ _ Hs)|]. destruct (Z.eqb_spec c ch) as [->|Hne].
  - apply wpe_ret. split; [done|]. right. exists n. split; [done|]. split; [lia|]. split; [done|]. lia.
  - eapply wpe_mono; [apply IH; lia|]. intros r m' [-> [[-> Hno]|(i & -> & Hi & Hci & Hno)]]; (split; [done|]).
    + left. split; [done|]. intros j Hj. destruct (decide (j = n)) as [->|]; [congruence|apply Hno; lia].
    + right. exists i. split; [done|]. split; [lia|]. split; [done|]. intros j Hj. destruct (decide (j = n)) as [->|]; [congruence|apply Hno; lia].
Qed.

(** Lexicographic order of the signed characters. *)
Fixpoint str_order (a b : list Z) : Z :=
  match a, b with
  | [], [] => 0
  | [], y :: _ => if s8 y <? 0 then 1 else -1
  | x :: _, [] => if 0 <? s8 x then 1 else -1
  | x :: a', y :: b' => if x =? y then str_order a' b' else if s8 y <? s8 x then 1 else -1
  end.

Lemma str_order_eq a b : Forall (λ c, 0 < c < 256) a → Forall (λ c, 0 < c < 256) b → str_order a b = 0 ↔ a = b.
Proof.
  revert b. induction a as [|x a IH]; intros [|y b] Ha Hb; simpl; try done.
  - destruct (s8 y <? 0); done.
  - destruct (0 <? s8 x); done.
  - inversion Ha; inversion Hb; subst. destruct (Z.eqb_spec x y) as [->|Hne].
    + rewrite IH by done. split; congruence.
    + destruct (s8 y <? s8 x); (split; [done|congruence]).
Qed.

Lemma strcmp_spec m a b la lb :
  str_at m a la → str_at m b lb → wpe (strcmp a b) (λ r m', m' = m ∧ r = inr (str_order la lb)) m.
Proof.
  intros Ha Hb. apply wpe_strfuel. pose proof (str_at_size m a la Ha) as Hf. assert (length la < S (size m))%nat as Hf' by lia. clear Hf.
  revert a b la lb Ha Hb Hf'. generalize (S (size m)) as f. induction f as [|f IH]; intros a b la lb Ha Hb Hf; [lia|]. cbn [strcmp_loop].
  destruct la as [|x la], lb as [|y lb].
  - apply wpe_bind. eapply wpe_ld; [by apply str_at_nil|]. apply wpe_bind. eapply wpe_ld; [by apply str_at_nil|]. by apply wpe_ret.
  - destruct (str_at_cons _ _ _ _ Hb) as (Hy & Hyr & _). apply wpe_bind. eapply wpe_ld; [by apply str_at_nil|].
    apply wpe_bind. eapply wpe_ld; [exact Hy|]. change (0 =? 0) with true. cbn [negb andb str_order]. change (s8 0) with 0.
    destruct (s8 y <? 0); [by apply wpe_ret|]. rewrite (proj2 (Z.eqb_neq 0 y)) by lia. by apply wpe_ret.
  - destruct (str_at_cons _ _ _ _ Ha) as (Hx & Hxr & _). apply wpe_bind. eapply wpe_ld; [exact Hx|].
    apply wpe_bind. eapply wpe_ld; [by apply str_at_nil|]. rewrite (proj2 (Z.eqb_neq x 0)) by lia. cbn [negb andb str_order].
    change (s8 0) with 0. destruct (0 <? s8 x); by apply wpe_ret.
  - destruct (str_at_cons _ _ _ _ Ha) as (Hx & Hxr & Ha'), (str_at_cons _ _ _ _ Hb) as (Hy & Hyr & Hb').
    apply wpe_bind. eapply wpe_ld; [exact Hx|]. apply wpe_bind. eapply wpe_ld; [exact Hy|].
    rewrite (proj2 (Z.eqb_neq x 0)) by lia. cbn [negb andb str_order]. destruct (Z.eqb_spec x y) as [->|Hne].
    + apply IH; [done|done|simpl in Hf; lia].
    + destruct (s8 y <? s8 x); by apply wpe_ret.
Qed.

(** A copy to a place that does not overlap the source from the left. *)
Lemma strcpy_loop_spec m f dest src l :
  str_at m src l → (length l < f)%nat → mapped_at m dest (Z.of_nat (length l) + 1) →
  (dest ≤ src ∨ src + Z.of_nat (length l) < dest) →
  wpe (strcpy_loop f dest src) (λ r m', r = inr tt ∧ ∀ x,
    m' !! x = if decide (dest ≤ x ≤ dest + Z.of_nat (length l)) then (l ++ [0]) !! Z.to_nat (x - dest) else m !! x) m.
Proof.
  revert m dest src l. induction f as [|f IH]; intros m dest src l Hs Hf Hd Hov; [lia|]. cbn [strcpy_loop]. destruct l as [|c l].
  - apply wpe_bind. eapply wpe_ld; [by apply str_at_nil|]. change (0 =? 0) with true. cbv iota. eapply wpe_st.
    { specialize (Hd 0 ltac:(simpl; lia)). by rewrite Z.add_0_r in Hd. }
    split; [done|]. intros x. simpl. destruct (decide (x = dest)) as [->|Hne].
    + rewrite lookup_insert_eq, decide_True, Z.sub_diag by lia. done.
    + rewrite lookup_insert_ne, decide_False by lia. done.
  - destruct (str_at_cons _ _ _ _ Hs) as (Hc & Hr & Hs'). apply wpe_bind. eapply wpe_ld; [exact Hc|].
    rewrite (proj2 (Z.eqb_neq c 0)) by lia. simpl length in *. apply wpe_bind. eapply wpe_st.
    { specialize (Hd 0 ltac:(simpl; lia)). by rewrite Z.add_0_r in Hd. }
    eapply wpe_mono; [apply (IH (<[dest := c]> m) (dest + 1) (src + 1) l); [|lia| |lia]|].
    + destruct Hs' as [H1 H2]. split; [done|]. intros i x Hi. rewrite lookup_insert_ne; [by apply H2|].
      apply lookup_lt_Some in Hi. rewrite length_app in Hi. simpl in Hi. lia.
    + intros i Hi. rewrite lookup_insert_is_Some'. right. replace (dest + 1 + i) with (dest + (i + 1)) by lia. apply Hd. lia.
    + intros r m' [-> Hx]. split; [done|]. intros x. rewrite Hx. destruct (decide (dest + 1 ≤ x ≤ dest + 1 + Z.of_nat (length l))).
      * rewrite decide_True by lia. replace (Z.to_nat (x - dest)) with (S (Z.to_nat (x - (dest + 1)))) by lia. done.
      * destruct (decide (x = dest)) as [->|Hne].
        -- rewrite lookup_insert_eq, decide_True, Z.sub_diag by lia. done.
        -- rewrite lookup_insert_ne, decide_False by lia. done.
Qed.

Lemma strcpy_spec m dest src l :
  str_at m src l → mapped_at m dest (Z.of_nat (length l) + 1) → (dest ≤ src ∨ src + Z.of_nat (length l) < dest) →
  wpe (strcpy dest src) (λ r m', r = inr dest ∧ str_at m' dest l ∧ ∀ x, ¬ (dest ≤ x ≤ dest + Z.of_nat (length l)) → m' !! x = m !! x) m.
Proof.
  intros Hs Hd Hov. unfold strcpy. apply wpe_bind, wpe_strfuel. pose proof (str_at_size _ _ _ Hs).
  eapply wpe_mono; [apply (strcpy_loop_spec m _ dest src l Hs); [lia|done|done]|]. intros r m' [-> Hx]. apply wpe_ret. split; [done|]. split.
  - split; [apply Hs|]. intros i x Hi. rewrite Hx. pose proof (lookup_lt_Some _ _ _ Hi) as Hlt. rewrite length_app in Hlt. simpl in Hlt.
    rewrite decide_True by lia. by replace (Z.to_nat _) with i by lia.
  - intros x Hn. by rewrite Hx, decide_False.
Qed.
