(* ===== verification/Menu.v ===== *)
(** Splitting a line into words: strtok_r, and the loop of the kernel menu's
    cmd_dispatch around it. *)

From Stdlib Require Import ZArith Lia.
From stdpp Require Import base numbers list option gmap.
From S2P Require Import Prelude Errm Libc LibcProofs.

Open Scope Z_scope.

(** ** kern/main/menu.c *)

Definition MAXMENUARGS : nat := 16.

(** The loop over the words of a command; [room] entries of [args] are
    unused, [args] has the words found, last first. *)
Fixpoint cmd_words (room : nat) (word context seps : Z) (args : list Z) : EM mem (list Z) :=
  if word =? 0 then mret (reverse args) else
  match room with
  | O => raise E2BIG
  | S room' =>
      '(next, context') ← strtok_r 0 seps context;
      cmd_words room' next context' seps (word :: args)
  end.

Definition cmd_args (cmd seps : Z) : EM mem (list Z) :=
  '(word, context) ← strtok_r cmd seps 0;
  cmd_words MAXMENUARGS word context seps [].

(** ** Words *)

(** The length of the longest prefix of [l] in [P]. *)
Fixpoint span (P : Z → bool) (l : list Z) : nat :=
  match l with
  | c :: l' => if P c then S (span P l') else 0
  | [] => 0
  end.

Lemma span_le P l : (span P l ≤ length l)%nat.
Proof. induction l as [|c l IH]; simpl; [done|]. destruct (P c); lia. Qed.

Lemma span_drop P l c l' : drop (span P l) l = c :: l' → P c = false.
Proof. induction l as [|x l IH]; simpl; [done|]. destruct (P x) eqn:E; simpl; [done|]. by intros [= -> ->]. Qed.

Lemma span_take P l : Forall (λ c, P c = true) (take (span P l) l).
Proof. induction l as [|x l IH]; simpl; [done|]. destruct (P x) eqn:E; simpl; by constructor. Qed.

(** The maximal runs of characters that are not separators. *)
Fixpoint words_from (sep : Z → bool) (l cur : list Z) : list (list Z) :=
  match l with
  | [] => if bool_decide (cur = []) then [] else [reverse cur]
  | c :: l' =>
      if sep c then (if bool_decide (cur = []) then [] else [reverse cur]) ++ words_from sep l' []
      else words_from sep l' (c :: cur)
  end.
Definition words_of (sep : Z → bool) (l : list Z) : list (list Z) := words_from sep l [].

Lemma words_skip sep l : words_of sep l = words_of sep (drop (span sep l) l).
Proof. unfold words_of. induction l as [|c l IH]; simpl; [done|]. destruct (sep c) eqn:E; simpl; [exact IH|]. by rewrite E. Qed.

Lemma words_run sep l cur :
  cur ≠ [] ∨ span (λ c, negb (sep c)) l ≠ 0%nat → let n := span (λ c, negb (sep c)) l in
  words_from sep l cur = (reverse cur ++ take n l) :: match drop n l with [] => [] | _ :: l' => words_of sep l' end.
Proof.
  intros H. revert cur H. induction l as [|c l IH]; intros cur H; simpl in *.
  - destruct H; [|done]. rewrite bool_decide_eq_false_2 by done. by rewrite app_nil_r.
  - destruct (sep c) eqn:E; simpl in *.
    + destruct H; [|done]. rewrite bool_decide_eq_false_2 by done. simpl. by rewrite app_nil_r.
    + rewrite IH by (by left). rewrite reverse_cons, <- app_assoc. done.
Qed.

(** One word at a time. *)
Lemma words_next sep l :
  words_of sep l =
  let l1 := drop (span sep l) l in let n := span (λ c, negb (sep c)) l1 in
  match l1 with
  | [] => []
  | _ :: _ => take n l1 :: match drop n l1 with [] => [] | _ :: l2 => words_of sep l2 end
  end.
Proof.
  cbv zeta. rewrite words_skip. destruct (drop (span sep l) l) as [|c l1] eqn:E; [done|].
  pose proof (span_drop sep l c l1 E) as Hc. unfold words_of at 1. rewrite words_run; [done|]. right. simpl. by rewrite Hc.
Qed.

(** ** strtok_r *)

(** [c] is in the string of separators. *)
Definition is_sep (seps : list Z) (c : Z) : bool := bool_decide (c ∈ seps).

Section tok.
Context (seps : list Z) (sp : Z).

Lemma skip_spec (m : mem) f p l want :
  str_at m sp seps → sp ≠ 0 → 0 < sp → str_at m p l → (length l < f)%nat →
  wpe (strtok_skip f p sp want) (λ r m', m' = m ∧
    r = inr (p + Z.of_nat (span (λ c, Bool.eqb (is_sep seps c) want) l))) m.
Proof.
  intros Hsp _ Hpos. revert p l. induction f as [|f IH]; intros p l Hl Hf; [lia|]. cbn [strtok_skip]. destruct l as [|c l].
  - apply wpe_bind. eapply wpe_ld; [by apply str_at_nil|]. change (0 =? 0) with true. apply wpe_ret. split; [done|]. simpl. f_equal. lia.
  - destruct (str_at_cons _ _ _ _ Hl) as (Hc & Hr & Hl'). apply wpe_bind. eapply wpe_ld; [exact Hc|].
    rewrite (proj2 (Z.eqb_neq c 0)) by lia. apply wpe_bind. eapply wpe_mono; [by apply strchr_spec|]. intros r m' [-> ->].
    assert (negb (match index_of c (seps ++ [0]) with Some i => sp + Z.of_nat i | None => 0 end =? 0) = is_sep seps c) as ->.
    { unfold is_sep. destruct (index_of c (seps ++ [0])) as [i|] eqn:E.
      - rewrite (proj2 (Z.eqb_neq _ 0)) by lia. symmetry. apply bool_decide_eq_true. apply index_of_Some in E as [E _].
        apply list_elem_of_lookup_2 in E. apply elem_of_app in E as [?| ->%list_elem_of_singleton]; [done|lia].
      - simpl. symmetry. apply bool_decide_eq_false. intros Hin. apply index_of_None in E. apply E. apply elem_of_app. by left. }
    simpl. destruct (Bool.eqb (is_sep seps c) want).
    + eapply wpe_mono; [apply (IH (p + 1) l Hl'); simpl in Hf; lia|]. intros r m' [-> ->]. split; [done|]. f_equal. lia.
    + apply wpe_ret. split; [done|]. f_equal. lia.
Qed.

(** The string at [p] and the separators are apart. *)
Definition apart (p : Z) (l : list Z) : Prop := p + Z.of_nat (length l) < sp ∨ sp + Z.of_nat (length seps) < p.

(** One call: no word is left, or the first word, terminated, and what is
    after it. *)
Lemma strtok_spec (m : mem) string context p l :
  str_at m sp seps → 0 < sp → 0 < p → str_at m p l → (if string =? 0 then context else string) = p →
  wpe (strtok_r string sp context) (λ r m',
    let l1 := drop (span (is_sep seps) l) l in let n := span (λ c, negb (is_sep seps c)) l1 in
    let h := p + Z.of_nat (span (is_sep seps) l) in
    match l1 with
    | [] => r = inr (0, 0) ∧ m' = m
    | _ => match drop n l1 with
           | [] => r = inr (h, 0) ∧ m' = m
           | _ => r = inr (h, h + Z.of_nat n + 1) ∧ m' = <[h + Z.of_nat n := 0]> m
           end
    end) m.
Proof.
  intros Hsp Hpos Hp Hl Hstr. unfold strtok_r. rewrite Hstr. rewrite (proj2 (Z.eqb_neq p 0)) by lia.
  assert (∀ l, span (λ c, Bool.eqb (is_sep seps c) true) l = span (is_sep seps) l) as Et.
  { induction l0 as [|c l0 IH]; simpl; [done|]. rewrite IH. by destruct (is_sep seps c). }
  assert (∀ l, span (λ c, Bool.eqb (is_sep seps c) false) l = span (λ c, negb (is_sep seps c)) l) as Ef.
  { induction l0 as [|c l0 IH]; simpl; [done|]. rewrite IH. by destruct (is_sep seps c). }
  apply wpe_bind, wpe_strfuel. pose proof (str_at_size m p l Hl) as Hsz.
  eapply wpe_mono; [apply (skip_spec m _ p l true Hsp); [lia|done|done|lia]|]. intros r m' [-> ->]. rewrite Et.
  set (k := span (is_sep seps) l). pose proof (span_le (is_sep seps) l) as Hk. fold k in Hk. cbv zeta. fold k.
  pose proof (str_at_drop m p l k Hl Hk) as Hl1. destruct (drop k l) as [|c l1] eqn:El.
  - apply wpe_bind. eapply wpe_ld; [by apply str_at_nil|]. change (0 =? 0) with true. by apply wpe_ret.
  - destruct (str_at_cons _ _ _ _ Hl1) as (Hc & Hr & _). apply wpe_bind. eapply wpe_ld; [exact Hc|].
    rewrite (proj2 (Z.eqb_neq c 0)) by lia. apply wpe_bind, wpe_strfuel. pose proof (str_at_size m _ _ Hl1) as Hsz1.
    eapply wpe_mono; [apply (skip_spec m _ (p + Z.of_nat k) (c :: l1) false Hsp); [lia|done|done|lia]|]. intros r m' [-> ->]. rewrite Ef.
    set (n := span (λ c, negb (is_sep seps c)) (c :: l1)). pose proof (span_le (λ c, negb (is_sep seps c)) (c :: l1)) as Hn. fold n in Hn.
    pose proof (str_at_drop m _ _ n Hl1 Hn) as Hl2. destruct (drop n (c :: l1)) as [|d l2] eqn:El2.
    + apply wpe_bind. eapply wpe_ld; [by apply str_at_nil|]. change (0 =? 0) with true. by apply wpe_ret.
    + destruct (str_at_cons _ _ _ _ Hl2) as (Hd & Hdr & _). apply wpe_bind. eapply wpe_ld; [exact Hd|].
      rewrite (proj2 (Z.eqb_neq d 0)) by lia. apply wpe_bind. eapply wpe_st; [by rewrite Hd; eexists|]. by apply wpe_ret.
Qed.

Lemma str_at_frame (m m' : mem) s l :
  str_at m s l → (∀ x, s ≤ x ≤ s + Z.of_nat (length l) → m' !! x = m !! x) → str_at m' s l.
Proof.
  intros [H1 H2] H. split; [done|]. intros i x Hi. rewrite H; [by apply H2|].
  apply lookup_lt_Some in Hi. rewrite length_app in Hi. simpl in Hi. lia.
Qed.

(** A string cut at place [n]. *)
Lemma str_at_cut (m : mem) s l n :
  str_at m s l → (n < length l)%nat → str_at (<[s + Z.of_nat n := 0]> m) s (take n l).
Proof.
  intros [H1 H2] Hn. split; [by apply Forall_take|]. intros i x Hi. destruct (decide (i = n)) as [->|Hne].
  - rewrite lookup_insert_eq. rewrite lookup_app_r in Hi by (rewrite length_take; lia).
    rewrite length_take, Nat.min_l, Nat.sub_diag in Hi by lia. done.
  - rewrite lookup_insert_ne by lia. pose proof (lookup_lt_Some _ _ _ Hi) as Hlt. rewrite length_app, length_take in Hlt. simpl in Hlt.
    apply H2. rewrite lookup_app_l in Hi by (rewrite length_take; lia). rewrite lookup_take_lt in Hi by lia. rewrite lookup_app_l by lia. done.
Qed.

Definition rest_at (m : mem) (w : Z) (wd : list Z) (c : Z) (rest : list (list Z)) (last : Z) : Prop :=
  c = 0 ∧ rest = [] ∨
  w + Z.of_nat (length wd) < c ∧ ∃ l2, str_at m c l2 ∧ words_of (is_sep seps) l2 = rest ∧ c + Z.of_nat (length l2) = last.

(** A call, in terms of the words. *)
Lemma strtok_word (m : mem) string context p l :
  str_at m sp seps → 0 < sp → 0 < p → str_at m p l → (if string =? 0 then context else string) = p →
  wpe (strtok_r string sp context) (λ r m', ∃ w c, r = inr (w, c) ∧
    (∀ x, ¬ (p ≤ x ≤ p + Z.of_nat (length l)) → m' !! x = m !! x) ∧
    match words_of (is_sep seps) l with
    | [] => w = 0
    | wd :: rest => p ≤ w ∧ w + Z.of_nat (length wd) ≤ p + Z.of_nat (length l) ∧ str_at m' w wd ∧ rest_at m' w wd c rest (p + Z.of_nat (length l))
    end) m.
Proof.
  intros Hsp Hpos Hp Hl Hstr. eapply wpe_mono; [by apply (strtok_spec m string context p l)|]. cbv zeta. intros r m'.
  rewrite (words_next (is_sep seps) l). cbv zeta. pose proof (span_le (is_sep seps) l) as Hk. set (k := span (is_sep seps) l) in *.
  pose proof (str_at_drop m p l k Hl Hk) as Hl1. assert (length (drop k l) = (length l - k)%nat) as Hlen by apply length_drop.
  destruct (drop k l) as [|c l1] eqn:El; [intros [-> ->]; by exists 0, 0|].
  set (l' := c :: l1) in *. pose proof (span_le (λ c, negb (is_sep seps c)) l') as Hn. set (n := span _ l') in *.
  pose proof (str_at_drop m _ _ n Hl1 Hn) as Hl2. assert (length (drop n l') = (length l' - n)%nat) as Hlen2 by apply length_drop.
  destruct (drop n l') as [|d l2] eqn:El2.
  - intros [-> ->]. exists (p + Z.of_nat k), 0. split; [done|]. split; [done|]. split; [lia|].
    assert (0%nat = (length l' - n)%nat) as Hlen3 by exact Hlen2. rewrite take_ge by lia. split; [lia|]. split; [done|by left].
  - intros [-> ->]. eexists _, _. split; [done|]. assert (S (length l2) = (length l' - n)%nat) as Hlen3 by exact Hlen2. split; [intros x Hx; rewrite lookup_insert_ne by lia; done|].
    split; [lia|]. rewrite length_take. split; [lia|]. split; [apply str_at_cut; [done|lia]|]. right. rewrite length_take. split; [lia|]. exists l2.
    destruct (str_at_cons _ _ _ _ Hl2) as (_ & _ & Hl3). split; [|split; [done|lia]].
    eapply str_at_frame; [exact Hl3|]. intros x Hx. rewrite lookup_insert_ne by lia. done.
Qed.

(** The loop collects the words, up to the size of [args]. *)
Lemma cmd_words_spec room (m : mem) w c wd rest last args :
  str_at m sp seps → 0 < sp → (last < sp ∨ sp + Z.of_nat (length seps) < w) → 0 < w → str_at m w wd → w + Z.of_nat (length wd) ≤ last →
  rest_at m w wd c rest last →
  wpe (cmd_words room w c sp args) (λ r m',
    (∀ x, ¬ (w + Z.of_nat (length wd) < x ≤ last) → m' !! x = m !! x) ∧
    if decide (length (wd :: rest) ≤ room)%nat
    then ∃ ptrs, r = inr (reverse args ++ w :: ptrs) ∧ Forall2 (str_at m') (w :: ptrs) (wd :: rest)
    else r = inl E2BIG) m.
Proof.
  revert m w c wd rest args. induction room as [|room IH]; intros m w c wd rest args Hsp Hpos Hap Hw Hwd Hlast Hrest;
    unfold cmd_words; fold cmd_words; rewrite (proj2 (Z.eqb_neq w 0)) by lia.
  { apply wpe_raise. split; [done|]. by rewrite decide_False by (simpl; lia). }
  apply wpe_bind. destruct Hrest as [[-> ->]|(Hlt & l2 & Hl2 & <- & Hend)].
  - unfold strtok_r. cbn [Z.eqb]. apply wpe_ret. cbv beta iota. destruct room; cbn [cmd_words Z.eqb]; apply wpe_ret;
      (split; [done|]); rewrite decide_True by (simpl; lia); exists []; rewrite reverse_cons; (split; [done|]); by apply Forall2_cons_2, Forall2_nil_2.
  - eapply wpe_mono; [apply (strtok_word m 0 c c l2 Hsp Hpos); [lia|done|done]|].
    intros r m' (w' & c' & -> & Hframe & Hcase). cbv beta iota.
    assert (str_at m' w wd) as Hwd' by (eapply str_at_frame; [done|]; intros x Hx; apply Hframe; lia).
    assert (str_at m' sp seps) as Hsp' by (eapply str_at_frame; [done|]; intros x Hx; apply Hframe; lia).
    destruct (words_of (is_sep seps) l2) as [|wd' rest'].
    + subst w'. assert (cmd_words room 0 c' sp (w :: args) = mret (reverse (w :: args))) as -> by (by destruct room).
      apply wpe_ret. split; [intros x Hx; apply Hframe; lia|]. rewrite decide_True by (simpl; lia). exists [].
      rewrite reverse_cons. split; [done|]. by apply Forall2_cons_2, Forall2_nil_2.
    + destruct Hcase as (Hw' & Hin & Hwd2 & Hrest'). eapply wpe_mono; [apply (IH m' w' c' wd' rest' (w :: args)); try done; try lia|].
      * rewrite <- Hend. done.
      * intros r m2 [Hfr Hres]. split; [intros x Hx; rewrite Hfr, Hframe by lia; done|].
        simpl length in *. destruct (decide (S (length rest') ≤ room)%nat).
        -- destruct Hres as (ptrs & -> & HF). rewrite decide_True by lia. exists (w' :: ptrs). rewrite reverse_cons, <- app_assoc.
           split; [done|]. constructor; [|done]. eapply str_at_frame; [done|]. intros x Hx. apply Hfr. lia.
        -- by rewrite decide_False by lia.
Qed.
End tok.

(** ** Theorems *)

(** C29: The kernel menu splits a command line exactly into its words: the
    maximal runs of characters between separators, in order, each a string of
    its own in the line's memory afterwards.  The loop of [strtok_r] calls
    ends, and a line of more words than [args] holds gives [E2BIG]. *)
Theorem cmd_args_words (m : mem) cmd sp l seps :
  str_at m cmd l → str_at m sp seps → 0 < cmd → 0 < sp → apart seps sp cmd l →
  wpe (cmd_args cmd sp) (λ r m', if decide (length (words_of (is_sep seps) l) ≤ MAXMENUARGS)%nat
    then ∃ args, r = inr args ∧ Forall2 (str_at m') args (words_of (is_sep seps) l) else r = inl E2BIG) m.
Proof.
  intros Hl Hsp Hc Hpos Hap. unfold cmd_args, apart in *. apply wpe_bind.
  eapply wpe_mono; [apply (strtok_word seps sp m cmd 0 cmd l Hsp Hpos Hc Hl); by rewrite (proj2 (Z.eqb_neq cmd 0)) by lia|].
  intros r m1 (w & c & -> & Hframe & Hcase). cbv beta iota. destruct (words_of (is_sep seps) l) as [|wd rest].
  - subst w. apply wpe_ret. rewrite decide_True by (simpl; lia). exists []. split; [done|apply Forall2_nil_2].
  - destruct Hcase as (Hw & Hin & Hwd & Hrest).
    eapply wpe_mono; [apply (cmd_words_spec seps sp MAXMENUARGS m1 w c wd rest (cmd + Z.of_nat (length l)) []); try done; try lia|].
    + eapply str_at_frame; [done|]. intros x Hx. apply Hframe. lia.
    + intros r m2 [_ Hres]. case_decide; [|done]. destruct Hres as (ptrs & -> & HF). by eexists.
Qed.

(** Putting a string into memory. *)
Fixpoint place (a : Z) (l : list Z) (m : mem) : mem :=
  match l with
  | [] => <[a := 0]> m
  | c :: l' => <[a := c]> (place (a + 1) l' m)
  end.

Lemma place_other a l m x : x < a ∨ a + Z.of_nat (length l) < x → place a l m !! x = m !! x.
Proof.
  revert a. induction l as [|c l IH]; intros a Hx; simpl in *; rewrite lookup_insert_ne by lia; [done|]. apply IH. lia.
Qed.

Lemma str_at_place a l m : Forall (λ c, 0 < c < 256) l → str_at (place a l m) a l.
Proof.
  intros Hl. split; [done|]. clear Hl. revert a. induction l as [|c l IH]; intros a i x Hi; simpl in *.
  - destruct i; [|done]. injection Hi as <-. by rewrite Z.add_0_r, lookup_insert_eq.
  - destruct i as [|i]; simpl in Hi.
    + injection Hi as <-. by rewrite Z.add_0_r, lookup_insert_eq.
    + rewrite lookup_insert_ne by lia. replace (a + Z.of_nat (S i)) with (a + 1 + Z.of_nat i) by lia. by apply IH.
Qed.

Definition demo_line : list Z := [109; 32; 32; 108; 9].
Definition blanks : list Z := [32; 9].
Definition demo_mem : mem := place 100 demo_line (place 200 blanks ∅).

Lemma cmd_args_words_witness :
  words_of (is_sep blanks) demo_line = [[109]; [108]] ∧
  wpe (cmd_args 100 200) (λ r m', if decide (length (words_of (is_sep blanks) demo_line) ≤ MAXMENUARGS)%nat
    then ∃ args, r = inr args ∧ Forall2 (str_at m') args (words_of (is_sep blanks) demo_line) else r = inl E2BIG) demo_mem.
Proof.
  split; [vm_compute; reflexivity|]. apply (cmd_args_words demo_mem 100 200 demo_line blanks); [|..|lia|lia|left; simpl; lia].
  - apply str_at_place. repeat constructor; lia.
  - eapply (str_at_frame (place 200 blanks ∅)); [apply str_at_place; repeat constructor; lia|].
    intros x Hx. apply place_other. simpl in *. lia.
Defined.

(** C28: [memmove] is a block copy whatever the overlap: for every pair of
    mapped blocks the word-wise and the byte-wise loops, forwards or
    backwards, all leave at [dst] the bytes that were at [src] before the
    call, and no other byte changes. *)
Theorem memmove_is_copy (m : mem) dst src len :
  mapped_at m src len → mapped_at m dst len → 0 ≤ len →
  wpe (memmove dst src len) (λ r m', r = inr dst ∧
    ∀ x, m' !! x = if decide (dst ≤ x < dst + len) then m !! (src + (x - dst)) else m !! x) m.
Proof.
  intros Hs Hd Hl. eapply wpe_mono; [by apply memmove_spec|]. intros r m' [-> Hc]. split; [done|]. intros x. rewrite (Hc x).
  by rewrite Z.add_0_r.
Qed.

Lemma memmove_is_copy_witness :
  wpe (memmove 102 101 3) (λ r m', r = inr 102 ∧
    ∀ x, m' !! x = if decide (102 ≤ x < 102 + 3) then demo_mem !! (101 + (x - 102)) else demo_mem !! x) demo_mem.
Proof.
  apply (memmove_is_copy demo_mem 102 101 3); [| |lia];
    (intros i Hi; assert (i = 0 ∨ i = 1 ∨ i = 2) as [->|[->| ->]] by lia; by eexists).
Defined.
