(* ===== verification/Printf.v ===== *)
(** Formatted output: the printf engine of lib/libc/__printf.c, shared by the
    kernel and the user programs, and [snprintf], which runs it on a buffer. *)

From Stdlib Require Import ZArith Lia.
From stdpp Require Import base numbers list option gmap.
From S2P Require Import Prelude Errm Libc.

Open Scope Z_scope.

(** ** Arguments *)

(** What a caller passes: a word (an int, a long, a character or a pointer
    printed as a number) or a string, which may be NULL. *)
Inductive arg := AInt (z : Z) | AStr (s : option (list Z)).

Inductive intsize := INTSZ | LONGSZ.

Record PF := mkPF {
  pf_ap : list arg;
  charcount : Z;
  in_pct : bool;
  pf_size : intsize;
  num : Z;
  sign : bool;
  spacing : Z;
  rightspc : bool;
  fillchar : Z;
  base : Z;
  baseprefix : bool;
  altformat : bool
}.

Definition set_ap v p := mkPF v (charcount p) (in_pct p) (pf_size p) (num p) (sign p) (spacing p) (rightspc p) (fillchar p) (base p) (baseprefix p) (altformat p).
Definition set_charcount v p := mkPF (pf_ap p) v (in_pct p) (pf_size p) (num p) (sign p) (spacing p) (rightspc p) (fillchar p) (base p) (baseprefix p) (altformat p).
Definition set_in_pct v p := mkPF (pf_ap p) (charcount p) v (pf_size p) (num p) (sign p) (spacing p) (rightspc p) (fillchar p) (base p) (baseprefix p) (altformat p).
Definition set_pfsize v p := mkPF (pf_ap p) (charcount p) (in_pct p) v (num p) (sign p) (spacing p) (rightspc p) (fillchar p) (base p) (baseprefix p) (altformat p).
Definition set_num v sg p := mkPF (pf_ap p) (charcount p) (in_pct p) (pf_size p) v sg (spacing p) (rightspc p) (fillchar p) (base p) (baseprefix p) (altformat p).
Definition set_spacing v p := mkPF (pf_ap p) (charcount p) (in_pct p) (pf_size p) (num p) (sign p) v (rightspc p) (fillchar p) (base p) (baseprefix p) (altformat p).
Definition set_rightspc v p := mkPF (pf_ap p) (charcount p) (in_pct p) (pf_size p) (num p) (sign p) (spacing p) v (fillchar p) (base p) (baseprefix p) (altformat p).
Definition set_fillchar v p := mkPF (pf_ap p) (charcount p) (in_pct p) (pf_size p) (num p) (sign p) (spacing p) (rightspc p) v (base p) (baseprefix p) (altformat p).
Definition set_base v pre p := mkPF (pf_ap p) (charcount p) (in_pct p) (pf_size p) (num p) (sign p) (spacing p) (rightspc p) (fillchar p) v pre (altformat p).
Definition set_altformat v p := mkPF (pf_ap p) (charcount p) (in_pct p) (pf_size p) (num p) (sign p) (spacing p) (rightspc p) (fillchar p) (base p) (baseprefix p) v.

(** [sizeof(long) * CHAR_BIT / 3 + 2]. *)
Definition NUMBER_BUF_SIZE : nat := 12.

(** "0123456789abcdef". *)
Definition digits : list Z := [48; 49; 50; 51; 52; 53; 54; 55; 56; 57; 97; 98; 99; 100; 101; 102].

Section engine.
Context {C : Type} (sendfunc : list Z → EM C unit).

Definition __pf_print (txt : list Z) : EM (PF * C) unit :=
  _ ← onsnd (sendfunc txt);
  onfst (emod (λ p, set_charcount (s32 (charcount p + Z.of_nat (length txt))) p)).

Definition __pf_endfield : EM (PF * C) unit :=
  onfst (emod (λ p, mkPF (pf_ap p) (charcount p) false INTSZ 0 false 0 false 32 0 false false)).

(** The codes of the characters: # is 35, - is 45, l is 108, q is 113, the
    digits are 48 to 57. *)
Definition __pf_modifier (ch : Z) : EM (PF * C) unit :=
  if ch =? 35 then onfst (emod (set_altformat true))
  else if ch =? 45 then onfst (emod (set_rightspc true))
  else if ch =? 108 then onfst (emod (set_pfsize LONGSZ))
  else if ch =? 113 then onfst (emod (set_pfsize LONGSZ))
  else if ch =? 48 then
    onfst (emod (λ p, if 0 <? spacing p then set_spacing (s32 (spacing p * 10)) p else set_fillchar 48 p))
  else
    _ ← eassert ((48 <? ch) && (ch <=? 57));
    onfst (emod (λ p, set_spacing (s32 (spacing p * 10 + (ch - 48))) p)).

(** [va_arg] *)
Definition va_int : EM (PF * C) Z := λ '(p, c),
  match pf_ap p with AInt z :: ap => Ret (inr z, (set_ap ap p, c)) | _ => Undef end.
Definition va_str : EM (PF * C) (option (list Z)) := λ '(p, c),
  match pf_ap p with AStr s :: ap => Ret (inr s, (set_ap ap p, c)) | _ => Undef end.

(** p is 112, d is 100.  An int and a long have 32 bits. *)
Definition __pf_getnum (ch : Z) : EM (PF * C) unit :=
  z ← va_int;
  if ch =? 112 then onfst (emod (λ p, set_num (u32 z) (sign p) p))
  else if ch =? 100 then
    let signednum := s32 z in
    onfst (emod (λ p, if signednum <? 0 then set_num (u32 (- signednum)) true p else set_num (u32 signednum) (sign p) p))
  else onfst (emod (λ p, set_num (u32 z) (sign p) p)).

(** u is 117, x is 120, o is 111. *)
Definition __pf_setbase (ch : Z) : EM (PF * C) unit :=
  onfst (emod (λ p,
    let b := if (ch =? 100) || (ch =? 117) then 10
             else if (ch =? 120) || (ch =? 112) then 16
             else if ch =? 111 then 8
             else base p in
    set_base b (if altformat p || (ch =? 112) then true else baseprefix p) p)).

Definition __pf_fill (spc : Z) : EM (PF * C) unit :=
  '(p, _) ← eget;
  let f := fillchar p in
  for_up (Z.to_nat spc) 0 (λ _, __pf_print [f]).

Definition __pf_printstuff (prefix prefix2 stuff : list Z) : EM (PF * C) unit :=
  let len := s32 (Z.of_nat (length prefix) + Z.of_nat (length prefix2) + Z.of_nat (length stuff)) in
  '(p, _) ← eget;
  let spc := if len <? spacing p then spacing p - len else 0 in
  _ ← (if (0 <? spc) && negb (rightspc p) && negb (fillchar p =? 48) then __pf_fill spc else mret tt);
  _ ← __pf_print prefix;
  _ ← __pf_print prefix2;
  _ ← (if (0 <? spc) && negb (rightspc p) && (fillchar p =? 48) then __pf_fill spc else mret tt);
  _ ← __pf_print stuff;
  if (0 <? spc) && rightspc p then __pf_fill spc else mret tt.

(** The loop over the digits, from the right; the buffer and the index of
    the next slot. *)
Fixpoint printnum_loop (fuel : nat) (b xnum : Z) (buf : list Z) (x : Z) : res (list Z * Z) :=
  match fuel with
  | O => NoFuel
  | S fuel' =>
      if b =? 0 then Undef else
      d ← load digits (xnum mod b);
      buf ← store buf x d;
      let xnum := xnum / b in
      if 0 <? xnum then printnum_loop fuel' b xnum buf (x - 1) else Ret (buf, x - 1)
  end.

Definition __pf_printnum : EM (PF * C) unit :=
  '(p, _) ← eget;
  let x := Z.of_nat NUMBER_BUF_SIZE - 1 in
  buf ← lift (store (replicate NUMBER_BUF_SIZE 0) x 0);
  '(buf, x) ← lift (printnum_loop 33 (base p) (num p) buf (x - 1));
  let x := x + 1 in
  let bprefix := if baseprefix p && (base p =? 16) then [48; 120]
                 else if baseprefix p && (base p =? 8) then [48]
                 else [] in
  let sprefix := if sign p then [45] else [] in
  __pf_printstuff sprefix bprefix (cstr (drop (Z.to_nat x) buf)).

Definition oneof (l : list Z) (ch : Z) : bool := existsb (Z.eqb ch) l.

(** % is 37, s is 115, c is 99. *)
Definition __pf_send (ch : Z) : EM (PF * C) unit :=
  _ ← eassert (negb (ch =? 0));
  '(p, _) ← eget;
  if negb (in_pct p) && negb (ch =? 37) then __pf_print [ch]
  else if negb (in_pct p) then onfst (emod (set_in_pct true))
  else if oneof [35; 45; 113; 108; 48; 49; 50; 51; 52; 53; 54; 55; 56; 57] ch then __pf_modifier ch
  else if oneof [100; 111; 117; 112; 120] ch then
    _ ← __pf_getnum ch;
    _ ← __pf_setbase ch;
    _ ← __pf_printnum;
    __pf_endfield
  else if ch =? 115 then
    str ← va_str;
    _ ← __pf_printstuff [] [] (match str with Some s => s | None => [40; 110; 117; 108; 108; 41] end);
    __pf_endfield
  else
    x ← (if ch =? 99 then z ← va_int; mret (u8 z) else mret ch);
    _ ← __pf_printstuff [] [] (cstr [x; 0]);
    __pf_endfield.

Fixpoint vprintf_loop (format : list Z) : EM (PF * C) unit :=
  match format with
  | [] => mret tt
  | ch :: format' => _ ← __pf_send ch; vprintf_loop format'
  end.
End engine.

(** The state of the session starts with [__pf_endfield]; the client's state
    is what is left of it. *)
Definition pf_start (ap : list arg) : PF := mkPF ap 0 false INTSZ 0 false 0 false 32 0 false false.

Definition __vprintf {C} (sendfunc : list Z → EM C unit) (format : list Z) (ap : list arg) : EM C Z := λ c,
  match (_ ← vprintf_loop sendfunc format; '(p, _) ← eget; mret (charcount p)) (pf_start ap, c) with
  | Ret (r, (_, c')) => Ret (r, c')
  | Panic => Panic
  | Undef => Undef
  | NoFuel => NoFuel
  end.

(** ** snprintf.c *)

Record SNP := mkSNP { snp_buf : Z; snp_buflen : Z; snp_bufpos : Z }.

Fixpoint snprintf_chars (data : list Z) : EM (mem * SNP) unit :=
  match data with
  | [] => mret tt
  | c :: data' =>
      '(_, snp) ← eget;
      _ ← (if snp_bufpos snp <? snp_buflen snp then
             _ ← onfst (st (snp_buf snp + snp_bufpos snp) c);
             onsnd (emod (λ s, mkSNP (snp_buf s) (snp_buflen s) (snp_bufpos s + 1)))
           else mret tt);
      snprintf_chars data'
  end.

Definition __snprintf_send (data : list Z) : EM (mem * SNP) unit := snprintf_chars data.

Definition vsnprintf (buf len : Z) (fmt : list Z) (ap : list arg) : EM mem Z := λ m,
  let snp := mkSNP buf (if len =? 0 then 0 else len - 1) 0 in
  match (chars ← __vprintf __snprintf_send fmt ap;
         '(_, snp) ← eget;
         _ ← (if 0 <? len then onfst (st (buf + snp_bufpos snp) 0) else mret tt);
         mret chars) (m, snp) with
  | Ret (r, (m', _)) => Ret (r, m')
  | Panic => Panic
  | Undef => Undef
  | NoFuel => NoFuel
  end.

Definition snprintf (buf len : Z) (fmt : list Z) (args : list arg) : EM mem Z := vsnprintf buf len fmt args.
