(* ===== verification/PrintfProofs.v ===== *)
(** What printf prints: the text of each conversion as a function of its
    flags, width and argument, and the buffer [snprintf] leaves. *)

From Stdlib Require Import ZArith Lia.
From stdpp Require Import base numbers list option gmap.
From S2P Require Import Prelude Errm Libc LibcProofs Printf.

Open Scope Z_scope.

(** ** The text *)

Definition dig (d : Z) : Z := default 0 (zget digits d).

(** The digits of [n] in base [b], most significant first. *)
Fixpoint numeral (fuel : nat) (b n : Z) : list Z :=
  match fuel with
  | O => []
  | S f => if n <? b then [dig n] else numeral f b (n / b) ++ [dig (n mod b)]
  end.

(** 32 bits have at most 32 digits. *)
Abbreviation num_digits := (numeral 33).

(** Flags and width of a conversion, in the order programs write them. *)
Record field := mkField { f_alt : bool; f_left : bool; f_zero : bool; f_width : Z; f_long : bool }.

Definition field_chars (f : field) : list Z :=
  (if f_alt f then [35] else []) ++ (if f_left f then [45] else []) ++ (if f_zero f then [48] else []) ++
  (if 0 <? f_width f then num_digits 10 (f_width f) else []) ++ (if f_long f then [108] else []).

(** [pre] and [body] in the field: the fill goes before [pre] if it is of
    spaces, between the two if it is of zeros, and to the right if the field
    is left-aligned. *)
Definition layout (f : field) (pre body : list Z) : list Z :=
  let pad := Z.to_nat (f_width f - Z.of_nat (length pre + length body)) in
  let fill := replicate pad (if f_zero f then 48 else 32) in
  if f_left f then pre ++ body ++ fill
  else if f_zero f then pre ++ fill ++ body
  else fill ++ pre ++ body.

Inductive conv := Cd | Cu | Co | Cx | Cp.
Definition conv_char (t : conv) : Z := match t with Cd => 100 | Cu => 117 | Co => 111 | Cx => 120 | Cp => 112 end.
Definition conv_base (t : conv) : Z := match t with Cd | Cu => 10 | Co => 8 | Cx | Cp => 16 end.

Definition num_value (t : conv) (z : Z) : Z := match t with Cd => Z.abs (s32 z) | _ => u32 z end.
Definition num_sign (t : conv) (z : Z) : list Z := match t with Cd => if s32 z <? 0 then [45] else [] | _ => [] end.
Definition num_prefix (f : field) (t : conv) : list Z :=
  match t with
  | Cp => [48; 120]
  | Cx => if f_alt f then [48; 120] else []
  | Co => if f_alt f then [48] else []
  | _ => []
  end.

(** A format is made of characters that stand for themselves and conversions
    with their arguments. *)
Inductive piece :=
  | PLit (c : Z)
  | PNum (f : field) (t : conv) (z : Z)
  | PStr (f : field) (s : option (list Z))
  | PChr (f : field) (z : Z)
  | POther (f : field) (c : Z).

Definition piece_format (p : piece) : list Z :=
  match p with
  | PLit c => [c]
  | PNum f t _ => [37] ++ field_chars f ++ [conv_char t]
  | PStr f _ => [37] ++ field_chars f ++ [115]
  | PChr f _ => [37] ++ field_chars f ++ [99]
  | POther f c => [37] ++ field_chars f ++ [c]
  end.

Definition piece_args (p : piece) : list arg :=
  match p with PNum _ _ z | PChr _ z => [AInt z] | PStr _ s => [AStr s] | _ => [] end.

(** "(null)" *)
Definition null_text : list Z := [40; 110; 117; 108; 108; 41].

Definition piece_text (p : piece) : list Z :=
  match p with
  | PLit c => [c]
  | PNum f t z => layout f (num_sign t z ++ num_prefix f t) (num_digits (conv_base t) (num_value t z))
  | PStr f s => layout f [] (default null_text s)
  | PChr f z => layout f [] (if u8 z =? 0 then [] else [u8 z])
  | POther f c => layout f [] [c]
  end.

Definition format_of (ps : list piece) : list Z := ps ≫= piece_format.
Definition args_of (ps : list piece) : list arg := ps ≫= piece_args.
Definition text_of (ps : list piece) : list Z := ps ≫= piece_text.

Definition field_ok (f : field) : Prop := 0 ≤ f_width f < 2147483648.
Definition text_fits (pre body : list Z) : Prop := Z.of_nat (length pre + length body) < 2147483648.

Definition piece_ok (p : piece) : Prop :=
  match p with
  | PLit c => c ≠ 0 ∧ c ≠ 37
  | PNum f _ _ | PChr f _ => field_ok f
  | PStr f s => field_ok f ∧ text_fits [] (default null_text s)
  | POther f c => field_ok f ∧ c ≠ 0 ∧
      oneof [35; 45; 113; 108; 48; 49; 50; 51; 52; 53; 54; 55; 56; 57] c = false ∧ oneof [100; 111; 117; 112; 120] c = false ∧ c ≠ 115 ∧ c ≠ 99
  end.

(** ** Numerals *)

Lemma numeral_length f b n k : 2 ≤ b → 0 ≤ n → n < b ^ Z.of_nat k → (1 ≤ k)%nat → (length (numeral f b n) ≤ k)%nat.
Proof.
  intros Hb. revert n k. induction f as [|f IH]; intros n k Hn Hk H1; simpl; [lia|]. destruct (Z.ltb_spec n b); [simpl; lia|].
  destruct k as [|k]; [lia|]. rewrite length_app. simpl. rewrite Nat2Z.inj_succ, Z.pow_succ_r in Hk by lia.
  destruct k as [|k]; [simpl in Hk; lia|].
  assert (length (numeral f b (n / b)) ≤ S k)%nat; [|lia]. apply IH; [apply Z.div_pos; lia| |lia]. apply Z.div_lt_upper_bound; lia.
Qed.

Lemma numeral_cons f b n : (0 < length (numeral (S f) b n))%nat.
Proof. simpl. destruct (n <? b); [simpl; lia|]. rewrite length_app. simpl. lia. Qed.

Lemma dig_load d : 0 ≤ d < 16 → load digits d = Ret (dig d).
Proof. intros Hd. assert (0 ≤ d < Z.of_nat (length digits)) as Hd' by (simpl; lia).
  destruct (load_in_range digits d Hd') as (x & E & El). unfold load, dig in *. by destruct (zget digits d). Qed.

(** The digits end up in the buffer, right before what was there. *)
Lemma printnum_loop_spec f b n buf x :
  2 ≤ b ≤ 16 → (0 < f)%nat → 0 ≤ n < b ^ Z.of_nat f → Z.of_nat (length (numeral f b n)) ≤ x + 1 → x < Z.of_nat (length buf) →
  ∃ buf', printnum_loop f b n buf x = Ret (buf', x - Z.of_nat (length (numeral f b n))) ∧ length buf' = length buf ∧
    drop (Z.to_nat (x + 1 - Z.of_nat (length (numeral f b n)))) buf' = numeral f b n ++ drop (Z.to_nat (x + 1)) buf.
Proof.
  intros Hb. revert n buf x. induction f as [|f IH]; intros n buf x Hf Hn Hl Hx; [lia|]. pose proof (numeral_cons f b n) as Hpos.
  cbn [printnum_loop]. rewrite (proj2 (Z.eqb_neq b 0)) by lia. pose proof (Z.mod_pos_bound n b ltac:(lia)).
  rewrite dig_load, mbind_Ret by lia. rewrite store_in_range, mbind_Ret by lia. cbv zeta. set (buf1 := <[Z.to_nat x := dig (n mod b)]> buf).
  assert (length buf1 = length buf) as El1 by apply length_insert.
  assert (drop (Z.to_nat x) buf1 = dig (n mod b) :: drop (Z.to_nat (x + 1)) buf) as Ed.
  { rewrite (drop_S buf1 (dig (n mod b)) (Z.to_nat x)) by (apply list_lookup_insert_eq; lia). f_equal.
    unfold buf1. rewrite drop_insert_lt by lia. f_equal. lia. }
  cbn [numeral] in Hl |- *. destruct (Z.ltb_spec n b) as [Hlt|Hge].
  - rewrite (Z.div_small n b), (Z.mod_small n b) in * by lia. cbn [Z.ltb Z.compare]. exists buf1. simpl length. split; [done|]. split; [done|].
    replace (x + 1 - Z.of_nat 1) with x by lia. exact Ed.
  - assert (0 < n / b) as Hq by (apply Z.div_str_pos; lia). rewrite (proj2 (Z.ltb_lt _ _)) by lia. rewrite length_app in *. simpl length in *.
    assert (n / b < b ^ Z.of_nat f) as Hnf by (rewrite Nat2Z.inj_succ, Z.pow_succ_r in Hn by lia; apply Z.div_lt_upper_bound; lia).
    assert (0 < f)%nat as Hf' by (destruct f; [simpl in Hnf; lia|lia]).
    destruct (IH (n / b) buf1 (x - 1)) as (buf' & E' & El' & Ed'); [done|lia|lia|lia|]. exists buf'. rewrite E'. split; [f_equal; f_equal; lia|].
    split; [lia|]. replace (x + 1 - Z.of_nat (length (numeral f b (n / b)) + 1)) with (x - 1 + 1 - Z.of_nat (length (numeral f b (n / b)))) by lia.
    rewrite Ed'. replace (x - 1 + 1) with x by lia. rewrite Ed, <- app_assoc. done.
Qed.

Lemma dig_range d : 0 ≤ d < 16 → 48 ≤ dig d < 128 ∧ (d < 10 → dig d = 48 + d).
Proof.
  intros Hd. assert (∀ n, (n < 16)%nat → 48 ≤ dig (Z.of_nat n) < 128 ∧ (Z.of_nat n < 10 → dig (Z.of_nat n) = 48 + Z.of_nat n)) as H.
  { intros n Hn. do 16 (destruct n as [|n]; [vm_compute; intuition congruence|]). lia. }
  specialize (H (Z.to_nat d)). rewrite Z2Nat.id in H by lia. apply H. lia.
Qed.

Lemma numeral_chars f b n : 2 ≤ b ≤ 16 → 0 ≤ n → Forall (λ c, 48 ≤ c < 128) (numeral f b n).
Proof.
  intros Hb. revert n. induction f as [|f IH]; intros n Hn; simpl; [constructor|]. destruct (Z.ltb_spec n b).
  - apply Forall_singleton, dig_range. lia.
  - apply Forall_app. split; [apply IH, Z.div_pos; lia|]. apply Forall_singleton, dig_range. pose proof (Z.mod_pos_bound n b). lia.
Qed.

Lemma numeral_S f b n : numeral (S f) b n = if n <? b then [dig n] else numeral f b (n / b) ++ [dig (n mod b)].
Proof. done. Qed.

#[global] Arguments numeral : simpl never.

(** ** Where the text goes *)

(** What a send function promises: the client's state holds what was sent. *)
Class Sender {C : Type} (send : list Z → EM C unit) := {
  sent : C → list Z → Prop;
  law_send c l t : sent c l → wpe (send t) (λ r c', r = inr tt ∧ sent c' (l ++ t)) c
}.

(** The count after [t] has been printed. *)
Definition bump (t : list Z) (p : PF) : PF := set_charcount (s32 (charcount p + Z.of_nat (length t))) p.

Lemma bump_app t1 t2 p : bump t2 (bump t1 p) = bump (t1 ++ t2) p.
Proof. unfold bump, set_charcount. simpl. rewrite s32_plus, length_app. do 2 f_equal. lia. Qed.

Lemma bump_nil p : is_s32 (charcount p) → bump [] p = p.
Proof. intros Hp. unfold bump. simpl. rewrite Z.add_0_r, s32_id by done. by destruct p. Qed.

(** The text [__pf_printstuff] makes of its strings. *)
Definition stuff_text (p : PF) (pre body : list Z) : list Z :=
  let fill := replicate (Z.to_nat (spacing p - Z.of_nat (length pre + length body))) (fillchar p) in
  if rightspc p then pre ++ body ++ fill
  else if fillchar p =? 48 then pre ++ fill ++ body
  else fill ++ pre ++ body.

Section engine.
Context {C : Type} (send : list Z → EM C unit) {HS : Sender send}.
Implicit Types (p : PF) (c : C) (l : list Z).

(** From [(p, c)] with [l] sent, [t] is printed and [p] counts it. *)
Definition prints p l (t : list Z) (r : Z + unit) (s : PF * C) : Prop := r = inr tt ∧ s.1 = bump t p ∧ sent s.2 (l ++ t).

Lemma pf_print_spec t p c l : sent c l → wpe (__pf_print send t) (prints p l t) (p, c).
Proof.
  intros Hc. unfold __pf_print. apply wpe_bind, wpe_onsnd. eapply wpe_mono; [by apply law_send|]. intros r c' [-> Hc'].
  apply wpe_onfst, wpe_mod. by split.
Qed.

(** One print after another. *)
Lemma prints_bind (m1 m2 : EM (PF * C) unit) p c l t1 t2 :
  wpe m1 (prints p l t1) (p, c) → (∀ c', sent c' (l ++ t1) → wpe m2 (prints (bump t1 p) (l ++ t1) t2) (bump t1 p, c')) →
  wpe (_ ← m1; m2) (prints p l (t1 ++ t2)) (p, c).
Proof.
  intros H1 H2. apply wpe_bind. eapply wpe_mono; [exact H1|]. intros r [p' c'] (-> & Ep & Hc'). simpl in Ep, Hc'. subst p'.
  eapply wpe_mono; [by apply H2|]. intros r' s' (-> & Es & Hs). split; [done|]. rewrite bump_app in Es. rewrite <- app_assoc in Hs. by split.
Qed.

Lemma prints_nil p c l : is_s32 (charcount p) → sent c l → wpe (mret tt) (prints p l []) (p, c).
Proof. intros Hp Hc. apply wpe_ret. split; [done|]. rewrite app_nil_r, bump_nil by done. done. Qed.

Lemma bump_s32 t p : is_s32 (charcount (bump t p)).
Proof. apply s32_range. Qed.
#[local] Hint Resolve bump_s32 : core.

Lemma fill_loop_spec n i f p c l : is_s32 (charcount p) → sent c l → wpe (for_up n i (λ _, __pf_print send [f])) (prints p l (replicate n f)) (p, c).
Proof.
  revert i p c l. induction n as [|n IH]; intros i p c l Hp Hc; cbn [for_up replicate]; [by apply prints_nil|].
  change (f :: replicate n f) with ([f] ++ replicate n f). apply prints_bind; [by apply pf_print_spec|]. intros c' Hc'. by apply IH.
Qed.

Lemma pf_fill_spec spc p c l :
  is_s32 (charcount p) → sent c l → wpe (__pf_fill send spc) (prints p l (replicate (Z.to_nat spc) (fillchar p))) (p, c).
Proof. intros Hp Hc. unfold __pf_fill. estep. by apply fill_loop_spec. Qed.

Lemma fill_if_spec b spc p c l :
  is_s32 (charcount p) → sent c l →
  wpe (if b : bool then __pf_fill send spc else mret tt) (prints p l (if b then replicate (Z.to_nat spc) (fillchar p) else [])) (p, c).
Proof. intros Hp Hc. destruct b; [by apply pf_fill_spec|by apply prints_nil]. Qed.

Lemma printstuff_spec pre1 pre2 body p c l :
  is_s32 (charcount p) → sent c l → text_fits (pre1 ++ pre2) body →
  wpe (__pf_printstuff send pre1 pre2 body) (prints p l (stuff_text p (pre1 ++ pre2) body)) (p, c).
Proof.
  intros Hp Hc Hfit. unfold __pf_printstuff. estep. cbv zeta. unfold text_fits in Hfit. rewrite length_app in Hfit.
  rewrite s32_id by (unfold is_s32; lia). set (len := _ + Z.of_nat (length body)). set (spc := if len <? spacing p then spacing p - len else 0).
  set (f := fillchar p). set (b1 := (0 <? spc) && negb (rightspc p) && negb (f =? 48)). set (b2 := (0 <? spc) && negb (rightspc p) && (f =? 48)).
  set (b3 := (0 <? spc) && rightspc p).
  assert (stuff_text p (pre1 ++ pre2) body = (if b1 then replicate (Z.to_nat spc) f else []) ++ pre1 ++ pre2 ++
    (if b2 then replicate (Z.to_nat spc) f else []) ++ body ++ (if b3 then replicate (Z.to_nat spc) f else [])) as ->.
  { unfold stuff_text. fold f. rewrite length_app.
    assert (Z.to_nat (spacing p - Z.of_nat (length pre1 + length pre2 + length body)) = Z.to_nat spc) as -> by (unfold spc, len; destruct (Z.ltb_spec (Z.of_nat (length pre1) + Z.of_nat (length pre2) + Z.of_nat (length body)) (spacing p)); lia).
    unfold b1, b2, b3. destruct (Z.ltb_spec 0 spc) as [Hs|Hs]; [destruct (rightspc p), (f =? 48); simpl; by rewrite ?app_nil_r, <- ?app_assoc|].
    replace (Z.to_nat spc) with 0%nat by lia. destruct (rightspc p), (f =? 48); simpl; by rewrite ?app_nil_r, <- ?app_assoc. }
  apply prints_bind; [by apply fill_if_spec|]. intros c1 H1. apply prints_bind; [by apply pf_print_spec|]. intros c2 H2.
  apply prints_bind; [by apply pf_print_spec|]. intros c3 H3. apply prints_bind; [by apply (fill_if_spec b2 spc)|]. intros c4 H4.
  apply prints_bind; [by apply pf_print_spec|]. intros c5 H5. by apply (fill_if_spec b3 spc).
Qed.

Lemma printnum_spec p c l :
  is_s32 (charcount p) → sent c l → base p = 8 ∨ base p = 10 ∨ base p = 16 → is_u32 (num p) →
  wpe (__pf_printnum send) (prints p l (stuff_text p
    ((if sign p then [45] else []) ++ (if baseprefix p then if base p =? 16 then [48; 120] else if base p =? 8 then [48] else [] else []))
    (num_digits (base p) (num p)))) (p, c).
Proof.
  intros Hp Hc Hb Hn. unfold __pf_printnum. estep. cbv zeta. apply wpe_bind. eapply wpe_lift; [reflexivity|]. set (b := base p) in *. set (n := num p) in *.
  assert (length (num_digits b n) ≤ 11)%nat as Hl.
  { apply numeral_length; [lia|unfold is_u32 in Hn; lia| |lia]. unfold is_u32 in Hn. apply Z.lt_le_trans with (8 ^ Z.of_nat 11); [change (8 ^ Z.of_nat 11) with 8589934592; lia|].
    apply Z.pow_le_mono_l. lia. }
  set (buf := <[_ := 0]> (replicate NUMBER_BUF_SIZE 0)).
  destruct (printnum_loop_spec 33 b n buf (Z.of_nat NUMBER_BUF_SIZE - 1 - 1)) as (buf' & E & El & Ed); [lia|lia| |unfold NUMBER_BUF_SIZE; lia|done|].
  { unfold is_u32 in Hn. split; [lia|]. apply Z.lt_le_trans with (8 ^ Z.of_nat 33); [assert (4294967296 < 8 ^ Z.of_nat 33) by done; lia|]. apply Z.pow_le_mono_l. lia. }
  apply wpe_bind. eapply wpe_lift; [exact E|]. cbv beta iota.
  replace (Z.of_nat NUMBER_BUF_SIZE - 1 - 1 - Z.of_nat (length (num_digits b n)) + 1) with (Z.of_nat NUMBER_BUF_SIZE - 1 - 1 + 1 - Z.of_nat (length (num_digits b n))) by lia.
  rewrite Ed. change (drop (Z.to_nat (Z.of_nat NUMBER_BUF_SIZE - 1 - 1 + 1)) buf) with [0].
  rewrite cstr_app by (eapply Forall_impl; [apply numeral_chars; unfold is_u32 in Hn; lia|]; simpl; lia).
  replace (if baseprefix p && (b =? 16) then [48; 120] else if baseprefix p && (b =? 8) then [48] else [])
    with (if baseprefix p then if b =? 16 then [48; 120] else if b =? 8 then [48] else [] else []) by (by destruct (baseprefix p)).
  apply printstuff_spec; [done|done|]. unfold text_fits. rewrite length_app. destruct (sign p), (baseprefix p), (b =? 16), (b =? 8); simpl; lia.
Qed.

(** ** Flags and widths *)

(** Characters that only change the state. *)
Inductive steps : list Z → PF → PF → Prop :=
  | steps_nil p : steps [] p p
  | steps_cons ch cs p1 p2 p3 : (∀ c, __pf_send send ch (p1, c) = Ret (inr tt, (p2, c))) → steps cs p2 p3 → steps (ch :: cs) p1 p3.

Lemma steps_app cs1 cs2 p1 p2 p3 : steps cs1 p1 p2 → steps cs2 p2 p3 → steps (cs1 ++ cs2) p1 p3.
Proof. induction 1 as [|ch cs q1 q2 q3 H1 _ IH]; [done|]. intros H2. simpl. eapply steps_cons; [exact H1|by apply IH]. Qed.

Lemma steps_loop cs p p' rest Q c : steps cs p p' → wpe (vprintf_loop send rest) Q (p', c) → wpe (vprintf_loop send (cs ++ rest)) Q (p, c).
Proof.
  intros H HQ. induction H as [|ch cs p1 p2 p3 H1 _ IH]; [done|]. simpl. apply wpe_bind. eapply wpe_intro; [apply H1|]. by apply IH.
Qed.

Lemma steps_one ch p p' : (∀ c, __pf_send send ch (p, c) = Ret (inr tt, (p', c))) → steps [ch] p p'.
Proof. intros H. eapply steps_cons; [exact H|apply steps_nil]. Qed.

Lemma steps_if (b : bool) ch p p' : (b = true → ∀ c, __pf_send send ch (p, c) = Ret (inr tt, (p', c))) → (b = false → p = p') → steps (if b then [ch] else []) p p'.
Proof. intros H1 H2. destruct b; [by apply steps_one, H1|]. rewrite (H2 eq_refl). apply steps_nil. Qed.

(** Between conversions, and in one whose flags have been read. *)
Definition idle (ap : list arg) (n : Z) : PF := mkPF ap n false INTSZ 0 false 0 false 32 0 false false.
Definition armed (f : field) (ap : list arg) (n : Z) : PF :=
  mkPF ap n true (if f_long f then LONGSZ else INTSZ) 0 false (f_width f) (f_left f) (if f_zero f then 48 else 32) 0 false (f_alt f).

Lemma send_modifier ch p c :
  in_pct p = true → ch ≠ 0 → oneof [35; 45; 113; 108; 48; 49; 50; 51; 52; 53; 54; 55; 56; 57] ch = true → __pf_send send ch (p, c) = __pf_modifier ch (p, c).
Proof.
  intros Hp H0 Hm. unfold __pf_send, eassert, lift, eget, mbind, EM_mbind. rewrite (proj2 (Z.eqb_neq ch 0)) by done. cbn -[oneof]. by rewrite Hp, Hm.
Qed.

(** One digit of the width. *)
Lemma send_digit ap n sz sp (rs : bool) fc al d :
  0 ≤ d < 10 → 0 ≤ sp → 0 < sp ∨ 0 < d → sp * 10 + d < 2147483648 →
  ∀ c, __pf_send send (48 + d) (mkPF ap n true sz 0 false sp rs fc 0 false al, c) = Ret (inr tt, (mkPF ap n true sz 0 false (sp * 10 + d) rs fc 0 false al, c)).
Proof.
  intros Hd Hsp Hpos Hlim c. rewrite send_modifier; [|done|lia|].
  - unfold __pf_modifier. rewrite !(proj2 (Z.eqb_neq (48 + d) _)) by lia. unfold set_spacing, onfst, emod, eassert, lift, mbind, EM_mbind.
    destruct (Z.eqb_spec (48 + d) 48).
    + cbn -[Z.ltb s32 Z.mul Z.add]. rewrite (proj2 (Z.ltb_lt 0 sp)) by lia. cbn -[Z.ltb s32 Z.mul Z.add]. rewrite s32_id by (unfold is_s32; lia). do 4 f_equal. lia.
    + rewrite (proj2 (Z.ltb_lt 48 _)), (proj2 (Z.leb_le _ 57)) by lia. cbn -[Z.ltb s32 Z.mul Z.add Z.sub]. replace (48 + d - 48) with d by lia. by rewrite s32_id by (unfold is_s32; lia).
  - assert (∃ k, d = Z.of_nat k ∧ (k < 10)%nat) as (k & -> & Hk) by (exists (Z.to_nat d); lia). do 10 (destruct k as [|k]; [done|]). lia.
Qed.

Lemma steps_width ap n sz (rs : bool) fc al f w :
  0 < w < 10 ^ Z.of_nat f → w < 2147483648 →
  steps (numeral f 10 w) (mkPF ap n true sz 0 false 0 rs fc 0 false al) (mkPF ap n true sz 0 false w rs fc 0 false al).
Proof.
  revert w. induction f as [|f IH]; intros w Hw Hlim; [simpl in Hw; lia|]. rewrite numeral_S. destruct (Z.ltb_spec w 10) as [Hlt|Hge].
  - apply steps_one. intros c. rewrite (proj2 (dig_range w ltac:(lia))) by lia. rewrite send_digit by lia. do 4 f_equal.
  - pose proof (Z.mod_pos_bound w 10 ltac:(lia)). pose proof (Z.div_mod w 10 ltac:(lia)). eapply steps_app; [apply IH|].
    + rewrite Nat2Z.inj_succ, Z.pow_succ_r in Hw by lia. split; [lia|]. apply Z.div_lt_upper_bound; lia.
    + lia.
    + apply steps_one. intros c. rewrite (proj2 (dig_range (w mod 10) ltac:(lia))) by lia. rewrite send_digit by lia. do 4 f_equal. lia.
Qed.

Lemma steps_field f ap n : field_ok f → steps ([37] ++ field_chars f) (idle ap n) (armed f ap n).
Proof.
  intros Hf. destruct f as [al le ze w lo]. unfold field_ok, field_chars, armed, idle in *. cbn [f_alt f_left f_zero f_width f_long] in *.
  eapply steps_app; [apply steps_one; intros c; reflexivity|]. cbn -[numeral].
  eapply steps_app; [apply (steps_if al 35 _ (mkPF ap n true INTSZ 0 false 0 false 32 0 false al)); intros ->; reflexivity|].
  eapply steps_app; [apply (steps_if le 45 _ (mkPF ap n true INTSZ 0 false 0 le 32 0 false al)); intros ->; reflexivity|].
  eapply steps_app; [apply (steps_if ze 48 _ (mkPF ap n true INTSZ 0 false 0 le (if ze then 48 else 32) 0 false al)); intros ->; reflexivity|].
  eapply steps_app; [|apply (steps_if lo 108 (mkPF ap n true INTSZ 0 false w le (if ze then 48 else 32) 0 false al)); intros ->; reflexivity].
  destruct (Z.ltb_spec 0 w) as [Hw|Hw]; [|replace w with 0 by lia; apply steps_nil]. apply steps_width; [|lia]. split; [lia|].
  apply Z.lt_trans with 2147483648; [lia|]. vm_compute. reflexivity.
Qed.

Lemma loop_app l1 l2 Q s : wpe (vprintf_loop send l1) (λ r s', r = inr tt ∧ wpe (vprintf_loop send l2) Q s') s → wpe (vprintf_loop send (l1 ++ l2)) Q s.
Proof.
  revert s. induction l1 as [|ch l1 IH]; intros s H; simpl in *; [by destruct H|]. apply wpe_bind.
  unfold mbind, EM_mbind in H. unfold wpe in H |- *. destruct (__pf_send send ch s) as [[[e|[]] s']| | |]; try done; [by destruct H|]. by apply IH.
Qed.

(** The end of a conversion: its text has been printed, the flags are reset. *)
Definition done_with ap n l t (r : Z + unit) (s : PF * C) : Prop := r = inr tt ∧ s.1 = idle ap (s32 (n + Z.of_nat (length t))) ∧ sent s.2 (l ++ t).

Lemma end_conversion (m : EM (PF * C) unit) p c l t :
  wpe m (prints p l t) (p, c) → wpe (_ ← m; __pf_endfield) (done_with (pf_ap p) (charcount p) l t) (p, c).
Proof.
  intros H. apply wpe_bind. eapply wpe_mono; [exact H|]. intros r [p' c'] (-> & Ep & Hc). simpl in Ep, Hc. subst p'.
  apply wpe_onfst, wpe_mod. by split.
Qed.

Lemma armed_text f ap n pre body : stuff_text (armed f ap n) pre body = layout f pre body.
Proof. unfold stuff_text, layout, armed. simpl. destruct (f_left f), (f_zero f); done. Qed.

(** The conversions of numbers, once the flags are in. *)
Lemma send_num f t z ap n c l :
  field_ok f → is_s32 n → sent c l →
  wpe (__pf_send send (conv_char t)) (done_with ap n l (piece_text (PNum f t z))) (armed f (AInt z :: ap) n, c).
Proof.
  intros Hf Hn Hc. set (p := mkPF ap n true (if f_long f then LONGSZ else INTSZ) (num_value t z) (match t with Cd => s32 z <? 0 | _ => false end)
    (f_width f) (f_left f) (if f_zero f then 48 else 32) (conv_base t) (match t with Cp => true | _ => f_alt f end) (f_alt f)).
  assert (wpe (_ ← __pf_printnum send; __pf_endfield) (done_with ap n l (piece_text (PNum f t z))) (p, c)) as Hend.
  { eapply wpe_mono; [apply (end_conversion _ p c l)|]; [apply printnum_spec; [done|done|destruct t; auto|]|].
    - simpl. pose proof (s32_range z) as Hs. pose proof (u32_range z). unfold is_s32, is_u32 in *. destruct t; simpl; lia.
    - intros r s H. replace (piece_text (PNum f t z)) with
        (stuff_text p ((if sign p then [45] else []) ++ (if baseprefix p then if base p =? 16 then [48; 120] else if base p =? 8 then [48] else [] else []))
          (num_digits (base p) (num p))); [exact H|].
      unfold stuff_text, piece_text, layout, num_sign, num_prefix. simpl. destruct t; simpl; destruct (f_left f), (f_zero f), (f_alt f); done. }
  unfold __pf_send. apply wpe_bind, wpe_assert; [by destruct t|]. estep. cbn [in_pct armed negb andb].
  replace (oneof _ (conv_char t)) with false by (by destruct t). replace (oneof _ (conv_char t)) with true by (by destruct t).
  apply wpe_bind. unfold __pf_getnum. apply wpe_bind. eapply wpe_intro; [reflexivity|].
  assert (wpe (_ ← __pf_setbase (conv_char t); _ ← __pf_printnum send; __pf_endfield) (done_with ap n l (piece_text (PNum f t z)))
    (mkPF ap n true (if f_long f then LONGSZ else INTSZ) (num p) (sign p) (f_width f) (f_left f) (if f_zero f then 48 else 32) 0 false (f_alt f), c)) as Hbase.
  { apply wpe_bind, wpe_onfst, wpe_mod. eapply wpe_mono; [|exact (λ r s H, H)]. unfold p in Hend. destruct t; simpl in *; destruct (f_alt f); exact Hend. }
  pose proof (s32_range z) as Hs. unfold is_s32 in Hs.
  destruct t; simpl (conv_char _); cbn [Z.eqb Pos.eqb]; apply wpe_onfst, wpe_mod; cbn [armed set_ap]; try exact Hbase.
  unfold p in Hbase. cbn [num sign num_value] in Hbase. destruct (Z.ltb_spec (s32 z) 0).
  - rewrite u32_id by (unfold is_u32; lia). rewrite <- (Z.abs_neq (s32 z)) by lia. exact Hbase.
  - rewrite u32_id by (unfold is_u32; lia). rewrite <- (Z.abs_eq (s32 z)) by lia. exact Hbase.
Qed.

(** The other conversions. *)
Lemma send_stuff f body ap n c l :
  is_s32 n → sent c l → text_fits [] body →
  wpe (_ ← __pf_printstuff send [] [] body; __pf_endfield) (done_with ap n l (layout f [] body)) (armed f ap n, c).
Proof.
  intros Hn Hc Hfit. rewrite <- (armed_text f ap n). apply (end_conversion _ (armed f ap n) c l), (printstuff_spec [] [] body); done.
Qed.

Lemma send_str f s ap n c l :
  is_s32 n → sent c l → text_fits [] (default null_text s) →
  wpe (__pf_send send 115) (done_with ap n l (piece_text (PStr f s))) (armed f (AStr s :: ap) n, c).
Proof.
  intros Hn Hc Hfit. unfold __pf_send. apply wpe_bind, wpe_assert; [done|]. estep. cbn [in_pct armed negb andb oneof existsb Z.eqb Pos.eqb orb].
  apply wpe_bind. eapply wpe_intro; [reflexivity|]. cbv beta iota. change (set_ap ap (armed f (AStr s :: ap) n)) with (armed f ap n).
  by apply (send_stuff f (default null_text s)).
Qed.

Lemma cstr_one x : cstr [x; 0] = if x =? 0 then [] else [x].
Proof. simpl. by destruct (x =? 0). Qed.

Lemma send_chr f z ap n c l :
  is_s32 n → sent c l → wpe (__pf_send send 99) (done_with ap n l (piece_text (PChr f z))) (armed f (AInt z :: ap) n, c).
Proof.
  intros Hn Hc. unfold __pf_send. apply wpe_bind, wpe_assert; [done|]. estep. cbn [in_pct armed negb andb oneof existsb Z.eqb Pos.eqb orb].
  apply wpe_bind, wpe_bind. eapply wpe_intro; [reflexivity|]. apply wpe_ret. cbv beta iota. change (set_ap ap (armed f (AInt z :: ap) n)) with (armed f ap n).
  rewrite cstr_one. apply (send_stuff f); [done|done|]. unfold text_fits. destruct (u8 z =? 0); simpl; lia.
Qed.

Lemma send_other f ch ap n c l :
  is_s32 n → sent c l → piece_ok (POther f ch) → wpe (__pf_send send ch) (done_with ap n l (piece_text (POther f ch))) (armed f ap n, c).
Proof.
  intros Hn Hc (_ & H0 & Hm & Hk & Hs & Hch). unfold __pf_send. apply wpe_bind, wpe_assert; [by rewrite (proj2 (Z.eqb_neq _ _) H0)|]. estep.
  cbn [in_pct armed negb andb]. rewrite Hm, Hk, (proj2 (Z.eqb_neq _ _) Hs), (proj2 (Z.eqb_neq _ _) Hch). apply wpe_bind, wpe_ret. cbv beta iota.
  rewrite cstr_one, (proj2 (Z.eqb_neq _ _) H0). apply (send_stuff f); [done|done|]. unfold text_fits. simpl. lia.
Qed.

Lemma loop_one ch Q s : wpe (__pf_send send ch) Q s → (∀ r s', Q r s' → r = inr tt) → wpe (vprintf_loop send [ch]) Q s.
Proof.
  intros H Hr. simpl. apply wpe_bind. eapply wpe_mono; [exact H|]. intros r s' HQ. pose proof (Hr _ _ HQ) as ->. by apply wpe_ret.
Qed.

Lemma piece_spec pc ap n c l :
  piece_ok pc → is_s32 n → sent c l → wpe (vprintf_loop send (piece_format pc)) (done_with ap n l (piece_text pc)) (idle (piece_args pc ++ ap) n, c).
Proof.
  intros Hpc Hn Hc.
  assert (∀ f ch ap', field_ok f → wpe (__pf_send send ch) (done_with ap n l (piece_text pc)) (armed f ap' n, c) →
    wpe (vprintf_loop send ([37] ++ field_chars f ++ [ch])) (done_with ap n l (piece_text pc)) (idle ap' n, c)) as Hpct.
  { intros f ch ap' Hf H. rewrite app_assoc. eapply steps_loop; [by apply steps_field|]. apply loop_one; [exact H|]. by intros r s' []. }
  destruct pc as [ch|f t z|f s|f z|f ch]; cbn [piece_format piece_args app] in *.
  - destruct Hpc as [H0 H37]. apply loop_one; [|by intros r s' []]. unfold __pf_send. apply wpe_bind, wpe_assert; [by rewrite (proj2 (Z.eqb_neq _ _) H0)|]. estep.
    cbn [in_pct idle negb andb]. rewrite (proj2 (Z.eqb_neq _ _) H37). eapply wpe_mono; [by apply (pf_print_spec [ch])|]. intros r s' (-> & E & Hs). by split.
  - apply Hpct; [done|]. by apply send_num.
  - apply Hpct; [by destruct Hpc|]. by apply send_str; destruct Hpc.
  - apply Hpct; [done|]. by apply send_chr.
  - apply Hpct; [by destruct Hpc|]. by apply send_other.
Qed.

Lemma pieces_spec ps ap n c l :
  Forall piece_ok ps → is_s32 n → sent c l → wpe (vprintf_loop send (format_of ps)) (done_with ap n l (text_of ps)) (idle (args_of ps ++ ap) n, c).
Proof.
  intros Hps. revert n c l. induction Hps as [|pc ps Hpc Hps IH]; intros n c l Hn Hc.
  - apply wpe_ret. split; [done|]. simpl. rewrite Z.add_0_r, s32_id, app_nil_r by done. done.
  - unfold format_of, args_of, text_of. rewrite !bind_cons. apply loop_app. rewrite <- app_assoc. eapply wpe_mono; [by apply piece_spec|].
    intros r [p' c'] (-> & Ep & Hc'). simpl in Ep, Hc'. subst p'. split; [done|]. eapply wpe_mono; [apply IH; [apply s32_range|exact Hc']|].
    intros r [p' c''] (-> & Ep & Hc''). split; [done|]. simpl in *. rewrite Ep, s32_plus, length_app, app_assoc. split; [|done].
    by rewrite Nat2Z.inj_add, Z.add_assoc.
Qed.

(** [__vprintf] sends the text of its format and returns how long it is. *)
Lemma vprintf_spec ps c l :
  Forall piece_ok ps → sent c l →
  wpe (__vprintf send (format_of ps) (args_of ps)) (λ r c', r = inr (s32 (Z.of_nat (length (text_of ps)))) ∧ sent c' (l ++ text_of ps)) c.
Proof.
  intros Hps Hc. unfold __vprintf, wpe. pose proof (pieces_spec ps [] 0 c l Hps ltac:(done) Hc) as H. rewrite app_nil_r in H.
  unfold mbind, EM_mbind, eget. change (pf_start (args_of ps)) with (idle (args_of ps) 0). unfold wpe in H.
  destruct (vprintf_loop send (format_of ps) _) as [[r [p' c']]| | |]; try done. destruct H as (-> & E & Hs). simpl in *. by rewrite E.
Qed.
End engine.

(** ** snprintf *)

(** [m'] is [m] with [l] written at [a], and nothing else. *)
Definition written (m : mem) (a : Z) (l : list Z) (m' : mem) : Prop :=
  ∀ x, m' !! x = if (a <=? x) && (x <? a + Z.of_nat (length l)) then l !! Z.to_nat (x - a) else m !! x.

Lemma written_nil m a : written m a [] m.
Proof. intros x. destruct (Z.leb_spec a x), (Z.ltb_spec x (a + Z.of_nat (length (@nil Z)))); simpl in *; done || lia. Qed.

Lemma written_snoc m a l c m' : written m a l m' → written m a (l ++ [c]) (<[a + Z.of_nat (length l) := c]> m').
Proof.
  intros H x. rewrite length_app. simpl. destruct (decide (x = a + Z.of_nat (length l))) as [->|Hne].
  - rewrite lookup_insert_eq. rewrite (proj2 (Z.leb_le _ _)), (proj2 (Z.ltb_lt _ _)) by lia. simpl.
    rewrite lookup_app_r by lia. by replace (Z.to_nat _ - length l)%nat with 0%nat by lia.
  - rewrite lookup_insert_ne, (H x) by done. destruct (Z.leb_spec a x); simpl; [|done].
    destruct (Z.ltb_spec x (a + Z.of_nat (length l))); [rewrite (proj2 (Z.ltb_lt _ _)) by lia; by rewrite lookup_app_l by lia|].
    by rewrite (proj2 (Z.ltb_ge _ _)) by lia.
Qed.

Lemma written_mapped m a l m' x : written m a l m' → is_Some (m !! x) → is_Some (m' !! x).
Proof.
  intros H Hx. rewrite (H x). destruct (Z.leb_spec a x), (Z.ltb_spec x (a + Z.of_nat (length l))); simpl; try done. apply lookup_lt_is_Some_2. lia.
Qed.

Lemma written_lookup m a l m' i x : written m a l m' → l !! i = Some x → m' !! (a + Z.of_nat i) = Some x.
Proof.
  intros H Hi. pose proof (lookup_lt_Some _ _ _ Hi). rewrite (H _), (proj2 (Z.leb_le _ _)), (proj2 (Z.ltb_lt _ _)) by lia. simpl.
  by replace (Z.to_nat _) with i by lia.
Qed.

(** The buffer's own promise as a sender: it holds as much of the text as fits. *)
Section buffer.
Context (m : mem) (buf L : Z) (HL : 0 ≤ L) (Hmap : mapped_at m buf L).

Definition in_buffer (s : mem * SNP) (l : list Z) : Prop :=
  s.2 = mkSNP buf L (Z.of_nat (length (take (Z.to_nat L) l))) ∧ written m buf (take (Z.to_nat L) l) s.1.

Lemma snprintf_chars_spec t s l : in_buffer s l → wpe (snprintf_chars t) (λ r s', r = inr tt ∧ in_buffer s' (l ++ t)) s.
Proof.
  revert s l. induction t as [|c t IH]; intros [m1 snp] l [Es Hw]; simpl in Es, Hw; cbn [snprintf_chars].
  { apply wpe_ret. rewrite app_nil_r. done. }
  estep. subst snp. cbn [snp_bufpos snp_buflen snp_buf]. apply wpe_bind. rewrite length_take.
  eapply wpe_mono with (Q := λ r s', r = inr tt ∧ in_buffer s' (l ++ [c])).
  - destruct (Z.ltb_spec (Z.of_nat (Z.to_nat L `min` length l)) L) as [Hlt|Hge].
    + rewrite take_ge in Hw by lia. apply wpe_bind, wpe_onfst, wpe_st; [eapply written_mapped; [exact Hw|]; apply Hmap; lia|].
      apply wpe_onsnd, wpe_mod. split; [done|]. unfold in_buffer. simpl. rewrite take_ge by (rewrite length_app; simpl; lia).
      rewrite length_app. simpl. split; [f_equal; lia|]. replace (Z.to_nat L `min` length l)%nat with (length l) by lia. by apply written_snoc.
    + apply wpe_ret. split; [done|]. unfold in_buffer. simpl. rewrite take_app_le by lia. by rewrite length_take.
  - intros r s' [-> Hs']. eapply wpe_mono; [by apply IH|]. by rewrite <- app_assoc.
Qed.

#[local] Instance buffer_sender : Sender __snprintf_send := {| sent := in_buffer; law_send s l t := snprintf_chars_spec t s l |}.

Lemma vprintf_buffer ps s :
  Forall piece_ok ps → in_buffer s [] →
  wpe (__vprintf __snprintf_send (format_of ps) (args_of ps)) (λ r s', r = inr (s32 (Z.of_nat (length (text_of ps)))) ∧ in_buffer s' (text_of ps)) s.
Proof. intros Hps Hs. exact (vprintf_spec __snprintf_send ps s [] Hps Hs). Qed.
End buffer.

(** What [snprintf] leaves in a buffer of [len] bytes. *)
Definition snprintf_text (len : Z) (text : list Z) : list Z := if 0 <? len then take (Z.to_nat (len - 1)) text ++ [0] else [].

Lemma snprintf_spec m buf len ps :
  Forall piece_ok ps → 0 ≤ len → mapped_at m buf len →
  wpe (snprintf buf len (format_of ps) (args_of ps))
    (λ r m', r = inr (s32 (Z.of_nat (length (text_of ps)))) ∧ written m buf (snprintf_text len (text_of ps)) m') m.
Proof.
  intros Hps Hlen Hmap. unfold snprintf, vsnprintf, snprintf_text. set (L := if len =? 0 then 0 else len - 1).
  assert (0 ≤ L ∧ (0 < len → L = len - 1) ∧ (len = 0 → L = 0)) as (HL & HL1 & HL2) by (unfold L; destruct (Z.eqb_spec len 0); lia).
  pose proof (vprintf_buffer m buf L HL ltac:(intros i Hi; apply Hmap; lia) ps (m, mkSNP buf L 0) Hps) as H.
  unfold in_buffer in H at 1. rewrite take_nil in H. specialize (H (conj eq_refl (written_nil m buf))). unfold wpe in H |- *. unfold mbind, EM_mbind.
  destruct (__vprintf __snprintf_send _ _ _) as [[r [m' snp]]| | |]; try done. destruct H as [-> [E Hw]]. simpl in E, Hw. subst snp. cbn [eget snp_bufpos].
  destruct (Z.ltb_spec 0 len) as [Hpos|Hz].
  - rewrite HL1 in * by done. unfold onfst, st, mret, EM_mret. 
    assert (is_Some (m' !! (buf + Z.of_nat (length (take (Z.to_nat (len - 1)) (text_of ps)))))) as [x Ex].
    { eapply written_mapped; [exact Hw|]. apply Hmap. rewrite length_take. lia. }
    simpl. rewrite Ex. simpl. split; [done|]. by apply written_snoc.
  - rewrite HL2 in Hw by lia. simpl. split; [done|]. by rewrite take_0 in Hw.
Qed.

(** ** Reading a number back *)

Definition atoi_step (v c : Z) : Z := u32 (v * 10 + (c - 48)).

Lemma atoi_digits_spec f m s l v :
  str_at m s l → Forall (λ c, 48 ≤ c ≤ 57) l → (length l < f)%nat → wpe (atoi_digits f s v) (λ r m', r = inr (foldl atoi_step v l) ∧ m' = m) m.
Proof.
  intros Hs Hl. revert f s v Hs. induction Hl as [|c l Hc Hl IH]; intros f s v Hs Hf; (destruct f as [|f]; [simpl in Hf; lia|]); cbn [atoi_digits]; apply wpe_bind.
  - eapply wpe_ld; [by apply str_at_nil|]. by apply wpe_ret.
  - destruct (str_at_cons _ _ _ _ Hs) as (E & _ & Hs'). eapply wpe_ld; [exact E|]. rewrite (proj2 (Z.eqb_neq c 0)), (proj2 (Z.leb_le 48 c)), (proj2 (Z.leb_le c 57)) by lia.
    apply IH; [done|simpl in Hf; lia].
Qed.

Lemma numeral_value f n : 0 ≤ n < 10 ^ Z.of_nat f → is_u32 n → (0 < f)%nat → foldl atoi_step 0 (numeral f 10 n) = n.
Proof.
  revert n. induction f as [|f IH]; intros n Hn Hu Hf; [lia|]. rewrite numeral_S. unfold is_u32 in Hu. destruct (Z.ltb_spec n 10).
  - simpl. rewrite (proj2 (dig_range n ltac:(lia))) by lia. unfold atoi_step. rewrite u32_id by (unfold is_u32; lia). lia.
  - pose proof (Z.mod_pos_bound n 10 ltac:(lia)). pose proof (Z.div_mod n 10 ltac:(lia)). rewrite foldl_app, IH.
    + simpl. rewrite (proj2 (dig_range (n mod 10) ltac:(lia))) by lia. unfold atoi_step. rewrite u32_id by (unfold is_u32; lia). lia.
    + rewrite Nat2Z.inj_succ, Z.pow_succ_r in Hn by lia. split; [lia|]. apply Z.div_lt_upper_bound; lia.
    + unfold is_u32. lia.
    + destruct f; [|lia]. rewrite Z.pow_1_r in Hn. lia.
Qed.

Lemma numeral_decimal f n : 0 ≤ n → Forall (λ c, 48 ≤ c ≤ 57) (numeral f 10 n).
Proof.
  revert n. induction f as [|f IH]; intros n Hn; [constructor|]. rewrite numeral_S. destruct (Z.ltb_spec n 10).
  - apply Forall_singleton. rewrite (proj2 (dig_range n ltac:(lia))); lia.
  - pose proof (Z.mod_pos_bound n 10 ltac:(lia)). apply Forall_app. split; [apply IH, Z.div_pos; lia|]. apply Forall_singleton.
    rewrite (proj2 (dig_range (n mod 10) ltac:(lia))); lia.
Qed.

(** The decimal numeral of [z], with its sign. *)
Definition decimal (z : Z) : list Z := (if z <? 0 then [45] else []) ++ num_digits 10 (Z.abs z).

Lemma atoi_space_none m s c : m !! s = Some c → c ≠ 32 → c ≠ 9 → wpe (strfuel (λ f, atoi_space f s)) (λ r m', r = inr s ∧ m' = m) m.
Proof.
  intros E H1 H2. apply wpe_strfuel. cbn [atoi_space]. apply wpe_bind. eapply wpe_ld; [exact E|].
  rewrite (proj2 (Z.eqb_neq _ _) H1), (proj2 (Z.eqb_neq _ _) H2). by apply wpe_ret.
Qed.

Lemma atoi_decimal m s z : is_s32 z → str_at m s (decimal z) → wpe (atoi s) (λ r m', r = inr z ∧ m' = m) m.
Proof.
  intros Hz Hs. unfold is_s32 in Hz. unfold atoi. set (ds := num_digits 10 (Z.abs z)).
  assert (foldl atoi_step 0 ds = Z.abs z) as Ev by (apply numeral_value; [split; [lia|]; apply Z.lt_trans with 4294967296; [lia|done]|unfold is_u32; lia|lia]).
  pose proof (numeral_decimal 33 (Z.abs z) ltac:(lia)) as Hd. fold ds in Hd.
  assert (∃ s', str_at m s' ds ∧ s' = (if z <? 0 then s + 1 else s)) as (s' & Hs' & Es').
  { unfold decimal in Hs. fold ds in Hs. destruct (Z.ltb_spec z 0); [|by eexists]. exists (s + 1). split; [|done]. by apply str_at_cons in Hs as (_ & _ & ?). }
  assert (∃ c, m !! s = Some c ∧ (c = 45 ∧ z < 0 ∨ 48 ≤ c ≤ 57 ∧ 0 ≤ z)) as (c & Ec & Hc).
  { destruct (Z.ltb_spec z 0) as [Hn|Hn]; unfold decimal in Hs; fold ds in Hs; [rewrite (proj2 (Z.ltb_lt _ _) Hn) in Hs|rewrite (proj2 (Z.ltb_ge _ _) Hn) in Hs].
    - apply str_at_cons in Hs as (E & _). eauto.
    - pose proof (numeral_cons 32 10 (Z.abs z)) as Hlen. fold ds in Hlen. simpl in Hs. destruct ds as [|c ds']; [simpl in Hlen; lia|].
      apply str_at_cons in Hs as (E & _). exists c. split; [done|]. right. split; [by inversion Hd|done]. }
  apply wpe_bind. eapply wpe_mono; [apply (atoi_space_none m s c Ec); lia|]. intros r m1 [-> ->]. apply wpe_bind. eapply wpe_ld; [exact Ec|]. cbv zeta.
  replace (if (c =? 45) || (c =? 43) then s + 1 else s) with s'.
  2: { rewrite Es'. destruct Hc as [[-> Hn]|[Hc Hn]]; [by rewrite (proj2 (Z.ltb_lt _ _) Hn)|]. rewrite (proj2 (Z.ltb_ge _ _) Hn).
       by rewrite !(proj2 (Z.eqb_neq _ _)) by lia. }
  apply wpe_bind. apply wpe_strfuel. eapply wpe_mono; [apply (atoi_digits_spec _ m s' ds); [done|done|]; pose proof (str_at_size _ _ _ Hs'); lia|].
  intros r m1 [-> ->]. apply wpe_ret. split; [|done]. rewrite Ev. f_equal.
  destruct Hc as [[-> Hn]|[Hc Hn]]; [simpl; rewrite s32_id by (unfold is_s32; lia); lia|].
  rewrite (proj2 (Z.eqb_neq _ _)) by lia. rewrite s32_id by (unfold is_s32; lia). lia.
Qed.

(** ** Theorems *)

(** C34: [snprintf] prints exactly its format.  For any list of pieces - plain
    characters, numbers in the bases 8, 10 and 16 with their flags, width,
    sign and prefix, strings, characters and unknown conversions - and any
    buffer, the call writes the text of the pieces cut to the size of the
    buffer, with a terminator, writes nothing outside the buffer (and nothing
    at all when the size is 0) and returns the length of the whole text. *)
Theorem snprintf_correct (m : mem) (buf len : Z) (ps : list piece) :
  Forall piece_ok ps → 0 ≤ len → mapped_at m buf len →
  ∃ m', snprintf buf len (format_of ps) (args_of ps) m = Ret (inr (s32 (Z.of_nat (length (text_of ps)))), m') ∧
    written m buf (snprintf_text len (text_of ps)) m'.
Proof.
  intros Hps Hlen Hm. destruct (wpe_run _ _ _ (snprintf_spec m buf len ps Hps Hlen Hm)) as (r & m' & E & -> & Hw). by exists m'.
Qed.

(** "%05d" of -42, '|', "%#-8x" of 48879 and "%s" of "ok" in 16 bytes: 17
    characters, of which 15 fit. *)
Lemma snprintf_correct_witness :
  let ps := [PNum (mkField false false true 5 false) Cd (-42); PLit 124; PNum (mkField true true false 8 false) Cx 48879; PLit 32; PStr (mkField false false false 0 false) (Some [111; 107])] in
  let m := list_to_map ((λ i, (Z.of_nat i, 255)) <$> seq 0 20) : mem in
  ∃ m', snprintf 2 16 (format_of ps) (args_of ps) m = Ret (inr 17, m') ∧
    written m 2 [45; 48; 48; 52; 50; 124; 48; 120; 98; 101; 101; 102; 32; 32; 32; 0] m'.
Proof.
  intros ps m. apply (snprintf_correct m 2 16 ps).
  - repeat (apply Forall_cons_2; [cbn; unfold field_ok, text_fits; cbn; repeat split; lia || done|]). apply Forall_nil_2.
  - lia.
  - intros i Hi. assert (∃ k, i = Z.of_nat k ∧ (k < 16)%nat) as (k & -> & Hk) by (exists (Z.to_nat i); lia).
    do 16 (destruct k as [|k]; [vm_compute; by eexists|]). lia.
Defined.

(** C35: [atoi] reads back what [snprintf] prints with %d: for every int [z]
    and any buffer with room for the longest one (12 bytes, the terminator
    included), printing [z] and parsing the buffer gives [z] again. *)
Theorem snprintf_atoi (m : mem) (buf len z : Z) :
  12 ≤ len → mapped_at m buf len → is_s32 z →
  ∃ m', (_ ← snprintf buf len [37; 100] [AInt z]; atoi buf) m = Ret (inr z, m').
Proof.
  intros Hlen Hm Hz. set (ps := [PNum (mkField false false false 0 false) Cd z]).
  assert (text_of ps = decimal z) as Et.
  { unfold text_of, ps, decimal. rewrite bind_cons, app_nil_r. cbn [piece_text]. unfold layout, num_sign, num_prefix, num_value.
    cbn [f_left f_zero f_width]. rewrite s32_id, app_nil_r by done. rewrite (Z2Nat.nonpos (0 - _)) by lia. done. }
  assert (length (decimal z) ≤ 11)%nat as Hl.
  { unfold decimal. rewrite length_app. unfold is_s32 in Hz. pose proof (numeral_length 33 10 (Z.abs z) 10 ltac:(lia) ltac:(lia)) as H.
    change (10 ^ Z.of_nat 10) with 10000000000 in H. specialize (H ltac:(lia) ltac:(lia)). destruct (z <? 0); simpl length; lia. }
  pose proof (snprintf_spec m buf len ps ltac:(apply Forall_singleton; simpl; unfold field_ok; simpl; lia) ltac:(lia) Hm) as Hs.
  rewrite Et in Hs. unfold snprintf_text in Hs. rewrite (proj2 (Z.ltb_lt 0 len)), take_ge in Hs by lia. change (format_of ps) with [37; 100] in Hs.
  assert (wpe (_ ← snprintf buf len [37; 100] [AInt z]; atoi buf) (λ r _, r = inr z) m) as H.
  { apply wpe_bind. eapply wpe_mono; [exact Hs|]. intros r m' [-> Hw]. eapply wpe_mono; [apply atoi_decimal; [done|]|by intros r m1 [-> _]].
    split; [|intros i x; by eapply written_lookup]. unfold decimal. apply Forall_app. split; [destruct (z <? 0); [by apply Forall_singleton|apply Forall_nil_2]|].
    eapply Forall_impl; [apply numeral_decimal; lia|]. simpl. lia. }
  destruct (wpe_run _ _ _ H) as (r & m' & E & ->). by exists m'.
Qed.

Lemma snprintf_atoi_witness :
  let m := list_to_map ((λ i, (Z.of_nat i, 255)) <$> seq 0 12) : mem in
  ∃ m', (_ ← snprintf 0 12 [37; 100] [AInt (-2147483648)]; atoi 0) m = Ret (inr (-2147483648), m').
Proof.
  intros m. apply (snprintf_atoi m 0 12 (-2147483648)); [lia| |unfold is_s32; lia].
  intros i Hi. assert (∃ k, i = Z.of_nat k ∧ (k < 12)%nat) as (k & -> & Hk) by (exists (Z.to_nat i); lia).
  do 12 (destruct k as [|k]; [vm_compute; by eexists|]). lia.
Defined.
