(* ===== verification/Uio.v ===== *)
(** Copying between the kernel and user memory (kern/lib/copyinout.c) and the
    [uio] structures (kern/userprog/uio.c).

    User memory is a finite map from the addresses that can be touched to
    their bytes; touching another address is the fault that
    [pcb_badfaultfunc] and [longjmp] turn into EFAULT.  A kernel buffer is
    the list of its bytes.  What a failed copy leaves in a kernel buffer is
    left out: no caller reads it. *)

From Stdlib Require Import ZArith Lia.
From stdpp Require Import base numbers list option gmap.
From S2P Require Import Prelude Vm Errm.

Open Scope Z_scope.

(** ** Kernel buffers *)

Definition bytes (l : list Z) : Prop := Forall is_u8 l.

(** [n] bytes of a buffer, from index [off]. *)
Definition bget (b : list Z) (off n : Z) : res (list Z) :=
  if (0 <=? off) && (0 <=? n) && (off + n <=? Z.of_nat (length b))
  then Ret (take (Z.to_nat n) (drop (Z.to_nat off) b)) else Undef.

(** Overwriting part of a buffer. *)
Definition splice (b : list Z) (off : nat) (d : list Z) : list Z :=
  take off b ++ d ++ drop (off + length d) b.
Definition bput (b : list Z) (off : Z) (d : list Z) : res (list Z) :=
  if (0 <=? off) && (off + Z.of_nat (length d) <=? Z.of_nat (length b))
  then Ret (splice b (Z.to_nat off) d) else Undef.

(** ** copyinout.c *)

Abbreviation umem := (gmap Z Z).

(** The result and [stoplen]. *)
Definition copycheck (userptr len : Z) : Z * Z :=
  let bot := userptr in
  let top := u32 (u32 (bot + len) - 1) in
  if top <? bot then (EFAULT, len)
  else if USERTOP <=? bot then (EFAULT, len)
  else if USERTOP <=? top then (0, u32 (USERTOP - bot))
  else (0, len).

(** [memcpy] from user memory: [None] when it faults. *)
Fixpoint umem_read (um : umem) (a : Z) (n : nat) : option (list Z) :=
  match n with
  | O => Some []
  | S n' => b ← um !! a; bs ← umem_read um (a + 1) n'; Some (b :: bs)
  end.

(** [memcpy] to user memory: whether it faults, and the memory after. *)
Fixpoint umem_write (um : umem) (a : Z) (d : list Z) : bool * umem :=
  match d with
  | [] => (true, um)
  | b :: d' =>
      match um !! a with
      | Some _ => umem_write (<[a := b]> um) (a + 1) d'
      | None => (false, um)
      end
  end.

Definition copyin (um : umem) (usersrc len : Z) : Z + list Z :=
  let '(result, stoplen) := copycheck usersrc len in
  if negb (result =? 0) then inl result
  else if negb (stoplen =? len) then inl EFAULT
  else match umem_read um usersrc (Z.to_nat len) with
       | None => inl EFAULT
       | Some bs => inr bs
       end.

Definition copyout (um : umem) (src : list Z) (userdest : Z) : Z * umem :=
  let len := Z.of_nat (length src) in
  let '(result, stoplen) := copycheck userdest len in
  if negb (result =? 0) then (result, um)
  else if negb (stoplen =? len) then (EFAULT, um)
  else let '(ok, um') := umem_write um userdest src in
       (if ok then 0 else EFAULT, um').

(** [copystr] from user memory: the bytes up to and with the NUL, whose
    number is [gotlen].  [i] counts up to both lengths. *)
Fixpoint copystr_in (n : nat) (um : umem) (src i maxlen stoplen : Z) : Z + list Z :=
  match n with
  | O => if stoplen <? maxlen then inl EFAULT else inl ENAMETOOLONG
  | S n' =>
      if (i <? maxlen) && (i <? stoplen) then
        match um !! (src + i) with
        | None => inl EFAULT
        | Some c =>
            if c =? 0 then inr [0] else
            match copystr_in n' um src (i + 1) maxlen stoplen with
            | inl e => inl e
            | inr l => inr (c :: l)
            end
        end
      else if stoplen <? maxlen then inl EFAULT else inl ENAMETOOLONG
  end.

Definition copyinstr (um : umem) (usersrc len : Z) : Z + list Z :=
  let '(result, stoplen) := copycheck usersrc len in
  if negb (result =? 0) then inl result
  else copystr_in (Z.to_nat len) um usersrc 0 len stoplen.

(** [copystr] to user memory, from a buffer that holds a NUL: the result,
    the length copied and the memory. *)
Fixpoint copystr_out (n : nat) (um : umem) (src : list Z) (dest i maxlen stoplen : Z)
    : res (Z * Z * umem) :=
  match n with
  | O => Ret (if stoplen <? maxlen then EFAULT else ENAMETOOLONG, 0, um)
  | S n' =>
      if (i <? maxlen) && (i <? stoplen) then
        c ← load src i;
        match um !! (dest + i) with
        | None => Ret (EFAULT, 0, um)
        | Some _ =>
            let um := <[dest + i := c]> um in
            if c =? 0 then Ret (0, i + 1, um)
            else copystr_out n' um src dest (i + 1) maxlen stoplen
        end
      else Ret (if stoplen <? maxlen then EFAULT else ENAMETOOLONG, 0, um)
  end.

Definition copyoutstr (um : umem) (src : list Z) (userdest len : Z) : res (Z * Z * umem) :=
  let '(result, stoplen) := copycheck userdest len in
  if negb (result =? 0) then Ret (result, 0, um)
  else copystr_out (Z.to_nat len) um src userdest 0 len stoplen.

(** ** uio.c *)

Inductive uio_rw := UIO_READ | UIO_WRITE.
Inductive uio_seg := UIO_USERSPACE | UIO_SYSSPACE | UIO_USERISPACE.

#[global] Instance uio_rw_eq : EqDecision uio_rw.
Proof. solve_decision. Defined.
#[global] Instance uio_seg_eq : EqDecision uio_seg.
Proof. solve_decision. Defined.

(** [iov_base] is an index into [iov_kbuf], the kernel buffer, or an address
    of [uio_space], the user memory of the current thread. *)
Record uio := mkUio {
  iov_kbuf : list Z;
  iov_base : Z;
  iov_len : Z;
  uio_offset : Z;
  uio_resid : Z;
  uio_segflg : uio_seg;
  uio_rw_ : uio_rw;
  uio_space : option umem
}.

Definition is_read (u : uio) : bool := bool_decide (uio_rw_ u = UIO_READ).
Definition is_sys (u : uio) : bool := bool_decide (uio_segflg u = UIO_SYSSPACE).

Definition set_kbuf (b : list Z) (u : uio) : uio :=
  mkUio b (iov_base u) (iov_len u) (uio_offset u) (uio_resid u) (uio_segflg u) (uio_rw_ u) (uio_space u).
Definition set_uspace (m : umem) (u : uio) : uio :=
  mkUio (iov_kbuf u) (iov_base u) (iov_len u) (uio_offset u) (uio_resid u) (uio_segflg u) (uio_rw_ u) (Some m).
Definition set_resid (r : Z) (u : uio) : uio :=
  mkUio (iov_kbuf u) (iov_base u) (iov_len u) (uio_offset u) r (uio_segflg u) (uio_rw_ u) (uio_space u).
Definition set_offset (o : Z) (u : uio) : uio :=
  mkUio (iov_kbuf u) (iov_base u) (iov_len u) o (uio_resid u) (uio_segflg u) (uio_rw_ u) (uio_space u).
(** The updates after a transfer of [size] bytes. *)
Definition advance (size : Z) (u : uio) : uio :=
  mkUio (iov_kbuf u) (u32 (iov_base u + size)) (u32 (iov_len u - size)) (s32 (uio_offset u + size))
    (u32 (uio_resid u - size)) (uio_segflg u) (uio_rw_ u) (uio_space u).

(** The transfer of [size] bytes in the loop of [uiomove]; [off] is how far
    [ptr] has advanced in its buffer [buf]. *)
Definition uiomove_xfer (buf : list Z) (off size : Z) : EM uio (list Z) :=
  u ← eget;
  if is_sys u then
    if is_read u then
      d ← lift (bget buf off size);
      kb ← lift (bput (iov_kbuf u) (iov_base u) d);
      _ ← emod (set_kbuf kb);
      mret buf
    else
      d ← lift (bget (iov_kbuf u) (iov_base u) size);
      lift (bput buf off d)
  else
    um ← lift (deref (uio_space u));
    if is_read u then
      d ← lift (bget buf off size);
      let '(result, um') := copyout um d (iov_base u) in
      _ ← emod (set_uspace um');
      if negb (result =? 0) then raise result else mret buf
    else
      match copyin um (iov_base u) size with
      | inl e => raise e
      | inr d => lift (bput buf off d)
      end.

Fixpoint uiomove_loop (fuel : nat) (buf : list Z) (off n : Z) : EM uio (list Z) :=
  match fuel with
  | O => λ _, NoFuel
  | S f =>
      u ← eget;
      if (0 <? n) && (0 <? uio_resid u) then
        let size := if n <? iov_len u then n else iov_len u in
        if size =? 0 then epanic else
        buf' ← uiomove_xfer buf off size;
        _ ← emod (advance size);
        uiomove_loop f buf' (off + size) (n - size)
      else mret buf
  end.

(** [uiomove(ptr, n, uio)], where [ptr] points to index [off] of [buf]: the
    buffer after the call. *)
Definition uiomove (buf : list Z) (off n : Z) : EM uio (list Z) :=
  u ← eget;
  _ ← eassert (if is_sys u then bool_decide (uio_space u = None) else bool_decide (uio_space u ≠ None));
  uiomove_loop 3 buf off n.

Fixpoint uiomovezeros_loop (fuel : nat) (n : Z) : EM uio unit :=
  match fuel with
  | O => λ _, NoFuel
  | S f =>
      if 0 <? n then
        let amt := if n <? 16 then n else 16 in
        _ ← uiomove (replicate 16 0) 0 amt;
        uiomovezeros_loop f (n - amt)
      else mret tt
  end.

Definition uiomovezeros (n : Z) : EM uio unit :=
  u ← eget;
  _ ← eassert (is_read u);
  uiomovezeros_loop (Z.to_nat (n / 16 + 2)) n.

Definition mk_kuio (kbuf : list Z) (len pos : Z) (rw : uio_rw) : uio :=
  mkUio kbuf 0 len pos len UIO_SYSSPACE rw None.
