(* ===== verification/UioProofs.v ===== *)
(** Copying to and from user memory is exact, and [uiomove] transfers exactly
    the bytes asked for or stops with EFAULT. *)

From Stdlib Require Import ZArith Lia.
From stdpp Require Import base numbers list option gmap.
From S2P Require Import Prelude Vm Errm Uio.

Open Scope Z_scope.

(** ** Replacing part of a list *)

Lemma splice_length b off d : (off + length d ≤ length b)%nat → length (splice b off d) = length b.
Proof. intros H. unfold splice. rewrite !length_app, length_take, length_drop. lia. Qed.

Lemma splice_nil b off : splice b off [] = b.
Proof. unfold splice. simpl. rewrite Nat.add_0_r. apply take_drop. Qed.

Lemma splice_all b d : length d = length b → splice b 0 d = d.
Proof. intros H. unfold splice. rewrite take_0, drop_ge, app_nil_r by lia. done. Qed.

Lemma splice_app b off d1 d2 :
  (off + length d1 ≤ length b)%nat →
  splice (splice b off d1) (off + length d1) d2 = splice b off (d1 ++ d2).
Proof.
  intros H. assert (length (take off b) = off) as Ht by (rewrite length_take; lia). unfold splice.
  rewrite take_app_ge by lia. rewrite Ht, Nat.add_sub_swap, Nat.sub_diag by lia. cbn [Nat.add].
  rewrite take_app_length, <- !app_assoc. f_equal. f_equal. f_equal.
  rewrite !drop_app_ge by (rewrite ?Ht; lia). rewrite Ht, length_app, drop_drop. f_equal. lia.
Qed.

Lemma splice_bytes b off d : bytes b → bytes d → bytes (splice b off d).
Proof. intros Hb Hd. apply Forall_app. split; [by apply Forall_take|]. apply Forall_app. split; [done|by apply Forall_drop]. Qed.

Lemma splice_get b off d :
  (off + length d ≤ length b)%nat → take (length d) (drop off (splice b off d)) = d.
Proof.
  intros H. unfold splice. rewrite drop_app_ge by (rewrite length_take; lia).
  rewrite length_take, Nat.min_l, Nat.sub_diag, drop_0 by lia. by rewrite take_app_length.
Qed.

Lemma splice_lookup_ne b off d i :
  (off + length d ≤ length b)%nat → (i < off ∨ off + length d ≤ i)%nat → splice b off d !! i = b !! i.
Proof.
  intros H Hi. assert (length (take off b) = off) as Ht by (rewrite length_take; lia). unfold splice.
  destruct Hi as [Hi|Hi].
  - rewrite lookup_app_l by lia. apply lookup_take_lt. lia.
  - rewrite !lookup_app_r by (rewrite ?Ht; lia). rewrite Ht, lookup_drop. f_equal. lia.
Qed.

Lemma splice_lookup_in b off d i :
  (off + length d ≤ length b)%nat → (off ≤ i < off + length d)%nat → splice b off d !! i = d !! (i - off)%nat.
Proof.
  intros H Hi. assert (length (take off b) = off) as Ht by (rewrite length_take; lia). unfold splice.
  rewrite lookup_app_r by lia. rewrite Ht, lookup_app_l by lia. done.
Qed.

(** ** User memory *)

Fixpoint wr (um : umem) (a : Z) (d : list Z) : umem :=
  match d with [] => um | b :: d' => wr (<[a := b]> um) (a + 1) d' end.

(** [n] bytes from [a] on can be touched. *)
Definition reachable (um : umem) (a n : Z) : Prop :=
  ∀ i, 0 ≤ i < n → a + i < USERTOP ∧ is_Some (um !! (a + i)).

Lemma wr_lookup um a d x :
  wr um a d !! x =
  if decide (a ≤ x < a + Z.of_nat (length d)) then d !! Z.to_nat (x - a) else um !! x.
Proof.
  revert um a. induction d as [|b d IH]; intros um a; cbn [wr length].
  - rewrite decide_False by lia. done.
  - rewrite IH. destruct (decide (a + 1 ≤ x < a + 1 + Z.of_nat (length d))) as [H|H].
    + rewrite decide_True by lia. replace (Z.to_nat (x - a)) with (S (Z.to_nat (x - (a + 1)))) by lia. done.
    + destruct (Z.eq_dec x a) as [->|Hne].
      * rewrite lookup_insert_eq, decide_True by lia. replace (Z.to_nat (a - a)) with 0%nat by lia. done.
      * rewrite lookup_insert_ne by lia. rewrite decide_False by lia. done.
Qed.

Lemma wr_app um a d1 d2 : wr um a (d1 ++ d2) = wr (wr um a d1) (a + Z.of_nat (length d1)) d2.
Proof.
  revert um a. induction d1 as [|b d1 IH]; intros um a; cbn [wr app length]; [by rewrite Z.add_0_r|].
  rewrite IH. f_equal. lia.
Qed.

Lemma reachable_S um a (d : list Z) (b : Z) :
  reachable um a (Z.of_nat (length (b :: d))) →
  is_Some (um !! a) ∧ reachable um (a + 1) (Z.of_nat (length d)).
Proof.
  cbn [length]. intros H. split.
  - destruct (H 0) as [_ ?]; [lia|]. by rewrite Z.add_0_r in *.
  - intros i Hi. replace (a + 1 + i) with (a + (i + 1)) by lia. apply H. lia.
Qed.

Lemma reachable_insert um a n x b : reachable um a n → is_Some (um !! x) → reachable (<[x := b]> um) a n.
Proof.
  intros H Hx i Hi. destruct (H i Hi) as [? Hs]. split; [done|]. by apply lookup_insert_is_Some'; right.
Qed.

Lemma umem_write_ok um a d :
  reachable um a (Z.of_nat (length d)) → umem_write um a d = (true, wr um a d).
Proof.
  revert um a. induction d as [|b d IH]; intros um a H; [done|]. cbn [umem_write wr].
  destruct (reachable_S _ _ _ _ H) as [[x Hx] H']. rewrite Hx. apply IH. apply reachable_insert; [done|by eexists].
Qed.

(** A write that faults has written a prefix. *)
Lemma umem_write_false um a d um' :
  umem_write um a d = (false, um') → ∃ d1 d2, d = d1 ++ d2 ∧ d2 ≠ [] ∧ um' = wr um a d1 ∧
    (∀ i, 0 ≤ i < Z.of_nat (length d1) → is_Some (um !! (a + i))) ∧ um !! (a + Z.of_nat (length d1)) = None.
Proof.
  revert um a. induction d as [|b d IH]; intros um a H; [done|]. cbn [umem_write] in H.
  destruct (um !! a) as [x|] eqn:Hx.
  - apply IH in H as (d1 & d2 & -> & Hne & -> & Hs & Hn). exists (b :: d1), d2. do 3 (split; [done|]).
    cbn [length]. split.
    + intros i Hi. destruct (Z.eq_dec i 0) as [->|]; [rewrite Z.add_0_r; by eexists|].
      destruct (Hs (i - 1)) as [y Hy]; [lia|]. replace (a + 1 + (i - 1)) with (a + i) in Hy by lia.
      rewrite lookup_insert_ne in Hy by lia. by eexists.
    + replace (a + 1 + Z.of_nat (length d1)) with (a + Z.of_nat (S (length d1))) in Hn by lia.
      by rewrite lookup_insert_ne in Hn by lia.
  - injection H as <-. exists [], (b :: d). simpl. do 3 (split; [done|]). split; [lia|by rewrite Z.add_0_r].
Qed.

Lemma umem_write_true um a d um' :
  umem_write um a d = (true, um') → um' = wr um a d ∧ ∀ i, 0 ≤ i < Z.of_nat (length d) → is_Some (um !! (a + i)).
Proof.
  revert um a. induction d as [|b d IH]; intros um a H; cbn [umem_write] in H.
  - injection H as <-. split; [done|simpl; lia].
  - destruct (um !! a) as [x|] eqn:Hx; [|done]. apply IH in H as [-> Hs]. split; [done|]. cbn [length].
    intros i Hi. destruct (Z.eq_dec i 0) as [->|]; [rewrite Z.add_0_r; by eexists|].
    destruct (Hs (i - 1)) as [y Hy]; [lia|]. replace (a + 1 + (i - 1)) with (a + i) in Hy by lia.
    rewrite lookup_insert_ne in Hy by lia. by eexists.
Qed.

Lemma umem_read_spec um a n d :
  umem_read um a n = Some d ↔ length d = n ∧ ∀ i x, d !! i = Some x → um !! (a + Z.of_nat i) = Some x.
Proof.
  revert a d. induction n as [|n IH]; intros a d; cbn [umem_read].
  - split; [by intros [= <-]|]. intros [H _]. by destruct d.
  - split.
    + intros H. apply bind_Some in H as (b & Hb & H). apply bind_Some in H as (bs & Hbs & [= <-]).
      apply IH in Hbs as [Hl Hs]. split; [simpl; lia|]. intros [|i] x Hx; simpl in Hx.
      * simplify_eq. by rewrite Z.add_0_r.
      * replace (a + Z.of_nat (S i)) with (a + 1 + Z.of_nat i) by lia. by apply Hs.
    + intros [Hl Hs]. destruct d as [|b d]; [done|]. pose proof (Hs 0%nat b eq_refl) as Hb. rewrite Z.add_0_r in Hb.
      rewrite Hb. simpl. assert (umem_read um (a + 1) n = Some d) as ->; [|done]. apply IH. split; [simpl in Hl; lia|].
      intros i x Hx. replace (a + 1 + Z.of_nat i) with (a + Z.of_nat (S i)) by lia. by apply Hs.
Qed.

Lemma copycheck_spec a n :
  0 ≤ a < 4294967296 → 0 < n → a + n ≤ 4294967296 →
  copycheck a n = if USERTOP <=? a then (EFAULT, n)
                  else if USERTOP <? a + n then (0, USERTOP - a) else (0, n).
Proof.
  intros Ha Hn Hs. unfold copycheck.
  assert (u32 (u32 (a + n) - 1) = a + n - 1) as ->.
  { destruct (Z.eq_dec (a + n) 4294967296) as [->|]; [done|].
    rewrite (u32_id (a + n)) by (unfold is_u32; lia). rewrite u32_id; [lia|]. unfold is_u32. lia. }
  rewrite (proj2 (Z.ltb_ge _ _)) by lia. destruct (Z.leb_spec USERTOP a); [done|].
  assert (USERTOP = 2147483648) as HU by done.
  destruct (Z.leb_spec USERTOP (a + n - 1)), (Z.ltb_spec USERTOP (a + n)); try lia; [|done].
  rewrite u32_id by (unfold is_u32; lia). done.
Qed.

(** [copyin] of a nonempty region: the bytes there, or EFAULT. *)
Lemma copyin_spec um a n :
  0 ≤ a → 0 < n → a + n ≤ 4294967296 →
  (copyin um a n = inl EFAULT ∧ ¬ reachable um a n) ∨
  ∃ d, copyin um a n = inr d ∧ reachable um a n ∧ Z.of_nat (length d) = n ∧
    ∀ i x, d !! i = Some x → um !! (a + Z.of_nat i) = Some x.
Proof.
  intros Ha Hn Hs. unfold copyin. rewrite copycheck_spec by lia.
  destruct (Z.leb_spec USERTOP a).
  { left. split; [done|]. intros H'. destruct (H' 0); lia. }
  destruct (Z.ltb_spec USERTOP (a + n)).
  { left. cbn [negb Z.eqb]. rewrite (proj2 (Z.eqb_neq _ _)) by lia. split; [done|].
    intros H'. destruct (H' (n - 1)); lia. }
  cbn [negb Z.eqb]. rewrite Z.eqb_refl. cbn [negb].
  destruct (umem_read um a (Z.to_nat n)) as [d|] eqn:E.
  - right. exists d. apply umem_read_spec in E as [Hl Hd]. split; [done|]. split; [|split; [lia|done]].
    intros i Hi. split; [lia|]. destruct (lookup_lt_is_Some_2 d (Z.to_nat i)) as [x Hx]; [lia|].
    apply Hd in Hx. rewrite Z2Nat.id in Hx by lia. by eexists.
  - left. split; [done|]. intros H'.
    assert (∃ d, umem_read um a (Z.to_nat n) = Some d) as [d Hd]; [|congruence].
    clear -H' Hn. assert (∀ k b, (∀ i, 0 ≤ i < Z.of_nat k → is_Some (um !! (b + i))) → ∃ d, umem_read um b k = Some d) as Hk.
    { induction k as [|k IH]; intros b Hb; [by eexists|]. cbn [umem_read].
      destruct (Hb 0) as [x Hx]; [lia|]. rewrite Z.add_0_r in Hx. rewrite Hx.
      destruct (IH (b + 1)) as [d Hd]; [|exists (x :: d); simpl; by rewrite Hd].
      intros i Hi. replace (b + 1 + i) with (b + (i + 1)) by lia. apply Hb. lia. }
    apply Hk. intros i Hi. destruct (H' i); [lia|done].
Qed.

(** [copyout] of a nonempty buffer: all of it is written, or a prefix is and
    the answer is EFAULT. *)
Lemma copyout_spec um a d :
  0 ≤ a → d ≠ [] → a + Z.of_nat (length d) ≤ 4294967296 →
  (copyout um d a = (0, wr um a d) ∧ reachable um a (Z.of_nat (length d))) ∨
  ∃ d1 d2, d = d1 ++ d2 ∧ copyout um d a = (EFAULT, wr um a d1) ∧ reachable um a (Z.of_nat (length d1)) ∧
    ¬ reachable um a (Z.of_nat (length d)).
Proof.
  intros Ha Hne Hs. assert (0 < Z.of_nat (length d)) as Hn by (destruct d; simpl in *; [done|lia]).
  unfold copyout. rewrite copycheck_spec by lia.
  destruct (Z.leb_spec USERTOP a).
  { right. exists [], d. split; [done|]. split; [done|]. split; [intros i; simpl; lia|]. intros H'. destruct (H' 0); lia. }
  destruct (Z.ltb_spec USERTOP (a + Z.of_nat (length d))).
  { right. exists [], d. cbn [negb Z.eqb]. rewrite (proj2 (Z.eqb_neq _ _)) by lia. split; [done|]. split; [done|].
    split; [intros i; simpl; lia|]. intros H'. destruct (H' (Z.of_nat (length d) - 1)); lia. }
  cbn [negb Z.eqb]. rewrite Z.eqb_refl. cbn [negb].
  destruct (umem_write um a d) as [[|] um'] eqn:E.
  - apply umem_write_true in E as [-> Hr]. left. split; [done|]. intros i Hi. split; [lia|by apply Hr].
  - apply umem_write_false in E as (d1 & d2 & -> & Hd2 & -> & Hr & Hno). right. exists d1, d2.
    rewrite length_app in *. split; [done|]. split; [done|]. split.
    + intros i Hi. split; [lia|by apply Hr].
    + intros H'. destruct (H' (Z.of_nat (length d1))) as [_ [x Hx]]; [|congruence].
      destruct d2 as [|y d2]; [done|simpl; lia].
Qed.

(** ** Transfers *)

(** A uio the source's callers set up: the buffer is where it says and at
    least [uio_resid] long, positions fit their types. *)
Record uio_ok (u : uio) : Prop := {
  uo_base : 0 ≤ iov_base u;
  uo_len : 0 ≤ uio_resid u ≤ iov_len u;
  uo_end : iov_base u + iov_len u < 4294967296;
  uo_off : 0 ≤ uio_offset u;
  uo_offend : uio_offset u + uio_resid u < 2147483648;
  uo_mem : if is_sys u
           then uio_space u = None ∧ bytes (iov_kbuf u) ∧ iov_base u + iov_len u ≤ Z.of_nat (length (iov_kbuf u))
           else ∃ um, uio_space u = Some um ∧ ∀ a b, um !! a = Some b → is_u8 b
}.

(** The fields after [k] bytes. *)
Definition move (k : Z) (u : uio) : uio :=
  mkUio (iov_kbuf u) (iov_base u + k) (iov_len u - k) (uio_offset u + k) (uio_resid u - k)
    (uio_segflg u) (uio_rw_ u) (uio_space u).

(** The memory after [d] has been written at the current place. *)
Definition uwrite (d : list Z) (u : uio) : uio :=
  if is_sys u then set_kbuf (splice (iov_kbuf u) (Z.to_nat (iov_base u)) d) u
  else set_uspace (wr (default ∅ (uio_space u)) (iov_base u) d) u.

(** The current place can be touched for [n] bytes. *)
Definition uaccess (u : uio) (n : Z) : Prop :=
  is_sys u = false → reachable (default ∅ (uio_space u)) (iov_base u) n.

(** The current place holds [d]. *)
Definition uholds (u : uio) (d : list Z) : Prop :=
  if is_sys u then take (length d) (drop (Z.to_nat (iov_base u)) (iov_kbuf u)) = d
  else ∀ i x, d !! i = Some x → default ∅ (uio_space u) !! (iov_base u + Z.of_nat i) = Some x.

(** [u'] is [u] after the bytes [d] have gone through it: into its buffer for
    a read, out of it for a write. *)
Definition xfer (u : uio) (d : list Z) (u' : uio) : Prop :=
  bytes d ∧ Z.of_nat (length d) ≤ uio_resid u ∧ uaccess u (Z.of_nat (length d)) ∧
  if is_read u then u' = move (Z.of_nat (length d)) (uwrite d u)
  else uholds u d ∧ u' = move (Z.of_nat (length d)) u.

(** A fault: user memory may have been changed in the buffer, nothing else. *)
Definition ufault (u u' : uio) : Prop :=
  is_sys u = false ∧ ∃ um um', uio_space u = Some um ∧ u' = set_uspace um' u ∧
    (∀ a b, um' !! a = Some b → is_u8 b) ∧
    (∀ a, is_Some (um' !! a) ↔ is_Some (um !! a)) ∧
    ∀ a, ¬ (iov_base u ≤ a < iov_base u + iov_len u) → um' !! a = um !! a.

Lemma wr_bytes um a d :
  (∀ x b, um !! x = Some b → is_u8 b) → bytes d → ∀ x b, wr um a d !! x = Some b → is_u8 b.
Proof.
  intros Hum Hd x b. rewrite wr_lookup. case_decide; [|apply Hum]. intros Hx. by eapply (Forall_lookup_1 is_u8).
Qed.

Lemma wr_dom um a d x :
  reachable um a (Z.of_nat (length d)) → is_Some (wr um a d !! x) ↔ is_Some (um !! x).
Proof.
  intros Hr. rewrite wr_lookup. case_decide as Hx; [|done]. split; intros _.
  - destruct (Hr (x - a)) as [_ H]; [lia|]. by replace (a + (x - a)) with x in H by lia.
  - apply lookup_lt_is_Some. lia.
Qed.

Lemma bput_ok b off d :
  0 ≤ off → off + Z.of_nat (length d) ≤ Z.of_nat (length b) → bput b off d = Ret (splice b (Z.to_nat off) d).
Proof. intros. unfold bput. rewrite !(proj2 (Z.leb_le _ _)) by lia. done. Qed.

Lemma bget_ok b off n :
  0 ≤ off → 0 ≤ n → off + n ≤ Z.of_nat (length b) → bget b off n = Ret (take (Z.to_nat n) (drop (Z.to_nat off) b)).
Proof. intros. unfold bget. rewrite !(proj2 (Z.leb_le _ _)) by lia. done. Qed.

Lemma bget_length (b : list Z) off n :
  0 ≤ off → 0 ≤ n → off + n ≤ Z.of_nat (length b) →
  Z.of_nat (length (take (Z.to_nat n) (drop (Z.to_nat off) b))) = n.
Proof. intros. rewrite length_take, length_drop. lia. Qed.

Lemma advance_move k u : uio_ok u → 0 ≤ k ≤ uio_resid u → advance k u = move k u.
Proof.
  intros [] Hk. unfold advance, move. rewrite !u32_id, s32_id by (unfold is_u32, is_s32; lia). done.
Qed.

Lemma uio_ok_move k u : uio_ok u → 0 ≤ k ≤ uio_resid u → uio_ok (move k u).
Proof.
  intros [] Hk. split; simpl; try lia. unfold is_sys in *. simpl. case_bool_decide; [|done].
  destruct uo_mem0 as (? & ? & ?). split_and!; [done|done|lia].
Qed.

Lemma is_sys_uwrite d u : is_sys (uwrite d u) = is_sys u.
Proof. unfold uwrite. by destruct (is_sys u) eqn:E. Qed.
Lemma is_read_uwrite d u : is_read (uwrite d u) = is_read u.
Proof. unfold uwrite. by destruct (is_sys u). Qed.

Lemma uio_ok_uwrite d u :
  uio_ok u → bytes d → Z.of_nat (length d) ≤ uio_resid u → uio_ok (uwrite d u).
Proof.
  intros Hu Hd Hl. pose proof Hu as []. unfold uwrite. destruct (is_sys u) eqn:E.
  - destruct uo_mem0 as (Hs & Hb & Hk). split; try done. change (is_sys (set_kbuf ?x u)) with (is_sys u).
    rewrite E. cbn [iov_kbuf set_kbuf uio_space iov_base iov_len].
    split; [done|]. split; [by apply splice_bytes|]. rewrite splice_length by lia. done.
  - destruct uo_mem0 as (um & Hs & Hb). split; try done. change (is_sys (set_uspace ?x u)) with (is_sys u).
    rewrite E. eexists. split; [done|]. rewrite Hs. simpl. by apply wr_bytes.
Qed.

Lemma xfer_ok u d u' : uio_ok u → xfer u d u' → uio_ok u'.
Proof.
  intros Hu (Hd & Hl & _ & H). destruct (is_read u).
  - subst u'. apply uio_ok_move; [by apply uio_ok_uwrite|]. unfold uwrite. destruct (is_sys u); simpl; lia.
  - destruct H as [_ ->]. apply uio_ok_move; [done|lia].
Qed.

Lemma ufault_ok u u' : uio_ok u → ufault u u' → uio_ok u'.
Proof.
  intros Hu (E & um & um' & Hs & -> & Hb & _). pose proof Hu as []. split; try done.
  change (is_sys (set_uspace ?x u)) with (is_sys u). rewrite E. by exists um'.
Qed.

(** What a transfer or a fault leaves alone. *)
Lemma xfer_fields u d u' : xfer u d u' →
  is_sys u' = is_sys u ∧ is_read u' = is_read u ∧ uio_offset u' = uio_offset u + Z.of_nat (length d) ∧
  uio_resid u' = uio_resid u - Z.of_nat (length d) ∧ iov_base u' = iov_base u + Z.of_nat (length d) ∧
  iov_len u' = iov_len u - Z.of_nat (length d).
Proof.
  intros (_ & _ & _ & H). destruct (is_read u) eqn:E.
  - subst u'. unfold uwrite. destruct (is_sys u) eqn:Es; (split; [exact Es|]; split; [exact E|done]).
  - destruct H as [_ ->]. done.
Qed.

Lemma ufault_fields u u' : ufault u u' →
  is_read u' = is_read u ∧ uio_offset u' = uio_offset u ∧ uio_resid u' = uio_resid u.
Proof. intros (_ & um & um' & _ & -> & _). done. Qed.

Lemma xfer_nil u : uio_ok u → xfer u [] u.
Proof.
  intros []. split; [constructor|]. split; [simpl; lia|]. split; [intros _ i; simpl; lia|].
  assert (move 0 u = u) as Hm by (destruct u; unfold move; simpl; f_equal; lia). simpl length. change (Z.of_nat 0) with 0.
  destruct (is_read u) eqn:E.
  - unfold uwrite. destruct (is_sys u) eqn:Es.
    + rewrite splice_nil. by destruct u.
    + destruct uo_mem0 as (um & Hs & _). rewrite Hs. simpl. rewrite <- Hm at 1. unfold move, set_uspace. simpl.
      rewrite Hs. done.
  - split; [|done]. unfold uholds. by destruct (is_sys u).
Qed.

Lemma xfer_nil_inv u u' : uio_ok u → xfer u [] u' → u' = u.
Proof.
  intros Hu (_ & _ & _ & Hx). assert (move 0 u = u) as Em by (destruct u; unfold move; simpl; f_equal; lia).
  destruct (is_read u); [|destruct Hx as [_ ->]; exact Em]. subst u'.
  unfold uwrite. destruct Hu as [_ _ _ _ _ Hm]. destruct (is_sys u).
  - rewrite splice_nil. destruct u; unfold move; simpl. f_equal; lia.
  - destruct Hm as (um & Hum & _). rewrite Hum. cbn [default wr]. destruct u; unfold move; simpl in *. subst. f_equal; lia.
Qed.

Lemma uaccess_app u d1 u1 n :
  uio_ok u → xfer u d1 u1 → uaccess u1 n → uaccess u (Z.of_nat (length d1) + n).
Proof.
  intros Hu Hx Ha Hs. destruct (xfer_fields _ _ _ Hx) as (Es & _ & _ & _ & Eb & _).
  destruct Hx as (_ & _ & Hr & H). specialize (Hr Hs). specialize (Ha ltac:(congruence)). rewrite Eb in Ha.
  pose proof (uo_mem _ Hu) as Hm. rewrite Hs in Hm. destruct Hm as (um & Hsp & _). rewrite Hsp in *. simpl in *.
  intros i Hi. destruct (Z.lt_ge_cases i (Z.of_nat (length d1))) as [Hlt|Hge]; [apply Hr; lia|].
  destruct (Ha (i - Z.of_nat (length d1))) as [Ht Hsome]; [lia|].
  replace (iov_base u + Z.of_nat (length d1) + (i - Z.of_nat (length d1))) with (iov_base u + i) in * by lia.
  split; [done|]. destruct (is_read u).
  - subst u1. unfold uwrite in Hsome. rewrite Hs in Hsome. simpl in Hsome. rewrite Hsp in Hsome. simpl in Hsome.
    by apply wr_dom in Hsome.
  - destruct H as [_ ->]. simpl in Hsome. by rewrite Hsp in Hsome.
Qed.

Lemma move_uwrite_app u d1 d2 :
  uio_ok u → Z.of_nat (length d1) ≤ uio_resid u →
  move (Z.of_nat (length d2)) (uwrite d2 (move (Z.of_nat (length d1)) (uwrite d1 u))) =
  move (Z.of_nat (length (d1 ++ d2))) (uwrite (d1 ++ d2) u).
Proof.
  intros Hu Hl. pose proof Hu as [].
  assert (is_sys (move (Z.of_nat (length d1)) (uwrite d1 u)) = is_sys u) as E.
  { unfold uwrite. by destruct (is_sys u) eqn:E. }
  unfold uwrite at 1. rewrite E. unfold uwrite. destruct (is_sys u) eqn:Es; unfold move; cbn.
  - destruct uo_mem0 as (_ & _ & Hk). rewrite Z2Nat.inj_add, Nat2Z.id, splice_app by lia.
    f_equal; rewrite length_app; lia.
  - rewrite wr_app. f_equal; rewrite length_app; lia.
Qed.

Lemma xfer_app u d1 u1 d2 u2 : uio_ok u → xfer u d1 u1 → xfer u1 d2 u2 → xfer u (d1 ++ d2) u2.
Proof.
  intros Hu H1 H2. pose proof (xfer_fields _ _ _ H1) as (Es & Er & _ & Ere & Eb & _).
  pose proof H1 as (Hd1 & Hl1 & Ha1 & H1'). pose proof H2 as (Hd2 & Hl2 & Ha2 & H2').
  split; [by apply Forall_app|]. split; [rewrite length_app; lia|]. split.
  { rewrite length_app, Nat2Z.inj_add. by eapply uaccess_app. }
  rewrite Er in H2'. destruct (is_read u) eqn:E.
  - subst u2 u1. by apply move_uwrite_app.
  - destruct H1' as [Hh1 ->], H2' as [Hh2 ->]. split.
    + unfold uholds in *. rewrite Es in Hh2. cbn [iov_base move iov_kbuf uio_space] in *. destruct (is_sys u) eqn:Es'.
      * rewrite Z2Nat.inj_add, Nat2Z.id, <- drop_drop in Hh2 by (pose proof (uo_base _ Hu); lia).
        by rewrite length_app, <- take_take_drop, Hh1, Hh2.
      * intros i x Hi. apply lookup_app_Some in Hi as [Hi|[Hge Hi]]; [by apply Hh1|].
        apply Hh2 in Hi. rewrite <- Hi. f_equal. lia.
    + unfold move. cbn. f_equal; rewrite length_app; lia.
Qed.

(** ** uiomove *)

Lemma uholds_get u n :
  uio_ok u → is_sys u = true → 0 ≤ n ≤ uio_resid u →
  bget (iov_kbuf u) (iov_base u) n = Ret (take (Z.to_nat n) (drop (Z.to_nat (iov_base u)) (iov_kbuf u))) ∧
  uholds u (take (Z.to_nat n) (drop (Z.to_nat (iov_base u)) (iov_kbuf u))) ∧
  Z.of_nat (length (take (Z.to_nat n) (drop (Z.to_nat (iov_base u)) (iov_kbuf u)))) = n ∧
  bytes (take (Z.to_nat n) (drop (Z.to_nat (iov_base u)) (iov_kbuf u))).
Proof.
  intros Hu Hs Hn. pose proof Hu as []. rewrite Hs in uo_mem0. destruct uo_mem0 as (_ & Hb & Hk).
  split; [apply bget_ok; lia|]. pose proof (bget_length (iov_kbuf u) (iov_base u) n ltac:(lia) ltac:(lia) ltac:(lia)) as HL.
  split; [|split; [done|by apply Forall_take, Forall_drop]].
  unfold uholds. rewrite Hs. f_equal. rewrite length_take, length_drop. lia.
Qed.

(** The transfer in one round of the loop. *)
Lemma uiomove_xfer_read buf off n u :
  uio_ok u → is_read u = true → 0 < n ≤ uio_resid u → 0 ≤ off → off + n ≤ Z.of_nat (length buf) → bytes buf →
  let d := take (Z.to_nat n) (drop (Z.to_nat off) buf) in
  wpe (uiomove_xfer buf off n) (λ r u',
    (r = inr buf ∧ xfer u d (advance n u')) ∨ (r = inl EFAULT ∧ ufault u u')) u.
Proof.
  intros Hu Hr Hn Hoff Hlen Hb d. pose proof Hu as []. unfold uiomove_xfer. estep.
  pose proof (bget_length buf off n Hoff ltac:(lia) Hlen) as HL. fold d in HL.
  assert (bytes d) as Hd by (by apply Forall_take, Forall_drop).
  assert (d ≠ []) as Hne by (intros E; rewrite E in HL; simpl in HL; lia).
  destruct (is_sys u) eqn:Hs; rewrite Hr.
  - destruct uo_mem0 as (Hsp & _ & Hk). apply wpe_bind. eapply wpe_lift; [by apply bget_ok; lia|]. fold d.
    apply wpe_bind. eapply wpe_lift; [apply bput_ok; lia|]. estep. estep. left. split; [done|].
    split; [done|]. split; [lia|]. split; [unfold uaccess; by rewrite Hs|]. rewrite Hr. unfold uwrite. rewrite Hs, HL.
    apply advance_move; [|simpl; lia]. pose proof (uio_ok_uwrite d u Hu Hd ltac:(lia)) as Hw. unfold uwrite in Hw. by rewrite Hs in Hw.
  - destruct uo_mem0 as (um & Hsp & Hub). apply wpe_bind. eapply wpe_lift; [by rewrite Hsp|]. simpl.
    apply wpe_bind. eapply wpe_lift; [by apply bget_ok; lia|]. fold d.
    destruct (copyout_spec um (iov_base u) d) as [[E Hre]|(d1 & d2 & Ed & E & Hre & Hnr)]; [lia|done|lia| |].
    + rewrite E. estep. cbn [negb Z.eqb]. estep. left. split; [done|]. split; [done|]. split; [lia|].
      split; [intros _; by rewrite Hsp|]. rewrite Hr. unfold uwrite. rewrite Hs, Hsp, HL.
      apply advance_move; [|simpl; lia]. pose proof (uio_ok_uwrite d u Hu Hd ltac:(lia)) as Hw. unfold uwrite in Hw.
      by rewrite Hs, Hsp in Hw.
    + rewrite E. estep. cbn [negb Z.eqb EFAULT]. estep. right. split; [done|]. split; [done|].
      exists um. eexists. split; [done|]. split; [done|]. rewrite Ed in Hd, HL. apply Forall_app in Hd as [Hd1 _].
      split; [by apply wr_bytes|]. split; [intros a; by apply wr_dom|]. intros a Ha. rewrite wr_lookup.
      rewrite decide_False; [done|]. rewrite length_app in HL. lia.
Qed.

Lemma uiomove_xfer_write buf off n u :
  uio_ok u → is_read u = false → 0 < n ≤ uio_resid u → 0 ≤ off → off + n ≤ Z.of_nat (length buf) →
  wpe (uiomove_xfer buf off n) (λ r u',
    (∃ d, Z.of_nat (length d) = n ∧ r = inr (splice buf (Z.to_nat off) d) ∧ xfer u d (advance n u')) ∨
    (r = inl EFAULT ∧ ufault u u')) u.
Proof.
  intros Hu Hr Hn Hoff Hlen. pose proof Hu as []. unfold uiomove_xfer. estep. destruct (is_sys u) eqn:Hs; rewrite Hr.
  - destruct (uholds_get u n Hu Hs ltac:(lia)) as (Eg & Hh & HL & Hb).
    set (d := take _ _) in *. apply wpe_bind. eapply wpe_lift; [done|]. eapply wpe_lift; [apply bput_ok; lia|].
    left. exists d. split; [done|]. split; [done|]. split; [done|]. split; [lia|]. split; [unfold uaccess; by rewrite Hs|].
    rewrite Hr, HL. split; [done|]. apply advance_move; [done|lia].
  - destruct uo_mem0 as (um & Hsp & Hub). apply wpe_bind. eapply wpe_lift; [by rewrite Hsp|]. simpl.
    destruct (copyin_spec um (iov_base u) n) as [[E _]|(d & E & Hre & HL & Hd)]; [lia|lia|lia| |]; rewrite E.
    + estep. right. split; [done|]. split; [done|]. exists um, um. split; [done|]. split; [by destruct u; simpl in *; subst|].
      done.
    + eapply wpe_lift; [apply bput_ok; lia|]. left. exists d. split; [done|]. split; [done|].
      split; [|split; [lia|split; [unfold uaccess; by rewrite Hsp, HL|]]].
      * apply Forall_lookup. intros i x Hx. eapply Hub. by apply Hd.
      * rewrite Hr, HL. split; [unfold uholds; by rewrite Hs, Hsp|]. apply advance_move; [done|lia].
Qed.

Lemma uiomove_loop_step f buf off n u Q :
  0 < n ≤ uio_resid u → n ≤ iov_len u →
  wpe (uiomove_xfer buf off n) (λ r u', match r with
    | inr buf' => Q (inr buf') (advance n u') | inl e => Q (inl e) u' end) u →
  wpe (uiomove_loop (S (S f)) buf off n) Q u.
Proof.
  intros Hn Hlen H. cbn [uiomove_loop]. estep. rewrite !(proj2 (Z.ltb_lt 0 _)) by lia. cbn [andb].
  assert ((if n <? iov_len u then n else iov_len u) = n) as -> by (destruct (Z.ltb_spec n (iov_len u)); lia).
  rewrite (proj2 (Z.eqb_neq n 0)) by lia. apply wpe_bind. eapply wpe_mono; [exact H|]. intros [e|buf'] u' H'; [done|].
  estep. rewrite Z.sub_diag. estep. simpl. done.
Qed.

(** [uiomove] into the uio's buffer. *)
Lemma uiomove_read_spec buf off n u :
  uio_ok u → is_read u = true → 0 ≤ n ≤ uio_resid u → 0 ≤ off → off + n ≤ Z.of_nat (length buf) → bytes buf →
  wpe (uiomove buf off n) (λ r u',
    (r = inr buf ∧ xfer u (take (Z.to_nat n) (drop (Z.to_nat off) buf)) u') ∨ (r = inl EFAULT ∧ ufault u u')) u.
Proof.
  intros Hu Hr Hn Hoff Hlen Hb. unfold uiomove. estep. apply wpe_bind, wpe_assert.
  { pose proof (uo_mem _ Hu). destruct (is_sys u); apply bool_decide_eq_true; naive_solver. }
  destruct (Z.eq_dec n 0) as [->|Hnz].
  - cbn [uiomove_loop]. estep. simpl. estep. left. split; [done|]. by apply xfer_nil.
  - apply uiomove_loop_step; [lia|pose proof (uo_len _ Hu); lia|].
    eapply wpe_mono; [apply uiomove_xfer_read; try done; lia|].
    intros r u' [[-> Hx]|[-> Hf]]; [by left|by right].
Qed.

(** [uiomove] out of the uio's buffer. *)
Lemma uiomove_write_spec buf off n u :
  uio_ok u → is_read u = false → 0 ≤ n ≤ uio_resid u → 0 ≤ off → off + n ≤ Z.of_nat (length buf) →
  wpe (uiomove buf off n) (λ r u',
    (∃ d, Z.of_nat (length d) = n ∧ r = inr (splice buf (Z.to_nat off) d) ∧ xfer u d u') ∨
    (r = inl EFAULT ∧ ufault u u')) u.
Proof.
  intros Hu Hr Hn Hoff Hlen. unfold uiomove. estep. apply wpe_bind, wpe_assert.
  { pose proof (uo_mem _ Hu). destruct (is_sys u); apply bool_decide_eq_true; naive_solver. }
  destruct (Z.eq_dec n 0) as [->|Hnz].
  - cbn [uiomove_loop]. estep. simpl. estep. left. exists []. rewrite splice_nil.
    split; [done|]. split; [done|]. by apply xfer_nil.
  - apply uiomove_loop_step; [lia|pose proof (uo_len _ Hu); lia|].
    eapply wpe_mono; [apply uiomove_xfer_write; try done; lia|].
    intros r u' [(d & ? & -> & Hx)|[-> Hf]]; [left; eauto|by right].
Qed.

(** Reading into a buffer that may be too short: what does not fit is
    dropped. *)
Lemma uiomove_read_short buf n u :
  uio_ok u → iov_len u = uio_resid u → is_read u = true → 0 ≤ n ≤ Z.of_nat (length buf) → bytes buf →
  wpe (uiomove buf 0 n) (λ r u', (r = inr buf ∧ uio_ok u' ∧ iov_len u' = uio_resid u' ∧ is_read u' = true) ∨ r = inl EFAULT) u.
Proof.
  intros Hu Hlen Hr Hn Hb. assert (∀ d u', xfer u d u' → uio_ok u' ∧ iov_len u' = uio_resid u' ∧ is_read u' = true) as Hx.
  { intros d u' H. destruct (xfer_fields _ _ _ H) as (_ & E1 & _ & E2 & _ & E3). split; [by eapply xfer_ok|]. split; [lia|congruence]. }
  destruct (Z.le_gt_cases n (uio_resid u)) as [Hle|Hgt].
  { eapply wpe_mono; [apply uiomove_read_spec; try done; lia|]. intros r u' [[-> H]|[-> _]]; [left|by right]. split; [done|]. by eapply Hx. }
  unfold uiomove. estep. apply wpe_bind, wpe_assert.
  { pose proof (uo_mem _ Hu). destruct (is_sys u); apply bool_decide_eq_true; naive_solver. }
  pose proof (uo_len _ Hu) as Hl. cbn [uiomove_loop]. estep. rewrite (proj2 (Z.ltb_lt 0 n)) by lia. cbn [andb].
  destruct (Z.ltb_spec 0 (uio_resid u)) as [Hpos|Hz]; [|apply wpe_ret; by left].
  rewrite (proj2 (Z.ltb_ge n (iov_len u))), Hlen, (proj2 (Z.eqb_neq (uio_resid u) 0)) by lia. apply wpe_bind.
  eapply wpe_mono; [apply uiomove_xfer_read; try done; lia|]. intros r u' [[-> H]|[-> _]]; [|by right]. estep.
  destruct (xfer_fields _ _ _ H) as (_ & _ & _ & E & _). rewrite length_take, length_drop in E. estep.
  rewrite (proj2 (Z.ltb_ge 0 (uio_resid (advance (uio_resid u) u')))) by lia. rewrite andb_false_r. apply wpe_ret. left. split; [done|]. by eapply Hx.
Qed.

Lemma uiomovezeros_loop_spec f n u :
  uio_ok u → is_read u = true → 0 ≤ n ≤ uio_resid u → n < 16 * Z.of_nat f - 15 →
  wpe (uiomovezeros_loop f n) (λ r u',
    (r = inr tt ∧ xfer u (replicate (Z.to_nat n) 0) u') ∨
    (r = inl EFAULT ∧ ∃ k u1, (k ≤ Z.to_nat n)%nat ∧ xfer u (replicate k 0) u1 ∧ ufault u1 u')) u.
Proof.
  revert n u. induction f as [|f IH]; intros n u Hu Hr Hn Hf; [lia|]. cbn [uiomovezeros_loop].
  destruct (Z.ltb_spec 0 n) as [Hpos|Hz].
  2:{ estep. left. replace n with 0 by lia. split; [done|]. by apply xfer_nil. }
  set (amt := if n <? 16 then n else 16).
  assert (0 < amt ≤ 16 ∧ amt ≤ n ∧ (amt = n ∨ amt = 16)) as Hamt by (unfold amt; destruct (Z.ltb_spec n 16); lia).
  apply wpe_bind. eapply wpe_mono.
  { apply uiomove_read_spec; [done|done|lia|lia|rewrite length_replicate; lia|].
    apply Forall_replicate. unfold is_u8. lia. }
  assert (take (Z.to_nat amt) (drop (Z.to_nat 0) (replicate 16 0)) = replicate (Z.to_nat amt) 0) as ->.
  { rewrite drop_0, take_replicate. f_equal. lia. }
  intros r u' [[-> Hx]|[-> Hfl]].
  - destruct (xfer_fields _ _ _ Hx) as (_ & Er & _ & Ere & _). rewrite length_replicate in Ere.
    eapply wpe_mono; [apply IH; [by eapply xfer_ok|congruence|lia|lia]|].
    intros r2 u2 [[-> Hx2]|(-> & k & u1 & Hk & Hx2 & Hf2)].
    + left. split; [done|]. replace (Z.to_nat n) with (Z.to_nat amt + Z.to_nat (n - amt))%nat by lia.
      rewrite replicate_add. by eapply xfer_app.
    + right. split; [done|]. exists (Z.to_nat amt + k)%nat, u1. split; [lia|]. split; [|done].
      rewrite replicate_add. by eapply xfer_app.
  - right. split; [done|]. exists 0%nat, u. split; [lia|]. split; [by apply xfer_nil|done].
Qed.

Lemma uiomovezeros_spec n u :
  uio_ok u → is_read u = true → 0 ≤ n ≤ uio_resid u →
  wpe (uiomovezeros n) (λ r u',
    (r = inr tt ∧ xfer u (replicate (Z.to_nat n) 0) u') ∨
    (r = inl EFAULT ∧ ∃ k u1, (k ≤ Z.to_nat n)%nat ∧ xfer u (replicate k 0) u1 ∧ ufault u1 u')) u.
Proof.
  intros Hu Hr Hn. unfold uiomovezeros. estep. apply wpe_bind, wpe_assert; [done|].
  apply uiomovezeros_loop_spec; [done|done|done|]. pose proof (Z.div_mod n 16 ltac:(lia)).
  pose proof (Z.mod_pos_bound n 16 ltac:(lia)). rewrite Z2Nat.id by lia. lia.
Qed.

(** ** Strings *)

(** How [copystr] from user memory at [a] ends, for a string that may be
    [maxlen] long and must end below [USERTOP]. *)
Inductive strresult (um : umem) (a maxlen : Z) : Z + list Z → Prop :=
  | str_found s :
      Forall (λ c, c ≠ 0) s → Z.of_nat (length s) < maxlen →
      (∀ i c, (s ++ [0]) !! i = Some c → a + Z.of_nat i < USERTOP ∧ um !! (a + Z.of_nat i) = Some c) →
      strresult um a maxlen (inr (s ++ [0]))
  | str_toolong s :
      Forall (λ c, c ≠ 0) s → Z.of_nat (length s) = maxlen →
      (∀ i c, s !! i = Some c → a + Z.of_nat i < USERTOP ∧ um !! (a + Z.of_nat i) = Some c) →
      strresult um a maxlen (inl ENAMETOOLONG)
  | str_fault s :
      Forall (λ c, c ≠ 0) s → Z.of_nat (length s) < maxlen →
      (∀ i c, s !! i = Some c → a + Z.of_nat i < USERTOP ∧ um !! (a + Z.of_nat i) = Some c) →
      (USERTOP ≤ a + Z.of_nat (length s) ∨ um !! (a + Z.of_nat (length s)) = None) →
      strresult um a maxlen (inl EFAULT).

Lemma strresult_cons um a maxlen c r :
  c ≠ 0 → a < USERTOP → um !! a = Some c → strresult um (a + 1) (maxlen - 1) r →
  strresult um a maxlen (match r with inl e => inl e | inr l => inr (c :: l) end).
Proof.
  intros Hc Ha Hm Hr.
  assert (∀ s : list Z, (∀ i x, s !! i = Some x → a + 1 + Z.of_nat i < USERTOP ∧ um !! (a + 1 + Z.of_nat i) = Some x) →
    ∀ i x, (c :: s) !! i = Some x → a + Z.of_nat i < USERTOP ∧ um !! (a + Z.of_nat i) = Some x) as Hs.
  { intros s Hs [|i] x Hx; simpl in Hx.
    - simplify_eq. by rewrite Z.add_0_r.
    - replace (a + Z.of_nat (S i)) with (a + 1 + Z.of_nat i) by lia. by apply Hs. }
  destruct Hr as [s H1 H2 H3|s H1 H2 H3|s H1 H2 H3 H4].
  - apply (str_found um a maxlen (c :: s)); [by constructor|simpl; lia|]. by apply (Hs (s ++ [0])).
  - apply (str_toolong um a maxlen (c :: s)); [by constructor|simpl; lia|]. by apply Hs.
  - apply (str_fault um a maxlen (c :: s)); [by constructor|simpl; lia|by apply Hs|].
    cbn [length]. replace (a + Z.of_nat (S (length s))) with (a + 1 + Z.of_nat (length s)) by lia. done.
Qed.

Lemma copystr_in_spec n um src i maxlen stoplen :
  0 ≤ i ≤ maxlen → Z.of_nat n = maxlen - i → i ≤ stoplen ≤ maxlen →
  (stoplen < maxlen → src + stoplen = USERTOP) → src + stoplen ≤ USERTOP →
  strresult um (src + i) (maxlen - i) (copystr_in n um src i maxlen stoplen).
Proof.
  revert i. induction n as [|n IH]; intros i Hi Hn Hs Hu Hu'; cbn [copystr_in].
  - rewrite (proj2 (Z.ltb_ge _ _)) by lia. by apply (str_toolong um _ _ []); [constructor|simpl; lia|].
  - rewrite (proj2 (Z.ltb_lt i maxlen)) by lia. cbn [andb]. destruct (Z.ltb_spec i stoplen).
    + destruct (um !! (src + i)) as [c|] eqn:Hc.
      2:{ apply (str_fault um _ _ []); [constructor|simpl; lia|done|right; simpl; by rewrite Z.add_0_r]. }
      destruct (Z.eqb_spec c 0) as [->|Hnz].
      * apply (str_found um _ _ []); [constructor|simpl; lia|]. intros [|j] x Hx; simpl in Hx; [|done].
        simplify_eq. rewrite Z.add_0_r. split; [lia|done].
      * apply (strresult_cons um (src + i) (maxlen - i)); [done|lia|done|].
        replace (src + i + 1) with (src + (i + 1)) by lia. replace (maxlen - i - 1) with (maxlen - (i + 1)) by lia.
        apply IH; try done; lia.
    + rewrite (proj2 (Z.ltb_lt stoplen maxlen)) by lia.
      apply (str_fault um _ _ []); [constructor|simpl; lia|done|left; simpl; lia].
Qed.

(** C19: [copyinstr] returns the string at the address, with its NUL, exactly
    when one of at most [len] bytes lies in user space; it answers
    ENAMETOOLONG exactly when [len] bytes can be read and none is NUL, and
    EFAULT when the kernel boundary or an unmapped address comes first. *)
Theorem copyinstr_classifies um a len :
  0 ≤ a < 4294967296 → 0 < len → a + len ≤ 4294967296 →
  strresult um a len (copyinstr um a len).
Proof.
  intros Ha Hlen Hend. unfold copyinstr. rewrite copycheck_spec by lia.
  destruct (Z.leb_spec USERTOP a).
  { cbn [negb Z.eqb EFAULT]. apply (str_fault um a len []); [constructor|simpl; lia|done|left; simpl; lia]. }
  assert (∀ st, st ≤ len → 0 ≤ st → (st < len → a + st = USERTOP) → a + st ≤ USERTOP →
    strresult um a len (copystr_in (Z.to_nat len) um a 0 len st)) as Hgen.
  { intros st H1 H2 H3 H4. pose proof (copystr_in_spec (Z.to_nat len) um a 0 len st) as Hc.
    rewrite Z.add_0_r, Z.sub_0_r in Hc. apply Hc; lia. }
  destruct (Z.ltb_spec USERTOP (a + len)); cbn [negb Z.eqb]; apply Hgen; lia.
Qed.

Lemma copyinstr_classifies_witness :
  strresult {[100 := 104; 101 := 105; 102 := 0]} 100 8 (copyinstr {[100 := 104; 101 := 105; 102 := 0]} 100 8) ∧
  copyinstr {[100 := 104; 101 := 105; 102 := 0]} 100 8 = inr [104; 105; 0] ∧
  copyinstr {[100 := 104; 101 := 105; 102 := 0]} 100 2 = inl ENAMETOOLONG.
Proof. split; [apply copyinstr_classifies; lia|split; vm_compute; reflexivity]. Defined.

(** C20: bytes copied out to user memory are read back by [copyin], and no
    other byte of user memory has changed. *)
Theorem copyout_copyin um d a um' :
  0 ≤ a → d ≠ [] → a + Z.of_nat (length d) ≤ 4294967296 → copyout um d a = (0, um') →
  copyin um' a (Z.of_nat (length d)) = inr d ∧
  ∀ x, ¬ (a ≤ x < a + Z.of_nat (length d)) → um' !! x = um !! x.
Proof.
  intros Ha Hne Hend E. assert (0 < Z.of_nat (length d)) as Hn by (destruct d; [done|simpl; lia]).
  destruct (copyout_spec um a d Ha Hne Hend) as [[E' Hr]|(d1 & d2 & _ & E' & _)]; rewrite E' in E; [|done].
  injection E as <-. split.
  - destruct (copyin_spec (wr um a d) a (Z.of_nat (length d))) as [[_ Hnr]|(d' & -> & _ & Hl & Hd)]; [lia|lia|lia| |].
    + exfalso. apply Hnr. intros i Hi. destruct (Hr i Hi) as [? Hs]. split; [done|]. by apply wr_dom.
    + f_equal. apply list_eq. intros i. destruct (d' !! i) as [x|] eqn:Hx.
      * pose proof (lookup_lt_Some _ _ _ Hx). apply Hd in Hx. rewrite wr_lookup, decide_True in Hx by lia.
        rewrite <- Hx. f_equal. lia.
      * apply lookup_ge_None in Hx. symmetry. apply lookup_ge_None. lia.
  - intros x Hx. rewrite wr_lookup, decide_False by done. done.
Qed.

Lemma copyout_copyin_witness :
  copyin {[8 := 1; 9 := 2]} 8 2 = inr [1; 2] ∧
  ∀ x, ¬ (8 ≤ x < 8 + Z.of_nat (length [1; 2])) → ({[8 := 1; 9 := 2]} : umem) !! x = ({[8 := 7; 9 := 7]} : umem) !! x.
Proof. apply (copyout_copyin {[8 := 7; 9 := 7]} [1; 2] 8 {[8 := 1; 9 := 2]}); [lia|done|simpl; lia|vm_compute; reflexivity]. Defined.
