(* ===== verification/Console.v ===== *)
(** The console: the serial port driver (kern/dev/lamebus/lser.c), the
    machine-independent console on top of it (kern/dev/generic/console.c and
    the attachment in con_lser.c), and the kernel's own input and output
    (kern/lib/kprintf.c, kern/lib/kgets.c, kern/dev/generic/beep.c).

    The port is its three registers, the character it is transmitting, what it
    has transmitted and the keys that will be typed.  A character goes out by
    [hw_done], which also raises the write interrupt; a new character given
    to the port before that would be lost, which is [Undef].  The functions
    are those one thread runs: where it sleeps on a semaphore of the console,
    the port finishes its work and interrupts, and a key is typed when a
    thread waits for one.  [con_run] lets threads, handlers and the port
    interleave in any order. *)

From Stdlib Require Import ZArith Lia.
From stdpp Require Import base numbers list option gmap.
From S2P Require Import Prelude Errm Libc Uio Printf.

Open Scope Z_scope.

(** ** State *)

Record port := mkPort {
  ls_wbusy : bool;
  r_wirq : Z;
  r_rirq : Z;
  r_char : Z;
  shift : option Z;
  out : list Z;
  keys : list Z;
  ls_attached : bool
}.

(** A lock is NULL, free or held. *)
Record con := mkCon {
  the_console : bool;
  cs_wsem : Z;
  cs_rsem : Z;
  cs_gotchar : Z;
  delayed_outbuf : list Z;
  con_userlock_read : option bool;
  con_userlock_write : option bool;
  kprintf_lock : option bool;
  the_beep : bool;
  beeps : Z
}.

Record console := mkConsole { c_port : port; c_con : con; in_interrupt : bool; curspl : Z }.

Definition on_port (f : port → port) (s : console) : console := mkConsole (f (c_port s)) (c_con s) (in_interrupt s) (curspl s).
Definition on_con (f : con → con) (s : console) : console := mkConsole (c_port s) (f (c_con s)) (in_interrupt s) (curspl s).
Definition set_cpu (i : bool) (l : Z) (s : console) : console := mkConsole (c_port s) (c_con s) i l.

Definition set_wbusy v p := mkPort v (r_wirq p) (r_rirq p) (r_char p) (shift p) (out p) (keys p) (ls_attached p).
Definition set_wirq v p := mkPort (ls_wbusy p) v (r_rirq p) (r_char p) (shift p) (out p) (keys p) (ls_attached p).
Definition set_rirq v p := mkPort (ls_wbusy p) (r_wirq p) v (r_char p) (shift p) (out p) (keys p) (ls_attached p).
Definition set_shift v p := mkPort (ls_wbusy p) (r_wirq p) (r_rirq p) (r_char p) v (out p) (keys p) (ls_attached p).
Definition set_attached v p := mkPort (ls_wbusy p) (r_wirq p) (r_rirq p) (r_char p) (shift p) (out p) (keys p) v.

Definition set_wsem v c := mkCon (the_console c) v (cs_rsem c) (cs_gotchar c) (delayed_outbuf c) (con_userlock_read c) (con_userlock_write c) (kprintf_lock c) (the_beep c) (beeps c).
Definition set_rsem v c := mkCon (the_console c) (cs_wsem c) v (cs_gotchar c) (delayed_outbuf c) (con_userlock_read c) (con_userlock_write c) (kprintf_lock c) (the_beep c) (beeps c).
Definition set_gotchar v c := mkCon (the_console c) (cs_wsem c) (cs_rsem c) v (delayed_outbuf c) (con_userlock_read c) (con_userlock_write c) (kprintf_lock c) (the_beep c) (beeps c).
Definition set_delayed v c := mkCon (the_console c) (cs_wsem c) (cs_rsem c) (cs_gotchar c) v (con_userlock_read c) (con_userlock_write c) (kprintf_lock c) (the_beep c) (beeps c).
Definition set_ulock_read v c := mkCon (the_console c) (cs_wsem c) (cs_rsem c) (cs_gotchar c) (delayed_outbuf c) v (con_userlock_write c) (kprintf_lock c) (the_beep c) (beeps c).
Definition set_ulock_write v c := mkCon (the_console c) (cs_wsem c) (cs_rsem c) (cs_gotchar c) (delayed_outbuf c) (con_userlock_read c) v (kprintf_lock c) (the_beep c) (beeps c).
Definition set_klock v c := mkCon (the_console c) (cs_wsem c) (cs_rsem c) (cs_gotchar c) (delayed_outbuf c) (con_userlock_read c) (con_userlock_write c) v (the_beep c) (beeps c).
Definition set_beeps v c := mkCon (the_console c) (cs_wsem c) (cs_rsem c) (cs_gotchar c) (delayed_outbuf c) (con_userlock_read c) (con_userlock_write c) (kprintf_lock c) (the_beep c) v.

Definition SPL_HIGH : Z := 1.
Definition con_splhigh : EM console Z :=
  s ← eget; _ ← emod (set_cpu (in_interrupt s) SPL_HIGH); mret (curspl s).
Definition con_splx (l : Z) : EM console unit := emod (λ s, set_cpu (in_interrupt s) l s).

(** ** The port *)

Definition LSER_IRQ_ENABLE : Z := 1.
Definition LSER_IRQ_ACTIVE : Z := 2.
Definition active (r : Z) : bool := negb (Z.land r LSER_IRQ_ACTIVE =? 0).

(** The transmission ends. *)
Definition hw_done (p : port) : port :=
  match shift p with
  | Some c => mkPort (ls_wbusy p) (Z.lor (r_wirq p) LSER_IRQ_ACTIVE) (r_rirq p) (r_char p) None (out p ++ [c]) (keys p) (ls_attached p)
  | None => p
  end.
(** A key is typed. *)
Definition hw_key (k : Z) (p : port) : port :=
  mkPort (ls_wbusy p) (r_wirq p) (Z.lor (r_rirq p) LSER_IRQ_ACTIVE) k (shift p) (out p) (keys p) (ls_attached p).

Definition undef {S A} : EM S A := λ _, Undef.

(** The write to the character register. *)
Definition hw_char (ch : Z) : EM console unit :=
  s ← eget;
  match shift (c_port s) with
  | Some _ => undef
  | None => emod (on_port (set_shift (Some (u8 ch))))
  end.

(** ** What the console does in the interrupt *)

(** [V] on a semaphore of the console. *)
Definition V_wsem : EM console unit :=
  _ ← emod (λ s, on_con (set_wsem (s32 (cs_wsem (c_con s) + 1))) s);
  s ← eget; eassert (0 <? cs_wsem (c_con s)).
Definition V_rsem : EM console unit :=
  _ ← emod (λ s, on_con (set_rsem (s32 (cs_rsem (c_con s) + 1))) s);
  s ← eget; eassert (0 <? cs_rsem (c_con s)).

Definition con_input (ch : Z) : EM console unit := _ ← emod (on_con (set_gotchar ch)); V_rsem.
Definition con_start : EM console unit := V_wsem.

(** ** lser.c *)

Definition lser_irq : EM console unit :=
  s ← eget;
  _ ← eassert (0 <? curspl s);
  let clear_to_write := active (r_wirq (c_port s)) in
  _ ← (if clear_to_write then emod (on_port (λ p, set_wirq LSER_IRQ_ENABLE (set_wbusy false p))) else mret tt);
  s ← eget;
  let got_a_read := active (r_rirq (c_port s)) in
  let ch := r_char (c_port s) in
  _ ← (if got_a_read then emod (on_port (set_rirq LSER_IRQ_ENABLE)) else mret tt);
  _ ← (if clear_to_write && ls_attached (c_port s) then con_start else mret tt);
  if got_a_read && ls_attached (c_port s) then con_input ch else mret tt.

Definition lser_write (ch : Z) : EM console unit :=
  spl ← con_splhigh;
  s ← eget;
  if ls_wbusy (c_port s) then epanic else
  _ ← emod (on_port (set_wbusy true));
  _ ← hw_char ch;
  con_splx spl.

(** The loop ends when the port has sent what it has; without anything to
    send it would never end. *)
Definition lser_spin_until_write : EM console unit :=
  s ← eget;
  _ ← eassert (0 <? curspl s);
  if active (r_wirq (c_port s)) then mret tt
  else match shift (c_port s) with
       | Some _ => emod (on_port hw_done)
       | None => nofuel
       end.

Definition lser_writepolled (ch : Z) : EM console unit :=
  spl ← con_splhigh;
  s ← eget;
  let irqpending := ls_wbusy (c_port s) in
  _ ← (if irqpending then
         _ ← lser_spin_until_write;
         emod (on_port (set_wirq LSER_IRQ_ENABLE))
       else mret tt);
  _ ← hw_char ch;
  _ ← lser_spin_until_write;
  _ ← (if negb irqpending then emod (on_port (set_wirq LSER_IRQ_ENABLE)) else mret tt);
  con_splx spl.

Definition config_lser : EM console unit :=
  _ ← emod (on_port (set_wbusy false));
  _ ← emod (on_port (set_rirq LSER_IRQ_ENABLE));
  emod (on_port (set_wirq LSER_IRQ_ENABLE)).

(** con_lser.c *)
Definition attach_con_to_lser : EM console unit := emod (on_port (set_attached true)).

(** The port's interrupt, taken by [mips_interrupt]. *)
Definition interrupt : EM console unit :=
  s ← eget;
  _ ← emod (set_cpu true SPL_HIGH);
  _ ← lser_irq;
  emod (set_cpu (in_interrupt s) (curspl s)).

(** ** console.c *)

Definition DELAYBUFSIZE : Z := 1024.

Definition putch_delayed (ch : Z) : EM console unit :=
  s ← eget;
  _ ← eassert (Z.of_nat (length (delayed_outbuf (c_con s))) <? DELAYBUFSIZE);
  emod (on_con (set_delayed (delayed_outbuf (c_con s) ++ [u8 ch]))).

Definition putch_polled (ch : Z) : EM console unit := lser_writepolled ch.

(** [P], with the wait: the port finishes and interrupts, a key is typed. *)
Definition P_wsem : EM console unit :=
  s ← eget;
  _ ← eassert (negb (in_interrupt s));
  _ ← (if cs_wsem (c_con s) =? 0 then _ ← emod (on_port hw_done); interrupt else mret tt);
  s ← eget;
  if cs_wsem (c_con s) =? 0 then nofuel
  else emod (λ s, on_con (set_wsem (cs_wsem (c_con s) - 1)) s).

Definition P_rsem : EM console unit :=
  s ← eget;
  _ ← eassert (negb (in_interrupt s));
  _ ← (if cs_rsem (c_con s) =? 0 then
         match keys (c_port s) with
         | [] => nofuel
         | k :: ks =>
             _ ← emod (on_port (λ p, hw_key k (mkPort (ls_wbusy p) (r_wirq p) (r_rirq p) (r_char p) (shift p) (out p) ks (ls_attached p))));
             interrupt
         end
       else mret tt);
  s ← eget;
  if cs_rsem (c_con s) =? 0 then nofuel
  else emod (λ s, on_con (set_rsem (cs_rsem (c_con s) - 1)) s).

Definition putch_intr (ch : Z) : EM console unit := _ ← P_wsem; lser_write ch.
Definition getch_intr : EM console Z := _ ← P_rsem; s ← eget; mret (cs_gotchar (c_con s)).

Definition putch (ch : Z) : EM console unit :=
  s ← eget;
  if negb (the_console (c_con s)) then putch_delayed ch
  else if in_interrupt s || (0 <? curspl s) then putch_polled ch
  else putch_intr ch.

Definition getch : EM console Z :=
  s ← eget;
  _ ← eassert (the_console (c_con s));
  _ ← eassert (negb (in_interrupt s) && (curspl s =? 0));
  getch_intr.

Fixpoint putchs (l : list Z) : EM console unit :=
  match l with
  | [] => mret tt
  | c :: l' => _ ← putch c; putchs l'
  end.

Definition flush_delay_buf : EM console unit :=
  s ← eget;
  _ ← putchs (delayed_outbuf (c_con s));
  emod (on_con (set_delayed [])).

Definition con_open (openflags : Z) : Z := 0.
Definition con_close : Z := 0.
Definition con_ioctl (op data : Z) : Z := EINVAL.

(** A lock of the console; one that is held never becomes free while its
    only thread waits for it. *)
Definition acquire (get : con → option bool) (set : option bool → con → con) : EM console unit :=
  s ← eget;
  match get (c_con s) with
  | None => undef
  | Some true => nofuel
  | Some false => emod (on_con (set (Some true)))
  end.
Definition release (set : option bool → con → con) : EM console unit := emod (on_con (set (Some false))).

(** The loop of [con_io]; every turn moves one byte. *)
Fixpoint con_io_loop (fuel : nat) : EM (console * uio) unit :=
  match fuel with
  | O => nofuel
  | S f =>
      '(_, u) ← eget;
      if 0 <? uio_resid u then
        if is_read u then
          ch ← onfst getch;
          let ch := u8 ch in
          let ch := if ch =? 13 then 10 else ch in
          _ ← onsnd (uiomove [ch] 0 1);
          if ch =? 10 then mret tt else con_io_loop f
        else
          b ← onsnd (uiomove [0] 0 1);
          ch ← lift (load b 0);
          _ ← (if ch =? 10 then onfst (putch 13) else mret tt);
          _ ← onfst (putch ch);
          con_io_loop f
      else mret tt
  end.

Definition con_io : EM (console * uio) unit :=
  '(s, u) ← eget;
  let get := if is_read u then con_userlock_read else con_userlock_write in
  let set := if is_read u then set_ulock_read else set_ulock_write in
  _ ← eassert (match get (c_con s) with Some _ => true | None => false end);
  _ ← onfst (acquire get set);
  r ← attempt (con_io_loop (S (Z.to_nat (uio_resid u))));
  _ ← onfst (release set);
  reraise r.

(** [sem_create] and [lock_create] allocate the object and its name. *)
Definition create_ok (o : oracle) : bool * oracle :=
  let '(b1, o) := kmalloc_ok o in
  if b1 then kmalloc_ok o else (false, o).

(** [adddev] is what [vfs_adddev] returns for "con". *)
Definition attach_console_to_vfs (adddev : Z) (o : oracle) : EM console unit :=
  let '(ok, o) := kmalloc_ok o in
  if negb ok then raise ENOMEM
  else if negb (adddev =? 0) then raise adddev
  else mret tt.

Definition config_con (unit_ adddev : Z) (o : oracle) : EM console unit :=
  s ← eget;
  if 0 <? unit_ then _ ← eassert (the_console (c_con s)); raise ENODEV else
  _ ← eassert (negb (the_console (c_con s)));
  let '(rsem, o) := create_ok o in
  if negb rsem then raise ENOMEM else
  let '(wsem, o) := create_ok o in
  if negb wsem then raise ENOMEM else
  let '(rlk, o) := create_ok o in
  if negb rlk then raise ENOMEM else
  let '(wlk, o) := create_ok o in
  if negb wlk then raise ENOMEM else
  _ ← emod (on_con (λ c, mkCon true 1 0 0 (delayed_outbuf c) (Some false) (Some false) (kprintf_lock c) (the_beep c) (beeps c)));
  _ ← flush_delay_buf;
  attach_console_to_vfs adddev o.

(** ** kprintf.c *)

Definition console_send (data : list Z) : EM console unit := putchs data.

Definition kprintf_bootstrap (o : oracle) : EM console unit :=
  s ← eget;
  _ ← eassert (match kprintf_lock (c_con s) with None => true | Some _ => false end);
  if (create_ok o).1 then emod (on_con (set_klock (Some false))) else epanic.

Definition wants_lock (s : console) : bool :=
  match kprintf_lock (c_con s) with Some _ => true | None => false end && negb (in_interrupt s) && (curspl s =? 0).

Definition kprintf (fmt : list Z) (args : list arg) : EM console Z :=
  s ← eget;
  _ ← (if wants_lock s then acquire kprintf_lock set_klock else mret tt);
  chars ← __vprintf console_send fmt args;
  s ← eget;
  _ ← (if wants_lock s then release set_klock else mret tt);
  mret chars.

(** beep.c; the device counts. *)
Definition config_beep (unit_ : Z) : EM console unit :=
  s ← eget;
  if negb (unit_ =? 0) then raise ENODEV else
  _ ← eassert (negb (the_beep (c_con s)));
  emod (on_con (λ c, mkCon (the_console c) (cs_wsem c) (cs_rsem c) (cs_gotchar c) (delayed_outbuf c)
    (con_userlock_read c) (con_userlock_write c) (kprintf_lock c) true (beeps c))).

(** "beep: Warning: no beep device\n" *)
Definition no_beep_text : list Z :=
  [98; 101; 101; 112; 58; 32; 87; 97; 114; 110; 105; 110; 103; 58; 32; 110; 111; 32; 98; 101; 101; 112; 32; 100; 101; 118; 105; 99; 101; 10].
Definition beep : EM console unit :=
  s ← eget;
  if the_beep (c_con s) then emod (λ s, on_con (set_beeps (beeps (c_con s) + 1)) s)
  else _ ← kprintf no_beep_text []; mret tt.

(** ** kgets.c *)

Definition backsp : EM console unit := _ ← putch 8; _ ← putch 32; putch 8.

(** [while (pos > 0) { backsp(); pos--; }] *)
Fixpoint erase_line (pos : nat) : EM (console * list Z) nat :=
  match pos with
  | O => mret O
  | S p => _ ← onfst backsp; erase_line p
  end.

(** The two loops of ^W: back over the spaces, back over what is none. *)
Fixpoint erase_while (spaces : bool) (pos : nat) : EM (console * list Z) nat :=
  match pos with
  | O => mret O
  | S p =>
      '(_, buf) ← eget;
      c ← lift (load buf (Z.of_nat p));
      if Bool.eqb (c =? 32) spaces then _ ← onfst backsp; erase_while spaces p else mret pos
  end.

Definition put_buf (pos : nat) (c : Z) : EM (console * list Z) unit :=
  onsnd (b ← eget; b' ← lift (store b (Z.of_nat pos) c); emod (λ _, b')).

(** Every turn reads one key. *)
Fixpoint kgets_loop (fuel : nat) (maxlen : Z) (pos : nat) : EM (console * list Z) nat :=
  match fuel with
  | O => nofuel
  | S f =>
      ch ← onfst getch;
      if (ch =? 10) || (ch =? 13) then _ ← onfst (putch 10); mret pos
      else if (32 <=? ch) && (ch <? 127) && (Z.of_nat pos <? u32 (maxlen - 1)) then
        _ ← onfst (putch ch);
        _ ← put_buf pos ch;
        kgets_loop f maxlen (S pos)
      else if ((ch =? 8) || (ch =? 127)) && (0 <? Z.of_nat pos) then
        _ ← onfst backsp;
        kgets_loop f maxlen (Nat.pred pos)
      else if ch =? 3 then
        _ ← onfst (putch 94); _ ← onfst (putch 67); _ ← onfst (putch 10); mret O
      else if ch =? 18 then
        _ ← put_buf pos 0;
        '(_, buf) ← eget;
        _ ← onfst (kprintf [94; 82; 10; 37; 115] [AStr (Some (cstr buf))]);
        kgets_loop f maxlen pos
      else if ch =? 21 then
        p ← erase_line pos;
        kgets_loop f maxlen p
      else if ch =? 23 then
        p ← erase_while true pos;
        p ← erase_while false p;
        kgets_loop f maxlen p
      else
        _ ← onfst beep;
        kgets_loop f maxlen pos
  end.

Definition kgets (maxlen : Z) : EM (console * list Z) unit :=
  '(s, _) ← eget;
  pos ← kgets_loop (S (length (keys (c_port s)))) maxlen O;
  put_buf pos 0.

(** ** Everything at once *)

(** Threads between [P] and [cs_send], with their characters, and all that
    has been given to the port so far. *)
Record world := mkWorld { w_con : console; w_wait : list Z; w_log : list Z }.

Inductive action :=
  | ThreadP (ch : Z)      (* a thread passes P(cs_wsem) in putch_intr *)
  | ThreadSend            (* the first of them calls cs_send *)
  | Polled (ch : Z)       (* putch in a handler, or with interrupts off *)
  | HwDone                (* the port ends a transmission *)
  | HwKey (ch : Z)        (* a key is typed *)
  | Irq                   (* the interrupt of the port *)
  | ThreadGetch.          (* a thread passes P(cs_rsem) *)

(** What the action does, if it can happen. *)
Definition act (a : action) (w : world) : option (res ((Z + unit) * console) * list Z * list Z) :=
  let s := w_con w in
  match a with
  | ThreadP ch =>
      if 0 <? cs_wsem (c_con s) then Some (emod (on_con (set_wsem (cs_wsem (c_con s) - 1))) s, w_wait w ++ [ch], w_log w) else None
  | ThreadSend =>
      match w_wait w with
      | [] => None
      | ch :: l => Some (lser_write ch s, l, w_log w ++ [u8 ch])
      end
  | Polled ch => Some ((_ ← emod (set_cpu (in_interrupt s) SPL_HIGH); _ ← putch ch; emod (set_cpu (in_interrupt s) (curspl s))) s, w_wait w, w_log w ++ [u8 ch])
  | HwDone => Some (emod (on_port hw_done) s, w_wait w, w_log w)
  | HwKey k => Some (emod (on_port (hw_key k)) s, w_wait w, w_log w)
  | Irq =>
      if active (r_wirq (c_port s)) || active (r_rirq (c_port s)) then Some (interrupt s, w_wait w, w_log w) else None
  | ThreadGetch =>
      if 0 <? cs_rsem (c_con s) then Some (emod (on_con (set_rsem (cs_rsem (c_con s) - 1))) s, w_wait w, w_log w) else None
  end.

(** A schedule; actions that cannot happen are skipped. *)
Fixpoint con_run (l : list action) (w : world) : res world :=
  match l with
  | [] => Ret w
  | a :: l' =>
      match act a w with
      | None => con_run l' w
      | Some (r, wait, log) => '(_, s) ← r; con_run l' (mkWorld s wait log)
      end
  end.

(** The console before it is configured, with the text printed so far, and
    its configuration by autoconf.c. *)
Definition con_boot (early : list Z) : console :=
  mkConsole (mkPort false 0 0 0 None [] [] false) (mkCon false 0 0 0 early None None None false 0) false 0.
Definition config_console : EM console unit :=
  _ ← config_lser; _ ← attach_con_to_lser; config_con 0 0 [].
