(* ===== verification/ConsoleProofs.v ===== *)
(** The console: whatever threads, interrupt handlers and the port do, no
    output is lost and no writer is stuck; and what one thread's [putch],
    [kprintf], [con_io] and [kgets] do. *)

From Stdlib Require Import ZArith Lia.
From stdpp Require Import base numbers list option gmap.
From S2P Require Import Prelude Errm Libc LibcProofs Uio UioProofs Printf PrintfProofs Console.

Open Scope Z_scope.

(** ** The port and the driver *)

(** Ready to write, transmitting, or done and about to interrupt. *)
Definition write_side (p : port) : Prop :=
  (ls_wbusy p = false ∧ shift p = None ∧ r_wirq p = 1) ∨
  (ls_wbusy p = true ∧ is_Some (shift p) ∧ r_wirq p = 1) ∨
  (ls_wbusy p = true ∧ shift p = None ∧ r_wirq p = 3).

Record port_ok (p : port) : Prop := {
  po_write : write_side p;
  po_read : r_rirq p = 1 ∨ r_rirq p = 3;
  po_attached : ls_attached p = true
}.

(** What was given to the port: what is out and what is on its way. *)
Definition shown (p : port) : list Z := out p ++ match shift p with Some c => [c] | None => [] end.

Definition busy (s : console) : Z := if ls_wbusy (c_port s) then 1 else 0.

(** [k] threads are between [P(cs_wsem)] and [cs_send], and at most [n] keys
    have not been read. *)
Record con_ok (k n : Z) (s : console) : Prop := {
  co_port : port_ok (c_port s);
  co_console : the_console (c_con s) = true;
  co_wsem : cs_wsem (c_con s) + k + busy s = 1;
  co_wsem0 : 0 ≤ cs_wsem (c_con s) ∧ 0 ≤ k;
  co_rsem : 0 ≤ cs_rsem (c_con s) ≤ n;
  co_cpu : in_interrupt s = false
}.

(** Take a console apart, with its port in one of its three states. *)
Ltac con_cases s H :=
  destruct s as [[wb wi ri rc sh ou ks at_] [tc ws rs gc dl lr lw lk tb bp] ii sp];
  destruct H as [[Hwr Hrd Hat] Hco Hws Hws0 Hrs Hii]; unfold write_side, busy in *; cbn in Hwr, Hrd, Hat, Hco, Hws, Hws0, Hrs, Hii; subst;
  destruct Hwr as [(-> & -> & ->)|[(-> & [cc ->] & ->)|(-> & -> & ->)]]; cbn in Hws.

(** [con_ok] of a console written out. *)
Ltac con_side :=
  first [left; by repeat split|right; left; split; [done|split; [by eexists|done]]|right; right; by repeat split].
Ltac con_lia := cbn -[s32 Z.add Z.sub]; try change (s32 (0 + 1)) with 1; lia.
Ltac con_done := split; [split; [con_side|cbn; first [done|by left|by right]|done]|done|unfold busy; con_lia|con_lia|con_lia|done].

Ltac con_eval :=
  repeat (progress (cbn -[s32 u8 Z.add Z.ltb active];
    repeat match goal with
    | |- context [active 1] => change (active 1) with false
    | |- context [active 3] => change (active 3) with true
    | |- context [0 <? SPL_HIGH] => change (0 <? SPL_HIGH) with true
    end)).

Lemma hw_done_ok k n s : con_ok k n s → con_ok k n (on_port hw_done s) ∧ shown (hw_done (c_port s)) = shown (c_port s).
Proof. intros H. con_cases s H; (split; [con_done|]); unfold shown; cbn; by rewrite ?app_nil_r. Qed.

Lemma hw_key_ok k n c s : con_ok k n s → con_ok k n (on_port (hw_key c) s) ∧ shown (hw_key c (c_port s)) = shown (c_port s).
Proof. intros H. con_cases s H; destruct Hrd as [->| ->]; (split; [con_done|]); done. Qed.

(** The interrupt handler: it releases a writer when a character is out, and
    a reader when a key has been typed. *)
Lemma interrupt_ok k n s :
  con_ok k n s → n < 2147483647 →
  ∃ s', interrupt s = Ret (inr tt, s') ∧ con_ok k (n + 1) s' ∧ shown (c_port s') = shown (c_port s) ∧ curspl s' = curspl s ∧
    shift (c_port s') = shift (c_port s) ∧ cs_wsem (c_con s') = cs_wsem (c_con s) + if active (r_wirq (c_port s)) then 1 else 0.
Proof.
  intros H Hn. unfold interrupt, lser_irq. assert (∀ z, 0 ≤ z ≤ n → s32 (z + 1) = z + 1) as Hs by (intros; apply s32_id; unfold is_s32; lia).
  assert (∀ z, 0 ≤ z → (0 <? z + 1) = true) as Hp by (intros; lia).
  con_cases s H; destruct Hrd as [->| ->];
    unfold con_start, con_input, V_wsem, V_rsem, eassert, mbind, EM_mbind, eget, emod, lift;
    repeat (con_eval; first [rewrite (Hs rs) by lia|rewrite (s32_id (ws + 1)) by (unfold is_s32; lia)|rewrite Hp by lia]); con_eval; eexists; (split; [reflexivity|split; [con_done|]]); split_and!; done || (cbn -[s32 Z.add]; lia).
Qed.

Lemma lser_write_ok k n ch s :
  con_ok (k + 1) n s → 0 ≤ k →
  ∃ s', lser_write ch s = Ret (inr tt, s') ∧ con_ok k n s' ∧ shown (c_port s') = shown (c_port s) ++ [u8 ch] ∧ curspl s' = curspl s ∧
    cs_wsem (c_con s') = cs_wsem (c_con s).
Proof.
  intros H Hk. con_cases s H; try lia. unfold lser_write, con_splhigh, con_splx, hw_char, mbind, EM_mbind, eget, emod. cbn -[u8].
  eexists. split; [reflexivity|]. split; [con_done|]. unfold shown. cbn. by rewrite app_nil_r.
Qed.

Lemma writepolled_ok k n ch s :
  con_ok k n s →
  ∃ s', lser_writepolled ch s = Ret (inr tt, s') ∧ con_ok k n s' ∧ shown (c_port s') = shown (c_port s) ++ [u8 ch] ∧ curspl s' = curspl s ∧
    cs_wsem (c_con s') = cs_wsem (c_con s) ∧ shift (c_port s') = None.
Proof.
  intros H. con_cases s H; unfold lser_writepolled, lser_spin_until_write, con_splhigh, con_splx, hw_char, eassert, lift, mbind, EM_mbind, eget, emod; cbn -[u8];
    eexists; (split; [reflexivity|split; [con_done|]]); unfold shown; cbn; by rewrite ?app_nil_r.
Qed.

Lemma con_ok_cpu k n s l : con_ok k n s → con_ok k n (set_cpu false l s).
Proof. intros [? ? ? ? ? ?]. by split. Qed.

Lemma con_ok_weaken k n n' s : con_ok k n s → n ≤ n' → con_ok k n' s.
Proof. intros [? ? ? ? ? ?] ?. split; try done. lia. Qed.

Lemma putch_high ch s : the_console (c_con s) = true → in_interrupt s || (0 <? curspl s) = true → putch ch s = lser_writepolled ch s.
Proof. intros Hc Hs. unfold putch, mbind, EM_mbind, eget. rewrite Hc. cbn -[Z.ltb]. by rewrite Hs. Qed.

(** ** Any interleaving *)

Record world_ok (n : Z) (w : world) : Prop := {
  wo_con : con_ok (Z.of_nat (length (w_wait w))) n (w_con w);
  wo_log : shown (c_port (w_con w)) = w_log w;
  wo_spl : curspl (w_con w) = 0
}.

Lemma act_ok a n w r wait log :
  world_ok n w → n < 2147483647 → act a w = Some (r, wait, log) → ∃ s, r = Ret (inr tt, s) ∧ world_ok (n + 1) (mkWorld s wait log).
Proof.
  intros [Hc Hl Hs] Hn. destruct w as [s wt lg]. cbn [w_con w_wait w_log] in *. unfold act. cbn [w_con w_wait w_log]. destruct a as [ch| |ch| |c| |].
  - destruct (Z.ltb_spec 0 (cs_wsem (c_con s))); [|done]. intros [= <- <- <-]. eexists. split; [done|]. split; [|done|done]. cbn [w_con w_wait].
    rewrite length_app. simpl. destruct Hc as [? ? ? ? ? ?]. split; try done; unfold busy in *; cbn in *; lia.
  - destruct wt as [|ch wt]; [done|]. intros [= <- <- <-]. destruct (lser_write_ok (Z.of_nat (length wt)) n ch s) as (s' & E & Hok & Hsh & Hspl & _); [|lia|].
    { by replace (Z.of_nat (length wt) + 1) with (Z.of_nat (length (ch :: wt))) by (simpl; lia). }
    exists s'. split; [done|]. split; cbn; [eapply con_ok_weaken; [eassumption|lia]|by rewrite Hsh, Hl|congruence].
  - intros [= <- <- <-]. pose proof (co_cpu _ _ _ Hc) as Hii. rewrite Hii. destruct (writepolled_ok (Z.of_nat (length wt)) n ch (set_cpu false SPL_HIGH s)) as (s' & E & Hok & Hsh & Hspl & _); [by apply con_ok_cpu|].
    exists (set_cpu false (curspl s) s'). split.
    + unfold mbind at 1, EM_mbind, emod at 1. cbv beta iota. unfold mbind, EM_mbind. rewrite putch_high, E; [done|exact (co_console _ _ _ Hc)|done].
    + split; cbn; [apply con_ok_cpu; eapply con_ok_weaken; [eassumption|lia]|by rewrite Hsh, <- Hl|done].
  - intros [= <- <- <-]. destruct (hw_done_ok _ _ _ Hc) as [Hok Hsh]. eexists. split; [done|]. split; cbn; [eapply con_ok_weaken; [eassumption|lia]|by rewrite Hsh|done].
  - intros [= <- <- <-]. destruct (hw_key_ok _ _ c _ Hc) as [Hok Hsh]. eexists. split; [done|]. split; [eapply con_ok_weaken; [eassumption|lia]|by rewrite <- Hl|done].
  - destruct (_ || _); [|done]. intros [= <- <- <-]. destruct (interrupt_ok _ _ _ Hc Hn) as (s' & E & Hok & Hsh & Hspl & _). exists s'. split; [done|].
    split; cbn; [done|congruence|congruence].
  - destruct (Z.ltb_spec 0 (cs_rsem (c_con s))); [|done]. intros [= <- <- <-]. eexists. split; [done|]. split; [|done|done]. cbn [w_con w_wait].
    destruct Hc as [? ? ? ? ? ?]. split; try done; unfold busy in *; cbn in *; lia.
Qed.

Lemma run_ok l n w : world_ok n w → n + Z.of_nat (length l) < 2147483648 → ∃ w', con_run l w = Ret w' ∧ world_ok (n + Z.of_nat (length l)) w'.
Proof.
  revert n w. induction l as [|a l IH]; intros n w Hw Hn; cbn [con_run].
  { exists w. split; [done|]. by rewrite Z.add_0_r. }
  simpl length in *. destruct (act a w) as [[[r wait] log]|] eqn:E.
  - destruct (act_ok a n w r wait log Hw ltac:(lia) E) as (s & -> & Hs). rewrite mbind_Ret. cbn.
    destruct (IH (n + 1) _ Hs ltac:(lia)) as (w' & Er & Hw'). exists w'. split; [done|]. by replace (n + Z.of_nat (S (length l))) with (n + 1 + Z.of_nat (length l)) by lia.
  - destruct (IH n w Hw ltac:(lia)) as (w' & Er & Hw'). exists w'. split; [done|]. destruct Hw'. split; [|done|done]. eapply con_ok_weaken; [eassumption|lia].
Qed.

Lemma run_app l1 l2 w : con_run (l1 ++ l2) w = (w' ← con_run l1 w; con_run l2 w').
Proof.
  revert w. induction l1 as [|a l1 IH]; intros w; [done|]. cbn [app con_run]. destruct (act a w) as [[[r wait] log]|]; [|apply IH].
  destruct r as [[r' s]| | |]; try done. cbn. apply IH.
Qed.

(** What must still happen, in this order, before a writer that waits can go
    on: the thread before it sends, the port finishes and interrupts. *)
Definition need (w : world) : list action :=
  match w_wait w, shift (c_port (w_con w)) with
  | _ :: _, _ => [ThreadSend; HwDone; Irq]
  | [], Some _ => [HwDone; Irq]
  | [], None => [Irq]
  end.

(** Whatever happens to a console with a writer that waits, no more must
    happen, and one thing less if it was the next. *)
Definition nearer (a : action) (w w' : world) : Prop :=
  cs_wsem (c_con (w_con w')) = 1 ∨
  cs_wsem (c_con (w_con w')) = 0 ∧ need w' `sublist_of` need w ∧ (head (need w) = Some a → need w' `sublist_of` tail (need w)).

Lemma need_head w a : head (need w) = Some a → a = ThreadSend ∨ a = HwDone ∨ a = Irq.
Proof. unfold need. destruct (w_wait w); [destruct (shift (c_port (w_con w)))|]; intros [= <-]; auto. Qed.

(** The port and the threads in front of it as they were. *)
Lemma nearer_same a w s log :
  cs_wsem (c_con s) = 0 → shift (c_port s) = shift (c_port (w_con w)) ∨ shift (c_port s) = None → head (need w) ≠ Some a → nearer a w (mkWorld s (w_wait w) log).
Proof.
  intros H0 Hsh Ha. right. split; [done|]. split; [|done]. unfold need. cbn. destruct (w_wait w) as [|ch l]; [|done].
  destruct Hsh as [-> | ->]; [done|]. destruct (shift (c_port (w_con w))); [by apply sublist_cons|done].
Qed.

(** The interrupt is due when nothing else must come first. *)
Lemma need_irq n w : world_ok n w → cs_wsem (c_con (w_con w)) = 0 → head (need w) = Some Irq → active (r_wirq (c_port (w_con w))) = true.
Proof.
  intros [Hc _ _] H0. destruct w as [s [|ch wt] lg]; unfold need; cbn in *; [|done]. con_cases s Hc; cbn in *; done || lia.
Qed.

Lemma act_nearer a n w r wait log s :
  world_ok n w → n < 2147483647 → cs_wsem (c_con (w_con w)) = 0 → act a w = Some (r, wait, log) → r = Ret (inr tt, s) → nearer a w (mkWorld s wait log).
Proof.
  intros Hw Hn H0 Ha Er. pose proof (wo_con _ _ Hw) as Hc. destruct a as [ch| |ch| |c| |]; cbn [act] in Ha.
  - by rewrite H0 in Ha.
  - destruct (w_wait w) as [|ch wt] eqn:Ew; [done|]. injection Ha as <- <- <-.
    destruct (lser_write_ok (Z.of_nat (length wt)) n ch (w_con w)) as (s' & E & _ & _ & _ & Hws); [by replace (Z.of_nat (length wt) + 1) with (Z.of_nat (length (ch :: wt))) by (simpl; lia)|lia|].
    rewrite E in Er. injection Er as <-. right. split; [cbn; lia|]. assert (wt = []) as ->.
    { pose proof (co_wsem _ _ _ Hc) as Hs. unfold busy in Hs. destruct wt; [done|]. simpl in Hs. destruct (ls_wbusy _); lia. }
    unfold need. cbn. rewrite Ew. destruct (shift (c_port s')); cbn; split; intros; repeat constructor.
  - injection Ha as <- <- <-. pose proof (co_cpu _ _ _ Hc) as Hii. rewrite Hii in Er.
    destruct (writepolled_ok _ _ ch _ (con_ok_cpu _ _ _ SPL_HIGH Hc)) as (s' & E & _ & _ & _ & Hws & Hsh).
    unfold mbind at 1, EM_mbind, emod at 1 in Er. cbv beta iota in Er. unfold mbind, EM_mbind in Er.
    rewrite putch_high, E in Er; [|exact (co_console _ _ _ Hc)|done]. injection Er as <-.
    apply nearer_same; [cbn in *; lia|by right|]. by intros [?|[?|?]]%need_head.
  - injection Ha as <- <- <-. injection Er as <-. right. split; [done|]. unfold need. cbn.
    assert (shift (hw_done (c_port (w_con w))) = None) as -> by (unfold hw_done; by destruct (shift (c_port (w_con w))) eqn:Esh).
    destruct (w_wait w), (shift (c_port (w_con w))); cbn; split; intros; try done; repeat constructor.
  - injection Ha as <- <- <-. injection Er as <-. apply nearer_same; [done|by left|]. by intros [?|[?|?]]%need_head.
  - destruct (_ || _); [|done]. injection Ha as <- <- <-. destruct (interrupt_ok _ _ _ Hc Hn) as (s' & E & _ & _ & _ & Hsh & Hws). rewrite E in Er. injection Er as <-.
    destruct (active (r_wirq (c_port (w_con w)))) eqn:Ei; [left; cbn; lia|]. apply nearer_same; [lia|by left|]. intros Hh. by rewrite (need_irq n w) in Ei.
  - destruct (0 <? _); [|done]. injection Ha as <- <- <-. injection Er as <-. apply nearer_same; [done|by left|]. by intros [?|[?|?]]%need_head.
Qed.

Lemma idle_nearer a n w : world_ok n w → cs_wsem (c_con (w_con w)) = 0 → act a w = None → head (need w) ≠ Some a.
Proof.
  intros Hw H0 Ha Hh. destruct (need_head w a Hh) as [->|[->| ->]]; cbn [act] in Ha; [|done|by rewrite (need_irq n w Hw H0 Hh) in Ha].
  unfold need in Hh. destruct (w_wait w); [by destruct (shift (c_port (w_con w)))|done].
Qed.

(** However the rest of a schedule goes on: if what must happen does happen in
    it, at some point a writer can go on. *)
Lemma writer_released l n w :
  world_ok n w → n + Z.of_nat (length l) < 2147483648 → (cs_wsem (c_con (w_con w)) = 0 → need w `sublist_of` l) →
  ∃ l1 l2 w', l = l1 ++ l2 ∧ con_run l1 w = Ret w' ∧ cs_wsem (c_con (w_con w')) = 1.
Proof.
  revert n w. induction l as [|a l IH]; intros n w Hw Hn Hneed.
  - exists [], [], w. split; [done|]. split; [done|]. destruct (decide (cs_wsem (c_con (w_con w)) = 0)) as [H0|H0].
    + specialize (Hneed H0). apply sublist_nil_r in Hneed. unfold need in Hneed. by destruct (w_wait w), (shift (c_port (w_con w))).
    + destruct (wo_con _ _ Hw) as [_ _ Hsum [Hge Hk] _ _]. unfold busy in Hsum. destruct (ls_wbusy _); lia.
  - destruct (decide (cs_wsem (c_con (w_con w)) = 0)) as [H0|H0].
    2:{ exists [], (a :: l), w. split; [done|]. split; [done|]. destruct (wo_con _ _ Hw) as [_ _ Hsum [Hge Hk] _ _]. unfold busy in Hsum. destruct (ls_wbusy _); lia. }
    specialize (Hneed H0). cbn [length] in Hn. apply sublist_cons_r in Hneed.
    assert (∀ w1, con_run [a] w = Ret w1 → (∃ l1 l2 w', l = l1 ++ l2 ∧ con_run l1 w1 = Ret w' ∧ cs_wsem (c_con (w_con w')) = 1) →
      ∃ l1 l2 w', a :: l = l1 ++ l2 ∧ con_run l1 w = Ret w' ∧ cs_wsem (c_con (w_con w')) = 1) as Hcons.
    { intros w1 E1 (l1 & l2 & w' & -> & E & Hs). exists (a :: l1), l2, w'. split; [done|]. split; [|done].
      change (a :: l1) with ([a] ++ l1). by rewrite run_app, E1, mbind_Ret. }
    destruct (act a w) as [[[r wait] log]|] eqn:Ea.
    + destruct (act_ok a n w r wait log Hw ltac:(lia) Ea) as (s & Er & Hw1). pose proof (act_nearer a n w r wait log s Hw ltac:(lia) H0 Ea Er) as Hnr.
      apply (Hcons (mkWorld s wait log)); [cbn; by rewrite Ea, Er|]. apply (IH (n + 1)); [done|lia|]. intros H1.
      destruct Hnr as [Hnr|(_ & Hsub & Htl)]; [cbn in *; lia|]. destruct Hneed as [Hneed|(l' & En & Hneed)]; [by etrans|].
      etrans; [apply Htl; by rewrite En|]. by rewrite En.
    + apply (Hcons w); [cbn; by rewrite Ea|]. apply (IH n); [done|lia|]. intros _. destruct Hneed as [Hneed|(l' & En & _)]; [done|].
      exfalso. apply (idle_nearer a n w Hw H0 Ea). by rewrite En.
Qed.

Lemma need_all w : need w `sublist_of` [ThreadSend; HwDone; Irq].
Proof. unfold need. destruct (w_wait w), (shift (c_port (w_con w))); repeat constructor. Qed.

(** ** One thread *)

(** No key is pending and no other thread is in [putch]. *)
Record seq_ok (s : console) : Prop := { so_con : con_ok 0 0 s; so_key : r_rirq (c_port s) = 1 }.

(** What output leaves alone: all but the port, the semaphores and the key. *)
Definition frame (s s' : console) : Prop :=
  curspl s' = curspl s ∧ set_gotchar 0 (set_wsem 0 (c_con s')) = set_gotchar 0 (set_wsem 0 (c_con s)).

Lemma frame_refl s : frame s s.
Proof. done. Qed.
Lemma frame_trans s1 s2 s3 : frame s1 s2 → frame s2 s3 → frame s1 s3.
Proof. intros [H1 H2] [H3 H4]. split; congruence. Qed.

Definition putch_post (s : console) (t : list Z) (s' : console) : Prop :=
  seq_ok s' ∧ shown (c_port s') = shown (c_port s) ++ (u8 <$> t) ∧ keys (c_port s') = keys (c_port s) ∧ frame s s'.

Lemma post_refl s : seq_ok s → putch_post s [] s.
Proof. intros H. split; [done|]. by rewrite app_nil_r. Qed.

Lemma post_trans s1 s2 s3 t1 t2 : putch_post s1 t1 s2 → putch_post s2 t2 s3 → putch_post s1 (t1 ++ t2) s3.
Proof.
  intros (_ & E1 & K1 & F1) (H & E2 & K2 & F2). split; [done|]. split; [by rewrite E2, E1, fmap_app, app_assoc|]. split; [congruence|]. by eapply frame_trans.
Qed.

Lemma putch_spec ch s : seq_ok s → wpe (putch ch) (λ r s', r = inr tt ∧ putch_post s [ch] s') s.
Proof.
  intros [H Hk]. cut (∃ s', putch ch s = Ret (inr tt, s') ∧ putch_post s [ch] s'); [intros (s' & E & Hp); by eapply wpe_intro|].
  con_cases s H; cbn in Hk; subst ri; assert (rs = 0) as -> by lia; destruct (0 <? sp) eqn:Esp.
  all: unfold putch, putch_polled, putch_intr, P_wsem, interrupt, lser_irq, lser_write, lser_writepolled, lser_spin_until_write, con_splhigh, con_splx, hw_char, con_start, V_wsem, eassert, lift, mbind, EM_mbind, eget, emod; con_eval; rewrite ?Esp; con_eval.
  2: replace ws with 1 by lia.
  4, 6: replace ws with 0 by lia; con_eval; change (s32 (0 + 1)) with 1; change (0 <? 1) with true.
  all: con_eval.
  all: eexists; (split; [reflexivity|]); split; [split; [con_done|done]|]; unfold shown, frame; cbn; rewrite ?app_nil_r; done.
Qed.

Lemma putchs_spec t s : seq_ok s → wpe (putchs t) (λ r s', r = inr tt ∧ putch_post s t s') s.
Proof.
  revert s. induction t as [|c t IH]; intros s Hs; cbn [putchs]; [apply wpe_ret; split; [done|by apply post_refl]|].
  apply wpe_bind. eapply wpe_mono; [by apply putch_spec|]. intros r s1 [-> H1]. eapply wpe_mono; [apply IH; by destruct H1|].
  intros r s2 [-> H2]. split; [done|]. by apply (post_trans s s1 s2 [c] t).
Qed.

(** The console as a place where printf sends its text. *)
Section output.
Context (s0 : console).

Lemma console_send_spec s l t : putch_post s0 l s → wpe (console_send t) (λ r s', r = inr tt ∧ putch_post s0 (l ++ t) s') s.
Proof.
  intros H. eapply wpe_mono; [apply putchs_spec; by destruct H|]. intros r s' [-> H']. split; [done|]. by eapply post_trans.
Qed.

#[local] Instance console_sender : Sender console_send := {| sent s l := putch_post s0 l s; law_send s l t := console_send_spec s l t |}.

Lemma vprintf_console ps s :
  Forall piece_ok ps → putch_post s0 [] s →
  wpe (__vprintf console_send (format_of ps) (args_of ps)) (λ r s', r = inr (s32 (Z.of_nat (length (text_of ps)))) ∧ putch_post s0 (text_of ps) s') s.
Proof. intros Hps Hs. exact (vprintf_spec console_send ps s [] Hps Hs). Qed.
End output.

Lemma wants_lock_frame s s' : frame s s' → in_interrupt s = in_interrupt s' → wants_lock s' = wants_lock s.
Proof.
  intros [H1 H2] Hi. apply (f_equal kprintf_lock) in H2. cbn in H2. unfold wants_lock. by rewrite H1, H2, Hi.
Qed.

Lemma seq_cpu s : seq_ok s → in_interrupt s = false.
Proof. intros [H _]. by destruct H. Qed.

(** [kprintf] when nobody holds its lock. *)
Lemma kprintf_spec ps s :
  Forall piece_ok ps → seq_ok s → kprintf_lock (c_con s) ≠ Some true →
  wpe (kprintf (format_of ps) (args_of ps)) (λ r s', r = inr (s32 (Z.of_nat (length (text_of ps)))) ∧ putch_post s (text_of ps) s') s.
Proof.
  intros Hps Hs Hk. unfold kprintf. estep. destruct (wants_lock s) eqn:Ew.
  - destruct (kprintf_lock (c_con s)) as [[|]|] eqn:El; [done| |unfold wants_lock in Ew; by rewrite El in Ew].
    set (s1 := on_con (set_klock (Some true)) s). apply wpe_bind. eapply wpe_intro with (r := inr tt) (s' := s1); [unfold acquire, mbind, EM_mbind, eget; by rewrite El|].
    assert (seq_ok s1) as Hs1 by (destruct Hs as [[? ? ? ? ? ?] ?]; split; [by split|done]).
    apply wpe_bind. eapply wpe_mono; [apply (vprintf_console s1 ps s1 Hps), post_refl, Hs1|]. intros r s2 [-> H2]. destruct H2 as (Ho & Hsh & Hke & Hfr). estep.
    rewrite (wants_lock_frame s1 s2 Hfr) by (by rewrite !seq_cpu). assert (wants_lock s1 = true) as -> by (unfold wants_lock, s1 in *; rewrite El in Ew; exact Ew).
    apply wpe_bind, wpe_mod. apply wpe_ret. split; [done|]. split; [destruct Ho as [[? ? ? ? ? ?] ?]; split; [by split|done]|]. split; [exact Hsh|]. split; [exact Hke|].
    destruct Hfr as [Hf1 Hf2]. split; [exact Hf1|]. apply (f_equal (set_klock (Some false))) in Hf2. unfold s1 in Hf2. cbn in Hf2. unfold set_klock, set_wsem, set_gotchar in *. cbn in *. rewrite El. exact Hf2.
  - apply wpe_bind, wpe_ret. apply wpe_bind. eapply wpe_mono; [apply (vprintf_console s ps s Hps), post_refl, Hs|]. intros r s2 [-> H2]. estep.
    rewrite (wants_lock_frame s s2), Ew; [|by destruct H2 as (_ & _ & _ & ?)|rewrite !seq_cpu; [done|by destruct H2|done]]. apply wpe_bind, wpe_ret, wpe_ret. done.
Qed.

(** [getch] reads the next key. *)
Lemma getch_spec k rest s :
  seq_ok s → curspl s = 0 → keys (c_port s) = k :: rest →
  wpe getch (λ r s', r = inr k ∧ seq_ok s' ∧ shown (c_port s') = shown (c_port s) ∧ keys (c_port s') = rest ∧ frame s s') s.
Proof.
  intros [H Hr] Hspl Hks. cut (∃ s', getch s = Ret (inr k, s') ∧ seq_ok s' ∧ shown (c_port s') = shown (c_port s) ∧ keys (c_port s') = rest ∧ frame s s').
  { intros (s' & E & Hp). by eapply wpe_intro. }
  con_cases s H; cbn in Hr, Hspl, Hks; subst; assert (rs = 0) as -> by lia.
  all: unfold getch, getch_intr, P_rsem, interrupt, lser_irq, con_start, con_input, V_wsem, V_rsem, eassert, lift, mbind, EM_mbind, eget, emod; con_eval.
  3: replace ws with 0 by lia.
  all: repeat (con_eval; first [change (s32 (0 + 1)) with 1|change (0 <? 1) with true]); con_eval; eexists; (split; [reflexivity|]); (split; [split; [con_done|done]|]); unfold shown, frame; cbn; rewrite ?app_nil_r; done.
Qed.

(** ** con_io *)

(** What a write shows: every newline with its carriage return. *)
Definition crlf (d : list Z) : list Z := d ≫= λ c, if c =? 10 then [13; 10] else [c].

(** Everything was printed, or what came before the fault. *)
Definition con_wrote (s : console) (u : uio) (r : Z + unit) (s' : console) (u' : uio) : Prop :=
  (r = inr tt ∧ ∃ d, Z.of_nat (length d) = uio_resid u ∧ xfer u d u' ∧ putch_post s (crlf d) s') ∨
  (r = inl EFAULT ∧ ∃ d u1, xfer u d u1 ∧ ufault u1 u' ∧ putch_post s (crlf d) s').

Lemma crlf_cons c d : crlf (c :: d) = (if c =? 10 then [13; 10] else [c]) ++ crlf d.
Proof. done. Qed.

Lemma put_nl_spec c s : seq_ok s →
  wpe (_ ← (if c =? 10 then putch 13 else mret tt); putch c) (λ r s', r = inr tt ∧ putch_post s (if c =? 10 then [13; 10] else [c]) s') s.
Proof.
  intros Hs. destruct (Z.eqb_spec c 10) as [->|]; [|apply wpe_bind, wpe_ret; by apply putch_spec].
  apply wpe_bind. eapply wpe_mono; [by apply putch_spec|]. intros r s1 [-> H1]. eapply wpe_mono; [apply putch_spec; by destruct H1|]. intros r s2 [-> H2].
  split; [done|]. by apply (post_trans s s1 s2 [13] [10]).
Qed.

Lemma con_write_loop f s u :
  seq_ok s → uio_ok u → is_read u = false → uio_resid u < Z.of_nat f → wpe (con_io_loop f) (λ r s', con_wrote s u r s'.1 s'.2) (s, u).
Proof.
  revert s u. induction f as [|f IH]; intros s u Hs Hu Hr Hf; [pose proof (uo_len _ Hu); lia|]. cbn [con_io_loop]. estep.
  destruct (Z.ltb_spec 0 (uio_resid u)) as [Hpos|Hz].
  2: { apply wpe_ret. left. split; [done|]. exists []. split; [pose proof (uo_len _ Hu); simpl; lia|]. split; [by apply xfer_nil|by apply post_refl]. }
  rewrite Hr. apply wpe_bind, wpe_onsnd. eapply wpe_mono; [apply (uiomove_write_spec [0] 0 1 u); [done|done|lia|lia|simpl; lia]|].
  intros r u1 [(d & Hd & -> & Hx)|[-> Hf1]].
  2: { right. split; [done|]. exists [], u. split; [by apply xfer_nil|]. split; [done|by apply post_refl]. }
  destruct d as [|c [|]]; simpl in Hd; try lia. apply wpe_bind. eapply wpe_lift; [reflexivity|].
  destruct (xfer_fields _ _ _ Hx) as (_ & Hrw & _ & Hres & _).
  assert (is_read u1 = false) as Hr1 by congruence.
  cut (wpe (_ ← onfst (_ ← (if c =? 10 then putch 13 else mret tt); putch c); con_io_loop f) (λ r s', con_wrote s u r s'.1 s'.2) (s, u1)).
  { clear. intros H. destruct (c =? 10); unfold wpe, mbind, EM_mbind, onfst, mret, EM_mret in *; [|exact H].
    destruct (putch 13 s) as [[[e|[]] s1]| | |]; done. }
  apply wpe_bind, wpe_onfst. eapply wpe_mono; [by apply put_nl_spec|]. intros r s1 [-> H1].
  eapply wpe_mono; [apply IH; [by destruct H1|by eapply xfer_ok|done|simpl in Hres; lia]|].
  intros r [s2 u2] [[-> (d & Hl & Hx2 & Hp)]|[-> (d & u3 & Hx2 & Hf2 & Hp)]]; cbn [fst snd] in *.
  - left. split; [done|]. exists (c :: d). split; [simpl in *; lia|]. split; [by apply (xfer_app u [c] u1 d u2)|]. rewrite crlf_cons. by eapply post_trans.
  - right. split; [done|]. exists (c :: d), u3. split; [by apply (xfer_app u [c] u1 d u3)|]. split; [done|]. rewrite crlf_cons. by eapply post_trans.
Qed.

(** A line of keys: up to [n] of them, ended by Enter. *)
Fixpoint key_line (n : nat) (ks : list Z) : option (list Z * list Z) :=
  match n with
  | O => Some ([], ks)
  | S n' =>
      match ks with
      | [] => None
      | k :: ks' =>
          let c := if u8 k =? 13 then 10 else u8 k in
          if c =? 10 then Some ([c], ks') else '(l, r) ← key_line n' ks'; Some (c :: l, r)
      end
  end.

Definition con_read (s : console) (u : uio) (line rest : list Z) (r : Z + unit) (s' : console) (u' : uio) : Prop :=
  (r = inr tt ∧ xfer u line u' ∧ seq_ok s' ∧ shown (c_port s') = shown (c_port s) ∧ keys (c_port s') = rest ∧ frame s s') ∨
  (r = inl EFAULT ∧ ∃ d u1, d `prefix_of` line ∧ xfer u d u1 ∧ ufault u1 u' ∧ seq_ok s' ∧ frame s s').

Lemma con_read_loop f s u line rest :
  seq_ok s → curspl s = 0 → uio_ok u → is_read u = true → uio_resid u < Z.of_nat f → key_line (Z.to_nat (uio_resid u)) (keys (c_port s)) = Some (line, rest) →
  wpe (con_io_loop f) (λ r s', con_read s u line rest r s'.1 s'.2) (s, u).
Proof.
  revert s u line. induction f as [|f IH]; intros s u line Hs Hspl Hu Hr Hf Hk; [pose proof (uo_len _ Hu); lia|]. cbn [con_io_loop]. estep.
  destruct (Z.ltb_spec 0 (uio_resid u)) as [Hpos|Hz].
  2: { rewrite (Z2Nat.nonpos (uio_resid u)) in Hk by lia. injection Hk as <- <-. apply wpe_ret. left. split; [done|]. split; [by apply xfer_nil|]. done. }
  rewrite Hr. destruct (Z.to_nat (uio_resid u)) as [|n] eqn:En; [lia|]. cbn [key_line] in Hk. destruct (keys (c_port s)) as [|k ks] eqn:Ek; [done|].
  apply wpe_bind, wpe_onfst. eapply wpe_mono; [by apply (getch_spec k ks)|]. intros r s1 (-> & Hs1 & Hsh & Hk1 & Hfr). cbv zeta. set (c := if u8 k =? 13 then 10 else u8 k) in *.
  assert (is_u8 c) as Hc by (unfold c; pose proof (u8_range k); destruct (u8 k =? 13); unfold is_u8 in *; lia).
  apply wpe_bind, wpe_onsnd. eapply wpe_mono; [apply (uiomove_read_spec [c] 0 1 u); [done|done|lia|lia|simpl; lia|by apply Forall_singleton]|].
  intros r u1 [[-> Hx]|[-> Hf1]]. 2: { right. split; [done|]. exists [], u. split; [apply prefix_nil|]. split; [by apply xfer_nil|]. done. }
  change (take (Z.to_nat 1) (drop (Z.to_nat 0) [c])) with [c] in Hx. destruct (xfer_fields _ _ _ Hx) as (_ & Hrw & _ & Hres & _). simpl in Hres.
  destruct (c =? 10) eqn:Ec; [injection Hk as <- <-; apply wpe_ret; left; done|].
  destruct (key_line n ks) as [[l r]|] eqn:El; [|done]. cbn in Hk. injection Hk as <- <-.
  eapply wpe_mono; [apply (IH s1 u1 l); [done|by destruct Hfr as [-> _]|by eapply xfer_ok|congruence|lia|rewrite Hk1; by replace (Z.to_nat (uio_resid u1)) with n by lia]|].
  intros r' [s2 u2] [(-> & Hx2 & Hs2 & Hsh2 & Hk2 & Hf2)|(-> & d & u3 & Hd & Hx2 & Hf2 & Hs2 & Hfr2)]; cbn [fst snd] in *.
  - left. split; [done|]. split; [by apply (xfer_app u [c] u1 l u2)|]. split; [done|]. split; [congruence|]. split; [done|by eapply frame_trans].
  - right. split; [done|]. exists (c :: d), u3. split; [by apply prefix_cons|]. split; [by apply (xfer_app u [c] u1 d u3)|]. split; [done|]. split; [done|by eapply frame_trans].
Qed.

(** The lock around the loop. *)
Lemma with_lock get set (m : EM (console * uio) unit) Q s u :
  get (c_con s) = Some false →
  wpe m (λ r s', Q r (on_con (set (Some false)) s'.1, s'.2)) (on_con (set (Some true)) s, u) →
  wpe (_ ← onfst (acquire get set); r ← attempt m; _ ← onfst (release set); reraise r) Q (s, u).
Proof.
  intros Hl H. apply wpe_bind, wpe_onfst. eapply wpe_intro; [unfold acquire, mbind, EM_mbind, eget; by rewrite Hl|]. cbv beta iota.
  apply wpe_bind, wpe_attempt. eapply wpe_mono; [exact H|]. intros r [s' u'] HQ. apply wpe_bind, wpe_onfst, wpe_mod, wpe_reraise. exact HQ.
Qed.

Lemma lock_seq f s : seq_ok s → (∀ c, the_console (f c) = the_console c ∧ cs_wsem (f c) = cs_wsem c ∧ cs_rsem (f c) = cs_rsem c) → seq_ok (on_con f s).
Proof.
  intros [[? H1 H2 H3 H4 ?] ?] Hf. destruct (Hf (c_con s)) as (E1 & E2 & E3). split; [split; cbn; try done; unfold busy in *; cbn; congruence || lia|done].
Qed.

(** The fields of a console the output does not touch. *)
Lemma frame_locked (f g : con → con) s s' :
  (∀ c, g (set_gotchar 0 (set_wsem 0 c)) = set_gotchar 0 (set_wsem 0 (g c))) → g (f (c_con s)) = c_con s → frame (on_con f s) s' → frame s (on_con g s').
Proof. intros Hg Hfg [H1 H2]. split; [exact H1|]. cbn in *. apply (f_equal g) in H2. by rewrite !Hg, Hfg in H2. Qed.

Lemma con_write_spec s u :
  seq_ok s → con_userlock_write (c_con s) = Some false → uio_ok u → is_read u = false → wpe con_io (λ r s', con_wrote s u r s'.1 s'.2) (s, u).
Proof.
  intros Hs Hl Hu Hr. unfold con_io. estep. rewrite Hr. rewrite Hl. apply wpe_bind, wpe_assert; [done|]. apply with_lock; [done|].
  set (s1 := on_con (set_ulock_write (Some true)) s). assert (seq_ok s1) as Hs1 by (by apply lock_seq).
  eapply wpe_mono; [apply con_write_loop; [done|done|done|pose proof (uo_len _ Hu); lia]|].
  assert (∀ t s', putch_post s1 t s' → putch_post s t (on_con (set_ulock_write (Some false)) s')) as Hpost.
  { intros t s' (H1 & H2 & H3 & H4). split; [by apply lock_seq|]. split; [exact H2|]. split; [exact H3|].
    eapply (frame_locked (set_ulock_write (Some true))); [done| |exact H4]. destruct s as [? [] ? ?]. cbn in *. by subst. }
  intros r [s' u'] [[-> (d & H1 & H2 & H3)]|[-> (d & u1 & H1 & H2 & H3)]]; [left|right]; (split; [done|]); cbn [fst snd] in *; eauto 10.
Qed.

Lemma con_read_spec s u line rest :
  seq_ok s → curspl s = 0 → con_userlock_read (c_con s) = Some false → uio_ok u → is_read u = true → key_line (Z.to_nat (uio_resid u)) (keys (c_port s)) = Some (line, rest) →
  wpe con_io (λ r s', con_read s u line rest r s'.1 s'.2) (s, u).
Proof.
  intros Hs Hspl Hl Hu Hr Hk. unfold con_io. estep. rewrite Hr. rewrite Hl. apply wpe_bind, wpe_assert; [done|]. apply with_lock; [done|].
  set (s1 := on_con (set_ulock_read (Some true)) s). assert (seq_ok s1) as Hs1 by (by apply lock_seq).
  eapply wpe_mono; [by apply con_read_loop; [..|pose proof (uo_len _ Hu); lia|]|].
  assert (∀ s', frame s1 s' → frame s (on_con (set_ulock_read (Some false)) s')) as Hfr.
  { intros s' H4. eapply (frame_locked (set_ulock_read (Some true))); [done| |exact H4]. destruct s as [? [] ? ?]. cbn in *. by subst. }
  intros r [s' u'] [(-> & H1 & H2 & H3 & H4 & H5)|(-> & d & u1 & H1 & H2 & H3 & H4 & H5)]; cbn [fst snd] in *.
  - left. split; [done|]. split; [done|]. split; [by apply lock_seq|]. split; [exact H3|]. split; [exact H4|by apply Hfr].
  - right. split; [done|]. exists d, u1. split; [done|]. split; [done|]. split; [done|]. split; [by apply lock_seq|by apply Hfr].
Qed.
