(* ===== verification/ConsoleTheorems.v ===== *)
(** The line editor of [kgets] against an editor on lists, and the theorems of
    the console. *)

From Stdlib Require Import ZArith Lia.
From stdpp Require Import base numbers list option gmap.
From S2P Require Import Prelude Errm Libc LibcProofs Uio UioProofs Printf PrintfProofs Console ConsoleProofs.

Open Scope Z_scope.

(** ** The editor *)

Definition is_printable (k : Z) : bool := (32 <=? k) && (k <? 127).

Fixpoint drop_spaces (want : bool) (l : list Z) : list Z :=
  match l with
  | [] => []
  | c :: l' => if Bool.eqb (c =? 32) want then drop_spaces want l' else l
  end.
(** ^W, on the line from its end. *)
Definition erase_word (line : list Z) : list Z := reverse (drop_spaces false (drop_spaces true (reverse line))).

(** Backspace, space, backspace; n times. *)
Definition wipe (n : nat) : list Z := replicate n [8; 32; 8] ≫= id.

(** The line the keys make, what is echoed, and the keys that are left; [bell]
    is what is printed for a key that does nothing.  There is no line while
    Enter has not been typed. *)
Fixpoint edit (maxlen : Z) (bell ks line : list Z) : option (list Z * list Z * list Z) :=
  match ks with
  | [] => None
  | k :: ks =>
      let go echo line := '(l, e, r) ← edit maxlen bell ks line; Some (l, echo ++ e, r) in
      if (k =? 10) || (k =? 13) then Some (line, [10], ks)
      else if is_printable k && (Z.of_nat (length line) <? maxlen - 1) then go [k] (line ++ [k])
      else if ((k =? 8) || (k =? 127)) && (0 <? Z.of_nat (length line)) then go [8; 32; 8] (take (Nat.pred (length line)) line)
      else if k =? 3 then Some ([], [94; 67; 10], ks)
      else if k =? 18 then go ([94; 82; 10] ++ line) line
      else if k =? 21 then go (wipe (length line)) []
      else if k =? 23 then go (wipe (length line - length (erase_word line))) (erase_word line)
      else go bell line
  end.

(** ** Steps of kgets *)

Ltac chars := repeat (apply Forall_cons_2; [unfold is_u8; lia|]); apply Forall_nil_2.

(** The buffer starts with the line. *)
Record buf_ok (maxlen : Z) (b0 b line : list Z) : Prop := {
  bo_len : length b = length b0;
  bo_line : take (length line) b = line;
  bo_fit : Z.of_nat (length line) ≤ maxlen - 1;
  bo_chars : Forall (λ c, 32 ≤ c < 127) line;
  bo_rest : drop (Z.to_nat maxlen) b = drop (Z.to_nat maxlen) b0
}.

Section kgets.
Context (maxlen : Z) (b0 : list Z) (Hmax : 1 ≤ maxlen < 2147483648) (Hb0 : maxlen ≤ Z.of_nat (length b0)).

(** What the state says between two keys. *)
Definition editing (s0 : console) (echo line ks : list Z) (s : console) (b : list Z) : Prop :=
  seq_ok s ∧ shown (c_port s) = shown (c_port s0) ++ echo ∧ keys (c_port s) = ks ∧
  curspl s = 0 ∧ kprintf_lock (c_con s) ≠ Some true ∧ the_beep (c_con s) = the_beep (c_con s0) ∧ buf_ok maxlen b0 b line.

Lemma frame_fields s s' : frame s s' → curspl s' = curspl s ∧ kprintf_lock (c_con s') = kprintf_lock (c_con s) ∧ the_beep (c_con s') = the_beep (c_con s).
Proof. intros [H1 H2]. split; [done|]. split; [by apply (f_equal kprintf_lock) in H2|by apply (f_equal the_beep) in H2]. Qed.

Lemma ascii_u8 t : Forall is_u8 t → u8 <$> t = t.
Proof. induction 1 as [|c t Hc Ht IH]; [done|]. cbn. by rewrite IH, u8_id. Qed.

Lemma editing_print s0 echo line ks s b t s' :
  editing s0 echo line ks s b → Forall is_u8 t → putch_post s t s' → editing s0 (echo ++ t) line ks s' b.
Proof.
  intros (H1 & H2 & H3 & H4 & H5 & H6 & H7) Ht (P1 & P2 & P3 & P4). apply frame_fields in P4 as (F1 & F2 & F3).
  split; [done|]. split; [by rewrite P2, H2, (ascii_u8 t Ht), app_assoc|]. repeat split; try congruence; by apply H7.
Qed.

Lemma buf_shrink b line n : buf_ok maxlen b0 b line → (n ≤ length line)%nat → buf_ok maxlen b0 b (take n line).
Proof.
  intros [H1 H2 H3 H4 H5] Hn. split; [done| | |by apply Forall_take|done]; rewrite length_take; [|lia].
  replace (n `min` length line)%nat with n by lia. rewrite <- H2 at 1. rewrite take_take. f_equal. lia.
Qed.

Lemma buf_store b line c :
  buf_ok maxlen b0 b line → ∃ b', store b (Z.of_nat (length line)) c = Ret b' ∧ length b' = length b0 ∧ take (length line) b' = line ∧
    b' !! length line = Some c ∧ drop (Z.to_nat maxlen) b' = drop (Z.to_nat maxlen) b0.
Proof.
  intros [H1 H2 H3 H4 H5]. rewrite store_in_range by lia. eexists. split; [done|]. rewrite Nat2Z.id, length_insert. split; [done|].
  split; [rewrite take_insert_ge by lia; done|]. split; [apply list_lookup_insert_eq; lia|]. rewrite drop_insert_lt by lia. done.
Qed.

Lemma put_buf_run pos c b b' s : store b (Z.of_nat pos) c = Ret b' → put_buf pos c (s, b) = Ret (inr tt, (s, b')).
Proof. intros E. unfold put_buf, onsnd, mbind, EM_mbind, eget, lift, emod. by rewrite E. Qed.

Lemma buf_grow b line c b' :
  buf_ok maxlen b0 b line → 32 ≤ c < 127 → Z.of_nat (length line) < maxlen - 1 → store b (Z.of_nat (length line)) c = Ret b' → buf_ok maxlen b0 b' (line ++ [c]).
Proof.
  intros Hb Hc Hl E. destruct (buf_store b line c Hb) as (b1 & E1 & H1 & H2 & H3 & H4). rewrite E in E1. injection E1 as <-.
  split; [done| |rewrite length_app; simpl; lia|apply Forall_app; split; [by destruct Hb|by apply Forall_singleton]|done].
  rewrite length_app. simpl. rewrite Nat.add_1_r, (take_S_r _ _ c) by done. by rewrite H2.
Qed.

(** The terminator. *)
Lemma buf_end b line b' : buf_ok maxlen b0 b line → store b (Z.of_nat (length line)) 0 = Ret b' → cstr b' = line ∧ buf_ok maxlen b0 b' line.
Proof.
  intros Hb E. destruct (buf_store b line 0 Hb) as (b1 & E1 & H1 & H2 & H3 & H4). rewrite E in E1. injection E1 as <-. split; [|destruct Hb; by split].
  rewrite <- (take_drop (length line) b'), H2, (drop_S _ _ _ H3). apply cstr_app. eapply Forall_impl; [by destruct Hb|]. simpl. lia.
Qed.

Lemma backsp_spec s : seq_ok s → wpe backsp (λ r s', r = inr tt ∧ putch_post s [8; 32; 8] s') s.
Proof.
  intros Hs. unfold backsp. apply wpe_bind. eapply wpe_mono; [by apply putch_spec|]. intros r s1 [-> H1].
  apply wpe_bind. eapply wpe_mono; [apply putch_spec; by destruct H1|]. intros r s2 [-> H2]. eapply wpe_mono; [apply putch_spec; by destruct H2|]. intros r s3 [-> H3].
  split; [done|]. apply (post_trans s s2 s3 [8; 32] [8]); [|done]. by apply (post_trans s s1 s2 [8] [32]).
Qed.

Lemma wipe_S n : wipe (S n) = [8; 32; 8] ++ wipe n.
Proof. done. Qed.

Lemma bs_chars : Forall is_u8 [8; 32; 8].
Proof. chars. Qed.

(** One backspace while editing. *)
Lemma editing_backsp s0 echo line ks s b (n : nat) Q :
  editing s0 echo line ks s b → (n ≤ length line)%nat →
  (∀ s', editing s0 (echo ++ [8; 32; 8]) (take n line) ks s' b → Q (inr tt) (s', b)) → wpe (onfst backsp) Q (s, b).
Proof.
  intros He Hn HQ. apply wpe_onfst. eapply wpe_mono; [apply backsp_spec; by destruct He|]. intros r s' [-> Hp]. apply HQ.
  pose proof (editing_print _ _ _ _ _ _ _ _ He bs_chars Hp) as (H1 & H2 & H3 & H4 & H5 & H6 & H7).
  pose proof (buf_shrink b line n H7 Hn). done.
Qed.

Lemma erase_line_spec s0 echo line ks s b :
  editing s0 echo line ks s b →
  wpe (erase_line (length line)) (λ r s', r = inr 0%nat ∧ s'.2 = b ∧ editing s0 (echo ++ wipe (length line)) [] ks s'.1 b) (s, b).
Proof.
  remember (length line) as n eqn:En. revert echo line s En. induction n as [|n IH]; intros echo line s En He; cbn [erase_line].
  - destruct line; [|done]. apply wpe_ret. cbn. rewrite app_nil_r. done.
  - apply wpe_bind. eapply (editing_backsp _ _ _ _ _ _ n); [exact He|lia|]. intros s' He'.
    eapply wpe_mono; [eapply (IH _ (take n line)); [rewrite length_take; lia|exact He']|]. intros r s2 (-> & E & H). split; [done|]. split; [done|].
    rewrite wipe_S. by rewrite <- app_assoc in H.
Qed.

(** How much of a line ^W's loops keep. *)
Definition keep (spaces : bool) (line : list Z) : list Z := reverse (drop_spaces spaces (reverse line)).

Lemma keep_snoc spaces line c : keep spaces (line ++ [c]) = if Bool.eqb (c =? 32) spaces then keep spaces line else line ++ [c].
Proof. unfold keep. rewrite reverse_snoc. cbn [drop_spaces]. destruct (Bool.eqb _ _); [done|]. by rewrite reverse_cons, reverse_involutive. Qed.

Lemma keep_prefix spaces line : ∃ l, line = keep spaces line ++ l.
Proof.
  induction line as [|c line [l IH]] using rev_ind; [by exists []|]. rewrite keep_snoc. destruct (Bool.eqb _ _); [|by exists []; rewrite app_nil_r].
  exists (l ++ [c]). by rewrite app_assoc, <- IH.
Qed.

Lemma erase_while_spec spaces s0 echo line ks s b :
  editing s0 echo line ks s b →
  wpe (erase_while spaces (length line)) (λ r s', r = inr (length (keep spaces line)) ∧ s'.2 = b ∧
    editing s0 (echo ++ wipe (length line - length (keep spaces line))) (keep spaces line) ks s'.1 b) (s, b).
Proof.
  revert echo s. induction line as [|c line IH] using rev_ind; intros echo s He.
  - apply wpe_ret. cbn. rewrite app_nil_r. done.
  - rewrite length_app, Nat.add_1_r. cbn [erase_while]. estep. pose proof He as (_ & _ & _ & _ & _ & _ & Hb).
    assert (load b (Z.of_nat (length line)) = Ret c) as El.
    { apply load_lookup; [lia|]. rewrite Nat2Z.id. destruct Hb as [_ H2 _ _ _]. rewrite <- (lookup_take_lt b (length (line ++ [c]))) by (rewrite length_app; simpl; lia).
      rewrite H2, lookup_app_r, Nat.sub_diag by lia. done. }
    apply wpe_bind. eapply wpe_lift; [exact El|]. rewrite keep_snoc. destruct (Bool.eqb (c =? 32) spaces).
    + apply wpe_bind. eapply (editing_backsp _ _ _ _ _ _ (length line)); [exact He|rewrite length_app; lia|]. intros s' He'. rewrite take_app_length in He'.
      eapply wpe_mono; [by apply IH|]. intros r s2 (-> & E & H). split; [done|]. split; [done|]. destruct (keep_prefix spaces line) as [l Hl].
      apply (f_equal length) in Hl. rewrite length_app in Hl. replace (S (length line) - length (keep spaces line))%nat with (S (length line - length (keep spaces line))) by lia.
      rewrite wipe_S. by rewrite <- app_assoc in H.
    + apply wpe_ret. rewrite length_app. simpl. rewrite Nat.add_1_r, Nat.sub_diag. cbn. by rewrite app_nil_r.
Qed.

(** The bell. *)
Definition bell (s : console) : list Z := if the_beep (c_con s) then [] else no_beep_text.

(** A text without conversions. *)
Lemma lit_format l : format_of (PLit <$> l) = l ∧ args_of (PLit <$> l) = [] ∧ text_of (PLit <$> l) = l.
Proof. induction l as [|c l (H1 & H2 & H3)]; [done|]. unfold format_of, args_of, text_of in *. cbn. by rewrite H1, H2, H3. Qed.

Lemma editing_beep s0 echo line ks s b Q :
  editing s0 echo line ks s b → (∀ s', editing s0 (echo ++ bell s0) line ks s' b → Q (inr tt) (s', b)) → wpe (onfst beep) Q (s, b).
Proof.
  intros He HQ. apply wpe_onfst. unfold beep. estep. unfold bell in HQ. pose proof He as (H1 & H2 & H3 & H4 & H5 & H6 & H7). rewrite <- H6 in HQ.
  destruct (the_beep (c_con s)) eqn:Eb.
  - apply wpe_mod, HQ. rewrite app_nil_r. split; [destruct H1 as [[? ? ? ? ? ?] ?]; split; [by split|done]|]. repeat (split; [done|]). split; [cbn; congruence|done].
  - apply wpe_bind. destruct (lit_format no_beep_text) as (E1 & E2 & E3). rewrite <- E1, <- E2. eapply wpe_mono; [apply kprintf_spec; [|done|done]|].
    { unfold no_beep_text. cbn [fmap list_fmap]. repeat (apply Forall_cons_2; [done|]). apply Forall_nil_2. }
    intros r s' [-> Hp]. apply wpe_ret, HQ. rewrite E3 in Hp. eapply editing_print; [exact He| |exact Hp]. chars.
Qed.

(** ^R *)
Lemma editing_reprint s0 echo line ks s b Q :
  editing s0 echo line ks s b → (∀ s' b', editing s0 (echo ++ [94; 82; 10] ++ line) line ks s' b' → Q (inr tt) (s', b')) →
  wpe (_ ← put_buf (length line) 0; '(_, buf) ← eget; _ ← onfst (kprintf [94; 82; 10; 37; 115] [AStr (Some (cstr buf))]); mret tt) Q (s, b).
Proof.
  intros He HQ. pose proof He as (H1 & H2 & H3 & H4 & H5 & H6 & H7). destruct (buf_store b line 0 H7) as (b' & E & _). destruct (buf_end b line b' H7 E) as [Hc Hb'].
  apply wpe_bind. eapply wpe_intro; [by apply put_buf_run|]. cbv beta iota. estep. rewrite Hc. apply wpe_bind, wpe_onfst.
  set (ps := [PLit 94; PLit 82; PLit 10; PStr (mkField false false false 0 false) (Some line)]).
  change [94; 82; 10; 37; 115] with (format_of ps). change [AStr (Some line)] with (args_of ps).
  assert (text_of ps = [94; 82; 10] ++ line) as Et.
  { unfold text_of, ps. rewrite !bind_cons. cbn [piece_text app default]. unfold layout. cbn [f_width f_left f_zero]. rewrite (Z2Nat.nonpos (0 - _)) by lia. cbn. by rewrite ?app_nil_r. }
  eapply wpe_mono; [apply (kprintf_spec ps s); [|done|done]|].
  { unfold ps. repeat (apply Forall_cons_2; [done|]). apply Forall_singleton. split; [unfold field_ok; cbn; lia|]. unfold text_fits. destruct H7. cbn. lia. }
  intros r s' [-> Hp]. rewrite Et in Hp. apply wpe_ret, HQ. eapply editing_print; [|  |exact Hp]; [|apply Forall_app; split; [chars|]].
  - done.
  - destruct H7 as [_ _ _ Hl _]. eapply Forall_impl; [exact Hl|]. unfold is_u8. cbn. lia.
Qed.

Lemma reprint_bind {A} (k : EM (console * list Z) A) pos Q s :
  wpe (_ ← put_buf pos 0; '(_, buf) ← eget; _ ← onfst (kprintf [94; 82; 10; 37; 115] [AStr (Some (cstr buf))]); mret tt)
    (λ r s', match r with inl e => Q (inl e) s' | inr _ => wpe k Q s' end) s →
  wpe (_ ← put_buf pos 0; '(_, buf) ← eget; _ ← onfst (kprintf [94; 82; 10; 37; 115] [AStr (Some (cstr buf))]); k) Q s.
Proof.
  unfold wpe, mbind, EM_mbind, eget, mret, EM_mret. destruct (put_buf pos 0 s) as [[[e|[]] [s1 b1]]| | |]; try done. cbn.
  destruct (kprintf _ _ s1) as [[[e|n] s2]| | |]; done.
Qed.

Lemma wpe_putchs (t : list Z) (s : console) (b : list Z) (k : EM (console * list Z) nat) Q :
  seq_ok s → (∀ s', putch_post s t s' → wpe k Q (s', b)) → wpe (foldr (λ c m, _ ← onfst (putch c); m) k t) Q (s, b).
Proof.
  revert s. induction t as [|c t IH]; intros s Hs HQ; cbn [foldr]; [apply HQ; by apply post_refl|].
  apply wpe_bind, wpe_onfst. eapply wpe_mono; [by apply putch_spec|]. intros r s1 [-> H1]. apply IH; [by destruct H1|]. intros s' Hp. apply HQ. by apply (post_trans s s1 s' [c] t).
Qed.

Lemma keep_length spaces line : (length (keep spaces line) ≤ length line)%nat.
Proof. destruct (keep_prefix spaces line) as [l Hl]. apply (f_equal length) in Hl. rewrite length_app in Hl. lia. Qed.

Lemma wipe_split a b c : (b ≤ a)%nat → (c ≤ b)%nat → wipe (a - b) ++ wipe (b - c) = wipe (a - c).
Proof.
  intros H1 H2. unfold wipe. rewrite <- bind_app. f_equal. rewrite <- replicate_add. f_equal. lia.
Qed.

Lemma kgets_loop_spec s0 f echo line ks s b line' echo' rest :
  editing s0 echo line ks s b → edit maxlen (bell s0) ks line = Some (line', echo', rest) → (length ks < f)%nat →
  wpe (kgets_loop f maxlen (length line)) (λ r s', r = inr (length line') ∧ editing s0 (echo ++ echo') line' rest s'.1 s'.2) (s, b).
Proof.
  revert echo line ks s b echo'. induction f as [|f IH]; intros echo line ks s b echo' He Hed Hf; [lia|]. destruct ks as [|k ks]; [done|].
  pose proof He as (H1 & H2 & H3 & H4 & H5 & H6 & H7). cbn [kgets_loop]. apply wpe_bind, wpe_onfst. eapply wpe_mono; [by apply (getch_spec k ks)|].
  intros r s1 (-> & G1 & G2 & G3 & G4). apply frame_fields in G4 as (F1 & F2 & F3).
  assert (editing s0 echo line ks s1 b) as He1 by (split; [done|]; split; [congruence|]; split; [done|]; split; [congruence|]; split; [congruence|]; split; [congruence|done]).
  clear He H1 H2 H3 H4 H5 H6 G1 G2 G3 F1 F2 F3. simpl in Hf.
  assert (∀ t line1 s2 b2 e1, editing s0 (echo ++ t) line1 ks s2 b2 → edit maxlen (bell s0) ks line1 = Some (line', e1, rest) → echo' = t ++ e1 →
    wpe (kgets_loop f maxlen (length line1)) (λ r s', r = inr (length line') ∧ editing s0 (echo ++ echo') line' rest s'.1 s'.2) (s2, b2)) as Hgo.
  { intros t line1 s2 b2 e1 He2 Hed2 ->. rewrite app_assoc. by apply (IH (echo ++ t) line1 ks s2 b2 e1); [| |lia]. }
  assert (∀ t line1, ('(l, e, r) ← edit maxlen (bell s0) ks line1; Some (l, t ++ e, r)) = Some (line', echo', rest) →
    ∃ e1, edit maxlen (bell s0) ks line1 = Some (line', e1, rest) ∧ echo' = t ++ e1) as Hinv.
  { intros t line1. destruct (edit _ _ _ line1) as [[[l e] r]|]; [|done]. cbn. intros [= <- <- <-]. eauto. }
  rewrite (u32_id (maxlen - 1)) by (unfold is_u32; lia). cbn [edit] in Hed. cbv zeta in Hed. fold (is_printable k).
  destruct ((k =? 10) || (k =? 13)).
  { injection Hed as <- <- <-. apply wpe_bind, wpe_onfst. eapply wpe_mono; [apply putch_spec; by destruct He1|]. intros r s2 [-> Hp]. apply wpe_ret. split; [done|].
    eapply editing_print; [exact He1|chars|exact Hp]. }
  destruct (is_printable k && _) eqn:E2.
  { apply Hinv in Hed as (e1 & Hed & ->). unfold is_printable in E2. zb. apply wpe_bind, wpe_onfst. eapply wpe_mono; [apply putch_spec; by destruct He1|]. intros r s2 [-> Hp].
    assert (Forall is_u8 [k]) as Hk by (apply Forall_singleton; unfold is_u8; lia). pose proof (editing_print _ _ _ _ _ _ _ _ He1 Hk Hp) as He2. destruct (buf_store b line k H7) as (b' & E & _).
    apply wpe_bind. eapply wpe_intro; [by apply put_buf_run|]. cbv beta iota. replace (S (length line)) with (length (line ++ [k])) by (rewrite length_app; simpl; lia).
    eapply (Hgo [k]); [|exact Hed|done]. destruct He2 as (G1 & G2 & G3 & G4 & G5 & G6 & G7). repeat (split; [done|]). by apply (buf_grow b line k b'); [| |lia|]. }
  destruct (((k =? 8) || (k =? 127)) && _) eqn:E3.
  { apply Hinv in Hed as (e1 & Hed & ->). apply wpe_bind. eapply (editing_backsp _ _ _ _ _ _ (Nat.pred (length line))); [exact He1|lia|]. intros s2 He2.
    replace (Nat.pred (length line)) with (length (take (Nat.pred (length line)) line)) at 1 by (rewrite length_take; lia). by eapply (Hgo [8; 32; 8]). }
  destruct (k =? 3).
  { injection Hed as <- <- <-. apply (wpe_putchs [94; 67; 10]); [by destruct He1|]. intros s2 Hp. apply wpe_ret. split; [done|].
    assert (Forall is_u8 [94; 67; 10]) as Hch by chars. pose proof (editing_print _ _ _ _ _ _ _ _ He1 Hch Hp) as (G1 & G2 & G3 & G4 & G5 & G6 & G7). repeat (split; [done|]). exact (buf_shrink b line 0 G7 ltac:(lia)). }
  destruct (k =? 18).
  { apply Hinv in Hed as (e1 & Hed & ->). apply reprint_bind. eapply editing_reprint; [exact He1|]. intros s2 b2 He2. by eapply (Hgo ([94; 82; 10] ++ line)). }
  destruct (k =? 21).
  { apply Hinv in Hed as (e1 & Hed & ->). apply wpe_bind. eapply wpe_mono; [by eapply erase_line_spec|]. intros r [s2 b2] (-> & E & He2). cbn in E, He2. subst b2. by eapply (Hgo (wipe (length line)) []). }
  destruct (k =? 23).
  { apply Hinv in Hed as (e1 & Hed & ->). apply wpe_bind. eapply wpe_mono; [by eapply (erase_while_spec true)|]. intros r [s2 b2] (-> & E & He2). cbn in E, He2. subst b2.
    apply wpe_bind. eapply wpe_mono; [by eapply (erase_while_spec false)|]. intros r [s3 b3] (-> & E & He3). cbn in E, He3. subst b3.
    assert (keep false (keep true line) = erase_word line) as Hw by (unfold keep, erase_word; by rewrite reverse_involutive).
    pose proof (keep_length false (keep true line)) as Hl. rewrite Hw in *.
    eapply (Hgo (wipe (length line - length (erase_word line))) (erase_word line)); [|exact Hed|done].
    rewrite <- (wipe_split (length line) (length (keep true line))); [by rewrite app_assoc|apply keep_length|exact Hl]. }
  apply Hinv in Hed as (e1 & Hed & ->). apply wpe_bind. eapply editing_beep; [exact He1|]. intros s2 He2. by eapply (Hgo (bell s0)).
Qed.
End kgets.

(** ** Configuration *)

Lemma config_console_spec early :
  Forall is_u8 early →
  ∃ s, config_console (con_boot early) = Ret (inr tt, s) ∧ seq_ok s ∧ curspl s = 0 ∧ shown (c_port s) = early ∧ kprintf_lock (c_con s) = None.
Proof.
  intros He. set (s1 := mkConsole (mkPort false 1 1 0 None [] [] true) (mkCon true 1 0 0 early (Some false) (Some false) None false 0) false 0).
  assert (seq_ok s1) as Hs1 by (split; [con_done|done]).
  destruct (wpe_run _ _ _ (putchs_spec early s1 Hs1)) as (r & s2 & E & -> & H2 & Hsh & Hk & Hfr). exists (on_con (set_delayed []) s2). split.
  - transitivity ((_ ← flush_delay_buf; attach_console_to_vfs 0 []) s1); [reflexivity|]. unfold flush_delay_buf, mbind, EM_mbind, eget.
    change (delayed_outbuf (c_con s1)) with early. by rewrite E.
  - split; [by apply lock_seq|]. apply frame_fields in Hfr as (F1 & F2 & F3). split; [exact F1|]. split; [|exact F2]. cbn. by rewrite Hsh, (ascii_u8 early He).
Qed.

(** ** Theorems *)

(** C36: The console driver loses no output and never stops.  Whatever
    threads, handlers that print by polling, the serial port, the keyboard and
    the interrupts do, in any order, after the console has been configured (as
    long as the keys not read fit a semaphore's int): no assertion fails and no write reaches a busy port; the characters sent are
    those printed before there was a console and then those given to the
    driver, in order; the write semaphore is free, or one thread is between
    taking it and sending its character, or a character is on its way.  No
    writer is left waiting: however the schedule goes on, if in what follows a
    thread sends, the port then ends a transmission and its interrupt is then
    taken, with anything in between, the semaphore is free at some point.
    Input is another matter: the driver keeps one key, and a key typed before
    the last one is read takes its place. *)
Theorem console_loses_no_output (early : list Z) (sched : list action) :
  Forall is_u8 early → Z.of_nat (length sched) < 2147483640 →
  ∃ s w, config_console (con_boot early) = Ret (inr tt, s) ∧ con_run sched (mkWorld s [] early) = Ret w ∧
    shown (c_port (w_con w)) = w_log w ∧
    cs_wsem (c_con (w_con w)) + Z.of_nat (length (w_wait w)) + busy (w_con w) = 1 ∧
    (∀ more, [ThreadSend; HwDone; Irq] `sublist_of` more → Z.of_nat (length sched + length more) < 2147483640 →
      ∃ l1 l2 w', more = l1 ++ l2 ∧ con_run l1 w = Ret w' ∧ cs_wsem (c_con (w_con w')) = 1).
Proof.
  intros He Hn. destruct (config_console_spec early He) as (s & E & Hs & Hspl & Hsh & _).
  assert (world_ok 0 (mkWorld s [] early)) as Hw by (split; [by destruct Hs|done|done]).
  destruct (run_ok sched 0 _ Hw ltac:(lia)) as (w & Er & Hw'). exists s, w. split; [done|]. split; [done|]. split; [by destruct Hw'|].
  split; [by destruct Hw' as [[] _ _]|]. intros more Hmore Hlen. eapply writer_released; [exact Hw'|lia|]. intros _. etrans; [apply need_all|done].
Qed.

(** Two threads print while a handler does, and a key is typed. *)
Lemma console_loses_no_output_witness :
  ∃ s w, config_console (con_boot [79; 75]) = Ret (inr tt, s) ∧
    con_run [HwDone; Irq; ThreadP 65; HwKey 120; Polled 33; ThreadP 66; ThreadSend; HwDone; Polled 63; Irq; ThreadP 66; ThreadSend] (mkWorld s [] [79; 75]) = Ret w ∧
    shown (c_port (w_con w)) = w_log w ∧
    cs_wsem (c_con (w_con w)) + Z.of_nat (length (w_wait w)) + busy (w_con w) = 1 ∧
    (∀ more, [ThreadSend; HwDone; Irq] `sublist_of` more → Z.of_nat (12 + length more) < 2147483640 →
      ∃ l1 l2 w', more = l1 ++ l2 ∧ con_run l1 w = Ret w' ∧ cs_wsem (c_con (w_con w')) = 1).
Proof.
  apply (console_loses_no_output [79; 75] [HwDone; Irq; ThreadP 65; HwKey 120; Polled 33; ThreadP 66; ThreadSend; HwDone; Polled 63; Irq; ThreadP 66; ThreadSend]);
    [chars|simpl; lia].
Defined.

(** C37: [kprintf] prints its text on the console: with interrupts on, when
    every character waits for the interrupt of the one before, and with them
    off, when it polls the port, a transmission under way included.  It
    returns the number of characters, and leaves the kprintf lock, the
    interrupt level and all else as they were. *)
Theorem kprintf_prints (ps : list piece) (s : console) :
  Forall piece_ok ps → seq_ok s → kprintf_lock (c_con s) ≠ Some true →
  ∃ s', kprintf (format_of ps) (args_of ps) s = Ret (inr (s32 (Z.of_nat (length (text_of ps)))), s') ∧ putch_post s (text_of ps) s'.
Proof.
  intros Hps Hs Hk. destruct (wpe_run _ _ _ (kprintf_spec ps s Hps Hs Hk)) as (r & s' & E & -> & Hp). by exists s'.
Qed.

(** A busy port, interrupts off: "cpu0: 42\n". *)
Lemma kprintf_prints_witness :
  let s := mkConsole (mkPort true 1 1 0 (Some 79) [] [] true) (mkCon true 0 0 0 [] (Some false) (Some false) (Some false) true 0) false 1 in
  let ps := (PLit <$> [99; 112; 117]) ++ [PNum (mkField false false false 0 false) Cd 0; PLit 58; PNum (mkField false false false 3 false) Cu 42; PLit 10] in
  ∃ s', kprintf (format_of ps) (args_of ps) s = Ret (inr 9, s') ∧ putch_post s [99; 112; 117; 48; 58; 32; 52; 50; 10] s'.
Proof.
  intros s ps. apply (kprintf_prints ps s).
  - repeat (apply Forall_cons_2; [cbn; unfold field_ok; cbn; repeat split; lia || done|]). apply Forall_nil_2.
  - split; [con_done|done].
  - done.
Defined.

(** C38: [kgets] is a line editor.  If the keys end a line (Enter, or ^C for an
    empty one), the call returns with that line as a string in the buffer, as
    the editor on lists has it - printable characters while there is room,
    backspace, ^U, ^W, ^R -, has shown exactly its echo, has taken exactly
    those keys and has written nothing past [maxlen]. *)
Theorem kgets_edits (maxlen : Z) (s : console) (buf line echo rest : list Z) :
  1 ≤ maxlen < 2147483648 → maxlen ≤ Z.of_nat (length buf) → seq_ok s → curspl s = 0 → kprintf_lock (c_con s) ≠ Some true →
  edit maxlen (bell s) (keys (c_port s)) [] = Some (line, echo, rest) →
  ∃ s' buf', kgets maxlen (s, buf) = Ret (inr tt, (s', buf')) ∧
    cstr buf' = line ∧ length buf' = length buf ∧ drop (Z.to_nat maxlen) buf' = drop (Z.to_nat maxlen) buf ∧
    shown (c_port s') = shown (c_port s) ++ echo ∧ keys (c_port s') = rest.
Proof.
  intros Hmax Hbuf Hs Hspl Hlk Hed.
  assert (editing maxlen buf s [] [] (keys (c_port s)) s buf) as He.
  { split; [done|]. split; [by rewrite app_nil_r|]. repeat (split; [done|]). split; [done|done|simpl; lia|apply Forall_nil_2|done]. }
  assert (wpe (kgets maxlen) (λ r s', r = inr tt ∧ cstr s'.2 = line ∧ buf_ok maxlen buf s'.2 line ∧
    shown (c_port s'.1) = shown (c_port s) ++ echo ∧ keys (c_port s'.1) = rest) (s, buf)) as H.
  { unfold kgets. estep. apply wpe_bind. change 0%nat with (length (@nil Z)).
    eapply wpe_mono; [by eapply (kgets_loop_spec maxlen buf Hmax Hbuf s _ [] []); [exact He|exact Hed|lia]|].
    intros r [s' b] [-> (H1 & H2 & H3 & H4 & H5 & H6 & H7)]. cbn [fst snd] in *. destruct (buf_store maxlen buf Hmax Hbuf b line 0 H7) as (b' & E & _).
    destruct (buf_end maxlen buf Hmax Hbuf b line b' H7 E) as [Hc Hb]. eapply wpe_intro; [by apply put_buf_run|]. done. }
  destruct (wpe_run _ _ _ H) as (r & [s' b'] & E & -> & Hc & Hb & Hsh & Hk). exists s', b'. split; [exact E|]. split; [exact Hc|]. destruct Hb. done.
Qed.

(** "lx", backspace, "s o", ^W, "x", ^R, a key that beeps, Enter, with a buffer of 5. *)
Lemma kgets_edits_witness :
  let s := mkConsole (mkPort false 1 1 0 None [] [108; 120; 8; 115; 32; 111; 23; 120; 18; 7; 13; 113] true) (mkCon true 1 0 0 [] (Some false) (Some false) None true 0) false 0 in
  ∃ s' buf', kgets 5 (s, replicate 6 255) = Ret (inr tt, (s', buf')) ∧
    cstr buf' = [108; 115; 32; 120] ∧ length buf' = 6%nat ∧ drop 5 buf' = [255] ∧
    shown (c_port s') = [108; 120; 8; 32; 8; 115; 32; 111; 8; 32; 8; 120; 94; 82; 10; 108; 115; 32; 120; 10] ∧ keys (c_port s') = [113].
Proof.
  intros s. apply (kgets_edits 5 s (replicate 6 255)); [lia|simpl; lia|split; [con_done|done]|done|done|]. reflexivity.
Defined.

(** C39: Reads and writes of the console device.  A write shows all bytes of
    the buffer, a carriage return before every newline; a read takes keys up
    to the size of the buffer or to Enter, which becomes a newline, and puts
    them in the buffer; a bad buffer gives EFAULT after what came before it.
    The lock of the device is free again on every way out. *)
Theorem con_io_correct (s : console) (u : uio) (line rest : list Z) :
  seq_ok s → curspl s = 0 → con_userlock_read (c_con s) = Some false → con_userlock_write (c_con s) = Some false → uio_ok u →
  is_read u = false ∨ key_line (Z.to_nat (uio_resid u)) (keys (c_port s)) = Some (line, rest) →
  ∃ r s' u', con_io (s, u) = Ret (r, (s', u')) ∧ if is_read u then con_read s u line rest r s' u' else con_wrote s u r s' u'.
Proof.
  intros Hs Hspl Hl1 Hl2 Hu Hk. destruct (is_read u) eqn:Er.
  - destruct Hk as [|Hk]; [done|]. destruct (wpe_run _ _ _ (con_read_spec s u line rest Hs Hspl Hl1 Hu Er Hk)) as (r & [s' u'] & E & H). by exists r, s', u'.
  - destruct (wpe_run _ _ _ (con_write_spec s u Hs Hl2 Hu Er)) as (r & [s' u'] & E & H). by exists r, s', u'.
Qed.

(** A read of eight bytes while "ls" and Enter are typed. *)
Lemma con_io_correct_witness :
  let s := mkConsole (mkPort false 1 1 0 None [] [108; 115; 13; 113] true) (mkCon true 1 0 0 [] (Some false) (Some false) None true 0) false 0 in
  let u := mk_kuio (replicate 8 0) 8 0 UIO_READ in
  ∃ r s' u', con_io (s, u) = Ret (r, (s', u')) ∧ con_read s u [108; 115; 10] [113] r s' u'.
Proof.
  intros s u. apply (con_io_correct s u [108; 115; 10] [113]); [split; [con_done|done]|done|done|done| |right; reflexivity].
  split; cbn; try lia. split; [done|]. split; [|done]. unfold bytes. chars.
Defined.

(** Two keys before the reader comes: it reads the second one twice. *)
Example fast_typist :
  match config_console (con_boot []) with
  | Ret (_, s) =>
      match con_run [HwKey 97; Irq; HwKey 98; Irq] (mkWorld s [] []) with
      | Ret w => match (a ← getch; b ← getch; mret (a, b)) (w_con w) with Ret (r, _) => r = inr (98, 98) | _ => False end
      | _ => False
      end
  | _ => False
  end.
Proof. vm_compute. reflexivity. Qed.
