(* ===== verification/Lhd.v ===== *)
(** The LAMEbus disk driver (kern/dev/lamebus/lhd.c) and the disk behind it.

    The disk is its sectors, the on-card buffer and what its status register
    will show at the coming interrupts, a list for reads and one for writes:
    values that are no completion are ignored by the interrupt handler, and
    when a list is empty every operation succeeds.  What a failed write
    leaves in its sector comes with its status.  The semaphores of the driver
    only make threads take turns; here one thread uses the disk. *)

From Stdlib Require Import ZArith Lia.
From stdpp Require Import base numbers list option gmap functions.
From S2P Require Import Prelude Errm Uio.

Open Scope Z_scope.

Definition LHD_SECTSIZE : Z := 512.
Definition LHD_OK : Z := 4.
Definition LHD_INVSECT : Z := 12.
Definition LHD_MEDIA : Z := 20.
Definition LHD_STATEMASK : Z := 29.

Record disk := mkDisk {
  d_blocks : Z;
  d_sect : Z → list Z;
  d_buf : list Z;
  d_rstat : list Z;
  d_wstat : list (Z * list Z)
}.

Definition set_sect (b : Z) (x : list Z) (d : disk) : disk :=
  mkDisk (d_blocks d) (<[b := x]> (d_sect d)) (d_buf d) (d_rstat d) (d_wstat d).
Definition set_dbuf (x : list Z) (d : disk) : disk :=
  mkDisk (d_blocks d) (d_sect d) x (d_rstat d) (d_wstat d).
Definition set_rstat (x : list Z) (d : disk) : disk :=
  mkDisk (d_blocks d) (d_sect d) (d_buf d) x (d_wstat d).
Definition set_wstat (x : list (Z * list Z)) (d : disk) : disk :=
  mkDisk (d_blocks d) (d_sect d) (d_buf d) (d_rstat d) x.

Definition lhd_code_to_errno (code : Z) : Z :=
  let st := Z.land code LHD_STATEMASK in
  if st =? LHD_OK then 0
  else if st =? LHD_INVSECT then EINVAL
  else if st =? LHD_MEDIA then EIO
  else EAGAIN.

(** The interrupt handler on status [val]: the result passed to
    [lhd_iodone], if the operation has finished. *)
Definition lhd_irq (val : Z) : option Z :=
  let st := Z.land val LHD_STATEMASK in
  if (st =? LHD_OK) || (st =? LHD_INVSECT) || (st =? LHD_MEDIA)
  then Some (lhd_code_to_errno val) else None.

(** [P(lh->lh_done)]: interrupts until the operation has finished. *)
Fixpoint wait_read (l : list Z) : Z * list Z :=
  match l with
  | [] => (0, [])
  | v :: l' => match lhd_irq v with Some e => (e, l') | None => wait_read l' end
  end.
Fixpoint wait_write (l : list (Z * list Z)) : Z * list Z * list (Z * list Z) :=
  match l with
  | [] => (0, [], [])
  | (v, junk) :: l' => match lhd_irq v with Some e => (e, junk, l') | None => wait_write l' end
  end.

(** The operation the driver starts on a sector: the result. *)
Definition hw_read (sector : Z) (d : disk) : Z * disk :=
  let '(e, l) := wait_read (d_rstat d) in
  let d := set_rstat l d in
  (e, if e =? 0 then set_dbuf (d_sect d sector) d else d).
Definition hw_write (sector : Z) (d : disk) : Z * disk :=
  let '(e, junk, l) := wait_write (d_wstat d) in
  let d := set_wstat l d in
  (e, set_sect sector (if e =? 0 then d_buf d else junk) d).

(** The body of the loop over the sectors. *)
Definition lhd_sector (sector : Z) : EM (disk * uio) unit :=
  '(d, u) ← eget;
  if is_read u then
    let '(result, d') := hw_read sector d in
    _ ← onfst (emod (λ _, d'));
    if negb (result =? 0) then raise result else
    _ ← onsnd (uiomove (d_buf d') 0 LHD_SECTSIZE);
    mret tt
  else
    buf ← onsnd (uiomove (d_buf d) 0 LHD_SECTSIZE);
    let '(result, d') := hw_write sector (set_dbuf buf d) in
    _ ← onfst (emod (λ _, d'));
    if negb (result =? 0) then raise result else mret tt.

Fixpoint lhd_loop (n : nat) (sector : Z) : EM (disk * uio) unit :=
  match n with
  | O => mret tt
  | S n' => _ ← lhd_sector sector; lhd_loop n' (u32 (sector + 1))
  end.

Definition lhd_io : EM (disk * uio) unit :=
  '(d, u) ← eget;
  let sector := u32 (Z.quot (uio_offset u) LHD_SECTSIZE) in
  let sectoff := u32 (Z.rem (uio_offset u) LHD_SECTSIZE) in
  let len := uio_resid u / LHD_SECTSIZE in
  let lenoff := uio_resid u mod LHD_SECTSIZE in
  if negb (sectoff =? 0) || negb (lenoff =? 0) then raise EINVAL
  else if d_blocks d <? u32 (sector + len) then raise EINVAL
  else lhd_loop (Z.to_nat len) sector.

Definition lhd_open (openflags : Z) : Z := 0.
Definition lhd_close : Z := 0.
Definition lhd_ioctl (op data : Z) : Z := EIOCTL.
