(* ===== verification/LhdProofs.v ===== *)
(** The disk driver moves whole sectors: a read delivers the sector, a write
    replaces it, and an error says so. *)

From Stdlib Require Import ZArith Lia.
From stdpp Require Import base numbers list option gmap functions.
From S2P Require Import Prelude Errm Uio UioProofs Lhd.

Open Scope Z_scope.

(** Blocks are so few that byte offsets fit [off_t]. *)
Definition max_blocks : Z := 4194303.

(** A disk whose hardware does not reject valid sectors and does not fail
    writes; reads may fail. *)
(** No write to come fails.  The file system does not learn of one that does
    (see [sfs_wblock_masks_write_errors]), so what it promises, it promises on
    disks that do not fail writes; reads may fail. *)
Definition writes_fine (d : disk) : Prop := Forall (λ x, lhd_irq (x.1) = None ∨ lhd_irq (x.1) = Some 0) (d_wstat d).

Record disk_ok (d : disk) : Prop := {
  do_blocks : 0 ≤ d_blocks d ≤ max_blocks;
  do_sect : ∀ b, length (d_sect d b) = 512%nat ∧ bytes (d_sect d b);
  do_buf : length (d_buf d) = 512%nat ∧ bytes (d_buf d);
  do_r : Forall (λ v, lhd_irq v ≠ Some EINVAL) (d_rstat d);
  do_w : writes_fine d
}.

(** [d'] has the same contents; what is to come has come closer. *)
Record dev_same (d d' : disk) : Prop := {
  ds_blocks : d_blocks d' = d_blocks d;
  ds_sect : ∀ b, d_sect d' b = d_sect d b;
  ds_ok : disk_ok d';
  ds_r : d_rstat d = [] → d_rstat d' = [];
  ds_w : d_wstat d = [] → d_wstat d' = []
}.

(** [d'] has [x] in block [b]. *)
Record dev_put (d : disk) (b : Z) (x : list Z) (d' : disk) : Prop := {
  dp_blocks : d_blocks d' = d_blocks d;
  dp_sect : ∀ c, d_sect d' c = if decide (c = b) then x else d_sect d c;
  dp_ok : disk_ok d';
  dp_r : d_rstat d = [] → d_rstat d' = [];
  dp_w : d_wstat d = [] → d_wstat d' = []
}.

Lemma dev_same_refl d : disk_ok d → dev_same d d.
Proof. by split. Qed.

Lemma dev_same_trans d1 d2 d3 : dev_same d1 d2 → dev_same d2 d3 → dev_same d1 d3.
Proof.
  intros [A1 A2 A3 A4 A5] [B1 B2 B3 B4 B5]. split; [congruence| |done|auto|auto]. intros b. by rewrite B2, A2.
Qed.

Lemma dev_put_same d1 d2 b x d3 : dev_same d1 d2 → dev_put d2 b x d3 → dev_put d1 b x d3.
Proof.
  intros [A1 A2 A3 A4 A5] [B1 B2 B3 B4 B5]. split; [congruence| |done|auto|auto].
  intros c. rewrite B2. by case_decide.
Qed.

Lemma lhd_irq_cases v : lhd_irq v = None ∨ lhd_irq v = Some 0 ∨ lhd_irq v = Some EINVAL ∨ lhd_irq v = Some EIO.
Proof.
  unfold lhd_irq, lhd_code_to_errno. destruct (_ =? LHD_OK); [auto|]. destruct (_ =? LHD_INVSECT); [auto|].
  destruct (_ =? LHD_MEDIA); auto.
Qed.

Lemma wait_read_spec l :
  Forall (λ v, lhd_irq v ≠ Some EINVAL) l →
  ∃ e l', wait_read l = (e, l') ∧ (e = 0 ∨ e = EIO ∧ l ≠ []) ∧ Forall (λ v, lhd_irq v ≠ Some EINVAL) l' ∧
    (l = [] → l' = []).
Proof.
  induction 1 as [|v l Hv Hl IH]; cbn [wait_read].
  - exists 0, []. split_and!; [done|by left|constructor|done].
  - destruct (lhd_irq_cases v) as [E|[E|[E|E]]]; rewrite E; [| |done|].
    + destruct IH as (e & l' & -> & He & Hl' & _). exists e, l'. split; [done|]. split; [|done].
      destruct He as [->|[-> _]]; auto.
    + exists 0, l. split_and!; [done|by left|done|done].
    + exists EIO, l. split_and!; [done|by right|done|done].
Qed.

Lemma wait_write_spec l :
  Forall (λ x : Z * list Z, lhd_irq (x.1) = None ∨ lhd_irq (x.1) = Some 0) l →
  ∃ j l', wait_write l = (0, j, l') ∧ Forall (λ x : Z * list Z, lhd_irq (x.1) = None ∨ lhd_irq (x.1) = Some 0) l' ∧
    (l = [] → l' = []).
Proof.
  induction 1 as [|[v j] l Hv Hl IH]; cbn [wait_write].
  - exists [], []. split_and!; [done|constructor|done].
  - simpl in Hv. destruct Hv as [E|E]; rewrite E.
    + destruct IH as (j' & l' & -> & Hl' & _). exists j', l'. done.
    + exists j, l. done.
Qed.

(** ** One sector *)

Lemma hw_read_spec b d :
  disk_ok d → ∃ e d', hw_read b d = (e, d') ∧ dev_same d d' ∧
    (e = 0 ∧ d_buf d' = d_sect d b ∨ e = EIO ∧ d_rstat d ≠ []).
Proof.
  intros [D1 D2 D3 D4 D5]. unfold hw_read. destruct (wait_read_spec (d_rstat d) D4) as (e & l & -> & He & Hl & Hn).
  destruct He as [->|[-> Hne]]; do 2 eexists; (split; [done|]); (split; [|auto]).
  - split; try done. split; try done. simpl. apply D2.
  - split; done.
Qed.

Lemma hw_write_spec b d :
  disk_ok d → ∃ d', hw_write b d = (0, d') ∧ dev_put d b (d_buf d) d'.
Proof.
  intros [D1 D2 D3 D4 D5]. unfold hw_write. destruct (wait_write_spec (d_wstat d) D5) as (j & l & -> & Hl & Hn).
  eexists. split; [done|]. simpl. split; try done; simpl.
  - intros c. destruct (decide (c = b)) as [->|Hne]; [apply fn_lookup_insert|by apply fn_lookup_insert_ne].
  - split; try done; simpl. intros c. destruct (decide (c = b)) as [->|Hne].
    + by rewrite fn_lookup_insert.
    + by rewrite fn_lookup_insert_ne.
Qed.

(** The uio of a transfer of block [b]. *)
Definition block_uio (b : Z) (u : uio) : Prop :=
  uio_ok u ∧ uio_offset u = b * 512 ∧ uio_resid u = 512.

Lemma lhd_io_one b d u Q :
  d_blocks d ≤ max_blocks → 0 ≤ b < d_blocks d → block_uio b u →
  wpe (lhd_sector b) Q (d, u) → wpe lhd_io Q (d, u).
Proof.
  intros Hm Hb (Hu & Eo & Er) H. unfold max_blocks in Hm.
  unfold lhd_io. estep. cbv beta iota. rewrite Eo, Er. unfold LHD_SECTSIZE.
  rewrite Z.quot_mul, Z.rem_mul by lia. change (u32 0) with 0. change (512 / 512) with 1. change (512 mod 512) with 0.
  rewrite (u32_id b) by (unfold is_u32; lia). cbn [Z.eqb negb orb].
  rewrite (u32_id (b + 1)) by (unfold is_u32; lia). rewrite (proj2 (Z.ltb_ge _ _)) by lia.
  change (Z.to_nat 1) with 1%nat. cbn [lhd_loop]. apply wpe_bind. eapply wpe_mono; [exact H|].
  intros [e|[]] s' HQ; [done|]. by apply wpe_ret.
Qed.

Lemma take_all_512 (l : list Z) : length l = 512%nat → take (Z.to_nat 512) (drop (Z.to_nat 0) l) = l.
Proof. intros H. rewrite drop_0. apply take_ge. lia. Qed.

(** Reading a block: the sector goes through the uio, or the read failed and
    the uio is as it was, or the user's buffer cannot be written. *)
Lemma lhd_read_spec b d u :
  disk_ok d → 0 ≤ b < d_blocks d → block_uio b u → is_read u = true →
  wpe lhd_io (λ r '(d', u'), dev_same d d' ∧
    ((r = inr tt ∧ xfer u (d_sect d b) u') ∨ (r = inl EIO ∧ u' = u ∧ d_rstat d ≠ []) ∨
     (r = inl EFAULT ∧ ufault u u'))) (d, u).
Proof.
  intros Hd Hb Hbu Hr. eapply lhd_io_one; [apply (do_blocks _ Hd)|done..|]. destruct Hbu as (Hu & Eo & Er). unfold lhd_sector. estep. rewrite Hr.
  destruct (hw_read_spec b d Hd) as (e & d' & -> & Hs & He). estep. cbv beta iota. destruct He as [[-> Hbuf]|[-> Hne]].
  - destruct (do_sect _ Hd b) as [Hlen Hby]. cbn [Z.eqb negb]. estep. rewrite Hbuf.
    eapply wpe_mono; [apply uiomove_read_spec; unfold LHD_SECTSIZE; try done; lia|].
    unfold LHD_SECTSIZE. rewrite take_all_512 by done. intros r u' [[-> Hx]|[-> Hf]].
    + apply wpe_ret. split; [done|]. by left.
    + split; [done|]. by right; right.
  - cbn [Z.eqb negb EIO]. apply wpe_raise. split; [done|]. right; left. done.
Qed.

(** Writing a block: what the uio holds replaces it, or the user's buffer
    cannot be read. *)
Lemma lhd_write_spec b d u :
  disk_ok d → 0 ≤ b < d_blocks d → block_uio b u → is_read u = false →
  wpe lhd_io (λ r '(d', u'),
    (∃ x, length x = 512%nat ∧ r = inr tt ∧ xfer u x u' ∧ dev_put d b x d') ∨
    (r = inl EFAULT ∧ ufault u u' ∧ dev_same d d')) (d, u).
Proof.
  intros Hd Hb Hbu Hr. eapply lhd_io_one; [apply (do_blocks _ Hd)|done..|]. destruct Hbu as (Hu & Eo & Er). unfold lhd_sector. estep. rewrite Hr.
  destruct (do_buf _ Hd) as [Hlen Hby]. estep.
  eapply wpe_mono; [apply uiomove_write_spec; unfold LHD_SECTSIZE; try done; lia|].
  unfold LHD_SECTSIZE. intros r u' [(x & Hx & -> & Hxf)|[-> Hf]].
  - assert (splice (d_buf d) (Z.to_nat 0) x = x) as ->.
    { unfold splice. rewrite take_0. simpl. rewrite drop_ge by lia. apply app_nil_r. }
    assert (disk_ok (set_dbuf x d)) as Hd'.
    { destruct Hd. destruct Hxf as (Hbx & _). split; try done. split; [simpl; lia|done]. }
    destruct (hw_write_spec b (set_dbuf x d) Hd') as (d' & -> & Hp). estep. cbv beta iota. cbn [negb Z.eqb].
    apply wpe_ret. left. exists x. split; [lia|]. split; [done|]. split; [done|].
    destruct Hp as [P1 P2 P3 P4 P5]. by split.
  - right. split; [done|]. split; [done|]. by apply dev_same_refl.
Qed.
