(* ===== verification/SfsDisk.v ===== *)
(** The on-disk structures of the SFS file system (kern/include/kern/sfs.h):
    the macros, the structures, and the bytes a structure has in memory. *)

From Stdlib Require Import ZArith Lia.
From stdpp Require Import base numbers list option gmap.
From S2P Require Import Prelude Errm Uio.

Open Scope Z_scope.

Definition SFS_MAGIC : Z := 2880303105.
Definition SFS_BLOCKSIZE : Z := 512.
Definition SFS_VOLNAME_SIZE : nat := 32.
Definition SFS_NDIRECT : Z := 15.
Definition SFS_DBPERIDB : Z := 128.
Definition SFS_NAMELEN : nat := 60.
Definition SFS_SB_LOCATION : Z := 0.
Definition SFS_ROOT_LOCATION : Z := 1.
Definition SFS_MAP_LOCATION : Z := 2.
Definition SFS_NOINO : Z := 0.
Definition SFS_BLOCKBITS : Z := 4096.
Definition SFS_TYPE_INVAL : Z := 0.
Definition SFS_TYPE_FILE : Z := 1.
Definition SFS_TYPE_DIR : Z := 2.

Definition SFS_ROUNDUP (a b : Z) : Z := u32 (u32 (a + b - 1) / b * b).
Definition SFS_BITMAPSIZE (nblocks : Z) : Z := SFS_ROUNDUP nblocks SFS_BLOCKBITS.
Definition SFS_BITBLOCKS (nblocks : Z) : Z := SFS_BITMAPSIZE nblocks / SFS_BLOCKBITS.

(** ** Words *)

Definition be32 (w : Z) : list Z :=
  [w / 16777216 mod 256; w / 65536 mod 256; w / 256 mod 256; w mod 256].
Definition de32 (a b c d : Z) : Z := a * 16777216 + b * 65536 + c * 256 + d.

(** The words of a buffer, and the bytes of words. *)
Fixpoint words (l : list Z) : list Z :=
  match l with
  | a :: b :: c :: d :: l' => de32 a b c d :: words l'
  | _ => []
  end.
Definition unwords (ws : list Z) : list Z := ws ≫= be32.

(** ** The structures *)

Record sfs_super := mkSuper {
  sp_magic : Z;
  sp_nblocks : Z;
  sp_volname : list Z;
  sp_reserved : list Z
}.

Record sfs_inode := mkInode {
  sfi_size : Z;
  sfi_type : Z;
  sfi_linkcount : Z;
  sfi_direct : list Z;
  sfi_indirect : Z;
  sfi_waste : list Z
}.

Record sfs_dir := mkDir { sfd_ino : Z; sfd_name : list Z }.

(** The bytes of the structures.  The code hands the address of a structure
    to the functions that read and write blocks; there is no encoder in it.
    What the bytes are is the layout C gives the structures on the machine:
    the fields in order, big-endian, without padding. *)
Definition enc_super (s : sfs_super) : list Z :=
  be32 (sp_magic s) ++ be32 (sp_nblocks s) ++ sp_volname s ++ unwords (sp_reserved s).
Definition dec_super (l : list Z) : sfs_super :=
  mkSuper (default 0 (head (words l))) (default 0 (words l !! 1%nat))
    (take SFS_VOLNAME_SIZE (drop 8 l)) (words (drop 40 l)).

Definition enc_inode (n : sfs_inode) : list Z :=
  unwords (sfi_size n :: sfi_type n * 65536 + sfi_linkcount n :: sfi_direct n ++ sfi_indirect n :: sfi_waste n).
Definition dec_inode (l : list Z) : sfs_inode :=
  let ws := words l in
  mkInode (default 0 (ws !! 0%nat)) (default 0 (ws !! 1%nat) / 65536) (default 0 (ws !! 1%nat) mod 65536)
    (take 15 (drop 2 ws)) (default 0 (ws !! 17%nat)) (drop 18 ws).

Definition enc_dir (d : sfs_dir) : list Z := be32 (sfd_ino d) ++ sfd_name d.
Definition dec_dir (l : list Z) : sfs_dir := mkDir (default 0 (head (words l))) (drop 4 l).

(** ** Well-formed values *)

Definition super_wf (s : sfs_super) : Prop :=
  is_u32 (sp_magic s) ∧ is_u32 (sp_nblocks s) ∧ length (sp_volname s) = 32%nat ∧ bytes (sp_volname s) ∧
  length (sp_reserved s) = 118%nat ∧ Forall is_u32 (sp_reserved s).

Definition inode_wf (n : sfs_inode) : Prop :=
  is_u32 (sfi_size n) ∧ is_u16 (sfi_type n) ∧ is_u16 (sfi_linkcount n) ∧
  length (sfi_direct n) = 15%nat ∧ Forall is_u32 (sfi_direct n) ∧ is_u32 (sfi_indirect n) ∧
  length (sfi_waste n) = 110%nat ∧ Forall is_u32 (sfi_waste n).

Definition dir_wf (d : sfs_dir) : Prop :=
  is_u32 (sfd_ino d) ∧ length (sfd_name d) = 60%nat ∧ bytes (sfd_name d).

(** ** Lemmas on words *)

Lemma be32_length w : length (be32 w) = 4%nat.
Proof. done. Qed.

Lemma be32_bytes w : bytes (be32 w).
Proof. repeat constructor; unfold is_u8; apply Z.mod_pos_bound; lia. Qed.

Lemma de32_be32 w : is_u32 w →
  de32 (w / 16777216 mod 256) (w / 65536 mod 256) (w / 256 mod 256) (w mod 256) = w.
Proof.
  unfold is_u32, de32. intros Hw.
  pose proof (Z.div_mod w 256 ltac:(lia)). pose proof (Z.div_mod (w / 256) 256 ltac:(lia)).
  pose proof (Z.div_mod (w / 65536) 256 ltac:(lia)). pose proof (Z.mod_pos_bound w 256 ltac:(lia)).
  pose proof (Z.mod_pos_bound (w / 256) 256 ltac:(lia)). pose proof (Z.mod_pos_bound (w / 65536) 256 ltac:(lia)).
  assert (w / 65536 = w / 256 / 256) as E1 by (rewrite Z.div_div by lia; done).
  assert (w / 16777216 = w / 65536 / 256) as E2 by (rewrite Z.div_div by lia; done).
  assert (0 ≤ w / 16777216 < 256) by (split; [apply Z.div_pos; lia|apply Z.div_lt_upper_bound; lia]).
  rewrite (Z.mod_small (w / 16777216)) by lia. lia.
Qed.

Lemma be32_de32 a b c d : is_u8 a → is_u8 b → is_u8 c → is_u8 d → be32 (de32 a b c d) = [a; b; c; d].
Proof.
  unfold is_u8, be32, de32. intros Ha Hb Hc Hd.
  assert ((a * 16777216 + b * 65536 + c * 256 + d) / 256 = a * 65536 + b * 256 + c) as E1.
  { symmetry. apply (Z.div_unique _ _ _ d); lia. }
  assert ((a * 16777216 + b * 65536 + c * 256 + d) / 65536 = a * 256 + b) as E2.
  { symmetry. apply (Z.div_unique _ _ _ (c * 256 + d)); lia. }
  assert ((a * 16777216 + b * 65536 + c * 256 + d) / 16777216 = a) as E3.
  { symmetry. apply (Z.div_unique _ _ _ (b * 65536 + c * 256 + d)); lia. }
  rewrite E1, E2, E3. f_equal; [apply Z.mod_small; lia|].
  f_equal; [symmetry; apply (Z.mod_unique _ _ a); lia|].
  f_equal; [symmetry; apply (Z.mod_unique _ _ (a * 256 + b)); lia|].
  f_equal. symmetry. apply (Z.mod_unique _ _ (a * 65536 + b * 256 + c)); lia.
Qed.

Lemma words_be32 w l : is_u32 w → words (be32 w ++ l) = w :: words l.
Proof. intros Hw. cbn [be32 app words]. by rewrite de32_be32. Qed.

Lemma unwords_cons w ws : unwords (w :: ws) = be32 w ++ unwords ws.
Proof. done. Qed.

Lemma words_unwords ws l : Forall is_u32 ws → words (unwords ws ++ l) = ws ++ words l.
Proof.
  induction 1 as [|w ws Hw Hws IH]; [done|]. rewrite unwords_cons.
  rewrite <- app_assoc, words_be32 by done. simpl. by rewrite IH.
Qed.

Lemma words_unwords_nil ws : Forall is_u32 ws → words (unwords ws) = ws.
Proof. intros H. rewrite <- (app_nil_r (unwords ws)), words_unwords by done. simpl. apply app_nil_r. Qed.

Lemma unwords_length ws : length (unwords ws) = (4 * length ws)%nat.
Proof.
  induction ws as [|w ws IH]; [done|]. rewrite unwords_cons.
  rewrite length_app, be32_length, IH. simpl. lia.
Qed.

Lemma unwords_bytes ws : bytes (unwords ws).
Proof.
  induction ws as [|w ws IH]; [constructor|]. rewrite unwords_cons.
  apply Forall_app. split; [apply be32_bytes|done].
Qed.

(** Buffers of whole words. *)
Lemma words_ind4 (P : list Z → Prop) :
  P [] → (∀ a b c d l, P l → P (a :: b :: c :: d :: l)) → ∀ n l, length l = (4 * n)%nat → P l.
Proof.
  intros H0 H4. induction n as [|n IH]; intros l Hl.
  - by destruct l.
  - do 4 (destruct l as [|? l]; [simpl in Hl; lia|]). apply H4, IH. simpl in Hl. lia.
Qed.

Lemma unwords_words n l : length l = (4 * n)%nat → bytes l → unwords (words l) = l.
Proof.
  intros Hl. revert l Hl. refine (words_ind4 (λ l, bytes l → unwords (words l) = l) _ _ n); [done|].
  intros a b c d l IH Hb. unfold bytes in Hb. rewrite !Forall_cons in Hb. destruct Hb as (Ha & Hb & Hc & Hd & Hl).
  cbn [words]. rewrite unwords_cons, be32_de32 by done. simpl. by rewrite IH.
Qed.

Lemma words_length n l : length l = (4 * n)%nat → length (words l) = n.
Proof.
  revert l. induction n as [|n IH]; intros l Hl.
  - by destruct l.
  - do 4 (destruct l as [|? l]; [simpl in Hl; lia|]). cbn [words length]. f_equal. apply IH. simpl in Hl. lia.
Qed.

Lemma words_u32 n l : length l = (4 * n)%nat → bytes l → Forall is_u32 (words l).
Proof.
  intros Hl. revert l Hl. refine (words_ind4 (λ l, bytes l → Forall is_u32 (words l)) _ _ n); [constructor|].
  intros a b c d l IH Hb. unfold bytes in Hb. rewrite !Forall_cons in Hb. destruct Hb as (Ha & Hb & Hc & Hd & Hl).
  constructor; [|by apply IH]. unfold is_u8, is_u32, de32 in *. lia.
Qed.

Lemma words_insert n l i w :
  length l = (4 * n)%nat → bytes l → is_u32 w → (i < n)%nat →
  words (splice l (4 * i) (be32 w)) = <[i := w]> (words l).
Proof.
  revert l i. induction n as [|n IH]; intros l i Hl Hb Hw Hi; [lia|].
  do 4 (destruct l as [|? l]; [simpl in Hl; lia|]). unfold bytes in Hb. rewrite !Forall_cons in Hb.
  destruct Hb as (_ & _ & _ & _ & Hb). destruct i as [|i].
  - unfold splice. rewrite Nat.mul_0_r. cbn [take app Nat.add]. rewrite be32_length. cbn [drop].
    rewrite words_be32 by done. done.
  - rewrite Nat.mul_succ_r, Nat.add_comm. unfold splice. cbn [Nat.add take app drop words].
    simpl. f_equal. apply IH; [simpl in Hl; lia|done|done|lia].
Qed.

(** ** Round trips *)

Lemma enc_inode_length n : inode_wf n → length (enc_inode n) = 512%nat.
Proof.
  intros (_ & _ & _ & H1 & _ & _ & H2 & _). unfold enc_inode. rewrite unwords_length.
  cbn [length]. rewrite length_app. cbn [length]. rewrite H1, H2. done.
Qed.

Lemma enc_inode_bytes n : bytes (enc_inode n).
Proof. apply unwords_bytes. Qed.

Lemma enc_super_length s : super_wf s → length (enc_super s) = 512%nat.
Proof.
  intros (_ & _ & H1 & _ & H2 & _). unfold enc_super.
  rewrite !length_app, unwords_length, H1, H2. done.
Qed.

Lemma enc_dir_length d : dir_wf d → length (enc_dir d) = 64%nat.
Proof. intros (_ & H & _). unfold enc_dir. rewrite length_app, H. done. Qed.

Lemma dec_enc_inode n : inode_wf n → dec_inode (enc_inode n) = n.
Proof.
  destruct n as [sz ty lc di ind wa]. intros (H1 & H2 & H3 & H4 & H5 & H6 & H7 & H8).
  cbn [sfi_size sfi_type sfi_linkcount sfi_direct sfi_indirect sfi_waste] in *.
  unfold dec_inode, enc_inode. cbn [sfi_size sfi_type sfi_linkcount sfi_direct sfi_indirect sfi_waste].
  unfold is_u16, is_u32 in *.
  rewrite words_unwords_nil.
  2:{ constructor; [done|]. constructor; [unfold is_u32; lia|]. apply Forall_app. split; [done|]. by constructor. }
  set (W := sz :: ty * 65536 + lc :: di ++ ind :: wa).
  change (default 0 (W !! 0%nat)) with sz. change (default 0 (W !! 1%nat)) with (ty * 65536 + lc).
  change (drop 2 W) with (di ++ ind :: wa). change (drop 18 W) with (drop 16 (di ++ ind :: wa)).
  change (W !! 17%nat) with ((di ++ ind :: wa) !! 15%nat). f_equal.
  - rewrite Z.div_add_l, Z.div_small by lia. lia.
  - rewrite Z.add_comm, Z.mod_add, Z.mod_small by lia. done.
  - by rewrite take_app_length'.
  - rewrite lookup_app_r by lia. rewrite H4. done.
  - rewrite drop_app_ge by lia. rewrite H4. done.
Qed.

Lemma dec_enc_super s : super_wf s → dec_super (enc_super s) = s.
Proof.
  destruct s as [m n v r]. intros (H1 & H2 & H3 & H4 & H5 & H6).
  cbn [sp_magic sp_nblocks sp_volname sp_reserved] in *. unfold dec_super, enc_super.
  cbn [sp_magic sp_nblocks sp_volname sp_reserved].
  rewrite words_be32, words_be32 by done. cbn [head lookup list_lookup from_option id].
  assert (drop 8 (be32 m ++ be32 n ++ v ++ unwords r) = v ++ unwords r) as -> by done.
  assert (drop 40 (be32 m ++ be32 n ++ v ++ unwords r) = drop 32 (v ++ unwords r)) as -> by done.
  rewrite take_app_length', drop_app_length' by done. by rewrite words_unwords_nil.
Qed.

Lemma dec_enc_dir d : dir_wf d → dec_dir (enc_dir d) = d.
Proof.
  destruct d as [i n]. intros (H1 & H2 & H3). cbn [sfd_ino sfd_name] in *. unfold dec_dir, enc_dir. cbn [sfd_ino sfd_name].
  rewrite words_be32 by done. done.
Qed.

Lemma dec_inode_wf l : length l = 512%nat → bytes l → inode_wf (dec_inode l).
Proof.
  intros Hl Hb. pose proof (words_length 128 l Hl) as Hwl. pose proof (words_u32 128 l Hl Hb) as Hu.
  assert (∀ i, (i < 128)%nat → is_u32 (default 0 (words l !! i))) as Hi.
  { intros i Hi. destruct (lookup_lt_is_Some_2 (words l) i) as [w Hw]; [lia|]. rewrite Hw. simpl.
    by eapply (Forall_lookup_1 is_u32). }
  unfold inode_wf, dec_inode. cbn [sfi_size sfi_type sfi_linkcount sfi_direct sfi_indirect sfi_waste].
  split_and!.
  - apply Hi. lia.
  - unfold is_u16. pose proof (Hi 1%nat ltac:(lia)) as [? ?].
    split; [apply Z.div_pos; lia|apply Z.div_lt_upper_bound; lia].
  - unfold is_u16. apply Z.mod_pos_bound. lia.
  - rewrite length_take, length_drop. lia.
  - by apply Forall_take, Forall_drop.
  - apply Hi. lia.
  - rewrite length_drop. lia.
  - by apply Forall_drop.
Qed.

Lemma enc_dec_inode l : length l = 512%nat → bytes l → enc_inode (dec_inode l) = l.
Proof.
  intros Hl Hb. rewrite <- (unwords_words 128 l Hl Hb) at 2. unfold enc_inode, dec_inode.
  cbn [sfi_size sfi_type sfi_linkcount sfi_direct sfi_indirect sfi_waste]. f_equal.
  pose proof (words_length 128 l Hl) as Hwl. destruct (words l) as [|w0 [|w1 ws]]; [done|done|].
  change (drop 2 (w0 :: w1 :: ws)) with ws. change (drop 18 (w0 :: w1 :: ws)) with (drop 16 ws).
  change (default 0 ((w0 :: w1 :: ws) !! 0%nat)) with w0. change (default 0 ((w0 :: w1 :: ws) !! 1%nat)) with w1.
  cbn [length] in Hwl. f_equal. f_equal.
  - pose proof (Z.div_mod w1 65536 ltac:(lia)). lia.
  - rewrite <- (take_drop 15 ws) at 4. f_equal.
    destruct (lookup_lt_is_Some_2 ws 15) as [w Hw]; [lia|]. rewrite (drop_S ws w 15) by done.
    change ((w0 :: w1 :: ws) !! 17%nat) with (ws !! 15%nat). by rewrite Hw.
Qed.
