(* ===== verification/Sfs.v ===== *)
(** The SFS file system (kern/fs/sfs): block I/O, block allocation, block
    maps, file I/O, directories, vnodes and mounting.

    [sfs] is [struct sfs_fs] together with the vnode structures it points to
    ([s_vn], by address), the disk it is mounted on and the outcomes of the
    coming [kmalloc]s.  One thread at a time uses the file system: the source
    has no locks around it, and the count lock of a vnode is only taken and
    released. *)

From Stdlib Require Import ZArith Lia.
From stdpp Require Import base numbers list option gmap.
From S2P Require Import Prelude Array Bitmap Errm Uio Lhd SfsDisk.

Open Scope Z_scope.

Inductive vnode_ops := sfs_fileops | sfs_dirops.

Record sfs_vnode := mkSv {
  sv_i : sfs_inode;
  sv_ino : Z;
  sv_dirty : bool;
  sv_refcount : Z;
  sv_opencount : Z;
  sv_ops : vnode_ops
}.

Record sfs := mkSfs {
  sfs_sb : sfs_super;
  sfs_superdirty : bool;
  sfs_device : disk;
  sfs_vnodes : array Z;
  sfs_freemap : bitmap;
  sfs_freemapdirty : bool;
  s_vn : gmap Z sfs_vnode;
  s_next : Z;
  s_orc : oracle
}.

Definition set_dev (d : disk) (s : sfs) : sfs :=
  mkSfs (sfs_sb s) (sfs_superdirty s) d (sfs_vnodes s) (sfs_freemap s) (sfs_freemapdirty s) (s_vn s) (s_next s) (s_orc s).
Definition set_vtab (a : array Z) (s : sfs) : sfs :=
  mkSfs (sfs_sb s) (sfs_superdirty s) (sfs_device s) a (sfs_freemap s) (sfs_freemapdirty s) (s_vn s) (s_next s) (s_orc s).
Definition set_freemap (b : bitmap) (dirty : bool) (s : sfs) : sfs :=
  mkSfs (sfs_sb s) (sfs_superdirty s) (sfs_device s) (sfs_vnodes s) b dirty (s_vn s) (s_next s) (s_orc s).
Definition set_vn (m : gmap Z sfs_vnode) (s : sfs) : sfs :=
  mkSfs (sfs_sb s) (sfs_superdirty s) (sfs_device s) (sfs_vnodes s) (sfs_freemap s) (sfs_freemapdirty s) m (s_next s) (s_orc s).
Definition set_super (b : sfs_super) (dirty : bool) (s : sfs) : sfs :=
  mkSfs b dirty (sfs_device s) (sfs_vnodes s) (sfs_freemap s) (sfs_freemapdirty s) (s_vn s) (s_next s) (s_orc s).
Definition set_sorc (n : Z) (o : oracle) (s : sfs) : sfs :=
  mkSfs (sfs_sb s) (sfs_superdirty s) (sfs_device s) (sfs_vnodes s) (sfs_freemap s) (sfs_freemapdirty s) (s_vn s) n o.

(** Reading and writing a vnode structure. *)
Definition getv (p : Z) : EM sfs sfs_vnode := λ s,
  match s_vn s !! p with Some v => Ret (inr v, s) | None => Undef end.
Definition putv (p : Z) (v : sfs_vnode) : EM sfs unit := emod (λ s, set_vn (<[p := v]> (s_vn s)) s).
Definition freev (p : Z) : EM sfs unit := emod (λ s, set_vn (delete p (s_vn s)) s).

(** [kmalloc]: a new address, or [None]. *)
Definition s_kmalloc : EM sfs (option Z) := λ s,
  let '(ok, o) := kmalloc_ok (s_orc s) in
  if ok then Ret (inr (Some (s_next s)), set_sorc (s_next s + 1) o s)
  else Ret (inr None, set_sorc (s_next s) o s).

Definition set_inode (i : sfs_inode) (dirty : bool) (v : sfs_vnode) : sfs_vnode :=
  mkSv i (sv_ino v) dirty (sv_refcount v) (sv_opencount v) (sv_ops v).
Definition set_refcount (n : Z) (v : sfs_vnode) : sfs_vnode :=
  mkSv (sv_i v) (sv_ino v) (sv_dirty v) n (sv_opencount v) (sv_ops v).

Definition set_size (n : Z) (i : sfs_inode) : sfs_inode :=
  mkInode n (sfi_type i) (sfi_linkcount i) (sfi_direct i) (sfi_indirect i) (sfi_waste i).
Definition set_type (n : Z) (i : sfs_inode) : sfs_inode :=
  mkInode (sfi_size i) n (sfi_linkcount i) (sfi_direct i) (sfi_indirect i) (sfi_waste i).
Definition set_links (n : Z) (i : sfs_inode) : sfs_inode :=
  mkInode (sfi_size i) (sfi_type i) n (sfi_direct i) (sfi_indirect i) (sfi_waste i).
Definition set_direct (l : list Z) (i : sfs_inode) : sfs_inode :=
  mkInode (sfi_size i) (sfi_type i) (sfi_linkcount i) l (sfi_indirect i) (sfi_waste i).
Definition set_indirect (n : Z) (i : sfs_inode) : sfs_inode :=
  mkInode (sfi_size i) (sfi_type i) (sfi_linkcount i) (sfi_direct i) n (sfi_waste i).

(** Changing the inode of a vnode, which becomes dirty. *)
Definition upd_inode (p : Z) (f : sfs_inode → sfs_inode) : EM sfs unit :=
  v ← getv p; putv p (set_inode (f (sv_i v)) true v).

(** ** sfs_io.c *)

(** [d_io] of the device. *)
Definition sfs_dio : EM (sfs * uio) unit := λ '(s, u),
  match lhd_io (sfs_device s, u) with
  | Ret (r, (d, u')) => Ret (r, (set_dev d s, u'))
  | Panic => Panic
  | Undef => Undef
  | NoFuel => NoFuel
  end.

(** [n] is how many retries are left. *)
Fixpoint sfs_rwblock_loop (n : nat) : EM (sfs * uio) unit :=
  r ← attempt sfs_dio;
  match r with
  | inr _ => mret tt
  | inl e =>
      if e =? EINVAL then epanic
      else if e =? EIO then
        match n with
        | O => raise e
        | S n' => sfs_rwblock_loop n'
        end
      else raise e
  end.

Definition sfs_rwblock : EM (sfs * uio) unit := sfs_rwblock_loop 10.

(** Running code that uses a uio of its own: the uio after the call. *)
Definition with_uio {A} (u : uio) (m : EM (sfs * uio) A) : EM sfs (A * uio) := λ s,
  match m (s, u) with
  | Ret (inr a, (s', u')) => Ret (inr (a, u'), s')
  | Ret (inl e, (s', _)) => Ret (inl e, s')
  | Panic => Panic
  | Undef => Undef
  | NoFuel => NoFuel
  end.

Definition SFSUIO (ptr : list Z) (block : Z) (rw : uio_rw) : uio :=
  mk_kuio ptr SFS_BLOCKSIZE (s32 (s32 block * SFS_BLOCKSIZE)) rw.

(** The buffer after the read. *)
Definition sfs_rblock (data : list Z) (block : Z) : EM sfs (list Z) :=
  '(_, ku) ← with_uio (SFSUIO data block UIO_READ) sfs_rwblock;
  mret (iov_kbuf ku).

Definition sfs_wblock (data : list Z) (block : Z) : EM sfs unit :=
  _ ← with_uio (SFSUIO data block UIO_WRITE) sfs_rwblock;
  mret tt.

(** ** Blocks *)

Definition zeros : list Z := replicate 512 0.

Definition sfs_clearblock (block : Z) : EM sfs unit := sfs_wblock zeros block.

Definition sfs_sync_inode (p : Z) : EM sfs unit :=
  v ← getv p;
  if sv_dirty v then
    _ ← sfs_wblock (enc_inode (sv_i v)) (sv_ino v);
    putv p (set_inode (sv_i v) false v)
  else mret tt.

Definition sfs_balloc : EM sfs Z :=
  s ← eget;
  '(result, diskblock, fm) ← lift (bitmap_alloc (sfs_freemap s));
  if negb (result =? 0) then raise result else
  _ ← emod (set_freemap fm true);
  if sp_nblocks (sfs_sb s) <=? diskblock then epanic else
  _ ← sfs_clearblock diskblock;
  mret diskblock.

Definition sfs_bfree (diskblock : Z) : EM sfs unit :=
  s ← eget;
  fm ← lift (bitmap_unmark (sfs_freemap s) diskblock);
  emod (set_freemap fm true).

Definition sfs_bused (diskblock : Z) : EM sfs bool :=
  s ← eget;
  if sp_nblocks (sfs_sb s) <=? diskblock then epanic else
  r ← lift (bitmap_isset (sfs_freemap s) diskblock);
  mret (negb (r =? 0)).

(** [if (block != 0 && !sfs_bused(block)) panic]. *)
Definition sfs_checkused (block : Z) : EM sfs unit :=
  if block =? 0 then mret tt else
  used ← sfs_bused block;
  if (used : bool) then mret tt else epanic.

(** ** Block maps *)

(** The indirect block: its number and contents, allocating it if need be;
    [None] when there is none and none is wanted. *)
Definition sfs_getindirect (p : Z) (doalloc : bool) : EM sfs (option (Z * list Z)) :=
  v ← getv p;
  let idblock := sfi_indirect (sv_i v) in
  if (idblock =? 0) && negb doalloc then mret None
  else if idblock =? 0 then
    idblock ← sfs_balloc;
    _ ← upd_inode p (set_indirect idblock);
    mret (Some (idblock, zeros))
  else
    idbuf ← sfs_rblock zeros idblock;
    mret (Some (idblock, idbuf)).

Definition sfs_bmap (p fileblock : Z) (doalloc : bool) : EM sfs Z :=
  v ← getv p;
  if fileblock <? SFS_NDIRECT then
    block ← lift (load (sfi_direct (sv_i v)) fileblock);
    block ← (if (block =? 0) && doalloc then
               block ← sfs_balloc;
               _ ← upd_inode p (λ i, set_direct (<[Z.to_nat fileblock := block]> (sfi_direct i)) i);
               mret block
             else mret block);
    _ ← sfs_checkused block;
    mret block
  else
    let fileblock := fileblock - SFS_NDIRECT in
    let idnum := fileblock / SFS_DBPERIDB in
    let idoff := fileblock mod SFS_DBPERIDB in
    if 0 <? idnum then raise EINVAL else
    ind ← sfs_getindirect p doalloc;
    match ind with
    | None => mret 0
    | Some (idblock, idbuf) =>
        block ← lift (load (words idbuf) idoff);
        block ← (if (block =? 0) && doalloc then
                   block ← sfs_balloc;
                   _ ← sfs_wblock (splice idbuf (Z.to_nat (4 * idoff)) (be32 block)) idblock;
                   mret block
                 else mret block);
        _ ← sfs_checkused block;
        mret block
    end.

(** ** File I/O *)

Definition sfs_partialio (p skipstart len : Z) : EM (sfs * uio) unit :=
  '(_, u) ← eget;
  let doalloc := negb (is_read u) in
  _ ← eassert (u32 (skipstart + len) <=? SFS_BLOCKSIZE);
  let fileblock := u32 (Z.quot (uio_offset u) SFS_BLOCKSIZE) in
  diskblock ← onfst (sfs_bmap p fileblock doalloc);
  iobuf ← (if diskblock =? 0 then
             _ ← eassert (is_read u); mret zeros
           else onfst (sfs_rblock zeros diskblock));
  iobuf ← onsnd (uiomove iobuf skipstart len);
  if is_read u then mret tt
  else onfst (sfs_wblock iobuf diskblock).

Definition sfs_blockio (p : Z) : EM (sfs * uio) unit :=
  '(_, u) ← eget;
  let doalloc := negb (is_read u) in
  let fileblock := u32 (Z.quot (uio_offset u) SFS_BLOCKSIZE) in
  diskblock ← onfst (sfs_bmap p fileblock doalloc);
  if diskblock =? 0 then
    _ ← eassert (is_read u);
    onsnd (uiomovezeros SFS_BLOCKSIZE)
  else
    let saveoff := uio_offset u in
    let diskoff := s32 (u32 (diskblock * SFS_BLOCKSIZE)) in
    _ ← eassert (SFS_BLOCKSIZE <=? uio_resid u);
    let saveres := s32 (uio_resid u) in
    let diskres := SFS_BLOCKSIZE in
    _ ← onsnd (emod (λ u, set_resid diskres (set_offset diskoff u)));
    r ← attempt sfs_rwblock;
    _ ← onsnd (emod (λ u, set_resid (u32 (u32 (uio_resid u - diskres) + saveres))
                            (set_offset (s32 (s32 (uio_offset u - diskoff) + saveoff)) u)));
    reraise r.

(** The body of [sfs_io] up to the label [out]. *)
Definition sfs_io_body (p : Z) : EM (sfs * uio) unit :=
  '(_, u) ← eget;
  let blkoff := u32 (Z.rem (uio_offset u) SFS_BLOCKSIZE) in
  _ ← (if negb (blkoff =? 0) then
         let len := SFS_BLOCKSIZE - blkoff in
         sfs_partialio p blkoff (if uio_resid u <? len then uio_resid u else len)
       else mret tt);
  '(_, u) ← eget;
  if uio_resid u =? 0 then mret tt else
  _ ← eassert (Z.rem (uio_offset u) SFS_BLOCKSIZE =? 0);
  _ ← erepeat (Z.to_nat (uio_resid u / SFS_BLOCKSIZE)) (sfs_blockio p);
  '(_, u) ← eget;
  _ ← eassert (uio_resid u <? SFS_BLOCKSIZE);
  if 0 <? uio_resid u then sfs_partialio p 0 (uio_resid u) else mret tt.

(** From the label [out] on. *)
Definition sfs_io_out (p extraresid : Z) : EM (sfs * uio) unit :=
  '(_, u) ← eget;
  v ← onfst (getv p);
  _ ← (if negb (is_read u) && (s32 (sfi_size (sv_i v)) <? uio_offset u)
       then onfst (upd_inode p (set_size (u32 (uio_offset u)))) else mret tt);
  onsnd (emod (λ u, set_resid (u32 (uio_resid u + extraresid)) u)).

Definition sfs_io (p : Z) : EM (sfs * uio) unit :=
  '(_, u) ← eget;
  v ← onfst (getv p);
  let size := s32 (sfi_size (sv_i v)) in
  let endpos := s32 (uio_offset u + uio_resid u) in
  if is_read u && (size <=? uio_offset u) then mret tt else
  let extraresid := if is_read u && (size <? endpos) then u32 (endpos - size) else 0 in
  _ ← (if is_read u && (size <? endpos) then
         _ ← eassert (extraresid <? uio_resid u);
         onsnd (emod (λ u, set_resid (u32 (uio_resid u - extraresid)) u))
       else mret tt);
  r ← attempt (sfs_io_body p);
  _ ← sfs_io_out p extraresid;
  reraise r.

(** ** Directories *)

Definition DIRSIZE : Z := 64.

Definition sfs_readdir (p slot : Z) : EM sfs sfs_dir :=
  let actualpos := s32 (u32 (slot * DIRSIZE)) in
  '(_, ku) ← with_uio (mk_kuio (replicate 64 0) DIRSIZE actualpos UIO_READ) (sfs_io p);
  if 0 <? uio_resid ku then epanic else mret (dec_dir (iov_kbuf ku)).

Definition sfs_writedir (p : Z) (sd : sfs_dir) (slot : Z) : EM sfs unit :=
  _ ← eassert (0 <=? slot);
  let actualpos := s32 (u32 (slot * DIRSIZE)) in
  '(_, ku) ← with_uio (mk_kuio (enc_dir sd) DIRSIZE actualpos UIO_WRITE) (sfs_io p);
  if 0 <? uio_resid ku then epanic else mret tt.

Definition sfs_dir_nentries (p : Z) : EM sfs Z :=
  v ← getv p;
  _ ← eassert (sfi_type (sv_i v) =? SFS_TYPE_DIR);
  let size := sfi_size (sv_i v) in
  if negb (size mod DIRSIZE =? 0) then epanic else mret (s32 (size / DIRSIZE)).

(** What a search has found so far: inode number and slot of the name, and
    the last free slot (-1: none). *)
Record findres := mkFind { f_found : option (Z * Z); f_empty : Z }.

Fixpoint sfs_findname_loop (n : nat) (p i : Z) (name : list Z) (r : findres) : EM sfs findres :=
  match n with
  | O => mret r
  | S n' =>
      tsd ← sfs_readdir p i;
      if sfd_ino tsd =? SFS_NOINO then
        sfs_findname_loop n' p (i + 1) name (mkFind (f_found r) i)
      else if bool_decide (cstr (<[59%nat := 0]> (sfd_name tsd)) = name) then
        _ ← eassert (bool_decide (f_found r = None));
        sfs_findname_loop n' p (i + 1) name (mkFind (Some (sfd_ino tsd, i)) (f_empty r))
      else sfs_findname_loop n' p (i + 1) name r
  end.

(** [f_found] is [None] where the source returns ENOENT. *)
Definition sfs_dir_findname (p : Z) (name : list Z) : EM sfs findres :=
  nentries ← sfs_dir_nentries p;
  sfs_findname_loop (Z.to_nat nentries) p 0 name (mkFind None (-1)).

(** The slot used. *)
Definition sfs_dir_link (p : Z) (name : list Z) (ino : Z) : EM sfs Z :=
  r ← sfs_dir_findname p name;
  if bool_decide (f_found r ≠ None) then raise EEXIST else
  if (Z.of_nat SFS_NAMELEN <? Z.of_nat (length name) + 1) then raise ENAMETOOLONG else
  emptyslot ← (if f_empty r <? 0 then sfs_dir_nentries p else mret (f_empty r));
  let sd := mkDir ino (name ++ replicate (SFS_NAMELEN - length name) 0) in
  _ ← sfs_writedir p sd emptyslot;
  mret emptyslot.

Definition sfs_dir_unlink (p slot : Z) : EM sfs unit :=
  sfs_writedir p (mkDir SFS_NOINO (replicate SFS_NAMELEN 0)) slot.

(** ** Reference counts and truncation *)

(** The checks of [vnode_check] before an operation other than reclaim. *)
Definition vop_check (p : Z) : EM sfs sfs_vnode :=
  v ← getv p;
  _ ← eassert ((0 <? sv_refcount v) && (0 <=? sv_opencount v));
  mret v.

Definition VOP_INCREF (p : Z) : EM sfs unit :=
  v ← getv p; putv p (set_refcount (s32 (sv_refcount v + 1)) v).

(** The loop over the direct blocks. *)
Fixpoint sfs_truncate_direct (n : nat) (p i blocklen : Z) : EM sfs unit :=
  match n with
  | O => mret tt
  | S n' =>
      v ← getv p;
      block ← lift (load (sfi_direct (sv_i v)) i);
      _ ← (if (blocklen <=? i) && negb (block =? 0) then
             _ ← sfs_bfree block;
             upd_inode p (λ nd, set_direct (<[Z.to_nat i := 0]> (sfi_direct nd)) nd)
           else mret tt);
      sfs_truncate_direct n' p (i + 1) blocklen
  end.

(** The loop over the entries of the indirect block: the entries after it,
    [hasnonzero] and [iddirty]. *)
Fixpoint sfs_truncate_indirect (n : nat) (j blocklen : Z) (idbuf : list Z) (hasnonzero iddirty : bool)
    : EM sfs (list Z * bool * bool) :=
  match n with
  | O => mret (idbuf, hasnonzero, iddirty)
  | S n' =>
      w ← lift (load idbuf j);
      '(idbuf, iddirty) ←
        (if (blocklen <? SFS_NDIRECT + j) && negb (w =? 0) then
           _ ← sfs_bfree w;
           mret (<[Z.to_nat j := 0]> idbuf, true)
         else mret (idbuf, iddirty));
      w ← lift (load idbuf j);
      sfs_truncate_indirect n' (j + 1) blocklen idbuf (hasnonzero || negb (w =? 0)) iddirty
  end.

Definition sfs_truncate (p len : Z) : EM sfs unit :=
  let blocklen := u32 (Z.quot (s32 (s32 (len + SFS_BLOCKSIZE) - 1)) SFS_BLOCKSIZE) in
  _ ← sfs_truncate_direct 15 p 0 blocklen;
  v ← getv p;
  let idblock := sfi_indirect (sv_i v) in
  let highblock := SFS_NDIRECT + SFS_DBPERIDB - 1 in
  _ ← (if (blocklen <? highblock) && negb (idblock =? 0) then
         idbuf ← sfs_rblock zeros idblock;
         '(ws, hasnonzero, iddirty) ← sfs_truncate_indirect 128 0 blocklen (words idbuf) false false;
         if negb hasnonzero then
           _ ← sfs_bfree idblock;
           upd_inode p (set_indirect 0)
         else if (iddirty : bool) then sfs_wblock (unwords ws) idblock
         else mret tt
       else mret tt);
  upd_inode p (set_size (u32 len)).

Definition VOP_TRUNCATE (p len : Z) : EM sfs unit :=
  v ← vop_check p;
  match sv_ops v with
  | sfs_fileops => sfs_truncate p len
  | sfs_dirops => raise EISDIR
  end.

(** The position of [p] in the table of vnodes. *)
Fixpoint sfs_vnode_index (n : nat) (i p : Z) (a : array Z) : res (option Z) :=
  match n with
  | O => Ret None
  | S n' =>
      q ← array_getguy a i;
      if q =? p then Ret (Some i) else sfs_vnode_index n' (i + 1) p a
  end.

Definition VOP_KILL (p : Z) : EM sfs unit :=
  v ← getv p;
  eassert ((sv_refcount v =? 1) && (sv_opencount v =? 0)).

Definition sfs_reclaim (p : Z) : EM sfs unit :=
  v ← getv p;
  if negb (sv_refcount v =? 1) then
    _ ← eassert (1 <? sv_refcount v);
    _ ← putv p (set_refcount (sv_refcount v - 1) v);
    raise EBUSY
  else
    _ ← (if sfi_linkcount (sv_i v) =? 0 then VOP_TRUNCATE p 0 else mret tt);
    _ ← sfs_sync_inode p;
    v ← getv p;
    _ ← (if sfi_linkcount (sv_i v) =? 0 then sfs_bfree (sv_ino v) else mret tt);
    s ← eget;
    ix ← lift (sfs_vnode_index (Z.to_nat (array_getnum (sfs_vnodes s))) 0 p (sfs_vnodes s));
    match ix with
    | None => epanic
    | Some ix =>
        a ← lift (array_remove (sfs_vnodes s) ix);
        _ ← emod (set_vtab a);
        _ ← VOP_KILL p;
        freev p
    end.

Definition VOP_DECREF (p : Z) : EM sfs unit :=
  v ← getv p;
  _ ← eassert (0 <? sv_refcount v);
  if 1 <? sv_refcount v then putv p (set_refcount (sv_refcount v - 1) v)
  else _ ← attempt (sfs_reclaim p); mret tt.

(** ** Loading vnodes *)

(** The search of the table: the vnode for [ino], if it is loaded. *)
Fixpoint sfs_findvnode (n : nat) (i ino : Z) (a : array Z) : EM sfs (option Z) :=
  match n with
  | O => mret None
  | S n' =>
      p ← lift (array_getguy a i);
      v ← getv p;
      used ← sfs_bused (sv_ino v);
      if negb used then epanic else
      if sv_ino v =? ino then mret (Some p) else sfs_findvnode n' (i + 1) ino a
  end.

Definition sfs_loadvnode (ino forcetype : Z) : EM sfs Z :=
  s ← eget;
  found ← sfs_findvnode (Z.to_nat (array_getnum (sfs_vnodes s))) 0 ino (sfs_vnodes s);
  match found with
  | Some p =>
      _ ← eassert (forcetype =? SFS_TYPE_INVAL);
      _ ← VOP_INCREF p;
      mret p
  | None =>
      q ← s_kmalloc;
      match q with
      | None => raise ENOMEM
      | Some p =>
          used ← sfs_bused ino;
          if negb used then epanic else
          blk ← sfs_rblock zeros ino;
          let nd := dec_inode blk in
          _ ← eassert ((forcetype =? SFS_TYPE_INVAL) || (sfi_type nd =? SFS_TYPE_INVAL));
          let dirty := negb (forcetype =? SFS_TYPE_INVAL) in
          let nd := if dirty then set_type forcetype nd else nd in
          ops ← (if sfi_type nd =? SFS_TYPE_FILE then mret sfs_fileops
                 else if sfi_type nd =? SFS_TYPE_DIR then mret sfs_dirops
                 else epanic);
          lk ← s_kmalloc;
          match lk with
          | None => raise ENOMEM
          | Some _ =>
              nm ← s_kmalloc;
              match nm with
              | None => raise ENOMEM
              | Some _ =>
                  s ← eget;
                  '(result, a, o) ← lift (array_add (s_orc s) (sfs_vnodes s) p);
                  _ ← emod (λ s, set_sorc (s_next s) o (set_vtab a s));
                  if negb (result =? 0) then raise result else
                  _ ← putv p (mkSv nd ino dirty 1 0 ops);
                  mret p
              end
          end
      end
  end.

Definition sfs_getroot : EM sfs Z :=
  r ← attempt (sfs_loadvnode SFS_ROOT_LOCATION SFS_TYPE_INVAL);
  match r with inl _ => epanic | inr p => mret p end.

(** The vnode and its slot. *)
Definition sfs_lookonce (p : Z) (name : list Z) : EM sfs (Z * Z) :=
  r ← sfs_dir_findname p name;
  match f_found r with
  | None => raise ENOENT
  | Some (ino, slot) =>
      q ← sfs_loadvnode ino SFS_TYPE_INVAL;
      v ← getv q;
      if sfi_linkcount (sv_i v) =? 0 then epanic else mret (q, slot)
  end.

Definition sfs_makeobj (type : Z) : EM sfs Z :=
  ino ← sfs_balloc;
  sfs_loadvnode ino type.

(** ** Vnode operations *)

Definition sfs_open (openflags : Z) : EM sfs unit :=
  if negb (Z.land openflags O_APPEND =? 0) then raise EUNIMP else mret tt.

Definition sfs_opendir (openflags : Z) : EM sfs unit :=
  if negb (Z.land openflags O_ACCMODE =? 0) then raise EISDIR
  else if negb (Z.land openflags O_APPEND =? 0) then raise EISDIR
  else mret tt.

Definition sfs_fsync (p : Z) : EM sfs unit := sfs_sync_inode p.

(** [VOP_FSYNC] is [sfs_fsync] in both tables. *)
Definition VOP_FSYNC (p : Z) : EM sfs unit := _ ← vop_check p; sfs_fsync p.

Definition sfs_close (p : Z) : EM sfs unit := VOP_FSYNC p.

Definition sfs_read (p : Z) : EM (sfs * uio) unit :=
  '(_, u) ← eget; _ ← eassert (is_read u); sfs_io p.

Definition sfs_write (p : Z) : EM (sfs * uio) unit :=
  '(_, u) ← eget; _ ← eassert (negb (is_read u)); sfs_io p.

Definition sfs_ioctl (p op data : Z) : EM sfs unit := raise EINVAL.

Definition sfs_gettype (p : Z) : EM sfs Z :=
  v ← getv p;
  if sfi_type (sv_i v) =? SFS_TYPE_FILE then mret S_IFREG
  else if sfi_type (sv_i v) =? SFS_TYPE_DIR then mret S_IFDIR
  else epanic.

Record stat := mkStat { st_mode : Z; st_nlink : Z; st_size : Z; st_blocks : Z }.

Definition sfs_stat (p : Z) : EM sfs stat :=
  mode ← sfs_gettype p;
  v ← getv p;
  mret (mkStat mode 0 (s32 (sfi_size (sv_i v))) 0).

Definition sfs_tryseek (p pos : Z) : EM sfs unit := if pos <? 0 then raise EINVAL else mret tt.

Definition sfs_mmap (p : Z) : EM sfs unit := raise EUNIMP.

Definition sfs_namefile (p : Z) : EM (sfs * uio) unit :=
  v ← onfst (getv p);
  eassert (sv_ino v =? SFS_ROOT_LOCATION).

(** [result]: a new reference to the file's vnode. *)
Definition sfs_creat (p : Z) (name : list Z) (excl : bool) : EM sfs Z :=
  r ← sfs_dir_findname p name;
  match f_found r with
  | Some (ino, _) =>
      if excl then raise EEXIST else sfs_loadvnode ino SFS_TYPE_INVAL
  | None =>
      newguy ← sfs_makeobj SFS_TYPE_FILE;
      nv ← getv newguy;
      r ← attempt (sfs_dir_link p name (sv_ino nv));
      match r with
      | inl e => _ ← VOP_DECREF newguy; raise e
      | inr _ =>
          _ ← upd_inode newguy (λ i, set_links (u16 (sfi_linkcount i + 1)) i);
          mret newguy
      end
  end.

Definition sfs_link (dir : Z) (name : list Z) (file : Z) : EM sfs unit :=
  f ← getv file;
  _ ← sfs_dir_link dir name (sv_ino f);
  upd_inode file (λ i, set_links (u16 (sfi_linkcount i + 1)) i).

Definition sfs_remove (dir : Z) (name : list Z) : EM sfs unit :=
  '(victim, slot) ← sfs_lookonce dir name;
  r ← attempt (sfs_dir_unlink dir slot);
  _ ← (match r with
       | inl _ => mret tt
       | inr _ =>
           v ← getv victim;
           _ ← eassert (0 <? sfi_linkcount (sv_i v));
           upd_inode victim (λ i, set_links (u16 (sfi_linkcount i - 1)) i)
       end);
  _ ← VOP_DECREF victim;
  reraise r.

(** What follows the link under the new name. *)
Definition sfs_rename_tail (sv g1 slot1 slot2 : Z) : EM sfs unit :=
  _ ← upd_inode g1 (λ i, set_links (u16 (sfi_linkcount i + 1)) i);
  r ← attempt (sfs_dir_unlink sv slot1);
  match r with
  | inr _ =>
      v ← getv g1;
      _ ← eassert (0 <? sfi_linkcount (sv_i v));
      _ ← upd_inode g1 (λ i, set_links (u16 (sfi_linkcount i - 1)) i);
      VOP_DECREF g1
  | inl e =>
      r2 ← attempt (sfs_dir_unlink sv slot2);
      match r2 with
      | inl _ => epanic
      | inr _ =>
          v ← getv g1;
          _ ← putv g1 (set_inode (set_links (u16 (sfi_linkcount (sv_i v) - 1)) (sv_i v)) (sv_dirty v) v);
          _ ← VOP_DECREF g1;
          raise e
      end
  end.

Definition sfs_rename (d1 : Z) (n1 : list Z) (d2 : Z) (n2 : list Z) : EM sfs unit :=
  sv ← getv d1;
  _ ← eassert (d1 =? d2);
  _ ← eassert (sv_ino sv =? SFS_ROOT_LOCATION);
  '(g1, slot1) ← sfs_lookonce d1 n1;
  v ← getv g1;
  _ ← eassert (sfi_type (sv_i v) =? SFS_TYPE_FILE);
  r ← attempt (sfs_dir_link d1 n2 (sv_ino v));
  match r with
  | inl e => _ ← VOP_DECREF g1; raise e
  | inr slot2 => sfs_rename_tail d1 g1 slot1 slot2
  end.

(** The directory and the string copied to [buf]. *)
Definition sfs_lookparent (p : Z) (path : list Z) (buflen : Z) : EM sfs (Z * list Z) :=
  v ← getv p;
  if negb (sfi_type (sv_i v) =? SFS_TYPE_DIR) then raise ENOTDIR
  else if buflen <? Z.of_nat (length path) + 1 then raise ENAMETOOLONG
  else
    _ ← VOP_INCREF p;
    mret (p, path).

Definition sfs_lookup (p : Z) (path : list Z) : EM sfs Z :=
  v ← getv p;
  if negb (sfi_type (sv_i v) =? SFS_TYPE_DIR) then raise ENOTDIR else
  '(final, _) ← sfs_lookonce p path;
  mret final.

(** ** sfs_fs.c *)

(** One block of [sfs_mapio]. *)
Definition sfs_mapblock (j : Z) (rw : uio_rw) : EM sfs unit :=
  s ← eget;
  let bitdata := bitmap_getdata (sfs_freemap s) in
  ptr ← lift (bget bitdata (j * SFS_BLOCKSIZE) SFS_BLOCKSIZE);
  match rw with
  | UIO_READ =>
      d ← sfs_rblock ptr (SFS_MAP_LOCATION + j);
      bits ← lift (bput bitdata (j * SFS_BLOCKSIZE) d);
      emod (λ s, set_freemap (mkBitmap (nbits (sfs_freemap s)) bits) (sfs_freemapdirty s) s)
  | UIO_WRITE => sfs_wblock ptr (SFS_MAP_LOCATION + j)
  end.

Fixpoint sfs_mapio_loop (n : nat) (j : Z) (rw : uio_rw) : EM sfs unit :=
  match n with
  | O => mret tt
  | S n' => _ ← sfs_mapblock j rw; sfs_mapio_loop n' (j + 1) rw
  end.

Definition sfs_mapio (rw : uio_rw) : EM sfs unit :=
  s ← eget;
  sfs_mapio_loop (Z.to_nat (SFS_BITBLOCKS (sp_nblocks (sfs_sb s)))) 0 rw.

(** The loop over the loaded vnodes; errors of [VOP_FSYNC] are dropped. *)
Fixpoint sfs_sync_loop (n : nat) (i : Z) : EM sfs unit :=
  match n with
  | O => mret tt
  | S n' =>
      s ← eget;
      p ← lift (array_getguy (sfs_vnodes s) i);
      _ ← attempt (VOP_FSYNC p);
      sfs_sync_loop n' (i + 1)
  end.

Definition sfs_sync : EM sfs unit :=
  s ← eget;
  _ ← sfs_sync_loop (Z.to_nat (array_getnum (sfs_vnodes s))) 0;
  s ← eget;
  _ ← (if sfs_freemapdirty s then
         _ ← sfs_mapio UIO_WRITE;
         emod (λ s, set_freemap (sfs_freemap s) false s)
       else mret tt);
  s ← eget;
  if sfs_superdirty s then
    _ ← sfs_wblock (enc_super (sfs_sb s)) SFS_SB_LOCATION;
    emod (λ s, set_super (sfs_sb s) false s)
  else mret tt.

Definition sfs_getvolname : EM sfs (list Z) := s ← eget; mret (cstr (sp_volname (sfs_sb s))).

Definition sfs_unmount : EM sfs unit :=
  s ← eget;
  if 0 <? array_getnum (sfs_vnodes s) then raise EBUSY else
  _ ← eassert (negb (sfs_superdirty s));
  eassert (negb (sfs_freemapdirty s)).

(** The structure before [sfs_domount] has filled it in. *)
Definition sfs_blank (dev : disk) (o : oracle) : sfs :=
  mkSfs (mkSuper 0 0 [] []) false dev (mkArray 0 0 None) (mkBitmap 0 []) false ∅ 1 o.

(** Mounting the disk of the state; on success the state is the mounted file
    system. *)
Definition sfs_domount (blocksize : Z) : EM sfs unit :=
  if negb (blocksize =? SFS_BLOCKSIZE) then raise ENXIO else
  q ← s_kmalloc;
  match q with
  | None => raise ENOMEM
  | Some _ =>
      s ← eget;
      match array_create (s_orc s) with
      | (None, o) => _ ← emod (set_sorc (s_next s) o); raise ENOMEM
      | (Some a, o) =>
          _ ← emod (λ s, set_sorc (s_next s) o (set_vtab a s));
          blk ← sfs_rblock zeros SFS_SB_LOCATION;
          let sb := dec_super blk in
          if negb (sp_magic sb =? SFS_MAGIC) then raise EINVAL else
          let sb := mkSuper (sp_magic sb) (sp_nblocks sb) (<[31%nat := 0]> (sp_volname sb)) (sp_reserved sb) in
          _ ← emod (set_super sb false);
          s ← eget;
          '(fm, o) ← lift (bitmap_create (s_orc s) (SFS_BITMAPSIZE (sp_nblocks sb)));
          _ ← emod (set_sorc (s_next s) o);
          match fm with
          | None => raise ENOMEM
          | Some fm =>
              _ ← emod (set_freemap fm false);
              _ ← sfs_mapio UIO_READ;
              emod (λ s, set_freemap (sfs_freemap s) false (set_super (sfs_sb s) false s))
          end
      end
  end.
