(* ===== verification/SfsBlock.v ===== *)
(** Block I/O and block allocation of SFS, on a disk that may fail reads but
    not writes. *)

From Stdlib Require Import ZArith Lia.
From stdpp Require Import base numbers list option gmap.
From S2P Require Import Prelude Array Bitmap Errm Uio UioProofs Lhd LhdProofs SfsDisk Sfs.

Open Scope Z_scope.

Abbreviation sect s := (d_sect (sfs_device s)).
Abbreviation nblocks s := (sp_nblocks (sfs_sb s)).

(** The disk, the superblock and the free map fit together. *)
Record fs_ok (s : sfs) : Prop := {
  fo_disk : disk_ok (sfs_device s);
  fo_nblocks : 0 < nblocks s ≤ d_blocks (sfs_device s);
  fo_map : bitmap_wf (sfs_freemap s);
  fo_bits : nblocks s ≤ nbits (sfs_freemap s);
  fo_past : ∀ i, nblocks s ≤ i < nbits (sfs_freemap s) → bit (sfs_freemap s) i = true
}.

(** [s'] differs from [s] in the disk only, which has the same contents. *)
Definition read_step (s s' : sfs) : Prop :=
  ∃ d, s' = set_dev d s ∧ dev_same (sfs_device s) d.

(** [s'] differs from [s] in the disk only: block [b] now holds [x]. *)
Definition write_step (s : sfs) (b : Z) (x : list Z) (s' : sfs) : Prop :=
  ∃ d, s' = set_dev d s ∧ dev_put (sfs_device s) b x d.

Lemma set_dev_id s : set_dev (sfs_device s) s = s.
Proof. by destruct s. Qed.

Lemma read_step_refl s : fs_ok s → read_step s s.
Proof. intros Hs. exists (sfs_device s). rewrite set_dev_id. split; [done|]. apply dev_same_refl, Hs. Qed.

Lemma read_step_trans s1 s2 s3 : read_step s1 s2 → read_step s2 s3 → read_step s1 s3.
Proof.
  intros (d1 & -> & H1) (d2 & -> & H2). exists d2. split; [done|]. by eapply dev_same_trans.
Qed.

Lemma read_step_fs_ok s s' : fs_ok s → read_step s s' → fs_ok s'.
Proof.
  intros [F1 F2 F3 F4 F5] (d & -> & [D1 D2 D3 D4 D5]). split; simpl; try done. by rewrite D1.
Qed.

Lemma write_step_fs_ok s b x s' : fs_ok s → write_step s b x s' → fs_ok s'.
Proof.
  intros [F1 F2 F3 F4 F5] (d & -> & [D1 D2 D3 D4 D5]). split; simpl; try done. by rewrite D1.
Qed.

Lemma block_range s b : fs_ok s → 0 ≤ b < nblocks s → 0 ≤ b < d_blocks (sfs_device s) ∧ b < max_blocks.
Proof. intros [F1 F2 _ _ _] Hb. pose proof (do_blocks _ F1). lia. Qed.

(** ** sfs_rwblock *)

Lemma sfs_dio_spec Q s u :
  wpe lhd_io (λ r '(d, u'), Q r (set_dev d s, u')) (sfs_device s, u) → wpe sfs_dio Q (s, u).
Proof. unfold wpe, sfs_dio. destruct (lhd_io (sfs_device s, u)) as [[r [d u']]| | |]; done. Qed.

Lemma rwblock_read_dev n s u b :
  disk_ok (sfs_device s) → 0 ≤ b < d_blocks (sfs_device s) → block_uio b u → is_read u = true →
  wpe (sfs_rwblock_loop n) (λ r '(s', u'), read_step s s' ∧
    ((r = inr tt ∧ xfer u (sect s b) u') ∨ (r = inl EIO ∧ u' = u ∧ d_rstat (sfs_device s) ≠ []) ∨
     (r = inl EFAULT ∧ ufault u u'))) (s, u).
Proof.
  intros Hs Hb Hu Hr. revert s Hs Hb.
  induction n as [|n IH]; intros s Hs Hb; cbn [sfs_rwblock_loop]; estep; apply sfs_dio_spec;
    (eapply wpe_mono; [apply (lhd_read_spec b); [apply Hs|done..]|]); intros r [d u'] [Hd Hcase]; cbv beta iota;
    assert (read_step s (set_dev d s)) as Hst by (by exists d).
  - destruct Hcase as [[-> Hx]|[(-> & -> & Hne)|[-> Hf]]]; [apply wpe_ret|apply wpe_raise|apply wpe_raise]; (split; [done|auto]).
  - destruct Hcase as [[-> Hx]|[(-> & -> & Hne)|[-> Hf]]]; [apply wpe_ret; split; [done|auto]| |apply wpe_raise; split; [done|auto]].
    cbn [Z.eqb EIO EINVAL]. eapply wpe_mono.
    { apply IH; simpl; [by destruct Hd|]. by rewrite (ds_blocks _ _ Hd). }
    intros r [s2 u2] [Hst2 Hcase]. split; [by eapply read_step_trans|]. simpl in Hcase.
    destruct Hd as [D1 D2 D3 D4 D5]. rewrite D2 in Hcase.
    destruct Hcase as [?|[(-> & -> & _)|?]]; [by left|right; left; done|by right; right].
Qed.

Lemma sfs_rwblock_read_spec n s u b :
  fs_ok s → 0 ≤ b < nblocks s → block_uio b u → is_read u = true →
  wpe (sfs_rwblock_loop n) (λ r '(s', u'), read_step s s' ∧
    ((r = inr tt ∧ xfer u (sect s b) u') ∨ (r = inl EIO ∧ u' = u ∧ d_rstat (sfs_device s) ≠ []) ∨
     (r = inl EFAULT ∧ ufault u u'))) (s, u).
Proof. intros Hs Hb. apply rwblock_read_dev; [apply Hs|]. by destruct (block_range _ _ Hs Hb). Qed.

Lemma sfs_rwblock_write_spec n s u b :
  fs_ok s → 0 ≤ b < nblocks s → block_uio b u → is_read u = false →
  wpe (sfs_rwblock_loop n) (λ r '(s', u'),
    (∃ x, length x = 512%nat ∧ r = inr tt ∧ xfer u x u' ∧ write_step s b x s') ∨
    (r = inl EFAULT ∧ ufault u u' ∧ read_step s s')) (s, u).
Proof.
  intros Hs Hb Hu Hr. pose proof (block_range _ _ Hs Hb) as [Hbd _].
  destruct n; cbn [sfs_rwblock_loop]; estep; apply sfs_dio_spec;
    (eapply wpe_mono; [apply (lhd_write_spec b); [apply Hs|done..]|]);
    intros r [d u'] [(x & Hl & -> & Hx & Hp)|(-> & Hf & Hd)];
    [apply wpe_ret; left; exists x; split_and!; try done; by exists d
    |apply wpe_raise; right; split_and!; try done; by exists d
    |apply wpe_ret; left; exists x; split_and!; try done; by exists d
    |apply wpe_raise; right; split_and!; try done; by exists d].
Qed.

Lemma with_uio_spec {A} u (m : EM (sfs * uio) A) Q s :
  wpe m (λ r '(s', u'), match r with inr a => Q (inr (a, u')) s' | inl e => Q (inl e) s' end) (s, u) →
  wpe (with_uio u m) Q s.
Proof. unfold wpe, with_uio. destruct (m (s, u)) as [[[e|a] [s' u']]| | |]; done. Qed.

(** A uio on a kernel buffer. *)
Lemma mk_kuio_ok buf n pos rw :
  0 ≤ n → n ≤ Z.of_nat (length buf) → n < 4294967296 → bytes buf → 0 ≤ pos → pos + n < 2147483648 →
  uio_ok (mk_kuio buf n pos rw).
Proof. intros. split; simpl; try lia. done. Qed.

Lemma SFSUIO_ok data b rw :
  0 ≤ b < max_blocks → length data = 512%nat → bytes data → block_uio b (SFSUIO data b rw) ∧ is_sys (SFSUIO data b rw) = true.
Proof.
  unfold max_blocks. intros Hb Hl Hd. unfold SFSUIO, SFS_BLOCKSIZE. rewrite (s32_id b) by (unfold is_s32; lia).
  rewrite s32_id by (unfold is_s32; lia). split; [|done]. split; [|done]. apply mk_kuio_ok; lia || done.
Qed.

Lemma sys_no_fault u u' : is_sys u = true → ufault u u' → False.
Proof. intros H (H' & _). congruence. Qed.

Lemma rblock_dev s data b :
  disk_ok (sfs_device s) → 0 ≤ b < d_blocks (sfs_device s) → length data = 512%nat → bytes data →
  wpe (sfs_rblock data b) (λ r s', read_step s s' ∧
    (r = inr (sect s b) ∨ r = inl EIO ∧ d_rstat (sfs_device s) ≠ [])) s.
Proof.
  intros Hs Hb Hl Hd. unfold sfs_rblock. apply wpe_bind, with_uio_spec.
  pose proof (do_blocks _ Hs) as Hm. destruct (SFSUIO_ok data b UIO_READ) as [Hu Hsys]; [lia|done|done|].
  eapply wpe_mono; [by apply (rwblock_read_dev 10 s _ b)|].
  intros r [s' u'] [Hst Hcase]. destruct Hcase as [[-> Hx]|[(-> & -> & Hne)|[-> Hf]]].
  - apply wpe_ret. split; [done|]. left. f_equal. destruct Hx as (_ & _ & _ & Hx).
    change (is_read (SFSUIO data b UIO_READ)) with true in Hx. cbv iota in Hx. subst u'. unfold uwrite. rewrite Hsys.
    unfold move, set_kbuf, SFSUIO, mk_kuio. cbn [iov_kbuf iov_base]. rewrite splice_all; [done|].
    rewrite Hl. apply (do_sect _ Hs).
  - split; [done|]. by right.
  - exfalso. by eapply sys_no_fault.
Qed.

Lemma sfs_rblock_spec s data b :
  fs_ok s → 0 ≤ b < nblocks s → length data = 512%nat → bytes data →
  wpe (sfs_rblock data b) (λ r s', read_step s s' ∧
    (r = inr (sect s b) ∨ r = inl EIO ∧ d_rstat (sfs_device s) ≠ [])) s.
Proof. intros Hs Hb. apply rblock_dev; [apply Hs|]. by destruct (block_range _ _ Hs Hb). Qed.

Lemma sfs_wblock_spec s x b :
  fs_ok s → 0 ≤ b < nblocks s → length x = 512%nat → bytes x →
  wpe (sfs_wblock x b) (λ r s', r = inr tt ∧ write_step s b x s') s.
Proof.
  intros Hs Hb Hl Hd. unfold sfs_wblock. apply wpe_bind, with_uio_spec.
  pose proof (block_range _ _ Hs Hb) as [_ Hm]. destruct (SFSUIO_ok x b UIO_WRITE) as [Hu Hsys]; [lia|done|done|].
  eapply wpe_mono; [by apply (sfs_rwblock_write_spec 10 s _ b)|].
  intros r [s' u'] [(y & Hy & -> & Hx & Hw)|(-> & Hf & _)].
  - apply wpe_ret. split; [done|]. destruct Hx as (_ & _ & _ & Hh & _).
    unfold uholds in Hh. rewrite Hsys in Hh. unfold SFSUIO, mk_kuio in Hh. cbn [iov_kbuf iov_base] in Hh.
    rewrite drop_0, take_ge in Hh by lia. by subst y.
  - exfalso. by eapply sys_no_fault.
Qed.

(** ** The free map *)

Lemma zeros_ok : length zeros = 512%nat ∧ bytes zeros.
Proof. split; [done|]. apply Forall_replicate. unfold is_u8. lia. Qed.

(** [s'] has block [b], free in [s], marked in use and cleared. *)
Definition alloc_step (s : sfs) (b : Z) (s' : sfs) : Prop :=
  ∃ d fm, s' = set_dev d (set_freemap fm true s) ∧ 0 ≤ b < nblocks s ∧ bit (sfs_freemap s) b = false ∧
    bitmap_wf fm ∧ nbits fm = nbits (sfs_freemap s) ∧
    (∀ i, 0 ≤ i → bit fm i = if i =? b then true else bit (sfs_freemap s) i) ∧
    dev_put (sfs_device s) b zeros d.

(** [s'] has block [b], in use in [s], marked free. *)
Definition free_step (s : sfs) (b : Z) (s' : sfs) : Prop :=
  ∃ fm, s' = set_freemap fm true s ∧ bitmap_wf fm ∧ nbits fm = nbits (sfs_freemap s) ∧
    (∀ i, 0 ≤ i → bit fm i = if i =? b then false else bit (sfs_freemap s) i).

Lemma fs_ok_freemap s fm dirty :
  fs_ok s → bitmap_wf fm → nbits fm = nbits (sfs_freemap s) →
  (∀ i, nblocks s ≤ i < nbits (sfs_freemap s) → bit fm i = true) → fs_ok (set_freemap fm dirty s).
Proof. intros [F1 F2 F3 F4 F5] H1 H2 H3. split; simpl; try done; rewrite H2; done. Qed.

Lemma sfs_balloc_spec s :
  fs_ok s →
  wpe sfs_balloc (λ r s', (r = inl ENOSPC ∧ s' = s ∧ ∀ b, 0 ≤ b < nblocks s → bit (sfs_freemap s) b = true) ∨
    ∃ b, r = inr b ∧ alloc_step s b s') s.
Proof.
  intros Hs. unfold sfs_balloc. estep. apply wpe_bind.
  destruct (bitmap_alloc_ok _ (fo_map _ Hs)) as [(b & fm & E & Hb & Hfree & _ & Hwf & Hn & Hbits)|[E Hall]].
  - eapply wpe_lift; [exact E|]. cbv beta iota. cbn [negb Z.eqb]. estep.
    assert (b < nblocks s) as Hlt.
    { destruct (Z.lt_ge_cases b (nblocks s)); [done|]. rewrite (fo_past _ Hs) in Hfree by lia. done. }
    rewrite (proj2 (Z.leb_gt _ _)) by done. apply wpe_bind. unfold sfs_clearblock.
    assert (fs_ok (set_freemap fm true s)) as Hs1.
    { apply fs_ok_freemap; try done. intros i Hi. rewrite Hbits by (pose proof (fo_nblocks _ Hs); lia).
      destruct (i =? b); [done|]. by apply (fo_past _ Hs). }
    eapply wpe_mono; [apply (sfs_wblock_spec _ zeros b Hs1); [simpl; lia|apply zeros_ok..]|].
    intros r s' [-> (d & -> & Hp)]. apply wpe_ret. right. exists b. split; [done|].
    exists d, fm. split_and!; done || lia.
  - eapply wpe_lift; [exact E|]. cbv beta iota. cbn [negb Z.eqb ENOSPC]. apply wpe_raise. left.
    split; [done|]. split; [done|]. intros b Hb. apply Hall. pose proof (fo_bits _ Hs). lia.
Qed.

Lemma alloc_step_fs_ok s b s' : fs_ok s → alloc_step s b s' → fs_ok s'.
Proof.
  intros Hs (d & fm & -> & Hb & _ & Hwf & Hn & Hbits & Hp). assert (fs_ok (set_freemap fm true s)) as Hs1.
  { apply fs_ok_freemap; try done. intros i Hi. rewrite Hbits by (pose proof (fo_nblocks _ Hs); lia).
    destruct (i =? b); [done|]. by apply (fo_past _ Hs). }
  eapply (write_step_fs_ok _ b zeros); [exact Hs1|]. by exists d.
Qed.

Lemma sfs_bfree_spec s b :
  fs_ok s → 0 ≤ b < nblocks s → bit (sfs_freemap s) b = true →
  wpe (sfs_bfree b) (λ r s', r = inr tt ∧ free_step s b s') s.
Proof.
  intros Hs Hb Hbit. unfold sfs_bfree. estep. apply wpe_bind.
  destruct (bitmap_unmark_ok (sfs_freemap s) b) as (fm & E & Hwf & Hn & Hbits);
    [apply Hs|pose proof (fo_bits _ Hs); lia|done|].
  eapply wpe_lift; [exact E|]. estep. split; [done|]. by exists fm.
Qed.

Lemma free_step_fs_ok s b s' : fs_ok s → 0 ≤ b < nblocks s → free_step s b s' → fs_ok s'.
Proof.
  intros Hs Hb (fm & -> & Hwf & Hn & Hbits). apply fs_ok_freemap; try done. intros i Hi.
  rewrite Hbits by (pose proof (fo_nblocks _ Hs); lia). destruct (Z.eqb_spec i b); [lia|]. by apply (fo_past _ Hs).
Qed.

Lemma sfs_bused_spec s b :
  fs_ok s → 0 ≤ b < nblocks s → wpe (sfs_bused b) (λ r s', r = inr (bit (sfs_freemap s) b) ∧ s' = s) s.
Proof.
  intros Hs Hb. unfold sfs_bused. estep. rewrite (proj2 (Z.leb_gt _ _)) by lia. apply wpe_bind.
  destruct (bitmap_isset_ok (sfs_freemap s) b) as (r & E & Hr); [apply Hs|pose proof (fo_bits _ Hs); lia|].
  eapply wpe_lift; [exact E|]. estep. rewrite Hr, negb_involutive. done.
Qed.

Lemma sfs_checkused_spec s b :
  fs_ok s → (b = 0 ∨ 0 ≤ b < nblocks s ∧ bit (sfs_freemap s) b = true) →
  wpe (sfs_checkused b) (λ r s', r = inr tt ∧ s' = s) s.
Proof.
  intros Hs Hb. unfold sfs_checkused. destruct (Z.eqb_spec b 0) as [|Hnz]; [by apply wpe_ret|].
  destruct Hb as [?|[Hb Hbit]]; [done|]. apply wpe_bind. eapply wpe_mono; [by apply sfs_bused_spec|].
  intros r s' [-> ->]. rewrite Hbit. by apply wpe_ret.
Qed.
