(* ===== verification/SfsInv.v ===== *)
(** The invariant of a mounted SFS: every block belongs to one owner, block
    maps lead to blocks in use, loaded vnodes agree with the disk or are
    dirty.

    Beside the state [s] there are ghosts: [G] has the inode and the block map
    of every file, [own] the owner of every block. *)

From Stdlib Require Import ZArith Lia.
From stdpp Require Import base numbers list option gmap.
From S2P Require Import Prelude Array Bitmap Errm Uio UioProofs Lhd LhdProofs SfsDisk Sfs SfsBlock.

Open Scope Z_scope.

Inductive owner := OSys | OIno (ino : Z) | OInd (ino : Z) | OData (ino k : Z).

(** The file an owned block is part of, other than as its inode. *)
Definition part_of (ino : Z) (o : owner) : Prop :=
  match o with OInd i => i = ino | OData i _ => i = ino | _ => False end.

(** Byte [off] of a file with block map [bm]. *)
Definition fbyte (sec : Z → list Z) (bm : gmap Z Z) (off : Z) : Z :=
  match bm !! (off / 512) with
  | Some b => default 0 (sec b !! Z.to_nat (off mod 512))
  | None => 0
  end.

(** The inode and its indirect block give the block map. *)
Record imap_ok (sec : Z → list Z) (nd : sfs_inode) (bm : gmap Z Z) : Prop := {
  im_keys : ∀ k b, bm !! k = Some b → 0 ≤ k < 143 ∧ b ≠ 0;
  im_direct : ∀ k, 0 ≤ k < 15 → sfi_direct nd !! Z.to_nat k = Some (default 0 (bm !! k));
  im_noind : sfi_indirect nd = 0 → ∀ k, 15 ≤ k → bm !! k = None;
  im_ind : sfi_indirect nd ≠ 0 →
    ∀ j, 0 ≤ j < 128 → words (sec (sfi_indirect nd)) !! Z.to_nat j = Some (default 0 (bm !! (15 + j)))
}.

Record file_ok (sec : Z → list Z) (own : gmap Z owner) (ino : Z) (nd : sfs_inode) (bm : gmap Z Z) : Prop := {
  fl_wf : inode_wf nd;
  fl_size : sfi_size nd < 2147483648;
  fl_own : own !! ino = Some (OIno ino);
  fl_map : imap_ok sec nd bm;
  fl_ind : sfi_indirect nd ≠ 0 → own !! sfi_indirect nd = Some (OInd ino);
  fl_data : ∀ k b, bm !! k = Some b → own !! b = Some (OData ino k);
  fl_type : sfi_type nd = SFS_TYPE_FILE ∨ sfi_type nd = SFS_TYPE_DIR
}.

Definition ops_of (nd : sfs_inode) (o : vnode_ops) : Prop :=
  (sfi_type nd = SFS_TYPE_FILE ∧ o = sfs_fileops) ∨ (sfi_type nd = SFS_TYPE_DIR ∧ o = sfs_dirops).

Abbreviation files := (gmap Z (sfs_inode * gmap Z Z)).

(** The superblock as [sfs_domount] keeps it. *)
Definition mounted_super (blk : list Z) : sfs_super :=
  let sb := dec_super blk in mkSuper (sp_magic sb) (sp_nblocks sb) (<[31%nat := 0]> (sp_volname sb)) (sp_reserved sb).

(** Block [j] of the free map. *)
Definition map_block (fm : bitmap) (j : Z) : list Z := take 512 (drop (Z.to_nat (j * 512)) (bm_v fm)).

(** The system's own blocks: the superblock is on disk, and so is the free
    map unless it is dirty. *)
Record sys_ok (s : sfs) (own : gmap Z owner) : Prop := {
  sy_zero : own !! 0 = Some OSys;
  sy_own : ∀ j, 0 ≤ j < SFS_BITBLOCKS (nblocks s) → own !! (SFS_MAP_LOCATION + j) = Some OSys;
  sy_clean : sfs_superdirty s = false;
  sy_magic : sp_magic (sfs_sb s) = SFS_MAGIC;
  sy_super : mounted_super (sect s 0) = sfs_sb s;
  sy_bits : nbits (sfs_freemap s) = SFS_BITMAPSIZE (nblocks s);
  sy_map : sfs_freemapdirty s = false →
    ∀ j, 0 ≤ j < SFS_BITBLOCKS (nblocks s) → sect s (SFS_MAP_LOCATION + j) = map_block (sfs_freemap s) j
}.

(** The free map in memory has not changed, or is dirty. *)
Definition map_kept (s s' : sfs) : Prop :=
  sfs_superdirty s' = sfs_superdirty s ∧ nbits (sfs_freemap s') = nbits (sfs_freemap s) ∧
  (sfs_freemapdirty s' = false → sfs_freemap s' = sfs_freemap s ∧ sfs_freemapdirty s = false).

Lemma sys_frame s own s' own' :
  sys_ok s own → sfs_sb s' = sfs_sb s → map_kept s s' →
  (∀ c, own !! c = Some OSys → own' !! c = Some OSys ∧ sect s' c = sect s c) → sys_ok s' own'.
Proof.
  intros [Y1 Y2 Y3 Y4 Y5 Y6 Y7] Esb (K1 & K2 & K3) H. destruct (H _ Y1) as [H1 H2]. split; rewrite ?Esb; try congruence.
  - intros j Hj. by apply H, Y2.
  - intros Hd j Hj. destruct (K3 Hd) as [-> Hd']. destruct (H _ (Y2 j Hj)) as [_ ->]. by apply Y7.
Qed.

(** The invariant: the files [G] (inode and block map) and the owner of each
    of their blocks.  [fs_ok] includes that the disk does not fail writes.
    That a block in use has an owner is not part of it, since errors of the
    disk can leave blocks behind; [no_loss] below says what is kept. *)
Record fs_inv (s : sfs) (G : files) (own : gmap Z owner) : Prop := {
  iv_ok : fs_ok s;
  iv_own : ∀ b o, own !! b = Some o → 0 ≤ b < nblocks s ∧ bit (sfs_freemap s) b = true;
  iv_sys : sys_ok s own;
  iv_files : ∀ ino nd bm, G !! ino = Some (nd, bm) → file_ok (sect s) own ino nd bm;
  iv_tab : ∃ ps, array_rep (sfs_vnodes s) ps ∧ NoDup ps ∧ ∀ p, p ∈ ps ↔ is_Some (s_vn s !! p);
  iv_vn : ∀ p v, s_vn s !! p = Some v →
    p < s_next s ∧ 0 < sv_refcount v ∧ 0 ≤ sv_opencount v ∧ ops_of (sv_i v) (sv_ops v) ∧
    ∃ bm, G !! sv_ino v = Some (sv_i v, bm);
  iv_inj : ∀ p q v w, s_vn s !! p = Some v → s_vn s !! q = Some w → sv_ino v = sv_ino w → p = q;
  iv_disk : ∀ ino nd bm, G !! ino = Some (nd, bm) →
    (∃ p v, s_vn s !! p = Some v ∧ sv_ino v = ino ∧ sv_dirty v = true) ∨ sect s ino = enc_inode nd
}.

(** ** Blocks in use

    A block is lost when the free map has it in use and nothing refers to it:
    it is not the system's, and no file has it as its inode, its indirect
    block or one of its data blocks. *)

Definition has_block (ino : Z) (nd : sfs_inode) (bm : gmap Z Z) (b : Z) : Prop :=
  b = ino ∨ (b ≠ 0 ∧ b = sfi_indirect nd) ∨ ∃ k, bm !! k = Some b.

Definition sys_block (s : sfs) (b : Z) : Prop :=
  b = 0 ∨ ∃ j, 0 ≤ j < SFS_BITBLOCKS (nblocks s) ∧ b = SFS_MAP_LOCATION + j.

Definition referred (s : sfs) (G : files) (b : Z) : Prop :=
  sys_block s b ∨ ∃ ino nd bm, G !! ino = Some (nd, bm) ∧ has_block ino nd bm b.

Definition lost (s : sfs) (G : files) (b : Z) : Prop :=
  0 ≤ b < nblocks s ∧ bit (sfs_freemap s) b = true ∧ ¬ referred s G b.

(** No block is lost on the way from one state to the other. *)
Definition no_loss (s : sfs) (G : files) (s' : sfs) (G' : files) : Prop := ∀ b, lost s' G' b → lost s G b.

Lemma no_loss_refl s G : no_loss s G s G.
Proof. by intros b. Qed.

Lemma no_loss_trans s G s1 G1 s2 G2 : no_loss s G s1 G1 → no_loss s1 G1 s2 G2 → no_loss s G s2 G2.
Proof. intros H1 H2 b Hb. by apply H1, H2. Qed.

Lemma no_loss_same s G s' : sfs_sb s' = sfs_sb s → sfs_freemap s' = sfs_freemap s → no_loss s G s' G.
Proof. intros Esb Efm b. unfold lost, referred, sys_block. by rewrite Esb, Efm. Qed.

(** A change to one file loses nothing if the blocks it gives up are free
    afterwards and those it takes become its own. *)
Definition lossless (s s' : sfs) (ino : Z) (nd : sfs_inode) (bm : gmap Z Z) (nd' : sfs_inode) (bm' : gmap Z Z) : Prop :=
  ∀ b, 0 ≤ b < nblocks s → bit (sfs_freemap s') b = true → ¬ has_block ino nd' bm' b →
    bit (sfs_freemap s) b = true ∧ ¬ has_block ino nd bm b.

Lemma no_loss_change s G s' ino nd bm nd' bm' :
  G !! ino = Some (nd, bm) → sfs_sb s' = sfs_sb s → lossless s s' ino nd bm nd' bm' → no_loss s G s' (<[ino := (nd', bm')]> G).
Proof.
  intros HG Esb Hl b (Hb & Hbit & Hno). unfold lost, referred, sys_block in *. rewrite Esb in *.
  destruct (Hl b Hb Hbit) as [Hbit0 Hno0].
  { intros Hf. apply Hno. right. exists ino, nd', bm'. by rewrite lookup_insert_eq. }
  split; [done|]. split; [done|]. intros [?|(i & n & m & Hi & Hf)]; [apply Hno; by left|].
  destruct (decide (i = ino)) as [->|Hne]; [simplify_eq; done|]. apply Hno. right. exists i, n, m. by rewrite lookup_insert_ne by done.
Qed.

(** A new file. *)
Lemma no_loss_add s G s' ino x : G !! ino = None → sfs_sb s' = sfs_sb s → sfs_freemap s' = sfs_freemap s → no_loss s G s' (<[ino := x]> G).
Proof.
  intros HG Esb Efm b (Hb & Hbit & Hno). unfold lost, referred, sys_block in *. rewrite Esb, Efm in *. split; [done|]. split; [done|].
  intros [?|(i & n & m & Hi & Hf)]; apply Hno; [by left|right]. exists i, n, m. by rewrite lookup_insert_ne by congruence.
Qed.

(** A file goes: it had no block but its inode, which is free now. *)
Lemma no_loss_delete s G s' ino nd :
  G !! ino = Some (nd, ∅) → sfi_indirect nd = 0 → sfs_sb s' = sfs_sb s →
  (∀ b, 0 ≤ b → bit (sfs_freemap s') b = if b =? ino then false else bit (sfs_freemap s) b) → no_loss s G s' (delete ino G).
Proof.
  intros HG Hi Esb Hbits b (Hb & Hbit & Hno). unfold lost, referred, sys_block in *. rewrite Esb in *.
  rewrite Hbits in Hbit by lia. destruct (Z.eqb_spec b ino) as [->|Hne]; [done|]. split; [done|]. split; [done|].
  intros [?|(i & n & m & Hi' & Hf)]; apply Hno; [by left|right]. exists i, n, m. split; [|done].
  rewrite lookup_delete_ne; [done|]. intros <-. simplify_eq. destruct Hf as [?|[[? ?]|[k ?]]]; [done|congruence|done].
Qed.

(** A file that keeps its blocks, with the same free map. *)
Lemma lossless_grow s s' ino nd bm nd' bm' :
  sfs_freemap s' = sfs_freemap s → (∀ b, has_block ino nd bm b → has_block ino nd' bm' b) → lossless s s' ino nd bm nd' bm'.
Proof. intros Efm Hf b _ Hbit Hno. rewrite <- Efm. split; [done|]. intros H. by apply Hno, Hf. Qed.

(** ** What an operation changes *)

Definition same_meta (nd nd' : sfs_inode) : Prop :=
  sfi_size nd' = sfi_size nd ∧ sfi_type nd' = sfi_type nd ∧ sfi_linkcount nd' = sfi_linkcount nd.

Definition same_vnode (v v' : sfs_vnode) : Prop :=
  sv_ino v' = sv_ino v ∧ sv_refcount v' = sv_refcount v ∧ sv_opencount v' = sv_opencount v ∧ sv_ops v' = sv_ops v.

(** A byte function with [d] written at [off]. *)
Definition overlay (f : Z → Z) (off : Z) (d : list Z) (x : Z) : Z :=
  if decide (off ≤ x < off + Z.of_nat (length d)) then default 0 (d !! Z.to_nat (x - off)) else f x.

(** No read of the disk will fail. *)
Definition reads_fine (s : sfs) : Prop := d_rstat (sfs_device s) = [].

(** File [ino] had [d] written at [off]; nothing else a client of the file
    system can see has changed. *)
Record wrote_any (ino off : Z) (d : list Z) (s : sfs) (G : files) (s' : sfs) (G' : files) : Prop := {
  wr_dom : ∀ i, is_Some (G' !! i) ↔ is_Some (G !! i);
  wr_file : ∀ i nd bm nd' bm', G !! i = Some (nd, bm) → G' !! i = Some (nd', bm') →
    same_meta nd nd' ∧
    ∀ x, 0 ≤ x → fbyte (sect s') bm' x =
      if decide (i = ino) then overlay (fbyte (sect s) bm) off d x else fbyte (sect s) bm x;
  wr_vn : ∀ p, match s_vn s !! p, s_vn s' !! p with
               | Some v, Some v' => same_vnode v v'
               | None, None => True
               | _, _ => False
               end;
  wr_sb : sfs_sb s' = sfs_sb s;
  wr_tab : sfs_vnodes s' = sfs_vnodes s;
  wr_next : s_next s' = s_next s;
  wr_orc : s_orc s' = s_orc s;
  wr_r : reads_fine s → reads_fine s'
}.

(** Nor was a block lost. *)
Record wrote (ino off : Z) (d : list Z) (s : sfs) (G : files) (s' : sfs) (G' : files) : Prop := {
  wr_any :> wrote_any ino off d s G s' G';
  wr_lost : no_loss s G s' G'
}.

(** Nothing visible has changed. *)
Definition quiet (s : sfs) (G : files) (s' : sfs) (G' : files) : Prop := ∀ ino off, wrote ino off [] s G s' G'.

Lemma overlay_nil f off x : overlay f off [] x = f x.
Proof. unfold overlay. simpl. rewrite decide_False by lia. done. Qed.

Lemma overlay_app f off d1 d2 x :
  overlay (overlay f off d1) (off + Z.of_nat (length d1)) d2 x = overlay f off (d1 ++ d2) x.
Proof.
  unfold overlay. rewrite length_app. repeat case_decide; try lia; try done.
  - rewrite lookup_app_r by lia. f_equal. f_equal. lia.
  - rewrite lookup_app_l by lia. done.
Qed.

Lemma overlay_ext f g off d x : f x = g x → overlay f off d x = overlay g off d x.
Proof. unfold overlay. by case_decide. Qed.

Lemma same_vnode_refl v : same_vnode v v.
Proof. done. Qed.

Lemma same_vnode_trans v1 v2 v3 : same_vnode v1 v2 → same_vnode v2 v3 → same_vnode v1 v3.
Proof. intros (? & ? & ? & ?) (? & ? & ? & ?). split_and!; congruence. Qed.

Lemma wrote_nil ino off s G s' G' : wrote ino off [] s G s' G' → quiet s G s' G'.
Proof.
  intros [[W1 W2 W3 W4 W5 W6 W7 W8] W9] ino' off'. split; [|done]. split; try done. intros i nd bm nd' bm' H H'.
  destruct (W2 i nd bm nd' bm' H H') as [Hm Hb]. split; [done|]. intros x Hx. rewrite (Hb x Hx).
  rewrite !overlay_nil. by repeat case_decide.
Qed.

Lemma quiet_refl s G : quiet s G s G.
Proof.
  intros ino off. split; [|apply no_loss_refl]. split; try done.
  - intros i nd bm nd' bm' H H'. simplify_eq. split; [done|]. intros x _. rewrite overlay_nil. by case_decide.
  - intros p. by destruct (s_vn s !! p).
Qed.

Lemma wrote_any_app ino off d1 d2 s G s1 G1 s2 G2 :
  wrote_any ino off d1 s G s1 G1 → wrote_any ino (off + Z.of_nat (length d1)) d2 s1 G1 s2 G2 →
  wrote_any ino off (d1 ++ d2) s G s2 G2.
Proof.
  intros [A1 A2 A3 A4 A5 A6 A7 A8] [B1 B2 B3 B4 B5 B6 B7 B8]. split; try congruence; try tauto.
  - intros i. rewrite B1. apply A1.
  - intros i nd bm nd' bm' H H'. destruct (proj2 (A1 i)) as [[nd1 bm1] H1]; [by eexists|].
    destruct (A2 _ _ _ _ _ H H1) as [(M1 & M2 & M3) F1], (B2 _ _ _ _ _ H1 H') as [(N1 & N2 & N3) F2].
    split; [split_and!; congruence|]. intros x Hx. rewrite (F2 x Hx). specialize (F1 x Hx). case_decide; [|done].
    rewrite <- overlay_app. by apply overlay_ext.
  - intros p. specialize (A3 p). specialize (B3 p).
    destruct (s_vn s !! p), (s_vn s1 !! p), (s_vn s2 !! p); try done. by eapply same_vnode_trans.
Qed.

Lemma wrote_app ino off d1 d2 s G s1 G1 s2 G2 :
  wrote ino off d1 s G s1 G1 → wrote ino (off + Z.of_nat (length d1)) d2 s1 G1 s2 G2 →
  wrote ino off (d1 ++ d2) s G s2 G2.
Proof. intros [A1 A2] [B1 B2]. split; [by eapply wrote_any_app|by eapply no_loss_trans]. Qed.

Lemma quiet_wrote ino off d s G s1 G1 s2 G2 :
  quiet s G s1 G1 → wrote ino off d s1 G1 s2 G2 → wrote ino off d s G s2 G2.
Proof. intros H1 H2. apply (wrote_app ino off [] d s G s1 G1 s2 G2); [apply H1|]. simpl. by rewrite Z.add_0_r. Qed.

Lemma wrote_quiet ino off d s G s1 G1 s2 G2 :
  wrote ino off d s G s1 G1 → quiet s1 G1 s2 G2 → wrote ino off d s G s2 G2.
Proof. intros H1 H2. rewrite <- (app_nil_r d). eapply wrote_app; [exact H1|apply H2]. Qed.

Lemma quiet_trans s G s1 G1 s2 G2 : quiet s G s1 G1 → quiet s1 G1 s2 G2 → quiet s G s2 G2.
Proof. intros H1 H2. apply (wrote_nil 0 0). eapply quiet_wrote; [done|apply H2]. Qed.

(** ** Keeping the invariant *)

Lemma fbyte_frame sec sec' bm x :
  (∀ k b, bm !! k = Some b → sec' b = sec b) → fbyte sec' bm x = fbyte sec bm x.
Proof. intros H. unfold fbyte. destruct (bm !! (x / 512)) as [b|] eqn:E; [|done]. by rewrite (H _ _ E). Qed.

Lemma file_ok_frame sec own sec' own' ino nd bm :
  file_ok sec own ino nd bm →
  (∀ c o, own !! c = Some o → o = OIno ino ∨ part_of ino o → own' !! c = Some o ∧ (part_of ino o → sec' c = sec c)) →
  file_ok sec' own' ino nd bm ∧ ∀ x, fbyte sec' bm x = fbyte sec bm x.
Proof.
  intros [F1 F0 F2 [M1 M2 M3 M4] F4 F5 F7] H. split.
  - split; [done|done|by destruct (H _ _ F2 (or_introl eq_refl))| | | |done].
    + split; try done. intros Hi j Hj. destruct (H _ _ (F4 Hi)) as [_ Hs]; [by right|]. rewrite Hs by done. by apply M4.
    + intros Hi. by destruct (H _ _ (F4 Hi) (or_intror eq_refl)).
    + intros k b Hb. by destruct (H _ _ (F5 k b Hb) (or_intror eq_refl)).
  - intros x. apply fbyte_frame. intros k b Hb. by apply (H _ _ (F5 k b Hb) (or_intror eq_refl)).
Qed.

(** Only the indirect block matters for the block map. *)
Lemma file_ok_sect sec sec' own ino nd bm :
  file_ok sec own ino nd bm → (∀ c, own !! c = Some (OInd ino) → sec' c = sec c) → file_ok sec' own ino nd bm.
Proof.
  intros [F1 F0 F2 [M1 M2 M3 M4] F4 F5 F7] H. split; try done. split; try done.
  intros Hi j Hj. rewrite H by (by apply F4). by apply M4.
Qed.

(** A change to one loaded file: its inode, its block map, the contents and
    the owners of its blocks, and blocks nobody owned. *)
Section change.
Context (s : sfs) (G : files) (own : gmap Z owner) (s' : sfs) (own' : gmap Z owner).
Context (p : Z) (v v' : sfs_vnode) (bm bm' : gmap Z Z).
Let ino := sv_ino v.
Let G' := <[ino := (sv_i v', bm')]> G.

(** What the change must respect. *)
Record file_change : Prop := {
  fc_vn : s_vn s !! p = Some v;
  fc_file : G !! ino = Some (sv_i v, bm);
  fc_ok : fs_ok s';
  fc_sb : sfs_sb s' = sfs_sb s;
  fc_map : map_kept s s';
  fc_tab : sfs_vnodes s' = sfs_vnodes s;
  fc_next : s_next s' = s_next s;
  fc_vn' : s_vn s' = <[p := v']> (s_vn s);
  fc_same : same_vnode v v';
  fc_type : sfi_type (sv_i v') = sfi_type (sv_i v);
  fc_own : ∀ b o, own' !! b = Some o → 0 ≤ b < nblocks s ∧ bit (sfs_freemap s') b = true;
  fc_frame : ∀ c o, own !! c = Some o → part_of ino o ∨ own' !! c = Some o ∧ (c = ino ∨ sect s' c = sect s c);
  fc_file' : file_ok (sect s') own' ino (sv_i v') bm';
  fc_dirty : sv_dirty v' = true ∨ sect s' ino = enc_inode (sv_i v');
  fc_lost : lossless s s' ino (sv_i v) bm (sv_i v') bm'
}.

Lemma change_other i nd b :
  fs_inv s G own → file_change → i ≠ ino → G !! i = Some (nd, b) →
  file_ok (sect s') own' i nd b ∧ ∀ x, fbyte (sect s') b x = fbyte (sect s) b x.
Proof.
  intros HI HC Hne Hi. apply (file_ok_frame (sect s) own); [by apply (iv_files _ _ _ HI)|]. intros c o Hc Ho.
  destruct (fc_frame HC c o Hc) as [Hpart|[Hc' Hsec]].
  - exfalso. destruct Ho as [->|Ho]; [done|]. destruct o; simpl in *; congruence.
  - split; [done|]. intros Ho'. destruct Hsec as [->|?]; [|done]. exfalso.
    rewrite (fl_own _ _ _ _ _ (iv_files _ _ _ HI _ _ _ (fc_file HC))) in Hc. injection Hc as <-. done.
Qed.

Lemma change_vn q w :
  file_change → s_vn s' !! q = Some w →
  ∃ w0, s_vn s !! q = Some w0 ∧ sv_ino w = sv_ino w0 ∧ (q ≠ p → w = w0) ∧ (q = p → w = v').
Proof.
  intros HC. rewrite (fc_vn' HC), lookup_insert_Some. intros [[<- <-]|[Hne Hq]].
  - exists v. destruct (fc_same HC) as (? & _). by pose proof (fc_vn HC).
  - exists w. done.
Qed.

Lemma change_vn_ok q w :
  fs_inv s G own → file_change → s_vn s' !! q = Some w →
  q < s_next s' ∧ 0 < sv_refcount w ∧ 0 ≤ sv_opencount w ∧ ops_of (sv_i w) (sv_ops w) ∧
  ∃ b, G' !! sv_ino w = Some (sv_i w, b).
Proof.
  intros HI HC Hq. destruct (change_vn q w HC Hq) as (w0 & Hw0 & Eino & Hne & Heq). rewrite (fc_next HC).
  destruct (iv_vn _ _ _ HI q w0 Hw0) as (J1 & J2 & J3 & J4 & b & Hb). pose proof (fc_vn HC) as Hp.
  destruct (decide (q = p)) as [->|Hqp].
  - rewrite (Heq eq_refl) in *. simplify_eq. destruct (fc_same HC) as (E1 & E2 & E3 & E4).
    rewrite E2, E3, E4. split_and!; try done.
    + unfold ops_of in *. by rewrite (fc_type HC).
    + exists bm'. rewrite E1. apply lookup_insert_eq.
  - rewrite (Hne Hqp) in *. split_and!; try done. exists b. unfold G'. rewrite lookup_insert_ne; [done|].
    intros E. apply Hqp. by apply (iv_inj _ _ _ HI q p w0 v).
Qed.

Lemma inv_change : fs_inv s G own → file_change → fs_inv s' G' own'.
Proof.
  intros HI HC. pose proof HI as [I1 I2 I3 I4 I5 I6 I7 I8]. pose proof (fc_vn HC) as Hp. split.
  - apply HC.
  - rewrite (fc_sb HC). apply HC.
  - eapply sys_frame; [exact I3|apply HC|apply HC|]. intros c Hc. destruct (fc_frame HC c OSys Hc) as [[]|[? [->|?]]]; [|done].
    exfalso. rewrite (fl_own _ _ _ _ _ (I4 _ _ _ (fc_file HC))) in Hc. done.
  - intros i nd b. unfold G'. rewrite lookup_insert_Some.
    intros [[<- [= <- <-]]|[Hne Hi]]; [apply HC|]. by apply (change_other i nd b HI HC).
  - rewrite (fc_tab HC). destruct I5 as (ps & H1 & H2 & H3). exists ps. split_and!; try done.
    intros q. rewrite H3, (fc_vn' HC), lookup_insert_is_Some'. split; [by right|]. intros [<-|?]; [by eexists|done].
  - intros q w. by apply change_vn_ok.
  - intros q1 q2 w1 w2 H1 H2 E.
    destruct (change_vn q1 w1 HC H1) as (u1 & U1 & E1 & _), (change_vn q2 w2 HC H2) as (u2 & U2 & E2 & _).
    apply (I7 q1 q2 u1 u2); congruence.
  - intros i nd b. unfold G'. rewrite lookup_insert_Some. intros [[<- [= <- <-]]|[Hne Hi]].
    + destruct (fc_dirty HC) as [Hd|?]; [left|by right]. exists p, v'. rewrite (fc_vn' HC), lookup_insert_eq.
      destruct (fc_same HC) as (? & _). done.
    + destruct (I8 i nd b Hi) as [(q & w & Hq & Ew & Hw)|Hsec].
      * left. exists q, w. rewrite (fc_vn' HC), lookup_insert_ne; [done|]. intros ->. simplify_eq.
      * right. rewrite <- Hsec. destruct (fc_frame HC i (OIno i)) as [[]|[_ [?|?]]]; [apply (I4 i nd b Hi)|done|done].
Qed.

Lemma wrote_change off d :
  fs_inv s G own → file_change → s_orc s' = s_orc s → (reads_fine s → reads_fine s') → same_meta (sv_i v) (sv_i v') →
  (∀ x, 0 ≤ x → fbyte (sect s') bm' x = overlay (fbyte (sect s) bm) off d x) → wrote ino off d s G s' G'.
Proof.
  intros HI HC Eorc Er Hmeta Hbytes. pose proof (fc_file HC) as HG.
  split; [|eapply no_loss_change; [exact HG|apply HC|apply HC]]. split; try apply HC; try done.
  - intros i. unfold G'. rewrite lookup_insert_is_Some'. split; [intros [<-|?]; [by eexists|done]|by right].
  - intros i nd b nd' b' Hi. unfold G'. rewrite lookup_insert_Some. intros [[<- [= <- <-]]|[Hne Hi']].
    + simplify_eq. split; [done|]. intros x Hx. rewrite decide_True by done. by apply Hbytes.
    + simplify_eq. split; [done|]. intros x Hx. rewrite decide_False by congruence. by apply (change_other i nd b HI HC).
  - intros q. rewrite (fc_vn' HC). destruct (decide (q = p)) as [->|Hne].
    + rewrite lookup_insert_eq, (fc_vn HC). apply HC.
    + rewrite lookup_insert_ne by congruence. by destruct (s_vn s !! q).
Qed.
End change.

Lemma inv_step s G own s' own' p v v' bm bm' off d :
  fs_inv s G own → file_change s G own s' own' p v v' bm bm' →
  s_orc s' = s_orc s → (reads_fine s → reads_fine s') → same_meta (sv_i v) (sv_i v') →
  (∀ x, 0 ≤ x → fbyte (sect s') bm' x = overlay (fbyte (sect s) bm) off d x) →
  let G' := <[sv_ino v := (sv_i v', bm')]> G in fs_inv s' G' own' ∧ wrote (sv_ino v) off d s G s' G'.
Proof. intros HI HC ? ? ? ?. split; [by eapply inv_change|by eapply wrote_change]. Qed.

(** A change to blocks nobody owns. *)
Lemma inv_other s G own s' :
  fs_inv s G own → fs_ok s' → sfs_sb s' = sfs_sb s → map_kept s s' → sfs_vnodes s' = sfs_vnodes s → s_next s' = s_next s →
  s_orc s' = s_orc s → (reads_fine s → reads_fine s') → s_vn s' = s_vn s →
  (∀ b o, own !! b = Some o → bit (sfs_freemap s') b = true ∧ sect s' b = sect s b) →
  fs_inv s' G own ∧ ∀ ino off, wrote_any ino off [] s G s' G.
Proof.
  intros HI Hok Esb Hmk Etab Enext Eorc Er Evn Hown. pose proof HI as [I1 I2 I3 I4 I5 I6 I7 I8].
  assert (∀ i nd b, G !! i = Some (nd, b) →
    file_ok (sect s') own i nd b ∧ ∀ x, fbyte (sect s') b x = fbyte (sect s) b x) as Hfile.
  { intros i nd b Hi. apply (file_ok_frame (sect s) own); [by apply I4|]. intros c o Hc _. split; [done|].
    intros _. by apply (Hown c o). }
  split; [split|].
  - done.
  - intros b o Hb. rewrite Esb. split; [by apply (I2 b o)|by apply (Hown b o)].
  - eapply sys_frame; [exact I3|done|done|]. intros c Hc. split; [done|by apply (Hown c OSys)].
  - intros i nd b Hi. by apply Hfile.
  - by rewrite Etab, Evn.
  - by rewrite Evn, Enext.
  - by rewrite Evn.
  - intros i nd b Hi. rewrite Evn. destruct (I8 i nd b Hi) as [?|Hs]; [by left|right].
    rewrite <- Hs. apply (Hown i (OIno i)), (I4 i nd b Hi).
  - intros ino off. split; try done.
    + intros i nd b nd' b' Hi Hi'. simplify_eq. split; [done|]. intros x _. rewrite overlay_nil.
      destruct (Hfile i _ _ Hi) as [_ ->]. by case_decide.
    + intros q. rewrite Evn. by destruct (s_vn s !! q).
Qed.

Lemma inv_read s G own s' :
  fs_inv s G own → read_step s s' → fs_inv s' G own ∧ quiet s G s' G.
Proof.
  intros HI Hst. pose proof (read_step_fs_ok _ _ (iv_ok _ _ _ HI) Hst) as Hok.
  destruct Hst as (d & -> & [D1 D2 D3 D4 D5]). destruct (inv_other s G own (set_dev d s)) as [HI' Hw]; try done.
  { intros b o Hb. split; [by apply (iv_own _ _ _ HI b o)|apply D2]. }
  split; [done|]. intros ino off. split; [apply Hw|by apply no_loss_same].
Qed.

(** A freshly allocated block is nobody's, and would be lost if it stayed
    so. *)
Lemma inv_alloc s G own b s' :
  fs_inv s G own → alloc_step s b s' →
  fs_inv s' G own ∧ (∀ ino off, wrote_any ino off [] s G s' G) ∧
  (∀ s2 G2, no_loss s' G s2 G2 → referred s2 G2 b → no_loss s G s2 G2) ∧ own !! b = None ∧ 0 < b < nblocks s ∧ bit (sfs_freemap s') b = true ∧
  sect s' b = zeros ∧ s_vn s' = s_vn s.
Proof.
  intros HI Hst. pose proof (alloc_step_fs_ok _ _ _ (iv_ok _ _ _ HI) Hst) as Hok.
  destruct Hst as (d & fm & -> & Hb & Hfree & Hwf & Hn & Hbits & [D1 D2 D3 D4 D5]).
  assert (own !! b = None) as Hno.
  { destruct (own !! b) as [o|] eqn:E; [|done]. apply (iv_own _ _ _ HI) in E as [_ E]. congruence. }
  assert (b ≠ 0) as Hnz by (intros ->; rewrite (sy_zero _ _ (iv_sys _ _ _ HI)) in Hno; done).
  set (s' := set_dev d (set_freemap fm true s)). destruct (inv_other s G own s') as [HI' Hq]; try done.
  { intros c o Hc. simpl. rewrite Hbits, D2 by (apply (iv_own _ _ _ HI) in Hc; lia).
    assert (c ≠ b) by congruence. rewrite (proj2 (Z.eqb_neq _ _)), decide_False by done.
    split; [by apply (iv_own _ _ _ HI c o)|done]. }
  assert (∀ s2 G2, no_loss s' G s2 G2 → referred s2 G2 b → no_loss s G s2 G2) as Hloss.
  { intros s2 G2 H2 Hb2 c Hc. pose proof Hc as (_ & _ & Hc2). destruct (H2 c Hc) as (Hr & Hbit & Hn0). split; [done|]. split; [|done].
    simpl in Hbit, Hr. rewrite Hbits, (proj2 (Z.eqb_neq _ _)) in Hbit; [done|congruence|lia]. }
  split_and!; try done; simpl; try lia.
  - rewrite Hbits, Z.eqb_refl by lia. done.
  - by rewrite D2, decide_True.
Qed.

(** Unless the next step gives it to a file. *)
Lemma alloc_quiet s G own b s' s2 G2 :
  fs_inv s G own → alloc_step s b s' → quiet s' G s2 G2 → referred s2 G2 b → quiet s G s2 G2.
Proof.
  intros HI Hst Hq Hb. destruct (inv_alloc _ _ _ _ _ HI Hst) as (_ & Hw & Hloss & _). apply (wrote_nil 0 0).
  split; [|apply Hloss; [apply (Hq 0 0)|done]]. apply (wrote_any_app 0 0 [] [] s G s' G s2 G2); [apply Hw|apply Hq].
Qed.

(** A loaded file. *)
Record at_file (s : sfs) (G : files) (own : gmap Z owner) (p ino : Z) (v : sfs_vnode) (bm : gmap Z Z) : Prop := {
  af_inv : fs_inv s G own;
  af_vn : s_vn s !! p = Some v;
  af_ino : sv_ino v = ino;
  af_file : G !! ino = Some (sv_i v, bm)
}.

Lemma af_ok s G own p ino v bm : at_file s G own p ino v bm → file_ok (sect s) own ino (sv_i v) bm.
Proof. intros [A1 A2 A3 A4]. by apply (iv_files _ _ _ A1). Qed.

Lemma at_file_intro s G own p v : fs_inv s G own → s_vn s !! p = Some v → ∃ bm, at_file s G own p (sv_ino v) v bm.
Proof. intros HI Hp. destruct (iv_vn _ _ _ HI p v Hp) as (_ & _ & _ & _ & bm & HG). by exists bm. Qed.

(** The vnode and the file after a step that keeps the vnodes. *)
Lemma at_file_quiet s G own p ino v bm s' G' own' io off d :
  at_file s G own p ino v bm → fs_inv s' G' own' → wrote io off d s G s' G' →
  ∃ v' bm', at_file s' G' own' p ino v' bm' ∧ same_vnode v v' ∧ same_meta (sv_i v) (sv_i v') ∧
    ∀ x, 0 ≤ x → fbyte (sect s') bm' x =
      if decide (ino = io) then overlay (fbyte (sect s) bm) off d x else fbyte (sect s) bm x.
Proof.
  intros [A1 A2 A3 A4] HI' Hw. pose proof (wr_vn _ _ _ _ _ _ _ Hw p) as Hvn. rewrite A2 in Hvn.
  destruct (s_vn s' !! p) as [v'|] eqn:Hp'; [|done]. destruct (at_file_intro _ _ _ _ _ HI' Hp') as (bm' & Haf).
  destruct Hvn as (E1 & E2 & E3 & E4). exists v', bm'. rewrite E1, A3 in Haf. split; [done|]. split; [done|].
  by apply (wr_file _ _ _ _ _ _ _ Hw ino (sv_i v) bm (sv_i v') bm' A4 (af_file _ _ _ _ _ _ _ Haf)).
Qed.

(** A clean vnode is on disk. *)
Lemma af_dirty s G own p ino v bm :
  at_file s G own p ino v bm → sv_dirty v = true ∨ sect s ino = enc_inode (sv_i v).
Proof.
  intros [A1 A2 A3 A4]. destruct (iv_disk _ _ _ A1 ino (sv_i v) bm A4) as [(q & w & Hq & Ew & Hd)|?]; [left|by right].
  assert (q = p) as -> by (apply (iv_inj _ _ _ A1 q p w v); congruence). congruence.
Qed.
