(* ===== verification/SfsBmap.v ===== *)
(** [sfs_bmap] finds the block of a file, allocating it when asked to, and
    changes nothing a reader of any file can see. *)

From Stdlib Require Import ZArith Lia.
From stdpp Require Import base numbers list option gmap.
From S2P Require Import Prelude Array Bitmap Errm Uio UioProofs Lhd LhdProofs SfsDisk Sfs SfsBlock SfsInv.

Open Scope Z_scope.

(** ** Adding a block to a file *)

Lemma lookup_zeros i : zeros !! i = Some 0 ∨ zeros !! i = None.
Proof.
  destruct (zeros !! i) as [x|] eqn:E; [left|by right]. unfold zeros in E.
  apply lookup_replicate in E as [-> _]. done.
Qed.

Lemma words_zeros j : 0 ≤ j < 128 → words zeros !! Z.to_nat j = Some 0.
Proof.
  intros Hj. change (words zeros) with (replicate 128 0). apply lookup_replicate. split; [done|lia].
Qed.

(** A new block of zeros cannot be told from a hole. *)
Lemma fbyte_new sec bm k b x :
  bm !! k = None → sec b = zeros → fbyte sec (<[k := b]> bm) x = fbyte sec bm x.
Proof.
  intros Hk Hz. unfold fbyte. destruct (decide (x / 512 = k)) as [->|Hne].
  - rewrite lookup_insert_eq, Hk, Hz. destruct (lookup_zeros (Z.to_nat (x mod 512))) as [-> | ->]; done.
  - by rewrite lookup_insert_ne.
Qed.

Lemma own_insert_frame (own : gmap Z owner) b o c o' :
  own !! b = None → own !! c = Some o' → <[b := o]> own !! c = Some o'.
Proof. intros Hb Hc. rewrite lookup_insert_ne by congruence. done. Qed.

Lemma file_ok_add_direct sec own ino nd bm k b :
  file_ok sec own ino nd bm → own !! b = None → b ≠ 0 → is_u32 b → 0 ≤ k < 15 → bm !! k = None →
  file_ok sec (<[b := OData ino k]> own) ino (set_direct (<[Z.to_nat k := b]> (sfi_direct nd)) nd) (<[k := b]> bm).
Proof.
  intros [F1 F0 F2 [M1 M2 M3 M4] F4 F5 F7] Hno Hnz Hu Hk Hbm. split.
  - destruct F1 as (W1 & W2 & W3 & W4 & W5 & W6 & W7 & W8). split_and!; try done; simpl.
    + by rewrite length_insert.
    + by apply Forall_insert.
  - done.
  - by apply own_insert_frame.
  - split; simpl.
    + intros k' b'. rewrite lookup_insert_Some. intros [[<- <-]|[_ H]]; [split; [lia|done]|by apply M1].
    + intros k' Hk'. destruct (decide (k = k')) as [<-|Hne].
      * rewrite lookup_insert_eq, list_lookup_insert_eq; [done|]. destruct F1 as (_ & _ & _ & -> & _). lia.
      * rewrite lookup_insert_ne, list_lookup_insert_ne by (done || lia). by apply M2.
    + intros Hi k' Hk'. rewrite lookup_insert_ne by lia. by apply M3.
    + intros Hi j Hj. rewrite lookup_insert_ne by lia. by apply M4.
  - intros Hi. apply own_insert_frame; [done|]. by apply F4.
  - intros k' b'. rewrite lookup_insert_Some. intros [[<- <-]|[_ H]]; [apply lookup_insert_eq|].
    apply own_insert_frame; [done|]. by apply F5.
  - done.
Qed.

Lemma file_ok_add_indirect sec own ino nd bm b :
  file_ok sec own ino nd bm → own !! b = None → b ≠ 0 → is_u32 b → sfi_indirect nd = 0 → sec b = zeros →
  file_ok sec (<[b := OInd ino]> own) ino (set_indirect b nd) bm.
Proof.
  intros [F1 F0 F2 [M1 M2 M3 M4] F4 F5 F7] Hno Hnz Hu Hi Hz. split.
  - destruct F1 as (W1 & W2 & W3 & W4 & W5 & W6 & W7 & W8). by split_and!.
  - done.
  - by apply own_insert_frame.
  - split; simpl; try done. intros _ j Hj. rewrite Hz, words_zeros, M3 by (done || lia). done.
  - intros _. apply lookup_insert_eq.
  - intros k' b' H. apply own_insert_frame; [done|]. by apply F5.
  - done.
Qed.

(** An entry of the indirect block. *)
Lemma file_ok_add_entry sec sec' own ino nd bm k b :
  file_ok sec own ino nd bm → own !! b = None → b ≠ 0 → is_u32 b → 15 ≤ k < 143 → bm !! k = None →
  sfi_indirect nd ≠ 0 → length (sec (sfi_indirect nd)) = 512%nat → bytes (sec (sfi_indirect nd)) →
  sec' (sfi_indirect nd) = splice (sec (sfi_indirect nd)) (Z.to_nat (4 * (k - 15))) (be32 b) →
  file_ok sec' (<[b := OData ino k]> own) ino nd (<[k := b]> bm).
Proof.
  intros [F1 F0 F2 [M1 M2 M3 M4] F4 F5 F7] Hno Hnz Hu Hk Hbm Hi Hlen Hby Hsec. split.
  - done.
  - done.
  - by apply own_insert_frame.
  - split; simpl.
    + intros k' b'. rewrite lookup_insert_Some. intros [[<- <-]|[_ H]]; [split; [lia|done]|by apply M1].
    + intros k' Hk'. rewrite lookup_insert_ne by lia. by apply M2.
    + done.
    + intros _ j Hj. rewrite Hsec. replace (Z.to_nat (4 * (k - 15))) with (4 * Z.to_nat (k - 15))%nat by lia.
      rewrite (words_insert 128) by (done || lia). pose proof (words_length 128 _ Hlen) as Hwl.
      destruct (decide (k = 15 + j)) as [->|Hne].
      * replace (15 + j - 15) with j by lia. rewrite lookup_insert_eq, list_lookup_insert_eq by lia. done.
      * rewrite lookup_insert_ne, list_lookup_insert_ne by lia. by apply M4.
  - intros _. apply own_insert_frame; [done|]. by apply F4.
  - intros k' b'. rewrite lookup_insert_Some. intros [[<- <-]|[_ H]]; [apply lookup_insert_eq|].
    apply own_insert_frame; [done|]. by apply F5.
  - done.
Qed.

(** A file with one more block keeps those it has. *)
Lemma has_block_data ino nd nd' bm k b c :
  sfi_indirect nd' = sfi_indirect nd → bm !! k = None → has_block ino nd bm c → has_block ino nd' (<[k := b]> bm) c.
Proof.
  intros Ei Hk [?|[?|[j Hj]]]; [by left|right; left; by rewrite Ei|right; right]. exists j. rewrite lookup_insert_ne; congruence.
Qed.

(** ** sfs_bmap *)

Lemma wpe_getv s p v Q : s_vn s !! p = Some v → Q (inr v) s → wpe (getv p) Q s.
Proof. intros H HQ. unfold wpe, getv. by rewrite H. Qed.

Lemma wpe_upd_inode s p v f Q :
  s_vn s !! p = Some v →
  Q (inr tt) (set_vn (<[p := set_inode (f (sv_i v)) true v]> (s_vn s)) s) → wpe (upd_inode p f) Q s.
Proof. intros H HQ. unfold upd_inode. apply wpe_bind. eapply wpe_getv; [exact H|]. by apply wpe_mod. Qed.

(** Block numbers of owned blocks. *)
Lemma own_u32 s G own b o : fs_inv s G own → own !! b = Some o → is_u32 b.
Proof.
  intros HI Hb. apply (iv_own _ _ _ HI) in Hb as [Hb _]. pose proof (block_range _ _ (iv_ok _ _ _ HI) Hb).
  unfold is_u32, max_blocks in *. lia.
Qed.

Lemma nblocks_u32 s b : fs_ok s → 0 ≤ b < nblocks s → is_u32 b.
Proof. intros Hs Hb. pose proof (block_range _ _ Hs Hb). unfold is_u32, max_blocks in *. lia. Qed.

(** The results of [sfs_bmap] and its parts: still a file system, nothing
    visible has changed. *)
Definition mapped (s : sfs) (G : files) (p ino : Z) (Q : sfs → gmap Z owner → sfs_vnode → gmap Z Z → Prop) (s' : sfs) : Prop :=
  ∃ G' own' v' bm', at_file s' G' own' p ino v' bm' ∧ quiet s G s' G' ∧ Q s' own' v' bm'.

Definition map_error (s : sfs) (doalloc : bool) (bm : gmap Z Z) (k e : Z) : Prop :=
  (e = EINVAL ∧ 143 ≤ k) ∨ (e = ENOSPC ∧ doalloc = true ∧ bm !! k = None) ∨ (e = EIO ∧ ¬ reads_fine s).

Lemma mapped_here s G own p ino v bm (Q : sfs → gmap Z owner → sfs_vnode → gmap Z Z → Prop) :
  at_file s G own p ino v bm → Q s own v bm → mapped s G p ino Q s.
Proof. intros H HQ. exists G, own, v, bm. split; [done|]. split; [apply quiet_refl|done]. Qed.

Lemma alloc_at_file s G own p ino v bm b s' :
  at_file s G own p ino v bm → alloc_step s b s' →
  at_file s' G own p ino v bm ∧ (∀ s2 G2, quiet s' G s2 G2 → referred s2 G2 b → quiet s G s2 G2) ∧ own !! b = None ∧ 0 < b < nblocks s' ∧
  bit (sfs_freemap s') b = true ∧ sect s' b = zeros ∧ nblocks s' = nblocks s.
Proof.
  intros [A1 A2 A3 A4] Hst. destruct (inv_alloc _ _ _ _ _ A1 Hst) as (HI & Hq & _ & Hno & Hb & Hbit & Hz & Evn).
  pose proof (wr_sb _ _ _ _ _ _ _ (Hq 0 0)) as Esb. split; [split; try done; by rewrite Evn|].
  split; [intros s2 G2; by eapply alloc_quiet|].
  split_and!; try done; rewrite ?Esb; lia || done.
Qed.

Lemma bmap_alloc_direct s G own p ino v bm k :
  at_file s G own p ino v bm → 0 ≤ k < 15 → bm !! k = None →
  wpe (block ← sfs_balloc;
       _ ← upd_inode p (λ i, set_direct (<[Z.to_nat k := block]> (sfi_direct i)) i);
       mret block)
    (λ r s', mapped s G p ino (λ s' own' v' bm', match r with
       | inr b => bm' !! k = Some b | inl e => e = ENOSPC ∧ bm' !! k = None end) s') s.
Proof.
  intros Haf Hk Hbm. apply wpe_bind. eapply wpe_mono; [apply sfs_balloc_spec, (iv_ok _ _ _ (af_inv _ _ _ _ _ _ _ Haf))|].
  intros r s1 [(-> & -> & _)|(b & -> & Hst)]; [by eapply mapped_here|].
  destruct (alloc_at_file _ _ _ _ _ _ _ _ _ Haf Hst) as (Haf1 & Hq1 & Hno & Hb & Hbit & Hz & EN).
  pose proof Haf1 as [A1 A2 A3 A4]. apply wpe_bind. eapply wpe_upd_inode; [exact A2|]. apply wpe_ret. subst ino.
  pose proof (iv_ok _ _ _ A1) as Hok1. pose proof (nblocks_u32 _ b Hok1 ltac:(lia)) as Hu.
  set (v' := set_inode _ true v).
  destruct (inv_step s1 G own (set_vn (<[p := v']> (s_vn s1)) s1) (<[b := OData (sv_ino v) k]> own) p v v' bm
    (<[k := b]> bm) 0 []) as [HI2 Hw2]; [done|split; try done; simpl|done..| |].
  { by destruct Hok1. }
  { intros c o. rewrite lookup_insert_Some. intros [[<- <-]|[_ Hc]]; [split; [lia|done]|by apply (iv_own _ _ _ A1 c o)]. }
  { intros c o Hc. right. split; [by apply own_insert_frame|by right]. }
  { apply file_ok_add_direct; try done; [|lia]. by apply (iv_files _ _ _ A1). }
  { by left. }
  { apply lossless_grow; [done|]. intros c. by apply has_block_data. }
  { intros x _. rewrite overlay_nil. by apply fbyte_new. }
  eexists _, _, v', _. split; [split; [exact HI2|simpl; apply lookup_insert_eq|done|apply lookup_insert_eq]|].
  split; [apply Hq1; [by eapply wrote_nil|]|apply lookup_insert_eq].
  right. eexists _, _, _. split; [apply lookup_insert_eq|]. right; right. exists k. apply lookup_insert_eq.
Qed.

Lemma sfs_getindirect_spec s G own p ino v bm doalloc :
  at_file s G own p ino v bm →
  wpe (sfs_getindirect p doalloc) (λ r s', mapped s G p ino (λ s' own' v' bm', bm' = bm ∧ match r with
    | inr None => doalloc = false ∧ sfi_indirect (sv_i v') = 0
    | inr (Some (idblock, idbuf)) =>
        sfi_indirect (sv_i v') = idblock ∧ idblock ≠ 0 ∧ idbuf = sect s' idblock
    | inl e => (e = ENOSPC ∧ doalloc = true ∧ sfi_indirect (sv_i v') = 0) ∨ (e = EIO ∧ ¬ reads_fine s) end) s') s.
Proof.
  intros Haf. pose proof Haf as [A1 A2 A3 A4]. pose proof (iv_ok _ _ _ A1) as Hok. unfold sfs_getindirect.
  apply wpe_bind. eapply wpe_getv; [exact A2|]. destruct (Z.eqb_spec (sfi_indirect (sv_i v)) 0) as [Hi|Hi].
  - destruct doalloc; cbn [andb negb].
    2:{ apply wpe_ret. by eapply mapped_here. }
    apply wpe_bind. eapply wpe_mono; [by apply sfs_balloc_spec|].
    intros r s1 [(-> & -> & _)|(b & -> & Hst)]; [eapply mapped_here; [done|]; split; [done|by left]|].
    destruct (alloc_at_file _ _ _ _ _ _ _ _ _ Haf Hst) as (Haf1 & Hq1 & Hno & Hb & Hbit & Hz & EN).
    pose proof Haf1 as [B1 B2 B3 B4]. apply wpe_bind. eapply wpe_upd_inode; [exact B2|]. apply wpe_ret. subst ino.
    pose proof (iv_ok _ _ _ B1) as Hok1. pose proof (nblocks_u32 _ b Hok1 ltac:(lia)) as Hu.
    set (v' := set_inode _ true v).
    destruct (inv_step s1 G own (set_vn (<[p := v']> (s_vn s1)) s1) (<[b := OInd (sv_ino v)]> own) p v v' bm bm 0 [])
      as [HI2 Hw2]; [done|split; try done; simpl|done..| |].
    { by destruct Hok1. }
    { intros c o. rewrite lookup_insert_Some. intros [[<- <-]|[_ Hc]]; [split; [lia|done]|by apply (iv_own _ _ _ B1 c o)]. }
    { intros c o Hc. right. split; [by apply own_insert_frame|by right]. }
    { apply file_ok_add_indirect; try done; [|lia]. by apply (iv_files _ _ _ B1). }
    { by left. }
    { apply lossless_grow; [done|]. intros c [?|[[? ?]|?]]; [by left|congruence|by right; right]. }
    { intros x _. by rewrite overlay_nil. }
    eexists _, _, v', _. split; [split; [exact HI2|simpl; apply lookup_insert_eq|done|apply lookup_insert_eq]|].
    split; [apply Hq1; [by eapply wrote_nil|]|simpl; split_and!; done || lia].
    right. eexists _, _, _. split; [apply lookup_insert_eq|]. right; left. split; [lia|done].
  - cbn [andb]. apply wpe_bind. pose proof (af_ok _ _ _ _ _ _ _ Haf) as Hf.
    pose proof (fl_ind _ _ _ _ _ Hf Hi) as Hown. destruct (iv_own _ _ _ A1 _ _ Hown) as [Hr _].
    eapply wpe_mono; [apply sfs_rblock_spec; [done|done|apply zeros_ok..]|].
    intros r s1 [Hst Hcase]. destruct (inv_read _ _ _ _ A1 Hst) as [HI1 Hq1].
    assert (at_file s1 G own p ino v bm) as Haf1 by (destruct Hst as (d & -> & _); by split).
    assert (∀ b, sect s1 b = sect s b) as Hsec by (by destruct Hst as (d & -> & [_ D2 _ _ _])).
    destruct Hcase as [-> |[-> Hne]].
    + apply wpe_ret. exists G, own, v, bm. split_and!; try done.
    + exists G, own, v, bm. split_and!; try done. by right.
Qed.

Lemma bmap_alloc_entry s G own p ino v bm k :
  at_file s G own p ino v bm → sfi_indirect (sv_i v) ≠ 0 → 15 ≤ k < 143 → bm !! k = None →
  wpe (block ← sfs_balloc;
       _ ← sfs_wblock (splice (sect s (sfi_indirect (sv_i v))) (Z.to_nat (4 * (k - 15))) (be32 block))
             (sfi_indirect (sv_i v));
       mret block)
    (λ r s', mapped s G p ino (λ s' own' v' bm', match r with
       | inr b => bm' !! k = Some b | inl e => e = ENOSPC ∧ bm' !! k = None end) s') s.
Proof.
  intros Haf Hi Hk Hbm. apply wpe_bind. eapply wpe_mono; [apply sfs_balloc_spec, (iv_ok _ _ _ (af_inv _ _ _ _ _ _ _ Haf))|].
  intros r s1 [(-> & -> & _)|(b & -> & Hst)]; [by eapply mapped_here|].
  destruct (alloc_at_file _ _ _ _ _ _ _ _ _ Haf Hst) as (Haf1 & Hq1 & Hno & Hb & Hbit & Hz & EN).
  pose proof Haf1 as [A1 A2 A3 A4]. pose proof (af_ok _ _ _ _ _ _ _ Haf1) as Hf1.
  pose proof (iv_ok _ _ _ A1) as Hok1. pose proof (nblocks_u32 _ b Hok1 ltac:(lia)) as Hu.
  pose proof (fl_ind _ _ _ _ _ Hf1 Hi) as Hown. set (ib := sfi_indirect (sv_i v)) in *.
  destruct (iv_own _ _ _ A1 _ _ Hown) as [Hib _].
  assert (sect s ib = sect s1 ib) as Esec.
  { destruct Hst as (d & fm & -> & _ & _ & _ & _ & _ & [_ D2 _ _ _]). simpl. rewrite D2, decide_False; [done|].
    intros E. rewrite E in Hown. congruence. }
  destruct (do_sect _ (fo_disk _ Hok1) ib) as [Hlen Hby]. rewrite Esec.
  apply wpe_bind. eapply wpe_mono.
  { apply (sfs_wblock_spec s1); [done|done| |].
    - rewrite splice_length; [done|]. rewrite be32_length. lia.
    - apply splice_bytes; [done|apply be32_bytes]. }
  intros r s2 [-> Hw]. apply wpe_ret. pose proof (write_step_fs_ok _ _ _ _ Hok1 Hw) as Hok2.
  destruct Hw as (d & -> & [D1 D2 D3 D4 D5]). subst ino.
  assert (ib ≠ sv_ino v) as Hine by (intros E; rewrite E, (fl_own _ _ _ _ _ Hf1) in Hown; done).
  destruct (inv_step s1 G own (set_dev d s1) (<[b := OData (sv_ino v) k]> own) p v v bm (<[k := b]> bm) 0 [])
    as [HI2 Hw2]; [done|split; try done; simpl|done..| |].
  { by rewrite insert_id. }
  { intros c o. rewrite lookup_insert_Some. intros [[<- <-]|[_ Hc]]; [split; [lia|done]|by apply (iv_own _ _ _ A1 c o)]. }
  { intros c o Hc. destruct (decide (c = ib)) as [->|Hne]; [left; rewrite Hown in Hc; by injection Hc as <-|right].
    split; [by apply own_insert_frame|]. right. rewrite D2, decide_False; done. }
  { eapply (file_ok_add_entry (sect s1)); try done; [lia|]. fold ib. by rewrite D2, decide_True. }
  { rewrite D2, decide_False by done. by apply (af_dirty s1 G own p _ v bm). }
  { apply lossless_grow; [done|]. intros c. by apply has_block_data. }
  { intros x _. rewrite overlay_nil. assert (b ≠ ib) as Hbi by congruence.
    rewrite fbyte_new; [|done|by rewrite D2, decide_False].
    apply fbyte_frame. intros k' c Hc. rewrite D2, decide_False; [done|]. intros ->.
    pose proof (fl_data _ _ _ _ _ Hf1 _ _ Hc). congruence. }
  eexists _, _, v, _. split; [split; [exact HI2|done|done|apply lookup_insert_eq]|].
  split; [apply Hq1; [by eapply wrote_nil|]|apply lookup_insert_eq].
  right. eexists _, _, _. split; [apply lookup_insert_eq|]. right; right. exists k. apply lookup_insert_eq.
Qed.

Lemma mapped_trans s G p ino s1 G1 Q s' :
  quiet s G s1 G1 → mapped s1 G1 p ino Q s' → mapped s G p ino Q s'.
Proof. intros Hq (G' & own' & v' & bm' & H1 & H2 & H3). exists G', own', v', bm'. split; [done|]. split; [by eapply quiet_trans|done]. Qed.

Lemma mapped_mono s G p ino (Q Q' : sfs → gmap Z owner → sfs_vnode → gmap Z Z → Prop) s' :
  mapped s G p ino Q s' → (∀ own' v' bm', Q s' own' v' bm' → Q' s' own' v' bm') → mapped s G p ino Q' s'.
Proof. intros (G' & own' & v' & bm' & H1 & H2 & H3) H. exists G', own', v', bm'. auto. Qed.

(** [sfs_checkused] accepts what a block map leads to. *)
Lemma checkused_map s G own p ino v bm k Q :
  at_file s G own p ino v bm → Q (inr tt) s → wpe (sfs_checkused (default 0 (bm !! k))) Q s.
Proof.
  intros Haf HQ. eapply wpe_mono; [apply sfs_checkused_spec; [apply (iv_ok _ _ _ (af_inv _ _ _ _ _ _ _ Haf))|]|].
  - destruct (bm !! k) as [b|] eqn:E; [right|by left]. simpl.
    apply (iv_own _ _ _ (af_inv _ _ _ _ _ _ _ Haf) b (OData ino k)).
    by apply (fl_data _ _ _ _ _ (af_ok _ _ _ _ _ _ _ Haf)).
  - intros r s' [-> ->]. done.
Qed.

(** The block found is the one of the block map; with [doalloc] there is one. *)
Definition bmap_post (s : sfs) (G : files) (p ino k : Z) (doalloc : bool) (r : Z + Z) (s' : sfs) : Prop :=
  mapped s G p ino (λ s' own' v' bm', match r with
    | inr b => b = default 0 (bm' !! k) ∧ (doalloc = true → is_Some (bm' !! k)) ∧ k < 143
    | inl e => map_error s doalloc bm' k e end) s'.

Lemma quiet_reads s G s' G' : quiet s G s' G' → ¬ reads_fine s' → ¬ reads_fine s.
Proof. intros Hq Hn H. apply Hn. by apply (wr_r _ _ _ _ _ _ _ (Hq 0 0)). Qed.

(** The end of [sfs_bmap], once the entry for the block has been read. *)
Lemma bmap_finish s0 G0 s G own p ino v bm k doalloc (m : EM sfs Z) :
  quiet s0 G0 s G → at_file s G own p ino v bm → 0 ≤ k < 143 →
  (bm !! k = None → wpe m (λ r s', mapped s G p ino (λ s' own' v' bm', match r with
       | inr b => bm' !! k = Some b | inl e => e = ENOSPC ∧ bm' !! k = None end) s') s) →
  wpe (block ← (if (default 0 (bm !! k) =? 0) && doalloc then m else mret (default 0 (bm !! k)));
       _ ← sfs_checkused block; mret block) (bmap_post s0 G0 p ino k doalloc) s.
Proof.
  intros Hq Haf Hk Hm. apply wpe_bind.
  assert ((default 0 (bm !! k) =? 0) = true ↔ bm !! k = None) as Hz.
  { destruct (bm !! k) as [b|] eqn:E; simpl; [|done]. rewrite Z.eqb_eq. split; [|done]. intros ->.
    apply (im_keys _ _ _ (fl_map _ _ _ _ _ (af_ok _ _ _ _ _ _ _ Haf))) in E as [_ E]. done. }
  destruct (default 0 (bm !! k) =? 0) eqn:E; [destruct doalloc|]; cbn [andb].
  - eapply wpe_mono; [apply Hm; by apply Hz|]. intros [e|b] s1 Hmap.
    + eapply mapped_trans; [exact Hq|]. eapply mapped_mono; [exact Hmap|]. intros own' v' bm' [-> ?]. right; left. done.
    + destruct Hmap as (G1 & own1 & v1 & bm1 & Haf1 & Hq1 & Hb). apply wpe_bind.
      replace b with (default 0 (bm1 !! k)) by (by rewrite Hb). eapply checkused_map; [exact Haf1|]. apply wpe_ret.
      exists G1, own1, v1, bm1. split; [done|]. split; [by eapply quiet_trans|]. split; [done|]. rewrite Hb. split; [done|lia].
  - apply wpe_ret, wpe_bind. eapply checkused_map; [exact Haf|]. apply wpe_ret.
    exists G, own, v, bm. split_and!; done || lia.
  - apply wpe_ret, wpe_bind. eapply checkused_map; [exact Haf|]. apply wpe_ret.
    exists G, own, v, bm. split_and!; try done; [|lia]. intros _. destruct (bm !! k) eqn:Eb; [done|].
    exfalso. assert (false = true) by (by apply Hz). done.
Qed.

Lemma sfs_bmap_spec s G own p ino v bm k doalloc :
  at_file s G own p ino v bm → 0 ≤ k →
  wpe (sfs_bmap p k doalloc) (bmap_post s G p ino k doalloc) s.
Proof.
  intros Haf Hk. pose proof Haf as [A1 A2 A3 A4]. pose proof (af_ok _ _ _ _ _ _ _ Haf) as Hf.
  unfold sfs_bmap, SFS_NDIRECT, SFS_DBPERIDB. apply wpe_bind. eapply wpe_getv; [exact A2|].
  destruct (Z.ltb_spec k 15) as [Hd|Hd].
  - apply wpe_bind. eapply wpe_lift; [apply load_lookup; [lia|apply (im_direct _ _ _ (fl_map _ _ _ _ _ Hf)); lia]|].
    eapply bmap_finish; [apply quiet_refl|exact Haf|lia|]. intros Hn. by apply (bmap_alloc_direct s G own p ino v bm).
  - cbv zeta. destruct (Z.ltb_spec 0 ((k - 15) / 128)) as [Hbig|Hsmall].
    { apply wpe_raise. eapply mapped_here; [exact Haf|]. left. split; [done|].
      assert (128 ≤ k - 15); [|lia]. destruct (Z.lt_ge_cases (k - 15) 128); [|done].
      rewrite Z.div_small in Hbig; lia. }
    assert (k < 143) as Hk143.
    { destruct (Z.lt_ge_cases k 143); [done|]. exfalso.
      assert (1 ≤ (k - 15) / 128) by (apply Z.div_le_lower_bound; lia). lia. }
    rewrite Z.mod_small by lia. apply wpe_bind. eapply wpe_mono; [by eapply sfs_getindirect_spec|].
    intros [e|[[ib idbuf]|]] s1 (G1 & own1 & v1 & bm1 & Haf1 & Hq1 & -> & Hres).
    + exists G1, own1, v1, bm. split; [done|]. split; [done|]. right. destruct Hres as [(-> & Hd' & Hi)|?]; [left|by right].
      split; [done|]. split; [done|]. apply (im_noind _ _ _ (fl_map _ _ _ _ _ (af_ok _ _ _ _ _ _ _ Haf1)) Hi). lia.
    + destruct Hres as (Hi & Hnz & ->). subst ib. pose proof (af_ok _ _ _ _ _ _ _ Haf1) as Hf1.
      apply wpe_bind. eapply wpe_lift.
      { apply load_lookup; [lia|]. by apply (im_ind _ _ _ (fl_map _ _ _ _ _ Hf1)); [|lia]. }
      replace (15 + (k - 15)) with k by lia.
      eapply (bmap_finish s G s1 G1); [exact Hq1|exact Haf1|lia|]. intros Hn.
      by apply (bmap_alloc_entry s1 G1 own1 p ino v1 bm).
    + destruct Hres as [-> Hi]. apply wpe_ret. exists G1, own1, v1, bm. split; [done|]. split; [done|].
      rewrite (im_noind _ _ _ (fl_map _ _ _ _ _ (af_ok _ _ _ _ _ _ _ Haf1)) Hi) by lia. done.
Qed.
