(* ===== verification/SfsIo.v ===== *)
(** File I/O: reading and writing any range of a file, by partial and whole
    blocks, moves the file's bytes through the uio and nothing else. *)

From Stdlib Require Import ZArith Lia.
From stdpp Require Import base numbers list option gmap.
From S2P Require Import Prelude Array Bitmap Errm Uio UioProofs Lhd LhdProofs SfsDisk Sfs SfsBlock SfsInv SfsBmap.

Open Scope Z_scope.

(** The largest file: 15 direct blocks and 128 of the indirect block. *)
Definition max_file : Z := 73216.

(** ** What an I/O operation did *)

(** The block at [off] holds only zeros. *)
Definition hole (f : Z → Z) (off : Z) : Prop := ∀ x, 0 ≤ x → x / 512 = off / 512 → f x = 0.

(** A transfer within one block runs out of space only on a hole. *)
Definition io_error (s : sfs) (f : Z → Z) (u : uio) (n e : Z) : Prop :=
  (e = EINVAL ∧ max_file < uio_offset u + n) ∨
  (e = ENOSPC ∧ is_read u = false ∧ (uio_offset u mod 512 + n ≤ 512 → hole f (uio_offset u))) ∨
  (e = EIO ∧ ¬ reads_fine s).

(** An error stops a transfer of [n] bytes before it starts or at the end of
    a block. *)
Definition stopped (u : uio) (n : Z) (d : list Z) : Prop :=
  d = [] ∨ (uio_offset u + Z.of_nat (length d)) mod 512 = 0 ∧ Z.of_nat (length d) < n.

(** Bytes [d] went through the uio, at most [n] of them, from or to the file
    at the uio's offset; all [n] when it succeeded. *)
Definition io_post (p ino n : Z) (s : sfs) (G : files) (bm : gmap Z Z) (u : uio) (r : Z + unit) (x : sfs * uio) : Prop :=
  let '(s', u') := x in
  ∃ G' own' v' bm' d u1, at_file s' G' own' p ino v' bm' ∧ xfer u d u1 ∧ Z.of_nat (length d) ≤ n ∧
    (if is_read u
     then quiet s G s' G' ∧ ∀ i y, d !! i = Some y → y = fbyte (sect s) bm (uio_offset u + Z.of_nat i)
     else wrote ino (uio_offset u) d s G s' G') ∧
    match r with
    | inr _ => Z.of_nat (length d) = n ∧ u' = u1
    | inl e => (u' = u1 ∧ io_error s (fbyte (sect s) bm) u n e ∧ stopped u n d) ∨ (e = EFAULT ∧ ufault u1 u')
    end.

(** Whatever it was, the file had [d] written. *)
Lemma io_wrote (b : bool) ino off d s G s' G' (P : Prop) :
  (if b then quiet s G s' G' ∧ P else wrote ino off d s G s' G') →
  wrote ino off (if b then [] else d) s G s' G'.
Proof. destruct b; [|done]. intros [H _]. apply H. Qed.

(** After an aligned first part, the second one is within the first block
    only when the first part was empty. *)
Lemma io_second_hole p ino n1 n2 s G own v bm s1 G1 own1 v1 bm1 off :
  at_file s G own p ino v bm → at_file s1 G1 own1 p ino v1 bm1 → 0 ≤ n1 → 0 < n2 → 0 ≤ off → (off + n1) mod 512 = 0 →
  (∃ d, Z.of_nat (length d) = n1 ∧ wrote ino off d s G s1 G1) →
  ((off + n1) mod 512 + n2 ≤ 512 → hole (fbyte (sect s1) bm1) (off + n1)) →
  off mod 512 + (n1 + n2) ≤ 512 → hole (fbyte (sect s) bm) off.
Proof.
  intros Haf Haf1 Hn1 Hn2 Ho Hal (d & Hd & W) Hh Hle.
  assert (n1 = 0) as ->.
  { pose proof (Z.div_mod (off + n1) 512 ltac:(lia)). pose proof (Z.div_mod off 512 ltac:(lia)).
    pose proof (Z.mod_pos_bound off 512 ltac:(lia)). nia. }
  rewrite Z.add_0_r in *. intros x Hx Ex. specialize (Hh ltac:(lia) x Hx Ex).
  destruct (wr_file _ _ _ _ _ _ _ W ino _ _ _ _ (af_file _ _ _ _ _ _ _ Haf) (af_file _ _ _ _ _ _ _ Haf1)) as [_ Hf].
  destruct d; [|simpl in Hd; lia]. rewrite Hf, decide_True, overlay_nil in Hh by done. done.
Qed.

(** An operation and another one after it. *)
Lemma io_seq p ino n1 n2 s G own v bm u m1 m2 :
  at_file s G own p ino v bm → uio_ok u → 0 ≤ n1 → 0 ≤ n2 → (uio_offset u + n1) mod 512 = 0 →
  (n2 = 0 → ∀ s1 u1, uio_resid u1 = uio_resid u - n1 → wpe m2 (λ r x, r = inr tt ∧ x = (s1, u1)) (s1, u1)) →
  wpe m1 (io_post p ino n1 s G bm u) (s, u) →
  (∀ s1 G1 own1 v1 bm1 u1, at_file s1 G1 own1 p ino v1 bm1 → uio_ok u1 → is_read u1 = is_read u →
     uio_offset u1 = uio_offset u + n1 → uio_resid u1 = uio_resid u - n1 →
     wpe m2 (io_post p ino n2 s1 G1 bm1 u1) (s1, u1)) →
  wpe (_ ← m1; m2) (io_post p ino (n1 + n2) s G bm u) (s, u).
Proof.
  intros Haf Hu Hn1 Hn2 Hal H0 H1 H2. apply wpe_bind. eapply wpe_mono; [exact H1|].
  intros [e|[]] [s1 u1'] (G1 & own1 & v1 & bm1 & d1 & u1 & Haf1 & Hx1 & Hl1 & Hw1 & Hr1).
  - exists G1, own1, v1, bm1, d1, u1. split; [done|]. split; [done|]. split; [lia|]. split; [done|].
    destruct Hr1 as [(-> & He & Hst)|?]; [left|by right]. split; [done|]. split.
    + unfold io_error in *. destruct He as [[-> ?]|[(-> & ? & Hh)|?]]; [left; lia|right; left|tauto]. split; [done|]. split; [done|].
      intros Hle. apply Hh. lia.
    + destruct Hst as [?|[? ?]]; [by left|right; split; [done|lia]].
  - destruct Hr1 as [Hl1' ->]. destruct (xfer_fields _ _ _ Hx1) as (_ & Er & Eo & Ere & _).
    destruct (decide (n2 = 0)) as [Hz|Hz].
    { eapply wpe_mono; [apply (H0 Hz); lia|]. intros r x [-> ->]. exists G1, own1, v1, bm1, d1, u1.
      split; [done|]. split; [done|]. split; [lia|]. split; [done|]. split; [lia|done]. }
    eapply wpe_mono.
    { apply (H2 s1 G1 own1 v1 bm1 u1); [done|by eapply xfer_ok|done|lia|lia]. }
    intros r [s2 u2'] (G2 & own2 & v2 & bm2 & d2 & u2 & Haf2 & Hx2 & Hl2 & Hw2 & Hr2).
    exists G2, own2, v2, bm2, (d1 ++ d2), u2. split; [done|]. split; [by eapply xfer_app|].
    split; [rewrite length_app; lia|]. rewrite Er in Hw2. split.
    + pose proof (io_wrote _ _ _ _ _ _ _ _ _ Hw1) as W1. destruct (is_read u).
      * destruct Hw1 as [Hq1 Hd1], Hw2 as [Hq2 Hd2]. split; [by eapply quiet_trans|].
        intros i y Hi. apply lookup_app_Some in Hi as [Hi|[Hge Hi]]; [by apply Hd1|]. apply Hd2 in Hi as ->.
        destruct (wr_file _ _ _ _ _ _ _ W1 ino _ _ _ _ (af_file _ _ _ _ _ _ _ Haf) (af_file _ _ _ _ _ _ _ Haf1)) as [_ Hf].
        rewrite Hf, decide_True, overlay_nil by (done || pose proof (uo_off _ Hu); lia). f_equal. lia.
      * eapply wrote_app; [done|]. by rewrite <- Eo.
    + destruct r as [e|[]]; [|destruct Hr2 as [? ->]; split; [rewrite length_app; lia|done]].
      destruct Hr2 as [(-> & He & Hst)|?]; [left|by right]. split; [done|]. split.
      2:{ right. rewrite length_app, Nat2Z.inj_add, Hl1', Z.add_assoc. destruct Hst as [->|[Hst Hlt]].
          - simpl. rewrite Z.add_0_r. split; [done|lia].
          - rewrite Eo, Hl1' in Hst. split; [done|lia]. }
      pose proof (io_wrote _ _ _ _ _ _ _ _ _ Hw1) as W1. rewrite Hl1' in Eo.
      unfold io_error in *. rewrite Er, Eo in He. destruct He as [[-> ?]|[(-> & Hr & Hh)|[-> Hn]]]; [left; lia|right; left|right; right].
      * split; [done|]. split; [done|]. rewrite Hr in W1. apply (io_second_hole p ino n1 n2 s G own v bm s1 G1 own1 v1 bm1); [done|done|done|lia|exact (uo_off _ Hu)|done|by exists d1|exact Hh].
      * split; [done|]. intros Hf. apply Hn. by apply (wr_r _ _ _ _ _ _ _ W1).
Qed.

Lemma io_done p ino s G own v bm u :
  at_file s G own p ino v bm → uio_ok u → wpe (mret tt) (io_post p ino 0 s G bm u) (s, u).
Proof.
  intros Haf Hu. apply wpe_ret. exists G, own, v, bm, [], u. split; [done|]. split; [by apply xfer_nil|].
  split; [done|]. split; [|done]. destruct (is_read u); [|apply quiet_refl]. split; [apply quiet_refl|done].
Qed.

(** An operation that failed before it moved anything. *)
Lemma io_fail p ino n s G bm u e s' G' own' v' bm' :
  uio_ok u → 0 ≤ n → at_file s' G' own' p ino v' bm' → quiet s G s' G' → io_error s (fbyte (sect s) bm) u n e →
  io_post p ino n s G bm u (inl e) (s', u).
Proof.
  intros Hu Hn Haf Hq He. exists G', own', v', bm', [], u. split; [done|]. split; [by apply xfer_nil|].
  split; [simpl; lia|]. split; [|left; split; [done|]; split; [done|by left]]. destruct (is_read u); [|apply Hq]. by split.
Qed.

(** ** The bytes of a block *)

(** The contents of block [k] of a file. *)
Definition blk_of (sec : Z → list Z) (bm : gmap Z Z) (k : Z) : list Z :=
  match bm !! k with Some b => sec b | None => zeros end.

Lemma fbyte_blk sec bm k y :
  0 ≤ y < 512 → fbyte sec bm (k * 512 + y) = default 0 (blk_of sec bm k !! Z.to_nat y).
Proof.
  intros Hy. unfold fbyte, blk_of. rewrite Z.div_add_l, Z.div_small, Z.add_0_r by lia.
  rewrite Z.add_comm, Z.mod_add, Z.mod_small by lia. destruct (bm !! k); [done|].
  destruct (lookup_zeros (Z.to_nat y)) as [-> | ->]; done.
Qed.

Lemma blk_of_ok s bm k : fs_ok s → length (blk_of (sect s) bm k) = 512%nat ∧ bytes (blk_of (sect s) bm k).
Proof. intros Hs. unfold blk_of. destruct (bm !! k); [apply (do_sect _ (fo_disk _ Hs))|apply zeros_ok]. Qed.

(** Part of a block of a file. *)
Lemma blk_bytes s bm k skip len i y :
  fs_ok s → 0 ≤ skip → 0 ≤ len → skip + len ≤ 512 →
  take (Z.to_nat len) (drop (Z.to_nat skip) (blk_of (sect s) bm k)) !! i = Some y →
  y = fbyte (sect s) bm (k * 512 + skip + Z.of_nat i).
Proof.
  intros Hs H1 H2 H3 Hy. destruct (blk_of_ok s bm k Hs) as [Hl _].
  assert (i < Z.to_nat len)%nat as Hi.
  { apply lookup_lt_Some in Hy. rewrite length_take in Hy. lia. }
  rewrite lookup_take_lt, lookup_drop in Hy by done. rewrite <- Z.add_assoc, fbyte_blk by lia.
  replace (Z.to_nat (skip + Z.of_nat i)) with (Z.to_nat skip + i)%nat by lia. by rewrite Hy.
Qed.

(** Writing into a block of a file. *)
Lemma fbyte_splice sec sec' own ino nd bm k b skip d x :
  file_ok sec own ino nd bm → bm !! k = Some b → length (sec b) = 512%nat →
  0 ≤ skip → skip + Z.of_nat (length d) ≤ 512 → sec' b = splice (sec b) (Z.to_nat skip) d →
  (∀ c, c ≠ b → sec' c = sec c) → 0 ≤ x →
  fbyte sec' bm x = overlay (fbyte sec bm) (k * 512 + skip) d x.
Proof.
  intros Hf Hb Hlen Hsk Hd Hsec Hoth Hx. pose proof (Z.div_mod x 512 ltac:(lia)) as Hdm.
  pose proof (Z.mod_pos_bound x 512 ltac:(lia)) as Hmb. unfold overlay.
  destruct (decide (x / 512 = k)) as [Hk|Hk].
  - unfold fbyte. rewrite Hk, Hb, Hsec. case_decide as Hin.
    + rewrite splice_lookup_in by lia. f_equal. f_equal. lia.
    + rewrite splice_lookup_ne by lia. done.
  - rewrite decide_False by lia. unfold fbyte. destruct (bm !! (x / 512)) as [c|] eqn:Hc; [|done].
    rewrite Hoth; [done|]. intros ->. pose proof (fl_data _ _ _ _ _ Hf _ _ Hb). pose proof (fl_data _ _ _ _ _ Hf _ _ Hc).
    congruence.
Qed.

(** The whole step: a data block of a loaded file is overwritten. *)
Lemma inv_write_block s G own p ino v bm k b skip d s' :
  at_file s G own p ino v bm → bm !! k = Some b → 0 ≤ skip → skip + Z.of_nat (length d) ≤ 512 →
  write_step s b (splice (sect s b) (Z.to_nat skip) d) s' →
  ∃ G' own' bm', at_file s' G' own' p ino v bm' ∧ wrote ino (k * 512 + skip) d s G s' G'.
Proof.
  intros Haf Hb Hsk Hd Hw. pose proof Haf as [A1 A2 A3 A4]. pose proof (af_ok _ _ _ _ _ _ _ Haf) as Hf.
  pose proof (write_step_fs_ok _ _ _ _ (iv_ok _ _ _ A1) Hw) as Hok'. destruct Hw as (dd & -> & [D1 D2 D3 D4 D5]).
  subst ino. pose proof (fl_data _ _ _ _ _ Hf _ _ Hb) as Hown.
  assert (b ≠ sv_ino v) as Hbi by (intros E; rewrite E, (fl_own _ _ _ _ _ Hf) in Hown; done).
  destruct (do_sect _ (fo_disk _ (iv_ok _ _ _ A1)) b) as [Hlen _].
  destruct (inv_step s G own (set_dev dd s) own p v v bm bm (k * 512 + skip) d) as [HI' Hw']; [done|split; try done; simpl|done..| |].
  { by rewrite insert_id. }
  { apply (iv_own _ _ _ A1). }
  { intros c o Hc. destruct (decide (c = b)) as [->|Hne]; [left; rewrite Hown in Hc; by injection Hc as <-|right].
    split; [done|]. right. by rewrite D2, decide_False. }
  { apply (file_ok_sect (sect s)); [done|]. intros c Hc. rewrite D2, decide_False by congruence. done. }
  { rewrite D2, decide_False by done. by apply (af_dirty s G own p _ v bm). }
  { intros x Hx. apply (fbyte_splice (sect s) _ own (sv_ino v) (sv_i v) bm k b); try done.
    - by rewrite D2, decide_True.
    - intros c Hc. by rewrite D2, decide_False. }
  eexists _, own, bm. split; [|exact Hw']. split; [exact HI'|done|done|apply lookup_insert_eq].
Qed.

(** ** Partial blocks *)

(** Getting the block: what is at that place of the file. *)
Lemma getblock_spec p ino s G own v bm b k :
  at_file s G own p ino v bm → b = default 0 (bm !! k) → b ≠ 0 →
  wpe (sfs_rblock zeros b) (λ r s', at_file s' G own p ino v bm ∧ quiet s G s' G ∧ (∀ c, sect s' c = sect s c) ∧
    (r = inr (sect s b) ∨ r = inl EIO ∧ ¬ reads_fine s)) s.
Proof.
  intros Haf -> Hnz. pose proof Haf as [A1 A2 A3 A4]. destruct (bm !! k) as [b|] eqn:Hb; [|done]. simpl.
  pose proof (fl_data _ _ _ _ _ (af_ok _ _ _ _ _ _ _ Haf) _ _ Hb) as Hown.
  eapply wpe_mono; [apply sfs_rblock_spec; [apply A1|apply (iv_own _ _ _ A1 _ _ Hown)|apply zeros_ok..]|].
  intros r s' [Hst Hr]. destruct (inv_read _ _ _ _ A1 Hst) as [HI' Hq].
  assert (at_file s' G own p ino v bm) as Haf' by (destruct Hst as (d & -> & _); by split).
  split; [done|]. split; [done|]. split; [|done]. by destruct Hst as (d & -> & [_ D2 _ _ _]).
Qed.

Lemma quiet_fbyte s G own p ino v bm s' G' own' v' bm' x :
  at_file s G own p ino v bm → at_file s' G' own' p ino v' bm' → quiet s G s' G' → 0 ≤ x →
  fbyte (sect s') bm' x = fbyte (sect s) bm x.
Proof.
  intros Haf Haf' Hq Hx. destruct (wr_file _ _ _ _ _ _ _ (Hq ino 0) ino _ _ _ _ (af_file _ _ _ _ _ _ _ Haf) (af_file _ _ _ _ _ _ _ Haf')) as [_ Hf].
  rewrite Hf, decide_True, overlay_nil by done. done.
Qed.

(** A block that still has no place is a hole. *)
Lemma quiet_hole s G own p ino v bm s' G' own' v' bm' off :
  at_file s G own p ino v bm → at_file s' G' own' p ino v' bm' → quiet s G s' G' → bm' !! (off / 512) = None →
  hole (fbyte (sect s) bm) off.
Proof.
  intros Haf Haf' Hq Hno x Hx Ex. rewrite <- (quiet_fbyte s G own p ino v bm s' G' own' v' bm') by done.
  unfold fbyte. by rewrite Ex, Hno.
Qed.

(** The transfer and the write-back, with the block in [iobuf]. *)
Lemma partial_move p ino s0 G0 bm0 v0 own0 s G own v bm u k skip len :
  at_file s0 G0 own0 p ino v0 bm0 → at_file s G own p ino v bm → quiet s0 G0 s G → uio_ok u →
  0 ≤ skip → 0 ≤ len ≤ uio_resid u → skip + len ≤ 512 → uio_offset u = k * 512 + skip →
  (is_read u = false → is_Some (bm !! k)) →
  wpe (iobuf ← onsnd (uiomove (blk_of (sect s) bm k) skip len);
       if is_read u then mret tt else onfst (sfs_wblock iobuf (default 0 (bm !! k))))
    (io_post p ino len s0 G0 bm0 u) (s, u).
Proof.
  intros Haf0 Haf Hq Hu Hsk Hlen Hsum Hoff Hal. pose proof Haf as [A1 A2 A3 A4]. pose proof (iv_ok _ _ _ A1) as Hok.
  destruct (blk_of_ok s bm k Hok) as [Hbl Hbb]. apply wpe_bind, wpe_onsnd. destruct (is_read u) eqn:Hr.
  - eapply wpe_mono; [apply uiomove_read_spec; try done; lia|]. intros r u' [[-> Hx]|[-> Hf]].
    + apply wpe_ret. exists G, own, v, bm. eexists. exists u'. split; [done|]. split; [exact Hx|].
      assert (Z.of_nat (length (take (Z.to_nat len) (drop (Z.to_nat skip) (blk_of (sect s) bm k)))) = len) as HL.
      { apply bget_length; lia. }
      split; [lia|]. rewrite Hr. split; [|split; [done|done]]. split; [done|]. intros i y Hi.
      apply blk_bytes in Hi; [|done|lia|lia|lia]. rewrite Hi, <- Hoff.
      eapply quiet_fbyte; try done. pose proof (uo_off _ Hu). lia.
    + exists G, own, v, bm, [], u. split; [done|]. split; [by apply xfer_nil|]. split; [simpl; lia|]. rewrite Hr.
      split; [by split|]. right. done.
  - destruct (Hal eq_refl) as [b Hb]. rewrite Hb. simpl default.
    assert (blk_of (sect s) bm k = sect s b) as Eblk by (unfold blk_of; by rewrite Hb). rewrite Eblk in *.
    eapply wpe_mono; [apply uiomove_write_spec; try done; lia|]. intros r u' [(d & Hd & -> & Hx)|[-> Hf]].
    + apply wpe_onfst. pose proof (fl_data _ _ _ _ _ (af_ok _ _ _ _ _ _ _ Haf) _ _ Hb) as Hown.
      eapply wpe_mono.
      { apply sfs_wblock_spec; [done|apply (iv_own _ _ _ A1 _ _ Hown)| |].
        - rewrite splice_length; lia.
        - apply splice_bytes; [done|]. by destruct Hx. }
      intros r s' [-> Hw]. assert (skip + Z.of_nat (length d) ≤ 512) as Hsd by lia.
      destruct (inv_write_block _ _ _ _ _ _ _ _ _ _ _ _ Haf Hb Hsk Hsd Hw) as (G' & own' & bm' & Haf' & Hwr).
      exists G', own', v, bm', d, u'. split; [done|]. split; [done|]. split; [lia|]. rewrite Hr, Hoff.
      split; [by eapply quiet_wrote|]. split; [lia|done].
    + exists G, own, v, bm, [], u. split; [done|]. split; [by apply xfer_nil|]. split; [simpl; lia|]. rewrite Hr.
      split; [apply Hq|]. right. done.
Qed.

Lemma fileblock_eq u k skip :
  uio_ok u → 0 ≤ skip < 512 → uio_offset u = k * 512 + skip →
  u32 (Z.quot (uio_offset u) 512) = k ∧ 0 ≤ k < 4194304.
Proof.
  intros Hu Hsk Ho. pose proof (uo_off _ Hu). pose proof (uo_offend _ Hu). pose proof (uo_len _ Hu).
  assert (0 ≤ k) by nia. assert (k < 4194304) by lia.
  rewrite Z.quot_div_nonneg by lia. rewrite Ho, Z.div_add_l, Z.div_small, Z.add_0_r by lia.
  rewrite u32_id by (unfold is_u32; lia). done.
Qed.

Lemma sfs_partialio_spec p ino s G own v bm u k skip len :
  at_file s G own p ino v bm → uio_ok u → 0 ≤ skip < 512 → 0 ≤ len ≤ uio_resid u → skip + len ≤ 512 →
  uio_offset u = k * 512 + skip → (len = 0 → k < 143) →
  wpe (sfs_partialio p skip len) (io_post p ino len s G bm u) (s, u).
Proof.
  intros Haf Hu Hsk Hlen Hsum Hoff Hzero. destruct (fileblock_eq u k skip Hu Hsk Hoff) as [Ek Hk].
  unfold sfs_partialio, SFS_BLOCKSIZE. estep. cbv beta iota. rewrite Ek. apply wpe_bind, wpe_assert.
  { rewrite u32_id by (unfold is_u32; lia). lia. }
  apply wpe_bind, wpe_onfst. eapply wpe_mono; [eapply sfs_bmap_spec; [exact Haf|lia]|].
  intros [e|b] s1 (G1 & own1 & v1 & bm1 & Haf1 & Hq1 & Hres).
  - eapply io_fail; [done|lia|exact Haf1|done|]. unfold io_error, max_file. destruct Hres as [[-> Hge]|[(-> & Hd & Hno)|[-> Hn]]].
    + left. split; [done|]. destruct (Z.eq_dec len 0) as [Hz|Hz]; [specialize (Hzero Hz); lia|]. lia.
    + right; left. split; [done|]. split; [by destruct (is_read u)|]. intros _. eapply quiet_hole; [exact Haf|exact Haf1|done..|].
      rewrite Hoff. rewrite ?Z.div_add_l, ?Z.div_mul, ?(Z.div_small skip) by lia. by rewrite ?Z.add_0_r.
    + right; right. done.
  - destruct Hres as (Eb & Hal & Hk143).
    assert (is_read u = false → is_Some (bm1 !! k)) as Hal' by (intros E; apply Hal; by rewrite E).
    apply wpe_bind. destruct (Z.eqb_spec b 0) as [Hz|Hnz].
    + assert (bm1 !! k = None) as Hnone.
      { destruct (bm1 !! k) as [c|] eqn:E; [|done]. simpl in Eb. subst c.
        destruct (im_keys _ _ _ (fl_map _ _ _ _ _ (af_ok _ _ _ _ _ _ _ Haf1)) _ _ E). congruence. }
      assert (is_read u = true) as Hr by (destruct (is_read u); [done|]; destruct (Hal' eq_refl); congruence).
      rewrite Hr. apply wpe_bind, wpe_assert; [done|]. apply wpe_ret.
      pose proof (partial_move p ino s G bm v own s1 G1 own1 v1 bm1 u k skip len) as Hm.
      unfold blk_of in Hm. rewrite Hnone, Hr in Hm. apply Hm; try done; lia.
    + apply wpe_onfst. 
      eapply wpe_mono; [exact (getblock_spec p ino s1 G1 own1 v1 bm1 b k Haf1 Eb Hnz)|]. intros r s2 (Haf2 & Hq2 & Hsec & [-> |[-> Hn]]).
      * assert (blk_of (sect s2) bm1 k = sect s1 b) as Eblk.
        { unfold blk_of. destruct (bm1 !! k); simpl in Eb; [subst; apply Hsec|done]. }
        rewrite Eb, <- Eb, <- Eblk, Eb. eapply partial_move; try done; [by eapply quiet_trans|lia].
      * eapply io_fail; [done|lia|exact Haf2|by eapply quiet_trans|]. right; right. split; [done|]. by eapply quiet_reads.
Qed.

(** ** Whole blocks *)

(** [sfs_blockio] points the uio at the disk for the transfer and puts the
    file's place back afterwards. *)
Definition aim (r o : Z) (u : uio) : uio := set_resid r (set_offset o u).

Definition unaim (r o r0 o0 : Z) (u' : uio) : uio :=
  aim (u32 (u32 (uio_resid u' - r0) + r)) (s32 (s32 (uio_offset u' - o0) + o)) u'.

Lemma xfer_aim u d r o u' :
  uio_ok u → r ≤ uio_resid u → 0 ≤ o → o + r < 2147483648 → xfer (aim r o u) d u' →
  xfer u d (unaim (s32 (uio_resid u)) (uio_offset u) r o u').
Proof.
  intros Hu Hr Ho Hor (X1 & X2 & X3 & X4). simpl in X2. destruct Hu as [B1 B2 B3 B4 B5 B6].
  assert (uio_resid (move (Z.of_nat (length d)) (aim r o u)) = r - Z.of_nat (length d)) as E1 by done.
  assert (uio_resid u' = r - Z.of_nat (length d) ∧ uio_offset u' = o + Z.of_nat (length d)) as [Er Eo].
  { destruct (is_read (aim r o u)); [|by destruct X4 as [_ ->]]. subst u'. unfold uwrite. by destruct (is_sys _). }
  assert (u32 (u32 (uio_resid u' - r) + s32 (uio_resid u)) = uio_resid u - Z.of_nat (length d)) as F1.
  { rewrite Er, s32_id by (unfold is_s32; lia). replace (r - _ - r) with (- Z.of_nat (length d)) by lia. unfold u32.
    rewrite Zplus_mod_idemp_l, Z.mod_small; lia. }
  assert (s32 (s32 (uio_offset u' - o) + uio_offset u) = uio_offset u + Z.of_nat (length d)) as F2.
  { rewrite Eo. replace (o + _ - o) with (Z.of_nat (length d)) by lia. rewrite (s32_id (Z.of_nat _)) by (unfold is_s32; lia).
    rewrite s32_id by (unfold is_s32; lia). lia. }
  unfold unaim. rewrite F1, F2. split; [done|]. split; [lia|]. split; [exact X3|].
  change (is_read (aim r o u)) with (is_read u) in X4. destruct (is_read u).
  - subst u'. unfold uwrite. change (is_sys (aim r o u)) with (is_sys u). by destruct (is_sys u).
  - destruct X4 as [X4 ->]. split; [exact X4|]. done.
Qed.

Lemma ufault_aim u r o u' :
  uio_ok u → ufault (aim r o u) u' → ufault u (unaim (s32 (uio_resid u)) (uio_offset u) r o u').
Proof.
  intros Hu (Hs & um & um' & Hsp & -> & Hb & Hd & Ho). destruct Hu as [B1 B2 B3 B4 B5 B6].
  split; [done|]. exists um, um'. split; [done|]. split; [|by split].
  unfold unaim. simpl. rewrite !Z.sub_diag, (s32_id (uio_resid u)) by (unfold is_s32; lia).
  change (u32 0) with 0. change (s32 0) with 0. rewrite !Z.add_0_l, u32_id, s32_id by (unfold is_u32, is_s32; lia).
  by destruct u.
Qed.

Lemma aim_ok u r o : uio_ok u → 0 ≤ r ≤ uio_resid u → 0 ≤ o → o + r < 2147483648 → uio_ok (aim r o u).
Proof. intros [B1 B2 B3 B4 B5 B6] ???. split; simpl; lia || exact B6. Qed.

(** The transfer of a mapped block. *)
Lemma block_move p ino s0 G0 bm0 v0 own0 s G own v bm u k b :
  at_file s0 G0 own0 p ino v0 bm0 → at_file s G own p ino v bm → quiet s0 G0 s G → uio_ok u →
  512 ≤ uio_resid u → uio_offset u = k * 512 → bm !! k = Some b →
  wpe sfs_rwblock (λ r '(s', u'), io_post p ino 512 s0 G0 bm0 u r
    (s', unaim (s32 (uio_resid u)) (uio_offset u) 512 (b * 512) u')) (s, aim 512 (b * 512) u).
Proof.
  intros Haf0 Haf Hq Hu Hres Hoff Hb. pose proof Haf as [A1 A2 A3 A4]. pose proof (iv_ok _ _ _ A1) as Hok.
  pose proof (iv_own _ _ _ A1 _ _ (fl_data _ _ _ _ _ (af_ok _ _ _ _ _ _ _ Haf) _ _ Hb)) as [Hbr _].
  pose proof (fo_nblocks _ Hok). pose proof (do_blocks _ (fo_disk _ Hok)) as Hmb. unfold max_blocks in Hmb.
  assert (block_uio b (aim 512 (b * 512) u)) as Hbu by (split; [apply aim_ok; done || lia|done]).
  destruct (do_sect _ (fo_disk _ Hok) b) as [Hsl Hsb]. destruct (is_read u) eqn:Hr.
  - eapply wpe_mono; [by apply (sfs_rwblock_read_spec _ _ _ b)|]. intros r [s' u'] [Hst Hc].
    destruct (inv_read _ _ _ _ A1 Hst) as [HI' Hq'].
    assert (at_file s' G own p ino v bm) as Haf' by (destruct Hst as (d & -> & _); by split).
    assert (quiet s0 G0 s' G) as Hq2 by (by eapply quiet_trans).
    destruct Hc as [[-> Hx]|[(-> & -> & Hne)|[-> Hf]]].
    + exists G, own, v, bm, (sect s b). eexists. split; [done|]. split; [eapply xfer_aim; [..|exact Hx]; done || lia|].
      rewrite Hsl, Hr. split; [done|]. split; [|done]. split; [done|]. intros i y Hi.
      assert (i < 512)%nat as Hi5 by (apply lookup_lt_Some in Hi; lia).
      rewrite <- (quiet_fbyte _ _ _ _ _ _ _ _ _ _ _ _ _ Haf0 Haf Hq) by (pose proof (uo_off _ Hu); lia).
      rewrite Hoff, fbyte_blk by lia. unfold blk_of. by rewrite Hb, Nat2Z.id, Hi.
    + assert (unaim (s32 (uio_resid u)) (uio_offset u) 512 (b * 512) (aim 512 (b * 512) u) = u) as ->.
      { pose proof (xfer_aim u [] 512 (b * 512) _ Hu Hres ltac:(lia) ltac:(lia) (xfer_nil _ (proj1 Hbu))) as Hx.
        by apply xfer_nil_inv. }
      eapply io_fail; [done|lia|exact Haf'|done|]. right; right. split; [done|]. eapply quiet_reads; [exact Hq|]. exact Hne.
    + exists G, own, v, bm, [], u. split; [done|]. split; [by apply xfer_nil|]. split; [done|]. rewrite Hr.
      split; [by split|]. right. split; [done|]. by apply ufault_aim.
  - eapply wpe_mono; [by apply (sfs_rwblock_write_spec _ _ _ b)|].
    intros r [s' u'] [(x & Hl & -> & Hx & Hw)|(-> & Hf & Hst)].
    + assert (splice (sect s b) (Z.to_nat 0) x = x) as Esp by (apply splice_all; lia). rewrite <- Esp in Hw.
      destruct (inv_write_block _ _ _ _ _ _ _ _ _ 0 x _ Haf Hb ltac:(lia) ltac:(lia) Hw) as (G' & own' & bm' & Haf' & Hwr).
      exists G', own', v, bm', x. eexists. split; [done|]. split; [eapply xfer_aim; [..|exact Hx]; done || lia|].
      split; [lia|]. rewrite Hr. split; [|split; [lia|done]]. eapply quiet_wrote; [exact Hq|]. by rewrite Z.add_0_r, <- Hoff in Hwr.
    + destruct (inv_read _ _ _ _ A1 Hst) as [HI' Hq'].
      assert (at_file s' G own p ino v bm) as Haf' by (destruct Hst as (d & -> & _); by split).
      exists G, own, v, bm, [], u. split; [done|]. split; [by apply xfer_nil|]. split; [done|]. rewrite Hr.
      split; [eapply quiet_trans; [exact Hq|exact Hq']|]. right. split; [done|]. by apply ufault_aim.
Qed.

Lemma replicate_lookup_zero n i (y : Z) : replicate n 0 !! i = Some y → y = 0.
Proof. intros H. by apply lookup_replicate in H as [-> _]. Qed.

(** A hole reads as zeros. *)
Lemma hole_move p ino s0 G0 bm0 v0 own0 s G own v bm u k :
  at_file s0 G0 own0 p ino v0 bm0 → at_file s G own p ino v bm → quiet s0 G0 s G → uio_ok u →
  512 ≤ uio_resid u → uio_offset u = k * 512 → bm !! k = None → is_read u = true →
  wpe (onsnd (uiomovezeros 512)) (io_post p ino 512 s0 G0 bm0 u) (s, u).
Proof.
  intros Haf0 Haf Hq Hu Hres Hoff Hb Hr. pose proof (uo_off _ Hu).
  assert (∀ m d u1, (m ≤ 512)%nat → d = replicate m 0 → xfer u d u1 →
    quiet s0 G0 s G ∧ ∀ i y, d !! i = Some y → y = fbyte (sect s0) bm0 (uio_offset u + Z.of_nat i)) as Hz.
  { intros m d u1 Hm -> _. split; [done|]. intros i y Hi.
    assert (i < 512)%nat as Hi5 by (apply lookup_lt_Some in Hi; rewrite length_replicate in Hi; lia).
    apply replicate_lookup_zero in Hi as ->. rewrite <- (quiet_fbyte _ _ _ _ _ _ _ _ _ _ _ _ _ Haf0 Haf Hq) by lia.
    rewrite Hoff, fbyte_blk by lia. unfold blk_of. rewrite Hb. by destruct (lookup_zeros (Z.to_nat (Z.of_nat i))) as [-> | ->]. }
  apply wpe_onsnd. eapply wpe_mono; [apply uiomovezeros_spec; done || lia|].
  intros r u' [[-> Hx]|(-> & m & u1 & Hm & Hx & Hf)].
  - exists G, own, v, bm. eexists. exists u'. split; [done|]. split; [exact Hx|]. rewrite length_replicate, Hr.
    split; [lia|]. split; [|split; [lia|done]]. eapply (Hz 512%nat); [lia|done|exact Hx].
  - exists G, own, v, bm. eexists. exists u1. split; [done|]. split; [exact Hx|]. rewrite length_replicate, Hr.
    split; [lia|]. split; [|by right]. eapply (Hz m); [lia|done|exact Hx].
Qed.

Lemma sfs_blockio_spec p ino s G own v bm u k :
  at_file s G own p ino v bm → uio_ok u → 512 ≤ uio_resid u → uio_offset u = k * 512 →
  wpe (sfs_blockio p) (io_post p ino 512 s G bm u) (s, u).
Proof.
  intros Haf Hu Hres Hoff. destruct (fileblock_eq u k 0 Hu ltac:(lia) ltac:(lia)) as [Ek Hk].
  unfold sfs_blockio, SFS_BLOCKSIZE. estep. cbv beta iota zeta. rewrite Ek.
  apply wpe_bind, wpe_onfst. eapply wpe_mono; [eapply sfs_bmap_spec; [exact Haf|lia]|].
  intros [e|b] s1 (G1 & own1 & v1 & bm1 & Haf1 & Hq1 & Hr).
  - eapply io_fail; [done|lia|exact Haf1|done|]. unfold io_error, max_file. destruct Hr as [[-> Hge]|[(-> & Hd & Hno)|[-> Hn]]].
    + left. split; [done|]. lia.
    + right; left. split; [done|]. split; [by destruct (is_read u)|]. intros _. eapply quiet_hole; [exact Haf|exact Haf1|done..|].
      rewrite Hoff. rewrite ?Z.div_add_l, ?Z.div_mul, ?(Z.div_small skip) by lia. by rewrite ?Z.add_0_r.
    + right; right. done.
  - destruct Hr as (Eb & Hal & Hk143). destruct (Z.eqb_spec b 0) as [Hz|Hnz].
    + assert (bm1 !! k = None) as Hnone.
      { destruct (bm1 !! k) as [c|] eqn:E; [|done]. simpl in Eb. subst c.
        destruct (im_keys _ _ _ (fl_map _ _ _ _ _ (af_ok _ _ _ _ _ _ _ Haf1)) _ _ E). congruence. }
      assert (is_read u = true) as Hr by (destruct (is_read u); [done|]; destruct (Hal eq_refl); congruence).
      apply wpe_bind, wpe_assert; [done|]. eapply hole_move; [exact Haf|exact Haf1|done..].
    + destruct (bm1 !! k) as [c|] eqn:E; simpl in Eb; [subst c|done].
      pose proof (iv_own _ _ _ (af_inv _ _ _ _ _ _ _ Haf1) _ _ (fl_data _ _ _ _ _ (af_ok _ _ _ _ _ _ _ Haf1) _ _ E)) as [Hbr _].
      pose proof (iv_ok _ _ _ (af_inv _ _ _ _ _ _ _ Haf1)) as Hok. pose proof (fo_nblocks _ Hok).
      pose proof (do_blocks _ (fo_disk _ Hok)) as Hmb. unfold max_blocks in Hmb.
      rewrite (u32_id (b * 512)) by (unfold is_u32; lia). rewrite (s32_id (b * 512)) by (unfold is_s32; lia).
      apply wpe_bind, wpe_assert; [apply Z.leb_le; lia|]. estep. apply wpe_bind, wpe_attempt.
      eapply wpe_mono; [eapply block_move; [exact Haf|exact Haf1|done..]|]. intros r [s2 u2] Hpost. cbv beta iota.
      estep. apply wpe_reraise. exact Hpost.
Qed.

Lemma io_loop_spec n p ino s G own v bm u k :
  at_file s G own p ino v bm → uio_ok u → 512 * Z.of_nat n ≤ uio_resid u → uio_offset u = k * 512 →
  wpe (erepeat n (sfs_blockio p)) (io_post p ino (512 * Z.of_nat n) s G bm u) (s, u).
Proof.
  revert s G own v bm u k. induction n as [|n IH]; intros s G own v bm u k Haf Hu Hr Ho.
  - by apply (io_done p ino s G own v).
  - cbn [erepeat]. replace (512 * Z.of_nat (S n)) with (512 + 512 * Z.of_nat n) by lia.
    eapply io_seq; [exact Haf|done|lia|lia|rewrite Ho; replace (k * 512 + 512) with ((k + 1) * 512) by lia; apply Z_mod_mult| |eapply sfs_blockio_spec; [exact Haf|done|lia|exact Ho]|].
    { intros Hz. destruct n; [|lia]. intros. by apply wpe_ret. }
    intros s1 G1 own1 v1 bm1 u1 Haf1 Hu1 _ Eo Er. apply (IH s1 G1 own1 v1 bm1 u1 (k + 1)); [done|done|lia|lia].
Qed.

(** ** A whole transfer *)

Lemma io_tail_spec p ino s G own v bm u k :
  at_file s G own p ino v bm → uio_ok u → uio_resid u < 512 → uio_offset u = k * 512 →
  wpe ('(_, u) ← eget; _ ← eassert (uio_resid u <? SFS_BLOCKSIZE);
       if 0 <? uio_resid u then sfs_partialio p 0 (uio_resid u) else mret tt)
    (io_post p ino (uio_resid u) s G bm u) (s, u).
Proof.
  intros Haf Hu Hr Ho. pose proof (uo_len _ Hu). estep. cbv beta iota. apply wpe_bind, wpe_assert; [by apply Z.ltb_lt|].
  destruct (Z.ltb_spec 0 (uio_resid u)).
  - apply (sfs_partialio_spec p ino s G own v bm u k); try done; lia.
  - replace (uio_resid u) with 0 by lia. by apply (io_done p ino s G own v).
Qed.

Lemma io_blocks_spec p ino s G own v bm u k :
  at_file s G own p ino v bm → uio_ok u → uio_offset u = k * 512 →
  wpe ('(_, u) ← eget;
       if uio_resid u =? 0 then mret tt else
       _ ← eassert (Z.rem (uio_offset u) SFS_BLOCKSIZE =? 0);
       _ ← erepeat (Z.to_nat (uio_resid u / SFS_BLOCKSIZE)) (sfs_blockio p);
       '(_, u) ← eget;
       _ ← eassert (uio_resid u <? SFS_BLOCKSIZE);
       if 0 <? uio_resid u then sfs_partialio p 0 (uio_resid u) else mret tt)
    (io_post p ino (uio_resid u) s G bm u) (s, u).
Proof.
  intros Haf Hu Ho. pose proof (uo_len _ Hu). pose proof (uo_off _ Hu). estep. cbv beta iota.
  destruct (Z.eqb_spec (uio_resid u) 0) as [Hz|Hz].
  { rewrite Hz. by apply (io_done p ino s G own v). }
  apply wpe_bind, wpe_assert.
  { change SFS_BLOCKSIZE with 512. rewrite Ho, Z.rem_mul by lia. done. }
  change SFS_BLOCKSIZE with 512.
  pose proof (Z.div_mod (uio_resid u) 512 ltac:(lia)) as Hdm. pose proof (Z.mod_pos_bound (uio_resid u) 512 ltac:(lia)).
  pose proof (Z.div_pos (uio_resid u) 512 ltac:(lia) ltac:(lia)).
  set (q := uio_resid u / 512) in *. assert (512 * Z.of_nat (Z.to_nat q) = 512 * q) as Hq by lia.
  replace (uio_resid u) with (512 * q + (uio_resid u - 512 * q)) at 1 by lia.
  eapply io_seq; [exact Haf|done|lia|lia| | | |].
  { rewrite Ho. replace (k * 512 + 512 * q) with ((k + q) * 512) by lia. apply Z_mod_mult. }
  { intros Hz' s1 u1 Er1. estep. cbv beta iota. rewrite Er1, Hz'. apply wpe_bind, wpe_assert; [done|]. by apply wpe_ret. }
  - rewrite <- Hq. apply (io_loop_spec (Z.to_nat q) p ino s G own v bm u k); done || lia.
  - intros s1 G1 own1 v1 bm1 u1 Haf1 Hu1 _ Eo1 Er1. rewrite <- Er1. apply (io_tail_spec p ino s1 G1 own1 v1 bm1 u1 (k + q)); done || lia.
Qed.

Lemma sfs_io_body_spec p ino s G own v bm u :
  at_file s G own p ino v bm → uio_ok u →
  (uio_resid u = 0 → uio_offset u < max_file) →
  wpe (sfs_io_body p) (io_post p ino (uio_resid u) s G bm u) (s, u).
Proof.
  intros Haf Hu Hz. pose proof (uo_len _ Hu). pose proof (uo_off _ Hu). pose proof (uo_offend _ Hu).
  unfold sfs_io_body. estep. cbv beta iota zeta. change SFS_BLOCKSIZE with 512.
  rewrite Z.rem_mod_nonneg by lia. pose proof (Z.div_mod (uio_offset u) 512 ltac:(lia)) as Hdm.
  pose proof (Z.mod_pos_bound (uio_offset u) 512 ltac:(lia)). set (o := uio_offset u mod 512) in *.
  rewrite u32_id by (unfold is_u32; lia). destruct (Z.eqb_spec o 0) as [Ho|Ho]; cbn [negb].
  - apply wpe_bind, wpe_ret. apply (io_blocks_spec p ino s G own v bm u (uio_offset u / 512)); done || lia.
  - set (len := if uio_resid u <? 512 - o then uio_resid u else 512 - o).
    assert (len = Z.min (uio_resid u) (512 - o)) as El by (unfold len; destruct (Z.ltb_spec (uio_resid u) (512 - o)); lia).
    assert (wpe (sfs_partialio p o len) (io_post p ino len s G bm u) (s, u)) as Hpart.
    { apply (sfs_partialio_spec p ino s G own v bm u (uio_offset u / 512)); try done; try lia. unfold max_file in Hz. lia. }
    destruct (Z.le_gt_cases (uio_resid u) (512 - o)) as [Hle|Hgt].
    + assert (len = uio_resid u) as Elen by lia. rewrite Elen in *. apply wpe_bind. eapply wpe_mono; [exact Hpart|].
      intros [e|[]] [s1 u1] Hpost; [done|]. pose proof Hpost as (_ & _ & _ & _ & d & u1' & _ & Hx & _ & _ & Hld & ->).
      destruct (xfer_fields _ _ _ Hx) as (_ & _ & _ & Ere & _). estep. cbv beta iota. rewrite Ere, Hld, Z.sub_diag.
      cbn [Z.eqb]. by apply wpe_ret.
    + replace (uio_resid u) with (len + (uio_resid u - len)) at 1 by lia.
      eapply io_seq; [exact Haf|done|lia|lia| |lia|exact Hpart|].
      { replace (uio_offset u + len) with ((uio_offset u / 512 + 1) * 512) by lia. apply Z_mod_mult. }
      intros s1 G1 own1 v1 bm1 u1 Haf1 Hu1 _ Eo1 Er1. rewrite <- Er1.
      apply (io_blocks_spec p ino s1 G1 own1 v1 bm1 u1 (uio_offset u / 512 + 1)); done || lia.
Qed.

(** ** Reading *)

(** The uio is cut to the end of the file and gets the rest back. *)
Lemma xfer_cut u d r u' :
  uio_ok u → 0 ≤ r ≤ uio_resid u → xfer (set_resid r u) d u' →
  xfer u d (set_resid (u32 (uio_resid u' + (uio_resid u - r))) u').
Proof.
  intros Hu Hr (X1 & X2 & X3 & X4). simpl in X2. destruct Hu as [B1 B2 B3 B4 B5 B6].
  split; [done|]. split; [lia|]. split; [exact X3|]. change (is_read (set_resid r u)) with (is_read u) in X4.
  assert (uio_resid u' = r - Z.of_nat (length d)) as Er.
  { destruct (is_read u); [|by destruct X4 as [_ ->]]. subst u'. unfold uwrite. by destruct (is_sys _). }
  rewrite Er, u32_id by (unfold is_u32; lia). replace (r - _ + _) with (uio_resid u - Z.of_nat (length d)) by lia.
  destruct (is_read u).
  - subst u'. unfold uwrite. change (is_sys (set_resid r u)) with (is_sys u). by destruct (is_sys u).
  - destruct X4 as [X4 ->]. split; [exact X4|]. done.
Qed.

Lemma ufault_cut u1 u' x : ufault u1 u' → ufault (set_resid x u1) (set_resid x u').
Proof. intros (Hs & um & um' & Hsp & -> & H). split; [done|]. exists um, um'. done. Qed.

Lemma set_resid_id u x : uio_resid u = x → set_resid x u = u.
Proof. intros <-. by destruct u. Qed.

Lemma xfer_resid u d u' : xfer u d u' → uio_resid u' = uio_resid u - Z.of_nat (length d).
Proof. intros H. by destruct (xfer_fields _ _ _ H) as (_ & _ & _ & ? & _). Qed.

(** The postcondition on a cut uio, after the rest is given back. *)
Lemma io_post_cut p ino n s G bm u r s' u' rr :
  uio_ok u → 0 ≤ rr ≤ uio_resid u → n ≤ rr → io_post p ino n s G bm (set_resid rr u) r (s', u') →
  io_post p ino n s G bm u r (s', set_resid (u32 (uio_resid u' + (uio_resid u - rr))) u').
Proof.
  intros Hu Hrr Hn (G' & own' & v' & bm' & d & u1 & H1 & Hx & Hl & Hw & Hr).
  pose proof (xfer_cut _ _ _ _ Hu Hrr Hx) as Hx'.
  exists G', own', v', bm', d. eexists. split; [done|]. split; [exact Hx'|]. split; [done|]. split; [exact Hw|].
  destruct r as [e|[]].
  - destruct Hr as [[-> He]|[-> Hf]]; [left; split; [done|exact He]|right]. split; [done|].
    destruct (ufault_fields _ _ Hf) as (_ & _ & ->). by apply ufault_cut.
  - destruct Hr as [Hl' ->]. done.
Qed.

(** The bytes a read of [n] bytes at [off] can get from a file of [size]. *)
Definition avail (size off n : Z) : Z := Z.max 0 (Z.min n (size - off)).

Lemma size_s32 sec own ino nd bm : file_ok sec own ino nd bm → s32 (sfi_size nd) = sfi_size nd ∧ 0 ≤ sfi_size nd.
Proof. intros [[Hs _] Hl]. unfold is_u32 in Hs. rewrite s32_id by (unfold is_s32; lia). lia. Qed.

Lemma wpe_cut (s : sfs) (u : uio) (b : bool) e n Q :
  uio_ok u → 0 ≤ n → n = uio_resid u - e → (if b then 0 ≤ e < uio_resid u else e = 0) →
  Q (inr tt) (s, set_resid n u) →
  wpe (if b then _ ← eassert (e <? uio_resid u); onsnd (emod (λ u, set_resid (u32 (uio_resid u - e)) u)) else mret tt)
    Q (s, u).
Proof.
  intros Hu Hn En He HQ. destruct b.
  - apply wpe_bind, wpe_assert; [apply Z.ltb_lt; lia|]. apply wpe_onsnd, wpe_mod. pose proof (uo_end _ Hu).
    pose proof (uo_base _ Hu). pose proof (uo_len _ Hu). rewrite u32_id by (unfold is_u32; lia). by rewrite <- En.
  - apply wpe_ret. rewrite set_resid_id in HQ; [done|lia].
Qed.

Lemma sfs_read_io_spec p ino s G own v bm u :
  at_file s G own p ino v bm → uio_ok u → is_read u = true →
  (uio_resid u = 0 → uio_offset u < max_file) →
  wpe (sfs_io p) (io_post p ino (avail (sfi_size (sv_i v)) (uio_offset u) (uio_resid u)) s G bm u) (s, u).
Proof.
  intros Haf Hu Hr Hz. pose proof (uo_len _ Hu). pose proof (uo_off _ Hu). pose proof (uo_offend _ Hu).
  destruct (size_s32 _ _ _ _ _ (af_ok _ _ _ _ _ _ _ Haf)) as [Es Hs0]. set (size := sfi_size (sv_i v)) in *.
  unfold sfs_io. estep. cbv beta iota. apply wpe_bind, wpe_onfst.
  eapply wpe_getv; [apply Haf|]. cbv beta zeta. fold size. rewrite Es, Hr. cbn [andb].
  rewrite (s32_id (_ + _)) by (unfold is_s32; lia). destruct (Z.leb_spec size (uio_offset u)) as [Hpast|Hin].
  { replace (avail _ _ _) with 0 by (unfold avail; lia). by apply (io_done p ino s G own v). }
  set (e := if size <? uio_offset u + uio_resid u then u32 (uio_offset u + uio_resid u - size) else 0).
  assert (0 ≤ e ∧ avail size (uio_offset u) (uio_resid u) = uio_resid u - e) as (He0 & Eav).
  { unfold e, avail. destruct (Z.ltb_spec size (uio_offset u + uio_resid u)); [rewrite u32_id by (unfold is_u32; lia)|]; lia. }
  set (n := avail _ _ _) in *. set (u0 := set_resid n u).
  apply wpe_bind. eapply (wpe_cut s u _ e n); [done|unfold n, avail; lia|done| |].
  { unfold e, n, avail in *. destruct (Z.ltb_spec size (uio_offset u + uio_resid u)); lia. }
  apply wpe_bind, wpe_attempt.
  assert (uio_ok u0) as Hu0.
  { destruct Hu as [B1 B2 B3 B4 B5 B6]. assert (0 ≤ n) by (unfold n, avail; lia). split; simpl; lia || exact B6. }
  eapply wpe_mono; [apply (sfs_io_body_spec p ino s G own v bm u0 Haf Hu0)|].
  { simpl. intros En. unfold n, avail in *. lia. }
  intros r [s1 u1] Hpost. cbv beta iota.
  pose proof Hpost as (G1 & own1 & v1 & bm1 & d & u1' & Haf1 & Hx & _ & _ & Hcase).
  assert (is_read u1 = true) as Hr1.
  { destruct (xfer_fields _ _ _ Hx) as (_ & Er & _). change (is_read u0) with (is_read u) in Er.
    destruct r; [destruct Hcase as [[-> _]|[_ Hf]]|destruct Hcase as [_ ->]]; try congruence.
    destruct (ufault_fields _ _ Hf) as (-> & _). congruence. }
  apply wpe_bind. unfold sfs_io_out. estep. cbv beta iota. apply wpe_bind, wpe_onfst.
  eapply wpe_getv; [apply Haf1|]. cbv beta iota. rewrite Hr1. cbn [negb andb]. estep. apply wpe_reraise.
  replace e with (uio_resid u - n) by lia. apply io_post_cut; [done|unfold n, avail; lia|done|exact Hpost].
Qed.
