(* ===== verification/SfsSpec.v ===== *)
(** What SFS promises its clients: an abstract file system in which a file is
    a type, a link count, a size and a function from offsets to bytes, and
    the theorems that reading and writing through a vnode are reads and
    writes of it. *)

From Stdlib Require Import ZArith Lia.
From stdpp Require Import base numbers list option gmap.
From S2P Require Import Prelude Array Bitmap Errm Uio UioProofs Lhd LhdProofs SfsDisk Sfs SfsBlock SfsInv SfsBmap SfsIo.

Open Scope Z_scope.

(** ** Abstract files *)

Record afile := AFile {
  a_type : Z;
  a_links : Z;
  a_size : Z;
  a_byte : Z → Z
}.

(** Offsets are not negative, so bytes matter from 0 on. *)
#[export] Instance afile_equiv : Equiv afile := λ a b,
  a_type a = a_type b ∧ a_links a = a_links b ∧ a_size a = a_size b ∧ ∀ x, 0 ≤ x → a_byte a x = a_byte b x.

#[export] Instance afile_equivalence : Equivalence (≡@{afile}).
Proof.
  split.
  - by intros a.
  - intros a b (H1 & H2 & H3 & H4). split_and!; try done. intros x Hx. by rewrite H4.
  - intros a b c (H1 & H2 & H3 & H4) (K1 & K2 & K3 & K4). split_and!; try congruence. intros x Hx. by rewrite H4, K4.
Qed.

(** The files of a mounted file system. *)
Definition view_file (sec : Z → list Z) (x : sfs_inode * gmap Z Z) : afile :=
  AFile (sfi_type x.1) (sfi_linkcount x.1) (sfi_size x.1) (fbyte sec x.2).

Definition view (s : sfs) (G : files) : gmap Z afile := view_file (sect s) <$> G.

(** Writing [d] at [off]: a write beyond the end makes the file longer. *)
Definition awrite (off : Z) (d : list Z) (a : afile) : afile :=
  AFile (a_type a) (a_links a) (Z.max (a_size a) (off + Z.of_nat (length d))) (overlay (a_byte a) off d).

(** The part of [awrite] before the size is set. *)
Definition aput (off : Z) (d : list Z) (a : afile) : afile :=
  AFile (a_type a) (a_links a) (a_size a) (overlay (a_byte a) off d).

(** Reading [n] bytes at [off]. *)
Definition aread (off n : Z) (a : afile) : list Z :=
  (λ i, a_byte a (off + Z.of_nat i)) <$> seq 0 (Z.to_nat (avail (a_size a) off n)).

#[export] Instance awrite_proper off d : Proper ((≡) ==> (≡)) (awrite off d).
Proof.
  intros a b (H1 & H2 & H3 & H4). split_and!; simpl; try congruence. intros x Hx. by apply overlay_ext, H4.
Qed.

#[export] Instance aput_proper off d : Proper ((≡) ==> (≡)) (aput off d).
Proof.
  intros a b (H1 & H2 & H3 & H4). split_and!; simpl; try congruence. intros x Hx. by apply overlay_ext, H4.
Qed.

(** The rest of the state: which vnodes are loaded, their counts, the
    superblock, and what is to come from the disk and the allocator. *)
Record shape (s s' : sfs) : Prop := {
  sh_vn : ∀ p, match s_vn s !! p, s_vn s' !! p with
               | Some v, Some v' => same_vnode v v'
               | None, None => True
               | _, _ => False
               end;
  sh_sb : sfs_sb s' = sfs_sb s;
  sh_tab : sfs_vnodes s' = sfs_vnodes s;
  sh_next : s_next s' = s_next s;
  sh_orc : s_orc s' = s_orc s;
  sh_r : reads_fine s → reads_fine s'
}.

Lemma wrote_shape ino off d s G s' G' : wrote ino off d s G s' G' → shape s s'.
Proof. intros [[]]. by split. Qed.

Lemma shape_trans s1 s2 s3 : shape s1 s2 → shape s2 s3 → shape s1 s3.
Proof.
  intros [A1 A2 A3 A4 A5 A6] [B1 B2 B3 B4 B5 B6]. split; try congruence; try tauto.
  intros p. specialize (A1 p). specialize (B1 p). destruct (s_vn s1 !! p), (s_vn s2 !! p), (s_vn s3 !! p); try done.
  by eapply same_vnode_trans.
Qed.

Lemma shape_vn s s' p v : shape s s' → s_vn s !! p = Some v → ∃ v', s_vn s' !! p = Some v' ∧ same_vnode v v'.
Proof. intros Hs Hv. pose proof (sh_vn _ _ Hs p) as H. rewrite Hv in H. destruct (s_vn s' !! p); [eauto|done]. Qed.

(** The concrete steps as steps of the abstract file system. *)
Lemma wrote_view ino off d s G s' G' :
  wrote_any ino off d s G s' G' → view s' G' ≡ alter (aput off d) ino (view s G).
Proof.
  intros [W1 W2 _ _ _ _ _ _] i. unfold view. specialize (W1 i). specialize (W2 i).
  destruct (decide (i = ino)) as [->|Hne]; [rewrite lookup_alter_eq|rewrite lookup_alter_ne by done];
    rewrite !lookup_fmap; destruct (G !! _) as [[nd bm]|], (G' !! _) as [[nd' bm']|]; cbn [fmap option_fmap option_map].
  all: try by constructor.
  all: try by (exfalso; apply (is_Some_None (A := sfs_inode * gmap Z Z)), W1; eexists).
  all: destruct (W2 _ _ _ _ eq_refl eq_refl) as [(M1 & M2 & M3) Hb]; apply Some_Forall2; split_and!; [done..|].
  all: intros x Hx; simpl; by rewrite Hb.
Qed.

Lemma any_view s G s' G' : wrote_any 0 0 [] s G s' G' → view s' G' ≡ view s G.
Proof.
  intros Hq. rewrite (wrote_view 0 0 [] s G s' G' Hq). intros i.
  destruct (decide (i = 0)) as [->|Hne]; [rewrite lookup_alter_eq|by rewrite lookup_alter_ne].
  destruct (view s G !! 0) as [a|]; [|done]. constructor. split_and!; try done. intros x _. apply overlay_nil.
Qed.

Lemma quiet_view s G s' G' : quiet s G s' G' → view s' G' ≡ view s G.
Proof. intros Hq. apply any_view, (Hq 0 0). Qed.

(** A change of an inode's size or link count. *)
Lemma inv_meta s G own p ino v bm nd :
  at_file s G own p ino v bm → inode_wf nd → sfi_size nd < 2147483648 → sfi_type nd = sfi_type (sv_i v) →
  sfi_direct nd = sfi_direct (sv_i v) → sfi_indirect nd = sfi_indirect (sv_i v) →
  let s' := set_vn (<[p := set_inode nd true v]> (s_vn s)) s in
  at_file s' (<[ino := (nd, bm)]> G) own p ino (set_inode nd true v) bm ∧ shape s s' ∧ no_loss s G s' (<[ino := (nd, bm)]> G) ∧
  view s' (<[ino := (nd, bm)]> G) = <[ino := AFile (sfi_type nd) (sfi_linkcount nd) (sfi_size nd) (fbyte (sect s) bm)]> (view s G).
Proof.
  intros Haf Hwf Hsz Ht Hd Hi s'. pose proof Haf as [A1 A2 A3 A4]. subst ino. pose proof (af_ok _ _ _ _ _ _ _ Haf) as Hf.
  assert (lossless s s' (sv_ino v) (sv_i v) bm nd bm) as Hls.
  { apply lossless_grow; [done|]. intros b. unfold has_block. by rewrite Hi. }
  split; [|split; [|split; [by eapply no_loss_change|]]].
  - pose proof (inv_change s G own s' own p v (set_inode nd true v) bm bm A1) as HC. cbn [sv_i set_inode] in HC.
    split; [apply HC|apply lookup_insert_eq|done|apply lookup_insert_eq].
    split; try done; simpl.
    + by destruct (iv_ok _ _ _ A1).
    + apply (iv_own _ _ _ A1).
    + intros c o Hc. right. split; [done|by right].
    + destruct Hf as [F1 F2 F3 [M1 M2 M3 M4] F5 F6 F7]. split; try done; [|by rewrite Hi|by rewrite Ht].
      split; [done|by rewrite Hd|by rewrite Hi|by rewrite Hi].
    + by left.
  - split; try done. intros q. simpl. destruct (decide (q = p)) as [->|Hne].
    + by rewrite A2, lookup_insert_eq.
    + rewrite lookup_insert_ne by done. by destruct (s_vn s !! q).
  - unfold view. by rewrite fmap_insert.
Qed.

(** ** Reading and writing *)

(** How a transfer of [n] bytes ended, [d] having been moved. *)
Definition ended (s : sfs) (f : Z → Z) (u : uio) (n : Z) (d : list Z) (u1 : uio) (r : Z + unit) (u' : uio) : Prop :=
  match r with
  | inr _ => Z.of_nat (length d) = n ∧ u' = u1
  | inl e => (u' = u1 ∧ io_error s f u n e ∧ stopped u n d) ∨ (e = EFAULT ∧ ufault u1 u')
  end.

Lemma ended_ext s f f' u n d u1 r u' :
  uio_ok u → (∀ x, 0 ≤ x → f' x = f x) → ended s f u n d u1 r u' → ended s f' u n d u1 r u'.
Proof.
  intros Hu Hf. destruct r as [e|[]]; [|done]. intros [(-> & He & Hst)|?]; [left|by right]. split; [done|]. split; [|done].
  destruct He as [?|[(-> & Hr & Hh)|?]]; [by left|right; left|by right; right]. split; [done|]. split; [done|].
  intros Hle x Hx Ex. rewrite Hf by done. by apply Hh.
Qed.

Lemma ended_fields s f u n d u1 r u' :
  uio_ok u → xfer u d u1 → ended s f u n d u1 r u' →
  is_read u' = is_read u ∧ uio_offset u' = uio_offset u + Z.of_nat (length d) ∧ uio_resid u' = uio_resid u - Z.of_nat (length d).
Proof.
  intros Hu Hx He. destruct (xfer_fields _ _ _ Hx) as (_ & F1 & F2 & F3 & _).
  destruct r as [e|[]]; [destruct He as [[-> _]|[_ Hf]]|destruct He as [_ ->]]; try done.
  destruct (ufault_fields _ _ Hf) as (-> & -> & ->). done.
Qed.

Definition write_post (p ino : Z) (s : sfs) (G : files) (a : afile) (u : uio) (r : Z + unit) (x : sfs * uio) : Prop :=
  let '(s', u') := x in
  ∃ G' own' v' bm' d u1, at_file s' G' own' p ino v' bm' ∧ shape s s' ∧ xfer u d u1 ∧
    Z.of_nat (length d) ≤ uio_resid u ∧ view s' G' ≡ alter (awrite (uio_offset u) d) ino (view s G) ∧ no_loss s G s' G' ∧
    ended s (a_byte a) u (uio_resid u) d u1 r u'.

Lemma view_lookup s G ino nd bm : G !! ino = Some (nd, bm) → view s G !! ino = Some (view_file (sect s) (nd, bm)).
Proof. intros H. unfold view. by rewrite lookup_fmap, H. Qed.

(** Setting the size turns what was put into what is written. *)
Lemma view_sized (V V1 : gmap Z afile) ino off d a1 :
  V1 ≡ alter (aput off d) ino V → V1 !! ino = Some a1 →
  <[ino := AFile (a_type a1) (a_links a1) (Z.max (a_size a1) (off + Z.of_nat (length d))) (a_byte a1)]> V1 ≡
  alter (awrite off d) ino V.
Proof.
  intros HV Ha i. pose proof (HV i) as Hi. destruct (decide (i = ino)) as [->|Hne].
  - rewrite lookup_insert_eq. rewrite lookup_alter_eq in *. rewrite Ha in Hi.
    destruct (V !! ino) as [a|]; inversion Hi as [? ? (H1 & H2 & H3 & H4)|]; subst. constructor.
    split_and!; simpl in *; try done. lia.
  - rewrite lookup_insert_ne by done. rewrite lookup_alter_ne in * by done. done.
Qed.

Lemma view_unsized (V V1 : gmap Z afile) ino off d a1 :
  V1 ≡ alter (aput off d) ino V → V1 !! ino = Some a1 → off + Z.of_nat (length d) ≤ a_size a1 →
  V1 ≡ alter (awrite off d) ino V.
Proof.
  intros HV Ha Hs. rewrite <- (view_sized V V1 ino off d a1 HV Ha). rewrite Z.max_l by done. intros i.
  destruct (decide (i = ino)) as [->|Hne]; [|by rewrite lookup_insert_ne]. rewrite lookup_insert_eq, Ha. by destruct a1.
Qed.

(** The end of [sfs_io], for a write. *)
Lemma sfs_write_out p ino s0 G0 a s G own v bm u d u1 r u' :
  at_file s G own p ino v bm → uio_ok u → is_read u = false → xfer u d u1 →
  wrote ino (uio_offset u) d s0 G0 s G → ended s0 (a_byte a) u (uio_resid u) d u1 r u' →
  wpe (_ ← sfs_io_out p 0; reraise r) (write_post p ino s0 G0 a u) (s, u').
Proof.
  intros Haf Hu Hr Hx Hw He. destruct (ended_fields _ _ _ _ _ _ _ _ Hu Hx He) as (Er & Eo & Ere).
  pose proof Hu as [B1 B2 B3 B4 B5 B6]. pose proof (proj1 (proj2 Hx)) as Hl.
  destruct (size_s32 _ _ _ _ _ (af_ok _ _ _ _ _ _ _ Haf)) as [Es Hs0]. pose proof Haf as [A1 A2 A3 A4].
  pose proof (wrote_view _ _ _ _ _ _ _ Hw) as Hv. pose proof (view_lookup s G ino _ _ A4) as Hvi.
  unfold sfs_io_out. apply wpe_bind. estep. cbv beta iota. apply wpe_bind, wpe_onfst.
  eapply wpe_getv; [exact A2|]. cbv beta iota. rewrite Er, Hr, Es, Eo. cbn [negb andb]. set (o := uio_offset u + _) in *.
  assert (set_resid (u32 (uio_resid u' + 0)) u' = u') as Eu.
  { apply set_resid_id. rewrite Z.add_0_r, u32_id by (unfold is_u32; lia). done. }
  apply wpe_bind. destruct (Z.ltb_spec (sfi_size (sv_i v)) o) as [Hlt|Hge].
  - apply wpe_onfst. eapply wpe_upd_inode; [exact A2|]. estep. apply wpe_reraise. rewrite Eu.
    destruct (af_ok _ _ _ _ _ _ _ Haf) as [(F1 & F2 & F3 & F4) _ _ _ _ _]. rewrite (u32_id o) by (unfold is_u32; lia).
    destruct (inv_meta s G own p ino v bm (set_size o (sv_i v)) Haf) as (Haf' & Hsh & Hnl & Ev); try done; simpl; try lia.
    { split; [unfold is_u32; simpl; lia|done]. }
    eexists _, own, _, bm, d, u1. split; [exact Haf'|]. split; [eapply shape_trans; [by eapply wrote_shape|exact Hsh]|].
    split; [done|]. split; [done|]. split; [|split; [eapply no_loss_trans; [apply Hw|exact Hnl]|exact He]]. rewrite Ev.
    rewrite <- (view_sized (view s0 G0) (view s G) ino (uio_offset u) d _ Hv Hvi). simpl. by rewrite Z.max_r by (fold o; lia).
  - estep. apply wpe_reraise. rewrite Eu. exists G, own, v, bm, d, u1. split; [done|]. split; [by eapply wrote_shape|].
    split; [done|]. split; [done|]. split; [by eapply view_unsized|]. split; [apply Hw|exact He].
Qed.

Lemma sfs_write_io_spec p ino s G own v bm u a :
  at_file s G own p ino v bm → uio_ok u → is_read u = false →
  (uio_resid u = 0 → uio_offset u < max_file) → view s G !! ino ≡ Some a →
  wpe (sfs_io p) (write_post p ino s G a u) (s, u).
Proof.
  intros Haf Hu Hr Hz Ha. rewrite (view_lookup s G ino _ _ (af_file _ _ _ _ _ _ _ Haf)) in Ha.
  apply (inj Some) in Ha as (_ & _ & _ & Hby). simpl in Hby. unfold sfs_io. estep. cbv beta iota. apply wpe_bind, wpe_onfst.
  eapply wpe_getv; [apply Haf|]. cbv beta zeta. rewrite Hr. cbn [andb]. estep. apply wpe_bind, wpe_attempt.
  eapply wpe_mono; [by apply (sfs_io_body_spec p ino s G own v bm u Haf Hu)|].
  intros r [s1 u1'] (G1 & own1 & v1 & bm1 & d & u1 & Haf1 & Hx & Hl & Hw & Hc). rewrite Hr in Hw. cbv beta iota.
  eapply (sfs_write_out p ino s G a s1 G1 own1 v1 bm1 u d u1); try done.
  eapply ended_ext; [done| |exact Hc]. intros x Hx0. by rewrite Hby.
Qed.

Definition read_post (p ino : Z) (s : sfs) (G : files) (a : afile) (u : uio) (r : Z + unit) (x : sfs * uio) : Prop :=
  let '(s', u') := x in
  ∃ G' own' v' bm' d u1, at_file s' G' own' p ino v' bm' ∧ shape s s' ∧ xfer u d u1 ∧
    d `prefix_of` aread (uio_offset u) (uio_resid u) a ∧ view s' G' ≡ view s G ∧ no_loss s G s' G' ∧
    ended s (a_byte a) u (avail (a_size a) (uio_offset u) (uio_resid u)) d u1 r u'.

Lemma aread_length off n a : Z.of_nat (length (aread off n a)) = avail (a_size a) off n.
Proof. unfold aread. rewrite length_fmap, length_seq. unfold avail. lia. Qed.

Lemma aread_prefix off n a d :
  Z.of_nat (length d) ≤ avail (a_size a) off n → (∀ i y, d !! i = Some y → y = a_byte a (off + Z.of_nat i)) →
  d `prefix_of` aread off n a.
Proof.
  intros Hl Hd. exists (drop (length d) (aread off n a)). rewrite <- (take_drop (length d) (aread off n a)) at 1. f_equal.
  apply list_eq. intros i. destruct (decide (i < length d)%nat) as [Hi|Hi].
  - rewrite lookup_take_lt by done. unfold aread. rewrite list_lookup_fmap, lookup_seq_lt by lia. simpl.
    destruct (lookup_lt_is_Some_2 d i Hi) as [y Hy]. rewrite Hy, (Hd i y Hy). done.
  - rewrite lookup_take_ge, lookup_ge_None_2 by lia. done.
Qed.

Lemma sfs_read_view_spec p ino s G own v bm u a :
  at_file s G own p ino v bm → uio_ok u → is_read u = true → (uio_resid u = 0 → uio_offset u < max_file) →
  view s G !! ino ≡ Some a → wpe (sfs_io p) (read_post p ino s G a u) (s, u).
Proof.
  intros Haf Hu Hr Hz Ha. rewrite (view_lookup s G ino _ _ (af_file _ _ _ _ _ _ _ Haf)) in Ha.
  apply (inj Some) in Ha as (_ & _ & Hsz & Hby). simpl in *.
  eapply wpe_mono; [by apply (sfs_read_io_spec p ino s G own v bm u Haf Hu)|].
  intros r [s1 u1'] (G1 & own1 & v1 & bm1 & d & u1 & Haf1 & Hx & Hl & Hw & Hc). rewrite Hr in Hw.
  destruct Hw as [Hq Hd]. exists G1, own1, v1, bm1, d, u1. split; [done|]. split; [eapply wrote_shape, (Hq 0 0)|].
  split; [done|]. rewrite Hsz in *. split; [|split; [by apply quiet_view|split; [apply (Hq 0 0)|eapply ended_ext; [done| |exact Hc]; intros x Hx0; by rewrite Hby]]]. apply aread_prefix; [done|].
  intros i y Hi. rewrite <- Hby by (pose proof (uo_off _ Hu); lia). by apply Hd.
Qed.
