(* ===== verification/SfsTrunc.v ===== *)
(** Truncating a file: which of its blocks go back to the free map and what
    becomes of its bytes. *)

From Stdlib Require Import ZArith Lia.
From stdpp Require Import base numbers list option gmap.
From S2P Require Import Prelude Array Bitmap Errm Uio UioProofs Lhd LhdProofs SfsDisk Sfs SfsBlock SfsInv SfsBmap SfsIo SfsSpec.

Open Scope Z_scope.

(** The blocks [P] of a block map. *)
Definition trim (P : Z → bool) (bm : gmap Z Z) : gmap Z Z := filter (λ x, P (x.1) = true) bm.

(** The owners that stay when the blocks [P] of file [ino] stay, and its
    indirect block if [ind]. *)
Definition stays (ino : Z) (P : Z → bool) (ind : bool) (o : owner) : bool :=
  match o with
  | OData i k => negb (i =? ino) || P k
  | OInd i => negb (i =? ino) || ind
  | _ => true
  end.

Definition trim_own (ino : Z) (P : Z → bool) (ind : bool) (own : gmap Z owner) : gmap Z owner :=
  filter (λ x, stays ino P ind (x.2) = true) own.

Lemma lookup_trim P bm k b : trim P bm !! k = Some b ↔ bm !! k = Some b ∧ P k = true.
Proof. unfold trim. rewrite map_lookup_filter_Some. done. Qed.

Lemma lookup_trim_default P bm k : default 0 (trim P bm !! k) = if P k then default 0 (bm !! k) else 0.
Proof.
  destruct (trim P bm !! k) as [b|] eqn:E; [by apply lookup_trim in E as [-> ->]|]. destruct (P k) eqn:EP; [|done].
  destruct (bm !! k) as [b|] eqn:Eb; [|done]. rewrite (proj2 (lookup_trim P bm k b)) in E by done. done.
Qed.

Lemma lookup_trim_own ino P ind own b o :
  trim_own ino P ind own !! b = Some o ↔ own !! b = Some o ∧ stays ino P ind o = true.
Proof. unfold trim_own. rewrite map_lookup_filter_Some. done. Qed.

Lemma trim_trim P Q bm : trim P (trim Q bm) = trim (λ k, Q k && P k) bm.
Proof. apply map_eq. intros k. apply option_eq. intros b. rewrite !lookup_trim. destruct (Q k), (P k); naive_solver. Qed.

Lemma trim_ext P Q bm : (∀ k, P k = Q k) → trim P bm = trim Q bm.
Proof. intros H. apply map_eq. intros k. apply option_eq. intros b. by rewrite !lookup_trim, H. Qed.

Lemma trim_all P bm : (∀ k b, bm !! k = Some b → P k = true) → trim P bm = bm.
Proof. intros H. apply map_eq. intros k. apply option_eq. intros b. rewrite lookup_trim. naive_solver. Qed.

Lemma fbyte_trim P sec bm x : fbyte sec (trim P bm) x = if P (x / 512) then fbyte sec bm x else 0.
Proof.
  unfold fbyte. destruct (trim P bm !! (x / 512)) as [b|] eqn:E; [by apply lookup_trim in E as [-> ->]|].
  destruct (P (x / 512)) eqn:EP; [|done]. destruct (bm !! (x / 512)) as [b|] eqn:Eb; [|done].
  rewrite (proj2 (lookup_trim P bm _ b)) in E by done. done.
Qed.

(** [s'] has the blocks [L] of [s] marked free. *)
Definition freed (L : Z → Prop) (s s' : sfs) : Prop :=
  ∃ fm dirty, s' = set_freemap fm dirty s ∧ bitmap_wf fm ∧ nbits fm = nbits (sfs_freemap s) ∧ map_kept s s' ∧
    ∀ i, 0 ≤ i → bit fm i = true ↔ bit (sfs_freemap s) i = true ∧ ¬ L i.

Lemma freed_fs_ok L s s' : fs_ok s → freed L s s' → (∀ i, L i → i < nblocks s) → fs_ok s'.
Proof.
  intros Hs (fm & d & -> & Hwf & Hn & Hmk & Hb) HL. apply fs_ok_freemap; try done. intros i Hi.
  apply Hb; [pose proof (fo_nblocks _ Hs); lia|]. split; [by apply (fo_past _ Hs)|]. intros Hl. specialize (HL i Hl). lia.
Qed.

Lemma freed_refl s (L : Z → Prop) : fs_ok s → (∀ i, ¬ L i) → freed L s s.
Proof.
  intros Hs HL. exists (sfs_freemap s), (sfs_freemapdirty s). split; [by destruct s|]. split; [apply Hs|]. split; [done|]. split; [done|].
  intros i Hi. specialize (HL i). tauto.
Qed.

Lemma freed_more (L L' : Z → Prop) b s s1 s2 :
  freed L s s1 → free_step s1 b s2 → (∀ i, L' i ↔ L i ∨ i = b) → freed L' s s2.
Proof.
  intros (fm & d & -> & Hwf & Hn & Hmk & Hb) (fm2 & -> & Hwf2 & Hn2 & Hb2) HL. exists fm2, true.
  split; [done|]. split; [done|]. split; [simpl in Hn2; congruence|]. split; [split; [done|]; split; [simpl in *; congruence|done]|].
  intros i Hi. rewrite Hb2 by done. simpl.
  rewrite HL. destruct (Z.eqb_spec i b) as [->|Hne]; [naive_solver|]. rewrite Hb by done. naive_solver.
Qed.

(** ** Dropping blocks from a loaded file *)

(** The blocks the file no longer has are free, and no block is lost. *)
Record trim_exact (ino : Z) (s : sfs) (G : files) (v : sfs_vnode) (bm' : gmap Z Z) (s' : sfs) (G' : files) (v' : sfs_vnode) : Prop := {
  tx_lost : no_loss s G s' G';
  tx_free : ∀ bm, G !! ino = Some (sv_i v, bm) → lossless s s' ino (sv_i v) bm (sv_i v') bm';
  tx_ind : sfi_indirect (sv_i v') = sfi_indirect (sv_i v) ∨ sfi_indirect (sv_i v') = 0
}.

Lemma trim_exact_trans ino s G own p v bm s1 G1 own1 v1 bm1 bm2 s2 G2 v2 :
  at_file s G own p ino v bm → at_file s1 G1 own1 p ino v1 bm1 → sfs_sb s1 = sfs_sb s →
  trim_exact ino s G v bm1 s1 G1 v1 → trim_exact ino s1 G1 v1 bm2 s2 G2 v2 → trim_exact ino s G v bm2 s2 G2 v2.
Proof.
  intros Haf Haf1 Esb [A1 A2 A3] [B1 B2 B3]. split; [by eapply no_loss_trans| |].
  - intros bm' Hbm b Hb Hbit Hno. destruct (B2 bm1 (af_file _ _ _ _ _ _ _ Haf1) b) as [Hbit1 Hno1]; [by rewrite Esb|done|done|].
    by apply (A2 bm' Hbm).
  - destruct B3 as [->|]; [done|by right].
Qed.

(** The relation between the states: the vnode's file has block map [bm'],
    its bytes are those of the blocks left, nothing else changed. *)
Definition trimmed_to (p ino : Z) (s : sfs) (G : files) (v : sfs_vnode) (bm' : gmap Z Z) (s' : sfs)
    (G' : files) (own' : gmap Z owner) (v' : sfs_vnode) : Prop :=
  at_file s' G' own' p ino v' bm' ∧ shape s s' ∧ same_meta (sv_i v) (sv_i v') ∧
    (∀ k b, bm' !! k = Some b → sect s' b = sect s b) ∧
    view s' G' ≡ <[ino := AFile (sfi_type (sv_i v)) (sfi_linkcount (sv_i v)) (sfi_size (sv_i v)) (fbyte (sect s) bm')]> (view s G) ∧
    trim_exact ino s G v bm' s' G' v'.

Definition trimmed (p ino : Z) (s : sfs) (G : files) (v : sfs_vnode) (bm' : gmap Z Z) (s' : sfs) : Prop :=
  ∃ G' own' v', trimmed_to p ino s G v bm' s' G' own' v'.

Lemma change_shape s G own s' own' p v v' bm bm' :
  file_change s G own s' own' p v v' bm bm' → s_orc s' = s_orc s → (reads_fine s → reads_fine s') → shape s s'.
Proof.
  intros HC Ho Hr. split; try apply HC; try done. intros q. rewrite (fc_vn' _ _ _ _ _ _ _ _ _ _ HC).
  destruct (decide (q = p)) as [->|Hne].
  - rewrite lookup_insert_eq, (fc_vn _ _ _ _ _ _ _ _ _ _ HC). apply HC.
  - rewrite lookup_insert_ne by congruence. by destruct (s_vn s !! q).
Qed.

Lemma change_view s G own s' own' p v v' bm bm' :
  fs_inv s G own → file_change s G own s' own' p v v' bm bm' →
  view s' (<[sv_ino v := (sv_i v', bm')]> G) ≡ <[sv_ino v := view_file (sect s') (sv_i v', bm')]> (view s G).
Proof.
  intros HI HC i. unfold view. rewrite fmap_insert. destruct (decide (i = sv_ino v)) as [->|Hne].
  - by rewrite !lookup_insert_eq.
  - rewrite !lookup_insert_ne, !lookup_fmap by done. destruct (G !! i) as [[nd b]|] eqn:Hi; [|done]. simpl. constructor.
    split_and!; try done. intros x _. simpl. by apply (change_other _ _ _ _ _ _ _ _ _ _ i nd b HI HC).
Qed.

(** The blocks [P] of a file stay: the new free map and inode, and what is
    left of the block map. *)
Lemma inv_trim s G own p ino v bm P ind v' s' :
  at_file s G own p ino v bm → same_vnode v v' → (sv_dirty v' = true ∨ v' = v) → let nd := sv_i v' in
  fs_ok s' → sfs_sb s' = sfs_sb s → map_kept s s' → sfs_vnodes s' = sfs_vnodes s → s_next s' = s_next s →
  s_orc s' = s_orc s → (reads_fine s → reads_fine s') → s_vn s' = <[p := v']> (s_vn s) →
  (∀ b, 0 ≤ b < nblocks s → bit (sfs_freemap s) b = true →
     (∀ o, own !! b = Some o → stays ino P ind o = true) → bit (sfs_freemap s') b = true) →
  (∀ b, 0 ≤ b < nblocks s → bit (sfs_freemap s') b = true → bit (sfs_freemap s) b = true ∧
     (∀ k, bm !! k = Some b → P k = true) ∧ (b ≠ 0 → b = sfi_indirect (sv_i v) → sfi_indirect nd = sfi_indirect (sv_i v))) →
  (∀ c, c ≠ sfi_indirect (sv_i v) → sect s' c = sect s c) → (sfi_indirect (sv_i v) = 0 → ∀ c, sect s' c = sect s c) →
  inode_wf nd → same_meta (sv_i v) nd → imap_ok (sect s') nd (trim P bm) →
  (sfi_indirect nd ≠ 0 → ind = true ∧ sfi_indirect nd = sfi_indirect (sv_i v)) →
  trimmed p ino s G v (trim P bm) s'.
Proof.
  intros Haf Hsame Hdirty nd Hok Esb Hmk Etab Enext Eorc Er Evn Hbit Hbit' Hsec Hsec0 Hwf Hmeta Himap Hind. subst nd.
  pose proof Haf as [A1 A2 A3 A4]. pose proof (af_ok _ _ _ _ _ _ _ Haf) as Hf. subst ino.
  assert (∀ k b, bm !! k = Some b → sect s' b = sect s b) as Hdata.
  { intros k b Hb. destruct (decide (sfi_indirect (sv_i v) = 0)) as [E|E]; [by apply Hsec0|]. apply Hsec. intros ->.
    pose proof (fl_data _ _ _ _ _ Hf _ _ Hb) as H1. rewrite (fl_ind _ _ _ _ _ Hf E) in H1. done. }
  assert (lossless s s' (sv_ino v) (sv_i v) bm (sv_i v') (trim P bm)) as Hls.
  { intros b Hb Hb' Hno. destruct (Hbit' b Hb Hb') as (H1 & H2 & H3). split; [done|]. intros [E|[[Hz E]|[k Hk]]]; apply Hno.
    - by left.
    - right; left. by rewrite H3.
    - right; right. exists k. apply lookup_trim. split; [done|by apply H2]. }
  assert (file_change s G own s' (trim_own (sv_ino v) P ind own) p v v' bm (trim P bm)) as HC.
  { split; try done.
    - destruct Hmeta as (_ & ? & _). done.
    - intros b o. rewrite lookup_trim_own. intros [Ho Hst]. destruct (iv_own _ _ _ A1 b o Ho) as [Hb1 Hb2].
      split; [done|]. apply Hbit; [done|done|]. intros o' Ho'. by simplify_eq.
    - intros c o Ho. destruct (stays (sv_ino v) P ind o) eqn:Est.
      + destruct (decide (c = sfi_indirect (sv_i v))) as [->|Hc].
        * destruct (decide (sfi_indirect (sv_i v) = 0)) as [E|E].
          -- right. split; [by apply lookup_trim_own|]. right. by apply Hsec0.
          -- rewrite (fl_ind _ _ _ _ _ Hf E) in Ho. injection Ho as <-. by left.
        * right. split; [by apply lookup_trim_own|]. right. by apply Hsec.
      + left. destruct o; simpl in *; try done; destruct (Z.eqb_spec ino (sv_ino v)); done.
    - destruct Hf as [F1 F2 F3 F4 F5 F6 F7]. split.
      + done.
      + destruct Hmeta as (-> & _). done.
      + by apply lookup_trim_own.
      + done.
      + intros E. destruct (Hind E) as [-> ->]. apply lookup_trim_own. destruct (Hind E) as [_ Ei]. rewrite Ei in E.
        split; [by apply F5|]. simpl. by rewrite orb_true_r.
      + intros k b. rewrite lookup_trim. intros [Hb HP]. apply lookup_trim_own. split; [by apply F6|]. simpl. by rewrite HP, orb_true_r.
      + destruct Hmeta as (_ & -> & _). done.
    - destruct Hdirty as [?| ->]; [by left|]. destruct (af_dirty _ _ _ _ _ _ _ Haf) as [?|Hs]; [by left|right].
      rewrite <- Hs. destruct (decide (sfi_indirect (sv_i v) = 0)) as [E0|E0]; [by apply Hsec0|]. apply Hsec. intros Ei.
      pose proof (fl_own _ _ _ _ _ Hf) as H1. rewrite Ei, (fl_ind _ _ _ _ _ Hf E0) in H1. done. }
  pose proof (inv_change _ _ _ _ _ _ _ _ _ _ A1 HC) as HI'.
  eexists _, _, v'. split; [split; [exact HI'|rewrite Evn; apply lookup_insert_eq|by destruct Hsame|apply lookup_insert_eq]|].
  split; [by eapply change_shape|]. split; [done|]. split.
  { intros k b Hb. apply lookup_trim in Hb as [Hb _]. by eapply Hdata. }
  split.
  2:{ split; [by eapply no_loss_change|intros m Hm; by simplify_eq|].
      destruct (decide (sfi_indirect (sv_i v') = 0)) as [E|E]; [by right|left]. by apply Hind. }
  rewrite (change_view _ _ _ _ _ _ _ _ _ _ A1 HC). destruct Hmeta as (E1 & E2 & E3).
  apply insert_proper; [|done]. split_and!; try done. intros x _. simpl. apply fbyte_frame.
  intros k b Hb. apply lookup_trim in Hb as [Hb _]. by eapply Hdata.
Qed.

Lemma trimmed_refl p ino s G own v bm : at_file s G own p ino v bm → trimmed p ino s G v bm s.
Proof.
  intros Haf. exists G, own, v. split; [done|]. split; [eapply wrote_shape, (quiet_refl s G 0 0)|]. split; [done|].
  split; [done|]. split; [|split; [apply no_loss_refl| |by left]].
  - rewrite insert_id; [done|]. apply (view_lookup s G ino (sv_i v) bm), Haf.
  - intros m Hm. rewrite (af_file _ _ _ _ _ _ _ Haf) in Hm. injection Hm as <-. by intros b.
Qed.

Lemma trimmed_trans p ino s G own v bm bm1 s1 G1 own1 v1 P s2 :
  at_file s G own p ino v bm → trimmed_to p ino s G v bm1 s1 G1 own1 v1 → trimmed p ino s1 G1 v1 (trim P bm1) s2 →
  trimmed p ino s G v (trim P bm1) s2.
Proof.
  intros Haf (Haf1 & Hsh1 & Hm1 & Hd1 & Hv1 & Hx1) (G2 & own2 & v2 & Haf2 & Hsh2 & Hm2 & Hd2 & Hv2 & Hx2).
  exists G2, own2, v2. split; [done|]. split; [by eapply shape_trans|].
  destruct Hm1 as (E1 & E2 & E3), Hm2 as (F1 & F2 & F3). split; [split_and!; congruence|]. split.
  { intros k b Hb. rewrite (Hd2 k b Hb). apply lookup_trim in Hb as [Hb _]. by eapply Hd1. }
  split; [|eapply (trim_exact_trans ino s G own p v bm s1 G1 own1 v1); [done..|apply Hsh1|done|done]].
  rewrite Hv2, Hv1, insert_insert_eq, E1, E2, E3. apply insert_proper; [|done]. split_and!; try done. intros x _. simpl.
  apply fbyte_frame. intros k b Hb. apply lookup_trim in Hb as [Hb _]. by eapply Hd1.
Qed.

(** Blocks of a file are distinct. *)
Lemma block_inj sec own ino nd bm k k' b : file_ok sec own ino nd bm → bm !! k = Some b → bm !! k' = Some b → k = k'.
Proof. intros Hf H1 H2. pose proof (fl_data _ _ _ _ _ Hf _ _ H1). pose proof (fl_data _ _ _ _ _ Hf _ _ H2). congruence. Qed.

Lemma not_data sec own ino nd bm b : file_ok sec own ino nd bm → own !! b = Some (OInd ino) → ∀ k, bm !! k ≠ Some b.
Proof. intros Hf Hb k Hk. pose proof (fl_data _ _ _ _ _ Hf _ _ Hk). congruence. Qed.

(** ** The direct blocks *)

Lemma free_direct s G own p ino v bm k b :
  at_file s G own p ino v bm → 0 ≤ k < 15 → bm !! k = Some b →
  wpe (_ ← sfs_bfree b; upd_inode p (λ nd, set_direct (<[Z.to_nat k := 0]> (sfi_direct nd)) nd))
    (λ r s', r = inr tt ∧ trimmed p ino s G v (trim (λ k', negb (k' =? k)) bm) s') s.
Proof.
  intros Haf Hk Hb. pose proof Haf as [A1 A2 A3 A4]. pose proof (af_ok _ _ _ _ _ _ _ Haf) as Hf.
  pose proof (fl_data _ _ _ _ _ Hf _ _ Hb) as Ho. destruct (iv_own _ _ _ A1 _ _ Ho) as [Hr Hbit].
  apply wpe_bind. eapply wpe_mono; [by apply sfs_bfree_spec; [apply A1|..]|]. intros r s1 [-> Hst].
  pose proof (free_step_fs_ok _ _ _ (iv_ok _ _ _ A1) Hr Hst) as Hok1. destruct Hst as (fm & -> & _ & Hnb & Hbits).
  eapply wpe_upd_inode; [exact A2|]. split; [done|].
  destruct Hf as [(W1 & W2 & W3 & W4 & W5 & W6) _ _ [M1 M2 M3 M4] _ _].
  apply (inv_trim s G own p ino v bm _ true (set_inode (set_direct (<[Z.to_nat k := 0]> (sfi_direct (sv_i v))) (sv_i v)) true v)); try done.
  - by left.
  - by destruct Hok1.
  - intros c Hc Hcb Hst. simpl. rewrite Hbits by lia. destruct (Z.eqb_spec c b) as [->|]; [|done].
    specialize (Hst _ Ho). simpl in Hst. by rewrite !Z.eqb_refl in Hst.
  - intros c Hc Hcb. simpl in Hcb. rewrite Hbits in Hcb by lia. destruct (Z.eqb_spec c b) as [->|Hne]; [done|]. split; [done|].
    split; [|done]. intros k' Hk'. destruct (Z.eqb_spec k' k) as [->|]; [congruence|done].
  - split; [done|]. split; [done|]. split; [done|]. simpl. split; [by rewrite length_insert|].
    split; [|done]. apply Forall_insert; [done|]. unfold is_u32. lia.
  - split; simpl.
    + intros k' b' Hb'. apply lookup_trim in Hb' as [Hb' _]. by apply M1.
    + intros k' Hk'. rewrite lookup_trim_default. destruct (Z.eqb_spec k' k) as [->|Hne]; simpl.
      * rewrite list_lookup_insert_eq; [done|]. lia.
      * rewrite list_lookup_insert_ne by lia. by apply M2.
    + intros E k' Hk'. destruct (trim _ bm !! k') as [b'|] eqn:Hb'; [|done]. apply lookup_trim in Hb' as [Hb' _]. by rewrite M3 in Hb'.
    + intros E j Hj. rewrite M4 by done. rewrite lookup_trim_default. destruct (Z.eqb_spec (15 + j) k); [lia|done].
Qed.

(** After the first [i] direct blocks. *)
Definition keep_direct (blocklen i k : Z) : bool := (k <? blocklen) || (i <=? k).

Lemma load_direct s G own p ino v bm k :
  at_file s G own p ino v bm → 0 ≤ k < 15 → load (sfi_direct (sv_i v)) k = Ret (default 0 (bm !! k)).
Proof.
  intros Haf Hk. apply load_lookup; [lia|]. by apply (im_direct _ _ _ (fl_map _ _ _ _ _ (af_ok _ _ _ _ _ _ _ Haf))).
Qed.

Lemma truncate_direct_spec n p ino s0 G0 own0 v0 bm0 s i blocklen :
  at_file s0 G0 own0 p ino v0 bm0 → i + Z.of_nat n = 15 → 0 ≤ i →
  trimmed p ino s0 G0 v0 (trim (keep_direct blocklen i) bm0) s →
  wpe (sfs_truncate_direct n p i blocklen)
    (λ r s', r = inr tt ∧ trimmed p ino s0 G0 v0 (trim (keep_direct blocklen 15) bm0) s') s.
Proof.
  intros Haf0. revert s i. induction n as [|n IH]; intros s i Hn Hi Htr; cbn [sfs_truncate_direct].
  { apply wpe_ret. split; [done|]. by replace 15 with i by lia. }
  assert (trim (keep_direct blocklen (i + 1)) bm0 =
    trim (λ k, negb (k =? i) || (k <? blocklen)) (trim (keep_direct blocklen i) bm0)) as Enext.
  { rewrite trim_trim. apply trim_ext. intros k. unfold keep_direct. lia. }
  assert ((i <? blocklen = true ∨ trim (keep_direct blocklen i) bm0 !! i = None) →
    trim (keep_direct blocklen (i + 1)) bm0 = trim (keep_direct blocklen i) bm0) as Hskip.
  { intros Hs. rewrite Enext. apply trim_all. intros k b Hb. destruct (Z.eqb_spec k i) as [->|]; [|done]. simpl.
    destruct Hs as [?|Hs]; [done|]. congruence. }
  destruct Htr as (G & own & v & Htr). pose proof Htr as (Haf & _). apply wpe_bind. eapply wpe_getv; [apply Haf|].
  apply wpe_bind. eapply wpe_lift; [eapply load_direct; [exact Haf|lia]|].
  set (bm := trim (keep_direct blocklen i) bm0) in *. apply wpe_bind.
  destruct (Z.leb_spec blocklen i) as [Hle|Hgt]; cbn [andb].
  2:{ estep. apply IH; [lia|lia|]. rewrite Hskip; [by exists G, own, v|]. left. lia. }
  destruct (bm !! i) as [b|] eqn:Hb; cbn [from_option id].
  2:{ cbn [Z.eqb negb]. estep. apply IH; [lia|lia|]. rewrite Hskip; [by exists G, own, v|]. by right. }
  destruct (im_keys _ _ _ (fl_map _ _ _ _ _ (af_ok _ _ _ _ _ _ _ Haf)) _ _ Hb) as [_ Hnz].
  rewrite (proj2 (Z.eqb_neq b 0)) by done. cbn [negb].
  eapply wpe_mono; [eapply free_direct; [exact Haf|lia|exact Hb]|]. intros r s' [-> Hs']. apply IH; [lia|lia|].
  assert (trim (keep_direct blocklen (i + 1)) bm0 = trim (λ k', negb (k' =? i)) bm) as ->; [|by eapply (trimmed_trans p ino s0 G0 own0)].
  rewrite Enext. apply trim_ext. intros k. lia.
Qed.

(** ** The indirect block *)

Section indirect.
Context (s : sfs) (G : files) (own : gmap Z owner) (p ino : Z) (v : sfs_vnode) (bm : gmap Z Z) (blocklen : Z).
Context (Haf : at_file s G own p ino v bm).

(** The blocks to go among the first [j] entries, and whether one stays. *)
Definition goes (j b : Z) : Prop := ∃ k, 15 ≤ k < 15 + j ∧ blocklen < k ∧ bm !! k = Some b.
Definition some_left (j : Z) : Prop := ∃ k b, 15 ≤ k < 15 + j ∧ k ≤ blocklen ∧ bm !! k = Some b.

(** The loop's variables before entry [j]. *)
Record ind_loop (j : Z) (ws : list Z) (hasnonzero iddirty : bool) (s' : sfs) : Prop := {
  il_len : length ws = 128%nat;
  il_ws : ∀ i, 0 ≤ i < 128 → ws !! Z.to_nat i =
    Some (if (i <? j) && (blocklen <? 15 + i) then 0 else default 0 (bm !! (15 + i)));
  il_nz : hasnonzero = true ↔ some_left j;
  il_dirty : iddirty = true ↔ ∃ b, goes j b;
  il_freed : freed (goes j) s s'
}.

Lemma goes_lt j b : goes j b → 0 ≤ b < nblocks s ∧ bit (sfs_freemap s) b = true.
Proof.
  intros (k & _ & _ & Hb). apply (iv_own _ _ _ (af_inv _ _ _ _ _ _ _ Haf) b (OData ino k)).
  by apply (fl_data _ _ _ _ _ (af_ok _ _ _ _ _ _ _ Haf)).
Qed.

Lemma entry_next j (Q : Z → Prop) :
  (∃ k, 15 ≤ k < 15 + (j + 1) ∧ Q k) ↔ (∃ k, 15 ≤ k < 15 + j ∧ Q k) ∨ (0 ≤ j ∧ Q (15 + j)).
Proof.
  split.
  - intros (k & Hk & HQ). destruct (decide (k = 15 + j)) as [->|]; [right; split; [lia|done]|left; exists k; split; [lia|done]].
  - intros [(k & Hk & HQ)|[Hj HQ]]; [exists k; split; [lia|done]|exists (15 + j); split; [lia|done]].
Qed.

Lemma goes_next j b : goes (j + 1) b ↔ goes j b ∨ (0 ≤ j ∧ blocklen < 15 + j ∧ bm !! (15 + j) = Some b).
Proof. unfold goes. rewrite entry_next. done. Qed.

Lemma left_next j : some_left (j + 1) ↔ some_left j ∨ (0 ≤ j ∧ 15 + j ≤ blocklen ∧ is_Some (bm !! (15 + j))).
Proof.
  unfold some_left. split.
  - intros (k & b & Hk & Hle & Hb). destruct (decide (k = 15 + j)) as [->|].
    + right. split; [lia|]. split; [done|by eexists].
    + left. exists k, b. split; [lia|done].
  - intros [(k & b & Hk & Hle & Hb)|(Hj & Hle & [b Hb])]; [exists k, b; split; [lia|done]|exists (15 + j), b; split; [lia|done]].
Qed.

(** An entry that stays as it is. *)
Lemma ind_loop_keep j ws hz d s' :
  0 ≤ j < 128 → ind_loop j ws hz d s' → (blocklen < 15 + j → bm !! (15 + j) = None) →
  ind_loop (j + 1) ws (hz || negb (default 0 (bm !! (15 + j)) =? 0)) d s'.
Proof.
  intros Hj [I1 I2 I3 I4 I5] Hnone. pose proof (af_ok _ _ _ _ _ _ _ Haf) as Hf.
  assert (∀ b, goes (j + 1) b ↔ goes j b) as Hg.
  { intros b. rewrite goes_next. split; [|auto]. intros [?|(_ & Hlt & Hb)]; [done|]. rewrite (Hnone Hlt) in Hb. done. }
  split; [done| | |by setoid_rewrite Hg|].
  - intros i Hi. rewrite I2 by done. destruct (decide (i = j)) as [->|Hne].
    + rewrite (proj2 (Z.ltb_ge j j)), (proj2 (Z.ltb_lt j (j + 1))) by lia. cbn [andb].
      destruct (Z.ltb_spec blocklen (15 + j)) as [Hlt|]; [|done]. by rewrite (Hnone Hlt).
    + by replace (i <? j + 1) with (i <? j) by lia.
  - rewrite left_next, orb_true_iff, I3. apply or_iff_compat_l. destruct (bm !! (15 + j)) as [b|] eqn:Hb; cbn [from_option id].
    + destruct (im_keys _ _ _ (fl_map _ _ _ _ _ Hf) _ _ Hb) as [_ Hnz]. rewrite (proj2 (Z.eqb_neq b 0)) by done.
      split; [|done]. intros _. split; [lia|]. split; [|by eexists]. destruct (Z.le_gt_cases (15 + j) blocklen) as [|Hgt]; [done|].
      specialize (Hnone Hgt). congruence.
    + split; [done|]. intros (_ & _ & []). done.
  - destruct I5 as (fm & dd & E & H1 & H2 & Hmk & H3). exists fm, dd. do 4 (split; [done|]). intros i Hi. rewrite H3 by done. by rewrite Hg.
Qed.

(** An entry whose block is freed. *)
Lemma ind_loop_free j ws hz d s' b s2 :
  0 ≤ j < 128 → ind_loop j ws hz d s' → blocklen < 15 + j → bm !! (15 + j) = Some b → free_step s' b s2 →
  ind_loop (j + 1) (<[Z.to_nat j := 0]> ws) (hz || negb (0 =? 0)) true s2.
Proof.
  intros Hj [I1 I2 I3 I4 I5] Hlt Hb Hst. split.
  - by rewrite length_insert.
  - intros i Hi. destruct (decide (i = j)) as [->|Hne].
    + rewrite list_lookup_insert_eq by lia. rewrite !(proj2 (Z.ltb_lt _ _)) by lia. done.
    + rewrite list_lookup_insert_ne, I2 by lia. by replace (i <? j + 1) with (i <? j) by lia.
  - cbn [Z.eqb negb]. rewrite orb_false_r, I3, left_next. split; [auto|]. intros [?|(_ & Hle & _)]; [done|lia].
  - split; [|done]. intros _. exists b. rewrite goes_next. right. split; [lia|done].
  - eapply freed_more; [exact I5|exact Hst|]. intros i. rewrite goes_next. split; (intros [?|H]; [by left|right]).
    + destruct H as (_ & _ & H). congruence.
    + subst i. split; [lia|done].
Qed.

Lemma truncate_indirect_spec n j ws hz d s' :
  j + Z.of_nat n = 128 → 0 ≤ j → ind_loop j ws hz d s' →
  wpe (sfs_truncate_indirect n j blocklen ws hz d)
    (λ r s2, ∃ ws2 hz2 d2, r = inr (ws2, hz2, d2) ∧ ind_loop 128 ws2 hz2 d2 s2) s'.
Proof.
  revert j ws hz d s'. induction n as [|n IH]; intros j ws hz d s' Hn Hj HL; cbn [sfs_truncate_indirect].
  { apply wpe_ret. exists ws, hz, d. split; [done|]. by replace 128 with j by lia. }
  pose proof HL as [I1 I2 I3 I4 I5]. assert (0 ≤ j < 128) as Hj' by lia.
  assert (load ws j = Ret (default 0 (bm !! (15 + j)))) as El.
  { apply load_lookup; [lia|]. rewrite I2 by lia. by rewrite (proj2 (Z.ltb_ge j j)) by lia. }
  apply wpe_bind. eapply wpe_lift; [exact El|]. apply wpe_bind. unfold SFS_NDIRECT.
  destruct (Z.ltb_spec blocklen (15 + j)) as [Hlt|Hge]; cbn [andb].
  2:{ apply wpe_ret. cbv beta iota. apply wpe_bind. eapply wpe_lift; [exact El|]. apply IH; [lia|lia|].
      apply ind_loop_keep; try done. lia. }
  destruct (bm !! (15 + j)) as [b|] eqn:Hb; cbn [from_option id] in *.
  2:{ cbn [Z.eqb negb]. apply wpe_ret. cbv beta iota. apply wpe_bind. eapply wpe_lift; [exact El|]. apply IH; [lia|lia|].
      pose proof (ind_loop_keep j ws hz d s' Hj' HL ltac:(done)) as H. by rewrite Hb in H. }
  destruct (im_keys _ _ _ (fl_map _ _ _ _ _ (af_ok _ _ _ _ _ _ _ Haf)) _ _ Hb) as [_ Hnz].
  rewrite (proj2 (Z.eqb_neq b 0)) by done. cbn [negb].
  destruct (goes_lt (j + 1) b) as [Hr Hbit]; [apply goes_next; right; split; [lia|done]|].
  assert (fs_ok s') as Hok'.
  { eapply freed_fs_ok; [apply (iv_ok _ _ _ (af_inv _ _ _ _ _ _ _ Haf))|exact I5|]. intros i Hi. apply goes_lt in Hi as [? _]. lia. }
  apply wpe_bind. eapply wpe_mono; [apply sfs_bfree_spec; [done| |]|].
  - by destruct I5 as (fm & dd & -> & _).
  - destruct I5 as (fm & dd & -> & _ & _ & _ & H3). apply H3; [lia|]. split; [done|]. intros (k & Hk & _ & Hk').
    pose proof (block_inj _ _ _ _ _ _ _ _ (af_ok _ _ _ _ _ _ _ Haf) Hb Hk'). lia.
  - intros r s2 [-> Hst]. apply wpe_ret. cbv beta iota. apply wpe_bind.
    eapply wpe_lift; [apply load_lookup; [lia|]; apply list_lookup_insert_eq; lia|]. apply IH; [lia|lia|].
    by eapply ind_loop_free.
Qed.
End indirect.

Definition keep_indirect (blocklen k : Z) : bool := (k <? 15) || (k <=? blocklen).

(** What the loop leaves, in terms of the block map. *)
Lemma ind_loop_words s bm blocklen ws hz d s' j :
  ind_loop s bm blocklen 128 ws hz d s' → 0 ≤ j < 128 →
  ws !! Z.to_nat j = Some (default 0 (trim (keep_indirect blocklen) bm !! (15 + j))).
Proof.
  intros [_ Hws _ _ _] Hj. rewrite Hws by done. rewrite lookup_trim_default. unfold keep_indirect.
  rewrite (proj2 (Z.ltb_lt j 128)), (proj2 (Z.ltb_ge (15 + j) 15)) by lia. cbn [andb orb].
  destruct (Z.ltb_spec blocklen (15 + j)), (Z.leb_spec (15 + j) blocklen); done || lia.
Qed.

(** Which bits are still set. *)
Lemma ind_loop_bits s G own p ino v bm blocklen ws hz d s' ind b :
  at_file s G own p ino v bm → ind_loop s bm blocklen 128 ws hz d s' → 0 ≤ b → bit (sfs_freemap s) b = true →
  (∀ o, own !! b = Some o → stays ino (keep_indirect blocklen) ind o = true) → bit (sfs_freemap s') b = true.
Proof.
  intros Haf [_ _ _ _ (fm & dd & -> & _ & _ & Hb)] Hr Hbit Hst. apply Hb; [done|]. split; [done|].
  intros (k & Hk & Hlt & Hkb). specialize (Hst _ (fl_data _ _ _ _ _ (af_ok _ _ _ _ _ _ _ Haf) _ _ Hkb)). simpl in Hst.
  rewrite Z.eqb_refl in Hst. unfold keep_indirect in Hst. simpl in Hst. lia.
Qed.

(** And what the set ones say. *)
Lemma ind_loop_marked s bm blocklen ws hz d s' b :
  (∀ k c, bm !! k = Some c → 0 ≤ k < 143) → ind_loop s bm blocklen 128 ws hz d s' → 0 ≤ b → bit (sfs_freemap s') b = true →
  bit (sfs_freemap s) b = true ∧ ∀ k, bm !! k = Some b → keep_indirect blocklen k = true.
Proof.
  intros Hkeys [_ _ _ _ (fm & dd & -> & _ & _ & _ & Hb)] Hr Hbit. apply Hb in Hbit as [Hbit Hno]; [|done]. split; [done|].
  intros k Hk. pose proof (Hkeys k b Hk). unfold keep_indirect. destruct (Z.ltb_spec k 15); [done|]. destruct (Z.leb_spec k blocklen); [done|].
  exfalso. apply Hno. exists k. split; [lia|]. split; [lia|done].
Qed.

Lemma imap_trim_direct sec nd bm blocklen k :
  imap_ok sec nd bm → 0 ≤ k < 15 → sfi_direct nd !! Z.to_nat k = Some (default 0 (trim (keep_indirect blocklen) bm !! k)).
Proof.
  intros HM Hk. rewrite (im_direct _ _ _ HM) by done. rewrite lookup_trim_default. unfold keep_indirect.
  by rewrite (proj2 (Z.ltb_lt k 15)) by lia.
Qed.

Lemma imap_trim_keys sec nd bm P k b : imap_ok sec nd bm → trim P bm !! k = Some b → 0 ≤ k < 143 ∧ b ≠ 0.
Proof. intros HM Hb. apply lookup_trim in Hb as [Hb _]. by apply (im_keys _ _ _ HM). Qed.

(** The indirect block stays. *)
Lemma keep_indirect_block s G own p ino v bm blocklen ws hz d s' s3 :
  at_file s G own p ino v bm → sfi_indirect (sv_i v) ≠ 0 → ind_loop s bm blocklen 128 ws hz d s' →
  (s3 = s' ∧ d = false) ∨ write_step s' (sfi_indirect (sv_i v)) (unwords ws) s3 →
  trimmed p ino s G v (trim (keep_indirect blocklen) bm) s3.
Proof.
  intros Haf Hi HL Hc. pose proof Haf as [A1 A2 A3 A4]. pose proof (af_ok _ _ _ _ _ _ _ Haf) as Hf.
  pose proof (fl_map _ _ _ _ _ Hf) as HM. pose proof HL as [I1 I2 I3 I4 I5].
  assert (fs_ok s') as Hok'.
  { eapply freed_fs_ok; [apply A1|exact I5|]. intros i Hi'. by apply (goes_lt s G own p ino v bm blocklen Haf) in Hi' as [[_ ?] _]. }
  assert (Forall is_u32 ws) as Hu32.
  { apply Forall_lookup. intros i w Hw. assert (i < 128)%nat as Hlt by (apply lookup_lt_Some in Hw; lia).
    pose proof (ind_loop_words s bm blocklen ws hz d s' (Z.of_nat i) HL ltac:(lia)) as E. rewrite Nat2Z.id, Hw in E.
    injection E as ->. destruct (trim _ bm !! _) as [b|] eqn:Hb; [|unfold is_u32; simpl; lia].
    apply lookup_trim in Hb as [Hb _]. by apply (own_u32 _ _ _ _ _ A1 (fl_data _ _ _ _ _ Hf _ _ Hb)). }
  assert (fs_ok s3 ∧ (∀ c, c ≠ sfi_indirect (sv_i v) → sect s3 c = sect s c) ∧
    (∀ j, 0 ≤ j < 128 → words (sect s3 (sfi_indirect (sv_i v))) !! Z.to_nat j =
       Some (default 0 (trim (keep_indirect blocklen) bm !! (15 + j)))) ∧
    sfs_freemap s3 = sfs_freemap s' ∧ sfs_sb s3 = sfs_sb s ∧ sfs_vnodes s3 = sfs_vnodes s ∧ s_next s3 = s_next s ∧
    s_orc s3 = s_orc s ∧ (reads_fine s → reads_fine s3) ∧ s_vn s3 = s_vn s ∧ map_kept s s3)
    as (K1 & K2 & K3 & K4 & K5 & K6 & K7 & K8 & K9 & K10 & K11).
  { destruct Hc as [[-> ->]|Hw].
    - split; [done|]. destruct I5 as (fm & dd & -> & _ & _ & Hmk & _). split_and!; try done. intros j Hj.
      rewrite (im_ind _ _ _ HM Hi) by done. rewrite lookup_trim_default. unfold keep_indirect.
      rewrite (proj2 (Z.ltb_ge (15 + j) 15)) by lia. cbn [orb]. destruct (Z.leb_spec (15 + j) blocklen) as [|Hgt]; [done|].
      destruct (bm !! (15 + j)) as [b|] eqn:Hb; [|done]. exfalso. assert (false = true) as E; [|done].
      apply I4. exists b, (15 + j). split; [lia|done].
    - split; [by eapply write_step_fs_ok|]. destruct I5 as (fm & dd & -> & _ & _ & Hmk & _). destruct Hw as (dev & -> & [D1 D2 D3 D4 D5]).
      simpl. split_and!; try done.
      + intros c Hc. by rewrite D2, decide_False.
      + intros j Hj. rewrite D2, decide_True, words_unwords_nil by done. by eapply (ind_loop_words s). }
  apply (inv_trim s G own p ino v bm (keep_indirect blocklen) true v); try done.
  - by right.
  - by rewrite K10, insert_id.
  - intros b Hb Hbit Hst. rewrite K4. apply (ind_loop_bits s G own p ino v bm blocklen ws hz d s' true b); done || lia.
  - intros b Hb Hbit. rewrite K4 in Hbit. destruct (ind_loop_marked s bm blocklen ws hz d s' b) as [H1 H2]; [|done|lia|done|by split_and!].
    intros k c Hk. by apply (im_keys _ _ _ HM k c).
  - apply Hf.
  - split; try done.
    + intros k b. by apply (imap_trim_keys (sect s) (sv_i v)).
    + intros k. by apply (imap_trim_direct (sect s)).
Qed.

(** The indirect block goes too. *)
Lemma drop_indirect_block s G own p ino v bm blocklen ws d s' s3 :
  at_file s G own p ino v bm → sfi_indirect (sv_i v) ≠ 0 → ind_loop s bm blocklen 128 ws false d s' →
  free_step s' (sfi_indirect (sv_i v)) s3 →
  trimmed p ino s G v (trim (keep_indirect blocklen) bm)
    (set_vn (<[p := set_inode (set_indirect 0 (sv_i v)) true v]> (s_vn s3)) s3).
Proof.
  intros Haf Hi HL Hst. pose proof Haf as [A1 A2 A3 A4]. pose proof (af_ok _ _ _ _ _ _ _ Haf) as Hf.
  pose proof (fl_map _ _ _ _ _ Hf) as HM. pose proof HL as [I1 I2 I3 I4 I5]. pose proof (fl_ind _ _ _ _ _ Hf Hi) as Hoi.
  destruct (iv_own _ _ _ A1 _ _ Hoi) as [Hri _].
  assert (fs_ok s') as Hok'.
  { eapply freed_fs_ok; [apply A1|exact I5|]. intros i Hi'. by apply (goes_lt s G own p ino v bm blocklen Haf) in Hi' as [[_ ?] _]. }
  assert (fs_ok s3) as Hok3.
  { eapply free_step_fs_ok; [exact Hok'| |exact Hst]. by destruct I5 as (fm & dd & -> & _). }
  assert (∀ b, 0 ≤ b < nblocks s → bit (sfs_freemap s) b = true →
     (∀ o, own !! b = Some o → stays ino (keep_indirect blocklen) false o = true) → bit (sfs_freemap s3) b = true) as Hbits.
  { intros b Hb Hbit Hs. destruct Hst as (fm3 & -> & _ & _ & Hb3). simpl. rewrite Hb3 by lia.
    destruct (Z.eqb_spec b (sfi_indirect (sv_i v))) as [->|]; [specialize (Hs _ Hoi); simpl in Hs; by rewrite Z.eqb_refl in Hs|].
    apply (ind_loop_bits s G own p ino v bm blocklen ws false d s' false b); done || lia. }
  assert (∀ b, 0 ≤ b < nblocks s → bit (sfs_freemap s3) b = true → bit (sfs_freemap s) b = true ∧
     (∀ k, bm !! k = Some b → keep_indirect blocklen k = true) ∧ (b ≠ 0 → b = sfi_indirect (sv_i v) → 0 = sfi_indirect (sv_i v))) as Hbits'.
  { intros b Hb Hbit. destruct Hst as (fm3 & -> & _ & _ & Hb3). simpl in Hbit. rewrite Hb3 in Hbit by lia.
    destruct (Z.eqb_spec b (sfi_indirect (sv_i v))) as [->|Hne]; [done|].
    destruct (ind_loop_marked s bm blocklen ws false d s' b) as [H1 H2]; [|done|lia|done|by split_and!].
    intros k c Hk. by apply (im_keys _ _ _ HM k c). }
  assert (∀ k, 15 ≤ k → trim (keep_indirect blocklen) bm !! k = None) as Hgone.
  { intros k Hk. destruct (trim _ bm !! k) as [b|] eqn:Hb; [exfalso|done]. apply lookup_trim in Hb as [Hb HP].
    destruct (im_keys _ _ _ HM _ _ Hb) as [? _]. assert (false = true) as E; [|done]. apply I3. exists k, b.
    unfold keep_indirect in HP. split; [lia|]. split; [lia|done]. }
  destruct I5 as (fm & dd & -> & _ & Hn1 & _). destruct Hst as (fm3 & -> & _ & Hn3 & _).
  apply (inv_trim s G own p ino v bm (keep_indirect blocklen) false (set_inode (set_indirect 0 (sv_i v)) true v)); try done.
  - by left.
  - by destruct Hok3.
  - split; [done|]. simpl in *. split; [congruence|done].
  - destruct Hf as [(W1 & W2 & W3 & W4 & W5 & W6 & W7) _ _ _ _ _].
    split; [done|]. split; [done|]. split; [done|]. split; [done|]. split; [done|]. split; [simpl; unfold is_u32; lia|done].
  - split; simpl; try done.
    + intros k b. by apply (imap_trim_keys (sect s) (sv_i v)).
    + intros k. by apply (imap_trim_direct (sect s)).
Qed.

(** ** The whole operation *)

Lemma read_trimmed p ino s G own v bm s1 :
  at_file s G own p ino v bm → read_step s s1 → trimmed_to p ino s G v bm s1 G own v.
Proof.
  intros Haf Hst. pose proof Haf as [A1 A2 A3 A4]. destruct (inv_read _ _ _ _ A1 Hst) as [HI1 Hq].
  split; [destruct Hst as (d & -> & _); by split|]. split; [eapply wrote_shape, (Hq 0 0)|]. split; [done|]. split; [|split; [|split; [apply (Hq 0 0)| |by left]]].
  - intros k b _. by destruct Hst as (d & -> & [_ D2 _ _ _]).
  - rewrite (quiet_view _ _ _ _ Hq), insert_id; [done|]. by apply (view_lookup s G ino (sv_i v) bm).
  - intros m Hm. rewrite A4 in Hm. injection Hm as <-. destruct Hst as (d & -> & _). by intros b.
Qed.

(** The indirect block, if there is one, has an entry. *)
Definition ind_needed (p blocklen : Z) (bm : gmap Z Z) (s : sfs) : Prop :=
  ∀ v, s_vn s !! p = Some v → sfi_indirect (sv_i v) ≠ 0 → blocklen < 142 → ∃ k, 15 ≤ k ∧ is_Some (bm !! k).

Lemma truncate_indirect_part s G own p ino v bm blocklen :
  at_file s G own p ino v bm →
  let idblock := sfi_indirect (sv_i v) in
  wpe (if (blocklen <? SFS_NDIRECT + SFS_DBPERIDB - 1) && negb (idblock =? 0) then
         idbuf ← sfs_rblock zeros idblock;
         '(ws, hasnonzero, iddirty) ← sfs_truncate_indirect 128 0 blocklen (words idbuf) false false;
         if negb hasnonzero then
           _ ← sfs_bfree idblock;
           upd_inode p (set_indirect 0)
         else if (iddirty : bool) then sfs_wblock (unwords ws) idblock
         else mret tt
       else mret tt)
    (λ r s', (r = inr tt ∧ trimmed p ino s G v (trim (keep_indirect blocklen) bm) s' ∧ ind_needed p blocklen (trim (keep_indirect blocklen) bm) s') ∨
             (r = inl EIO ∧ ¬ reads_fine s ∧ trimmed p ino s G v bm s')) s.
Proof.
  intros Haf idblock. pose proof Haf as [A1 A2 A3 A4]. pose proof (af_ok _ _ _ _ _ _ _ Haf) as Hf.
  pose proof (fl_map _ _ _ _ _ Hf) as HM. change (SFS_NDIRECT + SFS_DBPERIDB - 1) with 142.
  assert ((142 ≤ blocklen ∨ idblock = 0) → trimmed p ino s G v (trim (keep_indirect blocklen) bm) s) as Hsame.
  { intros Hc. rewrite trim_all; [by eapply trimmed_refl|]. intros k b Hb. destruct (im_keys _ _ _ HM _ _ Hb) as [Hk _].
    unfold keep_indirect. destruct Hc as [?|Hz]; [lia|]. destruct (Z.lt_ge_cases k 15); [lia|].
    rewrite (im_noind _ _ _ HM Hz) in Hb by done. done. }
  destruct (Z.ltb_spec blocklen 142); cbn [andb]; [|apply wpe_ret; left; split; [done|]; split; [apply Hsame; lia|intros w _ _ ?; lia]].
  destruct (Z.eqb_spec idblock 0) as [Hz|Hnz]; cbn [negb]; [apply wpe_ret; left; split; [done|]; split; [apply Hsame; auto|]; intros w Hw; rewrite A2 in Hw; by injection Hw as <-|].
  pose proof (fl_ind _ _ _ _ _ Hf Hnz) as Hoi. destruct (iv_own _ _ _ A1 _ _ Hoi) as [Hri Hbi]. fold idblock in Hri, Hbi.
  apply wpe_bind. eapply wpe_mono; [apply sfs_rblock_spec; [apply A1|done|apply zeros_ok..]|].
  intros r s1 [Hst Hr]. pose proof (read_trimmed _ _ _ _ _ _ _ _ Haf Hst) as Ht1. pose proof Ht1 as (Haf1 & _).
  destruct Hr as [-> |[-> Hne]]; [|right; split; [done|]; split; [done|by exists G, own, v]].
  assert (sect s1 idblock = sect s idblock) as Esec by (by destruct Hst as (d & -> & [_ D2 _ _ _])).
  destruct (do_sect _ (fo_disk _ (iv_ok _ _ _ A1)) idblock) as [Hlen Hby].
  apply wpe_bind. eapply wpe_mono.
  { apply (truncate_indirect_spec s1 G own p ino v bm blocklen Haf1); [lia|lia|]. split.
    - by apply (words_length 128).
    - intros i Hi. rewrite (proj2 (Z.ltb_ge i 0)) by lia. cbn [andb]. by apply (im_ind _ _ _ HM).
    - split; [done|]. intros (k & b & Hk & _). lia.
    - split; [done|]. intros (b & k & Hk & _). lia.
    - apply freed_refl; [apply (iv_ok _ _ _ (af_inv _ _ _ _ _ _ _ Haf1))|]. intros i (k & Hk & _). lia. }
  intros r s2 (ws & hz & d & -> & HL). cbv beta iota. pose proof (il_freed _ _ _ _ _ _ _ _ HL) as Hfr.
  assert (fs_ok s2) as Hok2.
  { eapply freed_fs_ok; [apply (iv_ok _ _ _ (af_inv _ _ _ _ _ _ _ Haf1))|exact Hfr|]. intros i Hi'.
    by apply (goes_lt s1 G own p ino v bm blocklen Haf1) in Hi' as [[_ ?] _]. }
  assert (nblocks s2 = nblocks s) as Hnb by (destruct Hfr as (fm & dd & -> & _); destruct Hst as (d' & -> & _); done).
  destruct hz; cbn [negb].
  - assert (∀ s3, ind_needed p blocklen (trim (keep_indirect blocklen) bm) s3) as Hnd.
    { intros s3 w _ _ _. destruct (proj1 (il_nz _ _ _ _ _ _ _ _ HL) eq_refl) as (k & b & Hk & Hle & Hb). exists k. split; [lia|].
      exists b. apply lookup_trim. split; [done|]. unfold keep_indirect. lia. }
    destruct d; [|apply wpe_ret; left; split; [done|]; split; [eapply trimmed_trans; [exact Haf|exact Ht1|]; eapply keep_indirect_block; eauto|done]].
    eapply wpe_mono; [apply sfs_wblock_spec; [done|rewrite Hnb; done| |apply unwords_bytes]|].
    { rewrite unwords_length, (il_len _ _ _ _ _ _ _ _ HL). done. }
    intros r s3 [-> Hw]. left. split; [done|]. split; [|done]. eapply trimmed_trans; [exact Haf|exact Ht1|]. eapply keep_indirect_block; eauto.
  - apply wpe_bind. eapply wpe_mono; [apply sfs_bfree_spec; [done|rewrite Hnb; done|]|].
    { destruct (iv_own _ _ _ (af_inv _ _ _ _ _ _ _ Haf1) _ _ Hoi) as [_ Hb1].
      apply (ind_loop_bits s1 G own p ino v bm blocklen ws false d s2 true); [done|done|lia|done|].
      intros o Ho. fold idblock in Hoi. rewrite Hoi in Ho. injection Ho as <-. simpl. by rewrite orb_true_r. }
    intros r s3 [-> Hst3]. eapply wpe_upd_inode.
    { assert (s_vn s3 = s_vn s1) as ->; [|apply Haf1]. destruct Hst3 as (fm3 & -> & _), Hfr as (fm & dd & -> & _). done. }
    left. split; [done|]. split; [eapply trimmed_trans; [exact Haf|exact Ht1|]; by eapply drop_indirect_block|].
    intros w Hw. simpl in Hw. rewrite lookup_insert_eq in Hw. by injection Hw as <-.
Qed.

(** The number of blocks of a file of [len] bytes. *)
Definition blocks_of (len : Z) : Z := (len + 511) / 512.

(** The blocks that survive. *)
Definition keep (blocklen k : Z) : bool := (k <? blocklen) || (15 <=? k) && (k =? blocklen).

(** Truncation of an abstract file, as the code does it: the blocks beyond
    the new end read as zeros, but for the one just beyond it when that is in
    the indirect block. *)
Definition atrim (P : Z → bool) (size : Z) (a : afile) : afile :=
  AFile (a_type a) (a_links a) size (λ x, if P (x / 512) then a_byte a x else 0).

Definition atrunc (len : Z) (a : afile) : afile := atrim (keep (blocks_of len)) len a.

(** When the indirect block cannot be read, the direct blocks are gone and
    the size is as it was. *)
Definition atrunc_failed (len : Z) (a : afile) : afile := atrim (keep_direct (blocks_of len) 15) (a_size a) a.

Lemma keep_both blocklen bm :
  trim (keep_indirect blocklen) (trim (keep_direct blocklen 15) bm) = trim (keep blocklen) bm.
Proof. rewrite trim_trim. apply trim_ext. intros k. unfold keep_indirect, keep_direct, keep. lia. Qed.

Lemma view_trim s G own p ino v bm P size :
  at_file s G own p ino v bm →
  <[ino := AFile (sfi_type (sv_i v)) (sfi_linkcount (sv_i v)) size (fbyte (sect s) (trim P bm))]> (view s G) ≡
  alter (atrim P size) ino (view s G).
Proof.
  intros Haf i. pose proof (view_lookup s G ino _ _ (af_file _ _ _ _ _ _ _ Haf)) as Hv.
  destruct (decide (i = ino)) as [->|Hne]; [|by rewrite lookup_insert_ne, lookup_alter_ne].
  rewrite lookup_insert_eq, lookup_alter_eq, Hv. constructor. split_and!; try done. intros x _. simpl. apply fbyte_trim.
Qed.

Lemma alter_ext_at (f g : afile → afile) ino (V : gmap Z afile) a :
  V !! ino = Some a → f a ≡ g a → alter f ino V ≡ alter g ino V.
Proof.
  intros Ha Hfg i. destruct (decide (i = ino)) as [->|Hne]; [|by rewrite !lookup_alter_ne].
  rewrite !lookup_alter_eq, Ha. by constructor.
Qed.

(** The blocks [P] of the file are still its own; the others are free. *)
Definition cut (P : Z → bool) (ino : Z) (G : files) (bm' : gmap Z Z) (s' : sfs) : Prop :=
  ∀ nd bm, G !! ino = Some (nd, bm) → bm' = trim P bm ∧ ∀ k b, bm !! k = Some b → bit (sfs_freemap s') b = P k.

Lemma trim_cut p ino s G own v bm s' G' own' v' P :
  at_file s G own p ino v bm → at_file s' G' own' p ino v' (trim P bm) → sfs_sb s' = sfs_sb s →
  trim_exact ino s G v (trim P bm) s' G' v' → cut P ino G (trim P bm) s'.
Proof.
  intros Haf Haf' Esb [_ Hfree Hind] nd bm0 HG. pose proof (af_file _ _ _ _ _ _ _ Haf) as HG'. rewrite HG' in HG. injection HG as <- <-.
  split; [done|]. intros k b Hb. pose proof (af_ok _ _ _ _ _ _ _ Haf) as Hf. pose proof (fl_data _ _ _ _ _ Hf _ _ Hb) as Ho.
  destruct (iv_own _ _ _ (af_inv _ _ _ _ _ _ _ Haf) _ _ Ho) as [Hr _]. destruct (P k) eqn:HP.
  - apply (iv_own _ _ _ (af_inv _ _ _ _ _ _ _ Haf') b (OData ino k)), (fl_data _ _ _ _ _ (af_ok _ _ _ _ _ _ _ Haf')). by apply lookup_trim.
  - apply not_true_iff_false. intros Hbit. destruct (Hfree bm HG' b Hr Hbit) as [_ Hno].
    + intros [->|[[Hz E]|[k' Hk']]].
      * by rewrite (fl_own _ _ _ _ _ Hf) in Ho.
      * destruct Hind as [Ei|Ei]; [|congruence]. rewrite E, Ei, (fl_ind _ _ _ _ _ Hf) in Ho by congruence. done.
      * apply lookup_trim in Hk' as [Hk' HP']. pose proof (block_inj _ _ _ _ _ _ _ _ Hf Hb Hk'). congruence.
    + apply Hno. right; right. by exists k.
Qed.

Definition trunc_post (p ino len : Z) (s : sfs) (G : files) (r : Z + unit) (s' : sfs) : Prop :=
  ∃ G' own' v' bm', at_file s' G' own' p ino v' bm' ∧ shape s s' ∧ no_loss s G s' G' ∧
    ((r = inr tt ∧ view s' G' ≡ alter (atrunc len) ino (view s G) ∧ cut (keep (blocks_of len)) ino G bm' s' ∧
       ind_needed p (blocks_of len) bm' s') ∨
     (r = inl EIO ∧ ¬ reads_fine s ∧ view s' G' ≡ alter (atrunc_failed len) ino (view s G) ∧ cut (keep_direct (blocks_of len) 15) ino G bm' s')).

Lemma sfs_truncate_spec p ino s G own v bm len :
  at_file s G own p ino v bm → 0 ≤ len → len + 512 < 2147483648 →
  wpe (sfs_truncate p len) (trunc_post p ino len s G) s.
Proof.
  intros Haf Hlen Hmax. unfold sfs_truncate. change SFS_BLOCKSIZE with 512.
  assert (u32 (Z.quot (s32 (s32 (len + 512) - 1)) 512) = blocks_of len) as ->.
  { rewrite (s32_id (len + 512)), s32_id by (unfold is_s32; lia). rewrite Z.quot_div_nonneg by lia.
    replace (len + 512 - 1) with (len + 511) by lia. pose proof (Z.div_pos (len + 511) 512 ltac:(lia) ltac:(lia)).
    pose proof (Z.div_le_upper_bound (len + 511) 512 2147483648 ltac:(lia) ltac:(lia)).
    unfold blocks_of. apply u32_id. unfold is_u32. lia. }
  cbv zeta. set (bl := blocks_of len). apply wpe_bind. eapply wpe_mono.
  { eapply (truncate_direct_spec 15 p ino s G own v bm s 0 bl); [done|done|done|]. rewrite trim_all; [by eapply trimmed_refl|].
    intros k b Hb. destruct (im_keys _ _ _ (fl_map _ _ _ _ _ (af_ok _ _ _ _ _ _ _ Haf)) _ _ Hb) as [Hk _].
    unfold keep_direct. lia. }
  intros r s1 [-> (G1 & own1 & v1 & Ht1)]. pose proof Ht1 as (Haf1 & Hsh1 & Hm1 & Hd1 & Hv1 & Hx1). apply wpe_bind.
  eapply wpe_getv; [apply Haf1|]. cbv beta. apply wpe_bind. eapply wpe_mono; [by apply (truncate_indirect_part s1 G1 own1 p ino v1)|].
  pose proof (view_lookup s G ino _ _ (af_file _ _ _ _ _ _ _ Haf)) as Hvi.
  intros r s2 [(-> & Ht2 & Hnd)|(-> & Hnr & Ht2)].
  - pose proof (trimmed_trans _ _ _ _ _ _ _ _ _ _ _ _ _ _ Haf Ht1 Ht2) as (G2 & own2 & v2 & Haf2 & Hsh2 & Hm2 & Hd2 & Hv2 & Hx2).
    rewrite keep_both in *. eapply wpe_upd_inode; [apply Haf2|]. rewrite u32_id by (unfold is_u32; lia).
    destruct (af_ok _ _ _ _ _ _ _ Haf2) as [(F1 & F2) _ _ _ _ _].
    destruct (inv_meta s2 G2 own2 p ino v2 _ (set_size len (sv_i v2)) Haf2) as (Haf3 & Hsh3 & Hnl3 & Ev); try done; [|simpl; lia|].
    { split; [unfold is_u32; simpl; lia|done]. }
    eexists _, own2, _, _. split; [exact Haf3|]. split; [by eapply shape_trans|]. split; [eapply no_loss_trans; [apply Hx2|exact Hnl3]|].
    left. split; [done|]. split; [|split; [exact (trim_cut p ino s G own v bm s2 G2 own2 v2 (keep bl) Haf Haf2 (sh_sb _ _ Hsh2) Hx2)|]].
    2:{ intros w Hw. simpl in Hw. rewrite lookup_insert_eq in Hw. injection Hw as <-. apply (Hnd v2), Haf2. }
    destruct Hm2 as (E1 & E2 & E3). rewrite Ev, Hv2, insert_insert_eq. simpl. rewrite E2, E3.
    change (atrunc len) with (atrim (keep bl) len). rewrite <- (view_trim s G own p ino v bm (keep bl) len Haf).
    apply insert_proper; [|done]. split_and!; try done. intros x _. simpl. by apply fbyte_frame.
  - destruct Ht2 as (G2 & own2 & v2 & Haf2 & Hsh2 & Hm2 & Hd2 & Hv2 & Hx2).
    pose proof (trim_exact_trans ino s G own p v bm s1 G1 own1 v1 _ _ s2 G2 v2 Haf Haf1 (sh_sb _ _ Hsh1) Hx1 Hx2) as Hx. exists G2, own2, v2, (trim (keep_direct bl 15) bm).
    split; [done|]. split; [by eapply shape_trans|]. split; [apply Hx|]. right. split; [done|]. split; [intros Hf; by apply Hnr, (sh_r _ _ Hsh1)|].
    split; [|eapply (trim_cut p ino s G own v bm s2 G2 own2 v2); [done|done| |done]; by rewrite (sh_sb _ _ Hsh2), (sh_sb _ _ Hsh1)].
    destruct Hm1 as (E1 & E2 & E3). rewrite Hv2, Hv1, insert_insert_eq, E1, E2, E3.
    rewrite (alter_ext_at (atrunc_failed len) (atrim (keep_direct bl 15) (sfi_size (sv_i v))) ino (view s G) _ Hvi) by done.
    rewrite <- (view_trim s G own p ino v bm (keep_direct bl 15) (sfi_size (sv_i v)) Haf).
    apply insert_proper; [|done]. split_and!; try done. intros x _. simpl. by apply fbyte_frame.
Qed.
