(* ===== verification/SfsAbs.v ===== *)
(** SFS as its vnode operations see it: the abstract files and the table of
    referenced vnodes.  The ghosts of the invariant are hidden in [fsat]; the
    rules here are what the directory operations are proved from. *)

From Stdlib Require Import ZArith Lia.
From stdpp Require Import base numbers list option gmap.
From S2P Require Import Prelude Array Bitmap Errm Uio UioProofs Lhd LhdProofs SfsDisk Sfs SfsBlock SfsInv SfsBmap SfsIo SfsSpec SfsTrunc.

Open Scope Z_scope.

(** ** The abstract state *)

(** A loaded vnode: the file and the two counts. *)
Record vref := VRef { r_ino : Z; r_count : Z; r_open : Z }.

#[export] Instance vref_eq_dec : EqDecision vref.
Proof. solve_decision. Defined.

Definition vref_of (v : sfs_vnode) : vref := VRef (sv_ino v) (sv_refcount v) (sv_opencount v).
Definition vrefs (s : sfs) : gmap Z vref := vref_of <$> s_vn s.

(** No block of the volume is lost. *)
Definition tight (s : sfs) (G : files) : Prop := ∀ b, ¬ lost s G b.

Lemma tight_step s G s' G' : no_loss s G s' G' → tight s G → tight s' G'.
Proof. intros Hn Ht b Hb. by apply (Ht b), Hn. Qed.

(** The volume has the files [V], the vnodes [R] are loaded and, if [t], no
    block is lost: every block the free map has in use is the system's or one
    of a file of [V]. *)
Definition fsat (t : Prop) (s : sfs) (V : gmap Z afile) (R : gmap Z vref) : Prop :=
  ∃ G own, fs_inv s G own ∧ view s G ≡ V ∧ vrefs s = R ∧ (t → tight s G).

(** The disk will not fail to read, nor memory run out. *)
Definition plenty (s : sfs) : Prop := reads_fine s ∧ s_orc s = [].

Record keeps (s s' : sfs) : Prop := {
  kp_sb : sfs_sb s' = sfs_sb s;
  kp_r : reads_fine s → reads_fine s';
  kp_o : s_orc s = [] → s_orc s' = []
}.

Lemma keeps_refl s : keeps s s.
Proof. done. Qed.

Lemma keeps_trans s1 s2 s3 : keeps s1 s2 → keeps s2 s3 → keeps s1 s3.
Proof. intros [A1 A2 A3] [B1 B2 B3]. split; [congruence|auto..]. Qed.

Lemma keeps_noread s s' : keeps s s' → ¬ reads_fine s' → ¬ reads_fine s.
Proof. intros [_ H _] Hn Hf. auto. Qed.

Lemma shape_keeps s s' : shape s s' → keeps s s'.
Proof. intros Hs. split; [apply Hs|apply Hs|]. by rewrite (sh_orc _ _ Hs). Qed.

Lemma shape_vrefs s s' : shape s s' → vrefs s' = vrefs s.
Proof.
  intros Hs. apply map_eq. intros p. unfold vrefs. rewrite !lookup_fmap. pose proof (sh_vn _ _ Hs p) as H.
  destruct (s_vn s !! p) as [v|], (s_vn s' !! p) as [v'|]; try done. destruct H as (E1 & E2 & E3 & _). simpl.
  unfold vref_of. by rewrite E1, E2, E3.
Qed.

Lemma keeps_plenty s s' : keeps s s' → plenty s → plenty s'.
Proof. intros [_ K2 K3] [H1 H2]. split; auto. Qed.

Section fsat.
Context {t : Prop}.

#[export] Instance fsat_proper s : Proper ((≡) ==> (=) ==> iff) (fsat t s).
Proof.
  intros V V' HV R R' <-. split; intros (G & own & HI & Hv & HR); exists G, own; (split; [done|]); (split; [|done]); by rewrite Hv.
Qed.

Lemma fsat_file s V R p r :
  fsat t s V R → R !! p = Some r →
  ∃ G own v bm, at_file s G own p (r_ino r) v bm ∧ view s G ≡ V ∧ (vrefs s = R ∧ (t → tight s G)) ∧ vref_of v = r ∧
    V !! r_ino r ≡ Some (view_file (sect s) (sv_i v, bm)).
Proof.
  intros (G & own & HI & Hv & <- & Ht) Hp. unfold vrefs in Hp. rewrite lookup_fmap in Hp.
  destruct (s_vn s !! p) as [v|] eqn:Hpv; [|done]. injection Hp as <-.
  destruct (at_file_intro _ _ _ _ _ HI Hpv) as (bm & Haf). exists G, own, v, bm. split; [done|]. split; [done|]. split; [done|].
  split; [done|]. cbn [r_ino vref_of]. rewrite <- (Hv (sv_ino v)).
  by rewrite (view_lookup s G _ _ _ (af_file _ _ _ _ _ _ _ Haf)).
Qed.

Lemma fsat_vn s V R p r : fsat t s V R → R !! p = Some r → ∃ v, s_vn s !! p = Some v ∧ vref_of v = r.
Proof. intros H Hp. destruct (fsat_file _ _ _ _ _ H Hp) as (G & own & v & bm & Haf & _ & _ & Er & _). exists v. split; [apply Haf|done]. Qed.

Lemma fsat_inj s V R p q r r' : fsat t s V R → R !! p = Some r → R !! q = Some r' → r_ino r = r_ino r' → p = q.
Proof.
  intros (G & own & HI & _ & <- & _) Hp Hq. unfold vrefs in *. rewrite lookup_fmap in *.
  destruct (s_vn s !! p) as [v|] eqn:Ev, (s_vn s !! q) as [w|] eqn:Ew; try done. injection Hp as <-. injection Hq as <-.
  simpl. by apply (iv_inj _ _ _ HI p q v w).
Qed.

(** A file and its abstraction. *)
Lemma fsat_meta s V R p r a :
  fsat t s V R → R !! p = Some r → V !! r_ino r = Some a →
  ∃ v, s_vn s !! p = Some v ∧ vref_of v = r ∧ a_type a = sfi_type (sv_i v) ∧ a_links a = sfi_linkcount (sv_i v) ∧
    a_size a = sfi_size (sv_i v) ∧ 0 ≤ a_size a < 2147483648 ∧ is_u16 (a_links a) ∧ ops_of (sv_i v) (sv_ops v) ∧
    0 < r_count r ∧ 0 ≤ r_open r.
Proof.
  intros H Hp Ha. destruct (fsat_file _ _ _ _ _ H Hp) as (G & own & v & bm & Haf & _ & _ & Er & Hv). rewrite Ha in Hv.
  apply (inj Some) in Hv as (E1 & E2 & E3 & _). simpl in *. pose proof (af_ok _ _ _ _ _ _ _ Haf) as [(W1 & W2 & W3 & _) F2].
  destruct (iv_vn _ _ _ (af_inv _ _ _ _ _ _ _ Haf) _ _ (af_vn _ _ _ _ _ _ _ Haf)) as (_ & J1 & J2 & J3 & _).
  exists v. split; [apply Haf|]. unfold is_u32 in W1. subst r. rewrite E1, E2, E3. split_and!; done || lia.
Qed.

(** ** Reading, writing, truncating *)

Section rules.
Context (s : sfs) (V : gmap Z afile) (R : gmap Z vref) (p : Z) (r : vref) (a : afile).
Context (HS : fsat t s V R) (Hp : R !! p = Some r) (Ha : V !! r_ino r = Some a).

Lemma fsat_sfs_read u :
  uio_ok u → is_read u = true → (uio_resid u = 0 → uio_offset u < max_file) →
  wpe (sfs_io p) (λ res '(s', u'), ∃ d u1, fsat t s' V R ∧ keeps s s' ∧ xfer u d u1 ∧
    d `prefix_of` aread (uio_offset u) (uio_resid u) a ∧
    ended s (a_byte a) u (avail (a_size a) (uio_offset u) (uio_resid u)) d u1 res u') (s, u).
Proof.
  intros Hu Hr Hz. destruct (fsat_file _ _ _ _ _ HS Hp) as (G & own & v & bm & Haf & Hv & [HR Ht] & Er & Hva).
  eapply wpe_mono; [eapply (sfs_read_view_spec p _ s G own v bm u a Haf Hu Hr Hz); rewrite (Hv _), Ha; done|].
  intros res [s' u'] (G' & own' & v' & bm' & d & u1 & Haf' & Hsh & Hx & Hpre & Hv' & Hnl & He).
  exists d, u1. split; [|split; [by apply shape_keeps|done]]. exists G', own'. split; [apply Haf'|].
  split; [by rewrite Hv', Hv|]. split; [by rewrite (shape_vrefs _ _ Hsh)|]. intros H. by apply (tight_step s G), Ht.
Qed.

Lemma fsat_sfs_write u :
  uio_ok u → is_read u = false → (uio_resid u = 0 → uio_offset u < max_file) →
  wpe (sfs_io p) (λ res '(s', u'), ∃ d u1, fsat t s' (<[r_ino r := awrite (uio_offset u) d a]> V) R ∧ keeps s s' ∧
    xfer u d u1 ∧ ended s (a_byte a) u (uio_resid u) d u1 res u') (s, u).
Proof.
  intros Hu Hr Hz. destruct (fsat_file _ _ _ _ _ HS Hp) as (G & own & v & bm & Haf & Hv & [HR Ht] & Er & Hva).
  eapply wpe_mono; [eapply (sfs_write_io_spec p _ s G own v bm u a Haf Hu Hr Hz); rewrite (Hv _), Ha; done|].
  intros res [s' u'] (G' & own' & v' & bm' & d & u1 & Haf' & Hsh & Hx & Hl & Hv' & Hnl & He).
  exists d, u1. split; [|split; [by apply shape_keeps|done]]. exists G', own'. split; [apply Haf'|].
  split; [|split; [by rewrite (shape_vrefs _ _ Hsh)|intros H; by apply (tight_step s G), Ht]]. rewrite Hv'. intros i. destruct (decide (i = r_ino r)) as [->|Hne].
  - rewrite lookup_alter_eq, lookup_insert_eq. rewrite (Hv (r_ino r)), Ha. done.
  - rewrite lookup_alter_ne, lookup_insert_ne by done. apply Hv.
Qed.

(** The file system after a truncation. *)
Lemma trunc_fsat G own v bm len res s' :
  at_file s G own p (r_ino r) v bm → view s G ≡ V → vrefs s = R → (t → tight s G) → trunc_post p (r_ino r) len s G res s' →
  keeps s s' ∧ ((res = inr tt ∧ fsat t s' (<[r_ino r := atrunc len a]> V) R) ∨
     (res = inl EIO ∧ ¬ reads_fine s ∧ fsat t s' (<[r_ino r := atrunc_failed len a]> V) R)).
Proof using HS Hp Ha.
  intros Haf Hv HR Ht (G' & own' & v' & bm' & Haf' & Hsh & Hnl & Hc). split; [by apply shape_keeps|].
  assert (∀ f : afile → afile, Proper ((≡) ==> (≡)) f → view s' G' ≡ alter f (r_ino r) (view s G) →
    fsat t s' (<[r_ino r := f a]> V) R) as Hf.
  { intros f Hf Hv'. exists G', own'. split; [apply Haf'|].
    split; [|split; [by rewrite (shape_vrefs _ _ Hsh)|intros H; by apply (tight_step s G), Ht]]. rewrite Hv'. intros i.
    destruct (decide (i = r_ino r)) as [->|Hne].
    - rewrite lookup_alter_eq, lookup_insert_eq. pose proof (Hv (r_ino r)) as E. rewrite Ha in E.
      destruct (view s G !! r_ino r); inversion E; subst. constructor. by apply Hf.
    - rewrite lookup_alter_ne, lookup_insert_ne by done. apply Hv. }
  destruct Hc as [(-> & Hv' & _)|(-> & Hn & Hv' & _)]; [left|right]; split; try done; [|split; [done|]]; apply Hf; try done.
  - intros b c (H1 & H2 & H3 & H4). split_and!; try done. intros x Hx. simpl. destruct (keep _ _); [by apply H4|done].
  - intros b c (H1 & H2 & H3 & H4). split_and!; try done. intros x Hx. simpl. destruct (keep_direct _ _ _); [by apply H4|done].
Qed.

Lemma fsat_truncate len :
  0 ≤ len → len + 512 < 2147483648 →
  wpe (sfs_truncate p len) (λ res s', keeps s s' ∧
    ((res = inr tt ∧ fsat t s' (<[r_ino r := atrunc len a]> V) R) ∨
     (res = inl EIO ∧ ¬ reads_fine s ∧ fsat t s' (<[r_ino r := atrunc_failed len a]> V) R))) s.
Proof.
  intros Hlen Hmax. destruct (fsat_file _ _ _ _ _ HS Hp) as (G & own & v & bm & Haf & Hv & [HR Ht] & Er & Hva).
  eapply wpe_mono; [by apply (sfs_truncate_spec p _ s G own v bm len Haf)|]. intros res s' Hpost. by eapply trunc_fsat.
Qed.

(** A new link count. *)
Lemma fsat_links f :
  is_u16 (f (a_links a)) →
  wpe (upd_inode p (λ i, set_links (f (sfi_linkcount i)) i)) (λ res s', res = inr tt ∧ keeps s s' ∧
    fsat t s' (<[r_ino r := AFile (a_type a) (f (a_links a)) (a_size a) (a_byte a)]> V) R) s.
Proof.
  intros Hf. destruct (fsat_file _ _ _ _ _ HS Hp) as (G & own & v & bm & Haf & Hv & [HR Ht] & Er & Hva).
  eapply wpe_upd_inode; [apply Haf|]. rewrite Ha in Hva. apply (inj Some) in Hva as (E1 & E2 & E3 & E4). simpl in *.
  destruct (af_ok _ _ _ _ _ _ _ Haf) as [(F1 & F2 & F3 & F4) Hsz _ _ _ _ _]. rewrite E2 in *.
  destruct (inv_meta s G own p _ v bm (set_links (f (sfi_linkcount (sv_i v))) (sv_i v)) Haf) as (Haf' & Hsh & Hnl & Ev); try done.
  split; [done|]. split; [by apply shape_keeps|]. eexists _, own. split; [apply Haf'|].
  split; [|split; [by rewrite (shape_vrefs _ _ Hsh)|intros H; by eapply tight_step, Ht]].
  rewrite Ev, Hv. apply insert_proper; [|done]. split_and!; try done. intros x Hx. simpl. symmetry. by apply E4.
Qed.
End rules.

(** ** The vnode table *)

Lemma vrefs_insert s p v : vrefs (set_vn (<[p := v]> (s_vn s)) s) = <[p := vref_of v]> (vrefs s).
Proof. unfold vrefs. simpl. by rewrite fmap_insert. Qed.

(** Changing the counts of a vnode. *)
Lemma inv_counts s G own p v n oc :
  fs_inv s G own → s_vn s !! p = Some v → 0 < n → 0 ≤ oc →
  fs_inv (set_vn (<[p := mkSv (sv_i v) (sv_ino v) (sv_dirty v) n oc (sv_ops v)]> (s_vn s)) s) G own.
Proof.
  intros HI Hp Hn Hoc. pose proof HI as [I1 I2 I3 I4 I5 I6 I7 I8].
  assert (∀ q w, <[p := mkSv (sv_i v) (sv_ino v) (sv_dirty v) n oc (sv_ops v)]> (s_vn s) !! q = Some w →
    ∃ w0, s_vn s !! q = Some w0 ∧ sv_i w = sv_i w0 ∧ sv_ino w = sv_ino w0 ∧ sv_dirty w = sv_dirty w0 ∧ sv_ops w = sv_ops w0 ∧
      0 < sv_refcount w ∧ 0 ≤ sv_opencount w) as Hvn.
  { intros q w. rewrite lookup_insert_Some. intros [[<- <-]|[_ Hq]]; [by exists v|]. exists w.
    destruct (I6 _ _ Hq) as (_ & ? & ? & _). done. }
  split; simpl; try done.
  - by destruct I1.
  - by destruct I3.
  - destruct I5 as (ps & H1 & H2 & H3). exists ps. split_and!; try done.
    intros q. rewrite H3, lookup_insert_is_Some'. split; [by right|]. intros [<-|?]; [by eexists|done].
  - intros q w Hq. destruct (Hvn q w Hq) as (w0 & Hw0 & E1 & E2 & E3 & E4 & E5 & E6).
    destruct (I6 _ _ Hw0) as (J1 & _ & _ & J4 & J5). rewrite E1, E2, E4. done.
  - intros q1 q2 w1 w2 H1 H2 E. destruct (Hvn q1 w1 H1) as (u1 & U1 & _ & E1 & _), (Hvn q2 w2 H2) as (u2 & U2 & _ & E2 & _).
    apply (I7 q1 q2 u1 u2); congruence.
  - intros i nd b Hi. destruct (I8 i nd b Hi) as [(q & w & Hq & Ew & Hd)|?]; [left|by right].
    destruct (decide (q = p)) as [->|Hne].
    + simplify_eq. eexists p, _. rewrite lookup_insert_eq. done.
    + exists q, w. by rewrite lookup_insert_ne.
Qed.

Lemma fsat_counts s V R p r v n oc :
  fsat t s V R → R !! p = Some r → s_vn s !! p = Some v → 0 < n → 0 ≤ oc →
  fsat t (set_vn (<[p := mkSv (sv_i v) (sv_ino v) (sv_dirty v) n oc (sv_ops v)]> (s_vn s)) s) V (<[p := VRef (r_ino r) n oc]> R).
Proof.
  intros (G & own & HI & Hv & <- & Ht) Hp Hpv Hn Hoc. exists G, own. split; [by apply inv_counts|]. split; [exact Hv|]. split; [|exact Ht].
  rewrite vrefs_insert. unfold vrefs in Hp. rewrite lookup_fmap, Hpv in Hp. injection Hp as <-. done.
Qed.

Lemma fsat_incref s V R p r :
  fsat t s V R → R !! p = Some r → r_count r < 2147483647 →
  wpe (VOP_INCREF p) (λ res s', res = inr tt ∧ keeps s s' ∧ fsat t s' V (<[p := VRef (r_ino r) (r_count r + 1) (r_open r)]> R)) s.
Proof.
  intros HS Hp Hc. destruct (fsat_vn _ _ _ _ _ HS Hp) as (v & Hv & Er). unfold VOP_INCREF.
  apply wpe_bind. eapply wpe_getv; [exact Hv|]. apply wpe_mod. split; [done|]. split; [done|].
  destruct HS as (G & own & HI & HV & HR). destruct (iv_vn _ _ _ HI p v Hv) as (_ & J1 & J2 & _).
  assert (HS : fsat t s V R) by (by exists G, own). rewrite <- Er in *. simpl in *. rewrite s32_id by (unfold is_s32; lia).
  apply (fsat_counts s V R p (vref_of v) v); done || lia.
Qed.

(** Unused addresses and allocations. *)
Lemma inv_sorc s G own n o : fs_inv s G own → s_next s ≤ n → fs_inv (set_sorc n o s) G own.
Proof.
  intros [I1 I2 I3 I4 I5 I6 I7 I8] Hn. split; simpl; try done; [by destruct I1|by destruct I3|].
  intros p v Hp. destruct (I6 p v Hp) as (J1 & J2). split; [lia|done].
Qed.

Lemma fsat_sorc s V R n o : fsat t s V R → s_next s ≤ n → fsat t (set_sorc n o s) V R.
Proof. intros (G & own & HI & Hv & HR) Hn. exists G, own. split; [by apply inv_sorc|done]. Qed.

(** The table is not full. *)
Lemma table_room s G own ps :
  fs_inv s G own → NoDup ps → (∀ p, p ∈ ps ↔ is_Some (s_vn s !! p)) → Z.of_nat (length ps) ≤ max_blocks.
Proof.
  intros HI Hnd Hps. set (f := λ p, match s_vn s !! p with Some v => sv_ino v | None => 0 end).
  assert (NoDup (f <$> ps)) as Hf.
  { apply NoDup_fmap_2_strong; [|done]. intros p q Hp Hq. apply Hps in Hp as [v Hv], Hq as [w Hw]. unfold f. rewrite Hv, Hw.
    by apply (iv_inj _ _ _ HI p q v w). }
  assert (f <$> ps ⊆ seqZ 0 (nblocks s)) as Hsub.
  { intros x Hx. apply list_elem_of_fmap in Hx as (p & -> & Hp). apply Hps in Hp as [v Hv]. unfold f. rewrite Hv.
    destruct (iv_vn _ _ _ HI _ _ Hv) as (_ & _ & _ & _ & bm & HG). apply elem_of_seqZ.
    destruct (iv_own _ _ _ HI _ _ (fl_own _ _ _ _ _ (iv_files _ _ _ HI _ _ _ HG))) as [? _]. lia. }
  pose proof (NoDup_submseteq _ _ Hf (λ x, Hsub x)) as Hm. apply submseteq_length in Hm. rewrite length_fmap, length_seqZ in Hm.
  pose proof (fo_nblocks _ (iv_ok _ _ _ HI)). pose proof (do_blocks _ (fo_disk _ (iv_ok _ _ _ HI))). lia.
Qed.
End fsat.
