(* ===== verification/SfsVnode.v ===== *)
(** Loading, creating and reclaiming vnodes. *)

From Stdlib Require Import ZArith Lia.
From stdpp Require Import base numbers list option gmap.
From S2P Require Import Prelude Array Bitmap Errm Uio UioProofs Lhd LhdProofs SfsDisk Sfs SfsBlock SfsInv SfsBmap SfsIo SfsSpec SfsTrunc SfsAbs.

Open Scope Z_scope.

(** ** Searching the table *)

Lemma findvnode_spec s G own ps n i ino :
  fs_inv s G own → array_rep (sfs_vnodes s) ps → (∀ p, p ∈ ps ↔ is_Some (s_vn s !! p)) → (i + n = length ps)%nat →
  wpe (sfs_findvnode n (Z.of_nat i) ino (sfs_vnodes s)) (λ r s', s' = s ∧ ∃ o, r = inr o ∧ match o with
    | Some p => ∃ v, s_vn s !! p = Some v ∧ sv_ino v = ino
    | None => ∀ p v, p ∈ drop i ps → s_vn s !! p = Some v → sv_ino v ≠ ino end) s.
Proof.
  intros HI Hrep Hps. revert i. induction n as [|n IH]; intros i Hi; cbn [sfs_findvnode].
  { apply wpe_ret. split; [done|]. exists None. split; [done|]. intros p v Hp. rewrite drop_ge in Hp by lia. by apply not_elem_of_nil in Hp. }
  destruct (lookup_lt_is_Some_2 ps i) as [p Hp]; [lia|]. apply wpe_bind. eapply wpe_lift; [by eapply array_getguy_ok|].
  destruct (proj1 (Hps p) ltac:(by eapply list_elem_of_lookup_2)) as [v Hv]. apply wpe_bind. eapply wpe_getv; [exact Hv|].
  destruct (iv_vn _ _ _ HI p v Hv) as (_ & _ & _ & _ & bm & HG).
  destruct (iv_own _ _ _ HI _ _ (fl_own _ _ _ _ _ (iv_files _ _ _ HI _ _ _ HG))) as [Hr Hb].
  apply wpe_bind. eapply wpe_mono; [apply sfs_bused_spec; [apply HI|done]|]. intros r s' [-> ->]. rewrite Hb. cbn [negb].
  destruct (Z.eqb_spec (sv_ino v) ino) as [E|E].
  - apply wpe_ret. split; [done|]. exists (Some p). split; [done|]. by exists v.
  - replace (Z.of_nat i + 1) with (Z.of_nat (S i)) by lia. eapply wpe_mono; [apply IH; lia|].
    intros r s' [-> (o & -> & Ho)]. split; [done|]. exists o. split; [done|]. destruct o as [q|]; [done|].
    intros q w Hq Hw. rewrite (drop_S _ _ _ Hp) in Hq. apply elem_of_cons in Hq as [->|Hq]; [congruence|]. by apply (Ho q).
Qed.

(** ** A new vnode *)

Lemma inv_load s G own own' s' p v bm ps a' :
  fs_inv s G own → s_vn s !! p = None → array_rep (sfs_vnodes s) ps → NoDup ps → (∀ q, q ∈ ps ↔ is_Some (s_vn s !! q)) →
  array_rep a' (ps ++ [p]) → (∀ q w, s_vn s !! q = Some w → sv_ino w ≠ sv_ino v) →
  s' = set_vn (<[p := v]> (s_vn s)) (set_vtab a' s) → p < s_next s → 0 < sv_refcount v → 0 ≤ sv_opencount v →
  ops_of (sv_i v) (sv_ops v) → (∀ b o, own !! b = Some o → own' !! b = Some o) →
  (∀ b o, own' !! b = Some o → 0 ≤ b < nblocks s ∧ bit (sfs_freemap s) b = true) →
  file_ok (sect s) own' (sv_ino v) (sv_i v) bm → (sv_dirty v = true ∨ sect s (sv_ino v) = enc_inode (sv_i v)) →
  fs_inv s' (<[sv_ino v := (sv_i v, bm)]> G) own'.
Proof.
  intros HI Hpn Hrep Hnd Hps Ha' Hnl -> Hpn' Hrc Hoc Hops Hsub Hown' Hf Hd. pose proof HI as [I1 I2 I3 I4 I5 I6 I7 I8].
  split; simpl; try done.
  - by destruct I1.
  - eapply sys_frame; [exact I3|done|done|]. intros c Hc. split; [by apply Hsub|done].
  - intros i nd b. rewrite lookup_insert_Some. intros [[<- [= <- <-]]|[_ Hi]]; [done|].
    apply (file_ok_frame (sect s) own); [by apply I4|]. intros c o Hc _. split; [by apply Hsub|done].
  - exists (ps ++ [p]). split; [done|]. split.
    + apply NoDup_app. split; [done|]. split; [|apply NoDup_singleton]. intros q Hq ->%list_elem_of_singleton.
      apply Hps in Hq as [w Hw]. congruence.
    + intros q. rewrite elem_of_app, list_elem_of_singleton, Hps, lookup_insert_is_Some'. split; [intros [?| ->]; auto|intros [->|?]; auto].
  - intros q w. rewrite lookup_insert_Some. intros [[<- <-]|[_ Hq]].
    + split_and!; try done. exists bm. apply lookup_insert_eq.
    + destruct (I6 _ _ Hq) as (J1 & J2 & J3 & J4 & b & Hb). split_and!; try done. exists b.
      rewrite lookup_insert_ne; [done|]. intros E. by apply (Hnl q w Hq).
  - intros q1 q2 w1 w2. rewrite !lookup_insert_Some. intros [[<- <-]|[_ H1]] [[<- <-]|[_ H2]] E; [done| | |by apply (I7 q1 q2 w1 w2)].
    + by destruct (Hnl q2 w2 H2).
    + by destruct (Hnl q1 w1 H1).
  - intros i nd b. rewrite lookup_insert_Some. intros [[<- [= <- <-]]|[_ Hi]].
    + destruct Hd as [Hd|?]; [left|by right]. exists p, v. by rewrite lookup_insert_eq.
    + destruct (I8 i nd b Hi) as [(q & w & Hq & Ew & Hw)|?]; [left|by right]. exists q, w. rewrite lookup_insert_ne by congruence. done.
Qed.

(** The end of [sfs_loadvnode], from the lock of the vnode on. *)
Definition load_tail (p ino : Z) (nd : sfs_inode) (dirty : bool) (ops : vnode_ops) : EM sfs Z :=
  lk ← s_kmalloc;
  match lk with
  | None => raise ENOMEM
  | Some _ =>
      nm ← s_kmalloc;
      match nm with
      | None => raise ENOMEM
      | Some _ =>
          s ← eget;
          '(result, a, o) ← lift (array_add (s_orc s) (sfs_vnodes s) p);
          _ ← emod (λ s, set_sorc (s_next s) o (set_vtab a s));
          if negb (result =? 0) then raise result else
          _ ← putv p (mkSv nd ino dirty 1 0 ops);
          mret p
      end
  end.

(** Only the allocator's state differs. *)
Definition alloc_only (s s' : sfs) : Prop := ∃ n o, s_next s ≤ n ∧ (s_orc s = [] → o = []) ∧ s' = set_sorc n o s.

Lemma alloc_only_refl s : alloc_only s s.
Proof. exists (s_next s), (s_orc s). split; [done|]. split; [done|by destruct s]. Qed.

Lemma alloc_only_trans s1 s2 s3 : alloc_only s1 s2 → alloc_only s2 s3 → alloc_only s1 s3.
Proof. intros (n & o & Hn & Ho & ->) (n' & o' & Hn' & Ho' & ->). exists n', o'. simpl in *. split; [lia|]. split; [auto|done]. Qed.

Lemma alloc_only_inv s s' G own : fs_inv s G own → alloc_only s s' → fs_inv s' G own.
Proof. intros HI (n & o & Hn & _ & ->). by apply inv_sorc. Qed.

Lemma alloc_only_keeps s s' : alloc_only s s' → keeps s s'.
Proof. by intros (n & o & _ & Ho & ->). Qed.

Lemma kmalloc_spec s :
  wpe s_kmalloc (λ r s', ∃ o, r = inr o ∧ alloc_only s s' ∧ (o = None ∧ s_orc s ≠ [] ∨ o = Some (s_next s) ∧ s_next s < s_next s')) s.
Proof.
  unfold wpe, s_kmalloc. destruct (s_orc s) as [|[] o] eqn:E; simpl.
  - exists (Some (s_next s)). split; [done|]. split; [exists (s_next s + 1), []; split; [lia|done]|]. right. split; [done|simpl; lia].
  - exists (Some (s_next s)). split; [done|]. split; [exists (s_next s + 1), o; split; [lia|by rewrite E]|]. right. split; [done|simpl; lia].
  - exists None. split; [done|]. split; [exists (s_next s), o; by rewrite E|by left].
Qed.

Lemma load_tail_spec s G own own' p ino nd dirty ops bm :
  fs_inv s G own → s_vn s !! p = None → p < s_next s → (∀ q w, s_vn s !! q = Some w → sv_ino w ≠ ino) →
  ops_of nd ops → (∀ b o, own !! b = Some o → own' !! b = Some o) →
  (∀ b o, own' !! b = Some o → 0 ≤ b < nblocks s ∧ bit (sfs_freemap s) b = true) →
  file_ok (sect s) own' ino nd bm → (dirty = true ∨ sect s ino = enc_inode nd) →
  wpe (load_tail p ino nd dirty ops) (λ r s', keeps s s' ∧ (sect s' = sect s ∧ sfs_freemap s' = sfs_freemap s) ∧
    ((r = inr p ∧ fs_inv s' (<[ino := (nd, bm)]> G) own' ∧ vrefs s' = <[p := VRef ino 1 0]> (vrefs s)) ∨
     (r = inl ENOMEM ∧ s_orc s ≠ [] ∧ alloc_only s s'))) s.
Proof.
  intros HI Hpn Hlt Hnl Hops Hsub Hown' Hf Hd. unfold load_tail.
  assert (∀ s', alloc_only s s' → keeps s s' ∧ (sect s' = sect s ∧ sfs_freemap s' = sfs_freemap s)) as Hk
    by (intros s' Ha; split; [by apply alloc_only_keeps|by destruct Ha as (n & o & _ & _ & ->)]).
  apply wpe_bind. eapply wpe_mono; [apply kmalloc_spec|]. intros r s1 (o1 & -> & H1 & Ho1). destruct o1 as [q1|].
  2:{ apply wpe_raise. destruct (Hk s1 H1), Ho1 as [[_ Ho1]|[? _]]; [|done]. split; [done|]. split; [done|]. by right. }
  apply wpe_bind. eapply wpe_mono; [apply kmalloc_spec|]. intros r s2 (o2 & -> & H2 & Ho2).
  pose proof (alloc_only_trans _ _ _ H1 H2) as H12. destruct o2 as [q2|].
  2:{ apply wpe_raise. destruct (Hk s2 H12), Ho2 as [[_ Ho2]|[? _]]; [|done]. split; [done|]. split; [done|]. right. split; [done|].
      split; [intros Ho; by apply Ho2, (kp_o _ _ (alloc_only_keeps _ _ H1))|done]. }
  estep. clear H1 H2 Ho1 Ho2. pose proof (alloc_only_inv _ _ _ _ HI H12) as HI2. pose proof (Hk _ H12) as [Hk12 _]. destruct H12 as (n & o & Hn & Hon & ->).
  destruct (iv_tab _ _ _ HI) as (ps & Hrep & Hnd & Hps). pose proof (table_room _ _ _ _ HI Hnd Hps) as Hroom.
  apply wpe_bind. cbn [s_orc sfs_vnodes set_sorc].
  destruct (array_add_ok o (sfs_vnodes s) ps p Hrep) as [(a' & o' & E & Ha' & Ho')|(o' & E & Ho')].
  { unfold array_lim, max_blocks in *. lia. }
  - eapply wpe_lift; [exact E|]. estep. cbn [negb Z.eqb]. estep.
    split; [split; [done|done|]; intros Ho; simpl; specialize (Hon Ho); subst o; by destruct Ho' as [->| ->]|]. split; [done|]. left. split; [done|]. split.
    + apply (inv_load (set_sorc n o' s) G own own' _ p (mkSv nd ino dirty 1 0 ops) bm ps a'); try done; try (simpl; lia).
      apply inv_sorc; [done|lia].
    + unfold vrefs. simpl. by rewrite fmap_insert.
  - eapply wpe_lift; [exact E|]. estep. cbn [negb Z.eqb ENOMEM]. apply wpe_raise.
    assert (s_orc s ≠ []) as Hne by (intros Ho; specialize (Hon Ho); by subst o).
    split; [by split|]. split; [done|]. right. split; [done|]. split; [done|]. exists n, o'. split; [done|]. split; [done|]. by destruct s.
Qed.

(** ** Loading *)

Definition uncounted (R : gmap Z vref) : Prop := ∀ q r, R !! q = Some r → r_count r < 2147483647.

(** [R'] is [R] with one more reference to the vnode [p] of file [ino]. *)
Definition picked (R : gmap Z vref) (p ino : Z) (R' : gmap Z vref) : Prop :=
  ∃ n oc, R' = <[p := VRef ino (n + 1) oc]> R ∧
    (R !! p = Some (VRef ino n oc) ∨ R !! p = None ∧ n = 0 ∧ oc = 0 ∧ ∀ q r, R !! q = Some r → r_ino r ≠ ino).

Lemma picked_lookup R p ino R' : picked R p ino R' → ∃ r, R' !! p = Some r ∧ r_ino r = ino.
Proof. intros (n & oc & -> & _). eexists. split; [apply lookup_insert_eq|done]. Qed.

Lemma fs_inv_ino s G own ino nd bm : fs_inv s G own → G !! ino = Some (nd, bm) → 0 ≤ ino < nblocks s ∧ bit (sfs_freemap s) ino = true.
Proof. intros HI HG. apply (iv_own _ _ _ HI ino (OIno ino)). apply (fl_own _ _ _ _ _ (iv_files _ _ _ HI _ _ _ HG)). Qed.

Lemma not_loaded s G own ps ino :
  fs_inv s G own → (∀ p, p ∈ ps ↔ is_Some (s_vn s !! p)) → (∀ p v, p ∈ drop 0 ps → s_vn s !! p = Some v → sv_ino v ≠ ino) →
  ∀ q w, s_vn s !! q = Some w → sv_ino w ≠ ino.
Proof. intros HI Hps H q w Hw. apply (H q w); [|done]. rewrite drop_0. apply Hps. by eexists. Qed.

(** The search, then the allocation and the read of the inode's block. *)
Lemma load_start s G own ino forcetype Q :
  fs_inv s G own → 0 ≤ ino < nblocks s → bit (sfs_freemap s) ino = true →
  (∀ p v, s_vn s !! p = Some v → sv_ino v = ino →
     wpe (_ ← eassert (forcetype =? SFS_TYPE_INVAL); _ ← VOP_INCREF p; mret p) Q s) →
  (∀ s', keeps s s' → alloc_only s s' → s_orc s ≠ [] → Q (inl ENOMEM) s') →
  (∀ s', keeps s s' → fs_inv s' G own → view s' G ≡ view s G → s_vn s' = s_vn s → sfs_freemap s' = sfs_freemap s → ¬ reads_fine s → Q (inl EIO) s') →
  (∀ s' p, keeps s s' → fs_inv s' G own → view s' G ≡ view s G → s_vn s' = s_vn s → (∀ c, sect s' c = sect s c) →
     sfs_sb s' = sfs_sb s → sfs_freemap s' = sfs_freemap s → s_vn s !! p = None → p < s_next s' → (∀ q w, s_vn s !! q = Some w → sv_ino w ≠ ino) →
     wpe (let nd := dec_inode (sect s ino) in
          _ ← eassert ((forcetype =? SFS_TYPE_INVAL) || (sfi_type nd =? SFS_TYPE_INVAL));
          let dirty := negb (forcetype =? SFS_TYPE_INVAL) in
          let nd := if dirty then set_type forcetype nd else nd in
          ops ← (if sfi_type nd =? SFS_TYPE_FILE then mret sfs_fileops
                 else if sfi_type nd =? SFS_TYPE_DIR then mret sfs_dirops
                 else epanic);
          load_tail p ino nd dirty ops) Q s') →
  wpe (sfs_loadvnode ino forcetype) Q s.
Proof.
  intros HI Hr Hb Hfound Hmem Hio Htail. destruct (iv_tab _ _ _ HI) as (ps & Hrep & Hnd & Hps). unfold sfs_loadvnode. estep.
  assert (Z.to_nat (array_getnum (sfs_vnodes s)) = length ps) as ->.
  { unfold array_getnum. destruct Hrep as (-> & _). lia. }
  apply wpe_bind. eapply wpe_mono; [apply (findvnode_spec s G own ps (length ps) 0 ino HI Hrep Hps); lia|].
  intros r s0 [-> (o & -> & Ho)]. destruct o as [p|]; [destruct Ho as (v & Hv & Ei); by apply (Hfound p v)|].
  pose proof (not_loaded _ _ _ _ _ HI Hps Ho) as Hnl. apply wpe_bind. eapply wpe_mono; [apply kmalloc_spec|].
  intros r s1 (o & -> & H1 & Ho1). pose proof (alloc_only_keeps _ _ H1) as Hk1.
  destruct o as [p|]; [|apply wpe_raise; destruct Ho1 as [[_ Ho1]|[? _]]; [by apply Hmem|done]]. destruct Ho1 as [[? _]|[[= ->] Hlt]]; [done|].
  pose proof (alloc_only_inv _ _ _ _ HI H1) as HI1. destruct H1 as (n & o & Hn & Hon & ->). simpl in Hlt.
  apply wpe_bind. eapply wpe_mono; [apply sfs_bused_spec; [apply HI1|done]|]. intros r s2 [-> ->]. cbn [sfs_freemap set_sorc]. rewrite Hb.
  cbn [negb]. apply wpe_bind. eapply wpe_mono; [apply sfs_rblock_spec; [apply HI1|done|apply zeros_ok..]|].
  intros r s2 [Hst Hc]. destruct (inv_read _ _ _ _ HI1 Hst) as [HI2 Hq]. destruct Hst as (d & -> & [D1 D2 D3 D4 D5]).
  assert (keeps s (set_dev d (set_sorc n o s))) as Hk2 by (split; [done|exact D4|exact Hon]).
  pose proof (quiet_view _ _ _ _ Hq) as Hv2. destruct Hc as [-> |[-> Hne]]; [|by apply Hio].
  apply (Htail _ (s_next s)); try done; try (simpl; lia).
  destruct (s_vn s !! s_next s) as [v|] eqn:E; [|done]. destruct (iv_vn _ _ _ HI _ _ E) as (J & _). lia.
Qed.

Lemma vrefs_same s s' : s_vn s' = s_vn s → vrefs s' = vrefs s.
Proof. unfold vrefs. by intros ->. Qed.

Lemma vrefs_none s p : s_vn s !! p = None → vrefs s !! p = None.
Proof. intros H. unfold vrefs. by rewrite lookup_fmap, H. Qed.

Lemma vrefs_no_ino s ino :
  (∀ q w, s_vn s !! q = Some w → sv_ino w ≠ ino) → ∀ q r, vrefs s !! q = Some r → r_ino r ≠ ino.
Proof.
  intros H q r. unfold vrefs. rewrite lookup_fmap. destruct (s_vn s !! q) as [w|] eqn:E; [|done]. intros [= <-]. by apply (H q).
Qed.

Lemma view_Some s G V ino a : view s G ≡ V → V !! ino = Some a → ∃ nd bm, G !! ino = Some (nd, bm) ∧ a ≡ view_file (sect s) (nd, bm).
Proof.
  intros Hv Ha. specialize (Hv ino). rewrite Ha in Hv. unfold view in Hv. rewrite lookup_fmap in Hv.
  destruct (G !! ino) as [[nd bm]|]; inversion Hv as [? ? E|]; subst. exists nd, bm. by split.
Qed.

Lemma ops_choice nd (Q : Z + vnode_ops → sfs → Prop) s :
  sfi_type nd = SFS_TYPE_FILE ∨ sfi_type nd = SFS_TYPE_DIR → (∀ ops, ops_of nd ops → Q (inr ops) s) →
  wpe (if sfi_type nd =? SFS_TYPE_FILE then mret sfs_fileops
       else if sfi_type nd =? SFS_TYPE_DIR then mret sfs_dirops else epanic) Q s.
Proof. intros [E|E] HQ; rewrite E; apply wpe_ret, HQ; [by left|by right]. Qed.

Definition load_error (s : sfs) (e : Z) : Prop := e = ENOMEM ∧ s_orc s ≠ [] ∨ e = EIO ∧ ¬ reads_fine s.

Lemma plenty_no_load_error s e : plenty s → ¬ load_error s e.
Proof. intros [H1 H2] [[_ ?]|[_ ?]]; done. Qed.

Section fsat_vnode.
Context {t : Prop}.

(** Nothing changed but what the allocator and the disk have in store. *)
Lemma fsat_same s V R s' G own :
  fs_inv s' G own → view s' G ≡ V → vrefs s' = R → keeps s s' → sfs_freemap s' = sfs_freemap s → (t → tight s G) → fsat t s' V R.
Proof.
  intros HI Hv HR Hk Efm Ht. exists G, own. split; [done|]. split; [done|]. split; [done|]. intros H.
  eapply tight_step; [apply (no_loss_same s); [apply Hk|done]|by apply Ht].
Qed.

Lemma fsat_loadvnode s V R ino a :
  fsat t s V R → V !! ino = Some a → uncounted R →
  wpe (sfs_loadvnode ino SFS_TYPE_INVAL) (λ res s', keeps s s' ∧
    ((∃ p R', res = inr p ∧ picked R p ino R' ∧ fsat t s' V R') ∨
     (∃ e, res = inl e ∧ load_error s e ∧ fsat t s' V R))) s.
Proof.
  intros HS Ha Hunc. pose proof HS as (G & own & HI & Hv & HR & Ht). destruct (view_Some _ _ _ _ _ Hv Ha) as (nd & bm & HG & Ea).
  pose proof (iv_files _ _ _ HI _ _ _ HG) as Hf. destruct (fs_inv_ino _ _ _ _ _ _ HI HG) as [Hr Hb].
  eapply (load_start s G own); [done..| | | |].
  - intros p v Hp Ei. apply wpe_bind, wpe_assert; [done|].
    assert (R !! p = Some (vref_of v)) as HRp by (subst R; unfold vrefs; by rewrite lookup_fmap, Hp).
    apply wpe_bind. eapply wpe_mono; [apply (fsat_incref s V R p _ HS HRp), (Hunc _ _ HRp)|].
    intros r s' (-> & Hk & HS'). apply wpe_ret. split; [done|]. left. eexists p, _. split; [done|]. split; [|exact HS'].
    exists (sv_refcount v), (sv_opencount v). simpl. rewrite Ei. split; [done|]. left. rewrite HRp. unfold vref_of. by rewrite Ei.
  - intros s' Hk (n & o & Hn & _ & ->) Hne. split; [done|]. right. exists ENOMEM. split; [done|]. split; [by left|]. by apply fsat_sorc.
  - intros s' Hk HI' Hv' Evn Efm Hn. split; [done|]. right. exists EIO. split; [done|]. split; [by right|].
    apply (fsat_same s _ _ _ G own); try done; [by rewrite Hv'|by rewrite (vrefs_same _ _ Evn)].
  - intros s' p Hk HI' Hv' Evn Hsec Esb Efm Hpn Hlt Hnl. assert (sect s ino = enc_inode nd) as Eino.
    { destruct (iv_disk _ _ _ HI _ _ _ HG) as [(q & w & Hq & Ew & _)|?]; [|done]. by destruct (Hnl q w Hq). }
    cbv zeta. rewrite Eino, dec_enc_inode by apply Hf. cbn [Z.eqb SFS_TYPE_INVAL orb negb].
    apply wpe_bind, wpe_assert; [done|]. apply wpe_bind, ops_choice; [apply Hf|]. intros ops Hops.
    eapply wpe_mono; [apply (load_tail_spec s' G own own p ino nd false ops bm); try done|].
    + by rewrite Evn.
    + by rewrite Evn.
    + apply (iv_own _ _ _ HI').
    + by apply (iv_files _ _ _ HI').
    + right. by rewrite Hsec.
    + intros r s2 (Hk2 & [Hsec2 Efm2] & [(-> & HI2 & HR2)|(-> & Hne & Hao)]); (split; [by eapply keeps_trans|]).
      * left. rewrite insert_id in HI2 by done. exists p, (vrefs s2). split; [done|]. split.
        -- exists 0, 0. rewrite HR2, (vrefs_same _ _ Evn), HR. split; [done|]. right. subst R.
           split; [by apply vrefs_none|]. split; [done|]. split; [done|]. by apply vrefs_no_ino.
        -- apply (fsat_same s _ _ _ G own); try done; [|by eapply keeps_trans|congruence]. rewrite <- Hv, <- Hv'. unfold view. by rewrite Hsec2.
      * right. exists ENOMEM. split; [done|]. split; [left; split; [done|]; intros Ho; by apply Hne, (kp_o _ _ Hk)|].
        destruct Hao as (n & o & Hn & _ & ->). apply fsat_sorc; [|done].
        apply (fsat_same s _ _ _ G own); try done; [by rewrite Hv'|by rewrite (vrefs_same _ _ Evn)].
Qed.

(** ** Creating *)

(** A file as it is made: no bytes, no links. *)
Definition empty_file (type : Z) : afile := AFile type 0 0 (λ _, 0).

Lemma dec_inode_zeros : dec_inode zeros = mkInode 0 0 0 (replicate 15 0) 0 (replicate 110 0).
Proof. vm_compute. reflexivity. Qed.

Lemma new_file_ok sec own ino :
  sec ino = zeros → own !! ino = Some (OIno ino) →
  file_ok sec own ino (set_type SFS_TYPE_FILE (dec_inode (sec ino))) ∅.
Proof.
  intros Hz Ho. rewrite Hz, dec_inode_zeros.
  split; try done; [| |by left].
  - unfold inode_wf. cbn -[replicate]. split_and!; try (unfold is_u32, is_u16, SFS_TYPE_FILE; lia); try done;
      apply Forall_replicate; unfold is_u32; lia.
  - split; try done. intros k Hk. cbn -[replicate]. rewrite lookup_empty. apply (lookup_replicate 15). split; [done|lia].
Qed.

Lemma fsat_makeobj s V R :
  fsat t s V R → (t → plenty s) →
  wpe (sfs_makeobj SFS_TYPE_FILE) (λ res s', keeps s s' ∧
    ((∃ p ino, res = inr p ∧ V !! ino = None ∧ R !! p = None ∧ 0 < ino ∧ is_u32 ino ∧ (∀ q r, R !! q = Some r → r_ino r ≠ ino) ∧
        fsat t s' (<[ino := empty_file SFS_TYPE_FILE]> V) (<[p := VRef ino 1 0]> R)) ∨
     (∃ e, res = inl e ∧ (e = ENOSPC ∨ load_error s e) ∧ fsat t s' V R))) s.
Proof.
  intros HS Hp. pose proof HS as (G & own & HI & Hv & HR & Ht). unfold sfs_makeobj. apply wpe_bind.
  eapply wpe_mono; [apply sfs_balloc_spec, (iv_ok _ _ _ HI)|]. intros r s1 [(-> & -> & _)|(ino & -> & Hst)].
  { split; [apply keeps_refl|]. right. exists ENOSPC. split; [done|]. split; [by left|done]. }
  destruct (inv_alloc _ _ _ _ _ HI Hst) as (HI1 & Hq1 & Hloss & Hno & Hino & Hbit & Hz & Evn1).
  assert (keeps s s1 ∧ nblocks s1 = nblocks s) as [Hk1 Hnb1] by (destruct Hst as (d & fm & -> & _ & _ & _ & _ & _ & [D1 D2 D3 D4 D5]); by split).
  assert (V !! ino = None) as HVn.
  { destruct (V !! ino) as [a|] eqn:Ha; [exfalso|done]. destruct (view_Some _ _ _ _ _ Hv Ha) as (nd & bm & HG & _).
    rewrite (fl_own _ _ _ _ _ (iv_files _ _ _ HI _ _ _ HG)) in Hno. done. }
  pose proof (any_view _ _ _ _ (Hq1 0 0)) as Hv1. rewrite Hv in Hv1.
  assert (∀ e s', load_error s e → fs_inv s' G own → view s' G ≡ V → s_vn s' = s_vn s1 → fsat t s' V R) as Hfail.
  { intros e s' He HI' Hv' Evn. exists G, own. split; [done|]. split; [done|]. split; [by rewrite (vrefs_same _ _ Evn), (vrefs_same _ _ Evn1)|].
    intros H. by destruct (plenty_no_load_error s e (Hp H)). }
  eapply (load_start s1 G own); [done|lia|done| | | |].
  - intros p v Hpv Ei. exfalso. destruct (iv_vn _ _ _ HI1 p v Hpv) as (_ & _ & _ & _ & bm & HG). rewrite Ei in HG.
    rewrite (fl_own _ _ _ _ _ (iv_files _ _ _ HI1 _ _ _ HG)) in Hno. done.
  - intros s' Hk (n & o & Hn & _ & ->) Hne. split; [by eapply keeps_trans|]. right. exists ENOMEM. split; [done|].
    assert (load_error s ENOMEM) as He by (left; split; [done|]; intros Ho; by apply Hne, (kp_o _ _ Hk1)).
    split; [by right|]. apply (Hfail _ _ He); [by apply inv_sorc|done|done].
  - intros s' Hk HI' Hv' Evn Efm Hn. split; [by eapply keeps_trans|]. right. exists EIO. split; [done|].
    assert (load_error s EIO) as He by (right; split; [done|by eapply keeps_noread]).
    split; [by right|]. apply (Hfail _ _ He); [done|by rewrite Hv'|done].
  - intros s' p Hk HI' Hv' Evn Hsec Esb Efm Hpn Hlt Hnl. cbv zeta.
    assert (file_ok (sect s') (<[ino := OIno ino]> own) ino (set_type SFS_TYPE_FILE (dec_inode (sect s1 ino))) ∅) as Hf.
    { rewrite <- Hsec. apply new_file_ok; [by rewrite Hsec|apply lookup_insert_eq]. }
    apply wpe_bind, wpe_assert; [rewrite Hz, dec_inode_zeros; done|]. cbn [Z.eqb SFS_TYPE_FILE SFS_TYPE_INVAL negb].
    apply wpe_bind, ops_choice; [apply Hf|]. intros ops Hops.
    eapply wpe_mono; [apply (load_tail_spec s' G own (<[ino := OIno ino]> own) p ino _ true ops ∅); try done|].
    + by rewrite Evn.
    + by rewrite Evn.
    + intros b o Hb. by apply own_insert_frame.
    + intros b o. rewrite lookup_insert_Some, Esb, Efm. intros [[<- <-]|[_ Hb]]; [split; [lia|done]|by apply (iv_own _ _ _ HI1 b o)].
    + by left.
    + intros r s2 (Hk2 & [Hsec2 Efm2] & [(-> & HI2 & HR2)|(-> & Hne & Hao)]); (split; [by eapply keeps_trans; [|eapply keeps_trans]|]).
      * left. exists p, ino. split; [done|]. split; [done|]. rewrite Evn1 in *. subst R. split; [by apply vrefs_none|].
        split; [lia|]. split; [apply (nblocks_u32 s); [apply HI|lia]|].
        split; [by apply vrefs_no_ino|]. eexists _, _. split; [exact HI2|]. split; [|split].
        -- unfold view. rewrite fmap_insert, Hsec2. apply insert_proper; [|by rewrite <- Hv1, <- Hv'].
           rewrite Hz, dec_inode_zeros. split_and!; try done.
        -- by rewrite HR2, (vrefs_same _ _ Evn).
        -- intros H. eapply tight_step; [|by apply Ht]. apply Hloss.
           ++ apply no_loss_add; [|by rewrite (kp_sb _ _ Hk2)|congruence]. destruct (G !! ino) as [[nd bm]|] eqn:HG; [|done].
              by rewrite (fl_own _ _ _ _ _ (iv_files _ _ _ HI _ _ _ HG)) in Hno.
           ++ right. eexists ino, _, _. split; [apply lookup_insert_eq|by left].
      * right. exists ENOMEM. split; [done|].
        assert (load_error s ENOMEM) as He by (left; split; [done|]; intros Ho; by apply Hne, (kp_o _ _ Hk), (kp_o _ _ Hk1)).
        split; [by right|]. destruct Hao as (n & o & Hn & _ & ->). apply fsat_sorc; [|done]. apply (Hfail _ _ He); [done|by rewrite Hv'|done].
Qed.

(** ** Writing the inode back *)

Lemma view_clean s G own p ino v bm s' v' :
  at_file s G own p ino v bm → s_vn s' = <[p := v']> (s_vn s) → sfs_vnodes s' = sfs_vnodes s → sfs_sb s' = sfs_sb s →
  s_next s' = s_next s → fs_ok s' → sfs_freemap s' = sfs_freemap s → map_kept s s' → same_vnode v v' → sv_i v' = sv_i v →
  (∀ c, c ≠ ino → sect s' c = sect s c) → (sv_dirty v' = true ∨ sect s' ino = enc_inode (sv_i v)) →
  at_file s' G own p ino v' bm ∧ view s' G ≡ view s G.
Proof.
  intros Haf Evn Etab Esb Enx Hok Efm Hmk Hsame Ei Hsec Hd. pose proof Haf as [A1 A2 A3 A4]. subst ino.
  pose proof (af_ok _ _ _ _ _ _ _ Haf) as Hf.
  assert (file_change s G own s' own p v v' bm bm) as HC.
  { split; try done.
    - by rewrite Ei.
    - rewrite Efm. apply (iv_own _ _ _ A1).
    - intros c o Hc. right. split; [done|]. destruct (decide (c = sv_ino v)); [by left|right; by apply Hsec].
    - rewrite Ei. apply (file_ok_sect (sect s)); [done|]. intros c Hc. apply Hsec. intros ->.
      rewrite (fl_own _ _ _ _ _ Hf) in Hc. done.
    - rewrite Ei. done.
    - apply lossless_grow; [done|]. intros b. by rewrite Ei. }
  pose proof (inv_change _ _ _ _ _ _ _ _ _ _ A1 HC) as HI'. pose proof (change_view _ _ _ _ _ _ _ _ _ _ A1 HC) as Hv'.
  rewrite Ei, insert_id in * by done. split.
  - split; [done|rewrite Evn; apply lookup_insert_eq|by destruct Hsame|by rewrite Ei].
  - rewrite Hv'. intros i. destruct (decide (i = sv_ino v)) as [->|Hne]; [|by rewrite lookup_insert_ne].
    rewrite lookup_insert_eq, (view_lookup s G _ _ _ A4). constructor. split_and!; try done. intros x _. simpl.
    apply fbyte_frame. intros k b Hb. apply Hsec. intros ->. pose proof (fl_data _ _ _ _ _ Hf _ _ Hb) as H1.
    rewrite (fl_own _ _ _ _ _ Hf) in H1. done.
Qed.

Lemma sync_inode_spec s G own p ino v bm :
  at_file s G own p ino v bm →
  wpe (sfs_sync_inode p) (λ res s', res = inr tt ∧ ∃ v', at_file s' G own p ino v' bm ∧ sv_i v' = sv_i v ∧ same_vnode v v' ∧
    (sv_dirty v' = false ∧ s_vn s' = <[p := v']> (s_vn s)) ∧ sect s' ino = enc_inode (sv_i v) ∧ view s' G ≡ view s G ∧ shape s s' ∧
    sfs_freemap s' = sfs_freemap s) s.
Proof.
  intros Haf. pose proof Haf as [A1 A2 A3 A4]. pose proof (af_ok _ _ _ _ _ _ _ Haf) as Hf. unfold sfs_sync_inode.
  apply wpe_bind. eapply wpe_getv; [exact A2|]. destruct (sv_dirty v) eqn:Ed.
  - destruct (fs_inv_ino _ _ _ _ _ _ A1 A4) as [Hr Hb]. apply wpe_bind. rewrite A3.
    eapply wpe_mono; [apply sfs_wblock_spec; [apply A1|done|apply enc_inode_length, Hf|apply enc_inode_bytes]|].
    intros r s1 [-> Hw]. pose proof (write_step_fs_ok _ _ _ _ (iv_ok _ _ _ A1) Hw) as Hok1.
    destruct Hw as (d & -> & [D1 D2 D3 D4 D5]). apply wpe_mod. split; [done|]. exists (set_inode (sv_i v) false v).
    destruct (view_clean s G own p ino v bm (set_vn (<[p := set_inode (sv_i v) false v]> (s_vn s)) (set_dev d s))
      (set_inode (sv_i v) false v)) as [Haf' Hv']; try done.
    { by destruct Hok1. }
    { intros c Hc. simpl. by rewrite D2, decide_False. }
    { right. simpl. by rewrite D2, decide_True. }
    split; [done|]. split; [done|]. split; [done|]. split; [done|]. split; [simpl; by rewrite D2, decide_True|]. split; [done|].
    split; [|done]. split; try done. intros q. simpl. destruct (decide (q = p)) as [->|Hne]; [by rewrite A2, lookup_insert_eq|].
    rewrite lookup_insert_ne by done. by destruct (s_vn s !! q).
  - apply wpe_ret. split; [done|]. exists v. split; [done|]. split; [done|]. split; [done|]. split; [split; [done|by rewrite insert_id]|]. split.
    { destruct (af_dirty _ _ _ _ _ _ _ Haf) as [?|?]; [congruence|done]. }
    split; [done|]. split; [eapply wrote_shape, (quiet_refl s G 0 0)|done].
Qed.

(** ** Unloading *)

Lemma elem_of_delete_NoDup {A} (l : list A) i x y :
  NoDup l → l !! i = Some x → y ∈ delete i l ↔ y ∈ l ∧ y ≠ x.
Proof.
  intros Hnd Hi. pose proof (take_drop_middle l i x Hi) as E. rewrite delete_take_drop. rewrite <- E in Hnd. rewrite <- E at 3.
  apply NoDup_app in Hnd as (_ & Hd & Hnd). apply NoDup_cons in Hnd as [Hnx _]. rewrite !elem_of_app, elem_of_cons.
  split.
  - intros [H|H]; (split; [auto|]); intros ->; [apply (Hd x H); by left|done].
  - naive_solver.
Qed.

Lemma NoDup_delete {A} (l : list A) i : NoDup l → NoDup (delete i l).
Proof. intros H. eapply sublist_NoDup; [exact H|apply sublist_delete]. Qed.

Lemma vnode_index_spec ps a p n i :
  array_rep a ps → p ∈ drop i ps → (i + n = length ps)%nat →
  ∃ j, sfs_vnode_index n (Z.of_nat i) p a = Ret (Some (Z.of_nat j)) ∧ ps !! j = Some p.
Proof.
  intros Hrep. revert i. induction n as [|n IH]; intros i Hp Hi.
  { rewrite drop_ge in Hp by lia. by apply not_elem_of_nil in Hp. }
  destruct (lookup_lt_is_Some_2 ps i) as [q Hq]; [lia|]. cbn [sfs_vnode_index].
  rewrite (array_getguy_ok _ _ _ _ Hrep Hq), mbind_Ret. destruct (Z.eqb_spec q p) as [->|Hne]; [by exists i|].
  rewrite (drop_S _ _ _ Hq) in Hp. apply elem_of_cons in Hp as [?|Hp]; [congruence|].
  replace (Z.of_nat i + 1) with (Z.of_nat (S i)) by lia. apply IH; [done|lia].
Qed.

(** A vnode leaves the table; its file stays, or goes with it. *)
Lemma inv_unload s G own p v ps i a' s' G' own' :
  fs_inv s G own → s_vn s !! p = Some v → array_rep (sfs_vnodes s) ps → NoDup ps → (∀ q, q ∈ ps ↔ is_Some (s_vn s !! q)) →
  ps !! i = Some p → array_rep a' (delete i ps) →
  fs_ok s' → sfs_sb s' = sfs_sb s → map_kept s s' → sfs_vnodes s' = a' → s_vn s' = delete p (s_vn s) → s_next s' = s_next s →
  (∀ c, sect s' c = sect s c) →
  (G' = G ∧ own' = own ∧ sfs_freemap s' = sfs_freemap s ∧ sect s (sv_ino v) = enc_inode (sv_i v) ∨
   G' = delete (sv_ino v) G ∧ own' = delete (sv_ino v) own ∧
   ∀ b, 0 ≤ b → b ≠ sv_ino v → bit (sfs_freemap s') b = bit (sfs_freemap s) b) →
  fs_inv s' G' own'.
Proof.
  intros HI Hp Hrep Hnd Hps Hi Ha' Hok Esb Hmk Etab Evn Enx Hsec Hc. pose proof HI as [I1 I2 I3 I4 I5 I6 I7 I8].
  destruct (I6 p v Hp) as (_ & _ & _ & _ & bmv & HGv). pose proof (fl_own _ _ _ _ _ (I4 _ _ _ HGv)) as Hov.
  assert (∀ j nd b, G' !! j = Some (nd, b) → G !! j = Some (nd, b) ∧ (j ≠ sv_ino v ∨ G' = G)) as HG'.
  { destruct Hc as [(-> & _)|(-> & _)]; [by auto|]. intros j nd b. rewrite lookup_delete_Some. intros [? ?]. auto. }
  assert (∀ b o, own' !! b = Some o → own !! b = Some o ∧ bit (sfs_freemap s') b = bit (sfs_freemap s) b) as Hown'.
  { destruct Hc as [(_ & -> & -> & _)|(_ & -> & Hb)]; [by auto|]. intros b o. rewrite lookup_delete_Some. intros [Hne Ho].
    split; [done|]. apply Hb; [apply (I2 b o Ho)|done]. }
  assert (∀ b o, own !! b = Some o → o ≠ OIno (sv_ino v) → own' !! b = Some o) as Hkeep.
  { destruct Hc as [(_ & -> & _)|(_ & -> & _)]; [done|]. intros b o Ho Hne. rewrite lookup_delete_ne; [done|]. intros <-. congruence. }
  assert (∀ q w, s_vn s' !! q = Some w → s_vn s !! q = Some w ∧ q ≠ p) as Hvn.
  { intros q w. rewrite Evn, lookup_delete_Some. intros [? ?]. by split. }
  split.
  - done.
  - intros b o Ho. destruct (Hown' b o Ho) as [Ho' ->]. rewrite Esb. by apply (I2 b o).
  - eapply sys_frame; [exact I3|done|done|]. intros c Hc'. split; [by apply Hkeep|apply Hsec].
  - intros j nd b Hj. destruct (HG' j nd b Hj) as [Hj' Hjv]. apply (file_ok_frame (sect s) own); [by apply I4|].
    intros c o Hc' Ho. split; [|by rewrite Hsec]. destruct Hjv as [Hne| ->].
    + apply Hkeep; [done|]. destruct Ho as [->|Ho]; [congruence|]. by destruct o.
    + destruct Hc as [(_ & -> & _)|(E & _)]; [done|]. exfalso. assert (G !! sv_ino v = None) by (rewrite E; apply lookup_delete_eq). congruence.
  - exists (delete i ps). rewrite Etab. split; [done|]. split; [by apply NoDup_delete|]. intros q.
    rewrite (elem_of_delete_NoDup _ _ p), Hps, Evn by done. split.
    + intros [[w Hw] Hne]. exists w. by rewrite lookup_delete_ne.
    + intros [w Hw]. apply lookup_delete_Some in Hw as [Hne Hw]. split; [by eexists|congruence].
  - intros q w Hq. destruct (Hvn q w Hq) as [Hq' Hne]. rewrite Enx. destruct (I6 q w Hq') as (J1 & J2 & J3 & J4 & b & Hb).
    split_and!; try done. exists b. destruct Hc as [(-> & _)|(-> & _)]; [done|]. rewrite lookup_delete_ne; [done|]. intros E. apply Hne.
    by apply (I7 q p w v).
  - intros q1 q2 w1 w2 H1 H2. destruct (Hvn _ _ H1), (Hvn _ _ H2). by apply (I7 q1 q2 w1 w2).
  - intros j nd b Hj. destruct (HG' j nd b Hj) as [Hj' Hjv]. rewrite Hsec.
    destruct (I8 j nd b Hj') as [(q & w & Hq & Ew & Hw)|?]; [|by right]. destruct (decide (q = p)) as [->|Hne].
    + simplify_eq. destruct Hjv as [?|EG]; [done|]. right. destruct Hc as [(_ & _ & _ & Hs)|(E & _)]; [congruence|].
      exfalso. assert (G' !! sv_ino v = None) by (rewrite E; apply lookup_delete_eq). congruence.
    + left. exists q, w. rewrite Evn, lookup_delete_ne by done. done.
Qed.

(** ** Reclaiming *)

(** The end of [sfs_reclaim], once the inode is on the disk. *)
Definition reclaim_end (p : Z) : EM sfs unit :=
  v ← getv p;
  _ ← (if sfi_linkcount (sv_i v) =? 0 then sfs_bfree (sv_ino v) else mret tt);
  s ← eget;
  ix ← lift (sfs_vnode_index (Z.to_nat (array_getnum (sfs_vnodes s))) 0 p (sfs_vnodes s));
  match ix with
  | None => epanic
  | Some ix =>
      a ← lift (array_remove (sfs_vnodes s) ix);
      _ ← emod (set_vtab a);
      _ ← VOP_KILL p;
      freev p
  end.

(** Taking the vnode out of the table. *)
Lemma unload_spec s p v ps :
  s_vn s !! p = Some v → sv_refcount v = 1 → sv_opencount v = 0 → array_rep (sfs_vnodes s) ps → p ∈ ps →
  wpe (ix ← lift (sfs_vnode_index (Z.to_nat (array_getnum (sfs_vnodes s))) 0 p (sfs_vnodes s));
       match ix with
       | None => epanic
       | Some ix =>
           a ← lift (array_remove (sfs_vnodes s) ix);
           _ ← emod (set_vtab a);
           _ ← VOP_KILL p;
           freev p
       end)
    (λ res s', res = inr tt ∧ ∃ i a, ps !! i = Some p ∧ array_rep a (delete i ps) ∧
       s' = set_vn (delete p (s_vn s)) (set_vtab a s)) s.
Proof.
  intros Hp Hrc Hoc Hrep Hin. assert (Z.to_nat (array_getnum (sfs_vnodes s)) = length ps) as ->.
  { unfold array_getnum. destruct Hrep as (-> & _). lia. }
  destruct (vnode_index_spec ps (sfs_vnodes s) p (length ps) 0 Hrep) as (j & E & Hj); [by rewrite drop_0|lia|].
  apply wpe_bind. eapply wpe_lift; [exact E|].
  destruct (array_remove_ok (sfs_vnodes s) ps j Hrep) as (a & Ea & Ha & _); [by eapply lookup_lt_Some|].
  apply wpe_bind. eapply wpe_lift; [exact Ea|]. estep. unfold VOP_KILL. apply wpe_bind, wpe_bind.
  eapply wpe_getv; [exact Hp|]. apply wpe_assert; [by rewrite Hrc, Hoc|]. apply wpe_mod. split; [done|]. by exists j, a.
Qed.

Lemma reclaim_end_spec s G own p ino v bm :
  at_file s G own p ino v bm → sv_refcount v = 1 → sv_opencount v = 0 → sect s ino = enc_inode (sv_i v) →
  (sfi_linkcount (sv_i v) = 0 → bm = ∅ ∧ sfi_indirect (sv_i v) = 0) →
  wpe (reclaim_end p) (λ res s', res = inr tt ∧ keeps s s' ∧ vrefs s' = delete p (vrefs s) ∧
    ∃ G' own', fs_inv s' G' own' ∧ no_loss s G s' G' ∧
      view s' G' = if decide (sfi_linkcount (sv_i v) = 0) then delete ino (view s G) else view s G) s.
Proof.
  intros Haf Hrc Hoc Hsec Hempty. pose proof Haf as [A1 A2 A3 A4]. destruct (iv_tab _ _ _ A1) as (ps & Hrep & Hnd & Hps).
  assert (p ∈ ps) as Hin by (apply Hps; by eexists). destruct (fs_inv_ino _ _ _ _ _ _ A1 A4) as [Hr Hb]. subst ino.
  unfold reclaim_end. apply wpe_bind. eapply wpe_getv; [exact A2|]. apply wpe_bind.
  destruct (Z.eqb_spec (sfi_linkcount (sv_i v)) 0) as [Hl|Hl].
  - eapply wpe_mono; [apply sfs_bfree_spec; [apply A1|done|done]|]. intros r s1 [-> Hst].
    pose proof (free_step_fs_ok _ _ _ (iv_ok _ _ _ A1) Hr Hst) as Hok1. destruct Hst as (fm & -> & _ & Hn & Hbits). estep.
    eapply wpe_mono; [by apply (unload_spec (set_freemap fm true s) p v ps)|]. intros r s2 (-> & i & a & Hi & Ha & ->).
    split; [done|]. split; [done|]. split; [unfold vrefs; simpl; by rewrite fmap_delete|].
    exists (delete (sv_ino v) G), (delete (sv_ino v) own). rewrite decide_True by done. split; [|split].
    + apply (inv_unload s G own p v ps i a); try done; [by destruct Hok1|]. right. split; [done|]. split; [done|].
      intros b Hb0 Hne. simpl. rewrite Hbits by done. by rewrite (proj2 (Z.eqb_neq _ _)) by done.
    + destruct (Hempty Hl) as [-> Hi0]. by eapply no_loss_delete.
    + unfold view. by rewrite fmap_delete.
  - estep. eapply wpe_mono; [by apply (unload_spec s p v ps)|]. intros r s2 (-> & i & a & Hi & Ha & ->).
    split; [done|]. split; [done|]. split; [unfold vrefs; simpl; by rewrite fmap_delete|].
    exists G, own. rewrite decide_False by done. split; [|split; [by apply no_loss_same|done]].
    apply (inv_unload s G own p v ps i a); try done; [by destruct (iv_ok _ _ _ A1)|]. by left.
Qed.

Lemma reclaim_rest_spec s G own p ino v bm :
  at_file s G own p ino v bm → sv_refcount v = 1 → sv_opencount v = 0 →
  (sfi_linkcount (sv_i v) = 0 → bm = ∅ ∧ sfi_indirect (sv_i v) = 0) →
  wpe (_ ← sfs_sync_inode p; reclaim_end p) (λ res s', res = inr tt ∧ keeps s s' ∧ vrefs s' = delete p (vrefs s) ∧
    ∃ G' own', fs_inv s' G' own' ∧ no_loss s G s' G' ∧
      view s' G' ≡ if decide (sfi_linkcount (sv_i v) = 0) then delete ino (view s G) else view s G) s.
Proof.
  intros Haf Hrc Hoc Hempty. apply wpe_bind. eapply wpe_mono; [by eapply sync_inode_spec|].
  intros res s1 (-> & v1 & Haf1 & Ei & (S1 & S2 & S3 & _) & _ & Hsec & Hv1 & Hsh & Efm).
  eapply wpe_mono; [apply (reclaim_end_spec s1 G own p ino v1 bm Haf1); rewrite ?Ei; [congruence|congruence|congruence|done]|].
  intros res s2 (-> & Hk & HR2 & G' & own' & HI' & Hnl & Hv'). split; [done|].
  split; [eapply keeps_trans; [by apply shape_keeps|done]|]. split; [by rewrite HR2, (shape_vrefs _ _ Hsh)|]. exists G', own'. split; [done|].
  split; [eapply no_loss_trans; [apply (no_loss_same s); [apply Hsh|done]|done]|]. rewrite Ei in Hv'. rewrite Hv'. case_decide; [|exact Hv1].
  intros i. destruct (decide (i = ino)) as [->|Hne]; [by rewrite !lookup_delete_eq|]. rewrite !lookup_delete_ne by done. apply Hv1.
Qed.

(** A file that still has links only leaves memory. *)
Lemma fsat_reclaim_end s V R p r a :
  fsat t s V R → R !! p = Some r → V !! r_ino r = Some a → r_count r = 1 → r_open r = 0 → a_links a ≠ 0 →
  wpe (_ ← sfs_sync_inode p; reclaim_end p) (λ res s', res = inr tt ∧ keeps s s' ∧ fsat t s' V (delete p R)) s.
Proof.
  intros HS Hp Ha Hrc Hoc Hl. destruct (fsat_file _ _ _ _ _ HS Hp) as (G & own & v & bm & Haf & Hv & [HR Ht] & Er & Hva).
  rewrite Ha in Hva. apply (inj Some) in Hva as (_ & El & _). simpl in El. rewrite <- Er in *. simpl in *.
  eapply wpe_mono; [apply (reclaim_rest_spec s G own p _ v bm Haf); [done|done|congruence]|].
  intros res s' (-> & Hk & HR' & G' & own' & HI' & Hnl & Hv'). rewrite decide_False in Hv' by congruence. split; [done|]. split; [done|].
  exists G', own'. split; [done|]. split; [by rewrite Hv'|]. split; [by rewrite HR', HR|]. intros H. by eapply tight_step, Ht.
Qed.

(** A file truncated to nothing goes. *)
Lemma fsat_reclaim_gone s V R G own p ino v bm s1 :
  at_file s G own p ino v bm → view s G ≡ V → vrefs s = R → (t → tight s G) → sv_refcount v = 1 → sv_opencount v = 0 →
  sfi_linkcount (sv_i v) = 0 → trunc_post p ino 0 s G (inr tt) s1 →
  wpe (_ ← sfs_sync_inode p; reclaim_end p) (λ res s', res = inr tt ∧ keeps s s' ∧ fsat t s' (delete ino V) (delete p R)) s1.
Proof.
  intros Haf Hv HR Ht Hrc Hoc Hl (G1 & own1 & v1 & bm1 & Haf1 & Hsh & Hnl & [(_ & Hv1 & Hcut & Hneed)|(? & _)]); [|done].
  destruct (Hcut _ _ (af_file _ _ _ _ _ _ _ Haf)) as [Ebm _]. assert (bm1 = ∅) as E0.
  { subst bm1. apply map_eq. intros k. rewrite lookup_empty. apply eq_None_not_Some. intros [b Hb]. apply lookup_trim in Hb as [Hb HP].
    destruct (im_keys _ _ _ (fl_map _ _ _ _ _ (af_ok _ _ _ _ _ _ _ Haf)) _ _ Hb) as [Hk _]. change (blocks_of 0) with 0 in HP. unfold keep in HP. lia. }
  assert (sfi_indirect (sv_i v1) = 0) as Ei.
  { destruct (decide (sfi_indirect (sv_i v1) = 0)) as [|Hne]; [done|]. exfalso.
    destruct (Hneed v1 (af_vn _ _ _ _ _ _ _ Haf1) Hne ltac:(done)) as (k & _ & Hk). rewrite E0 in Hk. by destruct Hk. }
  assert (sfi_linkcount (sv_i v1) = 0) as El.
  { pose proof (Hv1 ino) as H. rewrite lookup_alter_eq, (view_lookup s G ino _ _ (af_file _ _ _ _ _ _ _ Haf)) in H.
    rewrite (view_lookup s1 G1 ino _ _ (af_file _ _ _ _ _ _ _ Haf1)) in H. apply (inj Some) in H as (_ & H & _). simpl in H. congruence. }
  pose proof (sh_vn _ _ Hsh p) as Hsv. rewrite (af_vn _ _ _ _ _ _ _ Haf), (af_vn _ _ _ _ _ _ _ Haf1) in Hsv. destruct Hsv as (_ & S2 & S3 & _).
  eapply wpe_mono; [apply (reclaim_rest_spec s1 G1 own1 p ino v1 bm1 Haf1); [congruence|congruence|done]|].
  intros res s2 (-> & Hk & HR2 & G2 & own2 & HI2 & Hnl2 & Hv2). rewrite decide_True in Hv2 by done. split; [done|].
  split; [eapply keeps_trans; [by apply shape_keeps|done]|]. exists G2, own2. split; [done|].
  split; [|split; [by rewrite HR2, (shape_vrefs _ _ Hsh), HR|intros H; eapply tight_step; [|by apply Ht]; by eapply no_loss_trans]].
  rewrite Hv2. intros i. destruct (decide (i = ino)) as [->|Hne]; [by rewrite !lookup_delete_eq|].
  rewrite !lookup_delete_ne, (Hv1 i), lookup_alter_ne by done. apply Hv.
Qed.

(** What letting go of a reference does. *)
Definition released (s : sfs) (V : gmap Z afile) (R : gmap Z vref) (p : Z) (r : vref) (a : afile)
    (V' : gmap Z afile) (R' : gmap Z vref) : Prop :=
  if decide (1 < r_count r) then V' = V ∧ R' = <[p := VRef (r_ino r) (r_count r - 1) (r_open r)]> R
  else if decide (a_links a = 0) then
    (V' = delete (r_ino r) V ∧ R' = delete p R) ∨
    (¬ reads_fine s ∧ V' = <[r_ino r := atrunc_failed 0 a]> V ∧ R' = R)
  else V' = V ∧ R' = delete p R.

Lemma wpe_vop_truncate s V R p r a len Q :
  fsat t s V R → R !! p = Some r → V !! r_ino r = Some a → a_type a = SFS_TYPE_FILE → wpe (sfs_truncate p len) Q s → wpe (VOP_TRUNCATE p len) Q s.
Proof.
  intros HS Hp Ha Ht HQ. destruct (fsat_meta _ _ _ _ _ _ HS Hp Ha) as (v & Hv & Er & Et & _ & _ & _ & _ & Hops & Hc & Ho).
  unfold VOP_TRUNCATE, vop_check. apply wpe_bind, wpe_bind. eapply wpe_getv; [exact Hv|]. rewrite <- Er in *. simpl in *.
  apply wpe_bind, wpe_assert; [lia|]. apply wpe_ret. destruct Hops as [[_ ->]|[E _]]; [done|rewrite <- Et, Ht in E; done].
Qed.

Lemma fsat_vop_truncate s V R p r a len :
  fsat t s V R → R !! p = Some r → V !! r_ino r = Some a → a_type a = SFS_TYPE_FILE →
  0 ≤ len → len + 512 < 2147483648 →
  wpe (VOP_TRUNCATE p len) (λ res s', keeps s s' ∧
    ((res = inr tt ∧ fsat t s' (<[r_ino r := atrunc len a]> V) R) ∨
     (res = inl EIO ∧ ¬ reads_fine s ∧ fsat t s' (<[r_ino r := atrunc_failed len a]> V) R))) s.
Proof. intros HS Hp Ha Ht Hl Hm. eapply wpe_vop_truncate; [done..|]. by apply (fsat_truncate s V R p r a HS). Qed.

Lemma fsat_decref s V R p r a :
  fsat t s V R → R !! p = Some r → V !! r_ino r = Some a →
  (r_count r = 1 → r_open r = 0 ∧ (a_links a = 0 → a_type a = SFS_TYPE_FILE)) →
  wpe (VOP_DECREF p) (λ res s', res = inr tt ∧ keeps s s' ∧ ∃ V' R', released s V R p r a V' R' ∧ fsat t s' V' R') s.
Proof.
  intros HS Hp Ha Hone. destruct (fsat_meta _ _ _ _ _ _ HS Hp Ha) as (v & Hv & Er & Et & El & _ & _ & _ & _ & Hc & Ho).
  unfold VOP_DECREF, released. apply wpe_bind. eapply wpe_getv; [exact Hv|]. assert (sv_refcount v = r_count r) as Erc by (by rewrite <- Er).
  apply wpe_bind, wpe_assert; [lia|]. rewrite Erc. destruct (Z.ltb_spec 1 (r_count r)) as [Hgt|Hle].
  - apply wpe_mod. split; [done|]. split; [done|]. eexists _, _. rewrite decide_True by done. split; [done|].
    pose proof (fsat_counts s V R p r v (r_count r - 1) (sv_opencount v) HS Hp Hv ltac:(lia)) as H. rewrite <- Er in *. simpl in *.
    by apply H.
  - assert (r_count r = 1) as E1 by lia. destruct (Hone E1) as [Hop Hft]. apply wpe_bind, wpe_attempt. unfold sfs_reclaim.
    apply wpe_bind. eapply wpe_getv; [exact Hv|]. rewrite Erc, E1. cbn [Z.eqb Pos.eqb negb]. rewrite <- El. apply wpe_bind.
    destruct (Z.eqb_spec (a_links a) 0) as [Hz|Hz].
    + destruct (fsat_file _ _ _ _ _ HS Hp) as (G & own & v' & bm & Haf & HV & [HR Ht] & _ & _). pose proof (af_vn _ _ _ _ _ _ _ Haf) as Hv'.
      assert (v' = v) as -> by congruence. eapply wpe_mono; [eapply (wpe_vop_truncate s V R p r a 0); [done..|by apply Hft|]|].
      { apply (sfs_truncate_spec p _ s G own v bm 0 Haf); lia. }
      intros res s1 Hpost. destruct (trunc_fsat s V R p r a HS Hp Ha G own v bm 0 res s1 Haf HV HR Ht Hpost) as [Hk1 [[-> HS1]|(-> & Hn & HS1)]].
      * eapply wpe_mono; [eapply (fsat_reclaim_gone s V R G own p (r_ino r) v bm s1); [done..|congruence|rewrite <- Er in Hop; done|congruence|done]|].
        intros res s2 (-> & Hk2 & HS2). cbv beta iota. apply wpe_ret. split; [done|]. split; [done|].
        eexists _, _. split; [|exact HS2]. rewrite decide_False by lia. rewrite !decide_True by done. by left.
      * cbv beta iota. apply wpe_ret. split; [done|]. split; [done|]. eexists _, _. split; [|exact HS1].
        rewrite decide_False by lia. rewrite decide_True by done. by right.
    + apply wpe_ret. eapply wpe_mono; [by eapply (fsat_reclaim_end s V R p r a HS Hp Ha E1 Hop)|].
      intros res s2 (-> & Hk2 & HS2). cbv beta iota. apply wpe_ret. split; [done|]. split; [done|].
      eexists _, _. split; [|exact HS2]. rewrite decide_False by lia. rewrite !decide_False by done. done.
Qed.
End fsat_vnode.
