(* ===== verification/SfsDir.v ===== *)
(** Directories: a directory file as a list of slots, and the operations that
    search and change it. *)

From Stdlib Require Import ZArith Lia.
From stdpp Require Import base numbers list option gmap.
From S2P Require Import Prelude Array Bitmap Errm Uio UioProofs Lhd LhdProofs SfsDisk Sfs SfsBlock SfsInv SfsBmap SfsIo SfsSpec SfsTrunc SfsAbs SfsVnode.

Open Scope Z_scope.

(** ** Directory files *)

Definition slots (a : afile) : Z := a_size a / 64.
Definition dslot (a : afile) (i : Z) : sfs_dir := dec_dir (aread (i * 64) 64 a).

(** The name in an entry, as [sfs_dir_findname] compares it. *)
Definition dname (d : sfs_dir) : list Z := cstr (<[59%nat := 0]> (sfd_name d)).

(** Slot [i] names file [ino] as [name]. *)
Record dentry (a : afile) (name : list Z) (ino i : Z) : Prop := {
  de_slot : 0 ≤ i < slots a;
  de_ino : sfd_ino (dslot a i) = ino;
  de_used : ino ≠ 0;
  de_name : dname (dslot a i) = name
}.

Record dir_ok (a : afile) : Prop := {
  dk_type : a_type a = SFS_TYPE_DIR;
  dk_size : a_size a mod 64 = 0;
  dk_max : 0 ≤ a_size a ≤ max_file;
  dk_uniq : ∀ name i1 i2 s1 s2, dentry a name i1 s1 → dentry a name i2 s2 → s1 = s2
}.

Lemma slots_size a : dir_ok a → a_size a = slots a * 64 ∧ 0 ≤ slots a ≤ 1144.
Proof.
  intros [_ H1 H2 _]. unfold slots, max_file in *. pose proof (Z.div_mod (a_size a) 64 ltac:(lia)). lia.
Qed.

(** ** One entry *)

Lemma ended_kernel s f u n d u1 r u' :
  is_sys u1 = true → ended s f u n d u1 r u' →
  u' = u1 ∧ match r with inr _ => Z.of_nat (length d) = n | inl e => io_error s f u n e ∧ stopped u n d end.
Proof.
  intros Hs He. destruct r as [e|[]]; [|by destruct He as [? ->]]. destruct He as [(-> & H)|[_ Hf]]; [done|].
  exfalso. by eapply sys_no_fault.
Qed.

Lemma entry_pos slot : 0 ≤ slot ≤ 1144 → s32 (u32 (slot * DIRSIZE)) = slot * 64.
Proof. intros H. unfold DIRSIZE. rewrite u32_id, s32_id by (unfold is_u32, is_s32; lia). done. Qed.

Definition dir_error (s : sfs) (a : afile) (slot e : Z) : Prop :=
  e = ENOSPC ∧ hole (a_byte a) (slot * 64) ∨ e = EIO ∧ ¬ reads_fine s ∨ e = EINVAL ∧ slot = 1144.

Lemma slot_in_block slot : slot * 64 mod 512 + 64 ≤ 512.
Proof.
  pose proof (Z.div_mod (slot * 64) 512 ltac:(lia)). pose proof (Z.mod_pos_bound (slot * 64) 512 ltac:(lia)). lia.
Qed.

(** A slot in a hole is free. *)
Lemma hole_slot a slot : dir_ok a → hole (a_byte a) (slot * 64) → 0 ≤ slot < slots a → sfd_ino (dslot a slot) = 0.
Proof.
  intros Hd Hh Hs. destruct (slots_size a Hd) as [Esz _]. assert (aread (slot * 64) 64 a = replicate 64 0) as E.
  { unfold aread. replace (avail _ _ _) with 64 by (unfold avail; lia). apply list_eq. intros i. rewrite list_lookup_fmap.
    change (Z.to_nat 64) with 64%nat. destruct (decide (i < 64)%nat) as [Hi|Hi].
    - rewrite lookup_seq_lt, lookup_replicate_2 by done. simpl. f_equal. apply Hh; [lia|].
      pose proof (slot_in_block slot). pose proof (Z.div_mod (slot * 64) 512 ltac:(lia)).
      symmetry. apply (Z.div_unique _ _ _ (slot * 64 mod 512 + Z.of_nat i)); [|lia]. pose proof (Z.mod_pos_bound (slot * 64) 512 ltac:(lia)). lia.
    - rewrite lookup_seq_ge, lookup_ge_None_2 by (rewrite ?length_replicate; lia). done. }
  unfold dslot. rewrite E. reflexivity.
Qed.

Section entry.
Context {t : Prop} (s : sfs) (V : gmap Z afile) (R : gmap Z vref) (p : Z) (r : vref) (a : afile).
Context (HS : fsat t s V R) (Hp : R !! p = Some r) (Ha : V !! r_ino r = Some a).

Lemma fsat_readdir slot :
  dir_ok a → 0 ≤ slot < slots a →
  wpe (sfs_readdir p slot) (λ res s', keeps s s' ∧ fsat t s' V R ∧
    (res = inr (dslot a slot) ∨ res = inl EIO ∧ ¬ reads_fine s)) s.
Proof.
  intros Hd Hs. destruct (slots_size a Hd) as [Esz Hsl]. unfold sfs_readdir. rewrite entry_pos by lia.
  apply wpe_bind, with_uio_spec. set (u := mk_kuio _ _ _ _).
  assert (uio_ok u) as Hu.
  { apply mk_kuio_ok; unfold DIRSIZE; rewrite ?length_replicate; try lia. apply Forall_replicate. unfold is_u8. lia. }
  eapply wpe_mono; [apply (fsat_sfs_read s V R p r a HS Hp Ha u Hu eq_refl); done|].
  intros res [s' u'] (d & u1 & HS' & Hk & Hx & Hpre & He).
  assert (avail (a_size a) (uio_offset u) (uio_resid u) = 64) as Hav by (unfold avail, u, DIRSIZE; simpl; lia).
  rewrite Hav in He. destruct (xfer_fields _ _ _ Hx) as (Es & _). change (is_sys u) with true in Es.
  destruct (ended_kernel _ _ _ _ _ _ _ _ Es He) as [-> Hres]. destruct res as [e|[]].
  - split; [done|]. split; [done|]. right. destruct Hres as [[[_ Hm]|[(_ & Hr & _)|[-> Hn]]] _]; [|done|done].
    exfalso. unfold u, DIRSIZE in Hm. simpl in Hm. pose proof (dk_max _ Hd). lia.
  - assert (d = aread (slot * 64) 64 a) as ->.
    { apply prefix_length_eq; [exact Hpre|]. pose proof (aread_length (slot * 64) 64 a) as E.
      change (avail (a_size a) (slot * 64) 64 = 64) in Hav. rewrite Hav in E. apply Nat2Z.inj_le. rewrite E, Hres. done. }
    destruct Hx as (Hby & _ & _ & Hx). change (is_read u) with true in Hx. cbv iota in Hx. subst u1.
    unfold uwrite, move, set_kbuf. change (is_sys u) with true. cbn [uio_resid iov_kbuf iov_base u mk_kuio].
    assert (length (aread (slot * 64) 64 a) = 64%nat) as Hl64 by lia.
    rewrite Hl64. change (DIRSIZE - Z.of_nat 64) with 0. cbn [Z.ltb Z.compare]. apply wpe_ret. split; [done|]. split; [done|]. left.
    change (Z.to_nat 0) with 0%nat. rewrite splice_all by (rewrite Hl64; done). done.
Qed.

(** A written entry, or nothing: the disk is full or fails, or the directory
    has as many slots as a file can hold. *)
Lemma fsat_writedir sd slot :
  dir_wf sd → 0 ≤ slot ≤ 1144 →
  wpe (sfs_writedir p sd slot) (λ res s', keeps s s' ∧
    ((res = inr tt ∧ fsat t s' (<[r_ino r := awrite (slot * 64) (enc_dir sd) a]> V) R) ∨
     (∃ e, res = inl e ∧ dir_error s a slot e ∧ fsat t s' (<[r_ino r := awrite (slot * 64) [] a]> V) R))) s.
Proof.
  intros Hwf Hs. unfold sfs_writedir. apply wpe_bind, wpe_assert; [lia|]. cbv zeta. rewrite entry_pos by lia.
  pose proof (enc_dir_length sd Hwf) as Hl. apply wpe_bind, with_uio_spec. set (u := mk_kuio _ _ _ _).
  assert (uio_ok u) as Hu.
  { apply mk_kuio_ok; unfold DIRSIZE; try lia. unfold enc_dir. apply Forall_app. split; [apply be32_bytes|apply Hwf]. }
  eapply wpe_mono; [apply (fsat_sfs_write s V R p r a HS Hp Ha u Hu eq_refl); done|].
  intros res [s' u'] (d & u1 & HS' & Hk & Hx & He). change (uio_resid u) with 64 in He. change (uio_offset u) with (slot * 64) in HS'.
  destruct (xfer_fields _ _ _ Hx) as (Es & _ & _ & Ere & _). change (is_sys u) with true in Es.
  destruct (ended_kernel _ _ _ _ _ _ _ _ Es He) as [-> Hres]. pose proof (proj1 (proj2 Hx)) as Hdl. change (uio_resid u) with 64 in Hdl, Ere.
  destruct res as [e|[]].
  - split; [done|]. right. exists e. split; [done|]. destruct Hres as [Herr Hst]. split.
    + destruct Herr as [[-> Hm]|[(-> & _ & Hh)|[-> Hn]]]; [|left; split; [done|]; apply Hh; apply slot_in_block|right; by left]. right; right. split; [done|].
      change (uio_offset u) with (slot * 64) in Hm. unfold max_file in Hm. lia.
    + assert (d = []) as ->; [|done]. destruct Hst as [?|[Hmod Hlt]]; [done|]. change (uio_offset u) with (slot * 64) in Hmod.
      apply length_zero_iff_nil. pose proof (Z.div_mod (slot * 64 + Z.of_nat (length d)) 512 ltac:(lia)). lia.
  - rewrite Ere, Hres. cbn [Z.sub Z.ltb Z.compare Z.add Z.opp Z.pos_sub]. apply wpe_ret. split; [done|]. left. split; [done|].
    assert (d = enc_dir sd) as ->; [|done]. destruct Hx as (_ & _ & _ & Hx). change (is_read u) with false in Hx.
    destruct Hx as [Hh _]. unfold uholds in Hh. change (is_sys u) with true in Hh. cbn [iov_kbuf iov_base u mk_kuio] in Hh.
    change (Z.to_nat 0) with 0%nat in Hh. rewrite drop_0, take_ge in Hh by lia. done.
Qed.
End entry.

(** ** Searching *)

(** What the search knows after [i] slots. *)
Record found (a : afile) (name : list Z) (i : Z) (r : findres) : Prop := {
  fd_some : ∀ ino slot, f_found r = Some (ino, slot) → dentry a name ino slot ∧ slot < i;
  fd_none : f_found r = None → ∀ ino slot, slot < i → ¬ dentry a name ino slot;
  fd_empty : f_empty r = -1 ∨ (0 ≤ f_empty r < i ∧ sfd_ino (dslot a (f_empty r)) = 0)
}.

Lemma found_start a name : found a name 0 (mkFind None (-1)).
Proof. split; simpl; [done| |by left]. intros _ ino slot Hs [? _]. lia. Qed.

Lemma found_skip a name i r :
  found a name i r → (∀ ino, ¬ dentry a name ino i) → found a name (i + 1) r.
Proof.
  intros [F1 F2 F3] Hn. split.
  - intros ino slot E. destruct (F1 _ _ E). split; [done|lia].
  - intros E ino slot Hs Hd. destruct (decide (slot = i)) as [->|Hne]; [by apply (Hn ino)|]. apply (F2 E ino slot); [lia|done].
  - destruct F3 as [?|[? ?]]; [by left|right; split; [lia|done]].
Qed.

Section search.
Context {t : Prop} (V : gmap Z afile) (R : gmap Z vref) (p : Z) (r : vref) (a : afile).
Context (Hp : R !! p = Some r) (Ha : V !! r_ino r = Some a) (Hd : dir_ok a).

Lemma fsat_findname_loop n i name fr s :
  fsat t s V R → i + Z.of_nat n = slots a → 0 ≤ i → found a name i fr →
  wpe (sfs_findname_loop n p i name fr) (λ res s', keeps s s' ∧ fsat t s' V R ∧
    ((∃ fr', res = inr fr' ∧ found a name (slots a) fr') ∨ res = inl EIO ∧ ¬ reads_fine s)) s.
Proof.
  revert i fr s. induction n as [|n IH]; intros i fr s HS Hn Hi Hf; cbn [sfs_findname_loop].
  { apply wpe_ret. split; [apply keeps_refl|]. split; [done|]. left. exists fr. split; [done|]. by replace (slots a) with i by lia. }
  apply wpe_bind. eapply wpe_mono; [apply (fsat_readdir s V R p r a HS Hp Ha i Hd); lia|].
  intros res s1 (Hk & HS1 & [-> |[-> Hne]]); [|split; [done|]; split; [done|by right]].
  assert (∀ fr', found a name (i + 1) fr' → wpe (sfs_findname_loop n p (i + 1) name fr') (λ res s', keeps s s' ∧ fsat t s' V R ∧
    ((∃ fr', res = inr fr' ∧ found a name (slots a) fr') ∨ res = inl EIO ∧ ¬ reads_fine s)) s1) as Hnext.
  { intros fr' Hf'. eapply wpe_mono; [apply (IH (i + 1) fr' s1 HS1); [lia|lia|done]|].
    intros res s2 (Hk2 & HS2 & Hc). split; [by eapply keeps_trans|]. split; [done|]. destruct Hc as [?|[-> ?]]; [by left|right].
    split; [done|]. by eapply keeps_noread. }
  destruct (Z.eqb_spec (sfd_ino (dslot a i)) SFS_NOINO) as [Hz|Hz].
  - apply Hnext. apply (found_skip a name i) in Hf as [F1 F2 F3]; [|intros ino [_ E Hu _]; unfold SFS_NOINO in Hz; congruence].
    split; [done|done|]. right. simpl. split; [lia|done].
  - change (cstr (<[59%nat:=0]> (sfd_name (dslot a i)))) with (dname (dslot a i)). case_bool_decide as En.
    + assert (dentry a name (sfd_ino (dslot a i)) i) as Hde by (split; [lia|done|done|done]).
      assert (f_found fr = None) as Enone.
      { destruct (f_found fr) as [[ino' slot']|] eqn:E; [exfalso|done]. destruct (fd_some _ _ _ _ Hf _ _ E) as [Hde' Hlt].
        pose proof (dk_uniq _ Hd _ _ _ _ _ Hde Hde'). lia. }
      apply wpe_bind, wpe_assert; [by rewrite bool_decide_eq_true|]. apply Hnext. split; simpl.
      * intros ino slot [= <- <-]. split; [done|lia].
      * done.
      * destruct (fd_empty _ _ _ _ Hf) as [?|[? ?]]; [by left|right; split; [lia|done]].
    + apply Hnext, found_skip; [done|]. intros ino [_ _ _ ?]. done.
Qed.

Lemma fsat_nentries s :
  fsat t s V R → wpe (sfs_dir_nentries p) (λ res s', res = inr (slots a) ∧ s' = s) s.
Proof.
  intros HS. destruct (fsat_meta _ _ _ _ _ _ HS Hp Ha) as (v & Hv & Er & Et & _ & Esz & Hsz & _).
  unfold sfs_dir_nentries. apply wpe_bind. eapply wpe_getv; [exact Hv|]. rewrite <- Et, (dk_type _ Hd).
  apply wpe_bind, wpe_assert; [done|]. cbv zeta. rewrite <- Esz. unfold DIRSIZE. rewrite (dk_size _ Hd). cbn [Z.eqb negb].
  apply wpe_ret. split; [|done]. f_equal. destruct (slots_size a Hd) as [_ Hs]. unfold slots in *. apply s32_id. unfold is_s32. lia.
Qed.

Lemma fsat_findname s name :
  fsat t s V R →
  wpe (sfs_dir_findname p name) (λ res s', keeps s s' ∧ fsat t s' V R ∧
    ((∃ fr, res = inr fr ∧ found a name (slots a) fr) ∨ res = inl EIO ∧ ¬ reads_fine s)) s.
Proof.
  intros HS. unfold sfs_dir_findname. apply wpe_bind. eapply wpe_mono; [by apply fsat_nentries|]. intros res s' [-> ->].
  destruct (slots_size a Hd) as [_ Hs]. apply fsat_findname_loop; [done|lia|lia|]. apply found_start.
Qed.
End search.

(** ** Changing a slot *)

Lemma awrite_nil_id a off : off ≤ a_size a → awrite off [] a ≡ a.
Proof. intros H. split_and!; try done; [simpl; lia|]. intros x _. apply overlay_nil. Qed.

Lemma size_write a slot e :
  dir_ok a → 0 ≤ slot ≤ slots a → length e = 64%nat →
  a_size (awrite (slot * 64) e a) = Z.max (slots a) (slot + 1) * 64 ∧ slots (awrite (slot * 64) e a) = Z.max (slots a) (slot + 1).
Proof.
  intros Hd Hs He. destruct (slots_size a Hd) as [Esz _].
  assert (a_size (awrite (slot * 64) e a) = Z.max (slots a) (slot + 1) * 64) as E by (simpl; rewrite He, Esz; lia).
  split; [done|]. unfold slots at 1. rewrite E. apply Z.div_mul. lia.
Qed.

Lemma aread_list a off n l :
  avail (a_size a) off n = Z.of_nat (length l) → (∀ i y, l !! i = Some y → a_byte a (off + Z.of_nat i) = y) → aread off n a = l.
Proof.
  intros Ha Hl. apply list_eq. intros i. unfold aread. rewrite list_lookup_fmap, Ha, Nat2Z.id.
  destruct (decide (i < length l)%nat) as [Hi|Hi].
  - rewrite lookup_seq_lt by lia. simpl. destruct (lookup_lt_is_Some_2 l i Hi) as [y Hy]. by rewrite Hy, (Hl _ _ Hy).
  - rewrite lookup_seq_ge, lookup_ge_None_2 by lia. done.
Qed.

Lemma aread_lookup a off n i y : aread off n a !! i = Some y → y = a_byte a (off + Z.of_nat i).
Proof.
  unfold aread. rewrite list_lookup_fmap. intros H. apply fmap_Some in H as (j & Hj & ->). apply lookup_seq in Hj as [-> _]. done.
Qed.

Lemma dslot_write a slot sd i :
  dir_ok a → dir_wf sd → 0 ≤ slot ≤ slots a → 0 ≤ i < Z.max (slots a) (slot + 1) →
  dslot (awrite (slot * 64) (enc_dir sd) a) i = if decide (i = slot) then sd else dslot a i.
Proof.
  intros Hd Hwf Hs Hi. pose proof (enc_dir_length sd Hwf) as Hl. destruct (size_write a slot (enc_dir sd) Hd Hs Hl) as [Esz _].
  destruct (slots_size a Hd) as [Esz0 _]. unfold dslot. case_decide as Heq.
  - subst i. rewrite (aread_list _ _ _ (enc_dir sd)); [by apply dec_enc_dir| |].
    + unfold avail. rewrite Esz, Hl. lia.
    + intros j y Hj. simpl. unfold overlay. assert (j < 64)%nat by (apply lookup_lt_Some in Hj; lia).
      rewrite decide_True by lia. replace (Z.to_nat _) with j by lia. by rewrite Hj.
  - f_equal. apply aread_list.
    + rewrite aread_length. unfold avail. rewrite Esz, Esz0. lia.
    + intros j y Hj. assert (j < 64)%nat as Hj64.
      { apply lookup_lt_Some in Hj. pose proof (aread_length (i * 64) 64 a) as E. unfold avail in E. lia. }
      rewrite (aread_lookup _ _ _ _ _ Hj). simpl. unfold overlay. rewrite decide_False by lia. done.
Qed.

(** The entries after a slot has been written. *)
Lemma dentry_write a slot sd name ino i :
  dir_ok a → dir_wf sd → 0 ≤ slot ≤ slots a →
  dentry (awrite (slot * 64) (enc_dir sd) a) name ino i ↔
  (i ≠ slot ∧ dentry a name ino i) ∨ (i = slot ∧ sfd_ino sd = ino ∧ ino ≠ 0 ∧ dname sd = name).
Proof.
  intros Hd Hwf Hs. pose proof (enc_dir_length sd Hwf) as Hl. destruct (size_write a slot (enc_dir sd) Hd Hs Hl) as [_ Esl].
  split.
  - intros [H1 H2 H3 H4]. rewrite Esl in H1. rewrite dslot_write in H2, H4 by done. case_decide as Heq; [by right|left].
    split; [done|]. split; try done. lia.
  - intros [[Hne [H1 H2 H3 H4]]|(-> & H2 & H3 & H4)]; (split; [rewrite Esl; lia| |done|]);
      rewrite dslot_write by (done || lia); by (rewrite decide_False by done) || (rewrite decide_True by done).
Qed.

Lemma dir_ok_write a slot sd :
  dir_ok a → dir_wf sd → 0 ≤ slot ≤ slots a → slot < 1144 →
  (sfd_ino sd = 0 ∨ ∀ ino i, dentry a (dname sd) ino i → i = slot) →
  dir_ok (awrite (slot * 64) (enc_dir sd) a).
Proof.
  intros Hd Hwf Hs Hlt Hnew. pose proof (enc_dir_length sd Hwf) as Hl. destruct (size_write a slot (enc_dir sd) Hd Hs Hl) as [Esz _].
  destruct (slots_size a Hd) as [_ Hsl]. split.
  - apply Hd.
  - rewrite Esz. apply Z_mod_mult.
  - rewrite Esz. unfold max_file. lia.
  - intros name i1 i2 s1 s2. rewrite !dentry_write by done.
    intros [[N1 D1]|(-> & E1 & U1 & M1)] [[N2 D2]|(-> & E2 & U2 & M2)]; [by eapply (dk_uniq _ Hd)| | |done]; subst name.
    + destruct Hnew as [?|Hnew]; [congruence|]. by apply (Hnew i1).
    + destruct Hnew as [?|Hnew]; [congruence|]. symmetry. by apply (Hnew i2).
Qed.

(** ** Linking and unlinking *)

(** A C string without its NUL. *)
Definition name_ok (name : list Z) : Prop := Forall (λ c, 0 < c < 256) name.

Definition new_entry (name : list Z) (ino : Z) : sfs_dir := mkDir ino (name ++ replicate (SFS_NAMELEN - length name) 0).
Definition no_entry : sfs_dir := mkDir SFS_NOINO (replicate SFS_NAMELEN 0).

Lemma new_entry_wf name ino : name_ok name → is_u32 ino → (length name ≤ 59)%nat → dir_wf (new_entry name ino).
Proof.
  intros Hn Hi Hl. split; [done|]. simpl. split; [rewrite length_app, length_replicate; unfold SFS_NAMELEN; lia|].
  apply Forall_app. split; [eapply Forall_impl; [exact Hn|]; unfold is_u8; simpl; lia|]. apply Forall_replicate. unfold is_u8. lia.
Qed.

Lemma new_entry_name name ino : name_ok name → (length name ≤ 59)%nat → dname (new_entry name ino) = name.
Proof.
  intros Hn Hl. unfold dname, new_entry, SFS_NAMELEN. cbn [sfd_name]. rewrite insert_app_r_alt by lia.
  replace (60 - length name)%nat with (S (59 - length name)) by lia.
  destruct (59 - length name)%nat as [|m] eqn:E; cbn [replicate].
  - replace (59 - length name)%nat with 0%nat by lia. simpl. by apply cstr_app.
  - simpl. by apply cstr_app.
Qed.

Lemma no_entry_wf : dir_wf no_entry.
Proof. split; [unfold is_u32, no_entry, SFS_NOINO; simpl; lia|]. split; [done|]. apply Forall_replicate. unfold is_u8. lia. Qed.

(** Beyond the largest block there is nothing. *)
Lemma fsat_beyond {t : Prop} s V R p r a x :
  fsat t s V R → R !! p = Some r → V !! r_ino r = Some a → max_file ≤ x → a_byte a x = 0.
Proof.
  intros HS Hp Ha Hx. destruct (fsat_file _ _ _ _ _ HS Hp) as (G & own & v & bm & Haf & _ & _ & _ & Hv). rewrite Ha in Hv.
  apply (inj Some) in Hv as (_ & _ & _ & Hb). unfold max_file in Hx. rewrite Hb by lia. simpl. unfold fbyte.
  destruct (bm !! (x / 512)) as [b|] eqn:E; [exfalso|done].
  destruct (im_keys _ _ _ (fl_map _ _ _ _ _ (af_ok _ _ _ _ _ _ _ Haf)) _ _ E) as [Hk _].
  pose proof (Z.div_mod x 512 ltac:(lia)). pose proof (Z.mod_pos_bound x 512 ltac:(lia)). lia.
Qed.

Lemma be32_nonzero w : is_u32 w → w ≠ 0 → ∃ i c, be32 w !! i = Some c ∧ c ≠ 0.
Proof.
  intros Hw Hn. pose proof (de32_be32 w Hw) as E. unfold be32 in *. set (b0 := w / 16777216 mod 256) in *.
  set (b1 := w / 65536 mod 256) in *. set (b2 := w / 256 mod 256) in *. set (b3 := w mod 256) in *.
  destruct (decide (b0 = 0)) as [E0|?]; [|by exists 0%nat, b0]. destruct (decide (b1 = 0)) as [E1|?]; [|by exists 1%nat, b1].
  destruct (decide (b2 = 0)) as [E2|?]; [|by exists 2%nat, b2]. exists 3%nat, b3. split; [done|]. intros E3. apply Hn.
  rewrite <- E, E0, E1, E2, E3. done.
Qed.

Section link.
Context {t : Prop} (V : gmap Z afile) (R : gmap Z vref) (p : Z) (r : vref) (a : afile).
Context (Hp : R !! p = Some r) (Ha : V !! r_ino r = Some a) (Hd : dir_ok a).

(** A slot that can be used for a new entry. *)
Definition free_slot (slot : Z) : Prop := 0 ≤ slot ≤ slots a ∧ slot < 1144 ∧ (slot < slots a → sfd_ino (dslot a slot) = 0).

Lemma fsat_unwritten s slot :
  0 ≤ slot ≤ slots a → fsat t s (<[r_ino r := awrite (slot * 64) [] a]> V) R → fsat t s V R.
Proof.
  intros Hs HS. destruct (slots_size a Hd) as [Esz _]. eapply fsat_proper; [|done|exact HS].
  rewrite <- (insert_id V (r_ino r) a Ha) at 1. apply insert_proper; [|done]. symmetry. apply awrite_nil_id. lia.
Qed.

(** A slot that does not fit cannot have been written. *)
Lemma written_fits s slot sd :
  dir_wf sd → sfd_ino sd ≠ 0 → 0 ≤ slot ≤ slots a →
  fsat t s (<[r_ino r := awrite (slot * 64) (enc_dir sd) a]> V) R → slot < 1144.
Proof.
  intros Hwf Hn Hs HS. destruct (slots_size a Hd) as [_ Hsl]. destruct (decide (slot = 1144)) as [->|]; [exfalso|lia].
  destruct (be32_nonzero (sfd_ino sd) (proj1 Hwf) Hn) as (i & c & Hi & Hc). pose proof (enc_dir_length sd Hwf) as Hl.
  assert (enc_dir sd !! i = Some c) as Hic by (unfold enc_dir; by apply lookup_app_l_Some).
  pose proof (lookup_lt_Some _ _ _ Hic) as Hlt. apply Hc.
  pose proof (fsat_beyond s _ R p r (awrite (1144 * 64) (enc_dir sd) a) (1144 * 64 + Z.of_nat i) HS Hp (lookup_insert_eq _ _ _)) as Hb.
  simpl in Hb. unfold overlay in Hb. rewrite decide_True in Hb by lia. replace (Z.to_nat _) with i in Hb by lia.
  rewrite Hic in Hb. simpl in Hb. apply Hb. unfold max_file. lia.
Qed.

Definition link_error (s : sfs) (name : list Z) (e : Z) : Prop :=
  (e = EEXIST ∧ ∃ ino i, dentry a name ino i) ∨ (e = ENAMETOOLONG ∧ (59 < length name)%nat) ∨
  e = ENOSPC ∨ (e = EIO ∧ ¬ reads_fine s) ∨ (e = EINVAL ∧ slots a = 1144).

Lemma fsat_dir_link s name ino :
  fsat t s V R → name_ok name → is_u32 ino → ino ≠ 0 →
  wpe (sfs_dir_link p name ino) (λ res s', keeps s s' ∧
    ((∃ slot, res = inr slot ∧ free_slot slot ∧ (length name ≤ 59)%nat ∧ (∀ i j, ¬ dentry a name i j) ∧
        fsat t s' (<[r_ino r := awrite (slot * 64) (enc_dir (new_entry name ino)) a]> V) R) ∨
     (∃ e, res = inl e ∧ link_error s name e ∧ fsat t s' V R))) s.
Proof.
  intros HS Hn Hu Hnz. unfold sfs_dir_link. apply wpe_bind. eapply wpe_mono; [by apply (fsat_findname (t := t) V R p r a Hp Ha Hd)|].
  intros res s1 (Hk & HS1 & [(fr & -> & Hf)|[-> Hnr]]).
  2:{ split; [done|]. right. exists EIO. split; [done|]. split; [|done]. right; right; right; left. done. }
  case_bool_decide as Efound.
  { apply wpe_raise. split; [done|]. right. exists EEXIST. split; [done|]. split; [|done]. left. split; [done|].
    destruct (f_found fr) as [[i j]|] eqn:E; [|done]. destruct (fd_some _ _ _ _ Hf _ _ E). by exists i, j. }
  assert (∀ i j, ¬ dentry a name i j) as Hno.
  { intros i j Hde. apply (fd_none _ _ _ _ Hf Efound i j); [apply (de_slot _ _ _ _ Hde)|done]. }
  change (Z.of_nat SFS_NAMELEN) with 60. destruct (Z.ltb_spec 60 (Z.of_nat (length name) + 1)) as [Hlong|Hshort].
  { apply wpe_raise. split; [done|]. right. exists ENAMETOOLONG. split; [done|]. split; [|done]. right; left. split; [done|lia]. }
  destruct (slots_size a Hd) as [_ Hsl]. apply wpe_bind.
  assert (∀ slot, 0 ≤ slot ≤ slots a → (slot < slots a → sfd_ino (dslot a slot) = 0) →
    wpe (_ ← sfs_writedir p (new_entry name ino) slot; mret slot) (λ res s', keeps s s' ∧
    ((∃ slot, res = inr slot ∧ free_slot slot ∧ (length name ≤ 59)%nat ∧ (∀ i j, ¬ dentry a name i j) ∧
        fsat t s' (<[r_ino r := awrite (slot * 64) (enc_dir (new_entry name ino)) a]> V) R) ∨
     (∃ e, res = inl e ∧ link_error s name e ∧ fsat t s' V R))) s1) as Hwrite.
  { intros slot Hs Hfree. pose proof (new_entry_wf name ino Hn Hu ltac:(lia)) as Hwf. apply wpe_bind.
    eapply wpe_mono; [apply (fsat_writedir s1 V R p r a HS1 Hp Ha _ slot Hwf); lia|].
    intros res s2 [Hk2 [[-> HS2]|(e & -> & He & HS2)]]; [apply wpe_ret|]; (split; [by eapply keeps_trans|]).
    - left. exists slot. split; [done|]. pose proof (written_fits s2 slot _ Hwf Hnz Hs HS2). split; [done|]. split; [lia|done].
    - right. exists e. split; [done|]. split; [|by eapply fsat_unwritten]. destruct He as [[-> _]|[[-> He]|[-> ->]]].
      + by right; right; left.
      + right; right; right; left. split; [done|]. by eapply keeps_noread.
      + right; right; right; right. split; [done|lia]. }
  destruct (fd_empty _ _ _ _ Hf) as [E|[He Hz]].
  - rewrite E. cbn [Z.ltb Z.compare]. eapply wpe_mono; [by apply (fsat_nentries (t := t) V R p r a Hp Ha Hd)|]. intros res s2 [-> ->].
    apply Hwrite; lia.
  - rewrite (proj2 (Z.ltb_ge _ _)) by lia. apply wpe_ret. apply Hwrite; [lia|done].
Qed.

Lemma fsat_dir_unlink s slot :
  fsat t s V R → 0 ≤ slot < slots a → sfd_ino (dslot a slot) ≠ 0 →
  wpe (sfs_dir_unlink p slot) (λ res s', keeps s s' ∧
    ((res = inr tt ∧ fsat t s' (<[r_ino r := awrite (slot * 64) (enc_dir no_entry) a]> V) R) ∨
     (res = inl EIO ∧ ¬ reads_fine s ∧ fsat t s' V R))) s.
Proof.
  intros HS Hs Hnz. destruct (slots_size a Hd) as [_ Hsl]. unfold sfs_dir_unlink.
  eapply wpe_mono; [apply (fsat_writedir s V R p r a HS Hp Ha no_entry slot no_entry_wf); lia|].
  intros res s' [Hk [[-> HS']|(e & -> & He & HS')]]; (split; [done|]); [by left|right].
  apply fsat_unwritten in HS'; [|lia]. destruct He as [[-> Hh]|[[-> ?]|[_ ?]]]; [|done|lia].
  by destruct Hnz; apply hole_slot.
Qed.
End link.
