(* ===== verification/SfsNames.v ===== *)
(** The name space of a volume: the root directory, the files it names and
    their link counts, and the operations on names. *)

From Stdlib Require Import ZArith Lia.
From stdpp Require Import base numbers list option gmap.
From S2P Require Import Prelude Array Bitmap Errm Uio UioProofs Lhd LhdProofs SfsDisk Sfs SfsBlock SfsInv SfsBmap SfsIo SfsSpec SfsTrunc SfsAbs SfsVnode SfsDir.

Open Scope Z_scope.

(** ** Counting the names of a file *)

Fixpoint count (f : nat → bool) (n : nat) : Z :=
  match n with
  | O => 0
  | S m => Z.b2z (f m) + count f m
  end.

Lemma count_ext f g n : (∀ i, (i < n)%nat → f i = g i) → count f n = count g n.
Proof. induction n as [|n IH]; intros H; cbn [count]; [done|]. rewrite H by lia. rewrite IH; [done|]. intros. apply H. lia. Qed.

Lemma count_upd f g n j :
  (j < n)%nat → (∀ i, (i < n)%nat → i ≠ j → f i = g i) → count f n + Z.b2z (g j) = count g n + Z.b2z (f j).
Proof.
  induction n as [|n IH]; intros Hj H; [lia|]. cbn [count]. destruct (decide (j = n)) as [->|Hne].
  - rewrite (count_ext f g n) by (intros; apply H; lia). lia.
  - rewrite (H n) by lia. specialize (IH ltac:(lia) ltac:(intros; apply H; lia)). lia.
Qed.

Lemma count_bound f n : 0 ≤ count f n ≤ Z.of_nat n.
Proof. induction n as [|n IH]; cbn [count]; [lia|]. destruct (f n); simpl; lia. Qed.

Lemma count_pos f n i : (i < n)%nat → f i = true → 0 < count f n.
Proof.
  induction n as [|n IH]; intros Hi Hf; [lia|]. cbn [count]. pose proof (count_bound f n).
  destruct (decide (i = n)) as [->|Hne]; [rewrite Hf; simpl; lia|]. specialize (IH ltac:(lia) Hf). destruct (f n); simpl; lia.
Qed.

Lemma count_zero f n : count f n = 0 → ∀ i, (i < n)%nat → f i = false.
Proof. intros H i Hi. destruct (f i) eqn:E; [|done]. pose proof (count_pos f n i Hi E). lia. Qed.

Lemma count_none f n : (∀ i, (i < n)%nat → f i = false) → count f n = 0.
Proof. induction n as [|n IH]; intros H; cbn [count]; [done|]. rewrite H by lia. rewrite IH; [done|]. intros. apply H. lia. Qed.

(** How many slots of a directory name [ino]. *)
Definition nrefs (a : afile) (ino : Z) : Z :=
  count (λ i, sfd_ino (dslot a (Z.of_nat i)) =? ino) (Z.to_nat (slots a)).

(** The names of a directory. *)
Definition names (a : afile) (name : list Z) (ino : Z) : Prop := ∃ slot, dentry a name ino slot.

Lemma nrefs_bound a ino : dir_ok a → 0 ≤ nrefs a ino ≤ 1144.
Proof. intros Hd. destruct (slots_size a Hd) as [_ Hs]. pose proof (count_bound (λ i, sfd_ino (dslot a (Z.of_nat i)) =? ino) (Z.to_nat (slots a))). unfold nrefs. lia. Qed.

Lemma nrefs_pos a name ino slot : dentry a name ino slot → 0 < nrefs a ino.
Proof.
  intros [H1 H2 _ _]. unfold nrefs. apply (count_pos _ _ (Z.to_nat slot)); [lia|]. rewrite Z2Nat.id by lia. by apply Z.eqb_eq.
Qed.

Lemma nrefs_none a ino : ino ≠ 0 → (∀ name slot, ¬ dentry a name ino slot) → nrefs a ino = 0.
Proof.
  intros Hn H. apply count_none. intros i Hi. apply Z.eqb_neq. intros E. apply (H (dname (dslot a (Z.of_nat i))) (Z.of_nat i)).
  split; try done. lia.
Qed.

(** Writing a slot moves one name. *)
Lemma nrefs_write a slot sd ino :
  dir_ok a → dir_wf sd → 0 ≤ slot ≤ slots a →
  nrefs (awrite (slot * 64) (enc_dir sd) a) ino =
    nrefs a ino + Z.b2z (sfd_ino sd =? ino) - (if slot <? slots a then Z.b2z (sfd_ino (dslot a slot) =? ino) else 0).
Proof.
  intros Hd Hwf Hs. pose proof (enc_dir_length sd Hwf) as Hl. destruct (size_write a slot (enc_dir sd) Hd Hs Hl) as [_ Esl].
  unfold nrefs. rewrite Esl. set (a' := awrite _ _ _).
  assert (∀ i, 0 ≤ i < Z.max (slots a) (slot + 1) → dslot a' i = if decide (i = slot) then sd else dslot a i) as Hsl
    by (intros i Hi; by apply dslot_write).
  destruct (Z.ltb_spec slot (slots a)) as [Hlt|Hge].
  - replace (Z.max (slots a) (slot + 1)) with (slots a) in * by lia.
    pose proof (count_upd (λ i, sfd_ino (dslot a' (Z.of_nat i)) =? ino) (λ i, sfd_ino (dslot a (Z.of_nat i)) =? ino)
      (Z.to_nat (slots a)) (Z.to_nat slot) ltac:(lia)) as H. cbv beta in H. rewrite !Z2Nat.id in H by lia.
    rewrite (Hsl slot), decide_True in H by (done || lia). enough (count (λ i, sfd_ino (dslot a' (Z.of_nat i)) =? ino) (Z.to_nat (slots a))
      + Z.b2z (sfd_ino (dslot a slot) =? ino) = count (λ i, sfd_ino (dslot a (Z.of_nat i)) =? ino) (Z.to_nat (slots a)) +
      Z.b2z (sfd_ino sd =? ino)) by lia. apply H. intros i Hi Hne. rewrite Hsl, decide_False by lia. done.
  - replace slot with (slots a) in * by lia. replace (Z.max (slots a) (slots a + 1)) with (slots a + 1) in * by lia.
    replace (Z.to_nat (slots a + 1)) with (S (Z.to_nat (slots a))) by lia. cbn [count]. rewrite Z2Nat.id by lia.
    rewrite Hsl, decide_True by (done || lia). rewrite (count_ext _ (λ i, sfd_ino (dslot a (Z.of_nat i)) =? ino)); [lia|].
    intros i Hi. rewrite Hsl, decide_False by lia. done.
Qed.

(** ** The invariant of the name space *)

Definition ROOT : Z := SFS_ROOT_LOCATION.

(** The root directory has a link of its own.  Every other file is a plain
    file with as many links as names, [k]
    more for file [x] in the middle of an operation on it. *)
Record ns_at (V : gmap Z afile) (a : afile) (x k : Z) : Prop := {
  ns_root : V !! ROOT = Some a;
  ns_dir : dir_ok a;
  ns_zero : V !! 0 = None;
  ns_file : ∀ i b, V !! i = Some b → i ≠ ROOT → a_type b = SFS_TYPE_FILE ∧ a_links b = nrefs a i + if decide (i = x) then k else 0;
  ns_entry : ∀ name ino slot, dentry a name ino slot → ino ≠ ROOT ∧ is_Some (V !! ino);
  ns_self : 0 < a_links a
}.

Definition ns_ok (V : gmap Z afile) (a : afile) : Prop := ns_at V a 0 0.

Lemma ns_at_zero V a x y : ns_at V a x 0 → ns_at V a y 0.
Proof.
  intros [N1 N2 N3 N4 N5 N6]. split; try done. intros i b Hi Hne. destruct (N4 i b Hi Hne) as [? E]. split; [done|].
  rewrite E. by repeat case_decide.
Qed.

Definition with_links (n : Z) (b : afile) : afile := AFile (a_type b) n (a_size b) (a_byte b).

Lemma ns_set_links V a x k b n :
  ns_at V a x k → x ≠ ROOT → V !! x = Some b → ns_at (<[x := with_links n b]> V) a x (k + (n - a_links b)).
Proof.
  intros [N1 N2 N3 N4 N5 N6] Hx Hb. split.
  - by rewrite lookup_insert_ne.
  - done.
  - rewrite lookup_insert_ne; [done|]. intros ->. congruence.
  - intros i b' Hi Hne. apply lookup_insert_Some in Hi as [[<- <-]|[Hn Hi]].
    + destruct (N4 _ _ Hb Hx) as [Ht El]. rewrite decide_True in * by done. split; [done|]. simpl. lia.
    + destruct (N4 _ _ Hi Hne) as [Ht El]. rewrite decide_False in * by done. done.
  - intros name ino slot Hd. destruct (N5 _ _ _ Hd) as [H1 H2]. split; [done|]. apply lookup_insert_is_Some'. by right.
  - done.
Qed.

Section names.
Context (V : gmap Z afile) (a : afile) (x k : Z) (Hns : ns_at V a x k) (Hx : x ≠ ROOT).

Lemma ns_nonzero i b : V !! i = Some b → i ≠ 0.
Proof. intros H ->. rewrite (ns_zero _ _ _ _ Hns) in H. done. Qed.

(** A new name. *)
Lemma ns_link b name slot :
  V !! x = Some b → is_u32 x → name_ok name → (length name ≤ 59)%nat → free_slot a slot → (∀ i j, ¬ dentry a name i j) →
  let a' := awrite (slot * 64) (enc_dir (new_entry name x)) a in
  ns_at (<[ROOT := a']> V) a' x (k - 1) ∧ (∀ n i, names a' n i ↔ names a n i ∨ n = name ∧ i = x).
Proof.
  intros Hb Hu Hn Hl (Hs & Hlt & Hfree) Hno a'. pose proof Hns as [N1 N2 N3 N4 N5 N6].
  pose proof (new_entry_wf name x Hn Hu Hl) as Hwf. pose proof (new_entry_name name x Hn Hl) as Hnm.
  assert (∀ n i j, dentry a' n i j ↔ (j ≠ slot ∧ dentry a n i j) ∨ (j = slot ∧ x = i ∧ i ≠ 0 ∧ name = n)) as Hde.
  { intros n i j. unfold a'. rewrite dentry_write, Hnm by done. done. }
  assert (∀ n i, ¬ dentry a n i slot) as Hfree'.
  { intros n i [H1 H2 H3 _]. rewrite (Hfree ltac:(lia)) in H2. congruence. }
  split; [split|].
  - apply lookup_insert_eq.
  - apply dir_ok_write; try done. right. intros i j Hd. rewrite Hnm in Hd. by destruct (Hno i j).
  - by rewrite lookup_insert_ne.
  - intros i b' Hi Hne. rewrite lookup_insert_ne in Hi by done. destruct (N4 _ _ Hi Hne) as [Ht El]. split; [done|].
    unfold a'. rewrite nrefs_write by done. cbn [sfd_ino new_entry]. rewrite El. pose proof (ns_nonzero _ _ Hi).
    assert ((if slot <? slots a then Z.b2z (sfd_ino (dslot a slot) =? i) else 0) = 0) as ->.
    { destruct (Z.ltb_spec slot (slots a)); [|done]. rewrite Hfree by done. destruct (Z.eqb_spec 0 i); [congruence|done]. }
    case_decide as E; destruct (Z.eqb_spec x i); simpl; lia.
  - intros n i j Hd. apply Hde in Hd as [[_ Hd]|(_ & <- & _ & _)].
    + destruct (N5 _ _ _ Hd). split; [done|]. apply lookup_insert_is_Some'. by right.
    + split; [done|]. apply lookup_insert_is_Some'. right. by eexists.
  - done.
  - intros n i. split.
    + intros [j Hd]. apply Hde in Hd as [[_ Hd]|(_ & <- & _ & <-)]; [left; by exists j|by right].
    + intros [[j Hd]|[-> ->]].
      * exists j. apply Hde. left. split; [|done]. intros ->. by apply (Hfree' n i).
      * exists slot. apply Hde. right. split; [done|]. split; [done|]. split; [by eapply ns_nonzero|done].
Qed.

(** A name less. *)
Lemma ns_unlink name slot :
  dentry a name x slot →
  let a' := awrite (slot * 64) (enc_dir no_entry) a in
  ns_at (<[ROOT := a']> V) a' x (k + 1) ∧ (∀ n i, names a' n i ↔ names a n i ∧ n ≠ name).
Proof.
  intros Hd a'. pose proof Hns as [N1 N2 N3 N4 N5 N6]. pose proof Hd as [D1 D2 D3 D4]. destruct (slots_size a N2) as [_ Hsl].
  assert (∀ n i j, dentry a' n i j ↔ j ≠ slot ∧ dentry a n i j) as Hde.
  { intros n i j. unfold a'. rewrite dentry_write by (apply no_entry_wf || done || lia). simpl. unfold SFS_NOINO. naive_solver. }
  split; [split|].
  - apply lookup_insert_eq.
  - apply dir_ok_write; [done|apply no_entry_wf|lia|lia|by left].
  - by rewrite lookup_insert_ne.
  - intros i b' Hi Hne. rewrite lookup_insert_ne in Hi by done. destruct (N4 _ _ Hi Hne) as [Ht El]. split; [done|].
    unfold a'. rewrite nrefs_write by (apply no_entry_wf || done || lia). cbn [sfd_ino no_entry]. rewrite El, D2.
    pose proof (ns_nonzero _ _ Hi). rewrite (proj2 (Z.ltb_lt slot (slots a))) by lia.
    case_decide as E; destruct (Z.eqb_spec x i), (Z.eqb_spec SFS_NOINO i); simpl; unfold SFS_NOINO in *; lia.
  - intros n i j Hj. apply Hde in Hj as [_ Hj]. destruct (N5 _ _ _ Hj). split; [done|]. apply lookup_insert_is_Some'. by right.
  - done.
  - intros n i. split.
    + intros [j Hj]. apply Hde in Hj as [Hne Hj]. split; [by exists j|]. intros ->. apply Hne. by eapply (dk_uniq _ N2).
    + intros [[j Hj] Hne]. exists j. apply Hde. split; [|done]. intros ->. destruct Hj as [_ _ _ Hj]. congruence.
Qed.

(** A file without names can go. *)
Lemma ns_drop b : k = 0 → V !! x = Some b → a_links b = 0 → ns_at (delete x V) a x 0.
Proof.
  intros -> Hb Hl. pose proof Hns as [N1 N2 N3 N4 N5 N6]. destruct (N4 _ _ Hb Hx) as [_ El]. rewrite decide_True in El by done.
  split.
  - by rewrite lookup_delete_ne.
  - done.
  - rewrite lookup_delete_None. by right.
  - intros i b' Hi Hne. apply lookup_delete_Some in Hi as [_ Hi]. by apply N4.
  - intros n i j Hj. destruct (N5 _ _ _ Hj) as [Hr Hi]. split; [done|]. rewrite lookup_delete_ne; [done|]. intros <-.
    pose proof (nrefs_pos _ _ _ _ Hj). lia.
  - done.
Qed.
End names.

(** A new file without names. *)
Lemma ns_new V a x : ns_ok V a → V !! x = None → x ≠ 0 → ns_at (<[x := empty_file SFS_TYPE_FILE]> V) a x 0.
Proof.
  intros [N1 N2 N3 N4 N5 N6] Hx Hn. assert (x ≠ ROOT) as Hr by congruence. split.
  - by rewrite lookup_insert_ne.
  - done.
  - by rewrite lookup_insert_ne.
  - intros i b Hi Hne. apply lookup_insert_Some in Hi as [[<- <-]|[Hxi Hi]].
    + split; [done|]. simpl. rewrite decide_True by done. rewrite nrefs_none; [done|done|]. intros name slot Hd.
      destruct (N5 _ _ _ Hd) as [_ [b Hb]]. congruence.
    + destruct (N4 _ _ Hi Hne) as [Ht El]. split; [done|]. rewrite El. by repeat case_decide.
  - intros n i j Hj. destruct (N5 _ _ _ Hj). split; [done|]. apply lookup_insert_is_Some'. by right.
  - done.
Qed.
