(* ===== verification/SfsNaming.v ===== *)
(** The operations on names: lookup, create, link, remove and rename, on the
    abstract files of the volume. *)

From Stdlib Require Import ZArith Lia.
From stdpp Require Import base numbers list option gmap.
From S2P Require Import Prelude Array Bitmap Errm Uio UioProofs Lhd LhdProofs SfsDisk Sfs SfsBlock SfsInv SfsBmap SfsIo SfsSpec SfsTrunc SfsAbs SfsVnode SfsDir SfsNames.

Open Scope Z_scope.

(** ** References taken and given back *)

(** Some vnode of file [ino] is loaded. *)
Definition held (R : gmap Z vref) (ino : Z) : Prop := ∃ q r, R !! q = Some r ∧ r_ino r = ino.

Lemma fsat_count {t : Prop} s V R q r : fsat t s V R → R !! q = Some r → 0 < r_count r ∧ ∃ a, V !! r_ino r = Some a.
Proof.
  intros HS Hq. destruct (fsat_file _ _ _ _ _ HS Hq) as (G & own & v0 & bm & _ & _ & _ & _ & Hv).
  destruct (V !! r_ino r) as [a|] eqn:Ha; [|by inversion Hv].
  destruct (fsat_meta _ _ _ _ _ _ HS Hq Ha) as (v & _ & _ & _ & _ & _ & _ & _ & _ & Hc & _). split; [done|by exists a].
Qed.

Lemma fsat_ino_u32 {t : Prop} s V R ino a : fsat t s V R → V !! ino = Some a → is_u32 ino.
Proof.
  intros (G & own & HI & Hv & _) Ha. destruct (view_Some _ _ _ _ _ Hv Ha) as (nd & bm & HG & _).
  destruct (fs_inv_ino _ _ _ _ _ _ HI HG) as [Hr _]. by apply (nblocks_u32 s ino (iv_ok _ _ _ HI)).
Qed.

Lemma picked_other R q ino R' p r : picked R q ino R' → R !! p = Some r → r_ino r ≠ ino → q ≠ p ∧ R' !! p = Some r.
Proof.
  intros (n & oc & -> & Hc) Hp Hne. assert (q ≠ p) as Hqp.
  { intros ->. destruct Hc as [Hc|[Hc _]]; rewrite Hp in Hc; [injection Hc as ->; done|done]. }
  split; [done|]. by rewrite lookup_insert_ne.
Qed.

(** Giving back a reference just taken. *)
Lemma picked_released s V R q ino R1 r1 b V' R' :
  picked R q ino R1 → (∀ q r, R !! q = Some r → 0 < r_count r) → R1 !! q = Some r1 → released s V R1 q r1 b V' R' →
  R' = R ∧ V' = V ∧ (a_links b ≠ 0 ∨ held R ino) ∨
  (a_links b = 0 ∧ ¬ held R ino ∧
    (R' = R ∧ V' = delete ino V ∨ ¬ reads_fine s ∧ R' = R1 ∧ V' = <[ino := atrunc_failed 0 b]> V)).
Proof.
  intros (n & oc & -> & Hc) Hpos H1 Hr. rewrite lookup_insert_eq in H1. injection H1 as <-. unfold released in Hr. simpl in Hr.
  destruct Hc as [Hc|(Hc & -> & -> & Hno)].
  - pose proof (Hpos _ _ Hc). simpl in *. rewrite decide_True in Hr by lia. destruct Hr as [-> ->]. left.
    rewrite insert_insert_eq, insert_id by (by replace (n + 1 - 1) with n by lia). split; [done|]. split; [done|]. right. by exists q, (VRef ino n oc).
  - rewrite decide_False in Hr by lia. assert (delete q (<[q := VRef ino (0 + 1) 0]> R) = R) as Ed by by rewrite delete_insert_id.
    assert (¬ held R ino) as Hh by (intros (q' & r' & Hq' & Er); by eapply Hno).
    destruct (decide (a_links b = 0)) as [Hz|Hz].
    + right. split; [done|]. split; [done|]. rewrite Ed in Hr. destruct Hr as [[-> ->]|(? & -> & ->)]; [by left|by right].
    + destruct Hr as [-> ->]. left. split; [done|]. split; [done|by left].
Qed.

(** What the release of a picked reference needs. *)
Lemma picked_decref {t : Prop} s V R q ino R1 b :
  fsat t s V R1 → picked R q ino R1 → (∀ q r, R !! q = Some r → 0 < r_count r) → V !! ino = Some b → a_type b = SFS_TYPE_FILE →
  wpe (VOP_DECREF q) (λ res s', res = inr tt ∧ keeps s s' ∧ ∃ V' R', fsat t s' V' R' ∧
    (R' = R ∧ V' = V ∧ (a_links b ≠ 0 ∨ held R ino) ∨
     (a_links b = 0 ∧ ¬ held R ino ∧
       (R' = R ∧ V' = delete ino V ∨ ¬ reads_fine s ∧ R' = R1 ∧ V' = <[ino := atrunc_failed 0 b]> V)))) s.
Proof.
  intros HS Hpk Hpos Hb Ht. pose proof Hpk as (n & oc & E1 & Hc).
  assert (R1 !! q = Some (VRef ino (n + 1) oc)) as Hq by (rewrite E1; apply lookup_insert_eq).
  eapply wpe_mono; [apply (fsat_decref s V R1 q _ b HS Hq Hb)|].
  { simpl. intros Hn. split; [|done]. destruct Hc as [Hc|(_ & _ & -> & _)]; [|done]. pose proof (Hpos _ _ Hc). simpl in *. lia. }
  intros res s' (-> & Hk & V' & R' & Hrel & HS'). split; [done|]. split; [done|]. exists V', R'. split; [done|].
  by eapply picked_released.
Qed.

(** ** Steps on the name space *)

Lemma with_links_id b : with_links (a_links b) b = b.
Proof. by destruct b. Qed.

Lemma fsat_set_links {t : Prop} s V R q rq b f n :
  fsat t s V R → R !! q = Some rq → V !! r_ino rq = Some b → f (a_links b) = n → 0 ≤ n < 65536 →
  wpe (upd_inode q (λ i, set_links (f (sfi_linkcount i)) i)) (λ res s', res = inr tt ∧ keeps s s' ∧
    fsat t s' (<[r_ino rq := with_links n b]> V) R) s.
Proof. intros HS Hq Hb <- Hn. apply (fsat_links s V R q rq b HS Hq Hb f). done. Qed.

Section steps.
Context (V : gmap Z afile) (a : afile) (x : Z) (b : afile) (Hns : ns_ok V a) (Hb : V !! x = Some b) (Hx : x ≠ ROOT).

Lemma link_step name slot :
  is_u32 x → name_ok name → (length name ≤ 59)%nat → free_slot a slot → (∀ i j, ¬ dentry a name i j) →
  let a' := awrite (slot * 64) (enc_dir (new_entry name x)) a in
  ns_ok (<[x := with_links (a_links b + 1) b]> (<[ROOT := a']> V)) a' ∧ (∀ n i, names a' n i ↔ names a n i ∨ n = name ∧ i = x).
Proof.
  intros Hu Hn Hl Hf Hno a'. destruct (ns_link V a x 0 (ns_at_zero _ _ _ _ Hns) Hx b name slot Hb Hu Hn Hl Hf Hno) as [N1 N2].
  fold a' in N1, N2. split; [|done]. eapply ns_at_zero.
  pose proof (ns_set_links _ _ _ _ b (a_links b + 1) N1 Hx) as H. replace (0 - 1 + (a_links b + 1 - a_links b)) with 0 in H by lia.
  apply H. by rewrite lookup_insert_ne.
Qed.

Lemma unlink_step name slot :
  dentry a name x slot →
  let a' := awrite (slot * 64) (enc_dir no_entry) a in
  ns_ok (<[x := with_links (a_links b - 1) b]> (<[ROOT := a']> V)) a' ∧ (∀ n i, names a' n i ↔ names a n i ∧ n ≠ name).
Proof.
  intros Hd a'. destruct (ns_unlink V a x 0 (ns_at_zero _ _ _ _ Hns) Hx name slot Hd) as [N1 N2].
  fold a' in N1, N2. split; [|done]. eapply ns_at_zero.
  pose proof (ns_set_links _ _ _ _ b (a_links b - 1) N1 Hx) as H. replace (0 + 1 + (a_links b - 1 - a_links b)) with 0 in H by lia.
  apply H. by rewrite lookup_insert_ne.
Qed.

(** The contents of a file do not matter. *)
Lemma ns_contents b' : a_type b' = a_type b → a_links b' = a_links b → ns_ok (<[x := b']> V) a.
Proof.
  intros Et El. pose proof Hns as [N1 N2 N3 N4 N5]. split; try done.
  - by rewrite lookup_insert_ne.
  - rewrite lookup_insert_ne; [done|]. intros ->. congruence.
  - intros i c Hi Hne. apply lookup_insert_Some in Hi as [[<- <-]|[_ Hi]]; [|by apply N4]. rewrite Et, El. by apply N4.
  - intros n i j Hd. destruct (N5 _ _ _ Hd). split; [done|]. apply lookup_insert_is_Some'. by right.
Qed.
End steps.

(** Other entries stay when a free slot is filled. *)
Lemma link_keeps a name x slot n i j :
  dir_ok a → is_u32 x → name_ok name → (length name ≤ 59)%nat → free_slot a slot → dentry a n i j →
  dentry (awrite (slot * 64) (enc_dir (new_entry name x)) a) n i j ∧ j ≠ slot.
Proof.
  intros Hd Hu Hn Hl (Hs & Hlt & Hfree) Hde. assert (j ≠ slot) as Hne.
  { intros ->. destruct Hde as [D1 D2 D3 _]. rewrite (Hfree ltac:(lia)) in D2. congruence. }
  split; [|done]. apply dentry_write; [done|by apply new_entry_wf|lia|]. by left.
Qed.

(** ** The operations *)

Section naming.
Context {t : Prop} (V : gmap Z afile) (R : gmap Z vref) (p : Z) (r : vref) (a : afile).
Context (Hp : R !! p = Some r) (Hr : r_ino r = ROOT) (Hns : ns_ok V a) (Hun : uncounted R).

Lemma naming_root : V !! r_ino r = Some a.
Proof. rewrite Hr. apply Hns. Qed.

Lemma naming_entry s name ino slot :
  fsat t s V R → dentry a name ino slot →
  ∃ b, V !! ino = Some b ∧ ino ≠ ROOT ∧ a_type b = SFS_TYPE_FILE ∧ a_links b = nrefs a ino ∧ 1 ≤ a_links b ≤ 1144.
Proof.
  intros HS Hd. destruct (ns_entry _ _ _ _ Hns _ _ _ Hd) as [Hne [b Hb]]. exists b.
  destruct (ns_file _ _ _ _ Hns _ _ Hb Hne) as [Ht El]. assert (a_links b = nrefs a ino) as El' by (rewrite El; case_decide; lia).
  pose proof (nrefs_pos _ _ _ _ Hd). pose proof (nrefs_bound a ino (ns_dir _ _ _ _ Hns)). split_and!; try done; lia.
Qed.

Definition look_error (s : sfs) (name : list Z) (e : Z) : Prop :=
  (e = ENOENT ∧ ∀ i, ¬ names a name i) ∨ load_error s e.

Lemma load_error_keeps s s' e : keeps s s' → load_error s' e → load_error s e.
Proof. intros Hk [[? Hne]|[? ?]]; [left|right]; (split; [done|]); [intros Ho; by apply Hne, (kp_o _ _ Hk)|by eapply keeps_noread]. Qed.

Lemma sfs_lookonce_spec s name :
  fsat t s V R →
  wpe (sfs_lookonce p name) (λ res s', keeps s s' ∧
    ((∃ q slot ino R', res = inr (q, slot) ∧ dentry a name ino slot ∧ picked R q ino R' ∧ fsat t s' V R') ∨
     (∃ e, res = inl e ∧ look_error s name e ∧ fsat t s' V R))) s.
Proof.
  intros HS. unfold sfs_lookonce. apply wpe_bind.
  eapply wpe_mono; [apply (fsat_findname V R p r a Hp naming_root (ns_dir _ _ _ _ Hns) s name HS)|].
  intros res s1 (Hk & HS1 & [(fr & -> & Hf)|[-> Hn]]).
  2:{ split; [done|]. right. exists EIO. split; [done|]. split; [by right; right|done]. }
  destruct (f_found fr) as [[ino slot]|] eqn:Ef.
  - destruct (fd_some _ _ _ _ Hf _ _ Ef) as [Hd _]. destruct (naming_entry s1 name ino slot HS1 Hd) as (b & Hb & Hne & Ht & El & Hl).
    apply wpe_bind. eapply wpe_mono; [by eapply fsat_loadvnode|]. intros res s2 [Hk2 [(q & R' & -> & Hpk & HS2)|(e & -> & He & HS2)]].
    + destruct (picked_lookup _ _ _ _ Hpk) as (rq & Hq & Eq). apply wpe_bind. rewrite <- Eq in Hb.
      destruct (fsat_meta s2 V R' q rq b HS2 Hq Hb) as (v & Hv & _ & _ & El2 & _). eapply wpe_getv; [exact Hv|].
      rewrite <- El2, (proj2 (Z.eqb_neq _ _)) by lia. apply wpe_ret. split; [by eapply keeps_trans|]. left. by exists q, slot, ino, R'.
    + split; [by eapply keeps_trans|]. right. exists e. split; [done|]. split; [right; by eapply load_error_keeps|done].
  - apply wpe_raise. split; [done|]. right. exists ENOENT. split; [done|]. split; [|done]. left. split; [done|].
    intros i [j Hd]. apply (fd_none _ _ _ _ Hf Ef i j); [apply (de_slot _ _ _ _ Hd)|done].
Qed.

(** One more name for a loaded file. *)
Lemma sfs_link_spec s name q rq b :
  fsat t s V R → R !! q = Some rq → r_ino rq ≠ ROOT → V !! r_ino rq = Some b → name_ok name →
  wpe (sfs_link p name q) (λ res s', keeps s s' ∧
    ((∃ a', let V' := <[r_ino rq := with_links (a_links b + 1) b]> (<[ROOT := a']> V) in
        res = inr tt ∧ ns_ok V' a' ∧ (∀ n i, names a' n i ↔ names a n i ∨ n = name ∧ i = r_ino rq) ∧
        (∀ i, ¬ names a name i) ∧ fsat t s' V' R) ∨
     (∃ e, res = inl e ∧ link_error a s name e ∧ fsat t s' V R))) s.
Proof.
  intros HS Hq Hne Hb Hn. unfold sfs_link. pose proof (ns_dir _ _ _ _ Hns) as Hd.
  destruct (fsat_meta s V R q rq b HS Hq Hb) as (v & Hv & Ev & _). pose proof (fsat_ino_u32 _ _ _ _ _ HS Hb) as Hu.
  assert (r_ino rq ≠ 0) as Hnz by (by eapply ns_nonzero). apply wpe_bind. eapply wpe_getv; [exact Hv|].
  replace (sv_ino v) with (r_ino rq) by (by rewrite <- Ev). apply wpe_bind.
  eapply wpe_mono; [apply (fsat_dir_link V R p r a Hp naming_root Hd s name _ HS Hn Hu Hnz)|].
  intros res s1 [Hk [(slot & -> & Hf & Hl & Hno & HS1)|(e & -> & He & HS1)]].
  2:{ split; [done|]. right. by exists e. }
  rewrite Hr in HS1. destruct (link_step V a (r_ino rq) b Hns Hb Hne name slot Hu Hn Hl Hf Hno) as [Hns' Hnm].
  destruct (ns_file _ _ _ _ Hns _ _ Hb Hne) as [_ El]. pose proof (nrefs_bound a (r_ino rq) Hd).
  assert (0 ≤ a_links b + 1 < 65536) as Hlr by (rewrite El; case_decide; lia).
  eapply wpe_mono; [eapply (fsat_set_links s1 _ R q rq b (λ n, u16 (n + 1)) (a_links b + 1) HS1 Hq)|].
  { by rewrite lookup_insert_ne. } { rewrite u16_id; [done|unfold is_u16; lia]. } { done. }
  intros res s2 (-> & Hk2 & HS2). split; [by eapply keeps_trans|]. left. eexists. split; [done|]. split; [exact Hns'|].
  split; [done|]. split; [|done]. intros i [j Hj]. by apply (Hno i j).
Qed.

(** A new file under a new name, or the file of that name. *)
Definition creat_error (s : sfs) (name : list Z) (excl : bool) (e : Z) : Prop :=
  (e = EEXIST ∧ excl = true ∧ ∃ i, names a name i) ∨ (e = ENAMETOOLONG ∧ (59 < length name)%nat) ∨ e = ENOSPC ∨
  (e = EINVAL ∧ slots a = 1144) ∨ load_error s e.

Definition created (name : list Z) (ino : Z) (V' : gmap Z afile) : Prop :=
  V !! ino = None ∧ (∀ i, ¬ names a name i) ∧ ∃ a', ns_ok V' a' ∧
  V' = <[ino := with_links 1 (empty_file SFS_TYPE_FILE)]> (<[ROOT := a']> V) ∧
  (∀ n i, names a' n i ↔ names a n i ∨ n = name ∧ i = ino).

(** After a failure: everything as before, except that a disk that fails
    reads may leave the new file behind without a name. *)
Definition not_created (fine : Prop) (V' : gmap Z afile) (R' : gmap Z vref) : Prop :=
  V' = V ∧ R' = R ∨
  ¬ fine ∧ ∃ q ino, V !! ino = None ∧ R !! q = None ∧ 0 < ino ∧ V' = <[ino := atrunc_failed 0 (empty_file SFS_TYPE_FILE)]> V ∧ R' = <[q := VRef ino 1 0]> R.

Lemma creat_linked s0 s q ino name :
  fsat t s (<[ino := empty_file SFS_TYPE_FILE]> V) (<[q := VRef ino 1 0]> R) → keeps s0 s → (∀ q r, R !! q = Some r → 0 < r_count r) →
  V !! ino = None → R !! q = None → 0 < ino → is_u32 ino → (∀ q r, R !! q = Some r → r_ino r ≠ ino) → name_ok name → (∀ i, ¬ names a name i) →
  wpe (nv ← getv q;
       r ← attempt (sfs_dir_link p name (sv_ino nv));
       match r with
       | inl e => _ ← VOP_DECREF q; raise e
       | inr _ => _ ← upd_inode q (λ i, set_links (u16 (sfi_linkcount i + 1)) i); mret q
       end) (λ res s', keeps s0 s' ∧
    ((∃ V', res = inr q ∧ created name ino V' ∧ fsat t s' V' (<[q := VRef ino 1 0]> R)) ∨
     (∃ e V' R', res = inl e ∧ creat_error s0 name true e ∧ not_created (reads_fine s0) V' R' ∧ fsat t s' V' R'))) s.
Proof.
  intros HS Hk Hpos Hno Hq Hi Hu Hfresh Hn Hnn. set (V0 := <[ino := _]> V) in *. set (R0 := <[q := _]> R) in *.
  assert (V0 !! ino = Some (empty_file SFS_TYPE_FILE)) as H0 by apply lookup_insert_eq.
  assert (R0 !! q = Some (VRef ino 1 0)) as Hq0 by apply lookup_insert_eq.
  assert (ino ≠ ROOT) as Hne by (intros ->; rewrite (ns_root _ _ _ _ Hns) in Hno; done).
  assert (ns_ok V0 a) as Hns0 by (eapply ns_at_zero, ns_new; [done|done|lia]). pose proof (ns_dir _ _ _ _ Hns) as Hd.
  assert (picked R q ino R0) as Hpk by (exists 0, 0; split; [done|by right]).
  destruct (picked_other _ _ _ _ _ _ Hpk Hp ltac:(congruence)) as [Hqp Hp0].
  assert (V0 !! r_ino r = Some a) as Hr0 by (unfold V0; rewrite lookup_insert_ne by congruence; apply naming_root).
  destruct (fsat_meta s V0 R0 q _ _ HS Hq0 H0) as (v & Hv & Ev & _). apply wpe_bind. eapply wpe_getv; [exact Hv|].
  replace (sv_ino v) with ino by (change ino with (r_ino (VRef ino 1 0)); by rewrite <- Ev). apply wpe_bind, wpe_attempt.
  eapply wpe_mono; [apply (fsat_dir_link V0 R0 p r a Hp0 Hr0 Hd s name ino HS Hn Hu ltac:(lia))|].
  intros res s1 [Hk1 [(slot & -> & Hf & Hl & Hnd & HS1)|(e & -> & He & HS1)]]; cbv beta iota; apply wpe_bind.
  - rewrite Hr in HS1. destruct (link_step V0 a ino _ Hns0 H0 Hne name slot Hu Hn Hl Hf Hnd) as [Hns' Hnm].
    eapply wpe_mono; [eapply (fsat_set_links s1 _ R0 q _ (empty_file SFS_TYPE_FILE) (λ n, u16 (n + 1)) 1 HS1 Hq0)|]; [|done|done|].
    { simpl. by rewrite lookup_insert_ne. }
    intros res s2 (-> & Hk2 & HS2). apply wpe_ret. split; [eapply keeps_trans; [done|by eapply keeps_trans]|]. left. eexists.
    split; [done|]. split; [|exact HS2]. split; [done|]. split; [done|]. eexists. split; [exact Hns'|]. split; [|done].
    simpl. unfold V0. by rewrite (insert_insert_ne V) , insert_insert_eq by done.
  - eapply wpe_mono; [by apply (picked_decref (t := t) s1 V0 R q ino R0 (empty_file SFS_TYPE_FILE))|].
    intros res s2 (-> & Hk2 & V' & R' & HS2 & Hcase). apply wpe_raise. split; [eapply keeps_trans; [done|by eapply keeps_trans]|].
    right. exists e, V', R'. split; [done|]. split_and!; [|destruct Hcase as [(-> & -> & [?|Hh])|(_ & _ & [[-> ->]|(Hnr & -> & ->)])]|done].
    + destruct He as [(-> & i & j & Hde)|[?|[?|[[-> Hnr]|?]]]].
      * destruct (Hnn i). by exists j.
      * by right; left.
      * by right; right; left.
      * right; right; right; right; right. split; [done|]. by eapply keeps_noread.
      * by right; right; right; left.
    + done.
    + destruct Hh as (q' & r' & Hq' & Er). by destruct (Hfresh _ _ Hq').
    + left. split; [|done]. unfold V0. by rewrite delete_insert_id.
    + right. split; [eapply keeps_noread; [exact Hk|]; by eapply keeps_noread|]. exists q, ino. split_and!; try done.
      unfold V0. by rewrite insert_insert_eq.
Qed.

Lemma sfs_creat_spec s name excl :
  fsat t s V R → (t → plenty s) → name_ok name →
  wpe (sfs_creat p name excl) (λ res s', keeps s s' ∧
    ((∃ q ino V' R', res = inr q ∧ picked R q ino R' ∧ fsat t s' V' R' ∧
        (excl = false ∧ names a name ino ∧ V' = V ∨ created name ino V')) ∨
     (∃ e V' R', res = inl e ∧ creat_error s name excl e ∧ not_created (reads_fine s) V' R' ∧ fsat t s' V' R'))) s.
Proof.
  intros HS Hpl Hn. unfold sfs_creat. apply wpe_bind.
  eapply wpe_mono; [apply (fsat_findname V R p r a Hp naming_root (ns_dir _ _ _ _ Hns) s name HS)|].
  intros res s1 (Hk & HS1 & [(fr & -> & Hf)|[-> Hnr]]).
  2:{ split; [done|]. right. exists EIO, V, R. split; [done|]. split; [by do 5 right|]. split; [by left|done]. }
  destruct (f_found fr) as [[ino slot]|] eqn:Ef.
  - destruct (fd_some _ _ _ _ Hf _ _ Ef) as [Hd _]. destruct excl.
    { apply wpe_raise. split; [done|]. right. exists EEXIST, V, R. split; [done|].
      split; [left; split; [done|]; split; [done|]; exists ino; by exists slot|]. split; [by left|done]. }
    destruct (naming_entry s1 name ino slot HS1 Hd) as (b & Hb & _).
    eapply wpe_mono; [by eapply fsat_loadvnode|]. intros res s2 [Hk2 [(q & R' & -> & Hpk & HS2)|(e & -> & He & HS2)]].
    + split; [by eapply keeps_trans|]. left. exists q, ino, V, R'. split; [done|]. split; [done|]. split; [done|]. left.
      split; [done|]. split; [by exists slot|done].
    + split; [by eapply keeps_trans|]. right. exists e, V, R. split; [done|]. split; [|split; [by left|done]].
      do 4 right. by eapply load_error_keeps.
  - assert (∀ i, ¬ names a name i) as Hno.
    { intros i [j Hd]. apply (fd_none _ _ _ _ Hf Ef i j); [apply (de_slot _ _ _ _ Hd)|done]. }
    apply wpe_bind. eapply wpe_mono; [apply (fsat_makeobj (t := t)); [done|intros H; by eapply keeps_plenty, Hpl]|].
    intros res s2 [Hk2 [(q & ino & -> & Hi & Hq & Hpos & Hu & Hfr & HS2)|(e & -> & He & HS2)]].
    + eapply wpe_mono; [apply (creat_linked s s2 q ino name HS2); try done; [by eapply keeps_trans|]|].
      { intros q' r' Hq'. by destruct (fsat_count _ _ _ _ _ HS1 Hq'). }
      intros res s3 [Hk3 [(V' & -> & Hc & HS3)|(e & V' & R' & -> & He & Hc & HS3)]]; (split; [done|]).
      * left. exists q, ino, V', (<[q := VRef ino 1 0]> R). split; [done|].
        split; [exists 0, 0; split; [done|by right]|]. split; [done|by right].
      * right. exists e, V', R'. split; [done|]. split; [|done]. destruct He as [(_ & _ & i & Hi')|He]; [by destruct (Hno i)|by right].
    + split; [by eapply keeps_trans|]. right. exists e, V, R. split; [done|]. split; [|split; [by left|done]].
      destruct He as [->|He]; [by right; right; left|]. do 4 right. by eapply load_error_keeps.
Qed.

(** A name less; the file goes with its last name unless it is in use. *)
Definition removed (fine : Prop) (name : list Z) (V' : gmap Z afile) (R' : gmap Z vref) : Prop :=
  ∃ ino b a', names a name ino ∧ V !! ino = Some b ∧ ns_ok V' a' ∧ (∀ n i, names a' n i ↔ names a n i ∧ n ≠ name) ∧
    let b' := with_links (a_links b - 1) b in
    (R' = R ∧ V' = <[ino := b']> (<[ROOT := a']> V) ∧ (a_links b ≠ 1 ∨ held R ino) ∨
     a_links b = 1 ∧ ¬ held R ino ∧
      (R' = R ∧ V' = delete ino (<[ROOT := a']> V) ∨
       ¬ fine ∧ (∃ q, picked R q ino R') ∧ V' = <[ino := atrunc_failed 0 b']> (<[ROOT := a']> V))).

Lemma remove_unlinked s0 s q slot ino b R1 name :
  let a' := awrite (slot * 64) (enc_dir no_entry) a in
  fsat t s (<[ROOT := a']> V) R1 → keeps s0 s → (∀ q r, R !! q = Some r → 0 < r_count r) → picked R q ino R1 → dentry a name ino slot →
  V !! ino = Some b → ino ≠ ROOT → a_type b = SFS_TYPE_FILE → 1 ≤ a_links b ≤ 1144 →
  wpe (_ ← (v ← getv q;
            _ ← eassert (0 <? sfi_linkcount (sv_i v));
            upd_inode q (λ i, set_links (u16 (sfi_linkcount i - 1)) i));
       _ ← VOP_DECREF q;
       reraise (inr tt)) (λ res s', res = inr tt ∧ keeps s0 s' ∧ ∃ V' R', removed (reads_fine s0) name V' R' ∧ fsat t s' V' R') s.
Proof.
  intros a' HS Hk Hpos Hpk Hd Hb Hne Ht Hl. destruct (picked_lookup _ _ _ _ Hpk) as (rq & Hq & Eq).
  destruct (unlink_step V a ino b Hns Hb Hne name slot Hd) as [Hns1 Hnm]. fold a' in Hns1, Hnm.
  assert (<[ROOT := a']> V !! ino = Some b) as Hb1 by (by rewrite lookup_insert_ne). rewrite <- Eq in Hb1.
  destruct (fsat_meta s _ R1 q rq b HS Hq Hb1) as (v & Hv & _ & _ & El & _). apply wpe_bind, wpe_bind.
  eapply wpe_getv; [exact Hv|]. apply wpe_bind, wpe_assert; [rewrite <- El; lia|].
  eapply wpe_mono; [eapply (fsat_set_links s _ R1 q rq b (λ n, u16 (n - 1)) (a_links b - 1) HS Hq Hb1)|].
  { rewrite u16_id; [done|unfold is_u16; lia]. } { lia. }
  intros res s1 (-> & Hk1 & HS1). rewrite Eq in HS1. set (b' := with_links (a_links b - 1) b) in *. apply wpe_bind.
  eapply wpe_mono; [apply (picked_decref (t := t) s1 _ R q ino R1 b' HS1 Hpk Hpos); [apply lookup_insert_eq|done]|].
  intros res s2 (-> & Hk2 & V' & R' & HS2 & Hcase). apply wpe_reraise. split; [done|].
  split; [eapply keeps_trans; [done|by eapply keeps_trans]|]. exists V', R'. split; [|done]. exists ino, b, a'. fold b'.
  split; [by exists slot|]. split; [done|].
  destruct Hcase as [(-> & -> & Hor)|(Hz & Hh & [[-> ->]|(Hnr & -> & ->)])].
  - split; [done|]. split; [done|]. left. split; [done|]. split; [done|]. simpl in Hor. destruct Hor; [left; lia|by right].
  - simpl in Hz. split; [|split; [done|]].
    + eapply ns_at_zero, (ns_drop _ a' ino 0 (ns_at_zero _ _ _ _ Hns1) Hne b' eq_refl); [apply lookup_insert_eq|done].
    + right. split; [lia|]. split; [done|]. left. split; [done|]. by rewrite delete_insert_eq.
  - simpl in Hz. rewrite insert_insert_eq. split; [|split; [done|]].
    + rewrite <- (insert_insert_eq _ ino _ b'). apply (ns_contents _ a' ino b' Hns1 (lookup_insert_eq _ _ _) Hne); done.
    + right. split; [lia|]. split; [done|]. right. split; [|split; [by exists q|done]].
      eapply keeps_noread; [exact Hk|]. by eapply keeps_noread.
Qed.

Lemma sfs_remove_spec s name :
  fsat t s V R →
  wpe (sfs_remove p name) (λ res s', keeps s s' ∧
    ((res = inr tt ∧ ∃ V' R', removed (reads_fine s) name V' R' ∧ fsat t s' V' R') ∨
     (∃ e, res = inl e ∧ look_error s name e ∧ fsat t s' V R))) s.
Proof.
  intros HS. assert (∀ q r, R !! q = Some r → 0 < r_count r) as Hpos by (intros q' r' Hq'; by destruct (fsat_count _ _ _ _ _ HS Hq')).
  unfold sfs_remove. apply wpe_bind. eapply wpe_mono; [by apply sfs_lookonce_spec|].
  intros res s1 [Hk [(q & slot & ino & R1 & -> & Hd & Hpk & HS1)|(e & -> & He & HS1)]].
  2:{ split; [done|]. right. by exists e. }
  cbv beta iota. destruct (naming_entry s name ino slot HS Hd) as (b & Hb & Hne & Ht & El & Hl).
  destruct (picked_other _ _ _ _ _ _ Hpk Hp ltac:(congruence)) as [Hqp Hp1]. apply wpe_bind, wpe_attempt.
  eapply wpe_mono.
  { apply (fsat_dir_unlink V R1 p r a Hp1 naming_root (ns_dir _ _ _ _ Hns) s1 slot HS1); [apply Hd|].
    rewrite (de_ino _ _ _ _ Hd). apply (de_used _ _ _ _ Hd). }
  intros res s2 [Hk2 [[-> HS2]|(-> & Hnr & HS2)]]; cbv beta iota.
  - rewrite Hr in HS2. eapply wpe_mono; [apply (remove_unlinked s s2 q slot ino b R1 name HS2); try done; by eapply keeps_trans|].
    intros res s3 (-> & Hk3 & Hx). split; [done|]. by left.
  - apply wpe_bind, wpe_ret, wpe_bind. eapply wpe_mono; [by apply (picked_decref (t := t) s2 V R q ino R1 b)|].
    intros res s3 (-> & Hk3 & V' & R' & HS3 & Hcase). apply wpe_reraise. split; [eapply keeps_trans; [done|by eapply keeps_trans]|].
    destruct Hcase as [(-> & -> & _)|(? & _)]; [|lia]. right. exists EIO. split; [done|]. split; [|done].
    right; right. split; [done|]. by eapply keeps_noread.
Qed.

(** The new name in place of the old one. *)
Definition renamed (n1 n2 : list Z) (V' : gmap Z afile) : Prop :=
  ∃ ino a', names a n1 ino ∧ (∀ i, ¬ names a n2 i) ∧ V' = <[ROOT := a']> V ∧ ns_ok V' a' ∧
    (∀ n i, names a' n i ↔ names a n i ∧ n ≠ n1 ∨ n = n2 ∧ i = ino).

Lemma rename_linked s0 s q slot1 slot2 ino b R1 n1 n2 :
  let a1 := awrite (slot2 * 64) (enc_dir (new_entry n2 ino)) a in
  fsat t s (<[ROOT := a1]> V) R1 → keeps s0 s → reads_fine s0 → (∀ q r, R !! q = Some r → 0 < r_count r) → picked R q ino R1 →
  dentry a n1 ino slot1 → V !! ino = Some b → ino ≠ ROOT → a_type b = SFS_TYPE_FILE → 1 ≤ a_links b ≤ 1144 →
  is_u32 ino → name_ok n2 → (length n2 ≤ 59)%nat → free_slot a slot2 → (∀ i j, ¬ dentry a n2 i j) →
  wpe (sfs_rename_tail p q slot1 slot2) (λ res s', res = inr tt ∧ keeps s0 s' ∧ ∃ V', renamed n1 n2 V' ∧ fsat t s' V' R) s.
Proof.
  intros a1 HS Hk Hfine Hpos Hpk Hd Hb Hne Ht Hl Hu Hn2 Hln Hf Hno. destruct (picked_lookup _ _ _ _ Hpk) as (rq & Hq & Eq).
  destruct (link_step V a ino b Hns Hb Hne n2 slot2 Hu Hn2 Hln Hf Hno) as [Hns1 Hnm1]. fold a1 in Hns1, Hnm1.
  destruct (link_keeps a n2 ino slot2 n1 ino slot1 (ns_dir _ _ _ _ Hns) Hu Hn2 Hln Hf Hd) as [Hd1 _]. fold a1 in Hd1.
  destruct (picked_other _ _ _ _ _ _ Hpk Hp ltac:(congruence)) as [Hqp Hp1]. unfold sfs_rename_tail.
  set (b1 := with_links (a_links b + 1) b) in *. set (V1 := <[ino := b1]> (<[ROOT := a1]> V)) in *.
  apply wpe_bind. eapply wpe_mono; [eapply (fsat_set_links s _ R1 q rq b (λ n, u16 (n + 1)) (a_links b + 1) HS Hq)|].
  { rewrite Eq. by rewrite lookup_insert_ne. } { rewrite u16_id; [done|unfold is_u16; lia]. } { lia. }
  intros res s1 (-> & Hk1 & HS1). rewrite Eq in HS1. fold b1 V1 in HS1. apply wpe_bind, wpe_attempt.
  assert (V1 !! r_ino r = Some a1) as Hr1 by (unfold V1; rewrite Hr, lookup_insert_ne, lookup_insert_eq by done; done).
  assert (V1 !! ino = Some b1) as Hb1 by apply lookup_insert_eq. assert (keeps s0 s1) as Hk01 by (by eapply keeps_trans).
  eapply wpe_mono.
  { apply (fsat_dir_unlink V1 R1 p r a1 Hp1 Hr1 (ns_dir _ _ _ _ Hns1) s1 slot1 HS1); [apply Hd1|].
    rewrite (de_ino _ _ _ _ Hd1). apply (de_used _ _ _ _ Hd1). }
  intros res s2 [Hk2 [[-> HS2]|(-> & Hnr & _)]]; [|by destruct Hnr; apply Hk01]. cbv beta iota. rewrite Hr in HS2.
  destruct (unlink_step V1 a1 ino b1 Hns1 Hb1 Hne n1 slot1 Hd1) as [Hns2 Hnm2]. set (a2 := awrite (slot1 * 64) _ a1) in *.
  assert (<[ROOT := a2]> V1 !! r_ino rq = Some b1) as Hb2 by (rewrite Eq, lookup_insert_ne by done; done).
  destruct (fsat_meta s2 _ R1 q rq b1 HS2 Hq Hb2) as (v & Hv & _ & _ & El & _). apply wpe_bind. eapply wpe_getv; [exact Hv|].
  apply wpe_bind, wpe_assert; [rewrite <- El; simpl; lia|]. apply wpe_bind.
  eapply wpe_mono; [eapply (fsat_set_links s2 _ R1 q rq b1 (λ n, u16 (n - 1)) (a_links b) HS2 Hq Hb2)|].
  { simpl. rewrite u16_id; [lia|unfold is_u16; lia]. } { lia. }
  intros res s3 (-> & Hk3 & HS3). rewrite Eq in HS3.
  assert (<[ino := with_links (a_links b) b1]> (<[ROOT := a2]> V1) = <[ROOT := a2]> V) as EV.
  { change (with_links (a_links b) b1) with (with_links (a_links b) b). rewrite with_links_id. unfold V1.
    rewrite (insert_insert_ne _ ROOT ino), insert_insert_eq, insert_insert_eq by done. apply insert_id. by rewrite lookup_insert_ne. }
  simpl in Hns2. replace (a_links b + 1 - 1) with (a_links b) in Hns2 by lia. rewrite EV in HS3, Hns2.
  eapply wpe_mono; [apply (picked_decref (t := t) s3 _ R q ino R1 b HS3 Hpk Hpos); [by rewrite lookup_insert_ne|done]|].
  intros res s4 (-> & Hk4 & V' & R' & HS4 & Hcase). destruct Hcase as [(-> & -> & _)|(? & _)]; [|lia]. split; [done|].
  split; [eapply keeps_trans; [exact Hk01|]; eapply keeps_trans; [exact Hk2|by eapply keeps_trans]|].
  eexists. split; [|exact HS4]. exists ino, a2. split; [by exists slot1|]. split; [intros i [j Hj]; by apply (Hno i j)|].
  split; [done|]. split; [done|]. intros n i. rewrite Hnm2, Hnm1. split; [tauto|]. intros [[? ?]|[-> ->]]; [tauto|].
  split; [by right|]. intros ->. by apply (Hno ino slot1).
Qed.

Lemma sfs_rename_spec s n1 n2 :
  fsat t s V R → reads_fine s → name_ok n2 →
  wpe (sfs_rename p n1 p n2) (λ res s', keeps s s' ∧
    ((res = inr tt ∧ ∃ V', renamed n1 n2 V' ∧ fsat t s' V' R) ∨
     (∃ e, res = inl e ∧ (look_error s n1 e ∨ link_error a s n2 e) ∧ fsat t s' V R))) s.
Proof.
  intros HS Hfine Hn2. assert (∀ q r, R !! q = Some r → 0 < r_count r) as Hpos by (intros q' r' Hq'; by destruct (fsat_count _ _ _ _ _ HS Hq')).
  unfold sfs_rename. destruct (fsat_meta s V R p r a HS Hp naming_root) as (v & Hv & Ev & _).
  apply wpe_bind. eapply wpe_getv; [exact Hv|]. apply wpe_bind, wpe_assert; [apply Z.eqb_refl|].
  apply wpe_bind, wpe_assert; [apply Z.eqb_eq; by rewrite <- Ev in Hr|]. apply wpe_bind.
  eapply wpe_mono; [by apply sfs_lookonce_spec|].
  intros res s1 [Hk [(q & slot & ino & R1 & -> & Hd & Hpk & HS1)|(e & -> & He & HS1)]].
  2:{ split; [done|]. right. exists e. split; [done|]. split; [by left|done]. }
  cbv beta iota. destruct (naming_entry s n1 ino slot HS Hd) as (b & Hb & Hne & Ht & El & Hl).
  destruct (picked_other _ _ _ _ _ _ Hpk Hp ltac:(congruence)) as [Hqp Hp1]. destruct (picked_lookup _ _ _ _ Hpk) as (rq & Hq & Eq).
  pose proof (fsat_ino_u32 _ _ _ _ _ HS Hb) as Hu. destruct (fsat_meta s1 V R1 q rq b HS1 Hq) as (w & Hw & Ew & Etw & _); [by rewrite Eq|].
  apply wpe_bind. eapply wpe_getv; [exact Hw|]. apply wpe_bind, wpe_assert; [apply Z.eqb_eq; by rewrite <- Etw|].
  replace (sv_ino w) with ino by (by rewrite <- Eq, <- Ew). apply wpe_bind, wpe_attempt.
  eapply wpe_mono; [apply (fsat_dir_link V R1 p r a Hp1 naming_root (ns_dir _ _ _ _ Hns) s1 n2 ino HS1 Hn2 Hu); eapply de_used, Hd|].
  intros res s2 [Hk2 [(slot2 & -> & Hf & Hln & Hno & HS2)|(e & -> & He & HS2)]]; cbv beta iota.
  - rewrite Hr in HS2. eapply wpe_mono; [apply (rename_linked s s2 q slot slot2 ino b R1 n1 n2 HS2); try done; by eapply keeps_trans|].
    intros res s3 (-> & Hk3 & Hx). split; [done|]. by left.
  - apply wpe_bind. eapply wpe_mono; [by apply (picked_decref (t := t) s2 V R q ino R1 b)|].
    intros res s3 (-> & Hk3 & V' & R' & HS3 & Hcase). apply wpe_raise. split; [eapply keeps_trans; [done|by eapply keeps_trans]|].
    destruct Hcase as [(-> & -> & _)|(? & _)]; [|lia]. right. exists e. split; [done|]. split; [|done]. right.
    destruct He as [?|[?|[?|[[-> Hnr]|?]]]]; [by left|by right; left|by right; right; left| |by right; right; right; right].
    right; right; right; left. split; [done|]. by eapply keeps_noread.
Qed.
End naming.
