(* ===== verification/SfsVolume.v ===== *)
(** The volume as its users see it: files with contents, a flat name space
    and counted references, with the operations as transitions; SFS
    implements them. *)

From Stdlib Require Import ZArith Lia.
From stdpp Require Import base numbers list option gmap.
From S2P Require Import Prelude Array Bitmap Errm Uio UioProofs Lhd LhdProofs SfsDisk Sfs SfsBlock SfsInv SfsBmap SfsIo SfsSpec SfsTrunc SfsAbs SfsVnode SfsDir SfsNames SfsNaming.

Open Scope Z_scope.

(** ** Operations *)

Inductive fsop :=
  | OLookup (name : list Z)
  | OCreat (name : list Z) (excl : bool)
  | OLink (name : list Z) (q : Z)
  | ORemove (name : list Z)
  | ORename (n1 n2 : list Z)
  | ORead (q off n : Z)
  | OWrite (q off : Z) (d : list Z)
  | OTruncate (q len : Z)
  | ORelease (q : Z).

Inductive answer :=
  | ADone
  | AVnode (q : Z)
  | ABytes (d : list Z).

(** The calls, through the root directory's vnode [p] and kernel buffers. *)
Definition exec (p : Z) (op : fsop) : EM sfs answer :=
  match op with
  | OLookup name => q ← sfs_lookup p name; mret (AVnode q)
  | OCreat name excl => q ← sfs_creat p name excl; mret (AVnode q)
  | OLink name q => _ ← sfs_link p name q; mret ADone
  | ORemove name => _ ← sfs_remove p name; mret ADone
  | ORename n1 n2 => _ ← sfs_rename p n1 p n2; mret ADone
  | ORead q off n =>
      '(_, u) ← with_uio (mk_kuio (replicate (Z.to_nat n) 0) n off UIO_READ) (sfs_read q);
      mret (ABytes (take (Z.to_nat (n - uio_resid u)) (iov_kbuf u)))
  | OWrite q off d => _ ← with_uio (mk_kuio d (Z.of_nat (length d)) off UIO_WRITE) (sfs_write q); mret ADone
  | OTruncate q len => _ ← sfs_truncate q len; mret ADone
  | ORelease q => _ ← VOP_DECREF q; mret ADone
  end.

(** ** The abstract volume *)

Definition vol_ok (p : Z) (V : gmap Z afile) (R : gmap Z vref) : Prop :=
  ∃ r a, R !! p = Some r ∧ r_ino r = ROOT ∧ ns_ok V a.

(** [q] is the vnode of a plain file, [b]. *)
Definition plain (V : gmap Z afile) (R : gmap Z vref) (q : Z) (rq : vref) (b : afile) : Prop :=
  R !! q = Some rq ∧ r_ino rq ≠ ROOT ∧ V !! r_ino rq = Some b.

(** The operations a client may ask for.  Counts have room; vnodes are those
    of plain files in use; names are strings; offsets and lengths fit their
    types.  Renaming needs a disk that does not fail reads ([fine]): its undo
    panics when it cannot read the directory again. *)
Definition allowed (fine : Prop) (V : gmap Z afile) (R : gmap Z vref) (op : fsop) : Prop :=
  uncounted R ∧
  match op with
  | OLookup _ | ORemove _ => True
  | OCreat name _ => name_ok name
  | OLink name q => name_ok name ∧ ∃ rq b, plain V R q rq b
  | ORename _ n2 => name_ok n2 ∧ fine
  | ORead q off n => (∃ rq b, plain V R q rq b) ∧ 0 ≤ off ∧ 0 < n ∧ off + n < 2147483648
  | OWrite q off d => (∃ rq b, plain V R q rq b) ∧ 0 ≤ off ∧ d ≠ [] ∧ bytes d ∧ off + Z.of_nat (length d) < 2147483648
  | OTruncate q len => (∃ rq b, plain V R q rq b) ∧ 0 ≤ len ∧ len + 512 < 2147483648
  | ORelease q => ∃ rq b, plain V R q rq b ∧ (r_count rq = 1 → r_open rq = 0)
  end.

(** Releasing the last reference of a file without names deletes it, unless
    the disk fails. *)
Definition vrelease (fine : Prop) (V : gmap Z afile) (R : gmap Z vref) (q : Z) (rq : vref) (b : afile)
    (V' : gmap Z afile) (R' : gmap Z vref) : Prop :=
  if decide (1 < r_count rq) then V' = V ∧ R' = <[q := VRef (r_ino rq) (r_count rq - 1) (r_open rq)]> R
  else if decide (a_links b = 0) then
    (V' = delete (r_ino rq) V ∧ R' = delete q R) ∨ (¬ fine ∧ V' = <[r_ino rq := atrunc_failed 0 b]> V ∧ R' = R)
  else V' = V ∧ R' = delete q R.

Definition vstep (fine : Prop) (V : gmap Z afile) (R : gmap Z vref) (op : fsop) (res : Z + answer)
    (V' : gmap Z afile) (R' : gmap Z vref) : Prop :=
  ∃ a, ns_ok V a ∧
  match op, res with
  | OLookup name, inr (AVnode q) => V' = V ∧ ∃ ino, names a name ino ∧ picked R q ino R'
  | OCreat name excl, inr (AVnode q) => ∃ ino, picked R q ino R' ∧
      (excl = false ∧ names a name ino ∧ V' = V ∨ created V a name ino V')
  | OCreat name excl, inl e => (e = EEXIST → excl = true ∧ ∃ i, names a name i) ∧ not_created V R fine V' R'
  | OLink name q, inr ADone => ∃ rq b a', plain V R q rq b ∧ (∀ i, ¬ names a name i) ∧ ns_ok V' a' ∧ R' = R ∧
      V' = <[r_ino rq := with_links (a_links b + 1) b]> (<[ROOT := a']> V) ∧
      (∀ n i, names a' n i ↔ names a n i ∨ n = name ∧ i = r_ino rq)
  | ORemove name, inr ADone => removed V R a fine name V' R'
  | ORename n1 n2, inr ADone => R' = R ∧ renamed V a n1 n2 V'
  | ORead q off n, inr (ABytes d) => V' = V ∧ R' = R ∧ ∃ rq b, plain V R q rq b ∧ d = aread off n b
  | OWrite q off d, inr ADone => R' = R ∧ ∃ rq b, plain V R q rq b ∧ V' = <[r_ino rq := awrite off d b]> V
  | OWrite q off d, inl e => R' = R ∧ ∃ rq b d', plain V R q rq b ∧ d' `prefix_of` d ∧ V' = <[r_ino rq := awrite off d' b]> V
  | OTruncate q len, inr ADone => R' = R ∧ ∃ rq b, plain V R q rq b ∧ V' = <[r_ino rq := atrunc len b]> V
  | OTruncate q len, inl e => ¬ fine ∧ R' = R ∧ ∃ rq b, plain V R q rq b ∧ V' = <[r_ino rq := atrunc_failed len b]> V
  | ORelease q, inr ADone => ∃ rq b, plain V R q rq b ∧ vrelease fine V R q rq b V' R'
  | ORelease q, inl e => False
  | _, inl e => V' = V ∧ R' = R
  | _, _ => False
  end.

(** ** Each operation *)

Lemma ns_ok_unique V a a' : ns_ok V a → ns_ok V a' → a' = a.
Proof. intros [H _ _ _ _] [H' _ _ _ _]. congruence. Qed.

Lemma vol_contents p V R q rq b b' :
  vol_ok p V R → plain V R q rq b → a_type b' = a_type b → a_links b' = a_links b → vol_ok p (<[r_ino rq := b']> V) R.
Proof. intros (r & a & Hp & Hr & Hns) (Hq & Hne & Hb) Et El. exists r, a. split; [done|]. split; [done|]. by apply (ns_contents V a _ b). Qed.

Lemma vol_picked p V R q ino R' :
  vol_ok p V R → picked R q ino R' → vol_ok p V R'.
Proof.
  intros (r & a & Hp & Hr & Hns) (n & oc & -> & Hc). destruct (decide (q = p)) as [->|Hne].
  - exists (VRef ino (n + 1) oc), a. split; [apply lookup_insert_eq|]. split; [|done]. simpl.
    destruct Hc as [Hc|[Hc _]]; rewrite Hp in Hc; [|done]. by injection Hc as ->.
  - exists r, a. rewrite lookup_insert_ne by done. done.
Qed.

Section volume.
Context {t : Prop} (s : sfs) (p : Z) (V : gmap Z afile) (R : gmap Z vref) (r : vref) (a : afile).
Context (HS : fsat t s V R) (Hp : R !! p = Some r) (Hr : r_ino r = ROOT) (Hns : ns_ok V a) (Hun : uncounted R).

(** What holds after an operation. *)
Definition step_post (op : fsop) (res : Z + answer) (s' : sfs) : Prop :=
  keeps s s' ∧ ∃ V' R', vstep (reads_fine s) V R op res V' R' ∧ vol_ok p V' R' ∧ fsat t s' V' R'.

Lemma volume_ok : vol_ok p V R.
Proof. by exists r, a. Qed.

Lemma vol_lookup name : wpe (exec p (OLookup name)) (step_post (OLookup name)) s.
Proof.
  simpl. unfold sfs_lookup. destruct (fsat_meta s V R p r a HS Hp (naming_root V r a Hr Hns)) as (v & Hv & _ & Et & _).
  apply wpe_bind, wpe_bind. eapply wpe_getv; [exact Hv|]. rewrite <- Et, (dk_type _ (ns_dir _ _ _ _ Hns)). cbn [negb Z.eqb SFS_TYPE_DIR Pos.eqb].
  apply wpe_bind. eapply wpe_mono; [by eapply sfs_lookonce_spec|].
  intros res s1 [Hk [(q & slot & ino & R' & -> & Hd & Hpk & HS1)|(e & -> & He & HS1)]].
  - apply wpe_ret, wpe_ret. split; [done|]. exists V, R'. split; [|split; [by eapply vol_picked; [apply volume_ok|]|done]].
    exists a. split; [done|]. split; [done|]. exists ino. split; [by exists slot|done].
  - split; [done|]. exists V, R. split; [|split; [apply volume_ok|done]]. by exists a.
Qed.

Lemma vol_creat name excl : (t → plenty s) → name_ok name → wpe (exec p (OCreat name excl)) (step_post (OCreat name excl)) s.
Proof.
  intros Hpl Hn. simpl. apply wpe_bind. eapply wpe_mono; [by eapply (sfs_creat_spec (t := t))|].
  intros res s1 [Hk [(q & ino & V' & R' & -> & Hpk & HS1 & Hc)|(e & V' & R' & -> & He & Hc & HS1)]].
  - apply wpe_ret. split; [done|]. exists V', R'. split; [exists a; split; [done|]; by exists ino|]. split; [|done].
    destruct Hc as [(_ & _ & ->)|(_ & _ & a' & Hns' & _)]; [by eapply vol_picked; [apply volume_ok|]|].
    eapply (vol_picked p V' R); [by exists r, a'|done].
  - split; [done|]. exists V', R'. split.
    + exists a. split; [done|]. split; [|done]. intros ->. destruct He as [(_ & ? & ?)|[[? _]|[?|[[? _]|[[? _]|[? _]]]]]]; done.
    + split; [|done]. destruct Hc as [[-> ->]|(_ & q & ino & Hno & Hq & Hpos & -> & ->)]; [apply volume_ok|].
      exists r, a. rewrite lookup_insert_ne by congruence. split; [done|]. split; [done|].
      rewrite <- (insert_insert_eq V ino _ (empty_file SFS_TYPE_FILE)). eapply (ns_contents _ a ino); [|apply lookup_insert_eq| |done|done].
      * eapply ns_at_zero, ns_new; [done|done|lia].
      * intros ->. rewrite (ns_root _ _ _ _ Hns) in Hno. done.
Qed.

Lemma vol_link name q rq b : name_ok name → plain V R q rq b → wpe (exec p (OLink name q)) (step_post (OLink name q)) s.
Proof.
  intros Hn (Hq & Hne & Hb). simpl. apply wpe_bind. eapply wpe_mono; [by eapply (sfs_link_spec V R p r a)|].
  intros res s1 [Hk [(a' & -> & Hns' & Hnm & Hno & HS1)|(e & -> & He & HS1)]].
  - apply wpe_ret. split; [done|]. eexists _, R. split; [|split; [by exists r, a'|exact HS1]]. exists a. split; [done|].
    by exists rq, b, a'.
  - split; [done|]. exists V, R. split; [|split; [apply volume_ok|done]]. by exists a.
Qed.

Lemma vol_remove name : wpe (exec p (ORemove name)) (step_post (ORemove name)) s.
Proof.
  simpl. apply wpe_bind. eapply wpe_mono; [by eapply (sfs_remove_spec V R p r a)|].
  intros res s1 [Hk [(-> & V' & R' & Hc & HS1)|(e & -> & He & HS1)]].
  - apply wpe_ret. split; [done|]. exists V', R'. split; [by exists a|]. split; [|done].
    pose proof Hc as (ino & b & a' & Hnm & Hb & Hns' & _ & Hcase).
    assert (vol_ok p V' R) as Hv by (by exists r, a'). destruct Hcase as [(-> & _)|(_ & _ & [[-> _]|(_ & [q Hpk] & _)])]; [done|done|].
    by eapply vol_picked.
  - split; [done|]. exists V, R. split; [|split; [apply volume_ok|done]]. by exists a.
Qed.

Lemma vol_rename n1 n2 : name_ok n2 → reads_fine s → wpe (exec p (ORename n1 n2)) (step_post (ORename n1 n2)) s.
Proof.
  intros Hn Hf. simpl. apply wpe_bind. eapply wpe_mono; [by eapply (sfs_rename_spec V R p r a)|].
  intros res s1 [Hk [(-> & V' & Hc & HS1)|(e & -> & He & HS1)]].
  - apply wpe_ret. split; [done|]. exists V', R. split; [by exists a|]. split; [|done].
    destruct Hc as (ino & a' & _ & _ & _ & Hns' & _). by exists r, a'.
  - split; [done|]. exists V, R. split; [|split; [apply volume_ok|done]]. by exists a.
Qed.

Lemma vol_truncate q rq b len :
  plain V R q rq b → 0 ≤ len → len + 512 < 2147483648 → wpe (exec p (OTruncate q len)) (step_post (OTruncate q len)) s.
Proof.
  intros Hpl Hlen Hmax. pose proof Hpl as (Hq & Hne & Hb). simpl. apply wpe_bind.
  eapply wpe_mono; [by apply (fsat_truncate s V R q rq b HS Hq Hb)|].
  intros res s1 [Hk [(-> & HS1)|(-> & Hnr & HS1)]]; [apply wpe_ret|]; (split; [done|]); eexists _, R;
    (split; [|split; [|exact HS1]]); try (by eapply vol_contents; [apply volume_ok|..]).
  - exists a. split; [done|]. split; [done|]. by exists rq, b.
  - exists a. split; [done|]. split; [done|]. split; [done|]. by exists rq, b.
Qed.

Lemma vol_release q rq b :
  plain V R q rq b → (r_count rq = 1 → r_open rq = 0) → wpe (exec p (ORelease q)) (step_post (ORelease q)) s.
Proof.
  intros Hpl Ho. pose proof Hpl as (Hq & Hne & Hb). destruct (ns_file _ _ _ _ Hns _ _ Hb Hne) as [Ht El].
  assert (q ≠ p) as Hqp by congruence. simpl. apply wpe_bind. eapply wpe_mono; [apply (fsat_decref s V R q rq b HS Hq Hb); auto|].
  intros res s1 (-> & Hk & V' & R' & Hrel & HS1). apply wpe_ret. split; [done|]. exists V', R'.
  split; [exists a; split; [done|]; by exists rq, b|]. split; [|done]. unfold released in Hrel.
  destruct (decide (1 < r_count rq)); [|destruct (decide (a_links b = 0)) as [Hz|Hz]].
  - destruct Hrel as [-> ->]. exists r, a. by rewrite lookup_insert_ne.
  - destruct Hrel as [[-> ->]|(_ & -> & ->)]; [|by eapply vol_contents; [apply volume_ok|..]]. exists r, a.
    rewrite lookup_delete_ne by done. split; [done|]. split; [done|]. eapply ns_at_zero, ns_drop; [by eapply ns_at_zero|done..].
  - destruct Hrel as [-> ->]. exists r, a. by rewrite lookup_delete_ne.
Qed.

Lemma vol_read q rq b off n :
  plain V R q rq b → 0 ≤ off → 0 < n → off + n < 2147483648 → wpe (exec p (ORead q off n)) (step_post (ORead q off n)) s.
Proof.
  intros Hpl Ho Hn Hmax. pose proof Hpl as (Hq & Hne & Hb). simpl. apply wpe_bind, with_uio_spec. set (u := mk_kuio _ _ _ _).
  assert (uio_ok u) as Hu.
  { apply mk_kuio_ok; rewrite ?length_replicate; try lia. apply Forall_replicate. unfold is_u8. lia. }
  unfold sfs_read. estep. cbv beta iota. apply wpe_bind, wpe_assert; [done|].
  eapply wpe_mono; [apply (fsat_sfs_read s V R q rq b HS Hq Hb u Hu eq_refl); unfold u; simpl; lia|].
  intros res [s1 u1'] (d & u1 & HS1 & Hk & Hx & Hpre & He). destruct (xfer_fields _ _ _ Hx) as (Es & _ & _ & Ere & _).
  destruct (ended_kernel _ _ _ _ _ _ _ _ Es He) as [-> Hres]. change (uio_offset u) with off in *. change (uio_resid u) with n in *.
  destruct res as [e|[]].
  - split; [done|]. exists V, R. split; [by exists a|]. split; [apply volume_ok|done].
  - cbv beta iota. apply wpe_ret. split; [done|]. exists V, R. split; [|split; [apply volume_ok|done]]. exists a. split; [done|].
    split; [done|]. split; [done|]. exists rq, b. split; [done|].
    assert (d = aread off n b) as ->.
    { apply prefix_length_eq; [exact Hpre|]. pose proof (aread_length off n b). lia. }
    rewrite Ere. replace (n - (n - Z.of_nat (length (aread off n b)))) with (Z.of_nat (length (aread off n b))) by lia. rewrite Nat2Z.id.
    destruct Hx as (_ & Hl & _ & Hx). change (is_read u) with true in Hx. cbv iota in Hx. subst u1. change (uio_resid u) with n in Hl.
    unfold uwrite, move, set_kbuf. change (is_sys u) with true. cbn [iov_kbuf iov_base u mk_kuio]. change (Z.to_nat 0) with 0%nat.
    unfold splice. by rewrite take_0, app_nil_l, take_app_length.
Qed.

Lemma vol_write q rq b off d :
  plain V R q rq b → 0 ≤ off → d ≠ [] → bytes d → off + Z.of_nat (length d) < 2147483648 →
  wpe (exec p (OWrite q off d)) (step_post (OWrite q off d)) s.
Proof.
  intros Hpl Ho Hnd Hby Hmax. pose proof Hpl as (Hq & Hne & Hb). simpl. apply wpe_bind, with_uio_spec. set (u := mk_kuio _ _ _ _).
  assert (uio_ok u) as Hu by (apply mk_kuio_ok; lia || done). assert (length d ≠ 0%nat) by (by destruct d).
  unfold sfs_write. estep. cbv beta iota. apply wpe_bind, wpe_assert; [done|].
  eapply wpe_mono; [apply (fsat_sfs_write s V R q rq b HS Hq Hb u Hu eq_refl); unfold u; simpl; lia|].
  intros res [s1 u1'] (d' & u1 & HS1 & Hk & Hx & He). destruct (xfer_fields _ _ _ Hx) as (Es & _ & _ & Ere & _).
  destruct (ended_kernel _ _ _ _ _ _ _ _ Es He) as [-> Hres]. change (uio_offset u) with off in *. change (uio_resid u) with (Z.of_nat (length d)) in *.
  assert (d' `prefix_of` d) as Hpre.
  { destruct Hx as (_ & _ & _ & Hx). change (is_read u) with false in Hx. destruct Hx as [Hh _]. unfold uholds in Hh.
    change (is_sys u) with true in Hh. cbn [iov_kbuf iov_base u mk_kuio] in Hh. change (Z.to_nat 0) with 0%nat in Hh.
    rewrite drop_0 in Hh. rewrite <- Hh. apply prefix_take. }
  destruct res as [e|[]].
  - split; [done|]. eexists _, R. split; [|split; [|exact HS1]]; [|by eapply vol_contents; [apply volume_ok|..]].
    exists a. split; [done|]. split; [done|]. by exists rq, b, d'.
  - cbv beta iota. apply wpe_ret. split; [done|]. eexists _, R. split; [|split; [|exact HS1]]; [|by eapply vol_contents; [apply volume_ok|..]].
    assert (d' = d) as -> by (by apply prefix_length_eq; [|lia]). exists a. split; [done|]. split; [done|]. by exists rq, b.
Qed.
End volume.

(** Every allowed operation is a step of the abstract volume. *)
Lemma exec_step {t : Prop} s p V R op :
  fsat t s V R → (t → plenty s) → vol_ok p V R → allowed (reads_fine s) V R op → wpe (exec p op) (step_post (t := t) s p V R op) s.
Proof.
  intros HS Ht (r & a & Hp & Hr & Hns) [Hun Hal]. destruct op as [n|n x|n q|n|n1 n2|q off n|q off d|q len|q].
  - by eapply vol_lookup.
  - by eapply vol_creat.
  - destruct Hal as (Hn & rq & b & Hpl). by eapply vol_link.
  - by eapply vol_remove.
  - destruct Hal. by eapply vol_rename.
  - destruct Hal as ((rq & b & Hpl) & ? & ? & ?). by eapply vol_read.
  - destruct Hal as ((rq & b & Hpl) & ? & ? & ? & ?). by eapply vol_write.
  - destruct Hal as ((rq & b & Hpl) & ? & ?). by eapply vol_truncate.
  - destruct Hal as (rq & b & Hpl & ?). by eapply vol_release.
Qed.

(** ** Sequences of operations *)

Fixpoint exec_all (p : Z) (ops : list fsop) : EM sfs (list (Z + answer)) :=
  match ops with
  | [] => mret []
  | op :: ops => r ← attempt (exec p op); rs ← exec_all p ops; mret (r :: rs)
  end.

(** Whatever the earlier operations answer, the next one is allowed. *)
Fixpoint allowed_all (fine : Prop) (V : gmap Z afile) (R : gmap Z vref) (ops : list fsop) : Prop :=
  match ops with
  | [] => True
  | op :: ops => allowed fine V R op ∧ ∀ res V' R', vstep fine V R op res V' R' → allowed_all fine V' R' ops
  end.

Fixpoint vsteps (fine : Prop) (V : gmap Z afile) (R : gmap Z vref) (ops : list fsop) (rs : list (Z + answer))
    (V' : gmap Z afile) (R' : gmap Z vref) : Prop :=
  match ops, rs with
  | [], [] => V' = V ∧ R' = R
  | op :: ops, r :: rs => ∃ V1 R1, vstep fine V R op r V1 R1 ∧ vsteps fine V1 R1 ops rs V' R'
  | _, _ => False
  end.

(** A disk that reads well keeps doing so, so what happened under the weaker
    condition happened under the stronger. *)
Lemma vstep_mono (f f' : Prop) V R op res V' R' : (f → f') → vstep f' V R op res V' R' → vstep f V R op res V' R'.
Proof.
  intros Hf (a & Hns & H). exists a. split; [done|].
  destruct op as [n|n x|n q|n|n1 n2|q off n|q off d|q len|q], res as [e|[| |]]; try exact H.
  - destruct H as [H1 [?|[Hn H]]]; (split; [done|]); [by left|right]. split; [by intros ?; apply Hn, Hf|done].
  - destruct H as (ino & b & a' & H1 & H2 & H3 & H4 & H5). exists ino, b, a'. do 4 (split; [done|]).
    destruct H5 as [?|(? & ? & [?|[Hn H]])]; [by left|right..]; (do 2 (split; [done|])); [by left|right].
    split; [by intros ?; apply Hn, Hf|done].
  - destruct H as [Hn H]. split; [by intros ?; apply Hn, Hf|done].
  - destruct H as (rq & b & Hpl & H). exists rq, b. split; [done|]. unfold vrelease in *.
    destruct (decide (1 < r_count rq)); [done|]. destruct (decide (a_links b = 0)); [|done].
    destruct H as [?|[Hn H]]; [by left|right]. split; [by intros ?; apply Hn, Hf|done].
Qed.

Lemma allowed_mono (f f' : Prop) V R op : (f → f') → allowed f V R op → allowed f' V R op.
Proof. intros Hf [Hun H]. split; [done|]. destruct op; try exact H. destruct H. auto. Qed.

Lemma exec_all_steps {t : Prop} ops s0 s p V R :
  keeps s0 s → fsat t s V R → (t → plenty s0) → vol_ok p V R → allowed_all (reads_fine s0) V R ops →
  wpe (exec_all p ops) (λ res s', ∃ rs V' R', res = inr rs ∧ vsteps (reads_fine s0) V R ops rs V' R' ∧ vol_ok p V' R' ∧ fsat t s' V' R') s.
Proof.
  revert s V R. induction ops as [|op ops IH]; intros s V R Hk HS Ht Hv Hal; cbn [exec_all].
  - apply wpe_ret. by exists [], V, R.
  - destruct Hal as [Hop Hnext]. apply wpe_bind, wpe_attempt.
    eapply wpe_mono; [apply (exec_step s p V R op HS); [intros H; by eapply keeps_plenty, Ht|done|]; eapply allowed_mono; [|done]; apply Hk|].
    intros r s1 [Hk1 (V1 & R1 & Hst & Hv1 & HS1)]. assert (vstep (reads_fine s0) V R op r V1 R1) as Hst0.
    { eapply vstep_mono; [|done]. apply Hk. }
    apply wpe_bind. eapply wpe_mono; [apply (IH s1 V1 R1); [by eapply keeps_trans|done|done|done|by eapply Hnext]|].
    intros res s2 (rs & V' & R' & -> & Hsts & Hv' & HS2). apply wpe_ret. exists (r :: rs), V', R'. split; [done|].
    split; [|done]. by exists V1, R1.
Qed.
