(* ===== verification/SfsDemo.v ===== *)
(** A small volume: 16 blocks, the root directory with one entry, [f], and
    that file, which is empty; both vnodes are loaded.  It satisfies the
    invariant, so what is proved under the invariant has an instance. *)

From Stdlib Require Import ZArith Lia.
From stdpp Require Import base numbers list option gmap.
From S2P Require Import Prelude Array Bitmap Errm Uio UioProofs Lhd LhdProofs SfsDisk Sfs SfsBlock SfsInv.

Open Scope Z_scope.

Definition demo_super : sfs_super := mkSuper SFS_MAGIC 16 (replicate 32 0) (replicate 118 0).

Definition demo_root : sfs_inode := mkInode 64 SFS_TYPE_DIR 1 (4 :: replicate 14 0) 0 (replicate 110 0).
Definition demo_file : sfs_inode := mkInode 0 SFS_TYPE_FILE 1 (replicate 15 0) 0 (replicate 110 0).

Definition demo_entry : sfs_dir := mkDir 3 (102 :: replicate 59 0).

(** Blocks 0 to 4 are in use, and so are those beyond the end. *)
Definition demo_map : list Z := 31 :: 0 :: replicate 510 255.

Definition demo_sect (b : Z) : list Z :=
  if b =? 0 then enc_super demo_super
  else if b =? 1 then enc_inode demo_root
  else if b =? 2 then demo_map
  else if b =? 3 then enc_inode demo_file
  else if b =? 4 then enc_dir demo_entry ++ replicate 448 0
  else zeros.

Definition demo_disk : disk := mkDisk 16 demo_sect zeros [] [].

Definition demo_rootv : sfs_vnode := mkSv demo_root 1 false 1 0 sfs_dirops.
Definition demo_filev : sfs_vnode := mkSv demo_file 3 false 1 0 sfs_fileops.

Definition demo : sfs :=
  mkSfs demo_super false demo_disk (mkArray 2 2 (Some [Some 1; Some 2])) (mkBitmap 4096 demo_map) false
    (<[1 := demo_rootv]> (<[2 := demo_filev]> ∅)) 3 [].

Definition demo_G : files := <[1 := (demo_root, {[0 := 4]})]> (<[3 := (demo_file, ∅)]> ∅).

Definition demo_own : gmap Z owner :=
  <[0 := OSys]> (<[1 := OIno 1]> (<[2 := OSys]> (<[3 := OIno 3]> (<[4 := OData 1 0]> ∅)))).

Lemma bytes_check l : forallb (λ x, (0 <=? x) && (x <? 256)) l = true → bytes l.
Proof.
  intros H. apply Forall_forall. intros x Hx. apply list_elem_of_In in Hx.
  pose proof (proj1 (forallb_forall _ _) H x Hx) as Hb. cbv beta in Hb. unfold is_u8. lia.
Qed.

Lemma demo_disk_ok : disk_ok demo_disk.
Proof.
  split; try done; [|split; [done|by apply bytes_check]|by apply Forall_nil]. intros b. simpl. unfold demo_sect.
  destruct (b =? 0), (b =? 1), (b =? 2), (b =? 3), (b =? 4); (split; [reflexivity|]);
    apply bytes_check; vm_compute; reflexivity.
Qed.

Lemma demo_bits i : 0 ≤ i < 4096 → bit (sfs_freemap demo) i = (i <? 5) || (16 <=? i).
Proof.
  intros Hi. assert (forallb (λ i, Bool.eqb (bit (sfs_freemap demo) i) ((i <? 5) || (16 <=? i))) (seqZ 0 4096) = true) as H.
  { vm_compute. reflexivity. }
  rewrite forallb_forall in H. apply eqb_prop, (H i). apply list_elem_of_In, elem_of_seqZ. lia.
Qed.

Lemma demo_fs_ok : fs_ok demo.
Proof.
  split; [apply demo_disk_ok|done| |done|].
  - split; [done|]. split; [done|]. split; [by apply bytes_check|]. simpl. lia.
  - intros i Hi. change (nblocks demo) with 16 in Hi. change (nbits (sfs_freemap demo)) with 4096 in Hi.
    rewrite demo_bits by lia. lia.
Qed.

Lemma demo_vn p v : s_vn demo !! p = Some v → (p = 1 ∧ v = demo_rootv) ∨ (p = 2 ∧ v = demo_filev).
Proof.
  simpl. rewrite lookup_insert_Some. intros [[<- <-]|[_ H]]; [by left|right].
  rewrite lookup_insert_Some in H. by destruct H as [[<- <-]|[_ H]].
Qed.

Lemma demo_files ino nd bm :
  demo_G !! ino = Some (nd, bm) → (ino = 1 ∧ nd = demo_root ∧ bm = {[0 := 4]}) ∨ (ino = 3 ∧ nd = demo_file ∧ bm = ∅).
Proof.
  unfold demo_G. rewrite lookup_insert_Some. intros [[<- [= <- <-]]|[_ H]]; [by left|right].
  rewrite lookup_insert_Some in H. by destruct H as [[<- [= <- <-]]|[_ H]].
Qed.

Lemma demo_direct k : 0 ≤ k < 15 → replicate 15 0 !! Z.to_nat k = Some 0.
Proof. intros Hk. apply lookup_replicate. lia. Qed.

Lemma demo_root_ok : file_ok demo_sect demo_own 1 demo_root {[0 := 4]}.
Proof.
  split; try done.
  - unfold inode_wf; split_and!; try (unfold is_u32, is_u16; simpl; lia); try done; apply Forall_forall; intros x Hx; simpl in Hx; unfold is_u32.
    + apply elem_of_cons in Hx as [->|Hx]; [lia|]. apply (elem_of_replicate_inv _ 14%nat) in Hx. lia.
    + apply (elem_of_replicate_inv _ 110%nat) in Hx. lia.
  - split; try done.
    + intros k b. rewrite lookup_singleton_Some. lia.
    + intros k Hk. destruct (decide (k = 0)) as [->|Hne]; [by rewrite lookup_singleton_eq|].
      rewrite lookup_singleton_ne by done. simpl. replace (Z.to_nat k) with (S (Z.to_nat (k - 1))) by lia.
      apply (lookup_replicate 14). lia.
    + intros _ k Hk. apply lookup_singleton_ne. lia.
  - intros k b. rewrite lookup_singleton_Some. by intros [<- <-].
  - by right.
Qed.

Lemma demo_file_ok : file_ok demo_sect demo_own 3 demo_file ∅.
Proof.
  split; try done.
  - unfold inode_wf; split_and!; try (unfold is_u32, is_u16; simpl; lia); try done; apply Forall_forall; intros x Hx; simpl in Hx; unfold is_u32.
    + apply (elem_of_replicate_inv _ 15%nat) in Hx. lia.
    + apply (elem_of_replicate_inv _ 110%nat) in Hx. lia.
  - split; try done. intros k Hk. rewrite lookup_empty. simpl. by apply demo_direct.
  - by left.
Qed.

Lemma demo_inv : fs_inv demo demo_G demo_own.
Proof.
  split.
  - apply demo_fs_ok.
  - intros b o Ho. assert (0 ≤ b < 5).
    { unfold demo_own in Ho. repeat (rewrite lookup_insert_Some in Ho; destruct Ho as [[<- _]|[_ Ho]]; [lia|]). done. }
    split; [simpl; lia|]. rewrite demo_bits by lia. lia.
  - split; try done.
    + intros j. change (SFS_BITBLOCKS (nblocks demo)) with 1. intros Hj. by replace j with 0 by lia.
    + intros _ j. change (SFS_BITBLOCKS (nblocks demo)) with 1. intros Hj. by replace j with 0 by lia.
  - intros ino nd bm H. destruct (demo_files _ _ _ H) as [(-> & -> & ->)|(-> & -> & ->)]; [apply demo_root_ok|apply demo_file_ok].
  - exists [1; 2]. split; [by split_and!|]. split; [apply (bool_decide_eq_true_1 (NoDup [1; 2])); reflexivity|].
    intros p. split.
    + intros Hp. repeat (apply elem_of_cons in Hp as [->|Hp]; [by eexists|]). by apply elem_of_nil in Hp.
    + intros [v Hv]. destruct (demo_vn p v Hv) as [[-> _]|[-> _]]; [by left|by right; left].
  - intros p v Hv. destruct (demo_vn p v Hv) as [[-> ->]|[-> ->]]; simpl; split_and!; try lia.
    + by right.
    + by eexists.
    + by left.
    + by eexists.
  - intros p q v w Hv Hw. destruct (demo_vn p v Hv) as [[-> ->]|[-> ->]], (demo_vn q w Hw) as [[-> ->]|[-> ->]]; done.
  - intros ino nd bm H. right. by destruct (demo_files _ _ _ H) as [(-> & -> & ->)|(-> & -> & ->)].
Qed.

(** Every block in use is somebody's. *)
Lemma demo_not_lost b : ¬ lost demo demo_G b.
Proof.
  intros (Hb & Hbit & Hno). change (nblocks demo) with 16 in Hb. rewrite demo_bits in Hbit by lia. apply Hno.
  assert (b = 0 ∨ b = 1 ∨ b = 2 ∨ b = 3 ∨ b = 4) as [->|[->|[->|[->| ->]]]] by lia.
  - left. by left.
  - right. by eexists 1, _, _; split; [|left].
  - left. right. by exists 0.
  - right. by eexists 3, _, _; split; [|left].
  - right. exists 1, demo_root, {[0 := 4]}. split; [done|]. right; right. by exists 0.
Qed.

Lemma demo_at_file : at_file demo demo_G demo_own 2 3 demo_filev ∅.
Proof. split; [apply demo_inv|done|done|done]. Qed.

Lemma demo_at_root : at_file demo demo_G demo_own 1 1 demo_rootv {[0 := 4]}.
Proof. split; [apply demo_inv|done|done|done]. Qed.
