(* ===== verification/SfsFiles.v ===== *)
(** Reading and writing files: the theorems, on every mounted SFS volume. *)

From Stdlib Require Import ZArith Lia.
From stdpp Require Import base numbers list option gmap.
From S2P Require Import Prelude Array Bitmap Errm Uio UioProofs Lhd LhdProofs SfsDisk Sfs SfsBlock SfsInv SfsBmap SfsIo SfsSpec SfsTrunc SfsDemo.

Open Scope Z_scope.

Lemma sfs_read_spec p ino s G own v bm u a :
  at_file s G own p ino v bm → uio_ok u → is_read u = true → (uio_resid u = 0 → uio_offset u < max_file) →
  view s G !! ino ≡ Some a → wpe (sfs_read p) (read_post p ino s G a u) (s, u).
Proof.
  intros Haf Hu Hr Hz Ha. unfold sfs_read. estep. cbv beta iota. apply wpe_bind, wpe_assert; [done|].
  by apply (sfs_read_view_spec p ino s G own v bm u a).
Qed.

Lemma sfs_write_spec p ino s G own v bm u a :
  at_file s G own p ino v bm → uio_ok u → is_read u = false → (uio_resid u = 0 → uio_offset u < max_file) →
  view s G !! ino ≡ Some a → wpe (sfs_write p) (write_post p ino s G a u) (s, u).
Proof.
  intros Haf Hu Hr Hz Ha. unfold sfs_write. estep. cbv beta iota. apply wpe_bind, wpe_assert; [by rewrite Hr|].
  by apply (sfs_write_io_spec p ino s G own v bm u a).
Qed.

(** What was written is what is there. *)
Lemma aread_awrite off d n a :
  n = Z.of_nat (length d) → 0 ≤ off → aread off n (awrite off d a) = d.
Proof.
  intros -> Hoff. apply list_eq. intros i. unfold aread. simpl. rewrite list_lookup_fmap.
  assert (avail (Z.max (a_size a) (off + Z.of_nat (length d))) off (Z.of_nat (length d)) = Z.of_nat (length d)) as ->.
  { unfold avail. lia. }
  rewrite Nat2Z.id. destruct (decide (i < length d)%nat) as [Hi|Hi].
  - rewrite lookup_seq_lt by lia. simpl. unfold overlay. rewrite decide_True by lia.
    replace (Z.to_nat _) with i by lia. destruct (lookup_lt_is_Some_2 d i Hi) as [y ->]. done.
  - rewrite lookup_seq_ge, lookup_ge_None_2 by lia. done.
Qed.

(** Nothing can go wrong with a transfer to the kernel's own memory from a
    disk that works. *)
Lemma ended_fine s f u n d u1 r u' :
  is_sys u1 = true → is_read u = true → reads_fine s → uio_offset u + n ≤ max_file →
  ended s f u n d u1 r u' → r = inr tt ∧ Z.of_nat (length d) = n ∧ u' = u1.
Proof.
  intros Hs Hr Hf Hn He. destruct r as [e|[]]; [|by destruct He].
  destruct He as [(_ & [[_ ?]|[(_ & ? & _)|[_ ?]]] & _)|[_ Hfa]]; [lia|congruence|done|].
  exfalso. by apply (sys_no_fault u1 u').
Qed.

(** C16: Reading through a vnode never panics and returns exactly the file's
    bytes: the transfer is a prefix of the file's contents from the uio's
    offset, cut at the end of the file, all of it when the call succeeds; the
    invariant holds afterwards, no file of the volume has changed and no block
    is lost.  It fails only with [EIO] from the disk, [EFAULT] from the user's
    buffer, or [EINVAL] beyond the largest block.  As everywhere in SFS
    ([at_file], [fs_inv], [fsat]) the disk may fail reads, not writes. *)
Theorem sfs_read_correct p ino s G own v bm u a :
  at_file s G own p ino v bm → uio_ok u → is_read u = true → (uio_resid u = 0 → uio_offset u < max_file) →
  view s G !! ino ≡ Some a → wpe (sfs_read p) (read_post p ino s G a u) (s, u).
Proof. apply sfs_read_spec. Qed.

(** C15: Writing through a vnode never panics and writes exactly the bytes
    that left the uio, on a disk that does not fail writes: the abstract file
    becomes the file with those bytes at the offset (and its size raised to
    their end), every other file keeps its contents, size, type and links, the
    invariant is kept and no block is lost, also when the call stops half way
    for want of space, on a fault or because a block cannot be read.  Failed
    writes are excluded ([at_file] has [writes_fine]), because the code takes
    them for successes. *)
Theorem sfs_write_correct p ino s G own v bm u a :
  at_file s G own p ino v bm → uio_ok u → is_read u = false → (uio_resid u = 0 → uio_offset u < max_file) →
  view s G !! ino ≡ Some a → wpe (sfs_write p) (write_post p ino s G a u) (s, u).
Proof. apply sfs_write_spec. Qed.

(** C17: Read after write: when a write succeeds, a read of the same range
    into kernel memory succeeds too, on a disk that fails neither reads nor
    writes, and gets the bytes that were written. *)
Theorem sfs_write_then_read p ino s G own v bm uw ur :
  at_file s G own p ino v bm → uio_ok uw → is_read uw = false → uio_ok ur → is_read ur = true → is_sys ur = true →
  uio_offset ur = uio_offset uw → uio_resid ur = uio_resid uw → 0 < uio_resid uw →
  uio_offset uw + uio_resid uw ≤ max_file → reads_fine s →
  wpe (sfs_write p) (λ r '(s1, _), r = inr tt → ∃ d, uholds uw d ∧ Z.of_nat (length d) = uio_resid uw ∧
    wpe (sfs_read p) (λ r2 '(_, u2), r2 = inr tt ∧ xfer ur d u2) (s1, ur)) (s, uw).
Proof.
  intros Haf Huw Hw Hur Hr Hs Eo Er Hpos Hmax Hfine.
  eapply wpe_mono; [apply (sfs_write_spec p ino s G own v bm uw (view_file (sect s) (sv_i v, bm)) Haf Huw Hw); [lia|by rewrite (view_lookup s G ino _ _ (af_file _ _ _ _ _ _ _ Haf))]|].
  intros r [s1 u1] (G1 & own1 & v1 & bm1 & d & u1' & Haf1 & Hsh & Hx & Hl & Hv & _ & He) ->.
  destruct He as [Hlen _]. exists d. split; [|split; [done|]].
  { destruct Hx as (_ & _ & _ & Hx). rewrite Hw in Hx. apply Hx. }
  pose proof (view_lookup s G ino _ _ (af_file _ _ _ _ _ _ _ Haf)) as Hvi. set (a := view_file _ _) in Hvi.
  assert (view s1 G1 !! ino ≡ Some (awrite (uio_offset uw) d a)) as Ha.
  { rewrite (Hv ino), lookup_alter_eq, Hvi. done. }
  pose proof (uo_off _ Huw). pose proof (aread_awrite (uio_offset uw) d (uio_resid uw) a ltac:(lia) ltac:(lia)) as Erw.
  eapply wpe_mono; [eapply (sfs_read_spec p ino s1 G1 own1 v1 bm1 ur _ Haf1 Hur Hr); [lia|exact Ha]|].
  intros r2 [s2 u2] (G2 & own2 & v2 & bm2 & d2 & u2' & Haf2 & _ & Hx2 & Hpre & _ & _ & He2).
  destruct (xfer_fields _ _ _ Hx2) as (Es2 & _). rewrite Eo, Er, Erw in *.
  rewrite <- (aread_length (uio_offset uw)), Erw in He2.
  apply ended_fine in He2 as (-> & Hl2 & ->); [|congruence|done|by apply (sh_r _ _ Hsh)|lia].
  split; [done|]. assert (d2 = d) as -> by (by apply prefix_length_eq; [|lia]). done.
Qed.

(** C27: Truncating a file never panics, on a disk that does not fail writes:
    it sets the size, keeps the bytes of the blocks that stay, makes the
    others read as zeros, leaves every other file alone and keeps the
    invariant.  The blocks of the file that stay are marked in the free map,
    the others are free again and no block of the volume is lost; the indirect
    block goes with the last block it has.  The blocks that stay are those of
    the new length and, contrary to vnode.h, the one just beyond it when it is
    in the indirect block ([keep]).  When the indirect block cannot be read
    the call fails with [EIO], the direct blocks already gone and the size as
    it was. *)
Theorem sfs_truncate_correct p ino s G own v bm len :
  at_file s G own p ino v bm → 0 ≤ len → len + 512 < 2147483648 →
  wpe (sfs_truncate p len) (trunc_post p ino len s G) s.
Proof. apply sfs_truncate_spec. Qed.

Lemma sfs_truncate_correct_witness : wpe (sfs_truncate 1 0) (trunc_post 1 1 0 demo demo_G) demo.
Proof. apply (sfs_truncate_correct 1 1 demo demo_G demo_own demo_rootv {[0 := 4]}); [apply demo_at_root|lia|lia]. Defined.

Definition demo_buf : list Z := [104; 101; 108; 108; 111].

Lemma demo_uio_ok rw : uio_ok (mk_kuio demo_buf 5 1000 rw).
Proof. apply mk_kuio_ok; try (simpl; lia). by apply bytes_check. Qed.

Lemma sfs_read_correct_witness :
  wpe (sfs_read 2) (read_post 2 3 demo demo_G (view_file demo_sect (demo_file, ∅)) (mk_kuio demo_buf 5 1000 UIO_READ))
    (demo, mk_kuio demo_buf 5 1000 UIO_READ).
Proof.
  apply (sfs_read_correct 2 3 demo demo_G demo_own demo_filev ∅);
    [apply demo_at_file|apply demo_uio_ok|reflexivity|intros H; discriminate H|reflexivity].
Defined.

Lemma sfs_write_correct_witness :
  wpe (sfs_write 2) (write_post 2 3 demo demo_G (view_file demo_sect (demo_file, ∅)) (mk_kuio demo_buf 5 1000 UIO_WRITE)) (demo, mk_kuio demo_buf 5 1000 UIO_WRITE).
Proof.
  apply (sfs_write_correct 2 3 demo demo_G demo_own demo_filev ∅);
    [apply demo_at_file|apply demo_uio_ok|reflexivity|intros H; discriminate H|reflexivity].
Defined.

Lemma sfs_write_then_read_witness :
  wpe (sfs_write 2) (λ r '(s1, _), r = inr tt → ∃ d, uholds (mk_kuio demo_buf 5 1000 UIO_WRITE) d ∧ Z.of_nat (length d) = 5 ∧
    wpe (sfs_read 2) (λ r2 '(_, u2), r2 = inr tt ∧ xfer (mk_kuio demo_buf 5 1000 UIO_READ) d u2)
      (s1, mk_kuio demo_buf 5 1000 UIO_READ)) (demo, mk_kuio demo_buf 5 1000 UIO_WRITE).
Proof.
  apply (sfs_write_then_read 2 3 demo demo_G demo_own demo_filev ∅ (mk_kuio demo_buf 5 1000 UIO_WRITE)
           (mk_kuio demo_buf 5 1000 UIO_READ));
    [apply demo_at_file|apply demo_uio_ok|reflexivity|apply demo_uio_ok|reflexivity..|simpl; lia|discriminate|reflexivity].
Defined.
