(* ===== verification/SfsMount.v ===== *)
(** Syncing and mounting: what is on the disk after a sync is the volume, and
    mounting the disk brings it back. *)

From Stdlib Require Import ZArith Lia.
From stdpp Require Import base numbers list option gmap.
From S2P Require Import Prelude Array Bitmap Errm Uio UioProofs Lhd LhdProofs SfsDisk Sfs SfsBlock SfsInv SfsBmap SfsIo SfsSpec SfsTrunc SfsAbs SfsVnode SfsDir SfsNames SfsNaming SfsVolume.

Open Scope Z_scope.

(** ** Sizes of the free map *)

Lemma bitmapsize_ok n : 0 < n ≤ max_blocks →
  SFS_BITMAPSIZE n = 4096 * SFS_BITBLOCKS n ∧ n ≤ SFS_BITMAPSIZE n ∧ 0 < SFS_BITBLOCKS n ≤ 1024.
Proof.
  unfold max_blocks, SFS_BITBLOCKS, SFS_BITMAPSIZE, SFS_ROUNDUP, SFS_BLOCKBITS. intros Hn.
  pose proof (Z.div_mod (n + 4096 - 1) 4096 ltac:(lia)). pose proof (Z.mod_pos_bound (n + 4096 - 1) 4096 ltac:(lia)).
  rewrite (u32_id (n + 4096 - 1)) by (unfold is_u32; lia). rewrite u32_id by (unfold is_u32; lia).
  rewrite Z.div_mul by lia. lia.
Qed.

Section map.
Context (s : sfs) (Hok : fs_ok s) (Hbits : nbits (sfs_freemap s) = SFS_BITMAPSIZE (nblocks s)).

Lemma map_sizes :
  SFS_BITMAPSIZE (nblocks s) = 4096 * SFS_BITBLOCKS (nblocks s) ∧ 0 < SFS_BITBLOCKS (nblocks s) ≤ 1024 ∧
  Z.of_nat (length (bm_v (sfs_freemap s))) = 512 * SFS_BITBLOCKS (nblocks s).
Proof.
  destruct (fo_nblocks _ Hok). pose proof (do_blocks _ (fo_disk _ Hok)).
  destruct (bitmapsize_ok (nblocks s)) as (E & _ & Hb); [lia|]. split; [done|]. split; [done|].
  destruct (fo_map _ Hok) as (_ & -> & _). rewrite Hbits, E.
  replace (4096 * SFS_BITBLOCKS (nblocks s) + 7) with (7 + 512 * SFS_BITBLOCKS (nblocks s) * 8) by lia.
  rewrite Z.div_add by lia. change (7 / 8) with 0. lia.
Qed.

Lemma map_block_ok j : 0 ≤ j < SFS_BITBLOCKS (nblocks s) →
  length (map_block (sfs_freemap s) j) = 512%nat ∧ bytes (map_block (sfs_freemap s) j) ∧
  bget (bitmap_getdata (sfs_freemap s)) (j * 512) 512 = Ret (map_block (sfs_freemap s) j).
Proof.
  intros Hj. destruct map_sizes as (_ & _ & Hl). unfold map_block. split.
  - rewrite length_take, length_drop. lia.
  - split; [apply Forall_take, Forall_drop, (fo_map _ Hok)|]. unfold bitmap_getdata. rewrite bget_ok by lia. done.
Qed.
End map.

(** ** Sync *)

(** Writing a block of the free map while it is dirty. *)
Lemma inv_map_write s G own b x s' :
  fs_inv s G own → own !! b = Some OSys → b ≠ 0 → sfs_freemapdirty s = true → write_step s b x s' →
  fs_inv s' G own ∧ view s' G ≡ view s G.
Proof.
  intros HI Hb Hnz Hd Hw. pose proof (write_step_fs_ok _ _ _ _ (iv_ok _ _ _ HI) Hw) as Hok'.
  destruct Hw as (d & -> & [D1 D2 D3 D4 D5]). pose proof HI as [I1 I2 I3 I4 I5 I6 I7 I8].
  assert (∀ c, c ≠ b → sect (set_dev d s) c = sect s c) as Hsec by (intros c Hc; simpl; by rewrite D2, decide_False).
  assert (∀ i nd bm, G !! i = Some (nd, bm) → file_ok (sect (set_dev d s)) own i nd bm ∧ ∀ x, fbyte (sect (set_dev d s)) bm x = fbyte (sect s) bm x) as Hf.
  { intros i nd bm Hi. apply (file_ok_frame (sect s) own); [by apply I4|]. intros c o Hc Ho. split; [done|]. intros Hp. apply Hsec.
    intros ->. rewrite Hb in Hc. injection Hc as <-. done. }
  split; [split; try done|].
  - destruct I3 as [Y1 Y2 Y3 Y4 Y5 Y6 Y7]. split; try done; [by rewrite Hsec|]. simpl. congruence.
  - intros i nd bm Hi. by apply Hf.
  - intros i nd bm Hi. destruct (I8 i nd bm Hi) as [?|Hs]; [by left|right]. rewrite Hsec; [done|]. intros ->.
    rewrite (fl_own _ _ _ _ _ (I4 _ _ _ Hi)) in Hb. done.
  - intros i. unfold view. rewrite !lookup_fmap. destruct (G !! i) as [[nd bm]|] eqn:Hi; [|done]. simpl. constructor.
    split_and!; try done. intros y _. apply (proj2 (Hf i nd bm Hi) y).
Qed.

Lemma mapio_write_loop n j s G own :
  fs_inv s G own → sfs_freemapdirty s = true → 0 ≤ j → j + Z.of_nat n = SFS_BITBLOCKS (nblocks s) →
  (∀ i, 0 ≤ i < j → sect s (SFS_MAP_LOCATION + i) = map_block (sfs_freemap s) i) →
  wpe (sfs_mapio_loop n j UIO_WRITE) (λ res s', res = inr tt ∧ fs_inv s' G own ∧ view s' G ≡ view s G ∧ keeps s s' ∧
    (∃ d, s' = set_dev d s) ∧
    ∀ i, 0 ≤ i < SFS_BITBLOCKS (nblocks s) → sect s' (SFS_MAP_LOCATION + i) = map_block (sfs_freemap s) i) s.
Proof.
  revert j s. induction n as [|n IH]; intros j s HI Hd Hj Hn Hdone; cbn [sfs_mapio_loop].
  { apply wpe_ret. split_and!; try done; [by exists (sfs_device s); destruct s|]. intros i Hi. apply Hdone. lia. }
  pose proof (iv_ok _ _ _ HI) as Hok. pose proof (iv_sys _ _ _ HI) as HY. pose proof (sy_own _ _ HY j ltac:(lia)) as Ho.
  destruct (map_block_ok s Hok (sy_bits _ _ HY) j ltac:(lia)) as (Hl & Hby & Hget). destruct (iv_own _ _ _ HI _ _ Ho) as [Hr _].
  apply wpe_bind. unfold sfs_mapblock. estep. apply wpe_bind. eapply wpe_lift; [exact Hget|].
  eapply wpe_mono; [by apply sfs_wblock_spec|]. intros res s1 [-> Hw].
  destruct (inv_map_write s G own _ (map_block (sfs_freemap s) j) s1 HI Ho) as [HI1 Hv1]; [unfold SFS_MAP_LOCATION; lia|done|done|].
  destruct Hw as (d & -> & [D1 D2 D3 D4 D5]). eapply wpe_mono; [apply (IH (j + 1)); simpl; try done; try lia|].
  - intros i Hi. rewrite D2. destruct (decide (SFS_MAP_LOCATION + i = SFS_MAP_LOCATION + j)) as [E|E].
    + by replace i with j by lia.
    + apply Hdone. lia.
  - intros res s2 (-> & HI2 & Hv2 & Hk2 & (d2 & ->) & Hall). split; [done|]. split; [done|]. split; [by rewrite Hv2|]. split; [|split; [|done]].
    + eapply keeps_trans; [|done]. split; [done|exact D4|done].
    + by exists d2.
Qed.

(** Everything in memory is on the disk. *)
Record clean (s : sfs) : Prop := {
  cl_vn : ∀ p v, s_vn s !! p = Some v → sv_dirty v = false;
  cl_map : sfs_freemapdirty s = false
}.

Lemma sync_loop_spec n i s G own ps :
  fs_inv s G own → array_rep (sfs_vnodes s) ps → NoDup ps → (∀ p, p ∈ ps ↔ is_Some (s_vn s !! p)) → (i + n = length ps)%nat →
  (∀ p v, p ∈ take i ps → s_vn s !! p = Some v → sv_dirty v = false) →
  wpe (sfs_sync_loop n (Z.of_nat i)) (λ res s', res = inr tt ∧ fs_inv s' G own ∧ view s' G ≡ view s G ∧ (shape s s' ∧ sfs_freemap s' = sfs_freemap s) ∧
    ∀ p v, s_vn s' !! p = Some v → sv_dirty v = false) s.
Proof.
  revert i s. induction n as [|n IH]; intros i s HI Hrep Hnd Hps Hn Hdone; cbn [sfs_sync_loop].
  { apply wpe_ret. do 3 (split; [done|]). split; [split; [eapply wrote_shape, (quiet_refl s G 0 0)|done]|]. intros p v Hp. eapply Hdone; [|done].
    rewrite take_ge by lia. apply Hps. by eexists. }
  estep. destruct (lookup_lt_is_Some_2 ps i) as [p Hp]; [lia|]. apply wpe_bind. eapply wpe_lift; [by eapply array_getguy_ok|].
  destruct (proj1 (Hps p) ltac:(by eapply list_elem_of_lookup_2)) as [v Hv].
  destruct (at_file_intro _ _ _ _ _ HI Hv) as (bm & Haf). destruct (iv_vn _ _ _ HI p v Hv) as (_ & J1 & J2 & _).
  apply wpe_bind, wpe_attempt. unfold VOP_FSYNC, vop_check. apply wpe_bind, wpe_bind. eapply wpe_getv; [exact Hv|].
  apply wpe_bind, wpe_assert; [lia|]. apply wpe_ret. unfold sfs_fsync. eapply wpe_mono; [by eapply sync_inode_spec|].
  intros res s1 (-> & v1 & Haf1 & Ei & Hsame & [Hcl Evn] & _ & Hv1 & Hsh & Efm). cbv beta iota.
  replace (Z.of_nat i + 1) with (Z.of_nat (S i)) by lia. eapply wpe_mono; [apply IH; try done|].
  - apply Haf1.
  - by rewrite (sh_tab _ _ Hsh).
  - intros q. rewrite Hps, Evn, lookup_insert_is_Some'. split; [by right|]. intros [<-|?]; [by eexists|done].
  - lia.
  - intros q w Hq. rewrite Evn. rewrite (take_S_r _ _ _ Hp) in Hq. destruct (decide (p = q)) as [->|Hne].
    + rewrite lookup_insert_eq. by intros [= <-].
    + rewrite lookup_insert_ne by done. apply elem_of_app in Hq as [Hq| ->%list_elem_of_singleton]; [|done]. by apply Hdone.
  - intros res s2 (-> & HI2 & Hv2 & [Hsh2 Efm2] & Hall). split; [done|]. split; [done|]. split; [by rewrite Hv2|].
    split; [split; [by eapply shape_trans|congruence]|done].
Qed.

Lemma inv_map_clean s G own :
  fs_inv s G own →
  (∀ i, 0 ≤ i < SFS_BITBLOCKS (nblocks s) → sect s (SFS_MAP_LOCATION + i) = map_block (sfs_freemap s) i) →
  fs_inv (set_freemap (sfs_freemap s) false s) G own.
Proof.
  intros [I1 I2 [Y1 Y2 Y3 Y4 Y5 Y6 Y7] I4 I5 I6 I7 I8] H. split; try done. by destruct I1.
Qed.

(** After a sync everything is on the disk, and nothing has changed. *)
Lemma sfs_sync_spec {t : Prop} s V R :
  fsat t s V R → wpe sfs_sync (λ res s', res = inr tt ∧ keeps s s' ∧ fsat t s' V R ∧ clean s') s.
Proof.
  intros (G & own & HI & Hv & HR & Ht). destruct (iv_tab _ _ _ HI) as (ps & Hrep & Hnd & Hps). unfold sfs_sync. estep.
  assert (Z.to_nat (array_getnum (sfs_vnodes s)) = length ps) as ->.
  { unfold array_getnum. destruct Hrep as (-> & _). lia. }
  apply wpe_bind. eapply wpe_mono; [apply (sync_loop_spec _ 0 s G own ps); try done|].
  { intros p v Hp. by apply not_elem_of_nil in Hp. }
  intros res s1 (-> & HI1 & Hv1 & [Hsh Efm] & Hcl). estep. pose proof (iv_sys _ _ _ HI1) as HY. pose proof (shape_keeps _ _ Hsh) as Hk.
  assert (vrefs s1 = R) as HR1 by (by rewrite (shape_vrefs _ _ Hsh)).
  apply wpe_bind. destruct (sfs_freemapdirty s1) eqn:Ed.
  - apply wpe_bind. unfold sfs_mapio. estep. destruct (map_sizes s1 (iv_ok _ _ _ HI1) (sy_bits _ _ HY)) as (_ & Hb & _).
    eapply wpe_mono; [apply (mapio_write_loop _ 0 s1 G own HI1 Ed); lia|].
    intros res s2 (-> & HI2 & Hv2 & Hk2 & (d & ->) & Hall). estep. estep.
    cbn [sfs_superdirty set_freemap set_dev]. rewrite (sy_clean _ _ HY). apply wpe_ret.
    split; [done|]. split; [eapply keeps_trans; [done|]; destruct Hk2; by split|]. split; [|by split].
    apply (fsat_same s _ _ _ G own); try done; [by apply (inv_map_clean (set_dev d s1))| |eapply keeps_trans; [done|]; destruct Hk2; by split]. rewrite <- Hv, <- Hv1, <- Hv2. done.
  - apply wpe_ret. estep. rewrite (sy_clean _ _ HY). apply wpe_ret. split; [done|]. split; [done|].
    split; [|by split]. apply (fsat_same s _ _ _ G own); try done. by rewrite Hv1.
Qed.

(** ** Mounting *)

(** A file system just mounted. *)
Definition mounted (d : disk) (sb : sfs_super) (fm : bitmap) (n : Z) (o : oracle) : sfs :=
  mkSfs sb false d (mkArray 0 0 None) fm false ∅ n o.

(** The disk holds a volume with superblock [sb] and free map [fm]. *)
Definition image (d : disk) (sb : sfs_super) (fm : bitmap) (G : files) (own : gmap Z owner) : Prop :=
  fs_inv (mounted d sb fm 1 []) G own.

Lemma image_mounted d sb fm G own n o : image d sb fm G own → fs_inv (mounted d sb fm n o) G own.
Proof. intros [I1 I2 I3 I4 I5 I6 I7 I8]. split; try done; [by destruct I1|by destruct I3]. Qed.

Lemma image_dev d d' sb fm G own : image d sb fm G own → dev_same d d' → image d' sb fm G own ∧ view (mounted d' sb fm 1 []) G ≡ view (mounted d sb fm 1 []) G.
Proof.
  intros HI Hd. destruct (inv_read _ G own (mounted d' sb fm 1 []) HI) as [HI' Hq]; [by exists d'|]. split; [done|]. by apply quiet_view.
Qed.

(** A clean file system leaves its volume on the disk. *)
Lemma clean_image s G own :
  fs_inv s G own → clean s → image (sfs_device s) (sfs_sb s) (sfs_freemap s) G own.
Proof.
  intros [I1 I2 [Y1 Y2 Y3 Y4 Y5 Y6 Y7] I4 I5 I6 I7 I8] [Hc Hm]. split; try done.
  - by destruct I1.
  - split; try done. intros _. by apply Y7.
  - exists []. split; [apply array_rep_nil|]. split; [apply NoDup_nil_2|]. intros p. split; [intros H; by apply not_elem_of_nil in H|by intros []].
  - intros ino nd bm Hi. right. destruct (I8 ino nd bm Hi) as [(p & v & Hp & _ & Hd)|?]; [|done]. rewrite (Hc p v Hp) in Hd. done.
Qed.

Lemma take_map_block fm j :
  0 ≤ j → take (Z.to_nat (512 * (j + 1))) (bm_v fm) = take (Z.to_nat (512 * j)) (bm_v fm) ++ map_block fm j.
Proof.
  intros Hj. unfold map_block. replace (Z.to_nat (512 * (j + 1))) with (Z.to_nat (512 * j) + 512)%nat by lia.
  rewrite (Z.mul_comm j 512). symmetry. apply take_take_drop.
Qed.

Section read_map.
Context (fm : bitmap) (b0 : list Z) (nb N : Z).
Context (Hlen : Z.of_nat (length (bm_v fm)) = 512 * N) (Hb0 : length b0 = length (bm_v fm)) (Hby : bytes (bm_v fm)) (Hby0 : bytes b0).

Lemma mapio_read_loop n j s :
  disk_ok (sfs_device s) → 0 ≤ j → j + Z.of_nat n = N → SFS_MAP_LOCATION + N ≤ d_blocks (sfs_device s) →
  (∀ i, 0 ≤ i < N → sect s (SFS_MAP_LOCATION + i) = map_block fm i) →
  sfs_freemap s = mkBitmap nb (splice b0 0 (take (Z.to_nat (512 * j)) (bm_v fm))) →
  wpe (sfs_mapio_loop n j UIO_READ) (λ res s', (∃ d, dev_same (sfs_device s) d ∧
      (res = inr tt ∧ s' = set_freemap (mkBitmap nb (bm_v fm)) (sfs_freemapdirty s) (set_dev d s) ∨
       res = inl EIO ∧ ¬ reads_fine s))) s.
Proof.
  revert j s. induction n as [|n IH]; intros j s Hd Hj Hn Hr Hsec Hfm; cbn [sfs_mapio_loop].
  { apply wpe_ret. exists (sfs_device s). split; [by apply dev_same_refl|]. left. split; [done|].
    rewrite take_ge, splice_all in Hfm by lia. rewrite <- Hfm. by destruct s. }
  set (b := splice b0 0 _) in Hfm.
  assert (length b = length (bm_v fm)) as Hlb by (unfold b; rewrite splice_length; [done|]; rewrite length_take; lia).
  assert (length (map_block fm j) = 512%nat) as Hl1 by (unfold map_block; rewrite length_take, length_drop; lia).
  apply wpe_bind. unfold sfs_mapblock, SFS_BLOCKSIZE, bitmap_getdata. estep. rewrite Hfm. cbn [bm_v].
  apply wpe_bind. eapply wpe_lift; [apply bget_ok; lia|]. apply wpe_bind. unfold SFS_MAP_LOCATION in *.
  eapply wpe_mono; [apply (rblock_dev s _ (2 + j)); [done|lia|rewrite length_take, length_drop; lia|]|].
  { apply Forall_take, Forall_drop. unfold b. by apply splice_bytes, Forall_take. }
  intros r s1 [(d & -> & Hd1) [-> |[-> Hne]]]; [|exists d; split; [done|right; done]].
  rewrite Hsec by lia. apply wpe_bind. eapply wpe_lift; [apply bput_ok; lia|]. apply wpe_mod. pose proof Hd1 as [D1 D2 D3 D4 D5].
  simpl. eapply wpe_mono; [apply (IH (j + 1)); simpl; try done; try lia|].
  - intros i Hi. rewrite D2. by apply Hsec.
  - rewrite Hfm. simpl. f_equal. rewrite take_map_block by done. unfold b.
    replace (Z.to_nat (j * 512)) with (0 + length (take (Z.to_nat (512 * j)) (bm_v fm)))%nat by (rewrite length_take; lia).
    apply splice_app. rewrite length_take. lia.
  - intros r s2 (d2 & Hd2 & Hc). exists d2. split; [by eapply dev_same_trans|]. simpl in Hd2.
    destruct Hc as [[-> ->]|[-> Hn2]]; [by left|right]. split; [done|]. unfold reads_fine in *. simpl in Hn2. intros E. apply Hn2. by apply D4.
Qed.
End read_map.

Lemma array_create_cases {A} o : ∃ o', (@array_create A o = (Some (mkArray 0 0 None), o') ∧ (o = [] → o' = [])) ∨ @array_create A o = (None, o') ∧ o ≠ [].
Proof. unfold array_create. destruct o as [|[] o]; simpl; [exists []; by left|exists o; by left|exists o; by right]. Qed.

(** Reading the free map into the bitmap just created. *)
Lemma mapio_read_spec d sb fm G own n o fm0 :
  image d sb fm G own → bitmap_wf fm0 → nbits fm0 = nbits fm →
  wpe (sfs_mapio UIO_READ) (λ res s',
    (res = inr tt ∧ ∃ d', s' = mounted d' sb fm n o ∧ dev_same d d') ∨ (res = inl EIO ∧ d_rstat d ≠ []))
    (mounted d sb fm0 n o).
Proof.
  intros HI Hwf0 Hn0. pose proof (iv_ok _ _ _ HI) as Hok. pose proof (iv_sys _ _ _ HI) as HY.
  destruct (map_sizes _ Hok (sy_bits _ _ HY)) as (E & Hb & Hl). simpl in Hl, E, Hb. set (N := SFS_BITBLOCKS _) in *.
  destruct (iv_own _ _ _ HI _ _ (sy_own _ _ HY (N - 1) ltac:(simpl; lia))) as [Hr _].
  destruct (fo_map _ Hok) as (_ & Hl1 & Hby & _). destruct Hwf0 as (_ & Hl0 & Hby0 & _). simpl in Hl1, Hby.
  assert (length (bm_v fm0) = length (bm_v fm)) as Hll by (apply Nat2Z.inj; congruence).
  pose proof (fo_nblocks _ Hok) as Hnb. simpl in Hnb, Hr. unfold sfs_mapio. estep. cbn [sfs_sb mounted]. fold N.
  eapply wpe_mono; [apply (mapio_read_loop fm (bm_v fm0) (nbits fm0) N Hl Hll Hby Hby0 _ 0); simpl; try done; try lia|].
  - apply (fo_disk _ Hok).
  - intros i Hi. by apply (sy_map _ _ HY).
  - rewrite splice_nil. by destruct fm0.
  - intros res s' (d' & Hd & [[-> ->]|[-> Hne]]); [left|right; done]. split; [done|]. exists d'. split; [|done].
    rewrite Hn0. by destruct fm.
Qed.

Lemma sfs_domount_spec d sb fm G own o :
  image d sb fm G own →
  wpe (sfs_domount 512) (λ res s',
    (res = inr tt ∧ ∃ d' n o', s' = mounted d' sb fm n o' ∧ dev_same d d' ∧ (o = [] → o' = [])) ∨
    (res = inl ENOMEM ∧ o ≠ [] ∨ res = inl EIO ∧ d_rstat d ≠ [])) (sfs_blank d o).
Proof.
  intros HI. pose proof (iv_ok _ _ _ HI) as Hok. pose proof (iv_sys _ _ _ HI) as HY.
  pose proof (fo_nblocks _ Hok) as Hnb. pose proof (do_blocks _ (fo_disk _ Hok)) as Hdb. simpl in Hnb, Hdb.
  unfold sfs_domount. cbn [Z.eqb negb SFS_BLOCKSIZE Pos.eqb]. apply wpe_bind. eapply wpe_mono; [apply kmalloc_spec|].
  intros r s1 (q & -> & (n1 & o1 & _ & Ho1 & ->) & Hq). simpl in Ho1, Hq. destruct q as [q|]; [|apply wpe_raise; right; left; destruct Hq as [[_ ?]|[? _]]; done]. estep. cbn [s_orc set_sorc].
  destruct (array_create_cases (A := Z) o1) as [o2 [[Ea Ho2]|[Ea Hne]]]; rewrite Ea; [|estep; right; left; split; [done|]; intros Ho; by apply Hne, Ho1].
  estep. apply wpe_bind. eapply wpe_mono; [apply rblock_dev; [exact (fo_disk _ Hok)|simpl; unfold SFS_SB_LOCATION; lia|apply zeros_ok..]|].
  intros r s2 [(d2 & -> & Hd2) [-> |[-> Hne]]]; [|by right; right].
  pose proof (sy_super _ _ HY) as Esb. pose proof (sy_magic _ _ HY) as Em. simpl in Esb, Em. unfold SFS_SB_LOCATION. cbn [d_sect sfs_device set_sorc set_vtab sfs_blank].
  assert (sp_magic (dec_super (d_sect d 0)) = SFS_MAGIC) as Em' by (rewrite <- Em, <- Esb; done).
  unfold mounted_super in Esb. cbv zeta in Esb. rewrite Esb, (proj2 (Z.eqb_eq _ _) Em'). cbn [negb]. estep. estep.
  destruct (bitmapsize_ok (sp_nblocks sb)) as (E1 & E2 & E3); [lia|].
  assert (0 ≤ SFS_BITMAPSIZE (sp_nblocks sb) < bitmap_lim) as Hlim by (unfold bitmap_lim; lia).
  destruct (bitmap_create_ok o2 _ Hlim) as [(fm0 & o3 & Ec & Hwf & Hn & _)|(Hne & o3 & Ec)]; (apply wpe_bind; eapply wpe_lift; [exact Ec|]); cbv beta iota; estep.
  2:{ right; left. split; [done|]. intros Ho. by apply Hne, Ho2, Ho1. }
  estep. apply wpe_bind.
  assert (image d2 sb fm G own) as HI2 by (by eapply (image_dev d)).
  eapply wpe_mono; [apply (mapio_read_spec d2 sb fm G own n1 o3 fm0 HI2 Hwf)|].
  { rewrite Hn. symmetry. apply (sy_bits _ _ HY). }
  intros res s3 [(-> & d' & -> & Hd)|[-> Hne]].
  - apply wpe_mod. left. split; [done|]. exists d', n1, o3. split; [done|]. split; [by eapply dev_same_trans|]. intros Ho. rewrite (Ho2 (Ho1 Ho)) in Ec. by eapply bitmap_create_plenty.
  - right; right. split; [done|]. intros H. apply Hne. by apply (ds_r _ _ Hd2).
Qed.

(** The volume as mounted from its image. *)
Lemma image_fsat {t : Prop} d sb fm G own n o V :
  image d sb fm G own → view (mounted d sb fm 1 []) G ≡ V → (t → tight (mounted d sb fm 1 []) G) → fsat t (mounted d sb fm n o) V ∅.
Proof. intros HI Hv Ht. exists G, own. split; [by apply image_mounted|]. split; [done|]. split; [done|]. exact Ht. Qed.

Lemma sfs_remount_spec {t : Prop} s V R o :
  fsat t s V R → clean s →
  wpe (sfs_domount 512) (λ res s',
    (res = inr tt ∧ sfs_sb s' = sfs_sb s ∧ fsat t s' V ∅) ∨ (res = inl ENOMEM ∧ o ≠ [] ∨ res = inl EIO ∧ ¬ reads_fine s))
    (sfs_blank (sfs_device s) o).
Proof.
  intros (G & own & HI & Hv & _ & Ht) Hc. pose proof (clean_image s G own HI Hc) as Him.
  eapply wpe_mono; [exact (sfs_domount_spec _ _ _ _ _ o Him)|].
  intros res s' [(-> & d' & n & o' & -> & Hd & _)|Hc']; [left|by right]. split; [done|]. split; [done|].
  destruct (image_dev _ _ _ _ _ _ Him Hd) as [Him' Hv']. eapply image_fsat; [done|by rewrite Hv'|exact Ht].
Qed.
