(* ===== verification/SfsTheorems.v ===== *)
(** The file system as a whole: the theorems on names and on sequences of
    operations, with the small volume as their instance. *)

From Stdlib Require Import ZArith Lia.
From stdpp Require Import base numbers list option gmap.
From S2P Require Import Prelude Array Bitmap Errm Uio UioProofs Lhd LhdProofs SfsDisk Sfs SfsBlock SfsInv SfsBmap SfsIo SfsSpec SfsTrunc SfsAbs SfsVnode SfsDir SfsNames SfsNaming SfsVolume SfsMount SfsDemo.

Open Scope Z_scope.

(** ** The small volume *)

Definition demo_a : afile := view_file demo_sect (demo_root, {[0 := 4]}).
Definition demo_V : gmap Z afile := view demo demo_G.
Definition demo_R : gmap Z vref := vrefs demo.

Lemma demo_fsat : fsat True demo demo_V demo_R.
Proof. exists demo_G, demo_own. split; [apply demo_inv|]. split; [done|]. split; [done|]. intros _ b. apply demo_not_lost. Qed.

Lemma demo_plenty : True → plenty demo.
Proof. done. Qed.

Lemma demo_slot i : 0 ≤ i < slots demo_a → i = 0.
Proof. change (slots demo_a) with 1. lia. Qed.

Lemma demo_dir : dir_ok demo_a.
Proof.
  split; [done|done|unfold max_file; simpl; lia|]. intros n i1 i2 s1 s2 [H1 _ _ _] [H2 _ _ _].
  apply demo_slot in H1, H2. congruence.
Qed.

Lemma demo_entry_ino : sfd_ino (dslot demo_a 0) = 3.
Proof. vm_compute. reflexivity. Qed.

Lemma demo_nrefs : nrefs demo_a 3 = 1.
Proof. vm_compute. reflexivity. Qed.

Lemma demo_ns : ns_ok demo_V demo_a.
Proof.
  split; [done|apply demo_dir|done| | |done].
  - intros i b Hi Hne. unfold demo_V, view in Hi. rewrite lookup_fmap in Hi.
    destruct (demo_G !! i) as [[nd bm]|] eqn:E; [|done]. injection Hi as <-.
    destruct (demo_files _ _ _ E) as [(-> & -> & ->)|(-> & -> & ->)]; [done|]. split; [done|].
    rewrite demo_nrefs, decide_False by done. done.
  - intros n i j [H1 H2 _ _]. apply demo_slot in H1 as ->. rewrite demo_entry_ino in H2. subst i. split; [done|]. by eexists.
Qed.

Lemma demo_uncounted : uncounted demo_R.
Proof.
  intros q r Hq. unfold demo_R, vrefs in Hq. rewrite lookup_fmap in Hq. destruct (s_vn demo !! q) as [v|] eqn:E; [|done].
  injection Hq as <-. destruct (demo_vn _ _ E) as [[_ ->]|[_ ->]]; simpl; lia.
Qed.

Lemma demo_vol : vol_ok 1 demo_V demo_R.
Proof. exists (VRef 1 1 0), demo_a. split; [done|]. split; [done|]. apply demo_ns. Qed.

Definition name_f : list Z := [102].
Definition name_g : list Z := [103].

Lemma name_g_ok : name_ok name_g.
Proof. repeat constructor; lia. Qed.

(** ** Theorems *)

(** C21: The file system implements the abstract volume, on a disk that does
    not fail writes ([fsat] has [writes_fine]).  Any sequence of lookups,
    creations, links, removals, renames, reads, writes, truncations and
    releases that is [allowed], run on a state that represents an abstract
    volume, returns without a panic; every answer is one the abstract volume
    can give, and the final state represents the abstract volume after those
    answers, with the name space consistent (every entry names a file, link
    counts are the numbers of names) and the on-disk structures sound.  If no
    block was lost, none is ([t]; creating files must then not meet a failed
    read or a want of memory, which can leave a block behind).  Allowed are
    calls on files in use, with names that are strings and offsets that fit
    their type, links and releases of files other than the root, and renames
    only on disks that do not fail reads either: otherwise the undo of
    [sfs_rename] can panic. *)
Theorem sfs_refines_volume (t : Prop) s p V R ops :
  fsat t s V R → (t → plenty s) → vol_ok p V R → allowed_all (reads_fine s) V R ops →
  wpe (exec_all p ops) (λ res s', ∃ rs V' R', res = inr rs ∧ vsteps (reads_fine s) V R ops rs V' R' ∧
    vol_ok p V' R' ∧ fsat t s' V' R') s.
Proof. apply exec_all_steps, keeps_refl. Qed.

Lemma picked_uncounted R q ino R' n : (∀ q r, R !! q = Some r → r_count r ≤ n) → 0 ≤ n → picked R q ino R' → ∀ q r, R' !! q = Some r → r_count r ≤ n + 1.
Proof.
  intros HR Hn (c & oc & -> & Hc) q' r' Hq. apply lookup_insert_Some in Hq as [[_ <-]|[_ Hq]]; [|pose proof (HR _ _ Hq); lia].
  simpl. destruct Hc as [Hc|(_ & -> & _)]; [|lia]. apply HR in Hc. simpl in Hc. lia.
Qed.

Lemma demo_refs_count q r : demo_R !! q = Some r → r_count r ≤ 1.
Proof.
  intros Hq. unfold demo_R, vrefs in Hq. rewrite lookup_fmap in Hq. destruct (s_vn demo !! q) as [v|] eqn:E; [|done].
  injection Hq as <-. destruct (demo_vn _ _ E) as [[_ ->]|[_ ->]]; simpl; lia.
Qed.

Lemma sfs_refines_volume_witness :
  wpe (exec_all 1 [OLookup name_f; OCreat name_g true]) (λ res s', ∃ rs V' R', res = inr rs ∧
    vsteps (reads_fine demo) demo_V demo_R [OLookup name_f; OCreat name_g true] rs V' R' ∧ vol_ok 1 V' R' ∧ fsat True s' V' R') demo.
Proof.
  apply (sfs_refines_volume True demo 1 demo_V demo_R [OLookup name_f; OCreat name_g true] demo_fsat demo_plenty demo_vol).
  split; [split; [apply demo_uncounted|done]|]. intros res V1 R1 (a & _ & H). split; [|done]. split; [|apply name_g_ok].
  destruct res as [e|[|q|d]]; try done.
  - destruct H as [_ ->]. apply demo_uncounted.
  - destruct H as (_ & ino & _ & Hpk). intros q' r' Hq'. pose proof (picked_uncounted _ _ _ _ 1 demo_refs_count ltac:(lia) Hpk _ _ Hq'). lia.
Defined.

(** C23: Creating a file never panics, on a disk that does not fail writes.
    It returns a counted reference either to the existing file of that name
    (only when exclusive creation was not asked for) or to a new empty file
    with exactly one link, and then the names of the volume are the old ones
    and the new one, every other file is as it was and the link counts still
    match.  It fails with [EEXIST], [ENAMETOOLONG], [ENOSPC], [EINVAL]
    (directory full), [ENOMEM] or [EIO] for exactly the stated reasons,
    leaving files and references unchanged, except that a disk that cannot
    read may leave the new file behind, without a name and in use. *)
Theorem sfs_creat_correct (t : Prop) s V R p r a name excl :
  R !! p = Some r → r_ino r = ROOT → ns_ok V a → uncounted R → fsat t s V R → (t → plenty s) → name_ok name →
  wpe (sfs_creat p name excl) (λ res s', keeps s s' ∧
    ((∃ q ino V' R', res = inr q ∧ picked R q ino R' ∧ fsat t s' V' R' ∧
        (excl = false ∧ names a name ino ∧ V' = V ∨ created V a name ino V')) ∨
     (∃ e V' R', res = inl e ∧ creat_error a s name excl e ∧ not_created V R (reads_fine s) V' R' ∧ fsat t s' V' R'))) s.
Proof. intros Hp Hr Hns Hun HS Ht Hn. by eapply (sfs_creat_spec (t := t)). Qed.

Lemma sfs_creat_correct_witness :
  wpe (sfs_creat 1 name_g true) (λ res s', keeps demo s' ∧
    ((∃ q ino V' R', res = inr q ∧ picked demo_R q ino R' ∧ fsat True s' V' R' ∧
        (true = false ∧ names demo_a name_g ino ∧ V' = demo_V ∨ created demo_V demo_a name_g ino V')) ∨
     (∃ e V' R', res = inl e ∧ creat_error demo_a demo name_g true e ∧ not_created demo_V demo_R (reads_fine demo) V' R' ∧ fsat True s' V' R'))) demo.
Proof.
  apply (sfs_creat_correct True demo demo_V demo_R 1 (VRef 1 1 0) demo_a name_g true);
    [reflexivity|reflexivity|apply demo_ns|apply demo_uncounted|apply demo_fsat|apply demo_plenty|apply name_g_ok].
Defined.

(** C24: Removing a name never panics, on a disk that does not fail writes.
    On success exactly that name is gone; the file it named loses one link,
    and if that was its last link and no vnode of it is in use, it is deleted
    and its blocks are free again: if no block was lost, none is ([t]).  An
    open file stays readable until it is released.  The one exception is a
    disk that fails reads: the file whose last name is gone may then stay,
    without a name and with its vnode still referenced.  The call fails only
    because there is no such name, for want of memory or on a disk error,
    leaving everything as it was. *)
Theorem sfs_remove_correct (t : Prop) s V R p r a name :
  R !! p = Some r → r_ino r = ROOT → ns_ok V a → uncounted R → fsat t s V R →
  wpe (sfs_remove p name) (λ res s', keeps s s' ∧
    ((res = inr tt ∧ ∃ V' R', removed V R a (reads_fine s) name V' R' ∧ fsat t s' V' R') ∨
     (∃ e, res = inl e ∧ look_error a s name e ∧ fsat t s' V R))) s.
Proof. intros Hp Hr Hns Hun HS. by eapply (sfs_remove_spec (t := t)). Qed.

Lemma sfs_remove_correct_witness :
  wpe (sfs_remove 1 name_f) (λ res s', keeps demo s' ∧
    ((res = inr tt ∧ ∃ V' R', removed demo_V demo_R demo_a (reads_fine demo) name_f V' R' ∧ fsat True s' V' R') ∨
     (∃ e, res = inl e ∧ look_error demo_a demo name_f e ∧ fsat True s' demo_V demo_R))) demo.
Proof.
  apply (sfs_remove_correct True demo demo_V demo_R 1 (VRef 1 1 0) demo_a name_f);
    [reflexivity|reflexivity|apply demo_ns|apply demo_uncounted|apply demo_fsat].
Defined.

(** C25: Renaming on a disk that fails neither reads nor writes never panics,
    so that its undo path and the panic in it are not reached.  On success the
    file has the new name in place of the old one, with its link count,
    contents and references as before, and no other name has changed; the new
    name was not in use.  On failure everything is as it was. *)
Theorem sfs_rename_correct (t : Prop) s V R p r a n1 n2 :
  R !! p = Some r → r_ino r = ROOT → ns_ok V a → uncounted R → fsat t s V R → reads_fine s → name_ok n2 →
  wpe (sfs_rename p n1 p n2) (λ res s', keeps s s' ∧
    ((res = inr tt ∧ ∃ V', renamed V a n1 n2 V' ∧ fsat t s' V' R) ∨
     (∃ e, res = inl e ∧ (look_error a s n1 e ∨ link_error a s n2 e) ∧ fsat t s' V R))) s.
Proof. intros Hp Hr Hns Hun HS Hf Hn. by eapply sfs_rename_spec. Qed.

Lemma sfs_rename_correct_witness :
  wpe (sfs_rename 1 name_f 1 name_g) (λ res s', keeps demo s' ∧
    ((res = inr tt ∧ ∃ V', renamed demo_V demo_a name_f name_g V' ∧ fsat True s' V' demo_R) ∨
     (∃ e, res = inl e ∧ (look_error demo_a demo name_f e ∨ link_error demo_a demo name_g e) ∧ fsat True s' demo_V demo_R))) demo.
Proof.
  apply (sfs_rename_correct True demo demo_V demo_R 1 (VRef 1 1 0) demo_a name_f name_g);
    [reflexivity|reflexivity|apply demo_ns|apply demo_uncounted|apply demo_fsat|reflexivity|apply name_g_ok].
Defined.

(** C22: A synced volume survives, on a disk that does not fail writes.
    [sfs_sync] succeeds, changes nothing that can be seen, and leaves the disk
    such that mounting it afresh, with every vnode forgotten, yields the same
    superblock and exactly the same files and contents, with no block lost if
    none was; the mount can only fail for want of memory or because the disk
    cannot be read. *)
Theorem sfs_sync_durable (t : Prop) s V R :
  fsat t s V R →
  wpe sfs_sync (λ res s', res = inr tt ∧ fsat t s' V R ∧
    ∀ o, wpe (sfs_domount 512) (λ res s2,
      (res = inr tt ∧ sfs_sb s2 = sfs_sb s ∧ fsat t s2 V ∅) ∨ (res = inl ENOMEM ∧ o ≠ [] ∨ res = inl EIO ∧ ¬ reads_fine s))
      (sfs_blank (sfs_device s') o)) s.
Proof.
  intros HS. eapply wpe_mono; [exact (sfs_sync_spec s V R HS)|]. intros res s' (-> & Hk & HS' & Hc). split; [done|]. split; [done|].
  intros o. eapply wpe_mono; [by eapply sfs_remount_spec|]. intros res s2 [(-> & Esb & HS2)|Hf].
  - left. split; [done|]. split; [|done]. rewrite Esb. apply Hk.
  - right. destruct Hf as [?|[? Hn]]; [by left|right]. split; [done|]. by eapply keeps_noread.
Qed.

Lemma sfs_sync_durable_witness :
  wpe sfs_sync (λ res s', res = inr tt ∧ fsat True s' demo_V demo_R ∧
    ∀ o, wpe (sfs_domount 512) (λ res s2,
      (res = inr tt ∧ sfs_sb s2 = sfs_sb demo ∧ fsat True s2 demo_V ∅) ∨ (res = inl ENOMEM ∧ o ≠ [] ∨ res = inl EIO ∧ ¬ reads_fine demo))
      (sfs_blank (sfs_device s') o)) demo.
Proof. apply (sfs_sync_durable True demo demo_V demo_R). apply demo_fsat. Defined.
