(* ===== verification/Mksfs.v ===== *)
(** mksfs (sbin/mksfs): making an empty volume on a disk image, with the
    program's buffer and the loop around [write] in diskwrite.  An exit
    status is an error value. *)

From Stdlib Require Import ZArith Lia.
From stdpp Require Import base numbers list option gmap.
From S2P Require Import Prelude Array Bitmap Errm LibcProofs Uio UioProofs Lhd LhdProofs SfsDisk Sfs SfsBlock SfsInv SfsBmap SfsIo SfsSpec SfsTrunc SfsAbs SfsVnode SfsDir SfsNames SfsMount.

Open Scope Z_scope.

(** ** The program *)

Definition MAXBITBLOCKS : Z := 32.

(** What a call of [write] does: write so many bytes (as many as are asked
    for at most), be interrupted, or fail.  After the listed calls every
    [write] is complete. *)
Inductive wout := WDone (n : nat) | WIntr | WFail.

Record mkst := MkSt {
  mk_file : list Z;
  mk_out : list wout;
  mk_bits : list Z
}.

Definition set_file (f : list Z) (o : list wout) (s : mkst) : mkst := MkSt f o (mk_bits s).
Definition set_bits (b : list Z) (s : mkst) : mkst := MkSt (mk_file s) (mk_out s) b.

(** Writing bytes into the file at [pos]. *)
Definition put (o : list wout) (pos : Z) (d : list Z) : EM mkst unit :=
  s ← eget;
  f ← lift (bput (mk_file s) pos d);
  emod (set_file f o).

Fixpoint diskwrite_loop (outs : list wout) (data : list Z) (pos tot : Z) : EM mkst unit :=
  if negb (tot <? 512) then mret tt else
  match outs with
  | [] => put [] (pos + tot) (drop (Z.to_nat tot) data)
  | WIntr :: outs' => _ ← emod (λ s, set_file (mk_file s) outs' s); diskwrite_loop outs' data pos tot
  | WFail :: _ => raise 1
  | WDone n :: outs' =>
      let len := Z.min (Z.of_nat n) (512 - tot) in
      if len =? 0 then raise 1 else
      _ ← put outs' (pos + tot) (take (Z.to_nat len) (drop (Z.to_nat tot) data));
      diskwrite_loop outs' data pos (tot + len)
  end.

Definition diskwrite (data : list Z) (block : Z) : EM mkst unit :=
  let pos := s32 (u32 (block * 512)) in
  if pos <? 0 then raise 1 else
  s ← eget;
  diskwrite_loop (mk_out s) data pos 0.

Definition writesuper (volname : list Z) (nblocks : Z) : EM mkst unit :=
  if (SFS_VOLNAME_SIZE <=? length volname)%nat then raise 1 else
  diskwrite (enc_super (mkSuper SFS_MAGIC nblocks (volname ++ replicate (SFS_VOLNAME_SIZE - length volname) 0) (replicate 118 0)))
    SFS_SB_LOCATION.

Definition writerootdir : EM mkst unit :=
  diskwrite (enc_inode (mkInode 0 SFS_TYPE_DIR 1 (replicate 15 0) 0 (replicate 110 0))) SFS_ROOT_LOCATION.

Definition doallocbit (bit : Z) : EM mkst unit :=
  s ← eget;
  let byte := bit / 8 in
  let mask := u8 (Z.shiftl 1 (bit mod 8)) in
  w ← lift (load (mk_bits s) byte);
  _ ← eassert (Z.land w mask =? 0);
  b ← lift (store (mk_bits s) byte (u8 (Z.lor w mask)));
  emod (set_bits b).

Fixpoint doallocbits (n : nat) (i : Z) : EM mkst unit :=
  match n with
  | O => mret tt
  | S n' => _ ← doallocbit i; doallocbits n' (i + 1)
  end.

Fixpoint writemap (n : nat) (i : Z) : EM mkst unit :=
  match n with
  | O => mret tt
  | S n' =>
      s ← eget;
      ptr ← lift (bget (mk_bits s) (i * SFS_BLOCKSIZE) SFS_BLOCKSIZE);
      _ ← diskwrite ptr (SFS_MAP_LOCATION + i);
      writemap n' (i + 1)
  end.

Definition writebitmap (fsblocks : Z) : EM mkst unit :=
  let nbits := SFS_BITMAPSIZE fsblocks in
  let nblocks := SFS_BITBLOCKS fsblocks in
  if MAXBITBLOCKS <? nblocks then raise 1 else
  _ ← doallocbit SFS_SB_LOCATION;
  _ ← doallocbit SFS_ROOT_LOCATION;
  _ ← doallocbits (Z.to_nat nblocks) SFS_MAP_LOCATION;
  _ ← doallocbits (Z.to_nat (nbits - fsblocks)) fsblocks;
  writemap (Z.to_nat nblocks) 0.

(** The volume name without one colon at its end; [None] is a usage error. *)
Definition mksfs_volname (volname : list Z) : option (list Z) :=
  let v := match index_of 58 volname with
           | None => Some volname
           | Some i => if Nat.eqb (length volname - i) 1 then Some (take i volname) else None
           end in
  v ← v;
  match index_of 47 v with None => Some v | Some _ => None end.

(** [main], run on a disk image of [mk_file] bytes; the buffer is zero at
    first. *)
Definition mksfs_main (volname : list Z) : EM mkst unit :=
  match mksfs_volname volname with
  | None => raise 1
  | Some volname =>
      s ← eget;
      let size := u32 (Z.of_nat (length (mk_file s)) / 512) in
      _ ← writesuper volname size;
      _ ← writerootdir;
      writebitmap size
  end.

Definition bitbuf0 : list Z := replicate (Z.to_nat (MAXBITBLOCKS * SFS_BLOCKSIZE)) 0.

(** ** Blocks of the image *)

Definition block_of (f : list Z) (b : Z) : list Z := take 512 (drop (Z.to_nat (512 * b)) f).

Lemma splice_block f b d c :
  length d = 512%nat → 0 ≤ b → 512 * (b + 1) ≤ Z.of_nat (length f) → 0 ≤ c →
  block_of (splice f (Z.to_nat (512 * b)) d) c = if decide (c = b) then d else block_of f c.
Proof.
  intros Hd Hb Hf Hc. unfold block_of. destruct (decide (c = b)) as [->|Hne].
  - rewrite <- Hd. apply splice_get. lia.
  - apply list_eq. intros i. destruct (decide (i < 512)%nat) as [Hi|Hi].
    + rewrite !lookup_take_lt, !lookup_drop by done. apply splice_lookup_ne; lia.
    + rewrite !lookup_take_ge by lia. done.
Qed.

(** ** diskwrite *)

Definition wrote_block (s : mkst) (b : Z) (d : list Z) (s' : mkst) : Prop :=
  mk_file s' = splice (mk_file s) (Z.to_nat (512 * b)) d ∧ mk_bits s' = mk_bits s ∧ mk_out s' `suffix_of` mk_out s.

(** The outcomes of [write] that end the program. *)
Definition wfails (o : wout) : Prop := o = WFail ∨ o = WDone 0.

Definition write_failed (s : mkst) (r : Z + unit) : Prop := r = inl 1 ∧ Exists wfails (mk_out s).

Lemma write_failed_suffix s s' r : mk_out s' `suffix_of` mk_out s → write_failed s' r → write_failed s r.
Proof. intros [k E] [-> H]. split; [done|]. rewrite E. apply Exists_app. by right. Qed.

Lemma wpe_put s o pos d Q :
  0 ≤ pos → pos + Z.of_nat (length d) ≤ Z.of_nat (length (mk_file s)) →
  Q (inr tt) (set_file (splice (mk_file s) (Z.to_nat pos) d) o s) → wpe (put o pos d) Q s.
Proof. intros Hp Hl HQ. unfold put. estep. apply wpe_bind. eapply wpe_lift; [by apply bput_ok|]. by apply wpe_mod. Qed.

Lemma splice_more f b data (t n : nat) :
  length data = 512%nat → (t + n ≤ 512)%nat → (b + 512 ≤ length f)%nat →
  splice (splice f b (take t data)) (b + t) (take n (drop t data)) = splice f b (take (t + n) data).
Proof.
  intros Hd Ht Hf. rewrite <- (take_take_drop data t n). rewrite <- splice_app by (rewrite length_take; lia).
  f_equal. rewrite length_take. lia.
Qed.

Lemma diskwrite_loop_spec outs s0 s data b t :
  length data = 512%nat → 0 ≤ b → 512 * (b + 1) ≤ Z.of_nat (length (mk_file s0)) → (t ≤ 512)%nat → 
  mk_file s = splice (mk_file s0) (Z.to_nat (512 * b)) (take t data) → mk_bits s = mk_bits s0 →
  outs = mk_out s → outs `suffix_of` mk_out s0 →
  wpe (diskwrite_loop outs data (512 * b) (Z.of_nat t)) (λ r s', write_failed s0 r ∨ r = inr tt ∧ wrote_block s0 b data s') s.
Proof.
  intros Hd Hb Hf. revert s t. induction outs as [|o outs IH]; intros s t Ht Hs Hbits Ho Hsuf; cbn [diskwrite_loop];
    (destruct (Z.ltb_spec (Z.of_nat t) 512) as [Hlt|Hge]; cbn [negb];
     [|apply wpe_ret; right; split; [done|]; split; [|split; [done|by rewrite <- Ho]]; rewrite Hs, take_ge by lia; done]);
    assert (length (mk_file s) = length (mk_file s0)) as Hlen by (rewrite Hs; apply splice_length; rewrite length_take; lia).
  - apply wpe_put; [lia|rewrite length_drop; lia|]. right. split; [done|]. split; [|split; [done|apply suffix_nil]]. simpl. rewrite Hs, Nat2Z.id.
    replace (Z.to_nat (512 * b + Z.of_nat t)) with (Z.to_nat (512 * b) + t)%nat by lia.
    rewrite <- (take_ge (drop t data) (512 - t)) by (rewrite length_drop; lia). rewrite splice_more by lia.
    by rewrite take_ge by lia.
  - assert (outs `suffix_of` mk_out s0) as Hsuf' by (etrans; [|exact Hsuf]; by apply suffix_cons_r).
    assert (wfails o → write_failed s0 (inl 1)) as Hfail by (intros H; split; [done|]; destruct Hsuf as [k ->]; apply Exists_app; right; by left).
    destruct o as [n| |].
    + destruct (Z.eqb_spec (Z.min (Z.of_nat n) (512 - Z.of_nat t)) 0); [apply wpe_raise; left; apply Hfail; right; f_equal; lia|].
      set (k := Z.to_nat (Z.min (Z.of_nat n) (512 - Z.of_nat t))). assert (Z.min (Z.of_nat n) (512 - Z.of_nat t) = Z.of_nat k) as Ek by lia.
      apply wpe_bind, wpe_put; [lia|rewrite length_take, length_drop; lia|]. rewrite Ek, <- Nat2Z.inj_add. apply IH; [lia| |done..].
      simpl. rewrite Hs, !Nat2Z.id. replace (Z.to_nat (512 * b + Z.of_nat t)) with (Z.to_nat (512 * b) + t)%nat by lia.
      by rewrite splice_more by lia.
    + estep. by apply IH.
    + apply wpe_raise. left. apply Hfail. by left.
Qed.

Lemma diskwrite_spec s data b :
  length data = 512%nat → 0 ≤ b < max_blocks → 512 * (b + 1) ≤ Z.of_nat (length (mk_file s)) →
  wpe (diskwrite data b) (λ r s', write_failed s r ∨ r = inr tt ∧ wrote_block s b data s') s.
Proof.
  unfold max_blocks. intros Hd Hb Hf. unfold diskwrite. rewrite (u32_id (b * 512)), s32_id by (unfold is_u32, is_s32; lia).
  rewrite (proj2 (Z.ltb_ge _ _)) by lia. estep. replace (b * 512) with (512 * b) by lia.
  apply (diskwrite_loop_spec (mk_out s) s s data b 0); try done; try lia. by rewrite take_0, splice_nil.
Qed.

(** ** The bitmap *)

Definition bitv (v : list Z) (i : Z) : bool := bit (mkBitmap (8 * Z.of_nat (length v)) v) i.

Lemma doallocbit_spec s k :
  bytes (mk_bits s) → Z.of_nat (length (mk_bits s)) = 16384 → 0 ≤ k < 131072 → bitv (mk_bits s) k = false →
  wpe (doallocbit k) (λ r s', r = inr tt ∧ mk_out s' = mk_out s ∧ mk_file s' = mk_file s ∧ bytes (mk_bits s') ∧ Z.of_nat (length (mk_bits s')) = 16384 ∧
    ∀ i, 0 ≤ i → bitv (mk_bits s') i = (i =? k) || bitv (mk_bits s) i) s.
Proof.
  intros Hby Hlen Hk Hbit. set (b := mkBitmap (8 * Z.of_nat (length (mk_bits s))) (mk_bits s)).
  assert (bitmap_wf b) as Hwf.
  { unfold b. split; cbn [nbits bm_v]; rewrite Hlen; [unfold bitmap_lim; lia|]. split; [done|]. split; [done|]. lia. }
  destruct (bitmap_mark_ok b k Hwf) as (b' & E & Hwf' & Hn & Hb'); [unfold b; cbn [nbits]; lia|exact Hbit|].
  unfold bitmap_mark, bitmap_translate, BITS_PER_WORD in E. unfold b in E. cbn [nbits bm_v] in E.
  apply mbind_Ret_inv in E as ([] & _ & E). apply mbind_Ret_inv in E as (w & Ew & E). apply mbind_Ret_inv in E as (u & Ea & E).
  apply mbind_Ret_inv in E as (v' & Es & E). injection E as <-. unfold doallocbit. estep. apply wpe_bind. eapply wpe_lift; [exact Ew|].
  apply wpe_bind, wpe_assert; [by apply kassert_Ret in Ea|]. apply wpe_bind. eapply wpe_lift; [exact Es|]. apply wpe_mod. cbn [nbits bm_v mk_bits mk_out set_bits mk_file] in *.
  assert (length v' = length (mk_bits s)) as El.
  { apply Nat2Z.inj. destruct Hwf' as (_ & E & _). cbn [bm_v nbits] in E. rewrite E, Hlen. done. }
  do 3 (split; [done|]). split; [apply Hwf'|]. split; [by rewrite El|]. intros i Hi. unfold bitv. rewrite El, Hb' by done. by destruct (i =? k).
Qed.

Lemma doallocbits_spec n i s :
  bytes (mk_bits s) → Z.of_nat (length (mk_bits s)) = 16384 → 0 ≤ i → i + Z.of_nat n ≤ 131072 →
  (∀ k, i ≤ k < i + Z.of_nat n → bitv (mk_bits s) k = false) →
  wpe (doallocbits n i) (λ r s', r = inr tt ∧ mk_out s' = mk_out s ∧ mk_file s' = mk_file s ∧ bytes (mk_bits s') ∧ Z.of_nat (length (mk_bits s')) = 16384 ∧
    ∀ k, 0 ≤ k → bitv (mk_bits s') k = ((i <=? k) && (k <? i + Z.of_nat n)) || bitv (mk_bits s) k) s.
Proof.
  revert i s. induction n as [|n IH]; intros i s Hby Hlen Hi Hn Hfree; cbn [doallocbits].
  { apply wpe_ret. do 5 (split; [done|]). intros k Hk. assert ((i <=? k) && (k <? i + Z.of_nat 0) = false) as ->; [|done].
    destruct (Z.leb_spec i k), (Z.ltb_spec k (i + Z.of_nat 0)); simpl; done || lia. }
  apply wpe_bind. eapply wpe_mono; [apply doallocbit_spec; [done|done|lia|apply Hfree; lia]|].
  intros r s1 (-> & Eo & Ef & Hby1 & Hlen1 & Hb1). eapply wpe_mono; [apply (IH (i + 1) s1); try done; try lia|].
  - intros k Hk. rewrite Hb1 by lia. rewrite Hfree by lia. bcases.
  - intros r s2 (-> & Eo2 & Ef2 & Hby2 & Hlen2 & Hb2). split; [done|]. split; [congruence|]. split; [congruence|]. split; [done|]. split; [done|].
    intros k Hk. rewrite Hb2, Hb1 by done. destruct (bitv (mk_bits s) k); bcases.
Qed.

Lemma writemap_spec n i s N :
  bytes (mk_bits s) → Z.of_nat (length (mk_bits s)) = 16384 → 0 ≤ i → i + Z.of_nat n = N → N ≤ 32 →
  512 * (2 + N) ≤ Z.of_nat (length (mk_file s)) →
  wpe (writemap n i) (λ r s', write_failed s r ∨ r = inr tt ∧ length (mk_file s') = length (mk_file s) ∧
    (bytes (mk_file s) → bytes (mk_file s')) ∧
    ∀ b, 0 ≤ b → block_of (mk_file s') b = if decide (2 + i ≤ b < 2 + N) then take 512 (drop (Z.to_nat (512 * (b - 2))) (mk_bits s)) else block_of (mk_file s) b) s.
Proof.
  revert i s. induction n as [|n IH]; intros i s Hby Hlen Hi Hn HN Hf; cbn [writemap].
  { apply wpe_ret. right. do 3 (split; [done|]). intros b Hb. by rewrite decide_False by lia. }
  estep. apply wpe_bind. unfold SFS_BLOCKSIZE, SFS_MAP_LOCATION. eapply wpe_lift; [apply bget_ok; lia|].
  set (ptr := take _ _). assert (length ptr = 512%nat) as Hp by (unfold ptr; rewrite length_take, length_drop; lia).
  apply wpe_bind. eapply wpe_mono; [apply (diskwrite_spec s ptr (2 + i)); [done|unfold max_blocks; lia|lia]|].
  intros r s1 [[-> Hx]|(-> & Ef & Eb & Eo)]; [left; by split|]. pose proof (splice_length (mk_file s) (Z.to_nat (512 * (2 + i))) ptr ltac:(lia)) as Hl1.
  eapply wpe_mono; [apply (IH (i + 1) s1); rewrite ?Eb, ?Ef, ?Hl1; try done; lia|].
  intros r s2 [Hx|(-> & El & Hby2 & Hbl)]; [left; by eapply write_failed_suffix|right]. split; [done|]. rewrite Ef, Hl1 in El. split; [done|]. split.
  - intros H. apply Hby2. rewrite Ef. apply splice_bytes; [done|]. by apply Forall_take, Forall_drop.
  - intros b Hb. rewrite Hbl, Eb, Ef by done. rewrite splice_block by (done || lia).
    destruct (decide (b = 2 + i)) as [->|Hne].
    + rewrite decide_False, decide_True by lia. unfold ptr. change (Z.to_nat 512) with 512%nat. do 3 f_equal. lia.
    + destruct (decide (2 + (i + 1) ≤ b < 2 + N)).
      * by rewrite decide_True by lia.
      * by rewrite decide_False by lia.
Qed.

(** ** The new volume *)

Definition root_inode : sfs_inode := mkInode 0 SFS_TYPE_DIR 1 (replicate 15 0) 0 (replicate 110 0).

Definition new_super (v : list Z) (n : Z) : sfs_super :=
  mkSuper SFS_MAGIC n (v ++ replicate (SFS_VOLNAME_SIZE - length v) 0) (replicate 118 0).

(** The owners of the blocks: the system's, and the root directory's inode. *)
Definition new_own (N : Z) : gmap Z owner :=
  <[0 := OSys]> (<[1 := OIno 1]> (gset_to_gmap OSys (list_to_set (seqZ 2 N)))).

Definition new_files : files := {[1 := (root_inode, ∅)]}.

(** The image as a disk that works. *)
Definition image_disk (f : list Z) : disk :=
  let n := Z.of_nat (length f) / 512 in
  mkDisk n (λ b, if bool_decide (0 ≤ b < n) then block_of f b else zeros) zeros [] [].

Lemma new_own_lookup N b o :
  new_own N !! b = Some o ↔ b = 1 ∧ o = OIno 1 ∨ b ≠ 1 ∧ (b = 0 ∨ 2 ≤ b < 2 + N) ∧ o = OSys.
Proof.
  unfold new_own. rewrite !lookup_insert_Some, lookup_gset_to_gmap_Some, elem_of_list_to_set, elem_of_seqZ. naive_solver lia.
Qed.

Lemma bit_take v k i nb nb' : 0 ≤ i < 8 * Z.of_nat k → bit (mkBitmap nb (take k v)) i = bit (mkBitmap nb' v) i.
Proof.
  intros Hi. unfold bit, zget, BITS_PER_WORD. cbn [bm_v]. pose proof (Z.div_mod i 8 ltac:(lia)). pose proof (Z.mod_pos_bound i 8 ltac:(lia)).
  rewrite (proj2 (Z.leb_le 0 (i / 8))) by lia. rewrite lookup_take_lt by lia. done.
Qed.

Lemma root_wf : inode_wf root_inode.
Proof.
  unfold inode_wf, root_inode. cbn -[replicate]. split_and!; try done; try (unfold is_u32, is_u16, SFS_TYPE_DIR; lia);
    apply Forall_replicate; unfold is_u32; lia.
Qed.

Lemma new_super_wf v n : (length v < 32)%nat → bytes v → is_u32 n → super_wf (new_super v n).
Proof.
  intros Hl Hv Hn. unfold super_wf, new_super. cbn -[replicate]. unfold SFS_VOLNAME_SIZE.
  split_and!; try done; try (unfold is_u32, SFS_MAGIC; lia).
  - rewrite length_app, length_replicate. lia.
  - apply Forall_app. split; [done|]. apply Forall_replicate. unfold is_u8. lia.
  - apply Forall_replicate. unfold is_u32. lia.
Qed.

Lemma new_super_mounted v n : (length v < 32)%nat → bytes v → is_u32 n → mounted_super (enc_super (new_super v n)) = new_super v n.
Proof.
  intros Hl Hv Hn. unfold mounted_super. rewrite dec_enc_super by (by apply new_super_wf). unfold new_super. cbn -[replicate]. f_equal.
  apply list_insert_id. rewrite lookup_app_r by lia. apply lookup_replicate. unfold SFS_VOLNAME_SIZE. lia.
Qed.

Lemma sizes_of n : 3 ≤ n ≤ 131072 → ∃ N, SFS_BITBLOCKS n = N ∧ SFS_BITMAPSIZE n = 4096 * N ∧ n ≤ 4096 * N ∧ 0 < N ≤ 32 ∧ 2 + N ≤ n.
Proof.
  intros Hn. destruct (bitmapsize_ok n) as (E1 & E2 & E3); [unfold max_blocks; lia|]. exists (SFS_BITBLOCKS n). split; [done|].
  split; [done|]. split; [lia|]. unfold SFS_BITBLOCKS, SFS_BITMAPSIZE, SFS_ROUNDUP, SFS_BLOCKBITS in *.
  rewrite (u32_id (n + 4096 - 1)) in * by (unfold is_u32; lia).
  pose proof (Z.div_mod (n + 4096 - 1) 4096 ltac:(lia)). pose proof (Z.mod_pos_bound (n + 4096 - 1) 4096 ltac:(lia)).
  rewrite (u32_id (_ * 4096)), Z.div_mul in * by (unfold is_u32; lia). lia.
Qed.

(** The file after the three steps. *)
Record made (v : list Z) (n N : Z) (f bits : list Z) : Prop := {
  md_bytes : bytes f;
  md_size : Z.of_nat (length f) / 512 = n;
  md_n : 3 ≤ n ≤ 131072;
  md_N : SFS_BITBLOCKS n = N;
  md_name : (length v < 32)%nat ∧ bytes v;
  md_super : block_of f 0 = enc_super (new_super v n);
  md_root : block_of f 1 = enc_inode root_inode;
  md_map : ∀ j, 0 ≤ j < N → block_of f (2 + j) = take 512 (drop (Z.to_nat (512 * j)) bits);
  md_bits : bytes bits ∧ Z.of_nat (length bits) = 16384;
  md_bit : ∀ i, 0 ≤ i < 4096 * N → bitv bits i = (i <? 2 + N) || (n <=? i)
}.

Section made.
Context (v : list Z) (n N : Z) (f bits : list Z) (Hm : made v n N f bits).
Let d := image_disk f.
Let fm := mkBitmap (4096 * N) (take (Z.to_nat (512 * N)) bits).
Let own := new_own N.

Lemma made_sizes : SFS_BITMAPSIZE n = 4096 * N ∧ n ≤ 4096 * N ∧ 0 < N ≤ 32 ∧ 2 + N ≤ n.
Proof. destruct (sizes_of n (md_n _ _ _ _ _ Hm)) as (N' & E & H). by rewrite <- (md_N _ _ _ _ _ Hm), E. Qed.

Lemma made_disk : disk_ok d.
Proof.
  destruct Hm as [M1 M2 M3 _ _ _ _ _ _ _]. split; try done.
  - unfold d, image_disk. simpl. rewrite M2. unfold max_blocks. lia.
  - intros b. unfold d, image_disk. cbn [d_sect]. case_bool_decide as Hb; [|apply zeros_ok]. unfold block_of.
    pose proof (Z.div_mod (Z.of_nat (length f)) 512 ltac:(lia)). pose proof (Z.mod_pos_bound (Z.of_nat (length f)) 512 ltac:(lia)).
    split; [rewrite length_take, length_drop; lia|]. by apply Forall_take, Forall_drop.
  - apply zeros_ok.
  - by apply Forall_nil.
Qed.

Lemma made_sect b : 0 ≤ b < n → d_sect d b = block_of f b.
Proof. intros Hb. unfold d, image_disk. cbn [d_sect]. rewrite (md_size _ _ _ _ _ Hm). by rewrite bool_decide_eq_true_2. Qed.

Lemma made_bit i : 0 ≤ i < 4096 * N → bit fm i = (i <? 2 + N) || (n <=? i).
Proof.
  intros Hi. rewrite <- (md_bit _ _ _ _ _ Hm) by done. unfold fm, bitv. apply bit_take. lia.
Qed.

Lemma made_fs_ok : fs_ok (mounted d (new_super v n) fm 1 []).
Proof.
  destruct made_sizes as (E & Hle & HN & H2). destruct (md_bits _ _ _ _ _ Hm) as [Hby Hl]. pose proof (md_n _ _ _ _ _ Hm).
  assert (Z.of_nat (length (take (Z.to_nat (512 * N)) bits)) = 512 * N) as Hlt by (rewrite length_take; lia).
  split; cbn [mounted sfs_device sfs_sb sfs_freemap nbits fm sp_nblocks new_super].
  - apply made_disk.
  - unfold d, image_disk. cbn [d_blocks]. rewrite (md_size _ _ _ _ _ Hm). lia.
  - split; [unfold bitmap_lim, fm; cbn [nbits]; lia|]. unfold fm. cbn [nbits bm_v]. rewrite Hlt. split.
    + replace (4096 * N + 7) with (7 + 512 * N * 8) by lia. rewrite Z.div_add by lia. change (7 / 8) with 0. lia.
    + split; [by apply Forall_take|]. lia.
  - lia.
  - intros i Hi. fold fm. rewrite made_bit by lia. rewrite (proj2 (Z.leb_le n i)) by lia. apply orb_true_r.
Qed.

Lemma made_root : file_ok (d_sect d) own 1 root_inode ∅.
Proof.
  split; try done.
  - apply root_wf.
  - apply new_own_lookup. by left.
  - split; try done. intros k Hk. rewrite lookup_empty. apply lookup_replicate. split; [done|lia].
  - by right.
Qed.

(** The blocks in use are the system's and the root directory's inode. *)
Lemma made_tight d' : tight (mounted d' (new_super v n) fm 1 []) new_files.
Proof.
  destruct made_sizes as (E & Hle & HN & H2). intros b (Hb & Hbit & Hno). change (nblocks _) with n in Hb. change (sfs_freemap _) with fm in Hbit.
  rewrite made_bit in Hbit by lia. apply Hno. destruct (decide (b = 1)) as [->|Hb1].
  { right. exists 1, root_inode, ∅. split; [done|by left]. }
  left. destruct (decide (b = 0)) as [->|Hb0]; [by left|right]. exists (b - 2). change (nblocks _) with n. rewrite (md_N _ _ _ _ _ Hm).
  unfold SFS_MAP_LOCATION. split; lia.
Qed.

Lemma made_image : image d (new_super v n) fm new_files own.
Proof.
  destruct made_sizes as (E & Hle & HN & H2). pose proof (md_n _ _ _ _ _ Hm). destruct (md_name _ _ _ _ _ Hm) as [Hlv Hbv].
  assert (∀ ino nd bm, new_files !! ino = Some (nd, bm) → ino = 1 ∧ nd = root_inode ∧ bm = ∅) as HG.
  { intros ino nd bm Hi. unfold new_files in Hi. apply lookup_singleton_Some in Hi as [<- [= <- <-]]. done. }
  split.
  - apply made_fs_ok.
  - intros b o Ho. apply new_own_lookup in Ho. change (nblocks _) with n. change (sfs_freemap _) with fm.
    split; [lia|]. rewrite made_bit by lia. rewrite (proj2 (Z.ltb_lt b (2 + N))) by lia. done.
  - assert (is_u32 n) as Hu by (unfold is_u32; lia). split; try done.
    + apply new_own_lookup. right. split; [lia|]. split; [lia|done].
    + intros j Hj. change (nblocks _) with n in Hj. rewrite (md_N _ _ _ _ _ Hm) in Hj. apply new_own_lookup. right. unfold SFS_MAP_LOCATION. split; [lia|]. split; [lia|done].
    + change (mounted_super (d_sect d 0) = new_super v n). rewrite made_sect by lia. rewrite (md_super _ _ _ _ _ Hm). by apply new_super_mounted.
    + intros _ j Hj. change (nblocks _) with n in Hj. rewrite (md_N _ _ _ _ _ Hm) in Hj.
      change (d_sect d (2 + j) = map_block fm j). rewrite made_sect by lia. rewrite (md_map _ _ _ _ _ Hm) by done.
      unfold map_block, fm. cbn [bm_v]. apply list_eq. intros i. destruct (decide (i < 512)%nat).
      * rewrite !lookup_take_lt, !lookup_drop, lookup_take_lt by lia. f_equal. lia.
      * rewrite !lookup_take_ge by lia. done.
  - intros ino nd bm Hi. destruct (HG _ _ _ Hi) as (-> & -> & ->). apply made_root.
  - exists []. split; [apply array_rep_nil|]. split; [apply NoDup_nil_2|]. intros p. split; [intros H'; by apply not_elem_of_nil in H'|by intros []].
  - done.
  - done.
  - intros ino nd bm Hi. destruct (HG _ _ _ Hi) as (-> & -> & ->). right. change (d_sect d 1 = enc_inode root_inode).
    rewrite made_sect by lia. apply (md_root _ _ _ _ _ Hm).
Qed.
End made.

(** ** The whole program *)

Lemma bitbuf0_clear i : bitv bitbuf0 i = false.
Proof.
  unfold bitv, bit, zget. cbn [bm_v]. destruct (0 <=? i / BITS_PER_WORD); simpl.
  - destruct (bitbuf0 !! Z.to_nat (i / BITS_PER_WORD)) as [w|] eqn:E; [|done].
    apply lookup_replicate in E as [-> _]. apply Z.bits_0.
  - done.
Qed.

(** The state of the buffer once every bit is set that has to be. *)
Definition marked (n N : Z) (bits : list Z) : Prop :=
  bytes bits ∧ Z.of_nat (length bits) = 16384 ∧ ∀ i, 0 ≤ i < 4096 * N → bitv bits i = (i <? 2 + N) || (n <=? i).

Lemma writebitmap_spec s n N :
  mk_bits s = bitbuf0 → 3 ≤ n ≤ 131072 → SFS_BITBLOCKS n = N → 512 * n ≤ Z.of_nat (length (mk_file s)) →
  wpe (writebitmap n) (λ r s', write_failed s r ∨ r = inr tt ∧ length (mk_file s') = length (mk_file s) ∧
    (bytes (mk_file s) → bytes (mk_file s')) ∧ ∃ bits, marked n N bits ∧
    ∀ b, 0 ≤ b → block_of (mk_file s') b = if decide (2 ≤ b < 2 + N) then take 512 (drop (Z.to_nat (512 * (b - 2))) bits) else block_of (mk_file s) b) s.
Proof.
  intros Hb Hn HN Hf. destruct (sizes_of n Hn) as (N' & EN & Eb & Hle & HN' & H2). assert (N' = N) as -> by congruence.
  assert (bytes (mk_bits s) ∧ Z.of_nat (length (mk_bits s)) = 16384) as [Hby Hl].
  { rewrite Hb. split; [apply Forall_replicate; unfold is_u8; lia|]. unfold bitbuf0. rewrite length_replicate. done. }
  assert (∀ i, bitv (mk_bits s) i = false) as Hc by (intros i; rewrite Hb; apply bitbuf0_clear).
  unfold writebitmap. rewrite Eb, HN. unfold MAXBITBLOCKS. rewrite (proj2 (Z.ltb_ge 32 N)) by lia. cbv zeta.
  unfold SFS_SB_LOCATION, SFS_ROOT_LOCATION, SFS_MAP_LOCATION.
  apply wpe_bind. eapply wpe_mono; [apply doallocbit_spec; [done|done|lia|apply Hc]|]. intros r s1 (-> & O1 & F1 & B1 & L1 & H1).
  apply wpe_bind. eapply wpe_mono; [apply doallocbit_spec; [done|done|lia|rewrite H1, Hc by lia; done]|]. intros r s2 (-> & O2 & F2 & B2 & L2 & H2').
  assert (∀ i, 0 ≤ i → bitv (mk_bits s2) i = (i <? 2)) as H2b by (intros i Hi; rewrite H2', H1, Hc by done; bcases).
  apply wpe_bind. eapply wpe_mono; [apply doallocbits_spec; [done|done|lia|lia|intros k Hk; rewrite H2b by lia; bcases]|]. intros r s3 (-> & O3 & F3 & B3 & L3 & H3).
  assert (∀ i, 0 ≤ i → bitv (mk_bits s3) i = (i <? 2 + N)) as H3b by (intros i Hi; rewrite H3, H2b by done; rewrite Z2Nat.id by lia; bcases).
  apply wpe_bind. eapply wpe_mono; [apply doallocbits_spec; [done|done|lia|lia|intros k Hk; rewrite H3b by lia; bcases]|]. intros r s4 (-> & O4 & F4 & B4 & L4 & H4).
  assert (mk_file s4 = mk_file s) as EF by congruence. assert (mk_out s4 = mk_out s) as EO by congruence.
  eapply wpe_mono; [apply (writemap_spec (Z.to_nat N) 0 s4 N); try done; rewrite ?EF; lia|].
  intros r s5 [Hx|(-> & Hlen & Hbys & Hbl)]; [left; eapply write_failed_suffix; [|done]; by rewrite EO|right]. rewrite EF in *.
  do 3 (split; [done|]). exists (mk_bits s4). split; [|done]. split; [done|]. split; [done|]. intros i Hi. rewrite H4, H3b by lia. rewrite Z2Nat.id by lia. bcases.
Qed.

Definition empty_volume : gmap Z afile := {[SFS_ROOT_LOCATION := AFile SFS_TYPE_DIR 1 0 (λ _, 0)]}.

Lemma empty_volume_ok : ns_ok empty_volume (AFile SFS_TYPE_DIR 1 0 (λ _, 0)).
Proof.
  split.
  - done.
  - split; try done. intros name i1 i2 s1 s2 H. destruct H as [H _ _ _]. change (slots _) with 0 in H. lia.
  - done.
  - intros i b Hi Hne. unfold empty_volume in Hi. apply lookup_singleton_Some in Hi as [<- _]. done.
  - intros name ino slot H. destruct H as [H _ _ _]. change (slots _) with 0 in H. lia.
  - done.
Qed.

Lemma made_view d sb fm : view (mounted d sb fm 1 []) new_files ≡ empty_volume.
Proof.
  unfold view, new_files, empty_volume. rewrite map_fmap_singleton. done.
Qed.

Lemma enc_super_bytes v n : bytes v → bytes (enc_super (new_super v n)).
Proof.
  intros Hv. unfold enc_super, new_super. cbn [sp_magic sp_nblocks sp_volname sp_reserved].
  repeat (apply Forall_app; split); try apply be32_bytes; try apply unwords_bytes; try done.
  apply Forall_replicate. unfold is_u8. lia.
Qed.

Lemma mksfs_main_spec f outs volname v n :
  bytes f → Z.of_nat (length f) / 512 = n → 3 ≤ n ≤ 131072 →
  mksfs_volname volname = Some v → (length v < 32)%nat → bytes v →
  wpe (mksfs_main volname) (λ r s', write_failed (MkSt f outs bitbuf0) r ∨ r = inr tt ∧ length (mk_file s') = length f ∧
    ∃ N bits, made v n N (mk_file s') bits) (MkSt f outs bitbuf0).
Proof.
  intros Hf En Hn Ev Hl Hv. pose proof (Z.div_mod (Z.of_nat (length f)) 512 ltac:(lia)). pose proof (Z.mod_pos_bound (Z.of_nat (length f)) 512 ltac:(lia)).
  assert (is_u32 n) as Hu by (unfold is_u32; lia). pose proof (enc_super_length _ (new_super_wf v n Hl Hv Hu)) as Hls.
  unfold mksfs_main. rewrite Ev. estep. cbn [mk_file]. rewrite En, u32_id by done. set (s0 := MkSt f outs bitbuf0).
  apply wpe_bind. unfold writesuper. rewrite (proj2 (Nat.leb_gt SFS_VOLNAME_SIZE (length v))) by (unfold SFS_VOLNAME_SIZE; lia).
  fold (new_super v n). eapply wpe_mono; [apply diskwrite_spec; [done|unfold SFS_SB_LOCATION, max_blocks; lia|simpl; unfold SFS_SB_LOCATION; lia]|].
  intros r s1 [[-> Hx]|(-> & F1 & B1 & O1)]; [left; by split|].
  pose proof (splice_length f (Z.to_nat (512 * SFS_SB_LOCATION)) (enc_super (new_super v n)) ltac:(rewrite Hls; change (512 * SFS_SB_LOCATION) with 0; lia)) as L1.
  apply wpe_bind. unfold writerootdir. fold root_inode. pose proof (enc_inode_length _ root_wf) as Hli.
  eapply wpe_mono; [apply diskwrite_spec; [done|unfold SFS_ROOT_LOCATION, max_blocks; lia|rewrite F1; change (mk_file s0) with f; rewrite L1; unfold SFS_ROOT_LOCATION; lia]|].
  intros r s2 [[-> Hx]|(-> & F2 & B2 & O2)]; [left; eapply (write_failed_suffix _ s1); [done|by split]|].
  assert (length (mk_file s2) = length f) as L2.
  { rewrite F2, F1. change (mk_file s0) with f. rewrite splice_length; [exact L1|]. rewrite Hli, L1. change (512 * SFS_ROOT_LOCATION) with 512. lia. }
  eapply wpe_mono; [apply (writebitmap_spec s2 n (SFS_BITBLOCKS n)); [by rewrite B2, B1|done|done|rewrite L2; lia]|].
  intros r s3 [Hx|(-> & L3 & Hby & bits & (Mb & Ml & Mv) & Hbl)]; [left; eapply (write_failed_suffix _ s2); [by etrans|done]|right].
  split; [done|]. split; [congruence|]. exists (SFS_BITBLOCKS n), bits. destruct (sizes_of n Hn) as (N & EN & _ & _ & HN & H2). rewrite EN in *.
  assert (∀ b, 0 ≤ b → block_of (mk_file s2) b = if decide (b = 1) then enc_inode root_inode else if decide (b = 0) then enc_super (new_super v n) else block_of f b) as Hb2.
  { intros b Hb. rewrite F2, splice_block by (done || rewrite F1; change (mk_file s0) with f; rewrite ?L1; unfold SFS_ROOT_LOCATION; lia).
    unfold SFS_ROOT_LOCATION. destruct (decide (b = 1)); [done|]. rewrite F1, splice_block by (done || simpl; unfold SFS_SB_LOCATION; lia). done. }
  split; try done.
  - apply Hby. rewrite F2, F1. apply splice_bytes; [|apply enc_inode_bytes]. apply splice_bytes; [done|by apply enc_super_bytes].
  - by rewrite L3, L2.
  - rewrite Hbl, decide_False, Hb2 by lia. done.
  - rewrite Hbl, decide_False, Hb2 by lia. done.
  - intros j Hj. rewrite Hbl, decide_True by lia. by replace (2 + j - 2) with j by lia.
Qed.

(** C26: mksfs makes a volume the file system mounts.  Run on an image of 3 to
    131072 blocks with a legal name, with [write]s that may be short or
    interrupted, it ends normally unless a [write] fails; then the file has
    its size, and mounting it yields a volume of that name with exactly one
    file, the empty root directory, a consistent name space and no block in
    use but the system's and the root's.  The mount can only fail for want of
    memory. *)
Theorem mksfs_makes_empty_volume f outs volname v :
  bytes f → 3 ≤ Z.of_nat (length f) / 512 ≤ 131072 → mksfs_volname volname = Some v → (length v < 32)%nat → bytes v →
  wpe (mksfs_main volname) (λ r s', (r = inl 1 ∧ Exists wfails outs) ∨ (r = inr tt ∧ length (mk_file s') = length f ∧
    ∀ o, wpe (sfs_domount 512) (λ res s2,
      (res = inr tt ∧ sp_volname (sfs_sb s2) = v ++ replicate (32 - length v) 0 ∧
       fsat True s2 empty_volume ∅ ∧ ∃ a, ns_ok empty_volume a) ∨ res = inl ENOMEM ∧ o ≠ []) (sfs_blank (image_disk (mk_file s')) o)))
    (MkSt f outs bitbuf0).
Proof.
  intros Hf Hn Ev Hl Hv. eapply wpe_mono; [by eapply mksfs_main_spec|]. intros r s' [Hx|(-> & El & N & bits & Hm)]; [by left|right].
  split; [done|]. split; [done|]. intros o. pose proof (made_image _ _ _ _ _ Hm) as Him.
  eapply wpe_mono; [exact (sfs_domount_spec _ _ _ _ _ o Him)|]. intros res s2 [(-> & d' & k & o' & -> & Hd & _)|[Hno|[_ []]]]; [left|by right|done].
  split; [done|]. split; [done|]. split; [|eexists; apply empty_volume_ok].
  destruct (image_dev _ _ _ _ _ _ Him Hd) as [Him' Hv']. eapply image_fsat; [done|rewrite Hv'; apply made_view|]. intros _. by apply (made_tight _ _ _ _ _ Hm).
Qed.

Lemma mksfs_makes_empty_volume_witness :
  wpe (mksfs_main [118; 58]) (λ r s', (r = inl 1 ∧ Exists wfails [WIntr; WDone 100]) ∨ (r = inr tt ∧ length (mk_file s') = length (replicate 4096 7) ∧
    ∀ o, wpe (sfs_domount 512) (λ res s2,
      (res = inr tt ∧ sp_volname (sfs_sb s2) = [118] ++ replicate (32 - length [118]) 0 ∧
       fsat True s2 empty_volume ∅ ∧ ∃ a, ns_ok empty_volume a) ∨ res = inl ENOMEM ∧ o ≠ []) (sfs_blank (image_disk (mk_file s')) o)))
    (MkSt (replicate 4096 7) [WIntr; WDone 100] bitbuf0).
Proof.
  apply (mksfs_makes_empty_volume (replicate 4096 7) [WIntr; WDone 100] [118; 58] [118]).
  - apply Forall_replicate. unfold is_u8. lia.
  - rewrite length_replicate. change (Z.of_nat 4096 / 512) with 8. lia.
  - reflexivity.
  - simpl. lia.
  - apply Forall_singleton. unfold is_u8. lia.
Defined.
