(* ===== verification/SfsFlaws.v ===== *)
(** Where SFS falls short of what its clients expect: errors of the disk that
    are not reported, data that comes back after a truncation, and links to
    directories, which it makes but cannot rename. *)

From Stdlib Require Import ZArith Lia.
From stdpp Require Import base numbers list option gmap functions.
From S2P Require Import Prelude Array Bitmap Errm Uio UioProofs Lhd LhdProofs SfsDisk Sfs SfsBlock SfsInv SfsBmap SfsIo SfsSpec SfsTrunc SfsAbs SfsVnode SfsDir SfsNames SfsNaming SfsDemo SfsTheorems.

Open Scope Z_scope.

(** The driver when the hardware fails a write: the uio has been consumed,
    the sector holds what the hardware left there. *)
Lemma lhd_write_fails b d u v junk rest :
  d_blocks d ≤ max_blocks → 0 ≤ b < d_blocks d → length (d_buf d) = 512%nat → block_uio b u → is_read u = false →
  is_sys u = true → d_wstat d = (v, junk) :: rest → lhd_irq v = Some EIO →
  wpe lhd_io (λ r '(d', u'), r = inl EIO ∧ (∃ x, length x = 512%nat ∧ xfer u x u') ∧
    d_blocks d' = d_blocks d ∧ d_sect d' b = junk) (d, u).
Proof.
  intros Hm Hb Hlen Hbu Hr Hs Hw Hv. eapply lhd_io_one; [done..|]. destruct Hbu as (Hu & Eo & Er).
  unfold lhd_sector. estep. rewrite Hr. estep.
  eapply wpe_mono; [apply uiomove_write_spec; unfold LHD_SECTSIZE; try done; lia|].
  unfold LHD_SECTSIZE. intros r u' [(x & Hx & -> & Hxf)|[-> Hf]]; [|exfalso; by apply (sys_no_fault u u')].
  unfold hw_write. simpl d_wstat. rewrite Hw. cbn [wait_write]. rewrite Hv. estep. cbv beta iota. cbn [negb Z.eqb EIO].
  apply wpe_raise. split; [done|]. split; [exists x; split; [lia|done]|]. split; [done|]. apply fn_lookup_insert.
Qed.

(** Nothing left to transfer: the driver does nothing and succeeds. *)
Lemma lhd_io_nothing d u b :
  d_blocks d ≤ max_blocks → 0 ≤ b ≤ d_blocks d → uio_offset u = b * 512 → uio_resid u = 0 →
  wpe lhd_io (λ r x, r = inr tt ∧ x = (d, u)) (d, u).
Proof.
  intros Hm Hb Eo Er. unfold max_blocks in Hm. unfold lhd_io. estep. cbv beta iota. rewrite Eo, Er. unfold LHD_SECTSIZE.
  rewrite Z.quot_mul, Z.rem_mul by lia. change (u32 0) with 0. change (0 / 512) with 0. change (0 mod 512) with 0.
  rewrite Z.add_0_r, !(u32_id b) by (unfold is_u32; lia). cbn [Z.eqb negb orb].
  rewrite (proj2 (Z.ltb_ge _ _)) by lia. by apply wpe_ret.
Qed.

(** C30: A failed block write is reported as a success: [sfs_rwblock] retries
    with the uio the driver has already consumed, the retry transfers nothing
    and returns 0, and the block holds whatever the hardware left in it. *)
Theorem sfs_wblock_masks_write_errors s data b v junk rest :
  d_blocks (sfs_device s) ≤ max_blocks → 0 ≤ b < d_blocks (sfs_device s) → length (d_buf (sfs_device s)) = 512%nat →
  length data = 512%nat → bytes data →
  d_wstat (sfs_device s) = (v, junk) :: rest → lhd_irq v = Some EIO →
  wpe (sfs_wblock data b) (λ r s', r = inr tt ∧ sect s' b = junk) s.
Proof.
  intros Hm Hb Hlen Hd Hby Hw Hv. unfold sfs_wblock. apply wpe_bind. apply with_uio_spec.
  destruct (SFSUIO_ok data b UIO_WRITE) as [Hbu Hs]; [unfold max_blocks in *; lia|done|done|].
  unfold sfs_rwblock. cbn [sfs_rwblock_loop]. apply wpe_bind, wpe_attempt, sfs_dio_spec.
  eapply wpe_mono; [by eapply (lhd_write_fails b); [..|exact Hw|]|].
  intros r [d u] (-> & (x & Hx & Hxf) & Eb & Ej). cbv beta iota. cbn [Z.eqb EIO EINVAL].
  change (Z.eqb EIO EINVAL) with false. destruct (xfer_fields _ _ _ Hxf) as (_ & _ & Eo & Ere & _).
  destruct Hbu as (_ & Fo & Fr). apply wpe_bind, wpe_attempt, sfs_dio_spec.
  eapply wpe_mono; [apply (lhd_io_nothing _ _ (b + 1)); simpl; lia|].
  intros r [d' u'] [-> [= -> ->]]. apply wpe_ret. cbv beta iota. by apply wpe_ret.
Qed.

(** The demonstration volume on a disk that fails its next write. *)
Definition failing : sfs := set_dev (set_wstat [(LHD_MEDIA, replicate 512 255)] demo_disk) demo.

Lemma sfs_wblock_masks_write_errors_witness :
  wpe (sfs_wblock zeros 5) (λ r s', r = inr tt ∧ sect s' 5 = replicate 512 255) failing.
Proof.
  apply (sfs_wblock_masks_write_errors failing zeros 5 LHD_MEDIA (replicate 512 255) []);
    [unfold max_blocks; simpl; lia|simpl; lia|reflexivity|reflexivity|by apply bytes_check|reflexivity|reflexivity].
Defined.

Lemma alter_lookup_equiv (f : afile → afile) ino (V W : gmap Z afile) a :
  (∀ b c, b ≡ c → f b ≡ f c) → W ≡ alter f ino V → V !! ino ≡ Some a → W !! ino ≡ Some (f a).
Proof.
  intros Hf HW Ha. rewrite (HW ino), lookup_alter_eq. destruct (V !! ino) as [b|]; inversion Ha as [? ? E|]; subst.
  constructor. by apply Hf.
Qed.

#[export] Instance atrim_proper P size : Proper ((≡) ==> (≡)) (atrim P size).
Proof.
  intros a b (H1 & H2 & H3 & H4). split_and!; simpl; try congruence. intros x Hx. destruct (P (x / 512)); [by apply H4|done].
Qed.

(** C31: What [sfs_truncate] cuts off can be read again: shortening a file
    and lengthening it brings back the old bytes after the shorter end, in
    the last block that is kept and, for a block of the indirect block, in the
    block after it, where a file with no data there reads as zeros. *)
Theorem sfs_truncate_exposes_old_data p ino s G own v bm a len len' x :
  at_file s G own p ino v bm → view s G !! ino ≡ Some a → reads_fine s →
  0 ≤ len → len ≤ x < len' → len' + 512 < 2147483648 →
  x / 512 < blocks_of len ∨ 15 ≤ x / 512 ∧ x / 512 = blocks_of len →
  wpe (_ ← sfs_truncate p len; sfs_truncate p len') (λ r s', r = inr tt ∧
    ∃ G' own' v' bm' a', at_file s' G' own' p ino v' bm' ∧ view s' G' !! ino ≡ Some a' ∧
      a_size a' = len' ∧ a_byte a' x = a_byte a x) s.
Proof.
  intros Haf Ha Hfine Hlen Hx Hmax Hk. apply wpe_bind.
  eapply wpe_mono; [apply (sfs_truncate_spec p ino s G own v bm len Haf); lia|].
  intros r s1 (G1 & own1 & v1 & bm1 & Haf1 & Hsh1 & _ & [(-> & Hv1 & _)|(_ & ? & _)]); [|done].
  pose proof (alter_lookup_equiv _ ino _ _ a (atrim_proper _ _) Hv1 Ha) as Ha1.
  eapply wpe_mono; [apply (sfs_truncate_spec p ino s1 G1 own1 v1 bm1 len' Haf1); lia|].
  intros r s2 (G2 & own2 & v2 & bm2 & Haf2 & Hsh2 & _ & [(-> & Hv2 & _)|(_ & Hn & _)]); [|by destruct (Hn (sh_r _ _ Hsh1 Hfine))].
  pose proof (alter_lookup_equiv _ ino _ _ _ (atrim_proper _ _) Hv2 Ha1) as Ha2.
  split; [done|]. eexists G2, own2, v2, bm2, _. split; [done|]. split; [exact Ha2|]. split; [done|]. simpl.
  assert (x / 512 < blocks_of len') as Hx'.
  { unfold blocks_of. pose proof (Z.div_mod x 512 ltac:(lia)). pose proof (Z.mod_pos_bound x 512 ltac:(lia)).
    pose proof (Z.div_mod (len' + 511) 512 ltac:(lia)). pose proof (Z.mod_pos_bound (len' + 511) 512 ltac:(lia)). lia. }
  replace (keep (blocks_of len') (x / 512)) with true by (unfold keep; lia).
  replace (keep (blocks_of len) (x / 512)) with true by (unfold keep; lia). done.
Qed.

(** Here the root directory is cut to one byte and made 64 bytes long again:
    byte 4, the letter f of its entry, is back. *)
Definition demo_root_view : afile := view_file demo_sect (demo_root, {[0 := 4]}).

Lemma sfs_truncate_exposes_old_data_witness :
  a_byte demo_root_view 4 = 102 ∧
  wpe (_ ← sfs_truncate 1 1; sfs_truncate 1 64) (λ r s', r = inr tt ∧
    ∃ G' own' v' bm' a', at_file s' G' own' 1 1 v' bm' ∧ view s' G' !! 1 ≡ Some a' ∧
      a_size a' = 64 ∧ a_byte a' 4 = a_byte demo_root_view 4) demo.
Proof.
  split; [reflexivity|].
  apply (sfs_truncate_exposes_old_data 1 1 demo demo_G demo_own demo_rootv {[0 := 4]} demo_root_view 1 64 4);
    [apply demo_at_root|reflexivity|reflexivity|lia|lia|lia|left; reflexivity].
Defined.

(** ** Links to the root directory *)

(** A program that stops the kernel after [m]. *)
Lemma panic_bind {S A B} (m : EM S A) (f : A → EM S B) s :
  wpe m (λ r s', match r with inr a => f a s' = Panic | inl _ => False end) s → (m ≫= f) s = Panic.
Proof. unfold wpe, mbind, EM_mbind. by destruct (m s) as [[[e|a] s']| | |]. Qed.

Lemma panic_assoc {S A B C} (m : EM S A) (g : A → EM S B) (f : B → EM S C) s :
  (m ≫= λ a, g a ≫= f) s = Panic → ((m ≫= g) ≫= f) s = Panic.
Proof. unfold mbind, EM_mbind. by destruct (m s) as [[[e|a] s']| | |]. Qed.

(** The entry just made, in the directory with one more link. *)
Lemma dentry_links n a name ino slot : dentry (with_links n a) name ino slot ↔ dentry a name ino slot.
Proof. split; intros []; by split. Qed.

Lemma dir_ok_links n a : dir_ok a → dir_ok (with_links n a).
Proof. intros [D1 D2 D3 D4]. split; [done..|]. intros name i1 i2 s1 s2. rewrite !dentry_links. apply D4. Qed.

Section rootlink.
Context {t : Prop} (V : gmap Z afile) (R : gmap Z vref) (p : Z) (r : vref).
Context (Hp : R !! p = Some r) (Hr : r_ino r = ROOT) (Hun : uncounted R).

(** A name of the root directory cannot be renamed. *)
Lemma rename_root_panics s a name slot n2 :
  fsat t s V R → V !! ROOT = Some a → dir_ok a → dentry a name ROOT slot → plenty s → sfs_rename p name p n2 s = Panic.
Proof.
  intros HS Ha Hd Hde [Hfine Hmem]. pose proof Ha as Ha'. rewrite <- Hr in Ha'. destruct (fsat_meta s V R p r a HS Hp Ha') as (v & Hv & Ev & _).
  unfold sfs_rename. apply panic_bind. eapply wpe_getv; [exact Hv|]. apply panic_bind, wpe_assert; [lia|].
  apply panic_bind, wpe_assert; [apply Z.eqb_eq; by replace (sv_ino v) with (r_ino r) by (by rewrite <- Ev)|].
  unfold sfs_lookonce. apply panic_assoc, panic_bind.
  eapply wpe_mono; [apply (fsat_findname (t := t) V R p r a Hp Ha' Hd s name HS)|]. intros res s1 (Hk1 & HS1 & [(fr & -> & Hf)|[_ Hn]]); [|done].
  destruct (f_found fr) as [[ino j]|] eqn:Ef; [|by destruct (fd_none _ _ _ _ Hf Ef ROOT slot (proj2 (de_slot _ _ _ _ Hde)))].
  destruct (fd_some _ _ _ _ Hf _ _ Ef) as [Hdj _]. pose proof (dk_uniq _ Hd _ _ _ _ _ Hde Hdj) as <-.
  assert (ino = ROOT) as -> by (rewrite <- (de_ino _ _ _ _ Hde); by rewrite <- (de_ino _ _ _ _ Hdj)).
  apply panic_assoc, panic_bind. eapply wpe_mono; [by apply (fsat_loadvnode (t := t) s1 V R ROOT a)|].
  intros res s2 [_ [(q & R' & -> & Hpk & HS2)|(e & _ & He & _)]]; [|exfalso; destruct He as [[_ Hn]|[_ Hn]]; apply Hn; [by apply (kp_o _ _ Hk1)|by apply (kp_r _ _ Hk1)]].
  destruct (picked_lookup _ _ _ _ Hpk) as (rq & Hq & Eq). rewrite <- Eq in Ha. destruct (fsat_meta s2 V R' q rq a HS2 Hq Ha) as (w & Hw & _ & Et & _).
  apply panic_assoc, panic_bind. eapply wpe_getv; [exact Hw|]. destruct (sfi_linkcount (sv_i w) =? 0); [done|].
  apply panic_bind, wpe_ret, panic_bind. eapply wpe_getv; [exact Hw|]. by rewrite <- Et, (dk_type _ Hd).
Qed.

Lemma link_root_spec s a name :
  fsat t s V R → ns_ok V a → name_ok name →
  wpe (sfs_link p name p) (λ res s', keeps s s' ∧
    ((res = inr tt ∧ ∃ a' slot, fsat t s' (<[ROOT := a']> V) R ∧ dir_ok a' ∧ dentry a' name ROOT slot) ∨ (∃ e, res = inl e ∧ link_error a s name e))) s.
Proof.
  intros HS Hns Hn. pose proof (ns_dir _ _ _ _ Hns) as Hd. pose proof (ns_root _ _ _ _ Hns) as Ha. rewrite <- Hr in Ha.
  destruct (fsat_meta s V R p r a HS Hp Ha) as (v & Hv & Ev & _). pose proof (fsat_ino_u32 _ _ _ _ _ HS Ha) as Hu.
  unfold sfs_link. apply wpe_bind. eapply wpe_getv; [exact Hv|]. replace (sv_ino v) with (r_ino r) by (by rewrite <- Ev). apply wpe_bind.
  eapply wpe_mono; [apply (fsat_dir_link (t := t) V R p r a Hp Ha Hd s name _ HS Hn Hu); by rewrite Hr|].
  intros res s1 [Hk [(slot & -> & (Hs & Hlt & Hfree) & Hl & Hno & HS1)|(e & -> & He & _)]]; [|split; [done|]; right; by exists e].
  set (a1 := awrite _ _ _) in HS1. pose proof (new_entry_wf name (r_ino r) Hn Hu Hl) as Hwf. pose proof (new_entry_name name (r_ino r) Hn Hl) as Hnm.
  eapply wpe_mono; [eapply (fsat_links (t := t) s1 _ R p r a1 HS1 Hp (lookup_insert_eq _ _ _) (λ n, u16 (n + 1))); apply (Z.mod_pos_bound _ 65536); lia|].
  intros res s2 (-> & Hk2 & HS2). split; [by eapply keeps_trans|]. left. split; [done|]. rewrite insert_insert_eq, Hr in HS2.
  eexists _, slot. split; [exact HS2|]. change (AFile (a_type a1) ?n (a_size a1) (a_byte a1)) with (with_links n a1). split.
  - apply dir_ok_links, dir_ok_write; [done..|]. right. intros i j Hde. rewrite Hnm in Hde. by destruct (Hno i j).
  - apply dentry_links, dentry_write; [done..|]. right. by rewrite Hnm.
Qed.
End rootlink.

(** C18: SFS makes a link to a directory and then cannot bear it.  Linking the
    root directory under a new name of itself, on a volume in good order with
    enough memory and a disk that does not fail, succeeds unless the name is
    taken or too long or the directory cannot grow; renaming that name
    afterwards, to whatever other name, stops the kernel on the assertion of
    [sfs_rename] that only files are renamed. *)
Theorem sfs_link_directory_breaks_rename (t : Prop) s V R p r a name :
  fsat t s V R → R !! p = Some r → r_ino r = ROOT → uncounted R → ns_ok V a → plenty s → name_ok name →
  wpe (sfs_link p name p) (λ res s', (res = inr tt ∧ ∀ n2, sfs_rename p name p n2 s' = Panic) ∨ (∃ e, res = inl e ∧ link_error a s name e)) s.
Proof.
  intros HS Hp Hr Hun Hns [Hfine Hmem] Hn. eapply wpe_mono; [by eapply (link_root_spec (t := t) V R p r)|].
  intros res s' [Hk [(-> & a' & slot & HS' & Hd & Hde)|?]]; [left|by right]. split; [done|]. intros n2.
  eapply (rename_root_panics (t := t) _ R p r Hp Hr Hun s' a'); [done|apply lookup_insert_eq|done|done|]. split; [by apply (kp_r _ _ Hk)|by apply (kp_o _ _ Hk)].
Qed.

(** The example volume's root gets the name x. *)
Lemma sfs_link_directory_breaks_rename_witness :
  match sfs_link 1 [120] 1 demo with Ret (inr _, _) => True | _ => False end ∧
  wpe (sfs_link 1 [120] 1) (λ res s', (res = inr tt ∧ ∀ n2, sfs_rename 1 [120] 1 n2 s' = Panic) ∨ (∃ e, res = inl e ∧ link_error demo_a demo [120] e)) demo.
Proof.
  split; [vm_compute; exact I|].
  apply (sfs_link_directory_breaks_rename True demo demo_V demo_R 1 (vref_of demo_rootv) demo_a [120]);
    [apply demo_fsat|reflexivity|reflexivity|apply demo_uncounted|apply demo_ns|by apply demo_plenty|apply Forall_singleton; lia].
Defined.
