(* ===== verification/Vfs.v ===== *)
(** The virtual file system (kern/fs/vfs): the table of devices, the current
    and the boot directory, path names, and the calls that open, close and
    change files by name.

    File systems and devices come in through [FsOps] and [DevOps], the tables
    of functions of struct fs, struct vnode_ops and struct device. *)

From Stdlib Require Import ZArith Lia.
From stdpp Require Import base numbers list option gmap countable.
From S2P Require Import Prelude Array Errm LibcProofs Uio.

Open Scope Z_scope.

(** ** What the layer calls *)

(** struct device: the functions that are called by name. *)
Class DevOps (D : Type) := {
  dev_blocks : D → Z;
  dev_blocksize : D → Z;
  d_open : Z → EM D unit;
  d_close : EM D unit;
  d_io : EM (D * uio) unit;
  d_ioctl : Z → Z → EM D unit
}.

(** struct fs and struct vnode_ops: a file system of type [F] on a device of
    type [D]; its vnodes are addresses, their counts are its own. *)
Class FsOps (F D : Type) := {
  fs_device : F → D;
  fs_setdev : D → F → F;
  fs_domount : D → res ((Z + F) * D);
  fsop_sync : EM F unit;
  fsop_getvolname : F → option (list Z);
  fsop_getroot : EM F Z;
  fsop_unmount : EM F unit;
  fs_incref : Z → EM F unit;
  fs_decref : Z → EM F unit;
  fs_incopen : Z → EM F unit;
  fs_decopen : Z → EM F unit;
  vop_open : Z → Z → EM F unit;
  vop_gettype : Z → EM F Z;
  vop_truncate : Z → Z → EM F unit;
  vop_readlink : Z → EM (F * uio) unit;
  vop_namefile : Z → EM (F * uio) unit;
  vop_creat : Z → list Z → bool → EM F Z;
  vop_symlink : Z → list Z → list Z → EM F unit;
  vop_mkdir : Z → list Z → EM F unit;
  vop_link : Z → list Z → Z → EM F unit;
  vop_remove : Z → list Z → EM F unit;
  vop_rmdir : Z → list Z → EM F unit;
  vop_rename : Z → list Z → Z → list Z → EM F unit;
  vop_lookup : Z → list Z → EM F Z;
  vop_lookparent : Z → list Z → Z → EM F (Z * list Z)
}.

(** ** State *)

(** A vnode of the device table or of a file system. *)
Inductive vnode := VNdev (d : Z) | VNfs (f p : Z).

#[export] Instance vnode_eq_dec : EqDecision vnode.
Proof. solve_decision. Defined.
#[export] Instance vnode_countable : Countable vnode.
Proof.
  refine (inj_countable' (λ v, match v with VNdev d => inl d | VNfs f p => inr (f, p) end)
    (λ x, match x with inl d => VNdev d | inr (f, p) => VNfs f p end) _). by intros [].
Defined.

(** A device's vnode; its [vn_data] is the device, [vn_fs] is NULL. *)
Record dvnode := mkDv {
  dv_refcount : Z;
  dv_opencount : Z;
  dv_data : option Z
}.

Record knowndev := mkKd {
  kd_name : list Z;
  kd_rawname : option (list Z);
  kd_device : option Z;
  kd_vnode : Z;
  kd_fs : option Z
}.

(** The table and its entries, the vnodes of devices, the devices (the state
    of one with a mounted file system is part of the file system, whose
    address is here), the file systems,
    the two directories, whether the two locks are held, the next address and
    the outcomes of the allocations to come. *)
Record vfs (F D : Type) := mkVfs {
  v_knowndevs : array Z;
  v_kd : gmap Z knowndev;
  v_dvn : gmap Z dvnode;
  v_dev : gmap Z (D + Z);
  v_fs : gmap Z F;
  v_cwd : option vnode;
  v_bootfs : option vnode;
  v_klock : bool;
  v_block : bool;
  v_next : Z;
  v_orc : oracle
}.
Arguments mkVfs {F D}. Arguments v_knowndevs {F D}. Arguments v_kd {F D}. Arguments v_dvn {F D}. Arguments v_dev {F D}.
Arguments v_fs {F D}. Arguments v_cwd {F D}. Arguments v_bootfs {F D}. Arguments v_klock {F D}. Arguments v_block {F D}.
Arguments v_next {F D}. Arguments v_orc {F D}.

Section ops.
Context {F D : Type} {DO : DevOps D} {FO : FsOps F D}.
Definition set_knowndevs a (s : vfs F D) : vfs F D := mkVfs a (v_kd s) (v_dvn s) (v_dev s) (v_fs s) (v_cwd s) (v_bootfs s) (v_klock s) (v_block s) (v_next s) (v_orc s).
Definition set_vkd m (s : vfs F D) : vfs F D := mkVfs (v_knowndevs s) m (v_dvn s) (v_dev s) (v_fs s) (v_cwd s) (v_bootfs s) (v_klock s) (v_block s) (v_next s) (v_orc s).
Definition set_vdvn m (s : vfs F D) : vfs F D := mkVfs (v_knowndevs s) (v_kd s) m (v_dev s) (v_fs s) (v_cwd s) (v_bootfs s) (v_klock s) (v_block s) (v_next s) (v_orc s).
Definition set_vdev (m : gmap Z (D + Z)) (s : vfs F D) : vfs F D := mkVfs (v_knowndevs s) (v_kd s) (v_dvn s) m (v_fs s) (v_cwd s) (v_bootfs s) (v_klock s) (v_block s) (v_next s) (v_orc s).
Definition set_vfs (m : gmap Z F) (s : vfs F D) : vfs F D := mkVfs (v_knowndevs s) (v_kd s) (v_dvn s) (v_dev s) m (v_cwd s) (v_bootfs s) (v_klock s) (v_block s) (v_next s) (v_orc s).
Definition set_vcwd c (s : vfs F D) : vfs F D := mkVfs (v_knowndevs s) (v_kd s) (v_dvn s) (v_dev s) (v_fs s) c (v_bootfs s) (v_klock s) (v_block s) (v_next s) (v_orc s).
Definition set_vbootfs b (s : vfs F D) : vfs F D := mkVfs (v_knowndevs s) (v_kd s) (v_dvn s) (v_dev s) (v_fs s) (v_cwd s) b (v_klock s) (v_block s) (v_next s) (v_orc s).
Definition set_klock l (s : vfs F D) : vfs F D := mkVfs (v_knowndevs s) (v_kd s) (v_dvn s) (v_dev s) (v_fs s) (v_cwd s) (v_bootfs s) l (v_block s) (v_next s) (v_orc s).
Definition set_block l (s : vfs F D) : vfs F D := mkVfs (v_knowndevs s) (v_kd s) (v_dvn s) (v_dev s) (v_fs s) (v_cwd s) (v_bootfs s) (v_klock s) l (v_next s) (v_orc s).
Definition set_alloc n o (s : vfs F D) : vfs F D := mkVfs (v_knowndevs s) (v_kd s) (v_dvn s) (v_dev s) (v_fs s) (v_cwd s) (v_bootfs s) (v_klock s) (v_block s) n o.

(** Running a file system's function on the file system [f], and a device's
    on the device [d]. *)
Definition onfs {A} (f : Z) (m : EM F A) : EM (vfs F D) A := λ s,
  match v_fs s !! f with
  | None => Undef
  | Some x =>
      match m x with
      | Ret (r, x') => Ret (r, set_vfs (<[f := x']> (v_fs s)) s)
      | Panic => Panic
      | Undef => Undef
      | NoFuel => NoFuel
      end
  end.

Definition onfree {A} (d : Z) (x : D) (m : EM D A) : EM (vfs F D) A := λ s,
  match m x with
  | Ret (r, x') => Ret (r, set_vdev (<[d := inl x']> (v_dev s)) s)
  | Panic => Panic
  | Undef => Undef
  | NoFuel => NoFuel
  end.

Definition onfsdev {A} (m : EM D A) : EM F A := λ y,
  match m (fs_device y) with
  | Ret (r, x') => Ret (r, fs_setdev x' y)
  | Panic => Panic
  | Undef => Undef
  | NoFuel => NoFuel
  end.

Definition ondev {A} (d : option Z) (m : EM D A) : EM (vfs F D) A :=
  s ← eget;
  d ← lift (deref d);
  x ← lift (deref (v_dev s !! d));
  match x with
  | inl x => onfree d x m
  | inr f => onfs f (onfsdev m)
  end.

(** [kmalloc], for objects the model does not look into. *)
Definition v_alloc : EM (vfs F D) bool := λ s,
  let '(ok, o) := kmalloc_ok (v_orc s) in Ret (inr ok, set_alloc (v_next s) o s).

Definition v_new : EM (vfs F D) Z := λ s, Ret (inr (v_next s), set_alloc (v_next s + 1) (v_orc s) s).

(** The locks.  A thread that takes a lock it holds sleeps for ever; here
    that is a failure. *)
Definition knowndevs_acquire : EM (vfs F D) unit := s ← eget; _ ← eassert (negb (v_klock s)); emod (set_klock true).
Definition knowndevs_release : EM (vfs F D) unit := emod (set_klock false).
Definition bootfs_acquire : EM (vfs F D) unit := s ← eget; _ ← eassert (negb (v_block s)); emod (set_block true).
Definition bootfs_release : EM (vfs F D) unit := emod (set_block false).

(** ** vnode.c, on the vnodes of devices *)

Definition getdv (d : Z) : EM (vfs F D) dvnode := s ← eget; lift (deref (v_dvn s !! d)).
Definition putdv (d : Z) (v : dvnode) : EM (vfs F D) unit := emod (λ s, set_vdvn (<[d := v]> (v_dvn s)) s).

(** vnode_check. *)
Definition dv_check (d : Z) : EM (vfs F D) dvnode :=
  v ← getdv d;
  _ ← eassert ((0 <? dv_refcount v) && (0 <=? dv_opencount v));
  mret v.

(** ** device.c *)

Definition dev_open (v : dvnode) (flags : Z) : EM (vfs F D) unit :=
  if negb (Z.land flags (Z.lor O_CREAT (Z.lor O_TRUNC (Z.lor O_EXCL O_APPEND))) =? 0) then raise EINVAL
  else ondev (dv_data v) (d_open flags).

Definition dev_close (v : dvnode) : EM (vfs F D) unit := ondev (dv_data v) d_close.

Definition dev_reclaim : EM (vfs F D) unit := mret tt.

Definition dev_read : EM (D * uio) unit := '(_, u) ← eget; _ ← eassert (is_read u); d_io.

Definition dev_write : EM (D * uio) unit := '(_, u) ← eget; _ ← eassert (negb (is_read u)); d_io.

Definition dev_ioctl (op data : Z) : EM D unit := d_ioctl op data.

Definition dev_gettype : EM D Z :=
  d ← eget;
  mret (if 0 <? dev_blocks d then S_IFBLK else S_IFCHR).

(** Type, links, blocks, size. *)
Definition dev_stat : EM D (Z * Z * Z * Z) :=
  mode ← dev_gettype;
  d ← eget;
  mret (mode, 1, dev_blocks d, if 0 <? dev_blocks d then s32 (u32 (dev_blocks d * dev_blocksize d)) else 0).

(** [pos % dev_blocksize] and [pos / dev_blocksize] are unsigned. *)
Definition dev_tryseek (pos : Z) : EM D unit :=
  d ← eget;
  if 0 <? dev_blocks d then
    if dev_blocksize d =? 0 then lift Undef
    else if negb (u32 pos mod dev_blocksize d =? 0) then raise EINVAL
    else if pos <? 0 then raise EINVAL
    else if dev_blocks d <=? u32 pos / dev_blocksize d then raise EINVAL
    else mret tt
  else raise ESPIPE.

Definition dev_truncate (len : Z) : EM D unit :=
  d ← eget;
  if (0 <? dev_blocks d) && (s32 (u32 (dev_blocks d * dev_blocksize d)) =? len) then mret tt else raise EINVAL.

(** The operations by name: a device is no directory, and its only path is
    the empty one. *)
Definition dev_lookup (d : Z) (path : list Z) : EM (vfs F D) vnode :=
  if 0 <? Z.of_nat (length path) then raise ENOENT else
  v ← getdv d;
  _ ← putdv d (mkDv (s32 (dv_refcount v + 1)) (dv_opencount v) (dv_data v));
  mret (VNdev d).

Definition null_io {A} : EM (vfs F D) A := raise EINVAL.
Definition null_nameop {A} : EM (vfs F D) A := raise ENOTDIR.

(** ** The operations on vnodes *)

Definition vn_incref (v : vnode) : EM (vfs F D) unit :=
  match v with
  | VNfs f p => onfs f (fs_incref p)
  | VNdev d => v ← getdv d; putdv d (mkDv (s32 (dv_refcount v + 1)) (dv_opencount v) (dv_data v))
  end.

Definition vn_decref (v : vnode) : EM (vfs F D) unit :=
  match v with
  | VNfs f p => onfs f (fs_decref p)
  | VNdev d =>
      v ← getdv d;
      _ ← eassert (0 <? dv_refcount v);
      if 1 <? dv_refcount v then putdv d (mkDv (dv_refcount v - 1) (dv_opencount v) (dv_data v))
      else dev_reclaim
  end.

Definition vn_incopen (v : vnode) : EM (vfs F D) unit :=
  match v with
  | VNfs f p => onfs f (fs_incopen p)
  | VNdev d => v ← getdv d; putdv d (mkDv (dv_refcount v) (s32 (dv_opencount v + 1)) (dv_data v))
  end.

Definition vn_decopen (v : vnode) : EM (vfs F D) unit :=
  match v with
  | VNfs f p => onfs f (fs_decopen p)
  | VNdev d =>
      v ← getdv d;
      _ ← eassert (0 <? dv_opencount v);
      let v' := mkDv (dv_refcount v) (dv_opencount v - 1) (dv_data v) in
      _ ← putdv d v';
      if 0 <? dv_opencount v' then mret tt else
      v'' ← dv_check d;
      _ ← attempt (dev_close v'');
      mret tt
  end.

Definition VOP_OPEN (v : vnode) (flags : Z) : EM (vfs F D) unit :=
  match v with
  | VNfs f p => onfs f (vop_open p flags)
  | VNdev d => v ← dv_check d; dev_open v flags
  end.

Definition VOP_GETTYPE (v : vnode) : EM (vfs F D) Z :=
  match v with
  | VNfs f p => onfs f (vop_gettype p)
  | VNdev d => v ← dv_check d; ondev (dv_data v) dev_gettype
  end.

Definition VOP_TRUNC (v : vnode) (len : Z) : EM (vfs F D) unit :=
  match v with
  | VNfs f p => onfs f (vop_truncate p len)
  | VNdev d => v ← dv_check d; ondev (dv_data v) (dev_truncate len)
  end.

Definition VOP_CREAT (v : vnode) (name : list Z) (excl : bool) : EM (vfs F D) vnode :=
  match v with
  | VNfs f p => q ← onfs f (vop_creat p name excl); mret (VNfs f q)
  | VNdev d => _ ← dv_check d; null_nameop
  end.

(** [NewOp] on a directory vnode and a name: symlink, mkdir, remove, rmdir. *)
Definition VOP_NAME (op : Z → EM F unit) (v : vnode) : EM (vfs F D) unit :=
  match v with
  | VNfs f p => onfs f (op p)
  | VNdev d => _ ← dv_check d; null_nameop
  end.

(** The callers have checked that both vnodes are of the same file system. *)
Definition VOP_LINK (v : vnode) (name : list Z) (file : vnode) : EM (vfs F D) unit :=
  match v, file with
  | VNfs f p, VNfs _ q => onfs f (vop_link p name q)
  | VNfs _ _, VNdev _ => lift Undef
  | VNdev d, _ => _ ← dv_check d; null_nameop
  end.

Definition VOP_RENAME (v1 : vnode) (n1 : list Z) (v2 : vnode) (n2 : list Z) : EM (vfs F D) unit :=
  match v1, v2 with
  | VNfs f p, VNfs _ q => onfs f (vop_rename p n1 q n2)
  | VNfs _ _, VNdev _ => lift Undef
  | VNdev d, _ => _ ← dv_check d; null_nameop
  end.

Definition VOP_LOOKUP (v : vnode) (path : list Z) : EM (vfs F D) vnode :=
  match v with
  | VNfs f p => q ← onfs f (vop_lookup p path); mret (VNfs f q)
  | VNdev d => _ ← dv_check d; dev_lookup d path
  end.

Definition VOP_LOOKPARENT (v : vnode) (path : list Z) (buflen : Z) : EM (vfs F D) (vnode * list Z) :=
  match v with
  | VNfs f p => '(q, name) ← onfs f (vop_lookparent p path buflen); mret (VNfs f q, name)
  | VNdev d => _ ← dv_check d; null_nameop
  end.

Definition vn_fs (v : vnode) : option Z := match v with VNfs f _ => Some f | VNdev _ => None end.
End ops.
