(* ===== verification/VfsOps.v ===== *)
(** The calls of the virtual file system: vfslist.c, vfscwd.c, vfslookup.c
    and vfspath.c. *)

From Stdlib Require Import ZArith Lia.
From stdpp Require Import base numbers list option gmap.
From S2P Require Import Prelude Array Errm LibcProofs Uio Vfs.

Open Scope Z_scope.

Section calls.
Context {F D : Type} {DO : DevOps D} {FO : FsOps F D}.
Abbreviation VM := (EM (vfs F D)).

(** ** vfslist.c *)

Definition getkd (i : Z) : VM (Z * knowndev) :=
  s ← eget;
  k ← lift (array_getguy (v_knowndevs s) i);
  kd ← lift (deref (v_kd s !! k));
  mret (k, kd).

Definition numkds : VM nat := s ← eget; mret (Z.to_nat (array_getnum (v_knowndevs s))).

(** [FSOP_GETVOLNAME]. *)
Definition volname_of (f : Z) : VM (option (list Z)) :=
  s ← eget;
  x ← lift (deref (v_fs s !! f));
  mret (fsop_getvolname x).

Definition setkdfs (k : Z) (f : option Z) : VM unit :=
  s ← eget;
  kd ← lift (deref (v_kd s !! k));
  emod (set_vkd (<[k := mkKd (kd_name kd) (kd_rawname kd) (kd_device kd) (kd_vnode kd) f]> (v_kd s))).

Fixpoint vfs_sync_loop (n : nat) (i : Z) : VM unit :=
  match n with
  | O => mret tt
  | S n' =>
      '(_, dev) ← getkd i;
      _ ← (match kd_fs dev with
           | Some f => _ ← attempt (onfs f fsop_sync); mret tt
           | None => mret tt
           end);
      vfs_sync_loop n' (i + 1)
  end.

Definition vfs_sync : VM unit :=
  _ ← knowndevs_acquire;
  num ← numkds;
  _ ← vfs_sync_loop num 0;
  knowndevs_release.

(** What one entry answers to a name: nothing, an error, or a vnode. *)
Definition same (a : list Z) (b : list Z) : bool := bool_decide (a = b).
Definition samename (a : option (list Z)) (b : list Z) : bool := match a with Some x => same x b | None => false end.

Definition kd_answer (kd : knowndev) (devname : list Z) : VM (option vnode) :=
  r ← (match kd_fs kd with
       | Some f =>
           volname ← volname_of f;
           if same (kd_name kd) devname || samename volname devname then
             p ← onfs f fsop_getroot;
             mret (Some (VNfs f p))
           else mret None
       | None =>
           if bool_decide (kd_rawname kd ≠ None) && same (kd_name kd) devname then raise ENXIO
           else mret None
       end);
  match r with
  | Some v => mret (Some v)
  | None =>
      if same (kd_name kd) devname then
        _ ← eassert (bool_decide (kd_fs kd = None));
        _ ← eassert (bool_decide (kd_rawname kd = None));
        _ ← eassert (bool_decide (kd_device kd ≠ None));
        _ ← vn_incref (VNdev (kd_vnode kd));
        mret (Some (VNdev (kd_vnode kd)))
      else if samename (kd_rawname kd) devname then
        _ ← eassert (bool_decide (kd_device kd ≠ None));
        _ ← vn_incref (VNdev (kd_vnode kd));
        mret (Some (VNdev (kd_vnode kd)))
      else mret None
  end.

Fixpoint vfs_getroot_loop (n : nat) (i : Z) (devname : list Z) : VM vnode :=
  match n with
  | O => raise ENODEV
  | S n' =>
      '(_, kd) ← getkd i;
      r ← kd_answer kd devname;
      match r with
      | Some v => mret v
      | None => vfs_getroot_loop n' (i + 1) devname
      end
  end.

Definition vfs_getroot (devname : list Z) : VM vnode :=
  _ ← knowndevs_acquire;
  num ← numkds;
  r ← attempt (vfs_getroot_loop num 0 devname);
  _ ← knowndevs_release;
  reraise r.

Fixpoint vfs_getdevname_loop (n : nat) (i : Z) (f : Z) : VM (option (list Z)) :=
  match n with
  | O => mret None
  | S n' =>
      '(_, kd) ← getkd i;
      if bool_decide (kd_fs kd = Some f) then mret (Some (kd_name kd))
      else vfs_getdevname_loop n' (i + 1) f
  end.

Definition vfs_getdevname (f : Z) : VM (option (list Z)) :=
  _ ← knowndevs_acquire;
  num ← numkds;
  r ← vfs_getdevname_loop num 0 f;
  _ ← knowndevs_release;
  mret r.

(** "raw". *)
Definition mkrawname (name : list Z) : list Z := name ++ [114; 97; 119].

Definition samestring (a b : option (list Z)) : bool :=
  match a, b with Some x, Some y => same x y | _, _ => false end.

Definition samestring3 (a b c d : option (list Z)) : bool := samestring a b || samestring a c || samestring a d.

Fixpoint badnames_loop (n : nat) (i : Z) (n1 n2 n3 : option (list Z)) : VM bool :=
  match n with
  | O => mret false
  | S n' =>
      '(_, kd) ← getkd i;
      bad ← (match kd_fs kd with
             | Some f => volname ← volname_of f; mret (samestring3 volname n1 n2 n3)
             | None => mret false
             end);
      if (bad : bool) || samestring3 (kd_rawname kd) n1 n2 n3 || samestring3 (Some (kd_name kd)) n1 n2 n3
      then mret true
      else badnames_loop n' (i + 1) n1 n2 n3
  end.

Definition badnames (n1 n2 n3 : option (list Z)) : VM bool :=
  s ← eget;
  _ ← eassert (v_klock s);
  num ← numkds;
  badnames_loop num 0 n1 n2 n3.

(** A new vnode for a device; a lock it cannot have is a panic. *)
Definition dev_create_vnode (dev : option Z) : VM (option Z) :=
  ok ← v_alloc;
  if (ok : bool) then
    lk ← v_alloc;
    name ← (if (lk : bool) then v_alloc else mret false);
    if (name : bool) then
      v ← v_new;
      _ ← putdv v (mkDv 1 0 dev);
      mret (Some v)
    else epanic
  else mret None.

Definition vfs_doadd (dname : list Z) (mountable : bool) (dev : option Z) (fs : option Z) : VM unit :=
  ok ← v_alloc;
  if negb ok then raise ENOMEM else
  ok ← (if mountable then v_alloc else mret true);
  if negb ok then raise ENOMEM else
  let rawname := if mountable then Some (mkrawname dname) else None in
  vnode ← dev_create_vnode dev;
  match vnode with
  | None => raise ENOMEM
  | Some v =>
      ok ← v_alloc;
      if negb ok then
        _ ← emod (λ s, set_vdvn (delete v (v_dvn s)) s);
        raise ENOMEM
      else
        k ← v_new;
        _ ← emod (λ s, set_vkd (<[k := mkKd dname rawname dev v fs]> (v_kd s)) s);
        volname ← (match fs with Some f => volname_of f | None => mret None end);
        _ ← knowndevs_acquire;
        bad ← badnames (Some dname) rawname volname;
        r ← (if (bad : bool) then mret EEXIST else
             s ← eget;
             '(e, a, o) ← lift (array_add (v_orc s) (v_knowndevs s) k);
             _ ← emod (λ s, set_alloc (v_next s) o (set_knowndevs a s));
             mret e);
        _ ← knowndevs_release;
        if r =? 0 then mret tt else raise r
  end.

Definition vfs_adddev (devname : list Z) (dev : Z) (mountable : bool) : VM unit := vfs_doadd devname mountable (Some dev) None.

Definition vfs_addfs (devname : list Z) (fs : Z) : VM unit := vfs_doadd devname false None (Some fs).

Fixpoint findmount_loop (n : nat) (i : Z) (devname : list Z) : VM (Z * knowndev) :=
  match n with
  | O => raise ENODEV
  | S n' =>
      '(k, dev) ← getkd i;
      if bool_decide (kd_rawname dev = None) then findmount_loop n' (i + 1) devname
      else if same devname (kd_name dev) then mret (k, dev)
      else findmount_loop n' (i + 1) devname
  end.

Definition findmount (devname : list Z) : VM (Z * knowndev) :=
  s ← eget;
  _ ← eassert (v_klock s);
  num ← numkds;
  findmount_loop num 0 devname.

(** Calling [mountfunc] on a device: the file system it makes has the device
    from then on. *)
Definition mountfunc (dev : Z) : VM Z :=
  s ← eget;
  x ← lift (deref (v_dev s !! dev));
  x ← lift (match x with inl x => Ret x | inr _ => Undef end);
  '(r, x') ← lift (fs_domount x);
  match r with
  | inl e => _ ← emod (λ s, set_vdev (<[dev := inl x']> (v_dev s)) s); raise e
  | inr fs =>
      f ← v_new;
      _ ← emod (λ s, set_vfs (<[f := fs]> (v_fs s)) (set_vdev (<[dev := inr f]> (v_dev s)) s));
      mret f
  end.

Definition vfs_mount_body (devname : list Z) : VM unit :=
  '(k, kd) ← findmount devname;
  if bool_decide (kd_fs kd ≠ None) then raise EBUSY else
  _ ← eassert (bool_decide (kd_rawname kd ≠ None));
  _ ← eassert (bool_decide (kd_device kd ≠ None));
  dev ← lift (deref (kd_device kd));
  f ← mountfunc dev;
  setkdfs k (Some f).

Definition vfs_mount (devname : list Z) : VM unit :=
  _ ← knowndevs_acquire;
  r ← attempt (vfs_mount_body devname);
  _ ← knowndevs_release;
  reraise r.

(** Dropping an unmounted file system: its device is by itself again. *)
Definition dropfs (k f dev : Z) : VM unit :=
  s ← eget;
  x ← lift (deref (v_fs s !! f));
  _ ← emod (λ s, set_vdev (<[dev := inl (fs_device x)]> (v_dev s)) (set_vfs (delete f (v_fs s)) s));
  setkdfs k None.

Definition vfs_unmount_body (devname : list Z) : VM unit :=
  '(k, kd) ← findmount devname;
  match kd_fs kd with
  | None => raise EINVAL
  | Some f =>
      _ ← eassert (bool_decide (kd_rawname kd ≠ None));
      _ ← eassert (bool_decide (kd_device kd ≠ None));
      dev ← lift (deref (kd_device kd));
      _ ← onfs f fsop_sync;
      _ ← onfs f fsop_unmount;
      dropfs k f dev
  end.

Definition vfs_unmount (devname : list Z) : VM unit :=
  _ ← knowndevs_acquire;
  r ← attempt (vfs_unmount_body devname);
  _ ← knowndevs_release;
  reraise r.

(** One entry of [vfs_unmountall]: sync, once more if that fails, unmount. *)
Definition vfs_unmount_one (k : Z) (dev : knowndev) : VM unit :=
  if bool_decide (kd_rawname dev = None) then mret tt else
  match kd_fs dev with
  | None => mret tt
  | Some f =>
      r ← attempt (onfs f fsop_sync);
      r ← (match r with inl _ => attempt (onfs f fsop_sync) | inr _ => mret r end);
      match r with
      | inl _ => mret tt
      | inr _ =>
          r ← attempt (onfs f fsop_unmount);
          match r with
          | inl _ => mret tt
          | inr _ => d ← lift (deref (kd_device dev)); dropfs k f d
          end
      end
  end.

Fixpoint vfs_unmountall_loop (n : nat) (i : Z) : VM unit :=
  match n with
  | O => mret tt
  | S n' =>
      '(k, dev) ← getkd i;
      _ ← vfs_unmount_one k dev;
      vfs_unmountall_loop n' (i + 1)
  end.

Definition vfs_unmountall : VM unit :=
  _ ← knowndevs_acquire;
  num ← numkds;
  _ ← vfs_unmountall_loop num 0;
  knowndevs_release.

(** ** vfscwd.c *)

Definition vfs_getcurdir : VM vnode :=
  s ← eget;
  match v_cwd s with
  | Some v => _ ← vn_incref v; mret v
  | None => raise ENOENT
  end.

Definition vfs_setcurdir (dir : vnode) : VM unit :=
  vtype ← VOP_GETTYPE dir;
  if negb (Z.land vtype S_IFMT =? S_IFDIR) then raise ENOTDIR else
  _ ← vn_incref dir;
  s ← eget;
  let old := v_cwd s in
  _ ← emod (set_vcwd (Some dir));
  match old with
  | Some v => vn_decref v
  | None => mret tt
  end.

Definition vfs_clearcurdir : VM unit :=
  s ← eget;
  let old := v_cwd s in
  _ ← emod (set_vcwd None);
  match old with
  | Some v => vn_decref v
  | None => mret tt
  end.

(** ** vfslookup.c *)

(** The loop for the first colon or slash: their positions, or -1. *)
Fixpoint first_sep (path : list Z) (i : Z) : Z * Z :=
  match path with
  | [] => (-1, -1)
  | c :: path' => if c =? 58 then (-1, i) else if c =? 47 then (i, -1) else first_sep path' (i + 1)
  end.

(** [while (path[k+1] == '/') k++], as what follows position [k]. *)
Fixpoint skip_slashes (rest : list Z) : list Z :=
  match rest with
  | c :: rest' => if c =? 47 then skip_slashes rest' else rest
  | [] => []
  end.

(** The rest of the path and the vnode to start from. *)
Definition getdevice (path : list Z) : VM (list Z * vnode) :=
  let '(slash, colon) := first_sep path 0 in
  if (colon <? 0) && negb (slash =? 0) then
    vn ← vfs_getcurdir;
    mret (path, vn)
  else if 0 <? colon then
    let subpath := skip_slashes (drop (Z.to_nat (colon + 1)) path) in
    vn ← vfs_getroot (take (Z.to_nat colon) path);
    mret (subpath, vn)
  else
    _ ← eassert ((colon =? 0) || (slash =? 0));
    startvn ← (if slash =? 0 then
                 _ ← bootfs_acquire;
                 s ← eget;
                 match v_bootfs s with
                 | None => _ ← bootfs_release; raise ENOENT
                 | Some v => _ ← vn_incref v; _ ← bootfs_release; mret v
                 end
               else
                 vn ← vfs_getcurdir;
                 _ ← eassert (bool_decide (vn_fs vn ≠ None));
                 f ← lift (deref (vn_fs vn));
                 p ← onfs f fsop_getroot;
                 _ ← vn_decref vn;
                 mret (VNfs f p));
    mret (skip_slashes (drop 1 path), startvn).

Definition vfs_lookparent (path : list Z) (buflen : Z) : VM (vnode * list Z) :=
  '(path, startvn) ← getdevice path;
  r ← (match path with
       | [] => mret (inl EINVAL)
       | _ => attempt (VOP_LOOKPARENT startvn path buflen)
       end);
  _ ← vn_decref startvn;
  reraise r.

Definition vfs_lookup (path : list Z) : VM vnode :=
  '(path, startvn) ← getdevice path;
  match path with
  | [] => mret startvn
  | _ =>
      r ← attempt (VOP_LOOKUP startvn path);
      _ ← vn_decref startvn;
      reraise r
  end.

Definition change_bootfs (newguy : option vnode) : VM unit :=
  _ ← bootfs_acquire;
  s ← eget;
  let oldguy := v_bootfs s in
  _ ← emod (set_vbootfs newguy);
  _ ← bootfs_release;
  match oldguy with
  | Some v => vn_decref v
  | None => mret tt
  end.

Definition vfs_chdir (path : list Z) : VM unit :=
  vn ← vfs_lookup path;
  r ← attempt (vfs_setcurdir vn);
  _ ← vn_decref vn;
  reraise r.

(** [snprintf] keeps the first [NAME_MAX - 1] characters. *)
Definition vfs_setbootfs (fsname : list Z) : VM unit :=
  let tmp := take (Z.to_nat (NAME_MAX - 1)) fsname in
  tmp ← (match index_of 58 tmp with
         | Some i => if 0 <? Z.of_nat (length (drop i tmp)) then raise EINVAL else mret tmp
         | None => mret (tmp ++ [58])
         end);
  _ ← vfs_chdir tmp;
  newguy ← vfs_getcurdir;
  change_bootfs (Some newguy).

Definition vfs_clearbootfs : VM unit := change_bootfs None.

(** The name of the current directory, to a uio. *)
Definition on_vfs {A} (m : VM A) : EM (vfs F D * uio) A := onfst m.

Definition vop_namefile_at (v : vnode) : EM (vfs F D * uio) unit := λ '(s, u),
  match v with
  | VNdev _ => Ret (inr tt, (s, u))
  | VNfs f p =>
      match v_fs s !! f with
      | None => Undef
      | Some x =>
          match vop_namefile p (x, u) with
          | Ret (r, (x', u')) => Ret (r, (set_vfs (<[f := x']> (v_fs s)) s, u'))
          | Panic => Panic
          | Undef => Undef
          | NoFuel => NoFuel
          end
      end
  end.

Definition vfs_getcwd : EM (vfs F D * uio) unit :=
  '(_, u) ← eget;
  _ ← eassert (is_read u);
  cwd ← on_vfs vfs_getcurdir;
  f ← on_vfs (lift (match vn_fs cwd with Some f => Ret f | None => Panic end));
  name ← on_vfs (volname_of f);
  name ← (match name with Some n => mret (Some n) | None => on_vfs (vfs_getdevname f) end);
  name ← on_vfs (lift (match name with Some n => Ret n | None => Panic end));
  r ← attempt (_ ← onsnd (uiomove name 0 (Z.of_nat (length name)));
               _ ← onsnd (uiomove [58] 0 1);
               vop_namefile_at cwd);
  _ ← on_vfs (vn_decref cwd);
  reraise r.

(** ** vfspath.c *)

Definition vfs_open (path : list Z) (openflags : Z) : VM vnode :=
  let how := Z.land openflags O_ACCMODE in
  if negb ((how =? O_RDONLY) || (how =? O_WRONLY) || (how =? O_RDWR)) then raise EINVAL else
  let canwrite := negb (how =? O_RDONLY) in
  vn ← (if negb (Z.land openflags O_CREAT =? 0) then
          '(dir, name) ← vfs_lookparent path (NAME_MAX + 1);
          r ← attempt (VOP_CREAT dir name (negb (Z.land openflags O_EXCL =? 0)));
          _ ← vn_decref dir;
          reraise r
        else vfs_lookup path);
  r ← attempt (VOP_OPEN vn openflags);
  match r with
  | inl e => _ ← vn_decref vn; raise e
  | inr _ =>
      _ ← vn_incopen vn;
      if negb (Z.land openflags O_TRUNC =? 0) then
        r ← (if canwrite then attempt (VOP_TRUNC vn 0) else mret (inl EINVAL));
        match r with
        | inl e => _ ← vn_decopen vn; _ ← vn_decref vn; raise e
        | inr _ => mret vn
        end
      else mret vn
  end.

Definition vfs_close (vn : vnode) : VM unit := _ ← vn_decopen vn; vn_decref vn.

Definition vop_readlink_at (v : vnode) : EM (vfs F D * uio) unit := λ '(s, u),
  match v with
  | VNdev _ => Ret (inl EINVAL, (s, u))
  | VNfs f p =>
      match v_fs s !! f with
      | None => Undef
      | Some x =>
          match vop_readlink p (x, u) with
          | Ret (r, (x', u')) => Ret (r, (set_vfs (<[f := x']> (v_fs s)) s, u'))
          | Panic => Panic
          | Undef => Undef
          | NoFuel => NoFuel
          end
      end
  end.

Definition vfs_readlink (path : list Z) : EM (vfs F D * uio) unit :=
  vn ← on_vfs (vfs_lookup path);
  r ← attempt (vop_readlink_at vn);
  _ ← on_vfs (vn_decref vn);
  reraise r.

(** A call on a directory and a name: remove, mkdir, rmdir and symlink. *)
Definition vfs_nameop (op : list Z → Z → EM F unit) (path : list Z) : VM unit :=
  '(dir, name) ← vfs_lookparent path (NAME_MAX + 1);
  r ← attempt (VOP_NAME (op name) dir);
  _ ← vn_decref dir;
  reraise r.

Definition vfs_remove : list Z → VM unit := vfs_nameop (λ name p, vop_remove p name).
Definition vfs_mkdir : list Z → VM unit := vfs_nameop (λ name p, vop_mkdir p name).
Definition vfs_rmdir : list Z → VM unit := vfs_nameop (λ name p, vop_rmdir p name).
Definition vfs_symlink (contents : list Z) : list Z → VM unit := vfs_nameop (λ name p, vop_symlink p name contents).

Definition vfs_rename (oldpath newpath : list Z) : VM unit :=
  '(olddir, oldname) ← vfs_lookparent oldpath (NAME_MAX + 1);
  r ← attempt (vfs_lookparent newpath (NAME_MAX + 1));
  match r with
  | inl e => _ ← vn_decref olddir; raise e
  | inr (newdir, newname) =>
      if bool_decide (vn_fs olddir = None) || bool_decide (vn_fs newdir = None) || bool_decide (vn_fs olddir ≠ vn_fs newdir) then
        _ ← vn_decref newdir;
        _ ← vn_decref olddir;
        raise EXDEV
      else
        r ← attempt (VOP_RENAME olddir oldname newdir newname);
        _ ← vn_decref newdir;
        _ ← vn_decref olddir;
        reraise r
  end.

Definition vfs_link (oldpath newpath : list Z) : VM unit :=
  oldfile ← vfs_lookup oldpath;
  r ← attempt (vfs_lookparent newpath (NAME_MAX + 1));
  match r with
  | inl e => _ ← vn_decref oldfile; raise e
  | inr (newdir, newname) =>
      if bool_decide (vn_fs oldfile = None) || bool_decide (vn_fs newdir = None) || bool_decide (vn_fs oldfile ≠ vn_fs newdir) then
        _ ← vn_decref newdir;
        _ ← vn_decref oldfile;
        raise EXDEV
      else
        r ← attempt (VOP_LINK newdir newname oldfile);
        _ ← vn_decref newdir;
        _ ← vn_decref oldfile;
        reraise r
  end.
End calls.
