(* ===== verification/VfsSpec.v ===== *)
(** What the virtual file system relies on, as classes over the tables of
    functions, and its invariant: who holds which references.

    A file system's promise is about counts.  [fs_at x R O W] says that [x]
    is sound, that its vnodes in use have the reference counts of the
    multiset [R] and the open counts of [O], and that [W] is right about
    which of them are directories ([true]) and which plain files ([false]). *)

From Stdlib Require Import ZArith Lia.
From stdpp Require Import base numbers list option gmap gmultiset.
From S2P Require Import Prelude Array Errm Uio UioProofs Vfs VfsOps.

Open Scope Z_scope.

(** Characters of a C string. *)
Definition chars_ok (l : list Z) : Prop := Forall (λ c, 0 < c < 256) l.

(** Room for [n] more references in an int. *)
Definition room `{Countable A} (n : Z) (R : gmultiset A) : Prop := ∀ x, Z.of_nat (multiplicity x R) + n ≤ 2147483647.

(** ** The promises of devices and file systems *)

Class DevSpec (D : Type) {DO : DevOps D} := {
  dev_fit : D → Prop;
  law_d_open flags x : wpe (d_open flags) (λ _ x', x' = x) x;
  law_d_close x : wpe d_close (λ _ x', x' = x) x
}.

(** What a call that may hand out a vnode does to the references. *)
Definition handed {A} `{Countable A} (r : Z + A) (R : gmultiset A) : gmultiset A :=
  match r with inr q => {[+ q +]} ⊎ R | inl _ => R end.

Class FsSpec (F D : Type) {DO : DevOps D} {FO : FsOps F D} {DS : DevSpec D} := {
  fs_at : F → gmultiset Z → gmultiset Z → gset (Z * bool) → Prop;
  fs_clean : F → Prop;
  law_setdev x : fs_setdev (fs_device x) x = x;
  law_weaken x R O W W' : fs_at x R O W → W' ⊆ W → fs_at x R O W';
  law_mount d : dev_fit d → ∃ r d', fs_domount d = Ret (r, d') ∧
    match r with inr x => fs_at x ∅ ∅ ∅ | inl _ => dev_fit d' end;
  law_sync x R O W : fs_at x R O W →
    wpe fsop_sync (λ r x', fs_at x' R O W ∧ (r = inr tt → fs_clean x')) x;
  law_unmount x R O W : fs_at x R O W → fs_clean x →
    wpe fsop_unmount (λ r x', (r = inr tt ∧ R = ∅ ∧ dev_fit (fs_device x')) ∨ (r = inl EBUSY ∧ R ≠ ∅ ∧ fs_at x' R O W)) x;
  law_getroot x R O W : fs_at x R O W → room 1 R →
    wpe fsop_getroot (λ r x', ∃ q, r = inr q ∧ fs_at x' ({[+ q +]} ⊎ R) O W) x;
  law_incref x R O W p : fs_at x R O W → p ∈ R → room 1 R →
    wpe (fs_incref p) (λ r x', r = inr tt ∧ fs_at x' ({[+ p +]} ⊎ R) O W) x;
  law_decref x R O W p : fs_at x ({[+ p +]} ⊎ R) O W → O ⊆ R → (∀ q b, (q, b) ∈ W → q ∈ R) →
    wpe (fs_decref p) (λ r x', r = inr tt ∧ fs_at x' R O W) x;
  law_incopen x R O W p : fs_at x R O W → p ∈ R → room 1 O →
    wpe (fs_incopen p) (λ r x', r = inr tt ∧ fs_at x' R ({[+ p +]} ⊎ O) W) x;
  law_decopen x R O W p : fs_at x R ({[+ p +]} ⊎ O) W → p ∈ R →
    wpe (fs_decopen p) (λ r x', r = inr tt ∧ fs_at x' R O W) x;
  law_open x R O W p flags : fs_at x R O W → p ∈ R → wpe (vop_open p flags) (λ _ x', fs_at x' R O W) x;
  law_gettype x R O W p : fs_at x R O W → p ∈ R →
    wpe (vop_gettype p) (λ r x', fs_at x' R O W ∧ ∀ t, r = inr t → Z.land t S_IFMT = S_IFDIR → fs_at x' R O ({[(p, true)]} ∪ W)) x;
  law_truncate x R O W p : fs_at x R O W → p ∈ R → wpe (vop_truncate p 0) (λ _ x', fs_at x' R O W) x;
  law_namefile x R O W p u : fs_at x R O W → p ∈ R → (p, true) ∈ W → wpe (vop_namefile p) (λ _ '(x', _), fs_at x' R O W) (x, u);
  law_volname x R O W : fs_at x R O W → ∃ n, fsop_getvolname x = Some n ∧ bytes n;
  law_readlink x R O W p u : fs_at x R O W → p ∈ R → wpe (vop_readlink p) (λ _ '(x', _), fs_at x' R O W) (x, u);
  law_symlink x R O W p name contents : fs_at x R O W → p ∈ R → wpe (vop_symlink p name contents) (λ _ x', fs_at x' R O W) x;
  law_creat x R O W p name excl : fs_at x R O W → p ∈ R → room 1 R → chars_ok name →
    wpe (vop_creat p name excl) (λ r x', fs_at x' (handed r R) O W) x;
  law_mkdir x R O W p name : fs_at x R O W → p ∈ R → wpe (vop_mkdir p name) (λ _ x', fs_at x' R O W) x;
  law_rmdir x R O W p name : fs_at x R O W → p ∈ R → wpe (vop_rmdir p name) (λ _ x', fs_at x' R O W) x;
  law_remove x R O W p name : fs_at x R O W → p ∈ R → room 1 R → chars_ok name → wpe (vop_remove p name) (λ _ x', fs_at x' R O W) x;
  law_rename x R O W p n1 q n2 : fs_at x R O W → p ∈ R → q ∈ R → (p, true) ∈ W → (q, true) ∈ W → room 1 R → chars_ok n1 → chars_ok n2 →
    wpe (vop_rename p n1 q n2) (λ _ x', fs_at x' R O W) x;
  law_link x R O W p name q : fs_at x R O W → p ∈ R → q ∈ R → (q, false) ∈ W → room 1 R → chars_ok name →
    wpe (vop_link p name q) (λ _ x', fs_at x' R O W) x;
  law_lookup x R O W p path : fs_at x R O W → p ∈ R → room 1 R → chars_ok path →
    wpe (vop_lookup p path) (λ r x', match r with
      | inr q => fs_at x' ({[+ q +]} ⊎ R) O ({[(q, false)]} ∪ W)
      | inl _ => fs_at x' R O W
      end) x;
  law_lookparent x R O W p path n : fs_at x R O W → p ∈ R → room 1 R → chars_ok path →
    wpe (vop_lookparent p path n) (λ r x', match r with
      | inr (q, name) => chars_ok name ∧ fs_at x' ({[+ q +]} ⊎ R) O ({[(q, true)]} ∪ W)
      | inl _ => fs_at x' R O W
      end) x
}.

(** What the layer has found about vnodes in use: which are directories,
    besides the current one, and which are not. *)
Class Kinds := known_kinds : gset (vnode * bool).

Definition add_kind {Dx : Kinds} (v : vnode) (b : bool) : Kinds := {[(v, b)]} ∪ known_kinds.

Section inv.
Context {F D : Type} {DO : DevOps D} {FO : FsOps F D} {DS : DevSpec D} {FS : FsSpec F D} {Dx : Kinds}.
Implicit Types (s : vfs F D) (refs opens : gmultiset vnode).

(** ** The device table *)

Record kd_ok s (kd : knowndev) : Prop := {
  ko_dvn : ∃ v, v_dvn s !! kd_vnode kd = Some v ∧ dv_data v = kd_device kd;
  ko_fs : ∀ f, kd_fs kd = Some f → is_Some (v_fs s !! f);
  ko_dev : kd_fs kd = None → ∃ d x, kd_device kd = Some d ∧ v_dev s !! d = Some (inl x) ∧ (kd_rawname kd ≠ None → dev_fit x);
  ko_raw : kd_rawname kd ≠ None → ∃ d, kd_device kd = Some d ∧ ∀ f, kd_fs kd = Some f → v_dev s !! d = Some (inr f);
  ko_some : ∀ d, kd_device kd = Some d → is_Some (v_dev s !! d)
}.

Record table_ok s (l : list Z) : Prop := {
  tb_rep : array_rep (v_knowndevs s) l;
  tb_kd : ∀ k, k ∈ l → ∃ kd, v_kd s !! k = Some kd ∧ kd_ok s kd;
  tb_nodup : NoDup l;
  tb_fs : ∀ k1 k2 kd1 kd2 f, k1 ∈ l → k2 ∈ l → v_kd s !! k1 = Some kd1 → v_kd s !! k2 = Some kd2 →
    kd_fs kd1 = Some f → kd_fs kd2 = Some f → k1 = k2;
  tb_dev : ∀ k1 k2 kd1 kd2 d, k1 ∈ l → k2 ∈ l → v_kd s !! k1 = Some kd1 → v_kd s !! k2 = Some kd2 →
    kd_device kd1 = Some d → kd_device kd2 = Some d → k1 = k2;
  tb_under : ∀ d f, v_dev s !! d = Some (inr f) → is_Some (v_fs s !! f) ∧
    ∃ k kd, k ∈ l ∧ v_kd s !! k = Some kd ∧ kd_device kd = Some d ∧ kd_fs kd = Some f
}.

(** Addresses in use are below the next one. *)
Record fresh_ok s : Prop := {
  fr_kd : ∀ k, v_next s ≤ k → v_kd s !! k = None;
  fr_dvn : ∀ k, v_next s ≤ k → v_dvn s !! k = None;
  fr_dev : ∀ k, v_next s ≤ k → v_dev s !! k = None;
  fr_fs : ∀ k, v_next s ≤ k → v_fs s !! k = None
}.

(** ** Counts *)

(** The directory of [f] that is the current one. *)
Definition cwkind s (f : Z) : gset (Z * bool) :=
  match v_cwd s with Some (VNfs g p) => if decide (g = f) then {[(p, true)]} else ∅ | _ => ∅ end.

(** What is known of the vnodes of [f]. *)
Definition fkinds (f : Z) : gset (Z * bool) :=
  set_omap (λ '(v, b), match v with VNfs g p => if decide (g = f) then Some (p, b) else None | VNdev _ => None end) known_kinds.

Definition kinds s (f : Z) : gset (Z * bool) := cwkind s f ∪ fkinds f.

(** The vnodes of [f] in a multiset of vnodes. *)
Definition part_in (f : Z) (R : gmultiset Z) refs : Prop := ∀ p, multiplicity p R = multiplicity (VNfs f p) refs.

Definition live s (v : vnode) : Prop :=
  match v with
  | VNfs f _ => is_Some (v_fs s !! f)
  | VNdev d => ∃ dv dev, v_dvn s !! d = Some dv ∧ dv_data dv = Some dev ∧ is_Some (v_dev s !! dev)
  end.

Record counts_ok s refs opens : Prop := {
  ct_fs : ∀ f x, v_fs s !! f = Some x → ∃ R O, fs_at x R O (kinds s f) ∧ part_in f R refs ∧ part_in f O opens;
  ct_dvn : ∀ d v, v_dvn s !! d = Some v →
    dv_refcount v = 1 + Z.of_nat (multiplicity (VNdev d) refs) ∧ dv_opencount v = Z.of_nat (multiplicity (VNdev d) opens);
  ct_live : ∀ v, v ∈ refs → live s v
}.

(** The current directory is in a file system. *)
Definition cwd_ok s : Prop := ∀ v, v_cwd s = Some v → ∃ f p, v = VNfs f p.

(** The state of the layer while the references [refs] are held and the
    vnodes [opens] are open. *)
Record vfs_at s refs opens : Prop := {
  va_table : ∃ l, table_ok s l;
  va_fresh : fresh_ok s;
  va_counts : counts_ok s refs opens;
  va_cwd : cwd_ok s;
  va_orc : v_orc s = []
}.

(** What is open is referenced, and so are the directories and the vnodes
    something is known of. *)
Record anchored s refs opens : Prop := {
  an_opens : opens ⊆ refs;
  an_cwd : ∀ v, v_cwd s = Some v → v ∈ refs;
  an_boot : ∀ v, v_bootfs s = Some v → v ∈ refs;
  an_kinds : ∀ v b, (v, b) ∈ known_kinds → v ∈ refs
}.
End inv.
