(* ===== verification/VfsProofs.v ===== *)
(** The references through each call of the virtual file system, proved
    against the promises of [FsSpec] and [DevSpec]. *)

From Stdlib Require Import ZArith Lia.
From stdpp Require Import base numbers list option gmap gmultiset.
From S2P Require Import Prelude Array Errm Uio UioProofs Vfs VfsOps VfsSpec.

Open Scope Z_scope.

(** ** Parts of a multiset of vnodes *)

Lemma part_in_add f R refs q : part_in f R refs → part_in f ({[+ q +]} ⊎ R) ({[+ VNfs f q +]} ⊎ refs).
Proof.
  intros H p. rewrite !multiplicity_disj_union, H. f_equal. destruct (decide (p = q)) as [->|Hne].
  - by rewrite !multiplicity_singleton_eq.
  - rewrite !multiplicity_singleton_ne; congruence.
Qed.

Lemma part_in_sub f R0 refs q : part_in f R0 ({[+ VNfs f q +]} ⊎ refs) → ∃ R, R0 = {[+ q +]} ⊎ R ∧ part_in f R refs.
Proof.
  intros H. assert (q ∈ R0) as Hq.
  { apply elem_of_multiplicity. rewrite H, multiplicity_disj_union, multiplicity_singleton_eq. lia. }
  exists (R0 ∖ {[+ q +]}). pose proof (gmultiset_disj_union_difference' q R0 Hq) as E. split; [done|].
  intros p. pose proof (H p) as Hp. rewrite E, !multiplicity_disj_union in Hp. destruct (decide (p = q)) as [->|Hne].
  - rewrite !multiplicity_singleton_eq in Hp. lia.
  - rewrite !multiplicity_singleton_ne in Hp by congruence. lia.
Qed.

Lemma part_in_elem f R refs p : part_in f R refs → VNfs f p ∈ refs → p ∈ R.
Proof. intros H Hp. apply elem_of_multiplicity in Hp. apply elem_of_multiplicity. by rewrite H. Qed.

Lemma part_in_subset f R O refs opens : part_in f R refs → part_in f O opens → opens ⊆ refs → O ⊆ R.
Proof. intros HR HO H p. rewrite HR, HO. apply H. Qed.

Lemma part_in_room f R refs n : part_in f R refs → room n refs → room n R.
Proof. intros H Hr p. rewrite H. apply Hr. Qed.

Lemma other_in f q v (refs : gmultiset vnode) : (∀ p, v ≠ VNfs f p) → multiplicity v ({[+ VNfs f q +]} ⊎ refs) = multiplicity v refs.
Proof. intros H. by rewrite multiplicity_disj_union, multiplicity_singleton_ne. Qed.

Lemma room_add `{Countable A} n (x : A) R : room (n + 1) R → room n ({[+ x +]} ⊎ R).
Proof.
  intros H' y. rewrite multiplicity_disj_union. specialize (H' y). destruct (decide (y = x)) as [->|Hne].
  - rewrite multiplicity_singleton_eq. lia.
  - rewrite multiplicity_singleton_ne by done. lia.
Qed.

Lemma room_le `{Countable A} n m (R : gmultiset A) : room n R → m ≤ n → room m R.
Proof. intros H' Hm y. specialize (H' y). lia. Qed.

Section proofs.
Context {F D : Type} {DO : DevOps D} {FO : FsOps F D} {DS : DevSpec D} {FS : FsSpec F D} {Dx : Kinds}.
Implicit Types (s : vfs F D) (refs opens : gmultiset vnode).

(** ** States that differ in counts and file systems only *)

Definition moved s s' : Prop := ∃ m n, s' = set_vfs m (set_vdvn n s).

Lemma moved_refl s : moved s s.
Proof. exists (v_fs s), (v_dvn s). by destruct s. Qed.

Lemma moved_trans s1 s2 s3 : moved s1 s2 → moved s2 s3 → moved s1 s3.
Proof. intros (m & n & ->) (m' & n' & ->). by exists m', n'. Qed.

Lemma anchored_moved s s' refs opens : moved s s' → anchored s refs opens → anchored s' refs opens.
Proof. intros (m & n & ->) [A1 A2 A3 A4]. by split. Qed.

Lemma anchored_add s refs opens v : anchored s refs opens → anchored s ({[+ v +]} ⊎ refs) opens.
Proof. intros [A1 A2 A3 A4]. split; [multiset_solver|intros w Hw..]; [specialize (A2 w Hw)|specialize (A3 w Hw)|specialize (A4 w Hw)]; multiset_solver. Qed.

Lemma set_vfs_id s f x : v_fs s !! f = Some x → set_vfs (<[f := x]> (v_fs s)) s = s.
Proof. intros Hf. rewrite insert_id by done. by destruct s. Qed.

(** ** Running code of a file system *)

Lemma wpe_onfs {A} f (m : EM F A) Q s x :
  v_fs s !! f = Some x → wpe m (λ r x', Q r (set_vfs (<[f := x']> (v_fs s)) s)) x → wpe (onfs f m) Q s.
Proof. intros Hf Hm. unfold wpe, onfs in *. rewrite Hf. by destruct (m x) as [[r x']| | |]. Qed.

Lemma live_fs s f x v : live s v → live (set_vfs (<[f := x]> (v_fs s)) s) v.
Proof. destruct v as [d|g p]; [done|]. simpl. intros [y Hy]. rewrite lookup_insert_is_Some'. right. by exists y. Qed.

Lemma kd_ok_fs s f x kd : kd_ok s kd → kd_ok (set_vfs (<[f := x]> (v_fs s)) s) kd.
Proof.
  intros [K1 K2 K3 K4 K5]. split; [done| |done|done|done]. intros g Hg. simpl. rewrite lookup_insert_is_Some'. right. by apply K2.
Qed.

Lemma table_ok_fs s f x l : table_ok s l → table_ok (set_vfs (<[f := x]> (v_fs s)) s) l.
Proof.
  intros [T1 T2 T3 T4 T5 T6]. split; try done.
  - intros k Hk. destruct (T2 k Hk) as (kd & E & Hok). exists kd. split; [done|by apply kd_ok_fs].
  - intros d g Hd. destruct (T6 d g Hd) as (Hs & Hk). split; [|done]. simpl. rewrite lookup_insert_is_Some'. by right.
Qed.

Lemma fresh_ok_fs s f x y : v_fs s !! f = Some y → fresh_ok s → fresh_ok (set_vfs (<[f := x]> (v_fs s)) s).
Proof.
  intros Hf [H1 H2 H3 H4]. split; try done. simpl. intros k Hk. rewrite lookup_insert_ne; [by apply H4|].
  intros ->. rewrite H4 in Hf by done. done.
Qed.

(** The file system [f] in its new state, with the new references. *)
Lemma vfs_at_fs s refs opens refs' opens' f x x' R' O' :
  vfs_at s refs opens → v_fs s !! f = Some x → fs_at x' R' O' (kinds s f) → part_in f R' refs' → part_in f O' opens' →
  (∀ v, (∀ p, v ≠ VNfs f p) → multiplicity v refs' = multiplicity v refs ∧ multiplicity v opens' = multiplicity v opens) →
  vfs_at (set_vfs (<[f := x']> (v_fs s)) s) refs' opens'.
Proof.
  intros [(l & Ht) Hfr [C1 C2 C3] Hc Ho] Hf Hx HR HO Hother. split; [exists l; by apply table_ok_fs|by eapply fresh_ok_fs| |done|done].
  split; simpl.
  - intros g y Hg. apply lookup_insert_Some in Hg as [[<- <-]|[Hne Hg]]; [by exists R', O'|].
    destruct (C1 g y Hg) as (R & O & H1 & H2 & H3). exists R, O. split; [done|].
    split; intros p; destruct (Hother (VNfs g p) ltac:(congruence)) as [E1 E2]; [by rewrite E1|by rewrite E2].
  - intros d v Hd. destruct (Hother (VNdev d) ltac:(done)) as [-> ->]. by apply C2.
  - intros v Hv. destruct v as [d|g p].
    + apply (live_fs s f x'), C3. apply elem_of_multiplicity. apply elem_of_multiplicity in Hv.
      by rewrite <- (proj1 (Hother (VNdev d) ltac:(done))).
    + simpl. destruct (decide (g = f)) as [->|Hne]; [by rewrite lookup_insert_eq|]. rewrite lookup_insert_ne by done.
      apply (C3 (VNfs g p)). apply elem_of_multiplicity. apply elem_of_multiplicity in Hv.
      by rewrite <- (proj1 (Hother (VNfs g p) ltac:(congruence))).
Qed.

(** The same references: any call that keeps them. *)
Lemma onfs_keeps {A} s refs opens f (m : EM F A) x R O :
  vfs_at s refs opens → v_fs s !! f = Some x → part_in f R refs → part_in f O opens →
  wpe m (λ _ x', fs_at x' R O (kinds s f)) x → wpe (onfs f m) (λ _ s', moved s s' ∧ vfs_at s' refs opens) s.
Proof.
  intros HS Hf HR HO Hm. eapply wpe_onfs; [done|]. eapply wpe_mono; [exact Hm|]. intros r x' Hx'. split; [by eexists _, (v_dvn s)|].
  eapply (vfs_at_fs s refs opens); [done|done|exact Hx'|done|done|]. done.
Qed.

(** One more reference, to the vnode the call returns. *)
Lemma onfs_hands s refs opens f (m : EM F Z) x R O :
  vfs_at s refs opens → v_fs s !! f = Some x → part_in f R refs → part_in f O opens →
  wpe m (λ r x', fs_at x' (handed r R) O (kinds s f)) x →
  wpe (q ← onfs f m; mret (VNfs f q)) (λ r s', moved s s' ∧ vfs_at s' (handed r refs) opens) s.
Proof.
  intros HS Hf HR HO Hm. apply wpe_bind. eapply wpe_onfs; [done|]. eapply wpe_mono; [exact Hm|]. intros [e|q] x' Hx'.
  - split; [by eexists _, (v_dvn s)|]. eapply (vfs_at_fs s refs opens); [done|done|exact Hx'|done|done|]. done.
  - apply wpe_ret. split; [by eexists _, (v_dvn s)|]. eapply (vfs_at_fs s refs opens); [done|done|exact Hx'|by apply part_in_add|done|].
    intros v Hv. split; [by apply other_in|done].
Qed.

(** The parts of the references in the file system of a vnode. *)
Lemma vfs_at_part s refs opens f x :
  vfs_at s refs opens → v_fs s !! f = Some x → ∃ R O, fs_at x R O (kinds s f) ∧ part_in f R refs ∧ part_in f O opens.
Proof. intros HS. apply (ct_fs _ _ _ (va_counts _ _ _ HS)). Qed.

Lemma vfs_at_live s refs opens v : vfs_at s refs opens → v ∈ refs → live s v.
Proof. intros HS. apply (ct_live _ _ _ (va_counts _ _ _ HS)). Qed.

(** ** Device vnodes *)

Lemma table_ok_dvn s d v v' l : v_dvn s !! d = Some v → dv_data v' = dv_data v → table_ok s l → table_ok (set_vdvn (<[d := v']> (v_dvn s)) s) l.
Proof.
  intros Hd Hdata [T1 T2 T3 T4 T5 T6]. split; try done. intros k Hk. destruct (T2 k Hk) as (kd & E & [(w & K1 & K1') K2 K3 K4 K5]). exists kd.
  split; [done|]. split; try done. simpl. destruct (decide (kd_vnode kd = d)) as [<-|Hne].
  - exists v'. rewrite lookup_insert_eq. split; [done|]. rewrite Hd in K1. injection K1 as <-. congruence.
  - exists w. by rewrite lookup_insert_ne by done.
Qed.

Lemma live_dvn s d v v' w : v_dvn s !! d = Some v → dv_data v' = dv_data v → live s w → live (set_vdvn (<[d := v']> (v_dvn s)) s) w.
Proof.
  intros Hd Hdata. destruct w as [e|f p]; [|done]. simpl. intros (dv & dev & H1 & H2 & H3). destruct (decide (e = d)) as [->|Hne].
  - exists v', dev. rewrite lookup_insert_eq. split; [done|]. rewrite Hd in H1. injection H1 as <-. split; [congruence|done].
  - exists dv, dev. by rewrite lookup_insert_ne by done.
Qed.

Lemma vfs_at_dvn s refs opens refs' opens' d v v' :
  vfs_at s refs opens → v_dvn s !! d = Some v → dv_data v' = dv_data v →
  dv_refcount v' = 1 + Z.of_nat (multiplicity (VNdev d) refs') → dv_opencount v' = Z.of_nat (multiplicity (VNdev d) opens') →
  (∀ w, w ≠ VNdev d → multiplicity w refs' = multiplicity w refs ∧ multiplicity w opens' = multiplicity w opens) → live s (VNdev d) →
  vfs_at (set_vdvn (<[d := v']> (v_dvn s)) s) refs' opens'.
Proof.
  intros [(l & Ht) [F1 F2 F3 F4] [C1 C2 C3] Hc Ho] Hd Hdata Hr Hop Hother Hlive. split; [exists l; by eapply table_ok_dvn| | |done|done].
  - split; try done. simpl. intros k Hk. rewrite lookup_insert_ne; [by apply F2|]. intros ->. by rewrite F2 in Hd.
  - split; simpl.
    + intros f x Hf. destruct (C1 f x Hf) as (R & O & H1 & H2 & H3). exists R, O. split; [done|].
      split; intros p; destruct (Hother (VNfs f p) ltac:(done)) as [E1 E2]; [by rewrite E1|by rewrite E2].
    + intros e w He. apply lookup_insert_Some in He as [[<- <-]|[Hne He]]; [done|].
      destruct (Hother (VNdev e) ltac:(congruence)) as [-> ->]. by apply C2.
    + intros w Hw. eapply live_dvn; [done..|]. destruct (decide (w = VNdev d)) as [->|Hne]; [done|]. apply C3.
      apply elem_of_multiplicity. apply elem_of_multiplicity in Hw. by rewrite <- (proj1 (Hother w Hne)).
Qed.

Lemma wpe_getdv s d v Q : v_dvn s !! d = Some v → Q (inr v) s → wpe (getdv d) Q s.
Proof. intros Hd HQ. unfold getdv. estep. rewrite Hd. by apply (wpe_lift _ v). Qed.

Lemma wpe_dv_check s refs opens d dv Q : vfs_at s refs opens → v_dvn s !! d = Some dv → Q (inr dv) s → wpe (dv_check d) Q s.
Proof.
  intros HS Hd HQ. destruct (ct_dvn _ _ _ (va_counts _ _ _ HS) d dv Hd) as [E1 E2]. unfold dv_check.
  apply wpe_bind. eapply wpe_getdv; [done|]. apply wpe_bind, wpe_assert; [lia|]. by apply wpe_ret.
Qed.

(** Code that leaves the device as it is leaves the state as it is. *)
Lemma ondev_same {A} s refs opens dev (m : EM D A) (P : Z + A → Prop) :
  vfs_at s refs opens → is_Some (v_dev s !! dev) → (∀ x, wpe m (λ r x', P r ∧ x' = x) x) →
  wpe (ondev (Some dev) m) (λ r s', P r ∧ s' = s) s.
Proof.
  intros HS [[x|f] Hdev] Hm; unfold ondev; estep; apply wpe_bind, (wpe_lift _ dev); [done| |done|];
    rewrite Hdev; apply wpe_bind; (eapply wpe_lift; [done|]).
  - unfold onfree. specialize (Hm x). unfold wpe in *. destruct (m x) as [[r x']| | |]; try done. destruct Hm as [HP ->].
    split; [done|]. rewrite insert_id by done. by destruct s.
  - destruct (va_table _ _ _ HS) as (l & Ht). destruct (tb_under _ _ Ht dev f Hdev) as [[y Hy] _]. eapply wpe_onfs; [done|].
    unfold onfsdev. specialize (Hm (fs_device y)). unfold wpe in *. destruct (m (fs_device y)) as [[r x']| | |]; try done.
    destruct Hm as [HP ->]. split; [done|]. rewrite law_setdev. by apply set_vfs_id.
Qed.

(** ** The operations on vnodes *)

Lemma others_add (v w : vnode) (refs : gmultiset vnode) : w ≠ v → multiplicity w ({[+ v +]} ⊎ refs) = multiplicity w refs.
Proof. intros Hne. by rewrite multiplicity_disj_union, multiplicity_singleton_ne. Qed.

Lemma mult_add (v : vnode) (refs : gmultiset vnode) : multiplicity v ({[+ v +]} ⊎ refs) = S (multiplicity v refs).
Proof. by rewrite multiplicity_disj_union, multiplicity_singleton_eq. Qed.

Lemma vn_incref_spec s refs opens v :
  vfs_at s refs opens → live s v → (vn_fs v ≠ None → v ∈ refs) → room 2 refs →
  wpe (vn_incref v) (λ r s', r = inr tt ∧ moved s s' ∧ vfs_at s' ({[+ v +]} ⊎ refs) opens) s.
Proof.
  intros HS Hl Hin Hroom. destruct v as [d|f p]; simpl.
  - pose proof Hl as (dv & dev & Hd & Hdata & _). destruct (ct_dvn _ _ _ (va_counts _ _ _ HS) d dv Hd) as [E1 E2].
    apply wpe_bind. eapply wpe_getdv; [done|]. apply wpe_mod. split; [done|]. split; [by exists (v_fs s), (<[d := mkDv (s32 (dv_refcount dv + 1)) (dv_opencount dv) (dv_data dv)]> (v_dvn s)); destruct s|].
    specialize (Hroom (VNdev d)). rewrite s32_id by (unfold is_s32; lia).
    eapply (vfs_at_dvn s refs opens); [done|done|done|simpl; rewrite mult_add; lia|done| |done].
    intros w Hw. split; [by apply others_add|done].
  - destruct Hl as [x Hf]. destruct (vfs_at_part _ _ _ _ _ HS Hf) as (R & O & Hx & HR & HO). eapply wpe_onfs; [done|].
    eapply wpe_mono; [apply (law_incref x R O (kinds s f)); [done|eapply part_in_elem; [done|by apply Hin]|eapply part_in_room; [done|]; eapply room_le; [done|lia]]|].
    intros r x' [-> Hx']. split; [done|]. split; [by eexists _, (v_dvn s)|].
    eapply (vfs_at_fs s refs opens); [done|done|exact Hx'|by apply part_in_add|done|]. intros w Hw. split; [by apply other_in|done].
Qed.

Lemma fkinds_elem f p b : (p, b) ∈ fkinds f ↔ (VNfs f p, b) ∈ known_kinds.
Proof.
  unfold fkinds. rewrite elem_of_set_omap. split.
  - intros ([[d|g q] c] & Hv & E); [done|]. case_decide; [|done]. injection E as -> ->. by subst g.
  - intros Hp. exists (VNfs f p, b). split; [done|]. by rewrite decide_True.
Qed.

Lemma elem_of_kinds s f p b : (p, b) ∈ kinds s f ↔ (p, b) ∈ cwkind s f ∨ (VNfs f p, b) ∈ known_kinds.
Proof. unfold kinds. by rewrite elem_of_union, fkinds_elem. Qed.

Lemma cwkind_elem s f p b : (p, b) ∈ cwkind s f → v_cwd s = Some (VNfs f p).
Proof.
  unfold cwkind. intros Hq. destruct (v_cwd s) as [[d|g q]|] eqn:Ec; try by apply not_elem_of_empty in Hq.
  case_decide as Hg; [|by apply not_elem_of_empty in Hq]. subst g. by apply elem_of_singleton in Hq as [= -> ->].
Qed.

Lemma kinds_in s f R refs opens : anchored s refs opens → part_in f R refs → ∀ q b, (q, b) ∈ kinds s f → q ∈ R.
Proof.
  intros HA HR q b Hq. eapply part_in_elem; [done|]. apply elem_of_kinds in Hq as [Hq|Hq]; [|by eapply an_kinds].
  apply (an_cwd _ _ _ HA). by eapply cwkind_elem.
Qed.

Lemma vn_decref_spec s refs opens v :
  vfs_at s ({[+ v +]} ⊎ refs) opens → anchored s refs opens →
  wpe (vn_decref v) (λ r s', r = inr tt ∧ moved s s' ∧ vfs_at s' refs opens) s.
Proof.
  intros HS HA. assert (live s v) as Hl by (eapply vfs_at_live; [done|]; multiset_solver). destruct v as [d|f p]; simpl.
  - pose proof Hl as (dv & dev & Hd & Hdata & _). destruct (ct_dvn _ _ _ (va_counts _ _ _ HS) d dv Hd) as [E1 E2]. rewrite mult_add in E1.
    apply wpe_bind. eapply wpe_getdv; [done|]. apply wpe_bind, wpe_assert; [lia|]. rewrite (proj2 (Z.ltb_lt 1 _)) by lia.
    apply wpe_mod. split; [done|]. split; [by exists (v_fs s), (<[d := mkDv (dv_refcount dv - 1) (dv_opencount dv) (dv_data dv)]> (v_dvn s)); destruct s|].
    eapply (vfs_at_dvn s _ opens); [done|done|done|simpl; lia|done| |done].
    intros w Hw. split; [by rewrite others_add|done].
  - destruct Hl as [x Hf]. destruct (vfs_at_part _ _ _ _ _ HS Hf) as (R0 & O & Hx & HR0 & HO).
    destruct (part_in_sub _ _ _ _ HR0) as (R & -> & HR). eapply wpe_onfs; [done|].
    eapply wpe_mono; [apply (law_decref x R O (kinds s f)); [done|eapply part_in_subset; [done..|apply HA]|by eapply kinds_in]|].
    intros r x' [-> Hx']. split; [done|]. split; [by eexists _, (v_dvn s)|].
    eapply (vfs_at_fs s _ opens); [done|done|exact Hx'|done|done|]. intros w Hw. split; [by rewrite other_in|done].
Qed.

Lemma vn_incopen_spec s refs opens v :
  vfs_at s refs opens → v ∈ refs → room 1 opens →
  wpe (vn_incopen v) (λ r s', r = inr tt ∧ moved s s' ∧ vfs_at s' refs ({[+ v +]} ⊎ opens)) s.
Proof.
  intros HS Hin Hroom. pose proof (vfs_at_live _ _ _ _ HS Hin) as Hl. destruct v as [d|f p]; simpl.
  - pose proof Hl as (dv & dev & Hd & Hdata & _). destruct (ct_dvn _ _ _ (va_counts _ _ _ HS) d dv Hd) as [E1 E2].
    apply wpe_bind. eapply wpe_getdv; [done|]. apply wpe_mod. split; [done|]. split; [by exists (v_fs s), (<[d := mkDv (dv_refcount dv) (s32 (dv_opencount dv + 1)) (dv_data dv)]> (v_dvn s)); destruct s|].
    specialize (Hroom (VNdev d)). rewrite s32_id by (unfold is_s32; lia).
    eapply (vfs_at_dvn s refs opens); [done|done|done|done|simpl; rewrite mult_add; lia| |done].
    intros w Hw. split; [done|by apply others_add].
  - destruct Hl as [x Hf]. destruct (vfs_at_part _ _ _ _ _ HS Hf) as (R & O & Hx & HR & HO). eapply wpe_onfs; [done|].
    eapply wpe_mono; [apply (law_incopen x R O (kinds s f)); [done|by eapply part_in_elem|by eapply part_in_room]|].
    intros r x' [-> Hx']. split; [done|]. split; [by eexists _, (v_dvn s)|].
    eapply (vfs_at_fs s refs opens); [done|done|exact Hx'|done|by apply part_in_add|]. intros w Hw. split; [done|by apply other_in].
Qed.

Lemma vn_decopen_spec s refs opens v :
  vfs_at s refs ({[+ v +]} ⊎ opens) → v ∈ refs →
  wpe (vn_decopen v) (λ r s', r = inr tt ∧ moved s s' ∧ vfs_at s' refs opens) s.
Proof.
  intros HS Hin. pose proof (vfs_at_live _ _ _ _ HS Hin) as Hl. destruct v as [d|f p]; simpl.
  - pose proof Hl as (dv & dev & Hd & Hdata & Hdev). destruct (ct_dvn _ _ _ (va_counts _ _ _ HS) d dv Hd) as [E1 E2]. rewrite mult_add in E2.
    apply wpe_bind. eapply wpe_getdv; [done|]. apply wpe_bind, wpe_assert; [lia|]. cbv zeta. set (v' := mkDv _ _ _).
    set (s1 := set_vdvn (<[d := v']> (v_dvn s)) s).
    assert (moved s s1) as Hm by (exists (v_fs s), (<[d := v']> (v_dvn s)); by destruct s).
    assert (vfs_at s1 refs opens) as HS1.
    { eapply (vfs_at_dvn s refs _); [done|done|done|done|simpl; lia| |done]. intros w Hw. split; [done|by rewrite others_add]. }
    apply wpe_bind, wpe_mod. fold s1. apply wpe_if; intros _; [by apply wpe_ret|].
    assert (v_dvn s1 !! d = Some v') as Hd1 by apply lookup_insert_eq.
    apply wpe_bind. eapply wpe_dv_check; [done|done|]. apply wpe_bind, wpe_attempt. unfold dev_close. simpl. rewrite Hdata.
    eapply wpe_mono; [apply (ondev_same s1 refs opens dev d_close (λ _, True)); [done|done|]|].
    + intros x. eapply wpe_mono; [apply law_d_close|]. done.
    + intros r s' [_ ->]. by apply wpe_ret.
  - destruct Hl as [x Hf]. destruct (vfs_at_part _ _ _ _ _ HS Hf) as (R & O0 & Hx & HR & HO0).
    destruct (part_in_sub _ _ _ _ HO0) as (O & -> & HO). eapply wpe_onfs; [done|].
    eapply wpe_mono; [apply (law_decopen x R O (kinds s f)); [done|by eapply part_in_elem]|].
    intros r x' [-> Hx']. split; [done|]. split; [by eexists _, (v_dvn s)|].
    eapply (vfs_at_fs s refs _); [done|done|exact Hx'|done|done|]. intros w Hw. split; [done|by rewrite other_in].
Qed.

(** A call that changes no counts, on a vnode in use. *)
Definition keeps {A} s refs opens (m : EM (vfs F D) A) : Prop := wpe m (λ _ s', moved s s' ∧ vfs_at s' refs opens) s.

(** A call that hands out a reference. *)
Definition hands s refs opens (m : EM (vfs F D) vnode) : Prop :=
  wpe m (λ r s', moved s s' ∧ vfs_at s' (handed r refs) opens) s.

Section at_vnode.
Context (s : vfs F D) (refs opens : gmultiset vnode) (HS : vfs_at s refs opens).

(** The state of the file system of a vnode in use. *)
Lemma vnode_part f p : VNfs f p ∈ refs →
  ∃ x R O, v_fs s !! f = Some x ∧ fs_at x R O (kinds s f) ∧ part_in f R refs ∧ part_in f O opens ∧ p ∈ R.
Proof.
  intros Hin. destruct (vfs_at_live _ _ _ _ HS Hin) as [x Hf]. destruct (vfs_at_part _ _ _ _ _ HS Hf) as (R & O & Hx & HR & HO).
  exists x, R, O. split_and!; try done. by eapply part_in_elem.
Qed.

Lemma vnode_dev d : VNdev d ∈ refs → ∃ dv dev, v_dvn s !! d = Some dv ∧ dv_data dv = Some dev ∧ is_Some (v_dev s !! dev).
Proof. intros Hin. apply (vfs_at_live _ _ _ _ HS Hin). Qed.

Lemma keeps_raise {A} e (m : EM (vfs F D) A) d : VNdev d ∈ refs → wpe m (λ r s', r = inl e ∧ s' = s) s →
  wpe (_ ← dv_check d; m) (λ r s', r = inl e ∧ s' = s) s.
Proof. intros Hd Hm. destruct (vnode_dev d Hd) as (dv & dev & E & _). apply wpe_bind. by eapply wpe_dv_check. Qed.

Lemma VOP_OPEN_spec v flags : v ∈ refs → keeps s refs opens (VOP_OPEN v flags).
Proof.
  intros Hin. destruct v as [d|f p]; unfold keeps; simpl.
  - destruct (vnode_dev d Hin) as (dv & dev & E & Hdata & Hdev). apply wpe_bind. eapply wpe_dv_check; [done|done|]. unfold dev_open.
    apply wpe_if; intros _; [apply wpe_raise; split; [apply moved_refl|done]|]. rewrite Hdata.
    eapply wpe_mono; [apply (ondev_same s refs opens dev (d_open flags) (λ _, True)); [done|done|]|].
    + intros x. eapply wpe_mono; [apply law_d_open|]. done.
    + intros r s' [_ ->]. split; [apply moved_refl|done].
  - destruct (vnode_part f p Hin) as (x & R & O & Hf & Hx & HR & HO & Hp). eapply onfs_keeps; [done|done|done|done|]. by apply law_open.
Qed.

Lemma VOP_TRUNC_spec v : v ∈ refs → keeps s refs opens (VOP_TRUNC v 0).
Proof.
  intros Hin. destruct v as [d|f p]; unfold keeps; simpl.
  - destruct (vnode_dev d Hin) as (dv & dev & E & Hdata & Hdev). apply wpe_bind. eapply wpe_dv_check; [done|done|]. rewrite Hdata.
    eapply wpe_mono; [apply (ondev_same s refs opens dev (dev_truncate 0) (λ _, True)); [done|done|]|].
    + intros x. unfold dev_truncate. estep. by apply wpe_if.
    + intros r s' [_ ->]. split; [apply moved_refl|done].
  - destruct (vnode_part f p Hin) as (x & R & O & Hf & Hx & HR & HO & Hp). eapply onfs_keeps; [done|done|done|done|]. by apply law_truncate.
Qed.

Lemma VOP_CREAT_spec v name excl : v ∈ refs → room 1 refs → chars_ok name → hands s refs opens (VOP_CREAT v name excl).
Proof.
  intros Hin Hroom Hn. destruct v as [d|f p]; unfold hands; simpl.
  - eapply wpe_mono; [by apply (keeps_raise ENOTDIR)|]. intros r s' [-> ->]. split; [apply moved_refl|done].
  - destruct (vnode_part f p Hin) as (x & R & O & Hf & Hx & HR & HO & Hp). eapply onfs_hands; [done|done|done|done|].
    apply law_creat; try done. by eapply part_in_room.
Qed.

Lemma VOP_NAME_spec (op : Z → EM F unit) v :
  (∀ x R O W p, fs_at x R O W → p ∈ R → room 1 R → wpe (op p) (λ _ x', fs_at x' R O W) x) →
  v ∈ refs → room 1 refs → keeps s refs opens (VOP_NAME op v).
Proof.
  intros Hop Hin Hroom. destruct v as [d|f p]; unfold keeps; simpl.
  - eapply wpe_mono; [by apply (keeps_raise ENOTDIR)|]. intros r s' [-> ->]. split; [apply moved_refl|done].
  - destruct (vnode_part f p Hin) as (x & R & O & Hf & Hx & HR & HO & Hp). eapply onfs_keeps; [done|done|done|done|].
    apply Hop; try done. by eapply part_in_room.
Qed.

Lemma known_in f p b : (VNfs f p, b) ∈ known_kinds → (p, b) ∈ kinds s f.
Proof. intros Hp. apply elem_of_kinds. by right. Qed.

Lemma VOP_RENAME_spec v1 n1 v2 n2 :
  v1 ∈ refs → v2 ∈ refs → (v1, true) ∈ known_kinds → (v2, true) ∈ known_kinds → vn_fs v1 = vn_fs v2 → vn_fs v1 ≠ None → room 1 refs → chars_ok n1 → chars_ok n2 →
  keeps s refs opens (VOP_RENAME v1 n1 v2 n2).
Proof.
  intros H1 H2 K1 K2 He Hne Hroom Hn1 Hn2. destruct v1 as [d|f p], v2 as [d'|g q]; try done. simpl in He. injection He as <-. unfold keeps. simpl.
  destruct (vnode_part f p H1) as (x & R & O & Hf & Hx & HR & HO & Hp). eapply onfs_keeps; [done|done|done|done|].
  apply law_rename; try done; [by eapply part_in_elem|by apply known_in..|by eapply part_in_room].
Qed.

Lemma VOP_LINK_spec v1 name v2 :
  v1 ∈ refs → v2 ∈ refs → (v2, false) ∈ known_kinds → vn_fs v2 = vn_fs v1 → vn_fs v2 ≠ None → room 1 refs → chars_ok name →
  keeps s refs opens (VOP_LINK v1 name v2).
Proof.
  intros H1 H2 K2 He Hne Hroom Hn. destruct v1 as [d|f p], v2 as [d'|g q]; try done. simpl in He. injection He as ->. unfold keeps. simpl.
  destruct (vnode_part f p H1) as (x & R & O & Hf & Hx & HR & HO & Hp). eapply onfs_keeps; [done|done|done|done|].
  apply law_link; try done; [by eapply part_in_elem|by apply known_in|by eapply part_in_room].
Qed.

End at_vnode.
End proofs.

(** ** More known *)

Section kinds.
Context {F D : Type} {DO : DevOps D} {FO : FsOps F D} {DS : DevSpec D} {FS : FsSpec F D} {Dx : Kinds}.
Implicit Types (s : vfs F D) (refs opens : gmultiset vnode).

Lemma elem_of_add w c v b : (w, c) ∈ @known_kinds (add_kind v b) ↔ (w = v ∧ c = b) ∨ (w, c) ∈ known_kinds.
Proof. change (@known_kinds (add_kind v b)) with ({[(v, b)]} ∪ known_kinds). rewrite elem_of_union, elem_of_singleton. intuition congruence. Qed.

Lemma kinds_add s f q b g : kinds (Dx := add_kind (VNfs f q) b) s g = if decide (g = f) then {[(q, b)]} ∪ kinds s g else kinds s g.
Proof.
  apply set_eq. intros [p c]. rewrite elem_of_kinds, elem_of_add. case_decide as E; rewrite ?elem_of_union, ?elem_of_singleton, elem_of_kinds; [subst g|]; intuition congruence.
Qed.

(** The kind of one more vnode. *)
Lemma vfs_at_kind s refs opens f q b x R O :
  vfs_at s refs opens → v_fs s !! f = Some x → fs_at x R O ({[(q, b)]} ∪ kinds s f) → part_in f R refs → part_in f O opens →
  vfs_at (Dx := add_kind (VNfs f q) b) s refs opens.
Proof.
  intros [Ht Hfr [C1 C2 C3] Hc Ho] Hf Hx HR HO. split; [done|done| |done|done]. split; [|done|done].
  intros g y Hg. rewrite kinds_add. case_decide as E; [|by apply C1]. subst g. rewrite Hf in Hg. injection Hg as <-. by exists R, O.
Qed.

(** Less known. *)
Lemma vfs_at_forget (D2 : Kinds) s refs opens :
  (∀ f p b, (VNfs f p, b) ∈ @known_kinds D2 → (VNfs f p, b) ∈ @known_kinds Dx) → vfs_at (Dx := Dx) s refs opens → vfs_at (Dx := D2) s refs opens.
Proof.
  intros Hsub [Ht Hfr [C1 C2 C3] Hc Ho]. split; [done|done| |done|done]. split; [|done|done].
  intros g y Hg. destruct (C1 g y Hg) as (R & O & Hx & HR & HO). exists R, O. split; [|done]. eapply law_weaken; [exact Hx|].
  intros [p b]. rewrite !elem_of_kinds. intros [Hp|Hp]; [by left|right; by apply Hsub].
Qed.

(** The kind of a device is of no interest. *)
Lemma vfs_at_devkind s refs opens d b : vfs_at s refs opens → vfs_at (Dx := add_kind (VNdev d) b) s refs opens.
Proof. apply vfs_at_forget. intros f p c. rewrite elem_of_add. by intros [[??]|?]. Qed.

(** A vnode of a file system and its kind. *)
Lemma handed_kind s refs opens f x x' q b R O :
  vfs_at s refs opens → v_fs s !! f = Some x → part_in f R refs → part_in f O opens → fs_at x' ({[+ q +]} ⊎ R) O ({[(q, b)]} ∪ kinds s f) →
  vfs_at (Dx := add_kind (VNfs f q) b) (set_vfs (<[f := x']> (v_fs s)) s) ({[+ VNfs f q +]} ⊎ refs) opens.
Proof.
  intros HS Hf HR HO Hx'. eapply vfs_at_kind; [|apply lookup_insert_eq|exact Hx'|by apply part_in_add|done].
  eapply (vfs_at_fs s refs opens); [done|done|eapply law_weaken; [exact Hx'|set_solver]|by apply part_in_add|done|].
  intros w Hw. split; [by apply other_in|done].
Qed.

Lemma VOP_LOOKPARENT_spec s refs opens v path n : vfs_at s refs opens → v ∈ refs → room 1 refs → chars_ok path →
  wpe (VOP_LOOKPARENT v path n) (λ r s', moved s s' ∧ match r with
    | inr (w, name) => chars_ok name ∧ vfs_at (Dx := add_kind w true) s' ({[+ w +]} ⊎ refs) opens
    | inl _ => vfs_at s' refs opens
    end) s.
Proof.
  intros HS Hin Hroom Hn. destruct v as [d|f p]; simpl.
  - eapply wpe_mono; [by eapply (keeps_raise s refs opens HS ENOTDIR)|]. intros r s' [-> ->]. split; [apply moved_refl|done].
  - destruct (vnode_part s refs opens HS f p Hin) as (x & R & O & Hf & Hx & HR & HO & Hp). apply wpe_bind. eapply wpe_onfs; [done|].
    eapply wpe_mono; [apply (law_lookparent x R O (kinds s f)); try done; by eapply part_in_room|]. intros [e|[q name]] x' Hx'.
    + split; [by eexists _, (v_dvn s)|]. eapply (vfs_at_fs s refs opens); [done|done|exact Hx'|done|done|]. done.
    + destruct Hx' as [Hc Hx']. apply wpe_ret. split; [by eexists _, (v_dvn s)|]. split; [done|]. by eapply handed_kind.
Qed.

Lemma VOP_LOOKUP_spec s refs opens v path : vfs_at s refs opens → v ∈ refs → room 2 refs → chars_ok path →
  wpe (VOP_LOOKUP v path) (λ r s', moved s s' ∧ match r with
    | inr w => vfs_at (Dx := add_kind w false) s' ({[+ w +]} ⊎ refs) opens
    | inl _ => vfs_at s' refs opens
    end) s.
Proof.
  intros HS Hin Hroom Hn. destruct v as [d|f p]; simpl.
  - destruct (vnode_dev s refs opens HS d Hin) as (dv & dev & E & _). apply wpe_bind. eapply wpe_dv_check; [done|done|]. unfold dev_lookup.
    apply wpe_if; intros _; [apply wpe_raise; split; [apply moved_refl|done]|].
    pose proof (vn_incref_spec s refs opens (VNdev d) HS (vfs_at_live _ _ _ _ HS Hin) ltac:(done) Hroom) as Hinc. simpl in Hinc.
    apply wpe_bind. eapply wpe_getdv; [done|]. unfold wpe in Hinc |- *. unfold mbind, EM_mbind in Hinc |- *. unfold getdv in Hinc.
    simpl in Hinc. unfold mbind, EM_mbind, eget, lift in Hinc. rewrite E in Hinc. simpl in Hinc. destruct Hinc as (_ & Hm & HS'). split; [done|].
    by apply vfs_at_devkind.
  - destruct (vnode_part s refs opens HS f p Hin) as (x & R & O & Hf & Hx & HR & HO & Hp). apply wpe_bind. eapply wpe_onfs; [done|].
    eapply wpe_mono; [apply (law_lookup x R O (kinds s f)); try done; eapply part_in_room; [done|]; eapply room_le; [done|lia]|]. intros [e|q] x' Hx'.
    + split; [by eexists _, (v_dvn s)|]. eapply (vfs_at_fs s refs opens); [done|done|exact Hx'|done|done|]. done.
    + apply wpe_ret. split; [by eexists _, (v_dvn s)|]. by eapply handed_kind.
Qed.
End kinds.
