(* ===== verification/VfsCalls.v ===== *)
(** The calls of the virtual file system keep the account of references:
    lookup hands out one, everything else gives back what it takes. *)

From Stdlib Require Import ZArith Lia.
From stdpp Require Import base numbers list option gmap gmultiset.
From S2P Require Import Prelude Array Errm Uio UioProofs Vfs VfsOps VfsSpec VfsProofs.

Open Scope Z_scope.

Section calls.
Context {F D : Type} {DO : DevOps D} {FO : FsOps F D} {DS : DevSpec D} {FS : FsSpec F D} {Dx : Kinds}.
Implicit Types (s : vfs F D) (refs opens : gmultiset vnode).

(** ** Locks *)

Record unlocked s : Prop := { ul_k : v_klock s = false; ul_b : v_block s = false }.

Lemma unlocked_moved s s' : moved s s' → unlocked s → unlocked s'.
Proof. intros (m & n & ->) [U1 U2]. by split. Qed.

Lemma vfs_at_klock s refs opens b : vfs_at s refs opens → vfs_at (set_klock b s) refs opens.
Proof. intros [(l & [T1 T2 T3 T4 T5 T6]) [F1 F2 F3 F4] [C1 C2 C3] Hc Ho]. split; [|by split|by split|done|done]. exists l. split; try done. intros k Hk.
  destruct (T2 k Hk) as (kd & E & [K1 K2 K3 K4 K5]). exists kd. split; [done|by split]. Qed.

Lemma vfs_at_block s refs opens b : vfs_at s refs opens → vfs_at (set_block b s) refs opens.
Proof. intros [(l & [T1 T2 T3 T4 T5 T6]) [F1 F2 F3 F4] [C1 C2 C3] Hc Ho]. split; [|by split|by split|done|done]. exists l. split; try done. intros k Hk.
  destruct (T2 k Hk) as (kd & E & [K1 K2 K3 K4 K5]). exists kd. split; [done|by split]. Qed.

Lemma moved_klock s s' : unlocked s → moved (set_klock true s) s' → moved s (set_klock false s').
Proof. intros [U1 _] (m & n & ->). exists m, n. unfold set_klock. simpl. unfold set_vfs, set_vdvn. simpl. by rewrite <- U1. Qed.

Lemma moved_block s s' : unlocked s → moved (set_block true s) s' → moved s (set_block false s').
Proof. intros [_ U2] (m & n & ->). exists m, n. unfold set_block. simpl. unfold set_vfs, set_vdvn. simpl. by rewrite <- U2. Qed.

Lemma wpe_kacquire s Q : unlocked s → Q (inr tt) (set_klock true s) → wpe knowndevs_acquire Q s.
Proof. intros [U1 _] HQ. unfold knowndevs_acquire. estep. apply wpe_bind, wpe_assert; [by rewrite U1|]. by apply wpe_mod. Qed.

Lemma wpe_bacquire s Q : unlocked s → Q (inr tt) (set_block true s) → wpe bootfs_acquire Q s.
Proof. intros [_ U2] HQ. unfold bootfs_acquire. estep. apply wpe_bind, wpe_assert; [by rewrite U2|]. by apply wpe_mod. Qed.

(** ** Entries of the table *)

Lemma wpe_numkds s l Q : table_ok s l → Q (inr (length l)) s → wpe numkds Q s.
Proof. intros Ht HQ. unfold numkds. estep. destruct (tb_rep _ _ Ht) as [E _]. unfold array_getnum. rewrite E, Nat2Z.id. by apply wpe_ret. Qed.

Lemma wpe_getkd s l (i : nat) Q :
  table_ok s l → (i < length l)%nat →
  (∀ k kd, l !! i = Some k → v_kd s !! k = Some kd → kd_ok s kd → Q (inr (k, kd)) s) → wpe (getkd (Z.of_nat i)) Q s.
Proof.
  intros Ht Hi HQ. destruct (lookup_lt_is_Some_2 l i Hi) as [k Hk]. destruct (tb_kd _ _ Ht k) as (kd & E & Hok); [by eapply list_elem_of_lookup_2|].
  unfold getkd. estep. apply wpe_bind. eapply wpe_lift; [by eapply array_getguy_ok; [apply Ht|]|]. apply wpe_bind. rewrite E.
  apply (wpe_lift _ kd); [done|]. apply wpe_ret. by apply HQ.
Qed.

(** The vnode of an entry without file system is live. *)
Lemma kd_live s kd d : kd_ok s kd → kd_device kd = Some d → is_Some (v_dev s !! d) → live s (VNdev (kd_vnode kd)).
Proof. intros [(v & E & Ed) _ _ _ _] Hd Hdev. exists v, d. split; [done|]. split; [congruence|done]. Qed.

Definition answered s refs opens (r : Z + option vnode) s' : Prop :=
  moved s s' ∧ match r with
  | inr (Some v) => vfs_at s' ({[+ v +]} ⊎ refs) opens
  | inr None => s' = s
  | inl _ => vfs_at s' refs opens
  end.

Lemma answer_dev s refs opens kd d :
  vfs_at s refs opens → kd_ok s kd → kd_device kd = Some d → is_Some (v_dev s !! d) → room 2 refs →
  wpe (_ ← eassert (bool_decide (kd_device kd ≠ None)); _ ← vn_incref (VNdev (kd_vnode kd)); mret (Some (VNdev (kd_vnode kd))))
    (answered s refs opens) s.
Proof.
  intros HS Hok Ed Hd Hroom. apply wpe_bind, wpe_assert; [by rewrite Ed|]. apply wpe_bind.
  eapply wpe_mono; [apply (vn_incref_spec s refs opens); [done|by eapply kd_live|done|done]|].
  intros r s' (-> & Hm & HS'). by apply wpe_ret.
Qed.

Lemma fsroot_spec s refs opens f x :
  vfs_at s refs opens → v_fs s !! f = Some x → room 1 refs →
  wpe (onfs f fsop_getroot) (λ r s', ∃ q, r = inr q ∧ moved s s' ∧ vfs_at s' ({[+ VNfs f q +]} ⊎ refs) opens) s.
Proof.
  intros HS Hf Hroom. destruct (vfs_at_part _ _ _ _ _ HS Hf) as (R & O & Hx & HR & HO). eapply wpe_onfs; [done|].
  eapply wpe_mono; [apply (law_getroot x R O (kinds s f)); [done|by eapply part_in_room]|].
  intros r x' (q & -> & Hx'). exists q. split; [done|]. split; [by eexists _, (v_dvn s)|].
  eapply (vfs_at_fs s refs opens); [done|done|exact Hx'|by apply part_in_add|done|]. intros w Hw. split; [by apply other_in|done].
Qed.

Lemma kd_answer_spec s refs opens l k kd name :
  vfs_at s refs opens → table_ok s l → k ∈ l → v_kd s !! k = Some kd → kd_ok s kd → room 2 refs →
  wpe (kd_answer kd name) (answered s refs opens) s.
Proof.
  intros HS Ht Hk E Hok Hroom. unfold kd_answer. apply wpe_bind. destruct (kd_fs kd) as [f|] eqn:Ef.
  - destruct (ko_fs _ _ Hok f Ef) as [x Hf]. apply wpe_bind. unfold volname_of. estep. rewrite Hf. apply wpe_bind, (wpe_lift _ x); [done|].
    apply wpe_ret. destruct (same (kd_name kd) name || samename (fsop_getvolname x) name) eqn:En.
    + apply wpe_bind. eapply wpe_mono; [apply (fsroot_spec s refs opens f x); [done|done|eapply room_le; [done|lia]]|].
      intros r s' (q & -> & Hm & HS'). apply wpe_ret, wpe_ret. by split.
    + apply orb_false_iff in En as [-> _]. apply wpe_ret.
      destruct (samename (kd_rawname kd) name) eqn:Er; [|apply wpe_ret; split; [apply moved_refl|done]].
      assert (kd_rawname kd ≠ None) as Hr by (by destruct (kd_rawname kd)). destruct (ko_raw _ _ Hok Hr) as (d & Ed & Hd).
      eapply answer_dev; [done|done|done| |done]. rewrite (Hd f Ef). done.
  - destruct (ko_dev _ _ Hok Ef) as (d & x & Ed & Hd & _). destruct (same (kd_name kd) name) eqn:En.
    + case_bool_decide as Hr; simpl; [apply wpe_raise; split; [apply moved_refl|done]|]. apply wpe_ret.
      apply wpe_bind, wpe_assert; [done|]. apply wpe_bind, wpe_assert; [case_bool_decide; [done|]; by destruct (kd_rawname kd)|].
      eapply answer_dev; [done|done|done|by rewrite Hd|done].
    + rewrite andb_false_r. apply wpe_ret. destruct (samename (kd_rawname kd) name) eqn:Er; [|apply wpe_ret; split; [apply moved_refl|done]].
      eapply answer_dev; [done|done|done|by rewrite Hd|done].
Qed.

Lemma vfs_getroot_loop_spec s refs opens l name n i :
  vfs_at s refs opens → table_ok s l → room 2 refs → (n + i = length l)%nat →
  hands s refs opens (vfs_getroot_loop n (Z.of_nat i) name).
Proof.
  intros HS Ht Hroom. revert i. induction n as [|n IH]; intros i Hi; unfold hands; cbn [vfs_getroot_loop].
  { apply wpe_raise. split; [apply moved_refl|done]. }
  apply wpe_bind. eapply wpe_getkd; [done|lia|]. intros k kd Hk E Hok. apply wpe_bind.
  eapply wpe_mono; [eapply kd_answer_spec; [done|done|by eapply list_elem_of_lookup_2|done|done|done]|].
  intros [e|[v|]] s' [Hm HS']; [by split|by apply wpe_ret|]. subst s'. replace (Z.of_nat i + 1) with (Z.of_nat (S i)) by lia. apply IH. lia.
Qed.

Lemma vfs_getroot_spec s refs opens name :
  vfs_at s refs opens → unlocked s → room 2 refs → hands s refs opens (vfs_getroot name).
Proof.
  intros HS HU Hroom. pose proof (vfs_at_klock s refs opens true HS) as HS1. destruct (va_table _ _ _ HS1) as (l & Ht).
  unfold hands, vfs_getroot. apply wpe_bind, wpe_kacquire; [done|]. apply wpe_bind. eapply wpe_numkds; [done|].
  apply wpe_bind, wpe_attempt. eapply wpe_mono; [apply (vfs_getroot_loop_spec _ refs opens l name (length l) 0); try done; lia|].
  intros r s' [Hm HS']. apply wpe_bind, wpe_mod, wpe_reraise. split; [by apply moved_klock|by apply vfs_at_klock].
Qed.

(** ** The current directory *)

Lemma vfs_getcurdir_spec s refs opens :
  vfs_at s refs opens → anchored s refs opens → room 2 refs →
  wpe vfs_getcurdir (λ r s', moved s s' ∧ vfs_at s' (handed r refs) opens ∧ ∀ v, r = inr v → v_cwd s = Some v) s.
Proof.
  intros HS HA Hroom. unfold vfs_getcurdir. estep. destruct (v_cwd s) as [v|] eqn:Ec.
  - pose proof (an_cwd _ _ _ HA v Ec) as Hin. apply wpe_bind.
    eapply wpe_mono; [apply (vn_incref_spec s refs opens); [done|by eapply vfs_at_live|done|done]|].
    intros r s' (-> & Hm & HS'). apply wpe_ret. split; [done|]. split; [done|]. by intros w [= ->].
  - apply wpe_raise. split; [apply moved_refl|done].
Qed.

Lemma kinds_cwd s c f : kinds (set_vcwd c s) f = match c with Some (VNfs g p) => if decide (g = f) then {[(p, true)]} else ∅ | _ => ∅ end ∪ fkinds f.
Proof. done. Qed.

(** Another current directory: a vnode the file system knows as a directory,
    or none. *)
Lemma vfs_at_cwd s refs opens c :
  vfs_at s refs opens →
  (∀ v, c = Some v → ∃ f p x R O, v = VNfs f p ∧ v_fs s !! f = Some x ∧ fs_at x R O ({[(p, true)]} ∪ kinds s f) ∧ part_in f R refs ∧ part_in f O opens) →
  vfs_at (set_vcwd c s) refs opens.
Proof.
  intros [(l & [T1 T2 T3 T4 T5 T6]) [F1 F2 F3 F4] [C1 C2 C3] Hc Ho] Hv. split; [|by split| | |done].
  - exists l. split; try done. intros k Hk. destruct (T2 k Hk) as (kd & E & [K1 K2 K3 K4 K5]). exists kd. split; [done|by split].
  - split; [|done|done]. intros f x Hf. simpl in Hf. rewrite kinds_cwd. destruct (C1 f x Hf) as (R & O & Hx & HR & HO). unfold kinds in *.
    destruct c as [[d|g p]|]; [by exists R, O; split; [eapply law_weaken; [done|set_solver]|]| |by exists R, O; split; [eapply law_weaken; [done|set_solver]|]].
    case_decide as Hg; [|by exists R, O; split; [eapply law_weaken; [done|set_solver]|]]. subst g.
    destruct (Hv _ eq_refl) as (f' & p' & x' & R' & O' & [= <- <-] & Hf' & Hx' & HR' & HO'). rewrite Hf in Hf'. injection Hf' as <-.
    exists R', O'. split; [|done]. eapply law_weaken; [done|unfold kinds; set_solver].
  - intros v Hc'. simpl in Hc'. destruct (Hv v Hc') as (f & p & _ & _ & _ & -> & _). by exists f, p.
Qed.

Lemma VOP_GETTYPE_spec s refs opens v :
  vfs_at s refs opens → v ∈ refs →
  wpe (VOP_GETTYPE v) (λ r s', moved s s' ∧ vfs_at s' refs opens ∧
    ∀ t, r = inr t → Z.land t S_IFMT = S_IFDIR → ∃ f p x R O, v = VNfs f p ∧ v_fs s' !! f = Some x ∧
      fs_at x R O ({[(p, true)]} ∪ kinds s' f) ∧ part_in f R refs ∧ part_in f O opens) s.
Proof.
  intros HS Hin. destruct v as [d|f p]; simpl.
  - destruct (vnode_dev s refs opens HS d Hin) as (dv & dev & E & Hdata & Hdev). apply wpe_bind. eapply wpe_dv_check; [done|done|]. rewrite Hdata.
    eapply wpe_mono; [apply (ondev_same s refs opens dev dev_gettype (λ r, r = inr S_IFBLK ∨ r = inr S_IFCHR)); [done|done|]|].
    + intros x. unfold dev_gettype. estep. apply wpe_ret. split; [|done]. destruct (0 <? dev_blocks x); [by left|by right].
    + intros r s' [Hr ->]. split; [apply moved_refl|]. split; [done|]. intros t -> Ht. by destruct Hr as [[= ->]|[= ->]].
  - destruct (vnode_part s refs opens HS f p Hin) as (x & R & O & Hf & Hx & HR & HO & Hp). eapply wpe_onfs; [done|].
    eapply wpe_mono; [by apply (law_gettype x R O (kinds s f) p)|]. intros r x' [Hx' Hdir]. split; [by eexists _, (v_dvn s)|].
    split; [eapply (vfs_at_fs s refs opens); [done|done|exact Hx'|done|done|]; done|].
    intros t -> Ht. exists f, p, x', R, O. split; [done|]. split; [apply lookup_insert_eq|]. split; [by apply Hdir with t|done].
Qed.

(** ** The account

    While [T] are the references a call holds and [H] the vnodes clients have
    open, the references are those, the two directories and one for each open
    vnode. *)

Definition opt (o : option vnode) : gmultiset vnode := match o with Some v => {[+ v +]} | None => ∅ end.

Definition refs_of s (T H : gmultiset vnode) : gmultiset vnode := T ⊎ (opt (v_cwd s) ⊎ (opt (v_bootfs s) ⊎ H)).

(** What is known is of vnodes the call holds. *)
Definition inside (T : gmultiset vnode) : Prop := ∀ v b, (v, b) ∈ known_kinds → v ∈ T.

Record acct s (T H : gmultiset vnode) : Prop := {
  ac_at : vfs_at s (refs_of s T H) H;
  ac_unlocked : unlocked s;
  ac_kinds : inside T
}.

Lemma inside_add T v : inside T → inside ({[+ v +]} ⊎ T).
Proof. intros Hi w b Hw. specialize (Hi w b Hw). multiset_solver. Qed.

Lemma inside_handed r T : inside T → inside (handed r T).
Proof. destruct r as [e|v]; [done|apply inside_add]. Qed.

Lemma refs_of_moved s s' T H : moved s s' → refs_of s' T H = refs_of s T H.
Proof. by intros (m & n & ->). Qed.

Lemma refs_of_add s T H v : {[+ v +]} ⊎ refs_of s T H = refs_of s ({[+ v +]} ⊎ T) H.
Proof. unfold refs_of. by rewrite (assoc_L (⊎)). Qed.

Lemma acct_anchored s T H : inside T → anchored s (refs_of s T H) H.
Proof.
  intros Hi. split; unfold refs_of.
  - multiset_solver.
  - intros v ->. simpl. multiset_solver.
  - intros v ->. simpl. multiset_solver.
  - intros v b Hv. specialize (Hi v b Hv). multiset_solver.
Qed.

Lemma acct_temp s T H v : v ∈ T → v ∈ refs_of s T H.
Proof. unfold refs_of. multiset_solver. Qed.

Lemma acct_moved s s' T H : moved s s' → unlocked s → inside T → vfs_at s' (refs_of s T H) H → acct s' T H.
Proof. intros Hm HU Hi HS. split; [by rewrite (refs_of_moved s s')|by eapply unlocked_moved|done]. Qed.

Lemma acct_hands s T H m :
  acct s T H → hands s (refs_of s T H) H m → wpe m (λ r s', moved s s' ∧ acct s' (handed r T) H) s.
Proof.
  intros [HS HU Hi] Hm. eapply wpe_mono; [exact Hm|]. intros r s' [Hmv HS']. split; [done|]. apply (acct_moved s); [done|done|by apply inside_handed|].
  destruct r as [e|v]; [done|]. simpl in *. by rewrite <- refs_of_add.
Qed.

Lemma acct_keeps {A} s T H (m : EM (vfs F D) A) :
  acct s T H → keeps s (refs_of s T H) H m → wpe m (λ _ s', moved s s' ∧ acct s' T H) s.
Proof. intros [HS HU Hi] Hm. eapply wpe_mono; [exact Hm|]. intros r s' [Hmv HS']. split; [done|]. by apply (acct_moved s). Qed.

Lemma acct_decref s T H v :
  acct s ({[+ v +]} ⊎ T) H → inside T → wpe (vn_decref v) (λ r s', r = inr tt ∧ moved s s' ∧ acct s' T H) s.
Proof.
  intros [HS HU _] Hi. rewrite <- refs_of_add in HS. eapply wpe_mono; [by apply (vn_decref_spec s _ H v HS), acct_anchored|].
  intros r s' (-> & Hm & HS'). split; [done|]. split; [done|]. by apply (acct_moved s).
Qed.

Lemma room_moved s s' T H n : moved s s' → room n (refs_of s T H) → room n (refs_of s' T H).
Proof. intros Hm. by rewrite (refs_of_moved s s'). Qed.

Lemma room_temp s T H n v : room (n + 1) (refs_of s T H) → room n (refs_of s ({[+ v +]} ⊎ T) H).
Proof. intros Hr. rewrite <- refs_of_add. by apply room_add. Qed.

Lemma acct_getroot s T H name : acct s T H → room 2 (refs_of s T H) → wpe (vfs_getroot name) (λ r s', moved s s' ∧ acct s' (handed r T) H) s.
Proof. intros HA Hr. apply acct_hands; [done|]. apply vfs_getroot_spec; [apply HA|apply HA|done]. Qed.

Lemma acct_getcurdir s T H :
  acct s T H → room 2 (refs_of s T H) →
  wpe vfs_getcurdir (λ r s', moved s s' ∧ acct s' (handed r T) H ∧ ∀ v, r = inr v → v_cwd s = Some v) s.
Proof.
  intros [HS HU Hi] Hr. eapply wpe_mono; [apply (vfs_getcurdir_spec s (refs_of s T H) H); [done|by apply acct_anchored|done]|].
  intros r s' (Hm & HS' & Hc). split; [done|]. split; [|done]. apply (acct_moved s); [done|done|by apply inside_handed|].
  destruct r as [e|v]; [done|]. simpl in *. by rewrite <- refs_of_add.
Qed.

(** ** Paths *)

Lemma chars_skip path : chars_ok path → chars_ok (skip_slashes path).
Proof. intros H. induction H as [|c path Hc Hp IH]; simpl; [constructor|]. destruct (c =? 47); [done|by constructor]. Qed.

(** What a path has after its device. *)
Definition subpath (path : list Z) : list Z :=
  let '(slash, colon) := first_sep path 0 in
  if (colon <? 0) && negb (slash =? 0) then path
  else skip_slashes (drop (Z.to_nat (if 0 <? colon then colon + 1 else 1)) path).

Definition started s T H path (r : Z + list Z * vnode) s' : Prop :=
  moved s s' ∧ match r with inr (sub, v) => sub = subpath path ∧ chars_ok sub ∧ acct s' ({[+ v +]} ⊎ T) H | inl _ => acct s' T H end.

Lemma bootdir_spec s T H :
  acct s T H → room 2 (refs_of s T H) →
  wpe (_ ← bootfs_acquire; s ← eget;
       match v_bootfs s with
       | None => _ ← bootfs_release; raise ENOENT
       | Some v => _ ← vn_incref v; _ ← bootfs_release; mret v
       end) (λ r s', moved s s' ∧ acct s' (handed r T) H) s.
Proof.
  intros HA Hr. apply acct_hands; [done|]. destruct HA as [HS HU Hi]. unfold hands. apply wpe_bind, wpe_bacquire; [done|]. estep.
  pose proof (vfs_at_block s _ _ true HS) as HS1. change (v_bootfs (set_block true s)) with (v_bootfs s). destruct (v_bootfs s) as [v|] eqn:Eb.
  - assert (v ∈ refs_of s T H) as Hin by (by apply (an_boot _ _ _ (acct_anchored s T H Hi))).
    apply wpe_bind. eapply wpe_mono; [apply (vn_incref_spec _ (refs_of s T H) H); [done|by eapply vfs_at_live|done|done]|].
    intros r s' (-> & Hm & HS'). apply wpe_bind, wpe_mod, wpe_ret. split; [by apply moved_block|by apply vfs_at_block].
  - apply wpe_bind, wpe_mod, wpe_raise. split; [apply moved_block; [done|apply moved_refl]|by apply vfs_at_block].
Qed.

Lemma fsdir_spec s T H :
  acct s T H → room 3 (refs_of s T H) →
  wpe (vn ← vfs_getcurdir; _ ← eassert (bool_decide (vn_fs vn ≠ None)); f ← lift (deref (vn_fs vn)); p ← onfs f fsop_getroot;
       _ ← vn_decref vn; mret (VNfs f p)) (λ r s', moved s s' ∧ acct s' (handed r T) H) s.
Proof.
  intros HA Hr. apply wpe_bind. eapply wpe_mono; [apply (acct_getcurdir s T H); [done|eapply room_le; [done|lia]]|].
  intros [e|v] s1 (Hm1 & HA1 & Hc); [by split|]. destruct (va_cwd _ _ _ (ac_at _ _ _ HA) v (Hc v eq_refl)) as (f & p & ->).
  apply wpe_bind, wpe_assert; [done|]. apply wpe_bind, (wpe_lift _ f); [done|]. simpl in HA1.
  destruct (vfs_at_live _ _ _ (VNfs f p) (ac_at _ _ _ HA1)) as [x Hf]; [apply acct_temp; multiset_solver|].
  apply wpe_bind. eapply wpe_mono; [apply (fsroot_spec s1 _ H f x (ac_at _ _ _ HA1) Hf)|].
  { apply (room_temp s1). apply (room_moved s s1); [done|]. eapply room_le; [done|lia]. }
  intros r s2 (q & -> & Hm2 & HS2). rewrite refs_of_add in HS2. pose proof (acct_moved s1 s2 _ H Hm2 (ac_unlocked _ _ _ HA1) (inside_add _ _ (ac_kinds _ _ _ HA1)) HS2) as HA2.
  apply wpe_bind. rewrite (assoc_L (⊎)), (comm_L (⊎) {[+ VNfs f q +]}), <- (assoc_L (⊎)) in HA2.
  eapply wpe_mono; [apply (acct_decref s2); [done|by apply inside_add, (ac_kinds _ _ _ HA)]|]. intros r s3 (-> & Hm3 & HA3). apply wpe_ret. split; [|done].
  eapply moved_trans; [done|]. by eapply moved_trans.
Qed.

Lemma getdevice_spec s T H path :
  acct s T H → room 3 (refs_of s T H) → chars_ok path → wpe (getdevice path) (started s T H path) s.
Proof.
  intros HA Hr Hp. assert (room 2 (refs_of s T H)) as Hr2 by (eapply room_le; [done|lia]). unfold getdevice, started, subpath.
  destruct (first_sep path 0) as [slash colon]. apply wpe_if; intros E1; rewrite E1.
  { apply wpe_bind. eapply wpe_mono; [by apply acct_getcurdir|]. intros [e|v] s1 (Hm & HA1 & _); [by split|]. apply wpe_ret. by split. }
  assert (∀ n, chars_ok (skip_slashes (drop n path))) as Hsub by (intros n; by apply chars_skip, Forall_drop).
  apply wpe_if; intros E2; rewrite E2.
  { cbv zeta. apply wpe_bind. eapply wpe_mono; [by apply acct_getroot|]. intros [e|v] s1 (Hm & HA1); [by split|]. by apply wpe_ret. }
  apply wpe_bind, wpe_assert; [destruct (Z.ltb_spec colon 0), (Z.eqb_spec slash 0), (Z.eqb_spec colon 0); simpl in *; done || lia|].
  apply wpe_bind. apply wpe_if; intros E3.
  - eapply wpe_mono; [by apply (bootdir_spec s T H)|]. intros [e|v] s1 (Hm & HA1); [by split|]. by apply wpe_ret.
  - eapply wpe_mono; [by apply (fsdir_spec s T H)|]. intros [e|v] s1 (Hm & HA1); [by split|]. by apply wpe_ret.
Qed.
End calls.
