(* ===== verification/VfsPaths.v ===== *)
(** The account of references through the calls that take path names. *)

From Stdlib Require Import ZArith Lia.
From stdpp Require Import base numbers list option gmap gmultiset.
From S2P Require Import Prelude Array Errm LibcProofs Uio UioProofs Vfs VfsOps VfsSpec VfsProofs VfsCalls.

Open Scope Z_scope.

(** [room] in a state reached by a call. *)
Ltac roomy := first
  [ done
  | eapply room_le; [eassumption|lia]
  | apply room_temp; roomy
  | eapply room_moved; [eassumption|]; roomy ].

Section temps.
Context {F D : Type} {DO : DevOps D} {FO : FsOps F D} {DS : DevSpec D} {FS : FsSpec F D} {Dx : Kinds}.
Implicit Types (s : vfs F D) (T H : gmultiset vnode).

Lemma acct_swap s T H v w : acct s ({[+ v +]} ⊎ ({[+ w +]} ⊎ T)) H → acct s ({[+ w +]} ⊎ ({[+ v +]} ⊎ T)) H.
Proof. by rewrite (assoc_L (⊎)), (comm_L (⊎) {[+ v +]}), <- (assoc_L (⊎)). Qed.

(** Releasing a vnode and returning a result. *)
Lemma decref_reraise {A} s0 s T H v (r : Z + A) (Q : Z + A → vfs F D → Prop) :
  acct s ({[+ v +]} ⊎ T) H → inside T → moved s0 s → (∀ s', moved s0 s' → acct s' T H → Q r s') →
  wpe (_ ← vn_decref v; reraise r) Q s.
Proof.
  intros HA Hi Hm HQ. apply wpe_bind. eapply wpe_mono; [by apply (acct_decref s T H)|]. intros r' s' (-> & Hm' & HA').
  apply wpe_reraise. apply HQ; [by eapply moved_trans|done].
Qed.

(** The kind of one vnode more, and forgetting it. *)
Lemma inside_kind T v b : inside T → inside (Dx := add_kind v b) ({[+ v +]} ⊎ T).
Proof.
  intros Hi w c Hw. apply elem_of_add in Hw as [[-> _]|Hw]; [multiset_solver|]. specialize (Hi w c Hw). multiset_solver.
Qed.

Lemma known_add v b : (v, b) ∈ @known_kinds (add_kind v b).
Proof. apply elem_of_add. by left. Qed.

Lemma known_keep v b w c : (w, c) ∈ known_kinds → (w, c) ∈ @known_kinds (add_kind v b).
Proof. intros Hw. apply elem_of_add. by right. Qed.
End temps.

Section paths.
Context {F D : Type} {DO : DevOps D} {FO : FsOps F D} {DS : DevSpec D} {FS : FsSpec F D} {Dx : Kinds}.
Implicit Types (s : vfs F D) (T H : gmultiset vnode).

Lemma acct_forget s T H v b : acct (Dx := add_kind v b) s T H → acct s T H.
Proof.
  intros [HS HU Hi]. split; [|done|].
  - eapply (vfs_at_forget (Dx := add_kind v b)); [|exact HS]. intros f p c. apply known_keep.
  - intros w c Hw. eapply Hi, known_keep, Hw.
Qed.

(** The vnode a path was walked to, whose kind is now known, once the vnode
    the walk began at is released. *)
Lemma walked {A} s0 s1 s2 T H v w b (a : A) (Q : Z + A → vfs F D → Prop) :
  acct s1 ({[+ v +]} ⊎ T) H → inside T → moved s0 s1 → moved s1 s2 →
  vfs_at (Dx := add_kind w b) s2 ({[+ w +]} ⊎ refs_of s1 ({[+ v +]} ⊎ T) H) H →
  (∀ s', moved s0 s' → acct (Dx := add_kind w b) s' ({[+ w +]} ⊎ T) H → Q (inr a) s') → wpe (_ ← vn_decref v; reraise (inr a)) Q s2.
Proof.
  intros HA1 Hi Hm1 Hm2 HS2 HQ. rewrite refs_of_add in HS2.
  pose proof (acct_moved (Dx := add_kind w b) s1 s2 _ H Hm2 (ac_unlocked _ _ _ HA1) (inside_kind _ w b (ac_kinds _ _ _ HA1)) HS2) as HA2.
  eapply (decref_reraise (Dx := add_kind w b) s0 s2); [by apply acct_swap|by apply inside_kind|by eapply moved_trans|done].
Qed.

(** The walk failed. *)
Lemma unwalked {A} s0 s1 s2 T H v e (Q : Z + A → vfs F D → Prop) :
  acct s1 ({[+ v +]} ⊎ T) H → inside T → moved s0 s1 → moved s1 s2 → vfs_at s2 (refs_of s1 ({[+ v +]} ⊎ T) H) H →
  (∀ s', moved s0 s' → acct s' T H → Q (inl e) s') → wpe (_ ← vn_decref v; reraise (inl e)) Q s2.
Proof.
  intros HA1 Hi Hm1 Hm2 HS2 HQ. pose proof (acct_moved s1 s2 _ H Hm2 (ac_unlocked _ _ _ HA1) (ac_kinds _ _ _ HA1) HS2) as HA2.
  eapply (decref_reraise s0 s2); [done|done|by eapply moved_trans|done].
Qed.

Definition looked s T H (r : Z + vnode * list Z) s' : Prop :=
  moved s s' ∧ match r with inr (v, name) => chars_ok name ∧ acct (Dx := add_kind v true) s' ({[+ v +]} ⊎ T) H | inl _ => acct s' T H end.

Lemma vfs_lookparent_spec s T H path n :
  acct s T H → room 3 (refs_of s T H) → chars_ok path → wpe (vfs_lookparent path n) (looked s T H) s.
Proof.
  intros HA Hr Hp. unfold vfs_lookparent. apply wpe_bind. eapply wpe_mono; [by apply getdevice_spec|].
  intros [e|[sub v]] s1 [Hm1 Hc]; [by split|]. destruct Hc as (_ & Hsub & HA1). pose proof (ac_kinds _ _ _ HA) as Hi. destruct sub as [|c sub].
  - apply wpe_bind, wpe_ret. eapply (decref_reraise s s1); [done|done|done|]. intros s2 Hm2 HA2. by split.
  - apply wpe_bind, wpe_attempt. eapply wpe_mono; [apply (VOP_LOOKPARENT_spec s1 _ H v (c :: sub) n (ac_at _ _ _ HA1))|].
    + apply acct_temp. multiset_solver.
    + apply (room_temp s1). roomy.
    + done.
    + intros r s2 [Hm2 Hres]. destruct r as [e|[w name]].
      * eapply (unwalked s s1 s2); try done.
      * destruct Hres as [Hn HS2]. eapply (walked s s1 s2); try done.
Qed.

(** What lookup hands out: the vnode a device or a directory is at, or one
    found by name, which is not a directory. *)
Definition found s T H path (r : Z + vnode) s' : Prop :=
  moved s s' ∧ match r with
  | inr v => acct s' ({[+ v +]} ⊎ T) H ∧ (subpath path ≠ [] → acct (Dx := add_kind v false) s' ({[+ v +]} ⊎ T) H)
  | inl _ => acct s' T H
  end.

Lemma vfs_lookup_found s T H path :
  acct s T H → room 3 (refs_of s T H) → chars_ok path → wpe (vfs_lookup path) (found s T H path) s.
Proof.
  intros HA Hr Hp. unfold vfs_lookup. apply wpe_bind. eapply wpe_mono; [by apply getdevice_spec|].
  intros [e|[sub v]] s1 [Hm1 Hc]; [by split|]. destruct Hc as (Esub & Hsub & HA1). pose proof (ac_kinds _ _ _ HA) as Hi.
  destruct sub as [|c sub]; [apply wpe_ret; split; [done|]; split; [done|by intros []]|].
  apply wpe_bind, wpe_attempt. eapply wpe_mono; [apply (VOP_LOOKUP_spec s1 _ H v _ (ac_at _ _ _ HA1)); [apply acct_temp; multiset_solver| |done]|].
  { apply (room_temp s1). roomy. }
  intros r s2 [Hm2 HS2]. destruct r as [e|w].
  - eapply (unwalked s s1 s2); try done.
  - eapply (walked s s1 s2); try done. intros s3 Hm3 HA3. split; [done|]. split; [by eapply acct_forget|done].
Qed.

Lemma vfs_lookup_spec s T H path :
  acct s T H → room 3 (refs_of s T H) → chars_ok path →
  wpe (vfs_lookup path) (λ r s', moved s s' ∧ acct s' (handed r T) H) s.
Proof. intros HA Hr Hp. eapply wpe_mono; [by apply vfs_lookup_found|]. intros [e|v] s' [Hm Hc]; [done|]. by destruct Hc. Qed.

(** ** The directories *)

(** Everything but the current directory and counts is the same. *)
Definition cwd_moved s s' : Prop := ∃ c, moved (set_vcwd c s) s'.
Definition boot_moved s s' : Prop := ∃ c, moved (set_vbootfs c s) s'.

(** Replacing the current directory: the old one's reference is freed. *)
Lemma replace_cwd s T H c :
  acct s (opt c ⊎ T) H → inside T → vfs_at (set_vcwd c s) (refs_of s (opt c ⊎ T) H) H →
  wpe (_ ← emod (set_vcwd c); match v_cwd s with Some v => vn_decref v | None => mret tt end)
    (λ r s', r = inr tt ∧ moved (set_vcwd c s) s' ∧ acct s' T H) s.
Proof.
  intros [_ HU _] Hi HS. apply wpe_bind, wpe_mod. set (s1 := set_vcwd c s).
  assert (refs_of s (opt c ⊎ T) H = refs_of s1 (opt (v_cwd s) ⊎ T) H) as E.
  { unfold refs_of, s1. simpl. multiset_solver. }
  rewrite E in HS. assert (acct s1 (opt (v_cwd s) ⊎ T) H) as HA1
    by (split; [done|destruct HU; by split|destruct (v_cwd s); [by apply inside_add|simpl; by rewrite (left_id_L ∅ (⊎))]]).
  destruct (v_cwd s) as [v|].
  - by apply acct_decref.
  - apply wpe_ret. split; [done|]. split; [apply moved_refl|]. simpl in HA1. by rewrite (left_id_L ∅ (⊎)) in HA1.
Qed.

Lemma vfs_setcurdir_spec s T H v :
  acct s T H → v ∈ T → room 2 (refs_of s T H) →
  wpe (vfs_setcurdir v) (λ r s', cwd_moved s s' ∧ acct s' T H) s.
Proof.
  intros HA Hin Hr. unfold vfs_setcurdir. apply wpe_bind.
  eapply wpe_mono; [apply (VOP_GETTYPE_spec s _ H v (ac_at _ _ _ HA)); by apply acct_temp|].
  intros r s1 (Hm1 & HS1 & Hdir). pose proof (acct_moved s s1 _ H Hm1 (ac_unlocked _ _ _ HA) (ac_kinds _ _ _ HA) HS1) as HA1.
  assert (∀ s2, moved s s2 → cwd_moved s s2) as Hcm by (intros s2 Hm; exists (v_cwd s); by destruct s).
  destruct r as [e|t]; [split; [by apply Hcm|done]|]. apply wpe_if; intros Et; [apply wpe_raise; split; [by apply Hcm|done]|].
  apply negb_false_iff, Z.eqb_eq in Et. destruct (Hdir t eq_refl Et) as (f & p & x & R & O & -> & Hf & Hx & HR & HO).
  apply wpe_bind. simpl. rewrite <- (refs_of_moved s s1) in HR by done.
  eapply wpe_onfs; [done|]. eapply wpe_mono; [apply (law_incref x R O _ p Hx)|].
  { eapply part_in_elem; [done|]. by apply acct_temp. }
  { eapply part_in_room; [done|]. apply (room_moved s s1); [done|]. eapply room_le; [done|lia]. }
  intros r x' [-> Hx']. set (s2 := set_vfs (<[f := x']> (v_fs s1)) s1). estep. cbv zeta.
  assert (vfs_at s2 ({[+ VNfs f p +]} ⊎ refs_of s1 T H) H) as HS2.
  { eapply (vfs_at_fs s1 _ H); [by apply HA1|done|eapply law_weaken; [exact Hx'|set_solver]|by apply part_in_add|done|].
    intros w Hw. split; [by apply other_in|done]. }
  rewrite refs_of_add in HS2. assert (acct s2 (opt (Some (VNfs f p)) ⊎ T) H) as HA2
    by (split; [done|destruct (ac_unlocked _ _ _ HA1); by split|by apply inside_add, (ac_kinds _ _ _ HA)]).
  change (v_cwd s1) with (v_cwd s2). eapply wpe_mono; [apply (replace_cwd s2 T H); [done|by eapply ac_kinds|]|].
  - apply vfs_at_cwd; [apply HA2|]. intros w [= <-]. exists f, p, x', ({[+ p +]} ⊎ R), O. split; [done|]. split; [apply lookup_insert_eq|].
    split; [exact Hx'|]. split; [|done]. simpl. rewrite <- refs_of_add. by apply part_in_add.
  - intros r s3 (-> & Hm3 & HA3). split; [|done]. exists (Some (VNfs f p)). eapply moved_trans; [|exact Hm3].
    destruct Hm1 as (m & n & ->). by eexists _, _.
Qed.

Lemma vfs_clearcurdir_spec s H : acct s ∅ H → wpe vfs_clearcurdir (λ r s', r = inr tt ∧ moved (set_vcwd None s) s' ∧ acct s' ∅ H) s.
Proof.
  intros HA. unfold vfs_clearcurdir. estep. cbv zeta. assert (opt None ⊎ ∅ = (∅ : gmultiset vnode)) as E by done.
  apply (replace_cwd s ∅ H None); rewrite ?E; [done|by eapply ac_kinds|]. apply vfs_at_cwd; [apply HA|done].
Qed.

Lemma vfs_at_boot s refs opens c : vfs_at s refs opens → vfs_at (set_vbootfs c s) refs opens.
Proof. intros [(l & [T1 T2 T3 T4 T5 T6]) [F1 F2 F3 F4] [C1 C2 C3] Hc Ho]. split; [|by split|by split|done|done]. exists l. split; try done. intros k Hk.
  destruct (T2 k Hk) as (kd & E & [K1 K2 K3 K4 K5]). exists kd. split; [done|by split]. Qed.

Lemma change_bootfs_spec s H c :
  acct s (opt c) H → inside ∅ → wpe (change_bootfs c) (λ r s', r = inr tt ∧ moved (set_vbootfs c s) s' ∧ acct s' ∅ H) s.
Proof.
  intros [HS HU _] Hi. unfold change_bootfs. apply wpe_bind, wpe_bacquire; [done|]. estep. cbv zeta. apply wpe_bind, wpe_mod. apply wpe_bind, wpe_mod.
  replace (set_block false (set_vbootfs c (set_block true s))) with (set_vbootfs c s)
    by (destruct HU as [_ U2]; destruct s; simpl in *; by subst).
  change (v_bootfs (set_block true s)) with (v_bootfs s). set (s1 := set_vbootfs c s).
  assert (acct s1 (opt (v_bootfs s)) H) as HA1.
  { split; [|destruct HU; by split|intros w Hw; specialize (Hi w Hw); multiset_solver]. replace (refs_of s1 (opt (v_bootfs s)) H) with (refs_of s (opt c) H); [by apply vfs_at_boot|].
    unfold refs_of, s1. simpl. multiset_solver. }
  destruct (v_bootfs s) as [v|].
  - apply acct_decref; [|done]. simpl in HA1. by rewrite (right_id_L ∅ (⊎)).
  - apply wpe_ret. split; [done|]. split; [apply moved_refl|done].
Qed.

(** ** Whole calls

    Between calls only the open vnodes and the two directories are
    referenced.  [settled] is what the table's bound needs. *)

Definition settled s s' : Prop := v_knowndevs s' = v_knowndevs s.

Lemma settled_moved s s' : moved s s' → settled s s'.
Proof. by intros (m & n & ->). Qed.

Lemma settled_cwd s s' : cwd_moved s s' → settled s s'.
Proof. by intros (c & m & n & ->). Qed.

Lemma room_held s H n : room (n + 2) H → room n (refs_of s ∅ H).
Proof.
  intros Hr v. unfold refs_of. rewrite !multiplicity_disj_union, multiplicity_empty. specialize (Hr v).
  assert (∀ o, (multiplicity v (opt o) ≤ 1)%nat) as Ho.
  { intros [w|]; simpl; [rewrite multiplicity_singleton; case_decide; lia|rewrite multiplicity_empty; lia]. }
  pose proof (Ho (v_cwd s)). pose proof (Ho (v_bootfs s)). lia.
Qed.

Lemma vfs_chdir_spec s H path :
  acct s ∅ H → room 6 H → chars_ok path → wpe (vfs_chdir path) (λ r s', settled s s' ∧ acct s' ∅ H) s.
Proof.
  intros HA Hr Hp. assert (room 4 (refs_of s ∅ H)) as Hr' by (apply room_held; eapply room_le; [done|lia]).
  unfold vfs_chdir. apply wpe_bind. eapply wpe_mono; [apply vfs_lookup_spec; [done|roomy|done]|].
  intros [e|v] s1 [Hm1 HA1]; [by split; [apply settled_moved|]|]. simpl in HA1. apply wpe_bind, wpe_attempt.
  eapply wpe_mono; [apply (vfs_setcurdir_spec s1 _ H v HA1); [multiset_solver|apply (room_temp s1); roomy]|].
  intros r s2 [Hm2 HA2]. eapply (decref_reraise s2 s2); [done|by eapply ac_kinds|apply moved_refl|]. intros s3 Hm3 HA3. split; [|done].
  unfold settled. rewrite (settled_moved _ _ Hm3), (settled_cwd _ _ Hm2). by apply settled_moved.
Qed.

Lemma vfs_setbootfs_spec s H name :
  acct s ∅ H → room 6 H → chars_ok name → wpe (vfs_setbootfs name) (λ r s', settled s s' ∧ acct s' ∅ H) s.
Proof.
  intros HA Hr Hp. unfold vfs_setbootfs. cbv zeta. set (tmp := take _ name).
  assert (chars_ok tmp) as Htmp by (by apply Forall_take). apply wpe_bind.
  assert (∀ t, chars_ok t → wpe (_ ← vfs_chdir t; newguy ← vfs_getcurdir; change_bootfs (Some newguy)) (λ r s', settled s s' ∧ acct s' ∅ H) s) as Hrest.
  { intros t Ht. apply wpe_bind. eapply wpe_mono; [by apply (vfs_chdir_spec s H t)|]. intros [e|[]] s1 [Hs1 HA1]; [done|].
    apply wpe_bind. eapply wpe_mono; [apply (acct_getcurdir s1 ∅ H HA1); apply room_held; eapply room_le; [done|lia]|].
    intros [e|v] s2 (Hm2 & HA2 & _); [split; [|done]; unfold settled; rewrite (settled_moved _ _ Hm2); done|]. simpl in HA2.
    eapply wpe_mono; [apply (change_bootfs_spec s2 H (Some v)); [simpl; by rewrite (right_id_L ∅ (⊎)) in HA2|by eapply ac_kinds]|].
    intros r s3 (-> & Hm3 & HA3). split; [|done]. unfold settled. rewrite (settled_moved _ _ Hm3). simpl. rewrite (settled_moved _ _ Hm2). done. }
  destruct (index_of 58 tmp) as [i|].
  - apply wpe_if; intros _; [by apply wpe_raise|]. apply wpe_ret. by apply Hrest.
  - apply wpe_ret. apply Hrest. apply Forall_app. split; [done|]. constructor; [lia|constructor].
Qed.

(** [vfs_open] after the vnode has been found. *)
Definition opened s H (r : Z + vnode) s' : Prop :=
  settled s s' ∧ acct s' ∅ (match r with inr v => {[+ v +]} ⊎ H | inl _ => H end).

Lemma acct_open s H v : vfs_at s (refs_of s ({[+ v +]} ⊎ ∅) H) ({[+ v +]} ⊎ H) → unlocked s → inside ∅ → acct s ∅ ({[+ v +]} ⊎ H).
Proof.
  intros HS HU Hi. split; [|done|done]. replace (refs_of s ∅ ({[+ v +]} ⊎ H)) with (refs_of s ({[+ v +]} ⊎ ∅) H); [done|]. unfold refs_of. multiset_solver.
Qed.

Lemma close_spec s H v :
  acct s ∅ ({[+ v +]} ⊎ H) → wpe (vfs_close v) (λ r s', r = inr tt ∧ moved s s' ∧ acct s' ∅ H) s.
Proof.
  intros [HS HU Hi]. replace (refs_of s ∅ ({[+ v +]} ⊎ H)) with (refs_of s ({[+ v +]} ⊎ ∅) H) in HS by (unfold refs_of; multiset_solver).
  unfold vfs_close. apply wpe_bind. eapply wpe_mono; [apply (vn_decopen_spec s _ H v HS), acct_temp; multiset_solver|].
  intros r s1 (-> & Hm1 & HS1). eapply wpe_mono; [apply (acct_decref s1 ∅ H v); [apply (acct_moved s); try done; by apply inside_add|done]|].
  intros r s2 (-> & Hm2 & HA2). split; [done|]. split; [by eapply moved_trans|done].
Qed.

Lemma open_tail_spec s H v flags (canwrite : bool) :
  acct s ({[+ v +]} ⊎ ∅) H → inside ∅ → room 1 H →
  wpe (r ← attempt (VOP_OPEN v flags);
       match r with
       | inl e => _ ← vn_decref v; raise e
       | inr _ =>
           _ ← vn_incopen v;
           if negb (Z.land flags O_TRUNC =? 0) then
             r ← (if canwrite then attempt (VOP_TRUNC v 0) else mret (inl EINVAL));
             match r with
             | inl e => _ ← vn_decopen v; _ ← vn_decref v; raise e
             | inr _ => mret v
             end
           else mret v
       end) (opened s H) s.
Proof.
  intros HA Hi Hr. assert (∀ s', moved s s' → v ∈ refs_of s' ({[+ v +]} ⊎ ∅) H) as Hin by (intros s' _; apply acct_temp; multiset_solver).
  apply wpe_bind, wpe_attempt. eapply wpe_mono; [apply (acct_keeps s _ H _ HA), VOP_OPEN_spec; [apply HA|apply Hin, moved_refl]|].
  intros r s1 [Hm1 HA1]. destruct r as [e|[]].
  { eapply (decref_reraise s s1 ∅ H v (inl e)); [done|done|done|]. intros s2 Hm2 HA2. split; [by apply settled_moved|done]. }
  apply wpe_bind. eapply wpe_mono; [apply (vn_incopen_spec s1 _ H v (ac_at _ _ _ HA1)); [by apply Hin|done]|].
  intros r s2 (-> & Hm2 & HS2). rewrite <- (refs_of_moved s1 s2) in HS2 by done.
  assert (unlocked s2) as HU2 by (eapply unlocked_moved; [done|apply HA1]). pose proof (acct_open s2 H v HS2 HU2 Hi) as HA2.
  assert (moved s s2) as Hm by (by eapply moved_trans).
  apply wpe_if; intros _; [|apply wpe_ret; split; [by apply settled_moved|done]].
  assert (wpe (if canwrite then attempt (VOP_TRUNC v 0) else mret (inl EINVAL)) (λ r s', (∃ x, r = inr x) ∧ moved s2 s' ∧ acct s' ∅ ({[+ v +]} ⊎ H)) s2) as Htr.
  { destruct canwrite; [|apply wpe_ret; split; [by eexists|]; split; [apply moved_refl|done]]. apply wpe_attempt.
    eapply wpe_mono; [apply (acct_keeps s2 _ _ _ HA2), VOP_TRUNC_spec; [apply HA2|unfold refs_of; multiset_solver]|].
    intros r s3 [Hm3 HA3]. split; [by eexists|done]. }
  apply wpe_bind. eapply wpe_mono; [exact Htr|]. intros r s3 ((x & ->) & Hm3 & HA3). assert (moved s s3) as Hm' by (by eapply moved_trans).
  destruct x as [e|[]]; [|apply wpe_ret; split; [by apply settled_moved|done]].
  pose proof (close_spec s3 H v HA3) as Hc. unfold vfs_close in Hc. unfold wpe in Hc |- *. unfold mbind, EM_mbind in Hc |- *.
  destruct (vn_decopen v s3) as [[[e'|[]] s4]| | |]; try done; [by destruct Hc|].
  destruct (vn_decref v s4) as [[[e'|[]] s5]| | |]; try done; destruct Hc as (He & Hm5 & HA5); [done|].
  simpl. split; [apply settled_moved; by eapply moved_trans|done].
Qed.

Lemma vfs_open_spec s H path flags :
  acct s ∅ H → room 6 H → chars_ok path → wpe (vfs_open path flags) (opened s H) s.
Proof.
  intros HA Hr Hp. assert (room 4 (refs_of s ∅ H)) as Hr' by (apply room_held; eapply room_le; [done|lia]).
  unfold vfs_open. cbv zeta. apply wpe_if; intros _; [by apply wpe_raise|].
  assert (∀ s1 v, moved s s1 → acct s1 ({[+ v +]} ⊎ ∅) H → ∀ r s2, opened s1 H r s2 → opened s H r s2) as Hop.
  { intros s1 v Hm1 HA1 r s2 [Hs HA2]. split; [|done]. unfold settled. rewrite Hs. by apply settled_moved. }
  apply wpe_bind. apply wpe_if; intros _.
  - apply wpe_bind. eapply wpe_mono; [apply vfs_lookparent_spec; [done|roomy|done]|].
    intros [e|[dir name]] s1 [Hm1 Hc]; [by split; [apply settled_moved|]|]. destruct Hc as [Hn HA1]. apply acct_forget in HA1. apply wpe_bind, wpe_attempt.
    eapply wpe_mono; [apply (acct_hands s1 _ H _ HA1), VOP_CREAT_spec; [apply HA1|apply acct_temp; multiset_solver|apply (room_temp s1); roomy|done]|].
    intros r s2 [Hm2 HA2]. destruct r as [e|v]; simpl in HA2.
    + eapply (decref_reraise s s2); [done|by eapply ac_kinds|by eapply moved_trans|]. intros s3 Hm3 HA3. split; [by apply settled_moved|done].
    + eapply (decref_reraise s s2); [by apply acct_swap|by apply inside_add, (ac_kinds _ _ _ HA)|by eapply moved_trans|]. intros s3 Hm3 HA3.
      eapply wpe_mono; [apply open_tail_spec; [done|by eapply ac_kinds|eapply room_le; [done|lia]]|]. by eapply Hop.
  - eapply wpe_mono; [apply vfs_lookup_spec; [done|roomy|done]|]. intros [e|v] s1 [Hm1 HA1]; [by split; [apply settled_moved|]|].
    eapply wpe_mono; [apply open_tail_spec; [done|by eapply ac_kinds|eapply room_le; [done|lia]]|]. by eapply Hop.
Qed.

(** A call on a directory and a name, for any function that keeps the
    references. *)
Lemma vfs_nameop_spec s H (op : list Z → Z → EM F unit) path :
  (∀ name x R O W p, chars_ok name → fs_at x R O W → p ∈ R → room 1 R → wpe (op name p) (λ _ x', fs_at x' R O W) x) →
  acct s ∅ H → room 6 H → chars_ok path → wpe (vfs_nameop op path) (λ r s', settled s s' ∧ acct s' ∅ H) s.
Proof.
  intros Hop HA Hr Hp. assert (room 4 (refs_of s ∅ H)) as Hr' by (apply room_held; eapply room_le; [done|lia]).
  unfold vfs_nameop. apply wpe_bind. eapply wpe_mono; [apply vfs_lookparent_spec; [done|roomy|done]|].
  intros [e|[dir name]] s1 [Hm1 Hc]; [by split; [apply settled_moved|]|]. destruct Hc as [Hn HA1]. apply acct_forget in HA1. apply wpe_bind, wpe_attempt.
  eapply wpe_mono; [apply (acct_keeps s1 _ H _ HA1), VOP_NAME_spec; [apply HA1| |apply acct_temp; multiset_solver|apply (room_temp s1); roomy]|].
  { intros. by apply Hop. }
  intros r s2 [Hm2 HA2]. eapply (decref_reraise s s2); [done|by eapply ac_kinds|by eapply moved_trans|]. intros s3 Hm3 HA3. split; [by apply settled_moved|done].
Qed.

Lemma vfs_sync_loop_spec s0 s refs opens l n i :
  vfs_at s refs opens → table_ok s l → moved s0 s → (n + i = length l)%nat →
  wpe (vfs_sync_loop n (Z.of_nat i)) (λ r s', r = inr tt ∧ moved s0 s' ∧ vfs_at s' refs opens) s.
Proof.
  revert s i. induction n as [|n IH]; intros s i HS Ht Hm Hi; cbn [vfs_sync_loop]; [by apply wpe_ret|].
  apply wpe_bind. eapply wpe_getkd; [done|lia|]. intros k kd Hk E Hok. replace (Z.of_nat i + 1) with (Z.of_nat (S i)) by lia.
  destruct (kd_fs kd) as [f|] eqn:Ef; [|apply wpe_bind, wpe_ret, IH; try done; lia].
  destruct (ko_fs _ _ Hok f Ef) as [x Hf]. destruct (vfs_at_part _ _ _ _ _ HS Hf) as (R & O & Hx & HR & HO).
  apply wpe_bind, wpe_bind, wpe_attempt. eapply wpe_onfs; [done|]. eapply wpe_mono; [by apply (law_sync x R O (kinds s f))|].
  intros r x' [Hx' _]. apply wpe_ret. apply IH; [|by apply table_ok_fs| |lia].
  - eapply (vfs_at_fs s refs opens); [done|done|exact Hx'|done|done|]. done.
  - eapply moved_trans; [done|]. by eexists _, (v_dvn s).
Qed.

Lemma vfs_sync_spec s H : acct s ∅ H → wpe vfs_sync (λ r s', r = inr tt ∧ settled s s' ∧ acct s' ∅ H) s.
Proof.
  intros [HS HU Hi]. pose proof (vfs_at_klock s _ _ true HS) as HS1. destruct (va_table _ _ _ HS1) as (l & Ht).
  unfold vfs_sync. apply wpe_bind, wpe_kacquire; [done|]. apply wpe_bind. eapply wpe_numkds; [done|].
  apply wpe_bind. eapply wpe_mono; [apply (vfs_sync_loop_spec (set_klock true s) _ (refs_of s ∅ H) H l (length l) 0); [done|done|apply moved_refl|lia]|].
  intros r s' (-> & Hm & HS'). apply wpe_mod. pose proof (moved_klock s s' HU Hm) as Hm'. split; [done|]. split; [by apply settled_moved|].
  apply (acct_moved s); [done|done|done|]. by apply vfs_at_klock.
Qed.
End paths.

(** ** Two paths *)

Section twopaths.
Context {F D : Type} {DO : DevOps D} {FO : FsOps F D} {DS : DevSpec D} {FS : FsSpec F D} {Dx : Kinds}.
Implicit Types (s : vfs F D) (T H : gmultiset vnode).

(** Both vnodes are released at the end. *)
Lemma decref_both s0 s H v1 v2 (r : Z + unit) :
  moved s0 s → inside ∅ → acct s ({[+ v2 +]} ⊎ ({[+ v1 +]} ⊎ ∅)) H →
  wpe (_ ← vn_decref v2; _ ← vn_decref v1; reraise r) (λ r s', settled s0 s' ∧ acct s' ∅ H) s.
Proof.
  intros Hm Hi HA. apply wpe_bind. eapply wpe_mono; [apply (acct_decref s); [done|by apply inside_add]|]. intros r' s1 (-> & Hm1 & HA1).
  eapply (decref_reraise s0 s1); [done|done|by eapply moved_trans|]. intros s2 Hm2 HA2. split; [by apply settled_moved|done].
Qed.

(** A first vnode, of known kind, then the directory of the second path, then
    [m] unless they are not in the same file system. *)
Lemma second_path s s1 H v1 b p2 (m : vnode → list Z → EM (vfs F D) unit) :
  acct s ∅ H → moved s s1 → acct (Dx := add_kind v1 b) s1 ({[+ v1 +]} ⊎ ∅) H → room 4 (refs_of s ∅ H) → chars_ok p2 →
  (∀ s2 v2 name, acct (Dx := add_kind (Dx := add_kind v1 b) v2 true) s2 ({[+ v2 +]} ⊎ ({[+ v1 +]} ⊎ ∅)) H →
     room 1 (refs_of s2 ({[+ v2 +]} ⊎ ({[+ v1 +]} ⊎ ∅)) H) → chars_ok name → vn_fs v1 = vn_fs v2 → vn_fs v1 ≠ None →
     keeps (Dx := add_kind (Dx := add_kind v1 b) v2 true) s2 (refs_of s2 ({[+ v2 +]} ⊎ ({[+ v1 +]} ⊎ ∅)) H) H (m v2 name)) →
  wpe (r ← attempt (vfs_lookparent p2 (NAME_MAX + 1));
       match r with
       | inl e => _ ← vn_decref v1; raise e
       | inr (v2, name) =>
           if bool_decide (vn_fs v1 = None) || bool_decide (vn_fs v2 = None) || bool_decide (vn_fs v1 ≠ vn_fs v2) then
             _ ← vn_decref v2; _ ← vn_decref v1; raise EXDEV
           else r ← attempt (m v2 name); _ ← vn_decref v2; _ ← vn_decref v1; reraise r
       end) (λ r s', settled s s' ∧ acct s' ∅ H) s1.
Proof.
  intros HA Hm1 HA1 Hr Hp2 Hop. pose proof (ac_kinds _ _ _ HA) as Hi. apply wpe_bind, wpe_attempt.
  eapply wpe_mono; [apply (vfs_lookparent_spec (Dx := add_kind v1 b) s1 ({[+ v1 +]} ⊎ ∅) H p2); [done|apply (room_temp s1); roomy|done]|].
  intros r s2 [Hm2 Hc]. assert (moved s s2) as Hm by (by eapply moved_trans). destruct r as [e|[v2 name]].
  { apply acct_forget in Hc. eapply (decref_reraise s s2 ∅ H v1 (inl e)); [done|done|done|]. intros s3 Hm3 HA3. split; [by apply settled_moved|done]. }
  destruct Hc as [Hn HA2]. assert (∀ s3 r, moved s s3 → acct (Dx := add_kind (Dx := add_kind v1 b) v2 true) s3 ({[+ v2 +]} ⊎ ({[+ v1 +]} ⊎ ∅)) H →
    wpe (_ ← vn_decref v2; _ ← vn_decref v1; reraise r) (λ (_ : Z + unit) s', settled s s' ∧ acct s' ∅ H) s3) as Hend.
  { intros s3 r Hm3 HA3. apply decref_both; [done|done|]. by eapply acct_forget, acct_forget. }
  apply wpe_if; intros E; [by apply (Hend s2 (inl EXDEV))|].
  apply orb_false_iff in E as [E E3]. apply orb_false_iff in E as [E1 E2]. apply bool_decide_eq_false in E1, E2, E3.
  apply wpe_bind, wpe_attempt. eapply wpe_mono; [apply (acct_keeps (Dx := add_kind (Dx := add_kind v1 b) v2 true) s2 _ H _ HA2), Hop; try done|].
  - apply (room_temp s2). apply (room_temp s2). roomy.
  - destruct (decide (vn_fs v1 = vn_fs v2)); done.
  - intros r s3 [Hm3 HA3]. apply Hend; [by eapply moved_trans|done].
Qed.

Lemma vfs_rename_spec s H p1 p2 :
  acct s ∅ H → room 6 H → chars_ok p1 → chars_ok p2 → wpe (vfs_rename p1 p2) (λ r s', settled s s' ∧ acct s' ∅ H) s.
Proof.
  intros HA Hr H1 H2. assert (room 4 (refs_of s ∅ H)) as Hr' by (apply room_held; eapply room_le; [done|lia]).
  unfold vfs_rename. apply wpe_bind. eapply wpe_mono; [apply vfs_lookparent_spec; [done|roomy|done]|].
  intros [e|[d1 n1]] s1 [Hm1 Hc]; [by split; [apply settled_moved|]|]. destruct Hc as [Hn1 HA1].
  apply (second_path s s1 H d1 true p2 (λ d2 n2, VOP_RENAME d1 n1 d2 n2)); try done. intros s2 d2 n2 HA2 Hr2 Hn2 He Hne.
  apply VOP_RENAME_spec; try done; [apply HA2|apply acct_temp; multiset_solver..|apply known_keep, known_add|apply known_add].
Qed.

(** Links, to what is not a directory. *)
Lemma vfs_link_spec s H p1 p2 :
  acct s ∅ H → room 6 H → chars_ok p1 → chars_ok p2 → subpath p1 ≠ [] → wpe (vfs_link p1 p2) (λ r s', settled s s' ∧ acct s' ∅ H) s.
Proof.
  intros HA Hr H1 H2 Hsub. assert (room 4 (refs_of s ∅ H)) as Hr' by (apply room_held; eapply room_le; [done|lia]).
  unfold vfs_link. apply wpe_bind. eapply wpe_mono; [apply vfs_lookup_found; [done|roomy|done]|].
  intros [e|v] s1 [Hm1 Hc]; [by split; [apply settled_moved|]|]. destruct Hc as [_ HA1]. specialize (HA1 Hsub).
  apply (second_path s s1 H v false p2 (λ d name, VOP_LINK d name v)); try done. intros s2 d name HA2 Hr2 Hn He Hne.
  apply VOP_LINK_spec; try done; [apply HA2|apply acct_temp; multiset_solver..|apply known_keep, known_add].
Qed.
End twopaths.

(** ** Calls with a buffer *)

Section buffers.
Context {F D : Type} {DO : DevOps D} {FO : FsOps F D} {DS : DevSpec D} {FS : FsSpec F D} {Dx : Kinds}.
Implicit Types (s : vfs F D) (T H : gmultiset vnode).

(** Releasing a vnode and returning a result, beside a buffer. *)
Lemma decref_reraise_uio s0 s T H v u (r : Z + unit) :
  acct s ({[+ v +]} ⊎ T) H → inside T → moved s0 s →
  wpe (_ ← on_vfs (vn_decref v); reraise r) (λ _ '(s', _), settled s0 s' ∧ acct s' T H) (s, u).
Proof.
  intros HA Hi Hm. apply wpe_bind, wpe_onfst. eapply wpe_mono; [by apply (acct_decref s T H)|]. intros r' s' (-> & Hm' & HA').
  apply wpe_reraise. split; [apply settled_moved; by eapply moved_trans|done].
Qed.

(** A function of a vnode of a file system, beside a buffer. *)
Lemma onfs_uio s T H f x R O u (m : EM (F * uio) unit) :
  acct s T H → v_fs s !! f = Some x → part_in f R (refs_of s T H) → part_in f O H →
  wpe m (λ _ '(x', _), fs_at x' R O (kinds s f)) (x, u) →
  wpe (λ '(s, u), match v_fs s !! f with
       | None => Undef
       | Some x => match m (x, u) with
                   | Ret (r, (x', u')) => Ret (r, (set_vfs (<[f := x']> (v_fs s)) s, u'))
                   | Panic => Panic
                   | Undef => Undef
                   | NoFuel => NoFuel
                   end
       end) (λ _ '(s', _), moved s s' ∧ acct s' T H) (s, u).
Proof.
  intros HA Hf HR HO Hm. unfold wpe in *. rewrite Hf. destruct (m (x, u)) as [[r [x' u']]| | |]; try done. split; [by eexists _, (v_dvn s)|].
  apply (acct_moved s); [by eexists _, (v_dvn s)|apply HA|apply HA|]. eapply (vfs_at_fs s _ H); [apply HA|done|exact Hm|done|done|]. done.
Qed.

Lemma vfs_readlink_spec s H path u :
  acct s ∅ H → room 6 H → chars_ok path → wpe (vfs_readlink path) (λ _ '(s', _), settled s s' ∧ acct s' ∅ H) (s, u).
Proof.
  intros HA Hr Hp. assert (room 4 (refs_of s ∅ H)) as Hr' by (apply room_held; eapply room_le; [done|lia]).
  unfold vfs_readlink. apply wpe_bind, wpe_onfst. eapply wpe_mono; [apply vfs_lookup_spec; [done|roomy|done]|].
  intros [e|v] s1 [Hm1 HA1]; [by split; [apply settled_moved|]|]. simpl in HA1. apply wpe_bind, wpe_attempt.
  assert (wpe (vop_readlink_at v) (λ _ '(s', _), moved s1 s' ∧ acct s' ({[+ v +]} ⊎ ∅) H) (s1, u)) as Hrl.
  { destruct v as [d|f p]; [split; [apply moved_refl|done]|].
    destruct (vnode_part s1 _ H (ac_at _ _ _ HA1) f p) as (x & R & O & Hf & Hx & HR & HO & Hpin); [apply acct_temp; multiset_solver|].
    eapply (onfs_uio s1 _ H f x R O); [done..|]. by apply law_readlink. }
  eapply wpe_mono; [exact Hrl|]. intros r [s2 u2] [Hm2 HA2]. apply decref_reraise_uio; [done|by eapply ac_kinds|by eapply moved_trans].
Qed.

Lemma vfs_getcwd_spec s H u :
  acct s ∅ H → room 6 H → uio_ok u → iov_len u = uio_resid u → is_read u = true →
  wpe vfs_getcwd (λ _ '(s', _), settled s s' ∧ acct s' ∅ H) (s, u).
Proof.
  intros HA Hr Hu Hlen Hrd. assert (room 4 (refs_of s ∅ H)) as Hr' by (apply room_held; eapply room_le; [done|lia]).
  unfold vfs_getcwd. estep. cbv beta iota. apply wpe_bind, wpe_assert; [done|]. apply wpe_bind, wpe_onfst.
  eapply wpe_mono; [apply (acct_getcurdir s ∅ H HA); roomy|]. intros [e|v] s1 (Hm1 & HA1 & Hc); [by split; [apply settled_moved|]|].
  specialize (Hc v eq_refl). destruct (va_cwd _ _ _ (ac_at _ _ _ HA) v Hc) as (f & p & ->). simpl in HA1.
  destruct (vnode_part s1 _ H (ac_at _ _ _ HA1) f p) as (x & R & O & Hf & Hx & HR & HO & Hpin); [apply acct_temp; multiset_solver|].
  destruct (law_volname x R O _ Hx) as (n & En & Hby). apply wpe_bind, wpe_onfst, (wpe_lift _ f); [done|]. apply wpe_bind, wpe_onfst.
  unfold volname_of. estep. rewrite Hf. apply wpe_bind, (wpe_lift _ x); [done|]. apply wpe_ret. rewrite En.
  apply wpe_bind, wpe_ret, wpe_bind, wpe_onfst, (wpe_lift _ n); [done|]. apply wpe_bind, wpe_attempt.
  assert (∀ r u', wpe (_ ← on_vfs (vn_decref (VNfs f p)); reraise r : EM (vfs F D * uio) unit) (λ _ '(s', _), settled s s' ∧ acct s' ∅ H) (s1, u')) as Hend.
  { intros r u'. by apply decref_reraise_uio; [|by eapply ac_kinds|]. }
  apply wpe_bind, wpe_onsnd. eapply wpe_mono; [apply uiomove_read_short; try done; lia|].
  intros r u1 [(-> & Hu1 & Hl1 & Hr1)| ->]; [|apply Hend]. apply wpe_bind, wpe_onsnd.
  eapply wpe_mono; [apply uiomove_read_short; try done; apply Forall_singleton; by unfold is_u8|].
  intros r u2 [(-> & _)| ->]; [|apply Hend]. eapply wpe_mono; [eapply (onfs_uio s1 _ H f x R O); [done..|]|].
  - apply law_namefile; [done|done|]. apply elem_of_union_l. unfold cwkind. destruct Hm1 as (m & k & ->). cbn. rewrite Hc, decide_True by done. set_solver.
  - intros r [s2 u3] [Hm2 HA2]. apply decref_reraise_uio; [done|by eapply ac_kinds|by eapply moved_trans].
Qed.
End buffers.
