(* ===== verification/VfsTable.v ===== *)
(** Attaching devices, mounting and unmounting: the device table and the
    account of references. *)

From Stdlib Require Import ZArith Lia.
From stdpp Require Import base numbers list option gmap gmultiset.
From S2P Require Import Prelude Array Errm Uio UioProofs Vfs VfsOps VfsSpec VfsProofs VfsCalls VfsPaths.

Open Scope Z_scope.

Section table.
Context {F D : Type} {DO : DevOps D} {FO : FsOps F D} {DS : DevSpec D} {FS : FsSpec F D} {Dx : Kinds}.
Implicit Types (s : vfs F D) (refs opens H : gmultiset vnode).

(** ** Fresh addresses *)

Lemma fresh_fs s refs opens p : vfs_at s refs opens → VNfs (v_next s) p ∉ refs.
Proof.
  intros HS Hin. destruct (vfs_at_live _ _ _ _ HS Hin) as [x Hx]. rewrite (fr_fs _ (va_fresh _ _ _ HS)) in Hx by done. done.
Qed.

Lemma fresh_dvn s refs opens : vfs_at s refs opens → VNdev (v_next s) ∉ refs.
Proof.
  intros HS Hin. destruct (vfs_at_live _ _ _ _ HS Hin) as (dv & dev & E & _). rewrite (fr_dvn _ (va_fresh _ _ _ HS)) in E by done. done.
Qed.

Lemma not_in_zero (v : vnode) refs : v ∉ refs → multiplicity v refs = 0%nat.
Proof. intros Hv. rewrite elem_of_multiplicity in Hv. lia. Qed.

(** A new device. *)
Definition with_dev s (x : D) : vfs F D := set_vdev (<[v_next s := inl x]> (v_dev s)) (set_alloc (v_next s + 1) [] s).

Lemma vfs_at_newdev s refs opens x : vfs_at s refs opens → vfs_at (with_dev s x) refs opens.
Proof.
  intros [(l & [T1 T2 T3 T4 T5 T6]) [F1 F2 F3 F4] [C1 C2 C3] Hc Ho].
  assert (∀ d y, v_dev s !! d = Some y → v_next s ≠ d) as Hne by (intros d y Hd <-; by rewrite F3 in Hd).
  assert (∀ d y, v_dev s !! d = Some y → v_dev (with_dev s x) !! d = Some y) as Hold.
  { intros d y Hd. simpl. rewrite lookup_insert_ne; [done|]. by eapply Hne. }
  split; [| | |done|done].
  - exists l. split; try done.
    + intros k Hk. destruct (T2 k Hk) as (kd & E & [K1 K2 K3 K4 K5]). exists kd. split; [done|]. split; try done.
      * intros Hf. destruct (K3 Hf) as (d & y & Ed & Hd & Hfit). exists d, y. split; [done|]. split; [by apply Hold|done].
      * intros Hr. destruct (K4 Hr) as (d & Ed & Hd). exists d. split; [done|]. intros f Hf. apply Hold. by apply Hd.
      * intros d Hd. destruct (K5 d Hd) as [y Hy]. exists y. by apply Hold.
    + intros d f Hd. simpl in Hd. apply lookup_insert_Some in Hd as [[_ [=]]|[_ Hd]]. by apply T6.
  - split; simpl; intros k Hk; [apply F1; lia|apply F2; lia| |apply F4; lia]. rewrite lookup_insert_ne by lia. apply F3. lia.
  - split; [done|done|]. intros v Hv. specialize (C3 v Hv). destruct v as [d|f p]; [|done]. destruct C3 as (dv & dev & E1 & E2 & [y Hy]).
    exists dv, dev. split; [done|]. split; [done|]. exists y. by apply Hold.
Qed.

(** A new vnode for a device. *)
Definition with_dvn s (dev : option Z) : vfs F D := set_vdvn (<[v_next s := mkDv 1 0 dev]> (v_dvn s)) (set_alloc (v_next s + 1) [] s).

Lemma vfs_at_newdvn s refs opens dev : vfs_at s refs opens → opens ⊆ refs → vfs_at (with_dvn s dev) refs opens.
Proof.
  intros HS Hop. pose proof (fresh_dvn _ _ _ HS) as Hfresh. destruct HS as [(l & [T1 T2 T3 T4 T5 T6]) [F1 F2 F3 F4] [C1 C2 C3] Hc Ho].
  assert (∀ d v, v_dvn s !! d = Some v → v_dvn (with_dvn s dev) !! d = Some v) as Hold.
  { intros d v Hd. simpl. rewrite lookup_insert_ne; [done|]. intros <-. by rewrite F2 in Hd. }
  split; [| | |done|done].
  - exists l. split; try done. intros k Hk. destruct (T2 k Hk) as (kd & E & [(v & K1 & K1') K2 K3 K4 K5]). exists kd. split; [done|]. split; try done.
    exists v. split; [by apply Hold|done].
  - split; simpl; intros k Hk; [apply F1; lia| |apply F3; lia|apply F4; lia]. rewrite lookup_insert_ne by lia. apply F2. lia.
  - split; [done| |].
    + simpl. intros d v Hd. apply lookup_insert_Some in Hd as [[<- <-]|[_ Hd]]; [|by apply C2]. simpl.
      rewrite !not_in_zero; [done| |done]. multiset_solver.
    + intros v Hv. specialize (C3 v Hv). destruct v as [d|f p]; [|done]. destruct C3 as (dv & dev' & E1 & E2 & E3).
      exists dv, dev'. split; [by apply Hold|done].
Qed.

(** A new entry, not in the table yet. *)
Definition with_kd s (kd : knowndev) : vfs F D := set_vkd (<[v_next s := kd]> (v_kd s)) (set_alloc (v_next s + 1) [] s).

Lemma vfs_at_newkd s refs opens kd : vfs_at s refs opens → vfs_at (with_kd s kd) refs opens.
Proof.
  intros [(l & [T1 T2 T3 T4 T5 T6]) [F1 F2 F3 F4] [C1 C2 C3] Hc Ho].
  assert (∀ k, k ∈ l → v_next s ≠ k) as Hne.
  { intros k Hk <-. destruct (T2 _ Hk) as (kd' & E & _). by rewrite F1 in E. }
  assert (∀ k, k ∈ l → v_kd (with_kd s kd) !! k = v_kd s !! k) as Hold by (intros k Hk; simpl; rewrite lookup_insert_ne; [done|by apply Hne]).
  split; [| |by split|done|done].
  - exists l. split; try done.
    + intros k Hk. destruct (T2 k Hk) as (kd' & E & [K1 K2 K3 K4 K5]). exists kd'. rewrite Hold by done. split; [done|by split].
    + intros k1 k2 kd1 kd2 f H1 H2. rewrite !Hold by done. by apply T4.
    + intros k1 k2 kd1 kd2 d H1 H2. rewrite !Hold by done. by apply T5.
    + intros d f Hd. destruct (T6 d f Hd) as (Hs & k & kd' & Hk & E & Hr). split; [done|]. exists k, kd'. by rewrite Hold by done.
  - split; simpl; intros k Hk; [|apply F2; lia|apply F3; lia|apply F4; lia]. rewrite lookup_insert_ne by lia. apply F1. lia.
Qed.

(** The entry joins the table. *)
Lemma vfs_at_append s refs opens l k kd d a :
  vfs_at s refs opens → table_ok s l → k ∉ l → v_kd s !! k = Some kd → kd_ok s kd → kd_fs kd = None → kd_device kd = Some d →
  (∀ k' kd', k' ∈ l → v_kd s !! k' = Some kd' → kd_device kd' ≠ Some d) → array_rep a (l ++ [k]) →
  vfs_at (set_knowndevs a s) refs opens.
Proof.
  intros [_ [F1 F2 F3 F4] [C1 C2 C3] Hc Ho] [T1 T2 T3 T4 T5 T6] Hk Ek Hok Hfs Hdev Hnew Ha. split; [|by split|by split|done|done].
  assert (∀ kd', kd_ok s kd' → kd_ok (set_knowndevs a s) kd') as Hkeep by (intros kd' [K1 K2 K3 K4 K5]; by split).
  exists (l ++ [k]). split; [done| | | | |].
  - intros k' Hk'. apply elem_of_app in Hk' as [Hk'| ->%list_elem_of_singleton].
    + destruct (T2 k' Hk') as (kd' & E & Hok'). exists kd'. split; [done|by apply Hkeep].
    + exists kd. split; [done|by apply Hkeep].
  - apply list.NoDup_app. split; [done|]. split; [|apply NoDup_singleton]. intros x Hx ->%list_elem_of_singleton. done.
  - intros k1 k2 kd1 kd2 f H1 H2 E1 E2 Ef1 Ef2. apply elem_of_app in H1 as [H1| ->%list_elem_of_singleton]; [|simpl in E1; congruence].
    apply elem_of_app in H2 as [H2| ->%list_elem_of_singleton]; [|simpl in E2; congruence]. by apply (T4 k1 k2 kd1 kd2 f).
  - intros k1 k2 kd1 kd2 e H1 H2 E1 E2 Ed1 Ed2. simpl in E1, E2. apply elem_of_app in H1 as [H1| ->%list_elem_of_singleton].
    + apply elem_of_app in H2 as [H2| ->%list_elem_of_singleton]; [by apply (T5 k1 k2 kd1 kd2 e)|].
      exfalso. apply (Hnew k1 kd1 H1 E1). congruence.
    + apply elem_of_app in H2 as [H2| ->%list_elem_of_singleton]; [|done]. exfalso. apply (Hnew k2 kd2 H2 E2). congruence.
  - intros e f He. destruct (T6 e f He) as (Hs & k' & kd' & Hk' & Hr). split; [done|]. exists k', kd'. split; [|done]. apply elem_of_app. by left.
Qed.

Lemma badnames_spec s l n1 n2 n3 :
  table_ok s l → v_klock s = true → wpe (badnames n1 n2 n3) (λ r s', s' = s ∧ ∃ b, r = inr b ∧ (b = true → l ≠ [])) s.
Proof.
  intros Ht Hl. unfold badnames. estep. apply wpe_bind, wpe_assert; [done|]. apply wpe_bind. eapply wpe_numkds; [done|].
  assert (∀ n i, (n + i = length l)%nat → wpe (badnames_loop n (Z.of_nat i) n1 n2 n3) (λ r s', s' = s ∧ ∃ b, r = inr b ∧ (b = true → l ≠ [])) s) as Hloop.
  { induction n as [|n IH]; intros i Hi; cbn [badnames_loop]; [apply wpe_ret; split; [done|by exists false]|].
    apply wpe_bind. eapply wpe_getkd; [done|lia|]. intros k kd Hk E Hok. replace (Z.of_nat i + 1) with (Z.of_nat (S i)) by lia.
    apply wpe_bind. assert (wpe (match kd_fs kd with Some f => volname ← volname_of f; mret (samestring3 volname n1 n2 n3) | None => mret false end)
      (λ r s', s' = s ∧ ∃ b, r = inr b) s) as Hb.
    { destruct (kd_fs kd) as [f|] eqn:Ef; [|apply wpe_ret; split; [done|by eexists]]. destruct (ko_fs _ _ Hok f Ef) as [x Hf].
      apply wpe_bind. unfold volname_of. estep. rewrite Hf. apply wpe_bind, (wpe_lift _ x); [done|]. apply wpe_ret, wpe_ret. split; [done|by eexists]. }
    eapply wpe_mono; [exact Hb|]. intros r s' (-> & b & ->). assert (l ≠ []) as Hl' by (intros ->; simpl in Hi; lia).
    apply wpe_if; intros _; [apply wpe_ret; split; [done|by exists true]|]. apply IH. lia. }
  apply (Hloop (length l) 0%nat). lia.
Qed.

(** Attaching a device: the device exists, then it gets its name. *)
Definition attach_dev (x : D) (name : list Z) (mountable : bool) : EM (vfs F D) unit :=
  d ← v_new;
  _ ← emod (λ s, set_vdev (<[d := inl x]> (v_dev s)) s);
  vfs_adddev name d mountable.

Lemma wpe_alloc s Q : v_orc s = [] → Q (inr true) s → wpe v_alloc Q s.
Proof. intros E HQ. unfold v_alloc, wpe. rewrite E. simpl. replace (set_alloc (v_next s) [] s) with s; [done|]. destruct s; simpl in *; by subst. Qed.

Lemma wpe_vnew s Q : v_orc s = [] → Q (inr (v_next s)) (set_alloc (v_next s + 1) [] s) → wpe v_new Q s.
Proof. intros E HQ. unfold v_new, wpe. by rewrite E. Qed.

Lemma dev_create_vnode_spec s dev Q : v_orc s = [] → Q (inr (Some (v_next s))) (with_dvn s dev) → wpe (dev_create_vnode dev) Q s.
Proof.
  intros E HQ. unfold dev_create_vnode. apply wpe_bind, wpe_alloc; [done|]. apply wpe_bind, wpe_alloc; [done|]. apply wpe_bind, wpe_alloc; [done|].
  apply wpe_bind, wpe_vnew; [done|]. apply wpe_bind, wpe_mod. by apply wpe_ret.
Qed.

Lemma vfs_adddev_spec s refs opens l name d x (mountable : bool) :
  vfs_at s refs opens → opens ⊆ refs → unlocked s → table_ok s l → Z.of_nat (length l) < array_lim →
  v_dev s !! d = Some (inl x) → (mountable = true → dev_fit x) →
  (∀ k kd, k ∈ l → v_kd s !! k = Some kd → kd_device kd ≠ Some d) →
  wpe (vfs_adddev name d mountable) (λ r s', vfs_at s' refs opens ∧ unlocked s' ∧ v_cwd s' = v_cwd s ∧ v_bootfs s' = v_bootfs s ∧
    a_num (v_knowndevs s') ≤ a_num (v_knowndevs s) + 1 ∧ (r = inr tt ∨ r = inl EEXIST ∧ l ≠ [])) s.
Proof.
  intros HS Hop HU Ht Hlim Hd Hfit Hnew. pose proof (va_orc _ _ _ HS) as Ho. unfold vfs_adddev, vfs_doadd.
  apply wpe_bind, wpe_alloc; [done|]. cbn [negb]. apply wpe_bind.
  assert (wpe (if mountable then v_alloc else mret true) (λ r s', r = inr true ∧ s' = s) s) as Ha by (destruct mountable; [by apply wpe_alloc|by apply wpe_ret]).
  eapply wpe_mono; [exact Ha|]. intros r s' [-> ->]. cbn [negb]. cbv zeta. apply wpe_bind, dev_create_vnode_spec; [done|].
  pose proof (vfs_at_newdvn s refs opens (Some d) HS Hop) as HS1. set (s1 := with_dvn s (Some d)) in *. apply wpe_bind, wpe_alloc; [done|]. cbn [negb].
  apply wpe_bind, wpe_vnew; [done|]. set (rawname := if mountable then Some (mkrawname name) else None). set (kd := mkKd name rawname (Some d) (v_next s) None).
  apply wpe_bind, wpe_mod. change (set_vkd _ _) with (with_kd s1 kd). pose proof (vfs_at_newkd s1 refs opens kd HS1) as HS2. set (k := v_next s1). set (s2 := with_kd s1 kd) in *.
  apply wpe_bind, wpe_ret. apply wpe_bind, wpe_kacquire; [destruct HU; by split|]. pose proof (vfs_at_klock s2 refs opens true HS2) as HS3. set (s3 := set_klock true s2) in *.
  assert (k ∉ l) as Hk. { intros Hin. destruct (tb_kd _ _ Ht _ Hin) as (kd' & E & _). rewrite (fr_kd _ (va_fresh _ _ _ HS)) in E; [done|]. unfold k. simpl. lia. }
  assert (table_ok s3 l) as Ht3.
  { destruct (va_table _ _ _ HS3) as (l' & Ht'). by rewrite (array_rep_inj _ _ _ (tb_rep _ _ Ht) (tb_rep _ _ Ht')). }
  apply wpe_bind. eapply wpe_mono; [by apply (badnames_spec s3 l)|]. intros r s' (-> & b & -> & Hbl). apply wpe_bind. destruct b.
  { apply wpe_ret. apply wpe_bind, wpe_mod. apply wpe_raise. split; [by apply vfs_at_klock|]. split; [destruct HU; by split|]. split; [done|]. split; [done|].
    split; [simpl; lia|]. right. split; [done|by apply Hbl]. }
  estep. change (v_orc s3) with (@nil bool). destruct (array_add_ok [] (v_knowndevs s3) l k (tb_rep _ _ Ht3) Hlim) as [(a & o' & Ea & Ha' & Ho')|(o' & _ & [=])].
  assert (o' = []) as -> by (by destruct Ho'). apply wpe_bind. eapply wpe_lift; [exact Ea|]. apply wpe_bind, wpe_mod. apply wpe_ret. apply wpe_bind, wpe_mod. apply wpe_ret.
  split; [|split; [destruct HU; by split|]; split; [done|]; split; [done|]; split; [simpl; destruct Ha' as [-> _]; destruct (tb_rep _ _ Ht) as [-> _]; rewrite length_app; simpl; lia|by left]].
  assert (vfs_at (set_knowndevs a s3) refs opens) as HS4; [|by apply (vfs_at_klock (set_alloc (v_next s3) [] (set_knowndevs a s3)) refs opens false)].
  assert (∀ k', k' ∈ l → v_kd s3 !! k' = v_kd s !! k') as Hold.
  { intros k' Hk'. simpl. rewrite lookup_insert_ne; [done|]. intros <-. done. }
  apply (vfs_at_append s3 refs opens l k kd d a); try done.
  - apply lookup_insert_eq.
  - split; simpl; try done.
    + exists (mkDv 1 0 (Some d)). split; [apply lookup_insert_eq|done].
    + intros _. exists d, x. split; [done|]. split; [done|]. intros Hr. apply Hfit. unfold rawname in Hr. by destruct mountable.
    + intros _. by exists d.
    + intros d' [= <-]. by exists (inl x).
  - intros k' kd' Hk'. rewrite Hold by done. by apply Hnew.
Qed.

Definition tabsize s : Z := a_num (v_knowndevs s).

Lemma attach_dev_spec s H x name (mountable : bool) :
  acct s ∅ H → tabsize s < array_lim → (mountable = true → dev_fit x) →
  wpe (attach_dev x name mountable) (λ r s', acct s' ∅ H ∧ tabsize s' ≤ tabsize s + 1 ∧ (r = inr tt ∨ r = inl EEXIST ∧ 0 < tabsize s)) s.
Proof.
  intros [HS HU Hi] Hlim Hfit. unfold attach_dev. apply wpe_bind, wpe_vnew; [apply HS|]. apply wpe_bind, wpe_mod. change (set_vdev _ _) with (with_dev s x).
  pose proof (vfs_at_newdev s _ _ x HS) as HS1. destruct (va_table _ _ _ HS1) as (l & Ht).
  eapply wpe_mono; [apply (vfs_adddev_spec (with_dev s x) (refs_of s ∅ H) H l name (v_next s) x mountable HS1); try done|].
  - unfold refs_of. multiset_solver.
  - destruct HU. by split.
  - destruct (tb_rep _ _ Ht) as [E _]. change (a_num (v_knowndevs s) = Z.of_nat (length l)) in E. unfold tabsize in Hlim. lia.
  - apply lookup_insert_eq.
  - intros k kd Hk E Hd. destruct (va_table _ _ _ HS) as (l0 & Ht0). assert (l0 = l) as -> by exact (array_rep_inj _ _ _ (tb_rep _ _ Ht0) (tb_rep _ _ Ht)).
    destruct (tb_kd _ _ Ht0 k Hk) as (kd' & E' & Hok). change (v_kd (with_dev s x)) with (v_kd s) in E. assert (kd' = kd) as -> by congruence.
    destruct (ko_some _ _ Hok _ Hd) as [y Hy]. by rewrite (fr_dev _ (va_fresh _ _ _ HS)) in Hy.
  - intros r s' (HS' & HU' & Ec & Eb & Hn & Hr). split; [|split; [exact Hn|]].
    2:{ destruct Hr as [->|[-> Hl]]; [by left|right]. split; [done|]. destruct (tb_rep _ _ Ht) as [E _].
        change (a_num (v_knowndevs s) = Z.of_nat (length l)) in E. unfold tabsize. destruct l; [done|]. simpl in E. lia. }
    split; [|done|done]. unfold refs_of. rewrite Ec, Eb. exact HS'.
Qed.

(** ** Mounting *)

(** The entry of the table a disk to mount or unmount is named by. *)
Record mount_entry s (l : list Z) (name : list Z) (k : Z) (kd : knowndev) : Prop := {
  me_in : k ∈ l;
  me_kd : v_kd s !! k = Some kd;
  me_raw : kd_rawname kd ≠ None;
  me_name : kd_name kd = name
}.

Lemma findmount_spec s l name Q :
  table_ok s l → v_klock s = true → ((∀ k kd, ¬ mount_entry s l name k kd) → Q (inl ENODEV) s) →
  (∀ k kd, mount_entry s l name k kd → kd_ok s kd → Q (inr (k, kd)) s) → wpe (findmount name) Q s.
Proof.
  intros Ht Hl Hno Hyes. unfold findmount. estep. apply wpe_bind, wpe_assert; [done|]. apply wpe_bind. eapply wpe_numkds; [done|].
  assert (∀ n i, (n + i = length l)%nat → (∀ j k kd, (j < i)%nat → l !! j = Some k → ¬ mount_entry s l name k kd) →
    wpe (findmount_loop n (Z.of_nat i) name) Q s) as Hloop; [|apply (Hloop (length l) 0%nat); lia].
  induction n as [|n IH]; intros i Hi Hpast; cbn [findmount_loop].
  { apply wpe_raise, Hno. intros k kd Hm. destruct (list_elem_of_lookup_1 _ _ (me_in _ _ _ _ _ Hm)) as [j Hj].
    apply (Hpast j k kd); [apply lookup_lt_Some in Hj; lia|done|done]. }
  apply wpe_bind. eapply wpe_getkd; [done|lia|]. intros k kd Hk E Hok. replace (Z.of_nat i + 1) with (Z.of_nat (S i)) by lia.
  assert ((∀ kd', ¬ mount_entry s l name k kd') → wpe (findmount_loop n (Z.of_nat (S i)) name) Q s) as Hnext.
  { intros Hk'. apply IH; [lia|]. intros j k2 kd2 Hj Ej. destruct (decide (j = i)) as [->|]; [|apply (Hpast j); [lia|done]].
    assert (k2 = k) as -> by congruence. apply Hk'. }
  case_bool_decide as Hr; [apply Hnext; intros kd' [? E' ? ?]; congruence|]. apply wpe_if; intros En.
  - apply bool_decide_eq_true in En. apply wpe_ret, Hyes; [|done]. split; [by eapply list_elem_of_lookup_2|done..].
  - apply bool_decide_eq_false in En. apply Hnext. intros kd' [? E' ? ?]. congruence.
Qed.

(** The state after a mount. *)
Definition with_mount s (k dev : Z) (kd : knowndev) (x : F) : vfs F D :=
  set_vkd (<[k := mkKd (kd_name kd) (kd_rawname kd) (kd_device kd) (kd_vnode kd) (Some (v_next s))]> (v_kd s))
    (set_vfs (<[v_next s := x]> (v_fs s)) (set_vdev (<[dev := inr (v_next s)]> (v_dev s)) (set_alloc (v_next s + 1) [] s))).

Section mounting.
Context (s : vfs F D) (refs opens : gmultiset vnode) (l : list Z) (k dev : Z) (kd : knowndev) (x : F).
Context (HS : vfs_at s refs opens) (HA : anchored s refs opens) (Ht : table_ok s l) (Hk : k ∈ l) (Ek : v_kd s !! k = Some kd).
Context (Hfs : kd_fs kd = None) (Hraw : kd_rawname kd ≠ None) (Hdev : kd_device kd = Some dev) (Hx : fs_at x ∅ ∅ ∅).
Let f := v_next s.
Let kd1 := mkKd (kd_name kd) (kd_rawname kd) (kd_device kd) (kd_vnode kd) (Some f).

Lemma mount_dev d y : v_dev s !! d = Some y → is_Some (<[dev := inr f]> (v_dev s) !! d).
Proof using HS. intros Hd. rewrite lookup_insert_is_Some'. right. by exists y. Qed.

Lemma mount_table : table_ok (with_mount s k dev kd x) l.
Proof using HS Ht Hk Ek Hfs Hraw Hdev.
  destruct Ht as [T1 T2 T3 T4 T5 T6]. pose proof (va_fresh _ _ _ HS) as [F1 F2 F3 F4].
  assert (∀ g, is_Some (v_fs s !! g) → is_Some (<[f := x]> (v_fs s) !! g)) as Hg by (intros g ?; rewrite lookup_insert_is_Some'; by right).
  assert (∀ k' kd', <[k := kd1]> (v_kd s) !! k' = Some kd' → k' = k ∧ kd' = kd1 ∨ k' ≠ k ∧ v_kd s !! k' = Some kd') as Hcase.
  { intros k' kd' E. apply lookup_insert_Some in E as [[<- <-]|[Hne E]]; [by left|by right]. }
  assert (∀ k' kd' g, k' ∈ l → v_kd s !! k' = Some kd' → kd_fs kd' = Some g → g ≠ f) as Hold.
  { intros k' kd' g Hk' E Eg ->. destruct (T2 k' Hk') as (kd2 & E2 & Hok). assert (kd2 = kd') as -> by congruence.
    destruct (ko_fs _ _ Hok _ Eg) as [y Hy]. by rewrite F4 in Hy. }
  split; try done; simpl.
  - intros k' Hk'. destruct (T2 k' Hk') as (kd' & E' & [K1 K2 K3 K4 K5]). destruct (decide (k' = k)) as [->|Hne].
    + exists kd1. rewrite lookup_insert_eq. split; [done|]. assert (kd' = kd) as -> by congruence. split; simpl; try done.
      * intros g [= <-]. by rewrite lookup_insert_eq.
      * intros _. exists dev. split; [done|]. intros g [= <-]. apply lookup_insert_eq.
      * intros d Hd. destruct (K5 d Hd) as [y Hy]. by eapply mount_dev.
    + exists kd'. rewrite lookup_insert_ne by done. split; [done|]. assert (∀ d, kd_device kd' = Some d → d ≠ dev) as Hdne.
      { intros d Hd ->. apply Hne. by apply (T5 k' k kd' kd dev). }
      split; simpl; try done.
      * intros g Hg'. by apply Hg, K2.
      * intros Hn. destruct (K3 Hn) as (d & y & Ed & Hd & Hfit). exists d, y. split; [done|]. split; [|done]. rewrite lookup_insert_ne; [done|]. intros <-. by apply (Hdne dev).
      * intros Hr. destruct (K4 Hr) as (d & Ed & Hd). exists d. split; [done|]. intros g Hg'. rewrite lookup_insert_ne; [by apply Hd|]. intros <-. by apply (Hdne dev).
      * intros d Hd. destruct (K5 d Hd) as [y Hy]. by eapply mount_dev.
  - intros k1 k2 kd2 kd3 g H1 H2 E1 E2 Eg1 Eg2. destruct (Hcase _ _ E1) as [[-> ->]|[N1 E1']], (Hcase _ _ E2) as [[-> ->]|[N2 E2']]; [done| | |by apply (T4 k1 k2 kd2 kd3 g)].
    + injection Eg1 as <-. by destruct (Hold _ _ _ H2 E2' Eg2).
    + injection Eg2 as <-. by destruct (Hold _ _ _ H1 E1' Eg1).
  - intros k1 k2 kd2 kd3 d H1 H2 E1 E2 Ed1 Ed2. destruct (Hcase _ _ E1) as [[-> ->]|[N1 E1']], (Hcase _ _ E2) as [[-> ->]|[N2 E2']]; [done| | |by apply (T5 k1 k2 kd2 kd3 d)].
    + by apply (T5 k k2 kd kd3 d).
    + by apply (T5 k1 k kd2 kd d).
  - intros d g Hd. apply lookup_insert_Some in Hd as [[<- [= <-]]|[Hne Hd]].
    + rewrite lookup_insert_eq. split; [done|]. exists k, kd1. split; [done|]. split; [apply lookup_insert_eq|done].
    + destruct (T6 d g Hd) as (Hs & k' & kd' & Hk' & E' & Ed & Eg). split; [by apply Hg|]. exists k', kd'. split; [done|]. split; [|done].
      rewrite lookup_insert_ne; [done|]. intros <-. congruence.
Qed.

Lemma mount_at : vfs_at (with_mount s k dev kd x) refs opens.
Proof using HS HA Ht Hk Ek Hfs Hraw Hdev Hx.
  pose proof mount_table as Htab. pose proof (fresh_fs _ _ _ 0 HS) as _. assert (∀ p, VNfs f p ∉ refs) as Hfresh by (intros p; by eapply fresh_fs).
  destruct HS as [_ [F1 F2 F3 F4] [C1 C2 C3] Hc Ho]. split; [by exists l| | |done|done].
  - split; simpl; intros j Hj; [|apply F2; lia| |].
    + rewrite lookup_insert_ne; [apply F1; lia|]. intros <-. rewrite F1 in Ek; [done|lia].
    + rewrite lookup_insert_ne; [apply F3; lia|]. intros <-. destruct (tb_kd _ _ Ht k Hk) as (kd' & E' & Hok). assert (kd' = kd) as -> by congruence.
      destruct (ko_some _ _ Hok dev Hdev) as [y Hy]. rewrite F3 in Hy; [done|lia].
    + rewrite lookup_insert_ne by lia. apply F4. lia.
  - assert (kinds (with_mount s k dev kd x) f = ∅) as Hw.
    { apply set_eq. intros [p b]. split; [|by rewrite elem_of_empty]. intros Hp. exfalso. apply (Hfresh p).
      apply elem_of_kinds in Hp as [Hp|Hp]; [|by eapply an_kinds]. apply (an_cwd _ _ _ HA). by apply cwkind_elem in Hp. }
    split; [|done|].
    + intros g y Hg. change (v_fs (with_mount s k dev kd x)) with (<[f := x]> (v_fs s)) in Hg.
      apply lookup_insert_Some in Hg as [[<- <-]|[_ Hg]]; [|by apply C1]. exists ∅, ∅. rewrite Hw. split; [done|].
      split; intros p; rewrite multiplicity_empty, not_in_zero; try done. pose proof (an_opens _ _ _ HA). specialize (Hfresh p). multiset_solver.
    + intros v Hv. specialize (C3 v Hv). destruct v as [d|g p].
      * destruct C3 as (dv & e & E1 & E2 & [y Hy]). exists dv, e. split; [done|]. split; [done|]. by eapply mount_dev.
      * simpl in *. rewrite lookup_insert_is_Some'. by right.
Qed.
End mounting.
End table.
