(* ===== verification/VfsMount.v ===== *)
(** Mounting and unmounting through the table. *)

From Stdlib Require Import ZArith Lia.
From stdpp Require Import base numbers list option gmap gmultiset.
From S2P Require Import Prelude Array Errm Uio UioProofs Vfs VfsOps VfsSpec VfsProofs VfsCalls VfsPaths VfsTable.

Open Scope Z_scope.

Section mount.
Context {F D : Type} {DO : DevOps D} {FO : FsOps F D} {DS : DevSpec D} {FS : FsSpec F D} {Dx : Kinds}.
Implicit Types (s : vfs F D) (refs opens H : gmultiset vnode).

(** The state after an unmount. *)
Definition with_drop s (k f dev : Z) (kd : knowndev) (x : F) : vfs F D :=
  set_vkd (<[k := mkKd (kd_name kd) (kd_rawname kd) (kd_device kd) (kd_vnode kd) None]> (v_kd s))
    (set_vdev (<[dev := inl (fs_device x)]> (v_dev s)) (set_vfs (delete f (v_fs s)) s)).

Section dropping.
Context (s : vfs F D) (refs opens : gmultiset vnode) (l : list Z) (k f dev : Z) (kd : knowndev) (x : F).
Context (HS : vfs_at s refs opens) (Ht : table_ok s l) (Hk : k ∈ l) (Ek : v_kd s !! k = Some kd).
Context (Hfs : kd_fs kd = Some f) (Hraw : kd_rawname kd ≠ None) (Hdev : kd_device kd = Some dev).
Context (Hfit : dev_fit (fs_device x)) (Hfree : ∀ p, VNfs f p ∉ refs).
Let kd1 := mkKd (kd_name kd) (kd_rawname kd) (kd_device kd) (kd_vnode kd) None.

Lemma drop_table : table_ok (with_drop s k f dev kd x) l.
Proof using HS Ht Hk Ek Hfs Hraw Hdev Hfit.
  destruct Ht as [T1 T2 T3 T4 T5 T6].
  assert (∀ k' kd', <[k := kd1]> (v_kd s) !! k' = Some kd' → k' = k ∧ kd' = kd1 ∨ k' ≠ k ∧ v_kd s !! k' = Some kd') as Hcase.
  { intros k' kd' E. apply lookup_insert_Some in E as [[<- <-]|[Hne E]]; [by left|by right]. }
  assert (∀ d y, v_dev s !! d = Some y → is_Some (<[dev := inl (fs_device x)]> (v_dev s) !! d)) as Hd' by (intros d y ?; rewrite lookup_insert_is_Some'; right; by exists y).
  split; try done; simpl.
  - intros k' Hk'. destruct (T2 k' Hk') as (kd' & E' & [K1 K2 K3 K4 K5]). destruct (decide (k' = k)) as [->|Hne].
    + exists kd1. rewrite lookup_insert_eq. split; [done|]. assert (kd' = kd) as -> by congruence. split; simpl; try done.
      * intros _. exists dev, (fs_device x). split; [done|]. split; [apply lookup_insert_eq|done].
      * intros _. by exists dev.
      * intros d Hd. destruct (K5 d Hd) as [y Hy]. by eapply Hd'.
    + exists kd'. rewrite lookup_insert_ne by done. split; [done|]. assert (∀ d, kd_device kd' = Some d → d ≠ dev) as Hdne.
      { intros d Hd ->. apply Hne. by apply (T5 k' k kd' kd dev). }
      split; simpl; try done.
      * intros g Hg. rewrite lookup_delete_ne; [by apply K2|]. intros <-. apply Hne. by apply (T4 k' k kd' kd f).
      * intros Hn. destruct (K3 Hn) as (d & y & Ed & Hd & Hf). exists d, y. split; [done|]. split; [|done]. rewrite lookup_insert_ne; [done|]. intros <-. by apply (Hdne dev).
      * intros Hr. destruct (K4 Hr) as (d & Ed & Hd). exists d. split; [done|]. intros g Hg. rewrite lookup_insert_ne; [by apply Hd|]. intros <-. by apply (Hdne dev).
      * intros d Hd. destruct (K5 d Hd) as [y Hy]. by eapply Hd'.
  - intros k1 k2 kd2 kd3 g H1 H2 E1 E2 Eg1 Eg2. destruct (Hcase _ _ E1) as [[-> ->]|[N1 E1']]; [done|]. destruct (Hcase _ _ E2) as [[-> ->]|[N2 E2']]; [done|].
    by apply (T4 k1 k2 kd2 kd3 g).
  - intros k1 k2 kd2 kd3 d H1 H2 E1 E2 Ed1 Ed2. destruct (Hcase _ _ E1) as [[-> ->]|[N1 E1']], (Hcase _ _ E2) as [[-> ->]|[N2 E2']]; [done| | |by apply (T5 k1 k2 kd2 kd3 d)].
    + by apply (T5 k k2 kd kd3 d).
    + by apply (T5 k1 k kd2 kd d).
  - intros d g Hd. apply lookup_insert_Some in Hd as [[_ [=]]|[Hne Hd]]. destruct (T6 d g Hd) as (Hs & k' & kd' & Hk' & E' & Ed & Eg).
    assert (k' ≠ k) as Hkne by (intros ->; congruence). assert (f ≠ g) as Hfg by (intros <-; apply Hkne; by apply (T4 k' k kd' kd f)).
    rewrite lookup_delete_ne by done. split; [done|]. exists k', kd'. rewrite lookup_insert_ne by done. done.
Qed.

Lemma drop_at : vfs_at (with_drop s k f dev kd x) refs opens.
Proof using HS Ht Hk Ek Hfs Hraw Hdev Hfit Hfree.
  pose proof drop_table as Htab. destruct HS as [_ [F1 F2 F3 F4] [C1 C2 C3] Hc Ho]. split; [by exists l| | |done|done].
  - split; simpl; intros j Hj; [|by apply F2| |].
    + rewrite lookup_insert_ne; [by apply F1|]. intros <-. by rewrite F1 in Ek.
    + rewrite lookup_insert_ne; [by apply F3|]. intros <-. destruct (tb_kd _ _ Ht k Hk) as (kd' & E' & Hok). assert (kd' = kd) as -> by congruence.
      destruct (ko_some _ _ Hok dev Hdev) as [y Hy]. by rewrite F3 in Hy.
    + rewrite lookup_delete_None. right. by apply F4.
  - split; [|done|].
    + intros g y Hg. change (v_fs (with_drop s k f dev kd x)) with (delete f (v_fs s)) in Hg. apply lookup_delete_Some in Hg as [_ Hg]. by apply C1.
    + intros v Hv. pose proof (C3 v Hv) as Hl. destruct v as [d|g p].
      * destruct Hl as (dv & e & E1 & E2 & [y Hy]). exists dv, e. split; [done|]. split; [done|]. simpl. rewrite lookup_insert_is_Some'. right. by exists y.
      * simpl in *. rewrite lookup_delete_ne; [done|]. intros <-. by apply (Hfree p).
Qed.
End dropping.

(** ** The calls *)

Lemma mountfunc_spec s refs opens dev x Q :
  vfs_at s refs opens → v_dev s !! dev = Some (inl x) → dev_fit x →
  (∀ e x', dev_fit x' → Q (inl e) (set_vdev (<[dev := inl x']> (v_dev s)) s)) →
  (∀ y, fs_at y ∅ ∅ ∅ → Q (inr (v_next s)) (set_vfs (<[v_next s := y]> (v_fs s)) (set_vdev (<[dev := inr (v_next s)]> (v_dev s)) (set_alloc (v_next s + 1) [] s)))) →
  wpe (mountfunc dev) Q s.
Proof.
  intros HS Hd Hfit Hno Hyes. unfold mountfunc. estep. rewrite Hd. apply wpe_bind, (wpe_lift _ (inl x)); [done|]. apply wpe_bind, (wpe_lift _ x); [done|].
  destruct (law_mount x Hfit) as (r & x' & E & Hr). apply wpe_bind. eapply wpe_lift; [exact E|]. destruct r as [e|y].
  - estep. estep. by apply Hno.
  - apply wpe_bind, wpe_vnew; [apply HS|]. estep. estep. by apply Hyes.
Qed.

(** A device that failed to mount is as good as before. *)
Lemma vfs_at_fit s refs opens l k kd dev x x' :
  vfs_at s refs opens → table_ok s l → k ∈ l → v_kd s !! k = Some kd → kd_fs kd = None → kd_device kd = Some dev →
  v_dev s !! dev = Some (inl x) → dev_fit x' → vfs_at (set_vdev (<[dev := inl x']> (v_dev s)) s) refs opens.
Proof.
  intros [_ [F1 F2 F3 F4] [C1 C2 C3] Hc Ho] [T1 T2 T3 T4 T5 T6] Hk Ek Hfs Hdev Hd Hfit. split; [| | |done|done].
  - exists l. split; try done; simpl.
    + intros k' Hk'. destruct (T2 k' Hk') as (kd' & E' & [K1 K2 K3 K4 K5]). exists kd'. split; [done|]. split; try done; simpl.
      * intros Hn. destruct (K3 Hn) as (d & y & Ed & Hy & Hf). destruct (decide (d = dev)) as [->|Hne].
        -- exists dev, x'. rewrite lookup_insert_eq. done.
        -- exists d, y. by rewrite lookup_insert_ne by done.
      * intros Hr. destruct (K4 Hr) as (d & Ed & Hg). exists d. split; [done|]. intros g Hg'. rewrite lookup_insert_ne; [by apply Hg|].
        intros <-. rewrite (Hg g Hg') in Hd. done.
      * intros d Hd'. rewrite lookup_insert_is_Some'. right. by apply K5.
    + intros d g Hdg. apply lookup_insert_Some in Hdg as [[_ [=]]|[_ Hdg]]. by apply T6.
  - split; try done. simpl. intros j Hj. rewrite lookup_insert_ne; [by apply F3|]. intros <-. by rewrite F3 in Hd.
  - split; [done|done|]. intros v Hv. pose proof (C3 v Hv) as Hl. destruct v as [d|g p]; [|done].
    destruct Hl as (dv & e & E1 & E2 & [y Hy]). exists dv, e. split; [done|]. split; [done|]. simpl. rewrite lookup_insert_is_Some'. right. by exists y.
Qed.

(** States that differ in what the table's calls may change. *)
Record same_dirs s s' : Prop := {
  sd_cwd : v_cwd s' = v_cwd s;
  sd_boot : v_bootfs s' = v_bootfs s;
  sd_block : v_block s' = v_block s;
  sd_tab : v_knowndevs s' = v_knowndevs s
}.

Lemma unlock_end s s' H :
  inside ∅ → vfs_at s' (refs_of s ∅ H) H → same_dirs s s' → unlocked s → settled s (set_klock false s') ∧ acct (set_klock false s') ∅ H.
Proof.
  intros Hi HS' [E1 E2 E3 E4] [U1 U2]. split; [done|]. split; [|split; [done|simpl; congruence]|done]. unfold refs_of. simpl. rewrite E1, E2. by apply vfs_at_klock.
Qed.

Lemma vfs_mount_spec s H name :
  acct s ∅ H → wpe (vfs_mount name) (λ r s', settled s s' ∧ acct s' ∅ H) s.
Proof.
  intros [HS HU Hi]. unfold vfs_mount. apply wpe_bind, wpe_kacquire; [done|]. pose proof (vfs_at_klock s _ _ true HS) as HS1.
  set (s1 := set_klock true s) in *. destruct (va_table _ _ _ HS1) as (l & Ht).
  apply wpe_bind, wpe_attempt. unfold vfs_mount_body.
  assert (∀ r s', vfs_at s' (refs_of s ∅ H) H → same_dirs s s' →
    wpe (_ ← knowndevs_release; reraise r) (λ (_ : Z + unit) s', settled s s' ∧ acct s' ∅ H) s') as Hret.
  { intros r s' HS' E. apply wpe_bind, wpe_mod, wpe_reraise. by apply unlock_end. }
  apply wpe_bind. eapply findmount_spec; [done|done|by intros _; apply Hret|]. intros k kd [Hk Ek Hraw _] Hok.
  case_bool_decide as Hf; [by apply wpe_raise, Hret|]. assert (kd_fs kd = None) as Hfs by (by destruct (kd_fs kd)).
  destruct (ko_dev _ _ Hok Hfs) as (dev & x & Ed & Hd & Hfit). apply wpe_bind, wpe_assert; [by rewrite bool_decide_eq_true_2|].
  apply wpe_bind, wpe_assert; [by rewrite Ed|]. apply wpe_bind. rewrite Ed. apply (wpe_lift _ dev); [done|].
  apply wpe_bind. eapply mountfunc_spec; [done|done|by apply Hfit| |].
  - intros e x' Hx'. apply Hret; try done. by eapply vfs_at_fit.
  - intros y Hy. unfold setkdfs. estep. apply wpe_bind, (wpe_lift _ kd); [change (deref (v_kd s1 !! k) = Ret kd); by rewrite Ek|]. apply wpe_mod.
    apply (Hret (inr tt) (with_mount s1 k dev kd y)); try done. eapply mount_at; try done. by apply (acct_anchored s1 ∅ H).
Qed.

Lemma no_elem (p : Z) : p ∉ (∅ : gmultiset Z).
Proof. multiset_solver. Qed.

(** Sync and unmount of one file system in the table.  It goes exactly when
    nothing refers to it. *)
Definition in_use (f : Z) refs : Prop := ∃ p, VNfs f p ∈ refs.

Section unmounting.
Context (s : vfs F D) (refs opens : gmultiset vnode) (l : list Z) (k f : Z) (kd : knowndev).
Context (HS : vfs_at s refs opens) (Ht : table_ok s l) (Hk : k ∈ l) (Ek : v_kd s !! k = Some kd) (Hok : kd_ok s kd).
Context (Hfs : kd_fs kd = Some f) (Hraw : kd_rawname kd ≠ None).

(** States the calls in between lead to. *)
Definition onlyfs s' : Prop := ∃ x, s' = set_vfs (<[f := x]> (v_fs s)) s.

Lemma onlyfs_at : onlyfs s.
Proof using HS Hok Hfs. destruct (ko_fs _ _ Hok f Hfs) as [x Hx]. exists x. by rewrite set_vfs_id. Qed.

Lemma sync_step s' : onlyfs s' → vfs_at s' refs opens →
  wpe (onfs f fsop_sync) (λ r s2, onlyfs s2 ∧ vfs_at s2 refs opens ∧ (r = inr tt → ∀ x, v_fs s2 !! f = Some x → fs_clean x)) s'.
Proof using.
  intros [x ->] HS'. assert (<[f := x]> (v_fs s) !! f = Some x) as Hf by apply lookup_insert_eq.
  destruct (vfs_at_part _ _ _ _ _ HS' Hf) as (R & O & Hx & HR & HO). eapply wpe_onfs; [exact Hf|]. eapply wpe_mono; [by eapply law_sync|].
  intros r x' [Hx' Hcl]. cbn [v_fs set_vfs]. rewrite insert_insert_eq. split; [by exists x'|]. split.
  - pose proof (vfs_at_fs _ refs opens refs opens f x x' R O HS' Hf Hx' HR HO ltac:(done)) as H'. cbn [v_fs set_vfs] in H'. by rewrite insert_insert_eq in H'.
  - intros Hr y. cbn [v_fs set_vfs]. rewrite lookup_insert_eq. intros [= <-]. by apply Hcl.
Qed.

(** The error of a failed sync is the file system's. *)
Lemma fsop_sync_cases (Q : Z + unit → vfs F D → Prop) : wpe (onfs f fsop_sync) Q s →
  ∃ r s2, onfs f fsop_sync s = Ret (r, s2) ∧ Q r s2 ∧ ∀ e, r = inl e → ∃ x x', v_fs s !! f = Some x ∧ fsop_sync x = Ret (inl e, x').
Proof using.
  intros Hw. unfold wpe in Hw. unfold onfs in *. destruct (v_fs s !! f) as [x|] eqn:Ef; [|done]. destruct (fsop_sync x) as [[r x']| | |] eqn:E; try done.
  eexists _, _. split; [done|]. split; [exact Hw|]. intros e ->. by exists x, x'.
Qed.

Lemma unmount_step s' : onlyfs s' → vfs_at s' refs opens → (∀ x, v_fs s' !! f = Some x → fs_clean x) →
  wpe (onfs f fsop_unmount) (λ r s2, ∃ x, s2 = set_vfs (<[f := x]> (v_fs s)) s ∧
    ((r = inr tt ∧ ¬ in_use f refs ∧ dev_fit (fs_device x)) ∨ (r = inl EBUSY ∧ in_use f refs ∧ vfs_at s2 refs opens))) s'.
Proof using.
  intros [x ->] HS' Hcl. assert (<[f := x]> (v_fs s) !! f = Some x) as Hf by apply lookup_insert_eq. specialize (Hcl x Hf).
  destruct (vfs_at_part _ _ _ _ _ HS' Hf) as (R & O & Hx & HR & HO). eapply wpe_onfs; [exact Hf|]. eapply wpe_mono; [by eapply law_unmount|].
  intros r x' Hc. exists x'. cbn [v_fs set_vfs]. rewrite insert_insert_eq. split; [done|]. destruct Hc as [(-> & -> & Hfit)|(-> & Hne & Hx')].
  - left. split; [done|]. split; [|done]. intros [p Hp]. apply (part_in_elem _ _ _ _ HR) in Hp. by apply no_elem in Hp.
  - right. split; [done|]. split.
    + apply gmultiset_choose in Hne as [p Hp]. exists p. apply elem_of_multiplicity. rewrite <- HR. by apply elem_of_multiplicity.
    + pose proof (vfs_at_fs _ refs opens refs opens f x x' R O HS' Hf Hx' HR HO ltac:(done)) as H'. cbn [v_fs set_vfs] in H'. by rewrite insert_insert_eq in H'.
Qed.

Lemma drop_step x dev : kd_device kd = Some dev → dev_fit (fs_device x) → ¬ in_use f refs →
  wpe (dropfs k f dev) (λ r s2, r = inr tt ∧ s2 = with_drop s k f dev kd x ∧ vfs_at s2 refs opens ∧ table_ok s2 l)
    (set_vfs (<[f := x]> (v_fs s)) s).
Proof using HS Ht Hk Ek Hfs Hraw.
  intros Hd Hfit Hno. unfold dropfs. estep. apply wpe_bind, (wpe_lift _ x); [cbn [v_fs set_vfs]; by rewrite lookup_insert_eq|].
  apply wpe_bind, wpe_mod. unfold setkdfs. estep. apply wpe_bind, (wpe_lift _ kd); [change (deref (v_kd s !! k) = Ret kd); by rewrite Ek|].
  apply wpe_mod. split; [done|]. split.
  - unfold with_drop. cbn. by rewrite delete_insert_eq.
  - replace (set_vkd _ _) with (with_drop s k f dev kd x) by (unfold with_drop; cbn; by rewrite delete_insert_eq).
    split; [|by eapply drop_table]. eapply drop_at; try done. intros p Hp. apply Hno. by exists p.
Qed.
End unmounting.

Lemma same_dirs_refl s : same_dirs s s.
Proof. done. Qed.

(** What [vfs_unmount] answers for the file system [f] of an entry: it is
    gone exactly when nothing referred to it, unless its sync failed. *)
Definition unmounted s (f k : Z) refs (r : Z + unit) (s' : vfs F D) : Prop :=
  (r = inr tt ∧ ¬ in_use f refs ∧ v_fs s' !! f = None ∧ kd_fs <$> v_kd s' !! k = Some None) ∨
  (r = inl EBUSY ∧ in_use f refs) ∨
  (∃ e x x', v_fs s !! f = Some x ∧ fsop_sync x = Ret (inl e, x') ∧ r = inl e).

Lemma vfs_unmount_spec s H name :
  acct s ∅ H →
  wpe (vfs_unmount name) (λ r s', settled s s' ∧ acct s' ∅ H ∧
    ∃ l, array_rep (v_knowndevs s) l ∧ ((r = inl ENODEV ∧ ∀ k kd, ¬ mount_entry s l name k kd) ∨ ∃ k kd, mount_entry s l name k kd ∧
      match kd_fs kd with None => r = inl EINVAL | Some f => unmounted s f k (refs_of s ∅ H) r s' end)) s.
Proof.
  intros [HS HU Hi]. unfold vfs_unmount. apply wpe_bind, wpe_kacquire; [done|]. pose proof (vfs_at_klock s _ _ true HS) as HS1.
  set (s1 := set_klock true s) in *. destruct (va_table _ _ _ HS1) as (l & Ht). apply wpe_bind, wpe_attempt. unfold vfs_unmount_body.
  assert (∀ r s', vfs_at s' (refs_of s ∅ H) H → same_dirs s s' → ∀ P : Z + unit → vfs F D → Prop, P r (set_klock false s') →
    wpe (_ ← knowndevs_release; reraise r) (λ r s', settled s s' ∧ acct s' ∅ H ∧ P r s') s') as Hret.
  { intros r s' HS' E P HP. apply wpe_bind, wpe_mod, wpe_reraise. destruct (unlock_end s s' H Hi HS' E HU). done. }
  apply wpe_bind. eapply findmount_spec; [done|done|intros Hno; apply Hret; [done|done|exists l; split; [apply (tb_rep _ _ Ht)|]]|].
  { left. split; [done|]. intros k kd []. by apply (Hno k kd). }
  intros k kd Hm Hok. pose proof Hm as [Hk Ek Hraw _].
  assert (∀ r s', vfs_at s' (refs_of s ∅ H) H → same_dirs s s' → match kd_fs kd with None => r = inl EINVAL | Some f => unmounted s f k (refs_of s ∅ H) r s' end →
    wpe (_ ← knowndevs_release; reraise r) (λ r s', settled s s' ∧ acct s' ∅ H ∧ ∃ l, array_rep (v_knowndevs s) l ∧
      ((r = inl ENODEV ∧ ∀ k kd, ¬ mount_entry s l name k kd) ∨ ∃ k kd, mount_entry s l name k kd ∧
        match kd_fs kd with None => r = inl EINVAL | Some f => unmounted s f k (refs_of s ∅ H) r s' end)) s') as Hans.
  { intros r s' HS' E HP. apply Hret; [done|done|]. exists l. split; [apply (tb_rep _ _ Ht)|]. right. exists k, kd. split; [by destruct Hm|exact HP]. }
  destruct (kd_fs kd) as [f|] eqn:Hfs; [|apply wpe_raise, Hans; done].
  destruct (ko_raw _ _ Hok Hraw) as (dev & Ed & _). apply wpe_bind, wpe_assert; [by rewrite bool_decide_eq_true_2|].
  apply wpe_bind, wpe_assert; [by rewrite Ed|]. apply wpe_bind. rewrite Ed. apply (wpe_lift _ dev); [done|].
  assert (∀ s', onlyfs s1 f s' → same_dirs s s') as Hsd by (intros s' [x ->]; done).
  pose proof (sync_step s1 (refs_of s ∅ H) H f s1 (onlyfs_at s1 _ H f kd HS1 Hok Hfs) HS1) as Hsync.
  apply wpe_bind. destruct (fsop_sync_cases s1 f _ Hsync) as (r & s2 & E2 & (Ho2 & HS2 & Hcl) & Herr). eapply wpe_intro; [exact E2|].
  destruct r as [e|[]]. { apply Hans; [done|by apply Hsd|]. right. right. destruct (Herr e eq_refl) as (x & x' & Ef & Ex). by exists e, x, x'. }
  apply wpe_bind. eapply wpe_mono; [apply (unmount_step s1 (refs_of s ∅ H) H f s2 Ho2 HS2 (Hcl eq_refl))|].
  intros r s3 (x & -> & Hc). destruct Hc as [(-> & Hno & Hfit)|(-> & Hin & HS3)].
  - eapply wpe_mono; [by eapply (drop_step s1 (refs_of s ∅ H) H l k f kd HS1 Ht Hk Ek Hfs Hraw x dev)|].
    intros r s4 (-> & -> & HS4 & _). apply Hans; [done|done|]. left.
    split; [done|]. split; [done|]. simpl. split; [apply lookup_delete_eq|by rewrite lookup_insert_eq].
  - apply Hans; [done|by apply Hsd; exists x|]. right. by left.
Qed.

(** ** Unmounting everything *)

Lemma onlyfs_table s f s' l : onlyfs s f s' → table_ok s l → table_ok s' l ∧ same_dirs s s'.
Proof. intros [x ->] Ht. split; [by apply table_ok_fs|done]. Qed.

Lemma unmount_one_spec s refs opens l k kd :
  vfs_at s refs opens → table_ok s l → k ∈ l → v_kd s !! k = Some kd → kd_ok s kd →
  wpe (vfs_unmount_one k kd) (λ r s', r = inr tt ∧ same_dirs s s' ∧ vfs_at s' refs opens ∧ table_ok s' l) s.
Proof.
  intros HS Ht Hk Ek Hok. unfold vfs_unmount_one. case_bool_decide as Hraw; [by apply wpe_ret|]. destruct (kd_fs kd) as [f|] eqn:Hfs; [|by apply wpe_ret].
  pose proof (onlyfs_at s refs opens f kd HS Hok Hfs) as Ho. destruct (ko_raw _ _ Hok Hraw) as (dev & Ed & _).
  assert (∀ s', onlyfs s f s' → vfs_at s' refs opens → wpe (mret tt) (λ r s2, r = inr tt ∧ same_dirs s s2 ∧ vfs_at s2 refs opens ∧ table_ok s2 l) s') as Hret.
  { intros s' Ho' HS'. apply wpe_ret. destruct (onlyfs_table _ _ _ _ Ho' Ht). done. }
  apply wpe_bind, wpe_attempt. eapply wpe_mono; [exact (sync_step s refs opens f s Ho HS)|]. intros r1 s1 (Ho1 & HS1 & Hcl1). apply wpe_bind.
  assert (wpe (match r1 with inl _ => attempt (onfs f fsop_sync) | inr _ => mret r1 end) (λ r s2, ∃ x, r = inr x ∧ onlyfs s f s2 ∧ vfs_at s2 refs opens ∧
    (x = inr tt → ∀ y, v_fs s2 !! f = Some y → fs_clean y)) s1) as H2.
  { destruct r1 as [e|[]]; [|apply wpe_ret; by exists (inr tt)]. apply wpe_attempt.
    eapply wpe_mono; [exact (sync_step s refs opens f s1 Ho1 HS1)|]. intros r2 s2 (Ho2 & HS2 & Hcl2). by exists r2. }
  eapply wpe_mono; [exact H2|]. intros r s2 (x & -> & Ho2 & HS2 & Hcl2). destruct x as [e|[]]; [by apply Hret|].
  apply wpe_bind, wpe_attempt. eapply wpe_mono; [exact (unmount_step s refs opens f s2 Ho2 HS2 (Hcl2 eq_refl))|].
  intros r s3 (x & -> & Hc). destruct Hc as [(-> & Hno & Hfit)|(-> & Hin & HS3)]; [|apply Hret; [by exists x|done]].
  apply wpe_bind. rewrite Ed. apply (wpe_lift _ dev); [done|].
  eapply wpe_mono; [by eapply (drop_step s refs opens l k f kd HS Ht Hk Ek Hfs Hraw x dev)|]. intros r s4 (-> & -> & HS4 & Ht4). done.
Qed.

Lemma vfs_unmountall_spec s H : acct s ∅ H → wpe vfs_unmountall (λ r s', r = inr tt ∧ settled s s' ∧ acct s' ∅ H) s.
Proof.
  intros [HS HU Hi]. pose proof (vfs_at_klock s _ _ true HS) as HS1. destruct (va_table _ _ _ HS1) as (l & Ht).
  assert (∀ n i s', (n + i = length l)%nat → vfs_at s' (refs_of s ∅ H) H → table_ok s' l → same_dirs s s' →
    wpe (vfs_unmountall_loop n (Z.of_nat i)) (λ r s2, r = inr tt ∧ vfs_at s2 (refs_of s ∅ H) H ∧ same_dirs s s2) s') as Hloop.
  { induction n as [|n IH]; intros i s' Hlen HS' Ht' Hsd; cbn [vfs_unmountall_loop]; [by apply wpe_ret|].
    apply wpe_bind. eapply wpe_getkd; [done|lia|]. intros k kd Hk Ek Hok. replace (Z.of_nat i + 1) with (Z.of_nat (S i)) by lia.
    apply wpe_bind. eapply wpe_mono; [eapply (unmount_one_spec s' _ H l k kd); try done; by eapply list_elem_of_lookup_2|].
    intros r s2 (-> & [E1 E2 E3 E4] & HS2 & Ht2). apply IH; [lia|done|done|]. destruct Hsd as [G1 G2 G3 G4]. split; congruence. }
  unfold vfs_unmountall. apply wpe_bind, wpe_kacquire; [done|]. apply wpe_bind. eapply wpe_numkds; [done|].
  apply wpe_bind. eapply wpe_mono; [apply (Hloop (length l) 0%nat (set_klock true s)); [lia|done|done|done]|].
  intros r s' (-> & HS' & Hsd). apply wpe_mod. split; [done|]. by apply unlock_end.
Qed.
End mount.
