(* ===== verification/SfsVfs.v ===== *)
(** SFS keeps the promises the virtual file system relies on: its functions
    as an instance of [FsOps], disks and the null device as [DevOps], and the
    laws of [FsSpec], for disks that can be read and memory that suffices. *)

From Stdlib Require Import ZArith Lia.
From stdpp Require Import base numbers list option gmap gmultiset.
From S2P Require Import Prelude Array Bitmap Errm Uio UioProofs Lhd LhdProofs SfsDisk Sfs SfsBlock SfsInv SfsBmap SfsIo SfsSpec SfsTrunc SfsAbs SfsVnode SfsDir SfsNames SfsNaming SfsMount Vfs VfsSpec.

Open Scope Z_scope.

(** ** Devices *)

Inductive device := DNull | DLhd (d : disk).

(** devnull.c *)
Definition nullopen (openflags : Z) : Z := 0.
Definition nullclose : Z := 0.
Definition nullio : EM uio unit :=
  u ← eget;
  if is_read u then mret tt else emod (set_resid 0).
Definition nullioctl (op data : Z) : Z := EINVAL.

Definition errcode {S} (e : Z) : EM S unit := if e =? 0 then mret tt else raise e.

#[export] Instance device_ops : DevOps device := {
  dev_blocks x := match x with DNull => 0 | DLhd d => d_blocks d end;
  dev_blocksize x := match x with DNull => 1 | DLhd d => 512 end;
  d_open flags := x ← eget; errcode (match x with DNull => nullopen flags | DLhd _ => lhd_open flags end);
  d_close := x ← eget; errcode (match x with DNull => nullclose | DLhd _ => lhd_close end);
  d_io := λ '(x, u),
    match x with
    | DNull => match nullio u with Ret (r, u') => Ret (r, (DNull, u')) | Panic => Panic | Undef => Undef | NoFuel => NoFuel end
    | DLhd d => match lhd_io (d, u) with Ret (r, (d', u')) => Ret (r, (DLhd d', u')) | Panic => Panic | Undef => Undef | NoFuel => NoFuel end
    end;
  d_ioctl op data := x ← eget; errcode (match x with DNull => nullioctl op data | DLhd _ => lhd_ioctl op data end)
}.

(** ** The functions *)

Definition set_opencount (n : Z) (v : sfs_vnode) : sfs_vnode := mkSv (sv_i v) (sv_ino v) (sv_dirty v) (sv_refcount v) n (sv_ops v).

Definition vnode_incopen (p : Z) : EM sfs unit := v ← getv p; putv p (set_opencount (s32 (sv_opencount v + 1)) v).

Definition vnode_decopen (p : Z) : EM sfs unit :=
  v ← getv p;
  _ ← eassert (0 <? sv_opencount v);
  _ ← putv p (set_opencount (sv_opencount v - 1) v);
  if 0 <? sv_opencount v - 1 then mret tt else
  _ ← vop_check p;
  _ ← attempt (sfs_close p);
  mret tt.

(** The entry of the vnode's table. *)
Definition dispatch {A} (p : Z) (file dir : EM sfs A) : EM sfs A :=
  v ← vop_check p;
  match sv_ops v with sfs_fileops => file | sfs_dirops => dir end.

Definition sfs_mountfunc (x : device) : res ((Z + sfs) * device) :=
  match x with
  | DNull => Ret (inl ENXIO, DNull)
  | DLhd d =>
      match sfs_domount 512 (sfs_blank d []) with
      | Ret (inr _, s) => Ret (inr s, DLhd (sfs_device s))
      | Ret (inl e, s) => Ret (inl e, DLhd (sfs_device s))
      | Panic => Panic
      | Undef => Undef
      | NoFuel => NoFuel
      end
  end.

#[export] Instance sfs_ops : FsOps sfs device := {
  fs_device s := DLhd (sfs_device s);
  fs_setdev x s := match x with DLhd d => set_dev d s | DNull => s end;
  fs_domount := sfs_mountfunc;
  fsop_sync := sfs_sync;
  fsop_getvolname s := Some (cstr (sp_volname (sfs_sb s)));
  fsop_getroot := sfs_getroot;
  fsop_unmount := sfs_unmount;
  fs_incref := VOP_INCREF;
  fs_decref := VOP_DECREF;
  fs_incopen := vnode_incopen;
  fs_decopen := vnode_decopen;
  vop_open p flags := dispatch p (sfs_open flags) (sfs_opendir flags);
  vop_gettype p := dispatch p (sfs_gettype p) (sfs_gettype p);
  vop_truncate := VOP_TRUNCATE;
  vop_readlink p := onfst (dispatch p (raise ENOTDIR) (raise EISDIR));
  vop_namefile p :=
    v ← onfst (vop_check p);
    match sv_ops v with sfs_fileops => raise ENOTDIR | sfs_dirops => sfs_namefile p end;
  vop_creat p name excl := dispatch p (raise ENOTDIR) (sfs_creat p name excl);
  vop_symlink p name contents := dispatch p (raise ENOTDIR) (raise EUNIMP);
  vop_mkdir p name := dispatch p (raise ENOTDIR) (raise EUNIMP);
  vop_link p name q := dispatch p (raise ENOTDIR) (sfs_link p name q);
  vop_remove p name := dispatch p (raise ENOTDIR) (sfs_remove p name);
  vop_rmdir p name := dispatch p (raise ENOTDIR) (raise EUNIMP);
  vop_rename p n1 q n2 := dispatch p (raise ENOTDIR) (sfs_rename p n1 q n2);
  vop_lookup p path := dispatch p (raise ENOTDIR) (sfs_lookup p path);
  vop_lookparent p path n := dispatch p (raise ENOTDIR) (sfs_lookparent p path n)
}.

(** ** What SFS promises *)

(** A disk with a volume that was synced, and that can be read. *)
Definition disk_fit (x : device) : Prop :=
  match x with
  | DNull => False
  | DLhd d => d_rstat d = [] ∧ ∃ sb fm G own a, image d sb fm G own ∧ ∃ V, view (mounted d sb fm 1 []) G ≡ V ∧ ns_ok V a
  end.

Lemma device_open flags (x : device) : wpe (d_open flags) (λ _ x', x' = x) x.
Proof. simpl. estep. by destruct x; apply wpe_ret. Qed.
Lemma device_close (x : device) : wpe d_close (λ _ x', x' = x) x.
Proof. simpl. estep. by destruct x; apply wpe_ret. Qed.
#[export] Instance device_spec : DevSpec device := { dev_fit := disk_fit; law_d_open := device_open; law_d_close := device_close }.

(** The counts of the vnodes are those of the multisets. *)
Definition counted (Rv : gmap Z vref) (R O : gmultiset Z) : Prop := ∀ p,
  match Rv !! p with
  | Some r => r_count r = Z.of_nat (multiplicity p R) ∧ r_open r = Z.of_nat (multiplicity p O)
  | None => multiplicity p R = 0%nat ∧ multiplicity p O = 0%nat
  end.

(** The only directory is the root. *)
Definition kinds_ok (Rv : gmap Z vref) (W : gset (Z * bool)) : Prop := ∀ p b, (p, b) ∈ W → ∃ r, Rv !! p = Some r ∧ bool_decide (r_ino r = ROOT) = b.

Definition sfs_at (s : sfs) (R O : gmultiset Z) (W : gset (Z * bool)) : Prop :=
  ∃ V Rv a, fsat False s V Rv ∧ ns_ok V a ∧ reads_fine s ∧ s_orc s = [] ∧ counted Rv R O ∧ kinds_ok Rv W.

Lemma counted_elem Rv R O p : counted Rv R O → p ∈ R → ∃ r, Rv !! p = Some r.
Proof.
  intros Hc Hp. specialize (Hc p). pose proof (proj1 (elem_of_multiplicity p R) Hp). destruct (Rv !! p) as [r|]; [by exists r|]. lia.
Qed.

Lemma counted_room Rv R O : counted Rv R O → room 1 R → uncounted Rv.
Proof. intros Hc Hr p r Hp. specialize (Hc p). rewrite Hp in Hc. destruct Hc as [-> _]. specialize (Hr p). lia. Qed.

Lemma counted_picked Rv R O q ino Rv' : counted Rv R O → picked Rv q ino Rv' → counted Rv' ({[+ q +]} ⊎ R) O.
Proof.
  intros Hc (n & oc & -> & Hq) p. specialize (Hc p). rewrite multiplicity_disj_union. destruct (decide (p = q)) as [->|Hne].
  - rewrite lookup_insert_eq, multiplicity_singleton_eq. destruct Hq as [E|(E & -> & -> & _)]; rewrite E in Hc; simpl in *; lia.
  - rewrite lookup_insert_ne, multiplicity_singleton_ne by done. exact Hc.
Qed.

Lemma kinds_picked Rv q ino Rv' W : kinds_ok Rv W → picked Rv q ino Rv' → kinds_ok Rv' W.
Proof.
  intros Hd (n & oc & -> & Hq) p b Hp. destruct (Hd p b Hp) as (r & E & Er). destruct (decide (p = q)) as [->|Hne].
  - eexists. split; [apply lookup_insert_eq|]. simpl. destruct Hq as [E'|(E' & _)]; [|congruence]. rewrite E in E'. by injection E' as ->.
  - exists r. by rewrite lookup_insert_ne by done.
Qed.

Lemma kinds_add_one Rv W p r b : kinds_ok Rv W → Rv !! p = Some r → bool_decide (r_ino r = ROOT) = b → kinds_ok Rv ({[(p, b)]} ∪ W).
Proof.
  intros Hd Hp Hb q c Hq. apply elem_of_union in Hq as [Hq|Hq]; [|by apply Hd]. apply elem_of_singleton in Hq as [= -> ->]. by exists r.
Qed.

(** A vnode in use: the root directory's, or a plain file's. *)
Lemma vnode_kind s V Rv a p r :
  fsat False s V Rv → ns_ok V a → Rv !! p = Some r →
  ∃ v b, s_vn s !! p = Some v ∧ vref_of v = r ∧ V !! r_ino r = Some b ∧ 0 < r_count r ∧ 0 ≤ r_open r ∧
    ((r_ino r = ROOT ∧ b = a ∧ sv_ops v = sfs_dirops ∧ sfi_type (sv_i v) = SFS_TYPE_DIR) ∨
     (r_ino r ≠ ROOT ∧ a_type b = SFS_TYPE_FILE ∧ sv_ops v = sfs_fileops ∧ sfi_type (sv_i v) = SFS_TYPE_FILE)).
Proof.
  intros HS Hns Hp. destruct (fsat_count _ _ _ _ _ HS Hp) as [_ [b Hb]].
  destruct (fsat_meta _ _ _ _ _ _ HS Hp Hb) as (v & Hv & Er & Et & _ & _ & _ & _ & Hops & Hc & Ho). exists v, b. do 5 (split; [done|]).
  destruct (decide (r_ino r = ROOT)) as [E|Hne].
  - left. rewrite E, (ns_root _ _ _ _ Hns) in Hb. injection Hb as <-. split; [done|]. split; [done|]. rewrite (dk_type _ (ns_dir _ _ _ _ Hns)) in Et.
    destruct Hops as [[Ht _]|[Ht Ho']]; [by rewrite Ht in Et|done].
  - right. split; [done|]. destruct (ns_file _ _ _ _ Hns _ _ Hb Hne) as [Ht _]. split; [done|]. rewrite Ht in Et. destruct Hops as [[Ht' Ho']|[Ht' _]]; [done|by rewrite Ht' in Et].
Qed.

Lemma wpe_vop_check s V Rv p r v Q :
  fsat False s V Rv → Rv !! p = Some r → s_vn s !! p = Some v → vref_of v = r → 0 < r_count r → 0 ≤ r_open r → Q (inr v) s → wpe (vop_check p) Q s.
Proof.
  intros HS Hp Hv <- Hc Ho HQ. simpl in Hc, Ho. unfold vop_check. apply wpe_bind. eapply wpe_getv; [exact Hv|]. apply wpe_bind, wpe_assert; [lia|]. by apply wpe_ret.
Qed.

Section laws.
Context (s : sfs) (R O : gmultiset Z) (W : gset (Z * bool)) (V : gmap Z afile) (Rv : gmap Z vref) (a : afile).
Context (HS : fsat False s V Rv) (Hns : ns_ok V a) (Hfine : reads_fine s) (Hmem : s_orc s = []) (Hc : counted Rv R O) (Hd : kinds_ok Rv W).

(** The state after a call. *)
Lemma at_after s' V' Rv' a' R' O' W' :
  SfsAbs.keeps s s' → fsat False s' V' Rv' → ns_ok V' a' → counted Rv' R' O' → kinds_ok Rv' W' → sfs_at s' R' O' W'.
Proof using Hfine Hmem. intros [K1 K2 K3] HS' Hns' Hc' Hd'. exists V', Rv', a'. split_and!; auto. Qed.

Lemma at_same s' V' a' : SfsAbs.keeps s s' → fsat False s' V' Rv → ns_ok V' a' → sfs_at s' R O W.
Proof using Hfine Hmem Hc Hd. intros. by eapply at_after. Qed.

Lemma at_here : sfs_at s R O W.
Proof using All. by exists V, Rv, a. Qed.

Lemma at_picked s' V' a' q ino Rv' : SfsAbs.keeps s s' → fsat False s' V' Rv' → ns_ok V' a' → picked Rv q ino Rv' → sfs_at s' ({[+ q +]} ⊎ R) O W.
Proof using Hfine Hmem Hc Hd. intros. eapply at_after; [done..|by eapply counted_picked|by eapply kinds_picked]. Qed.

Lemma no_load_error e : ¬ load_error s e.
Proof using Hfine Hmem. by intros [[_ ?]|[_ ?]]. Qed.

(** Calling the function of the vnode's kind. *)
Lemma dispatch_spec {A} p (file dir : EM sfs A) Q :
  p ∈ R →
  (∀ r v b, Rv !! p = Some r → r_ino r ≠ ROOT → s_vn s !! p = Some v → V !! r_ino r = Some b → a_type b = SFS_TYPE_FILE →
     sfi_type (sv_i v) = SFS_TYPE_FILE → wpe file Q s) →
  (∀ r v, Rv !! p = Some r → r_ino r = ROOT → s_vn s !! p = Some v → sfi_type (sv_i v) = SFS_TYPE_DIR → wpe dir Q s) →
  wpe (dispatch p file dir) Q s.
Proof using HS Hns Hc.
  intros Hp Hf Hdr. destruct (counted_elem _ _ _ _ Hc Hp) as [r Hr]. destruct (vnode_kind _ _ _ _ _ _ HS Hns Hr) as (v & b & Hv & Er & Hb & Hct & Ho & Hk).
  unfold dispatch. apply wpe_bind. eapply wpe_vop_check; [done..|]. destruct Hk as [(E & _ & -> & Et)|(Hne & Ht & -> & Et)]; [by eapply Hdr|by eapply Hf].
Qed.

Lemma dispatch_raise {A} p e1 e2 (Q : Z + A → sfs → Prop) : p ∈ R → Q (inl e1) s → Q (inl e2) s → wpe (dispatch p (raise e1) (raise e2)) Q s.
Proof using HS Hns Hc. intros Hp H1 H2. eapply dispatch_spec; [done| |]; intros; by apply wpe_raise. Qed.

Lemma at_sync : wpe sfs_sync (λ r s', sfs_at s' R O W ∧ (r = inr tt → clean s')) s.
Proof using All. eapply wpe_mono; [exact (sfs_sync_spec s V Rv HS)|]. intros r s' (-> & Hk & HS' & Hcl). split; [by eapply at_same|done]. Qed.

Lemma at_getroot : room 1 R → wpe sfs_getroot (λ r s', ∃ q, r = inr q ∧ sfs_at s' ({[+ q +]} ⊎ R) O W) s.
Proof using All.
  intros Hr. unfold sfs_getroot. apply wpe_bind, wpe_attempt. eapply wpe_mono; [eapply fsat_loadvnode; [done|apply Hns|by eapply counted_room]|].
  intros r s' (Hk & [(q & Rv' & -> & Hpk & HS')|(e & _ & He & _)]); [|by destruct (no_load_error e)].
  apply wpe_ret. exists q. split; [done|]. by eapply at_picked.
Qed.

Lemma at_incref p : p ∈ R → room 1 R → wpe (VOP_INCREF p) (λ r s', r = inr tt ∧ sfs_at s' ({[+ p +]} ⊎ R) O W) s.
Proof using All.
  intros Hp Hr. destruct (counted_elem _ _ _ _ Hc Hp) as [r Er]. eapply wpe_mono; [apply (fsat_incref s V Rv p r HS Er), (counted_room Rv R O Hc Hr p r Er)|].
  intros res s' (-> & Hk & HS'). split; [done|]. eapply at_picked; [done..|]. exists (r_count r), (r_open r). split; [done|]. left. rewrite Er. by destruct r.
Qed.
End laws.

(** ** References *)

Lemma counted_minus Rv R O p r :
  counted Rv ({[+ p +]} ⊎ R) O → Rv !! p = Some r → O ⊆ R →
  r_count r = Z.of_nat (S (multiplicity p R)) ∧ (r_count r = 1 → r_open r = 0) ∧
  (1 < r_count r → counted (<[p := VRef (r_ino r) (r_count r - 1) (r_open r)]> Rv) R O) ∧ (r_count r = 1 → counted (delete p Rv) R O).
Proof.
  intros Hc Hp Hsub. pose proof (Hc p) as H. rewrite Hp, multiplicity_disj_union, multiplicity_singleton_eq in H. destruct H as [E1 E2].
  pose proof (Hsub p) as Hle. split; [done|]. split; [lia|].
  assert (∀ q, q ≠ p → multiplicity q ({[+ p +]} ⊎ R) = multiplicity q R) as Hne by (intros q Hq; by rewrite multiplicity_disj_union, multiplicity_singleton_ne).
  split; intros Hn q; (destruct (decide (q = p)) as [->|Hq]; [|rewrite ?lookup_insert_ne, ?lookup_delete_ne by done; specialize (Hc q); by rewrite Hne in Hc]).
  - rewrite lookup_insert_eq. simpl. lia.
  - rewrite lookup_delete_eq. lia.
Qed.

Lemma at_decref s R O W p :
  sfs_at s ({[+ p +]} ⊎ R) O W → O ⊆ R → (∀ q b, (q, b) ∈ W → q ∈ R) → wpe (VOP_DECREF p) (λ r s', r = inr tt ∧ sfs_at s' R O W) s.
Proof.
  intros (V & Rv & a & HS & Hns & Hfine & Hmem & Hc & Hd) HO HW. destruct (counted_elem _ _ _ p Hc) as [r Hp]; [multiset_solver|].
  destruct (counted_minus _ _ _ _ _ Hc Hp HO) as (E & Hop & Hc1 & Hc2). destruct (vnode_kind _ _ _ _ _ _ HS Hns Hp) as (v & b & Hv & Er & Hb & _ & _ & Hk).
  eapply wpe_mono; [apply (fsat_decref s V Rv p r b HS Hp Hb)|].
  { intros H1. split; [by apply Hop|]. intros Hz. destruct Hk as [(_ & -> & _)|(_ & Ht & _)]; [|done]. pose proof (ns_self _ _ _ _ Hns). lia. }
  intros res s' (-> & Hkp & V' & Rv' & Hrel & HS'). split; [done|]. unfold released in Hrel. case_decide as H1.
  { destruct Hrel as [-> ->]. eapply (at_after s Hfine Hmem); [done..|by apply Hc1|]. intros q c Hq. destruct (Hd q c Hq) as (rq & Eq & Hr).
    destruct (decide (q = p)) as [->|Hne]; [|exists rq; by rewrite lookup_insert_ne by done]. rewrite lookup_insert_eq. assert (rq = r) as -> by congruence. by eexists. }
  assert (r_count r = 1) as H1' by lia. assert (multiplicity p R = 0%nat) as H0 by lia.
  assert (∃ a', ns_ok V' a' ∧ Rv' = delete p Rv) as (a' & Hns' & ->).
  { exists a. case_decide as Hz; [|by destruct Hrel as [-> ->]]. destruct Hrel as [[-> ->]|(Hn & _)]; [|done]. split; [|done].
    destruct Hk as [(_ & -> & _)|(Hne & _)]; [pose proof (ns_self _ _ _ _ Hns); lia|].
    eapply ns_at_zero, (ns_drop V a (r_ino r) 0 (ns_at_zero _ _ _ _ Hns) Hne b eq_refl); done. }
  eapply (at_after s Hfine Hmem); [done..|by apply Hc2|]. intros q c Hq. destruct (Hd q c Hq) as (rq & Eq & Hr). exists rq. split; [|done].
  rewrite lookup_delete_ne; [done|]. intros <-. pose proof (proj1 (elem_of_multiplicity p R) (HW p c Hq)). lia.
Qed.

(** ** Opens *)

Lemma counted_open Rv R O O' p r :
  counted Rv R O → Rv !! p = Some r → (∀ q, q ≠ p → multiplicity q O' = multiplicity q O) →
  counted (<[p := VRef (r_ino r) (r_count r) (Z.of_nat (multiplicity p O'))]> Rv) R O'.
Proof.
  intros Hc Hp Hne q. specialize (Hc q). destruct (decide (q = p)) as [->|Hq].
  - rewrite lookup_insert_eq. rewrite Hp in Hc. simpl. lia.
  - rewrite lookup_insert_ne, Hne by done. exact Hc.
Qed.

Lemma kinds_open Rv W p r n oc : kinds_ok Rv W → Rv !! p = Some r → kinds_ok (<[p := VRef (r_ino r) n oc]> Rv) W.
Proof.
  intros Hd Hp q b Hq. destruct (Hd q b Hq) as (rq & Eq & Er). destruct (decide (q = p)) as [->|Hne].
  - rewrite lookup_insert_eq. assert (rq = r) as -> by congruence. by eexists.
  - exists rq. by rewrite lookup_insert_ne by done.
Qed.

(** Another number of opens. *)
Lemma set_open_at s R O O' W p v n :
  sfs_at s R O W → p ∈ R → s_vn s !! p = Some v → (∀ q, q ≠ p → multiplicity q O' = multiplicity q O) → n = Z.of_nat (multiplicity p O') →
  sfs_at (set_vn (<[p := set_opencount n v]> (s_vn s)) s) R O' W.
Proof.
  intros (V & Rv & a & HS & Hns & Hfine & Hmem & Hc & Hd) Hp Hv Hne ->. destruct (counted_elem _ _ _ _ Hc Hp) as [r Er].
  destruct (vnode_kind _ _ _ _ _ _ HS Hns Er) as (w & b & Hw & Ev & _ & Hct & _). assert (w = v) as -> by congruence.
  eapply (at_after s Hfine Hmem); [|apply (fsat_counts s V Rv p r v (sv_refcount v) _ HS Er Hv); [by rewrite <- Ev in Hct|lia]|done| |by apply kinds_open]; [done|].
  replace (sv_refcount v) with (r_count r) by (by rewrite <- Ev). by eapply counted_open.
Qed.

Lemma at_vnode s R O W p : sfs_at s R O W → p ∈ R → ∃ v, s_vn s !! p = Some v ∧ sv_opencount v = Z.of_nat (multiplicity p O) ∧ 0 < sv_refcount v.
Proof.
  intros (V & Rv & a & HS & Hns & _ & _ & Hc & _) Hp. destruct (counted_elem _ _ _ _ Hc Hp) as [r Er].
  destruct (vnode_kind _ _ _ _ _ _ HS Hns Er) as (v & b & Hv & Ev & _ & Hct & _). exists v. split; [done|]. specialize (Hc p). rewrite Er in Hc.
  rewrite <- Ev in Hc, Hct. simpl in *. by destruct Hc.
Qed.

Lemma at_incopen s R O W p : sfs_at s R O W → p ∈ R → room 1 O → wpe (vnode_incopen p) (λ r s', r = inr tt ∧ sfs_at s' R ({[+ p +]} ⊎ O) W) s.
Proof.
  intros Hat Hp Hr. destruct (at_vnode _ _ _ _ _ Hat Hp) as (v & Hv & Eo & _). unfold vnode_incopen. apply wpe_bind. eapply wpe_getv; [exact Hv|].
  apply wpe_mod. split; [done|]. specialize (Hr p). rewrite s32_id by (unfold is_s32; lia). apply (set_open_at s R O); [done..| |].
  - intros q Hq. by rewrite multiplicity_disj_union, multiplicity_singleton_ne.
  - rewrite multiplicity_disj_union, multiplicity_singleton_eq. lia.
Qed.

Lemma at_fsync s R O W p : sfs_at s R O W → p ∈ R → wpe (VOP_FSYNC p) (λ r s', r = inr tt ∧ sfs_at s' R O W) s.
Proof.
  intros (V & Rv & a & HS & Hns & Hfine & Hmem & Hc & Hd) Hp. destruct (counted_elem _ _ _ _ Hc Hp) as [r Er].
  destruct (vnode_kind _ _ _ _ _ _ HS Hns Er) as (v & b & Hv & Ev & _ & Hct & Ho & _). unfold VOP_FSYNC. apply wpe_bind.
  eapply wpe_vop_check; [done..|]. destruct (fsat_file _ _ _ _ _ HS Er) as (G & own & v' & bm & Haf & HV & [HR _] & _).
  eapply wpe_mono; [by eapply sync_inode_spec|]. intros res s' (-> & w & Haf' & _ & _ & _ & _ & Hv' & Hsh & _). split; [done|].
  eapply (at_after s Hfine Hmem); [by apply shape_keeps| |done|done|done]. exists G, own. split; [apply Haf'|]. split; [by rewrite Hv'|].
  split; [by rewrite (shape_vrefs _ _ Hsh)|done].
Qed.

Lemma at_decopen s R O W p : sfs_at s R ({[+ p +]} ⊎ O) W → p ∈ R → wpe (vnode_decopen p) (λ r s', r = inr tt ∧ sfs_at s' R O W) s.
Proof.
  intros Hat Hp. destruct (at_vnode _ _ _ _ _ Hat Hp) as (v & Hv & Eo & Hct). rewrite multiplicity_disj_union, multiplicity_singleton_eq in Eo.
  unfold vnode_decopen. apply wpe_bind. eapply wpe_getv; [exact Hv|]. apply wpe_bind, wpe_assert; [lia|]. apply wpe_bind, wpe_mod.
  set (s1 := set_vn _ s). assert (sfs_at s1 R O W) as Hat1.
  { apply (set_open_at s R ({[+ p +]} ⊎ O)); [done..| |lia]. intros q Hq. by rewrite multiplicity_disj_union, multiplicity_singleton_ne. }
  apply wpe_if; intros Hpos; [by apply wpe_ret|]. destruct (at_vnode _ _ _ _ _ Hat1 Hp) as (v1 & Hv1 & Eo1 & Hct1).
  apply wpe_bind. unfold vop_check. apply wpe_bind. eapply wpe_getv; [exact Hv1|]. apply wpe_bind, wpe_assert; [lia|]. apply wpe_ret.
  apply wpe_bind, wpe_attempt. eapply wpe_mono; [by eapply at_fsync|]. intros r s' [-> Hs']. by apply wpe_ret.
Qed.

(** ** Names *)

Section calls.
Context (s : sfs) (R O : gmultiset Z) (W : gset (Z * bool)) (Hat : sfs_at s R O W).

Lemma at_open p flags : p ∈ R → wpe (dispatch p (sfs_open flags) (sfs_opendir flags)) (λ _ s', sfs_at s' R O W) s.
Proof using Hat.
  destruct Hat as (V & Rv & a & HS & Hns & Hfine & Hmem & Hc & Hd). intros Hp. eapply dispatch_spec; [done..| |]; intros.
  - unfold sfs_open. apply wpe_if; intros _; [by apply wpe_raise|by apply wpe_ret].
  - unfold sfs_opendir. apply wpe_if; intros _; [by apply wpe_raise|]. apply wpe_if; intros _; [by apply wpe_raise|by apply wpe_ret].
Qed.

Lemma at_gettype p : p ∈ R →
  wpe (dispatch p (sfs_gettype p) (sfs_gettype p)) (λ r s', sfs_at s' R O W ∧ ∀ t, r = inr t → Z.land t S_IFMT = S_IFDIR → sfs_at s' R O ({[(p, true)]} ∪ W)) s.
Proof using Hat.
  destruct Hat as (V & Rv & a & HS & Hns & Hfine & Hmem & Hc & Hd). intros Hp. eapply dispatch_spec; [done..| |].
  - intros r v b Hr Hne Hv Hb Ht Et. unfold sfs_gettype. apply wpe_bind. eapply wpe_getv; [exact Hv|]. rewrite Et. apply wpe_ret. split; [done|]. by intros t [= <-].
  - intros r v Hr Er Hv Et. unfold sfs_gettype. apply wpe_bind. eapply wpe_getv; [exact Hv|]. rewrite Et. apply wpe_ret. split; [done|]. intros t _ _.
    eapply (at_after s Hfine Hmem); [apply keeps_refl|done..|]. eapply kinds_add_one; [done..|]. by apply bool_decide_eq_true_2.
Qed.

Lemma at_truncate p : p ∈ R → wpe (VOP_TRUNCATE p 0) (λ _ s', sfs_at s' R O W) s.
Proof using Hat.
  pose proof Hat as (V & Rv & a & HS & Hns & Hfine & Hmem & Hc & Hd). intros Hp. destruct (counted_elem _ _ _ _ Hc Hp) as [r Er].
  destruct (vnode_kind _ _ _ _ _ _ HS Hns Er) as (v & b & Hv & Ev & Hb & Hct & Ho & Hk). destruct Hk as [(_ & _ & Eops & _)|(Hne & Ht & _)].
  - unfold VOP_TRUNCATE. apply wpe_bind. eapply wpe_vop_check; [done..|]. rewrite Eops. by apply wpe_raise.
  - eapply wpe_mono; [apply (fsat_vop_truncate s V Rv p r b 0 HS Er Hb Ht); lia|]. intros res s' (Hk & [[-> HS']|(_ & Hn & _)]); [|done].
    eapply (at_after s Hfine Hmem); [done..| |done|done]. by apply (ns_contents V a (r_ino r) b).
Qed.

Lemma at_namefile p u : p ∈ R → (p, true) ∈ W →
  wpe (v ← onfst (vop_check p); match sv_ops v with sfs_fileops => raise ENOTDIR | sfs_dirops => sfs_namefile p end : EM (sfs * uio) unit)
    (λ _ '(s', _), sfs_at s' R O W) (s, u).
Proof using Hat.
  pose proof Hat as (V & Rv & a & HS & Hns & Hfine & Hmem & Hc & Hd). intros Hp HW. destruct (Hd p true HW) as (r & Er & Eino%bool_decide_eq_true).
  destruct (vnode_kind _ _ _ _ _ _ HS Hns Er) as (v & b & Hv & Ev & Hb & Hct & Ho & Hk). destruct Hk as [(_ & _ & Eops & _)|(Hne & _)]; [|done].
  apply wpe_bind, wpe_onfst. eapply wpe_vop_check; [done..|]. rewrite Eops. unfold sfs_namefile. apply wpe_bind, wpe_onfst. eapply wpe_getv; [exact Hv|].
  apply wpe_assert; [|done]. replace (sv_ino v) with (r_ino r) by (by rewrite <- Ev). by rewrite Eino.
Qed.

Lemma at_creat p name excl : p ∈ R → room 1 R → chars_ok name →
  wpe (dispatch p (raise ENOTDIR) (sfs_creat p name excl)) (λ r s', sfs_at s' (handed r R) O W) s.
Proof using Hat.
  pose proof Hat as (V & Rv & a & HS & Hns & Hfine & Hmem & Hc & Hd). intros Hp Hr Hn. eapply dispatch_spec; [done..| |]; [intros; by apply wpe_raise|].
  intros r v Er Eino Hv Et. eapply wpe_mono; [eapply (sfs_creat_spec (t := False) V Rv p r a Er Eino Hns (counted_room _ _ _ Hc Hr)); done|].
  intros res s' (Hk & [(q & ino & V' & Rv' & -> & Hpk & HS' & Hcr)|(e & V' & Rv' & -> & _ & Hno & HS')]).
  - destruct Hcr as [(_ & _ & ->)|(_ & _ & a' & Hns' & _)]; by eapply (at_picked s R O W Rv).
  - destruct Hno as [[-> ->]|[Hn' _]]; [|done]. by eapply (at_same s R O W Rv).
Qed.

Lemma at_remove p name : p ∈ R → room 1 R → wpe (dispatch p (raise ENOTDIR) (sfs_remove p name)) (λ _ s', sfs_at s' R O W) s.
Proof using Hat.
  pose proof Hat as (V & Rv & a & HS & Hns & Hfine & Hmem & Hc & Hd). intros Hp Hr. eapply dispatch_spec; [done..| |]; [intros; by apply wpe_raise|].
  intros r v Er Eino Hv Et. eapply wpe_mono; [eapply (sfs_remove_spec V Rv p r a Er Eino Hns (counted_room _ _ _ Hc Hr)); done|].
  intros res s' (Hk & [(-> & V' & Rv' & (ino & b & a' & _ & _ & Hns' & _ & Hrm) & HS')|(e & -> & _ & HS')]); [|by eapply (at_same s R O W Rv)].
  assert (Rv' = Rv) as -> by (destruct Hrm as [(-> & _)|(_ & _ & [[-> _]|[? _]])]; done). by eapply (at_same s R O W Rv).
Qed.

Lemma at_rename p n1 q n2 : p ∈ R → q ∈ R → (p, true) ∈ W → (q, true) ∈ W → room 1 R → chars_ok n1 → chars_ok n2 →
  wpe (dispatch p (raise ENOTDIR) (sfs_rename p n1 q n2)) (λ _ s', sfs_at s' R O W) s.
Proof using Hat.
  pose proof Hat as (V & Rv & a & HS & Hns & Hfine & Hmem & Hc & Hd). intros Hp Hq HpW HqW Hr H1 H2.
  destruct (Hd p true HpW) as (rp & Ep & Eip%bool_decide_eq_true), (Hd q true HqW) as (rq & Eq & Eiq%bool_decide_eq_true). assert (q = p) as -> by (eapply (fsat_inj s V Rv q p); [done..|congruence]).
  eapply dispatch_spec; [done..| |]; [intros; by apply wpe_raise|].
  intros r v Er Eino Hv Et. eapply wpe_mono; [eapply (sfs_rename_spec V Rv p r a Er Eino Hns (counted_room _ _ _ Hc Hr)); done|].
  intros res s' (Hk & [(-> & V' & (ino & a' & _ & _ & _ & Hns' & _) & HS')|(e & -> & _ & HS')]); by eapply (at_same s R O W Rv).
Qed.

Lemma at_link p name q : p ∈ R → q ∈ R → (q, false) ∈ W → room 1 R → chars_ok name →
  wpe (dispatch p (raise ENOTDIR) (sfs_link p name q)) (λ _ s', sfs_at s' R O W) s.
Proof using Hat.
  pose proof Hat as (V & Rv & a & HS & Hns & Hfine & Hmem & Hc & Hd). intros Hp Hq HqW Hr Hn. eapply dispatch_spec; [done..| |]; [intros; by apply wpe_raise|].
  destruct (Hd q false HqW) as (rq & Eq & Eiq%bool_decide_eq_false). destruct (vnode_kind _ _ _ _ _ _ HS Hns Eq) as (vq & b & _ & _ & Hb & _).
  intros r v Er Eino Hv Et. eapply wpe_mono; [eapply (sfs_link_spec V Rv p r a Er Eino Hns); done|].
  intros res s' (Hk & [(a' & _ & Hns' & _ & _ & HS')|(e & -> & _ & HS')]); by eapply (at_same s R O W Rv).
Qed.

Lemma at_lookup p path : p ∈ R → room 1 R →
  wpe (dispatch p (raise ENOTDIR) (sfs_lookup p path)) (λ r s', match r with
    | inr q => sfs_at s' ({[+ q +]} ⊎ R) O ({[(q, false)]} ∪ W)
    | inl _ => sfs_at s' R O W
    end) s.
Proof using Hat.
  pose proof Hat as (V & Rv & a & HS & Hns & Hfine & Hmem & Hc & Hd). intros Hp Hr. eapply dispatch_spec; [done..| |]; [intros; by apply wpe_raise|].
  intros r v Er Eino Hv Et. unfold sfs_lookup. apply wpe_bind. eapply wpe_getv; [exact Hv|]. rewrite Et. cbn [negb Z.eqb SFS_TYPE_DIR Pos.eqb].
  apply wpe_bind. eapply wpe_mono; [eapply (sfs_lookonce_spec V Rv p r a Er Eino Hns (counted_room _ _ _ Hc Hr)); done|].
  intros res s' (Hk & [(q & slot & ino & Rv' & -> & Hde & Hpk & HS')|(e & -> & _ & HS')]); [|by eapply (at_same s R O W Rv)].
  apply wpe_ret. eapply (at_after s Hfine Hmem); [done..|by eapply counted_picked|]. destruct (picked_lookup _ _ _ _ Hpk) as (rq & Eq & Eiq).
  eapply kinds_add_one; [by eapply kinds_picked|done|]. apply bool_decide_eq_false_2. rewrite Eiq. by destruct (ns_entry _ _ _ _ Hns _ _ _ Hde).
Qed.

Lemma at_lookparent p path n : p ∈ R → room 1 R → chars_ok path →
  wpe (dispatch p (raise ENOTDIR) (sfs_lookparent p path n)) (λ r s', match r with
    | inr (q, name) => chars_ok name ∧ sfs_at s' ({[+ q +]} ⊎ R) O ({[(q, true)]} ∪ W)
    | inl _ => sfs_at s' R O W
    end) s.
Proof using Hat.
  pose proof Hat as (V & Rv & a & HS & Hns & Hfine & Hmem & Hc & Hd). intros Hp Hr Hn. eapply dispatch_spec; [done..| |]; [intros; by apply wpe_raise|].
  intros r v Er Eino Hv Et. unfold sfs_lookparent. apply wpe_bind. eapply wpe_getv; [exact Hv|]. rewrite Et. cbn [negb Z.eqb SFS_TYPE_DIR Pos.eqb].
  apply wpe_if; intros _; [by apply wpe_raise|]. apply wpe_bind.
  assert (kinds_ok Rv ({[(p, true)]} ∪ W)) as Hd' by (eapply kinds_add_one; [done..|by apply bool_decide_eq_true_2]).
  eapply wpe_mono; [by eapply (at_incref s R O ({[(p, true)]} ∪ W) V Rv a)|]. intros res s' [-> Hs']. by apply wpe_ret.
Qed.
End calls.

(** ** Mounting and unmounting *)

Lemma at_mount x : disk_fit x → ∃ r x', sfs_mountfunc x = Ret (r, x') ∧ match r with inr s => sfs_at s ∅ ∅ ∅ | inl _ => disk_fit x' end.
Proof.
  destruct x as [|d]; [done|]. intros (Hr & sb & fm & G & own & a & Him & V & Hv & Hns). simpl. unfold sfs_mountfunc.
  pose proof (sfs_domount_spec d sb fm G own [] Him) as H. unfold wpe in H. destruct (sfs_domount 512 (sfs_blank d [])) as [[r s']| | |]; try done.
  destruct H as [(-> & d' & n & o' & -> & Hd & Ho)|[[_ ?]|[_ ?]]]; [|done..]. exists (inr (mounted d' sb fm n o')), (DLhd d'). split; [done|].
  destruct (image_dev _ _ _ _ _ _ Him Hd) as [Him' Hv']. exists V, ∅, a. split; [eapply image_fsat; [done|by rewrite Hv'|done]|].
  split; [done|]. split; [by apply (ds_r _ _ Hd)|]. split; [by apply Ho|]. split; [|intros p b Hp; by apply not_elem_of_empty in Hp].
  intros p. by rewrite lookup_empty, !multiplicity_empty.
Qed.

(** No vnode is loaded exactly when nothing is referenced. *)
Lemma at_empty s R O W : sfs_at s R O W → R = ∅ ↔ array_getnum (sfs_vnodes s) ≤ 0.
Proof.
  intros (V & Rv & a & (G & own & HI & Hv & HR & _) & Hns & _ & _ & Hc & _). destruct (iv_tab _ _ _ HI) as (ps & (En & _) & _ & Hps).
  unfold array_getnum. rewrite En. assert (∀ p, p ∈ R ↔ p ∈ ps) as Hin; [|split].
  { intros p. rewrite Hps, elem_of_multiplicity. specialize (Hc p). rewrite <- HR in Hc. unfold vrefs in Hc. rewrite lookup_fmap in Hc.
    destruct (s_vn s !! p) as [v|] eqn:Ev; simpl in Hc; [|split; [lia|by intros []]]. destruct (iv_vn _ _ _ HI p v Ev) as (_ & H1 & _). split; [done|lia]. }
  - intros ->. destruct ps as [|p ps]; [done|]. exfalso. apply (gmultiset_not_elem_of_empty p), Hin. left.
  - intros Hn. assert (ps = []) as -> by (by destruct ps). destruct (gmultiset_choose_or_empty R) as [[p Hp]|E]; [|done].
    apply Hin in Hp. by apply not_elem_of_nil in Hp.
Qed.

Lemma at_unmount s R O W : sfs_at s R O W → clean s →
  wpe sfs_unmount (λ r s', (r = inr tt ∧ R = ∅ ∧ disk_fit (DLhd (sfs_device s'))) ∨ (r = inl EBUSY ∧ R ≠ ∅ ∧ sfs_at s' R O W)) s.
Proof.
  intros Hat Hcl. pose proof (at_empty _ _ _ _ Hat) as He. pose proof Hat as (V & Rv & a & (G & own & HI & Hv & HR & _) & Hns & Hfine & _).
  unfold sfs_unmount. estep. apply wpe_if; intros Hn.
  - apply wpe_raise. right. split; [done|]. split; [|done]. intros ->. pose proof (proj1 He eq_refl). lia.
  - apply wpe_bind, wpe_assert; [by rewrite (sy_clean _ _ (iv_sys _ _ _ HI))|]. apply wpe_assert; [by rewrite (cl_map _ Hcl)|].
    left. split; [done|]. split; [apply He; lia|]. split; [exact Hfine|]. exists (sfs_sb s), (sfs_freemap s), G, own, a.
    split; [by apply clean_image|]. exists V. split; [exact Hv|done].
Qed.

Lemma at_weaken s R O W W' : sfs_at s R O W → W' ⊆ W → sfs_at s R O W'.
Proof. intros (V & Rv & a & HS & Hns & Hfine & Hmem & Hc & Hd) Hsub. exists V, Rv, a. split_and!; try done. intros p b Hp. by apply Hd, Hsub. Qed.

Lemma at_raise {A} s R O W p e1 e2 : sfs_at s R O W → p ∈ R → wpe (dispatch p (raise e1) (raise e2) : EM sfs A) (λ _ s', sfs_at s' R O W) s.
Proof. intros Hat Hp. pose proof Hat as (V & Rv & a & HS & Hns & _ & _ & Hc & _). by eapply dispatch_raise. Qed.

(** The name of a volume is made of the bytes of its superblock. *)
Lemma cstr_bytes l : bytes l → bytes (cstr l).
Proof. induction 1 as [|c l Hc Hl IH]; cbn [cstr]; [constructor|]. destruct (c =? 0); by constructor. Qed.

Lemma at_volname s R O W : sfs_at s R O W → bytes (cstr (sp_volname (sfs_sb s))).
Proof.
  intros (V & Rv & a & (G & own & HI & _) & _). apply cstr_bytes. rewrite <- (sy_super _ _ (iv_sys _ _ _ HI)). simpl.
  destruct (do_sect _ (fo_disk _ (iv_ok _ _ _ HI)) 0) as [_ Hb]. apply Forall_insert; [by apply Forall_take, Forall_drop|]. by unfold is_u8.
Qed.

#[export] Instance sfs_spec : FsSpec sfs device.
Proof.
  refine {| fs_at := sfs_at; fs_clean := clean; law_weaken := at_weaken; law_mount := at_mount; law_unmount := at_unmount;
            law_decref := at_decref; law_incopen := at_incopen; law_decopen := at_decopen |}.
  - by intros [].
  - intros s R O W (V & Rv & a & HS & Hns & Hfine & Hmem & Hc & Hd). by apply (at_sync s R O W V Rv a).
  - intros s R O W (V & Rv & a & HS & Hns & Hfine & Hmem & Hc & Hd). by apply (at_getroot s R O W V Rv a).
  - intros s R O W p (V & Rv & a & HS & Hns & Hfine & Hmem & Hc & Hd). by apply (at_incref s R O W V Rv a).
  - intros s R O W p flags Hat. by apply at_open.
  - intros s R O W p Hat. by apply at_gettype.
  - intros s R O W p Hat. by apply at_truncate.
  - intros s R O W p u Hat. by apply at_namefile.
  - intros s R O W Hat. eexists. split; [done|]. by eapply at_volname.
  - intros s R O W p u Hat Hp. apply wpe_onfst. by apply at_raise.
  - intros s R O W p name contents Hat. by apply at_raise.
  - intros s R O W p name excl Hat. by apply at_creat.
  - intros s R O W p name Hat. by apply at_raise.
  - intros s R O W p name Hat. by apply at_raise.
  - intros s R O W p name Hat Hp Hr _. by apply at_remove.
  - intros s R O W p n1 q n2 Hat. by apply at_rename.
  - intros s R O W p name q Hat. by apply at_link.
  - intros s R O W p path Hat Hp Hr _. by apply at_lookup.
  - intros s R O W p path n Hat. by apply at_lookparent.
Defined.
