(* ===== verification/VfsTheorems.v ===== *)
(** The virtual file system as its clients see it: bootstrapping, any
    sequence of calls, and unmounting, with SFS underneath. *)

From Stdlib Require Import ZArith Lia.
From stdpp Require Import base numbers list option gmap gmultiset.
From S2P Require Import Prelude Array Bitmap Errm Uio UioProofs Lhd LhdProofs SfsDisk Sfs SfsBlock SfsInv SfsAbs SfsNames SfsDemo SfsMount SfsTheorems Vfs VfsOps VfsSpec VfsProofs VfsCalls VfsPaths VfsTable VfsMount SfsVfs.

Open Scope Z_scope.

(** Between calls nothing is known but what the current directory is. *)
#[export] Instance no_kinds : Kinds := (∅ : gset (vnode * bool)).

Section system.
Context {F D : Type} {DO : DevOps D} {FO : FsOps F D}.

(** ** Bootstrapping *)

(** Memory before [vfs_bootstrap]. *)
Definition vfs_zero (o : oracle) : vfs F D := mkVfs (mkArray 0 0 None) ∅ ∅ ∅ ∅ None None false false 1 o.

Definition v_lock_create : EM (vfs F D) bool := ok ← v_alloc; if (ok : bool) then v_alloc else mret false.

Definition vfs_initbootfs : EM (vfs F D) unit := ok ← v_lock_create; if (ok : bool) then mret tt else epanic.

(** [dev] is the structure with the null device's functions. *)
Definition devnull_create (dev : D) : EM (vfs F D) unit :=
  ok ← v_alloc;
  if negb ok then epanic else
  r ← attempt (attach_dev dev [110; 117; 108; 108] false);
  match r with inl _ => epanic | inr _ => mret tt end.

Definition vfs_bootstrap (dev : D) : EM (vfs F D) unit :=
  s ← eget;
  let '(a, o) := array_create (v_orc s) in
  _ ← emod (set_alloc (v_next s) o);
  match a with
  | None => epanic
  | Some a =>
      _ ← emod (set_knowndevs a);
      ok ← v_lock_create;
      if negb ok then epanic else
      _ ← vfs_initbootfs;
      devnull_create dev
  end.

(** ** Sequences of calls *)

Inductive vcall :=
  | CAttach (x : D) (name : list Z) (mountable : bool)
  | CMount (name : list Z)
  | CUnmount (name : list Z)
  | CUnmountall
  | CSync
  | CSetboot (name : list Z)
  | CClearboot
  | CChdir (path : list Z)
  | CClearcwd
  | COpen (path : list Z) (flags : Z)
  | CClose (v : vnode)
  | CRemove (path : list Z)
  | CMkdir (path : list Z)
  | CRmdir (path : list Z)
  | CRename (old new : list Z)
  | CLink (old new : list Z)
  | CSymlink (contents path : list Z)
  | CReadlink (path buf : list Z) (len : Z)
  | CGetcwd (buf : list Z) (len : Z).

(** A call that fills a buffer of the kernel's. *)
Definition with_kbuf {A} (buf : list Z) (len : Z) (m : EM (vfs F D * uio) A) : EM (vfs F D) A := λ s,
  match m (s, mk_kuio buf len 0 UIO_READ) with
  | Ret (r, (s', _)) => Ret (r, s')
  | Panic => Panic
  | Undef => Undef
  | NoFuel => NoFuel
  end.

(** One call.  The result is the vnodes its clients have open afterwards; a
    vnode that is not open is not closed. *)
Definition vdo (H : gmultiset vnode) (c : vcall) : EM (vfs F D) (gmultiset vnode) :=
  let stays {A} (m : EM (vfs F D) A) := _ ← attempt m; mret H in
  match c with
  | CAttach x name mountable => stays (attach_dev x name mountable)
  | CMount name => stays (vfs_mount name)
  | CUnmount name => stays (vfs_unmount name)
  | CUnmountall => stays vfs_unmountall
  | CSync => stays vfs_sync
  | CSetboot name => stays (vfs_setbootfs name)
  | CClearboot => stays vfs_clearbootfs
  | CChdir path => stays (vfs_chdir path)
  | CClearcwd => stays vfs_clearcurdir
  | COpen path flags =>
      r ← attempt (vfs_open path flags);
      mret (match r with inr v => {[+ v +]} ⊎ H | inl _ => H end)
  | CClose v =>
      if decide (v ∈ H) then _ ← vfs_close v; mret (H ∖ {[+ v +]}) else mret H
  | CRemove path => stays (vfs_remove path)
  | CMkdir path => stays (vfs_mkdir path)
  | CRmdir path => stays (vfs_rmdir path)
  | CRename old new => stays (vfs_rename old new)
  | CLink old new => stays (vfs_link old new)
  | CSymlink contents path => stays (vfs_symlink contents path)
  | CReadlink path buf len => stays (with_kbuf buf len (vfs_readlink path))
  | CGetcwd buf len => stays (with_kbuf buf len vfs_getcwd)
  end.

Fixpoint vrun (H : gmultiset vnode) (cs : list vcall) : EM (vfs F D) (gmultiset vnode) :=
  match cs with
  | [] => mret H
  | c :: cs => H' ← vdo H c; vrun H' cs
  end.
End system.
Arguments vcall : clear implicits.

Section sequences.
Context {F D : Type} {DO : DevOps D} {FO : FsOps F D} {DS : DevSpec D} {FS : FsSpec F D}.
Implicit Types (s : vfs F D) (H : gmultiset vnode).

(** Names are strings; a disk that may be mounted holds a volume; a link is
    not to a directory, that is its path has a part after the device; buffers
    have the length they are said to have. *)
Definition call_ok (c : vcall D) : Prop :=
  match c with
  | CAttach x _ mountable => mountable = true → dev_fit x
  | CSetboot n | CChdir n | COpen n _ | CRemove n | CMkdir n | CRmdir n | CSymlink _ n | CReadlink n _ _ => chars_ok n
  | CRename n m => chars_ok n ∧ chars_ok m
  | CLink n m => chars_ok n ∧ chars_ok m ∧ subpath n ≠ []
  | CGetcwd buf len => bytes buf ∧ 0 ≤ len ≤ Z.of_nat (length buf) ∧ len < 2147483648
  | _ => True
  end.

(** What a call leads to from [H]. *)
Definition went s H (n : Z) (r : Z + gmultiset vnode) s' : Prop :=
  ∃ H', r = inr H' ∧ acct s' ∅ H' ∧ room n H' ∧ tabsize s' ≤ tabsize s + 1.

Lemma stays_spec {A} s H n (m : EM (vfs F D) A) (P : Z + A → Prop) :
  room n H → wpe m (λ r s', P r ∧ acct s' ∅ H ∧ tabsize s' ≤ tabsize s + 1) s → wpe (_ ← attempt m; mret H) (went s H n) s.
Proof.
  intros Hr Hm. apply wpe_bind, wpe_attempt. eapply wpe_mono; [exact Hm|]. intros r s' (_ & HA & Ht). apply wpe_ret. by exists H.
Qed.

Lemma settled_stays {A} s H n (m : EM (vfs F D) A) :
  room n H → wpe m (λ r s', settled s s' ∧ acct s' ∅ H) s → wpe (_ ← attempt m; mret H) (went s H n) s.
Proof.
  intros Hr Hm. eapply (stays_spec s H n m (λ _, True)); [done|]. eapply wpe_mono; [exact Hm|]. intros r s' [Hs HA]. split; [done|]. split; [done|].
  unfold tabsize. rewrite Hs. lia.
Qed.

Lemma wpe_kbuf {A} s buf len (m : EM (vfs F D * uio) A) Q :
  wpe m (λ r '(s', _), Q r s') (s, mk_kuio buf len 0 UIO_READ) → wpe (with_kbuf buf len m) Q s.
Proof. unfold wpe, with_kbuf. by destruct (m _) as [[r [s' u']]| | |]. Qed.

Lemma vdo_spec s H n c :
  acct s ∅ H → 6 ≤ n → room (n + 1) H → tabsize s < array_lim → call_ok c → wpe (vdo H c) (went s H n) s.
Proof.
  intros HA Hn Hr Hlim Hok. assert (room n H) as Hr' by (eapply room_le; [done|lia]). assert (room 6 H) as Hr6 by (eapply room_le; [done|lia]).
  assert (∀ (m : EM (vfs F D) unit), wpe m (λ r s', r = inr tt ∧ settled s s' ∧ acct s' ∅ H) s → wpe (_ ← attempt m; mret H) (went s H n) s) as Hdone.
  { intros m Hm. apply settled_stays; [done|]. eapply wpe_mono; [exact Hm|]. by intros r s' (_ & Hs). }
  assert (∀ (c : option vnode) (m : EM (vfs F D) unit) f, (∀ x, v_knowndevs (f x) = v_knowndevs x) →
    wpe m (λ r s', r = inr tt ∧ moved (f s) s' ∧ acct s' ∅ H) s → wpe (_ ← attempt m; mret H) (went s H n) s) as Hmoved.
  { intros _ m f Hf Hm. apply Hdone. eapply wpe_mono; [exact Hm|]. intros r s' (-> & Hmv & HA'). split; [done|]. split; [|done].
    unfold settled. rewrite (settled_moved _ _ Hmv). apply Hf. }
  destruct c; simpl in *.
  - apply (stays_spec s H n _ (λ _, True)); [done|]. eapply wpe_mono; [by apply attach_dev_spec|]. by intros r s' (? & ? & _).
  - apply settled_stays; [done|]. by apply vfs_mount_spec.
  - apply settled_stays; [done|]. eapply wpe_mono; [by apply vfs_unmount_spec|]. by intros r s' (? & ? & _).
  - apply Hdone. by apply vfs_unmountall_spec.
  - apply Hdone. by apply vfs_sync_spec.
  - apply settled_stays; [done|]. by apply vfs_setbootfs_spec.
  - apply (Hmoved None _ (set_vbootfs None)); [done|]. by apply (change_bootfs_spec s H None HA), (ac_kinds _ _ _ HA).
  - apply settled_stays; [done|]. by apply vfs_chdir_spec.
  - apply (Hmoved None _ (set_vcwd None)); [done|]. by apply vfs_clearcurdir_spec.
  - apply wpe_bind, wpe_attempt. eapply wpe_mono; [by apply vfs_open_spec|]. intros r s' [Hs HA']. apply wpe_ret. eexists. split; [done|]. split; [done|].
    split; [destruct r; [done|by apply room_add]|]. unfold tabsize. rewrite Hs. lia.
  - case_decide as Hin; [|apply wpe_ret; exists H; split_and!; try done; lia].
    pose proof (gmultiset_disj_union_difference' v H Hin) as EH. apply wpe_bind. rewrite EH in HA.
    eapply wpe_mono; [by apply close_spec|]. intros r s' (-> & Hm & HA'). apply wpe_ret. eexists. split; [done|]. split; [done|]. split.
    + intros w. specialize (Hr' w). rewrite EH, multiplicity_disj_union in Hr'. lia.
    + unfold tabsize. rewrite (settled_moved _ _ Hm). lia.
  - apply settled_stays; [done|]. apply vfs_nameop_spec; try done. intros. by apply law_remove.
  - apply settled_stays; [done|]. apply vfs_nameop_spec; try done. intros. by apply law_mkdir.
  - apply settled_stays; [done|]. apply vfs_nameop_spec; try done. intros. by apply law_rmdir.
  - apply settled_stays; [done|]. destruct Hok. by apply vfs_rename_spec.
  - apply settled_stays; [done|]. destruct Hok as (? & ? & ?). by apply vfs_link_spec.
  - apply settled_stays; [done|]. apply vfs_nameop_spec; try done. intros. by apply law_symlink.
  - apply settled_stays; [done|]. by apply wpe_kbuf, vfs_readlink_spec.
  - apply settled_stays; [done|]. destruct Hok as (? & ? & ?). apply wpe_kbuf, vfs_getcwd_spec; try done. apply mk_kuio_ok; try done; lia.
Qed.

Lemma vrun_spec s H cs :
  acct s ∅ H → room (6 + Z.of_nat (length cs)) H → tabsize s + Z.of_nat (length cs) ≤ array_lim → Forall call_ok cs →
  wpe (vrun H cs) (λ r s', ∃ H', r = inr H' ∧ acct s' ∅ H') s.
Proof.
  revert s H. induction cs as [|c cs IH]; intros s H HA Hr Hlim Hok; cbn [vrun]; [apply wpe_ret; by exists H|].
  inversion Hok as [|? ? Hc Hok']; subst. cbn [length] in *. apply wpe_bind.
  eapply wpe_mono; [apply (vdo_spec s H (6 + Z.of_nat (length cs)) c); [done|lia|eapply room_le; [done|lia]|lia|done]|].
  intros r s' (H' & -> & HA' & Hr' & Ht). apply IH; [done|done|lia|done].
Qed.

Lemma zero_acct : acct (vfs_zero [] : vfs F D) ∅ ∅.
Proof.
  split; [|by split|intros v b Hv; by apply not_elem_of_empty in Hv]. split; [|by split| |done|done].
  - exists []. split; [apply array_rep_nil|intros k Hk; by apply not_elem_of_nil in Hk|apply NoDup_nil_2|by intros k1 k2 kd1 kd2 f Hk; apply not_elem_of_nil in Hk..|done].
  - split; [done|done|]. intros v Hv. unfold refs_of in Hv. simpl in Hv. exfalso. multiset_solver.
Qed.
Lemma vfs_bootstrap_spec (dev : D) : wpe (vfs_bootstrap dev) (λ r s', r = inr tt ∧ acct s' ∅ ∅ ∧ tabsize s' ≤ 1) (vfs_zero [] : vfs F D).
Proof.
  unfold vfs_bootstrap. estep. cbn [array_create kmalloc_ok v_orc vfs_zero]. estep. estep. change (set_knowndevs _ _) with (vfs_zero [] : vfs F D).
  assert (∀ Q, Q (inr true) (vfs_zero [] : vfs F D) → wpe v_lock_create Q (vfs_zero [] : vfs F D)) as Hlock.
  { intros Q HQ. unfold v_lock_create. apply wpe_bind, wpe_alloc; [done|]. by apply wpe_alloc. }
  apply wpe_bind, Hlock. cbn [negb]. apply wpe_bind. unfold vfs_initbootfs. apply wpe_bind, Hlock, wpe_ret. unfold devnull_create.
  apply wpe_bind, wpe_alloc; [done|]. cbn [negb]. apply wpe_bind, wpe_attempt.
  eapply wpe_mono; [apply (attach_dev_spec _ ∅ dev [110; 117; 108; 108] false); [apply zero_acct|done|done]|].
  intros r s' (HA & Ht & [->|[_ Hz]]); [|done]. by apply wpe_ret.
Qed.
End sequences.

(** ** With SFS *)

Abbreviation system := (vfs sfs device).

(** The counts of the vnodes of the mounted volumes are those of the
    references held: by the current directory, by the boot file system and by
    each open file. *)
Definition balanced (s : system) (H : gmultiset vnode) : Prop :=
  let refs := opt (v_cwd s) ⊎ (opt (v_bootfs s) ⊎ H) in
  (∀ f x, v_fs s !! f = Some x → ∀ p,
     match s_vn x !! p with
     | Some v => sv_refcount v = Z.of_nat (multiplicity (VNfs f p) refs) ∧ sv_opencount v = Z.of_nat (multiplicity (VNfs f p) H)
     | None => VNfs f p ∉ refs
     end) ∧
  (∀ d v, v_dvn s !! d = Some v →
     dv_refcount v = 1 + Z.of_nat (multiplicity (VNdev d) refs) ∧ dv_opencount v = Z.of_nat (multiplicity (VNdev d) H)) ∧
  (∀ v, v ∈ refs → live s v).

Lemma acct_balanced (s : system) H : acct s ∅ H → balanced s H.
Proof.
  intros [[_ _ [C1 C2 C3] _ _] _ _]. unfold refs_of in *. rewrite (left_id_L ∅ (⊎)) in *. split; [|by split].
  intros f x Hf p. destruct (C1 f x Hf) as (R & O & (V & Rv & a & (G & own & _ & _ & HR & _) & _ & _ & _ & Hc & _) & HRf & HOf).
  specialize (Hc p). rewrite <- HR in Hc. unfold vrefs in Hc. rewrite lookup_fmap in Hc.
  destruct (s_vn x !! p) as [v|]; simpl in Hc; [by rewrite <- HRf, <- HOf|]. intros Hin. pose proof (proj1 (elem_of_multiplicity _ _) Hin) as Hm. rewrite <- HRf in Hm. lia.
Qed.

(** A booted system and the calls made to it. *)
Definition session (cs : list (vcall device)) : EM system (gmultiset vnode) := _ ← vfs_bootstrap DNull; vrun ∅ cs.

Lemma session_spec cs :
  Forall call_ok cs → Z.of_nat (length cs) < array_lim → wpe (session cs) (λ r s', ∃ H, r = inr H ∧ acct s' ∅ H) (vfs_zero []).
Proof.
  intros Hok Hl. apply wpe_bind. eapply wpe_mono; [apply vfs_bootstrap_spec|]. intros r s (-> & HA & Ht). unfold array_lim in *.
  apply vrun_spec; [done| |unfold array_lim; lia|done]. intros v. rewrite multiplicity_empty. lia.
Qed.

(** C32: however the virtual file system is used, no reference is lost and
    none is released twice.  After any sequence of calls (attaching disks,
    mounting, unmounting, opening, closing, removing, renaming, linking,
    making and reading symbolic links and directories by path, changing and
    printing the current directory, changing the boot file system, syncing),
    successful or not, the kernel has not stopped, and the reference and open
    counts of every vnode of every mounted volume and of every device are
    exactly those of the current directory, the boot file system and the files
    still open; a vnode that none of them refers to is not in memory.

    The conditions: there are fewer calls than the device table can have
    entries; no [kmalloc] fails (the layer starts with the oracle [] and
    mounts volumes with it; [dev_create_vnode] and [sfs_getroot] panic
    otherwise); the disks hold a volume and fail neither reads nor writes
    ([disk_fit]); and no directory is linked, because SFS makes the link and
    then panics when it is renamed. *)
Theorem vfs_references_balanced (cs : list (vcall device)) :
  Forall call_ok cs → Z.of_nat (length cs) < array_lim →
  wpe (session cs) (λ r s', ∃ H, r = inr H ∧ balanced s' H) (vfs_zero []).
Proof.
  intros Hok Hl. eapply wpe_mono; [by apply session_spec|]. intros r s (H & -> & HA). exists H. split; [done|by apply acct_balanced].
Qed.

Lemma demo_fit : disk_fit (DLhd demo_disk).
Proof.
  split; [done|]. destruct demo_fsat as (G & own & HI & HV & _). exists demo_super, (mkBitmap 4096 demo_map), G, own, demo_a.
  split; [apply (clean_image demo G own HI); split; [|done]|exists demo_V; split; [exact HV|apply demo_ns]].
  intros p v Hp. by destruct (demo_vn p v Hp) as [[-> ->]|[-> ->]].
Qed.

(** "lhd0", "lhd0:f" and "lhd0:g": the disk of the example volume, its file
    and another name for it. *)
Definition lhd0 : list Z := [108; 104; 100; 48].
Definition lhd0_f : list Z := lhd0 ++ [58; 102].
Definition lhd0_g : list Z := lhd0 ++ [58; 103].

Definition demo_calls : list (vcall device) :=
  [CAttach (DLhd demo_disk) lhd0 true; CMount lhd0; COpen lhd0_f O_RDONLY; CSetboot lhd0; CGetcwd (replicate 16 0) 16;
   CLink lhd0_f lhd0_g; CReadlink lhd0_g [] 0; CSymlink lhd0 lhd0_g; COpen lhd0_g O_RDONLY; CUnmount lhd0].

Lemma demo_calls_ok : Forall call_ok demo_calls.
Proof.
  assert (chars_ok lhd0 ∧ chars_ok lhd0_f ∧ chars_ok lhd0_g) as (H1 & H2 & H3) by (split_and!; repeat (apply Forall_cons_2; [lia|]); apply Forall_nil_2).
  repeat (apply Forall_cons_2; [first [exact H1|exact H2|exact H3|exact I|intros _; exact demo_fit|split; [done|]; split; [done|discriminate]|
    split; [apply Forall_replicate; unfold is_u8; lia|simpl; lia]]|]). apply Forall_nil_2.
Qed.

(** The calls of the example mount the disk and open the file by both names;
    unmounting is refused. *)
Example demo_session : ∃ s', session demo_calls (vfs_zero []) = Ret (inr {[+ VNfs 7 5; VNfs 7 5 +]}, s') ∧ is_Some (v_fs s' !! 7).
Proof. vm_compute. eexists. split; [reflexivity|]. by eexists. Qed.

(** The same, and everything given back. *)
Definition demo_quit : list (vcall device) := demo_calls ++ [CClose (VNfs 7 5); CClose (VNfs 7 5); CClearboot; CClearcwd].

(** What unmounting answers after some calls. *)
Definition unmount_after (cs : list (vcall device)) (name : list Z) : option (Z + unit) :=
  match (_ ← session cs; attempt (vfs_unmount name)) (vfs_zero []) with Ret (inr r, _) => Some r | _ => None end.

Lemma vfs_references_balanced_witness : wpe (session demo_calls) (λ r s', ∃ H, r = inr H ∧ balanced s' H) (vfs_zero []).
Proof. apply (vfs_references_balanced demo_calls); [apply demo_calls_ok|vm_compute; reflexivity]. Defined.

(** SFS always syncs. *)
Lemma sync_succeeds (s : system) H f x e x' : acct s ∅ H → v_fs s !! f = Some x → fsop_sync x = Ret (inl e, x') → False.
Proof.
  intros HA Hf E. destruct (vfs_at_part _ _ _ _ _ (ac_at _ _ _ HA) Hf) as (R & O & (V & Rv & a & HS & _) & _).
  pose proof (sfs_sync_spec x V Rv HS) as Hs. unfold wpe in Hs. change (sfs_sync x = Ret (inl e, x')) in E. rewrite E in Hs. by destruct Hs.
Qed.

(** C33: a volume can be unmounted exactly when it is not used.  After any
    sequence of calls as above, under the same conditions on memory and disks,
    [vfs_unmount] answers ENODEV exactly when the device table has no mountable
    device of the name.  Otherwise there is one in the table for which it
    answers EINVAL if no volume is mounted on it, and if one is: it succeeds,
    and the volume is gone from the table, if neither the current directory,
    nor the boot file system, nor an open file is in it, and is refused with
    EBUSY if one of them is. *)
Theorem vfs_unmount_iff_unused (cs : list (vcall device)) (name : list Z) :
  Forall call_ok cs → Z.of_nat (length cs) < array_lim →
  wpe (H ← session cs; s ← eget; r ← attempt (vfs_unmount name); mret (H, s, r)) (λ out s', ∃ H s r, out = inr (H, s, r) ∧ balanced s' H ∧
    ∃ l, array_rep (v_knowndevs s) l ∧ ((r = inl ENODEV ∧ ∀ k kd, ¬ mount_entry s l name k kd) ∨ ∃ k kd, mount_entry s l name k kd ∧
      match kd_fs kd with
      | None => r = inl EINVAL
      | Some f =>
          let used := in_use f (opt (v_cwd s) ⊎ (opt (v_bootfs s) ⊎ H)) in
          (r = inr tt ∧ ¬ used ∧ v_fs s' !! f = None ∧ kd_fs <$> v_kd s' !! k = Some None) ∨ (r = inl EBUSY ∧ used)
      end)) (vfs_zero []).
Proof.
  intros Hok Hl. apply wpe_bind. eapply wpe_mono; [by apply session_spec|]. intros r s (H & -> & HA). estep. apply wpe_bind, wpe_attempt.
  eapply wpe_mono; [by apply vfs_unmount_spec|]. intros r s' (_ & HA' & Hr). apply wpe_ret. exists H, s, r. split; [done|].
  split; [by apply acct_balanced|]. unfold refs_of in Hr. rewrite (left_id_L ∅ (⊎)) in Hr.
  destruct Hr as (l & Hl' & Hr). exists l. split; [done|].
  destruct Hr as [?|(k & kd & Hm & Hr)]; [by left|right]. exists k, kd. split; [done|]. destruct (kd_fs kd) as [f|]; [|done].
  destruct Hr as [?|[?|(e & x & x' & Ef & Ex & _)]]; [by left|by right|by destruct (sync_succeeds s H f x e x')].
Qed.

Lemma vfs_unmount_iff_unused_witness :
  (unmount_after demo_calls lhd0 = Some (inl EBUSY) ∧ unmount_after demo_quit lhd0 = Some (inr tt) ∧
   unmount_after [] lhd0 = Some (inl ENODEV) ∧ unmount_after [CAttach (DLhd demo_disk) lhd0 true] lhd0 = Some (inl EINVAL)) ∧
  wpe (H ← session demo_calls; s ← eget; r ← attempt (vfs_unmount lhd0); mret (H, s, r)) (λ out s', ∃ H s r, out = inr (H, s, r) ∧ balanced s' H ∧
    ∃ l, array_rep (v_knowndevs s) l ∧ ((r = inl ENODEV ∧ ∀ k kd, ¬ mount_entry s l lhd0 k kd) ∨ ∃ k kd, mount_entry s l lhd0 k kd ∧
      match kd_fs kd with
      | None => r = inl EINVAL
      | Some f =>
          let used := in_use f (opt (v_cwd s) ⊎ (opt (v_bootfs s) ⊎ H)) in
          (r = inr tt ∧ ¬ used ∧ v_fs s' !! f = None ∧ kd_fs <$> v_kd s' !! k = Some None) ∨ (r = inl EBUSY ∧ used)
      end)) (vfs_zero []).
Proof.
  split; [split_and!; vm_compute; reflexivity|].
  apply (vfs_unmount_iff_unused demo_calls lhd0); [apply demo_calls_ok|vm_compute; reflexivity].
Defined.
