(* ===== verification/Kernel.v ===== *)
(** The state of the thread system and the code that runs without giving up
    the processor: process ids (kern/userprog/pid_system.c), the scheduler's
    run queue (kern/thread/scheduler.c) and the parts of kern/thread/thread.c
    and kern/thread/synch.c between two context switches.

    [kstate] gathers the C globals and the heap objects they reach, one map
    per kind of object, indexed by address ([0] is NULL).  A function that
    does not switch threads is a computation in the monad [K], state passing
    with the outcomes of [res].  Addresses handed out by [kalloc] are fresh;
    reuse of a freed address is not modelled. *)

From Stdlib Require Import ZArith Lia.
From stdpp Require Import base numbers list option gmap.
From S2P Require Import Prelude Array Queue Cpu Vm.

Open Scope Z_scope.

Record thread := mkThread {
  t_sleepaddr : Z;
  t_stack : option (list Z);    (* the bytes at its bottom end *)
  pidValue : Z;
  parentPid : Z;
  exitStatus : Z;
  t_vmspace : Z;
  t_cwd : Z;
  pcb_ininterrupt : Z
}.

Record semaphore := mkSem { sem_count : Z }.

(** [lock_thread] is not initialised by [lock_create]. *)
Record lock := mkLock { lock_count : Z; lock_thread : option Z }.

(** One node of the pid list; [exitCode] is unset until the process exits. *)
Record pid := mkPid {
  pd_pidValue : Z;
  isUsed : Z;
  pPid : Z;
  didExit : Z;
  exitCode : option Z;
  myThread : Z;
  parentSem : Z
}.

Record vnode := mkVnode {
  vn_refcount : Z;
  vn_opencount : Z;
  vn_countlock : Z
}.

(** What user processes need: the address spaces, physical memory, and the
    devices the system calls use.  [u_active] is the address space the TLB was
    last cleared for, which the C code does not record; [u_keys] are the keys
    in the order they will be typed and [u_times] what the clock will say. *)
Record ustate := mkUstate {
  u_spaces : gmap Z addrspace;
  u_active : Z;
  u_firstpaddr : Z;
  u_lastpaddr : Z;
  u_ramsize : Z;
  u_pmem : Z → Z;
  u_out : list Z;
  u_keys : nat → Z;
  u_times : nat → Z * Z
}.

Record kstate := mkK {
  k_threads : gmap Z thread;
  k_curthread : Z;
  k_sleepers : option (array Z);
  k_zombies : option (array Z);
  k_numthreads : Z;
  k_runqueue : option (queue Z);
  k_pids : list pid;
  k_sems : gmap Z semaphore;
  k_locks : gmap Z lock;
  k_cvs : gset Z;
  k_vnodes : gmap Z vnode;
  k_reclaimed : list Z;
  k_tlb : list (Z * Z);
  k_cpu : cpu;
  k_in_interrupt : Z;
  k_lbolt_counter : Z;
  k_next : Z;
  k_orc : oracle;
  k_user : ustate
}.

(** ** Field updates *)

Definition set_threads (f : gmap Z thread → gmap Z thread) (s : kstate) : kstate :=
  mkK (f (k_threads s)) (k_curthread s) (k_sleepers s) (k_zombies s) (k_numthreads s)
    (k_runqueue s) (k_pids s) (k_sems s) (k_locks s) (k_cvs s) (k_vnodes s) (k_reclaimed s)
    (k_tlb s) (k_cpu s) (k_in_interrupt s) (k_lbolt_counter s) (k_next s) (k_orc s) (k_user s).
Definition set_curthread (x : Z) (s : kstate) : kstate :=
  mkK (k_threads s) x (k_sleepers s) (k_zombies s) (k_numthreads s)
    (k_runqueue s) (k_pids s) (k_sems s) (k_locks s) (k_cvs s) (k_vnodes s) (k_reclaimed s)
    (k_tlb s) (k_cpu s) (k_in_interrupt s) (k_lbolt_counter s) (k_next s) (k_orc s) (k_user s).
Definition set_sleepers (x : option (array Z)) (s : kstate) : kstate :=
  mkK (k_threads s) (k_curthread s) x (k_zombies s) (k_numthreads s)
    (k_runqueue s) (k_pids s) (k_sems s) (k_locks s) (k_cvs s) (k_vnodes s) (k_reclaimed s)
    (k_tlb s) (k_cpu s) (k_in_interrupt s) (k_lbolt_counter s) (k_next s) (k_orc s) (k_user s).
Definition set_zombies (x : option (array Z)) (s : kstate) : kstate :=
  mkK (k_threads s) (k_curthread s) (k_sleepers s) x (k_numthreads s)
    (k_runqueue s) (k_pids s) (k_sems s) (k_locks s) (k_cvs s) (k_vnodes s) (k_reclaimed s)
    (k_tlb s) (k_cpu s) (k_in_interrupt s) (k_lbolt_counter s) (k_next s) (k_orc s) (k_user s).
Definition set_numthreads (x : Z) (s : kstate) : kstate :=
  mkK (k_threads s) (k_curthread s) (k_sleepers s) (k_zombies s) x
    (k_runqueue s) (k_pids s) (k_sems s) (k_locks s) (k_cvs s) (k_vnodes s) (k_reclaimed s)
    (k_tlb s) (k_cpu s) (k_in_interrupt s) (k_lbolt_counter s) (k_next s) (k_orc s) (k_user s).
Definition set_runqueue (x : option (queue Z)) (s : kstate) : kstate :=
  mkK (k_threads s) (k_curthread s) (k_sleepers s) (k_zombies s) (k_numthreads s)
    x (k_pids s) (k_sems s) (k_locks s) (k_cvs s) (k_vnodes s) (k_reclaimed s)
    (k_tlb s) (k_cpu s) (k_in_interrupt s) (k_lbolt_counter s) (k_next s) (k_orc s) (k_user s).
Definition set_pids (x : list pid) (s : kstate) : kstate :=
  mkK (k_threads s) (k_curthread s) (k_sleepers s) (k_zombies s) (k_numthreads s)
    (k_runqueue s) x (k_sems s) (k_locks s) (k_cvs s) (k_vnodes s) (k_reclaimed s)
    (k_tlb s) (k_cpu s) (k_in_interrupt s) (k_lbolt_counter s) (k_next s) (k_orc s) (k_user s).
Definition set_sems (f : gmap Z semaphore → gmap Z semaphore) (s : kstate) : kstate :=
  mkK (k_threads s) (k_curthread s) (k_sleepers s) (k_zombies s) (k_numthreads s)
    (k_runqueue s) (k_pids s) (f (k_sems s)) (k_locks s) (k_cvs s) (k_vnodes s) (k_reclaimed s)
    (k_tlb s) (k_cpu s) (k_in_interrupt s) (k_lbolt_counter s) (k_next s) (k_orc s) (k_user s).
Definition set_locks (f : gmap Z lock → gmap Z lock) (s : kstate) : kstate :=
  mkK (k_threads s) (k_curthread s) (k_sleepers s) (k_zombies s) (k_numthreads s)
    (k_runqueue s) (k_pids s) (k_sems s) (f (k_locks s)) (k_cvs s) (k_vnodes s) (k_reclaimed s)
    (k_tlb s) (k_cpu s) (k_in_interrupt s) (k_lbolt_counter s) (k_next s) (k_orc s) (k_user s).
Definition set_cvs (f : gset Z → gset Z) (s : kstate) : kstate :=
  mkK (k_threads s) (k_curthread s) (k_sleepers s) (k_zombies s) (k_numthreads s)
    (k_runqueue s) (k_pids s) (k_sems s) (k_locks s) (f (k_cvs s)) (k_vnodes s) (k_reclaimed s)
    (k_tlb s) (k_cpu s) (k_in_interrupt s) (k_lbolt_counter s) (k_next s) (k_orc s) (k_user s).
Definition set_vnodes (f : gmap Z vnode → gmap Z vnode) (s : kstate) : kstate :=
  mkK (k_threads s) (k_curthread s) (k_sleepers s) (k_zombies s) (k_numthreads s)
    (k_runqueue s) (k_pids s) (k_sems s) (k_locks s) (k_cvs s) (f (k_vnodes s)) (k_reclaimed s)
    (k_tlb s) (k_cpu s) (k_in_interrupt s) (k_lbolt_counter s) (k_next s) (k_orc s) (k_user s).
Definition set_reclaimed (x : list Z) (s : kstate) : kstate :=
  mkK (k_threads s) (k_curthread s) (k_sleepers s) (k_zombies s) (k_numthreads s)
    (k_runqueue s) (k_pids s) (k_sems s) (k_locks s) (k_cvs s) (k_vnodes s) x
    (k_tlb s) (k_cpu s) (k_in_interrupt s) (k_lbolt_counter s) (k_next s) (k_orc s) (k_user s).
Definition set_ktlb (x : list (Z * Z)) (s : kstate) : kstate :=
  mkK (k_threads s) (k_curthread s) (k_sleepers s) (k_zombies s) (k_numthreads s)
    (k_runqueue s) (k_pids s) (k_sems s) (k_locks s) (k_cvs s) (k_vnodes s) (k_reclaimed s)
    x (k_cpu s) (k_in_interrupt s) (k_lbolt_counter s) (k_next s) (k_orc s) (k_user s).
Definition set_cpu (x : cpu) (s : kstate) : kstate :=
  mkK (k_threads s) (k_curthread s) (k_sleepers s) (k_zombies s) (k_numthreads s)
    (k_runqueue s) (k_pids s) (k_sems s) (k_locks s) (k_cvs s) (k_vnodes s) (k_reclaimed s)
    (k_tlb s) x (k_in_interrupt s) (k_lbolt_counter s) (k_next s) (k_orc s) (k_user s).
Definition set_in_interrupt (x : Z) (s : kstate) : kstate :=
  mkK (k_threads s) (k_curthread s) (k_sleepers s) (k_zombies s) (k_numthreads s)
    (k_runqueue s) (k_pids s) (k_sems s) (k_locks s) (k_cvs s) (k_vnodes s) (k_reclaimed s)
    (k_tlb s) (k_cpu s) x (k_lbolt_counter s) (k_next s) (k_orc s) (k_user s).
Definition set_lbolt_counter (x : Z) (s : kstate) : kstate :=
  mkK (k_threads s) (k_curthread s) (k_sleepers s) (k_zombies s) (k_numthreads s)
    (k_runqueue s) (k_pids s) (k_sems s) (k_locks s) (k_cvs s) (k_vnodes s) (k_reclaimed s)
    (k_tlb s) (k_cpu s) (k_in_interrupt s) x (k_next s) (k_orc s) (k_user s).
Definition set_alloc (next : Z) (o : oracle) (s : kstate) : kstate :=
  mkK (k_threads s) (k_curthread s) (k_sleepers s) (k_zombies s) (k_numthreads s)
    (k_runqueue s) (k_pids s) (k_sems s) (k_locks s) (k_cvs s) (k_vnodes s) (k_reclaimed s)
    (k_tlb s) (k_cpu s) (k_in_interrupt s) (k_lbolt_counter s) next o (k_user s).

Definition set_user (x : ustate) (s : kstate) : kstate :=
  mkK (k_threads s) (k_curthread s) (k_sleepers s) (k_zombies s) (k_numthreads s)
    (k_runqueue s) (k_pids s) (k_sems s) (k_locks s) (k_cvs s) (k_vnodes s) (k_reclaimed s)
    (k_tlb s) (k_cpu s) (k_in_interrupt s) (k_lbolt_counter s) (k_next s) (k_orc s) x.

Definition with_spaces (f : gmap Z addrspace → gmap Z addrspace) (u : ustate) : ustate :=
  mkUstate (f (u_spaces u)) (u_active u) (u_firstpaddr u) (u_lastpaddr u) (u_ramsize u) (u_pmem u)
    (u_out u) (u_keys u) (u_times u).
Definition with_active (a : Z) (u : ustate) : ustate :=
  mkUstate (u_spaces u) a (u_firstpaddr u) (u_lastpaddr u) (u_ramsize u) (u_pmem u)
    (u_out u) (u_keys u) (u_times u).
Definition with_ram (first last : Z) (pmem : Z → Z) (u : ustate) : ustate :=
  mkUstate (u_spaces u) (u_active u) first last (u_ramsize u) pmem (u_out u) (u_keys u) (u_times u).
Definition with_out (o : list Z) (u : ustate) : ustate :=
  mkUstate (u_spaces u) (u_active u) (u_firstpaddr u) (u_lastpaddr u) (u_ramsize u) (u_pmem u)
    o (u_keys u) (u_times u).
Definition with_keys (k : nat → Z) (u : ustate) : ustate :=
  mkUstate (u_spaces u) (u_active u) (u_firstpaddr u) (u_lastpaddr u) (u_ramsize u) (u_pmem u)
    (u_out u) k (u_times u).
Definition with_times (t : nat → Z * Z) (u : ustate) : ustate :=
  mkUstate (u_spaces u) (u_active u) (u_firstpaddr u) (u_lastpaddr u) (u_ramsize u) (u_pmem u)
    (u_out u) (u_keys u) t.

Definition on_user (f : ustate → ustate) (s : kstate) : kstate := set_user (f (k_user s)) s.

(** ** The monad of code that does not switch threads *)

Definition K (A : Type) : Type := kstate → res (A * kstate).
#[global] Instance K_mret : MRet K := λ A a s, Ret (a, s).
#[global] Instance K_mbind : MBind K := λ A B f m s, '(a, s') ← m s; f a s'.

Definition kget {A} (f : kstate → A) : K A := λ s, Ret (f s, s).
Definition kmod (f : kstate → kstate) : K unit := λ s, Ret (tt, f s).
Definition kcheck (b : bool) : K unit := λ s, '_ ← kassert b; Ret (tt, s).
Definition kpanic {A} : K A := λ _, Panic.
Definition knofuel {A} : K A := λ _, NoFuel.
(** Following a pointer that may be NULL or dangling. *)
Definition kderef {A} (p : option A) : K A := λ s, a ← deref p; Ret (a, s).
(** Running a computation on one component of the state. *)
Definition klift {A} (m : res A) : K A := λ s, a ← m; Ret (a, s).

Definition kspl : K Z := kget (λ s, curspl (k_cpu s)).
Definition k_splx (newspl : Z) : K Z := λ s,
  let '(old, c) := splx newspl (k_cpu s) in Ret (old, set_cpu c s).
Definition k_splhigh : K Z := k_splx SPL_HIGH.
Definition k_spl0 : K Z := k_splx 0.
(** [assert(curspl>0)]. *)
Definition check_spl : K unit := spl ← kspl; kcheck (0 <? spl).

(** [kmalloc]: a fresh address, or NULL when the oracle says so. *)
Definition kalloc : K Z := λ s,
  let '(ok, o') := kmalloc_ok (k_orc s) in
  if ok then Ret (k_next s, set_alloc (k_next s + 16) o' s)
  else Ret (0, set_alloc (k_next s) o' s).

(** Calls of the array and queue library on a component, whose allocations
    draw on the same oracle. *)
Definition kalloc_lift {A} (f : oracle → res (A * oracle)) : K A := λ s,
  '(a, o') ← f (k_orc s); Ret (a, set_alloc (k_next s) o' s).

Definition get_thread (t : Z) : K thread :=
  m ← kget k_threads; kderef (m !! t).
Definition put_thread (t : Z) (th : thread) : K unit :=
  kmod (set_threads (λ m, <[t := th]> m)).
Definition get_curthread : K thread := t ← kget k_curthread; get_thread t.

(** Assignments to a member of a thread structure. *)
Definition with_sleepaddr (a : Z) (th : thread) : thread :=
  mkThread a (t_stack th) (pidValue th) (parentPid th) (exitStatus th) (t_vmspace th)
    (t_cwd th) (pcb_ininterrupt th).
Definition with_stack (x : option (list Z)) (th : thread) : thread :=
  mkThread (t_sleepaddr th) x (pidValue th) (parentPid th) (exitStatus th) (t_vmspace th)
    (t_cwd th) (pcb_ininterrupt th).
Definition with_exitStatus (x : Z) (th : thread) : thread :=
  mkThread (t_sleepaddr th) (t_stack th) (pidValue th) (parentPid th) x (t_vmspace th)
    (t_cwd th) (pcb_ininterrupt th).
Definition with_vmspace (x : Z) (th : thread) : thread :=
  mkThread (t_sleepaddr th) (t_stack th) (pidValue th) (parentPid th) (exitStatus th) x
    (t_cwd th) (pcb_ininterrupt th).
Definition with_cwd (x : Z) (th : thread) : thread :=
  mkThread (t_sleepaddr th) (t_stack th) (pidValue th) (parentPid th) (exitStatus th)
    (t_vmspace th) x (pcb_ininterrupt th).
Definition with_ininterrupt (x : Z) (th : thread) : thread :=
  mkThread (t_sleepaddr th) (t_stack th) (pidValue th) (parentPid th) (exitStatus th)
    (t_vmspace th) (t_cwd th) x.
Definition with_parentPid (x : Z) (th : thread) : thread :=
  mkThread (t_sleepaddr th) (t_stack th) (pidValue th) x (exitStatus th)
    (t_vmspace th) (t_cwd th) (pcb_ininterrupt th).

(** ** Process ids (pid_system.c)

    The list is walked from [pidHead]; a node is addressed by its position.
    Nodes are only ever appended, so positions stay valid. *)

Definition create_pid_list : K Z :=
  p ← kalloc;
  if p =? 0 then mret 0 else
  cur ← kget k_curthread;
  _ ← kmod (set_pids [mkPid 1 1 0 0 None cur 0]);
  mret p.

Definition sem_create (initial_count : Z) : K Z :=
  _ ← kcheck (0 <=? initial_count);
  sem ← kalloc;
  if sem =? 0 then mret 0 else
  name ← kalloc;
  if name =? 0 then mret 0 else
  _ ← kmod (set_sems (λ m, <[sem := mkSem initial_count]> m));
  mret sem.

Definition append_pid (pidval : Z) (thr : Z) : K unit :=
  s ← k_splhigh;
  new_pid ← kalloc;
  _ ← (if new_pid =? 0 then kderef None else mret tt);
  cur ← get_curthread;
  sem ← sem_create 1;
  pids ← kget k_pids;
  _ ← kmod (set_pids (pids ++ [mkPid pidval 1 (pidValue cur) 0 None thr sem]));
  _ ← k_splx s;
  mret tt.

(** The walk of [assign_pid]: [current] is the node before [rest], which
    starts at position [i]. *)
Fixpoint assign_pid_walk (current : pid) (rest : list pid) (i : nat) (thr : Z) : K Z :=
  match rest with
  | [] =>
      _ ← append_pid (s32 (pd_pidValue current + 1)) thr;
      mret (s32 (pd_pidValue current + 1))
  | next :: rest' =>
      if isUsed next =? 0 then
        cur ← get_curthread;
        pids ← kget k_pids;
        _ ← kmod (set_pids (<[i := mkPid (pd_pidValue next) 1 (pidValue cur) 0 (exitCode next)
                                     thr (parentSem next)]> pids));
        mret (pd_pidValue next)
      else assign_pid_walk next rest' (S i) thr
  end.

Definition assign_pid (thr : Z) : K Z :=
  s ← k_splhigh;
  pids ← kget k_pids;
  head ← kderef (head pids);
  r ← assign_pid_walk head (tail pids) 1 thr;
  _ ← k_splx s;
  mret r.

(** The position of the first node with the given pid. *)
Fixpoint pid_search_from (pids : list pid) (i : nat) (pidval : Z) : option nat :=
  match pids with
  | [] => None
  | p :: pids' => if pd_pidValue p =? pidval then Some i else pid_search_from pids' (S i) pidval
  end.
Definition pid_search (pids : list pid) (pidval : Z) : option nat :=
  pid_search_from pids 0 pidval.

Definition release_pid (pidval : Z) : K unit :=
  s ← k_splhigh;
  pids ← kget k_pids;
  _ ← match pid_search pids pidval with
      | None => mret tt
      | Some i =>
          p ← kderef (pids !! i);
          kmod (set_pids (<[i := mkPid (pd_pidValue p) 0 0 (didExit p) (exitCode p) 0
                                   (parentSem p)]> pids))
      end;
  _ ← k_splx s;
  mret tt.

(** ** The run queue (scheduler.c) *)

Definition get_runqueue : K (queue Z) := q ← kget k_runqueue; kderef q.

Definition scheduler_bootstrap : K unit :=
  q ← kalloc_lift (λ o, Ret (q_create o 32));
  match q with
  | None => kpanic
  | Some _ => kmod (set_runqueue q)
  end.

Definition scheduler_preallocate (nthreads : Z) : K Z :=
  _ ← check_spl;
  q ← get_runqueue;
  '(r, q') ← kalloc_lift (λ o, '(r, q', o') ← q_preallocate o q nthreads; Ret ((r, q'), o'));
  _ ← kmod (set_runqueue (Some q'));
  mret r.

Definition make_runnable (t : Z) : K Z :=
  _ ← check_spl;
  q ← get_runqueue;
  '(r, q') ← kalloc_lift (λ o, '(r, q', o') ← q_addtail o q t; Ret ((r, q'), o'));
  _ ← kmod (set_runqueue (Some q'));
  mret r.

(** [while (!q_empty(runqueue)) q_remhead(runqueue)], for as many rounds as
    the ring has cells. *)
Fixpoint scheduler_killall_loop (fuel : nat) : K unit :=
  q ← get_runqueue;
  if q_empty q then mret tt else
  match fuel with
  | O => knofuel
  | S fuel' =>
      '(_, q') ← klift (q_remhead q);
      _ ← kmod (set_runqueue (Some q'));
      scheduler_killall_loop fuel'
  end.

Definition scheduler_killall : K unit :=
  _ ← check_spl;
  q ← get_runqueue;
  scheduler_killall_loop (Z.to_nat (q_size q)).

Definition scheduler_shutdown : K unit :=
  _ ← scheduler_killall;
  _ ← check_spl;
  q ← get_runqueue;
  _ ← klift (q_destroy q);
  kmod (set_runqueue None).
