(* ===== verification/Thread.v ===== *)
(** The thread system (kern/thread/thread.c), the synchronization primitives
    (kern/thread/synch.c), reference counts of vnodes (kern/fs/vfs/vnode.c)
    and the clock (kern/thread/hardclock.c).

    Code that can switch threads is a [kcode]: a tree of uninterrupted
    pieces of [K] code, with a node for the loops that wait for a condition
    and a node [Sched] for the point in [mi_switch] where the scheduler picks
    the thread to run.  The machine that runs such code is in Machine.v. *)

From Stdlib Require Import ZArith Lia.
From stdpp Require Import base numbers list option gmap.
From S2P Require Import Prelude Array Queue Cpu Vm Kernel.

Open Scope Z_scope.

Inductive threadstate := S_RUN | S_READY | S_SLEEP | S_ZOMB.

(** ** Code that may switch threads *)

Inductive kcode :=
  | Done (r : Z)                                    (* return r *)
  | Act (f : K Z) (k : Z → kcode)                   (* run f, go on with its result *)
  | While (b : K bool) (body : kcode) (k : kcode)   (* while (b) body; k *)
  | InitPcb (t : Z) (start : kcode) (k : kcode)     (* thread t will start with start *)
  | Sched (cur : Z) (k : kcode).                    (* give up the cpu of cur, resume with k *)

Fixpoint kbind (c : kcode) (k : Z → kcode) : kcode :=
  match c with
  | Done r => k r
  | Act f k' => Act f (λ x, kbind (k' x) k)
  | While b body k' => While b body (kbind k' k)
  | InitPcb t start k' => InitPcb t start (kbind k' k)
  | Sched cur k' => Sched cur (kbind k' k)
  end.

Declare Scope kcode_scope.
Delimit Scope kcode_scope with kcode.
Notation "x <- c ;; k" := (kbind c (λ x, k))
  (at level 100, c at next level, right associativity) : kcode_scope.
Notation "c ;;; k" := (kbind c (λ _, k))
  (at level 100, right associativity) : kcode_scope.
Open Scope kcode_scope.

Definition act (m : K Z) : kcode := Act m Done.
Definition act_ (m : K unit) : kcode := Act (_ ← m; mret 0) Done.

(** ** thread.c, between switches *)

Definition get_sleepers : K (array Z) := a ← kget k_sleepers; kderef a.
Definition get_zombies : K (array Z) := a ← kget k_zombies; kderef a.

Definition thread_count : K Z := kget k_numthreads.

(** [thread->t_stack[0..3]] against the magic number of [thread_fork]. *)
Definition stack_magic : list Z := [174; 17; 218; 51].
Definition check_stack (th : thread) : K unit :=
  match t_stack th with
  | None => mret tt
  | Some b => kcheck (bool_decide (take 4 b = stack_magic))
  end.

Definition thread_destroy (t : Z) : K unit :=
  _ ← check_spl;
  cur ← kget k_curthread;
  _ ← kcheck (negb (t =? cur));
  th ← get_thread t;
  _ ← kcheck (t_vmspace th =? 0);
  _ ← kcheck (t_cwd th =? 0);
  kmod (set_threads (delete t)).

(** The loop of [exorcise], over [n] zombies from index [i]. *)
Fixpoint exorcise_loop (n : nat) (i : Z) : K unit :=
  match n with
  | O => mret tt
  | S n' =>
      a ← get_zombies;
      z ← klift (array_getguy a i);
      th ← get_thread z;
      _ ← release_pid (pidValue th);
      cur ← kget k_curthread;
      _ ← kcheck (negb (z =? cur));
      _ ← thread_destroy z;
      exorcise_loop n' (i + 1)
  end.

Definition exorcise : K unit :=
  _ ← check_spl;
  a ← get_zombies;
  _ ← exorcise_loop (Z.to_nat (array_getnum a)) 0;
  a' ← get_zombies;
  '(r, a'') ← kalloc_lift (λ o, '(r, a'', o') ← array_setsize o a' 0; Ret ((r, a''), o'));
  _ ← kmod (set_zombies (Some a''));
  kcheck (r =? 0).

Definition thread_killall : K unit :=
  _ ← check_spl;
  a ← get_sleepers;
  '(r, a') ← kalloc_lift (λ o, '(r, a', o') ← array_setsize o a 0; Ret ((r, a'), o'));
  _ ← kmod (set_sleepers (Some a'));
  kcheck (r =? 0).

Definition thread_panic : K unit :=
  _ ← check_spl;
  _ ← thread_killall;
  scheduler_killall.

(** [array_add] on the list of sleepers or zombies. *)
Definition add_sleeper (t : Z) : K Z :=
  a ← get_sleepers;
  '(r, a') ← kalloc_lift (λ o, '(r, a', o') ← array_add o a t; Ret ((r, a'), o'));
  _ ← kmod (set_sleepers (Some a'));
  mret r.
Definition add_zombie (t : Z) : K Z :=
  a ← get_zombies;
  '(r, a') ← kalloc_lift (λ o, '(r, a', o') ← array_add o a t; Ret ((r, a'), o'));
  _ ← kmod (set_zombies (Some a'));
  mret r.

(** The sleepers from index [i] on that sleep on [addr] become runnable; at
    most [fuel] of them are looked at. *)
Fixpoint thread_wakeup_loop (fuel : nat) (addr i : Z) : K unit :=
  a ← get_sleepers;
  if array_getnum a <=? i then mret tt else
  match fuel with
  | O => knofuel
  | S fuel' =>
      t ← klift (array_getguy a i);
      th ← get_thread t;
      if t_sleepaddr th =? addr then
        a' ← klift (array_remove a i);
        _ ← kmod (set_sleepers (Some a'));
        result ← make_runnable t;
        _ ← kcheck (result =? 0);
        thread_wakeup_loop fuel' addr i
      else thread_wakeup_loop fuel' addr (i + 1)
  end.

Definition thread_wakeup (addr : Z) : K unit :=
  _ ← check_spl;
  a ← get_sleepers;
  thread_wakeup_loop (Z.to_nat (array_getnum a)) addr 0.

Fixpoint thread_hassleepers_loop (n : nat) (addr i : Z) : K Z :=
  match n with
  | O => mret 0
  | S n' =>
      a ← get_sleepers;
      t ← klift (array_getguy a i);
      th ← get_thread t;
      if t_sleepaddr th =? addr then mret 1 else thread_hassleepers_loop n' addr (i + 1)
  end.

Definition thread_hassleepers (addr : Z) : K Z :=
  _ ← check_spl;
  a ← get_sleepers;
  thread_hassleepers_loop (Z.to_nat (array_getnum a)) addr 0.

(** [as_activate] under dumbvm: invalidate the TLB with interrupts off. *)
Definition k_as_activate (a : Z) : K unit :=
  spl ← k_splhigh;
  _ ← kmod (λ s, on_user (with_active a) (set_ktlb (tlb_flush NUM_TLB 0 (k_tlb s)) s));
  _ ← k_splx spl;
  mret tt.

Definition k_as_destroy (a : Z) : K unit := kmod (on_user (with_spaces (delete a))).

(** ** mi_switch

    Up to the call of the scheduler: the current thread, now on the list it
    belongs to, or NULL when there was none and [mi_switch] returns. *)
Definition mi_switch_out (nextstate : threadstate) : K Z :=
  _ ← check_spl;
  c ← kget k_curthread;
  if c =? 0 then mret 0 else
  th ← get_thread c;
  _ ← check_stack th;
  _ ← kmod (set_curthread 0);
  result ← match nextstate with
           | S_READY => make_runnable c
           | S_SLEEP => add_sleeper c
           | S_ZOMB => add_zombie c
           | S_RUN => kpanic
           end;
  _ ← kcheck (result =? 0);
  mret c.

(** After [md_switch] has come back to this thread. *)
Definition mi_switch_in : K unit :=
  _ ← exorcise;
  th ← get_curthread;
  if t_vmspace th =? 0 then mret tt else k_as_activate (t_vmspace th).

Definition mi_switch (nextstate : threadstate) : kcode :=
  Act (mi_switch_out nextstate) (λ cur,
    if cur =? 0 then Done 0
    else Sched cur (act_ mi_switch_in)).

Definition thread_yield : kcode :=
  spl <- act (spl ← k_splhigh;
              a ← kget k_sleepers;
              _ ← kcheck (if a is Some _ then true else false);
              mret spl) ;;
  mi_switch S_READY ;;;
  act (k_splx spl).

Definition thread_sleep (addr : Z) : kcode :=
  act_ (n ← kget k_in_interrupt;
        _ ← kcheck (n =? 0);
        c ← kget k_curthread;
        th ← get_thread c;
        put_thread c (with_sleepaddr addr th)) ;;;
  mi_switch S_SLEEP ;;;
  act_ (c ← kget k_curthread;
        th ← get_thread c;
        put_thread c (with_sleepaddr 0 th)).

(** ** synch.c *)

Definition get_sem (sem : Z) : K semaphore := m ← kget k_sems; kderef (m !! sem).
Definition put_sem (sem : Z) (x : semaphore) : K unit := kmod (set_sems (λ m, <[sem := x]> m)).
Definition get_lock (l : Z) : K lock := m ← kget k_locks; kderef (m !! l).
Definition put_lock (l : Z) (x : lock) : K unit := kmod (set_locks (λ m, <[l := x]> m)).

Definition sem_destroy (sem : Z) : K unit :=
  _ ← kcheck (negb (sem =? 0));
  spl ← k_splhigh;
  n ← thread_hassleepers sem;
  _ ← kcheck (n =? 0);
  _ ← k_splx spl;
  _ ← get_sem sem;
  kmod (set_sems (delete sem)).

Definition P (sem : Z) : kcode :=
  spl <- act (_ ← kcheck (negb (sem =? 0));
              n ← kget k_in_interrupt;
              _ ← kcheck (n =? 0);
              k_splhigh) ;;
  While (x ← get_sem sem; mret (sem_count x =? 0)) (thread_sleep sem)
    (act (x ← get_sem sem;
          _ ← kcheck (0 <? sem_count x);
          _ ← put_sem sem (mkSem (s32 (sem_count x - 1)));
          k_splx spl)).

Definition V (sem : Z) : K unit :=
  _ ← kcheck (negb (sem =? 0));
  spl ← k_splhigh;
  x ← get_sem sem;
  let count := s32 (sem_count x + 1) in
  _ ← put_sem sem (mkSem count);
  _ ← kcheck (0 <? count);
  _ ← thread_wakeup sem;
  _ ← k_splx spl;
  mret tt.

Definition lock_create : K Z :=
  l ← kalloc;
  if l =? 0 then mret 0 else
  name ← kalloc;
  if name =? 0 then mret 0 else
  _ ← put_lock l (mkLock 1 None);
  mret l.

Definition lock_destroy (l : Z) : K unit :=
  _ ← kcheck (negb (l =? 0));
  spl ← k_splhigh;
  n ← thread_hassleepers l;
  _ ← kcheck (n =? 0);
  _ ← k_splx spl;
  _ ← get_lock l;
  kmod (set_locks (delete l)).

Definition lock_acquire (l : Z) : kcode :=
  spl <- act (_ ← kcheck (negb (l =? 0));
              n ← kget k_in_interrupt;
              _ ← kcheck (n =? 0);
              k_splhigh) ;;
  While (x ← get_lock l; mret (lock_count x =? 0)) (thread_sleep l)
    (act (x ← get_lock l;
          _ ← kcheck (0 <? lock_count x);
          c ← kget k_curthread;
          _ ← put_lock l (mkLock (s32 (lock_count x - 1)) (Some c));
          k_splx spl)).

Definition lock_release (l : Z) : K unit :=
  _ ← kcheck (negb (l =? 0));
  spl ← k_splhigh;
  x ← get_lock l;
  let count := s32 (lock_count x + 1) in
  _ ← put_lock l (mkLock count (Some 0));
  _ ← kcheck (0 <? count);
  _ ← thread_wakeup l;
  _ ← k_splx spl;
  mret tt.

Definition lock_do_i_hold (l : Z) : K Z :=
  x ← get_lock l;
  t ← kderef (lock_thread x);
  c ← kget k_curthread;
  mret (if t =? c then 1 else 0).

Definition cv_create : K Z :=
  cv ← kalloc;
  if cv =? 0 then mret 0 else
  name ← kalloc;
  if name =? 0 then mret 0 else
  _ ← kmod (set_cvs (λ m, {[cv]} ∪ m));
  mret cv.

Definition cv_destroy (cv : Z) : K unit :=
  spl ← k_splhigh;
  _ ← kcheck (negb (cv =? 0));
  _ ← kmod (set_cvs (λ m, m ∖ {[cv]}));
  _ ← k_splx spl;
  mret tt.

Definition cv_wait (cv l : Z) : kcode :=
  spl <- act (spl ← k_splhigh;
              _ ← kcheck (negb (cv =? 0));
              _ ← kcheck (negb (l =? 0));
              _ ← lock_release l;
              mret spl) ;;
  thread_sleep cv ;;;
  act (k_splx spl) ;;;
  lock_acquire l.

Definition cv_signal (cv l : Z) : K unit :=
  spl ← k_splhigh;
  _ ← kcheck (negb (cv =? 0));
  _ ← kcheck (negb (l =? 0));
  _ ← lock_release l;
  _ ← thread_wakeup cv;
  _ ← k_splx spl;
  mret tt.

Definition cv_broadcast (cv l : Z) : K unit :=
  spl ← k_splhigh;
  _ ← kcheck (negb (cv =? 0));
  _ ← lock_release l;
  _ ← thread_wakeup cv;
  _ ← k_splx spl;
  mret tt.

(** ** Reference counts of vnodes (vnode.c)

    The file system's reclaim routine is reached through a function pointer;
    the model records the call. *)

Definition get_vnode (vn : Z) : K vnode := m ← kget k_vnodes; kderef (m !! vn).
Definition put_vnode (vn : Z) (x : vnode) : K unit := kmod (set_vnodes (λ m, <[vn := x]> m)).

Definition vnode_incref (vn : Z) : kcode :=
  l <- act (_ ← kcheck (negb (vn =? 0)); x ← get_vnode vn; mret (vn_countlock x)) ;;
  lock_acquire l ;;;
  act_ (x ← get_vnode vn;
        put_vnode vn (mkVnode (s32 (vn_refcount x + 1)) (vn_opencount x) (vn_countlock x))) ;;;
  act_ (lock_release l).

Definition vnode_decref (vn : Z) : kcode :=
  l <- act (_ ← kcheck (negb (vn =? 0)); x ← get_vnode vn; mret (vn_countlock x)) ;;
  lock_acquire l ;;;
  actually_do_it <- act (x ← get_vnode vn;
        _ ← kcheck (0 <? vn_refcount x);
        if 1 <? vn_refcount x then
          _ ← put_vnode vn (mkVnode (vn_refcount x - 1) (vn_opencount x) (vn_countlock x));
          mret 0
        else mret 1) ;;
  act_ (lock_release l) ;;;
  if actually_do_it =? 0 then Done 0
  else act_ (kmod (λ s, set_reclaimed (k_reclaimed s ++ [vn]) s)).

(** ** Creating and ending threads *)

(** The part of [thread_create] that fills in the structure and gives it a
    pid: the semaphore to take, or -1 for the first thread. *)
Definition create_pid (t : Z) : K Z :=
  n ← kget k_numthreads;
  if n =? 0 then
    _ ← put_thread t (mkThread 0 None 1 0 0 0 0 0);
    mret (-1)
  else
    p ← assign_pid t;
    _ ← put_thread t (mkThread 0 None p 0 0 0 0 0);
    pids ← kget k_pids;
    i ← kderef (pid_search pids p);
    e ← kderef (pids !! i);
    mret (parentSem e).

(** [thread_create]: the new thread's address, or NULL; the early returns
    do not restore the interrupt level. *)
Definition thread_create : kcode :=
  spl <- act k_splhigh ;;
  t <- act kalloc ;;
  if t =? 0 then Done 0 else
  name <- act kalloc ;;
  if name =? 0 then Done 0 else
  sem <- act (create_pid t) ;;
  (if sem =? -1 then Done 0 else P sem) ;;;
  act (k_splx spl) ;;;
  Done t.

Definition thread_exit (exitCode : Z) : kcode :=
  cwd <- act (th ← get_curthread;
              _ ← check_stack th;
              _ ← k_splhigh;
              _ ← (if t_vmspace th =? 0 then mret tt else
                   c ← kget k_curthread;
                   _ ← put_thread c (with_vmspace 0 th);
                   k_as_destroy (t_vmspace th));
              mret (t_cwd th)) ;;
  (if cwd =? 0 then Done 0
   else vnode_decref cwd ;;;
        act_ (c ← kget k_curthread; th ← get_thread c; put_thread c (with_cwd 0 th))) ;;;
  act_ (c ← kget k_curthread;
        th ← get_thread c;
        _ ← put_thread c (with_exitStatus 1 th);
        pids ← kget k_pids;
        i ← kderef (pid_search pids (pidValue th));
        p ← kderef (pids !! i);
        _ ← kmod (set_pids (<[i := mkPid (pd_pidValue p) (isUsed p) (pPid p) 1 (Some exitCode)
                                     (myThread p) (parentSem p)]> pids));
        V (parentSem p)) ;;;
  act_ (n ← kget k_numthreads;
        _ ← kcheck (0 <? n);
        kmod (set_numthreads (n - 1))) ;;;
  mi_switch S_ZOMB ;;;
  act kpanic.

(** New threads start here. *)
Definition mi_threadstart (func : kcode) : kcode :=
  act_ (th ← get_curthread;
        _ ← (if t_vmspace th =? 0 then mret tt else k_as_activate (t_vmspace th));
        _ ← k_spl0;
        mret tt) ;;;
  func ;;;
  thread_exit 0.

(** The part of [thread_fork] that runs with interrupts off: the result code. *)
Definition fork_enqueue (newguy : Z) : K Z :=
  n ← kget k_numthreads;
  a ← get_sleepers;
  '(r1, a') ← kalloc_lift (λ o, '(r, a', o') ← array_preallocate o a (n + 1); Ret ((r, a'), o'));
  _ ← kmod (set_sleepers (Some a'));
  if negb (r1 =? 0) then mret r1 else
  z ← get_zombies;
  '(r2, z') ← kalloc_lift (λ o, '(r, z', o') ← array_preallocate o z (n + 1); Ret ((r, z'), o'));
  _ ← kmod (set_zombies (Some z'));
  if negb (r2 =? 0) then mret r2 else
  r3 ← scheduler_preallocate (n + 1);
  if negb (r3 =? 0) then mret r3 else
  r4 ← make_runnable newguy;
  if negb (r4 =? 0) then mret r4 else
  _ ← kmod (set_numthreads (n + 1));
  mret 0.

(** [thread_fork]: the address of the new thread, which the C function
    stores through [ret] while returning 0, or the negated error code. *)
Definition thread_fork (func : kcode) : kcode :=
  newguy <- thread_create ;;
  if newguy =? 0 then Done (- ENOMEM) else
  stk <- act kalloc ;;
  if stk =? 0 then
    act_ (kmod (set_threads (delete newguy))) ;;; Done (- ENOMEM)
  else
  cwd <- act (th ← get_thread newguy;
              _ ← put_thread newguy (with_stack (Some stack_magic) th);
              cur ← get_curthread;
              mret (t_cwd cur)) ;;
  (if cwd =? 0 then Done 0
   else vnode_incref cwd ;;;
        act_ (th ← get_thread newguy; put_thread newguy (with_cwd cwd th))) ;;;
  InitPcb newguy (mi_threadstart func)
  (s <- act k_splhigh ;;
   result <- act (fork_enqueue newguy) ;;
   act (k_splx s) ;;;
   if result =? 0 then Done newguy else
   cwd' <- act (th ← get_thread newguy; mret (t_cwd th)) ;;
   (if cwd' =? 0 then Done 0 else vnode_decref cwd') ;;;
   act_ (kmod (set_threads (delete newguy))) ;;;
   Done (- result)).

Definition thread_shutdown : K unit :=
  _ ← get_sleepers;
  _ ← kmod (set_sleepers None);
  _ ← get_zombies;
  kmod (set_zombies None).

(** ** The clock (hardclock.c) *)

(** The address of [lbolt], below every address [kalloc] returns. *)
Definition lbolt : Z := 4.
Definition HZ : Z := 100.

Definition hardclock : kcode :=
  act_ (n ← kget k_lbolt_counter;
        let n' := s32 (n + 1) in
        _ ← kmod (set_lbolt_counter n');
        if HZ <=? n' then
          _ ← kmod (set_lbolt_counter 0);
          thread_wakeup lbolt
        else mret tt) ;;;
  thread_yield.

(** [while (num_secs > 0) { thread_sleep(&lbolt); num_secs--; }]. *)
Fixpoint clocksleep_loop (num_secs : nat) : kcode :=
  match num_secs with
  | O => Done 0
  | S n => thread_sleep lbolt ;;; clocksleep_loop n
  end.

Definition clocksleep (num_secs : Z) : kcode :=
  s <- act k_splhigh ;;
  clocksleep_loop (Z.to_nat num_secs) ;;;
  act (k_splx s).

(** [thread_join] ignores its argument. *)
Definition thread_join (t : Z) : kcode := clocksleep 5 ;;; Done 0.
