(* ===== verification/Machine.v ===== *)
(** The processor running the kernel's threads: context switches
    (kern/arch/mips/mips/pcb.c), interrupts (kern/arch/mips/mips/trap.c,
    interrupt.c) and the idle loop (scheduler.c, spl.c).

    A machine is the kernel state, the code of the thread on the processor
    and the code each other thread will resume with.  [exec] is what the
    processor does next by itself; [mstep] adds the interrupts, which come
    at any point where the processor takes them. *)

From Stdlib Require Import ZArith Lia.
From stdpp Require Import base numbers list option gmap.
From S2P Require Import Prelude Array Queue Cpu Vm Kernel Thread.

Open Scope Z_scope.

Record machine := mkM {
  m_s : kstate;
  m_code : kcode;
  m_susp : gmap Z kcode
}.

(** [md_switch], apart from the stack: [in_interrupt] is per thread. *)
Definition md_switch (old nu : Z) : K unit :=
  if old =? nu then mret tt else
  o ← get_thread old;
  i ← kget k_in_interrupt;
  _ ← put_thread old (with_ininterrupt i o);
  n ← get_thread nu;
  kmod (set_in_interrupt (pcb_ininterrupt n)).

(** The scheduler's choice, the update of [curthread] and [md_switch]; the
    run queue is not empty. *)
Definition switch_to_next (cur : Z) : K Z :=
  _ ← check_spl;
  q ← get_runqueue;
  '(next, q') ← klift (q_remhead q);
  _ ← kmod (set_runqueue (Some q'));
  _ ← kmod (set_curthread next);
  _ ← md_switch cur next;
  mret next.

Definition runqueue_empty (s : kstate) : bool :=
  match k_runqueue s with Some q => q_empty q | None => false end.

Definition exec (m : machine) : res machine :=
  match m_code m with
  | Done r => Ret m
  | Act f k =>
      '(x, s') ← (f (m_s m) : res (Z * kstate));
      Ret (mkM s' (k x) (m_susp m))
  | While b body k =>
      '(v, s') ← (b (m_s m) : res (bool * kstate));
      Ret (mkM s' (if (v : bool) then kbind body (λ _, While b body k) else k) (m_susp m))
  | InitPcb t start k => Ret (mkM (m_s m) k (<[t := start]> (m_susp m)))
  | Sched cur k =>
      if runqueue_empty (m_s m) then
        (* cpu_idle *)
        _ ← kassert (0 <? curspl (k_cpu (m_s m)));
        Ret m
      else
        '(next, s') ← (switch_to_next cur (m_s m) : res (Z * kstate));
        if next =? cur then Ret (mkM s' k (m_susp m))
        else
          code ← deref (m_susp m !! next);
          Ret (mkM s' code (<[cur := k]> (delete next (m_susp m))))
  end.

(** ** Interrupts

    The devices that interrupt: the clock, and devices whose handler wakes
    the thread that waits for them through a semaphore. *)
Inductive irq :=
  | Iclock
  | Idev (sem : Z).

Definition handler (i : irq) : kcode :=
  match i with
  | Iclock => hardclock
  | Idev sem => act_ (V sem)
  end.

(** Taking the interrupt: the hardware turns interrupts off, [mips_trap]
    raises [curspl], [mips_interrupt] sets [in_interrupt]. *)
Definition trap_enter (s : kstate) : kstate :=
  set_in_interrupt 1 (set_cpu (mkCpu (c0_status (interrupts_off (k_cpu s))) SPL_HIGH) s).

(** Its end: [in_interrupt] and [curspl] as saved; the return from the
    exception restores the status register. *)
Definition trap_leave (saved : cpu) (old_in : Z) : K unit :=
  _ ← kmod (set_in_interrupt old_in);
  _ ← k_splhigh;
  kmod (set_cpu saved).

Definition take_irq (i : irq) (m : machine) : machine :=
  let s := m_s m in
  mkM (trap_enter s)
      (handler i ;;; act_ (trap_leave (k_cpu s) (k_in_interrupt s)) ;;; m_code m)
      (m_susp m).

(** Where interrupts are taken: wherever the processor has them enabled, and
    in the idle loop, which opens a window for them. *)
Definition irq_allowed (m : machine) : bool :=
  match m_code m with
  | Done _ => false
  | Sched _ _ => runqueue_empty (m_s m)
  | _ => ints_enabled (k_cpu (m_s m))
  end.

Inductive mstep : machine → machine → Prop :=
  | step_exec m m' : exec m = Ret m' → mstep m m'
  | step_irq i m : irq_allowed m = true → mstep m (take_irq i m).

(** ** Boot (kern/main/main.c, thread.c)

    The first thread, running on the boot stack. *)

Definition thread_bootstrap : kcode :=
  act_ (a ← kalloc_lift (λ o, Ret (array_create o));
        match a with
        | None => kpanic
        | Some _ => kmod (set_sleepers a)
        end) ;;;
  act_ (a ← kalloc_lift (λ o, Ret (array_create o));
        match a with
        | None => kpanic
        | Some _ => kmod (set_zombies a)
        end) ;;;
  act_ (kmod (set_numthreads 0)) ;;;
  me <- thread_create ;;
  if me =? 0 then act kpanic else
  act_ (_ ← kmod (set_curthread me);
        kmod (set_numthreads 1)) ;;;
  Done me.

(** Before [boot] runs: interrupts off, nothing allocated; [o] says which of
    the allocations to come fail, and [u] is the machine's memory and
    devices. *)
Definition kstate0 (o : oracle) (u : ustate) : kstate :=
  mkK ∅ 0 None None 0 None [] ∅ ∅ ∅ ∅ [] (replicate NUM_TLB (0, 0)) (mkCpu 0 SPL_HIGH) 0 0 16 o u.

(** The thread-system part of [boot], then [spl0] and the rest of the first
    thread's program. *)
Definition boot (main : kcode) : kcode :=
  act_ scheduler_bootstrap ;;;
  act create_pid_list ;;;
  thread_bootstrap ;;;
  act k_spl0 ;;;
  main.

(** Running a machine without interrupts, for a bounded number of steps. *)
Fixpoint run (n : nat) (m : machine) : res machine :=
  match n with
  | O => Ret m
  | S n' => m' ← exec m; run n' m'
  end.
