(* ===== verification/ThreadOps.v ===== *)
(** What the uninterrupted pieces of the thread system do, while memory
    lasts: the wake-up loop, the moves between the lists of threads, the pid
    list.  Each lemma gives the result and the whole state after the call. *)

From Stdlib Require Import ZArith Lia.
From stdpp Require Import base numbers list option gmap.
From S2P Require Import Prelude Array Queue Cpu Vm Kernel Thread Machine.

Open Scope Z_scope.

(** ** Stepping through the monad *)

Lemma K_bind {A B} (m : K A) (f : A → K B) s a s' :
  m s = Ret (a, s') → (m ≫= f) s = f a s'.
Proof. intros H. unfold mbind, K_mbind. by rewrite H. Qed.

Lemma K_bind_get {A B} (g : kstate → A) (f : A → K B) s : (kget g ≫= f) s = f (g s) s.
Proof. reflexivity. Qed.

Lemma K_bind_mod {B} g (f : unit → K B) s : (kmod g ≫= f) s = f tt (g s).
Proof. reflexivity. Qed.

Lemma K_bind_ret {A B} (a : A) (f : A → K B) s : ((mret a : K A) ≫= f) s = f a s.
Proof. reflexivity. Qed.

Lemma K_bind_check {B} b (f : unit → K B) s : b = true → (kcheck b ≫= f) s = f tt s.
Proof. by intros ->. Qed.

Lemma K_bind_deref {A B} (x : A) p (f : A → K B) s : p = Some x → (kderef p ≫= f) s = f x s.
Proof. by intros ->. Qed.

Lemma K_bind_lift {A B} (x : A) m (f : A → K B) s : m = Ret x → (klift m ≫= f) s = f x s.
Proof. by intros ->. Qed.

Lemma K_bind_assoc {A B C} (m : K A) (f : A → K B) (g : B → K C) s :
  ((m ≫= f) ≫= g) s = (m ≫= λ a, f a ≫= g) s.
Proof. unfold mbind, K_mbind. by destruct (m s) as [[a s']| | |]. Qed.

Lemma K_check_spl {B} (f : unit → K B) s :
  0 < curspl (k_cpu s) → (check_spl ≫= f) s = f tt s.
Proof. intros H. unfold check_spl. rewrite K_bind_assoc. unfold kspl. rewrite K_bind_get.
  apply K_bind_check. by apply Z.ltb_lt. Qed.

Lemma set_alloc_id s : k_orc s = [] → set_alloc (k_next s) [] s = s.
Proof. intros H. destruct s; simpl in *. by rewrite H. Qed.

Lemma kalloc_lift_ok {A B} (g : oracle → res (A * oracle)) (x : A) (f : A → K B) s :
  k_orc s = [] → g [] = Ret (x, []) → (kalloc_lift g ≫= f) s = f x s.
Proof.
  intros Ho H. apply K_bind. unfold kalloc_lift. rewrite Ho, H, mbind_Ret.
  by rewrite set_alloc_id.
Qed.

Lemma kalloc_ok s : k_orc s = [] → kalloc s = Ret (k_next s, set_alloc (k_next s + 16) [] s).
Proof. intros H. unfold kalloc. by rewrite H. Qed.

(** The standard step tactic: reads, writes and assertions the context
    decides. *)
Ltac kgo :=
  repeat first
    [ rewrite K_bind_assoc
    | rewrite K_bind_get
    | rewrite K_bind_mod
    | rewrite K_bind_ret
    | rewrite K_check_spl by (simpl; first [done | unfold SPL_HIGH in *; lia])
    | rewrite K_bind_check by (done || (simpl; lia))
    | erewrite K_bind_deref by (simpl; done) ].

Lemma get_thread_bind {B} t th (f : thread → K B) s :
  k_threads s !! t = Some th → (get_thread t ≫= f) s = f th s.
Proof. intros H. unfold get_thread. kgo. done. Qed.

(** ** Lists of threads *)

(** Below this many threads no size computation wraps. *)
Definition thread_lim : Z := 67108864.

Definition sleeps_on (m : gmap Z thread) (addr t : Z) : bool :=
  match m !! t with Some th => t_sleepaddr th =? addr | None => false end.

Lemma make_runnable_ok t s q lr :
  k_runqueue s = Some q → queue_rep q lr → q_size q < queue_lim →
  0 < curspl (k_cpu s) → k_orc s = [] →
  ∃ q', make_runnable t s = Ret (0, set_runqueue (Some q') s) ∧ queue_rep q' (lr ++ [t]) ∧
    (q_size q' = q_size q ∨ q_size q' < 2 * (Z.of_nat (length lr) + 2)).
Proof.
  intros Hq Hr Hs Hspl Ho. unfold make_runnable, get_runqueue. kgo.
  destruct (q_addtail_ok [] q lr t Hr Hs) as [(q' & o' & E & Hr' & _ & Hsz & _ & Ho')|(o' & _ & ? & _)];
    [|done].
  assert (o' = []) as -> by (by destruct Ho').
  rewrite (kalloc_lift_ok _ (0, q')) by (done || by rewrite E). kgo. eauto.
Qed.

Lemma add_sleeper_ok t s a ls :
  k_sleepers s = Some a → array_rep a ls → Z.of_nat (length ls) < array_lim → k_orc s = [] →
  ∃ a', add_sleeper t s = Ret (0, set_sleepers (Some a') s) ∧ array_rep a' (ls ++ [t]).
Proof.
  intros Ha Hr Hs Ho. unfold add_sleeper, get_sleepers. kgo.
  destruct (array_add_ok [] a ls t Hr Hs) as [(a' & o' & E & Hr' & Ho')|(o' & _ & ?)]; [|done].
  assert (o' = []) as -> by (by destruct Ho').
  rewrite (kalloc_lift_ok _ (0, a')) by (done || by rewrite E). kgo. eauto.
Qed.

Lemma add_zombie_ok t s a lz :
  k_zombies s = Some a → array_rep a lz → Z.of_nat (length lz) < array_lim → k_orc s = [] →
  ∃ a', add_zombie t s = Ret (0, set_zombies (Some a') s) ∧ array_rep a' (lz ++ [t]).
Proof.
  intros Ha Hr Hs Ho. unfold add_zombie, get_zombies. kgo.
  destruct (array_add_ok [] a lz t Hr Hs) as [(a' & o' & E & Hr' & Ho')|(o' & _ & ?)]; [|done].
  assert (o' = []) as -> by (by destruct Ho').
  rewrite (kalloc_lift_ok _ (0, a')) by (done || by rewrite E). kgo. eauto.
Qed.

(** ** thread_wakeup *)

Lemma set_sleepers_runqueue a q a' q' s :
  set_runqueue (Some q) (set_sleepers (Some a) (set_runqueue (Some q') (set_sleepers (Some a') s)))
  = set_runqueue (Some q) (set_sleepers (Some a) s).
Proof. reflexivity. Qed.

Lemma thread_wakeup_loop_ok fuel addr s a q pre rest lr :
  k_sleepers s = Some a → array_rep a (pre ++ rest) →
  k_runqueue s = Some q → queue_rep q lr → q_size q < queue_lim →
  2 * (Z.of_nat (length lr + length rest) + 2) < queue_lim →
  (∀ t, t ∈ rest → is_Some (k_threads s !! t)) →
  0 < curspl (k_cpu s) → k_orc s = [] → (length rest ≤ fuel)%nat →
  ∃ a' q', thread_wakeup_loop fuel addr (Z.of_nat (length pre)) s =
      Ret (tt, set_runqueue (Some q') (set_sleepers (Some a') s)) ∧
    array_rep a' (pre ++ filter (λ t, sleeps_on (k_threads s) addr t = false) rest) ∧
    queue_rep q' (lr ++ filter (λ t, sleeps_on (k_threads s) addr t = true) rest) ∧
    q_size q' < queue_lim.
Proof.
  revert s a q pre lr fuel. induction rest as [|t rest IH];
    intros s a q pre lr fuel Hsl Ha Hrq Hq Hqs Hlim Hheap Hspl Ho Hfuel.
  - exists a, q. rewrite !filter_nil, !app_nil_r in *.
    split; [|done]. destruct fuel; cbn [thread_wakeup_loop]; unfold get_sleepers; kgo;
      destruct Ha as (Hn & _); unfold array_getnum; rewrite Hn, (proj2 (Z.leb_le _ _)) by lia;
      destruct s; simpl in *; by rewrite Hsl, Hrq.
  - destruct fuel as [|fuel]; [simpl in Hfuel; lia|]. cbn [thread_wakeup_loop].
    unfold get_sleepers. kgo. pose proof Ha as (Hn & _). unfold array_getnum. rewrite Hn.
    rewrite length_app. rewrite (proj2 (Z.leb_gt _ _)) by (simpl; lia).
    assert ((pre ++ t :: rest) !! length pre = Some t) as Ht by (by apply list_lookup_middle).
    rewrite (K_bind_lift t) by (by apply (array_getguy_ok _ _ _ _ Ha)).
    destruct (Hheap t ltac:(set_solver)) as [th Hth]. rewrite (get_thread_bind _ th) by done.
    assert (sleeps_on (k_threads s) addr t = (t_sleepaddr th =? addr)) as Hso
      by (unfold sleeps_on; by rewrite Hth).
    rewrite !filter_cons.
    destruct (Z.eqb_spec (t_sleepaddr th) addr) as [Haddr|Haddr].
    + rewrite decide_False, decide_True by congruence.
      destruct (array_remove_ok a (pre ++ t :: rest) (length pre) Ha) as (a1 & E1 & Ha1 & _);
        [rewrite length_app; simpl; lia|].
      rewrite delete_middle in Ha1. rewrite (K_bind_lift a1) by done. kgo.
      destruct (make_runnable_ok t (set_sleepers (Some a1) s) q lr) as (q1 & E2 & Hq1 & Hsz); try done.
      rewrite (K_bind _ _ _ _ _ E2). kgo.
      destruct (IH (set_runqueue (Some q1) (set_sleepers (Some a1) s)) a1 q1 pre (lr ++ [t]) fuel)
        as (a' & q' & E3 & H1 & H2 & H3); try done.
      * simpl in Hlim. lia.
      * rewrite length_app. simpl in *. lia.
      * simpl. intros u Hu. apply Hheap. set_solver.
      * simpl in Hfuel. lia.
      * exists a', q'. rewrite E3, set_sleepers_runqueue. cbn [k_threads set_runqueue set_sleepers] in *.
        rewrite <- app_assoc in H2. done.
    + rewrite decide_True, decide_False by congruence.
      destruct (IH s a q (pre ++ [t]) lr fuel) as (a' & q' & E3 & H1 & H2 & H3); try done.
      * by rewrite <- app_assoc.
      * simpl in Hlim. lia.
      * intros u Hu. apply Hheap. set_solver.
      * simpl in Hfuel. lia.
      * exists a', q'. rewrite length_app in E3. simpl in E3.
        replace (Z.of_nat (length pre) + 1) with (Z.of_nat (length pre + 1)) by lia.
        rewrite E3. rewrite <- app_assoc in H1. done.
Qed.

(** [thread_wakeup] moves the sleepers on [addr], in order, to the end of the
    run queue; nothing else changes. *)
Lemma thread_wakeup_ok addr s a q ls lr :
  k_sleepers s = Some a → array_rep a ls → k_runqueue s = Some q → queue_rep q lr →
  q_size q < queue_lim → 2 * (Z.of_nat (length lr + length ls) + 2) < queue_lim →
  (∀ t, t ∈ ls → is_Some (k_threads s !! t)) → 0 < curspl (k_cpu s) → k_orc s = [] →
  ∃ a' q', thread_wakeup addr s =
      Ret (tt, set_runqueue (Some q') (set_sleepers (Some a') s)) ∧
    array_rep a' (filter (λ t, sleeps_on (k_threads s) addr t = false) ls) ∧
    queue_rep q' (lr ++ filter (λ t, sleeps_on (k_threads s) addr t = true) ls) ∧
    q_size q' < queue_lim.
Proof.
  intros Hsl Ha Hrq Hq Hqs Hlim Hheap Hspl Ho. unfold thread_wakeup, get_sleepers. kgo.
  pose proof Ha as (Hn & _). unfold array_getnum. rewrite Hn.
  apply (thread_wakeup_loop_ok _ addr s a q [] ls lr); try done. lia.
Qed.

(** ** Interrupt levels *)

Definition hi (s : kstate) : kstate := set_cpu (splhigh (k_cpu s)).2 s.

Lemma k_splhigh_bind {B} (f : Z → K B) s :
  (k_splhigh ≫= f) s = f (curspl (k_cpu s)) (hi s).
Proof. reflexivity. Qed.

Lemma k_splhigh_run s : k_splhigh s = Ret (curspl (k_cpu s), hi s).
Proof. reflexivity. Qed.

Lemma hi_spl s : curspl (k_cpu (hi s)) = SPL_HIGH.
Proof. reflexivity. Qed.

Lemma k_splx_back {B} (f : Z → K B) s s2 :
  cpu_wf (k_cpu s) → k_cpu s2 = (splhigh (k_cpu s)).2 →
  (k_splx (curspl (k_cpu s)) ≫= f) s2 = f SPL_HIGH (set_cpu (k_cpu s) s2).
Proof.
  intros Hc E. apply K_bind. unfold k_splx. rewrite E.
  pose proof (spl_bracket _ Hc) as Hb.
  destruct (splx (curspl (k_cpu s)) (splhigh (k_cpu s)).2) as [x c] eqn:Ex.
  simpl in Hb. subst c. unfold splx in Ex. by simplify_eq.
Qed.

Lemma k_splx_back_run s s2 :
  cpu_wf (k_cpu s) → k_cpu s2 = (splhigh (k_cpu s)).2 →
  k_splx (curspl (k_cpu s)) s2 = Ret (SPL_HIGH, set_cpu (k_cpu s) s2).
Proof.
  intros Hc E. pose proof (k_splx_back (λ x, mret x) s s2 Hc E) as H.
  unfold mbind, K_mbind in H. by destruct (k_splx _ s2) as [[??]| | |].
Qed.

(** ** V and lock_release *)

Definition INT_MAX : Z := 2147483647.

Lemma V_ok sem x s a q ls lr :
  sem ≠ 0 → k_sems s !! sem = Some x → 0 ≤ sem_count x < INT_MAX →
  k_sleepers s = Some a → array_rep a ls → k_runqueue s = Some q → queue_rep q lr →
  q_size q < queue_lim → 2 * (Z.of_nat (length lr + length ls) + 2) < queue_lim →
  (∀ t, t ∈ ls → is_Some (k_threads s !! t)) → cpu_wf (k_cpu s) → k_orc s = [] →
  ∃ a' q', V sem s =
      Ret (tt, set_runqueue (Some q') (set_sleepers (Some a')
                 (set_sems (λ m, <[sem := mkSem (sem_count x + 1)]> m) s))) ∧
    array_rep a' (filter (λ t, sleeps_on (k_threads s) sem t = false) ls) ∧
    queue_rep q' (lr ++ filter (λ t, sleeps_on (k_threads s) sem t = true) ls) ∧
    q_size q' < queue_lim.
Proof.
  intros Hne Hx Hc Hsl Ha Hrq Hq Hqs Hlim Hheap Hcpu Ho. unfold V, get_sem, put_sem.
  unfold INT_MAX in Hc. kgo. rewrite k_splhigh_bind. kgo.
  rewrite s32_id by (unfold is_s32; lia). kgo.
  destruct (thread_wakeup_ok sem
    (set_sems (λ m, <[sem := mkSem (sem_count x + 1)]> m) (hi s)) a q ls lr)
    as (a' & q' & E & H1 & H2 & H3); try done.
  rewrite (K_bind _ _ _ _ _ E). rewrite k_splx_back by done.
  exists a', q'. split; [|done]. by destruct s.
Qed.

Lemma lock_release_ok l x s a q ls lr :
  l ≠ 0 → k_locks s !! l = Some x → 0 ≤ lock_count x < INT_MAX →
  k_sleepers s = Some a → array_rep a ls → k_runqueue s = Some q → queue_rep q lr →
  q_size q < queue_lim → 2 * (Z.of_nat (length lr + length ls) + 2) < queue_lim →
  (∀ t, t ∈ ls → is_Some (k_threads s !! t)) → cpu_wf (k_cpu s) → k_orc s = [] →
  ∃ a' q', lock_release l s =
      Ret (tt, set_runqueue (Some q') (set_sleepers (Some a')
                 (set_locks (λ m, <[l := mkLock (lock_count x + 1) (Some 0)]> m) s))) ∧
    array_rep a' (filter (λ t, sleeps_on (k_threads s) l t = false) ls) ∧
    queue_rep q' (lr ++ filter (λ t, sleeps_on (k_threads s) l t = true) ls) ∧
    q_size q' < queue_lim.
Proof.
  intros Hne Hx Hc Hsl Ha Hrq Hq Hqs Hlim Hheap Hcpu Ho. unfold lock_release, get_lock, put_lock.
  unfold INT_MAX in Hc. kgo. rewrite k_splhigh_bind. kgo.
  rewrite s32_id by (unfold is_s32; lia). kgo.
  destruct (thread_wakeup_ok l
    (set_locks (λ m, <[l := mkLock (lock_count x + 1) (Some 0)]> m) (hi s)) a q ls lr)
    as (a' & q' & E & H1 & H2 & H3); try done.
  rewrite (K_bind _ _ _ _ _ E). rewrite k_splx_back by done.
  exists a', q'. split; [|done]. by destruct s.
Qed.

(** ** The pid list *)

Definition pids_wf (pids : list pid) : Prop :=
  ∀ i p, pids !! i = Some p → pd_pidValue p = Z.of_nat i + 1.

Lemma pid_search_from_ok pids i v :
  (∀ j p, pids !! j = Some p → pd_pidValue p = Z.of_nat (i + j) + 1) →
  Z.of_nat i + 1 ≤ v ≤ Z.of_nat (i + length pids) →
  pid_search_from pids i v = Some (Z.to_nat (v - 1)).
Proof.
  revert i. induction pids as [|p pids IH]; intros i Hwf Hv; simpl in *; [lia|].
  pose proof (Hwf 0%nat p eq_refl) as Hp. rewrite Nat.add_0_r in Hp.
  destruct (Z.eqb_spec (pd_pidValue p) v).
  - f_equal. lia.
  - apply IH; [|lia]. intros j q Hq. rewrite (Hwf (S j) q Hq). lia.
Qed.

Lemma pid_search_ok pids v :
  pids_wf pids → 1 ≤ v ≤ Z.of_nat (length pids) →
  pid_search pids v = Some (Z.to_nat (v - 1)) ∧ is_Some (pids !! Z.to_nat (v - 1)).
Proof.
  intros Hwf Hv. split.
  - apply pid_search_from_ok; [|lia]. intros j p Hp. rewrite (Hwf j p Hp). lia.
  - apply lookup_lt_is_Some_2. lia.
Qed.

Definition released (p : pid) : pid :=
  mkPid (pd_pidValue p) 0 0 (didExit p) (exitCode p) 0 (parentSem p).

Lemma release_pid_ok v s p :
  pids_wf (k_pids s) → 1 ≤ v ≤ Z.of_nat (length (k_pids s)) → cpu_wf (k_cpu s) →
  k_pids s !! Z.to_nat (v - 1) = Some p →
  release_pid v s = Ret (tt, set_pids (<[Z.to_nat (v - 1) := released p]> (k_pids s)) s).
Proof.
  intros Hwf Hv Hc Hp. unfold release_pid. rewrite k_splhigh_bind. kgo.
  destruct (pid_search_ok (k_pids s) v Hwf Hv) as [E _].
  change (k_pids (hi s)) with (k_pids s). rewrite E. kgo.
  rewrite k_splx_back by done. by destruct s.
Qed.

(** What releasing the pids in [R] does to the list. *)
Definition same_exit (p' p : pid) : Prop :=
  didExit p' = didExit p ∧ exitCode p' = exitCode p ∧ (pPid p = 0 → pPid p' = 0).

Definition pids_after (R : nat → Prop) (P P' : list pid) : Prop :=
  length P' = length P ∧
  ∀ i p', P' !! i = Some p' → ∃ p, P !! i = Some p ∧
    pd_pidValue p' = pd_pidValue p ∧ parentSem p' = parentSem p ∧ (p' = p ∨ R i) ∧ same_exit p' p.

Definition pid_of (m : gmap Z thread) (zs : list Z) (i : nat) : Prop :=
  ∃ z th, z ∈ zs ∧ m !! z = Some th ∧ i = Z.to_nat (pidValue th - 1).

Lemma pids_after_wf R P P' : pids_after R P P' → pids_wf P → pids_wf P'.
Proof. intros [_ H] Hwf i p' Hp. destruct (H i p' Hp) as (p & Hp0 & -> & _). by apply Hwf. Qed.

Lemma pids_after_keep R P P' i p :
  pids_after R P P' → P !! i = Some p → ∃ p', P' !! i = Some p' ∧ parentSem p' = parentSem p.
Proof.
  intros [Hl H] Hp. destruct (lookup_lt_is_Some_2 P' i) as [p' Hp']; [rewrite Hl; by eapply lookup_lt_Some|].
  exists p'. split; [done|]. destruct (H i p' Hp') as (q & Hq & _ & -> & _). congruence.
Qed.

(** A zombie [exorcise] can dispose of. *)
Definition zombie_ok (s : kstate) (z : Z) : Prop :=
  z ≠ k_curthread s ∧ ∃ th, k_threads s !! z = Some th ∧ t_vmspace th = 0 ∧ t_cwd th = 0 ∧
    1 ≤ pidValue th ≤ Z.of_nat (length (k_pids s)).

Definition delete_all (zs : list Z) (m : gmap Z thread) : gmap Z thread := foldl (λ m z, delete z m) m zs.

Lemma lookup_delete_all zs m t :
  delete_all zs m !! t = if decide (t ∈ zs) then None else m !! t.
Proof.
  revert m. induction zs as [|z zs IH]; intros m.
  { destruct (decide (t ∈ [])); [set_solver|done]. }
  change (delete_all (z :: zs) m) with (delete_all zs (delete z m)).
  rewrite IH. destruct (decide (t ∈ zs)), (decide (t ∈ z :: zs)); try set_solver.
  - assert (t = z) as -> by set_solver. apply lookup_delete_eq.
  - apply lookup_delete_ne. set_solver.
Qed.

Lemma exorcise_loop_ok zs s a pre :
  k_zombies s = Some a → array_rep a (pre ++ zs) → NoDup zs →
  pids_wf (k_pids s) → cpu_wf (k_cpu s) → 0 < curspl (k_cpu s) →
  (∀ z, z ∈ zs → zombie_ok s z) →
  ∃ P', exorcise_loop (length zs) (Z.of_nat (length pre)) s =
      Ret (tt, set_pids P' (set_threads (delete_all zs) s)) ∧
    pids_after (pid_of (k_threads s) zs) (k_pids s) P'.
Proof.
  revert s pre. induction zs as [|z zs IH]; intros s pre Hz Ha Hnd Hwf Hc Hspl Hok.
  { exists (k_pids s). split; [by destruct s|]. split; [done|]. unfold same_exit. eauto 20. }
  apply NoDup_cons in Hnd as [Hz_notin Hnd].
  cbn [exorcise_loop length]. unfold get_zombies. kgo.
  rewrite (K_bind_lift z).
  2:{ apply (array_getguy_ok _ _ _ _ Ha). by apply list_lookup_middle. }
  destruct (Hok z ltac:(set_solver)) as (Hcur & th & Hth & Hvm & Hcwd & Hpid).
  rewrite (get_thread_bind _ th) by done.
  destruct (pid_search_ok _ _ Hwf Hpid) as [_ [p Hp]].
  rewrite (K_bind _ _ _ _ _ (release_pid_ok _ _ p Hwf Hpid Hc Hp)). kgo.
  unfold thread_destroy. kgo.
  rewrite (get_thread_bind _ th) by done. kgo.
  set (s1 := set_threads (delete z) _).
  destruct (IH s1 (pre ++ [z])) as (P' & E & [Hl Haft]); try done.
  - by rewrite <- app_assoc.
  - intros i q. unfold s1; simpl. intros Hq.
    apply list_lookup_insert_Some in Hq as [(<- & <- & _)|[_ Hq]]; [|by apply Hwf].
    simpl. by apply Hwf.
  - intros y Hy. destruct (Hok y ltac:(set_solver)) as (Hyc & thy & Hty & Hyv & Hyw & Hyp).
    split; [done|]. exists thy. unfold s1; simpl. rewrite length_insert.
    rewrite lookup_delete_ne by set_solver. done.
  - replace (Z.of_nat (length pre) + 1) with (Z.of_nat (length (pre ++ [z])))
      by (rewrite length_app; simpl; lia).
    exists P'. rewrite E. split; [by destruct s|].
    unfold s1 in Hl, Haft; simpl in Hl, Haft. rewrite length_insert in Hl. split; [done|].
    intros i p' Hp'. destruct (Haft i p' Hp') as (p1 & Hp1 & Hv1 & Hs1 & Hk1 & Hx1).
    apply list_lookup_insert_Some in Hp1 as [(<- & <- & _)|[Hne Hp1]].
    + exists p. destruct Hx1 as (X1 & X2 & X3). split_and!; try done; [|split; [done|split; [done|auto]]]. right. exists z, th. split_and!; try done. set_solver.
    + exists p1. split_and!; try done; try by apply Hx1. destruct Hk1 as [?|(y & thy & Hy & Hty & ->)]; [by left|].
      right. exists y, thy. split_and!; try done; [set_solver|].
      apply lookup_delete_Some in Hty. by destruct Hty.
Qed.

Lemma exorcise_ok zs s a :
  k_zombies s = Some a → array_rep a zs → NoDup zs →
  pids_wf (k_pids s) → cpu_wf (k_cpu s) → 0 < curspl (k_cpu s) → k_orc s = [] →
  (∀ z, z ∈ zs → zombie_ok s z) →
  ∃ P' a', exorcise s =
      Ret (tt, set_zombies (Some a') (set_pids P' (set_threads (delete_all zs) s))) ∧
    array_rep a' [] ∧ pids_after (pid_of (k_threads s) zs) (k_pids s) P'.
Proof.
  intros Hz Ha Hnd Hwf Hc Hspl Ho Hok. unfold exorcise, get_zombies. kgo.
  pose proof Ha as (Hn & _). unfold array_getnum. rewrite Hn, Nat2Z.id.
  destruct (exorcise_loop_ok zs s a []) as (P' & E & Haft); try done.
  rewrite (K_bind _ _ _ _ _ E). kgo.
  destruct (array_setsize_0 [] a zs Ha) as (a' & E' & Ha' & _).
  rewrite (kalloc_lift_ok _ (0, a')) by (done || by rewrite E'). kgo.
  exists P', a'. done.
Qed.
