(* ===== verification/ThreadInv.v ===== *)
(** The invariant of the thread system.

    [Inv x rs ls lr lz E s] describes a kernel state at a point where other
    threads may run: [rs] are the threads on the processor (one or none),
    [ls], [lr] and [lz] the sleepers, the run queue and the zombies, and [x]
    the thread whose stack the processor uses.  [E] is bookkeeping that the
    C code does not have: for every thread, whether it is alive, the thread
    it is creating, the locks it holds, its saved [in_interrupt], the
    pid it waits for, its address space and the one meant for
    the thread it is creating, and whether the TLB belongs to it. *)

From Stdlib Require Import ZArith Lia.
From stdpp Require Import base numbers list option gmap.
From S2P Require Import Prelude Array Queue Cpu Vm Kernel Thread Machine ThreadOps.

Open Scope Z_scope.

Inductive pstat := PNone | PLive | PDead.
#[global] Instance pstat_eq_dec : EqDecision pstat.
Proof. solve_decision. Defined.

(** What a process sees in its memory: nothing where no page is. *)
Definition memory := Z → option Z.

(** An address space while a program is being loaded, and then. *)
Inductive content := Raw (a : addrspace) | Loaded (m : memory).

(** What the proofs know of a thread: the thread it is creating, and whether
    its first frame is set up; the locks it holds; its [in_interrupt]; the
    node of the pid list, and its semaphore, that it waits for; its address space and, once loaded, what is in it; the address
    space it has made for a thread it will create; and whether its address
    space is the active one. *)
Record priv := mkPriv {
  p_stat : pstat;
  p_emb : option (Z * bool);
  p_held : gset Z;
  p_int : Z;
  p_node : option (nat * Z);
  p_space : Z;
  p_mem : option content;
  p_kid : Z * option content;
  p_act : bool
}.

Definition ghost := Z → priv.
Definition p0 : priv := mkPriv PNone None ∅ 0 None 0 None (0, None) false.
(** A thread that has not run yet, to run in address space [a.1] (0 for none)
    with contents [a.2]. *)
Definition newborn (a : Z * option content) : priv := mkPriv PLive None ∅ 0 None a.1 a.2 (0, None) false.
Definition plive : priv := newborn (0, None).

Definition upd (E : ghost) (t : Z) (p : priv) : ghost := λ u, if u =? t then p else E u.

Lemma upd_eq E t p : upd E t p t = p.
Proof. unfold upd. by rewrite Z.eqb_refl. Qed.
Lemma upd_ne E t p u : u ≠ t → upd E t p u = E u.
Proof. intros. unfold upd. by rewrite (proj2 (Z.eqb_neq _ _)). Qed.

(** ** The parts of the invariant *)

(** A thread structure as [thread_create] and [thread_fork] leave it, for
    threads that have no directory. *)
Definition th_ok (th : thread) : Prop :=
  t_cwd th = 0 ∧
  match t_stack th with None => True | Some b => take 4 b = stack_magic end.

(** The lists the C code keeps. *)
Record lists (s : kstate) (ls lr lz : list Z) : Prop := {
  l_sleepers : ∃ a, k_sleepers s = Some a ∧ array_rep a ls;
  l_runqueue : ∃ q, k_runqueue s = Some q ∧ queue_rep q lr ∧ q_size q < queue_lim;
  l_zombies : ∃ a, k_zombies s = Some a ∧ array_rep a lz
}.

(** Every thread is in one place and [numthreads] counts the living. *)
Record placed (rs ls lr lz : list Z) (E : ghost) (num : Z) : Prop := {
  pl_nodup : NoDup (rs ++ ls ++ lr ++ lz);
  pl_num : num = Z.of_nat (length (rs ++ ls ++ lr));
  pl_live : ∀ t, p_stat (E t) = PLive ↔ t ∈ rs ++ ls ++ lr;
  pl_dead : ∀ t, t ∈ lz → p_stat (E t) = PDead
}.

(** The thread structures: those on a list, and those being created. *)
Record heaped (x : Z) (ls lr lz rs : list Z) (E : ghost) (m : gmap Z thread) : Prop := {
  h_listed : ∀ t, t ∈ rs ++ ls ++ lr ++ lz → is_Some (m !! t);
  h_ok : ∀ t th, m !! t = Some th → th_ok th;
  h_int : ∀ t th, t ≠ x → m !! t = Some th → p_stat (E t) = PLive →
    pcb_ininterrupt th = p_int (E t);
  h_emb : ∀ u e b, p_emb (E u) = Some (e, b) →
    (∃ th, m !! e = Some th ∧ pcb_ininterrupt th = 0) ∧ E e = p0 ∧ p_stat (E u) = PLive;
  h_emb_inj : ∀ u u' e b b', p_emb (E u) = Some (e, b) → p_emb (E u') = Some (e, b') → u = u'
}.

(** No lost wake-ups: whoever sleeps on a semaphore or a lock has a reason to. *)
Definition sleepers_ok (ls : list Z) (s : kstate) : Prop :=
  ∀ t th, t ∈ ls → k_threads s !! t = Some th →
    t_sleepaddr th < k_next s ∧
    (∀ x, k_sems s !! t_sleepaddr th = Some x → sem_count x = 0) ∧
    (∀ x, k_locks s !! t_sleepaddr th = Some x → lock_count x = 0).

Definition sems_ok (m : gmap Z semaphore) : Prop :=
  ∀ a x, m !! a = Some x → 0 ≤ sem_count x ≤ INT_MAX.

(** A lock is free, or held by the one thread that believes it holds it. *)
Definition lock_ok (E : ghost) (l : Z) (x : lock) : Prop :=
  (lock_count x = 1 ∧ ∀ u, l ∉ p_held (E u)) ∨
  (∃ u, lock_count x = 0 ∧ lock_thread x = Some u ∧ l ∈ p_held (E u) ∧
     ∀ u', l ∈ p_held (E u') → u' = u).

Definition locks_ok (E : ghost) (m : gmap Z lock) : Prop :=
  ∀ l x, m !! l = Some x → lock_ok E l x.

(** Addresses handed out so far. *)
Record fresh_ok (E : ghost) (s : kstate) : Prop := {
  f_next : 16 ≤ k_next s;
  f_threads : ∀ t, is_Some (k_threads s !! t) → 0 < t < k_next s;
  f_sems : ∀ a, is_Some (k_sems s !! a) → 16 ≤ a < k_next s;
  f_locks : ∀ a, is_Some (k_locks s !! a) → 16 ≤ a < k_next s;
  f_disj : ∀ a, is_Some (k_sems s !! a) → k_locks s !! a = None;
  f_ghost : ∀ u, k_next s ≤ u → E u = p0
}.

(** Pid [v] of thread [t]: the boot thread has pid 1; any other pid's node is
    in use and points back to its thread. *)
Definition pid_ok (BOOT : Z) (pids : list pid) (t v : Z) : Prop :=
  (v = 1 ∧ t = BOOT ∧ (1 ≤ length pids)%nat) ∨
  (2 ≤ v ∧ ∃ p, pids !! Z.to_nat (v - 1) = Some p ∧ isUsed p = 1 ∧ myThread p = t).

(** Node [i] of the pid list is that of a zombie. *)
Definition dead_pid (lz : list Z) (m : gmap Z thread) (i : nat) : Prop :=
  ∃ t th, t ∈ lz ∧ m !! t = Some th ∧ Z.to_nat (pidValue th - 1) = i.

(** The first node is nobody's child; the exit code is there when the node
    says so, and when its semaphore is up. *)
Definition code_ok (sems : gmap Z semaphore) (i : nat) (p : pid) : Prop :=
  (i = O → pPid p = 0) ∧ (didExit p = 1 → is_Some (exitCode p)) ∧
  ((1 ≤ i)%nat → ∀ x, sems !! parentSem p = Some x → 1 ≤ sem_count x → is_Some (exitCode p)).

(** The pid list: node [i] has pid [i+1]; every node but the first has a
    semaphore of its own, not one of the shared ones, which is up while the
    pid is free or its thread is a zombie. *)
Record pids_ok (SEMS : gset Z) (BOOT : Z) (lz : list Z) (s : kstate) : Prop := {
  pd_wf : pids_wf (k_pids s);
  pd_len : (1 ≤ length (k_pids s))%nat;
  pd_sem : ∀ i p, k_pids s !! i = Some p → (1 ≤ i)%nat →
    parentSem p ∉ SEMS ∧ ∃ x, k_sems s !! parentSem p = Some x ∧
      (isUsed p = 0 ∨ dead_pid lz (k_threads s) i → 1 ≤ sem_count x);
  pd_inj : ∀ i j p p', k_pids s !! i = Some p → k_pids s !! j = Some p' →
    (1 ≤ i)%nat → (1 ≤ j)%nat → parentSem p = parentSem p' → i = j;
  pd_thread : ∀ t th, k_threads s !! t = Some th → pid_ok BOOT (k_pids s) t (pidValue th);
  pd_code : ∀ i p, k_pids s !! i = Some p → code_ok (k_sems s) i p
}.

(** ** User processes *)

(** No two addresses of an address space share a byte. *)
Definition unshared (a : addrspace) : Prop :=
  ∀ v w p, translate a v = Some p → translate a w = Some p → v = w.

(** A loaded address space in memory below [lim], small enough for the TLB. *)
Definition space_wf (lim : Z) (a : addrspace) : Prop :=
  as_wf lim a ∧ as_npages1 a + as_npages2 a + DUMBVM_STACKPAGES ≤ Z.of_nat NUM_TLB ∧ unshared a.

(** No byte of memory belongs to both. *)
Definition apart (a b : addrspace) : Prop :=
  ∀ v w p, translate a v = Some p → translate b w = Some p → False.

Definition ram_ok (u : ustate) : Prop :=
  0 < u_firstpaddr u ≤ u_lastpaddr u ∧ u_firstpaddr u mod 4096 = 0 ∧
  u_lastpaddr u ≤ u_ramsize u ≤ 532676608.

(** [c] is what is known of address space [a]: all of it, or what is in its
    memory. *)
Definition holds (u : ustate) (a : addrspace) (c : content) : Prop :=
  match c with
  | Raw b => a = b ∧ as_stackpbase a = 0
  | Loaded m => space_wf (u_firstpaddr u) a ∧ ∀ v, m v = u_pmem u <$> translate a v
  end.

(** The valid entries are for different pages. *)
Definition tlb_clean (t : list (Z * Z)) : Prop :=
  ∀ i hi lo, t !! i = Some (hi, lo) → Z.land lo TLBLO_VALID ≠ 0 →
    (is_u32 hi ∧ hi mod 4096 = 0) ∧
    ∀ j lo', t !! j = Some (hi, lo') → Z.land lo' TLBLO_VALID ≠ 0 → i = j.

Definition tlb_empty (t : list (Z * Z)) : Prop := ∀ i hi lo, t !! i = Some (hi, lo) → Z.land lo TLBLO_VALID = 0.

(** Every process has an address space of its own, in memory of its own; a
    zombie has none.  The TLB agrees with the address space it was last
    cleared for; there are no entries for one that has no memory yet. *)
Record user_ok (rs lz : list Z) (E : ghost) (m : gmap Z thread) (nxt : Z) (t : list (Z * Z)) (u : ustate) : Prop := {
  uo_space : ∀ x th, m !! x = Some th → t_vmspace th = p_space (E x);
  uo_dead : ∀ x th, x ∈ lz → m !! x = Some th → t_vmspace th = 0;
  uo_valid : ∀ x c, p_mem (E x) = Some c → p_space (E x) ≠ 0 ∧ ∃ a, u_spaces u !! p_space (E x) = Some a ∧ holds u a c;
  uo_uniq : ∀ x y, x ≠ y → p_space (E x) ≠ 0 → p_space (E x) ≠ p_space (E y);
  uo_apart : ∀ x y m m' a b, x ≠ y → p_mem (E x) = Some (Loaded m) → p_mem (E y) = Some (Loaded m') →
    u_spaces u !! p_space (E x) = Some a → u_spaces u !! p_space (E y) = Some b → apart a b;
  uo_act : ∀ x, p_act (E x) = true → x ∈ rs ∧ p_space (E x) ≠ 0 ∧ u_active u = p_space (E x);
  uo_tlb : length t = NUM_TLB ∧ tlb_clean t ∧
    ∀ a, u_spaces u !! u_active u = Some a → tlb_ok a t ∧ (as_stackpbase a = 0 → tlb_empty t);
  uo_ram : ram_ok u;
  uo_fresh : u_active u < nxt ∧ ∀ x, is_Some (u_spaces u !! x) → x < nxt;
  uo_vm : ∀ x, p_space (E x) < nxt;
  uo_some : ∀ x, p_space (E x) ≠ 0 → is_Some (p_mem (E x))
}.

Section Invariant.
(** The synchronization objects the threads share, and the boot thread. *)
Context (SEMS LOCKS CVS : gset Z) (BOOT : Z).

Record static_ok (E : ghost) (s : kstate) : Prop := {
  st_sems : ∀ a, a ∈ SEMS → is_Some (k_sems s !! a);
  st_locks : ∀ a, a ∈ LOCKS → is_Some (k_locks s !! a);
  st_cvs : ∀ a, a ∈ CVS → 16 ≤ a < k_next s ∧ k_sems s !! a = None ∧ k_locks s !! a = None;
  st_known : ∀ u i a, p_node (E u) = Some (i, a) → ∃ p, k_pids s !! i = Some p ∧ parentSem p = a;
  st_boot : p_stat (E BOOT) = PLive
}.

(** The invariant.  [i_orc]: memory does not run out, no [kmalloc] to come
    fails; the kernel does not survive it everywhere ([append_pid]). *)
Record Inv (x : Z) (rs ls lr lz : list Z) (E : ghost) (s : kstate) : Prop := {
  i_lists : lists s ls lr lz;
  i_placed : placed rs ls lr lz E (k_numthreads s);
  i_heap : heaped x ls lr lz rs E (k_threads s);
  i_sleep : sleepers_ok ls s;
  i_sems : sems_ok (k_sems s);
  i_locks : locks_ok E (k_locks s);
  i_fresh : fresh_ok E s;
  i_pids : pids_ok SEMS BOOT lz s;
  i_static : static_ok E s;
  i_cpu : cpu_wf (k_cpu s);
  i_orc : k_orc s = [];
  i_user : user_ok rs lz E (k_threads s) (k_next s) (k_tlb s) (k_user s)
}.

(** The states in which thread [t] runs, in which the scheduler runs on
    [t]'s stack, and in which [t] comes back from it. *)
Definition I_run (t : Z) (E : ghost) (s : kstate) : Prop :=
  k_curthread s = t ∧ k_in_interrupt s = p_int (E t) ∧ t ≠ 0 ∧
  ∃ ls lr lz, Inv t [t] ls lr lz E s.

Definition I_sched (t : Z) (E : ghost) (s : kstate) : Prop :=
  k_curthread s = 0 ∧ k_in_interrupt s = p_int (E t) ∧ curspl (k_cpu s) = SPL_HIGH ∧
  is_Some (k_threads s !! t) ∧ p_stat (E t) ≠ PNone ∧
  ∃ ls lr lz, Inv t [] ls lr lz E s.

Definition I_resume (t : Z) (E : ghost) (s : kstate) : Prop :=
  I_run t E s ∧ curspl (k_cpu s) = SPL_HIGH.

(** The limits beyond which counters would wrap. *)
Definition exhausted (s : kstate) : Prop :=
  thread_lim ≤ k_numthreads s ∨
  (∃ a, k_zombies s = Some a ∧ thread_lim ≤ array_getnum a) ∨
  (∃ a x, k_sems s !! a = Some x ∧ sem_count x = INT_MAX) ∨
  INT_MAX ≤ Z.of_nat (length (k_pids s)).

(** ** Preservation of the parts *)

(** The same address spaces, with other lists, structures or bookkeeping. *)
Lemma user_ok_step rs lz E m nxt rs' lz' E' m' nxt' t u :
  user_ok rs lz E m nxt t u →
  (∀ x, p_space (E' x) = p_space (E x) ∧ p_mem (E' x) = p_mem (E x)) →
  (∀ x, p_act (E' x) = true → p_act (E x) = true ∧ (x ∈ rs → x ∈ rs')) →
  (∀ x th', m' !! x = Some th' →
     ((∃ th, m !! x = Some th ∧ t_vmspace th' = t_vmspace th) ∨ t_vmspace th' = 0 ∧ p_space (E x) = 0) ∧
     (x ∈ lz' → t_vmspace th' = 0)) →
  0 < nxt ≤ nxt' → user_ok rs' lz' E' m' nxt' t u.
Proof.
  intros [U1 U2 U3 Uq U4 U5 U6 U7 [U8 U9] U10 Un] Hsp Hact Hm Hn. split; try done.
  - intros x th Hth. rewrite (proj1 (Hsp x)). destruct (Hm x th Hth) as [[(th0 & Hth0 & ->)|[-> ->]] _]; [|done]. by apply U1.
  - intros x th Hx Hth. by apply (Hm x th Hth).
  - intros x mm. destruct (Hsp x) as [-> ->]. apply U3.
  - intros x y. rewrite (proj1 (Hsp x)), (proj1 (Hsp y)). apply Uq.
  - intros x y mm mm' a b. destruct (Hsp x) as [-> ->], (Hsp y) as [-> ->]. apply U4.
  - intros x Hx. rewrite (proj1 (Hsp x)). destruct (Hact x Hx) as [Hx' Hr]. destruct (U5 x Hx') as (? & ? & ?). auto.
  - split; [lia|]. intros x Hx. specialize (U9 x Hx). lia.
  - intros x. rewrite (proj1 (Hsp x)). specialize (U10 x). lia.
  - intros x. destruct (Hsp x) as [-> ->]. apply Un.
Qed.

Lemma user_ok_ext rs lz E E' m nxt t u :
  user_ok rs lz E m nxt t u → 0 < nxt → (∀ x, p_space (E' x) = p_space (E x) ∧ p_mem (E' x) = p_mem (E x) ∧ p_act (E' x) = p_act (E x)) → user_ok rs lz E' m nxt t u.
Proof.
  intros HU Hn Hx. apply (user_ok_step rs lz E m nxt); [done| | | |lia].
  - intros x. by destruct (Hx x) as (? & ? & _).
  - intros x. destruct (Hx x) as (_ & _ & ->). auto.
  - intros x th Hth. split; [eauto|]. intros Hz. by apply (uo_dead _ _ _ _ _ _ _ HU x).
Qed.

Lemma user_ok_put rs lz E m nxt t u x th th' :
  user_ok rs lz E m nxt t u → 0 < nxt → m !! x = Some th → t_vmspace th' = t_vmspace th → user_ok rs lz E (<[x := th']> m) nxt t u.
Proof.
  intros HU Hn Hth Hv. apply (user_ok_step rs lz E m nxt); [done|done|auto| |lia].
  intros y th2. rewrite lookup_insert_Some. intros [[<- <-]|[_ Hy]].
  - split; [eauto|]. intros Hz. rewrite Hv. by apply (uo_dead _ _ _ _ _ _ _ HU x).
  - split; [eauto|]. intros Hz. by apply (uo_dead _ _ _ _ _ _ _ HU y).
Qed.

Lemma user_ok_next rs lz E m nxt nxt' t u : user_ok rs lz E m nxt t u → 0 < nxt ≤ nxt' → user_ok rs lz E m nxt' t u.
Proof.
  intros HU Hn. apply (user_ok_step rs lz E m nxt); [done|done|auto| |done]. intros x th Hth. split; [eauto|]. intros Hz. by apply (uo_dead _ _ _ _ _ _ _ HU x).
Qed.

Lemma heaped_put x x' ls lr lz rs ls' lr' lz' rs' E m t th th' :
  heaped x ls lr lz rs E m → m !! t = Some th → th_ok th' →
  (∀ u, u ∈ rs' ++ ls' ++ lr' ++ lz' → u ∈ rs ++ ls ++ lr ++ lz) →
  (t ≠ x' → p_stat (E t) = PLive → pcb_ininterrupt th' = p_int (E t)) →
  (E t = p0 → pcb_ininterrupt th' = pcb_ininterrupt th) →
  (∀ u, u ≠ t → u ≠ x' → p_stat (E u) = PLive → u ≠ x) →
  heaped x' ls' lr' lz' rs' E (<[t := th']> m).
Proof.
  intros [H1 H2 H3 H4 H5] Ht Hok Hsub Hint Hdead Hx. split.
  - intros u Hu. apply lookup_insert_is_Some. destruct (decide (t = u)); [by left|right].
    split; [done|]. auto.
  - intros u thu. rewrite lookup_insert_Some. intros [[<- <-]|[? Hu]]; [done|by eapply H2].
  - intros u thu Hux. rewrite lookup_insert_Some. intros [[<- <-]|[Hne Hu]] Hl; [auto|].
    eapply H3; [|done|done]. apply Hx; [congruence|done|done].
  - intros u e b He. destruct (H4 u e b He) as ((the & Hthe & Hint') & Hp & Hlive).
    split; [|done]. destruct (decide (e = t)) as [->|].
    + exists th'. rewrite lookup_insert_eq. split; [done|]. rewrite Hdead by done. by simplify_eq.
    + exists the. by rewrite lookup_insert_ne.
  - done.
Qed.

Lemma sleepers_ok_put ls s t th th' :
  sleepers_ok ls s → k_threads s !! t = Some th → t_sleepaddr th' = t_sleepaddr th →
  sleepers_ok ls (set_threads (λ m, <[t := th']> m) s).
Proof.
  intros H Ht Hsl u thu Hu. simpl. rewrite lookup_insert_Some.
  intros [[<- <-]|[? Hlk]]; [rewrite Hsl; by apply (H t)|by apply (H u)].
Qed.

Lemma fresh_ok_put E s t th th' :
  fresh_ok E s → k_threads s !! t = Some th →
  fresh_ok E (set_threads (λ m, <[t := th']> m) s).
Proof.
  intros [H1 H2 H3 H4 H5 H6] Ht. split; simpl; try done.
  intros u. rewrite lookup_insert_is_Some. intros [<-|[_ Hu]]; apply H2; eauto.
Qed.

Lemma pids_ok_put lz s t th th' :
  pids_ok SEMS BOOT lz s → k_threads s !! t = Some th → pidValue th' = pidValue th →
  pids_ok SEMS BOOT lz (set_threads (λ m, <[t := th']> m) s).
Proof.
  intros [H1 H2 H3 H3' H4] Ht Hp. split; simpl; try done.
  - intros i p Hi Hi1. destruct (H3 i p Hi Hi1) as (? & x & ? & Hup). split; [done|].
    exists x. split; [done|]. intros [?|(u & thu & Hu & Hlk & Ei)]; apply Hup; [by left|right].
    revert Hlk. rewrite lookup_insert_Some. intros [[<- <-]|[? Hlk]]; [exists t, th|exists u, thu]; [|done].
    by rewrite <- Hp.
  - intros u thu. rewrite lookup_insert_Some. intros [[<- <-]|[? Hlk]]; [rewrite Hp|]; by apply H4.
Qed.

End Invariant.
