(* ===== verification/Logic.v ===== *)
(** A small program logic for kernel code.

    [wp t c Q E s]: thread [t] can run [c] from state [s]; it meets no
    failed assertion and no undefined behaviour, it restores the invariant
    wherever another thread or an interrupt can come in, and if it returns,
    [Q] holds.  Nothing is promised from states that have exhausted a
    counter.  Safety.v shows that a machine whose threads all have such a
    proof keeps running. *)

From Stdlib Require Import ZArith Lia.
From stdpp Require Import base numbers list option gmap.
From S2P Require Import Prelude Array Queue Cpu Vm Kernel Thread Machine ThreadOps ThreadInv.

Open Scope Z_scope.

Section Logic.
Context (SEMS LOCKS CVS : gset Z) (BOOT : Z).

#[local] Abbreviation I_run := (I_run SEMS LOCKS CVS BOOT).
#[local] Abbreviation I_sched := (I_sched SEMS LOCKS CVS BOOT).
#[local] Abbreviation I_resume := (I_resume SEMS LOCKS CVS BOOT).

Definition ints_on (s : kstate) : Prop := ints_enabled (k_cpu s) = true.

(** With interrupts on, what holds now must hold in every state other
    threads can leave behind. *)
Definition stable (t : Z) (E : ghost) (s : kstate) (Φ : ghost → kstate → Prop) : Prop :=
  (ints_enabled (k_cpu s) = false → Φ E s) ∧
  (ints_enabled (k_cpu s) = true →
     I_run t E s ∧
     ∀ E' s', E' t = E t → I_run t E' s' → ints_enabled (k_cpu s') = true → Φ E' s').

(** What one thread's step may do to the bookkeeping: change its own entry,
    and bring the thread it has prepared to life. *)
Definition gstep (t : Z) (E E' : ghost) : Prop :=
  (∀ u, u ≠ t →
     E' u = E u ∨
     (p_emb (E t) = Some (u, true) ∧ p_emb (E' t) = None ∧ E u = p0 ∧ E' u = newborn (p_kid (E t)))) ∧
  (∀ e, p_emb (E' t) = Some (e, true) → p_emb (E t) = Some (e, true) ∧ p_kid (E' t) = p_kid (E t)) ∧
  (p_stat (E t) = PLive → p_stat (E' t) ≠ PNone).

Definition with_emb (p : priv) (e : option (Z * bool)) : priv :=
  mkPriv (p_stat p) e (p_held p) (p_int p) (p_node p) (p_space p) (p_mem p) (p_kid p) (p_act p).

Fixpoint wp (t : Z) (c : kcode) (Q : Z → ghost → kstate → Prop) (E : ghost) (s : kstate)
    {struct c} : Prop :=
  match c with
  | Done r => Q r E s
  | Act f k => stable t E s (λ E s,
      exhausted s ∨
      ∃ x s' E', f s = Ret (x, s') ∧ gstep t E E' ∧ wp t (k x) Q E' s')
  | While b body k => ∃ L : ghost → kstate → Prop, L E s ∧
      ∀ E s, L E s → ints_enabled (k_cpu s) = false ∧
        ∃ v, b s = Ret (v, s) ∧
          if v then wp t body (λ _, L) E s else wp t k Q E s
  | InitPcb e start k => stable t E s (λ E s,
      p_emb (E t) = Some (e, false) ∧ E e = p0 ∧
      (∀ u b, p_emb (E u) = Some (e, b) → u = t) ∧
      (∀ E' s', E' e = newborn (p_kid (E t)) → I_resume e E' s' → wp e start (λ _ _ _, True) E' s') ∧
      wp t k Q (upd E t (with_emb (E t) (Some (e, true)))) s)
  | Sched cur k => cur = t ∧ I_sched t E s ∧
      (p_stat (E t) = PLive →
       ∀ E' s', E' t = E t → I_resume t E' s' → wp t k Q E' s')
  end.

(** ** Structural rules *)

Lemma stable_mono t E s (Φ Ψ : ghost → kstate → Prop) :
  (∀ E s, Φ E s → Ψ E s) → stable t E s Φ → stable t E s Ψ.
Proof. unfold stable. naive_solver. Qed.

Lemma wp_mono t c (Q Q' : Z → ghost → kstate → Prop) E s :
  (∀ r E s, Q r E s → Q' r E s) → wp t c Q E s → wp t c Q' E s.
Proof.
  intros HQ. revert E s Q Q' HQ. induction c as [r|f k IH|b body IHb k IHk|e start IHs k IHk|cur k IH];
    intros E s Q Q' HQ H; simpl in *; [by apply HQ| | | |].
  - eapply stable_mono; [|exact H]. intros E1 s1 [?|(x & s' & E' & ? & ? & Hw)]; [by left|].
    right. exists x, s', E'. split_and!; [done..|]. by eapply IH.
  - destruct H as (L & HL & Hstep). exists L. split; [done|]. intros E1 s1 H1.
    destruct (Hstep E1 s1 H1) as (Hi & v & Hb & Hv). split; [done|]. exists v. split; [done|].
    destruct v; [done|]. by eapply IHk.
  - eapply stable_mono; [|exact H]. intros E1 s1 (? & ? & ? & ? & Hw). split_and!; [done..|].
    by eapply IHk.
  - destruct H as (? & ? & Hw). split_and!; [done..|]. intros Hl E1 s1 HE HI.
    eapply IH; [exact HQ|]. by apply Hw.
Qed.

Lemma wp_bind t c k Q E s :
  wp t c (λ r E s, wp t (k r) Q E s) E s → wp t (kbind c k) Q E s.
Proof.
  revert E s. induction c as [r|f k' IH|b body IHb k' IHk|e start IHs k' IHk|cur k' IH];
    intros E s H; simpl in *; [done| | | |].
  - eapply stable_mono; [|exact H]. intros E1 s1 [?|(x & s' & E' & ? & ? & Hw)]; [by left|].
    right. exists x, s', E'. split_and!; [done..|]. by apply IH.
  - destruct H as (L & HL & Hstep). exists L. split; [done|]. intros E1 s1 H1.
    destruct (Hstep E1 s1 H1) as (Hi & v & Hb & Hv). split; [done|]. exists v. split; [done|].
    destruct v; [done|]. by apply IHk.
  - eapply stable_mono; [|exact H]. intros E1 s1 (? & ? & ? & ? & Hw). split_and!; [done..|].
    by apply IHk.
  - destruct H as (? & ? & Hw). split_and!; [done..|]. intros Hl E1 s1 HE HI.
    apply IH. by apply Hw.
Qed.

Lemma gstep_refl t E : gstep t E E.
Proof. split_and!; [by left|done|]. by intros ->. Qed.

Lemma gstep_upd t E p :
  (∀ e, p_emb p = Some (e, true) → p_emb (E t) = Some (e, true) ∧ p_kid p = p_kid (E t)) →
  (p_stat (E t) = PLive → p_stat p ≠ PNone) → gstep t E (upd E t p).
Proof.
  intros H1 H2. split_and!.
  - intros u Hu. left. by apply upd_ne.
  - intros e. rewrite upd_eq. apply H1.
  - by rewrite upd_eq.
Qed.

Lemma wp_done t r (Q : Z → ghost → kstate → Prop) E s : Q r E s → wp t (Done r) Q E s.
Proof. done. Qed.

(** An uninterrupted piece, run with interrupts off. *)
Lemma wp_act_off t f k Q E s :
  ints_enabled (k_cpu s) = false →
  (exhausted s ∨ ∃ x s' E', f s = Ret (x, s') ∧ gstep t E E' ∧ wp t (k x) Q E' s') →
  wp t (Act f k) Q E s.
Proof. intros Hoff H. simpl. split; intros H'; [done|congruence]. Qed.

(** One run with interrupts on: any state of the invariant may be found. *)
Lemma wp_act_on t f k Q E s :
  I_run t E s → ints_on s →
  (∀ E' s', E' t = E t → I_run t E' s' → ints_on s' →
     exhausted s' ∨ ∃ x s2 E2, f s' = Ret (x, s2) ∧ gstep t E' E2 ∧ wp t (k x) Q E2 s2) →
  wp t (Act f k) Q E s.
Proof. intros HI Hon H. simpl. split; intros H'; [congruence|]. by split. Qed.

(** Code proved from one interruptible state works from all of them. *)
Lemma wp_stable t c Q E s :
  wp t c Q E s → ints_on s → (∀ r, c ≠ Done r) →
  (∀ cur k, c ≠ Sched cur k) →
  I_run t E s ∧
  ∀ E' s', E' t = E t → I_run t E' s' → ints_on s' → wp t c Q E' s'.
Proof.
  intros H Hon Hd Hs. destruct c as [r|f k|b body k|e start k|cur k]; simpl in *.
  - by destruct (Hd r).
  - destruct H as [_ H]. destruct (H Hon) as [HI Hall]. split; [done|].
    intros E' s' HE HI' Hon'. split; intros H'; [congruence|]. split; [done|].
    intros E2 s2 HE2 HI2 Hon2. apply Hall; congruence.
  - destruct H as (L & HL & H). destruct (H E s HL) as [? _]. unfold ints_on in Hon. congruence.
  - destruct H as [_ H]. destruct (H Hon) as [HI Hall]. split; [done|].
    intros E' s' HE HI' Hon'. split; intros H'; [congruence|]. split; [done|].
    intros E2 s2 HE2 HI2 Hon2. apply Hall; congruence.
  - by destruct (Hs cur k).
Qed.

(** ** The scheduler *)

Lemma runqueue_empty_ok t E s ls lr lz :
  Inv SEMS LOCKS CVS BOOT t [] ls lr lz E s → runqueue_empty s = bool_decide (lr = []).
Proof.
  intros HI. destruct (l_runqueue _ _ _ _ (i_lists _ _ _ _ _ _ _ _ _ _ _ HI)) as (q & Hq & Hr & _).
  unfold runqueue_empty. rewrite Hq. by apply q_empty_ok.
Qed.

Lemma switch_ok cur E s ls next lr lz :
  I_sched cur E s → Inv SEMS LOCKS CVS BOOT cur [] ls (next :: lr) lz E s →
  ∃ s', switch_to_next cur s = Ret (next, s') ∧ I_resume next E s' ∧ p_stat (E next) = PLive.
Proof.
  intros (Hc & Hi & Hspl & [thc Hthc] & Hstat & _) HI.
  destruct HI as [Hl Hp Hh Hs Hsm Hlk Hf Hpd Hst Hcpu Ho Hus].
  destruct Hl as [Hsl (q & Hq & Hr & Hqs) Hz].
  destruct (q_remhead_ok q next lr Hr) as (q' & E1 & Hr' & Hqs').
  assert (p_stat (E next) = PLive) as Hlive by (apply (pl_live _ _ _ _ _ _ Hp); set_solver).
  assert (is_Some (k_threads s !! next)) as [thn Hthn].
  { apply (h_listed _ _ _ _ _ _ _ Hh). set_solver. }
  pose proof (f_next _ _ Hf) as Hnx.
  assert (next ≠ 0) as Hn0 by (pose proof (f_threads _ _ Hf next ltac:(eauto)); lia).
  set (s1 := set_curthread next (set_runqueue (Some q') s)).
  assert (∀ s2, k_curthread s2 = next → k_in_interrupt s2 = p_int (E next) →
    (∃ m, s2 = set_in_interrupt (k_in_interrupt s2) (set_threads (λ _, m) s1) ∧
       heaped next ls lr lz [next] E m ∧ sleepers_ok ls (set_threads (λ _, m) s) ∧
       fresh_ok E (set_threads (λ _, m) s) ∧ pids_ok SEMS BOOT lz (set_threads (λ _, m) s) ∧
       user_ok [] lz E m (k_next s) (k_tlb s) (k_user s)) →
    I_resume next E s2) as Hres.
  { intros s2 Hc2 Hi2 (m & -> & Hm1 & Hm2 & Hm3 & Hm4 & Hm5). split; [|done].
    split; [done|]. split; [done|]. split; [done|]. exists ls, lr, lz.
    destruct Hp as [Hnd Hnum Hlv Hd]. split; try done.
    - split; [done|exists q'; split; [done|]; split; [done|by rewrite Hqs']|done].
    - split; simpl.
      + eapply NoDup_Permutation_proper; [|exact Hnd]. simpl. solve_Permutation.
      + rewrite Hnum. simpl. rewrite !length_app. simpl. lia.
      + intros u. rewrite Hlv. set_solver.
      + done.
    - by destruct Hm3.
    - by destruct Hm4.
    - destruct Hst. by split.
    - eapply user_ok_step; [exact Hm5|done| | |simpl; lia].
      + intros u Hu. by destruct (uo_act _ _ _ _ _ _ _ Hm5 u Hu) as (?%elem_of_nil & _).
      + intros u th Hth. split; [eauto|]. intros Hz'. by apply (uo_dead _ _ _ _ _ _ _ Hm5 u). }
  assert (switch_to_next cur s = (md_switch cur next ≫= λ _, mret next) s1) as Esw.
  { unfold switch_to_next, get_runqueue. kgo. rewrite (K_bind_lift (next, q')) by done. done. }
  rewrite Esw. unfold md_switch. destruct (Z.eqb_spec cur next) as [->|Hne].
  - eexists; split; [done|]. split; [|done]. apply Hres; [done|done|].
    exists (k_threads s). split; [by destruct s|]. split_and!; [|by destruct s..].
    destruct Hh as [A1 A2 A3 A4 A5]. split; [|done..]. set_solver.
  - kgo. rewrite (get_thread_bind _ thc) by done. kgo.
    unfold put_thread. kgo. rewrite (get_thread_bind _ thn).
    2:{ simpl. by rewrite lookup_insert_ne. }
    eexists; split; [done|]. split; [|done].
    assert (pcb_ininterrupt thn = p_int (E next)) as Hpn
      by (eapply (h_int _ _ _ _ _ _ _ Hh); done).
    apply Hres; [done|done|].
    exists (<[cur := with_ininterrupt (k_in_interrupt s) thc]> (k_threads s)).
    split; [by destruct s|]. pose proof (h_ok _ _ _ _ _ _ _ Hh _ _ Hthc) as Hokc. split_and!.
    + eapply heaped_put; [exact Hh|done|done|set_solver|done| |congruence].
      intros Hp0. by rewrite Hp0 in Hstat.
    + by eapply sleepers_ok_put.
    + by eapply fresh_ok_put.
    + by eapply pids_ok_put.
    + eapply user_ok_put; [done|lia|done|done].
Qed.

End Logic.
#[global] Arguments wp : simpl never.
