(* ===== verification/SynchProofs.v ===== *)
(** The invariant through the synchronization primitives: switching away
    and back, sleeping, semaphores, locks and condition variables, as rules
    of the logic. *)

From Stdlib Require Import ZArith Lia.
From stdpp Require Import base numbers list option gmap.
From S2P Require Import Prelude Array Queue Cpu Vm Kernel Thread Machine ThreadOps ThreadInv.
From S2P Require Import Logic.

Open Scope Z_scope.

Lemma wake_perm (f : Z → bool) ls lr :
  filter (λ t, f t = false) ls ++ (lr ++ filter (λ t, f t = true) ls) ≡ₚ ls ++ lr.
Proof.
  induction ls as [|t ls IH]; simpl; [by rewrite app_nil_r|].
  rewrite !filter_cons. destruct (f t) eqn:Ef.
  - rewrite decide_False, decide_True by congruence.
    by rewrite app_assoc, <- Permutation_middle, <- app_assoc, IH.
  - rewrite decide_True, decide_False by congruence. simpl. by rewrite IH.
Qed.

Section Synch.
Context (SEMS LOCKS CVS : gset Z) (BOOT : Z).

#[local] Abbreviation Inv := (Inv SEMS LOCKS CVS BOOT).
#[local] Abbreviation I_run := (I_run SEMS LOCKS CVS BOOT).
#[local] Abbreviation I_sched := (I_sched SEMS LOCKS CVS BOOT).
#[local] Abbreviation I_resume := (I_resume SEMS LOCKS CVS BOOT).
#[local] Abbreviation wp := (wp SEMS LOCKS CVS BOOT).

(** ** Wake-ups *)

(** Moving threads from the sleepers to the run queue. *)
Lemma placed_wake rs ls lr lz ls' lr' E n :
  placed rs ls lr lz E n → ls' ++ lr' ≡ₚ ls ++ lr → placed rs ls' lr' lz E n.
Proof.
  intros [H1 H2 H3 H4] Hp. split; [| | |done].
  - rewrite (app_assoc ls'), Hp, <- app_assoc. done.
  - by rewrite Hp.
  - intros t. by rewrite Hp.
Qed.

Lemma heaped_wake x rs ls lr lz ls' lr' E m :
  heaped x ls lr lz rs E m → ls' ++ lr' ≡ₚ ls ++ lr → heaped x ls' lr' lz rs E m.
Proof.
  intros [H1 H2 H3 H4 H5] Hp. split; [|done..].
  intros t. rewrite (app_assoc ls'), Hp, <- app_assoc. apply H1.
Qed.

(** The counters that bound the lists. *)
Lemma Inv_bounds x rs ls lr lz E s :
  Inv x rs ls lr lz E s → k_numthreads s < thread_lim →
  2 * (Z.of_nat (length lr + length ls) + 4) < queue_lim ∧
  Z.of_nat (length ls) + 1 < array_lim ∧
  (∀ t, t ∈ ls → is_Some (k_threads s !! t)).
Proof.
  intros HI Hn. rewrite (pl_num _ _ _ _ _ _ (i_placed _ _ _ _ _ _ _ _ _ _ _ HI)) in Hn.
  rewrite !length_app in Hn. unfold thread_lim, queue_lim, array_lim in *.
  split_and!; [lia|lia|]. intros t Ht. apply (h_listed _ _ _ _ _ _ _ (i_heap _ _ _ _ _ _ _ _ _ _ _ HI)).
  set_solver.
Qed.

Lemma sleeps_on_filter m addr (ls : list Z) t th :
  t ∈ filter (λ t, sleeps_on m addr t = false) ls → m !! t = Some th →
  t ∈ ls ∧ t_sleepaddr th ≠ addr.
Proof.
  rewrite list_elem_of_filter. unfold sleeps_on. intros [H Ht] Hth. rewrite Hth in H.
  split; [done|]. by apply Z.eqb_neq.
Qed.

Lemma Inv_wakeup addr x rs ls lr lz E s :
  Inv x rs ls lr lz E s → k_numthreads s < thread_lim → 0 < curspl (k_cpu s) →
  ∃ s' ls' lr', thread_wakeup addr s = Ret (tt, s') ∧ Inv x rs ls' lr' lz E s' ∧
    k_curthread s' = k_curthread s ∧ k_in_interrupt s' = k_in_interrupt s ∧ k_cpu s' = k_cpu s ∧
    k_threads s' = k_threads s.
Proof.
  intros HI Hn Hspl. destruct (Inv_bounds _ _ _ _ _ _ _ HI Hn) as (B1 & B2 & B3).
  destruct HI as [[(a & Ha & Har) (q & Hq & Hqr & Hqs) Hz] Hp Hh Hs Hsm Hlk Hf Hpd Hst Hcpu Ho Hus].
  destruct (thread_wakeup_ok addr s a q ls lr) as (a' & q' & E1 & R1 & R2 & R3); try done; [lia|].
  eexists _, (filter (λ t, sleeps_on (k_threads s) addr t = false) ls),
    (lr ++ filter (λ t, sleeps_on (k_threads s) addr t = true) ls).
  split; [exact E1|]. split; [|done].
  pose proof (wake_perm (sleeps_on (k_threads s) addr) ls lr) as Hperm.
  split; simpl; try done.
  - split; [by exists a'|by exists q'|done].
  - by eapply placed_wake.
  - by eapply heaped_wake.
  - intros t th Ht Hth. apply (Hs t th); [|done].
    by eapply list_elem_of_filter in Ht as [_ ?].
  - by destruct Hf.
  - by destruct Hpd.
  - by destruct Hst.
Qed.

(** A process whose semaphore this is has its exit code. *)
Definition sem_known (sem : Z) (s : kstate) : Prop :=
  ∀ i p, k_pids s !! i = Some p → (1 ≤ i)%nat → parentSem p = sem → is_Some (exitCode p).

Lemma sem_known_shared sem x rs ls lr lz E s : Inv x rs ls lr lz E s → sem ∈ SEMS → sem_known sem s.
Proof.
  intros HI Hin i p Hp Hi E1. destruct (pd_sem _ _ _ _ (i_pids _ _ _ _ _ _ _ _ _ _ _ HI) i p Hp Hi) as [Hn _].
  destruct Hn. by rewrite E1.
Qed.

(** Raising a semaphore wakes everyone who sleeps on it. *)
Lemma Inv_V sem y x rs ls lr lz E s :
  Inv x rs ls lr lz E s → k_numthreads s < thread_lim →
  k_sems s !! sem = Some y → sem_count y < INT_MAX → sem_known sem s →
  ∃ s' ls' lr', V sem s = Ret (tt, s') ∧ Inv x rs ls' lr' lz E s' ∧
    k_curthread s' = k_curthread s ∧ k_in_interrupt s' = k_in_interrupt s ∧ k_cpu s' = k_cpu s ∧
    k_threads s' = k_threads s ∧ k_numthreads s' = k_numthreads s ∧ k_pids s' = k_pids s ∧
    k_sems s' = <[sem := mkSem (sem_count y + 1)]> (k_sems s).
Proof.
  intros HI Hn Hy Hmax Hkn. destruct (Inv_bounds _ _ _ _ _ _ _ HI Hn) as (B1 & B2 & B3).
  destruct HI as [[(a & Ha & Har) (q & Hq & Hqr & Hqs) Hz] Hp Hh Hs Hsm Hlk Hf Hpd Hst Hcpu Ho Hus].
  pose proof (Hsm sem y Hy) as Hc.
  assert (sem ≠ 0) by (pose proof (f_sems _ _ Hf sem ltac:(eauto)); lia).
  destruct (V_ok sem y s a q ls lr) as (a' & q' & E1 & R1 & R2 & R3); try done; [lia|lia|].
  eexists _, (filter (λ t, sleeps_on (k_threads s) sem t = false) ls),
    (lr ++ filter (λ t, sleeps_on (k_threads s) sem t = true) ls).
  split; [exact E1|]. split; [|done].
  pose proof (wake_perm (sleeps_on (k_threads s) sem) ls lr) as Hperm.
  split; simpl; try done.
  - split; [by exists a'|by exists q'|done].
  - by eapply placed_wake.
  - by eapply heaped_wake.
  - intros t th Ht Hth. simpl in *. destruct (sleeps_on_filter _ _ _ _ _ Ht Hth) as [Ht' Hne].
    destruct (Hs t th Ht' Hth) as (S1 & S2 & S3). split; [done|]. split; [|done].
    intros z. rewrite lookup_insert_ne by done. apply S2.
  - intros b z. rewrite lookup_insert_Some. intros [[<- <-]|[_ Hz']]; [simpl; lia|by eapply Hsm].
  - destruct Hf as [F1 F2 F3 F4 F5 F6]. split; simpl; try done.
    + intros b. rewrite lookup_insert_is_Some. intros [<-|[_ ?]]; apply F3; eauto.
    + intros b. rewrite lookup_insert_is_Some. intros [<-|[_ ?]]; apply F5; eauto.
  - destruct Hpd as [P1 P2 P3 P4 P5 P6]. split; simpl; try done.
    + intros i p Hpi Hi. destruct (P3 i p Hpi Hi) as (Hns & z & Hz' & Hup). split; [done|].
      destruct (decide (sem = parentSem p)) as [->|].
      * exists (mkSem (sem_count y + 1)). rewrite lookup_insert_eq. split; [done|]. simpl. lia.
      * exists z. by rewrite lookup_insert_ne.
    + intros i p Hpi. destruct (P6 i p Hpi) as (C1 & C2 & C3). split_and!; [done|done|]. intros Hi x0.
      rewrite lookup_insert_Some. intros [[E2 _]|[_ Hx0]]; [|by apply C3]. intros _. by apply (Hkn i p).
  - destruct Hst as [T1 T2 T3 T4 T5]. split; simpl; try done.
    + intros b Hb. apply lookup_insert_is_Some. destruct (decide (sem = b)); [by left|right; auto].
    + intros b Hb. destruct (T3 b Hb) as (? & ? & ?). split_and!; [lia|lia| |done].
      rewrite lookup_insert_ne; [done|congruence].
Qed.

(** Changing what a living thread holds or knows. *)
Definition same_role (p p' : priv) : Prop :=
  p_stat p' = p_stat p ∧ p_emb p' = p_emb p ∧ p_int p' = p_int p.

Lemma ghost_placed rs ls lr lz E n t p :
  same_role (E t) p → placed rs ls lr lz E n → placed rs ls lr lz (upd E t p) n.
Proof.
  intros (R1 & R2 & R3) [H1 H2 H3 H4]. split; [done|done| |].
  - intros u. unfold upd. destruct (Z.eqb_spec u t) as [->|]; [rewrite R1|]; apply H3.
  - intros u Hu. unfold upd. destruct (Z.eqb_spec u t) as [->|]; [rewrite R1|]; by apply H4.
Qed.

Lemma ghost_heaped x rs ls lr lz E m t p :
  same_role (E t) p → p_stat (E t) = PLive →
  heaped x ls lr lz rs E m → heaped x ls lr lz rs (upd E t p) m.
Proof.
  intros (R1 & R2 & R3) Hl [H1 H2 H3 H4 H5]. split; [done|done| | |].
  - intros u th Hu Hth. unfold upd. destruct (Z.eqb_spec u t) as [->|]; [rewrite R1, R3|]; by apply H3.
  - assert (∀ u, p_emb (upd E t p u) = p_emb (E u)) as He.
    { intros u. unfold upd. destruct (Z.eqb_spec u t) as [->|]; [by rewrite R2|done]. }
    intros u e b. rewrite He. intros Hu. destruct (H4 u e b Hu) as (A1 & A2 & A3). split; [done|].
    assert (e ≠ t) by (intros ->; rewrite A2 in Hl; done). rewrite upd_ne by done. split; [done|].
    unfold upd. destruct (Z.eqb_spec u t) as [->|]; [by rewrite R1|done].
  - intros u u' e b b'. unfold upd.
    destruct (Z.eqb_spec u t) as [->|], (Z.eqb_spec u' t) as [->|]; rewrite ?R2; eauto.
Qed.

Lemma ghost_fresh E s t p :
  p_stat (E t) = PLive → fresh_ok E s → fresh_ok (upd E t p) s.
Proof.
  intros Hl [F1 F2 F3 F4 F5 F6]. split; try done. intros u Hu.
  rewrite upd_ne; [by apply F6|]. intros ->. rewrite F6 in Hl by done. done.
Qed.

Lemma ghost_static E s t p :
  same_role (E t) p → (∀ i a, p_node p = Some (i, a) → ∃ n, k_pids s !! i = Some n ∧ parentSem n = a) →
  static_ok SEMS LOCKS CVS BOOT E s → static_ok SEMS LOCKS CVS BOOT (upd E t p) s.
Proof.
  intros (R1 & R2 & R3) Hs [T1 T2 T3 T4 T5]. split; try done.
  - intros u i a. unfold upd. destruct (Z.eqb_spec u t); eauto.
  - unfold upd. destruct (Z.eqb_spec BOOT t) as [<-|]; [by rewrite R1|done].
Qed.

Lemma ghost_user rs lz E m nxt tl u t p :
  p_space p = p_space (E t) → p_mem p = p_mem (E t) → p_act p = p_act (E t) → 0 < nxt →
  user_ok rs lz E m nxt tl u → user_ok rs lz (upd E t p) m nxt tl u.
Proof.
  intros R1 R2 R3 Hn HU. eapply user_ok_ext; [exact HU|done|]. intros x. unfold upd. by destruct (Z.eqb_spec x t) as [->|].
Qed.

Lemma ghost_locks E t p m : p_held p = p_held (E t) → locks_ok E m → locks_ok (upd E t p) m.
Proof.
  intros R Hlk l y Hy. assert (∀ v, p_held (upd E t p v) = p_held (E v)) as Hh.
  { intros v. unfold upd. by destruct (Z.eqb_spec v t) as [->|]. }
  destruct (Hlk l y Hy) as [[? Hno]|(u & ? & ? & Hu & Hun)]; [left|right].
  - split; [done|]. intros v. rewrite Hh. apply Hno.
  - exists u. rewrite Hh. split_and!; try done. intros u'. rewrite Hh. auto.
Qed.

Definition unheld (p : priv) (l : Z) : priv :=
  mkPriv (p_stat p) (p_emb p) (p_held p ∖ {[l]}) (p_int p) (p_node p) (p_space p) (p_mem p) (p_kid p) (p_act p).
Definition nowheld (p : priv) (l : Z) : priv :=
  mkPriv (p_stat p) (p_emb p) ({[l]} ∪ p_held p) (p_int p) (p_node p) (p_space p) (p_mem p) (p_kid p) (p_act p).

(** Releasing a lock its holder gives up. *)
Lemma locks_release E t l y m :
  locks_ok E m → m !! l = Some y → l ∈ p_held (E t) →
  lock_count y = 0 ∧
  locks_ok (upd E t (unheld (E t) l)) (<[l := mkLock (lock_count y + 1) (Some 0)]> m).
Proof.
  intros Hlk Hy Hh. destruct (Hlk l y Hy) as [[_ Hno]|(u & H0 & _ & Hu & Hun)].
  { by destruct (Hno t). }
  split; [done|]. assert (u = t) as -> by (symmetry; by apply Hun).
  intros l' z. rewrite lookup_insert_Some. intros [[<- <-]|[Hne Hz]].
  - left. simpl. split; [lia|]. intros v. unfold upd, unheld.
    destruct (Z.eqb_spec v t); simpl; [set_solver|]. intros Hv. by apply Hun in Hv.
  - assert (∀ v, l' ∈ p_held (upd E t (unheld (E t) l) v) ↔ l' ∈ p_held (E v)) as Hiff.
    { intros v. unfold upd, unheld. destruct (Z.eqb_spec v t) as [->|]; simpl; set_solver. }
    destruct (Hlk l' z Hz) as [[? Hno]|(v & ? & ? & Hv & Hvn)].
    + left. split; [done|]. intros v. rewrite Hiff. apply Hno.
    + right. exists v. split_and!; [done..|by apply Hiff|]. intros v' Hv'. apply Hvn. by apply Hiff.
Qed.

Lemma Inv_release l t x rs ls lr lz E s :
  Inv x rs ls lr lz E s → k_numthreads s < thread_lim →
  is_Some (k_locks s !! l) → l ∈ p_held (E t) → p_stat (E t) = PLive →
  ∃ s' ls' lr', lock_release l s = Ret (tt, s') ∧
    Inv x rs ls' lr' lz (upd E t (unheld (E t) l)) s' ∧
    k_curthread s' = k_curthread s ∧ k_in_interrupt s' = k_in_interrupt s ∧ k_cpu s' = k_cpu s ∧
    k_threads s' = k_threads s ∧ k_numthreads s' = k_numthreads s.
Proof.
  intros HI Hn [y Hy] Hheld Hlive. destruct (Inv_bounds _ _ _ _ _ _ _ HI Hn) as (B1 & B2 & B3).
  destruct HI as [[(a & Ha & Har) (q & Hq & Hqr & Hqs) Hz] Hp Hh Hs Hsm Hlk Hf Hpd Hst Hcpu Ho Hus].
  destruct (locks_release E t l y _ Hlk Hy Hheld) as [Hy0 Hlk'].
  assert (l ≠ 0) by (pose proof (f_locks _ _ Hf l ltac:(eauto)); lia).
  destruct (lock_release_ok l y s a q ls lr) as (a' & q' & E1 & R1 & R2 & R3); try done; [unfold INT_MAX; lia|lia|].
  eexists _, (filter (λ t, sleeps_on (k_threads s) l t = false) ls),
    (lr ++ filter (λ t, sleeps_on (k_threads s) l t = true) ls).
  split; [exact E1|]. split; [|done].
  pose proof (wake_perm (sleeps_on (k_threads s) l) ls lr) as Hperm.
  assert (same_role (E t) (unheld (E t) l)) as Hrole by done.
  split; simpl; try done.
  - split; [by exists a'|by exists q'|done].
  - apply ghost_placed; [done|]. by eapply placed_wake.
  - apply ghost_heaped; [done|done|]. by eapply heaped_wake.
  - intros u th Hu Hth. simpl in *. destruct (sleeps_on_filter _ _ _ _ _ Hu Hth) as [Hu' Hne].
    destruct (Hs u th Hu' Hth) as (S1 & S2 & S3). split; [done|]. split; [done|].
    intros z. rewrite lookup_insert_ne by done. apply S3.
  - apply (ghost_fresh E); [done|]. destruct Hf as [F1 F2 F3 F4 F5 F6]. split; simpl; try done.
    + intros b. rewrite lookup_insert_is_Some. intros [<-|[_ ?]]; apply F4; eauto.
    + intros b Hb. specialize (F5 b Hb). rewrite lookup_insert_ne; [done|congruence].
  - by destruct Hpd.
  - apply ghost_static; [done|by apply (st_known _ _ _ _ _ _ Hst t)|].
    destruct Hst as [T1 T2 T3 T4 T5]. split; simpl; try done.
    + intros b Hb. apply lookup_insert_is_Some. destruct (decide (l = b)); [by left|right; auto].
    + intros b Hb. destruct (T3 b Hb) as (? & ? & ?). split_and!; [lia|lia|done|].
      rewrite lookup_insert_ne; [done|congruence].
  - apply ghost_user; [done|done|done|pose proof (f_next _ _ Hf); lia|done].
Qed.

(** ** Switching away and back *)

Lemma I_resume_off t E s : I_resume t E s → ints_enabled (k_cpu s) = false.
Proof.
  intros ((_ & _ & _ & ls & lr & lz & HI) & Hspl).
  destruct (i_cpu _ _ _ _ _ _ _ _ _ _ _ HI) as (_ & _ & ->). rewrite Hspl. done.
Qed.

Lemma Inv_cpu x rs ls lr lz E s c :
  Inv x rs ls lr lz E s → cpu_wf c → Inv x rs ls lr lz E (set_cpu c s).
Proof.
  intros [Hl Hp Hh Hs Hsm Hlk Hf Hpd Hst Hcpu Ho Hus] Hc.
  split; try done; [by destruct Hl|by destruct Hf|by destruct Hpd|by destruct Hst].
Qed.

(** Whether the TLB belongs to a thread. *)
Definition with_act (p : priv) (b : bool) : priv :=
  mkPriv (p_stat p) (p_emb p) (p_held p) (p_int p) (p_node p) (p_space p) (p_mem p) (p_kid p) b.

Lemma with_act_back p b : with_act (with_act p b) (p_act p) = p.
Proof. by destruct p. Qed.

Lemma Inv_act t b x rs ls lr lz E s :
  Inv x rs ls lr lz E s → p_stat (E t) = PLive →
  (b = true → t ∈ rs ∧ p_space (E t) ≠ 0 ∧ u_active (k_user s) = p_space (E t)) →
  Inv x rs ls lr lz (upd E t (with_act (E t) b)) s.
Proof.
  intros [Hl Hp Hh Hs Hsm Hlk Hf Hpd Hst Hcpu Ho Hus] Hlive Hb.
  assert (same_role (E t) (with_act (E t) b)) as Hrole by done.
  assert (∀ y, p_space (upd E t (with_act (E t) b) y) = p_space (E y)) as Hsp.
  { intros y. unfold upd. by destruct (Z.eqb_spec y t) as [->|]. }
  assert (∀ y, p_mem (upd E t (with_act (E t) b) y) = p_mem (E y)) as Hsm'.
  { intros y. unfold upd. by destruct (Z.eqb_spec y t) as [->|]. }
  split; try done.
  - by apply ghost_placed.
  - by apply ghost_heaped.
  - by apply ghost_locks.
  - by apply ghost_fresh.
  - apply ghost_static; [done|by apply (st_known _ _ _ _ _ _ Hst t)|done].
  - destruct Hus as [U1 U2 U3 Uq U4 U5 U6 U7 U8 U9 Un]. split; try done.
    + intros y th. rewrite Hsp. apply U1.
    + intros y m. rewrite Hsp, Hsm'. apply U3.
    + intros y z. rewrite !Hsp. apply Uq.
    + intros y z m m' a c. rewrite !Hsp, !Hsm'. apply U4.
    + intros y. rewrite Hsp. unfold upd. destruct (Z.eqb_spec y t) as [->|]; [exact Hb|apply U5].
    + intros y. rewrite Hsp. apply U9.
    + intros y. rewrite Hsp, Hsm'. apply Un.
Qed.

(** [as_activate]. *)
Definition activated (a : Z) (s : kstate) : kstate :=
  on_user (with_active a) (set_ktlb (tlb_flush NUM_TLB 0 (k_tlb s)) s).

Lemma k_as_activate_ok a s : cpu_wf (k_cpu s) → k_as_activate a s = Ret (tt, activated a s).
Proof.
  intros Hc. unfold k_as_activate. rewrite k_splhigh_bind. kgo. rewrite (k_splx_back _ s) by done. by destruct s.
Qed.

Lemma Inv_activate a x rs ls lr lz E s :
  Inv x rs ls lr lz E s → a < k_next s → (∀ u, p_act (E u) = true → p_space (E u) = a) →
  Inv x rs ls lr lz E (activated a s).
Proof.
  intros [Hl Hp Hh Hs Hsm Hlk Hf Hpd Hst Hcpu Ho Hus] Ha Hact.
  destruct Hus as [U1 U2 U3 Uq U4 U5 (U6 & U6' & _) U7 [U8 U9] U10 Un].
  unfold activated. assert (length (tlb_flush NUM_TLB 0 (k_tlb s)) = NUM_TLB) as F1 by (by rewrite tlb_flush_length).
  assert (∀ j hi lo, tlb_flush NUM_TLB 0 (k_tlb s) !! j = Some (hi, lo) → lo = TLBLO_INVALID) as F2.
  { intros j hi lo Hj. eapply tlb_flush_invalid; [|exact Hj]. apply lookup_lt_Some in Hj. lia. }
  revert F1 F2. generalize (tlb_flush NUM_TLB 0 (k_tlb s)). intros fl F1 F2.
  split; try done; [by destruct Hl|by destruct Hf|by destruct Hpd|by destruct Hst|]. split; simpl; try done.
  - intros u Hu. destruct (U5 u Hu) as (? & ? & _). split_and!; [done|done|symmetry; auto].
  - split; [done|]. split.
    + intros i hi lo Hi Hv. by rewrite (F2 i hi lo Hi) in Hv.
    + intros b _. split; [|intros _ i hi lo Hi; by rewrite (F2 i hi lo Hi)]. split; [done|]. intros v p _. by rewrite tlb_invalid_lookup.
Qed.

(** Disposing of the zombies. *)
Lemma exorcise_inv t ls lr lz E s :
  Inv t [t] ls lr lz E s → k_curthread s = t → curspl (k_cpu s) = SPL_HIGH →
  ∃ s', exorcise s = Ret (tt, s') ∧ Inv t [t] ls lr [] E s' ∧
    k_curthread s' = t ∧ k_in_interrupt s' = k_in_interrupt s ∧ k_cpu s' = k_cpu s.
Proof.
  intros HI Hc Hspl. destruct HI as [[Hsl Hrq (a & Ha & Har)] Hp Hh Hs Hsm Hlk Hf Hpd Hst Hcpu Ho Hus].
  destruct Hp as [Hnd Hnum Hlv Hd]. destruct Hh as [A1 A2 A3 A4 A5].
  destruct Hpd as [P1 P2 P3 P3' P4 P6]. destruct Hst as [T1 T2 T3 T4 T5].
  assert (∀ u, u ∈ [t] ++ ls ++ lr → u ∉ lz) as Hdisj.
  { intros u Hu Hz. apply Hlv in Hu. rewrite (Hd u Hz) in Hu. done. }
  assert (∀ z th, z ∈ lz → k_threads s !! z = Some th →
    ∃ p, k_pids s !! Z.to_nat (pidValue th - 1) = Some p ∧ myThread p = z ∧ 2 ≤ pidValue th) as Hzpid.
  { intros z th Hz Hth. destruct (P4 z th Hth) as [(_ & -> & _)|(Hv & p & Hp & _ & Hm)]; [|eauto].
    rewrite (Hd _ Hz) in T5. done. }
  assert (∀ z, z ∈ lz → zombie_ok s z) as Hzok.
  { intros z Hz. split; [rewrite Hc; intros ->; apply (Hdisj t); set_solver|].
    destruct (A1 z ltac:(set_solver)) as [th Hth]. exists th. destruct (A2 z th Hth) as (? & _). pose proof (uo_dead _ _ _ _ _ _ _ Hus z th Hz Hth).
    destruct (Hzpid z th Hz Hth) as (p & Hp & _ & Hv). apply lookup_lt_Some in Hp.
    split_and!; [done..|lia|lia]. }
  destruct (exorcise_ok lz s a) as (P' & a' & E1 & Ha' & Hlen & Haft);
    [done|done| |done|done|rewrite Hspl; done|done|done|].
  { apply NoDup_app in Hnd as (_ & _ & Hnd). apply NoDup_app in Hnd as (_ & _ & Hnd).
    by apply NoDup_app in Hnd as (_ & _ & ?). }
  destruct (A1 t ltac:(set_solver)) as [tht Htht].
  assert (∀ u, u ∉ lz → delete_all lz (k_threads s) !! u = k_threads s !! u) as Hkeep.
  { intros u Hu. rewrite lookup_delete_all. by rewrite decide_False. }
  assert (∀ u th, delete_all lz (k_threads s) !! u = Some th → u ∉ lz ∧ k_threads s !! u = Some th) as Hsub.
  { intros u th. rewrite lookup_delete_all. destruct (decide (u ∈ lz)); [done|]. done. }
  eexists; split; [done|]. split; [|done]. split; simpl; try done.
  - split; [done|done|by exists a'].
  - split; [| | |set_solver].
    + rewrite app_nil_r. rewrite !app_assoc in Hnd. apply NoDup_app in Hnd as (Hnd & _).
      by rewrite <- app_assoc in Hnd.
    + done.
    + done.
  - split.
    + intros u Hu. rewrite Hkeep; [apply A1; set_solver|apply Hdisj; set_solver].
    + intros u th Hu. apply Hsub in Hu as [_ Hu]. by eapply A2.
    + intros u th Hut Hu. apply Hsub in Hu as [_ Hu]. by apply A3.
    + intros u e b He. destruct (A4 u e b He) as ((th & Hth & Hi') & Hp0 & Hl).
      split; [|done]. exists th. rewrite Hkeep; [done|]. intros Hz. apply Hd in Hz. by rewrite Hp0 in Hz.
    + done.
  - intros u th Hu Hth. simpl in Hth. apply Hsub in Hth as [_ Hth]. by apply (Hs u th).
  - destruct Hf as [F1 F2 F3 F4 F5 F6]. split; simpl; try done.
    intros u [th Hth]. apply Hsub in Hth as [_ Hth]. apply F2. eauto.
  - split; simpl.
    + by eapply pids_after_wf.
    + by rewrite Hlen.
    + intros i p' Hp' Hi1. destruct (Haft i p' Hp') as (p & Hp & _ & Hsem & Hor & _).
      destruct (P3 i p Hp Hi1) as (Hns & x & Hx & Hup). rewrite Hsem. split; [done|].
      exists x. split; [done|]. intros Hu. apply Hup.
      destruct Hor as [->|(z & th & Hz & Hth & ->)].
      * destruct Hu as [?|(z & th & Hz & _)]; [by left|set_solver].
      * right. by exists z, th.
    + intros i j p1 p2 Hp1 Hp2 Hi1 Hj1.
      destruct (Haft i p1 Hp1) as (q1 & Hq1 & _ & -> & _).
      destruct (Haft j p2 Hp2) as (q2 & Hq2 & _ & -> & _). by eapply P3'.
    + intros u th Hu. apply Hsub in Hu as [Hnz Hu]. destruct (P4 u th Hu) as [(?&?&?)|(Hv & p & Hp & Hused & Hm)].
      { left. by rewrite Hlen. }
      right. split; [done|]. destruct (lookup_lt_is_Some_2 P' (Z.to_nat (pidValue th - 1))) as [p' Hp'].
      { rewrite Hlen. by eapply lookup_lt_Some. }
      destruct (Haft _ _ Hp') as (p2 & Hp2 & _ & _ & [->|(z & thz & Hz & Hthz & Ei)] & _); simplify_eq; [eauto|].
      destruct (Hzpid z thz Hz Hthz) as (p3 & Hp3 & Hm3 & _). rewrite <- Ei in Hp3. by simplify_eq.
    + intros i p' Hp'. destruct (Haft i p' Hp') as (p & Hp & _ & Hsem & _ & X1 & X2 & X3). destruct (P6 i p Hp) as (C1 & C2 & C3).
      unfold code_ok. rewrite X1, X2, Hsem. auto.
  - split; simpl; try done. intros u i b Hu. destruct (T4 u i b Hu) as (p & Hp & <-). by eapply pids_after_keep.
  - eapply user_ok_step; [exact Hus|done|auto| |pose proof (f_next _ _ Hf); lia].
    intros u th Hu. apply Hsub in Hu as [_ Hu]. split; [eauto|]. by intros ?%elem_of_nil.
Qed.

(** Back on the processor: the TLB is cleared for a process. *)
Lemma mi_switch_in_ok t b E s :
  I_resume t E s → (b = true → p_space (E t) ≠ 0) →
  ∃ s', mi_switch_in s = Ret (tt, s') ∧ I_resume t (upd E t (with_act (E t) b)) s'.
Proof.
  intros ((Hc & Hi & Ht0 & ls & lr & lz & HI) & Hspl) Hb.
  destruct (exorcise_inv t ls lr lz E s HI Hc Hspl) as (s1 & E1 & HI1 & A1 & A2 & A3).
  pose proof (i_heap _ _ _ _ _ _ _ _ _ _ _ HI1) as Hh. destruct (h_listed _ _ _ _ _ _ _ Hh t ltac:(set_solver)) as [th Hth].
  assert (p_stat (E t) = PLive) as Hlive by (apply (pl_live _ _ _ _ _ _ (i_placed _ _ _ _ _ _ _ _ _ _ _ HI1)); set_solver).
  pose proof (i_user _ _ _ _ _ _ _ _ _ _ _ HI1) as HU. pose proof (uo_space _ _ _ _ _ _ _ HU t th Hth) as Hsp.
  unfold mi_switch_in. rewrite (K_bind _ _ _ _ _ E1). unfold get_curthread. kgo. rewrite A1, (get_thread_bind _ th) by done.
  destruct (Z.eqb_spec (t_vmspace th) 0) as [Hv|Hv].
  - exists s1. split; [done|]. split; [|by rewrite A3]. split; [done|]. split; [rewrite upd_eq, A2; done|]. split; [done|].
    exists ls, lr, []. apply Inv_act; [done|done|]. intros ->. specialize (Hb eq_refl). by rewrite <- Hsp in Hb.
  - rewrite k_as_activate_ok by apply HI1. eexists. split; [done|]. split; [|simpl; by rewrite A3]. split; [done|]. split; [rewrite upd_eq; simpl; by rewrite A2|].
    split; [done|]. exists ls, lr, []. apply Inv_act; [|done|].
    + apply Inv_activate; [done|rewrite Hsp; apply (uo_vm _ _ _ _ _ _ _ HU t)|]. intros u Hu.
      destruct (uo_act _ _ _ _ _ _ _ HU u Hu) as (->%list_elem_of_singleton & Hne & _). by symmetry.
    + intros ->. specialize (Hb eq_refl). split; [set_solver|]. split; [done|]. exact Hsp.
Qed.

(** The running thread [t] moved to another list. *)
Lemma Inv_stash t ls lr lz ls' lr' E s s' :
  Inv t [t] ls lr lz E s → I_resume t E s →
  ls' ++ lr' ≡ₚ t :: ls ++ lr → lists s' ls' lr' lz →
  s' = set_runqueue (k_runqueue s') (set_sleepers (k_sleepers s') (set_curthread 0 s)) →
  sleepers_ok ls' s → I_sched t (upd E t (with_act (E t) false)) s'.
Proof.
  intros HI Hres Hperm Hls Es' Hslp. destruct Hres as ((Hc & Hi & Ht0 & _) & Hspl).
  assert (p_stat (E t) = PLive) as Hlive by (apply (pl_live _ _ _ _ _ _ (i_placed _ _ _ _ _ _ _ _ _ _ _ HI)); set_solver).
  apply (Inv_act t false) in HI; [|done|done]. set (E1 := upd E t (with_act (E t) false)) in *.
  assert (E1 t = with_act (E t) false) as HE1 by (unfold E1; by rewrite upd_eq).
  destruct HI as [_ Hp Hh Hs Hsm Hlk Hf Hpd Hst Hcpu Ho Hus].
  destruct Hp as [Hnd Hnum Hlv Hd]. pose proof (h_listed _ _ _ _ _ _ _ Hh t ltac:(set_solver)) as Hht.
  rewrite Es' in *. split; [done|]. split; [by rewrite HE1|]. split; [done|]. split; [done|].
  split; [by rewrite HE1; simpl; rewrite Hlive|].
  exists ls', lr', lz. split; simpl; try done.
  - split; simpl.
    + rewrite app_assoc, Hperm. simpl. by rewrite <- app_assoc.
    + rewrite Hnum, Hperm. done.
    + intros u. rewrite Hlv, Hperm. set_solver.
    + done.
  - destruct Hh as [A1 A2 A3 A4 A5]. split; try done.
    intros u. simpl. rewrite app_assoc, Hperm, <- app_comm_cons, <- app_assoc. apply A1.
  - by destruct Hf.
  - by destruct Hpd.
  - by destruct Hst.
  - eapply user_ok_step; [exact Hus|done| | |pose proof (f_next _ _ Hf); lia].
    + intros u Hu. destruct (uo_act _ _ _ _ _ _ _ Hus u Hu) as (->%list_elem_of_singleton & _). by rewrite HE1 in Hu.
    + intros u th Hth. split; [eauto|]. intros Hz. by apply (uo_dead _ _ _ _ _ _ _ Hus u).
Qed.

(** Common start of [mi_switch]. *)
Lemma mi_switch_out_start t st E s :
  I_resume t E s →
  mi_switch_out st s =
    (result ← match st with
              | S_READY => make_runnable t
              | S_SLEEP => add_sleeper t
              | S_ZOMB => add_zombie t
              | S_RUN => kpanic
              end;
     _ ← kcheck (result =? 0); mret t) (set_curthread 0 s).
Proof.
  intros ((Hc & Hi & Ht0 & ls & lr & lz & HI) & Hspl).
  destruct (h_listed _ _ _ _ _ _ _ (i_heap _ _ _ _ _ _ _ _ _ _ _ HI) t ltac:(set_solver)) as [th Hth].
  destruct (h_ok _ _ _ _ _ _ _ (i_heap _ _ _ _ _ _ _ _ _ _ _ HI) t th Hth) as (_ & Hstk).
  unfold mi_switch_out. kgo. rewrite Hc, (proj2 (Z.eqb_neq _ _)) by done.
  rewrite (get_thread_bind _ th) by done. unfold check_stack.
  destruct (t_stack th) as [b|]; kgo; [|done].
  rewrite K_bind_check by (by apply bool_decide_eq_true). kgo. done.
Qed.

Lemma mi_switch_out_ready t E s :
  I_resume t E s → k_numthreads s < thread_lim →
  ∃ s', mi_switch_out S_READY s = Ret (t, s') ∧ I_sched t (upd E t (with_act (E t) false)) s'.
Proof.
  intros HR Hn. rewrite (mi_switch_out_start _ _ _ _ HR).
  pose proof HR as ((Hc & Hi & Ht0 & ls & lr & lz & HI) & Hspl).
  pose proof (Inv_bounds _ _ _ _ _ _ _ HI Hn) as (B1 & B2 & B3).
  pose proof HI as [[(a & Ha & Har) (q & Hq & Hqr & Hqs) Hz] _ _ Hs _ _ _ _ _ _ Ho _].
  destruct (make_runnable_ok t (set_curthread 0 s) q lr) as (q' & E1 & Hq' & Hsz);
    [done..|simpl; rewrite Hspl; done|done|].
  rewrite (K_bind _ _ _ _ _ E1). kgo. eexists; split; [done|].
  apply (Inv_stash t ls lr lz ls (lr ++ [t]) E s); [done|done| | |by destruct s|done].
  - by rewrite app_assoc, <- Permutation_cons_append.
  - split; simpl; [by exists a| |done]. exists q'. split; [done|]. split; [done|]. lia.
Qed.

(** The reason to sleep on [addr]. *)
Definition may_sleep (addr : Z) (s : kstate) : Prop :=
  addr < k_next s ∧
  (∀ x, k_sems s !! addr = Some x → sem_count x = 0) ∧
  (∀ x, k_locks s !! addr = Some x → lock_count x = 0).

Lemma mi_switch_out_sleep t E s :
  I_resume t E s → k_numthreads s < thread_lim →
  (∀ th, k_threads s !! t = Some th → may_sleep (t_sleepaddr th) s) →
  ∃ s', mi_switch_out S_SLEEP s = Ret (t, s') ∧ I_sched t (upd E t (with_act (E t) false)) s'.
Proof.
  intros HR Hn Hmay. rewrite (mi_switch_out_start _ _ _ _ HR).
  pose proof HR as ((Hc & Hi & Ht0 & ls & lr & lz & HI) & Hspl).
  pose proof (Inv_bounds _ _ _ _ _ _ _ HI Hn) as (B1 & B2 & B3).
  pose proof HI as [[(a & Ha & Har) (q & Hq & Hqr & Hqs) Hz] _ _ Hs _ _ _ _ _ _ Ho _].
  destruct (add_sleeper_ok t (set_curthread 0 s) a ls) as (a' & E1 & Ha'); [done..|lia|done|].
  rewrite (K_bind _ _ _ _ _ E1). kgo. eexists; split; [done|].
  apply (Inv_stash t ls lr lz (ls ++ [t]) lr E s); [done|done| | |by destruct s|].
  - by rewrite <- Permutation_cons_append.
  - split; simpl; [by exists a'| |done]. by exists q.
  - intros u th Hu Hth. apply elem_of_app in Hu as [Hu|Hu]; [by apply (Hs u th)|].
    apply list_elem_of_singleton in Hu as ->. by apply Hmay.
Qed.

(** The rule for [mi_switch] of a thread that will run again. *)
Lemma wp_mi_switch t st Q E s :
  I_resume t E s → t ≠ 0 →
  (k_numthreads s < thread_lim → ∃ s1, mi_switch_out st s = Ret (t, s1) ∧ I_sched t (upd E t (with_act (E t) false)) s1) →
  (∀ E' s', E' t = E t → I_resume t E' s' → Q 0 E' s') →
  wp t (mi_switch st) Q E s.
Proof.
  intros HR Ht0 Hout HQ. apply wp_act_off; [by eapply I_resume_off|].
  destruct (Z.lt_ge_cases (k_numthreads s) thread_lim) as [Hn|Hn]; [|left; by left].
  assert (p_stat (E t) = PLive ∧ (p_act (E t) = true → p_space (E t) ≠ 0)) as [Hlive Hact].
  { destruct HR as ((_ & _ & _ & ls & lr & lz & HI) & _). split; [apply (pl_live _ _ _ _ _ _ (i_placed _ _ _ _ _ _ _ _ _ _ _ HI)); set_solver|].
    intros Ha. by destruct (uo_act _ _ _ _ _ _ _ (i_user _ _ _ _ _ _ _ _ _ _ _ HI) t Ha) as (_ & ? & _). }
  right. destruct (Hout Hn) as (s1 & E1 & HS). exists t, s1, (upd E t (with_act (E t) false)).
  split; [done|]. split; [apply gstep_upd; [done|simpl; congruence]|].
  rewrite (proj2 (Z.eqb_neq _ _)) by done. split; [done|]. split; [done|].
  intros _ E' s' HE HR'. rewrite upd_eq in HE. apply wp_act_off; [by eapply I_resume_off|]. right.
  destruct (mi_switch_in_ok t (p_act (E t)) E' s' HR') as (s2 & E2 & HR2); [by rewrite HE|].
  exists 0, s2, (upd E' t (with_act (E' t) (p_act (E t)))). split; [by rewrite (K_bind _ _ _ _ _ E2)|].
  split; [apply gstep_upd; [done|rewrite HE; simpl; congruence]|].
  simpl. apply HQ; [|done]. rewrite upd_eq, HE. apply with_act_back.
Qed.

(** ** Entering and leaving critical sections *)

Lemma I_run_cpu t E s : I_run t E s → cpu_wf (k_cpu s).
Proof. intros (_ & _ & _ & ls & lr & lz & HI). by destruct HI. Qed.

Lemma I_run_set_cpu t E s c : I_run t E s → cpu_wf c → I_run t E (set_cpu c s).
Proof.
  intros (Hc & Hi & Ht0 & ls & lr & lz & HI) Hwf. do 3 (split; [done|]).
  exists ls, lr, lz. by apply Inv_cpu.
Qed.

Lemma I_run_hi t E s : I_run t E s → I_resume t E (hi s).
Proof.
  intros HI. split; [|done]. apply I_run_set_cpu; [done|].
  apply splhigh_wf. by eapply I_run_cpu.
Qed.

(** Lowering the level again. *)
Lemma I_run_splx t E s n :
  I_run t E s → n = 0 ∨ n = SPL_HIGH →
  ∃ s', k_splx n s = Ret (curspl (k_cpu s), s') ∧ I_run t E s' ∧ curspl (k_cpu s') = n.
Proof.
  intros HI Hn. pose proof (I_run_cpu _ _ _ HI) as (Hu & _).
  destruct (splx_spec n (k_cpu s) Hn Hu) as (H1 & H2 & H3).
  unfold k_splx. destruct (splx n (k_cpu s)) as [o c]; simpl in *. subst.
  eexists; split; [done|]. split; [by apply I_run_set_cpu|done].
Qed.

Lemma I_run_spl t E s : I_run t E s → curspl (k_cpu s) = 0 ∨ curspl (k_cpu s) = SPL_HIGH.
Proof. intros HI. by destruct (I_run_cpu _ _ _ HI) as (_ & ? & _). Qed.

Lemma ints_spl t E s : I_run t E s → ints_enabled (k_cpu s) = (curspl (k_cpu s) =? 0).
Proof. intros HI. by destruct (I_run_cpu _ _ _ HI) as (_ & _ & ?). Qed.

(** A piece of code run from a state of the invariant, at either level; with
    interrupts off it is run from the very state. *)
Lemma wp_act_q t f k Q E s :
  I_run t E s →
  (∀ E' s', E' t = E t → I_run t E' s' → curspl (k_cpu s') = curspl (k_cpu s) →
     (curspl (k_cpu s) = SPL_HIGH → E' = E ∧ s' = s) →
     exhausted s' ∨ ∃ x s2 E2, f s' = Ret (x, s2) ∧ gstep t E' E2 ∧ wp t (k x) Q E2 s2) →
  wp t (Act f k) Q E s.
Proof.
  intros HI H. simpl. split; [intros _; by apply H|]. intros Hon. split; [done|].
  rewrite (ints_spl _ _ _ HI) in Hon. zb. intros E' s' HE HI' Hon'. rewrite (ints_spl _ _ _ HI') in Hon'. zb.
  apply H; [done|done|congruence|]. by rewrite Hon.
Qed.

Lemma wp_act t f k Q E s :
  I_run t E s →
  (∀ E' s', E' t = E t → I_run t E' s' → curspl (k_cpu s') = curspl (k_cpu s) →
     exhausted s' ∨ ∃ x s2 E2, f s' = Ret (x, s2) ∧ gstep t E' E2 ∧ wp t (k x) Q E2 s2) →
  wp t (Act f k) Q E s.
Proof. intros HI H. apply wp_act_q; auto. Qed.

(** [spl = splhigh()], after checks that hold. *)
Lemma wp_enter_q t f k Q E s :
  I_run t E s →
  (∀ E' s', E' t = E t → I_run t E' s' → f s' = Ret (curspl (k_cpu s'), hi s')) →
  (∀ E' s', E' t = E t → I_resume t E' s' → (curspl (k_cpu s) = SPL_HIGH → E' = E ∧ s' = hi s) →
     wp t (k (curspl (k_cpu s))) Q E' s') →
  wp t (Act f k) Q E s.
Proof.
  intros HI Hf Hk. apply wp_act_q; [done|]. intros E' s' HE HI' Hspl Hq. right.
  exists (curspl (k_cpu s')), (hi s'), E'. split; [by eapply Hf|]. split; [apply gstep_refl|].
  rewrite Hspl. apply Hk; [done|by apply I_run_hi|]. intros Hh. by destruct (Hq Hh) as [-> ->].
Qed.

Lemma wp_enter t f k Q E s :
  I_run t E s →
  (∀ E' s', E' t = E t → I_run t E' s' → f s' = Ret (curspl (k_cpu s'), hi s')) →
  (∀ E' s', E' t = E t → I_resume t E' s' → wp t (k (curspl (k_cpu s))) Q E' s') →
  wp t (Act f k) Q E s.
Proof. intros HI Hf Hk. apply wp_enter_q; auto. Qed.

(** [splx(spl)] at the end. *)
Lemma wp_leave_q t n Q E s :
  I_resume t E s → n = 0 ∨ n = SPL_HIGH →
  (∀ r c, I_run t E (set_cpu c s) → curspl c = n → Q r E (set_cpu c s)) →
  wp t (act (k_splx n)) Q E s.
Proof.
  intros HR Hn HQ. apply wp_act_off; [by eapply I_resume_off|]. right.
  destruct HR as [HR _]. destruct (I_run_splx _ _ _ n HR Hn) as (s' & E1 & HI & Hs).
  exists (curspl (k_cpu s)), s', E. split; [done|]. split; [apply gstep_refl|].
  unfold k_splx in E1. destruct (splx n (k_cpu s)) as [o c]. injection E1 as <- <-. by apply HQ.
Qed.

Lemma wp_leave t n Q E s :
  I_resume t E s → n = 0 ∨ n = SPL_HIGH →
  (∀ r s', I_run t E s' → curspl (k_cpu s') = n → Q r E s') →
  wp t (act (k_splx n)) Q E s.
Proof. intros HR Hn HQ. apply wp_leave_q; auto. Qed.

(** ** thread_yield and thread_sleep *)

Lemma wp_thread_yield t Q E s :
  I_run t E s →
  (∀ r E' s', E' t = E t → I_run t E' s' → curspl (k_cpu s') = curspl (k_cpu s) → Q r E' s') →
  wp t thread_yield Q E s.
Proof.
  intros HI HQ. pose proof (I_run_spl _ _ _ HI) as Hspl. unfold thread_yield.
  apply wp_bind. eapply wp_enter; [done| |].
  { intros E' s' HE (Hc & Hi & Ht0 & ls & lr & lz & [[(a & Ha & _) _ _] _ _ _ _ _ _ _ _ _ _ _]).
    rewrite k_splhigh_bind. kgo. simpl. rewrite Ha. kgo. done. }
  intros E1 s1 HE1 HR1. apply wp_done, wp_bind.
  pose proof HR1 as ((_ & _ & Ht0 & _) & _).
  apply wp_mi_switch; [done|done|by apply mi_switch_out_ready|].
  intros E2 s2 HE2 HR2. apply wp_leave; [done|done|].
  intros r s3 HI3 Hs3. apply HQ; [congruence|done|done].
Qed.

(** Changing a member of the running thread that the invariant does not
    look at. *)
Lemma I_run_put t th th' E s :
  I_run t E s → k_threads s !! t = Some th → th_ok th' → pidValue th' = pidValue th →
  t_vmspace th' = t_vmspace th → I_run t E (set_threads (λ m, <[t := th']> m) s).
Proof.
  intros (Hc & Hi & Ht0 & ls & lr & lz & HI) Hth Hok Hpid Hvm. do 3 (split; [done|]).
  exists ls, lr, lz. destruct HI as [Hl Hp Hh Hs Hsm Hlk Hf Hpd Hst Hcpu Ho Hus].
  assert (p_stat (E t) = PLive) as Hlive by (apply (pl_live _ _ _ _ _ _ Hp); set_solver).
  split; simpl; try done.
  - by destruct Hl.
  - eapply heaped_put; try done. intros Hp0. rewrite Hp0 in Hlive. done.
  - intros u thu Hu Hthu. simpl in *. rewrite lookup_insert_ne in Hthu; [by apply (Hs u thu)|].
    intros ->. destruct Hp as [Hnd _ _ _]. simpl in Hnd. apply NoDup_cons in Hnd as [Hnd _].
    apply Hnd. set_solver.
  - by eapply fresh_ok_put.
  - by eapply pids_ok_put.
  - by destruct Hst.
  - eapply user_ok_put; [done|pose proof (f_next _ _ Hf); lia|done|done].
Qed.

Lemma wp_thread_sleep t addr Q E s :
  I_resume t E s → p_int (E t) = 0 → may_sleep addr s →
  (∀ E' s', E' t = E t → I_resume t E' s' → Q 0 E' s') →
  wp t (thread_sleep addr) Q E s.
Proof.
  intros HR Hint Hmay HQ. pose proof HR as ((Hc & Hi & Ht0 & ls & lr & lz & HI) & Hspl).
  pose proof (i_heap _ _ _ _ _ _ _ _ _ _ _ HI) as Hh.
  destruct (h_listed _ _ _ _ _ _ _ Hh t ltac:(set_solver)) as [th Hth].
  pose proof (h_ok _ _ _ _ _ _ _ Hh t th Hth) as Hok.
  unfold thread_sleep. apply wp_bind, wp_act_off; [by eapply I_resume_off|]. right.
  exists 0, (set_threads (λ m, <[t := with_sleepaddr addr th]> m) s), E. split.
  { rewrite Hint in Hi. kgo. rewrite Hc. kgo. rewrite (get_thread_bind _ th) by done. done. }
  split; [apply gstep_refl|]. apply wp_done, wp_bind.
  assert (I_resume t E (set_threads (λ m, <[t := with_sleepaddr addr th]> m) s)) as HR1.
  { split; [|done]. destruct HR as [HR _]. by eapply I_run_put. }
  apply wp_mi_switch; [done|done| |].
  { intros Hn. apply mi_switch_out_sleep; [done|done|]. simpl. intros th'.
    rewrite lookup_insert_eq. intros [= <-]. done. }
  intros E2 s2 HE2 HR2. apply wp_act_off; [by eapply I_resume_off|]. right.
  pose proof HR2 as ((Hc2 & _ & _ & ls2 & lr2 & lz2 & HI2) & Hspl2).
  pose proof (i_heap _ _ _ _ _ _ _ _ _ _ _ HI2) as Hh2.
  destruct (h_listed _ _ _ _ _ _ _ Hh2 t ltac:(set_solver)) as [th2 Hth2].
  pose proof (h_ok _ _ _ _ _ _ _ Hh2 t th2 Hth2) as Hok2.
  exists 0, (set_threads (λ m, <[t := with_sleepaddr 0 th2]> m) s2), E2. split.
  { kgo. rewrite Hc2. rewrite (get_thread_bind _ th2) by done. done. }
  split; [apply gstep_refl|]. simpl. apply HQ; [done|]. split; [|done].
  destruct HR2 as [HR2 _]. by eapply I_run_put.
Qed.

End Synch.
