(* ===== verification/SynchRules.v ===== *)
(** Rules of the logic for semaphores, locks, condition variables and the
    clock. *)

From Stdlib Require Import ZArith Lia.
From stdpp Require Import base numbers list option gmap.
From S2P Require Import Prelude Array Queue Cpu Vm Kernel Thread Machine ThreadOps ThreadInv.
From S2P Require Import Logic SynchProofs.

Open Scope Z_scope.

Section Rules.
Context (SEMS LOCKS CVS : gset Z) (BOOT : Z).

#[local] Abbreviation Inv := (Inv SEMS LOCKS CVS BOOT).
#[local] Abbreviation I_run := (I_run SEMS LOCKS CVS BOOT).
#[local] Abbreviation I_sched := (I_sched SEMS LOCKS CVS BOOT).
#[local] Abbreviation I_resume := (I_resume SEMS LOCKS CVS BOOT).
#[local] Abbreviation wp := (wp SEMS LOCKS CVS BOOT).

Lemma I_run_live t E s : I_run t E s → p_stat (E t) = PLive.
Proof.
  intros (_ & _ & _ & ls & lr & lz & HI).
  apply (pl_live _ _ _ _ _ _ (i_placed _ _ _ _ _ _ _ _ _ _ _ HI)). set_solver.
Qed.

Lemma exhausted_sem s a x : k_sems s !! a = Some x → INT_MAX ≤ sem_count x → sem_count x ≤ INT_MAX → exhausted s.
Proof. intros. right; right; left. exists a, x. split; [done|lia]. Qed.

(** ** Semaphores *)

(** Taking a shared semaphore that is up. *)
Lemma Inv_P sem y x rs ls lr lz E s :
  Inv x rs ls lr lz E s → k_sems s !! sem = Some y → 0 < sem_count y → sem ∈ SEMS →
  Inv x rs ls lr lz E (set_sems (λ m, <[sem := mkSem (sem_count y - 1)]> m) s).
Proof.
  intros [Hl Hp Hh Hs Hsm Hlk Hf Hpd Hst Hcpu Ho Hus] Hy Hpos Hin.
  split; simpl; try done.
  - by destruct Hl.
  - intros t th Ht Hth. simpl in *. destruct (Hs t th Ht Hth) as (S1 & S2 & S3).
    split; [done|]. split; [|done]. intros z. rewrite lookup_insert_Some.
    intros [[E1 <-]|[_ Hz]]; [|by apply S2]. rewrite <- E1 in S2. specialize (S2 y Hy). lia.
  - intros b z. rewrite lookup_insert_Some. intros [[<- <-]|[_ Hz']]; [|by eapply Hsm].
    pose proof (Hsm _ _ Hy). simpl. lia.
  - destruct Hf as [F1 F2 F3 F4 F5 F6]. split; simpl; try done.
    + intros b. rewrite lookup_insert_is_Some. intros [<-|[_ ?]]; apply F3; eauto.
    + intros b. rewrite lookup_insert_is_Some. intros [<-|[_ ?]]; apply F5; eauto.
  - destruct Hpd as [P1 P2 P3 P4 P5 P6]. split; simpl; try done.
    + intros i p Hpi Hi. destruct (P3 i p Hpi Hi) as (Hns & z & Hz' & Hup). split; [done|].
      exists z. rewrite lookup_insert_ne; [done|]. intros ->. done.
    + intros i p Hpi. destruct (P6 i p Hpi) as (C1 & C2 & C3). split_and!; [done|done|]. intros Hi x0.
      rewrite lookup_insert_Some. intros [[E2 _]|[_ Hx0]]; [|by apply C3]. destruct (P3 i p Hpi Hi) as (Hns & _). by rewrite <- E2 in Hns.
  - destruct Hst as [T1 T2 T3 T4 T5]. split; simpl; try done.
    + intros b Hb. apply lookup_insert_is_Some. destruct (decide (sem = b)); [by left|right; auto].
    + intros b Hb. destruct (T3 b Hb) as (? & ? & ?). split_and!; [lia|lia| |done].
      rewrite lookup_insert_ne; [done|congruence].
Qed.

Lemma wp_P t sem Q E s :
  I_run t E s → p_int (E t) = 0 → sem ∈ SEMS →
  (∀ r E' s', E' t = E t → I_run t E' s' → curspl (k_cpu s') = curspl (k_cpu s) → Q r E' s') →
  wp t (P sem) Q E s.
Proof.
  intros HI Hint Hin HQ. pose proof (I_run_spl _ _ _ _ _ _ _ HI) as Hspl.
  assert (∀ E' s', I_run t E' s' → ∃ y, k_sems s' !! sem = Some y ∧ 0 ≤ sem_count y ≤ INT_MAX ∧ sem ≠ 0) as Hsem.
  { intros E' s' (_ & _ & _ & ls & lr & lz & [_ _ _ _ Hsm _ Hf _ Hst _ _ _]).
    destruct (st_sems _ _ _ _ _ _ Hst sem Hin) as [y Hy]. exists y. split; [done|].
    split; [by eapply Hsm|]. pose proof (f_sems _ _ Hf sem ltac:(eauto)). lia. }
  unfold P. apply wp_bind. eapply wp_enter; [done| |].
  { intros E' s' HE HI'. destruct (Hsem E' s' HI') as (y & Hy & _ & Hne).
    destruct HI' as (_ & Hi & _). rewrite HE, Hint in Hi. kgo. by rewrite k_splhigh_run. }
  intros E1 s1 HE1 HR1. apply wp_done.
  exists (λ E' s', E' t = E t ∧ I_resume t E' s'). split; [by split|].
  intros E2 s2 [HE2 HR2]. split; [by eapply I_resume_off|].
  pose proof HR2 as [HI2 _]. destruct (Hsem E2 s2 HI2) as (y & Hy & Hc & Hne).
  exists (sem_count y =? 0). split.
  { unfold get_sem. kgo. done. }
  destruct (Z.eqb_spec (sem_count y) 0) as [H0|H0].
  - apply wp_thread_sleep; [done|congruence| |].
    + destruct HI2 as (_ & _ & _ & ls & lr & lz & [_ _ _ _ _ _ Hf _ Hst _ _ _]).
      pose proof (f_sems _ _ Hf sem ltac:(eauto)). split; [lia|]. split; [naive_solver|].
      rewrite (f_disj _ _ Hf sem) by eauto. done.
    + intros E3 s3 HE3 HR3. split; [congruence|done].
  - apply wp_act_off; [by eapply I_resume_off|]. right.
    destruct HI2 as (Hc2 & Hi2 & Ht0 & ls & lr & lz & HI2).
    set (s3 := set_sems (λ m, <[sem := mkSem (sem_count y - 1)]> m) s2).
    assert (I_run t E2 s3) as HI3.
    { do 3 (split; [done|]). exists ls, lr, lz. apply Inv_P; try done. lia. }
    destruct (I_run_splx SEMS LOCKS CVS BOOT _ _ s3 (curspl (k_cpu s)) HI3 Hspl) as (s4 & E4 & HI4 & Hs4).
    do 2 eexists. exists E2. split; [|split; [apply gstep_refl|apply wp_done; by apply HQ]].
    unfold get_sem, put_sem. kgo. rewrite s32_id by (unfold is_s32, INT_MAX in *; lia). exact E4.
Qed.

(** [V] on any existing semaphore, from either interrupt level. *)
Lemma I_run_V t sem E s :
  I_run t E s → is_Some (k_sems s !! sem) → sem_known sem s →
  exhausted s ∨ ∃ s', V sem s = Ret (tt, s') ∧ I_run t E s' ∧
    curspl (k_cpu s') = curspl (k_cpu s).
Proof.
  intros (Hc & Hi & Ht0 & ls & lr & lz & HI) [y Hy] Hkn.
  pose proof (i_sems _ _ _ _ _ _ _ _ _ _ _ HI _ _ Hy) as Hcnt.
  destruct (Z.lt_ge_cases (sem_count y) INT_MAX); [|left; eapply exhausted_sem; [done|lia|lia]].
  destruct (Z.lt_ge_cases (k_numthreads s) thread_lim) as [Hn|Hn]; [|left; by left].
  right. destruct (Inv_V SEMS LOCKS CVS BOOT sem y t [t] ls lr lz E s) as (s' & ls' & lr' & E1 & HI' & A1 & A2 & A3 & _);
    [done..|].
  exists s'. split; [done|]. split; [|by rewrite A3]. split; [congruence|]. split; [congruence|].
  split; [done|]. eauto.
Qed.

Lemma wp_V t sem Q E s :
  I_run t E s → sem ∈ SEMS →
  (∀ r E' s', E' t = E t → I_run t E' s' → curspl (k_cpu s') = curspl (k_cpu s) → Q r E' s') →
  wp t (act_ (V sem)) Q E s.
Proof.
  intros HI Hin HQ. apply wp_act; [done|]. intros E' s' HE HI' Hspl.
  destruct (I_run_V t sem E' s' HI') as [?|(s2 & E2 & HI2 & Hs2)]; [| |by left|right].
  { destruct HI' as (_ & _ & _ & ls & lr & lz & [_ _ _ _ _ _ _ _ Hst _ _ _]).
    by apply (st_sems _ _ _ _ _ _ Hst). }
  { destruct HI' as (_ & _ & _ & ls & lr & lz & HI'). by eapply sem_known_shared. }
  exists 0, s2, E'. split; [by rewrite (K_bind _ _ _ _ _ E2)|]. split; [apply gstep_refl|].
  apply wp_done, HQ; [done|done|congruence].
Qed.

(** ** Locks *)

Lemma locks_acquire E t l y m :
  locks_ok E m → m !! l = Some y → 0 < lock_count y →
  lock_count y = 1 ∧ locks_ok (upd E t (nowheld (E t) l)) (<[l := mkLock 0 (Some t)]> m).
Proof.
  intros Hlk Hy Hpos. destruct (Hlk l y Hy) as [[H1 Hno]|(u & H0 & _)]; [|lia]. split; [done|].
  intros l' z. rewrite lookup_insert_Some. intros [[<- <-]|[Hne Hz]].
  - right. exists t. simpl. split_and!; [done|done|rewrite upd_eq; simpl; set_solver|].
    intros u. unfold upd. destruct (Z.eqb_spec u t); [done|]. intros Hu. by destruct (Hno u).
  - assert (∀ v, l' ∈ p_held (upd E t (nowheld (E t) l) v) ↔ l' ∈ p_held (E v)) as Hiff.
    { intros v. unfold upd, nowheld. destruct (Z.eqb_spec v t) as [->|]; simpl; set_solver. }
    destruct (Hlk l' z Hz) as [[? Hno']|(v & ? & ? & Hv & Hvn)].
    + left. split; [done|]. intros v. rewrite Hiff. apply Hno'.
    + right. exists v. split_and!; [done..|by apply Hiff|]. intros v' Hv'. apply Hvn. by apply Hiff.
Qed.

Lemma Inv_acquire l y t x rs ls lr lz E s :
  Inv x rs ls lr lz E s → k_locks s !! l = Some y → 0 < lock_count y → p_stat (E t) = PLive →
  lock_count y = 1 ∧
  Inv x rs ls lr lz (upd E t (nowheld (E t) l)) (set_locks (λ m, <[l := mkLock 0 (Some t)]> m) s).
Proof.
  intros [Hl Hp Hh Hs Hsm Hlk Hf Hpd Hst Hcpu Ho Hus] Hy Hpos Hlive.
  destruct (locks_acquire E t l y _ Hlk Hy Hpos) as [H1 Hlk']. split; [done|].
  assert (same_role (E t) (nowheld (E t) l)) as Hrole by done.
  split; simpl; try done.
  - by destruct Hl.
  - by apply ghost_placed.
  - by apply ghost_heaped.
  - intros u th Hu Hth. simpl in *. destruct (Hs u th Hu Hth) as (S1 & S2 & S3).
    split; [done|]. split; [done|]. intros z. rewrite lookup_insert_Some.
    intros [[_ <-]|[_ Hz]]; [done|by apply S3].
  - apply (ghost_fresh E); [done|]. destruct Hf as [F1 F2 F3 F4 F5 F6]. split; simpl; try done.
    + intros b. rewrite lookup_insert_is_Some. intros [<-|[_ ?]]; apply F4; eauto.
    + intros b Hb. specialize (F5 b Hb). rewrite lookup_insert_ne; [done|congruence].
  - by destruct Hpd.
  - apply ghost_static; [done|by apply (st_known _ _ _ _ _ _ Hst t)|].
    destruct Hst as [T1 T2 T3 T4 T5]. split; simpl; try done.
    + intros b Hb. apply lookup_insert_is_Some. destruct (decide (l = b)); [by left|right; auto].
    + intros b Hb. destruct (T3 b Hb) as (? & ? & ?). split_and!; [lia|lia|done|].
      rewrite lookup_insert_ne; [done|congruence].
  - apply ghost_user; [done|done|done|pose proof (f_next _ _ Hf); lia|done].
Qed.

Lemma I_run_lock t l E s :
  I_run t E s → l ∈ LOCKS →
  ∃ y, k_locks s !! l = Some y ∧ lock_ok E l y ∧ l ≠ 0 ∧ l < k_next s ∧ k_sems s !! l = None.
Proof.
  intros (_ & _ & _ & ls & lr & lz & [_ _ _ _ _ Hlk Hf _ Hst _ _ _]) Hin.
  destruct (st_locks _ _ _ _ _ _ Hst l Hin) as [y Hy]. exists y. split; [done|].
  pose proof (f_locks _ _ Hf l ltac:(eauto)). split_and!; [by apply Hlk|lia|lia|].
  apply eq_None_not_Some. intros Hs. rewrite (f_disj _ _ Hf l Hs) in Hy. done.
Qed.

Lemma wp_lock_acquire t l Q E s :
  I_run t E s → p_int (E t) = 0 → l ∈ LOCKS →
  (∀ r E' s', E' t = nowheld (E t) l → I_run t E' s' →
     curspl (k_cpu s') = curspl (k_cpu s) → Q r E' s') →
  wp t (lock_acquire l) Q E s.
Proof.
  intros HI Hint Hin HQ. pose proof (I_run_spl _ _ _ _ _ _ _ HI) as Hspl.
  unfold lock_acquire. apply wp_bind. eapply wp_enter; [done| |].
  { intros E' s' HE HI'. destruct (I_run_lock t l E' s' HI' Hin) as (y & _ & _ & Hne & _).
    destruct HI' as (_ & Hi & _). rewrite HE, Hint in Hi. kgo. by rewrite k_splhigh_run. }
  intros E1 s1 HE1 HR1. apply wp_done.
  exists (λ E' s', E' t = E t ∧ I_resume t E' s'). split; [by split|].
  intros E2 s2 [HE2 HR2]. split; [by eapply I_resume_off|].
  pose proof HR2 as [HI2 _]. destruct (I_run_lock t l E2 s2 HI2 Hin) as (y & Hy & Hok & Hne & Hlt & Hns).
  exists (lock_count y =? 0). split.
  { unfold get_lock. kgo. done. }
  destruct (Z.eqb_spec (lock_count y) 0) as [H0|H0].
  - apply wp_thread_sleep; [done|congruence| |].
    + split; [done|]. split; [by rewrite Hns|naive_solver].
    + intros E3 s3 HE3 HR3. split; [congruence|done].
  - apply wp_act_off; [by eapply I_resume_off|]. right.
    pose proof (I_run_live _ _ _ HI2) as Hlive.
    destruct HI2 as (Hc2 & Hi2 & Ht0 & ls & lr & lz & HI2).
    assert (0 < lock_count y) as Hpos by (destruct Hok as [[? _]|(? & ? & _)]; lia).
    destruct (Inv_acquire l y t t [t] ls lr lz E2 s2 HI2 Hy Hpos Hlive) as [Hy1 HI3].
    set (s3 := set_locks (λ m, <[l := mkLock 0 (Some t)]> m) s2) in *.
    set (E3 := upd E2 t (nowheld (E2 t) l)) in *.
    assert (I_run t E3 s3) as HI3'.
    { split; [done|]. split; [unfold E3; rewrite upd_eq; done|]. split; [done|]. eauto. }
    destruct (I_run_splx SEMS LOCKS CVS BOOT _ _ s3 (curspl (k_cpu s)) HI3' Hspl) as (s4 & E4 & HI4 & Hs4).
    do 2 eexists. exists E3. split; [|split; [|apply wp_done; apply HQ; try done]].
    + unfold get_lock, put_lock. kgo. rewrite Hc2, Hy1. exact E4.
    + apply gstep_upd; simpl; [done|congruence].
    + unfold E3. by rewrite upd_eq, HE2.
Qed.

(** Giving up a held lock, as one piece of code. *)
Lemma I_run_release t l E s :
  I_run t E s → l ∈ LOCKS → l ∈ p_held (E t) →
  exhausted s ∨ ∃ s', lock_release l s = Ret (tt, s') ∧
    I_run t (upd E t (unheld (E t) l)) s' ∧ k_cpu s' = k_cpu s.
Proof.
  intros HI Hin Hheld. destruct (I_run_lock t l E s HI Hin) as (y & Hy & _).
  pose proof (I_run_live _ _ _ HI) as Hlive. destruct HI as (Hc & Hi & Ht0 & ls & lr & lz & HI).
  destruct (Z.lt_ge_cases (k_numthreads s) thread_lim) as [Hn|Hn]; [|left; by left].
  right. destruct (Inv_release SEMS LOCKS CVS BOOT l t t [t] ls lr lz E s)
    as (s' & ls' & lr' & E1 & HI' & A1 & A2 & A3 & _); [done|done|eauto|done|done|].
  exists s'. split; [done|]. split; [|done]. split; [congruence|].
  split; [rewrite upd_eq, A2; done|]. split; [done|]. eauto.
Qed.

Lemma wp_lock_release t l Q E s :
  I_run t E s → l ∈ LOCKS → l ∈ p_held (E t) →
  (∀ r E' s', E' t = unheld (E t) l → I_run t E' s' →
     curspl (k_cpu s') = curspl (k_cpu s) → Q r E' s') →
  wp t (act_ (lock_release l)) Q E s.
Proof.
  intros HI Hin Hheld HQ. apply wp_act; [done|]. intros E' s' HE HI' Hspl.
  destruct (I_run_release t l E' s' HI') as [?|(s2 & E2 & HI2 & Hs2)]; [done|by rewrite HE|by left|right].
  exists 0, s2, (upd E' t (unheld (E' t) l)). split; [by rewrite (K_bind _ _ _ _ _ E2)|]. split.
  { apply gstep_upd; simpl; [done|]. rewrite (I_run_live _ _ _ HI'). congruence. }
  apply wp_done, HQ; [by rewrite upd_eq, HE|done|congruence].
Qed.

(** [assert(lock_do_i_hold(l))] holds for the holder. *)
Lemma wp_held t l Q E s :
  I_run t E s → l ∈ LOCKS → l ∈ p_held (E t) →
  (∀ r E' s', E' t = E t → I_run t E' s' → curspl (k_cpu s') = curspl (k_cpu s) → Q r E' s') →
  wp t (act_ (r ← lock_do_i_hold l; kcheck (r =? 1))) Q E s.
Proof.
  intros HI Hin Hheld HQ. apply wp_act; [done|]. intros E' s' HE HI' Hspl. right.
  exists 0, s', E'. split; [|split; [apply gstep_refl|apply wp_done, HQ; done]].
  destruct (I_run_lock t l E' s' HI' Hin) as (y & Hy & Hok & _).
  destruct Hok as [[_ Hno]|(u & _ & Hu & Hh & Huniq)]; [by destruct (Hno t); rewrite HE|].
  assert (t = u) as <- by (apply Huniq; by rewrite HE).
  destruct HI' as (Hc & _). unfold lock_do_i_hold, get_lock. kgo. rewrite Hc, Z.eqb_refl. kgo. done.
Qed.

(** ** Condition variables *)

Lemma unheld_nowheld p l : l ∈ p_held p → nowheld (unheld p l) l = p.
Proof.
  intros Hl. destruct p as [a b c d e f g h]; unfold nowheld, unheld; simpl in *. f_equal.
  apply leibniz_equiv. intros x. destruct (decide (x = l)); set_solver.
Qed.

Lemma I_run_cv t cv E s : I_run t E s → cv ∈ CVS → cv ≠ 0 ∧ may_sleep cv s.
Proof.
  intros (_ & _ & _ & ls & lr & lz & [_ _ _ _ _ _ Hf _ Hst _ _ _]) Hin.
  destruct (st_cvs _ _ _ _ _ _ Hst cv Hin) as (Hr & Hs & Hl).
  split; [lia|]. split; [lia|]. rewrite Hs, Hl. done.
Qed.

(** [cv_wait] gives up the lock, sleeps, and has it again when it returns. *)
Lemma wp_cv_wait t cv l Q E s :
  I_run t E s → p_int (E t) = 0 → cv ∈ CVS → l ∈ LOCKS → l ∈ p_held (E t) →
  (∀ r E' s', E' t = E t → I_run t E' s' → curspl (k_cpu s') = curspl (k_cpu s) → Q r E' s') →
  wp t (cv_wait cv l) Q E s.
Proof.
  intros HI Hint Hcv Hin Hheld HQ. pose proof (I_run_spl _ _ _ _ _ _ _ HI) as Hspl.
  unfold cv_wait. apply wp_bind, wp_act; [done|]. intros E1 s1 HE1 HI1 Hs1.
  pose proof (I_run_hi _ _ _ _ _ _ _ HI1) as HR1.
  destruct (I_run_release t l E1 (hi s1)) as [?|(s2 & E2 & HI2 & Hs2)];
    [apply HR1|done|by rewrite HE1|by left|right].
  set (E3 := upd E1 t (unheld (E1 t) l)) in *.
  assert (E3 t = unheld (E t) l) as HE3 by (unfold E3; by rewrite upd_eq, HE1).
  exists (curspl (k_cpu s1)), s2, E3. split.
  { rewrite k_splhigh_bind. destruct (I_run_cv t cv E1 s1 HI1 Hcv) as [Hcv0 _].
    destruct (I_run_lock t l E1 s1 HI1 Hin) as (_ & _ & _ & Hl0 & _).
    kgo. rewrite (K_bind _ _ _ _ _ E2). done. }
  split.
  { apply gstep_upd; simpl; [done|]. rewrite (I_run_live _ _ _ HI1). congruence. }
  apply wp_done, wp_bind. assert (I_resume t E3 s2) as HR2 by (split; [done|by rewrite Hs2]).
  apply wp_thread_sleep; [done|by rewrite HE3|by apply (I_run_cv t cv E3 s2)|].
  intros E4 s4 HE4 HR4. apply wp_bind. rewrite Hs1. apply wp_leave; [done|done|].
  intros _ s5 HI5 Hs5. apply wp_lock_acquire; [done|by rewrite HE4, HE3|done|].
  intros r E6 s6 HE6 HI6 Hs6. apply HQ; [|done|congruence].
  rewrite HE6, HE4, HE3. by apply unheld_nowheld.
Qed.

(** [cv_signal] and [cv_broadcast] give up the lock and wake everyone. *)
Lemma cv_wake_ok t cv l E s :
  I_run t E s → cv ∈ CVS → l ∈ LOCKS → l ∈ p_held (E t) →
  exhausted s ∨ ∃ s2 s3 s4, lock_release l (hi s) = Ret (tt, s2) ∧
    thread_wakeup cv s2 = Ret (tt, s3) ∧ k_splx (curspl (k_cpu s)) s3 = Ret (SPL_HIGH, s4) ∧
    I_run t (upd E t (unheld (E t) l)) s4 ∧ curspl (k_cpu s4) = curspl (k_cpu s).
Proof.
  intros HI Hcv Hin Hheld. pose proof (I_run_hi _ _ _ _ _ _ _ HI) as HR.
  pose proof (I_run_spl _ _ _ _ _ _ _ HI) as Hspl.
  destruct (Z.lt_ge_cases (k_numthreads s) thread_lim) as [Hn|Hn]; [|left; by left].
  pose proof (I_run_live _ _ _ HI) as Hlive. destruct (I_run_lock t l E s HI Hin) as (y & Hy & _).
  right. destruct HR as ((Hc & Hi & Ht0 & ls & lr & lz & HR) & _).
  destruct (Inv_release SEMS LOCKS CVS BOOT l t t [t] ls lr lz E (hi s))
    as (s2 & ls2 & lr2 & E2 & HI2 & A1 & A2 & A3 & A4 & A5); [done|done|eauto|done|done|].
  destruct (Inv_wakeup SEMS LOCKS CVS BOOT cv t [t] ls2 lr2 lz _ s2 HI2)
    as (s3 & ls3 & lr3 & E3 & HI3 & B1 & B2 & B3 & B4); [by rewrite A5|by rewrite A3|].
  assert (I_run t (upd E t (unheld (E t) l)) s3) as HI3'.
  { split; [congruence|]. split; [rewrite upd_eq, B2, A2; done|]. split; [done|]. eauto. }
  destruct (I_run_splx SEMS LOCKS CVS BOOT _ _ s3 (curspl (k_cpu s)) HI3' Hspl) as (s4 & E4 & HI4 & Hs4).
  exists s2, s3, s4. split_and!; try done. rewrite E4. f_equal. f_equal. rewrite B3, A3. done.
Qed.

Lemma wp_cv_signal t cv l Q E s :
  I_run t E s → cv ∈ CVS → l ∈ LOCKS → l ∈ p_held (E t) →
  (∀ r E' s', E' t = unheld (E t) l → I_run t E' s' →
     curspl (k_cpu s') = curspl (k_cpu s) → Q r E' s') →
  wp t (act_ (cv_signal cv l)) Q E s.
Proof.
  intros HI Hcv Hin Hheld HQ. apply wp_act; [done|]. intros E' s' HE HI' Hspl.
  destruct (cv_wake_ok t cv l E' s' HI' Hcv Hin) as [?|(s2 & s3 & s4 & E2 & E3 & E4 & HI4 & Hs4)];
    [by rewrite HE|by left|right].
  exists 0, s4, (upd E' t (unheld (E' t) l)). split.
  { unfold cv_signal. rewrite K_bind_assoc, k_splhigh_bind.
    destruct (I_run_cv t cv E' s' HI' Hcv) as [Hcv0 _].
    destruct (I_run_lock t l E' s' HI' Hin) as (_ & _ & _ & Hl0 & _). kgo.
    rewrite (K_bind _ _ _ _ _ E2). kgo. rewrite (K_bind _ _ _ _ _ E3). kgo.
    by rewrite (K_bind _ _ _ _ _ E4). }
  split; [apply gstep_upd; simpl; [done|]; rewrite (I_run_live _ _ _ HI'); congruence|].
  apply wp_done, HQ; [by rewrite upd_eq, HE|done|congruence].
Qed.

Lemma wp_cv_broadcast t cv l Q E s :
  I_run t E s → cv ∈ CVS → l ∈ LOCKS → l ∈ p_held (E t) →
  (∀ r E' s', E' t = unheld (E t) l → I_run t E' s' →
     curspl (k_cpu s') = curspl (k_cpu s) → Q r E' s') →
  wp t (act_ (cv_broadcast cv l)) Q E s.
Proof.
  intros HI Hcv Hin Hheld HQ. apply wp_act; [done|]. intros E' s' HE HI' Hspl.
  destruct (cv_wake_ok t cv l E' s' HI' Hcv Hin) as [?|(s2 & s3 & s4 & E2 & E3 & E4 & HI4 & Hs4)];
    [by rewrite HE|by left|right].
  exists 0, s4, (upd E' t (unheld (E' t) l)). split.
  { unfold cv_broadcast. rewrite K_bind_assoc, k_splhigh_bind.
    destruct (I_run_cv t cv E' s' HI' Hcv) as [Hcv0 _]. kgo.
    rewrite (K_bind _ _ _ _ _ E2). kgo. rewrite (K_bind _ _ _ _ _ E3). kgo.
    by rewrite (K_bind _ _ _ _ _ E4). }
  split; [apply gstep_upd; simpl; [done|]; rewrite (I_run_live _ _ _ HI'); congruence|].
  apply wp_done, HQ; [by rewrite upd_eq, HE|done|congruence].
Qed.

(** ** The clock *)

Lemma may_sleep_lbolt t E s : I_run t E s → may_sleep lbolt s.
Proof.
  intros (_ & _ & _ & ls & lr & lz & [_ _ _ _ _ _ Hf _ _ _ _ _]).
  pose proof (f_next _ _ Hf). unfold lbolt. split; [lia|]. split; intros x Hx.
  - pose proof (f_sems _ _ Hf 4 ltac:(eauto)). lia.
  - pose proof (f_locks _ _ Hf 4 ltac:(eauto)). lia.
Qed.

Lemma wp_clocksleep_loop t n Q E s :
  I_resume t E s → p_int (E t) = 0 →
  (∀ r E' s', E' t = E t → I_resume t E' s' → Q r E' s') →
  wp t (clocksleep_loop n) Q E s.
Proof.
  revert E s. induction n as [|n IH]; intros E s HR Hint HQ; cbn [clocksleep_loop].
  { by apply wp_done, HQ. }
  apply wp_bind, wp_thread_sleep; [done|done|by eapply may_sleep_lbolt, HR|].
  intros E1 s1 HE1 HR1. apply IH; [done|congruence|]. intros r E2 s2 HE2 HR2.
  apply HQ; [congruence|done].
Qed.

Lemma wp_clocksleep t n Q E s :
  I_run t E s → p_int (E t) = 0 →
  (∀ r E' s', E' t = E t → I_run t E' s' → curspl (k_cpu s') = curspl (k_cpu s) → Q r E' s') →
  wp t (clocksleep n) Q E s.
Proof.
  intros HI Hint HQ. pose proof (I_run_spl _ _ _ _ _ _ _ HI) as Hspl.
  unfold clocksleep. apply wp_bind. eapply wp_enter; [done|by intros; rewrite k_splhigh_run|].
  intros E1 s1 HE1 HR1. apply wp_done, wp_bind, wp_clocksleep_loop; [done|congruence|].
  intros _ E2 s2 HE2 HR2. apply wp_leave; [done|done|]. intros r s3 HI3 Hs3.
  apply HQ; [congruence|done|done].
Qed.

End Rules.
