(* ===== verification/Lifecycle.v ===== *)
(** Creating and ending threads: rules of the logic for [thread_fork] and
    [thread_exit], and the pid list they maintain. *)

From Stdlib Require Import ZArith Lia.
From stdpp Require Import base numbers list option gmap.
From S2P Require Import Prelude Array Queue Cpu Vm Kernel Thread Machine ThreadOps ThreadInv.
From S2P Require Import Logic SynchProofs SynchRules.

Open Scope Z_scope.

Lemma kalloc_bind {B} (f : Z → K B) s :
  k_orc s = [] → (kalloc ≫= f) s = f (k_next s) (set_alloc (k_next s + 16) [] s).
Proof. intros H. apply K_bind. by apply kalloc_ok. Qed.

(** ** Assigning pids *)

(** A free node taken over, and a node appended, by thread [cur] for [e]. *)
Definition taken (p : pid) (cur e : Z) : pid :=
  mkPid (pd_pidValue p) 1 cur 0 (exitCode p) e (parentSem p).
Definition appended (v cur e sem : Z) : pid := mkPid v 1 cur 0 None e sem.

Lemma append_pid_ok v e th s :
  k_threads s !! k_curthread s = Some th → k_orc s = [] → 0 < k_next s → cpu_wf (k_cpu s) →
  append_pid v e s =
    Ret (tt, set_pids (k_pids s ++ [appended v (pidValue th) e (k_next s + 16)])
               (set_sems (λ m, <[k_next s + 16 := mkSem 1]> m) (set_alloc (k_next s + 48) [] s))).
Proof.
  intros Hth Ho Hn Hc. unfold append_pid. rewrite k_splhigh_bind.
  rewrite kalloc_bind by done.
  change (k_next (hi s)) with (k_next s).
  rewrite (proj2 (Z.eqb_neq (k_next s) 0)) by lia. unfold get_curthread. kgo.
  rewrite (get_thread_bind _ th) by done. unfold sem_create. kgo.
  rewrite kalloc_bind by done. cbn [k_next set_alloc].
  rewrite (proj2 (Z.eqb_neq (k_next s + 16) 0)) by lia. kgo.
  rewrite kalloc_bind by done. cbn [k_next set_alloc].
  rewrite (proj2 (Z.eqb_neq (k_next s + 16 + 16) 0)) by lia. kgo.
  rewrite (k_splx_back _ s) by done.
  replace (k_next s + 16 + 16 + 16) with (k_next s + 48) by lia. by destruct s.
Qed.

(** The two ways [assign_pid] finds a pid. *)
Definition assigned (e : Z) (th : thread) (s : kstate) (v : Z) (s' : kstate) : Prop :=
  (∃ i p, (1 ≤ i)%nat ∧ k_pids s !! i = Some p ∧ isUsed p = 0 ∧ v = Z.of_nat i + 1 ∧
     s' = set_pids (<[i := taken p (pidValue th) e]> (k_pids s)) s) ∨
  (v = Z.of_nat (length (k_pids s)) + 1 ∧
   s' = set_pids (k_pids s ++ [appended v (pidValue th) e (k_next s + 16)])
          (set_sems (λ m, <[k_next s + 16 := mkSem 1]> m) (set_alloc (k_next s + 48) [] s))).

Lemma assign_walk_ok e th s pre current rest :
  k_pids s = pre ++ current :: rest → pids_wf (k_pids s) →
  Z.of_nat (length (k_pids s)) < INT_MAX →
  k_threads s !! k_curthread s = Some th → k_orc s = [] → 0 < k_next s → cpu_wf (k_cpu s) →
  ∃ v s', assign_pid_walk current rest (S (length pre)) e s = Ret (v, s') ∧ assigned e th s v s'.
Proof.
  revert pre current. induction rest as [|next rest IH];
    intros pre current Hp Hwf Hlen Hth Ho Hn Hc; cbn [assign_pid_walk].
  - assert (pd_pidValue current = Z.of_nat (length pre) + 1) as Hv.
    { apply Hwf. rewrite Hp. by apply list_lookup_middle. }
    assert (Z.of_nat (length (k_pids s)) = Z.of_nat (length pre) + 1) as Hl
      by (rewrite Hp, length_app; simpl; lia).
    rewrite Hv, s32_id by (unfold is_s32, INT_MAX in *; lia).
    rewrite (K_bind _ _ _ _ _ (append_pid_ok _ _ th s Hth Ho Hn Hc)).
    do 2 eexists. split; [done|]. right. rewrite Hl. done.
  - assert (k_pids s !! S (length pre) = Some next) as Hnext.
    { rewrite Hp. change (current :: next :: rest) with ([current] ++ next :: rest).
      rewrite app_assoc. apply list_lookup_middle. rewrite length_app. simpl. lia. }
    destruct (Z.eqb_spec (isUsed next) 0) as [Hu|Hu].
    + unfold get_curthread. kgo. rewrite (get_thread_bind _ th) by done. kgo.
      do 2 eexists. split; [done|]. left. exists (S (length pre)), next.
      split_and!; [lia|done|done|rewrite (Hwf _ _ Hnext); lia|done].
    + destruct (IH (pre ++ [current]) next) as (v & s' & E1 & HA); try done.
      { by rewrite <- app_assoc. }
      rewrite length_app in E1. simpl in E1. rewrite Nat.add_1_r in E1. eauto.
Qed.

Lemma assign_pid_ok e th s :
  pids_wf (k_pids s) → (1 ≤ length (k_pids s))%nat → Z.of_nat (length (k_pids s)) < INT_MAX →
  k_threads s !! k_curthread s = Some th → k_orc s = [] → 0 < k_next s → cpu_wf (k_cpu s) →
  ∃ v s', assign_pid e s = Ret (v, s') ∧ assigned e th s v s'.
Proof.
  intros Hwf Hl1 Hlen Hth Ho Hn Hc. unfold assign_pid. rewrite k_splhigh_bind. kgo.
  destruct (k_pids s) as [|h rest] eqn:Ep; [simpl in Hl1; lia|].
  change (k_pids (hi s)) with (k_pids s). rewrite Ep. cbn [head tail]. kgo.
  destruct (assign_walk_ok e th (hi s) [] h rest) as (v & s1 & E1 & HA);
    [done|by rewrite <- Ep in *|by rewrite <- Ep in *|done|done|done|by apply splhigh_wf|].
  rewrite (K_bind _ _ _ _ _ E1). exists v, (set_cpu (k_cpu s) s1). split.
  - rewrite (k_splx_back _ s); [done|done|].
    destruct HA as [(i & p & _ & _ & _ & _ & ->)|[_ ->]]; done.
  - destruct HA as [(i & p & H1 & H2 & H3 & H4 & ->)|[-> ->]]; [left; exists i, p|right];
      repeat (split; [done|]); by destruct s.
Qed.

Section Lifecycle.
Context (SEMS LOCKS CVS : gset Z) (BOOT : Z).

#[local] Abbreviation Inv := (Inv SEMS LOCKS CVS BOOT).
#[local] Abbreviation I_run := (I_run SEMS LOCKS CVS BOOT).
#[local] Abbreviation I_sched := (I_sched SEMS LOCKS CVS BOOT).
#[local] Abbreviation I_resume := (I_resume SEMS LOCKS CVS BOOT).
#[local] Abbreviation wp := (wp SEMS LOCKS CVS BOOT).
#[local] Abbreviation pids_ok := (pids_ok SEMS BOOT).

(** ** The new thread *)

(** The state after [thread_create]: a new structure [e], the pid list [P]
    and the semaphores [M]. *)
Definition created (e : Z) (th : thread) (P : list pid) (M : gmap Z semaphore) (nxt : Z)
    (s : kstate) : kstate :=
  set_threads (λ m, <[e := th]> m) (set_pids P (set_sems (λ _, M) (set_alloc nxt [] s))).

Lemma Inv_embryo t ls lr lz E s th P M nxt :
  Inv t [t] ls lr lz E s → p_emb (E t) = None → k_next s < nxt →
  th_ok th → pcb_ininterrupt th = 0 → t_vmspace th = 0 →
  (∀ a x, M !! a = Some x → 0 ≤ sem_count x ≤ INT_MAX ∧ 16 ≤ a < nxt ∧
     (a < k_next s → k_sems s !! a = Some x ∨ ∃ y, k_sems s !! a = Some y ∧ 1 ≤ sem_count y)) →
  (∀ a, is_Some (k_sems s !! a) → is_Some (M !! a)) →
  (∀ a, is_Some (M !! a) → is_Some (k_sems s !! a) ∨ k_next s ≤ a) →
  (∀ i p, k_pids s !! i = Some p → ∃ p', P !! i = Some p' ∧ parentSem p' = parentSem p) →
  pids_ok lz (created (k_next s) th P M nxt s) →
  Inv t [t] ls lr lz (upd E t (with_emb (E t) (Some (k_next s, false))))
    (created (k_next s) th P M nxt s).
Proof.
  intros HI Hemb Hnxt Hok Hpcb Hvm HM1 HM2 HM3 HN HP.
  destruct HI as [Hl Hp Hh Hs Hsm Hlk Hf Hpd Hst Hcpu Ho Hus].
  destruct Hf as [F1 F2 F3 F4 F5 F6]. destruct Hh as [A1 A2 A3 A4 A5].
  assert (p_stat (E t) = PLive) as Hlive by (apply (pl_live _ _ _ _ _ _ Hp); set_solver).
  assert (t ≠ k_next s) as Hte.
  { intros ->. rewrite F6 in Hlive by lia. done. }
  assert (k_threads s !! k_next s = None) as Hnone.
  { apply eq_None_not_Some. intros H. apply F2 in H. lia. }
  set (E' := upd E t _).
  assert (∀ u, p_stat (E' u) = p_stat (E u)) as Hst'.
  { intros u. unfold E', upd. by destruct (Z.eqb_spec u t) as [->|]. }
  assert (∀ u, p_int (E' u) = p_int (E u)) as Hint'.
  { intros u. unfold E', upd. by destruct (Z.eqb_spec u t) as [->|]. }
  assert (∀ u, p_held (E' u) = p_held (E u)) as Hheld'.
  { intros u. unfold E', upd. by destruct (Z.eqb_spec u t) as [->|]. }
  assert (∀ u, p_node (E' u) = p_node (E u)) as Hsem'.
  { intros u. unfold E', upd. by destruct (Z.eqb_spec u t) as [->|]. }
  split; simpl; try done.
  - by destruct Hl.
  - destruct Hp as [N1 N2 N3 N4]. split; [done|done| |]; intros u; rewrite Hst'; auto.
  - split; simpl.
    + intros u Hu. apply lookup_insert_is_Some. destruct (decide (k_next s = u)); [by left|right]. auto.
    + intros u thu. rewrite lookup_insert_Some. intros [[<- <-]|[_ Hu]]; [done|by eapply A2].
    + intros u thu Hut. rewrite lookup_insert_Some, Hst', Hint'.
      intros [[<- <-]|[_ Hu]] Hul; [rewrite F6 in Hul by lia; done|by apply A3].
    + intros u e b. unfold E' at 1. destruct (Z.eq_dec u t) as [->|Hut].
      * rewrite upd_eq. simpl. intros [= <- <-]. split; [exists th; by rewrite lookup_insert_eq|].
        split; [unfold E'; rewrite upd_ne by done; apply F6; lia|by rewrite Hst'].
      * rewrite upd_ne by done. intros He. destruct (A4 u e b He) as ((the & Hthe & Hi) & Hp0 & Hul).
        assert (e ≠ k_next s) by congruence. assert (e ≠ t) by (intros ->; rewrite Hp0 in Hlive; done).
        split; [exists the; by rewrite lookup_insert_ne|].
        split; [unfold E'; by rewrite upd_ne|by rewrite Hst'].
    + intros u u' e b b'. unfold E'. destruct (Z.eq_dec u t) as [->|], (Z.eq_dec u' t) as [->|];
        rewrite ?upd_eq, ?upd_ne by done; simpl; [done| | |eauto].
      * intros [= <- <-] He. destruct (A4 u' _ _ He) as ((the & Hthe & _) & _). congruence.
      * intros He [= <- <-]. destruct (A4 u _ _ He) as ((the & Hthe & _) & _). congruence.
  - intros u thu Hu. simpl. rewrite lookup_insert_Some. intros [[<- _]|[_ Hthu]].
    { destruct (A1 (k_next s) ltac:(set_solver)) as [? ?]. congruence. }
    destruct (Hs u thu Hu Hthu) as (S1 & S2 & S3). split; [lia|]. split; [|done].
    intros x Hx. destruct (HM1 _ _ Hx) as (_ & _ & Hold). destruct (Hold S1) as [?|(y & Hy & Hy1)]; [auto|].
    specialize (S2 y Hy). lia.
  - intros a x Hx. by destruct (HM1 a x Hx).
  - intros l x Hx. destruct (Hlk l x Hx) as [[? Hno]|(u & ? & ? & Hu & Hun)]; [left|right].
    + split; [done|]. intros v. rewrite Hheld'. apply Hno.
    + exists u. rewrite Hheld'. split_and!; try done. intros u'. rewrite Hheld'. auto.
  - split; simpl.
    + lia.
    + intros u. rewrite lookup_insert_is_Some. intros [<-|[_ Hu]]; [lia|]. apply F2 in Hu. lia.
    + intros a [x Hx]. by destruct (HM1 a x Hx) as (_ & ? & _).
    + intros a Ha. apply F4 in Ha. lia.
    + intros a Ha. destruct (HM3 a Ha) as [?|Hge]; [by apply F5|].
      apply eq_None_not_Some. intros Hlk'. apply F4 in Hlk'. lia.
    + intros u Hu. unfold E'. rewrite upd_ne; [apply F6; lia|]. intros ->.
      rewrite F6 in Hlive by lia. done.
  - destruct Hst as [T1 T2 T3 T4 T5]. split; simpl.
    + intros a Ha. apply HM2. auto.
    + done.
    + intros a Ha. destruct (T3 a Ha) as (? & ? & ?). split; [lia|]. split; [|done].
      apply eq_None_not_Some. intros HMa. destruct (HM3 a HMa) as [[? ?]|]; [congruence|lia].
    + intros u i a. rewrite Hsem'. intros Ha. destruct (T4 u i a Ha) as (q & Hq & <-). by apply HN.
    + by rewrite Hst'.
  - eapply user_ok_step; [exact Hus| | | |lia].
    + intros u. unfold E', upd. by destruct (Z.eqb_spec u t) as [->|].
    + intros u. unfold E', upd. destruct (Z.eqb_spec u t) as [->|]; auto.
    + intros u thu. rewrite lookup_insert_Some. intros [[<- <-]|[_ Hu]].
      * split; [|done]. right. split; [done|]. rewrite F6 by lia. done.
      * split; [eauto|]. intros Hz. by apply (uo_dead _ _ _ _ _ _ _ Hus u).
Qed.

(** A zombie's pid is one of the used nodes. *)
Lemma dead_pid_old lz m e th i :
  e ∉ lz → dead_pid lz (<[e := th]> m) i → dead_pid lz m i.
Proof.
  intros He (t & tht & Ht & Hth & Hi). exists t, tht. rewrite lookup_insert_ne in Hth; [done|].
  by intros ->.
Qed.

Lemma dead_pid_used lz s i :
  pids_ok lz s → (1 ≤ i)%nat → dead_pid lz (k_threads s) i →
  ∃ p, k_pids s !! i = Some p ∧ isUsed p = 1.
Proof.
  intros HP Hi (t & th & _ & Hth & <-).
  destruct (pd_thread _ _ _ _ HP t th Hth) as [(E1 & _)|(_ & p & Hp & Hu & _)]; [|eauto].
  rewrite E1 in Hi. simpl in Hi. lia.
Qed.

(** A pid taken over: the other nodes, and the threads they belong to, are
    as before. *)
Lemma pids_ok_taken lz s i p x cur e nxt :
  pids_ok lz s → k_pids s !! i = Some p → (1 ≤ i)%nat → isUsed p = 0 →
  k_sems s !! parentSem p = Some x → e ∉ lz → k_threads s !! e = None →
  pids_ok lz (created e (mkThread 0 None (Z.of_nat i + 1) 0 0 0 0 0)
                (<[i := taken p cur e]> (k_pids s))
                (<[parentSem p := mkSem (sem_count x - 1)]> (k_sems s)) nxt s).
Proof.
  intros HP Hp Hi Hu Hx He Hne. pose proof HP as [P1 P2 P3 P4 P5 P6]. pose proof (lookup_lt_Some _ _ _ Hp) as Hlt.
  split; simpl.
  - intros j q. rewrite list_lookup_insert_Some. intros [(<- & <- & _)|[_ Hq]]; [simpl|]; by apply P1.
  - by rewrite length_insert.
  - intros j q. rewrite list_lookup_insert_Some. intros [(<- & <- & _)|[Hij Hq]] Hj; simpl.
    + destruct (P3 i p Hp Hj) as (Hns & _). split; [done|]. rewrite lookup_insert_eq.
      eexists; split; [done|]. intros [?|Hd]; [done|]. apply dead_pid_old in Hd; [|done].
      destruct (dead_pid_used _ _ _ HP Hi Hd) as (p' & Hp' & ?). congruence.
    + destruct (P3 j q Hq Hj) as (Hns & y & Hy & Hup). split; [done|]. exists y. split.
      * rewrite lookup_insert_ne; [done|]. intros E1. apply Hij. by eapply P4.
      * intros [?|Hd]; apply Hup; [by left|right; by eapply dead_pid_old].
  - intros j k q q'. rewrite !list_lookup_insert_Some.
    intros [(<- & <- & _)|[? Hq]] [(<- & <- & _)|[? Hq']]; simpl; eauto.
  - intros u th. rewrite lookup_insert_Some. intros [[<- <-]|[Hue Hth]].
    + right. simpl. split; [lia|]. exists (taken p cur e).
      rewrite Z.add_simpl_r, Nat2Z.id, list_lookup_insert_eq by done. done.
    + destruct (P5 u th Hth) as [(? & ? & ?)|(Hv & q & Hq & Hqu & Hqm)].
      * left. by rewrite length_insert.
      * right. split; [done|]. exists q. rewrite list_lookup_insert_ne; [done|].
        intros Hi'. rewrite <- Hi' in Hq. congruence.
  - intros j q. rewrite list_lookup_insert_Some. intros [(<- & <- & _)|[Hij Hq]].
    + destruct (P6 i p Hp) as (C1 & C2 & C3). split_and!; simpl; [lia|lia|]. intros _ y. rewrite lookup_insert_eq.
      intros [= <-]. simpl. intros Hy. apply (C3 Hi x Hx). lia.
    + destruct (P6 j q Hq) as (C1 & C2 & C3). split_and!; [done|done|]. intros Hj y. rewrite lookup_insert_Some.
      intros [[E1 _]|[_ Hy]]; [|by apply C3]. destruct Hij. by eapply P4.
Qed.

Lemma pids_ok_appended lz s cur e sm nxt E :
  pids_ok lz s → e ∉ lz → k_threads s !! e = None → fresh_ok E s → k_next s ≤ sm →
  (∀ a, a ∈ SEMS → is_Some (k_sems s !! a)) →
  pids_ok lz (created e (mkThread 0 None (Z.of_nat (length (k_pids s)) + 1) 0 0 0 0 0)
                (k_pids s ++ [appended (Z.of_nat (length (k_pids s)) + 1) cur e sm])
                (<[sm := mkSem 0]> (k_sems s)) nxt s).
Proof.
  intros HP He Hne Hf Hsm Hsems. pose proof HP as [P1 P2 P3 P4 P5 P6].
  assert (∀ a, is_Some (k_sems s !! a) → a ≠ sm) as Hfr.
  { intros a Ha. apply (f_sems _ _ Hf) in Ha. lia. }
  assert (∀ j q, (k_pids s ++ [appended (Z.of_nat (length (k_pids s)) + 1) cur e sm]) !! j = Some q →
    k_pids s !! j = Some q ∨ (j = length (k_pids s) ∧ q = appended (Z.of_nat (length (k_pids s)) + 1) cur e sm)) as Hcase.
  { intros j q Hq. apply lookup_app_Some in Hq as [?|[? Hq]]; [by left|right].
    apply list_lookup_singleton_Some in Hq as [? <-]. split; [lia|done]. }
  split; simpl.
  - intros j q Hq. destruct (Hcase j q Hq) as [?|[-> ->]]; [by apply P1|done].
  - rewrite length_app. simpl. lia.
  - intros j q Hq Hj. destruct (Hcase j q Hq) as [Hq'|[-> ->]]; simpl.
    + destruct (P3 j q Hq' Hj) as (Hns & y & Hy & Hup). split; [done|]. exists y.
      split; [rewrite lookup_insert_ne; [done|]; apply not_eq_sym, Hfr; eauto|].
      intros [?|Hd]; apply Hup; [by left|right; by eapply dead_pid_old].
    + split; [intros Hin; by apply (Hfr sm); auto|]. rewrite lookup_insert_eq.
      eexists; split; [done|]. intros [?|Hd]; [done|]. apply dead_pid_old in Hd; [|done].
      destruct (dead_pid_used _ _ _ HP Hj Hd) as (p' & Hp' & _). apply lookup_lt_Some in Hp'. lia.
  - intros j k q q' Hq Hq' Hj Hk Heq. destruct (Hcase j q Hq) as [Hq1|[-> ->]], (Hcase k q' Hq') as [Hq2|[-> ->]].
    + by eapply P4.
    + destruct (P3 j q Hq1 Hj) as (_ & y & Hy & _). simpl in Heq. exfalso. eapply Hfr; [eauto|done].
    + destruct (P3 k q' Hq2 Hk) as (_ & y & Hy & _). simpl in Heq. exfalso. eapply Hfr; [eauto|done].
    + done.
  - intros u th. rewrite lookup_insert_Some. intros [[<- <-]|[Hue Hth]].
    + right. simpl. split; [lia|].
      exists (appended (Z.of_nat (length (k_pids s)) + 1) cur e sm). split; [|done].
      rewrite Z.add_simpl_r, Nat2Z.id. by apply list_lookup_middle.
    + destruct (P5 u th Hth) as [(? & ? & ?)|(Hv & q & Hq & Hqu & Hqm)].
      * left. rewrite length_app. split_and!; [done..|lia].
      * right. split; [done|]. exists q. rewrite lookup_app_l by (by eapply lookup_lt_Some). done.
  - intros j q Hq. destruct (Hcase j q Hq) as [Hq'|[-> ->]].
    + destruct (P6 j q Hq') as (C1 & C2 & C3). split_and!; [done|done|]. intros Hj y. rewrite lookup_insert_Some.
      intros [[E1 _]|[_ Hy]]; [|by apply C3]. destruct (P3 j q Hq' Hj) as (_ & z & Hz & _). by destruct (Hfr (parentSem q)); [eauto|].
    + split_and!; simpl; [lia|lia|]. intros _ y. rewrite lookup_insert_eq. intros [= <-]. simpl. lia.
Qed.

(** [P] on a semaphore that is up, with interrupts off: no switch. *)
Lemma wp_P_up t sem x (Q : Z → ghost → kstate → Prop) E E' s :
  cpu_wf (k_cpu s) → curspl (k_cpu s) = SPL_HIGH → k_in_interrupt s = 0 → sem ≠ 0 →
  k_sems s !! sem = Some x → 1 ≤ sem_count x ≤ INT_MAX → gstep t E E' →
  (∀ r, Q r E' (set_sems (λ m, <[sem := mkSem (sem_count x - 1)]> m) s)) →
  wp t (P sem) Q E s.
Proof.
  intros Hc Hspl Hint Hne Hx Hcnt Hg HQ.
  assert (hi s = s) as Hhi by (unfold hi; rewrite splhigh_id by done; by destruct s).
  assert (ints_enabled (k_cpu s) = false) as Hoff by (destruct Hc as (_ & _ & ->); by rewrite Hspl).
  unfold P. apply wp_bind, wp_act_off; [done|]. right. exists SPL_HIGH, s, E.
  split; [kgo; rewrite k_splhigh_run, Hhi, Hspl; done|]. split; [apply gstep_refl|]. apply wp_done.
  exists (λ E1 s1, E1 = E ∧ s1 = s). split; [done|]. intros E1 s1 [-> ->]. split; [done|].
  exists false. split.
  { unfold get_sem. kgo. rewrite (proj2 (Z.eqb_neq _ _)) by lia. done. }
  apply wp_act_off; [done|]. right.
  exists SPL_HIGH, (set_sems (λ m, <[sem := mkSem (sem_count x - 1)]> m) s), E'.
  split; [|split; [done|by apply wp_done]].
  unfold get_sem, put_sem. kgo. rewrite s32_id by (unfold is_s32, INT_MAX in *; lia).
  unfold k_splx. cbn [k_cpu set_sems].
  change (splx SPL_HIGH (k_cpu s)) with (curspl (k_cpu s), (splhigh (k_cpu s)).2).
  rewrite splhigh_id, Hspl by done. by destruct s.
Qed.

(** The pid of the new thread, and the semaphore that goes with it, which is
    up. *)
Lemma create_pid_ok t E s ls lr lz :
  Inv t [t] ls lr lz E s → k_curthread s = t → p_emb (E t) = None →
  Z.of_nat (length (k_pids s)) < INT_MAX →
  let e := k_next s in
  let s0 := set_alloc (k_next s + 32) [] s in
  ∃ sem x s1, create_pid e s0 = Ret (sem, s1) ∧
    16 ≤ sem ∧ k_sems s1 !! sem = Some x ∧ 1 ≤ sem_count x ≤ INT_MAX ∧
    k_cpu s1 = k_cpu s ∧ k_in_interrupt s1 = k_in_interrupt s ∧ k_curthread s1 = t ∧
    (k_user s1 = k_user s ∧ k_next s ≤ k_next s1) ∧
    Inv t [t] ls lr lz (upd E t (with_emb (E t) (Some (e, false))))
      (set_sems (λ m, <[sem := mkSem (sem_count x - 1)]> m) s1).
Proof.
  intros HI Hc Hemb Hlen e s0. pose proof HI as [_ Hp Hh _ Hsm _ Hf Hpd Hst Hcpu Ho Hus].
  pose proof (f_next _ _ Hf) as Hn. destruct (h_listed _ _ _ _ _ _ _ Hh t ltac:(set_solver)) as [th Hth].
  assert (k_threads s !! e = None) as Hnone.
  { apply eq_None_not_Some. intros H. apply (f_threads _ _ Hf) in H. unfold e in H. lia. }
  assert (e ∉ lz) as Hez.
  { intros H. destruct (h_listed _ _ _ _ _ _ _ Hh e ltac:(set_solver)) as [? ?]. congruence. }
  pose proof Hpd as [P1 P2 P3 P4 P5 P6].
  destruct (assign_pid_ok e th s0) as (v & s1 & E1 & HA);
    [done|done|done|simpl; by rewrite Hc|done|simpl; lia|done|].
  assert (k_numthreads s ≠ 0) as Hnum.
  { rewrite (pl_num _ _ _ _ _ _ Hp). simpl. lia. }
  assert (create_pid e s0 = (_ ← put_thread e (mkThread 0 None v 0 0 0 0 0);
    pids ← kget k_pids; i ← kderef (pid_search pids v); n ← kderef (pids !! i);
    mret (parentSem n)) s1) as ->.
  { unfold create_pid. kgo. rewrite (proj2 (Z.eqb_neq _ _)) by done. by rewrite (K_bind _ _ _ _ _ E1). }
  unfold put_thread. kgo.
  destruct HA as [(i & p & Hi & Hip & Hu & -> & ->)|[-> ->]].
  - change (k_pids s0) with (k_pids s) in *. destruct (P3 i p Hip Hi) as (_ & x & Hx & Hup). specialize (Hup ltac:(by left)).
    pose proof (Hsm _ _ Hx) as Hxr. pose proof (lookup_lt_Some _ _ _ Hip) as Hlt.
    pose proof (pids_ok_taken lz s i p x (pidValue th) e (k_next s + 32) Hpd Hip Hi Hu Hx Hez Hnone) as HP.
    destruct (pid_search_ok (<[i := taken p (pidValue th) e]> (k_pids s)) (Z.of_nat i + 1))
      as [Hsearch _]; [apply HP|rewrite length_insert; lia|].
    replace (Z.to_nat (Z.of_nat i + 1 - 1)) with i in Hsearch by lia.
    erewrite K_bind_deref by exact Hsearch.
    erewrite K_bind_deref by (by apply list_lookup_insert_eq).
    exists (parentSem p), x. eexists. split; [done|]. pose proof (f_sems _ _ Hf (parentSem p) ltac:(eauto)).
    split; [lia|]. split; [done|]. split; [lia|]. do 3 (split; [done|]). split; [split; [done|simpl; lia]|].
    refine (Inv_embryo t ls lr lz E s _ _ _ _ HI Hemb _ _ _ _ _ _ _ _ HP); try done; [lia| | | |].
    + intros a y. rewrite lookup_insert_Some. intros [[<- <-]|[_ Hy]]; simpl.
      * split_and!; [lia|lia|lia|lia|]. intros _. right. eauto.
      * pose proof (f_sems _ _ Hf a ltac:(eauto)). pose proof (Hsm _ _ Hy). split_and!; [lia..|by left].
    + intros a Ha. apply lookup_insert_is_Some. destruct (decide (parentSem p = a)); [by left|by right].
    + intros a. rewrite lookup_insert_is_Some. intros [<-|[_ ?]]; left; eauto.
    + intros j q Hq. destruct (decide (i = j)) as [<-|]; [|rewrite list_lookup_insert_ne by done; eauto].
      rewrite list_lookup_insert_eq by done. simplify_eq. eauto.
  - set (sm := k_next s0 + 16). set (v := Z.of_nat (length (k_pids s0)) + 1).
    pose proof (pids_ok_appended lz s (pidValue th) e sm (k_next s + 80) E Hpd Hez Hnone Hf) as HP.
    destruct HP as [HP1 HP2 HP3 HP4 HP5]; [unfold sm; simpl; lia|apply Hst|].
    destruct (pid_search_ok (k_pids s0 ++ [appended v (pidValue th) e sm]) v)
      as [Hsearch _]; [exact HP1|rewrite length_app; unfold v; simpl; lia|].
    replace (Z.to_nat (v - 1)) with (length (k_pids s0)) in Hsearch by (unfold v; lia).
    erewrite K_bind_deref by exact Hsearch.
    erewrite K_bind_deref by (by apply list_lookup_middle).
    exists sm, (mkSem 1). eexists. split; [done|]. split; [unfold sm; simpl; lia|].
    split; [simpl; by rewrite lookup_insert_eq|]. split; [unfold INT_MAX; simpl; lia|]. do 3 (split; [done|]). split; [split; [done|simpl; lia]|].
    assert (∀ st, st = created e (mkThread 0 None v 0 0 0 0 0)
      (k_pids s0 ++ [appended v (pidValue th) e sm]) (<[sm := mkSem 0]> (k_sems s)) (k_next s + 80) s →
      Inv t [t] ls lr lz (upd E t (with_emb (E t) (Some (e, false)))) st) as Hfin.
    { intros st ->. refine (Inv_embryo t ls lr lz E s _ _ _ _ HI Hemb _ _ _ _ _ _ _ _ _); try done;
        [lia| | | |].
      - intros a y. rewrite lookup_insert_Some. intros [[<- <-]|[_ Hy]]; simpl.
        + unfold sm, INT_MAX; simpl. split_and!; [lia..|]. lia.
        + pose proof (f_sems _ _ Hf a ltac:(eauto)). pose proof (Hsm _ _ Hy). split_and!; [lia..|by left].
      - intros a Ha. apply lookup_insert_is_Some. destruct (decide (sm = a)); [by left|by right].
      - intros a. rewrite lookup_insert_is_Some. intros [<-|[_ ?]]; [right; unfold sm; simpl; lia|by left].
      - intros i p Hp2. exists p. split; [by apply lookup_app_l_Some|done]. }
    apply Hfin. unfold created. destruct s; simpl in *. unfold set_sems, set_alloc, set_threads, set_pids; simpl.
    rewrite insert_insert_eq. f_equal; done || lia.
Qed.

End Lifecycle.
