(* ===== verification/ForkExit.v ===== *)
(** Rules of the logic for [thread_fork] and [thread_exit]. *)

From Stdlib Require Import ZArith Lia.
From stdpp Require Import base numbers list option gmap.
From S2P Require Import Prelude Array Queue Cpu Vm Kernel Thread Machine ThreadOps ThreadInv.
From S2P Require Import Logic SynchProofs SynchRules Lifecycle.

Open Scope Z_scope.

Section ForkExit.
Context (SEMS LOCKS CVS : gset Z) (BOOT : Z).

#[local] Abbreviation Inv := (Inv SEMS LOCKS CVS BOOT).
#[local] Abbreviation I_run := (I_run SEMS LOCKS CVS BOOT).
#[local] Abbreviation I_sched := (I_sched SEMS LOCKS CVS BOOT).
#[local] Abbreviation I_resume := (I_resume SEMS LOCKS CVS BOOT).
#[local] Abbreviation wp := (wp SEMS LOCKS CVS BOOT).

(** Using up addresses. *)
Lemma Inv_alloc x rs ls lr lz E s n :
  Inv x rs ls lr lz E s → k_next s ≤ n → Inv x rs ls lr lz E (set_alloc n [] s).
Proof.
  intros [Hl Hp Hh Hs Hsm Hlk Hf Hpd Hst Hcpu Ho Hus] Hn.
  split; simpl; try done; [by destruct Hl| | |by destruct Hpd| |].
  - intros t th Ht Hth. destruct (Hs t th Ht Hth) as (? & ? & ?). simpl. split_and!; [lia|done|done].
  - destruct Hf as [F1 F2 F3 F4 F5 F6]. split; simpl; try done.
    + lia.
    + intros u Hu. apply F2 in Hu. lia.
    + intros u Hu. apply F3 in Hu. lia.
    + intros u Hu. apply F4 in Hu. lia.
    + intros u Hu. apply F6. lia.
  - destruct Hst as [T1 T2 T3 T4 T5]. split; simpl; try done.
    intros a Ha. destruct (T3 a Ha) as (? & ? & ?). split_and!; [lia|lia|done|done].
  - eapply user_ok_next; [done|]. pose proof (f_next _ _ Hf). lia.
Qed.

(** With interrupts off, only [t]'s own bookkeeping has changed, and the state
    of the user processes has not. *)
Definition quiet (t : Z) (E : ghost) (s : kstate) (E' : ghost) (s' : kstate) : Prop :=
  k_user s' = k_user s ∧ k_next s ≤ k_next s' ∧ ∀ u, u ≠ t → E' u = E u.

Lemma calm_trans t E s E1 s1 E2 s2 : quiet t E s E1 s1 → quiet t E1 s1 E2 s2 → quiet t E s E2 s2.
Proof. intros (A1 & A2 & A3) (B1 & B2 & B3). split; [congruence|]. split; [lia|]. intros u Hu. rewrite B3, A3 by done. done. Qed.

Lemma calm_refl t E s : quiet t E s E s.
Proof. split; [done|]. split; [lia|done]. Qed.

Lemma wp_thread_create t Q E s :
  I_run t E s → p_int (E t) = 0 → p_emb (E t) = None →
  (∀ e E' s', e ≠ 0 → E' t = with_emb (E t) (Some (e, false)) → I_run t E' s' →
     curspl (k_cpu s') = curspl (k_cpu s) → (curspl (k_cpu s) = SPL_HIGH → quiet t E s E' s') → Q e E' s') →
  wp t thread_create Q E s.
Proof.
  intros HI Hint Hemb HQ. pose proof (I_run_spl _ _ _ _ _ _ _ HI) as Hspl.
  unfold thread_create. apply wp_bind. eapply wp_enter_q; [done|by intros; rewrite k_splhigh_run|].
  intros E1 s1 HE1 HR1 Hq1. apply wp_done.
  pose proof (I_resume_off _ _ _ _ _ _ _ HR1) as Hoff.
  destruct HR1 as ((Hc & Hi & Ht0 & ls & lr & lz & HI1) & Hspl1).
  pose proof (i_orc _ _ _ _ _ _ _ _ _ _ _ HI1) as Ho.
  pose proof (f_next _ _ (i_fresh _ _ _ _ _ _ _ _ _ _ _ HI1)) as Hn.
  apply wp_bind, wp_act_off; [done|]. right. do 2 eexists. exists E1.
  split; [by apply kalloc_ok|]. split; [apply gstep_refl|]. apply wp_done.
  rewrite (proj2 (Z.eqb_neq _ _)) by lia.
  apply wp_bind, wp_act_off; [done|]. right. do 2 eexists. exists E1.
  split; [by apply kalloc_ok|]. split; [apply gstep_refl|]. apply wp_done. cbn [k_next set_alloc].
  rewrite (proj2 (Z.eqb_neq _ _)) by lia.
  replace (set_alloc (k_next s1 + 16 + 16) [] (set_alloc (k_next s1 + 16) [] s1))
    with (set_alloc (k_next s1 + 32) [] s1) by (unfold set_alloc; simpl; f_equal; lia).
  apply wp_bind, wp_act_off; [done|].
  destruct (Z.lt_ge_cases (Z.of_nat (length (k_pids s1))) INT_MAX) as [Hlen|Hlen];
    [right|left; do 3 right; done].
  rewrite <- HE1 in Hint, Hemb.
  destruct (create_pid_ok SEMS LOCKS CVS BOOT t E1 s1 ls lr lz) as
    (sem & x & s2 & E2 & Hsem & Hx & Hcnt & Hcpu & Hi2 & Hc2 & [Hu2 Hn2] & HI2); [done..|].
  exists sem, s2, E1. split; [done|]. split; [apply gstep_refl|]. apply wp_done.
  rewrite (proj2 (Z.eqb_neq sem (-1))) by lia. apply wp_bind.
  eapply (wp_P_up _ _ _ _ _ _ x); [|by rewrite Hcpu|congruence|lia|done|lia| |].
  { rewrite Hcpu. by apply HI1. }
  { apply (gstep_upd t E1 (with_emb (E1 t) (Some (k_next s1, false)))); [done|].
    intros Hl. simpl. congruence. }
  intros _. apply wp_bind, wp_leave_q; [|done|].
  { split; [|simpl; by rewrite Hcpu]. split; [done|]. split; [rewrite upd_eq; simpl; congruence|].
    split; [done|]. eauto. }
  intros _ c HI3 Hs3. apply wp_done, HQ; [lia|by rewrite upd_eq, HE1|done|done|].
  intros Hh. destruct (Hq1 Hh) as [-> ->]. split; [done|]. split; [done|]. intros u Hu. by apply upd_ne.
Qed.

(** The structure of the thread being created may be written. *)
Lemma put_emb_parts t e b th th' ls lr lz E s :
  Inv t [t] ls lr lz E s → p_emb (E t) = Some (e, b) → k_threads s !! e = Some th → th_ok th' →
  pidValue th' = pidValue th → pcb_ininterrupt th' = pcb_ininterrupt th →
  let s' := set_threads (λ m, <[e := th']> m) s in
  lists s' ls lr lz ∧ heaped t ls lr lz [t] E (k_threads s') ∧ sleepers_ok ls s' ∧ fresh_ok E s' ∧
  pids_ok SEMS BOOT lz s' ∧ static_ok SEMS LOCKS CVS BOOT E s'.
Proof.
  intros [Hl Hp Hh Hs Hsm Hlk Hf Hpd Hst Hcpu Ho Hus] Hemb Hth Hok Hpid Hpcb s'.
  destruct (h_emb _ _ _ _ _ _ _ Hh t e b Hemb) as (_ & He0 & Hlive). split_and!.
  - by destruct Hl.
  - eapply heaped_put; try done. rewrite He0. done.
  - intros u thu Hu Hthu. simpl in *. rewrite lookup_insert_ne in Hthu; [by apply (Hs u thu)|].
    intros ->. assert (p_stat (E u) = PLive) as Hul by (apply (pl_live _ _ _ _ _ _ Hp); set_solver).
    rewrite He0 in Hul. done.
  - by eapply fresh_ok_put.
  - by eapply pids_ok_put.
  - by destruct Hst.
Qed.

Lemma Inv_put_emb t e b th th' ls lr lz E s :
  Inv t [t] ls lr lz E s → p_emb (E t) = Some (e, b) → k_threads s !! e = Some th → th_ok th' →
  pidValue th' = pidValue th → pcb_ininterrupt th' = pcb_ininterrupt th → t_vmspace th' = t_vmspace th →
  Inv t [t] ls lr lz E (set_threads (λ m, <[e := th']> m) s).
Proof.
  intros HI Hemb Hth Hok Hpid Hpcb Hvm.
  destruct (put_emb_parts t e b th th' ls lr lz E s) as (? & ? & ? & ? & ? & ?); [done..|].
  destruct HI as [Hl Hp Hh Hs Hsm Hlk Hf Hpd Hst Hcpu Ho Hus]. split; try done.
  pose proof (f_next _ _ Hf). eapply user_ok_put; [done|simpl; lia|done|done].
Qed.

Lemma I_run_put_emb t e b th th' E s :
  I_run t E s → p_emb (E t) = Some (e, b) → k_threads s !! e = Some th → th_ok th' →
  pidValue th' = pidValue th → pcb_ininterrupt th' = pcb_ininterrupt th → t_vmspace th' = t_vmspace th →
  I_run t E (set_threads (λ m, <[e := th']> m) s).
Proof.
  intros (Hc & Hi & Ht0 & ls & lr & lz & HI) Hemb Hth Hok Hpid Hpcb Hvm. do 3 (split; [done|]).
  exists ls, lr, lz. by eapply Inv_put_emb.
Qed.

(** The first frame of the new thread. *)
Lemma wp_initpcb t e start k Q E s :
  I_run t E s → p_emb (E t) = Some (e, false) →
  (∀ E' s', E' e = newborn (p_kid (E t)) → I_resume e E' s' → wp e start (λ _ _ _, True) E' s') →
  (∀ E' s', E' t = E t → I_run t E' s' → curspl (k_cpu s') = curspl (k_cpu s) →
     (curspl (k_cpu s) = SPL_HIGH → E' = E ∧ s' = s) →
     wp t k Q (upd E' t (with_emb (E' t) (Some (e, true)))) s') →
  wp t (InitPcb e start k) Q E s.
Proof.
  intros HI Hemb Hstart Hk.
  assert (∀ E' s', E' t = E t → I_run t E' s' →
    E' e = p0 ∧ ∀ u b, p_emb (E' u) = Some (e, b) → u = t) as Huniq.
  { intros E' s' HE (_ & _ & _ & ls & lr & lz & HI'). rewrite <- HE in Hemb.
    destruct (i_heap _ _ _ _ _ _ _ _ _ _ _ HI') as [_ _ _ A4 A5].
    split; [by destruct (A4 t e false Hemb) as (_ & ? & _)|]. intros u b Hu. by eapply A5. }
  split; [intros _; destruct (Huniq E s); [done..|]; split_and!; [done..|by apply Hk]|].
  intros Hon. split; [done|]. intros E' s' HE HI' Hon'. destruct (Huniq E' s'); [done..|].
  rewrite HE. split_and!; [congruence|done|done|done|]. rewrite (ints_spl _ _ _ _ _ _ _ HI) in Hon.
  rewrite (ints_spl _ _ _ _ _ _ _ HI') in Hon'. zb. rewrite <- HE. apply Hk; [done|done|congruence|]. by rewrite Hon.
Qed.

(** Marking it as set up changes nothing else. *)
Lemma I_run_flag t e E s :
  I_run t E s → p_emb (E t) = Some (e, false) →
  I_run t (upd E t (with_emb (E t) (Some (e, true)))) s.
Proof.
  intros HI Hemb. pose proof (I_run_live _ _ _ _ _ _ _ HI) as Hlive.
  destruct HI as (Hc & Hi & Ht0 & ls & lr & lz & HI). set (E' := upd E t _).
  assert (∀ u, p_stat (E' u) = p_stat (E u) ∧ p_int (E' u) = p_int (E u) ∧
    p_held (E' u) = p_held (E u) ∧ p_node (E' u) = p_node (E u)) as Hsame.
  { intros u. unfold E', upd. by destruct (Z.eqb_spec u t) as [->|]. }
  split; [done|]. split; [by rewrite (proj1 (proj2 (Hsame t)))|]. split; [done|].
  exists ls, lr, lz. destruct HI as [Hl Hp Hh Hs Hsm Hlk Hf Hpd Hst Hcpu Ho Hus].
  assert (∀ u e' b, p_emb (E' u) = Some (e', b) → ∃ b', p_emb (E u) = Some (e', b')) as He.
  { intros u e' b. unfold E', upd. destruct (Z.eqb_spec u t) as [->|]; simpl; [|eauto].
    intros [= <- <-]. eauto. }
  split; try done.
  - destruct Hp as [N1 N2 N3 N4]. split; [done|done| |]; intros u; rewrite (proj1 (Hsame u)); auto.
  - destruct Hh as [A1 A2 A3 A4 A5]. split; [done|done| | |].
    + intros u th. rewrite (proj1 (Hsame u)), (proj1 (proj2 (Hsame u))). apply A3.
    + intros u e' b Hu. destruct (He u e' b Hu) as [b' Hb']. destruct (A4 u e' b' Hb') as (? & Hp0 & ?).
      split; [done|]. split; [|by rewrite (proj1 (Hsame u))].
      unfold E'. rewrite upd_ne; [done|]. intros ->. rewrite Hp0 in Hlive. done.
    + intros u u' e' b b' Hu Hu'. destruct (He _ _ _ Hu), (He _ _ _ Hu'). eauto.
  - intros l y Hy. destruct (Hlk l y Hy) as [[? Hno]|(u & ? & ? & Hu & Hun)]; [left|right].
    + split; [done|]. intros v. rewrite (proj1 (proj2 (proj2 (Hsame v)))). apply Hno.
    + exists u. rewrite (proj1 (proj2 (proj2 (Hsame u)))). split_and!; try done.
      intros u'. rewrite (proj1 (proj2 (proj2 (Hsame u')))). auto.
  - unfold E'. by apply ghost_fresh.
  - destruct Hst as [T1 T2 T3 T4 T5]. split; try done.
    + intros u i a. rewrite (proj2 (proj2 (proj2 (Hsame u)))). apply T4.
    + by rewrite (proj1 (Hsame BOOT)).
  - apply ghost_user; [done|done|done|pose proof (f_next _ _ Hf); lia|done].
Qed.

(** The bookkeeping after [t] has made its new thread [e] runnable. *)
Definition born (E : ghost) (t e : Z) : ghost := upd (upd E e (newborn (p_kid (E t)))) t (with_emb (E t) None).

(** Address space [a.1] is loaded with [a.2], and nobody's yet. *)
Definition own_space (E : ghost) (a : Z * option content) (u : ustate) : Prop :=
  a.1 ≠ 0 ∧ ∃ sp m, u_spaces u !! a.1 = Some sp ∧ a.2 = Some m ∧ holds u sp m ∧
    ∀ x, p_space (E x) ≠ a.1 ∧
      ∀ mx b, p_mem (E x) = Some (Loaded mx) → u_spaces u !! p_space (E x) = Some b → apart sp b ∧ apart b sp.

Definition kid_ok (E : ghost) (t : Z) (u : ustate) : Prop := p_kid (E t) = (0, None) ∨ own_space E (p_kid (E t)) u.

Lemma gstep_born t e E :
  p_emb (E t) = Some (e, true) → E e = p0 → e ≠ t → p_stat (E t) = PLive →
  gstep t E (born E t e).
Proof.
  intros Hemb He Hne Hlive. unfold born. split_and!.
  - intros u Hu. rewrite upd_ne by done. destruct (Z.eq_dec u e) as [->|Hue].
    + right. by rewrite !upd_eq.
    + left. by rewrite upd_ne.
  - intros e'. rewrite upd_eq. done.
  - rewrite upd_eq. simpl. congruence.
Qed.

Lemma user_ok_born t e th lz E m nxt tl u :
  user_ok [t] lz E m nxt tl u → E e = p0 → e ≠ t → e ∉ lz → m !! e = Some th → 0 < nxt → kid_ok E t u →
  user_ok [t] lz (born E t e) (<[e := with_vmspace (p_kid (E t)).1 th]> m) nxt tl u.
Proof.
  intros [U1 U2 U3 Uq U4 U5 U6 U7 U8 U9 Un] He0 Hne Hez Hth Hn Hkid.
  assert (∀ u, u ≠ e → p_space (born E t e u) = p_space (E u) ∧ p_act (born E t e u) = p_act (E u) ∧
    p_mem (born E t e u) = p_mem (E u)) as Hs.
  { intros x Hx. unfold born, upd. destruct (Z.eqb_spec x t) as [->|]; [done|]. by rewrite (proj2 (Z.eqb_neq x e)). }
  assert (born E t e e = newborn (p_kid (E t))) as He by (unfold born; by rewrite upd_ne, upd_eq).
  split; try done.
  - intros x thx. rewrite lookup_insert_Some. intros [[<- <-]|[Hx Hthx]]; [by rewrite He|].
    rewrite (proj1 (Hs x ltac:(done))). by apply U1.
  - intros x thx Hx. rewrite lookup_insert_ne by congruence. by apply U2.
  - intros x m' Hx. destruct (Z.eq_dec x e) as [->|Hxe].
    + rewrite He in Hx |- *. simpl in *. destruct Hkid as [Hk|(Hk0 & sp & m0 & Hsp & Hm0 & Hh & _)]; [by rewrite Hk in Hx|].
      split; [done|]. exists sp. rewrite Hx in Hm0. by injection Hm0 as ->.
    + destruct (Hs x Hxe) as (-> & _ & Em). rewrite Em in Hx. by apply U3.
  - intros x y Hxy. destruct (Z.eq_dec x e) as [->|Hx], (Z.eq_dec y e) as [->|Hy]; [done|..];
      rewrite ?He, ?(proj1 (Hs x Hx)), ?(proj1 (Hs y Hy)); simpl; [| |by apply Uq];
      destruct Hkid as [->|(_ & sp & m0 & _ & _ & _ & Hall)]; simpl; try done; intros Hx0; [apply not_eq_sym|]; apply Hall.
  - intros x y m1 m2 a b Hxy Hmx Hmy. destruct (Z.eq_dec x e) as [->|Hx], (Z.eq_dec y e) as [->|Hy]; [done|..];
      rewrite ?He, ?(proj1 (Hs x Hx)), ?(proj1 (Hs y Hy)).
    + rewrite He in Hmx. rewrite (proj2 (proj2 (Hs y Hy))) in Hmy. destruct Hkid as [Hk|(_ & sp & m0 & Hsp & _ & _ & Hall)]; [by rewrite Hk in Hmx|].
      simpl. intros Ha Hb. simplify_eq. by destruct (Hall y) as [_ Hap]; eapply Hap.
    + rewrite He in Hmy. rewrite (proj2 (proj2 (Hs x Hx))) in Hmx. destruct Hkid as [Hk|(_ & sp & m0 & Hsp & _ & _ & Hall)]; [by rewrite Hk in Hmy|].
      simpl. intros Ha Hb. simplify_eq. by destruct (Hall x) as [_ Hap]; eapply Hap.
    + rewrite (proj2 (proj2 (Hs x Hx))) in Hmx. rewrite (proj2 (proj2 (Hs y Hy))) in Hmy. by eapply U4.
  - intros x. destruct (Z.eq_dec x e) as [->|Hx]; [by rewrite He|]. destruct (Hs x Hx) as (-> & -> & _). apply U5.
  - intros x. destruct (Z.eq_dec x e) as [->|Hx]; [rewrite He; simpl|by rewrite (proj1 (Hs x Hx))].
    destruct Hkid as [->|(_ & sp & m0 & Hsp & _)]; [done|]. apply U8. eauto.
  - intros x. destruct (Z.eq_dec x e) as [->|Hx]; [rewrite He; simpl|destruct (Hs x Hx) as (-> & _ & ->); apply Un].
    destruct Hkid as [->|(_ & sp & m0 & _ & -> & _)]; [done|eauto].
Qed.

(** The new thread on the run queue. *)
Lemma Inv_born t e the ls lr lz E s a z q :
  Inv t [t] ls lr lz E s → p_emb (E t) = Some (e, true) → k_threads s !! e = Some the → kid_ok E t (k_user s) →
  array_rep a ls → array_rep z lz → queue_rep q (lr ++ [e]) → q_size q < queue_lim →
  Inv t [t] ls (lr ++ [e]) lz (born E t e)
    (set_numthreads (k_numthreads s + 1) (set_runqueue (Some q) (set_zombies (Some z)
       (set_sleepers (Some a) (set_threads (λ m, <[e := with_vmspace (p_kid (E t)).1 the]> m) s))))).
Proof.
  intros HI Hemb Hthe Hkid Ha Hz Hq Hqs. pose proof (h_ok _ _ _ _ _ _ _ (i_heap _ _ _ _ _ _ _ _ _ _ _ HI) e the Hthe) as Hok.
  destruct (put_emb_parts t e true the (with_vmspace (p_kid (E t)).1 the) ls lr lz E s) as (_ & Hh' & Hs' & Hf' & Hpd' & Hst'); [done..|].
  destruct HI as [Hl Hp Hh Hs Hsm Hlk Hf Hpd Hst Hcpu Ho Hus].
  destruct (h_emb _ _ _ _ _ _ _ Hh t e true Hemb) as ((? & Hthe' & Hpcb) & He0 & Hlive). simplify_eq. pose proof (f_next _ _ Hf) as Hnx.
  assert (e ≠ t) as Hne by (intros ->; rewrite He0 in Hlive; done).
  destruct Hp as [N1 N2 N3 N4].
  assert (e ∉ [t] ++ ls ++ lr) as He1 by (intros H; apply N3 in H; rewrite He0 in H; done).
  assert (e ∉ lz) as He2 by (intros H; apply N4 in H; rewrite He0 in H; done).
  assert (∀ u, u ≠ e → p_stat (born E t e u) = p_stat (E u) ∧ p_int (born E t e u) = p_int (E u)) as Hsame.
  { intros u Hu. unfold born, upd. destruct (Z.eqb_spec u t) as [->|]; [done|].
    by rewrite (proj2 (Z.eqb_neq u e)). }
  assert (born E t e e = newborn (p_kid (E t))) as Hbe by (unfold born; by rewrite upd_ne, upd_eq).
  assert (∀ u, p_held (born E t e u) = p_held (E u)) as Hheld.
  { intros u. unfold born, upd. destruct (Z.eqb_spec u t) as [->|]; [done|].
    destruct (Z.eqb_spec u e) as [->|]; [by rewrite He0|done]. }
  assert (∀ u, p_node (born E t e u) = p_node (E u)) as Hsems.
  { intros u. unfold born, upd. destruct (Z.eqb_spec u t) as [->|]; [done|].
    destruct (Z.eqb_spec u e) as [->|]; [by rewrite He0|done]. }
  assert (∀ u e' b, p_emb (born E t e u) = Some (e', b) → u ≠ t ∧ u ≠ e ∧ p_emb (E u) = Some (e', b)) as Hembs.
  { intros u e' b. unfold born, upd. destruct (Z.eqb_spec u t) as [->|]; [done|].
    destruct (Z.eqb_spec u e) as [->|]; done. }
  split; simpl; try done.
  - by split; [exists a|exists q|exists z].
  - split; simpl.
    + eapply NoDup_Permutation_proper.
      { instantiate (1 := e :: ([t] ++ ls ++ lr ++ lz)). simpl. solve_Permutation. }
      apply NoDup_cons. split; [|done]. rewrite !elem_of_app in *. naive_solver.
    + rewrite N2. simpl. rewrite !length_app. simpl. lia.
    + intros u. destruct (Z.eq_dec u e) as [->|Hue].
      * rewrite Hbe. set_solver.
      * rewrite (proj1 (Hsame u Hue)), N3. set_solver.
    + intros u Hu. rewrite (proj1 (Hsame u ltac:(congruence))). auto.
  - destruct Hh' as [A1 A2 A3 A4 A5]. simpl in *. split.
    + intros u Hu. destruct (Z.eq_dec u e) as [->|]; [rewrite lookup_insert_eq; eauto|]. apply A1. set_solver.
    + done.
    + intros u th Hut Hth. destruct (Z.eq_dec u e) as [->|Hue].
      { rewrite lookup_insert_eq in Hth. injection Hth as <-. rewrite Hbe. simpl. congruence. }
      rewrite (proj1 (Hsame u Hue)), (proj2 (Hsame u Hue)). by apply A3.
    + intros u e' b Hu. destruct (Hembs u e' b Hu) as (Hut & Hue & Hu').
      destruct (A4 u e' b Hu') as (? & Hp0 & ?). split; [done|].
      assert (e' ≠ e) by (intros ->; apply Hut; by eapply A5).
      assert (e' ≠ t) by (intros ->; rewrite Hp0 in Hlive; done).
      split; [unfold born; by rewrite !upd_ne|by rewrite (proj1 (Hsame u Hue))].
    + intros u u' e' b b' Hu Hu'. destruct (Hembs _ _ _ Hu) as (_ & _ & ?), (Hembs _ _ _ Hu') as (_ & _ & ?). eauto.
  - intros l y Hy. destruct (Hlk l y Hy) as [[? Hno]|(u & ? & ? & Hu & Hun)]; [left|right].
    + split; [done|]. intros v. rewrite Hheld. apply Hno.
    + exists u. rewrite Hheld. split_and!; try done. intros u'. rewrite Hheld. auto.
  - destruct Hf' as [F1 F2 F3 F4 F5 F6]. simpl in *. split; simpl; try done. intros u Hu.
    unfold born. rewrite upd_ne, upd_ne; [by apply F6| |].
    + intros ->. pose proof (F2 e ltac:(rewrite lookup_insert_eq; eauto)). lia.
    + intros ->. rewrite F6 in Hlive by done. done.
  - by destruct Hpd'.
  - destruct Hst as [T1 T2 T3 T4 T5]. split; simpl; try done.
    + intros u i b. rewrite Hsems. apply T4.
    + destruct (Z.eq_dec BOOT e) as [->|]; [by rewrite Hbe|]. by rewrite (proj1 (Hsame BOOT ltac:(done))).
  - apply user_ok_born; (done || lia).
Qed.

Lemma fork_enqueue_ok t e E s :
  I_resume t E s → p_emb (E t) = Some (e, true) → k_numthreads s < thread_lim →
  ∃ s', fork_enqueue e s = Ret (0, s') ∧ k_user s' = k_user s ∧ k_next s' = k_next s ∧ k_threads s' = k_threads s ∧
    ∀ th, k_threads s !! e = Some th →
      kid_ok E t (k_user s) → I_resume t (born E t e) (set_threads (λ m, <[e := with_vmspace (p_kid (E t)).1 th]> m) s').
Proof.
  intros HR Hemb Hn. pose proof HR as ((Hc & Hi & Ht0 & ls & lr & lz & HI) & Hspl).
  pose proof HI as [[(a & Ha & Har) (q & Hq & Hqr & Hqs) (z & Hz & Hzr)] Hp _ _ _ _ _ _ _ _ Ho _].
  pose proof (pl_num _ _ _ _ _ _ Hp) as Hnum. rewrite !length_app in Hnum. unfold thread_lim in Hn.
  destruct (array_preallocate_ok [] a ls (k_numthreads s + 1) Har) as (a' & E1 & Ha' & _);
    [unfold array_lim; lia|].
  destruct (array_preallocate_ok [] z lz (k_numthreads s + 1) Hzr) as (z' & E2 & Hz' & _);
    [unfold array_lim; lia|].
  destruct (q_preallocate_ok [] q lr (k_numthreads s + 1) Hqr) as (r & q1 & o1 & E3 & Hq1 & Hs1 & Hs2 & Ho1 & Hr);
    [unfold queue_lim; lia|].
  assert (o1 = []) as -> by (by destruct Ho1).
  destruct Hr as [[-> _]|(_ & _ & ?)]; [|done].
  set (s1 := set_runqueue (Some q1) (set_zombies (Some z') (set_sleepers (Some a') s))).
  destruct (make_runnable_ok e s1 q1 lr) as (q2 & E4 & Hq2 & Hs3);
    [done|done|unfold queue_lim in *; lia|simpl; by rewrite Hspl|done|].
  exists (set_numthreads (k_numthreads s + 1) (set_runqueue (Some q2) s1)). split.
  { unfold fork_enqueue, get_sleepers, get_zombies. kgo.
    rewrite (kalloc_lift_ok _ (0, a')) by (done || by rewrite E1). kgo. cbn [Z.eqb negb]. kgo.
    rewrite (kalloc_lift_ok _ (0, z')) by (done || by rewrite E2). kgo. cbn [Z.eqb negb].
    unfold scheduler_preallocate, get_runqueue. kgo.
    rewrite (kalloc_lift_ok _ (0, q1)) by (done || by rewrite E3). kgo. cbn [Z.eqb negb].
    rewrite (K_bind _ _ _ _ _ E4). cbn [Z.eqb negb]. kgo. done. }
  do 3 (split; [done|]). intros th Hth Hkid. split; [|done].
  split; [done|]. split; [unfold born; rewrite upd_eq; done|]. split; [done|].
  exists ls, (lr ++ [e]), lz. apply (Inv_born t e th ls lr lz E s); try done. unfold queue_lim in *. lia.
Qed.

Lemma own_space_same E E' a u :
  own_space E a u → (∀ x, p_space (E' x) = p_space (E x) ∧ p_mem (E' x) = p_mem (E x)) → own_space E' a u.
Proof.
  intros (Ha & sp & m & H1 & H2 & Hm & H3) Hx. split; [done|]. exists sp, m. do 3 (split; [done|]).
  intros x. destruct (Hx x) as [-> ->]. apply H3.
Qed.

(** The new thread's structure with the address space meant for it. *)
Definition settled (kid e : Z) (th : thread) (s : kstate) : kstate :=
  set_threads (λ m, <[e := with_vmspace kid th]> m) s.

Lemma settled_same e th s : k_threads s !! e = Some th → t_vmspace th = 0 → settled 0 e th s = s.
Proof.
  intros Hth Hv. unfold settled. replace (with_vmspace 0 th) with th by (destruct th; simpl in *; by subst).
  destruct s; unfold set_threads; simpl in *. by rewrite insert_id.
Qed.

(** [thread_fork] by a thread that may have an address space for the new
    thread: with interrupts off, it can be put in the structure afterwards. *)
Lemma wp_thread_fork_gen t child Q E s :
  I_run t E s → p_int (E t) = 0 → p_emb (E t) = None →
  (p_kid (E t) = (0, None) ∨ curspl (k_cpu s) = SPL_HIGH ∧ own_space E (p_kid (E t)) (k_user s)) →
  (∀ e E' s', e ≠ BOOT → E' e = newborn (p_kid (E t)) → I_resume e E' s' →
     wp e (mi_threadstart child) (λ _ _ _, True) E' s') →
  (∀ e th E' s', 0 < e → e ≠ t → E' t = E t → k_threads s' !! e = Some th → t_vmspace th = 0 → I_run t E' (settled (p_kid (E t)).1 e th s') →
     curspl (k_cpu s') = curspl (k_cpu s) → Q e E' s') →
  wp t (thread_fork child) Q E s.
Proof.
  intros HI Hint Hemb Hkid Hchild HQ. unfold thread_fork. apply wp_bind, wp_thread_create; [done..|].
  intros e E1 s1 He0 HE1 HI1 Hs1 Hq1. rewrite (proj2 (Z.eqb_neq _ _)) by done.
  apply wp_bind, wp_act_q; [done|]. intros E2 s2 HE2 HI2 Hs2 Hq2. right.
  pose proof HI2 as (Hc2 & Hi2 & Ht0 & ls & lr & lz & HI2').
  pose proof (f_next _ _ (i_fresh _ _ _ _ _ _ _ _ _ _ _ HI2')) as Hn2.
  do 2 eexists. exists E2. split; [apply kalloc_ok, HI2'|]. split; [apply gstep_refl|]. apply wp_done.
  rewrite (proj2 (Z.eqb_neq _ _)) by lia.
  assert (I_run t E2 (set_alloc (k_next s2 + 16) [] s2)) as HI3.
  { do 3 (split; [done|]). exists ls, lr, lz. apply Inv_alloc; [done|lia]. }
  apply wp_bind, wp_act_q; [done|]. intros E4 s4 HE4 HI4 Hs4 Hq4. right.
  assert (p_emb (E4 t) = Some (e, false)) as Hemb4 by (rewrite HE4, HE2, HE1; done).
  pose proof HI4 as (Hc4 & _ & _ & ls4 & lr4 & lz4 & HI4').
  pose proof (i_heap _ _ _ _ _ _ _ _ _ _ _ HI4') as Hh4.
  destruct (h_emb _ _ _ _ _ _ _ Hh4 t e false Hemb4) as ((the & Hthe & Hpcb) & Hep0 & Hlive).
  assert (e ≠ t) as Het by (intros ->; rewrite Hep0 in Hlive; done).
  destruct (h_listed _ _ _ _ _ _ _ Hh4 t ltac:(set_solver)) as [tht Htht].
  destruct (h_ok _ _ _ _ _ _ _ Hh4 t tht Htht) as (Hcwd & _).
  destruct (h_ok _ _ _ _ _ _ _ Hh4 e the Hthe) as (Hcwde & _).
  set (s5 := set_threads (λ m, <[e := with_stack (Some stack_magic) the]> m) s4).
  assert (I_run t E4 s5) as HI5.
  { by eapply I_run_put_emb. }
  exists 0, s5, E4. split.
  { rewrite (get_thread_bind _ the) by done. unfold put_thread, get_curthread. kgo. simpl.
    rewrite Hc4, (get_thread_bind _ tht) by (simpl; by rewrite lookup_insert_ne). by rewrite Hcwd. }
  split; [apply gstep_refl|]. apply wp_done. cbn [Z.eqb kbind].
  assert (p_kid (E4 t) = p_kid (E t)) as Hk4 by (rewrite HE4, HE2, HE1; done).
  apply wp_initpcb; [done|done| |].
  { rewrite Hk4. intros E' s' HE' HR'. apply Hchild; [|done|done].
    intros ->. pose proof (st_boot _ _ _ _ _ _ (i_static _ _ _ _ _ _ _ _ _ _ _ HI4')) as Hb.
    rewrite Hep0 in Hb. done. }
  intros E6 s6 HE6 HI6 Hs6 Hq6.
  assert (p_emb (E6 t) = Some (e, false)) as Hemb6 by congruence.
  apply wp_bind. eapply wp_enter_q; [by apply I_run_flag|by intros; rewrite k_splhigh_run|].
  intros E7 s7 HE7 HR7 Hq7. rewrite upd_eq in HE7. apply wp_done, wp_bind, wp_act_off; [by eapply I_resume_off|].
  destruct (Z.lt_ge_cases (k_numthreads s7) thread_lim) as [Hn|Hn]; [right|left; by left].
  assert (p_emb (E7 t) = Some (e, true)) as Hemb7 by (by rewrite HE7).
  assert (p_kid (E7 t) = p_kid (E t)) as Hk7 by (rewrite HE7; simpl; congruence).
  assert (curspl (k_cpu s6) = curspl (k_cpu s)) as Hcs by (unfold s5 in Hs6; simpl in Hs4, Hs6; congruence).
  assert (kid_ok E7 t (k_user s7)) as Hkid7.
  { unfold kid_ok. rewrite Hk7. destruct Hkid as [?|(Hhi & Hown)]; [by left|right].
    destruct (Hq1 Hhi) as (A1 & A2 & A3). destruct (Hq2 ltac:(congruence)) as [-> ->]. destruct (Hq4 ltac:(simpl; congruence)) as [-> ->].
    destruct (Hq6 ltac:(simpl; congruence)) as [-> ->]. destruct (Hq7 ltac:(simpl; congruence)) as [-> ->]. simpl.
    rewrite A1. eapply own_space_same; [exact Hown|]. intros x. unfold upd. destruct (Z.eqb_spec x t) as [->|Hx]; [simpl; by rewrite HE1|by rewrite A3]. }
  destruct (fork_enqueue_ok t e E7 s7 HR7 Hemb7 Hn) as (s8 & E8 & Hu8 & Hn8 & Ht8 & HR8).
  exists 0, s8, (born E7 t e). split; [done|].
  pose proof HR7 as ((_ & _ & _ & ls7 & lr7 & lz7 & HI7') & _).
  destruct (h_emb _ _ _ _ _ _ _ (i_heap _ _ _ _ _ _ _ _ _ _ _ HI7') t e true Hemb7) as ((th7 & Hth7 & _) & He7 & Hl7).
  split; [by apply gstep_born|]. apply wp_done, wp_bind. specialize (HR8 th7 Hth7 Hkid7). rewrite Hk7 in HR8.
  fold (settled (p_kid (E t)).1 e th7 s8) in HR8.
  apply wp_act_off; [change (k_cpu s8) with (k_cpu (settled (p_kid (E t)).1 e th7 s8)); by eapply I_resume_off|]. right.
  pose proof (I_run_spl _ _ _ _ _ _ _ HI6) as Hspl6. simpl. destruct HR8 as [HI8 _].
  destruct (splx_spec (curspl (k_cpu s6)) (k_cpu s8) Hspl6) as (_ & Hw & Hc9); [by apply (I_run_cpu _ _ _ _ _ _ _ HI8)|].
  exists (curspl (k_cpu s8)), (set_cpu (splx (curspl (k_cpu s6)) (k_cpu s8)).2 s8), (born E7 t e).
  split; [unfold k_splx; by destruct (splx (curspl (k_cpu s6)) (k_cpu s8)) eqn:Ex; injection Ex as <- _|]. split; [apply gstep_refl|].
  apply wp_done, wp_done. apply (HQ e th7).
  - pose proof (f_threads _ _ (i_fresh _ _ _ _ _ _ _ _ _ _ _ HI7') e ltac:(eauto)). lia.
  - done.
  - unfold born. rewrite upd_eq, HE7, HE6, HE4, HE2, HE1. destruct (E t); simpl in *. by rewrite Hemb.
  - simpl. by rewrite Ht8.
  - rewrite (uo_space _ _ _ _ _ _ _ (i_user _ _ _ _ _ _ _ _ _ _ _ HI7') e th7 Hth7). by rewrite He7.
  - exact (I_run_set_cpu _ _ _ _ _ _ _ _ HI8 Hw).
  - simpl. congruence.
Qed.

(** [thread_fork]: the new thread runs [child]; the parent continues. *)
Lemma wp_thread_fork t child Q E s :
  I_run t E s → p_int (E t) = 0 → p_emb (E t) = None → p_kid (E t) = (0, None) →
  (∀ e E' s', e ≠ BOOT → E' e = plive → I_resume e E' s' →
     wp e (mi_threadstart child) (λ _ _ _, True) E' s') →
  (∀ r E' s', E' t = E t → I_run t E' s' → curspl (k_cpu s') = curspl (k_cpu s) → Q r E' s') →
  wp t (thread_fork child) Q E s.
Proof.
  intros HI Hint Hemb Hk Hchild HQ. apply wp_thread_fork_gen; [done|done|done|rewrite Hk; by left|by rewrite Hk|].
  intros e th E' s' _ _ HE Hth Hvm HI' Hs'. rewrite Hk, settled_same in HI' by done. by apply HQ.
Qed.

(** ** thread_exit *)

(** The running thread's structure, with its part of the bookkeeping on
    address spaces, the TLB and the processes' memory. *)
Lemma I_run_user t th th' p tl u E s :
  I_run t E s → k_threads s !! t = Some th → th_ok th' → pidValue th' = pidValue th →
  same_role (E t) p → p_held p = p_held (E t) → p_node p = p_node (E t) →
  (∀ lz, t ∉ lz → user_ok [t] lz E (k_threads s) (k_next s) (k_tlb s) (k_user s) →
     user_ok [t] lz (upd E t p) (<[t := th']> (k_threads s)) (k_next s) tl u) →
  I_run t (upd E t p) (set_user u (set_ktlb tl (set_threads (λ m, <[t := th']> m) s))).
Proof.
  intros (Hc & Hi & Ht0 & ls & lr & lz & HI) Hth Hok Hpid Hr Hh Hse Hu.
  destruct HI as [Hl Hp Hhp Hs Hsm Hlk Hf Hpd Hst Hcpu Ho Hus].
  assert (p_stat (E t) = PLive) as Hlive by (apply (pl_live _ _ _ _ _ _ Hp); set_solver).
  assert (t ∉ ls ++ lr ++ lz) as Hnt by (by pose proof (pl_nodup _ _ _ _ _ _ Hp) as [? _]%NoDup_cons).
  split; [done|]. split; [rewrite upd_eq; destruct Hr as (_ & _ & ->); done|]. split; [done|]. exists ls, lr, lz.
  split; simpl; try done.
  - by destruct Hl.
  - by apply ghost_placed.
  - apply ghost_heaped; [done|done|]. eapply heaped_put; try done. intros Hp0. rewrite Hp0 in Hlive. done.
  - intros x thx Hx Hthx. simpl in *. rewrite lookup_insert_ne in Hthx by set_solver. by apply (Hs x thx).
  - by apply ghost_locks.
  - apply ghost_fresh; [done|]. destruct (fresh_ok_put E s t th th' Hf Hth). done.
  - destruct (pids_ok_put SEMS BOOT lz s t th th' Hpd Hth Hpid). done.
  - apply ghost_static; [done|rewrite Hse; by apply (st_known _ _ _ _ _ _ Hst t)|by destruct Hst].
  - apply Hu; [set_solver|done].
Qed.

(** A thread without its address space. *)
Definition gone (p : priv) : priv := mkPriv (p_stat p) (p_emb p) (p_held p) (p_int p) (p_node p) 0 None (p_kid p) false.

Lemma user_ok_gone t th lz E m nxt tl u :
  user_ok [t] lz E m nxt tl u → m !! t = Some th → t_vmspace th ≠ 0 → t ∉ lz → 0 < nxt →
  user_ok [t] lz (upd E t (gone (E t))) (<[t := with_vmspace 0 th]> m) nxt tl (with_spaces (delete (t_vmspace th)) u).
Proof.
  intros [U1 U2 U3 Uq U4 U5 (U6 & U6' & U6'') U7 [U8 U8'] U9 Un] Hth Hv Ht Hn. set (E' := upd E t (gone (E t))).
  assert (E' t = gone (E t)) as Et by (unfold E'; by rewrite upd_eq).
  assert (∀ x, x ≠ t → E' x = E x) as Eo by (intros x Hx; unfold E'; by rewrite upd_ne).
  assert (∀ x, x ≠ t → p_space (E x) ≠ t_vmspace th) as Hnv.
  { intros x Hx. rewrite (U1 t th Hth) in Hv |- *. apply not_eq_sym. by apply Uq. }
  split; simpl; try done.
  - intros x thx. rewrite lookup_insert_Some. intros [[<- <-]|[Hx Hthx]]; [by rewrite Et|].
    rewrite Eo by done. by apply U1.
  - intros x thx Hx. rewrite lookup_insert_ne by congruence. by apply U2.
  - intros x m' Hx. destruct (Z.eq_dec x t) as [->|Hne]; [by rewrite Et in Hx|]. rewrite Eo in Hx |- * by done.
    rewrite lookup_delete_ne by (apply not_eq_sym; by apply Hnv). by apply U3.
  - intros x y Hxy. destruct (Z.eq_dec x t) as [->|Hx], (Z.eq_dec y t) as [->|Hy]; rewrite ?Et, ?Eo by done; try done.
    by apply Uq.
  - intros x y m1 m2 a b Hxy Hx Hy. destruct (Z.eq_dec x t) as [->|Hxt]; [by rewrite Et in Hx|].
    destruct (Z.eq_dec y t) as [->|Hyt]; [by rewrite Et in Hy|]. rewrite (Eo x) in Hx |- * by done. rewrite (Eo y) in Hy |- * by done.
    rewrite !lookup_delete_Some. intros [_ ?] [_ ?]. by apply (U4 x y m1 m2 a b).
  - intros x. unfold E', upd. destruct (Z.eqb_spec x t) as [->|]; [done|]. intros Hx. by destruct (U5 x Hx) as (->%list_elem_of_singleton & _).
  - split; [done|]. split; [done|]. intros a. rewrite lookup_delete_Some. intros [_ ?]. by apply U6''.
  - split; [done|]. intros x [a Ha]. rewrite lookup_delete_Some in Ha. apply U8'. exists a. by destruct Ha.
  - intros x. destruct (Z.eq_dec x t) as [->|Hx]; [by rewrite Et|by rewrite Eo].
  - intros x. destruct (Z.eq_dec x t) as [->|Hx]; [by rewrite Et|rewrite Eo by done; apply Un].
Qed.

Definition dead (p : priv) : priv :=
  mkPriv PDead None (p_held p) (p_int p) (p_node p) (p_space p) (p_mem p) (p_kid p) false.

(** The semaphore of [t]'s pid is up. *)
Definition pid_up (t : Z) (s : kstate) : Prop :=
  ∀ th p x, k_threads s !! t = Some th → k_pids s !! Z.to_nat (pidValue th - 1) = Some p →
    k_sems s !! parentSem p = Some x → 1 ≤ sem_count x.

(** The running thread [t] on the list of zombies. *)
Lemma Inv_dead t ls lr lz E s z :
  Inv t [t] ls lr lz E s → p_emb (E t) = None → p_space (E t) = 0 → t ≠ BOOT → pid_up t s → array_rep z (lz ++ [t]) →
  Inv t [] ls lr (lz ++ [t]) (upd E t (dead (E t)))
    (set_zombies (Some z) (set_curthread 0 (set_numthreads (k_numthreads s - 1) s))).
Proof.
  intros [[Hsl Hrq Hz] [N1 N2 N3 N4] [A1 A2 A3 A4 A5] Hs Hsm Hlk Hf Hpd Hst Hcpu Ho Hus] Hemb Hsp Hb Hup Hzr.
  assert (p_stat (E t) = PLive) as Hlive by (apply N3; set_solver).
  assert (t ∉ ls ++ lr ++ lz) as Hnt by (by apply NoDup_cons in N1 as [? _]).
  set (E' := upd E t (dead (E t))).
  assert (∀ u, p_emb (E' u) = p_emb (E u)) as He'.
  { intros u. unfold E', upd. by destruct (Z.eqb_spec u t) as [->|]. }
  assert (∀ u, p_held (E' u) = p_held (E u) ∧ p_node (E' u) = p_node (E u)) as Hh'.
  { intros u. unfold E', upd. by destruct (Z.eqb_spec u t) as [->|]. }
  split; simpl; try done.
  - split; [done|done|by exists z].
  - split; simpl.
    + eapply NoDup_Permutation_proper; [|exact N1]. simpl. solve_Permutation.
    + rewrite N2. simpl. lia.
    + intros u. unfold E'. destruct (Z.eq_dec u t) as [->|Hne].
      * rewrite upd_eq. simpl. rewrite !elem_of_app in Hnt. split; [done|]. rewrite elem_of_app. tauto.
      * rewrite upd_ne, N3 by done. set_solver.
    + intros u Hu. unfold E'. destruct (Z.eq_dec u t) as [->|Hne]; [by rewrite upd_eq|].
      rewrite upd_ne by done. apply N4. set_solver.
  - split.
    + intros u Hu. apply A1. set_solver.
    + done.
    + intros u th Hu Hth. unfold E'. rewrite upd_ne by done. by apply A3.
    + intros u e b. rewrite He'. intros Hu. destruct (A4 u e b Hu) as (? & Hp0 & Hl).
      assert (u ≠ t) by congruence. assert (e ≠ t) by (intros ->; rewrite Hp0 in Hlive; done).
      unfold E'. rewrite !upd_ne by done. done.
    + intros u u' e b b'. rewrite !He'. apply A5.
  - intros l y Hy. destruct (Hlk l y Hy) as [[? Hno]|(u & ? & ? & Hu & Hun)]; [left|right].
    + split; [done|]. intros v. rewrite (proj1 (Hh' v)). apply Hno.
    + exists u. rewrite (proj1 (Hh' u)). split_and!; try done. intros u'. rewrite (proj1 (Hh' u')). auto.
  - apply (ghost_fresh E); [done|]. by destruct Hf.
  - destruct Hpd as [P1 P2 P3 P4 P5 P6]. split; simpl; try done.
    intros i p Hp Hi. destruct (P3 i p Hp Hi) as (Hns & x & Hx & Hcnt). split; [done|].
    exists x. split; [done|]. intros [?|(u & th & Hu & Hth & Hi')]; [apply Hcnt; by left|].
    apply elem_of_app in Hu as [Hu|Hu]; [apply Hcnt; right; by exists u, th|].
    apply list_elem_of_singleton in Hu as ->. rewrite <- Hi' in Hp. by eapply Hup.
  - destruct Hst as [T1 T2 T3 T4 T5]. split; simpl; try done.
    + intros u i a. rewrite (proj2 (Hh' u)). apply T4.
    + unfold E'. by rewrite upd_ne.
  - eapply user_ok_step; [exact Hus| | | |pose proof (f_next _ _ Hf); lia].
    + intros u. unfold E', upd. by destruct (Z.eqb_spec u t) as [->|].
    + intros u. unfold E', upd. destruct (Z.eqb_spec u t) as [->|]; [done|]. intros Hu.
      by destruct (uo_act _ _ _ _ _ _ _ Hus u Hu) as (->%list_elem_of_singleton & _).
    + intros u th Hth. split; [eauto|]. intros [Hzu| ->%list_elem_of_singleton]%elem_of_app; [by apply (uo_dead _ _ _ _ _ _ _ Hus u)|].
      by rewrite (uo_space _ _ _ _ _ _ _ Hus t th Hth).
Qed.

(** The last switch away from an exiting thread. *)
Lemma mi_switch_out_zomb t ls lr lz E s :
  I_resume t E s → Inv t [t] ls lr lz E s → p_emb (E t) = None → p_space (E t) = 0 → t ≠ BOOT → pid_up t s →
  Z.of_nat (length lz) < thread_lim →
  ∃ s', mi_switch_out S_ZOMB (set_numthreads (k_numthreads s - 1) s) = Ret (t, s') ∧
    I_sched t (upd E t (dead (E t))) s'.
Proof.
  intros HR HI Hemb Hsp Hb Hup Hn. pose proof HR as ((Hc & Hi & Ht0 & _) & Hspl).
  pose proof HI as [[_ _ (z & Hz & Hzr)] _ Hh _ _ _ _ _ _ _ Ho _].
  destruct (h_listed _ _ _ _ _ _ _ Hh t ltac:(set_solver)) as [th Hth].
  pose proof (h_ok _ _ _ _ _ _ _ Hh t th Hth) as (Hcwd & Hstk).
  destruct (add_zombie_ok t (set_curthread 0 (set_numthreads (k_numthreads s - 1) s)) z lz)
    as (z' & E1 & Hz'); [done|done|unfold thread_lim, array_lim in *; lia|done|].
  eexists; split.
  { unfold mi_switch_out. kgo. cbn [k_curthread set_numthreads]. rewrite Hc, (proj2 (Z.eqb_neq _ _)) by done.
    rewrite (get_thread_bind _ th) by done. unfold check_stack.
    destruct (t_stack th) as [b|]; kgo; rewrite ?K_bind_check by (by apply bool_decide_eq_true); kgo;
      rewrite (K_bind _ _ _ _ _ E1); kgo; done. }
  split; [done|]. split; [by rewrite upd_eq|]. split; [done|]. split; [eauto|].
  split; [by rewrite upd_eq|]. exists ls, lr, (lz ++ [t]). by apply Inv_dead.
Qed.

Definition exited (p : pid) (code : Z) : pid :=
  mkPid (pd_pidValue p) (isUsed p) (pPid p) 1 (Some code) (myThread p) (parentSem p).

(** Recording the exit code in a pid's node. *)
Lemma Inv_exited x rs ls lr lz E s i p code :
  Inv x rs ls lr lz E s → k_pids s !! i = Some p →
  Inv x rs ls lr lz E (set_pids (<[i := exited p code]> (k_pids s)) s).
Proof.
  intros [Hl Hp Hh Hs Hsm Hlk Hf Hpd Hst Hcpu Ho Hus] Hip.
  split; simpl; try done; [by destruct Hl|by destruct Hf| |].
  2:{ destruct Hst as [T1 T2 T3 T4 T5]. split; simpl; try done. intros u j a Hu. destruct (T4 u j a Hu) as (q & Hq & <-).
      destruct (decide (i = j)) as [<-|]; [|rewrite list_lookup_insert_ne by done; eauto].
      rewrite list_lookup_insert_eq by (by eapply lookup_lt_Some). simplify_eq. eauto. }
  assert (∀ j q, <[i := exited p code]> (k_pids s) !! j = Some q →
    ∃ q', k_pids s !! j = Some q' ∧ pd_pidValue q = pd_pidValue q' ∧ isUsed q = isUsed q' ∧
      myThread q = myThread q' ∧ parentSem q = parentSem q') as Hold.
  { intros j q. rewrite list_lookup_insert_Some. intros [(<- & <- & _)|[_ Hq]]; eauto 10. }
  destruct Hpd as [P1 P2 P3 P4 P5 P6]. split; simpl.
  - intros j q Hq. destruct (Hold j q Hq) as (q' & Hq' & -> & _). by apply P1.
  - by rewrite length_insert.
  - intros j q Hq. destruct (Hold j q Hq) as (q' & Hq' & _ & -> & _ & ->). by apply P3.
  - intros j k q1 q2 H1 H2. destruct (Hold j q1 H1) as (r1 & Hr1 & _ & _ & _ & ->).
    destruct (Hold k q2 H2) as (r2 & Hr2 & _ & _ & _ & ->). by apply P4.
  - intros u th Hu. destruct (P5 u th Hu) as [(? & ? & ?)|(Hv & q & Hq & Hqu & Hqm)].
    { left. by rewrite length_insert. }
    right. split; [done|]. destruct (decide (i = Z.to_nat (pidValue th - 1))) as [->|].
    + exists (exited p code). rewrite list_lookup_insert_eq by (by eapply lookup_lt_Some). by simplify_eq.
    + exists q. by rewrite list_lookup_insert_ne.
  - intros j q. rewrite list_lookup_insert_Some. intros [(<- & <- & _)|[_ Hq]]; [|by apply P6].
    destruct (P6 i p Hip) as (C1 & _ & _). split_and!; simpl; [done|eauto|eauto].
Qed.

(** The parent's semaphore is raised and the pid's node marked. *)
Lemma exit_post t code E s :
  I_resume t E s → t ≠ BOOT →
  exhausted s ∨ ∃ s', I_resume t E s' ∧ pid_up t s' ∧
    (c ← kget k_curthread;
     th ← get_thread c;
     _ ← put_thread c (with_exitStatus 1 th);
     pids ← kget k_pids;
     i ← kderef (pid_search pids (pidValue th));
     p ← kderef (pids !! i);
     _ ← kmod (set_pids (<[i := exited p code]> pids));
     V (parentSem p)) s = Ret (tt, s').
Proof.
  intros ((Hc & Hi & Ht0 & ls & lr & lz & HI) & Hspl) Hb.
  pose proof (i_heap _ _ _ _ _ _ _ _ _ _ _ HI) as Hh.
  destruct (h_listed _ _ _ _ _ _ _ Hh t ltac:(set_solver)) as [th Hth].
  pose proof (h_ok _ _ _ _ _ _ _ Hh t th Hth) as Hok.
  pose proof (i_pids _ _ _ _ _ _ _ _ _ _ _ HI) as HP. pose proof HP as [P1 P2 P3 P4 P5 P6].
  destruct (P5 t th Hth) as [(_ & ? & _)|(Hv & p & Hp & Hu & Hm)]; [done|].
  pose proof (lookup_lt_Some _ _ _ Hp) as Hlt.
  destruct (pid_search_ok (k_pids s) (pidValue th)) as [Hsearch _]; [done|lia|].
  destruct (P3 _ _ Hp ltac:(lia)) as (_ & x & Hx & _).
  pose proof (i_sems _ _ _ _ _ _ _ _ _ _ _ HI _ _ Hx) as Hcnt.
  destruct (Z.lt_ge_cases (sem_count x) INT_MAX); [|left; eapply exhausted_sem; [done|lia|lia]].
  destruct (Z.lt_ge_cases (k_numthreads s) thread_lim) as [Hn|Hn]; [|left; by left].
  right. set (s1 := set_threads (λ m, <[t := with_exitStatus 1 th]> m) s).
  assert (I_run t E s1) as (_ & _ & _ & ls1 & lr1 & lz1 & HI1).
  { eapply I_run_put; [|done|done|done|done]. repeat (split; [done|]). eauto. }
  pose proof (Inv_exited _ _ _ _ _ _ _ _ _ code HI1 Hp) as HI2. fold s1 in HI2.
  destruct (Inv_V SEMS LOCKS CVS BOOT (parentSem p) x t [t] ls1 lr1 lz1 E _ HI2)
    as (s' & ls' & lr' & E1 & HI' & A1 & A2 & A3 & A4 & A5 & A6 & A7); [done..| |].
  { intros j q Hq Hj Hsem. assert (<[Z.to_nat (pidValue th - 1) := exited p code]> (k_pids s) !! Z.to_nat (pidValue th - 1) = Some (exited p code)) as Hme
      by (by rewrite list_lookup_insert_eq).
    pose proof (pd_inj _ _ _ _ (i_pids _ _ _ _ _ _ _ _ _ _ _ HI2) j _ q _ Hq Hme Hj ltac:(lia) Hsem) as ->.
    simpl in Hq. rewrite Hme in Hq. injection Hq as <-. simpl. eauto. }
  exists s'. split_and!.
  - split; [|by rewrite A3]. split; [by rewrite A1|]. split; [by rewrite A2|]. split; [done|]. eauto.
  - intros th' q y. rewrite A4, A6, A7. simpl. rewrite lookup_insert_eq. intros [= <-]. simpl.
    rewrite list_lookup_insert_eq by done. intros [= <-]. simpl. rewrite lookup_insert_eq.
    intros [= <-]. simpl. lia.
  - kgo. rewrite Hc, (get_thread_bind _ th) by done. unfold put_thread. kgo.
    exact E1.
Qed.

(** The address space of an exiting thread is given up. *)
Lemma exit_space t E s :
  I_run t E s → ∃ s' cwd,
    (th ← get_curthread;
     _ ← check_stack th;
     _ ← k_splhigh;
     _ ← (if t_vmspace th =? 0 then mret tt else
          c ← kget k_curthread;
          _ ← put_thread c (with_vmspace 0 th);
          k_as_destroy (t_vmspace th));
     mret (t_cwd th)) s = Ret (cwd, s') ∧ cwd = 0 ∧ I_resume t (upd E t (gone (E t))) s'.
Proof.
  intros HI. pose proof HI as (Hc & Hi & Ht0 & ls & lr & lz & HI').
  pose proof (i_heap _ _ _ _ _ _ _ _ _ _ _ HI') as Hh. pose proof (i_user _ _ _ _ _ _ _ _ _ _ _ HI') as Hus.
  pose proof (f_next _ _ (i_fresh _ _ _ _ _ _ _ _ _ _ _ HI')) as Hnx.
  destruct (h_listed _ _ _ _ _ _ _ Hh t ltac:(set_solver)) as [th Hth].
  destruct (h_ok _ _ _ _ _ _ _ Hh t th Hth) as (Hcwd & Hstk).
  destruct (I_run_hi _ _ _ _ _ _ _ HI) as [HI1 Hspl].
  exists (if t_vmspace th =? 0 then hi s else on_user (with_spaces (delete (t_vmspace th))) (set_threads (λ m, <[t := with_vmspace 0 th]> m) (hi s))), 0.
  split; [|split; [done|]].
  { unfold get_curthread. kgo. rewrite Hc, (get_thread_bind _ th) by done.
    unfold check_stack. destruct (t_stack th) as [b|]; kgo; rewrite ?K_bind_check by (by apply bool_decide_eq_true);
      kgo; rewrite k_splhigh_bind; kgo; destruct (t_vmspace th =? 0); kgo; cbn [k_curthread hi set_cpu]; rewrite ?Hc, Hcwd; done. }
  destruct (Z.eqb_spec (t_vmspace th) 0) as [Hv|Hv].
  - assert (gone (E t) = with_act (E t) false) as ->.
    { pose proof (uo_space _ _ _ _ _ _ _ Hus t th Hth) as Hsp. rewrite Hv in Hsp. unfold gone, with_act.
      destruct (p_mem (E t)) as [mm|] eqn:Em; [by destruct (uo_valid _ _ _ _ _ _ _ Hus t mm Em)|]. by rewrite <- Hsp. }
    split; [|done]. split; [done|]. split; [by rewrite upd_eq|]. split; [done|]. exists ls, lr, lz.
    apply Inv_act; [|apply (pl_live _ _ _ _ _ _ (i_placed _ _ _ _ _ _ _ _ _ _ _ HI')); set_solver|done].
    apply Inv_cpu; [done|]. apply splhigh_wf, HI'.
  - split; [|done]. apply (I_run_user t th (with_vmspace 0 th) (gone (E t)) (k_tlb s) _ E (hi s)); [done..|].
    intros lz' Hlz HU. apply user_ok_gone; [done|done|done|done|simpl; lia].
Qed.

(** An exiting thread never comes back. *)
Lemma wp_thread_exit t code Q E s :
  I_run t E s → p_emb (E t) = None → t ≠ BOOT → wp t (thread_exit code) Q E s.
Proof.
  intros HI Hemb Hb. unfold thread_exit. apply wp_bind, wp_act; [done|].
  intros E0 s1 HE0 HI1 _. right. pose proof HI1 as (_ & _ & Ht0 & _).
  destruct (exit_space t E0 s1 HI1) as (s2 & cwd & Es2 & -> & HR). rewrite <- HE0 in Hemb. clear HE0.
  exists 0, s2, (upd E0 t (gone (E0 t))). split; [done|].
  split; [apply gstep_upd; simpl; [congruence|congruence]|]. apply wp_done. cbn [Z.eqb kbind].
  assert (p_emb (upd E0 t (gone (E0 t)) t) = None ∧ p_space (upd E0 t (gone (E0 t)) t) = 0) as [Hemb1 Hsp1] by (rewrite upd_eq; done).
  revert HR Hemb1 Hsp1. generalize (upd E0 t (gone (E0 t))). intros E1 HR Hemb1 Hsp1. clear Es2 HI1.
  apply wp_bind, wp_act_off; [by eapply I_resume_off|].
  destruct (exit_post t code E1 s2 HR Hb) as [?|(s3 & HR3 & Hup & E3)]; [by left|right].
  exists 0, s3, E1. split; [unfold exited in E3; by rewrite (K_bind _ _ _ _ _ E3)|].
  split; [apply gstep_refl|]. apply wp_done, wp_bind, wp_act_off; [by eapply I_resume_off|]. right.
  pose proof HR3 as ((Hc3 & Hi3 & _ & ls3 & lr3 & lz3 & HI3) & Hspl3).
  exists 0, (set_numthreads (k_numthreads s3 - 1) s3), E1. split.
  { pose proof (pl_num _ _ _ _ _ _ (i_placed _ _ _ _ _ _ _ _ _ _ _ HI3)) as Hn. simpl in Hn.
    kgo. done. }
  split; [apply gstep_refl|]. apply wp_done, wp_bind, wp_act_off; [by eapply (I_resume_off _ _ _ _ t E1 s3)|].
  destruct (l_zombies _ _ _ _ (i_lists _ _ _ _ _ _ _ _ _ _ _ HI3)) as (z & Hz & Hzr).
  destruct (Z.lt_ge_cases (Z.of_nat (length lz3)) thread_lim) as [Hn|Hn]; [right|left].
  2:{ right; left. exists z. split; [done|]. unfold array_getnum. destruct Hzr as (-> & _). done. }
  destruct (mi_switch_out_zomb t ls3 lr3 lz3 E1 s3) as (s4 & E4 & HS); [done..|].
  exists t, s4, (upd E1 t (dead (E1 t))). split; [done|].
  split; [by apply gstep_upd|]. rewrite (proj2 (Z.eqb_neq _ _)) by done.
  split; [done|]. split; [done|]. by rewrite upd_eq.
Qed.

(** A new thread from its first instruction, in its address space if it has
    one. *)
Lemma wp_mi_threadstart_gen t func a E s :
  I_resume t E s → E t = newborn a → t ≠ BOOT →
  (∀ E' s', E' t = with_act (newborn a) (negb (a.1 =? 0)) → I_run t E' s' → curspl (k_cpu s') = 0 →
     wp t func (λ _ E2 s2, I_run t E2 s2 ∧ p_emb (E2 t) = None) E' s') →
  wp t (mi_threadstart func) (λ _ _ _, True) E s.
Proof.
  intros HR HE Hb Hf. pose proof HR as ((Hc & Hi & Ht0 & ls & lr & lz & HI) & Hspl).
  pose proof (i_heap _ _ _ _ _ _ _ _ _ _ _ HI) as Hh. pose proof (i_user _ _ _ _ _ _ _ _ _ _ _ HI) as Hus.
  destruct (h_listed _ _ _ _ _ _ _ Hh t ltac:(set_solver)) as [th Hth].
  pose proof (uo_space _ _ _ _ _ _ _ Hus t th Hth) as Hvm. rewrite HE in Hvm. simpl in Hvm.
  unfold mi_threadstart. apply wp_bind, wp_act_off; [by eapply I_resume_off|]. right.
  set (b := negb (a.1 =? 0)). set (E1 := upd E t (with_act (E t) b)).
  assert (∃ s1, (if t_vmspace th =? 0 then mret tt else k_as_activate (t_vmspace th)) s = Ret (tt, s1) ∧ I_run t E1 s1)
    as (s1 & Es1 & HI1).
  { rewrite Hvm. unfold b in E1. destruct (Z.eqb_spec a.1 0) as [Ha|Ha]; simpl in E1; eexists.
    - split; [done|]. split; [done|]. split; [unfold E1; by rewrite upd_eq|]. split; [done|]. exists ls, lr, lz.
      apply Inv_act; [done|by rewrite HE|done].
    - split; [apply k_as_activate_ok, HI|]. split; [done|]. split; [unfold E1; by rewrite upd_eq|]. split; [done|].
      exists ls, lr, lz. apply Inv_act; [|by rewrite HE|].
      + apply Inv_activate; [done|pose proof (uo_vm _ _ _ _ _ _ _ Hus t) as Hlt; by rewrite HE in Hlt|]. intros u Hu.
        destruct (uo_act _ _ _ _ _ _ _ Hus u Hu) as (->%list_elem_of_singleton & _). by rewrite HE in Hu.
      + intros _. rewrite HE. simpl. split_and!; [set_solver|done|done]. }
  destruct (I_run_splx _ _ _ _ t E1 s1 0 HI1 ltac:(by left)) as (s' & E2 & HI' & Hs').
  exists 0, s', E1. split.
  { unfold get_curthread. kgo. rewrite Hc, (get_thread_bind _ th) by done. kgo. rewrite (K_bind _ _ _ _ _ Es1). kgo.
    rewrite (K_bind _ _ _ _ _ (E2 : k_spl0 s1 = _)). kgo. done. }
  split; [apply gstep_upd; by rewrite HE|]. apply wp_done, wp_bind.
  eapply wp_mono; [|apply Hf; [unfold E1; by rewrite upd_eq, HE|done|done]].
  intros r E3 s3 [HI3 Hemb]. by apply wp_thread_exit.
Qed.

Lemma wp_mi_threadstart t func E s :
  I_resume t E s → E t = plive → t ≠ BOOT →
  (∀ E' s', E' t = plive → I_run t E' s' → curspl (k_cpu s') = 0 →
     wp t func (λ _ E2 s2, I_run t E2 s2 ∧ p_emb (E2 t) = None) E' s') →
  wp t (mi_threadstart func) (λ _ _ _, True) E s.
Proof. intros HR HE. by apply (wp_mi_threadstart_gen t func (0, None)). Qed.

End ForkExit.
