(* ===== verification/Interrupts.v ===== *)
(** Rules of the logic for interrupts: the handlers run on the stack of the
    thread they interrupt, or on the stack of the last thread when the
    processor is idle, and leave everything as they found it. *)

From Stdlib Require Import ZArith Lia.
From stdpp Require Import base numbers list option gmap.
From S2P Require Import Prelude Array Queue Cpu Vm Kernel Thread Machine ThreadOps ThreadInv.
From S2P Require Import Logic SynchProofs SynchRules.

Open Scope Z_scope.

Definition with_int (p : priv) (n : Z) : priv :=
  mkPriv (p_stat p) (p_emb p) (p_held p) n (p_node p) (p_space p) (p_mem p) (p_kid p) (p_act p).

Lemma with_int_back p n : with_int (with_int p n) (p_int p) = p.
Proof. by destruct p. Qed.

Section Interrupts.
Context (SEMS LOCKS CVS : gset Z) (BOOT : Z).

#[local] Abbreviation Inv := (Inv SEMS LOCKS CVS BOOT).
#[local] Abbreviation I_run := (I_run SEMS LOCKS CVS BOOT).
#[local] Abbreviation I_sched := (I_sched SEMS LOCKS CVS BOOT).
#[local] Abbreviation I_resume := (I_resume SEMS LOCKS CVS BOOT).
#[local] Abbreviation wp := (wp SEMS LOCKS CVS BOOT).

(** The interrupts a device may raise. *)
Definition irq_ok (i : irq) : Prop :=
  match i with Iclock => True | Idev sem => sem ∈ SEMS end.

(** [in_interrupt] and the clock's counter are not part of the invariant. *)
Lemma Inv_in_interrupt x rs ls lr lz E s n :
  Inv x rs ls lr lz E s → Inv x rs ls lr lz E (set_in_interrupt n s).
Proof.
  intros [Hl Hp Hh Hs Hsm Hlk Hf Hpd Hst Hcpu Ho Hus].
  split; try done; [by destruct Hl|by destruct Hf|by destruct Hpd|by destruct Hst].
Qed.

Lemma Inv_lbolt x rs ls lr lz E s n :
  Inv x rs ls lr lz E s → Inv x rs ls lr lz E (set_lbolt_counter n s).
Proof.
  intros [Hl Hp Hh Hs Hsm Hlk Hf Hpd Hst Hcpu Ho Hus].
  split; try done; [by destruct Hl|by destruct Hf|by destruct Hpd|by destruct Hst].
Qed.

(** The saved [in_interrupt] of the thread whose stack is in use is free to change. *)
Lemma Inv_int t rs ls lr lz E s n :
  Inv t rs ls lr lz E s → p_stat (E t) ≠ PNone →
  Inv t rs ls lr lz (upd E t (with_int (E t) n)) s.
Proof.
  intros [Hl [N1 N2 N3 N4] [A1 A2 A3 A4 A5] Hs Hsm Hlk [F1 F2 F3 F4 F5 F6] Hpd [T1 T2 T3 T4 T5] Hcpu Ho Hus] Hst.
  set (E' := upd E t _).
  assert (∀ u, p_stat (E' u) = p_stat (E u) ∧ p_emb (E' u) = p_emb (E u) ∧
    p_held (E' u) = p_held (E u) ∧ p_node (E' u) = p_node (E u)) as Hsame.
  { intros u. unfold E', upd. by destruct (Z.eqb_spec u t) as [->|]. }
  assert (∀ u, E u = p0 → E' u = p0) as Hp0.
  { intros u Hu. unfold E'. rewrite upd_ne; [done|]. intros ->. by rewrite Hu in Hst. }
  split; try done.
  - split; try done; intros u; destruct (Hsame u) as (-> & _); auto.
  - split; try done.
    + intros u th Hu. unfold E'. rewrite upd_ne by done. by apply A3.
    + intros u e b. destruct (Hsame u) as (-> & -> & _). intros Hu.
      destruct (A4 u e b Hu) as (? & ? & ?). auto.
    + intros u u' e b b'. destruct (Hsame u) as (_ & -> & _), (Hsame u') as (_ & -> & _). apply A5.
  - intros l y Hy. destruct (Hlk l y Hy) as [[? Hno]|(u & ? & ? & Hu & Hun)]; [left|right].
    + split; [done|]. intros v. destruct (Hsame v) as (_ & _ & -> & _). apply Hno.
    + exists u. destruct (Hsame u) as (_ & _ & -> & _). split_and!; try done.
      intros u'. destruct (Hsame u') as (_ & _ & -> & _). auto.
  - split; try done. auto.
  - split; try done.
    + intros u i a. destruct (Hsame u) as (_ & _ & _ & ->). apply T4.
    + by destruct (Hsame BOOT) as (-> & _).
  - apply ghost_user; [done|done|done|lia|done].
Qed.

(** Entering and leaving an interrupt on a running thread. *)
Lemma I_run_trap t E s :
  I_run t E s → I_resume t (upd E t (with_int (E t) 1)) (trap_enter s).
Proof.
  intros HI. pose proof (I_run_live _ _ _ _ _ _ _ HI) as Hlive.
  destruct (I_run_hi _ _ _ _ _ _ _ HI) as [(Hc & Hi & Ht0 & ls & lr & lz & HI') Hspl].
  change (trap_enter s) with (set_in_interrupt 1 (hi s)).
  split; [|done]. split; [done|]. split; [by rewrite upd_eq|]. split; [done|].
  exists ls, lr, lz. apply Inv_int; [by apply Inv_in_interrupt|]. by rewrite Hlive.
Qed.

Lemma wp_trap_leave t saved n (k : Z → kcode) Q E s :
  I_run t E s → cpu_wf saved → curspl (k_cpu s) = SPL_HIGH →
  (∀ s', I_run t (upd E t (with_int (E t) n)) s' → k_cpu s' = saved →
     wp t (k 0) Q (upd E t (with_int (E t) n)) s') →
  wp t (x <- act_ (trap_leave saved n) ;; k x) Q E s.
Proof.
  intros HI Hwf Hspl Hk. pose proof (I_run_live _ _ _ _ _ _ _ HI) as Hlive.
  apply wp_bind, wp_act_off; [by eapply (I_resume_off _ _ _ _ t E)|]. right.
  destruct HI as (Hc & Hi & Ht0 & ls & lr & lz & HI).
  exists 0, (set_cpu saved (hi (set_in_interrupt n s))), (upd E t (with_int (E t) n)). split.
  { unfold trap_leave. kgo. rewrite k_splhigh_bind. kgo. done. }
  split; [by apply gstep_upd; simpl; [|rewrite Hlive]|]. apply wp_done, Hk; [|done].
  split; [done|]. split; [by rewrite upd_eq|]. split; [done|]. exists ls, lr, lz.
  apply Inv_int; [|by rewrite Hlive]. apply Inv_cpu; [|done]. apply Inv_cpu; [by apply Inv_in_interrupt|].
  apply splhigh_wf, HI.
Qed.

(** The clock's tick, for any thread list. *)
Lemma tick_ok x rs ls lr lz E s :
  Inv x rs ls lr lz E s → 0 < curspl (k_cpu s) → k_numthreads s < thread_lim →
  ∃ s' ls' lr', (n ← kget k_lbolt_counter;
    let n' := s32 (n + 1) in
    _ ← kmod (set_lbolt_counter n');
    if HZ <=? n' then _ ← kmod (set_lbolt_counter 0); thread_wakeup lbolt else mret tt) s = Ret (tt, s') ∧
    Inv x rs ls' lr' lz E s' ∧ k_curthread s' = k_curthread s ∧
    k_in_interrupt s' = k_in_interrupt s ∧ k_cpu s' = k_cpu s ∧ k_threads s' = k_threads s.
Proof.
  intros HI Hspl Hn. kgo. destruct (HZ <=? s32 (k_lbolt_counter s + 1)).
  - kgo. destruct (Inv_wakeup SEMS LOCKS CVS BOOT lbolt x rs ls lr lz E
      (set_lbolt_counter 0 (set_lbolt_counter (s32 (k_lbolt_counter s + 1)) s)))
      as (s' & ls' & lr' & E1 & HI' & H1 & H2 & H3 & H4); [by do 2 apply Inv_lbolt|done|done|].
    eauto 10.
  - eexists _, ls, lr. split; [done|]. split; [by apply Inv_lbolt|done].
Qed.

(** A handler on a running thread. *)
Lemma wp_handler t i Q E s :
  I_resume t E s → irq_ok i →
  (∀ r E' s', E' t = E t → I_resume t E' s' → Q r E' s') → wp t (handler i) Q E s.
Proof.
  intros HR Hok HQ. pose proof HR as ((Hc & Hi & Ht0 & ls & lr & lz & HI) & Hspl).
  destruct i as [|sem]; simpl in *.
  - apply wp_bind, wp_act_off; [by eapply I_resume_off|].
    destruct (Z.lt_ge_cases (k_numthreads s) thread_lim) as [Hn|Hn]; [|left; by left]. right.
    destruct (tick_ok t [t] ls lr lz E s) as (s' & ls' & lr' & E1 & HI' & A1 & A2 & A3 & _);
      [done|by rewrite Hspl|done|].
    exists 0, s', E. split; [by rewrite (K_bind _ _ _ _ _ E1)|]. split; [apply gstep_refl|].
    apply wp_done, wp_thread_yield.
    + split; [by rewrite A1|]. split; [by rewrite A2|]. split; [done|]. eauto.
    + intros r E2 s2 HE2 HI2 Hs2. apply HQ; [done|]. split; [done|]. by rewrite Hs2, A3.
  - apply wp_V; [apply HR|done|]. intros r E' s' HE HI' Hs'. apply HQ; [done|].
    split; [done|]. congruence.
Qed.

(** An interrupt of a running thread: the interrupted code goes on. *)
Lemma wp_irq_run t i c Q E s :
  I_run t E s → irq_ok i → ints_on s →
  (∀ E' s', E' t = E t → I_run t E' s' → ints_on s' → wp t c Q E' s') →
  wp t (handler i ;;; act_ (trap_leave (k_cpu s) (k_in_interrupt s)) ;;; c) Q
    (upd E t (with_int (E t) 1)) (trap_enter s).
Proof.
  intros HI Hok Hon Hc. pose proof HI as (_ & Hi & _ & _). pose proof (I_run_cpu _ _ _ _ _ _ _ HI) as Hwf.
  apply wp_bind, wp_handler; [by apply I_run_trap|done|].
  intros r E1 s1 HE1 [HI1 Hs1]. rewrite upd_eq in HE1.
  eapply (wp_trap_leave t _ _ (λ _, c)); [done|done|done|]. intros s2 HI2 Hs2.
  apply Hc; [|done|unfold ints_on; by rewrite Hs2].
  rewrite upd_eq, HE1, Hi. apply with_int_back.
Qed.

(** ** The idle processor *)

Lemma I_sched_trap t E s :
  I_sched t E s → I_sched t (upd E t (with_int (E t) 1)) (trap_enter s).
Proof.
  intros (Hc & Hi & Hspl & Ht & Hst & ls & lr & lz & HI).
  change (trap_enter s) with (set_in_interrupt 1 (hi s)).
  split; [done|]. split; [by rewrite upd_eq|]. split; [done|]. split; [done|].
  split; [by rewrite upd_eq|]. exists ls, lr, lz. apply Inv_int; [|done].
  apply Inv_in_interrupt, Inv_cpu; [done|]. apply splhigh_wf, HI.
Qed.

Lemma I_sched_off t E s : I_sched t E s → ints_enabled (k_cpu s) = false.
Proof.
  intros (_ & _ & Hspl & _ & _ & ls & lr & lz & HI).
  destruct (i_cpu _ _ _ _ _ _ _ _ _ _ _ HI) as (_ & _ & ->). by rewrite Hspl.
Qed.

(** With no current thread, [thread_yield] does nothing. *)
Lemma wp_yield_idle t Q E s :
  I_sched t E s → (∀ r, Q r E s) → wp t thread_yield Q E s.
Proof.
  intros HS HQ. pose proof HS as (Hc & Hi & Hspl & _ & _ & ls & lr & lz & HI).
  pose proof (I_sched_off _ _ _ HS) as Hoff. pose proof HI as [[(a & Ha & _) _ _] _ _ _ _ _ _ _ _ Hcpu _ _].
  assert (hi s = s) as Hhi by (unfold hi; rewrite splhigh_id by done; by destruct s).
  unfold thread_yield. apply wp_bind, wp_act_off; [done|]. right. exists SPL_HIGH, s, E. split.
  { rewrite k_splhigh_bind, Hhi. kgo. rewrite Ha. kgo. by rewrite Hspl. }
  split; [apply gstep_refl|]. apply wp_done, wp_bind, wp_act_off; [done|]. right.
  exists 0, s, E. split; [unfold mi_switch_out; kgo; by rewrite Hc|]. split; [apply gstep_refl|].
  cbn [Z.eqb]. apply wp_done, wp_act_off; [done|]. right. exists SPL_HIGH, s, E.
  split; [|split; [apply gstep_refl|apply wp_done; by apply HQ]].
  unfold k_splx. change (splx SPL_HIGH (k_cpu s)) with (curspl (k_cpu s), (splhigh (k_cpu s)).2).
  rewrite splhigh_id, Hspl by done. by destruct s.
Qed.

Lemma wp_handler_idle t i Q E s :
  I_sched t E s → irq_ok i → (∀ r s', I_sched t E s' → Q r E s') → wp t (handler i) Q E s.
Proof.
  intros HS Hok HQ. pose proof HS as (Hc & Hi & Hspl & Ht & Hst & ls & lr & lz & HI).
  destruct i as [|sem]; simpl in *.
  - apply wp_bind, wp_act_off; [by eapply I_sched_off|].
    destruct (Z.lt_ge_cases (k_numthreads s) thread_lim) as [Hn|Hn]; [|left; by left]. right.
    destruct (tick_ok t [] ls lr lz E s) as (s' & ls' & lr' & E1 & HI' & A1 & A2 & A3 & A4);
      [done|by rewrite Hspl|done|].
    exists 0, s', E. split; [by rewrite (K_bind _ _ _ _ _ E1)|]. split; [apply gstep_refl|].
    assert (I_sched t E s') as HS'.
    { split; [congruence|]. split; [congruence|]. split; [congruence|]. rewrite A4. eauto 10. }
    apply wp_done, wp_yield_idle; auto.
  - apply wp_act_off; [by eapply I_sched_off|].
    destruct (st_sems _ _ _ _ _ _ (i_static _ _ _ _ _ _ _ _ _ _ _ HI) sem Hok) as [y Hy].
    pose proof (i_sems _ _ _ _ _ _ _ _ _ _ _ HI _ _ Hy) as Hcnt.
    destruct (Z.lt_ge_cases (sem_count y) INT_MAX); [|left; eapply exhausted_sem; [done|lia|lia]].
    destruct (Z.lt_ge_cases (k_numthreads s) thread_lim) as [Hn|Hn]; [|left; by left]. right.
    destruct (Inv_V SEMS LOCKS CVS BOOT sem y t [] ls lr lz E s)
      as (s' & ls' & lr' & E1 & HI' & A1 & A2 & A3 & A4 & _); [done..|by eapply sem_known_shared|].
    exists 0, s', E. split; [by rewrite (K_bind _ _ _ _ _ E1)|]. split; [apply gstep_refl|].
    apply wp_done, HQ. split; [congruence|]. split; [congruence|]. split; [congruence|].
    rewrite A4. eauto 10.
Qed.

(** An interrupt in the idle loop: back to waiting for a runnable thread. *)
Lemma wp_irq_idle t i k Q E s :
  I_sched t E s → irq_ok i →
  (p_stat (E t) = PLive → ∀ E' s', E' t = E t → I_resume t E' s' → wp t k Q E' s') →
  wp t (handler i ;;; act_ (trap_leave (k_cpu s) (k_in_interrupt s)) ;;; Sched t k) Q
    (upd E t (with_int (E t) 1)) (trap_enter s).
Proof.
  intros HS Hok Hk. pose proof HS as (Hc & Hi & Hspl & Ht & Hst & ls & lr & lz & HI).
  apply wp_bind, wp_handler_idle; [by apply I_sched_trap|done|]. intros r s1 HS1.
  pose proof HS1 as (Hc1 & _ & Hspl1 & Ht1 & _ & ls1 & lr1 & lz1 & HI1).
  set (E1 := upd E t (with_int (E t) 1)) in *.
  apply wp_bind, wp_act_off; [by eapply I_sched_off|]. right.
  exists 0, (set_cpu (k_cpu s) (hi (set_in_interrupt (k_in_interrupt s) s1))),
    (upd E1 t (with_int (E1 t) (k_in_interrupt s))). split.
  { unfold trap_leave. kgo. rewrite k_splhigh_bind. kgo. done. }
  assert (with_int (E1 t) (k_in_interrupt s) = E t) as Hback.
  { unfold E1. rewrite upd_eq, Hi. apply with_int_back. }
  split.
  { apply gstep_upd; unfold E1; rewrite upd_eq; [done|]. simpl. congruence. }
  apply wp_done. split; [done|]. split.
  - split; [done|]. split; [rewrite upd_eq; done|]. split; [done|]. split; [done|].
    split; [by rewrite upd_eq, Hback|]. exists ls1, lr1, lz1.
    apply Inv_int; [|unfold E1; by rewrite upd_eq]. apply Inv_cpu; [|apply HI].
    apply Inv_cpu; [by apply Inv_in_interrupt|]. apply splhigh_wf, HI1.
  - rewrite upd_eq, Hback. done.
Qed.

End Interrupts.
