(* ===== verification/Safety.v ===== *)
(** Soundness of the logic: a machine all of whose threads are proved keeps
    running, whatever the interrupts do. *)

From Stdlib Require Import ZArith Lia.
From stdpp Require Import base numbers list option gmap.
From S2P Require Import Prelude Array Queue Cpu Vm Kernel Thread Machine ThreadOps ThreadInv.
From S2P Require Import Logic SynchProofs SynchRules Interrupts.

Open Scope Z_scope.

Section Safety.
Context (SEMS LOCKS CVS : gset Z) (BOOT : Z).

#[local] Abbreviation Inv := (Inv SEMS LOCKS CVS BOOT).
#[local] Abbreviation I_run := (I_run SEMS LOCKS CVS BOOT).
#[local] Abbreviation I_sched := (I_sched SEMS LOCKS CVS BOOT).
#[local] Abbreviation I_resume := (I_resume SEMS LOCKS CVS BOOT).
#[local] Abbreviation wp := (wp SEMS LOCKS CVS BOOT).
#[local] Abbreviation irq_ok := (irq_ok SEMS).

(** Code that may be resumed as thread [u] with bookkeeping [p]. *)
Definition resumes (u : Z) (p : priv) (c : kcode) : Prop :=
  ∀ E s, E u = p → I_resume u E s → wp u c (λ _ _ _, True) E s.

(** The suspended threads, while [t]'s stack is in use. *)
Record susp_ok (t : Z) (E : ghost) (M : gmap Z kcode) : Prop := {
  su_live : ∀ u, u ≠ t → p_stat (E u) = PLive → ∃ c, M !! u = Some c ∧ resumes u (E u) c;
  su_emb : ∀ u e, p_emb (E u) = Some (e, true) → ∃ c, M !! e = Some c ∧ resumes e (newborn (p_kid (E u))) c
}.

Definition msafe (m : machine) : Prop :=
  ∃ t E, wp t (m_code m) (λ _ _ _, True) E (m_s m) ∧ susp_ok t E (m_susp m).

Lemma susp_ok_gstep t E E' M : susp_ok t E M → gstep t E E' → susp_ok t E' M.
Proof.
  intros [S1 S2] (G1 & G2 & _). split.
  - intros u Hu Hl. destruct (G1 u Hu) as [Eu|(He & _ & _ & Eu)]; rewrite Eu in *; eauto.
  - intros u e He. destruct (Z.eq_dec u t) as [->|Hne]; [destruct (G2 e He) as [? ->]; by apply (S2 t)|].
    destruct (G1 u Hne) as [Eu|(_ & _ & _ & Eu)]; rewrite Eu in He |- *; [by eapply S2|done].
Qed.

Lemma susp_ok_initpcb t e start E M :
  susp_ok t E M → p_emb (E t) = Some (e, false) → E e = p0 →
  (∀ u b, p_emb (E u) = Some (e, b) → u = t) → resumes e (newborn (p_kid (E t))) start →
  susp_ok t (upd E t (with_emb (E t) (Some (e, true)))) (<[e := start]> M).
Proof.
  intros [S1 S2] Hemb He0 Huniq Hst. split.
  - intros u Hu. rewrite upd_ne by done. intros Hl.
    rewrite lookup_insert_ne; [by apply S1|]. intros ->. rewrite He0 in Hl. done.
  - intros u e' He. destruct (Z.eq_dec u t) as [->|Hne].
    + rewrite upd_eq in He |- *. simplify_eq/=. exists start. by rewrite lookup_insert_eq.
    + rewrite upd_ne in He |- * by done. destruct (S2 u e' He) as (c & Hc & Hr).
      exists c. rewrite lookup_insert_ne; [done|]. intros ->. by apply Hne, (Huniq u true).
Qed.

Lemma susp_ok_switch cur next k E M s :
  susp_ok cur E M → I_sched cur E s → p_stat (E next) = PLive → next ≠ cur →
  (p_stat (E cur) = PLive → resumes cur (E cur) k) →
  susp_ok next E (<[cur := k]> (delete next M)).
Proof.
  intros [S1 S2] (_ & _ & _ & _ & Hst & ls & lr & lz & HI) Hn Hne Hk. split.
  - intros u Hu Hl. destruct (Z.eq_dec u cur) as [->|Huc].
    + exists k. rewrite lookup_insert_eq. auto.
    + rewrite lookup_insert_ne, lookup_delete_ne by done. auto.
  - intros u e He.
    destruct (h_emb _ _ _ _ _ _ _ (i_heap _ _ _ _ _ _ _ _ _ _ _ HI) u e true He) as (_ & He0 & _).
    assert (e ≠ cur) by (intros ->; by rewrite He0 in Hst).
    assert (e ≠ next) by (intros ->; rewrite He0 in Hn; done).
    rewrite lookup_insert_ne, lookup_delete_ne by done. eauto.
Qed.

(** ** The machine keeps running *)

Lemma msafe_exec m :
  msafe m → exhausted (m_s m) ∨ ∃ m', exec m = Ret m' ∧ msafe m'.
Proof.
  destruct m as [s c M]. intros (t & E & Hwp & HM). simpl in *.
  destruct c as [r|f k|b body k|e start k|cur k]; unfold exec; simpl.
  - right. eexists; split; [done|]. by exists t, E.
  - assert (exhausted s ∨ ∃ x s' E', f s = Ret (x, s') ∧ gstep t E E' ∧
      wp t (k x) (λ _ _ _, True) E' s') as [?|(x & s' & E' & Hf & Hg & Hk)]; [|by left|right].
    { destruct Hwp as [Hoff Hon]. destruct (ints_enabled (k_cpu s)) eqn:Hi; [|by apply Hoff].
      destruct (Hon eq_refl) as [HI Hall]. by apply Hall. }
    rewrite Hf. eexists; split; [done|]. exists t, E'. split; [done|]. by eapply susp_ok_gstep.
  - right. destruct Hwp as (L & HL & Hstep). destruct (Hstep E s HL) as (_ & v & Hb & Hv).
    rewrite Hb. eexists; split; [done|]. exists t, E. split; [|done]. simpl. destruct v; [|done].
    apply wp_bind. eapply wp_mono; [|exact Hv]. intros r E1 s1 H1. by exists L.
  - right. eexists; split; [done|].
    assert (p_emb (E t) = Some (e, false) ∧ E e = p0 ∧ (∀ u b, p_emb (E u) = Some (e, b) → u = t) ∧
      resumes e (newborn (p_kid (E t))) start ∧
      wp t k (λ _ _ _, True) (upd E t (with_emb (E t) (Some (e, true)))) s) as (? & ? & ? & ? & ?).
    { destruct Hwp as [Hoff Hon]. destruct (ints_enabled (k_cpu s)) eqn:Hi; [|by apply Hoff].
      destruct (Hon eq_refl) as [HI Hall]. by apply Hall. }
    eexists t, _. split; [done|]. by apply susp_ok_initpcb.
  - right. destruct Hwp as (-> & HS & Hk). pose proof HS as (_ & _ & Hspl & _ & _ & ls & lr & lz & HI).
    rewrite (runqueue_empty_ok _ _ _ _ _ _ _ _ _ _ HI). destruct lr as [|next lr]; simpl.
    { rewrite Hspl. eexists; split; [done|]. exists t, E. split; [|done]. simpl.
      split; [done|]. by split. }
    destruct (switch_ok _ _ _ _ _ _ _ _ _ _ _ HS HI) as (s' & E1 & HR & Hlive). rewrite E1, mbind_Ret.
    destruct (Z.eqb_spec next t) as [->|Hne].
    + eexists; split; [done|]. exists t, E. split; [by apply Hk|done].
    + destruct (su_live _ _ _ HM next Hne Hlive) as (code & Hcode & Hres). rewrite Hcode.
      eexists; split; [done|]. exists next, E. split; [by apply Hres|].
      eapply susp_ok_switch; [done|done|done|done|]. intros Hl E2 s2. by apply Hk.
Qed.

Lemma susp_ok_int t E M n : susp_ok t E M → susp_ok t (upd E t (with_int (E t) n)) M.
Proof.
  intros H. apply (susp_ok_gstep t E); [done|]. split_and!; [|by rewrite upd_eq|].
  - intros u Hu. left. by apply upd_ne.
  - rewrite upd_eq. simpl. congruence.
Qed.

Lemma msafe_irq m i : msafe m → irq_allowed m = true → irq_ok i → msafe (take_irq i m).
Proof.
  destruct m as [s c M]. intros (t & E & Hwp & HM) Hal Hok. simpl in *.
  exists t, (upd E t (with_int (E t) 1)). split; [|by apply susp_ok_int].
  unfold take_irq. cbn [m_code m_s m_susp] in *.
  destruct c as [r|f k|b body k|e start k|cur k]; [done|..|].
  4:{ destruct Hwp as (-> & HS & Hk). by apply wp_irq_idle. }
  all: destruct (wp_stable _ _ _ _ _ _ _ _ _ Hwp Hal) as [HI Hall]; [done|done|].
  all: by apply wp_irq_run.
Qed.

(** ** Reachable machines *)

(** Steps of the processor and the interrupts of the shared devices. *)
Inductive kreach (m : machine) : machine → Prop :=
  | kreach_refl : kreach m m
  | kreach_exec m1 m2 :
      kreach m m1 → ¬ exhausted (m_s m1) → exec m1 = Ret m2 → kreach m m2
  | kreach_irq m1 i :
      kreach m m1 → ¬ exhausted (m_s m1) → irq_allowed m1 = true → irq_ok i →
      kreach m (take_irq i m1).

Lemma msafe_reach m m' : msafe m → kreach m m' → msafe m'.
Proof.
  intros Hm. induction 1 as [|m1 m2 _ IH Hex He|m1 i _ IH Hex Hal Hok]; [done| |].
  - destruct (msafe_exec m1 IH) as [?|(m' & E' & ?)]; [done|]. rewrite E' in He. by simplify_eq.
  - by apply msafe_irq.
Qed.

(** What holds wherever an interrupt can be taken. *)
Lemma msafe_inv m :
  msafe m → irq_allowed m = true →
  ∃ t E rs ls lr lz, Inv t rs ls lr lz E (m_s m) ∧
    (rs = [t] ∧ k_curthread (m_s m) = t ∨ rs = [] ∧ lr = [] ∧ k_curthread (m_s m) = 0).
Proof.
  destruct m as [s c M]. intros (t & E & Hwp & _) Hal. simpl in *. exists t, E.
  destruct c as [r|f k|b body k|e start k|cur k]; [done|..|].
  4:{ destruct Hwp as (-> & HS & _). destruct HS as (Hc & _ & _ & _ & _ & ls & lr & lz & HI).
      exists [], ls, lr, lz. split; [done|]. right. unfold irq_allowed in Hal. simpl in Hal.
      rewrite (runqueue_empty_ok _ _ _ _ _ _ _ _ _ _ HI) in Hal. apply bool_decide_eq_true in Hal. done. }
  all: destruct (wp_stable _ _ _ _ _ _ _ _ _ Hwp Hal) as [(Hc & _ & _ & ls & lr & lz & HI) _]; [done|done|].
  all: exists [t], ls, lr, lz; split; [done|by left].
Qed.

End Safety.
