(* ===== verification/Paging.v ===== *)
(** Page faults of a process whose address space fits in the TLB: the TLB
    always has room, so the only fatal fault is that of an address outside
    the address space. *)

From Stdlib Require Import ZArith Lia.
From stdpp Require Import base numbers list option gmap.
From S2P Require Import Prelude Array Queue Cpu Vm Kernel Thread Machine ThreadOps ThreadInv.

Open Scope Z_scope.

(** ** The pages of an address space *)

Definition pages (base n : Z) : list Z := (λ i, base + Z.of_nat i * 4096) <$> seq 0 (Z.to_nat n).

Definition pages_of (a : addrspace) : list Z :=
  pages (as_vbase1 a) (as_npages1 a) ++ pages (as_vbase2 a) (as_npages2 a) ++ pages stackbase DUMBVM_STACKPAGES.

Lemma pages_elem base n v :
  base mod 4096 = 0 → v mod 4096 = 0 → seg base n v = true → v ∈ pages base n.
Proof.
  intros Hb Hv. unfold seg, PAGE_SIZE. rewrite andb_true_iff, Z.leb_le, Z.ltb_lt. intros [H1 H2].
  apply list_elem_of_fmap. exists (Z.to_nat ((v - base) / 4096)).
  apply Z.mod_divide in Hb as [b ->], Hv as [w ->]; try lia.
  replace (w * 4096 - b * 4096) with ((w - b) * 4096) by lia. rewrite Z.div_mul by lia.
  split; [lia|]. apply elem_of_seq. lia.
Qed.

Lemma translate_pages lim a v :
  as_wf lim a → v mod 4096 = 0 → translate a v ≠ None → v ∈ pages_of a.
Proof.
  intros (_ & H1 & H2 & H3) Hv. unfold translate, pages_of, seg_wf in *. rewrite !elem_of_app.
  destruct (seg (as_vbase1 a) _ v) eqn:E1; [left; apply pages_elem; tauto|].
  destruct (seg (as_vbase2 a) _ v) eqn:E2; [right; left; apply pages_elem; tauto|].
  destruct (seg stackbase _ v) eqn:E3; [right; right; apply pages_elem; tauto|done].
Qed.

Lemma pages_of_length lim a :
  as_wf lim a → Z.of_nat (length (pages_of a)) = as_npages1 a + as_npages2 a + DUMBVM_STACKPAGES.
Proof.
  intros (_ & H1 & H2 & _). unfold pages_of, pages, seg_wf in *.
  rewrite !length_app, !length_fmap, !length_seq. unfold DUMBVM_STACKPAGES. lia.
Qed.

(** ** Room in the TLB *)

Definition valid (e : Z * Z) : Prop := Z.land e.2 TLBLO_VALID ≠ 0.

Lemma tlb_lookup_valid t i hi lo :
  t !! i = Some (hi, lo) → Z.land lo TLBLO_VALID ≠ 0 → is_u32 hi → hi mod 4096 = 0 → tlb_lookup t hi ≠ None.
Proof.
  intros Hi Hv Hu Hm. revert i Hi. induction t as [|[h l] t IH]; intros i Hi; [done|]. simpl.
  destruct (Z.eqb_spec h (Z.land hi PAGE_FRAME)) as [Eh|Eh]; simpl.
  - destruct (Z.eqb_spec (Z.land l TLBLO_VALID) 0) as [El|El]; simpl; [|done].
    destruct i as [|i]; [by simplify_eq/=|]. by eapply IH.
  - destruct i as [|i]; [|by eapply IH]. simplify_eq/=. by rewrite page_frame_aligned in Eh.
Qed.

Lemma full_nodup t :
  tlb_clean t → (∀ j hi lo, t !! j = Some (hi, lo) → Z.land lo TLBLO_VALID ≠ 0) → NoDup t.*1.
Proof.
  intros Hc Hf. apply NoDup_alt. intros i j x. rewrite !list_lookup_fmap.
  destruct (t !! i) as [[h l]|] eqn:Ei, (t !! j) as [[h' l']|] eqn:Ej; simpl; try done.
  intros [= ->] [= ->]. destruct (Hc i x l Ei (Hf _ _ _ Ei)) as [_ Hu]. by eapply Hu, Hf.
Qed.

(** A page that is mapped but missing leaves a slot unused. *)
Lemma tlb_room lim a t va :
  space_wf lim a → tlb_ok a t → tlb_clean t → is_u32 va → tlb_lookup t va = None → translate a va ≠ None →
  ¬ ∀ j hi lo, t !! j = Some (hi, lo) → Z.land lo TLBLO_VALID ≠ 0.
Proof.
  intros (Hwf & Hn & _) [Hlen Hok] Hc Hva Hmiss Htr Hfull.
  set (page := Z.land va PAGE_FRAME). pose proof (page_frame va Hva) as Epage. fold page in Epage.
  assert (page mod 4096 = 0) as Hpm by (rewrite Epage, Z.mul_comm; apply Z.mod_mul; lia).
  assert (tlb_lookup t page = None) as Hpage.
  { eapply tlb_lookup_page; [|exact Hmiss]. unfold page. rewrite <- Z.land_assoc. done. }
  assert (translate a page ≠ None) as Htp.
  { rewrite (translate_page lim a va Hwf Hva) in Htr. fold page in Htr. by destruct (translate a page). }
  assert (NoDup (page :: t.*1)) as Hnd.
  { apply NoDup_cons. split; [|by apply full_nodup]. rewrite list_elem_of_fmap. intros ([h l] & E & [i Hi]%list_elem_of_lookup).
    simpl in E. subst h. destruct (Hc i page l Hi (Hfull _ _ _ Hi)) as [[Hu Hm] _].
    by apply (tlb_lookup_valid t i page l Hi (Hfull _ _ _ Hi) Hu Hm). }
  assert (∀ x, x ∈ page :: t.*1 → x ∈ pages_of a) as Hsub.
  { intros x. rewrite elem_of_cons, list_elem_of_fmap. intros [->|([h l] & E & [i Hi]%list_elem_of_lookup)].
    - by eapply translate_pages.
    - simpl in E. subst x. destruct (Hc i h l Hi (Hfull _ _ _ Hi)) as [[Hu Hm] _].
      eapply translate_pages; [done|done|]. destruct (tlb_lookup t h) as [q|] eqn:Eq.
      + by rewrite (Hok h q Hu Eq).
      + by destruct (tlb_lookup_valid t i h l Hi (Hfull _ _ _ Hi) Hu Hm). }
  assert (length (page :: t.*1) ≤ length (pages_of a))%nat as Hle.
  { apply submseteq_length, NoDup_submseteq; done. }
  simpl in Hle. rewrite length_fmap, Hlen in Hle. pose proof (pages_of_length lim a Hwf). lia.
Qed.

Lemma tlb_clean_fill t i va lo hi0 lo0 :
  tlb_clean t → is_u32 va → tlb_lookup t va = None → t !! i = Some (hi0, lo0) →
  tlb_clean (TLB_Write (Z.land va PAGE_FRAME) lo i t).
Proof.
  intros Hc Hva Hmiss Hi. set (page := Z.land va PAGE_FRAME).
  assert (is_u32 page ∧ page mod 4096 = 0) as [Hpu Hpm].
  { unfold page. split; [by apply u32_land_range|]. rewrite page_frame, Z.mul_comm by done. apply Z.mod_mul. lia. }
  assert (∀ j l, t !! j = Some (page, l) → Z.land l TLBLO_VALID ≠ 0 → False) as Hno.
  { intros j l Hj Hv. apply (tlb_lookup_valid t j page l Hj Hv Hpu Hpm).
    eapply tlb_lookup_page; [|exact Hmiss]. unfold page. rewrite <- Z.land_assoc. done. }
  intros j hi lo' Hj Hv. unfold TLB_Write in Hj. apply list_lookup_insert_Some in Hj as [(<- & [= <- <-] & _)|[Hne Hj]].
  - split; [done|]. intros k lo2. unfold TLB_Write. rewrite list_lookup_insert_Some. intros [(-> & _)|[Hk Hlk]] Hv2; [done|].
    by destruct (Hno k lo2).
  - destruct (Hc j hi lo' Hj Hv) as [Hh Hu]. split; [done|]. intros k lo2. unfold TLB_Write. rewrite list_lookup_insert_Some.
    intros [(<- & [= <- <-] & _)|[Hk Hlk]] Hv2; [by destruct (Hno j lo')|by eapply Hu].
Qed.

(** ** A page fault *)

Lemma page_fault_ok ft va a lim s :
  space_wf lim a → ft = VM_FAULT_READ ∨ ft = VM_FAULT_WRITE → is_u32 va → cpu_wf (vcpu s) →
  tlb_ok a (tlb s) → tlb_clean (tlb s) → tlb_lookup (tlb s) va = None →
  (translate a va = None ∧ vm_fault ft va (Some a) s = Ret (EFAULT, s)) ∨
  (∃ p t, translate a va = Some p ∧ vm_fault ft va (Some a) s = Ret (0, set_tlb s t) ∧
     tlb_ok a t ∧ tlb_clean t ∧ tlb_lookup t va = Some p).
Proof.
  intros Hs Hft Hva Hcpu Hok Hc Hmiss. pose proof Hs as [Hwf _]. rewrite (vm_fault_translate _ _ _ lim) by done.
  pose proof (translate_page lim a va Hwf Hva) as Htr.
  destruct (translate a (Z.land va PAGE_FRAME)) as [p|] eqn:Ep; simpl in Htr; [right|by left].
  destruct (vm_fault_slot_ok NUM_TLB 0 (tlb s)) as [(i & hi & lo & -> & Hi & Hinv)|[_ Hfull]].
  - by destruct Hok as [-> _].
  - destruct (tlb_fill_ok lim a va p (tlb s) i hi lo) as [Hok' Hins]; [done..|].
    exists (p + va mod 4096), (TLB_Write (Z.land va PAGE_FRAME) (Z.lor (Z.lor p TLBLO_DIRTY) TLBLO_VALID) i (tlb s)).
    rewrite mbind_Ret. split_and!; [done|done|done|by eapply tlb_clean_fill|]. by rewrite Hins, Z.eqb_refl.
  - destruct (tlb_room lim a (tlb s) va); [done..|by rewrite Htr|]. intros j ??. apply Hfull. lia.
Qed.

(** Where the bytes of an address space are. *)
Lemma translate_range lim a v p : as_wf lim a → translate a v = Some p → 0 < p < lim.
Proof.
  intros (_ & H1 & H2 & H3). unfold translate, seg_wf, seg in *.
  repeat (destruct (_ && _) eqn:E; [intros [= <-]; zb; lia|clear E]). done.
Qed.

(** A user address is below the kernel's. *)
Lemma translate_user lim a v p : as_wf lim a → translate a v = Some p → 0 < v < USERTOP.
Proof.
  intros (_ & H1 & H2 & H3). unfold translate, seg_wf, seg in *.
  repeat (destruct (_ && _) eqn:E; [intros [= <-]; zb; lia|clear E]). done.
Qed.

(** The address space [as_prepare_load] lays out is well formed. *)
Lemma translate_at f a v p :
  translate (as_at f a) v = Some p →
  (p - v = f - as_vbase1 a ∧ f ≤ p < f + as_npages1 a * 4096) ∨
  (p - v = f + as_npages1 a * 4096 - as_vbase2 a ∧ f + as_npages1 a * 4096 ≤ p < f + as_npages1 a * 4096 + as_npages2 a * 4096) ∨
  (p - v = f + as_npages1 a * 4096 + as_npages2 a * 4096 - stackbase ∧ f + as_npages1 a * 4096 + as_npages2 a * 4096 ≤ p).
Proof.
  unfold translate, seg, PAGE_SIZE. cbn [as_at as_vbase1 as_pbase1 as_npages1 as_vbase2 as_pbase2 as_npages2 as_stackpbase].
  destruct (_ && _) eqn:E1; [intros [= <-]; zb; left; lia|clear E1].
  destruct (_ && _) eqn:E1; [intros [= <-]; zb; right; left; lia|clear E1].
  destruct (_ && _) eqn:E1; [intros [= <-]; zb; right; right; lia|done].
Qed.

Lemma unshared_at f a : sizes_ok a → unshared (as_at f a).
Proof. intros (H1 & H2) v w p Hv%translate_at Hw%translate_at. lia. Qed.
