(* ===== verification/Process.v ===== *)
(** User processes: their accesses to memory (kern/arch/mips/mips/trap.c,
    dumbvm.c), [copyin] and [copyout] (kern/lib/copyinout.c), the console as
    the system calls use it (kern/lib/kprintf.c, kern/dev/generic/console.c),
    the system calls (kern/userprog/system_calls_PI.c), their dispatcher
    (kern/arch/mips/mips/syscall.c) and traps from user mode.

    A user program is a tree [user] of what it does between two instructions
    that the kernel can notice: loads and stores of bytes, system calls with
    a trapframe, and other exceptions.  A page fault is handled in one piece
    with the access that caused it: [touch] looks the address up in the TLB
    and calls [vm_fault] on a miss.  Functions that return more than one
    value take what follows as a continuation. *)

From Stdlib Require Import ZArith Lia.
From stdpp Require Import base numbers list option gmap.
From S2P Require Import Prelude Errm Libc Printf Array Queue Cpu Vm Kernel Thread.

Open Scope Z_scope.

(** ** The processor's view of memory *)

Definition vm_of (s : kstate) : vm :=
  let u := k_user s in
  mkVm (u_firstpaddr u) (u_lastpaddr u) (u_ramsize u) (k_tlb s) (u_pmem u) (k_cpu s).

Definition put_vm (v : vm) (s : kstate) : kstate :=
  set_cpu (vcpu v) (set_user (with_ram (firstpaddr v) (lastpaddr v) (pmem v) (k_user s)) (set_ktlb (tlb v) s)).

(** Code of dumbvm.c, on the kernel's state. *)
Definition klift_vm {A} (f : vm → res (A * vm)) : K A := λ s,
  '(a, v) ← f (vm_of s); Ret (a, put_vm v s).

(** [curthread->t_vmspace]. *)
Definition curspace : K (option addrspace) :=
  th ← get_curthread;
  if t_vmspace th =? 0 then mret None else
  m ← kget (λ s, u_spaces (k_user s));
  a ← kderef (m !! t_vmspace th);
  mret (Some a).

Definition k_vm_fault (faulttype faultaddress : Z) : K Z :=
  a ← curspace; klift_vm (vm_fault faulttype faultaddress a).

(** The physical address behind a user address, or -1 when the page fault
    cannot be handled. *)
Definition touch (faulttype va : Z) : K Z :=
  t ← kget k_tlb;
  match tlb_lookup t va with
  | Some p => mret p
  | None =>
      r ← k_vm_fault faulttype va;
      if negb (r =? 0) then mret (-1) else
      t' ← kget k_tlb;
      match tlb_lookup t' va with Some p => mret p | None => knofuel end
  end.

Definition load_byte (va : Z) : K Z :=
  p ← touch VM_FAULT_READ va;
  if p <? 0 then mret (-1) else
  u ← kget k_user;
  _ ← kcheck (p <? u_ramsize u);
  mret (u8 (u_pmem u p)).

Definition poke (p b : Z) (u : ustate) : ustate :=
  with_ram (u_firstpaddr u) (u_lastpaddr u) (λ x, if x =? p then u8 b else u_pmem u x) u.

Definition store_byte (va b : Z) : K Z :=
  p ← touch VM_FAULT_WRITE va;
  if p <? 0 then mret (-1) else
  u ← kget k_user;
  _ ← kcheck (p <? u_ramsize u);
  _ ← kmod (on_user (poke p b));
  mret 0.

(** ** copyinout.c *)

(** The result and [*stoplen]. *)
Definition copycheck (userptr len : Z) : Z * Z :=
  let bot := userptr in
  let top := u32 (bot + len - 1) in
  if top <? bot then (EFAULT, len)
  else if USERTOP <=? bot then (EFAULT, len)
  else if USERTOP <=? top then (0, USERTOP - bot)
  else (0, len).

(** [memcpy] from and to user memory, under [pcb_badfaultfunc]: a fatal
    fault ends in [copyfail], which makes the caller return EFAULT. *)
Fixpoint memcpy_in (n : nat) (src : Z) (acc : list Z) (k : Z → list Z → kcode) : kcode :=
  match n with
  | O => k 0 acc
  | S n' => b <- act (load_byte src) ;;
            if b =? -1 then k EFAULT [] else memcpy_in n' (src + 1) (acc ++ [b]) k
  end.

Fixpoint memcpy_out (src : list Z) (dest : Z) (k : Z → kcode) : kcode :=
  match src with
  | [] => k 0
  | b :: src' => r <- act (store_byte dest b) ;;
                 if r =? -1 then k EFAULT else memcpy_out src' (dest + 1) k
  end.

Definition copyin (usersrc len : Z) (k : Z → list Z → kcode) : kcode :=
  let '(result, stoplen) := copycheck usersrc len in
  if negb (result =? 0) then k result []
  else if negb (stoplen =? len) then k EFAULT []
  else memcpy_in (Z.to_nat len) usersrc [] k.

Definition copyout (src : list Z) (userdest : Z) (k : Z → kcode) : kcode :=
  let len := Z.of_nat (length src) in
  let '(result, stoplen) := copycheck userdest len in
  if negb (result =? 0) then k result
  else if negb (stoplen =? len) then k EFAULT
  else memcpy_out src userdest k.

(** The bytes of an int in memory. *)
Definition int_bytes (x : Z) : list Z :=
  [u8 (Z.shiftr x 24); u8 (Z.shiftr x 16); u8 (Z.shiftr x 8); u8 x].

(** ** The console *)

(** [kprintf_lock] and the semaphores of [the_console]. *)
Record condev := mkCondev { kprintf_lock : Z; cs_wsem : Z; cs_rsem : Z }.

(** A character goes to the device. *)
Definition cs_send (ch : Z) : K unit := kmod (on_user (λ u, with_out (u_out u ++ [u8 ch]) u)).

Section Console.
Context (cs : condev).

Definition putch (ch : Z) : kcode :=
  polled <- act (i ← kget k_in_interrupt; spl ← kspl;
                 mret (if negb (i =? 0) || (0 <? spl) then 1 else 0)) ;;
  if polled =? 1 then act_ (cs_send ch)
  else P (cs_wsem cs) ;;; act_ (cs_send ch).

(** The character is the next of those the device reports. *)
Definition getch : kcode :=
  act_ (i ← kget k_in_interrupt; spl ← kspl; kcheck ((i =? 0) && (spl =? 0))) ;;;
  P (cs_rsem cs) ;;;
  act (keys ← kget (λ s, u_keys (k_user s));
       _ ← kmod (on_user (with_keys (λ n, keys (S n))));
       mret (keys 0%nat)).

Fixpoint console_send (data : list Z) : kcode :=
  match data with
  | [] => Done 0
  | ch :: data' => putch ch ;;; console_send data'
  end.

(** What [__vprintf] hands to its send function. *)
Definition rendered (fmt : list Z) (args : list arg) : res (list Z) :=
  '(_, out) ← __vprintf (λ data, emod (λ l, l ++ data)) fmt args []; Ret out.

(** [kprintf_lock != NULL && !in_interrupt && curspl==0]. *)
Definition unlocked : K Z :=
  i ← kget k_in_interrupt; spl ← kspl;
  mret (if negb (kprintf_lock cs =? 0) && (i =? 0) && (spl =? 0) then 1 else 0).

Definition kprintf (fmt : list Z) (args : list arg) : kcode :=
  l <- act unlocked ;;
  (if l =? 1 then lock_acquire (kprintf_lock cs) else Done 0) ;;;
  match rendered fmt args with
  | Ret text => console_send text
  | _ => act (kderef None)
  end ;;;
  l' <- act unlocked ;;
  if l' =? 1 then act_ (lock_release (kprintf_lock cs)) else Done 0.

End Console.

(** ** System calls *)

(** The registers of a trapframe that the kernel looks at. *)
Record trapframe := mkTf {
  tf_v0 : Z; tf_a0 : Z; tf_a1 : Z; tf_a2 : Z; tf_a3 : Z; tf_epc : Z
}.

Definition STDIN_FILENO : Z := 0.
Definition STDOUT_FILENO : Z := 1.
Definition STDERR_FILENO : Z := 2.

Definition SYS__exit : Z := 0.
Definition SYS_fork : Z := 2.
Definition SYS_waitpid : Z := 3.
Definition SYS_read : Z := 5.
Definition SYS_write : Z := 6.
Definition SYS_reboot : Z := 8.
Definition SYS_getpid : Z := 11.
Definition SYS___time : Z := 28.
Definition SYS_sleep : Z := 32.

(** The clock device's answer, seconds and nanoseconds in one number. *)
Definition gettime : K Z :=
  times ← kget (λ s, u_times (k_user s));
  _ ← kmod (on_user (with_times (λ n, times (S n))));
  mret (u32 (times 0%nat).1 * 4294967296 + u32 (times 0%nat).2).

(** [as_copy] of the current address space: the new one's address, or the
    negated error. *)
Definition copy_of (old : addrspace) : K Z := λ s,
  '(r, new, o', v) ← as_copy old (k_orc s) (vm_of s);
  match new with
  | None => Ret (- r, set_alloc (k_next s) o' (put_vm v s))
  | Some a =>
      Ret (k_next s, on_user (with_spaces (λ m, <[k_next s := a]> m))
                       (set_alloc (k_next s + 16) o' (put_vm v s)))
  end.

Definition k_as_copy : K Z := a ← curspace; old ← kderef a; copy_of old.

(** A store by the kernel itself: nothing catches a bad address. *)
Fixpoint kstore (src : list Z) (dest : Z) : K unit :=
  match src with
  | [] => mret tt
  | b :: src' => r ← store_byte dest b; if r =? -1 then kpanic else kstore src' (dest + 1)
  end.

(** [*p = x] for a user-supplied pointer to int: a kernel address would be
    written, an unaligned one is a fatal address error. *)
Definition kstore_int (p x : Z) : K unit :=
  if USERTOP <=? p then kderef None
  else if negb (p mod 4 =? 0) then kpanic
  else kstore (int_bytes x) p.

Section Syscalls.
Context (cs : condev).

(** [k err retval]. *)
Definition sys_write (fd buf nbytes : Z) (k : Z → Z → kcode) : kcode :=
  if negb (fd =? STDOUT_FILENO) && negb (fd =? STDERR_FILENO) then k EBADF (-1)
  else if buf =? 0 then k EFAULT (-1)
  else
    kernelBuffer <- act kalloc ;;
    if kernelBuffer =? 0 then k ENOSPC (-1)
    else copyin buf nbytes (λ copyError data,
      if negb (copyError =? 0) then k copyError (-1)
      else kprintf cs [37; 115] [AStr (Some (cstr (data ++ [0])))] ;;;
           k 0 (s32 nbytes)).

Definition sys_read (fd buf buflen : Z) (k : Z → Z → kcode) : kcode :=
  if negb (fd =? STDIN_FILENO) then k EBADF (-1)
  else if buf =? 0 then k EFAULT (-1)
  else if negb (buflen =? 1) then k EUNIMP (-1)
  else
    charRead <- getch cs ;;
    copyout [u8 charRead] buf (λ copyError,
      if negb (copyError =? 0) then k copyError (-1)
      else kprintf cs [37; 99] [AInt (u8 charRead)] ;;; k 0 (s32 buflen)).

Definition sys_sleep (seconds : Z) (k : Z → Z → kcode) : kcode :=
  clocksleep seconds ;;; k 0 0.

Definition sys__time (seconds nanoseconds : Z) (k : Z → Z → kcode) : kcode :=
  t <- act gettime ;;
  let kernSeconds := t / 4294967296 in
  let kernNanoseconds := t mod 4294967296 in
  let rest :=
    let fin := k 0 (s32 kernSeconds) in
    if nanoseconds =? 0 then fin else
    copyout (int_bytes kernNanoseconds) nanoseconds (λ copyError,
      if negb (copyError =? 0) then k copyError 0 else fin) in
  if seconds =? 0 then rest else
  copyout (int_bytes kernSeconds) seconds (λ copyError,
    if negb (copyError =? 0) then k copyError 0 else rest).

Definition sys_exit (exitcode : Z) : kcode :=
  kprintf cs [37; 100] [AInt exitcode] ;;; thread_exit exitcode.

Definition sys_getpid (k : Z → Z → kcode) : kcode :=
  p <- act (th ← get_curthread; mret (pidValue th)) ;; k 0 p.

(** "Out of memory \n" *)
Definition oom_text : list Z := [79; 117; 116; 32; 111; 102; 32; 109; 101; 109; 111; 114; 121; 32; 10].

(** [child] is what the new thread runs. *)
Definition sys_fork (child : kcode) (k : Z → Z → kcode) : kcode :=
  s <- act k_splhigh ;;
  parentPID <- act (th ← get_curthread; mret (pidValue th)) ;;
  childTrapframe <- act kalloc ;;
  if childTrapframe =? 0 then kprintf cs oom_text [] ;;; act (k_splx s) ;;; k ENOMEM (-1)
  else
    childAddrspace <- act k_as_copy ;;
    if childAddrspace <? 0 then act (k_splx s) ;;; k (- childAddrspace) (-1)
    else
      childThread <- thread_fork child ;;
      if childThread <? 0 then
        act_ (k_as_destroy childAddrspace) ;;; act (k_splx s) ;;; k (- childThread) (-1)
      else
        retval <- act (th ← get_thread childThread;
                       _ ← put_thread childThread (with_vmspace childAddrspace (with_parentPid parentPID th));
                       cur ← get_curthread;
                       _ ← k_as_activate (t_vmspace cur);
                       mret (pidValue th)) ;;
        act (k_splx s) ;;;
        k 0 retval.

(** [waitpid]'s answer once the child has exited. *)
Definition wait_done (i : nat) (status s : Z) : K Z :=
  pids ← kget k_pids;
  child ← kderef (pids !! i);
  code ← kderef (exitCode child);
  _ ← kstore_int status code;
  _ ← k_splx s;
  mret (pd_pidValue child).

Definition sys_waitpid (pid status options : Z) (k : Z → Z → kcode) : kcode :=
  s <- act k_splhigh ;;
  if negb (options =? 0) then act (k_splx s) ;;; k EINVAL (-1)
  else if status =? 0 then act (k_splx s) ;;; k EFAULT (-1)
  else
    checkChild <- act (pids ← kget k_pids;
                       mret (match pid_search pids pid with Some i => Z.of_nat i | None => -1 end)) ;;
    if checkChild =? -1 then act (k_splx s) ;;; k EINVAL (-1)
    else
      let i := Z.to_nat checkChild in
      mine <- act (th ← get_curthread;
                   pids ← kget k_pids;
                   child ← kderef (pids !! i);
                   mret (if negb (pidValue th =? pPid child) then 0
                         else if didExit child =? 1 then 1 else 2)) ;;
      if mine =? 0 then act (k_splx s) ;;; k EINVAL (-1)
      else if mine =? 1 then retval <- act (wait_done i status s) ;; k 0 retval
      else
        sem <- act (pids ← kget k_pids; child ← kderef (pids !! i); mret (parentSem child)) ;;
        P sem ;;;
        act_ (V sem) ;;;
        retval <- act (wait_done i status s) ;;
        k 0 retval.

(** ** reboot (kern/main/main.c)

    The file systems' part of [shutdown] is not part of this machine. *)

(** "Shutting down.\n" *)
Definition shutting_down_text : list Z := [83; 104; 117; 116; 116; 105; 110; 103; 32; 100; 111; 119; 110; 46; 10].
(** "I am in shutdown boy \n" *)
Definition in_shutdown_text : list Z :=
  [73; 32; 97; 109; 32; 105; 110; 32; 115; 104; 117; 116; 100; 111; 119; 110; 32; 98; 111; 121; 32; 10].
(** "The system is halted.\n" *)
Definition halted_text : list Z :=
  [84; 104; 101; 32; 115; 121; 115; 116; 101; 109; 32; 105; 115; 32; 104; 97; 108; 116; 101; 100; 46; 10].
(** "Rebooting...\n" *)
Definition rebooting_text : list Z := [82; 101; 98; 111; 111; 116; 105; 110; 103; 46; 46; 46; 10].

Definition shutdown : kcode :=
  kprintf cs shutting_down_text [] ;;;
  act k_splhigh ;;;
  act_ scheduler_shutdown ;;;
  kprintf cs in_shutdown_text [] ;;;
  act_ thread_shutdown.

(** "Cannot reboot - powering off instead, sorry.\n" *)
Definition cannot_reboot_text : list Z :=
  [67; 97; 110; 110; 111; 116; 32; 114; 101; 98; 111; 111; 116; 32; 45; 32; 112; 111; 119; 101; 114; 105; 110; 103; 32;
   111; 102; 102; 32; 105; 110; 115; 116; 101; 97; 100; 44; 32; 115; 111; 114; 114; 121; 46; 10].

(** The [wait] instruction, for ever and with interrupts off. *)
Definition cpu_halt : kcode :=
  act_ (kmod (λ s, set_cpu (interrupts_off (k_cpu s)) s)) ;;; While (mret true) (Done 0) (Done 0).

Definition md_halt : kcode := cpu_halt.

(** The write to the bus controller's power register has no effect on the
    kernel's state. *)
Definition md_poweroff : kcode := act k_splhigh ;;; cpu_halt.

Definition md_reboot : kcode := kprintf cs cannot_reboot_text [] ;;; md_poweroff.

Definition RB_REBOOT : Z := 0.
Definition RB_HALT : Z := 1.
Definition RB_POWEROFF : Z := 2.

Definition sys_reboot (code : Z) (k : Z → kcode) : kcode :=
  if negb ((code =? RB_REBOOT) || (code =? RB_HALT) || (code =? RB_POWEROFF)) then k EINVAL
  else
    shutdown ;;;
    (if code =? RB_HALT then kprintf cs halted_text [] ;;; md_halt
     else if code =? RB_REBOOT then kprintf cs rebooting_text [] ;;; md_reboot
     else kprintf cs halted_text [] ;;; md_poweroff) ;;;
    act kpanic.

(** ** syscall.c *)

(** "Unknown syscall %d\n" *)
Definition unknown_text : list Z :=
  [85; 110; 107; 110; 111; 119; 110; 32; 115; 121; 115; 99; 97; 108; 108; 32; 37; 100; 10].

(** The trapframe at the end of a system call. *)
Definition syscall_result (tf : trapframe) (err retval : Z) : trapframe :=
  if negb (err =? 0)
  then mkTf (u32 err) (tf_a0 tf) (tf_a1 tf) (tf_a2 tf) 1 (u32 (tf_epc tf + 4))
  else mkTf (u32 retval) (tf_a0 tf) (tf_a1 tf) (tf_a2 tf) 0 (u32 (tf_epc tf + 4)).

Definition check_spl0 : K unit := spl ← kspl; kcheck (spl =? 0).

(** [child] is what a forked process runs, [k] what comes after the call. *)
Definition mips_syscall (tf : trapframe) (child : kcode) (k : trapframe → kcode) : kcode :=
  act_ check_spl0 ;;;
  let callno := s32 (tf_v0 tf) in
  let fin err retval := act_ check_spl0 ;;; k (syscall_result tf err retval) in
  if callno =? SYS_reboot then sys_reboot (s32 (tf_a0 tf)) (λ err, fin err 0)
  else if callno =? SYS_write then sys_write (s32 (tf_a0 tf)) (tf_a1 tf) (tf_a2 tf) fin
  else if callno =? SYS_read then sys_read (s32 (tf_a0 tf)) (tf_a1 tf) (tf_a2 tf) fin
  else if callno =? SYS_sleep then sys_sleep (s32 (tf_a0 tf)) fin
  else if callno =? SYS___time then sys__time (tf_a0 tf) (tf_a1 tf) fin
  else if callno =? SYS__exit then sys_exit (s32 (tf_a0 tf))
  else if callno =? SYS_getpid then sys_getpid fin
  else if callno =? SYS_fork then sys_fork child fin
  else if callno =? SYS_waitpid then sys_waitpid (s32 (tf_a0 tf)) (tf_a1 tf) (s32 (tf_a2 tf)) fin
  else kprintf cs unknown_text [AInt callno] ;;; fin ENOSYS 0.

(** ** trap.c *)

Definition EX_TLBL : Z := 2.
Definition EX_TLBS : Z := 3.
Definition EX_ADEL : Z := 4.
Definition EX_ADES : Z := 5.

(** Into user mode: the return from the exception turns interrupts on. *)
Definition rfe_user (spl : Z) : K unit := kmod (λ s, set_cpu (mkCpu (c0_status (interrupts_on (k_cpu s))) spl) s).

Definition mips_usermode (tf : trapframe) (user : trapframe → kcode) : kcode :=
  act_ (_ ← k_splhigh; rfe_user 0) ;;; user tf.

(** What a forked process runs first; the parent's trapframe was copied. *)
Definition childProcstub (tf : trapframe) (user : trapframe → kcode) : kcode :=
  s <- act k_splhigh ;;
  act_ (th ← get_curthread; k_as_activate (t_vmspace th)) ;;;
  act (k_splx s) ;;;
  mips_usermode (mkTf 0 (tf_a0 tf) (tf_a1 tf) (tf_a2 tf) 0 (u32 (tf_epc tf + 4))) user.

(** [mips_trap] from user mode: the entry, up to [splx(savespl)], and the end. *)
Definition trap_in : K Z :=
  savespl ← kspl;
  _ ← kmod (λ s, set_cpu (mkCpu (c0_status (interrupts_off (k_cpu s))) SPL_HIGH) s);
  _ ← k_splx savespl;
  mret savespl.

Definition trap_out (savespl : Z) : K unit := _ ← k_splhigh; rfe_user savespl.

(** [trapcodenames] *)
Definition trapcodenames : list (list Z) :=
  [[73; 110; 116; 101; 114; 114; 117; 112; 116];
   [84; 76; 66; 32; 109; 111; 100; 105; 102; 121; 32; 116; 114; 97; 112];
   [84; 76; 66; 32; 109; 105; 115; 115; 32; 111; 110; 32; 108; 111; 97; 100];
   [84; 76; 66; 32; 109; 105; 115; 115; 32; 111; 110; 32; 115; 116; 111; 114; 101];
   [65; 100; 100; 114; 101; 115; 115; 32; 101; 114; 114; 111; 114; 32; 111; 110; 32; 108; 111; 97; 100];
   [65; 100; 100; 114; 101; 115; 115; 32; 101; 114; 114; 111; 114; 32; 111; 110; 32; 115; 116; 111; 114; 101];
   [66; 117; 115; 32; 101; 114; 114; 111; 114; 32; 111; 110; 32; 99; 111; 100; 101];
   [66; 117; 115; 32; 101; 114; 114; 111; 114; 32; 111; 110; 32; 100; 97; 116; 97];
   [83; 121; 115; 116; 101; 109; 32; 99; 97; 108; 108];
   [66; 114; 101; 97; 107; 32; 105; 110; 115; 116; 114; 117; 99; 116; 105; 111; 110];
   [73; 108; 108; 101; 103; 97; 108; 32; 105; 110; 115; 116; 114; 117; 99; 116; 105; 111; 110];
   [67; 111; 112; 114; 111; 99; 101; 115; 115; 111; 114; 32; 117; 110; 117; 115; 97; 98; 108; 101];
   [65; 114; 105; 116; 104; 109; 101; 116; 105; 99; 32; 111; 118; 101; 114; 102; 108; 111; 119]].

(** "Fatal user mode trap %u (%s, epc 0x%x, vaddr 0x%x)\n" *)
Definition fatal_text : list Z :=
  [70; 97; 116; 97; 108; 32; 117; 115; 101; 114; 32; 109; 111; 100; 101; 32; 116; 114; 97; 112; 32; 37; 117; 32;
   40; 37; 115; 44; 32; 101; 112; 99; 32; 48; 120; 37; 120; 44; 32; 118; 97; 100; 100; 114; 32; 48; 120; 37; 120; 41; 10].

(** It never returns to the process. *)
Definition kill_curthread (epc code vaddr : Z) : kcode :=
  name <- act (_ ← kderef (trapcodenames !! Z.to_nat code); mret 0) ;;
  kprintf cs fatal_text [AInt code; AStr (trapcodenames !! Z.to_nat code); AInt epc; AInt vaddr] ;;;
  act k_splhigh ;;;
  thread_exit 0.

End Syscalls.

(** ** User programs *)

Inductive user :=
  | Syscall (tf : trapframe) (k : trapframe → user)
  | Load (epc va : Z) (k : Z → user)
  | Store (epc va b : Z) (k : user)
  | Fault (epc code vaddr : Z)
  | Impossible.

(** An address of the kernel is out of reach in user mode. *)
Definition user_load (va : Z) : K Z := if USERTOP <=? va then mret (-2) else load_byte va.
Definition user_store (va b : Z) : K Z := if USERTOP <=? va then mret (-2) else store_byte va b.

(** The process, from an instruction it executes in user mode.  [Impossible]
    marks what the program thinks cannot happen. *)
Fixpoint run_user (cs : condev) (u : user) : kcode :=
  match u with
  | Syscall tf k =>
      savespl <- act trap_in ;;
      act_ check_spl0 ;;;
      mips_syscall cs tf (childProcstub tf (λ tf', run_user cs (k tf')))
        (λ tf', act_ (trap_out savespl) ;;; run_user cs (k tf'))
  | Load epc va k =>
      b <- act (user_load va) ;;
      if b <? 0 then act trap_in ;;; kill_curthread cs epc (if b =? -1 then EX_TLBL else EX_ADEL) va
      else run_user cs (k b)
  | Store epc va b k =>
      r <- act (user_store va b) ;;
      if r <? 0 then act trap_in ;;; kill_curthread cs epc (if r =? -1 then EX_TLBS else EX_ADES) va
      else run_user cs k
  | Fault epc code vaddr => act trap_in ;;; kill_curthread cs epc code vaddr
  | Impossible => act kpanic
  end.
