(* ===== verification/Loadelf.v ===== *)
(** Running a program (kern/userprog/runprogram.c) from an executable file
    (kern/userprog/loadelf.c), as the menu does (kern/main/menu.c).

    The file is a vnode, known by what [VOP_READ] answers: for an offset and
    a length, an error code and the bytes that were read.  [pg_name] and
    [pg_nargs] are [args[0]] and [nargs] of the command line.  [pg_main] is what
    the program does in user mode, from its initial stack pointer and
    trapframe on. *)

From Stdlib Require Import ZArith Lia.
From stdpp Require Import base numbers list option gmap.
From S2P Require Import Prelude Errm Libc Printf Array Queue Cpu Vm Kernel Thread Process.

Open Scope Z_scope.

(** ** strerror (kern/lib/misc.c, kern/include/kern/errmsg.h) *)

Definition sys_errlist : list (list Z) :=
  [[79; 112; 101; 114; 97; 116; 105; 111; 110; 32; 115; 117; 99; 99; 101; 101; 100; 101; 100];
   [73; 110; 118; 97; 108; 105; 100; 32; 97; 114; 103; 117; 109; 101; 110; 116];
   [66; 97; 100; 32; 109; 101; 109; 111; 114; 121; 32; 97; 100; 100; 114; 101; 115; 115];
   [83; 116; 114; 105; 110; 103; 32; 116; 111; 111; 32; 108; 111; 110; 103];
   [79; 117; 116; 32; 111; 102; 32; 109; 101; 109; 111; 114; 121];
   [73; 110; 112; 117; 116; 47; 111; 117; 116; 112; 117; 116; 32; 101; 114; 114; 111; 114];
   [78; 111; 32; 115; 117; 99; 104; 32; 102; 105; 108; 101; 32; 111; 114; 32; 100; 105; 114; 101; 99; 116; 111;
    114; 121];
   [78; 111; 116; 32; 97; 32; 100; 105; 114; 101; 99; 116; 111; 114; 121];
   [73; 115; 32; 97; 32; 100; 105; 114; 101; 99; 116; 111; 114; 121];
   [70; 105; 108; 101; 32; 111; 114; 32; 111; 98; 106; 101; 99; 116; 32; 101; 120; 105; 115; 116; 115];
   [67; 114; 111; 115; 115; 45; 100; 101; 118; 105; 99; 101; 32; 108; 105; 110; 107];
   [84; 114; 121; 32; 97; 103; 97; 105; 110; 32; 108; 97; 116; 101; 114];
   [73; 108; 108; 101; 103; 97; 108; 32; 115; 101; 101; 107];
   [85; 110; 105; 109; 112; 108; 101; 109; 101; 110; 116; 101; 100; 32; 102; 101; 97; 116; 117; 114; 101];
   [68; 101; 118; 105; 99; 101; 32; 110; 111; 116; 32; 97; 118; 97; 105; 108; 97; 98; 108; 101];
   [78; 111; 32; 115; 117; 99; 104; 32; 100; 101; 118; 105; 99; 101];
   [68; 101; 118; 105; 99; 101; 32; 111; 114; 32; 114; 101; 115; 111; 117; 114; 99; 101; 32; 98; 117; 115; 121];
   [73; 110; 118; 97; 108; 105; 100; 47; 105; 110; 97; 112; 112; 114; 111; 112; 114; 105; 97; 116; 101; 32; 105;
    111; 99; 116; 108];
   [68; 105; 114; 101; 99; 116; 111; 114; 121; 32; 110; 111; 116; 32; 101; 109; 112; 116; 121];
   [82; 101; 115; 117; 108; 116; 32; 116; 111; 111; 32; 108; 97; 114; 103; 101];
   [78; 111; 32; 115; 112; 97; 99; 101; 32; 108; 101; 102; 116; 32; 111; 110; 32; 100; 101; 118; 105; 99; 101];
   [84; 111; 111; 32; 109; 97; 110; 121; 32; 111; 112; 101; 110; 32; 102; 105; 108; 101; 115];
   [84; 111; 111; 32; 109; 97; 110; 121; 32; 111; 112; 101; 110; 32; 102; 105; 108; 101; 115; 32; 105; 110; 32;
    115; 121; 115; 116; 101; 109];
   [78; 111; 32; 115; 117; 99; 104; 32; 115; 121; 115; 116; 101; 109; 32; 99; 97; 108; 108];
   [70; 105; 108; 101; 32; 105; 115; 32; 110; 111; 116; 32; 101; 120; 101; 99; 117; 116; 97; 98; 108; 101];
   [65; 114; 103; 117; 109; 101; 110; 116; 32; 108; 105; 115; 116; 32; 116; 111; 111; 32; 108; 111; 110; 103];
   [66; 97; 100; 32; 102; 105; 108; 101; 32; 110; 117; 109; 98; 101; 114];
   [68; 101; 97; 100; 108; 111; 99; 107; 32; 119; 111; 117; 108; 100; 32; 111; 99; 99; 117; 114]].

Definition sys_nerr : Z := 28.

Definition strerror (errcode : Z) : res (list Z) :=
  if (0 <=? errcode) && (errcode <? sys_nerr) then deref (sys_errlist !! Z.to_nat errcode) else Panic.

(** ** ELF (kern/include/elf.h) *)

Record Elf_Ehdr := mkEhdr {
  e_ident : list Z; e_type : Z; e_machine : Z; e_version : Z;
  e_entry : Z; e_phoff : Z; e_phentsize : Z; e_phnum : Z
}.

Record Elf_Phdr := mkPhdr {
  p_type : Z; p_offset : Z; p_vaddr : Z; p_filesz : Z; p_memsz : Z; p_flags : Z
}.

Definition SIZEOF_EHDR : Z := 52.
Definition SIZEOF_PHDR : Z := 32.

(** The big-endian number of [n] bytes at offset [i] of a structure. *)
Definition field (l : list Z) (i n : nat) : Z := foldl (λ x b, x * 256 + u8 b) 0 (take n (drop i l)).

Definition ehdr_of (l : list Z) : Elf_Ehdr :=
  mkEhdr (u8 <$> take 16 l) (field l 16 2) (field l 18 2) (field l 20 4)
    (field l 24 4) (field l 28 4) (field l 42 2) (field l 44 2).

Definition phdr_of (l : list Z) : Elf_Phdr :=
  mkPhdr (field l 0 4) (field l 4 4) (field l 8 4) (field l 16 4) (field l 20 4) (field l 24 4).

Definition ET_EXEC : Z := 2.
Definition EM_MIPS : Z := 8.
Definition EV_CURRENT : Z := 1.
Definition PT_NULL : Z := 0.
Definition PT_LOAD : Z := 1.
Definition PT_PHDR : Z := 6.
Definition PT_MIPS_REGINFO : Z := 1879048192.

(** ELFMAG0 to ELFMAG3, ELFCLASS32, ELFDATA2MSB and EV_CURRENT. *)
Definition elf_ident : list Z := [127; 69; 76; 70; 1; 2; 1].

(** An executable that this kernel can run. *)
Definition elf_check (eh : Elf_Ehdr) : bool :=
  bool_decide (take 7 (e_ident eh) = elf_ident) && (e_version eh =? EV_CURRENT) &&
  (e_type eh =? ET_EXEC) && (e_machine eh =? EM_MIPS).

Definition phdr_offset (eh : Elf_Ehdr) (i : Z) : Z := s32 (e_phoff eh + i * e_phentsize eh).

(** ** Programs *)

Record program := mkProgram {
  pg_name : list Z;
  pg_nargs : Z;
  pg_open : Z;
  pg_read : Z → Z → Z * list Z;
  pg_main : Z → trapframe → user
}.

(** "ELF: warning: segment filesize > segment memsize\n" *)
Definition warning_text : list Z :=
  [69; 76; 70; 58; 32; 119; 97; 114; 110; 105; 110; 103; 58; 32; 115; 101; 103; 109; 101; 110; 116; 32; 102; 105;
   108; 101; 115; 105; 122; 101; 32; 62; 32; 115; 101; 103; 109; 101; 110; 116; 32; 109; 101; 109; 115; 105; 122;
   101; 10].
(** "ELF: short read on segment - file truncated?\n" *)
Definition short_segment_text : list Z :=
  [69; 76; 70; 58; 32; 115; 104; 111; 114; 116; 32; 114; 101; 97; 100; 32; 111; 110; 32; 115; 101; 103; 109; 101;
   110; 116; 32; 45; 32; 102; 105; 108; 101; 32; 116; 114; 117; 110; 99; 97; 116; 101; 100; 63; 10].
(** "ELF: short read on header - file truncated?\n" *)
Definition short_header_text : list Z :=
  [69; 76; 70; 58; 32; 115; 104; 111; 114; 116; 32; 114; 101; 97; 100; 32; 111; 110; 32; 104; 101; 97; 100; 101;
   114; 32; 45; 32; 102; 105; 108; 101; 32; 116; 114; 117; 110; 99; 97; 116; 101; 100; 63; 10].
(** "ELF: short read on phdr - file truncated?\n" *)
Definition short_phdr_text : list Z :=
  [69; 76; 70; 58; 32; 115; 104; 111; 114; 116; 32; 114; 101; 97; 100; 32; 111; 110; 32; 112; 104; 100; 114; 32;
   45; 32; 102; 105; 108; 101; 32; 116; 114; 117; 110; 99; 97; 116; 101; 100; 63; 10].
(** "loadelf: unknown segment type %d\n" *)
Definition segment_type_text : list Z :=
  [108; 111; 97; 100; 101; 108; 102; 58; 32; 117; 110; 107; 110; 111; 119; 110; 32; 115; 101; 103; 109; 101; 110;
   116; 32; 116; 121; 112; 101; 32; 37; 100; 10].
(** "Warning: argument passing from menu not supported\n" *)
Definition arguments_text : list Z :=
  [87; 97; 114; 110; 105; 110; 103; 58; 32; 97; 114; 103; 117; 109; 101; 110; 116; 32; 112; 97; 115; 115; 105; 110; 103; 32; 102; 114; 111; 109; 32; 109; 101; 110; 117; 32; 110; 111; 116; 32; 115; 117; 112; 112; 111; 114; 116; 101; 100; 10].
(** "Running program %s failed: %s\n" *)
Definition failed_text : list Z :=
  [82; 117; 110; 110; 105; 110; 103; 32; 112; 114; 111; 103; 114; 97; 109; 32; 37; 115; 32; 102; 97; 105; 108;
   101; 100; 58; 32; 37; 115; 10].

Section Loadelf.
Context (cs : condev) (pg : program).

(** [uiomove] of [data] to user address [dest]; nothing happens for no data. *)
Definition uio_out (data : list Z) (dest : Z) (k : Z → kcode) : kcode :=
  match data with [] => k 0 | _ => copyout data dest k end.

(** [uiomovezeros]: from a buffer of 16 zeros, at most [fuel] times. *)
Fixpoint uio_zeros (fuel : nat) (n dest : Z) (k : Z → kcode) : kcode :=
  match fuel with
  | O => act knofuel
  | S fuel' =>
      if n <=? 0 then k 0 else
      let amt := Z.min 16 n in
      uio_out (replicate (Z.to_nat amt) 0) dest (λ r,
        if negb (r =? 0) then k r else uio_zeros fuel' (n - amt) (dest + amt) k)
  end.

(** [load_segment], once [filesize] is at most [memsize]. *)
Definition load_bytes (offset vaddr memsize filesize : Z) (k : Z → kcode) : kcode :=
  let '(result, data) := pg_read pg offset filesize in
  uio_out data vaddr (λ r,
    if negb (r =? 0) then k r
    else if negb (result =? 0) then k result
    else if negb (Z.of_nat (length data) =? filesize) then
      kprintf cs short_segment_text [] ;;; k ENOEXEC
    else
      let fillamt := memsize - filesize in
      if 0 <? fillamt then uio_zeros (Z.to_nat (fillamt / 16 + 2)) fillamt (vaddr + filesize) k else k 0).

Definition load_segment (offset vaddr memsize filesize : Z) (k : Z → kcode) : kcode :=
  if memsize <? filesize then kprintf cs warning_text [] ;;; load_bytes offset vaddr memsize memsize k
  else load_bytes offset vaddr memsize filesize k.

(** A loop over the program headers: [body] for every loadable segment. *)
Fixpoint each_phdr (eh : Elf_Ehdr) (n : nat) (i : Z) (body : Elf_Phdr → (Z → kcode) → kcode) (k : Z → kcode) : kcode :=
  match n with
  | O => k 0
  | S n' =>
      let '(result, data) := pg_read pg (phdr_offset eh i) SIZEOF_PHDR in
      if negb (result =? 0) then k result
      else if negb (Z.of_nat (length data) =? SIZEOF_PHDR) then kprintf cs short_phdr_text [] ;;; k ENOEXEC
      else
        let ph := phdr_of data in
        if (p_type ph =? PT_NULL) || (p_type ph =? PT_PHDR) || (p_type ph =? PT_MIPS_REGINFO)
        then each_phdr eh n' (i + 1) body k
        else if p_type ph =? PT_LOAD then
          body ph (λ r, if negb (r =? 0) then k r else each_phdr eh n' (i + 1) body k)
        else kprintf cs segment_type_text [AInt (p_type ph)] ;;; k ENOEXEC
  end.

Definition put_space (x : Z) (a : addrspace) : K unit := kmod (on_user (with_spaces (λ m, <[x := a]> m))).

(** [as_define_region(curthread->t_vmspace, ...)] *)
Definition k_as_define_region (vaddr sz : Z) : K Z :=
  th ← get_curthread;
  a ← curspace;
  old ← kderef a;
  let '(r, a') := as_define_region old vaddr sz in
  _ ← put_space (t_vmspace th) a';
  mret r.

Definition k_as_prepare_load : K Z :=
  th ← get_curthread;
  a ← curspace;
  old ← kderef a;
  '(r, a') ← klift_vm (as_prepare_load old);
  _ ← put_space (t_vmspace th) a';
  mret r.

Definition k_as_complete_load : K Z := a ← curspace; old ← kderef a; mret (as_complete_load old).

(** The result and the stack pointer in one number: the former is zero. *)
Definition k_as_define_stack : K Z :=
  a ← curspace;
  old ← kderef a;
  '(r, sp) ← klift (as_define_stack old);
  mret sp.

(** [k result entrypoint]. *)
Definition load_elf (k : Z → Z → kcode) : kcode :=
  let '(result, data) := pg_read pg 0 SIZEOF_EHDR in
  if negb (result =? 0) then k result 0
  else if negb (Z.of_nat (length data) =? SIZEOF_EHDR) then kprintf cs short_header_text [] ;;; k ENOEXEC 0
  else
    let eh := ehdr_of data in
    if negb (elf_check eh) then k ENOEXEC 0
    else each_phdr eh (Z.to_nat (e_phnum eh)) 0 (λ ph k',
        r <- act (k_as_define_region (p_vaddr ph) (p_memsz ph)) ;; k' r) (λ result1,
      if negb (result1 =? 0) then k result1 0 else
      result2 <- act k_as_prepare_load ;;
      if negb (result2 =? 0) then k result2 0 else
      each_phdr eh (Z.to_nat (e_phnum eh)) 0 (λ ph k',
          load_segment (s32 (p_offset ph)) (p_vaddr ph) (p_memsz ph) (p_filesz ph) k') (λ result3,
        if negb (result3 =? 0) then k result3 0 else
        result4 <- act k_as_complete_load ;;
        if negb (result4 =? 0) then k result4 0 else k 0 (e_entry eh))).

(** ** runprogram.c *)

(** [curthread->t_vmspace = as_create()] *)
Definition k_as_create : K Z := λ s,
  let '(new, o') := as_create (k_orc s) in
  match new with
  | None => Ret (0, set_alloc (k_next s) o' s)
  | Some a =>
      (th ← get_curthread;
       _ ← kmod (λ s, on_user (with_spaces (λ m, <[k_next s := a]> m)) (set_alloc (k_next s + 16) o' s));
       _ ← put_thread (k_curthread s) (with_vmspace (k_next s) th);
       mret (k_next s)) s
  end.

Definition md_usermode (stack entry : Z) : kcode :=
  mips_usermode (mkTf 0 0 0 0 0 entry) (λ tf, run_user cs (pg_main pg stack tf)).

Definition runprogram (k : Z → kcode) : kcode :=
  if negb (pg_open pg =? 0) then k (pg_open pg) else
  act_ (th ← get_curthread; kcheck (t_vmspace th =? 0)) ;;;
  vmspace <- act k_as_create ;;
  if vmspace =? 0 then k ENOMEM else
  act_ (th ← get_curthread; k_as_activate (t_vmspace th)) ;;;
  load_elf (λ result entrypoint,
    if negb (result =? 0) then k result else
    stackptr <- act k_as_define_stack ;;
    md_usermode stackptr entrypoint ;;;
    act kpanic).

(** The thread that the menu forks for a program, with the number of words on
    its command line. *)
Definition cmd_progthread : kcode :=
  act_ (kcheck (1 <=? pg_nargs pg)) ;;;
  (if 2 <? pg_nargs pg then kprintf cs arguments_text [] else Done 0) ;;;
  act_ (kcheck (Z.of_nat (length (pg_name pg)) <? 128)) ;;;
  runprogram (λ result,
    if negb (result =? 0) then
      match strerror result with
      | Ret msg => kprintf cs failed_text [AStr (Some (pg_name pg)); AStr (Some msg)] ;;; Done 0
      | _ => act kpanic
      end
    else Done 0).

End Loadelf.
