(* ===== verification/ProcessProofs.v ===== *)
(** What a process and the kernel on its behalf do to its memory and to the
    console: the rules for user accesses, [copyin], [copyout] and [kprintf]. *)

From Stdlib Require Import ZArith Lia.
From stdpp Require Import base numbers list option gmap.
From S2P Require Import Prelude Errm Libc LibcProofs Printf PrintfProofs.
From S2P Require Import Array Queue Cpu Vm Kernel Thread Machine ThreadOps ThreadInv.
From S2P Require Import Logic SynchProofs SynchRules Lifecycle ForkExit Paging Process.

Open Scope Z_scope.

(** ** Memory as a process sees it *)

Definition mset (m : memory) (va b : Z) : memory := λ x, if x =? va then Some b else m x.

(** The bytes from [va], if all of them are mapped. *)
Fixpoint read_bytes (m : memory) (va : Z) (n : nat) : option (list Z) :=
  match n with
  | O => Some []
  | S n' => b ← m va; l ← read_bytes m (va + 1) n'; Some (u8 b :: l)
  end.

(** Storing bytes up to the first address that is not mapped: whether it
    failed, and the memory after. *)
Fixpoint write_bytes (m : memory) (va : Z) (l : list Z) : Z * memory :=
  match l with
  | [] => (0, m)
  | b :: l' => match m va with
               | None => (EFAULT, m)
               | Some _ => write_bytes (mset m va (u8 b)) (va + 1) l'
               end
  end.

Definition with_mem (p : priv) (m : memory) : priv :=
  mkPriv (p_stat p) (p_emb p) (p_held p) (p_int p) (p_node p) (p_space p) (Some (Loaded m)) (p_kid p) (p_act p).

Lemma with_mem_same p m : p_mem p = Some (Loaded m) → with_mem p m = p.
Proof. destruct p. simpl. by intros ->. Qed.

(** A process in its own address space. *)
Definition process (p : priv) (m : memory) : Prop := p_act p = true ∧ p_mem p = Some (Loaded m).

Section Process.
Context (SEMS LOCKS CVS : gset Z) (BOOT : Z).

#[local] Abbreviation Inv := (Inv SEMS LOCKS CVS BOOT).
#[local] Abbreviation I_run := (I_run SEMS LOCKS CVS BOOT).
#[local] Abbreviation I_resume := (I_resume SEMS LOCKS CVS BOOT).
#[local] Abbreviation wp := (wp SEMS LOCKS CVS BOOT).

Lemma Inv_user x rs ls lr lz E s tl u :
  Inv x rs ls lr lz E s → user_ok rs lz E (k_threads s) (k_next s) tl u →
  Inv x rs ls lr lz E (set_user u (set_ktlb tl s)).
Proof.
  intros [Hl Hp Hh Hs Hsm Hlk Hf Hpd Hst Hcpu Ho Hus] HU.
  split; try done; [by destruct Hl|by destruct Hf|by destruct Hpd|by destruct Hst].
Qed.

(** What [user_ok] says of the running process. *)
Lemma process_space t E s m :
  I_run t E s → process (E t) m →
  ∃ a, u_spaces (k_user s) !! p_space (E t) = Some a ∧ holds (k_user s) a (Loaded m) ∧
    tlb_ok a (k_tlb s) ∧ tlb_clean (k_tlb s) ∧ cpu_wf (k_cpu s) ∧
    curspace s = Ret (Some a, s) ∧ u_firstpaddr (k_user s) ≤ u_ramsize (k_user s).
Proof.
  intros (Hc & _ & _ & ls & lr & lz & HI) [Ha Hm].
  pose proof (i_user _ _ _ _ _ _ _ _ _ _ _ HI) as [U1 U2 U3 Uq U4 U5 (U6 & U6' & U6'') U7 _ _ _].
  destruct (U3 t (Loaded m) Hm) as (Hne & a & Hsp & Hh). destruct (U5 t Ha) as (_ & _ & Hact).
  destruct (h_listed _ _ _ _ _ _ _ (i_heap _ _ _ _ _ _ _ _ _ _ _ HI) t ltac:(set_solver)) as [th Hth].
  exists a. split_and!; try done; [by apply U6''; rewrite Hact|by destruct HI| |].
  - unfold curspace, get_curthread. kgo. rewrite Hc, (get_thread_bind _ th) by done.
    rewrite (U1 t th Hth), (proj2 (Z.eqb_neq _ _)) by done. kgo. done.
  - destruct U7 as (? & ? & ?). lia.
Qed.

Lemma put_vm_tlb tl s : put_vm (set_tlb (vm_of s) tl) s = set_ktlb tl s.
Proof. by destruct s as [????????????????? ? []]. Qed.

Lemma put_vm_same s : put_vm (vm_of s) s = s.
Proof. by destruct s as [????????????????? ? []]. Qed.

Lemma k_vm_fault_ok t E s m ft va :
  I_run t E s → process (E t) m → is_u32 va → ft = VM_FAULT_READ ∨ ft = VM_FAULT_WRITE →
  tlb_lookup (k_tlb s) va = None →
  ∃ a, u_spaces (k_user s) !! p_space (E t) = Some a ∧
  ((m va = None ∧ k_vm_fault ft va s = Ret (EFAULT, s)) ∨
   (∃ p tl, translate a va = Some p ∧ k_vm_fault ft va s = Ret (0, set_ktlb tl s) ∧
      I_run t E (set_ktlb tl s) ∧ tlb_lookup tl va = Some p)).
Proof.
  intros HI Hp Hva Hft El. destruct (process_space t E s m HI Hp) as (a & Hsp & [Hwf Hm] & Htlb & Hcl & Hcpu & Hcur & Hram).
  exists a. split; [done|]. unfold k_vm_fault. rewrite (K_bind _ _ _ _ _ Hcur). unfold klift_vm.
  destruct (page_fault_ok ft va a (u_firstpaddr (k_user s)) (vm_of s)) as [[Ht ->]|(p & tl & Ht & -> & Hok' & Hcl' & Hl')]; [done..| |].
  - left. rewrite mbind_Ret, put_vm_same, Hm, Ht. done.
  - right. exists p, tl. rewrite mbind_Ret, put_vm_tlb. split_and!; [done|done| |done].
    destruct HI as (Hc & Hi & Ht0 & ls & lr & lz & HI). do 3 (split; [done|]). exists ls, lr, lz.
    pose proof (i_user _ _ _ _ _ _ _ _ _ _ _ HI) as [U1 U2 U3 Uq U4 U5 (U6 & U6' & U6'') U7 U8 U9 Un].
    assert (set_ktlb tl s = set_user (k_user s) (set_ktlb tl s)) as -> by (by destruct s). apply Inv_user; [done|].
    split; try done. split; [by destruct Hok'|]. split; [done|]. destruct Hp as [Hact _]. destruct (U5 t Hact) as (_ & _ & ->).
    intros b Hb. simplify_eq. split; [done|]. destruct Hwf as ((_ & _ & _ & (_ & Hpb & _)) & _). lia.
Qed.

Lemma touch_ok t E s ft va m :
  I_run t E s → process (E t) m → is_u32 va → ft = VM_FAULT_READ ∨ ft = VM_FAULT_WRITE →
  ∃ r tl a, touch ft va s = Ret (r, set_ktlb tl s) ∧ I_run t E (set_ktlb tl s) ∧
    u_spaces (k_user s) !! p_space (E t) = Some a ∧ holds (k_user s) a (Loaded m) ∧
    ((r = -1 ∧ m va = None) ∨ (translate a va = Some r ∧ 0 < r < u_ramsize (k_user s))).
Proof.
  intros HI Hp Hva Hft. destruct (process_space t E s m HI Hp) as (a & Hsp & Hh & Htlb & _ & _ & _ & Hram).
  assert (∀ p, translate a va = Some p → 0 < p < u_ramsize (k_user s)) as Hr.
  { intros p Ht. destruct (translate_range _ _ _ _ (proj1 (proj1 Hh)) Ht). lia. }
  assert (set_ktlb (k_tlb s) s = s) as Hs by (by destruct s).
  unfold touch. kgo. destruct (tlb_lookup (k_tlb s) va) as [p|] eqn:El.
  { exists p, (k_tlb s), a. rewrite Hs. assert (translate a va = Some p) by (by apply Htlb). split_and!; auto. }
  destruct (k_vm_fault_ok t E s m ft va HI Hp Hva Hft El) as (a' & Hsp' & [[Hn Ef]|(p & tl & Ht & Ef & HI' & El')]); simplify_eq.
  - exists (-1), (k_tlb s), a. rewrite Hs, (K_bind _ _ _ _ _ Ef). cbn [negb Z.eqb]. split_and!; auto.
  - exists p, tl, a. rewrite (K_bind _ _ _ _ _ Ef). cbn [negb Z.eqb]. kgo. cbn [k_tlb set_ktlb]. rewrite El'. split_and!; auto.
Qed.

Lemma load_byte_ok t E s va m :
  I_run t E s → process (E t) m → is_u32 va →
  ∃ s', load_byte va s = Ret (match m va with Some b => u8 b | None => -1 end, s') ∧ I_run t E s' ∧ k_cpu s' = k_cpu s.
Proof.
  intros HI Hp Hva. destruct (touch_ok t E s VM_FAULT_READ va m) as (r & tl & a & Et & HI' & Hsp & [_ Hm] & Hr); [done..|by left|].
  exists (set_ktlb tl s). unfold load_byte. rewrite (K_bind _ _ _ _ _ Et). destruct Hr as [[-> Hn]|[Ht Hb]].
  - by rewrite Hn.
  - rewrite Hm, Ht. simpl. rewrite (proj2 (Z.ltb_ge r 0)) by lia. kgo. done.
Qed.

(** A thread's part of the bookkeeping on its memory. *)
Lemma I_run_ghost t p tl u E s :
  I_run t E s → same_role (E t) p → p_held p = p_held (E t) → p_node p = p_node (E t) →
  (∀ lz, user_ok [t] lz E (k_threads s) (k_next s) (k_tlb s) (k_user s) →
     user_ok [t] lz (upd E t p) (k_threads s) (k_next s) tl u) →
  I_run t (upd E t p) (set_user u (set_ktlb tl s)).
Proof.
  intros HI Hr Hh Hse Hu. pose proof HI as (_ & _ & _ & ls & lr & lz & HI').
  pose proof (i_heap _ _ _ _ _ _ _ _ _ _ _ HI') as Hhp. destruct (h_listed _ _ _ _ _ _ _ Hhp t ltac:(set_solver)) as [th Hth].
  replace (set_ktlb tl s) with (set_ktlb tl (set_threads (λ m, <[t := th]> m) s)).
  2:{ destruct s; unfold set_threads, set_ktlb; simpl in *. by rewrite insert_id. }
  eapply I_run_user; [done|done|by apply (h_ok _ _ _ _ _ _ _ Hhp t)|done|done|done|done|].
  intros lz' _ HU. rewrite insert_id by done. auto.
Qed.

Lemma user_ok_poke t lz E m nxt tl u a va p b mem :
  user_ok [t] lz E m nxt tl u → p_mem (E t) = Some (Loaded mem) → u_spaces u !! p_space (E t) = Some a → translate a va = Some p →
  user_ok [t] lz (upd E t (with_mem (E t) (mset mem va (u8 b)))) m nxt tl (poke p b u).
Proof.
  intros [U1 U2 U3 Uq U4 U5 U6 U7 U8 U9 Un] Hm Ha Ht. set (E' := upd E t _).
  assert (∀ x, p_space (E' x) = p_space (E x) ∧ p_act (E' x) = p_act (E x)) as Hs.
  { intros x. unfold E', upd. by destruct (Z.eqb_spec x t) as [->|]. }
  assert (E' t = with_mem (E t) (mset mem va (u8 b))) as Et by (unfold E'; by rewrite upd_eq).
  assert (∀ x, x ≠ t → E' x = E x) as Eo by (intros x Hx; unfold E'; by rewrite upd_ne).
  assert (∀ x mx, p_mem (E' x) = Some (Loaded mx) → ∃ m', p_mem (E x) = Some (Loaded m')) as Hsome.
  { intros x mx Hx. destruct (Z.eq_dec x t) as [->|Hxt]; [eauto|]. rewrite Eo in Hx by done. eauto. }
  split; simpl; try done.
  - intros x th Hth. rewrite (proj1 (Hs x)). by apply U1.
  - intros x mx Hx. rewrite (proj1 (Hs x)). destruct (Z.eq_dec x t) as [->|Hxt].
    + rewrite Et in Hx. injection Hx as <-. destruct (U3 t (Loaded mem) Hm) as (Hne & a' & Ha' & Hwf & Hv). simplify_eq.
      split; [done|]. exists a. split; [done|]. split; [done|]. intros v. unfold mset. destruct (Z.eqb_spec v va) as [->|Hva].
      * rewrite Ht. simpl. by rewrite Z.eqb_refl.
      * rewrite Hv. destruct (translate a v) as [q|] eqn:Eq; [|done]. simpl. rewrite (proj2 (Z.eqb_neq q p)); [done|].
        intros ->. apply Hva. by apply (proj2 (proj2 Hwf) v va p).
    + rewrite Eo in Hx by done. destruct (U3 x mx Hx) as (Hne & b' & Hb' & Hh). split; [done|]. exists b'. split; [done|].
      destruct mx as [|mx]; [done|]. destruct Hh as [Hwf Hv]. split; [done|]. intros v. rewrite Hv. destruct (translate b' v) as [q|] eqn:Eq; [|done]. simpl.
      rewrite (proj2 (Z.eqb_neq q p)); [done|]. intros ->. by apply (U4 x t mx mem b' a Hxt Hx Hm Hb' Ha v va p).
  - intros x y. rewrite (proj1 (Hs x)), (proj1 (Hs y)). apply Uq.
  - intros x y m1 m2 a1 a2 Hxy Hx Hy. rewrite (proj1 (Hs x)), (proj1 (Hs y)).
    destruct (Hsome x m1 Hx) as [m1' ?], (Hsome y m2 Hy) as [m2' ?]. by eapply U4.
  - intros x. rewrite (proj1 (Hs x)), (proj2 (Hs x)). apply U5.
  - intros x. rewrite (proj1 (Hs x)). apply U9.
  - intros x. rewrite (proj1 (Hs x)). destruct (Z.eq_dec x t) as [->|Hx]; [rewrite Et; eauto|rewrite Eo by done; apply Un].
Qed.

Lemma store_byte_ok t E s va b m :
  I_run t E s → process (E t) m → is_u32 va →
  ∃ s', store_byte va b s = Ret (match m va with Some _ => 0 | None => -1 end, s') ∧ k_cpu s' = k_cpu s ∧
    match m va with
    | None => I_run t E s'
    | Some _ => I_run t (upd E t (with_mem (E t) (mset m va (u8 b)))) s'
    end.
Proof.
  intros HI Hp Hva. destruct (touch_ok t E s VM_FAULT_WRITE va m) as (r & tl & a & Et & HI' & Hsp & [_ Hm] & Hr); [done..|by right|].
  unfold store_byte. rewrite (K_bind _ _ _ _ _ Et). destruct Hr as [[-> Hn]|[Ht Hb]].
  - rewrite Hn. by exists (set_ktlb tl s).
  - rewrite Hm, Ht. simpl. rewrite (proj2 (Z.ltb_ge r 0)) by lia. kgo. eexists. split; [done|]. split; [done|].
    unfold on_user. replace (set_ktlb tl s) with (set_ktlb tl (set_ktlb tl s)) by done.
    apply I_run_ghost; [done..|]. intros lz HU. by eapply user_ok_poke; [|apply Hp| |].
Qed.

(** ** copyin and copyout *)

Lemma wp_memcpy_in t n src acc k Q m E s :
  I_run t E s → process (E t) m → 0 ≤ src → src + Z.of_nat n ≤ USERTOP →
  (∀ E' s', E' t = E t → I_run t E' s' → curspl (k_cpu s') = curspl (k_cpu s) →
     wp t (match read_bytes m src n with Some l => k 0 (acc ++ l) | None => k EFAULT [] end) Q E' s') →
  wp t (memcpy_in n src acc k) Q E s.
Proof.
  revert src acc E s. induction n as [|n IH]; intros src acc E s HI Hp H0 Hr HQ; cbn [memcpy_in].
  { specialize (HQ E s eq_refl HI eq_refl). cbn [read_bytes] in HQ. by rewrite app_nil_r in HQ. }
  apply wp_bind, wp_act; [done|]. intros E1 s1 HE1 HI1 Hs1. right.
  assert (process (E1 t) m) as Hp1 by (by rewrite HE1).
  destruct (load_byte_ok t E1 s1 src m HI1 Hp1) as (s2 & E2 & HI2 & Hc2); [unfold is_u32, USERTOP, MIPS_KSEG0 in *; lia|].
  eexists _, s2, E1. split; [exact E2|]. split; [apply gstep_refl|]. apply wp_done.
  cbn [read_bytes] in HQ. destruct (m src) as [b|] eqn:Em.
  - rewrite (proj2 (Z.eqb_neq _ _)) by (pose proof (u8_range b); unfold is_u8 in *; lia).
    apply IH; [done|done|lia|lia|]. intros E' s' HE' HI' Hs'. specialize (HQ E' s' ltac:(congruence) HI' ltac:(congruence)).
    cbn [mbind option_bind] in HQ. destruct (read_bytes m (src + 1) n); [|done]. simpl in HQ. by rewrite <- app_assoc.
  - cbn [Z.eqb]. apply HQ; [done|done|congruence].
Qed.

(** What [copycheck] accepts. *)
Definition user_range (va n : Z) : Prop := 0 ≤ va ∧ 0 < n ∧ va + n ≤ USERTOP.

Lemma copycheck_ok va len :
  is_u32 va → is_u32 len →
  (user_range va len ∧ copycheck va len = (0, len)) ∨
  (¬ user_range va len ∧ ((copycheck va len).1 = EFAULT ∨ (copycheck va len).1 = 0 ∧ (copycheck va len).2 ≠ len)).
Proof.
  unfold is_u32, user_range, copycheck, USERTOP, MIPS_KSEG0. intros Hv Hl.
  assert (u32 (va + len - 1) = if va + len - 1 <? 0 then 4294967295 else if va + len - 1 <? 4294967296 then va + len - 1 else va + len - 1 - 4294967296) as ->.
  { unfold u32. repeat case_match; zb.
    - symmetry. apply (Z.mod_unique _ _ (-1)); lia.
    - apply Z.mod_small. lia.
    - symmetry. apply (Z.mod_unique _ _ 1); lia. }
  repeat (case_match; zb; simpl); try (left; split; [lia|done]);
    try (right; split; [lia|by left]); right; (split; [lia|right; split; [done|lia]]).
Qed.

Lemma wp_copyin t usersrc len k Q m E s :
  I_run t E s → process (E t) m → is_u32 usersrc → is_u32 len →
  (∀ E' s', E' t = E t → I_run t E' s' → curspl (k_cpu s') = curspl (k_cpu s) →
     (user_range usersrc len → ∀ l, read_bytes m usersrc (Z.to_nat len) = Some l → wp t (k 0 l) Q E' s') ∧
     (¬ user_range usersrc len ∨ read_bytes m usersrc (Z.to_nat len) = None → wp t (k EFAULT []) Q E' s')) →
  wp t (copyin usersrc len k) Q E s.
Proof.
  intros HI Hp Hu Hl HQ. unfold copyin. destruct (copycheck_ok usersrc len Hu Hl) as [[Hr ->]|[Hr Hc]].
  - cbn [Z.eqb negb]. rewrite Z.eqb_refl. cbn [negb]. unfold user_range in *. apply (wp_memcpy_in t _ _ _ _ _ m); [done|done|lia|lia|].
    intros E' s' HE' HI' Hs'. destruct (HQ E' s' HE' HI' Hs') as [H1 H2].
    destruct (read_bytes m usersrc (Z.to_nat len)) as [l|]; [by apply H1|apply H2; by right].
  - destruct (copycheck usersrc len) as [r st]. simpl in Hc. destruct (HQ E s eq_refl HI eq_refl) as [_ H2].
    destruct Hc as [->|[-> Hne]]; cbn [Z.eqb negb]; [apply H2; by left|].
    rewrite (proj2 (Z.eqb_neq _ _)) by done. apply H2. by left.
Qed.

Lemma gstep_mem t E m : p_stat (E t) = PLive → gstep t E (upd E t (with_mem (E t) m)).
Proof. intros Hl. apply gstep_upd; simpl; [done|congruence]. Qed.

Lemma process_mem p m m' : process p m → process (with_mem p m') m'.
Proof. intros [H _]. by split. Qed.

Lemma with_mem_mem p m m' : with_mem (with_mem p m) m' = with_mem p m'.
Proof. done. Qed.

Lemma wp_memcpy_out t l dest k Q m E s :
  I_run t E s → process (E t) m → 0 ≤ dest → dest + Z.of_nat (length l) ≤ USERTOP →
  (∀ E' s', E' t = with_mem (E t) (write_bytes m dest l).2 → I_run t E' s' → curspl (k_cpu s') = curspl (k_cpu s) →
     wp t (k (write_bytes m dest l).1) Q E' s') →
  wp t (memcpy_out l dest k) Q E s.
Proof.
  revert dest m E s. induction l as [|b l IH]; intros dest m E s HI Hp H0 Hr HQ; cbn [memcpy_out write_bytes] in *.
  { apply HQ; [|done|done]. symmetry. apply with_mem_same, Hp. }
  simpl in Hr. apply wp_bind, wp_act; [done|]. intros E1 s1 HE1 HI1 Hs1. right.
  assert (process (E1 t) m) as Hp1 by (by rewrite HE1).
  destruct (store_byte_ok t E1 s1 dest b m HI1 Hp1) as (s2 & E2 & Hc2 & HI2); [unfold is_u32, USERTOP, MIPS_KSEG0 in *; lia|].
  destruct (m dest) as [b0|] eqn:Em.
  - eexists _, s2, _. split; [exact E2|]. split; [apply gstep_mem, (I_run_live _ _ _ _ _ _ _ HI1)|]. apply wp_done. cbn [Z.eqb].
    eapply (IH (dest + 1) (mset m dest (u8 b))); [exact HI2|rewrite upd_eq; by eapply process_mem|lia|lia|].
    intros E' s' HE' HI' Hs'. apply HQ; [|done|congruence]. by rewrite HE', upd_eq, with_mem_mem, HE1.
  - eexists _, s2, E1. split; [exact E2|]. split; [apply gstep_refl|]. apply wp_done. cbn [Z.eqb].
    apply HQ; [|done|congruence]. simpl. rewrite HE1. symmetry. apply with_mem_same, Hp.
Qed.

(** [copyout]'s result and the memory it leaves. *)
Definition copied_out (m : memory) (dest : Z) (l : list Z) : Z * memory :=
  if decide (user_range dest (Z.of_nat (length l))) then write_bytes m dest l else (EFAULT, m).

Lemma wp_copyout t l dest k Q m E s :
  I_run t E s → process (E t) m → is_u32 dest → is_u32 (Z.of_nat (length l)) →
  (∀ E' s', E' t = with_mem (E t) (copied_out m dest l).2 → I_run t E' s' → curspl (k_cpu s') = curspl (k_cpu s) →
     wp t (k (copied_out m dest l).1) Q E' s') →
  wp t (copyout l dest k) Q E s.
Proof.
  intros HI Hp Hu Hl HQ. unfold copyout, copied_out in *. destruct (copycheck_ok dest (Z.of_nat (length l)) Hu Hl) as [[Hr ->]|[Hr Hc]].
  - cbn [Z.eqb negb]. rewrite Z.eqb_refl. cbn [negb]. rewrite decide_True in HQ by done. unfold user_range in *.
    apply (wp_memcpy_out t _ _ _ _ m); [done|done|lia|lia|done].
  - rewrite decide_False in HQ by done. simpl in HQ. assert (wp t (k EFAULT) Q E s) as H2.
    { apply HQ; [|done|done]. symmetry. apply with_mem_same, Hp. }
    destruct (copycheck dest _) as [r st]. simpl in Hc. destruct Hc as [->|[-> Hne]]; cbn [Z.eqb negb]; [done|].
    by rewrite (proj2 (Z.eqb_neq _ _)).
Qed.

(** ** The console *)

(** Output, input and the clock do not concern the invariant. *)
Lemma user_ok_io rs lz E m nxt tl u u' :
  user_ok rs lz E m nxt tl u → u_spaces u' = u_spaces u → u_active u' = u_active u → u_firstpaddr u' = u_firstpaddr u →
  u_lastpaddr u' = u_lastpaddr u → u_ramsize u' = u_ramsize u → u_pmem u' = u_pmem u → user_ok rs lz E m nxt tl u'.
Proof.
  intros [U1 U2 U3 Uq U4 U5 U6 U7 U8 U9 Un] E1 E2 E3 E4 E5 E6. unfold holds, ram_ok in *.
  split; unfold holds, ram_ok; rewrite ?E1, ?E2, ?E3, ?E4, ?E5, ?E6; done.
Qed.

Lemma I_run_io t E s u' :
  I_run t E s → u_spaces u' = u_spaces (k_user s) → u_active u' = u_active (k_user s) → u_firstpaddr u' = u_firstpaddr (k_user s) →
  u_lastpaddr u' = u_lastpaddr (k_user s) → u_ramsize u' = u_ramsize (k_user s) → u_pmem u' = u_pmem (k_user s) →
  I_run t E (set_user u' s).
Proof.
  intros (Hc & Hi & Ht0 & ls & lr & lz & HI) E1 E2 E3 E4 E5 E6. do 3 (split; [done|]). exists ls, lr, lz.
  replace (set_user u' s) with (set_user u' (set_ktlb (k_tlb s) s)) by (by destruct s).
  apply Inv_user; [done|]. eapply user_ok_io; [apply HI|done..].
Qed.

Context (cs : condev) (Hlock : kprintf_lock cs ∈ LOCKS) (Hw : cs_wsem cs ∈ SEMS) (Hrd : cs_rsem cs ∈ SEMS).

Lemma wp_putch t ch Q E s :
  I_run t E s → p_int (E t) = 0 →
  (∀ r E' s', E' t = E t → I_run t E' s' → curspl (k_cpu s') = curspl (k_cpu s) → Q r E' s') →
  wp t (putch cs ch) Q E s.
Proof.
  intros HI Hint HQ.
  assert (∀ E1 s1, E1 t = E t → I_run t E1 s1 → curspl (k_cpu s1) = curspl (k_cpu s) → wp t (act_ (cs_send ch)) Q E1 s1) as Hsend.
  { intros E1 s1 HE1 HI1 Hs1. apply wp_act; [done|]. intros E2 s2 HE2 HI2 Hs2. right. eexists 0, _, E2.
    split; [done|]. split; [apply gstep_refl|]. apply wp_done, HQ; [congruence|by apply I_run_io|simpl; congruence]. }
  unfold putch. apply wp_bind, wp_act; [done|]. intros E1 s1 HE1 HI1 Hs1. right. eexists _, s1, E1.
  split; [unfold kspl; kgo; done|]. split; [apply gstep_refl|]. apply wp_done.
  destruct (negb (k_in_interrupt s1 =? 0) || (0 <? curspl (k_cpu s1))); cbn [Z.eqb Pos.eqb]; [by apply Hsend|].
  apply wp_bind, wp_P; [done|congruence|done|]. intros r E2 s2 HE2 HI2 Hs2. apply Hsend; [congruence|done|congruence].
Qed.

Lemma wp_console_send t l Q E s :
  I_run t E s → p_int (E t) = 0 →
  (∀ r E' s', E' t = E t → I_run t E' s' → curspl (k_cpu s') = curspl (k_cpu s) → Q r E' s') →
  wp t (console_send cs l) Q E s.
Proof.
  revert E s. induction l as [|c l IH]; intros E s HI Hint HQ; cbn [console_send]; [by apply wp_done, HQ|].
  apply wp_bind, wp_putch; [done|done|]. intros r E1 s1 HE1 HI1 Hs1. apply IH; [done|congruence|].
  intros r2 E2 s2 HE2 HI2 Hs2. apply HQ; [congruence|done|congruence].
Qed.

Lemma wp_kprintf t fmt args text Q E s :
  rendered fmt args = Ret text → I_run t E s → p_int (E t) = 0 → kprintf_lock cs ∉ p_held (E t) →
  (∀ r E' s', E' t = E t → I_run t E' s' → curspl (k_cpu s') = curspl (k_cpu s) → Q r E' s') →
  wp t (kprintf cs fmt args) Q E s.
Proof.
  intros Hren HI Hint Hnh HQ. destruct (I_run_lock _ _ _ _ t (kprintf_lock cs) E s HI Hlock) as (_ & _ & _ & Hl0 & _).
  assert (∀ E1 s1, I_run t E1 s1 → p_int (E1 t) = 0 → unlocked cs s1 = Ret (if curspl (k_cpu s1) =? 0 then 1 else 0, s1)) as Hun.
  { intros E1 s1 (_ & Hi & _) H0. unfold unlocked, kspl. kgo. rewrite Hi, H0, (proj2 (Z.eqb_neq (kprintf_lock cs) 0)) by done. done. }
  unfold kprintf. rewrite Hren. apply wp_bind, wp_act; [done|]. intros E1 s1 HE1 HI1 Hs1. right. eexists _, s1, E1.
  split; [apply (Hun E1); [done|congruence]|]. split; [apply gstep_refl|]. apply wp_done.
  destruct (Z.eqb_spec (curspl (k_cpu s1)) 0) as [H0|H0]; cbn [Z.eqb Pos.eqb].
  - apply wp_bind, wp_lock_acquire; [done|congruence|done|]. intros r2 E2 s2 HE2 HI2 Hs2.
    apply wp_bind, wp_console_send; [done|rewrite HE2; simpl; congruence|]. intros r3 E3 s3 HE3 HI3 Hs3.
    apply wp_bind, wp_act; [done|]. intros E4 s4 HE4 HI4 Hs4. right. eexists _, s4, E4.
    split; [apply (Hun E4); [done|rewrite HE4, HE3, HE2; simpl; congruence]|]. split; [apply gstep_refl|]. apply wp_done.
    rewrite (proj2 (Z.eqb_eq (curspl (k_cpu s4)) 0)) by congruence. cbn [Z.eqb Pos.eqb].
    apply wp_lock_release; [done|done|rewrite HE4, HE3, HE2; simpl; set_solver|]. intros r5 E5 s5 HE5 HI5 Hs5.
    apply HQ; [|done|congruence]. rewrite HE5, HE4, HE3, HE2, HE1. unfold unheld, nowheld. simpl.
    replace (({[kprintf_lock cs]} ∪ p_held (E t)) ∖ {[kprintf_lock cs]}) with (p_held (E t)) by set_solver. by destruct (E t).
  - apply wp_bind, wp_done, wp_bind, wp_console_send; [done|congruence|]. intros r3 E3 s3 HE3 HI3 Hs3.
    apply wp_bind, wp_act; [done|]. intros E4 s4 HE4 HI4 Hs4. right. eexists _, s4, E4.
    split; [apply (Hun E4); [done|rewrite HE4, HE3; congruence]|]. split; [apply gstep_refl|]. apply wp_done.
    rewrite (proj2 (Z.eqb_neq (curspl (k_cpu s4)) 0)) by congruence. cbn [Z.eqb Pos.eqb].
    apply wp_done, HQ; [congruence|done|congruence].
Qed.

Lemma wp_getch t Q E s :
  I_run t E s → p_int (E t) = 0 → curspl (k_cpu s) = 0 →
  (∀ r E' s', E' t = E t → I_run t E' s' → curspl (k_cpu s') = 0 → Q r E' s') →
  wp t (getch cs) Q E s.
Proof.
  intros HI Hint H0 HQ. unfold getch. apply wp_bind, wp_act; [done|]. intros E1 s1 HE1 HI1 Hs1. right. eexists 0, s1, E1.
  split. { unfold kspl. kgo. destruct HI1 as (_ & Hi & _). rewrite Hi, HE1, Hint, Hs1, H0. done. }
  split; [apply gstep_refl|]. apply wp_done, wp_bind, wp_P; [done|congruence|done|]. intros r E2 s2 HE2 HI2 Hs2.
  apply wp_act; [done|]. intros E3 s3 HE3 HI3 Hs3. right. eexists _, _, E3. split; [kgo; done|]. split; [apply gstep_refl|].
  apply wp_done, HQ; [congruence|by apply I_run_io|simpl; congruence].
Qed.

End Process.
