(* ===== verification/SyscallProofs.v ===== *)
(** The rules for the system calls: what each of them returns and does to
    the memory of the process that makes it, whatever the other threads and
    processes do meanwhile. *)

From Stdlib Require Import ZArith Lia.
From stdpp Require Import base numbers list option gmap.
From S2P Require Import Prelude Errm Libc LibcProofs Printf PrintfProofs.
From S2P Require Import Array Queue Cpu Vm Kernel Thread Machine ThreadOps ThreadInv.
From S2P Require Import Logic SynchProofs SynchRules Lifecycle ForkExit Paging Process ProcessProofs.

Open Scope Z_scope.

(** ** What is printed *)

#[global] Instance collect_sender : Sender (λ data, emod (λ l : list Z, l ++ data)).
Proof. refine {| sent c l := c = l |}. intros t c l ->. unfold wpe, emod. done. Defined.

Lemma rendered_ok ps : Forall piece_ok ps → rendered (format_of ps) (args_of ps) = Ret (text_of ps).
Proof.
  intros Hps. pose proof (vprintf_spec (λ data, emod (λ l : list Z, l ++ data)) ps [] [] Hps eq_refl) as H.
  unfold rendered, wpe in *. destruct (__vprintf _ _ _ []) as [[r out]| | |]; try done. destruct H as [_ ->]. done.
Qed.

(** A conversion without flags. *)
Definition plain : field := mkField false false false 0 false.

Lemma lit_rendered text : Forall (λ c, c ≠ 0 ∧ c ≠ 37) text → rendered text [] = Ret text.
Proof.
  intros H. pose proof (rendered_ok (PLit <$> text)) as Hr.
  assert (format_of (PLit <$> text) = text ∧ args_of (PLit <$> text) = [] ∧ text_of (PLit <$> text) = text) as (E1 & E2 & E3).
  { clear. induction text as [|c text (I1 & I2 & I3)]; [done|]. unfold format_of, args_of, text_of in *. cbn. by rewrite I1, I2, I3. }
  rewrite E1, E2, E3 in Hr. apply Hr. by apply Forall_fmap.
Qed.

Lemma cstr_length (l : list Z) : (length (cstr (l ++ [0%Z])) ≤ length l)%nat.
Proof. induction l as [|x l IH]; simpl; [lia|]. destruct (x =? 0); simpl; lia. Qed.

Lemma str_rendered l :
  Z.of_nat (length l) < 2147483648 → rendered [37; 115] [AStr (Some l)] = Ret (text_of [PStr plain (Some l)]).
Proof.
  intros H. apply (rendered_ok [PStr plain (Some l)]). apply Forall_singleton. split; [done|]. unfold text_fits. simpl. lia.
Qed.

Lemma int_rendered z : rendered [37; 100] [AInt z] = Ret (text_of [PNum plain Cd z]).
Proof. apply (rendered_ok [PNum plain Cd z]). by apply Forall_singleton. Qed.

Lemma chr_rendered z : rendered [37; 99] [AInt z] = Ret (text_of [PChr plain z]).
Proof. apply (rendered_ok [PChr plain z]). by apply Forall_singleton. Qed.

Lemma unknown_rendered z : ∃ text, rendered unknown_text [AInt z] = Ret text.
Proof.
  set (ps := (PLit <$> [85; 110; 107; 110; 111; 119; 110; 32; 115; 121; 115; 99; 97; 108; 108; 32]) ++ [PNum plain Cd z; PLit 10]).
  exists (text_of ps). assert (unknown_text = format_of ps ∧ [AInt z] = args_of ps) as [-> ->] by (split; reflexivity). apply rendered_ok.
  repeat (apply Forall_cons; split; [done|]). by apply Forall_nil.
Qed.

(** "Fatal user mode trap ", " (", ", epc 0x", ", vaddr 0x", ")\n" *)
Lemma fatal_rendered code name epc vaddr :
  Z.of_nat (length name) < 2147483648 → ∃ text, rendered fatal_text [AInt code; AStr (Some name); AInt epc; AInt vaddr] = Ret text.
Proof.
  intros Hn. set (ps := (PLit <$> [70; 97; 116; 97; 108; 32; 117; 115; 101; 114; 32; 109; 111; 100; 101; 32; 116; 114; 97; 112; 32]) ++
    [PNum plain Cu code; PLit 32; PLit 40; PStr plain (Some name)] ++
    (PLit <$> [44; 32; 101; 112; 99; 32; 48; 120]) ++ [PNum plain Cx epc] ++
    (PLit <$> [44; 32; 118; 97; 100; 100; 114; 32; 48; 120]) ++ [PNum plain Cx vaddr; PLit 41; PLit 10]).
  exists (text_of ps). assert (fatal_text = format_of ps ∧ [AInt code; AStr (Some name); AInt epc; AInt vaddr] = args_of ps) as [-> ->]
    by (split; reflexivity). apply rendered_ok.
  repeat (apply Forall_cons; split; [first [done | split; [done|unfold text_fits; simpl; lia]]|]). by apply Forall_nil.
Qed.

(** ** What the calls return *)

Lemma read_bytes_length m va n l : read_bytes m va n = Some l → length l = n.
Proof.
  revert va l. induction n as [|n IH]; intros va l; simpl; [by intros [= <-]|].
  destruct (m va); [|done]. simpl. destruct (read_bytes m (va + 1) n) eqn:E; [|done]. simpl. intros [= <-]. simpl. f_equal. by eapply IH.
Qed.

(** The error code and [retval] of [write]. *)
Definition write_result (m : memory) (fd buf nbytes : Z) : Z * Z :=
  if negb (fd =? STDOUT_FILENO) && negb (fd =? STDERR_FILENO) then (EBADF, -1)
  else if buf =? 0 then (EFAULT, -1)
  else if decide (user_range buf nbytes) then
    match read_bytes m buf (Z.to_nat nbytes) with Some _ => (0, s32 nbytes) | None => (EFAULT, -1) end
  else (EFAULT, -1).

(** Error code, [retval] and memory after [read] of character [c]. *)
Definition read_result (m : memory) (fd buf buflen c : Z) : Z * Z * memory :=
  if negb (fd =? STDIN_FILENO) then (EBADF, -1, m)
  else if buf =? 0 then (EFAULT, -1, m)
  else if negb (buflen =? 1) then (EUNIMP, -1, m)
  else let '(err, m') := copied_out m buf [c] in
       if err =? 0 then (0, 1, m') else (err, -1, m').

(** The same for [__time] when the clock says [sec] and [nsec]. *)
Definition time_result (m : memory) (seconds nanoseconds sec nsec : Z) : Z * Z * memory :=
  let '(e1, m1) := if seconds =? 0 then (0, m) else copied_out m seconds (int_bytes sec) in
  if negb (e1 =? 0) then (e1, 0, m1) else
  let '(e2, m2) := if nanoseconds =? 0 then (0, m1) else copied_out m1 nanoseconds (int_bytes nsec) in
  if negb (e2 =? 0) then (e2, 0, m2) else (0, s32 sec, m2).

(** A thread in the kernel on behalf of a process with memory [m]. *)
Definition in_call (cs : condev) (p : priv) (m : memory) : Prop :=
  p_emb p = None ∧ p_int p = 0 ∧ p_kid p = (0, None) ∧ process p m ∧ kprintf_lock cs ∉ p_held p ∧ p_node p = None.

Lemma in_call_mem cs p m m' : in_call cs p m → in_call cs (with_mem p m') m'.
Proof. intros (? & ? & ? & ? & ? & ?). split_and!; try done. by eapply process_mem. Qed.

Lemma in_call_same cs p m : in_call cs p m → with_mem p m = p.
Proof. intros (_ & _ & _ & [_ ?] & _). by apply with_mem_same. Qed.

(** [*p = x] by the kernel needs an aligned int of the process. *)
Definition int_at (m : memory) (p : Z) : Prop :=
  0 < p < USERTOP ∧ p mod 4 = 0 ∧ Forall (λ j, is_Some (m (p + j))) [0; 1; 2; 3].

(** Error code, [retval] and memory that [waitpid] may leave. *)
Definition wait_result (m : memory) (pid status options : Z) (R : Z → Z → memory → Prop) : Prop :=
  if negb (options =? 0) then R EINVAL (-1) m
  else if status =? 0 then R EFAULT (-1) m
  else int_at m status ∧ R EINVAL (-1) m ∧ ∀ code, R 0 pid (write_bytes m status (int_bytes code)).2.

Section Syscalls.
Context (SEMS LOCKS CVS : gset Z) (BOOT : Z).
Context (cs : condev) (Hlock : kprintf_lock cs ∈ LOCKS) (Hw : cs_wsem cs ∈ SEMS) (Hrd : cs_rsem cs ∈ SEMS).

#[local] Abbreviation Inv := (Inv SEMS LOCKS CVS BOOT).
#[local] Abbreviation I_run := (I_run SEMS LOCKS CVS BOOT).
#[local] Abbreviation I_resume := (I_resume SEMS LOCKS CVS BOOT).
#[local] Abbreviation wp := (wp SEMS LOCKS CVS BOOT).

Lemma wp_say t fmt args text Q m E s :
  rendered fmt args = Ret text → I_run t E s → in_call cs (E t) m →
  (∀ r E' s', E' t = E t → I_run t E' s' → curspl (k_cpu s') = curspl (k_cpu s) → Q r E' s') →
  wp t (kprintf cs fmt args) Q E s.
Proof. intros Hr HI (_ & Hi & _ & _ & Hh & _) HQ. by eapply wp_kprintf. Qed.

(** A piece that only looks. *)
Lemma wp_look t f k Q E s :
  I_run t E s →
  (∀ E' s', E' t = E t → I_run t E' s' → curspl (k_cpu s') = curspl (k_cpu s) →
     ∃ x, f s' = Ret (x, s') ∧ wp t (k x) Q E' s') →
  wp t (Act f k) Q E s.
Proof.
  intros HI HQ. apply wp_act; [done|]. intros E1 s1 HE1 HI1 Hs1. right.
  destruct (HQ E1 s1 HE1 HI1 Hs1) as (x & Ex & Hx). exists x, s1, E1. split; [done|]. split; [apply gstep_refl|done].
Qed.

Lemma wp_kalloc t k Q E s :
  I_run t E s →
  (∀ x E' s', E' t = E t → I_run t E' s' → curspl (k_cpu s') = curspl (k_cpu s) → x ≠ 0 → wp t (k x) Q E' s') →
  wp t (Act kalloc k) Q E s.
Proof.
  intros HI HQ. apply wp_act; [done|]. intros E1 s1 HE1 HI1 Hs1. right. pose proof HI1 as (Hc & Hi & Ht0 & ls & lr & lz & HI1').
  pose proof (f_next _ _ (i_fresh _ _ _ _ _ _ _ _ _ _ _ HI1')) as Hn. do 2 eexists. exists E1.
  split; [apply kalloc_ok, HI1'|]. split; [apply gstep_refl|]. apply HQ; [done| |done|lia].
  do 3 (split; [done|]). exists ls, lr, lz. apply Inv_alloc; [done|lia].
Qed.

Lemma wp_sys_write t fd buf nbytes k Q m E s :
  I_run t E s → in_call cs (E t) m → is_u32 buf → is_u32 nbytes →
  (∀ E' s', E' t = E t → I_run t E' s' → curspl (k_cpu s') = curspl (k_cpu s) →
     wp t (k (write_result m fd buf nbytes).1 (write_result m fd buf nbytes).2) Q E' s') →
  wp t (sys_write cs fd buf nbytes k) Q E s.
Proof.
  intros HI Hp Hb Hn HQ. unfold sys_write, write_result in *. destruct (_ && _); [by apply HQ|].
  destruct (Z.eqb_spec buf 0) as [->|Hb0]; [by apply HQ|].
  apply wp_bind, wp_kalloc; [done|]. intros x E1 s1 HE1 HI1 Hs1 Hx. apply wp_done. rewrite (proj2 (Z.eqb_neq _ _)) by done.
  rewrite <- HE1 in Hp. pose proof Hp as (_ & _ & _ & Hpr & _).
  eapply wp_copyin; [done|exact Hpr|done|done|]. intros E2 s2 HE2 HI2 Hs2. split.
  - intros Hr l Hl. cbn [Z.eqb negb]. rewrite decide_True in HQ by done. rewrite Hl in HQ.
    pose proof (read_bytes_length _ _ _ _ Hl) as Hlen. pose proof (cstr_length l) as Hc.
    apply wp_bind. eapply (wp_say t _ _ _ _ m); [|done|by rewrite HE2|].
    + apply str_rendered. unfold user_range, USERTOP, MIPS_KSEG0, is_u32 in *. lia.
    + intros r E3 s3 HE3 HI3 Hs3. apply HQ; [congruence|done|congruence].
  - intros Hf. cbn [Z.eqb negb]. assert (wp t (k EFAULT (-1)) Q E2 s2); [|done].
    specialize (HQ E2 s2 ltac:(congruence) HI2 ltac:(congruence)). destruct (decide _); [|done].
    destruct Hf as [?|Hf]; [done|]. by rewrite Hf in HQ.
Qed.

Lemma wp_sys_read t fd buf buflen k Q m E s :
  I_run t E s → in_call cs (E t) m → curspl (k_cpu s) = 0 → is_u32 buf →
  (∀ c E' s', is_u8 c → E' t = with_mem (E t) (read_result m fd buf buflen c).2 → I_run t E' s' → curspl (k_cpu s') = 0 →
     wp t (k (read_result m fd buf buflen c).1.1 (read_result m fd buf buflen c).1.2) Q E' s') →
  wp t (sys_read cs fd buf buflen k) Q E s.
Proof.
  intros HI Hp H0 Hb HQ. pose proof (in_call_same _ _ _ Hp) as Hsame. unfold sys_read, read_result in *.
  destruct (negb (fd =? STDIN_FILENO)); [by apply (HQ 0)|]. destruct (buf =? 0); [by apply (HQ 0)|].
  destruct (Z.eqb_spec buflen 1) as [->|Hn]; cbn [negb] in *; [|by apply (HQ 0)]. pose proof Hp as (_ & Hi & _ & Hpr & _).
  apply wp_bind, wp_getch; [done|done|done|done|]. intros c E1 s1 HE1 HI1 Hs1. specialize (HQ (u8 c)).
  eapply wp_copyout; [done|rewrite HE1; exact Hpr|done|done|]. intros E2 s2 HE2 HI2 Hs2. rewrite HE1 in HE2.
  destruct (copied_out m buf [u8 c]) as [err m'] eqn:Ec. cbn [fst snd] in *.
  destruct (Z.eqb_spec err 0) as [->|He]; cbn [negb fst snd Z.eqb] in *.
  - apply wp_bind. eapply (wp_say t _ _ _ _ m'); [apply chr_rendered|done|rewrite HE2; by eapply in_call_mem|].
    intros r E3 s3 HE3 HI3 Hs3. apply HQ; [apply u8_range|congruence|done|congruence].
  - apply HQ; [apply u8_range|done|done|congruence].
Qed.

Lemma wp_sys_time t seconds nanoseconds k Q m E s :
  I_run t E s → in_call cs (E t) m → is_u32 seconds → is_u32 nanoseconds →
  (∀ sec nsec E' s', is_u32 sec → is_u32 nsec → let r := time_result m seconds nanoseconds sec nsec in
     E' t = with_mem (E t) r.2 → I_run t E' s' → curspl (k_cpu s') = curspl (k_cpu s) → wp t (k r.1.1 r.1.2) Q E' s') →
  wp t (sys__time seconds nanoseconds k) Q E s.
Proof.
  intros HI Hp Hse Hna HQ. unfold sys__time. apply wp_bind, wp_act; [done|]. intros E1 s1 HE1 HI1 Hs1. right.
  do 2 eexists. exists E1. split; [unfold gettime; kgo; done|]. split; [apply gstep_refl|]. apply wp_done.
  set (sec := u32 (u_times (k_user s1) 0%nat).1). set (nsec := u32 (u_times (k_user s1) 0%nat).2).
  assert (is_u32 sec ∧ is_u32 nsec) as [Hsec Hnsec] by (split; apply u32_range). unfold is_u32 in Hsec, Hnsec.
  rewrite Z.div_add_l, (Z.div_small nsec), Z.add_0_r, (Z.add_comm _ nsec), Z.mod_add, (Z.mod_small nsec) by lia.
  specialize (HQ sec nsec). unfold time_result in HQ. pose proof Hp as (_ & _ & _ & Hpr & _).
  set (s2 := on_user _ s1). assert (I_run t E1 s2) as HI2 by (by apply I_run_io).
  assert (∀ m1 E2 s3, I_run t E2 s3 → E2 t = with_mem (E t) m1 → curspl (k_cpu s3) = curspl (k_cpu s) →
    (∀ E' s', is_u32 sec → is_u32 nsec →
       let r := (let '(e2, m2) := if nanoseconds =? 0 then (0, m1) else copied_out m1 nanoseconds (int_bytes nsec) in
                 if negb (e2 =? 0) then (e2, 0, m2) else (0, s32 sec, m2)) in
       E' t = with_mem (E t) r.2 → I_run t E' s' → curspl (k_cpu s') = curspl (k_cpu s) → wp t (k r.1.1 r.1.2) Q E' s') →
    wp t (if nanoseconds =? 0 then k 0 (s32 sec) else copyout (int_bytes nsec) nanoseconds (λ copyError,
      if negb (copyError =? 0) then k copyError 0 else k 0 (s32 sec))) Q E2 s3) as Hrest.
  { intros m1 E2 s3 HI3 HE2 Hs3 HQ2. destruct (nanoseconds =? 0); [by apply HQ2|].
    eapply wp_copyout; [done|rewrite HE2; by eapply process_mem|done|done|]. intros E3 s4 HE3 HI4 Hs4.
    destruct (copied_out m1 nanoseconds (int_bytes nsec)) as [e2 m2]. cbn [fst snd] in *. rewrite HE2, with_mem_mem in HE3.
    destruct (Z.eqb_spec e2 0) as [->|]; cbn [negb fst snd] in *; (apply HQ2; [done|done|done|done|congruence]). }
  destruct (seconds =? 0).
  - eapply (Hrest m); [done| |done|exact HQ]. rewrite HE1. symmetry. by eapply in_call_same.
  - eapply wp_copyout; [done|rewrite HE1; exact Hpr|done|done|]. intros E3 s4 HE3 HI4 Hs4. rewrite HE1 in HE3.
    destruct (copied_out m seconds (int_bytes sec)) as [e1 m1]. cbn [fst snd] in *.
    destruct (Z.eqb_spec e1 0) as [->|]; cbn [negb fst snd] in *.
    + eapply (Hrest m1); [done|done|simpl in Hs4; congruence|exact HQ].
    + apply HQ; [done|done|done|done|simpl in Hs4; congruence].
Qed.

(** ** fork *)

Definition with_kid (p : priv) (k : Z * option content) : priv :=
  mkPriv (p_stat p) (p_emb p) (p_held p) (p_int p) (p_node p) (p_space p) (p_mem p) k (p_act p).

Lemma as_wf_mono lim lim' a : as_wf lim a → lim ≤ lim' ≤ MIPS_KSEG0 → as_wf lim' a.
Proof. intros (H & H1 & H2 & H3) Hl. unfold as_wf, seg_wf in *. split_and!; try tauto; lia. Qed.

(** Free memory is taken, and address spaces appear at new addresses. *)
Lemma user_ok_grow rs lz E m nxt nxt' tl u u' :
  user_ok rs lz E m nxt tl u → u_active u' = u_active u → nxt ≤ nxt' → ram_ok u' →
  u_firstpaddr u ≤ u_firstpaddr u' → (∀ p, p < u_firstpaddr u → u_pmem u' p = u_pmem u p) →
  (∀ x, x < nxt → u_spaces u' !! x = u_spaces u !! x) → (∀ x, is_Some (u_spaces u' !! x) → x < nxt') →
  user_ok rs lz E m nxt' tl u'.
Proof.
  intros [U1 U2 U3 Uq U4 U5 (U6 & U6' & U6'') U7 [U8 U8'] U9 Un] Ha Hn Hr Hf Hp Hs Hs'.
  assert (∀ x, u_spaces u' !! p_space (E x) = u_spaces u !! p_space (E x)) as Hsp by (intros x; apply Hs, U9).
  split; try done.
  - intros x mx Hx. rewrite Hsp. destruct (U3 x mx Hx) as (Hne & a & Hsa & Hh). split; [done|]. exists a. split; [done|].
    destruct mx as [|mx]; [done|]. destruct Hh as ((Hwf & Hpg & Hun) & Hm). split; [split; [|done]|].
    + eapply as_wf_mono; [done|]. destruct Hr as (? & ? & ?). unfold MIPS_KSEG0. lia.
    + intros v. rewrite Hm. destruct (translate a v) as [q|] eqn:Eq; [|done]. simpl. rewrite Hp; [done|].
      by destruct (translate_range _ _ _ _ Hwf Eq).
  - intros x y m1 m2 a b Hxy Hx Hy. rewrite !Hsp. by apply (U4 x y m1 m2).
  - intros x. rewrite Ha. apply U5.
  - rewrite Ha. split; [done|]. split; [done|]. rewrite Hs by done. done.
  - rewrite Ha. split; [lia|done].
  - intros x. specialize (U9 x). lia.
Qed.

Lemma put_vm_state v s f n :
  vcpu v = k_cpu s → tlb v = k_tlb s → k_orc s = [] →
  on_user f (set_alloc n [] (put_vm v s)) =
  set_user (f (with_ram (firstpaddr v) (lastpaddr v) (pmem v) (k_user s))) (set_ktlb (k_tlb s) (set_alloc n [] s)).
Proof. destruct s, v; simpl. by intros -> -> ->. Qed.

Lemma ram_wf_of s : ram_ok (k_user s) → cpu_wf (k_cpu s) → ram_wf (vm_of s).
Proof. intros (H1 & H2 & H3) Hc. by split. Qed.

Lemma own_copy E s a f m t v n :
  I_run t E s → holds (k_user s) a (Loaded m) → k_next s ≤ n → f = u_firstpaddr (k_user s) →
  as_wf (firstpaddr v) (as_at f a) → copied (u_pmem (k_user s)) (pmem v) a f (firstpaddr v) (as_at f a) →
  (∀ x, p_space (E x) ≠ n) ∧
  own_space E (n, Some (Loaded m)) (with_spaces (λ sp, <[n := as_at f a]> sp) (with_ram (firstpaddr v) (lastpaddr v) (pmem v) (k_user s))).
Proof.
  intros (_ & _ & _ & ls & lr & lz & HI) [(Hwf & Hpg & Hun) Hm] Hn -> Hwf' [Hlow Hcp].
  pose proof (i_user _ _ _ _ _ _ _ _ _ _ _ HI) as [U1 U2 U3 Uq U4 U5 U6 U7 U8 U9 Un].
  assert (∀ x, p_space (E x) ≠ n) as Hne by (intros x; specialize (U9 x); lia).
  split; [done|]. pose proof (f_next _ _ (i_fresh _ _ _ _ _ _ _ _ _ _ _ HI)).
  split; [simpl; lia|]. exists (as_at (u_firstpaddr (k_user s)) a), (Loaded m). simpl. rewrite lookup_insert_eq. split; [done|]. split; [done|]. split.
  - split; [split; [done|split; [done|]]|].
    + apply unshared_at. destruct Hwf as (_ & W1 & W2 & _). unfold seg_wf, sizes_ok, USERTOP, MIPS_KSEG0, PAGE_SIZE in *. lia.
    + intros w. rewrite Hm. specialize (Hcp w). simpl.
      destruct (translate a w) as [p|], (translate (as_at _ a) w) as [q|]; try done. simpl. by destruct Hcp as [_ ->].
  - intros x. split; [apply Hne|]. intros mx b Hx. rewrite lookup_insert_ne by (apply not_eq_sym, Hne). intros Hb.
    destruct (U3 x (Loaded mx) Hx) as (_ & b' & Hb' & (Hwfb & _) & _). simplify_eq.
    assert (∀ w1 w2 p, translate (as_at (u_firstpaddr (k_user s)) a) w1 = Some p → translate b w2 = Some p → False) as Hap.
    { intros w1 w2 p H1 H2. destruct (translate_range _ _ _ _ Hwfb H2) as [_ Hlt]. specialize (Hcp w1). rewrite H1 in Hcp.
      destruct (translate a w1); [|done]. lia. }
    split; [exact Hap|]. intros w1 w2 p H1 H2. by eapply Hap.
Qed.

Lemma I_run_kid t k E s : I_run t E s → I_run t (upd E t (with_kid (E t) k)) s.
Proof.
  intros HI. replace s with (set_user (k_user s) (set_ktlb (k_tlb s) s)) by (by destruct s).
  apply I_run_ghost; [done..|]. intros lz HU. pose proof HI as (_ & _ & _ & ls & lr & lz' & HI').
  pose proof (f_next _ _ (i_fresh _ _ _ _ _ _ _ _ _ _ _ HI')). eapply user_ok_ext; [exact HU|lia|].
  intros x. unfold upd. by destruct (Z.eqb_spec x t) as [->|].
Qed.

Lemma k_as_copy_ok t E s m :
  I_run t E s → process (E t) m →
  ∃ r s', k_as_copy s = Ret (r, s') ∧ k_cpu s' = k_cpu s ∧
    ((r = - ENOMEM ∧ I_run t E s') ∨
     (0 < r ∧ I_run t (upd E t (with_kid (E t) (r, Some (Loaded m)))) s' ∧
      own_space (upd E t (with_kid (E t) (r, Some (Loaded m)))) (r, Some (Loaded m)) (k_user s'))).
Proof.
  intros HI Hp. destruct (process_space _ _ _ _ t E s m HI Hp) as (a & Hsp & Hh & _ & _ & Hcpu & Hcur & _).
  pose proof HI as (Hc & Hi & Ht0 & ls & lr & lz & HI').
  pose proof (i_user _ _ _ _ _ _ _ _ _ _ _ HI') as HU. pose proof (i_orc _ _ _ _ _ _ _ _ _ _ _ HI') as Ho.
  pose proof (f_next _ _ (i_fresh _ _ _ _ _ _ _ _ _ _ _ HI')) as Hnx. pose proof (uo_ram _ _ _ _ _ _ _ HU) as Hram.
  destruct (as_copy_ok a (k_orc s) (vm_of s)) as (r & new & o' & v & Ec & Vc & Vt & (V1 & V2 & V3 & V4) & Vo & Hres);
    [by apply ram_wf_of|apply Hh|]. specialize (Vo Ho). subst o'. cbn [vm_of vcpu tlb lastpaddr ramsize firstpaddr pmem] in *.
  assert (ram_ok (with_ram (firstpaddr v) (lastpaddr v) (pmem v) (k_user s))) as Hram'.
  { destruct Hram as (? & ? & ?). unfold ram_ok. simpl. rewrite V1. split_and!; try done; lia. }
  unfold k_as_copy. rewrite (K_bind _ _ _ _ _ Hcur). kgo. unfold copy_of. rewrite Ec, mbind_Ret.
  destruct Hres as [(-> & -> & Hpm)|(-> & -> & Hwf & Hcopy)].
  - do 2 eexists. split; [done|]. split; [done|]. left. split; [done|].
    assert (set_alloc (k_next s) [] (put_vm v s) = set_user (with_ram (firstpaddr v) (lastpaddr v) (pmem v) (k_user s)) (set_ktlb (k_tlb s) s)) as ->.
    { clear -Vc Vt Ho. destruct s, v. simpl in *. by subst. }
    do 3 (split; [done|]). exists ls, lr, lz. apply Inv_user; [done|].
    eapply user_ok_grow; [exact HU|done|lia|done|simpl; lia|simpl; intros p _; by rewrite Hpm|done|].
    apply (uo_fresh _ _ _ _ _ _ _ HU).
  - destruct (own_copy E s a (u_firstpaddr (k_user s)) m t v (k_next s) HI Hh) as [Hne Hown]; [lia|done|done|done|].
    do 2 eexists. split; [done|]. split; [done|]. right. split; [lia|].
    rewrite put_vm_state by done. split.
    + apply I_run_kid. do 3 (split; [done|]). exists ls, lr, lz. apply (Inv_user _ _ _ _ _ _ _ _ _ _ (set_alloc (k_next s + 16) [] s)).
      { apply Inv_alloc; [done|lia]. }
      simpl. eapply user_ok_grow; [exact HU|done|lia|exact Hram'|simpl; lia|simpl; apply (proj1 Hcopy)| |].
      * intros x Hx. simpl. rewrite lookup_insert_ne by lia. done.
      * intros x. simpl. rewrite lookup_insert_is_Some. intros [<-|[_ Hx]]; [lia|].
        pose proof (proj2 (uo_fresh _ _ _ _ _ _ _ HU) x Hx). lia.
    + eapply own_space_same; [exact Hown|]. intros x. unfold upd. by destruct (Z.eqb_spec x t) as [->|].
Qed.

(** Writing a member of any thread that the invariant does not look at. *)
Lemma I_run_put_any t x th th' E s :
  I_run t E s → k_threads s !! x = Some th → th_ok th' → pidValue th' = pidValue th →
  pcb_ininterrupt th' = pcb_ininterrupt th → t_vmspace th' = t_vmspace th → t_sleepaddr th' = t_sleepaddr th →
  I_run t E (set_threads (λ m, <[x := th']> m) s).
Proof.
  intros (Hc & Hi & Ht0 & ls & lr & lz & HI) Hth Hok Hpid Hpcb Hvm Hsl. do 3 (split; [done|]). exists ls, lr, lz.
  destruct HI as [Hl Hp Hh Hs Hsm Hlk Hf Hpd Hst Hcpu Ho Hus]. split; simpl; try done.
  - by destruct Hl.
  - destruct Hh as [A1 A2 A3 A4 A5]. split.
    + intros u Hu. apply lookup_insert_is_Some. destruct (decide (x = u)); [by left|right; auto].
    + intros u thu. rewrite lookup_insert_Some. intros [[<- <-]|[_ Hu]]; [done|by eapply A2].
    + intros u thu Hut. rewrite lookup_insert_Some. intros [[<- <-]|[_ Hu]]; [rewrite Hpcb|]; by apply A3.
    + intros u e b Hu. destruct (A4 u e b Hu) as ((the & Hthe & He) & ?). split; [|done].
      destruct (decide (x = e)) as [->|]; [|exists the; by rewrite lookup_insert_ne]. simplify_eq. exists th'. rewrite lookup_insert_eq. split; [done|congruence].
    + done.
  - by eapply sleepers_ok_put.
  - by eapply fresh_ok_put.
  - by eapply pids_ok_put.
  - by destruct Hst.
  - eapply user_ok_put; [done|pose proof (f_next _ _ Hf); lia|done|done].
Qed.

(** The end of a successful [fork]. *)
Lemma fork_settle t e th r pp E s :
  I_run t E (settled r e th s) → e ≠ t → k_threads s !! e = Some th → p_act (E t) = true → 
  ∃ s', (th ← get_thread e;
         _ ← put_thread e (with_vmspace r (with_parentPid pp th));
         cur ← get_curthread;
         _ ← k_as_activate (t_vmspace cur);
         mret (pidValue th)) s = Ret (pidValue th, s') ∧
    I_run t (upd E t (with_kid (E t) (0, None))) s' ∧ k_cpu s' = k_cpu s ∧ 1 ≤ pidValue th.
Proof.
  intros HI Hne Hth Hact. set (th2 := with_vmspace r (with_parentPid pp th)).
  assert (I_run t E (set_threads (λ m, <[e := th2]> m) s)) as HI2.
  { assert (set_threads (λ m, <[e := th2]> m) s = set_threads (λ m, <[e := th2]> m) (settled r e th s)) as ->.
    { unfold settled. destruct s; unfold set_threads; simpl. by rewrite insert_insert_eq. }
    assert (k_threads (settled r e th s) !! e = Some (with_vmspace r th)) as Hl by (simpl; by rewrite lookup_insert_eq).
    eapply I_run_put_any; [done|exact Hl| |done|done|done|done].
    destruct HI as (_ & _ & _ & ls & lr & lz & HI). exact (h_ok _ _ _ _ _ _ _ (i_heap _ _ _ _ _ _ _ _ _ _ _ HI) e _ Hl). }
  pose proof HI2 as (Hc & Hi & Ht0 & ls & lr & lz & HI3). pose proof (i_user _ _ _ _ _ _ _ _ _ _ _ HI3) as HU.
  destruct (h_listed _ _ _ _ _ _ _ (i_heap _ _ _ _ _ _ _ _ _ _ _ HI3) t ltac:(set_solver)) as [tht Htht].
  exists (activated (t_vmspace tht) (set_threads (λ m, <[e := th2]> m) s)). split.
  { rewrite (get_thread_bind _ th) by done. unfold put_thread, get_curthread. kgo. fold th2. rewrite Hc, (get_thread_bind _ tht) by done.
    rewrite (K_bind _ _ _ _ _ (k_as_activate_ok (t_vmspace tht) _ (i_cpu _ _ _ _ _ _ _ _ _ _ _ HI3))). done. }
  split; [|split; [done|]].
  - apply I_run_kid. do 3 (split; [done|]). exists ls, lr, lz. rewrite (uo_space _ _ _ _ _ _ _ HU t tht Htht).
    apply Inv_activate; [done|apply (uo_vm _ _ _ _ _ _ _ HU)|]. intros u Hu. by destruct (uo_act _ _ _ _ _ _ _ HU u Hu) as (->%list_elem_of_singleton & _).
  - assert (k_threads (set_threads (λ m, <[e := th2]> m) s) !! e = Some th2) as Hl by (simpl; by rewrite lookup_insert_eq).
    destruct (pd_thread _ _ _ _ (i_pids _ _ _ _ _ _ _ _ _ _ _ HI3) e th2 Hl) as [(Hv & _)|(Hv & _)]; simpl in Hv; lia.
Qed.

Lemma wp_sys_fork t child k Q m E s :
  I_run t E s → in_call cs (E t) m → curspl (k_cpu s) = 0 →
  (∀ e r E' s', e ≠ BOOT → r ≠ 0 → E' e = newborn (r, Some (Loaded m)) → I_resume e E' s' →
     wp e (mi_threadstart child) (λ _ _ _, True) E' s') →
  (∀ E' s', E' t = E t → I_run t E' s' → curspl (k_cpu s') = 0 → wp t (k ENOMEM (-1)) Q E' s') →
  (∀ pid E' s', 1 ≤ pid → E' t = E t → I_run t E' s' → curspl (k_cpu s') = 0 → wp t (k 0 pid) Q E' s') →
  wp t (sys_fork cs child k) Q E s.
Proof.
  intros HI Hp H0 Hchild Hfail Hok. pose proof Hp as (Hemb & Hint & Hkid & Hpr & _). unfold sys_fork. apply wp_bind.
  eapply wp_enter; [done|by intros; rewrite k_splhigh_run|]. intros E1 s1 HE1 [HI1 Hs1]. apply wp_done, wp_bind, wp_look; [done|].
  intros E2 s2 HE2 HI2 Hs2. pose proof HI2 as (Hc2 & _ & _ & ls & lr & lz & HI2').
  destruct (h_listed _ _ _ _ _ _ _ (i_heap _ _ _ _ _ _ _ _ _ _ _ HI2') t ltac:(set_solver)) as [th Hth].
  eexists. split; [unfold get_curthread; kgo; rewrite Hc2, (get_thread_bind _ th) by done; done|]. apply wp_done, wp_bind, wp_kalloc; [done|].
  intros x E3 s3 HE3 HI3 Hs3 Hx. apply wp_done. rewrite (proj2 (Z.eqb_neq _ _)) by done. apply wp_bind, wp_act; [done|].
  intros E4 s4 HE4 HI4 Hs4. right. assert (E4 t = E t) as Et4 by congruence.
  destruct (k_as_copy_ok t E4 s4 m HI4) as (r & s5 & Ec & Hcpu & [[-> HI5]|(Hr & HI5 & Hown)]); [by rewrite Et4|..].
  - exists (- ENOMEM), s5, E4. split; [done|]. split; [apply gstep_refl|]. apply wp_done. cbn [Z.ltb Z.compare ENOMEM Z.opp].
    apply wp_bind, wp_leave; [split; [done|congruence]|by left|]. intros q s6 HI6 Hs6. by apply Hfail; [|done|congruence].
  - set (E5 := upd E4 t (with_kid (E4 t) (r, Some (Loaded m)))) in *. assert (E5 t = with_kid (E t) (r, Some (Loaded m))) as Et5 by (unfold E5; by rewrite upd_eq, Et4).
    exists r, s5, E5. split; [done|]. split; [apply gstep_upd; [rewrite Et4; simpl; by rewrite Hemb|simpl; congruence]|].
    apply wp_done. rewrite (proj2 (Z.ltb_ge r 0)) by lia.
    apply wp_bind, wp_thread_fork_gen; [done|by rewrite Et5|by rewrite Et5| | |].
    + right. rewrite Et5. split; [congruence|done].
    + intros e E' s' He HE' HR'. rewrite Et5 in HE'. eapply Hchild; [done| |exact HE'|done]. lia.
    + intros e the E6 s6 He Hne HE6 Hthe Hvm HI6 Hs6. rewrite Et5 in HE6, HI6. simpl in HI6. rewrite (proj2 (Z.ltb_ge e 0)) by lia.
      apply wp_bind, wp_act_off.
      { change (k_cpu s6) with (k_cpu (settled r e the s6)). destruct (I_run_cpu _ _ _ _ _ _ _ HI6) as (_ & _ & ->). simpl. by rewrite Hs6, Hcpu, Hs4, Hs3, Hs2, Hs1. }
      right. destruct (fork_settle t e the r (pidValue th) E6 s6 HI6 Hne Hthe) as (s7 & E7 & HI7 & Hc7 & Hpid); [rewrite HE6; apply Hpr|].
      exists (pidValue the), s7, (upd E6 t (with_kid (E6 t) (0, None))). split; [exact E7|].
      split; [apply gstep_upd; rewrite HE6; simpl; [by rewrite Hemb|congruence]|]. apply wp_done.
      apply wp_bind, wp_leave; [split; [exact HI7|congruence]|by left|]. intros q s8 HI8 Hs8. apply Hok; [done| |done|congruence].
      rewrite upd_eq, HE6. destruct (E t). simpl in *. by subst.
Qed.

(** ** waitpid *)

Definition with_node (p : priv) (n : option (nat * Z)) : priv :=
  mkPriv (p_stat p) (p_emb p) (p_held p) (p_int p) n (p_space p) (p_mem p) (p_kid p) (p_act p).

(** A thread notes the node of the pid list that it will wait for. *)
Lemma I_run_node t E s n :
  I_run t E s → (∀ i a, n = Some (i, a) → ∃ p, k_pids s !! i = Some p ∧ parentSem p = a) →
  I_run t (upd E t (with_node (E t) n)) s.
Proof.
  intros HI Hn. pose proof (I_run_live _ _ _ _ _ _ _ HI) as Hlive.
  destruct HI as (Hc & Hi & Ht0 & ls & lr & lz & [Hl Hp Hh Hs Hsm Hlk Hf Hpd Hst Hcpu Ho Hus]).
  assert (same_role (E t) (with_node (E t) n)) as Hsr by done.
  split; [done|]. split; [by rewrite upd_eq|]. split; [done|]. exists ls, lr, lz. split; try done.
  - by apply ghost_placed.
  - by apply ghost_heaped.
  - by apply ghost_locks.
  - by apply ghost_fresh.
  - by apply ghost_static.
  - apply ghost_user; [done|done|done|pose proof (f_next _ _ Hf); lia|done].
Qed.

(** The semaphore of the node a thread waits for. *)
Lemma node_sem t i sem E s :
  I_run t E s → p_node (E t) = Some (i, sem) → (1 ≤ i)%nat →
  ∃ n y, k_pids s !! i = Some n ∧ parentSem n = sem ∧ k_sems s !! sem = Some y ∧ 0 ≤ sem_count y ≤ INT_MAX ∧
    16 ≤ sem < k_next s ∧ k_locks s !! sem = None ∧ (1 ≤ sem_count y → is_Some (exitCode n)).
Proof.
  intros (_ & _ & _ & ls & lr & lz & HI) Hn Hi. destruct (st_known _ _ _ _ _ _ (i_static _ _ _ _ _ _ _ _ _ _ _ HI) _ _ _ Hn) as (n & Hnd & <-).
  destruct (i_pids _ _ _ _ _ _ _ _ _ _ _ HI) as [P1 P2 P3 P4 P5 P6]. destruct (P3 i n Hnd Hi) as (_ & y & Hy & _).
  destruct (P6 i n Hnd) as (_ & _ & C3). exists n, y. split_and!; try done.
  - by eapply (i_sems _ _ _ _ _ _ _ _ _ _ _ HI).
  - by eapply (i_sems _ _ _ _ _ _ _ _ _ _ _ HI).
  - eapply (f_sems _ _ (i_fresh _ _ _ _ _ _ _ _ _ _ _ HI)). eauto.
  - eapply (f_sems _ _ (i_fresh _ _ _ _ _ _ _ _ _ _ _ HI)). eauto.
  - eapply (f_disj _ _ (i_fresh _ _ _ _ _ _ _ _ _ _ _ HI)). eauto.
  - by apply C3.
Qed.

Lemma wake_none (f : Z → bool) ls :
  (∀ u, u ∈ ls → f u = false) → filter (λ u, f u = false) ls = ls ∧ filter (λ u, f u = true) ls = [].
Proof.
  intros H. induction ls as [|u ls IH]; [done|]. destruct IH as [IH1 IH2]; [intros; apply H; set_solver|].
  assert (f u = false) as Hu by (apply H; set_solver).
  rewrite filter_cons_True, filter_cons_False, IH1, IH2 by congruence. done.
Qed.

(** Nobody sleeps on a semaphore that is up, so that [V] right after [P]
    puts everything back. *)
Lemma V_back t sem y E s :
  I_resume t E s → k_numthreads s < thread_lim → k_sems s !! sem = Some y → 1 ≤ sem_count y →
  ∃ s', V sem (set_sems (λ m, <[sem := mkSem (sem_count y - 1)]> m) s) = Ret (tt, s') ∧ I_resume t E s' ∧
    k_pids s' = k_pids s.
Proof.
  intros [(Hc & Hi & Ht0 & ls & lr & lz & HI) Hspl] Hnum Hy Hup.
  destruct (Inv_bounds _ _ _ _ _ _ _ _ _ _ _ HI Hnum) as (B1 & B2 & B3).
  pose proof HI as [[(a & Ha & Har) (q & Hq & Hqr & Hqs) Hz] Hp Hh Hs Hsm Hlk Hf Hpd Hst Hcpu Ho Hus].
  pose proof (Hsm sem y Hy) as Hcnt. pose proof (f_sems _ _ Hf sem ltac:(eauto)) as Hadr.
  assert (∀ u, u ∈ ls → sleeps_on (k_threads s) sem u = false) as Hno.
  { intros u Hu. unfold sleeps_on. destruct (k_threads s !! u) as [th|] eqn:Eu; [|done]. apply Z.eqb_neq. intros E1.
    destruct (Hs u th Hu Eu) as (_ & S2 & _). rewrite E1 in S2. specialize (S2 y Hy). lia. }
  set (s1 := set_sems (λ m, <[sem := mkSem (sem_count y - 1)]> m) s).
  destruct (V_ok sem (mkSem (sem_count y - 1)) s1 a q ls lr) as (a' & q' & E1 & R1 & R2 & R3); try done;
    [lia|simpl; by rewrite lookup_insert_eq|simpl; lia|lia|].
  simpl in R1, R2. destruct (wake_none _ _ Hno) as [W1 W2]. rewrite W1 in R1. rewrite W2, app_nil_r in R2. eexists. split; [exact E1|]. split; [|done]. split; [|done]. do 3 (split; [done|]). exists ls, lr, lz.
  assert (set_sems (λ m, <[sem := mkSem (sem_count (mkSem (sem_count y - 1)) + 1)]> m) s1 = s) as ->.
  { unfold s1. destruct s, y; unfold set_sems; simpl in *. rewrite insert_insert_eq, Z.sub_add. by rewrite insert_id. }
  split; try done; [split; [by exists a'|by exists q'|done]|by destruct Hf|by destruct Hpd|by destruct Hst].
Qed.

Lemma splx_high s : cpu_wf (k_cpu s) → curspl (k_cpu s) = SPL_HIGH → k_splx SPL_HIGH s = Ret (SPL_HIGH, s).
Proof.
  intros (Hu & _ & He) Hs. destruct s as []; simpl in *. unfold k_splx, set_cpu; simpl.
  destruct k_cpu as [st l]. simpl in Hs. subst l. unfold ints_enabled in He. simpl in He, Hu.
  unfold splx, interrupts_off, SPL_HIGH. cbn [Z.ltb Z.compare c0_status curspl].
  assert (Z.land st (u32 (Z.lnot CST_IEc)) = st) as ->; [|done]. apply Z.bits_inj'. intros n Hn.
  rewrite off_bits by done. by destruct (Z.eqb_spec n 0) as [->|].
Qed.

(** [P] on the semaphore of a child, interrupts off. *)
Lemma wp_P_node t i sem Q E s :
  I_resume t E s → p_int (E t) = 0 → p_node (E t) = Some (i, sem) → (1 ≤ i)%nat →
  (∀ r y n E' s', E' t = E t → I_resume t E' s' → k_sems s' !! sem = Some y → 1 ≤ sem_count y →
     k_pids s' !! i = Some n → is_Some (exitCode n) →
     Q r E' (set_sems (λ m, <[sem := mkSem (sem_count y - 1)]> m) s')) →
  wp t (P sem) Q E s.
Proof.
  intros [HI Hspl] Hint Hnode Hi HQ. unfold P. apply wp_bind. eapply wp_enter; [done| |].
  { intros E' s' HE HI'. destruct (node_sem t i sem E' s' HI') as (n & y & _ & _ & Hy & _ & Hadr & _); [by rewrite HE|done|].
    destruct HI' as (_ & Hin & _). rewrite HE, Hint in Hin. kgo. by rewrite k_splhigh_run. }
  intros E1 s1 HE1 HR1. apply wp_done. rewrite Hspl.
  exists (λ E' s', E' t = E t ∧ I_resume t E' s'). split; [by split|].
  intros E2 s2 [HE2 HR2]. split; [by eapply I_resume_off|]. pose proof HR2 as [HI2 Hs2].
  destruct (node_sem t i sem E2 s2 HI2) as (n & y & Hn & _ & Hy & Hc & Hadr & Hlk & Hcode); [by rewrite HE2|done|].
  exists (sem_count y =? 0). split; [unfold get_sem; by kgo|].
  destruct (Z.eqb_spec (sem_count y) 0) as [H0|H0].
  - apply wp_thread_sleep; [done|congruence| |].
    + split; [lia|]. split; [naive_solver|]. by rewrite Hlk.
    + intros E3 s3 HE3 HR3. split; [congruence|done].
  - apply wp_act_off; [by eapply I_resume_off|]. right. do 2 eexists. exists E2.
    split; [|split; [apply gstep_refl|apply wp_done; eapply (HQ _ y n E2 s2); [done|done|done|lia|done|apply Hcode; lia]]].
    unfold get_sem, put_sem. kgo. rewrite s32_id by (unfold is_s32, INT_MAX in *; lia). apply splx_high; [|done].
    apply (I_run_cpu _ _ _ _ _ _ _ HI2).
Qed.

Lemma mset_same m va b : mset m va b va = Some b.
Proof. unfold mset. by rewrite Z.eqb_refl. Qed.
Lemma mset_other m va b x : x ≠ va → mset m va b x = m x.
Proof. intros. unfold mset. by rewrite (proj2 (Z.eqb_neq _ _)). Qed.

(** Only [t]'s own entry differs, and not in the thread it creates. *)
Lemma gstep_own t E E' :
  (∀ u, u ≠ t → E' u = E u) → p_emb (E' t) = p_emb (E t) → p_kid (E' t) = p_kid (E t) → p_stat (E' t) = p_stat (E t) → gstep t E E'.
Proof.
  intros Ho He Hk Hs. split_and!; [auto|by rewrite He|]. by intros ->%(eq_trans Hs).
Qed.

Lemma kstore_ok t l p m E s :
  I_run t E s → process (E t) m → 0 ≤ p → p + Z.of_nat (length l) ≤ USERTOP →
  (∀ j, 0 ≤ j < Z.of_nat (length l) → is_Some (m (p + j))) →
  ∃ E' s', kstore l p s = Ret (tt, s') ∧ k_cpu s' = k_cpu s ∧ I_run t E' s' ∧ (∀ u, u ≠ t → E' u = E u) ∧
    E' t = with_mem (E t) (write_bytes m p l).2.
Proof.
  revert p m E s. induction l as [|b l IH]; intros p m E s HI Hp H0 Hr Hm; cbn [kstore write_bytes].
  { exists E, s. split_and!; try done. simpl. by rewrite with_mem_same by apply Hp. }
  simpl in Hr. destruct (store_byte_ok _ _ _ _ t E s p b m HI Hp) as (s1 & E1 & Hc1 & HI1); [unfold is_u32, USERTOP, MIPS_KSEG0 in *; lia|].
  destruct (Hm 0) as [b0 Hb0]; [simpl; lia|]. rewrite Z.add_0_r in Hb0. rewrite Hb0 in *.
  rewrite (K_bind _ _ _ _ _ E1). cbn [Z.eqb].
  destruct (IH (p + 1) (mset m p (u8 b)) _ s1 HI1) as (E2 & s2 & Es2 & Hc2 & HI2 & Ho2 & Ht2);
    [rewrite upd_eq; by eapply process_mem|lia|lia| |].
  { intros j Hj. rewrite mset_other by lia. rewrite <- Z.add_assoc. apply Hm. simpl. lia. }
  exists E2, s2. split_and!; [done|congruence|done| |by rewrite Ht2, upd_eq, with_mem_mem].
  intros u Hu. rewrite Ho2 by done. by apply upd_ne.
Qed.

Lemma kstore_int_ok t p x m E s :
  I_run t E s → process (E t) m → int_at m p →
  ∃ E' s', kstore_int p x s = Ret (tt, s') ∧ k_cpu s' = k_cpu s ∧ I_run t E' s' ∧ (∀ u, u ≠ t → E' u = E u) ∧
    E' t = with_mem (E t) (write_bytes m p (int_bytes x)).2.
Proof.
  intros HI Hp (Hr & Ha & Hm). unfold kstore_int. rewrite (proj2 (Z.leb_gt USERTOP p)) by lia. rewrite Ha. cbn [Z.eqb negb].
  rewrite !Forall_cons in Hm. destruct Hm as (M0 & M1 & M2 & M3 & _).
  apply kstore_ok; [done|done|lia| |].
  - simpl. unfold USERTOP, MIPS_KSEG0 in *. pose proof (Z.div_mod p 4). lia.
  - intros j Hj. simpl in Hj. assert (j = 0 ∨ j = 1 ∨ j = 2 ∨ j = 3) as [->|[->|[->| ->]]] by lia; done.
Qed.

(** The result of [waitpid] for an exit code. *)
Lemma wp_wait_done t i n status k m Q E s p :
  I_resume t E s → process (E t) m → int_at m status → k_pids s !! i = Some n → is_Some (exitCode n) →
  p_emb (E t) = None → with_node (E t) None = p →
  (∀ code E' s', E' t = with_mem p (write_bytes m status (int_bytes code)).2 → I_run t E' s' → curspl (k_cpu s') = 0 →
     wp t (k (Z.of_nat i + 1)) Q E' s') →
  wp t (Act (wait_done i status 0) k) Q E s.
Proof.
  intros [HI Hspl] Hp Hst Hn [code Hcode] Hemb <- HQ. apply wp_act_off; [by eapply I_resume_off|]. right.
  destruct (kstore_int_ok t status code m E s HI Hp Hst) as (E1 & s1 & Es1 & Hc1 & HI1 & Ho1 & Ht1).
  pose proof (I_run_node t E1 s1 None HI1 ltac:(done)) as HI2. rewrite Ht1 in HI2.
  destruct (I_run_splx SEMS LOCKS CVS BOOT _ _ s1 0 HI2 ltac:(by left)) as (s3 & E3 & HI3 & Hs3).
  assert (pd_pidValue n = Z.of_nat i + 1) as Hpid.
  { destruct HI as (_ & _ & _ & ls & lr & lz & HI). by apply (pd_wf _ _ _ _ (i_pids _ _ _ _ _ _ _ _ _ _ _ HI)). }
  do 2 eexists. exists (upd E1 t (with_node (with_mem (E t) (write_bytes m status (int_bytes code)).2) None)). split.
  - unfold wait_done. kgo.
    rewrite (K_bind _ _ _ _ _ Es1), (K_bind _ _ _ _ _ E3). done.
  - split.
    + apply gstep_own; rewrite ?upd_eq; try done. intros u Hu. rewrite upd_ne by done. auto.
    + rewrite Hpid. eapply (HQ code); [by rewrite upd_eq|done|done].
Qed.

Lemma pid_search_found pids j v i :
  pid_search_from pids j v = Some i → (j ≤ i)%nat ∧ ∃ n, pids !! (i - j)%nat = Some n ∧ pd_pidValue n = v.
Proof.
  revert j. induction pids as [|n pids IH]; intros j; simpl; [done|].
  destruct (Z.eqb_spec (pd_pidValue n) v) as [E1|_].
  - intros [= ->]. rewrite Nat.sub_diag. split; [lia|]. by exists n.
  - intros (Hle & n' & Hn' & Ev)%IH. split; [lia|]. exists n'. split; [|done]. by replace (i - j)%nat with (S (i - S j)) by lia.
Qed.

(** With interrupts off, a piece that only looks finds the state as it is. *)
Lemma wp_look_off t f x k Q E s :
  I_resume t E s → f s = Ret (x, s) → wp t (k x) Q E s → wp t (Act f k) Q E s.
Proof.
  intros HR Hf Hk. apply wp_act_off; [by eapply I_resume_off|]. right. exists x, s, E.
  split; [done|]. split; [apply gstep_refl|done].
Qed.

(** The child has not exited: sleep on its semaphore. *)
Lemma wp_wait t i n status k m Q E s :
  I_resume t E s → in_call cs (E t) m → int_at m status → k_pids s !! i = Some n → (1 ≤ i)%nat →
  (∀ code E' s', E' t = with_mem (E t) (write_bytes m status (int_bytes code)).2 → I_run t E' s' → curspl (k_cpu s') = 0 →
     wp t (k (Z.of_nat i + 1)) Q E' s') →
  wp t (sem <- act (pids ← kget k_pids; child ← kderef (pids !! i); mret (parentSem child)) ;;
        P sem ;;; act_ (V sem) ;;; retval <- act (wait_done i status 0) ;; k retval) Q E s.
Proof.
  intros HR (Hemb & Hint & Hkid & Hpr & Hh & Hnode) Hst Hn Hi HQ. apply wp_bind, wp_act_off; [by eapply I_resume_off|]. right.
  set (E1 := upd E t (with_node (E t) (Some (i, parentSem n)))).
  assert (I_resume t E1 s) as HR1.
  { split; [|apply HR]. apply I_run_node; [apply HR|]. intros j a [= <- <-]. by exists n. }
  assert (E1 t = with_node (E t) (Some (i, parentSem n))) as Ht1 by apply upd_eq.
  exists (parentSem n), s, E1. split; [kgo; done|]. split; [by apply gstep_own; rewrite ?Ht1; [intros; apply upd_ne|..]|]. apply wp_done.
  apply wp_bind. eapply (wp_P_node t i); [done|by rewrite Ht1|by rewrite Ht1|done|].
  intros r y n2 E2 s2 HE2 HR2 Hy Hup Hn2 Hcode. apply wp_bind, wp_act_off; [simpl; by eapply I_resume_off|].
  destruct (Z.lt_ge_cases (k_numthreads s2) thread_lim) as [Hnum|Hnum]; [|left; by left]. right.
  destruct (V_back t (parentSem n) y E2 s2 HR2 Hnum Hy Hup) as (s3 & E3 & HR3 & Hp3).
  eexists _, s3, E2. split; [by rewrite (K_bind _ _ _ _ _ E3)|]. split; [apply gstep_refl|]. apply wp_done.
  apply wp_bind. eapply (wp_wait_done t i n2 status _ m _ E2 s3 (E t)); rewrite ?HE2, ?Ht1; [done|done|done|by rewrite Hp3|done|done| |].
  - destruct (E t). simpl in *. by subst.
  - intros code E4 s4 HE4 HI4 Hs4. by apply (HQ code).
Qed.

Lemma wp_sys_waitpid t pid status options k Q m E s :
  I_run t E s → in_call cs (E t) m → curspl (k_cpu s) = 0 →
  wait_result m pid status options (λ err retval m', ∀ E' s',
    E' t = with_mem (E t) m' → I_run t E' s' → curspl (k_cpu s') = 0 → wp t (k err retval) Q E' s') →
  wp t (sys_waitpid pid status options k) Q E s.
Proof.
  intros HI Hp H0 HQ. pose proof (in_call_same _ _ _ Hp) as Hsame. unfold sys_waitpid, wait_result in *. apply wp_bind.
  eapply wp_enter; [done|by intros; rewrite k_splhigh_run|]. intros E1 s1 HE1 HR1. apply wp_done. rewrite H0.
  assert (∀ err, (∀ E' s', E' t = with_mem (E t) m → I_run t E' s' → curspl (k_cpu s') = 0 → wp t (k err (-1)) Q E' s') →
    wp t (act (k_splx 0) ;;; k err (-1)) Q E1 s1) as Hleave.
  { intros err Hk. apply wp_bind, wp_leave; [done|by left|]. intros q s2 HI2 Hs2. apply Hk; [congruence|done|done]. }
  destruct (options =? 0); cbn [negb] in *; [|by apply Hleave]. destruct (status =? 0); [by apply Hleave|].
  destruct HQ as (Hst & HQ1 & HQ2). apply wp_bind. eapply wp_look_off; [done|kgo; done|]. apply wp_done.
  destruct (pid_search (k_pids s1) pid) as [i|] eqn:Esearch; [|by apply Hleave].
  rewrite (proj2 (Z.eqb_neq (Z.of_nat i) (-1))) by lia. cbv zeta. rewrite Nat2Z.id.
  destruct (pid_search_found _ _ _ _ Esearch) as (_ & n & Hn & Hpid). rewrite Nat.sub_0_r in Hn.
  pose proof HR1 as [(Hc1 & _ & _ & ls & lr & lz & HI1) _]. pose proof (i_pids _ _ _ _ _ _ _ _ _ _ _ HI1) as [P1 P2 P3 P4 P5 P6].
  destruct (h_listed _ _ _ _ _ _ _ (i_heap _ _ _ _ _ _ _ _ _ _ _ HI1) t ltac:(set_solver)) as [th Hth].
  rewrite (P1 i n Hn) in Hpid.
  apply wp_bind. eapply wp_look_off; [done|unfold get_curthread; kgo; rewrite Hc1, (get_thread_bind _ th) by done; kgo; done|]. apply wp_done.
  destruct (Z.eqb_spec (pidValue th) (pPid n)) as [Epp|_]; cbn [negb]; [|by apply Hleave].
  assert (1 ≤ i)%nat as Hi1.
  { destruct i as [|i]; [|lia]. destruct (P6 _ _ Hn) as (C1 & _). rewrite C1 in Epp by done.
    destruct (P5 t th Hth) as [(? & _)|(? & _)]; lia. }
  pose proof Hp as (Hemb & _ & _ & Hpr & _ & Hnode). destruct (Z.eqb_spec (didExit n) 1) as [Hd|Hd]; cbn [Z.eqb].
  - apply wp_bind. eapply (wp_wait_done t i n status _ m _ E1 s1 (E t)); rewrite ?HE1; [done|done|done|done| |done| |].
    + by apply (P6 i n Hn).
    + destruct (E t). simpl in *. by subst.
    + intros code E2 s2 HE2 HI2 Hs2. apply wp_done. rewrite Hpid. by apply (HQ2 code).
  - eapply (wp_wait t i n status (k 0) m); rewrite ?HE1; try done.
    intros code E2 s2 HE2 HI2 Hs2. rewrite Hpid. by apply (HQ2 code).
Qed.

(** ** reboot *)

Lemma killall_loop_ok n l q s :
  k_runqueue s = Some q → queue_rep q l → (length l ≤ n)%nat →
  ∃ q', scheduler_killall_loop n s = Ret (tt, set_runqueue (Some q') s) ∧ queue_rep q' [].
Proof.
  revert l q s. induction n as [|n IH]; intros l q s Hq Hr Hl; cbn [scheduler_killall_loop]; unfold get_runqueue.
  - destruct l; [|simpl in Hl; lia]. kgo. rewrite (q_empty_ok _ _ Hr). exists q. split; [|done]. destruct s; simpl in *. by subst.
  - kgo. rewrite (q_empty_ok _ _ Hr). destruct l as [|x l]; simpl.
    + exists q. split; [|done]. destruct s; simpl in *. by subst.
    + destruct (q_remhead_ok q x l Hr) as (q1 & E1 & Hr1 & _).
      assert (klift (q_remhead q) s = Ret ((x, q1), s)) as E2 by (unfold klift; by rewrite E1).
      rewrite (K_bind _ _ _ _ _ E2). kgo.
      destruct (IH l q1 (set_runqueue (Some q1) s)) as (q2 & E3 & Hr2); [done|done|simpl in Hl; lia|].
      exists q2. by rewrite E3.
Qed.

Lemma scheduler_shutdown_ok t E s :
  I_resume t E s → ∃ s', scheduler_shutdown s = Ret (tt, s') ∧ k_cpu s' = k_cpu s ∧ k_in_interrupt s' = k_in_interrupt s ∧
    k_sleepers s' = k_sleepers s ∧ k_zombies s' = k_zombies s.
Proof.
  intros [(_ & _ & _ & ls & lr & lz & HI) Hspl]. destruct (i_lists _ _ _ _ _ _ _ _ _ _ _ HI) as [_ (q & Hq & Hr & _) _].
  destruct (killall_loop_ok (Z.to_nat (q_size q)) lr q s Hq Hr) as (q' & E1 & Hr').
  { destruct Hr as (? & _ & Hlen & _). lia. }
  assert (scheduler_killall s = Ret (tt, set_runqueue (Some q') s)) as E2.
  { unfold scheduler_killall, check_spl, kspl, get_runqueue. kgo. rewrite Hspl. kgo. done. }
  exists (set_runqueue None (set_runqueue (Some q') s)). split; [|done].
  unfold scheduler_shutdown. rewrite (K_bind _ _ _ _ _ E2). unfold check_spl, kspl, get_runqueue. kgo. simpl k_cpu. rewrite Hspl. kgo.
  rewrite (K_bind_lift tt); [done|]. unfold q_destroy. by rewrite (q_empty_ok _ _ Hr').
Qed.

(** With interrupts off, printing needs nothing of the thread system. *)
Lemma wp_kprintf_polled t fmt args text Q E s :
  rendered fmt args = Ret text → ints_enabled (k_cpu s) = false → curspl (k_cpu s) = SPL_HIGH →
  (∀ r u, Q r E (set_user u s)) → wp t (kprintf cs fmt args) Q E s.
Proof.
  intros Hren Hoff Hspl HQ. assert (∀ u, unlocked cs (set_user u s) = Ret (0, set_user u s)) as Hun.
  { intros u. unfold unlocked, kspl. kgo. simpl. rewrite Hspl, andb_false_r. done. }
  assert (∀ f x (k : Z → kcode) u u', f (set_user u s) = Ret (x, set_user u' s) → wp t (k x) Q E (set_user u' s) →
    wp t (Act f k) Q E (set_user u s)) as Hact.
  { intros f x k u u' Hf Hk. apply wp_act_off; [done|]. right. exists x, (set_user u' s), E. split; [done|]. split; [apply gstep_refl|done]. }
  assert (s = set_user (k_user s) s) as Hs0 by (by destruct s).
  unfold kprintf. rewrite Hren. rewrite Hs0. apply (Hact _ 0 _ _ (k_user s)); [apply Hun|]. cbn [Z.eqb kbind].
  generalize (k_user s). clear Hren Hs0. induction text as [|c text IH]; intros u; cbn [console_send kbind].
  - eapply Hact; [apply Hun|]. cbn [Z.eqb]. apply wp_done, HQ.
  - unfold putch, act_. cbn [kbind act]. eapply Hact; [unfold kspl; kgo; simpl; rewrite Hspl, orb_true_r; done|].
    cbn [Z.eqb Pos.eqb kbind]. eapply Hact; [unfold cs_send; kgo; done|]. cbn [kbind]. apply IH.
Qed.

Lemma interrupts_off_off c : ints_enabled (interrupts_off c) = false.
Proof. unfold ints_enabled, interrupts_off. cbn [c0_status]. rewrite Z.land_spec. apply andb_false_r. Qed.

Lemma wp_cpu_halt t Q E s : ints_enabled (k_cpu s) = false → wp t cpu_halt Q E s.
Proof.
  intros Hoff. apply wp_bind, wp_act_off; [done|]. right. eexists _, _, E. split; [kgo; reflexivity|]. split; [apply gstep_refl|].
  apply wp_done. exists (λ _ s', ints_enabled (k_cpu s') = false). split; [apply interrupts_off_off|]. intros E5 s5 H5. split; [done|]. by exists true.
Qed.

Lemma wp_md_poweroff t Q E s : ints_enabled (k_cpu s) = false → wp t md_poweroff Q E s.
Proof.
  intros Hoff. apply wp_bind, wp_act_off; [done|]. right. eexists _, _, E. split; [apply k_splhigh_run|]. split; [apply gstep_refl|].
  apply wp_done, wp_cpu_halt, interrupts_off_off.
Qed.

(** The end of [sys_reboot], for every code it accepts. *)
Lemma wp_reboot_end t code Q E s :
  ints_enabled (k_cpu s) = false → curspl (k_cpu s) = SPL_HIGH →
  wp t (if code =? 1 then kprintf cs halted_text [] ;;; md_halt
        else if code =? 0 then kprintf cs rebooting_text [] ;;; md_reboot cs
        else kprintf cs halted_text [] ;;; md_poweroff) Q E s.
Proof.
  intros Hoff Hspl. assert (∀ text c u, Forall (λ x, x ≠ 0 ∧ x ≠ 37) text → (∀ u, wp t c Q E (set_user u s)) →
    wp t (kprintf cs text [] ;;; c) Q E (set_user u s)) as Hsay.
  { intros text c u Ht Hc. apply wp_bind. eapply wp_kprintf_polled; [by apply lit_rendered|done|done|]. intros r u'. apply Hc. }
  assert (s = set_user (k_user s) s) as -> by (by destruct s).
  destruct (code =? 1); [|destruct (code =? 0)]; (apply Hsay; [by repeat constructor|]); intros u.
  - by apply wp_cpu_halt.
  - apply Hsay; [by repeat constructor|]. intros u'. by apply wp_md_poweroff.
  - by apply wp_md_poweroff.
Qed.

Lemma wp_sys_reboot t code k Q m E s :
  I_run t E s → in_call cs (E t) m →
  (¬ 0 ≤ code ≤ 2 → wp t (k EINVAL) Q E s) →
  wp t (sys_reboot cs code k) Q E s.
Proof.
  intros HI Hp HQ. unfold sys_reboot, RB_REBOOT, RB_HALT, RB_POWEROFF.
  destruct ((code =? 0) || (code =? 1) || (code =? 2)) eqn:Ecode; cbn [negb]; [|apply HQ; lia].
  apply wp_bind. unfold shutdown. apply wp_bind. eapply wp_say; [apply lit_rendered; by repeat constructor|done|done|].
  intros r E1 s1 HE1 HI1 Hs1. apply wp_bind. eapply wp_enter; [done|by intros; rewrite k_splhigh_run|].
  intros E2 s2 HE2 HR2. apply wp_done, wp_bind, wp_act_off; [by eapply I_resume_off|]. right.
  destruct (scheduler_shutdown_ok t E2 s2 HR2) as (s3 & E3 & C1 & C2 & C3 & C4).
  eexists _, s3, E2. split; [by rewrite (K_bind _ _ _ _ _ E3)|]. split; [apply gstep_refl|]. apply wp_done.
  assert (ints_enabled (k_cpu s3) = false) as Hoff by (rewrite C1; by eapply I_resume_off).
  assert (curspl (k_cpu s3) = SPL_HIGH) as Hspl by (rewrite C1; apply HR2).
  destruct HR2 as [(_ & _ & _ & ls & lr & lz & HI2) _].
  destruct (i_lists _ _ _ _ _ _ _ _ _ _ _ HI2) as [(a & Ha & _) _ (z & Hz & _)].
  apply wp_bind. eapply wp_kprintf_polled; [apply lit_rendered; by repeat constructor|done|done|]. intros r3 u3.
  apply wp_act_off; [done|]. right. eexists _, _, E2. split; [|split; [apply gstep_refl|]].
  { unfold thread_shutdown, get_sleepers, get_zombies. kgo. simpl. rewrite C3, Ha. kgo. simpl. rewrite C4, Hz. kgo. done. }
  apply wp_done. repeat apply wp_bind. by apply wp_reboot_end.
Qed.
End Syscalls.
