(* ===== verification/UserProofs.v ===== *)
(** User processes run safely.

    [follows m u] says that a program [u], started with memory [m], reckons
    with every answer that the system calls can give it, as far as its memory
    determines them: what [write], [read], [waitpid] and the others return is
    computed from [m] alone.  [wp_user]: the kernel runs every such process,
    for whatever else goes on in the machine.  So no other process or thread
    changes what is in its memory, and a process that only ever expects the
    answers of [follows] never sees another one. *)

From Stdlib Require Import ZArith Lia.
From stdpp Require Import base numbers list option gmap.
From S2P Require Import Prelude Array Queue Cpu Vm Kernel Thread Machine ThreadOps ThreadInv Logic SynchProofs SynchRules Lifecycle ForkExit Paging Process ProcessProofs SyscallProofs.

Open Scope Z_scope.

Definition regs_ok (tf : trapframe) : Prop :=
  is_u32 (tf_v0 tf) ∧ is_u32 (tf_a0 tf) ∧ is_u32 (tf_a1 tf) ∧ is_u32 (tf_a2 tf) ∧ is_u32 (tf_epc tf).

(** [R] holds of every memory and trapframe with which the process may go on
    after the system call [tf]. *)
Definition answers (m : memory) (tf : trapframe) (R : memory → trapframe → Prop) : Prop :=
  let callno := s32 (tf_v0 tf) in
  let fin m' err retval := R m' (syscall_result tf err retval) in
  if callno =? SYS_reboot then ¬ 0 ≤ s32 (tf_a0 tf) ≤ 2 → fin m EINVAL 0
  else if callno =? SYS_write then
    let r := write_result m (s32 (tf_a0 tf)) (tf_a1 tf) (tf_a2 tf) in fin m r.1 r.2
  else if callno =? SYS_read then
    ∀ c, is_u8 c → let r := read_result m (s32 (tf_a0 tf)) (tf_a1 tf) (tf_a2 tf) c in fin r.2 r.1.1 r.1.2
  else if callno =? SYS_sleep then fin m 0 0
  else if callno =? SYS___time then
    ∀ sec nsec, is_u32 sec → is_u32 nsec →
      let r := time_result m (tf_a0 tf) (tf_a1 tf) sec nsec in fin r.2 r.1.1 r.1.2
  else if callno =? SYS__exit then True
  else if callno =? SYS_getpid then ∀ pid, 1 ≤ pid → fin m 0 pid
  else if callno =? SYS_fork then
    fin m ENOMEM (-1) ∧ (∀ pid, 1 ≤ pid → fin m 0 pid) ∧ fin m 0 0
  else if callno =? SYS_waitpid then
    wait_result m (s32 (tf_a0 tf)) (tf_a1 tf) (s32 (tf_a2 tf)) (λ err retval m', fin m' err retval)
  else fin m ENOSYS 0.

(** The traps a program can bring about. *)
Definition user_trap (code : Z) : Prop := code ∈ [EX_ADEL; EX_ADES; 9; 10; 11; 12].

Fixpoint follows (m : memory) (u : user) : Prop :=
  match u with
  | Syscall tf k => regs_ok tf ∧ answers m tf (λ m' tf', follows m' (k tf'))
  | Load _ va k => is_u32 va ∧ (va < USERTOP → match m va with Some b => follows m (k (u8 b)) | None => True end)
  | Store _ va b k => is_u32 va ∧ (va < USERTOP → match m va with Some _ => follows (mset m va (u8 b)) k | None => True end)
  | Fault _ code _ => user_trap code
  | Impossible => False
  end.

Lemma answers_mono m tf (R R' : memory → trapframe → Prop) :
  (∀ m' tf', R m' tf' → R' m' tf') → answers m tf R → answers m tf R'.
Proof.
  intros HR. unfold answers, wait_result. cbv zeta. repeat case_match; try (intros; by eauto); naive_solver.
Qed.

Section User.
Context (SEMS LOCKS CVS : gset Z) (BOOT : Z).
Context (cs : condev) (Hlock : kprintf_lock cs ∈ LOCKS) (Hw : cs_wsem cs ∈ SEMS) (Hrd : cs_rsem cs ∈ SEMS).

#[local] Abbreviation Inv := (Inv SEMS LOCKS CVS BOOT).
#[local] Abbreviation I_run := (I_run SEMS LOCKS CVS BOOT).
#[local] Abbreviation I_resume := (I_resume SEMS LOCKS CVS BOOT).
#[local] Abbreviation wp := (wp SEMS LOCKS CVS BOOT).

(** ** Into the kernel and back *)

Lemma set_cpu_same s : set_cpu (k_cpu s) s = s.
Proof. by destruct s. Qed.

Lemma trap_in_ok s : cpu_wf (k_cpu s) → curspl (k_cpu s) = 0 → trap_in s = Ret (0, s).
Proof.
  intros Hc Hs. unfold trap_in, kspl. kgo. rewrite Hs.
  pose proof (k_splx_back (λ _, mret 0) s (hi s) Hc eq_refl) as H. rewrite Hs in H.
  change (set_cpu (mkCpu (c0_status (interrupts_off (k_cpu s))) SPL_HIGH) s) with (hi s). rewrite H.
  destruct s. done.
Qed.

Lemma rfe_ok s : cpu_wf (k_cpu s) → curspl (k_cpu s) = 0 → (_ ← k_splhigh; rfe_user 0) s = Ret (tt, s).
Proof.
  intros Hc Hs. rewrite k_splhigh_bind. unfold rfe_user. kgo.
  pose proof (spl_bracket _ Hc) as H. rewrite Hs in H. destruct s as []; simpl in *. unfold set_cpu; simpl.
  by rewrite <- H at 2.
Qed.

Lemma trap_out_ok s : cpu_wf (k_cpu s) → curspl (k_cpu s) = 0 → trap_out 0 s = Ret (tt, s).
Proof. apply rfe_ok. Qed.

(** A piece that changes nothing at level zero. *)
Lemma wp_idle t f x k Q E s :
  I_run t E s → curspl (k_cpu s) = 0 →
  (∀ s', cpu_wf (k_cpu s') → curspl (k_cpu s') = 0 → f s' = Ret (x, s')) →
  (∀ E' s', E' t = E t → I_run t E' s' → curspl (k_cpu s') = 0 → wp t (k x) Q E' s') →
  wp t (Act f k) Q E s.
Proof.
  intros HI H0 Hf HQ. apply wp_look; [done|]. intros E1 s1 HE1 HI1 Hs1. exists x.
  split; [apply Hf; [by eapply I_run_cpu|congruence]|apply HQ; congruence || done].
Qed.

Lemma check_spl0_ok s : curspl (k_cpu s) = 0 → check_spl0 s = Ret (tt, s).
Proof. intros H. unfold check_spl0, kspl. kgo. by rewrite H. Qed.

Lemma wp_check0 t c Q E s :
  I_run t E s → curspl (k_cpu s) = 0 →
  (∀ E' s', E' t = E t → I_run t E' s' → curspl (k_cpu s') = 0 → wp t c Q E' s') →
  wp t (act_ check_spl0 ;;; c) Q E s.
Proof.
  intros HI H0 HQ. apply wp_bind. eapply (wp_idle t _ 0); [done|done| |intros; by apply wp_done, HQ].
  intros s' _ Hs'. by rewrite (K_bind _ _ _ _ _ (check_spl0_ok s' Hs')).
Qed.

(** ** The calls that need little *)

Lemma wp_sys_exit t code Q m E s :
  I_run t E s → in_call cs (E t) m → t ≠ BOOT → wp t (sys_exit cs code) Q E s.
Proof.
  intros HI Hp Hb. unfold sys_exit. apply wp_bind. eapply wp_say; [done..|apply int_rendered|done|done|].
  intros r E1 s1 HE1 HI1 _. apply wp_thread_exit; [done| |done]. rewrite HE1. apply Hp.
Qed.

Lemma wp_kill t epc code vaddr Q m E s :
  I_run t E s → in_call cs (E t) m → t ≠ BOOT → (Z.to_nat code < length trapcodenames)%nat →
  wp t (kill_curthread cs epc code vaddr) Q E s.
Proof.
  intros HI Hp Hb Hcode. unfold kill_curthread. destruct (lookup_lt_is_Some_2 _ _ Hcode) as [name Hname]. rewrite Hname.
  apply wp_bind, wp_look; [done|]. intros E1 s1 HE1 HI1 Hs1. exists 0. split; [kgo; done|]. apply wp_done, wp_bind.
  assert (Z.of_nat (length name) < 2147483648) as Hlen.
  { assert (Forall (λ l, Z.of_nat (length l) < 2147483648) trapcodenames) as HF by (repeat constructor).
    by eapply (Forall_lookup_1 _ _ _ _ HF). }
  destruct (fatal_rendered code name epc vaddr Hlen) as [text Ht].
  eapply wp_say; [done..|exact Ht|done|by rewrite HE1|]. intros r E2 s2 HE2 HI2 _. apply wp_bind.
  eapply wp_enter; [done|by intros; rewrite k_splhigh_run|]. intros E3 s3 HE3 [HI3 _]. apply wp_done.
  apply wp_thread_exit; [done| |done]. rewrite HE3, HE2, HE1. apply Hp.
Qed.

Lemma wp_sys_getpid t k Q m E s :
  I_run t E s → in_call cs (E t) m →
  (∀ pid E' s', 1 ≤ pid → E' t = E t → I_run t E' s' → curspl (k_cpu s') = curspl (k_cpu s) → wp t (k 0 pid) Q E' s') →
  wp t (sys_getpid k) Q E s.
Proof.
  intros HI Hp HQ. unfold sys_getpid. apply wp_bind, wp_look; [done|]. intros E1 s1 HE1 HI1 Hs1.
  pose proof HI1 as (Hc & _ & _ & ls & lr & lz & HI1').
  destruct (h_listed _ _ _ _ _ _ _ (i_heap _ _ _ _ _ _ _ _ _ _ _ HI1') t ltac:(set_solver)) as [th Hth].
  exists (pidValue th). split; [unfold get_curthread; kgo; rewrite Hc, (get_thread_bind _ th) by done; done|]. apply wp_done, HQ; try done.
  destruct (pd_thread _ _ _ _ (i_pids _ _ _ _ _ _ _ _ _ _ _ HI1') t th Hth) as [(? & _)|(? & _)]; lia.
Qed.

(** ** All the calls *)

Lemma wp_mips_syscall t tf child k Q m E s :
  I_run t E s → in_call cs (E t) m → curspl (k_cpu s) = 0 → t ≠ BOOT → regs_ok tf →
  (s32 (tf_v0 tf) = SYS_fork → ∀ e r E' s', e ≠ BOOT → r ≠ 0 → E' e = newborn (r, Some (Loaded m)) → I_resume e E' s' →
     wp e (mi_threadstart child) (λ _ _ _, True) E' s') →
  answers m tf (λ m' tf', ∀ E' s', E' t = with_mem (E t) m' → I_run t E' s' → curspl (k_cpu s') = 0 → wp t (k tf') Q E' s') →
  wp t (mips_syscall cs tf child k) Q E s.
Proof.
  intros HI Hp H0 Hb (R1 & R2 & R3 & R4 & R5) Hchild HQ. pose proof (in_call_same _ _ _ Hp) as Hsame.
  unfold mips_syscall, answers in *. cbv zeta in *.
  apply wp_check0; [done|done|]. intros E1 s1 HE1 HI1 Hs1. rewrite <- HE1 in Hp, Hsame, HQ. clear HE1 HI H0.
  assert (∀ err retval m' E' s', E' t = with_mem (E1 t) m' → I_run t E' s' → curspl (k_cpu s') = 0 →
    (∀ E' s', E' t = with_mem (E1 t) m' → I_run t E' s' → curspl (k_cpu s') = 0 → wp t (k (syscall_result tf err retval)) Q E' s') →
    wp t (act_ check_spl0 ;;; k (syscall_result tf err retval)) Q E' s') as Hfin.
  { intros err retval m' E' s' HE' HI' Hs' Hk. apply wp_check0; [done|done|]. intros E2 s2 HE2 HI2 Hs2. apply Hk; [congruence|done|done]. }
  destruct (Z.eqb_spec (s32 (tf_v0 tf)) SYS_reboot); [|destruct (Z.eqb_spec (s32 (tf_v0 tf)) SYS_write);
    [|destruct (Z.eqb_spec (s32 (tf_v0 tf)) SYS_read); [|destruct (Z.eqb_spec (s32 (tf_v0 tf)) SYS_sleep);
    [|destruct (Z.eqb_spec (s32 (tf_v0 tf)) SYS___time); [|destruct (Z.eqb_spec (s32 (tf_v0 tf)) SYS__exit);
    [|destruct (Z.eqb_spec (s32 (tf_v0 tf)) SYS_getpid); [|destruct (Z.eqb_spec (s32 (tf_v0 tf)) SYS_fork);
    [|destruct (Z.eqb_spec (s32 (tf_v0 tf)) SYS_waitpid)]]]]]]]].
  - eapply wp_sys_reboot; [done..|]. intros Hcode. apply (Hfin _ _ m); [done|done|done|]. by apply HQ.
  - eapply wp_sys_write; [done..|]. intros E2 s2 HE2 HI2 Hs2. apply (Hfin _ _ m); [congruence|done|congruence|]. apply HQ.
  - eapply wp_sys_read; [done..|]. intros c E2 s2 Hc HE2 HI2 Hs2. eapply Hfin; [done|done|done|]. by apply HQ.
  - apply wp_bind, wp_clocksleep; [done|apply Hp|]. intros r E2 s2 HE2 HI2 Hs2. apply (Hfin _ _ m); [congruence|done|congruence|]. apply HQ.
  - eapply wp_sys_time; [done..|]. intros sec nsec E2 s2 Hse Hns r HE2 HI2 Hs2. eapply Hfin; [done|done|congruence|]. by apply HQ.
  - by eapply wp_sys_exit.
  - eapply wp_sys_getpid; [done..|]. intros pid E2 s2 Hpid HE2 HI2 Hs2. apply (Hfin _ _ m); [congruence|done|congruence|]. by apply HQ.
  - destruct HQ as (Q1 & Q2 & Q3). eapply wp_sys_fork; [done..|by apply Hchild| |].
    + intros E2 s2 HE2 HI2 Hs2. by apply (Hfin _ _ m); [congruence|..].
    + intros pid E2 s2 Hpid HE2 HI2 Hs2. by apply (Hfin _ _ m); [congruence|..|apply Q2].
  - eapply wp_sys_waitpid; [done..|]. revert HQ. unfold wait_result. repeat case_match.
    + intros W E2 s2 HE2 HI2 Hs2. by eapply Hfin.
    + intros W E2 s2 HE2 HI2 Hs2. by eapply Hfin.
    + intros (W1 & W2 & W3). split; [done|]. split.
      * intros E2 s2 HE2 HI2 Hs2. by eapply Hfin.
      * intros code E2 s2 HE2 HI2 Hs2. by eapply Hfin; [..|apply W3].
  - destruct (unknown_rendered (s32 (tf_v0 tf))) as [text Ht]. apply wp_bind. eapply wp_say; [done..|exact Ht|done|done|].
    intros r E2 s2 HE2 HI2 Hs2. by apply (Hfin _ _ m); [congruence|done|congruence|apply HQ].
Qed.

(** ** The processes themselves *)

(** Making the own address space the active one, once more. *)
Lemma I_run_activate t E s :
  I_run t E s → p_act (E t) = true →
  ∃ s', (th ← get_curthread; k_as_activate (t_vmspace th)) s = Ret (tt, s') ∧ I_run t E s' ∧ k_cpu s' = k_cpu s.
Proof.
  intros (Hc & Hi & Ht0 & ls & lr & lz & HI) Hact. pose proof (i_user _ _ _ _ _ _ _ _ _ _ _ HI) as HU.
  destruct (h_listed _ _ _ _ _ _ _ (i_heap _ _ _ _ _ _ _ _ _ _ _ HI) t ltac:(set_solver)) as [th Hth].
  exists (activated (t_vmspace th) s). split; [|split; [|done]].
  - unfold get_curthread. kgo. rewrite Hc, (get_thread_bind _ th) by done. apply k_as_activate_ok, HI.
  - do 3 (split; [done|]). exists ls, lr, lz. rewrite (uo_space _ _ _ _ _ _ _ HU t th Hth).
    apply Inv_activate; [done|apply (uo_vm _ _ _ _ _ _ _ HU)|]. intros u Hu. by destruct (uo_act _ _ _ _ _ _ _ HU u Hu) as (->%list_elem_of_singleton & _).
Qed.

Lemma wp_usermode t tf user Q E s :
  I_run t E s → curspl (k_cpu s) = 0 →
  (∀ E' s', E' t = E t → I_run t E' s' → curspl (k_cpu s') = 0 → wp t (user tf) Q E' s') →
  wp t (mips_usermode tf user) Q E s.
Proof.
  intros HI H0 HQ. unfold mips_usermode. apply wp_bind. eapply (wp_idle t _ 0); [done|done| |intros; by apply wp_done, HQ].
  intros s' Hc Hs'. by rewrite (K_bind _ _ _ _ _ (rfe_ok s' Hc Hs')).
Qed.

(** A forked process starts with its parent's memory and the result 0. *)
Lemma wp_childProcstub t tf user m r E s :
  I_resume t E s → t ≠ BOOT → r ≠ 0 → E t = newborn (r, Some (Loaded m)) →
  (∀ E' s', in_call cs (E' t) m → I_run t E' s' → curspl (k_cpu s') = 0 →
     wp t (user (syscall_result tf 0 0)) (λ _ E2 s2, I_run t E2 s2 ∧ p_emb (E2 t) = None) E' s') →
  wp t (mi_threadstart (childProcstub tf user)) (λ _ _ _, True) E s.
Proof.
  intros HR Hb Hr HE HQ. eapply wp_mi_threadstart_gen; [done|exact HE|done|]. simpl. rewrite (proj2 (Z.eqb_neq r 0)) by done. cbn [negb].
  intros E1 s1 HE1 HI1 Hs1. unfold childProcstub. apply wp_bind. eapply wp_enter; [done|by intros; rewrite k_splhigh_run|].
  intros E2 s2 HE2 [HI2 Hs2]. apply wp_done, wp_bind, wp_act; [done|]. intros E3 s3 HE3 HI3 Hs3. right.
  destruct (I_run_activate t E3 s3 HI3) as (s4 & Es4 & HI4 & Hc4); [by rewrite HE3, HE2, HE1|].
  eexists _, s4, E3. split; [by rewrite (K_bind _ _ _ _ _ Es4)|]. split; [apply gstep_refl|]. apply wp_done, wp_bind.
  rewrite Hs1. apply wp_leave; [split; [done|congruence]|by left|]. intros q s5 HI5 Hs5.
  apply wp_usermode; [done|done|]. intros E6 s6 HE6 HI6 Hs6. apply HQ; [|done|done].
  rewrite HE6, HE3, HE2, HE1. by split_and!.
Qed.

(** ** What a process does itself *)

Lemma wp_trap_kill t epc code va Q m E s :
  I_run t E s → in_call cs (E t) m → curspl (k_cpu s) = 0 → t ≠ BOOT → (Z.to_nat code < length trapcodenames)%nat →
  wp t (act trap_in ;;; kill_curthread cs epc code va) Q E s.
Proof.
  intros HI Hp H0 Hb Hc. apply wp_bind. eapply (wp_idle t _ 0); [done|done|apply trap_in_ok|].
  intros E1 s1 HE1 HI1 Hs1. apply wp_done. eapply wp_kill; [done| |done|done]. by rewrite HE1.
Qed.

Lemma wp_load t epc va k Q m E s :
  I_run t E s → in_call cs (E t) m → curspl (k_cpu s) = 0 → t ≠ BOOT → is_u32 va →
  (∀ b E' s', va < USERTOP → m va = Some b → E' t = E t → I_run t E' s' → curspl (k_cpu s') = 0 → wp t (k (u8 b)) Q E' s') →
  wp t (b <- act (user_load va) ;;
        if b <? 0 then act trap_in ;;; kill_curthread cs epc (if b =? -1 then EX_TLBL else EX_ADEL) va else k b) Q E s.
Proof.
  intros HI Hp H0 Hb Hva HQ. apply wp_bind, wp_act; [done|]. intros E1 s1 HE1 HI1 Hs1. right.
  assert (in_call cs (E1 t) m) as Hp1 by (by rewrite HE1). pose proof Hp1 as (_ & _ & _ & Hpr & _).
  unfold user_load. destruct (Z.leb_spec USERTOP va) as [Hge|Hlt].
  - exists (-2), s1, E1. split; [done|]. split; [apply gstep_refl|]. apply wp_done. cbn [Z.ltb Z.eqb Z.compare Pos.eqb].
    eapply wp_trap_kill; [done|done|congruence|done|by apply Nat.ltb_lt].
  - destruct (load_byte_ok _ _ _ _ t E1 s1 va m HI1 Hpr Hva) as (s2 & E2 & HI2 & Hc2).
    eexists _, s2, E1. split; [exact E2|]. split; [apply gstep_refl|]. apply wp_done. destruct (m va) as [b|] eqn:Em.
    + rewrite (proj2 (Z.ltb_ge (u8 b) 0)) by (pose proof (Z.mod_pos_bound b 256); unfold u8; lia). apply HQ; congruence || done.
    + cbn [Z.ltb Z.eqb Z.compare Pos.eqb]. eapply wp_trap_kill; [done|done|congruence|done|by apply Nat.ltb_lt].
Qed.

Lemma wp_store t epc va b c Q m E s :
  I_run t E s → in_call cs (E t) m → curspl (k_cpu s) = 0 → t ≠ BOOT → is_u32 va →
  (∀ b0 E' s', va < USERTOP → m va = Some b0 → E' t = with_mem (E t) (mset m va (u8 b)) → I_run t E' s' → curspl (k_cpu s') = 0 →
     wp t c Q E' s') →
  wp t (r <- act (user_store va b) ;;
        if r <? 0 then act trap_in ;;; kill_curthread cs epc (if r =? -1 then EX_TLBS else EX_ADES) va else c) Q E s.
Proof.
  intros HI Hp H0 Hb Hva HQ. apply wp_bind, wp_act; [done|]. intros E1 s1 HE1 HI1 Hs1. right.
  assert (in_call cs (E1 t) m) as Hp1 by (by rewrite HE1). pose proof Hp1 as (_ & _ & _ & Hpr & _).
  unfold user_store. destruct (Z.leb_spec USERTOP va) as [Hge|Hlt].
  - exists (-2), s1, E1. split; [done|]. split; [apply gstep_refl|]. apply wp_done. cbn [Z.ltb Z.eqb Z.compare Pos.eqb].
    eapply wp_trap_kill; [done|done|congruence|done|by apply Nat.ltb_lt].
  - destruct (store_byte_ok _ _ _ _ t E1 s1 va b m HI1 Hpr Hva) as (s2 & E2 & Hc2 & HI2). destruct (m va) as [b0|] eqn:Em.
    + eexists _, s2, _. split; [exact E2|]. split; [apply gstep_mem, (I_run_live _ _ _ _ _ _ _ HI1)|]. apply wp_done. cbn [Z.ltb Z.compare].
      eapply HQ; [done|done|by rewrite upd_eq, HE1|done|congruence].
    + exists (-1), s2, E1. split; [exact E2|]. split; [apply gstep_refl|]. apply wp_done. cbn [Z.ltb Z.eqb Z.compare Pos.eqb].
      eapply wp_trap_kill; [done|done|congruence|done|by apply Nat.ltb_lt].
Qed.

(** The kernel can run every process that follows its memory. *)
Lemma wp_user t u Q m E s :
  follows m u → I_run t E s → in_call cs (E t) m → curspl (k_cpu s) = 0 → t ≠ BOOT → wp t (run_user cs u) Q E s.
Proof.
  revert t Q m E s. induction u as [tf k IH|epc va k IH|epc va b k IH|epc code va|]; intros t Q m E s Hf HI Hp H0 Hb; cbn [run_user].
  - destruct Hf as [Hreg Hans]. apply wp_bind. eapply (wp_idle t _ 0); [done|done|apply trap_in_ok|].
    intros E1 s1 HE1 HI1 Hs1. apply wp_done, wp_check0; [done|done|]. intros E2 s2 HE2 HI2 Hs2.
    assert (in_call cs (E2 t) m) as Hp2 by (by rewrite HE2, HE1).
    eapply wp_mips_syscall; [done|exact Hp2|done|done|done| |].
    + intros Hfork e r E' s' He Hr HE' HR'. eapply wp_childProcstub; [done|done|exact Hr|exact HE'|].
      intros E3 s3 Hp3 HI3 Hs3. eapply IH; [|done|exact Hp3|done|done].
      unfold answers in Hans. rewrite Hfork in Hans. apply Hans.
    + eapply answers_mono; [|exact Hans]. intros m' tf' Hf' E3 s3 HE3 HI3 Hs3. apply wp_bind.
      eapply (wp_idle t _ 0); [done|done| |].
      { intros s' Hc Hs'. by rewrite (K_bind _ _ _ _ _ (trap_out_ok s' Hc Hs')). }
      intros E4 s4 HE4 HI4 Hs4. apply wp_done. eapply IH; [exact Hf'|done| |done|done]. rewrite HE4, HE3. by eapply in_call_mem.
  - destruct Hf as [Hva Hf]. eapply wp_load; [done..|]. intros b E1 s1 Hlt Em HE1 HI1 Hs1. specialize (Hf Hlt). rewrite Em in Hf.
    eapply IH; [exact Hf|done| |done|done]. by rewrite HE1.
  - destruct Hf as [Hva Hf]. eapply wp_store; [done..|]. intros b0 E1 s1 Hlt Em HE1 HI1 Hs1. specialize (Hf Hlt). rewrite Em in Hf.
    eapply IH; [exact Hf|done| |done|done]. rewrite HE1. by eapply in_call_mem.
  - eapply wp_trap_kill; [done..|]. unfold follows, user_trap, EX_ADEL, EX_ADES in Hf. set_unfold in Hf.
    assert (4 ≤ code ≤ 12) by lia. simpl. lia.
  - done.
Qed.
End User.
