(* ===== verification/LoadelfProofs.v ===== *)
(** Loading and running a program is safe.

    [runnable pg] is what a program's file must satisfy: whatever [VOP_READ]
    answers, either [load_elf] refuses the file, or the file describes two
    segments that fit below the stack and the TLB, and the program follows
    ([follows]) the memory that the loader leaves. *)

From Stdlib Require Import ZArith Lia.
From stdpp Require Import base numbers list option gmap.
From S2P Require Import Prelude Errm Libc LibcProofs Printf PrintfProofs.
From S2P Require Import Array Queue Cpu Vm Kernel Thread Machine ThreadOps ThreadInv.
From S2P Require Import Logic SynchProofs SynchRules Lifecycle ForkExit Paging Process ProcessProofs SyscallProofs UserProofs Loadelf.

Open Scope Z_scope.

(** ** What the loader computes *)

(** A loop over the program headers of file [pg]: error code and state. *)
Fixpoint phdr_fold {S} (pg : program) (eh : Elf_Ehdr) (f : Elf_Phdr → S → Z * S) (n : nat) (i : Z) (st : S) : Z * S :=
  match n with
  | O => (0, st)
  | S n' =>
      let '(result, data) := pg_read pg (phdr_offset eh i) SIZEOF_PHDR in
      if negb (result =? 0) then (result, st)
      else if negb (Z.of_nat (length data) =? SIZEOF_PHDR) then (ENOEXEC, st)
      else
        let ph := phdr_of data in
        if (p_type ph =? PT_NULL) || (p_type ph =? PT_PHDR) || (p_type ph =? PT_MIPS_REGINFO)
        then phdr_fold pg eh f n' (i + 1) st
        else if p_type ph =? PT_LOAD then
          let '(r, st') := f ph st in if negb (r =? 0) then (r, st') else phdr_fold pg eh f n' (i + 1) st'
        else (ENOEXEC, st)
  end.

Definition region (ph : Elf_Phdr) (a : addrspace) : Z * addrspace := as_define_region a (p_vaddr ph) (p_memsz ph).

Definition space0 : addrspace := mkAs 0 0 0 0 0 0 0.

Definition moved (m : memory) (dest : Z) (data : list Z) : Z * memory :=
  match data with [] => (0, m) | _ => copied_out m dest data end.

Fixpoint zeroed (fuel : nat) (n dest : Z) (m : memory) : Z * memory :=
  match fuel with
  | O => (0, m)
  | S fuel' =>
      if n <=? 0 then (0, m) else
      let amt := Z.min 16 n in
      let '(r, m') := moved m dest (replicate (Z.to_nat amt) 0) in
      if negb (r =? 0) then (r, m') else zeroed fuel' (n - amt) (dest + amt) m'
  end.

Definition segment (pg : program) (ph : Elf_Phdr) (m : memory) : Z * memory :=
  let filesize := Z.min (p_filesz ph) (p_memsz ph) in
  let '(result, data) := pg_read pg (s32 (p_offset ph)) filesize in
  let '(r, m') := moved m (p_vaddr ph) data in
  if negb (r =? 0) then (r, m')
  else if negb (result =? 0) then (result, m')
  else if negb (Z.of_nat (length data) =? filesize) then (ENOEXEC, m')
  else zeroed (Z.to_nat ((p_memsz ph - filesize) / 16 + 2)) (p_memsz ph - filesize) (p_vaddr ph + filesize) m'.

Definition seg_fits (vb n : Z) : Prop := 0 < vb ∧ 0 < n ∧ vb mod 4096 = 0 ∧ vb + n * 4096 ≤ USERTOP.

(** Two segments that fit below the stack and into the TLB. *)
Definition layout_ok (a : addrspace) : Prop :=
  seg_fits (as_vbase1 a) (as_npages1 a) ∧ seg_fits (as_vbase2 a) (as_npages2 a) ∧
  as_npages1 a + as_npages2 a + DUMBVM_STACKPAGES ≤ Z.of_nat NUM_TLB.

Definition is_errno (r : Z) : Prop := 0 ≤ r < sys_nerr.

(** What the file system promises of a file. *)
Definition file_ok (pg : program) : Prop :=
  is_errno (pg_open pg) ∧
  ∀ off n, 0 ≤ n → is_errno (pg_read pg off n).1 ∧ Z.of_nat (length (pg_read pg off n).2) ≤ n.

Definition runnable (pg : program) : Prop :=
  let hd := pg_read pg 0 SIZEOF_EHDR in
  let eh := ehdr_of hd.2 in
  let n := Z.to_nat (e_phnum eh) in
  let a := (phdr_fold pg eh region n 0 space0).2 in
  hd.1 = 0 → Z.of_nat (length hd.2) = SIZEOF_EHDR → elf_check eh = true →
  (phdr_fold pg eh region n 0 space0).1 = 0 →
  layout_ok a ∧
  ∀ m, (∀ v, is_Some (m v) ↔ is_Some (translate a v)) →
    (phdr_fold pg eh (segment pg) n 0 m).1 = 0 →
    follows (phdr_fold pg eh (segment pg) n 0 m).2 (pg_main pg USERSTACK (mkTf 0 0 0 0 0 (e_entry eh))).

(** ** Lemmas *)

Lemma errno_message r : is_errno r → ∃ msg, strerror r = Ret msg ∧ Z.of_nat (length msg) < 2147483648.
Proof.
  unfold is_errno, strerror, sys_nerr. intros Hr. rewrite (proj2 (Z.leb_le 0 r)), (proj2 (Z.ltb_lt r 28)) by lia. cbn [andb].
  destruct (lookup_lt_is_Some_2 sys_errlist (Z.to_nat r)) as [msg Hm]; [change (length sys_errlist) with 28%nat; lia|].
  rewrite Hm. exists msg. split; [done|].
  assert (Forall (λ l, Z.of_nat (length l) < 2147483648) sys_errlist) as HF by (repeat constructor).
  by eapply (Forall_lookup_1 _ _ _ _ HF).
Qed.

Lemma field_range l i n : 0 ≤ field l i n < 256 ^ Z.of_nat n.
Proof.
  unfold field. assert (∀ k x b, 0 ≤ x < b → 0 ≤ foldl (λ x b, x * 256 + u8 b) x k < b * 256 ^ Z.of_nat (length k)) as H.
  { induction k as [|c k IH]; intros x b Hx; simpl; [lia|].
    specialize (IH (x * 256 + u8 c) (b * 256)). rewrite Nat2Z.inj_succ, Z.pow_succ_r, Z.mul_assoc by lia. apply IH.
    pose proof (Z.mod_pos_bound c 256). unfold u8. lia. }
  specialize (H (take n (drop i l)) 0 1 ltac:(lia)). rewrite Z.mul_1_l in H. split; [lia|].
  eapply Z.lt_le_trans; [apply H|]. apply Z.pow_le_mono_r; [lia|]. rewrite length_take. lia.
Qed.

Definition phdr_wf (ph : Elf_Phdr) : Prop := is_u32 (p_vaddr ph) ∧ is_u32 (p_filesz ph) ∧ is_u32 (p_memsz ph).

Lemma phdr_of_wf l : phdr_wf (phdr_of l).
Proof. unfold phdr_wf, is_u32, phdr_of; simpl. pose proof (field_range l 8 4). pose proof (field_range l 16 4). pose proof (field_range l 20 4). done. Qed.

Lemma region_raw ph a :
  as_pbase1 a = 0 ∧ as_pbase2 a = 0 ∧ as_stackpbase a = 0 →
  let a' := (region ph a).2 in as_pbase1 a' = 0 ∧ as_pbase2 a' = 0 ∧ as_stackpbase a' = 0.
Proof. intros (? & ? & ?). unfold region, as_define_region. repeat case_match; done. Qed.

Lemma region_errno ph a : is_errno (region ph a).1.
Proof. unfold region, as_define_region. repeat case_match; simpl; unfold is_errno, sys_nerr, EUNIMP; lia. Qed.

Lemma phdr_fold_inv {S} pg eh (f : Elf_Phdr → S → Z * S) (P : S → Prop) n i st :
  (∀ ph st, P st → P (f ph st).2) → P st → P (phdr_fold pg eh f n i st).2.
Proof.
  intros Hf. revert i st. induction n as [|n IH]; intros i st HP; simpl; [done|].
  destruct (pg_read pg (phdr_offset eh i) SIZEOF_PHDR) as [result data]. repeat case_match; try done; [by apply IH|..].
  - pose proof (Hf (phdr_of data) st HP) as H'. by rewrite H3 in H'.
  - apply IH. pose proof (Hf (phdr_of data) st HP) as H'. by rewrite H3 in H'.
Qed.

Lemma phdr_fold_errno {S} pg eh (f : Elf_Phdr → S → Z * S) n i st :
  file_ok pg → (∀ ph st, phdr_wf ph → is_errno (f ph st).1) → is_errno (phdr_fold pg eh f n i st).1.
Proof.
  intros [_ Hfile] Hf. revert i st. induction n as [|n IH]; intros i st; simpl; [unfold is_errno, sys_nerr; lia|].
  destruct (Hfile (phdr_offset eh i) SIZEOF_PHDR) as [Hr _]; [unfold SIZEOF_PHDR; lia|].
  pose proof (Hf (phdr_of (pg_read pg (phdr_offset eh i) SIZEOF_PHDR).2) st (phdr_of_wf _)) as Hs.
  destruct (pg_read pg (phdr_offset eh i) SIZEOF_PHDR) as [result data]. cbn [fst snd] in *.
  destruct (negb (result =? 0)); [done|]. destruct (negb _); [done|]. destruct (_ || _); [apply IH|]. destruct (_ =? _); [|done].
  destruct (f (phdr_of data) st) as [r st']. destruct (negb (r =? 0)); [done|apply IH].
Qed.

Lemma mapped_at f a v : is_Some (translate (as_at f a) v) ↔ is_Some (translate a v).
Proof. unfold translate, as_at; simpl. repeat case_match; split; intros; eauto. Qed.

Lemma layout_wf f lim a : 
  layout_ok a → 0 < f → f mod 4096 = 0 → f + as_size a ≤ lim ≤ 532676608 → space_wf lim (as_at f a).
Proof.
  unfold layout_ok, seg_fits, as_size, DUMBVM_STACKPAGES. intros ((A1 & A2 & A3 & A4) & (B1 & B2 & B3 & B4) & Hp) H0 Hf Hl.
  unfold space_wf, as_wf, seg_wf, as_at, stackbase, USERSTACK, USERTOP, MIPS_KSEG0, DUMBVM_STACKPAGES, PAGE_SIZE in *. simpl.
  split; [|split; [done|]]; [|apply unshared_at; split; lia].
  assert (∀ k, (f + k * 4096) mod 4096 = 0) as Hk by (intros k; by rewrite Z_mod_plus_full).
  split_and!; try lia; try done.
  rewrite <- Z.add_assoc, <- Z.mul_add_distr_r. apply Hk.
Qed.

Lemma tlb_empty_lookup t v : tlb_empty t → tlb_lookup t v = None.
Proof.
  induction t as [|[hi lo] t IH]; intros H; simpl; [done|]. rewrite (H 0%nat hi lo eq_refl). simpl. rewrite andb_false_r.
  apply IH. intros i h l Hi. by apply (H (S i) h l).
Qed.

Definition with_content (p : priv) (c : content) : priv :=
  mkPriv (p_stat p) (p_emb p) (p_held p) (p_int p) (p_node p) (p_space p) (Some c) (p_kid p) (p_act p).

(** The record of one's own address space changes, before it is used. *)
Lemma user_ok_own rs lz E m nxt tl u t b c :
  user_ok rs lz E m nxt tl u → p_act (E t) = true → tlb_empty tl → holds u b c → p_space (E t) < nxt →
  (∀ m', c = Loaded m' → ∀ x mx ax, x ≠ t → p_mem (E x) = Some (Loaded mx) → u_spaces u !! p_space (E x) = Some ax →
     apart b ax ∧ apart ax b) →
  user_ok rs lz (upd E t (with_content (E t) c)) m nxt tl (with_spaces (λ sp, <[p_space (E t) := b]> sp) u).
Proof.
  intros [U1 U2 U3 Uq U4 U5 (U6 & U6' & U6'') U7 [U8 U8'] U9 Un] Hact Hemp Hh Hlt Hap. set (E' := upd E t _).
  assert (∀ x, p_space (E' x) = p_space (E x) ∧ p_act (E' x) = p_act (E x)) as Hs.
  { intros x. unfold E', upd. by destruct (Z.eqb_spec x t) as [->|]. }
  assert (E' t = with_content (E t) c) as Et by (unfold E'; by rewrite upd_eq).
  assert (∀ x, x ≠ t → E' x = E x) as Eo by (intros x Hx; unfold E'; by rewrite upd_ne).
  destruct (U5 t Hact) as (Ht & Hne & Hac).
  assert (∀ x ax, x ≠ t → p_mem (E x) ≠ None → <[p_space (E t) := b]> (u_spaces u) !! p_space (E x) = Some ax →
    u_spaces u !! p_space (E x) = Some ax) as Hlook.
  { intros x ax Hx _. rewrite lookup_insert_ne; [done|]. intros E1. by apply (Uq t x). }
  split; simpl; try done.
  - intros x th Hth. rewrite (proj1 (Hs x)). by apply U1.
  - intros x cx Hx. rewrite (proj1 (Hs x)). destruct (Z.eq_dec x t) as [->|Hxt].
    + rewrite Et in Hx. injection Hx as <-. split; [done|]. exists b. rewrite lookup_insert_eq. split; [done|]. by destruct c.
    + rewrite Eo in Hx by done. destruct (U3 x cx Hx) as (Hnx & ax & Hax & Hhx). split; [done|]. exists ax.
      rewrite lookup_insert_ne by (intros E1; by apply (Uq t x)). split; [done|]. by destruct cx.
  - intros x y. rewrite (proj1 (Hs x)), (proj1 (Hs y)). apply Uq.
  - intros x y m1 m2 a1 a2 Hxy Hx Hy. rewrite (proj1 (Hs x)), (proj1 (Hs y)).
    destruct (Z.eq_dec x t) as [->|Hxt], (Z.eq_dec y t) as [->|Hyt]; [done|..].
    + rewrite Et in Hx. rewrite Eo in Hy by done. injection Hx as Hc. rewrite lookup_insert_eq. intros [= <-] Ha2.
      apply Hlook in Ha2; [|done|congruence]. by apply (Hap m1 Hc y m2 a2).
    + rewrite Et in Hy. rewrite Eo in Hx by done. injection Hy as Hc. rewrite lookup_insert_eq. intros Ha1 [= <-].
      apply Hlook in Ha1; [|done|congruence]. by apply (Hap m2 Hc x m1 a1).
    + rewrite Eo in Hx, Hy by done. intros Ha1 Ha2. apply Hlook in Ha1; [|done|congruence]. apply Hlook in Ha2; [|done|congruence].
      by apply (U4 x y m1 m2).
  - intros x. rewrite (proj1 (Hs x)), (proj2 (Hs x)). apply U5.
  - split; [done|]. split; [done|]. intros a. rewrite Hac, lookup_insert_eq. intros [= <-]. split; [|done].
    split; [done|]. intros v p _. by rewrite tlb_empty_lookup.
  - split; [done|]. intros x. rewrite lookup_insert_is_Some. intros [<-|[_ Hx]]; [done|by apply U8'].
  - intros x. rewrite (proj1 (Hs x)). apply U9.
  - intros x. rewrite (proj1 (Hs x)). destruct (Z.eq_dec x t) as [->|Hx]; [rewrite Et; simpl; eauto|rewrite Eo by done; apply Un].
Qed.

(** ** What is mapped stays mapped *)

Definition keeps_mapped (m m' : memory) : Prop := ∀ v, is_Some (m v) → is_Some (m' v).

Lemma write_bytes_keeps m d l : keeps_mapped m (write_bytes m d l).2.
Proof.
  revert m d. induction l as [|b l IH]; intros m d v Hv; simpl; [done|]. destruct (m d); [|done]. apply IH.
  unfold mset. by destruct (v =? d).
Qed.

Lemma moved_keeps m d l : keeps_mapped m (moved m d l).2.
Proof. unfold moved, copied_out. destruct l; [by intros v|]. destruct (decide _); [apply write_bytes_keeps|by intros v]. Qed.

Lemma zeroed_keeps fuel n d m : keeps_mapped m (zeroed fuel n d m).2.
Proof.
  revert n d m. induction fuel as [|fuel IH]; intros n d m v Hv; simpl; [done|]. destruct (n <=? 0); [done|].
  pose proof (moved_keeps m d (replicate (Z.to_nat (Z.min 16 n)) 0) v Hv) as H1. destruct (moved m d _) as [r m1].
  destruct (negb (r =? 0)); [done|by apply IH].
Qed.

Lemma segment_keeps pg ph m : keeps_mapped m (segment pg ph m).2.
Proof.
  intros v Hv. unfold segment. destruct (pg_read pg _ _) as [result data].
  pose proof (moved_keeps m (p_vaddr ph) data v Hv) as H1. destruct (moved m (p_vaddr ph) data) as [r m1].
  destruct (negb (r =? 0)); [done|]. destruct (negb (result =? 0)); [done|]. destruct (negb _); [done|]. by apply zeroed_keeps.
Qed.

Lemma load_keeps pg eh n i m : keeps_mapped m (phdr_fold pg eh (segment pg) n i m).2.
Proof.
  apply (phdr_fold_inv pg eh (segment pg) (keeps_mapped m)); [|by intros v].
  intros ph m' H v Hv. apply segment_keeps, H, Hv.
Qed.

(** A thread gets an empty address space. *)
Definition with_new_space (p : priv) (x : Z) : priv :=
  mkPriv (p_stat p) (p_emb p) (p_held p) (p_int p) (p_node p) x (Some (Raw space0)) (p_kid p) false.

Lemma user_ok_create lz E m nxt nxt' tl u t th :
  user_ok [t] lz E m nxt' tl u → m !! t = Some th → t ∉ lz → 0 < nxt < nxt' →
  u_active u < nxt → (∀ x, p_space (E x) < nxt) →
  user_ok [t] lz (upd E t (with_new_space (E t) nxt)) (<[t := with_vmspace nxt th]> m) nxt' tl
    (with_spaces (λ sp, <[nxt := space0]> sp) u).
Proof.
  intros [U1 U2 U3 Uq U4 U5 (U6 & U6' & U6'') U7 [U8 U8'] _ Un] Hth Hlz Hn Ha U9. set (E' := upd E t _).
  assert (E' t = with_new_space (E t) nxt) as Et by (unfold E'; by rewrite upd_eq).
  assert (∀ x, x ≠ t → E' x = E x) as Eo by (intros x Hx; unfold E'; by rewrite upd_ne).
  assert (∀ x ax, <[nxt := space0]> (u_spaces u) !! p_space (E x) = Some ax → u_spaces u !! p_space (E x) = Some ax) as Hlook.
  { intros x ax. rewrite lookup_insert_ne; [done|]. specialize (U9 x). lia. }
  split; simpl; try done.
  - intros x thx. rewrite lookup_insert_Some. intros [[<- <-]|[Hx Hthx]]; [by rewrite Et|]. rewrite Eo by done. by apply U1.
  - intros x thx Hx. rewrite lookup_insert_ne by congruence. by apply U2.
  - intros x c Hx. destruct (Z.eq_dec x t) as [->|Hxt].
    + rewrite Et in *. injection Hx as <-. simpl. split; [lia|]. exists space0. by rewrite lookup_insert_eq.
    + rewrite Eo in * by done. destruct (U3 x c Hx) as (Hnx & ax & Hax & Hh). split; [done|]. exists ax.
      rewrite lookup_insert_ne by (specialize (U9 x); lia). split; [done|]. by destruct c.
  - intros x y Hxy. destruct (Z.eq_dec x t) as [->|Hx], (Z.eq_dec y t) as [->|Hy]; [done|..]; rewrite ?Et, ?Eo by done; simpl;
      [specialize (U9 y)|specialize (U9 x)|]; [lia|lia|by apply Uq].
  - intros x y m1 m2 a1 a2 Hxy Hx Hy.
    destruct (Z.eq_dec x t) as [->|Hxt]; [by rewrite Et in Hx|]. destruct (Z.eq_dec y t) as [->|Hyt]; [by rewrite Et in Hy|].
    rewrite Eo in * by done. rewrite Eo in * by done. intros Ha1%Hlook Ha2%Hlook. by apply (U4 x y m1 m2).
  - intros x. destruct (Z.eq_dec x t) as [->|Hxt]; [by rewrite Et|]. rewrite Eo by done. apply U5.
  - split; [done|]. split; [done|]. intros a. rewrite lookup_insert_ne by lia. apply U6''.
  - split; [lia|]. intros x. rewrite lookup_insert_is_Some. intros [<-|[_ Hx]]; [lia|]. specialize (U8' x Hx). lia.
  - intros x. destruct (Z.eq_dec x t) as [->|Hxt]; [rewrite Et; simpl; lia|]. rewrite Eo by done. specialize (U9 x). lia.
  - intros x. destruct (Z.eq_dec x t) as [->|Hxt]; [rewrite Et; simpl; eauto|rewrite Eo by done; apply Un].
Qed.

Lemma segment_errno pg ph m : file_ok pg → phdr_wf ph → is_errno (segment pg ph m).1.
Proof.
  intros [_ Hfile] (_ & H1 & H2). assert (∀ m d l, is_errno (moved m d l).1) as Hmv.
  { intros m' d l. unfold moved, copied_out, is_errno, sys_nerr. destruct l; [simpl; lia|]. destruct (decide _); [|simpl; unfold EFAULT; lia].
    generalize (z :: l). intros l'. clear. revert m' d. induction l' as [|b l' IH]; intros m' d; simpl; [lia|]. destruct (m' d); [apply IH|simpl; unfold EFAULT; lia]. }
  assert (∀ fuel n d m, is_errno (zeroed fuel n d m).1) as Hz.
  { induction fuel as [|fuel IH]; intros n d m'; simpl; [unfold is_errno, sys_nerr; lia|]. destruct (n <=? 0); [unfold is_errno, sys_nerr; simpl; lia|].
    specialize (Hmv m' d (replicate (Z.to_nat (Z.min 16 n)) 0)). destruct (moved m' d _) as [r m2]. by destruct (negb (r =? 0)). }
  unfold segment. destruct (Hfile (s32 (p_offset ph)) (Z.min (p_filesz ph) (p_memsz ph))) as [Hr _]; [unfold is_u32 in *; lia|].
  destruct (pg_read pg _ _) as [result data]. specialize (Hmv m (p_vaddr ph) data). destruct (moved m (p_vaddr ph) data) as [r m1]. cbn [fst] in *.
  destruct (negb (r =? 0)); [done|]. destruct (negb (result =? 0)); [done|]. destruct (negb _); [done|]. apply Hz.
Qed.

Section Load.
Context (SEMS LOCKS CVS : gset Z) (BOOT : Z).

#[local] Abbreviation Inv := (Inv SEMS LOCKS CVS BOOT).
#[local] Abbreviation I_run := (I_run SEMS LOCKS CVS BOOT).
#[local] Abbreviation I_resume := (I_resume SEMS LOCKS CVS BOOT).
#[local] Abbreviation wp := (wp SEMS LOCKS CVS BOOT).

(** ** The new address space *)

(** What is known of the address space of a thread that loads a program. *)
Lemma own_record t E s c :
  I_run t E s → p_act (E t) = true → p_mem (E t) = Some c →
  ∃ th a, k_curthread s = t ∧ k_threads s !! t = Some th ∧ t_vmspace th = p_space (E t) ∧ p_space (E t) < k_next s ∧
    u_spaces (k_user s) !! p_space (E t) = Some a ∧ holds (k_user s) a c ∧
    curspace s = Ret (Some a, s) ∧ (as_stackpbase a = 0 → tlb_empty (k_tlb s)).
Proof.
  intros (Hc & _ & _ & ls & lr & lz & HI) Hact Hm. pose proof (i_user _ _ _ _ _ _ _ _ _ _ _ HI) as [U1 U2 U3 Uq U4 U5 (U6 & U6' & U6'') U7 U8 U9 Un].
  destruct (h_listed _ _ _ _ _ _ _ (i_heap _ _ _ _ _ _ _ _ _ _ _ HI) t ltac:(set_solver)) as [th Hth].
  destruct (U5 t Hact) as (_ & Hne & Hac). destruct (U3 t c Hm) as (_ & a & Ha & Hh). rewrite Hac in U6''.
  exists th, a. split; [done|]. split; [done|]. split; [by apply U1|]. split; [apply U9|]. split; [done|]. split; [done|]. split; [|by apply U6''].
  unfold curspace, get_curthread. kgo. rewrite Hc, (get_thread_bind _ th) by done.
  rewrite (U1 t th Hth), (proj2 (Z.eqb_neq _ _)) by done. kgo. done.
Qed.

Lemma I_run_content t E s c u :
  I_run t E s →
  (∀ lz, user_ok [t] lz E (k_threads s) (k_next s) (k_tlb s) (k_user s) →
     user_ok [t] lz (upd E t (with_content (E t) c)) (k_threads s) (k_next s) (k_tlb s) u) →
  I_run t (upd E t (with_content (E t) c)) (set_user u s).
Proof.
  intros HI Hu. replace (set_user u s) with (set_user u (set_ktlb (k_tlb s) s)) by (by destruct s).
  by apply I_run_ghost.
Qed.

Lemma k_as_define_region_ok t E s ph a :
  I_run t E s → p_act (E t) = true → p_mem (E t) = Some (Raw a) → as_stackpbase a = 0 →
  ∃ s', k_as_define_region (p_vaddr ph) (p_memsz ph) s = Ret ((region ph a).1, s') ∧ k_cpu s' = k_cpu s ∧
    I_run t (upd E t (with_content (E t) (Raw (region ph a).2))) s'.
Proof.
  intros HI Hact Hm H0. destruct (own_record t E s _ HI Hact Hm) as (th & a0 & Hc & Hth & Hv & Hlt & Ha & Hh & Hcur & Hemp).
  destruct Hh as [-> _]. unfold region. destruct (as_define_region a (p_vaddr ph) (p_memsz ph)) as [r a'] eqn:Er.
  eexists. split; [|split; [|apply I_run_content; [done|]]].
  - unfold k_as_define_region, get_curthread. kgo. rewrite Hc, (get_thread_bind _ th), (K_bind _ _ _ _ _ Hcur) by done. kgo.
    rewrite Er. unfold put_space. kgo. rewrite Hv. done.
  - done.
  - intros lz HU. simpl. apply user_ok_own; [done|done|by apply Hemp| |done|done]. split; [done|].
    revert Er. unfold as_define_region. repeat case_match; intros [= <- <-]; done.
Qed.

Lemma k_as_prepare_load_ok t E s a :
  I_run t E s → p_act (E t) = true → p_mem (E t) = Some (Raw a) →
  as_pbase1 a = 0 ∧ as_pbase2 a = 0 ∧ as_stackpbase a = 0 → layout_ok a →
  ∃ r s' c, k_as_prepare_load s = Ret (r, s') ∧ k_cpu s' = k_cpu s ∧ I_run t (upd E t (with_content (E t) c)) s' ∧
    ((r = ENOMEM) ∨ (r = 0 ∧ ∃ m, c = Loaded m ∧ ∀ v, is_Some (m v) ↔ is_Some (translate a v))).
Proof.
  intros HI Hact Hm (Z1 & Z2 & Z3) Hlay. destruct (own_record t E s _ HI Hact Hm) as (th & a0 & Hc & Hth & Hv & Hlt & Ha & Hh & Hcur & Hemp).
  destruct Hh as [-> _]. specialize (Hemp Z3).
  pose proof HI as (_ & _ & _ & ls & lr & lz & HI'). pose proof (i_user _ _ _ _ _ _ _ _ _ _ _ HI') as HU0.
  pose proof (uo_ram _ _ _ _ _ _ _ HU0) as Hram. pose proof Hram as (R1 & R2 & R3). pose proof (i_cpu _ _ _ _ _ _ _ _ _ _ _ HI') as Hcpu.
  assert (sizes_ok a) as Hsz.
  { destruct Hlay as ((_ & A & _) & (_ & B & _) & Hp). unfold sizes_ok, DUMBVM_STACKPAGES, NUM_TLB in *. lia. }
  set (u2 f := with_ram f (u_lastpaddr (k_user s)) (u_pmem (k_user s)) (k_user s)).
  assert (∀ r a' f, as_prepare_load a (vm_of s) = Ret (r, a', set_ram (vm_of s) f (u_lastpaddr (k_user s))) →
    k_as_prepare_load s = Ret (r, set_user (with_spaces (λ sp, <[p_space (E t) := a']> sp) (u2 f)) s)) as Hrun.
  { intros r a' f Ep. unfold k_as_prepare_load, get_curthread. kgo. rewrite Hc, (get_thread_bind _ th), (K_bind _ _ _ _ _ Hcur) by done. kgo.
    assert (klift_vm (as_prepare_load a) s = Ret ((r, a'), set_user (u2 f) s)) as El.
    { unfold klift_vm. rewrite Ep, mbind_Ret. by destruct s. }
    rewrite (K_bind _ _ _ _ _ El). unfold put_space. kgo. rewrite Hv. done. }
  assert (∀ f lz, user_ok [t] lz E (k_threads s) (k_next s) (k_tlb s) (k_user s) → u_firstpaddr (k_user s) ≤ f ≤ u_lastpaddr (k_user s) →
    f mod 4096 = 0 → user_ok [t] lz E (k_threads s) (k_next s) (k_tlb s) (u2 f)) as Hgrow.
  { intros f lz' HU Hf Hf0. eapply user_ok_grow; [exact HU|done|lia| |simpl; lia|done|done|apply (uo_fresh _ _ _ _ _ _ _ HU)].
    unfold ram_ok; simpl. split_and!; try done; lia. }
  destruct (as_prepare_load_ok a (vm_of s)) as [[Hfit Ep]|(a' & f & Ep & Hf & Hf0 & Hs0)]; [by apply ram_wf_of|done|done|done|done|..];
    cbn [vm_of firstpaddr lastpaddr] in *.
  - set (f := u_firstpaddr (k_user s)) in *. set (b := as_at f a).
    exists 0, (set_user (with_spaces (λ sp, <[p_space (E t) := b]> sp) (u2 (f + as_size a))) s), (Loaded (λ v, u_pmem (k_user s) <$> translate b v)).
    split; [by apply Hrun|]. split; [done|]. split; [|right; split; [done|eexists; split; [done|]]].
    + apply I_run_content; [done|]. intros lz' HU. assert (space_wf (f + as_size a) b) as Hwf by (apply layout_wf; [done|lia|done|lia]).
      apply user_ok_own; [|done|done|done|done|].
      * apply Hgrow; [done|unfold as_size, DUMBVM_STACKPAGES, sizes_ok in *; lia|]. unfold as_size. rewrite <- !Z.mul_add_distr_r, Z_mod_plus_full. done.
      * intros m' _ x mx ax Hx Hmx Hax. destruct (uo_valid _ _ _ _ _ _ _ HU x _ Hmx) as (_ & ax' & Hax' & (Hwfx & _) & _). simpl in Hax. simplify_eq.
        assert (∀ w1 w2 p, translate b w1 = Some p → translate ax w2 = Some p → False) as Hap.
        { intros w1 w2 p H1 H2. destruct (translate_range _ _ _ _ Hwfx H2) as [_ Hl]. apply translate_at in H1. fold f in Hl. unfold sizes_ok in Hsz. lia. }
        split; [exact Hap|]. intros w1 w2 p H1 H2. by eapply Hap.
    + intros v. rewrite fmap_is_Some. apply mapped_at.
  - exists ENOMEM, (set_user (with_spaces (λ sp, <[p_space (E t) := a']> sp) (u2 f)) s), (Raw a').
    split; [by apply Hrun|]. split; [done|]. split; [|by left]. apply I_run_content; [done|]. intros lz' HU.
    apply user_ok_own; [by apply Hgrow|done|done|by split|done|done].
Qed.

(** ** Writing the segments *)

Context (cs : condev) (Hlock : kprintf_lock cs ∈ LOCKS) (Hw : cs_wsem cs ∈ SEMS) (Hrd : cs_rsem cs ∈ SEMS).

Lemma moved_range m dest data : (moved m dest data).1 = 0 → is_u32 dest → is_u32 (dest + Z.of_nat (length data)).
Proof.
  unfold moved. destruct data as [|b l]; intros Hr Hd; [by rewrite Z.add_0_r|]. unfold copied_out in Hr.
  destruct (decide (user_range dest (Z.of_nat (length (b :: l))))) as [(? & ?)|]; [|done]. unfold is_u32, USERTOP, MIPS_KSEG0 in *. lia.
Qed.

(** A thread that loads a program, at level zero. *)
Definition filling (t : Z) (p : priv) (c : content) (E : ghost) (s : kstate) : Prop :=
  E t = with_content p c ∧ I_run t E s ∧ curspl (k_cpu s) = 0.

Definition loading (t : Z) (p : priv) (m : memory) : ghost → kstate → Prop := filling t p (Loaded m).

Context (t : Z) (p : priv) (Hemb : p_emb p = None) (Hint : p_int p = 0) (Hkid : p_kid p = (0, None)) (Hact : p_act p = true)
  (Hheld : kprintf_lock cs ∉ p_held p) (Hnode : p_node p = None).

Lemma loading_call m E s : loading t p m E s → in_call cs (E t) m.
Proof. intros (-> & _). by split_and!. Qed.

Lemma filling_next c E s E' s' :
  filling t p c E s → E' t = E t → I_run t E' s' → curspl (k_cpu s') = curspl (k_cpu s) → filling t p c E' s'.
Proof. intros (HE & _ & Hs) HE' HI' Hs'. split; [congruence|split; [done|congruence]]. Qed.

Lemma wp_filling_say fmt args text k Q c E s :
  rendered fmt args = Ret text → filling t p c E s → (∀ E' s', filling t p c E' s' → wp t k Q E' s') →
  wp t (kprintf cs fmt args ;;; k) Q E s.
Proof.
  intros Hren HL HQ. pose proof HL as (HE & HI & _). apply wp_bind.
  eapply wp_kprintf; [done..|exact Hren|done|by rewrite HE|by rewrite HE|]. intros q E2 s2 HE2 HI2 Hs2. apply HQ. by eapply filling_next.
Qed.

Lemma wp_uio_out data dest k Q m E s :
  loading t p m E s → is_u32 dest → is_u32 (Z.of_nat (length data)) →
  (∀ E' s', loading t p (moved m dest data).2 E' s' → wp t (k (moved m dest data).1) Q E' s') →
  wp t (uio_out data dest k) Q E s.
Proof.
  intros HL Hd Hn HQ. unfold uio_out, moved in *. destruct data as [|b l]; [by apply HQ|].
  pose proof (loading_call _ _ _ HL) as (_ & _ & _ & Hpr & _). destruct HL as (HE & HI & Hs). eapply wp_copyout; [done|exact Hpr|done|done|].
  intros E1 s1 HE1 HI1 Hs1. apply HQ. split; [|split; [done|congruence]]. by rewrite HE1, HE.
Qed.

Lemma wp_uio_zeros fuel n dest k Q m E s :
  loading t p m E s → is_u32 dest → n ≤ 16 * (Z.of_nat fuel - 1) → (0 < fuel)%nat →
  (∀ E' s', loading t p (zeroed fuel n dest m).2 E' s' → wp t (k (zeroed fuel n dest m).1) Q E' s') →
  wp t (uio_zeros fuel n dest k) Q E s.
Proof.
  revert n dest m E s. induction fuel as [|fuel IH]; intros n dest m E s HL Hd Hn Hf HQ; [lia|]. cbn [uio_zeros zeroed] in *.
  destruct (Z.leb_spec n 0) as [H0|H0]; [by apply HQ|].
  assert (Z.of_nat (length (replicate (Z.to_nat (Z.min 16 n)) 0)) = Z.min 16 n) as Hlen by (rewrite length_replicate; lia).
  eapply wp_uio_out; [done|done|rewrite Hlen; unfold is_u32; lia|]. intros E1 s1 HL1.
  pose proof (moved_range m dest (replicate (Z.to_nat (Z.min 16 n)) 0)) as Hmv. rewrite Hlen in Hmv.
  destruct (moved m dest (replicate (Z.to_nat (Z.min 16 n)) 0)) as [r m1]. simpl in *.
  destruct (Z.eqb_spec r 0) as [->|]; cbn [negb] in *; [|by apply HQ].
  destruct fuel as [|fuel]; [simpl in Hn; lia|]. eapply (IH (n - Z.min 16 n)); [exact HL1|by apply Hmv|lia|lia|done].
Qed.

Lemma wp_load_segment pg ph k Q m E s :
  loading t p m E s → phdr_wf ph → file_ok pg →
  (∀ E' s', loading t p (segment pg ph m).2 E' s' → wp t (k (segment pg ph m).1) Q E' s') →
  wp t (load_segment cs pg (s32 (p_offset ph)) (p_vaddr ph) (p_memsz ph) (p_filesz ph) k) Q E s.
Proof.
  intros HL (Hva & Hfs & Hms) (_ & Hfile) HQ. unfold load_segment, segment in *.
  set (filesize := Z.min (p_filesz ph) (p_memsz ph)) in *.
  assert (∀ E s, loading t p m E s → wp t (load_bytes cs pg (s32 (p_offset ph)) (p_vaddr ph) (p_memsz ph) filesize k) Q E s) as Hload.
  { clear HL E s. intros E s HL. unfold load_bytes. destruct (Hfile (s32 (p_offset ph)) filesize) as [_ Hlen]; [unfold filesize, is_u32 in *; lia|].
    destruct (pg_read pg (s32 (p_offset ph)) filesize) as [result data]. simpl in Hlen.
    eapply wp_uio_out; [done|done|unfold filesize, is_u32 in *; lia|]. intros E1 s1 HL1. pose proof (moved_range m (p_vaddr ph) data) as Hmv.
    destruct (moved m (p_vaddr ph) data) as [r m1]. cbn [fst snd] in *.
    destruct (Z.eqb_spec r 0) as [->|]; cbn [negb] in *; [|by apply HQ]. destruct (result =? 0); cbn [negb] in *; [|by apply HQ].
    destruct (Z.eqb_spec (Z.of_nat (length data)) filesize) as [Hl|]; cbn [negb] in *.
    - destruct (Z.ltb_spec 0 (p_memsz ph - filesize)) as [Hp|Hp].
      + eapply wp_uio_zeros; [done|rewrite <- Hl; by apply Hmv| |pose proof (Z.div_pos (p_memsz ph - filesize) 16); lia|done].
        pose proof (Z.div_mod (p_memsz ph - filesize) 16). pose proof (Z.mod_pos_bound (p_memsz ph - filesize) 16). lia.
      + assert (p_memsz ph - filesize = 0) as E0 by (unfold filesize in *; lia). rewrite E0 in HQ. by apply HQ.
    - eapply (wp_filling_say _ _ _ _ _ (Loaded _)); [apply lit_rendered; by repeat constructor|done|done]. }
  destruct (Z.ltb_spec (p_memsz ph) (p_filesz ph)) as [Hlt|Hge].
  - eapply (wp_filling_say _ _ _ _ _ (Loaded _)); [apply lit_rendered; by repeat constructor|done|]. intros E2 s2 HL2.
    replace (p_memsz ph) with filesize at 2 by (unfold filesize; lia). by apply Hload.
  - replace (p_filesz ph) with filesize by (unfold filesize; lia). by apply Hload.
Qed.

(** ** The loops over the program headers *)

Lemma unknown_segment_rendered z : ∃ text, rendered segment_type_text [AInt z] = Ret text.
Proof.
  set (ps := (PLit <$> [108; 111; 97; 100; 101; 108; 102; 58; 32; 117; 110; 107; 110; 111; 119; 110; 32;
    115; 101; 103; 109; 101; 110; 116; 32; 116; 121; 112; 101; 32]) ++ [PNum plain Cd z; PLit 10]).
  exists (text_of ps). assert (segment_type_text = format_of ps ∧ [AInt z] = args_of ps) as [-> ->] by (split; reflexivity). apply rendered_ok.
  repeat (apply Forall_cons; split; [done|]). by apply Forall_nil.
Qed.

Lemma wp_each_phdr {S} pg eh (f : Elf_Phdr → S → Z * S) (g : S → content) (P : S → Prop) body n i k Q st E s :
  (∀ ph k Q st E s, phdr_wf ph → P st → filling t p (g st) E s →
     (∀ E' s', filling t p (g (f ph st).2) E' s' → wp t (k (f ph st).1) Q E' s') → wp t (body ph k) Q E s) →
  (∀ ph st, P st → P (f ph st).2) → P st → filling t p (g st) E s →
  (∀ E' s', filling t p (g (phdr_fold pg eh f n i st).2) E' s' → wp t (k (phdr_fold pg eh f n i st).1) Q E' s') →
  wp t (each_phdr cs pg eh n i body k) Q E s.
Proof.
  intros Hbody Hf. revert i st E s. induction n as [|n IH]; intros i st E s HP HL HQ; cbn [each_phdr phdr_fold] in *; [by apply HQ|].
  destruct (pg_read pg (phdr_offset eh i) SIZEOF_PHDR) as [result data].
  destruct (negb (result =? 0)); [by apply HQ|]. destruct (negb (_ =? SIZEOF_PHDR)).
  { eapply wp_filling_say; [apply lit_rendered; by repeat constructor|done|done]. }
  pose proof (phdr_of_wf data) as Hwf. set (ph := phdr_of data) in *. cbv zeta. destruct (_ || _); [by eapply IH|].
  destruct (p_type ph =? PT_LOAD).
  - eapply Hbody; [done|done|exact HL|]. intros E1 s1 HL1. pose proof (Hf ph st HP) as HP1.
    destruct (f ph st) as [r st']. cbn [fst snd] in *. destruct (negb (r =? 0)); [by apply HQ|]. by eapply IH.
  - destruct (unknown_segment_rendered (p_type ph)) as [text Ht]. by eapply wp_filling_say.
Qed.

Definition entry_tf (entry : Z) : trapframe := mkTf 0 0 0 0 0 entry.

Lemma wp_load_elf pg k Q E s :
  file_ok pg → runnable pg → filling t p (Raw space0) E s →
  (∀ r x c E' s', is_errno r → r ≠ 0 → filling t p c E' s' → wp t (k r x) Q E' s') →
  (∀ m entry E' s', loading t p m E' s' → follows m (pg_main pg USERSTACK (entry_tf entry)) → wp t (k 0 entry) Q E' s') →
  wp t (load_elf cs pg k) Q E s.
Proof.
  intros Hfile Hruns HL Herr Hok. unfold load_elf, runnable in *. cbv zeta in Hruns.
  destruct (proj2 Hfile 0 SIZEOF_EHDR) as [Hr _]; [unfold SIZEOF_EHDR; lia|].
  destruct (pg_read pg 0 SIZEOF_EHDR) as [result data]. cbn [fst snd] in *.
  destruct (Z.eqb_spec result 0) as [->|]; cbn [negb]; [|by eapply Herr].
  assert (is_errno ENOEXEC ∧ is_errno ENOMEM) as [He1 He2] by (unfold is_errno, sys_nerr, ENOEXEC, ENOMEM; lia).
  destruct (Z.eqb_spec (Z.of_nat (length data)) SIZEOF_EHDR) as [Hlen|]; cbn [negb].
  2:{ eapply wp_filling_say; [apply lit_rendered; by repeat constructor|done|]. intros E1 s1 HL1. by eapply Herr. }
  specialize (Hruns eq_refl Hlen). set (eh := ehdr_of data) in *. cbv zeta.
  destruct (elf_check eh); cbn [negb]; [|by eapply Herr]. specialize (Hruns eq_refl).
  set (n := Z.to_nat (e_phnum eh)) in *.
  set (raw := λ a, as_pbase1 a = 0 ∧ as_pbase2 a = 0 ∧ as_stackpbase a = 0).
  eapply (wp_each_phdr pg eh region Raw raw _ n 0 _ _ space0); [|exact region_raw|by split_and!|exact HL|].
  { intros ph k' Q' a E1 s1 _ Hraw (HE1 & HI1 & Hs1) HQ. apply wp_bind, wp_act; [done|]. intros E2 s2 HE2 HI2 Hs2. right.
    destruct (k_as_define_region_ok t E2 s2 ph a) as (s3 & Es3 & Hc3 & HI3); [done|by rewrite HE2, HE1|by rewrite HE2, HE1|apply Hraw|].
    exists (region ph a).1, s3, (upd E2 t (with_content (E2 t) (Raw (region ph a).2))). split; [exact Es3|]. split; [|apply wp_done, HQ].
    - apply gstep_upd; simpl; [intros e; rewrite HE2, HE1; simpl; by rewrite Hemb|congruence].
    - split; [by rewrite upd_eq, HE2, HE1|]. split; [done|congruence]. }
  pose proof (phdr_fold_inv pg eh region raw n 0 space0 region_raw ltac:(by split_and!)) as Hraw.
  pose proof (phdr_fold_errno pg eh region n 0 space0 Hfile ltac:(intros; apply region_errno)) as Hre.
  destruct (phdr_fold pg eh region n 0 space0) as [r1 a]. cbn [fst snd] in *. intros E1 s1 HL1.
  destruct (Z.eqb_spec r1 0) as [->|]; cbn [negb]; [|by eapply Herr]. destruct (Hruns eq_refl) as [Hlay Hfol].
  apply wp_bind. destruct HL1 as (HE1 & HI1 & Hs1). apply wp_act; [done|]. intros E2 s2 HE2 HI2 Hs2. right.
  destruct (k_as_prepare_load_ok t E2 s2 a) as (r2 & s3 & c & Es3 & Hc3 & HI3 & Hres); [done|by rewrite HE2, HE1|by rewrite HE2, HE1|done|done|].
  set (E3 := upd E2 t (with_content (E2 t) c)) in *. exists r2, s3, E3. split; [done|].
  split; [apply gstep_upd; simpl; [intros e; rewrite HE2, HE1; simpl; by rewrite Hemb|congruence]|]. apply wp_done.
  assert (filling t p c E3 s3) as HL3.
  { split; [unfold E3; by rewrite upd_eq, HE2, HE1|]. split; [done|congruence]. }
  destruct Hres as [->|(-> & m & -> & Hdom)]; [change (negb (ENOMEM =? 0)) with true; by eapply Herr|]. cbn [Z.eqb negb].
  eapply (wp_each_phdr pg eh (segment pg) Loaded (λ _, True) _ n 0 _ _ m); [|done|done|exact HL3|].
  { intros ph k' Q' m' E4 s4 Hwf _ HL4 HQ. by eapply wp_load_segment. }
  pose proof (phdr_fold_errno pg eh (segment pg) n 0 m Hfile ltac:(intros; by apply segment_errno)) as Hrs.
  specialize (Hfol m Hdom). destruct (phdr_fold pg eh (segment pg) n 0 m) as [r3 m3]. cbn [fst snd] in *. intros E4 s4 HL4.
  destruct (Z.eqb_spec r3 0) as [->|]; cbn [negb]; [|by eapply Herr]. apply wp_bind. pose proof HL4 as (HE4 & HI4 & Hs4).
  apply wp_look; [done|]. intros E5 s5 HE5 HI5 Hs5. exists 0. split.
  - destruct (own_record t E5 s5 (Loaded m3) HI5) as (th & a5 & _ & _ & _ & _ & _ & _ & Hcur & _); [by rewrite HE5, HE4..|].
    unfold k_as_complete_load. rewrite (K_bind _ _ _ _ _ Hcur). by kgo.
  - apply wp_done. cbn [Z.eqb negb]. apply (Hok m3); [by eapply filling_next|by apply Hfol].
Qed.
End Load.

(** ** runprogram *)

Section Run.
Context (SEMS LOCKS CVS : gset Z) (BOOT : Z).
Context (cs : condev) (Hlock : kprintf_lock cs ∈ LOCKS) (Hw : cs_wsem cs ∈ SEMS) (Hrd : cs_rsem cs ∈ SEMS).

#[local] Abbreviation Inv := (Inv SEMS LOCKS CVS BOOT).
#[local] Abbreviation I_run := (I_run SEMS LOCKS CVS BOOT).
#[local] Abbreviation wp := (wp SEMS LOCKS CVS BOOT).
#[local] Abbreviation filling := (filling SEMS LOCKS CVS BOOT).

Lemma k_as_create_ok t E s :
  I_run t E s →
  ∃ s', k_as_create s = Ret (k_next s, s') ∧ 0 < k_next s ∧ k_cpu s' = k_cpu s ∧ I_run t (upd E t (with_new_space (E t) (k_next s))) s'.
Proof.
  intros HI. pose proof HI as (Hc & Hi & Ht0 & ls & lr & lz & HI').
  pose proof (i_orc _ _ _ _ _ _ _ _ _ _ _ HI') as Ho. pose proof (f_next _ _ (i_fresh _ _ _ _ _ _ _ _ _ _ _ HI')) as Hn.
  pose proof (i_heap _ _ _ _ _ _ _ _ _ _ _ HI') as Hh. destruct (h_listed _ _ _ _ _ _ _ Hh t ltac:(set_solver)) as [th Hth].
  assert (I_run t E (set_alloc (k_next s + 16) [] s)) as HI2.
  { do 3 (split; [done|]). exists ls, lr, lz. apply Inv_alloc; [done|lia]. }
  set (s1 := set_user (with_spaces (λ sp, <[k_next s := space0]> sp) (k_user s))
    (set_ktlb (k_tlb s) (set_threads (λ m, <[t := with_vmspace (k_next s) th]> m) (set_alloc (k_next s + 16) [] s)))).
  exists s1. split; [|split; [lia|split; [done|]]].
  - unfold k_as_create, as_create. rewrite Ho. cbn [kmalloc_ok]. unfold get_curthread, put_thread. kgo.
    rewrite Hc, (get_thread_bind _ th) by done. kgo. by destruct s.
  - eapply (I_run_user _ _ _ _ t th); [exact HI2|done|by apply (h_ok _ _ _ _ _ _ _ Hh t th)|done|done|done|done|]. simpl. intros lz' Hlz HU2.
    pose proof (i_user _ _ _ _ _ _ _ _ _ _ _ HI') as HU.
    apply user_ok_create; [done|done|done|lia|apply (proj1 (uo_fresh _ _ _ _ _ _ _ HU))|apply (uo_vm _ _ _ _ _ _ _ HU)].
Qed.

Lemma I_run_turn_on t E s :
  I_run t E s → p_space (E t) ≠ 0 →
  ∃ s', (th ← get_curthread; k_as_activate (t_vmspace th)) s = Ret (tt, s') ∧ k_cpu s' = k_cpu s ∧ I_run t (upd E t (with_act (E t) true)) s'.
Proof.
  intros HI Hne. pose proof (I_run_live _ _ _ _ _ _ _ HI) as Hlive. destruct HI as (Hc & Hi & Ht0 & ls & lr & lz & HI).
  pose proof (i_user _ _ _ _ _ _ _ _ _ _ _ HI) as HU.
  destruct (h_listed _ _ _ _ _ _ _ (i_heap _ _ _ _ _ _ _ _ _ _ _ HI) t ltac:(set_solver)) as [th Hth].
  pose proof (uo_space _ _ _ _ _ _ _ HU t th Hth) as Hsp.
  exists (activated (t_vmspace th) s). split; [|split; [done|]].
  - unfold get_curthread. kgo. rewrite Hc, (get_thread_bind _ th) by done. apply k_as_activate_ok, HI.
  - split; [done|]. split; [rewrite upd_eq; exact Hi|]. split; [done|]. exists ls, lr, lz. apply Inv_act; [|done|].
    + apply Inv_activate; [done|rewrite Hsp; apply (uo_vm _ _ _ _ _ _ _ HU t)|]. intros u Hu.
      destruct (uo_act _ _ _ _ _ _ _ HU u Hu) as (->%list_elem_of_singleton & _ & _). by symmetry.
    + intros _. split; [set_solver|]. split; [done|]. exact Hsp.
Qed.

(** A thread that has not run a program. *)
Definition kernel_only (p : priv) : Prop :=
  p_emb p = None ∧ p_int p = 0 ∧ p_kid p = (0, None) ∧ p_space p = 0 ∧ p_node p = None ∧ kprintf_lock cs ∉ p_held p.

Lemma wp_runprogram t pg k Q E s :
  file_ok pg → runnable pg → I_run t E s → kernel_only (E t) → curspl (k_cpu s) = 0 → t ≠ BOOT →
  (∀ r E' s', is_errno r → r ≠ 0 → I_run t E' s' → curspl (k_cpu s') = 0 →
     p_emb (E' t) = None → p_int (E' t) = 0 → kprintf_lock cs ∉ p_held (E' t) → wp t (k r) Q E' s') →
  wp t (runprogram cs pg k) Q E s.
Proof.
  intros Hfile Hruns HI (K1 & K2 & K3 & K4 & K5 & K6) H0 Hb HQ. unfold runprogram.
  destruct (Z.eqb_spec (pg_open pg) 0) as [Ho|Ho]; cbn [negb]; [|by apply HQ; [apply Hfile|..]].
  apply wp_bind, wp_look; [done|]. intros E1 s1 HE1 HI1 Hs1. exists 0. split.
  { pose proof HI1 as (Hc & _ & _ & ls & lr & lz & HI1'). pose proof (i_user _ _ _ _ _ _ _ _ _ _ _ HI1') as HU.
    destruct (h_listed _ _ _ _ _ _ _ (i_heap _ _ _ _ _ _ _ _ _ _ _ HI1') t ltac:(set_solver)) as [th Hth].
    unfold get_curthread. rewrite K_bind_assoc. kgo. rewrite Hc, (get_thread_bind _ th) by done.
    rewrite (uo_space _ _ _ _ _ _ _ HU t th Hth), HE1, K4. done. }
  apply wp_done, wp_bind, wp_act; [done|]. intros E2 s2 HE2 HI2 Hs2. right. assert (E2 t = E t) as Et by congruence.
  destruct (k_as_create_ok t E2 s2 HI2) as (s3 & Es3 & Hpos & Hc3 & HI3). set (E3 := upd E2 t (with_new_space (E2 t) (k_next s2))) in *.
  assert (E3 t = with_new_space (E t) (k_next s2)) as Et3 by (unfold E3; by rewrite upd_eq, Et).
  exists (k_next s2), s3, E3. split; [done|]. split; [apply gstep_upd; simpl; [rewrite Et; by rewrite K1|congruence]|].
  apply wp_done. rewrite (proj2 (Z.eqb_neq (k_next s2) 0)) by lia.
  apply wp_bind, wp_act; [done|]. intros E4 s4 HE4 HI4 Hs4. right.
  destruct (I_run_turn_on t E4 s4 HI4) as (s5 & Es5 & Hc5 & HI5); [rewrite HE4, Et3; simpl; lia|].
  set (E5 := upd E4 t (with_act (E4 t) true)) in *. set (p := with_act (with_new_space (E t) (k_next s2)) true).
  assert (E5 t = p) as Et5 by (unfold E5; by rewrite upd_eq, HE4, Et3).
  exists 0, s5, E5. split; [by rewrite (K_bind _ _ _ _ _ Es5)|].
  split; [apply gstep_upd; simpl; [rewrite HE4, Et3; simpl; by rewrite K1|congruence]|]. apply wp_done.
  eapply (wp_load_elf SEMS LOCKS CVS BOOT cs Hlock Hw Hrd t p); try done.
  - split; [exact Et5|]. split; [done|congruence].
  - intros r x c E6 s6 Hr Hr0 (HE6 & HI6 & Hs6). rewrite (proj2 (Z.eqb_neq r 0)) by done. cbn [negb]. apply HQ; try done; by rewrite HE6.
  - intros m entry E6 s6 (HE6 & HI6 & Hs6) Hfol. cbn [Z.eqb negb]. apply wp_bind, wp_look; [done|]. intros E7 s7 HE7 HI7 Hs7. exists USERSTACK. split.
    { destruct (own_record SEMS LOCKS CVS BOOT t E7 s7 (Loaded m) HI7) as (th & a & _ & _ & _ & _ & _ & Hh & Hcur & _); [by rewrite HE7, HE6..|].
      destruct Hh as (((_ & _ & _ & (_ & Hpb & _)) & _) & _).
      unfold k_as_define_stack. rewrite (K_bind _ _ _ _ _ Hcur). kgo. unfold as_define_stack.
      rewrite (K_bind_lift (0, USERSTACK)); [done|]. rewrite (proj2 (Z.eqb_neq _ _)) by lia. done. }
    apply wp_done, wp_bind. unfold md_usermode. eapply wp_usermode; [done|congruence|]. intros E8 s8 HE8 HI8 Hs8.
    eapply wp_user; [done..|exact Hfol|done| |done|done]. rewrite HE8, HE7, HE6. by split_and!.
Qed.

Lemma failed_rendered name msg :
  Z.of_nat (length name) < 2147483648 → Z.of_nat (length msg) < 2147483648 →
  ∃ text, rendered failed_text [AStr (Some name); AStr (Some msg)] = Ret text.
Proof.
  intros H1 H2. set (ps := (PLit <$> [82; 117; 110; 110; 105; 110; 103; 32; 112; 114; 111; 103; 114; 97; 109; 32]) ++ [PStr plain (Some name)] ++
    (PLit <$> [32; 102; 97; 105; 108; 101; 100; 58; 32]) ++ [PStr plain (Some msg); PLit 10]).
  exists (text_of ps). assert (failed_text = format_of ps ∧ [AStr (Some name); AStr (Some msg)] = args_of ps) as [-> ->]
    by (split; reflexivity). apply rendered_ok.
  repeat (apply Forall_cons; split; [first [done | split; [done|unfold text_fits; simpl; lia]]|]). by apply Forall_nil.
Qed.

Lemma wp_cmd_progthread t pg Q E s :
  file_ok pg → runnable pg → 1 ≤ pg_nargs pg → Z.of_nat (length (pg_name pg)) < 128 →
  I_run t E s → kernel_only (E t) → curspl (k_cpu s) = 0 → t ≠ BOOT →
  (∀ E' s', I_run t E' s' → p_emb (E' t) = None → Q 0 E' s') →
  wp t (cmd_progthread cs pg) Q E s.
Proof.
  intros Hfile Hruns Hn Hname HI Hk H0 Hb HQ. unfold cmd_progthread.
  apply wp_bind, wp_look; [done|]. intros E1 s1 HE1 HI1 Hs1. exists 0. rewrite (proj2 (Z.leb_le _ _)) by done. split; [done|].
  apply wp_done, wp_bind. assert (∀ E2 s2, E2 t = E t → I_run t E2 s2 → curspl (k_cpu s2) = 0 →
    wp t (act_ (kcheck (Z.of_nat (length (pg_name pg)) <? 128)) ;;; runprogram cs pg (λ result,
      if negb (result =? 0) then match strerror result with
        | Ret msg => kprintf cs failed_text [AStr (Some (pg_name pg)); AStr (Some msg)] ;;; Done 0
        | _ => act kpanic end
      else Done 0)) Q E2 s2) as Hrun.
  { intros E2 s2 HE2 HI2 Hs2. apply wp_bind, wp_look; [done|]. intros E3 s3 HE3 HI3 Hs3. exists 0.
    rewrite (proj2 (Z.ltb_lt _ _)) by done. split; [done|]. apply wp_done. rewrite <- HE2, <- HE3 in Hk.
    eapply wp_runprogram; [done..|congruence|done|]. clear E3 s3 HE3 HI3 Hs3 Hk.
    intros q E3 s3 Hr Hr0 HI3 Hs3 Hemb Hint Hheld. rewrite (proj2 (Z.eqb_neq q 0)) by done. cbn [negb].
    destruct (errno_message q Hr) as (msg & -> & Hlen). destruct (failed_rendered (pg_name pg) msg) as [text Ht]; [lia|done|].
    apply wp_bind. eapply wp_kprintf; [done..|exact Ht|done|done|done|]. intros ? E4 s4 HE4 HI4 _. apply wp_done, HQ; [done|congruence]. }
  destruct (2 <? pg_nargs pg); [|apply wp_done, Hrun; congruence].
  eapply wp_kprintf; [done..|apply lit_rendered; by repeat constructor|done|rewrite HE1; apply Hk|rewrite HE1; apply Hk|].
  intros r E2 s2 HE2 HI2 Hs2. apply Hrun; congruence.
Qed.
End Run.
