(* ===== verification/Programs.v ===== *)
(** Threads that use the kernel's interfaces: every program built from the
    synchronization primitives, [thread_fork], [thread_yield], [clocksleep],
    [thread_exit] and user programs, started after boot, and the safety of
    all of them. *)

From Stdlib Require Import ZArith Lia.
From stdpp Require Import base numbers list option gmap.
From S2P Require Import Prelude Array Queue Cpu Vm Kernel Thread Machine ThreadOps ThreadInv.
From S2P Require Import Logic SynchProofs SynchRules Lifecycle ForkExit Interrupts Safety Process Loadelf ProcessProofs SyscallProofs UserProofs LoadelfProofs.

Open Scope Z_scope.

(** ** Programs *)

Inductive uprog :=
  | UReturn
  | UExit (code : Z)
  | UP (sem : Z) (k : uprog)
  | UV (sem : Z) (k : uprog)
  | UAcquire (l : Z) (k : uprog)
  | URelease (l : Z) (k : uprog)
  | UAssertHeld (l : Z) (k : uprog)
  | UWait (cv l : Z) (k : uprog)
  | USignal (cv l : Z) (k : uprog)
  | UBroadcast (cv l : Z) (k : uprog)
  | UYield (k : uprog)
  | UClocksleep (secs : Z) (k : uprog)
  | UFork (child k : uprog)
  | URun (cs : condev) (pg : program).

(** The code a program runs. *)
Fixpoint compile (p : uprog) : kcode :=
  match p with
  | UReturn => Done 0
  | UExit code => thread_exit code
  | UP sem k => P sem ;;; compile k
  | UV sem k => act_ (V sem) ;;; compile k
  | UAcquire l k => lock_acquire l ;;; compile k
  | URelease l k => act_ (lock_release l) ;;; compile k
  | UAssertHeld l k => act_ (r ← lock_do_i_hold l; kcheck (r =? 1)) ;;; compile k
  | UWait cv l k => cv_wait cv l ;;; compile k
  | USignal cv l k => act_ (cv_signal cv l) ;;; compile k
  | UBroadcast cv l k => act_ (cv_broadcast cv l) ;;; compile k
  | UYield k => thread_yield ;;; compile k
  | UClocksleep n k => clocksleep n ;;; compile k
  | UFork child k => thread_fork (compile child) ;;; compile k
  | URun cs pg => cmd_progthread cs pg
  end.

(** The shared objects. *)
Record env := mkEnv { e_sems : gset Z; e_locks : gset Z; e_cvs : gset Z }.

(** The discipline: the objects exist, a lock is released only while it is
    held, the first thread does not exit, and user programs are run by threads
    of their own that do not hold the console's lock.  [cv_signal] and
    [cv_broadcast] release the lock in this kernel, so a thread does not have
    it afterwards; the use synch.h describes, with a [lock_release] of its own
    after them, is outside the discipline (and fails: see
    [signal_then_release_breaks_exclusion]). *)
Fixpoint disciplined (v : env) (first : bool) (held : gset Z) (p : uprog) : bool :=
  match p with
  | UReturn => true
  | UExit _ => negb first
  | UP sem k | UV sem k => bool_decide (sem ∈ e_sems v) && disciplined v first held k
  | UAcquire l k => bool_decide (l ∈ e_locks v) && disciplined v first ({[l]} ∪ held) k
  | URelease l k =>
      bool_decide (l ∈ e_locks v) && bool_decide (l ∈ held) && disciplined v first (held ∖ {[l]}) k
  | UAssertHeld l k =>
      bool_decide (l ∈ e_locks v) && bool_decide (l ∈ held) && disciplined v first held k
  | UWait cv l k =>
      bool_decide (cv ∈ e_cvs v) && bool_decide (l ∈ e_locks v) && bool_decide (l ∈ held) &&
      disciplined v first held k
  | USignal cv l k | UBroadcast cv l k =>
      bool_decide (cv ∈ e_cvs v) && bool_decide (l ∈ e_locks v) && bool_decide (l ∈ held) &&
      disciplined v first (held ∖ {[l]}) k
  | UYield k => disciplined v first held k
  | UClocksleep _ k => disciplined v first held k
  | UFork child k => disciplined v false ∅ child && disciplined v first held k
  | URun cs _ =>
      negb first && bool_decide (kprintf_lock cs ∈ e_locks v) && bool_decide (cs_wsem cs ∈ e_sems v) &&
      bool_decide (cs_rsem cs ∈ e_sems v) && bool_decide (kprintf_lock cs ∉ held)
  end.

(** The user programs among them can be run. *)
Fixpoint programs_ok (p : uprog) : Prop :=
  match p with
  | UReturn | UExit _ => True
  | UP _ k | UV _ k | UAcquire _ k | URelease _ k | UAssertHeld _ k | UWait _ _ k | USignal _ _ k
  | UBroadcast _ _ k | UYield k | UClocksleep _ k => programs_ok k
  | UFork child k => programs_ok child ∧ programs_ok k
  | URun _ pg => file_ok pg ∧ runnable pg ∧ 1 ≤ pg_nargs pg ∧ Z.of_nat (length (pg_name pg)) < 128
  end.

(** ** The start: boot, then the creation of the shared objects *)

Definition booted (o : oracle) (u : ustate) : res kstate :=
  m ← run 60 (mkM (kstate0 o u) (boot (Done 0)) ∅); Ret (m_s m).

Fixpoint create_sems (counts : list Z) (acc : gset Z) : K (gset Z) :=
  match counts with
  | [] => mret acc
  | c :: cs => a ← sem_create c; create_sems cs ({[a]} ∪ acc)
  end.

Fixpoint create_locks (n : nat) (acc : gset Z) : K (gset Z) :=
  match n with
  | O => mret acc
  | S n' => a ← lock_create; create_locks n' ({[a]} ∪ acc)
  end.

Fixpoint create_cvs (n : nat) (acc : gset Z) : K (gset Z) :=
  match n with
  | O => mret acc
  | S n' => a ← cv_create; create_cvs n' ({[a]} ∪ acc)
  end.

(** Semaphores with the given counts, [nl] locks and [nc] condition
    variables, created by the first thread. *)
Definition start (o : oracle) (u : ustate) (counts : list Z) (nl nc : nat) : res (env * kstate) :=
  s ← booted o u;
  (ss ← create_sems counts ∅;
   ls ← create_locks nl ∅;
   cs ← create_cvs nc ∅;
   mret (mkEnv ss ls cs)) s.

(** Memory does not run out: no allocation fails. *)
Definition memory_suffices (o : oracle) : Prop := o = [].

(** The machine that runs [p] as the first thread. *)
Definition launch (p : uprog) (s : kstate) : machine := mkM s (compile p) ∅.

(** The first thread's structure is the second block that boot allocates. *)
Definition boot_thread : Z := 32.

(** ** Programs are safe *)

Section Programs.
Context (v : env).

#[local] Abbreviation I_run := (I_run (e_sems v) (e_locks v) (e_cvs v) boot_thread).
#[local] Abbreviation I_resume := (I_resume (e_sems v) (e_locks v) (e_cvs v) boot_thread).
#[local] Abbreviation wp := (wp (e_sems v) (e_locks v) (e_cvs v) boot_thread).

(** A thread between two calls. *)
Definition ready (t : Z) (held : gset Z) (E : ghost) (s : kstate) : Prop :=
  I_run t E s ∧ curspl (k_cpu s) = 0 ∧ E t = mkPriv PLive None held 0 None 0 None (0, None) false.

Lemma ready_run t held E s :
  ready t held E s →
  I_run t E s ∧ p_int (E t) = 0 ∧ p_emb (E t) = None ∧ p_held (E t) = held ∧ p_kid (E t) = (0, None).
Proof. intros (HI & _ & HE). rewrite HE. done. Qed.

Lemma wp_prog p first held t E s :
  disciplined v first held p = true → programs_ok p → ready t held E s → (t = boot_thread → first = true) →
  wp t (compile p) (λ _ E' s', I_run t E' s' ∧ p_emb (E' t) = None) E s.
Proof.
  revert first held t E s. induction p; intros first held t E s Hd Hp Hr Hb; cbn [compile disciplined programs_ok] in *;
    destruct (ready_run _ _ _ _ Hr) as (HI & Hint & Hemb & Hheld & Hkid); destruct Hr as (_ & Hspl & HE);
    repeat match goal with
      | H : _ && _ = true |- _ => apply andb_prop in H as [? ?]
      | H : bool_decide _ = true |- _ => apply bool_decide_eq_true in H
      end.
  - done.
  - apply wp_thread_exit; [done|done|]. intros Ht. by rewrite Hb in Hd.
  - apply wp_bind, wp_P; [done..|]. intros r E' s' HE' HI' Hs'. eapply IHp; [done|done|by split_and!; congruence|done].
  - apply wp_bind, wp_V; [done..|]. intros r E' s' HE' HI' Hs'. eapply IHp; [done|done|by split_and!; congruence|done].
  - apply wp_bind, wp_lock_acquire; [done..|]. intros r E' s' HE' HI' Hs'.
    eapply IHp; [done|done|split_and!; [done|congruence|by rewrite HE', HE]|done].
  - apply wp_bind, wp_lock_release; [done|done|congruence|]. intros r E' s' HE' HI' Hs'.
    eapply IHp; [done|done|split_and!; [done|congruence|by rewrite HE', HE]|done].
  - apply wp_bind, wp_held; [done|done|congruence|]. intros r E' s' HE' HI' Hs'.
    eapply IHp; [done|done|by split_and!; congruence|done].
  - apply wp_bind, wp_cv_wait; [done|done|done|done|congruence|]. intros r E' s' HE' HI' Hs'.
    eapply IHp; [done|done|by split_and!; congruence|done].
  - apply wp_bind, wp_cv_signal; [done|done|done|congruence|]. intros r E' s' HE' HI' Hs'.
    eapply IHp; [done|done|split_and!; [done|congruence|by rewrite HE', HE]|done].
  - apply wp_bind, wp_cv_broadcast; [done|done|done|congruence|]. intros r E' s' HE' HI' Hs'.
    eapply IHp; [done|done|split_and!; [done|congruence|by rewrite HE', HE]|done].
  - apply wp_bind, wp_thread_yield; [done|]. intros r E' s' HE' HI' Hs'.
    eapply IHp; [done|done|by split_and!; congruence|done].
  - apply wp_bind, wp_clocksleep; [done..|]. intros r E' s' HE' HI' Hs'.
    eapply IHp; [done|done|by split_and!; congruence|done].
  - destruct Hp as [Hp1 Hp2]. apply wp_bind, wp_thread_fork; [done|done|done|done| |].
    + intros e E' s' He HE' HR'. apply wp_mi_threadstart; [done|done|done|].
      intros E2 s2 HE2 HI2 Hs2. eapply IHp1; [done|done|split_and!; [done|done|by rewrite HE2]|done].
    + intros r E' s' HE' HI' Hs'. eapply IHp2; [done|done|by split_and!; congruence|done].
  - destruct Hp as (Hp1 & Hp2 & Hp3 & Hp4). eapply (wp_cmd_progthread _ _ _ _ cs); [done..| |done| |done].
    + rewrite HE. by split_and!.
    + intros Ht. by rewrite Hb in *.
Qed.

End Programs.

(** ** The state after boot *)

Definition ghost0 : ghost := upd (λ _, p0) boot_thread plive.

Lemma ghost0_other u : u ≠ boot_thread → ghost0 u = p0.
Proof. intros. unfold ghost0. by rewrite upd_ne. Qed.

Lemma ghost0_held u : p_held (ghost0 u) = ∅ ∧ p_node (ghost0 u) = None.
Proof. unfold ghost0, upd. by destruct (u =? boot_thread). Qed.

Definition boot_kstate (u : ustate) : kstate :=
  mkK {[ boot_thread := mkThread 0 None 1 0 0 0 0 0 ]} boot_thread
    (Some (mkArray 0 0 None)) (Some (mkArray 0 0 None)) 1
    (Some (mkQueue 32 0 0 (replicate 32 None))) [mkPid 1 1 0 0 None 0 0] ∅ ∅ ∅ ∅ []
    (replicate NUM_TLB (0, 0)) (mkCpu 1 0) 0 0 64 [] u.

Lemma booted_eq u : booted [] u = Ret (boot_kstate u).
Proof. vm_compute. reflexivity. Qed.

(** The memory at boot: no process, and the bounds of what is free. *)
Definition fresh_user (u : ustate) : Prop := u_spaces u = ∅ ∧ u_active u = 0 ∧ ram_ok u.

Lemma ghost0_space u : p_space (ghost0 u) = 0 ∧ p_act (ghost0 u) = false ∧ p_mem (ghost0 u) = None.
Proof. unfold ghost0, upd. by destruct (u =? boot_thread). Qed.

Lemma booted_user u :
  fresh_user u → user_ok [boot_thread] [] ghost0 (k_threads (boot_kstate u)) 64 (replicate NUM_TLB (0, 0)) u.
Proof.
  intros (Hs & Ha & Hr). split; try done.
  - intros x th. simpl. rewrite lookup_singleton_Some. intros [<- <-]. by rewrite (proj1 (ghost0_space _)).
  - by intros x th ?%elem_of_nil.
  - intros x m. by rewrite (proj2 (proj2 (ghost0_space x))).
  - intros x y _. by rewrite (proj1 (ghost0_space x)).
  - intros x y m m' a b _. by rewrite (proj2 (proj2 (ghost0_space x))).
  - intros x. by rewrite (proj1 (proj2 (ghost0_space x))).
  - split; [by rewrite length_replicate|]. rewrite Hs. split; [|done].
    intros i hi lo [[= -> ->] _]%lookup_replicate. done.
  - rewrite Hs, Ha. split; [done|]. by intros x [? ?].
  - intros x. by rewrite (proj1 (ghost0_space x)).
  - intros x. by rewrite (proj1 (ghost0_space x)).
Qed.

Lemma booted_inv us :
  fresh_user us → Inv ∅ ∅ ∅ boot_thread boot_thread [boot_thread] [] [] [] ghost0 (boot_kstate us).
Proof.
  intros Hus.
  assert (∀ t th, k_threads (boot_kstate us) !! t = Some th →
    t = boot_thread ∧ th = mkThread 0 None 1 0 0 0 0 0) as Hone.
  { intros t th. simpl. rewrite lookup_singleton_Some. by intros [<- <-]. }
  split.
  - split; simpl.
    + eexists; split; [done|]. apply array_rep_nil.
    + eexists; split; [done|]. split; [|done]. by apply (q_create_rep [] [] _ 32).
    + eexists; split; [done|]. apply array_rep_nil.
  - split; simpl; [apply NoDup_singleton|done| |set_solver].
    intros t. destruct (Z.eq_dec t boot_thread) as [->|]; [set_solver|].
    rewrite ghost0_other by done. simpl. set_solver.
  - split.
    + intros t Ht. assert (t = boot_thread) as -> by set_solver. by eexists.
    + intros t th Hth. by destruct (Hone t th Hth) as [-> ->].
    + intros t th Hx _ Hl. by rewrite ghost0_other in Hl.
    + intros u e b. unfold ghost0, upd. by destruct (u =? boot_thread).
    + intros u u' e b b'. unfold ghost0, upd. by destruct (u =? boot_thread).
  - intros t th Ht. set_solver.
  - by intros a x Hx.
  - by intros a x Hx.
  - split; [done| |by intros a [? ?]..|].
    + intros t [th Hth]. by destruct (Hone t th Hth) as [-> ->].
    + intros u Hu. apply ghost0_other. intros ->. by compute in Hu.
  - split; [|done| | | |].
    + intros [|i] p Hp; [|done]. simpl in Hp. by simplify_eq.
    + intros [|i] p Hp; [lia|done].
    + intros [|i] [|j] p p' Hp Hp'; done || lia.
    + intros t th Hth. left. by destruct (Hone t th Hth) as [-> ->].
    + intros [|i] p Hp; [|done]. simpl in Hp. simplify_eq. split_and!; simpl; [done|done|lia].
  - split; [by intros a Ha%elem_of_empty..| |done].
    intros u i a. by rewrite (proj2 (ghost0_held u)).
  - split; [by unfold is_u32|]. by split; [left|].
  - done.
  - by apply booted_user.
Qed.

(** ** Creating the shared objects *)

(** What the first thread's start-up code keeps. *)
Definition starting (v : env) (s : kstate) : Prop :=
  k_curthread s = boot_thread ∧ k_in_interrupt s = 0 ∧ curspl (k_cpu s) = 0 ∧
  Inv (e_sems v) (e_locks v) (e_cvs v) boot_thread boot_thread [boot_thread] [] [] [] ghost0 s.

Lemma sem_create_start S L C c s :
  starting (mkEnv S L C) s → 0 ≤ c ≤ INT_MAX →
  ∃ a s', sem_create c s = Ret (a, s') ∧ starting (mkEnv ({[a]} ∪ S) L C) s' ∧ a ∉ S.
Proof.
  intros (Hc & Hi & Hspl & HI) Hcnt. pose proof (f_next _ _ (i_fresh _ _ _ _ _ _ _ _ _ _ _ HI)) as Hn.
  exists (k_next s), (set_sems (λ m, <[k_next s := mkSem c]> m) (set_alloc (k_next s + 32) [] s)). split.
  { unfold sem_create. kgo. rewrite (kalloc_bind _ s) by apply HI.
    rewrite (proj2 (Z.eqb_neq _ _)) by lia. rewrite kalloc_bind by done.
    rewrite (proj2 (Z.eqb_neq _ _)) by (simpl; lia). kgo.
    unfold set_alloc, set_sems, mret, K_mret; simpl. by rewrite <- Z.add_assoc. }
  destruct HI as [Hl Hp Hh Hs Hsm Hlk [F1 F2 F3 F4 F5 F6] [P1 P2 P3 P4 P5 P6]
    [T1 T2 T3 T4 T5] Hcpu Ho Hus]. simpl in *.
  split; [|by intros Ha%T1%F3; lia]. do 3 (split; [done|]).
  assert (∀ x, is_Some (k_sems s !! x) → x ≠ k_next s) as Hne by (intros x Hx%F3; lia).
  split; simpl; try done; [by destruct Hl|by intros t th Ht%elem_of_nil| | | | |].
  5: by apply (user_ok_next _ _ _ _ _ _ _ _ Hus); lia.
  - intros x y. rewrite lookup_insert_Some. intros [[<- <-]|[_ Hy]]; [done|by eapply Hsm].
  - split; simpl; [lia|intros x Hx%F2; lia| |intros x Hx%F4; lia| |intros u Hu; apply F6; lia].
    + intros x. rewrite lookup_insert_is_Some. intros [<-|[_ Hx%F3]]; lia.
    + intros x. rewrite lookup_insert_is_Some. intros [<-|[_ Hx]]; [|by apply F5].
      apply eq_None_not_Some. intros Hx%F4. lia.
  - split; simpl; try done.
    + intros i p Hp1 Hi1. destruct (P3 i p Hp1 Hi1) as (Hns & x & Hx & Hup).
      specialize (Hne (parentSem p) ltac:(eauto)). split; [set_solver|]. exists x.
      by rewrite lookup_insert_ne.
    + intros i p Hp1. destruct (P6 i p Hp1) as (C1 & C2 & C3). split_and!; [done|done|]. intros Hi1 x.
      destruct (P3 i p Hp1 Hi1) as (_ & x' & Hx' & _). rewrite lookup_insert_ne; [by apply C3|]. apply not_eq_sym, Hne. eauto.
  - split; simpl; [|done| |intros u a; rewrite (proj2 (ghost0_held u)); set_solver|done].
    + intros x Hx. apply lookup_insert_is_Some. destruct (decide (k_next s = x)); [by left|right].
      split; [done|]. apply T1. set_solver.
    + intros x Hx. destruct (T3 x Hx) as (? & ? & ?). split_and!; [lia|lia| |done].
      rewrite lookup_insert_ne; [done|lia].
Qed.

Lemma lock_create_start S L C s :
  starting (mkEnv S L C) s →
  ∃ a s', lock_create s = Ret (a, s') ∧ starting (mkEnv S ({[a]} ∪ L) C) s' ∧ a ∉ L.
Proof.
  intros (Hc & Hi & Hspl & HI). pose proof (f_next _ _ (i_fresh _ _ _ _ _ _ _ _ _ _ _ HI)) as Hn.
  exists (k_next s), (set_locks (λ m, <[k_next s := mkLock 1 None]> m) (set_alloc (k_next s + 32) [] s)). split.
  { unfold lock_create. rewrite (kalloc_bind _ s) by apply HI.
    rewrite (proj2 (Z.eqb_neq _ _)) by lia. rewrite kalloc_bind by done.
    rewrite (proj2 (Z.eqb_neq _ _)) by (simpl; lia). unfold put_lock. kgo.
    unfold set_alloc, set_locks, mret, K_mret; simpl. by rewrite <- Z.add_assoc. }
  destruct HI as [Hl Hp Hh Hs Hsm Hlk [F1 F2 F3 F4 F5 F6] [P1 P2 P3 P4 P5 P6]
    [T1 T2 T3 T4 T5] Hcpu Ho Hus]. simpl in *.
  split; [|by intros Ha%T2%F4; lia]. do 3 (split; [done|]).
  split; simpl; try done; [by destruct Hl|by intros t th Ht%elem_of_nil| | | |].
  4: by apply (user_ok_next _ _ _ _ _ _ _ _ Hus); lia.
  - intros l y. rewrite lookup_insert_Some. intros [[<- <-]|[_ Hy]]; [|by eapply Hlk].
    left. split; [done|]. intros u. rewrite (proj1 (ghost0_held u)). set_solver.
  - split; simpl; [lia|intros x Hx%F2; lia|intros x Hx%F3; lia| | |intros u Hu; apply F6; lia].
    + intros x. rewrite lookup_insert_is_Some. intros [<-|[_ Hx%F4]]; lia.
    + intros x Hx. rewrite lookup_insert_ne; [by apply F5|]. apply F3 in Hx. lia.
  - split; simpl; [done| | |intros u a; rewrite (proj2 (ghost0_held u)); set_solver|done].
    + intros x Hx. apply lookup_insert_is_Some. destruct (decide (k_next s = x)); [by left|right].
      split; [done|]. apply T2. set_solver.
    + intros x Hx. destruct (T3 x Hx) as (? & ? & ?). split_and!; [lia|lia|done|].
      rewrite lookup_insert_ne; [done|lia].
Qed.

Lemma cv_create_start S L C s :
  starting (mkEnv S L C) s →
  ∃ a s', cv_create s = Ret (a, s') ∧ starting (mkEnv S L ({[a]} ∪ C)) s' ∧ a ∉ C.
Proof.
  intros (Hc & Hi & Hspl & HI). pose proof (f_next _ _ (i_fresh _ _ _ _ _ _ _ _ _ _ _ HI)) as Hn.
  exists (k_next s), (set_cvs (λ m, {[k_next s]} ∪ m) (set_alloc (k_next s + 32) [] s)). split.
  { unfold cv_create. rewrite (kalloc_bind _ s) by apply HI.
    rewrite (proj2 (Z.eqb_neq _ _)) by lia. rewrite kalloc_bind by done.
    rewrite (proj2 (Z.eqb_neq _ _)) by (simpl; lia). kgo.
    unfold set_alloc, set_cvs, mret, K_mret; simpl. by rewrite <- Z.add_assoc. }
  destruct HI as [Hl Hp Hh Hs Hsm Hlk [F1 F2 F3 F4 F5 F6] [P1 P2 P3 P4 P5 P6]
    [T1 T2 T3 T4 T5] Hcpu Ho Hus]. simpl in *.
  split; [|by intros [Ha _]%T3; lia]. do 3 (split; [done|]).
  split; simpl; try done; [by destruct Hl|by intros t th Ht%elem_of_nil| | |].
  3: by apply (user_ok_next _ _ _ _ _ _ _ _ Hus); lia.
  - split; simpl; [lia|intros x Hx%F2; lia|intros x Hx%F3; lia|intros x Hx%F4; lia|done|intros u Hu; apply F6; lia].
  - split; simpl; [done|done| |intros u a; rewrite (proj2 (ghost0_held u)); set_solver|done].
    intros x Hx. apply elem_of_union in Hx as [->%elem_of_singleton|Hx].
    + split_and!; [lia|lia| |]; apply eq_None_not_Some; intros Hx; [apply F3 in Hx|apply F4 in Hx]; lia.
    + destruct (T3 x Hx) as (? & ? & ?). split_and!; [lia|lia|done|done].
Qed.

Lemma create_sems_start counts S L C s :
  starting (mkEnv S L C) s → Forall (λ c, 0 ≤ c ≤ INT_MAX) counts →
  ∃ S' s', create_sems counts S s = Ret (S', s') ∧ starting (mkEnv S' L C) s' ∧
    size S' = (length counts + size S)%nat.
Proof.
  revert S s. induction counts as [|c cs IH]; intros S s Hs Hc; simpl; [by exists S, s|].
  apply Forall_cons in Hc as [Hc Hcs].
  destruct (sem_create_start S L C c s Hs Hc) as (a & s1 & E1 & Hs1 & Ha).
  rewrite (K_bind _ _ _ _ _ E1). destruct (IH _ _ Hs1 Hcs) as (S' & s' & E2 & Hs' & Hn).
  exists S', s'. split_and!; [done..|]. rewrite Hn, size_union, size_singleton by set_solver. lia.
Qed.

Lemma create_locks_start n S L C s :
  starting (mkEnv S L C) s →
  ∃ L' s', create_locks n L s = Ret (L', s') ∧ starting (mkEnv S L' C) s' ∧ size L' = (n + size L)%nat.
Proof.
  revert L s. induction n as [|n IH]; intros L s Hs; simpl; [by exists L, s|].
  destruct (lock_create_start S L C s Hs) as (a & s1 & E1 & Hs1 & Ha).
  rewrite (K_bind _ _ _ _ _ E1). destruct (IH _ _ Hs1) as (L' & s' & E2 & Hs' & Hn).
  exists L', s'. split_and!; [done..|]. rewrite Hn, size_union, size_singleton by set_solver. lia.
Qed.

Lemma create_cvs_start n S L C s :
  starting (mkEnv S L C) s →
  ∃ C' s', create_cvs n C s = Ret (C', s') ∧ starting (mkEnv S L C') s' ∧ size C' = (n + size C)%nat.
Proof.
  revert C s. induction n as [|n IH]; intros C s Hs; simpl; [by exists C, s|].
  destruct (cv_create_start S L C s Hs) as (a & s1 & E1 & Hs1 & Ha).
  rewrite (K_bind _ _ _ _ _ E1). destruct (IH _ _ Hs1) as (C' & s' & E2 & Hs' & Hn).
  exists C', s'. split_and!; [done..|]. rewrite Hn, size_union, size_singleton by set_solver. lia.
Qed.

Lemma start_ok u counts nl nc :
  fresh_user u → Forall (λ c, 0 ≤ c ≤ INT_MAX) counts →
  ∃ v s, start [] u counts nl nc = Ret (v, s) ∧ starting v s ∧
    size (e_sems v) = length counts ∧ size (e_locks v) = nl ∧ size (e_cvs v) = nc.
Proof.
  intros Hu Hc. assert (starting (mkEnv ∅ ∅ ∅) (boot_kstate u)) as H0 by (by split_and!; try apply booted_inv).
  destruct (create_sems_start counts ∅ ∅ ∅ _ H0 Hc) as (S & s1 & E1 & H1 & N1).
  destruct (create_locks_start nl S ∅ ∅ s1 H1) as (L & s2 & E2 & H2 & N2).
  destruct (create_cvs_start nc S L ∅ s2 H2) as (C & s3 & E3 & H3 & N3).
  exists (mkEnv S L C), s3. unfold start. rewrite booted_eq, mbind_Ret.
  rewrite (K_bind _ _ _ _ _ E1), (K_bind _ _ _ _ _ E2), (K_bind _ _ _ _ _ E3).
  rewrite size_empty in *. simpl. split_and!; [done..|lia|lia|lia].
Qed.

(** A started machine is safe. *)
Lemma starting_safe v s p :
  starting v s → disciplined v true ∅ p = true → programs_ok p →
  msafe (e_sems v) (e_locks v) (e_cvs v) boot_thread (launch p s).
Proof.
  intros (Hc & Hi & Hspl & HI) Hd Hok. exists boot_thread, ghost0. split.
  - eapply wp_mono; [|eapply wp_prog; [done|done| |done]]; [done|].
    split; [|done]. repeat (split; [done|]). by exists [], [], [].
  - split.
    + intros u Hu. by rewrite ghost0_other.
    + intros u e. unfold ghost0, upd. by destruct (u =? boot_thread).
Qed.

(** ** Reachable machines

    [reached u counts nl nc p m]: [m] is a machine that can be reached, while
    memory does not run out, when the first thread creates the objects and
    runs the disciplined program [p]. *)
Definition reached (u : ustate) (counts : list Z) (nl nc : nat) (p : uprog) (m : machine) : Prop :=
  fresh_user u ∧ Forall (λ c, 0 ≤ c ≤ INT_MAX) counts ∧
  ∃ v s, start [] u counts nl nc = Ret (v, s) ∧ disciplined v true ∅ p = true ∧ programs_ok p ∧
    kreach (e_sems v) (launch p s) m.

Lemma reached_safe u counts nl nc p m :
  reached u counts nl nc p m → ∃ S L C, msafe S L C boot_thread m.
Proof.
  intros (Hu & Hc & v & s & Hs & Hd & Hok & Hr).
  destruct (start_ok u counts nl nc Hu Hc) as (v' & s' & Hs' & Hst & _). rewrite Hs' in Hs. injection Hs as <- <-.
  do 3 eexists. eapply msafe_reach; [|done]. by apply starting_safe.
Qed.

Lemma reached_inv u counts nl nc p m :
  reached u counts nl nc p m → irq_allowed m = true →
  ∃ S L C t E rs ls lr lz, Inv S L C boot_thread t rs ls lr lz E (m_s m) ∧
    (rs = [t] ∧ k_curthread (m_s m) = t ∨ rs = [] ∧ lr = [] ∧ k_curthread (m_s m) = 0).
Proof.
  intros Hr Hal. destruct (reached_safe _ _ _ _ _ _ Hr) as (S & L & C & Hm).
  destruct (msafe_inv _ _ _ _ _ Hm Hal) as (t & E & rs & ls & lr & lz & ? & ?). eauto 20.
Qed.
