(* ===== verification/System.v ===== *)
(** What the thread system guarantees to every disciplined program, under
    every order of interrupts; and runs that show what happens outside the
    discipline. *)

From Stdlib Require Import ZArith Lia.
From stdpp Require Import base numbers list option gmap.
From S2P Require Import Prelude Array Queue Cpu Vm Kernel Thread Machine ThreadOps ThreadInv.
From S2P Require Import Logic SynchProofs SynchRules Interrupts Safety Process Loadelf ProcessProofs SyscallProofs UserProofs LoadelfProofs Programs.

Open Scope Z_scope.

(** ** Executing machines *)

(** No counter is near its limit: decidable. *)
Definition sane (s : kstate) : bool :=
  (k_numthreads s <? thread_lim) &&
  (match k_zombies s with Some a => array_getnum a <? thread_lim | None => true end) &&
  forallb (λ kx, negb (sem_count kx.2 =? INT_MAX)) (map_to_list (k_sems s)) &&
  (Z.of_nat (length (k_pids s)) <? INT_MAX).

Lemma sane_ok s : sane s = true → ¬ exhausted s.
Proof.
  unfold sane. rewrite !andb_true_iff. intros [[[H1 H2] H3] H4]. zb.
  intros [?|[(a & Ha & ?)|[(k & x & Hk & Hx)|?]]]; [lia| | |lia].
  - rewrite Ha in H2. zb. lia.
  - rewrite forallb_forall in H3. specialize (H3 (k, x)). simpl in H3. rewrite Hx, Z.eqb_refl in H3.
    discriminate H3. by apply list_elem_of_In, elem_of_map_to_list.
Qed.

(** A script: how often the processor steps before the next interrupt. *)
Fixpoint play (script : list (nat * irq)) (last : nat) (m : machine) : option machine :=
  let fix steps n m :=
    match n with
    | O => Some m
    | S n' => if sane (m_s m) then match exec m with Ret m' => steps n' m' | _ => None end else None
    end in
  match script with
  | [] => steps last m
  | (n, i) :: rest =>
      m' ← steps n m;
      if sane (m_s m') && irq_allowed m' then play rest last (take_irq i m') else None
  end.

Lemma play_reach SEMS script last m0 m m' :
  kreach SEMS m0 m → Forall (λ x, irq_ok SEMS x.2) script → play script last m = Some m' →
  kreach SEMS m0 m'.
Proof.
  assert (∀ n m m', kreach SEMS m0 m →
    (fix steps n m := match n with
      | O => Some m
      | S n' => if sane (m_s m) then match exec m with Ret m' => steps n' m' | _ => None end else None
      end) n m = Some m' → kreach SEMS m0 m') as Hsteps.
  { induction n as [|n IH]; intros m1 m2 Hr E1; [by simplify_eq|].
    destruct (sane (m_s m1)) eqn:Hs; [|done]. destruct (exec m1) as [m3| | |] eqn:E2; try done.
    eapply IH; [|done]. eapply kreach_exec; [done|by apply sane_ok|done]. }
  revert m. induction script as [|[n i] script IH]; intros m Hr Hok; simpl; [by apply Hsteps|].
  apply Forall_cons in Hok as [Hi Hok]. intros (m1 & E1 & E2)%bind_Some.
  destruct (sane (m_s m1) && irq_allowed m1) eqn:Hs; [|done]. apply andb_prop in Hs as [Hs Hal].
  eapply IH; [|done|done]. apply kreach_irq; [|by apply sane_ok|done|done]. by eapply Hsteps.
Qed.

(** ** Guarantees *)

(** C1: whatever disciplined program the first thread runs, with user
    programs that reckon with the answers the system calls can give them, and
    whenever the clock and the devices interrupt, the kernel never fails an
    assertion, follows a bad pointer or gets stuck, unless a counter has
    reached its limit.  [UAssertHeld] in the program asserts that
    [lock_do_i_hold] is true, so locks exclude each other; [Impossible] in a
    user program panics, so system calls and memory answer as [follows] says.
    Every number of semaphores, locks and condition variables can be created.

    The conditions are real ones, outside which the kernel does fail:
    - memory does not run out: no [kmalloc] fails ([append_pid] would follow
      a null pointer; [fork] may still answer ENOMEM for want of pages);
    - [disciplined]: a lock is released only while it is held, and not after
      [cv_signal] or [cv_broadcast] on it, which give it up already, although
      synch.h has the caller keep it and release it; the first thread does
      not exit; a user program has a thread of its own;
    - [programs_ok]: the executables are [runnable], that is they have two
      segments that fit the address space and, with the stack, the TLB, and
      their programs are in [follows]: [waitpid] is given a status pointer to
      a word of the program's memory. *)
Theorem kernel_safe (o : oracle) (u : ustate) (counts : list Z) (nl nc : nat) :
  memory_suffices o → fresh_user u → Forall (λ c, 0 ≤ c ≤ INT_MAX) counts →
  ∃ v s, start o u counts nl nc = Ret (v, s) ∧
    size (e_sems v) = length counts ∧ size (e_locks v) = nl ∧ size (e_cvs v) = nc ∧
    ∀ p m, disciplined v true ∅ p = true → programs_ok p → kreach (e_sems v) (launch p s) m →
      exhausted (m_s m) ∨ ∃ m', exec m = Ret m'.
Proof.
  intros -> Hu Hc. destruct (start_ok u counts nl nc Hu Hc) as (v & s & E & Hs & N1 & N2 & N3).
  exists v, s. split_and!; [done..|]. intros p m Hd Hok Hr.
  destruct (msafe_exec (e_sems v) (e_locks v) (e_cvs v) boot_thread m) as [?|(m' & ? & _)]; [|by left|by right; exists m'].
  eapply msafe_reach; [|done]. by apply starting_safe.
Qed.

(** C4: wherever an interrupt can be taken, every thread is in exactly one
    place (on the processor, asleep, runnable or a zombie), the structures of
    all of them exist, and [numthreads] counts those that are not zombies. *)
Theorem threads_in_one_place u0 counts nl nc p m :
  reached u0 counts nl nc p m → irq_allowed m = true →
  ∃ a q z ls lr lz,
    k_sleepers (m_s m) = Some a ∧ array_rep a ls ∧
    k_runqueue (m_s m) = Some q ∧ queue_rep q lr ∧
    k_zombies (m_s m) = Some z ∧ array_rep z lz ∧
    let cur := if k_curthread (m_s m) =? 0 then [] else [k_curthread (m_s m)] in
    NoDup (cur ++ ls ++ lr ++ lz) ∧
    k_numthreads (m_s m) = Z.of_nat (length (cur ++ ls ++ lr)) ∧
    ∀ t, t ∈ cur ++ ls ++ lr ++ lz → is_Some (k_threads (m_s m) !! t).
Proof.
  intros Hr Hal. destruct (reached_inv _ _ _ _ _ _ Hr Hal) as (S & L & C & t & E & rs & ls & lr & lz & HI & Hcur).
  pose proof HI as [[(a & ? & ?) (q & ? & ? & _) (z & ? & ?)] [N1 N2 _ _] Hh _ _ _ Hf _ _ _ _ _].
  exists a, q, z, ls, lr, lz. do 6 (split; [done|]).
  assert ((if k_curthread (m_s m) =? 0 then [] else [k_curthread (m_s m)]) = rs) as ->.
  { destruct Hcur as [[-> ->]|(-> & _ & ->)]; [|done]. rewrite (proj2 (Z.eqb_neq _ _)); [done|].
    pose proof (f_threads _ _ Hf t (h_listed _ _ _ _ _ _ _ Hh t ltac:(set_solver))). lia. }
  split_and!; [done..|]. apply Hh.
Qed.

(** C3: no wake-up is lost.  Wherever an interrupt can be taken, a thread that
    is asleep on a semaphore finds its count at zero, and a thread that is
    asleep on a lock finds the lock taken; and the processor is idle only
    when no thread is runnable. *)
Theorem no_lost_wakeup u0 counts nl nc p m a ls t th :
  reached u0 counts nl nc p m → irq_allowed m = true →
  k_sleepers (m_s m) = Some a → array_rep a ls → t ∈ ls → k_threads (m_s m) !! t = Some th →
  (∀ x, k_sems (m_s m) !! t_sleepaddr th = Some x → sem_count x = 0) ∧
  (∀ x, k_locks (m_s m) !! t_sleepaddr th = Some x → lock_count x = 0) ∧
  (k_curthread (m_s m) = 0 → runqueue_empty (m_s m) = true).
Proof.
  intros Hr Hal Ha Hrep Ht Hth.
  destruct (reached_inv _ _ _ _ _ _ Hr Hal) as (S & L & C & u & E & rs & ls' & lr & lz & HI & Hcur).
  pose proof HI as [[(a' & Ha' & Hrep') (q & Hq & Hqr & _) _] _ Hh Hs _ _ Hf _ _ _ _ _]. simplify_eq.
  rewrite (array_rep_inj _ _ _ Hrep Hrep') in *. destruct (Hs t th Ht Hth) as (_ & ? & ?).
  split_and!; [done..|]. intros Hc0. destruct Hcur as [[-> Hc]|(_ & -> & _)].
  - pose proof (f_threads _ _ Hf u (h_listed _ _ _ _ _ _ _ Hh u ltac:(set_solver))). lia.
  - unfold runqueue_empty. rewrite Hq. by rewrite (q_empty_ok _ _ Hqr).
Qed.

(** C5: two threads never have the same pid, and a thread's pid is marked
    used and leads back to the thread (except for the first thread). *)
Theorem pids_unique u0 counts nl nc p m t u tht thu :
  reached u0 counts nl nc p m → irq_allowed m = true →
  k_threads (m_s m) !! t = Some tht → k_threads (m_s m) !! u = Some thu →
  (pidValue tht = pidValue thu → t = u) ∧
  (pidValue tht = 1 ∨ ∃ i pd, pid_search (k_pids (m_s m)) (pidValue tht) = Some i ∧
     k_pids (m_s m) !! i = Some pd ∧ isUsed pd = 1 ∧ myThread pd = t).
Proof.
  intros Hr Hal Ht Hu.
  destruct (reached_inv _ _ _ _ _ _ Hr Hal) as (S & L & C & x & E & rs & ls & lr & lz & HI & _).
  pose proof (i_pids _ _ _ _ _ _ _ _ _ _ _ HI) as [P1 P2 _ _ P5 _].
  split.
  - intros Heq. destruct (P5 t tht Ht) as [(E1 & -> & _)|(Hv & pd & Hp & _ & <-)],
      (P5 u thu Hu) as [(E2 & -> & _)|(Hw & pe & Hpe & _ & <-)]; [done|lia|lia|].
    rewrite Heq in Hp. congruence.
  - destruct (P5 t tht Ht) as [(? & _)|(Hv & pd & Hp & ? & ?)]; [by left|right].
    exists (Z.to_nat (pidValue tht - 1)), pd. split; [|done].
    apply pid_search_ok; [done|]. apply lookup_lt_Some in Hp. lia.
Qed.

(** ** Runs

    16 MB of memory, of which the kernel has the first. *)
Definition demo_user : ustate :=
  mkUstate ∅ 0 1048576 16777216 16777216 (λ _, 0) [] (λ _, 0) (λ _, (0, 0)).

Lemma demo_fresh : fresh_user demo_user.
Proof. unfold fresh_user, ram_ok, demo_user; simpl. split_and!; done || lia. Qed.

(** A program that forks, contends for a lock and waits for a semaphore. *)
Definition demo : uprog :=
  UFork (UP 64 (UV 64 UReturn))
    (UYield (UAcquire 96
      (UFork (UAcquire 96 (UAssertHeld 96 (URelease 96 UReturn)))
        (UYield (UAssertHeld 96 (UYield (URelease 96 (UV 64 (UYield UReturn))))))))).

Definition demo_start : env * kstate :=
  match start [] demo_user [0] 1 1 with Ret x => x | _ => (mkEnv ∅ ∅ ∅, boot_kstate demo_user) end.

Lemma demo_start_eq : start [] demo_user [0] 1 1 = Ret demo_start.
Proof. vm_compute. reflexivity. Qed.

Lemma demo_disciplined : disciplined demo_start.1 true ∅ demo = true.
Proof. vm_compute. reflexivity. Qed.

Lemma demo_programs : programs_ok demo.
Proof. repeat split. Qed.

Lemma demo_counts : Forall (λ c, 0 ≤ c ≤ INT_MAX) [0].
Proof. apply Forall_singleton. unfold INT_MAX. lia. Qed.

Lemma Ret_inj {A} (x y : A) : Ret x = Ret y → x = y.
Proof. intros H. by injection H. Qed.

Lemma demo_reached script last m :
  Forall (λ x, irq_ok (e_sems demo_start.1) x.2) script →
  play script last (launch demo demo_start.2) = Some m → reached demo_user [0] 1 1 demo m.
Proof.
  intros Hok E. split; [apply demo_fresh|]. split; [apply demo_counts|]. exists demo_start.1, demo_start.2.
  split; [rewrite demo_start_eq; by destruct demo_start|]. split; [apply demo_disciplined|]. split; [apply demo_programs|].
  eapply play_reach; [apply kreach_refl|done|done].
Qed.

(** The machine after one clock interrupt: a thread waits for the semaphore. *)
Definition demo_machine : machine :=
  match play [(38%nat, Iclock)] 7 (launch demo demo_start.2) with
  | Some m => m | None => launch demo demo_start.2 end.

Lemma demo_machine_reached :
  reached demo_user [0] 1 1 demo demo_machine ∧ irq_allowed demo_machine = true.
Proof.
  split; [|vm_compute; reflexivity].
  apply (demo_reached [(38%nat, Iclock)] 7).
  - by apply Forall_singleton.
  - unfold demo_machine. destruct (play [(38%nat, Iclock)] 7 (launch demo demo_start.2)) eqn:E; [done|].
    assert (match play [(38%nat, Iclock)] 7 (launch demo demo_start.2) with
            | Some _ => true | None => false end = true) as Hs by (vm_compute; reflexivity).
    rewrite E in Hs. discriminate Hs.
Qed.

Lemma threads_in_one_place_witness :
  k_curthread (m_s demo_machine) = 32 ∧
  ∃ a q z ls lr lz,
    k_sleepers (m_s demo_machine) = Some a ∧ array_rep a ls ∧
    k_runqueue (m_s demo_machine) = Some q ∧ queue_rep q lr ∧
    k_zombies (m_s demo_machine) = Some z ∧ array_rep z lz.
Proof.
  split; [vm_compute; reflexivity|].
  destruct (threads_in_one_place demo_user [0] 1 1 demo demo_machine (proj1 demo_machine_reached)
    (proj2 demo_machine_reached)) as (a & q & z & ls & lr & lz & H1 & H2 & H3 & H4 & H5 & H6 & _).
  exists a, q, z, ls, lr, lz. split_and!; [exact H1|exact H2|exact H3|exact H4|exact H5|exact H6].
Defined.

(** Thread 160 sleeps on semaphore 64, which is down. *)
Lemma no_lost_wakeup_witness :
  ∃ th, k_threads (m_s demo_machine) !! 160 = Some th ∧ t_sleepaddr th = 64 ∧
    ∀ x, k_sems (m_s demo_machine) !! 64 = Some x → sem_count x = 0.
Proof.
  assert (∃ th, k_threads (m_s demo_machine) !! 160 = Some th ∧ t_sleepaddr th = 64) as (th & Hth & Hs)
    by (vm_compute; eauto).
  exists th. split; [exact Hth|]. split; [exact Hs|]. rewrite <- Hs.
  apply (no_lost_wakeup demo_user [0] 1 1 demo demo_machine (mkArray 1 2 (Some [Some 160; None])) [160] 160 th
    (proj1 demo_machine_reached) (proj2 demo_machine_reached)); [vm_compute; reflexivity| |by left|exact Hth].
  split; [reflexivity|]. split; [unfold array_lim; simpl; lia|]. split; reflexivity.
Defined.

Lemma pids_unique_witness :
  ∃ th, k_threads (m_s demo_machine) !! 160 = Some th ∧
    (pidValue th = 1 ∨ ∃ i pd, pid_search (k_pids (m_s demo_machine)) (pidValue th) = Some i ∧
       k_pids (m_s demo_machine) !! i = Some pd ∧ isUsed pd = 1 ∧ myThread pd = 160).
Proof.
  assert (is_Some (k_threads (m_s demo_machine) !! 160)) as [th Hth] by (vm_compute; eauto).
  exists th. split; [exact Hth|].
  exact (proj2 (pids_unique demo_user [0] 1 1 demo demo_machine 160 160 th th (proj1 demo_machine_reached)
    (proj2 demo_machine_reached) Hth Hth)).
Defined.

(** ** Outside the discipline *)

(** Runs a program as the first thread, for [n] steps. *)
Definition runs (counts : list Z) (nl nc : nat) (p : uprog) (n : nat) : res machine :=
  '(v, s) ← start [] demo_user counts nl nc; run n (launch p s).

(** [cv_signal] releases the lock, so the usual [cv_signal]; [lock_release]
    leaves the lock's count at 2 ... *)
Theorem signal_then_release_count :
  ∃ m, runs [] 1 1 (UAcquire 64 (USignal 96 64 (URelease 64 UReturn))) 40 = Ret m ∧
    m_code m = Done 0 ∧ k_locks (m_s m) !! 64 = Some (mkLock 2 (Some 0)).
Proof. eexists. split; [vm_compute; reflexivity|]. split; reflexivity. Qed.

(** ... and two threads then hold it at once: the first one's check that it
    holds the lock fails. *)
Theorem signal_then_release_breaks_exclusion :
  runs [] 1 1
    (UAcquire 64 (USignal 96 64 (URelease 64
      (UFork (UAcquire 64 (UYield UReturn))
        (UAcquire 64 (UYield (UAssertHeld 64 UReturn))))))) 100 = Panic.
Proof. vm_compute. reflexivity. Qed.

(** Releasing a lock another thread holds is not noticed. *)
Theorem foreign_release_unnoticed :
  runs [] 1 0 (UFork (UAcquire 64 (UYield (UAssertHeld 64 UReturn)))
    (UYield (URelease 64 (UYield UReturn)))) 100 = Panic.
Proof. vm_compute. reflexivity. Qed.

(** The first thread has no semaphore for its parent, so its exit fails the
    assertion in [V]. *)
Theorem first_exit_panics : runs [] 0 0 (UExit 0) 20 = Panic.
Proof. vm_compute. reflexivity. Qed.

(** When memory runs out, [thread_create] returns NULL with interrupts off. *)
Theorem thread_create_oom_spl :
  ∃ m, run 20 (mkM (set_alloc (k_next (boot_kstate demo_user)) [false] (boot_kstate demo_user)) thread_create ∅) = Ret m ∧
    m_code m = Done 0 ∧ curspl (k_cpu (m_s m)) = SPL_HIGH ∧ curspl (k_cpu (boot_kstate demo_user)) = 0.
Proof. eexists. split; [vm_compute; reflexivity|]. split_and!; reflexivity. Qed.
