(* ===== verification/Processes.v ===== *)
(** What the kernel guarantees to user processes, and a program that shows it
    at work: it prints, forks, and waits for its child. *)

From Stdlib Require Import ZArith Lia.
From stdpp Require Import base numbers list option gmap.
From S2P Require Import Prelude Array Queue Cpu Vm Kernel Thread Machine ThreadOps ThreadInv.
From S2P Require Import Logic SynchProofs SynchRules Interrupts Safety Process Loadelf ProcessProofs SyscallProofs UserProofs LoadelfProofs Programs System.

Open Scope Z_scope.

(** C2: processes are isolated.  Wherever an interrupt can be taken, the
    loaded address spaces of two different threads have no byte of physical
    memory in common, and while a thread's address space is the active one,
    the TLB translates every address as that address space does. *)
Theorem process_memory_private u0 counts nl nc p m x y thx thy a b :
  reached u0 counts nl nc p m → irq_allowed m = true → x ≠ y →
  k_threads (m_s m) !! x = Some thx → k_threads (m_s m) !! y = Some thy →
  t_vmspace thx ≠ 0 → t_vmspace thy ≠ 0 →
  u_spaces (k_user (m_s m)) !! t_vmspace thx = Some a → u_spaces (k_user (m_s m)) !! t_vmspace thy = Some b →
  as_stackpbase a ≠ 0 → as_stackpbase b ≠ 0 →
  (∀ v w q, translate a v = Some q → translate b w = Some q → False) ∧
  (u_active (k_user (m_s m)) = t_vmspace thx →
   ∀ v q, is_u32 v → tlb_lookup (k_tlb (m_s m)) v = Some q → translate a v = Some q).
Proof.
  intros Hr Hal Hxy Hx Hy Hvx Hvy Ha Hb Hsa Hsb.
  destruct (reached_inv _ _ _ _ _ _ Hr Hal) as (S & L & C & t & E & rs & ls & lr & lz & HI & _).
  pose proof (i_user _ _ _ _ _ _ _ _ _ _ _ HI) as HU.
  assert (∀ z thz c, k_threads (m_s m) !! z = Some thz → t_vmspace thz ≠ 0 →
    u_spaces (k_user (m_s m)) !! t_vmspace thz = Some c → as_stackpbase c ≠ 0 →
    t_vmspace thz = p_space (E z) ∧ ∃ mz, p_mem (E z) = Some (Loaded mz)) as Hload.
  { intros z thz c Hz Hvz Hc Hsc. pose proof (uo_space _ _ _ _ _ _ _ HU z thz Hz) as Hsp. split; [done|]. rewrite Hsp in *.
    destruct (uo_some _ _ _ _ _ _ _ HU z Hvz) as [cz Hcz]. destruct (uo_valid _ _ _ _ _ _ _ HU z cz Hcz) as (_ & c' & Hc' & Hh).
    destruct cz as [r|mz]; [|eauto]. destruct Hh as [-> ?]. by simplify_eq. }
  destruct (Hload x thx a Hx Hvx Ha Hsa) as (Ex & mx & Hmx), (Hload y thy b Hy Hvy Hb Hsb) as (Ey & my & Hmy).
  split.
  - rewrite Ex in Ha. rewrite Ey in Hb. exact (uo_apart _ _ _ _ _ _ _ HU x y mx my a b Hxy Hmx Hmy Ha Hb).
  - intros Hac v q Hv. destruct (uo_tlb _ _ _ _ _ _ _ HU) as (_ & _ & Ht). rewrite Hac in Ht. by apply Ht.
Qed.

(** ** A program *)

Definition exit_user (code : Z) : user := Syscall (mkTf SYS__exit code 0 0 0 4194312) (λ _, Impossible).

(** It prints "hi" from its data segment and forks; the child exits with 7,
    the parent waits for it.  The answers it does not reckon with are marked. *)
Definition hello_main (stack : Z) (tf : trapframe) : user :=
  Syscall (mkTf SYS_write 1 268435456 2 0 4194304) (λ r1,
    if negb ((tf_a3 r1 =? 0) && (tf_v0 r1 =? 2)) then Impossible else
    Syscall (mkTf SYS_fork 0 0 0 0 4194308) (λ r2,
      if negb (tf_a3 r2 =? 0) then exit_user 1
      else if tf_v0 r2 =? 0 then exit_user 7
      else Syscall (mkTf SYS_waitpid (tf_v0 r2) (stack - 4) 0 0 4194316) (λ r3,
        if negb (tf_a3 r3 =? 0) then exit_user 1
        else if tf_v0 r3 =? tf_v0 r2 then exit_user 0 else Impossible))).

(** Its file: the header, two program headers, four bytes of text, and "hi". *)
Definition hello_file : list Z :=
  [127; 69; 76; 70; 1; 2; 1; 0; 0; 0; 0; 0; 0; 0; 0; 0;
   0; 2; 0; 8; 0; 0; 0; 1; 0; 64; 0; 0; 0; 0; 0; 52; 0; 0; 0; 0; 0; 0; 0; 0;
   0; 52; 0; 32; 0; 2; 0; 0; 0; 0; 0; 0;
   0; 0; 0; 1; 0; 0; 0; 116; 0; 64; 0; 0; 0; 64; 0; 0; 0; 0; 0; 4; 0; 0; 0; 4; 0; 0; 0; 5; 0; 0; 0; 4;
   0; 0; 0; 1; 0; 0; 0; 120; 16; 0; 0; 0; 16; 0; 0; 0; 0; 0; 0; 2; 0; 0; 0; 20; 0; 0; 0; 6; 0; 0; 0; 4;
   0; 0; 0; 12; 104; 105].

Definition hello : program :=
  mkProgram [104; 101; 108; 108; 111] 1 0 (λ off n, (0, take (Z.to_nat n) (drop (Z.to_nat off) hello_file))) hello_main.

Lemma hello_file_ok : file_ok hello.
Proof.
  split; [unfold is_errno, sys_nerr; simpl; lia|]. intros off n Hn. cbn [hello pg_read fst snd].
  split; [unfold is_errno, sys_nerr; lia|]. rewrite length_take. lia.
Qed.

Definition hello_space : addrspace := mkAs 4194304 0 1 268435456 0 1 0.

Lemma hello_regions :
  phdr_fold hello (ehdr_of (pg_read hello 0 SIZEOF_EHDR).2) region 2 0 space0 = (0, hello_space).
Proof. vm_compute. reflexivity. Qed.

Lemma read_bytes_mapped m va n : (∀ j, 0 ≤ j < Z.of_nat n → is_Some (m (va + j))) → is_Some (read_bytes m va n).
Proof.
  revert va. induction n as [|n IH]; intros va H; simpl; [eauto|].
  destruct (H 0) as [b Hb]; [lia|]. rewrite Z.add_0_r in Hb. rewrite Hb. simpl.
  destruct (IH (va + 1)) as [l Hl]; [|rewrite Hl; simpl; eauto].
  intros j Hj. rewrite <- Z.add_assoc. apply H. lia.
Qed.

Lemma u32_s32 z : u32 (s32 z) = u32 z.
Proof. unfold u32, s32. rewrite Zminus_mod_idemp_l. f_equal. lia. Qed.

Lemma follows_exit m code : is_u32 code → follows m (exit_user code).
Proof. intros Hc. split; [|done]. by split_and!; try done; unfold is_u32; simpl; lia. Qed.

Lemma regs_u32 a b c d e :
  is_u32 a → is_u32 b → is_u32 c → is_u32 d → is_u32 e → regs_ok (mkTf a b c d 0 e).
Proof. by intros; split_and!. Qed.

(** Waiting for a child, with the status in the last word of the stack. *)
Lemma follows_wait m pid :
  (∀ j, 0 ≤ j < 4 → is_Some (m (USERSTACK - 4 + j))) →
  follows m (Syscall (mkTf SYS_waitpid (u32 pid) (USERSTACK - 4) 0 0 4194316) (λ r3,
    if negb (tf_a3 r3 =? 0) then exit_user 1
    else if tf_v0 r3 =? u32 pid then exit_user 0 else Impossible)).
Proof.
  intros Hst. assert (∀ k, 0 ≤ k < 4294967296 → is_u32 k) as Hu by (by intros).
  split; [apply regs_u32; try apply u32_range; apply Hu; unfold SYS_waitpid, USERSTACK, USERTOP, MIPS_KSEG0; lia|].
  unfold answers. cbn [tf_v0 tf_a0 tf_a1 tf_a2]. change (s32 SYS_waitpid) with 3.
  cbn [Z.eqb SYS_reboot SYS_write SYS_read SYS_sleep SYS___time SYS__exit SYS_getpid SYS_fork SYS_waitpid Pos.eqb].
  unfold wait_result. change (s32 0) with 0. cbn [Z.eqb negb].
  rewrite (proj2 (Z.eqb_neq (USERSTACK - 4) 0)) by (unfold USERSTACK, USERTOP, MIPS_KSEG0; lia). split; [|split].
  - split; [unfold USERSTACK, USERTOP, MIPS_KSEG0; lia|]. split; [done|].
    repeat (apply Forall_cons; split; [apply Hst; lia|]). by apply Forall_nil.
  - apply follows_exit, Hu. lia.
  - intros code. unfold syscall_result. cbn [Z.eqb negb tf_a0 tf_a1 tf_a2 tf_a3 tf_v0 tf_epc].
    assert (u32 (s32 (u32 pid)) = u32 pid) as -> by (rewrite u32_s32; apply u32_id, u32_range).
    rewrite Z.eqb_refl. apply follows_exit, Hu. lia.
Qed.

(** What [hello] needs of its memory. *)
Lemma follows_hello m tf :
  is_Some (m 268435456) → is_Some (m 268435457) →
  (∀ j, 0 ≤ j < 4 → is_Some (m (USERSTACK - 4 + j))) → follows m (hello_main USERSTACK tf).
Proof.
  intros M0 M1 Hst. assert (∀ k, 0 ≤ k < 4294967296 → is_u32 k) as Hu by (by intros).
  split; [apply regs_u32; apply Hu; unfold SYS_write; lia|].
  assert (write_result m 1 268435456 2 = (0, 2)) as Hwr.
  { unfold write_result. cbn [Z.eqb negb andb STDOUT_FILENO STDERR_FILENO Pos.eqb].
    rewrite decide_True by (unfold user_range, USERTOP, MIPS_KSEG0; lia).
    change (Z.to_nat 2) with 2%nat. destruct (read_bytes_mapped m 268435456 2) as [l ->]; [|done].
    intros j Hj. assert (j = 0 ∨ j = 1) as [->| ->] by lia; done. }
  unfold answers. cbn [tf_v0 tf_a0 tf_a1 tf_a2]. change (s32 SYS_write) with 6. change (s32 1) with 1. cbn [Z.eqb SYS_reboot SYS_write Pos.eqb].
  rewrite Hwr. cbn [fst snd]. change (syscall_result _ 0 2) with (mkTf 2 1 268435456 2 0 4194308). cbn [tf_a3 tf_v0 Z.eqb Pos.eqb andb negb].
  split; [apply regs_u32; apply Hu; unfold SYS_fork; lia|].
  unfold answers. cbn [tf_v0 tf_a0 tf_a1 tf_a2]. change (s32 SYS_fork) with 2.
  cbn [Z.eqb SYS_reboot SYS_write SYS_read SYS_sleep SYS___time SYS__exit SYS_getpid SYS_fork Pos.eqb]. split; [|split].
  - change (syscall_result _ ENOMEM (-1)) with (mkTf 4 0 0 0 1 4194312). cbn [tf_a3 Z.eqb negb]. apply follows_exit, Hu. lia.
  - intros pid Hpid. unfold syscall_result. cbn [Z.eqb negb tf_a0 tf_a1 tf_a2 tf_a3 tf_v0 tf_epc].
    destruct (u32 pid =? 0); [apply follows_exit, Hu; lia|by apply follows_wait].
  - change (syscall_result _ 0 0) with (mkTf 0 0 0 0 0 4194312). cbn [tf_a3 tf_v0 Z.eqb negb]. apply follows_exit, Hu. lia.
Qed.

Lemma hello_runnable : runnable hello.
Proof.
  unfold runnable. cbv zeta. change (Z.to_nat (e_phnum (ehdr_of (pg_read hello 0 SIZEOF_EHDR).2))) with 2%nat.
  rewrite hello_regions. cbn [fst snd]. intros _ _ _ _. split.
  { unfold layout_ok, seg_fits, hello_space, DUMBVM_STACKPAGES, NUM_TLB, USERTOP, MIPS_KSEG0; simpl. split_and!; done || lia. }
  intros m Hdom _. apply follows_hello.
  - apply load_keeps, Hdom. vm_compute. eauto.
  - apply load_keeps, Hdom. vm_compute. eauto.
  - intros j Hj. apply load_keeps, Hdom. assert (j = 0 ∨ j = 1 ∨ j = 2 ∨ j = 3) as [->|[->|[->| ->]]] by lia; vm_compute; eauto.
Qed.

(** ** A run

    The console's lock is 128, its semaphores are 64 and 96. *)
Definition hello_console : condev := mkCondev 128 64 96.

Definition hello_boot : uprog := UFork (URun hello_console hello) (UYield (UYield (UYield (UYield UReturn)))).

Definition hello_start : env * kstate :=
  match start [] demo_user [1000; 0] 1 0 with Ret x => x | _ => (mkEnv ∅ ∅ ∅, boot_kstate demo_user) end.

Lemma hello_start_eq : start [] demo_user [1000; 0] 1 0 = Ret hello_start.
Proof. vm_compute. reflexivity. Qed.

Lemma hello_disciplined : disciplined hello_start.1 true ∅ hello_boot = true.
Proof. vm_compute. reflexivity. Qed.

Lemma hello_programs : programs_ok hello_boot.
Proof. split; [|done]. split; [apply hello_file_ok|]. split; [apply hello_runnable|]. done. Qed.

Lemma hello_counts : Forall (λ c, 0 ≤ c ≤ INT_MAX) [1000; 0].
Proof. repeat (apply Forall_cons; split; [unfold INT_MAX; lia|]). by apply Forall_nil. Qed.

Lemma hello_reached n m :
  play [] n (launch hello_boot hello_start.2) = Some m → reached demo_user [1000; 0] 1 0 hello_boot m.
Proof.
  intros E. split; [apply demo_fresh|]. split; [apply hello_counts|]. exists hello_start.1, hello_start.2.
  split; [rewrite hello_start_eq; by destruct hello_start|]. split; [apply hello_disciplined|]. split; [apply hello_programs|].
  eapply play_reach; [apply kreach_refl|done|exact E].
Qed.

(** The program in the same machine, from boot to the last thread: it prints
    "hi", the two exit codes follow, and its memory and threads are gone. *)
Lemma hello_output :
  (λ m, (if m_code m is Done _ then true else false, u_out (k_user (m_s m)), map_to_list (u_spaces (k_user (m_s m))), k_numthreads (m_s m)))
    <$> play [] 200 (launch hello_boot hello_start.2) = Some (true, [104; 105; 55; 48], [], 1).
Proof. vm_compute. reflexivity. Qed.

Lemma kernel_safe_witness :
  ∃ v s, start [] demo_user [1000; 0] 1 0 = Ret (v, s) ∧ disciplined v true ∅ hello_boot = true ∧
    ∀ m, kreach (e_sems v) (launch hello_boot s) m → exhausted (m_s m) ∨ ∃ m', exec m = Ret m'.
Proof.
  destruct (kernel_safe [] demo_user [1000; 0] 1 0 eq_refl demo_fresh hello_counts) as (v & s & E & _ & _ & _ & H).
  exists v, s. split; [exact E|]. rewrite hello_start_eq in E. apply Ret_inj in E.
  assert (disciplined v true ∅ hello_boot = true) as Hd
    by (change v with (v, s).1; rewrite <- E; apply hello_disciplined).
  split; [exact Hd|]. intros m Hm. exact (H hello_boot m Hd hello_programs Hm).
Defined.

(** The machine after the fork: threads 160 and 320 are parent and child. *)
Definition hello_machine : machine :=
  match play [] 100 (launch hello_boot hello_start.2) with
  | Some m => m | None => launch hello_boot hello_start.2 end.

Lemma hello_machine_reached : reached demo_user [1000; 0] 1 0 hello_boot hello_machine.
Proof.
  apply (hello_reached 100). unfold hello_machine.
  destruct (play [] 100 (launch hello_boot hello_start.2)) eqn:E; [done|].
  assert (match play [] 100 (launch hello_boot hello_start.2) with Some _ => true | None => false end = true) as Hs by (vm_compute; reflexivity).
  rewrite E in Hs. discriminate Hs.
Qed.

Definition parent_space : addrspace := mkAs 4194304 1048576 1 268435456 1052672 1 1056768.
Definition child_space : addrspace := mkAs 4194304 1105920 1 268435456 1110016 1 1114112.

Lemma process_memory_private_witness :
  u_active (k_user (m_s hello_machine)) = 256 ∧
  (∀ v w q, translate parent_space v = Some q → translate child_space w = Some q → False).
Proof.
  split; [vm_compute; reflexivity|].
  assert (∃ thx thy, k_threads (m_s hello_machine) !! 160 = Some thx ∧ k_threads (m_s hello_machine) !! 320 = Some thy ∧
    t_vmspace thx = 256 ∧ t_vmspace thy = 304) as (thx & thy & Hx & Hy & Ex & Ey) by (vm_compute; eauto 10).
  refine (proj1 (process_memory_private demo_user [1000; 0] 1 0 hello_boot hello_machine 160 320 thx thy parent_space child_space
    hello_machine_reached _ _ Hx Hy _ _ _ _ _ _)); rewrite ?Ex, ?Ey; try (vm_compute; reflexivity); unfold parent_space, child_space; simpl; lia.
Defined.
